(* ===== verification/_CoqProject ===== *)
-Q . S2P
Prelude.v
Ring.v
Tailq.v
RxTypes.v
RxTimers.v
RxReorder.v
RxWindow.v
RxReorderProofs.v
RxFlush.v
RxSession.v
RxPn.v
RxDefrag.v
RxInd.v
RxFrame.v
RxMichael.v
RxDecap.v
RxDecapProofs.v
RxDefragProofs.v
RxRoundtrip.v
RxSamples.v
CdfLock.v
CsrLinkList.v
CsrLinkListProofs.v
Cfg.v
CfgBoot.v
CfgTable.v
CfgProofs.v
CfgMsg.v
CfgMsgProofs.v
CfgQuery.v
CfgDriver.v
Dph.v
DphProofs.v
DphQuery.v
Ce.v
CeRing.v
CeSrc.v
CeDest.v
CeQueue.v
TxPool.v
TxPoolRep.v
TxPoolOps.v
TxPoolLife.v
TxPoolFlow.v
TxPoolSystem.v
TxPoolSteps.v
TxPoolTheorems.v
TxPoolSamples.v
PeerTypes.v
PeerFind.v
PeerLife.v
PeerRep.v
PeerDelete.v
PeerErase.v
PeerInv.v
PeerOps.v
PeerMap.v
PeerLocal.v
PeerAttach.v
PeerDetach.v
PeerAttachCheck.v
PeerSystem.v
PeerTheorems.v
LimAid.v
LimAidProofs.v
HtcQueue.v
HtcQueueProofs.v
HtcTypes.v
HtcSend.v
HtcSim.v
HtcSystem.v
HtcView.v
HtcMoves.v
HtcInv.v
HtcSteps.v
HtcDrain.v
HtcHif.v
HtcComplete.v
HtcTheorems.v
HtcSettle.v
