(* ===== verification/Prelude.v ===== *)
(** The Wi-Fi host driver: a verification of its data path and of the data
    structures its control path is built on.

    * Approach

    A C function over a state [S] is a value of [CM S A] (below): explicit state
    passing, with [None] for undefined behaviour.  Memory is a finite map per
    kind of object, keyed by the object's pointer, so a freed object is absent
    and aliasing is visible.  Integers are [Z] with their wrap-around written
    out ([u8], [u16], [u32]).  Loops over a linked structure are fixpoints whose
    fuel is the number of objects that exist ([num_nbufs], the size of an array
    or of a map): a well-formed list visits an object at most once, and the
    theorems that conclude [Some _] show that this is enough.  Loops over a
    counter recurse on the counter.  Code that is not in the repository (the
    kernel, the hardware, the firmware) is an argument: a record of functions
    ([rx_env], [defrag_env]), a class ([KMutex]) or a step of the system.

    * Receive path (src/core/dp/txrx)

    - Tailq: the TAILQ macros of src/core/cds/src/queue.h refine lists.
    - RxTypes, RxFrame: the receive path's state (ol_txrx_types.h) and the
      network buffers with their bytes (src/core/cdf/src/i_cdf_nbuf.h).
    - RxTimers: waiting lists of ol_rx_defrag.c, ol_rx_reorder_timeout.c.
    - RxReorder, with RxWindow, RxReorderProofs, RxFlush and RxSession:
      ol_rx_reorder.c against an abstract window, a list of chains of frames.
      Release and flush deliver every frame once, in window order, or free it
      once; store, the duplicate check, the first hole, ADDBA and DELBA.
    - RxPn: ol_rx_pn.c, replay filter by packet number.
    - RxDefrag: storing fragments; RxMichael, RxDecap, RxDecapProofs,
      RxDefragProofs and RxRoundtrip: [ol_rx_defrag] of ol_rx_defrag.c, that it
      undoes a sender's fragmentation and leaks no buffer.
    - RxInd: the rx indication handler of ol_rx.c, which calls all of these.
    - RxSamples: concrete states for the theorems.

    * Transmit path

    - TxPool, with TxPoolRep, TxPoolOps, TxPoolLife and TxPoolFlow:
      ol_txrx_flow_control.c and ol_tx_desc.c, pools of descriptors on free
      lists.  TxPoolSystem, TxPoolSteps, TxPoolTheorems and TxPoolSamples: the
      pools under any order of the target's messages (as [legal] has them),
      transmissions and completions; no descriptor is lost or handed out twice.
    - Ce, with CeRing, CeSrc, CeDest and CeQueue (src/core/hif/src/ce):
      a copy engine is two queues under every interleaving of host and
      hardware; completions come in order and every buffer sent is completed.

    * Host-target channel (src/core/htc/htc_send.c)

    Packets wait on an endpoint's transmit queue for credits of the target or
    for descriptors of the bus, are handed to the bus, and wait on a lookup
    queue until their transfer completes.
    - HtcQueue, HtcQueueProofs: the queues of dl_list.h and htc_packet.h over
      the words of their links implement lists of packets (the class
      [QueueRefinement]).  Ring: circular doubly linked lists.
    - HtcTypes, HtcSend: the state of htc_internal.h, and the functions of
      htc_send.c, cut where the transmit lock is released; [run_task] runs one
      such section, with what the bus does in it as an argument ([hif_env]).
      Trailers of htc_recv.c bring the credits back.
    - HtcSim: the sections do the same over any two implementations of queues
      of which one refines the other.  HtcSystem: any number of calls,
      interleaved at the cuts, with the bus and the target, and what the code
      relies on them and on its callers for.
    - HtcView, HtcMoves: a program logic for the sections over lists.  HtcInv,
      HtcSteps, HtcDrain, HtcHif, HtcComplete: the invariant (where each packet
      is, who drains an endpoint, which transfers are under way, whose the
      credits are, who will send what waits), and that every section keeps it.
      HtcTheorems: what follows for the queues of the code, and samples.
    - HtcSettle: the work that is left in a state of the system, which every
      section makes less, so that any schedule of the tasks comes to its end
      ([channel_settles]) in a state to which [no_stranded_packet] applies.
    A loop over a queue has the queue's depth as fuel; that this is enough is
    part of [channel_never_faults].  Bundles, the transmit scheduler and the
    profiling counters are for other builds.

    * Control path

    - Cfg, CfgBoot, CfgTable, CfgProofs, CfgMsg, CfgMsgProofs, CfgQuery and
      CfgDriver (src/core/mac/src/cfg): the configuration store refines a map
      from identifiers to parameters, starts with the driver's tables, and
      answers the messages that read and set parameters.  The class
      [CfgReader] of CfgProofs is how other components read it.
    - Dph, DphProofs, DphQuery (src/core/mac/src/dph): the table of stations.
    - LimAid, LimAidProofs (src/core/mac/src/pe/lim): association identifiers.
    - CsrLinkList, CsrLinkListProofs (src/core/sme/src/csr): linked lists of
      the station management entity; CdfLock (src/core/cdf): their lock.

    * Peers (src/core/dp/txrx/ol_txrx_peer_find.c, ol_txrx.c)

    Which peers and
    virtual devices exist, and who refers to them.  Peers and devices live in
    finite maps from their pointers; their bins and lists are the tail queues of
    Tailq.
    - PeerTypes, PeerFind, PeerLife: the state; the address table and the
      identifier map; attachment, the target's map and unmap messages, and the
      reference count that deletes a peer, and with the last one its device.
    - PeerRep, PeerDelete, PeerErase: the lists behind the pointers, with holes
      for the peer that is being linked or unlinked; deletion; the erasure of
      the whole table.
    - PeerInv: the invariant, which says whom each reference belongs
      to.  PeerOps, PeerMap, PeerLocal, PeerAttach, PeerDetach,
      PeerAttachCheck: every operation keeps it.  PeerSystem, PeerTheorems: the
      runs of the registry and what holds in them.

    * Theorems

    A theorem whose comment begins with a C and a number is a property of the
    program: refinements of an abstract object (a list, a map, a queue, a
    window) come first, then invariants over every run of a system, then the
    behaviour of single operations, errors included.  Where the code does not
    do what it means to do, the theorem states what it does: see
    [ol_rx_reorder_store_frag_restarts] and [ol_rx_defrag_tkip_inverted]
    (inverted results of [cdf_mem_compare]), [ol_rx_fraglist_insert_misplaces],
    [duplicate_then_release_faults], [deficient_pool_stranded],
    [idle_pool_stays_paused], [proc_set_req_overflows],
    [dph_lookup_assoc_id_spins], and the examples [refusal_loses_credits],
    [kept_packet_is_not_mapped], [refusal_during_search],
    [overlapping_completions_lose], [shared_pool_dangles], [wrong_vdev_dangles]
    and [wait_is_inverted].

    * What the systems take for granted

    Each system of interleaved operations has rules, and its theorems speak of
    the runs that the rules allow.  Beyond what callers, target and bus promise,
    they leave out the following, which the code itself does not rule out.
    - The registry of peers ([PeerSystem]): operations run one at a time.  In
      the code only the reference count and the lists are under peer_ref_mutex.
    - The descriptor pools ([allowed] of TxPoolSystem): an unmap message names
      the only virtual device of its pool, and never the management pool.
      Otherwise a device is left with a pointer to a freed pool.
    - The host-target channel ([may_run] of HtcSystem, [try_fail] of HtcSend): a
      refused packet is not taken back while a completion of its endpoint
      searches, and a refused batch goes back to the transmit queue in one
      section, which in the code precedes the taking of the lock.  Completions
      may overlap; what this does to an endpoint ([overlapped]) is part of
      [lookup_queue_is_in_flight] and [search_finds_packet].
    The copy engine ([CeQueue]) has no such condition: its functions are called
    with the lock of the engine held.

    * Not modelled

    The glue to the kernel (HDD, HIF, most of CDF and CDS), marshalling of
    firmware messages (WMI, WMA, HTT apart from what the receive path reads),
    the generated frame packers, logging, and code of the high-latency build.
    Of the large state machines of LIM, SME and SAP only the data structures
    above are modelled: their handlers are mostly copying between messages whose
    layouts belong to the firmware or to the generated packers, with no contract
    in the repository to state theorems against.  The heuristics of radar
    detection and of the transmit scheduler have none either.  The receive ring
    of HTT and the forwarding of received frames depend on the descriptors of the
    hardware.

    * This file

    Shared vocabulary of the development: machine-width integers, the state
    and undefined-behaviour monad in which the driver's C functions are
    written, and the list, map and option lemmas that several components
    use. *)
From stdpp Require Export base numbers list gmap fin_maps.
From Stdlib Require Export ZArith Lia.
#[global] Open Scope Z_scope.

(** * Machine integers *)

(** [wrap w z] is the value of [z] stored in an unsigned [w]-bit variable. *)
Definition wrap (w z : Z) : Z := z mod 2 ^ w.
Abbreviation u8 := (wrap 8).
Abbreviation u16 := (wrap 16).
Abbreviation u32 := (wrap 32).
Abbreviation u64 := (wrap 64).

(** C's boolean results are the integers 0 and 1. *)
Definition c_bool (b : bool) : Z := if b then 1 else 0.

(** * The C monad

    A C function that reads and writes a state [S] and returns an [A] is a
    value of [CM S A].  [None] is the absence of a defined behaviour: a NULL
    or dangling pointer dereferenced, an array read out of its bounds, a
    buffer freed twice, or (for the loops that carry a fuel argument) the
    fuel running out.  Every correctness theorem concludes [Some _], so it
    excludes all of these. *)
Definition CM (S A : Type) : Type := S → option (A * S).

#[export] Instance CM_ret S : MRet (CM S) := λ A a s, Some (a, s).
#[export] Instance CM_bind S : MBind (CM S) := λ A B k m s,
  match m s with
  | Some (a, s') => k a s'
  | None => None
  end.

Definition ub {S A} : CM S A := λ _, None.
Definition gets {S A} (f : S → A) : CM S A := λ s, Some (f s, s).
Definition modify {S} (f : S → S) : CM S unit := λ s, Some (tt, f s).
Definition deref {S A} (o : option A) : CM S A := λ s,
  match o with
  | Some a => Some (a, s)
  | None => None
  end.
Definition when {S} (b : bool) (m : CM S unit) : CM S unit :=
  if b then m else mret tt.

(** Run a computation on a part of the state, given its getter and setter. *)
Definition zoom {S T A} (get : S → T) (set : T → S → S) (m : CM T A) : CM S A :=
  λ s, match m (get s) with
       | Some (a, t) => Some (a, set t s)
       | None => None
       end.

(** [n] bytes at position [p] of a buffer, all of which may be read. *)
Definition bytes_at {A} (l : list A) (p n : nat) : option (list A) :=
  if (p + n <=? length l)%nat then Some (take n (drop p l)) else None.

(** Run a computation of the C monad for each element of a list, in order. *)
Fixpoint for_each {S A} (l : list A) (body : A → CM S unit) : CM S unit :=
  match l with
  | [] => mret tt
  | x :: l' => body x;; for_each l' body
  end.

Section run.
Context {S A B : Type}.
Implicit Types (s : S).

Lemma run_bind (m : CM S A) (k : A → CM S B) s a s' :
  m s = Some (a, s') → (x ← m; k x) s = k a s'.
Proof. intros H. unfold mbind, CM_bind. by rewrite H. Qed.

Lemma run_bind_ub (m : CM S A) (k : A → CM S B) s :
  m s = None → (x ← m; k x) s = None.
Proof. intros H. unfold mbind, CM_bind. by rewrite H. Qed.

Lemma run_bind_inv (m : CM S A) (k : A → CM S B) s b s'' :
  (x ← m; k x) s = Some (b, s'') →
  ∃ a s', m s = Some (a, s') ∧ k a s' = Some (b, s'').
Proof.
  unfold mbind, CM_bind. destruct (m s) as [[a s']|] eqn:E; [|done]. eauto.
Qed.

Lemma run_bind_eq (m m' : CM S A) (k : A → CM S B) s s' :
  m s = m' s' → (x ← m; k x) s = (x ← m'; k x) s'.
Proof. intros H. unfold mbind, CM_bind. by rewrite H. Qed.

Lemma run_gets (f : S → A) (k : A → CM S B) s :
  (x ← gets f; k x) s = k (f s) s.
Proof. done. Qed.

Lemma run_deref (o : option A) (k : A → CM S B) s a :
  o = Some a → (x ← deref o; k x) s = k a s.
Proof. by intros ->. Qed.

Lemma run_deref_Some (a : A) (k : A → CM S B) s : (x ← deref (Some a); k x) s = k a s.
Proof. done. Qed.

Lemma run_modify (f : S → S) (k : unit → CM S B) s :
  (x ← modify f; k x) s = k tt (f s).
Proof. done. Qed.

Lemma run_ret (a : A) (k : A → CM S B) s : (x ← mret a; k x) s = k a s.
Proof. done. Qed.

Lemma run_assoc {C : Type} (m : CM S A) (k : A → CM S B) (h : B → CM S C) s :
  (y ← (x ← m; k x); h y) s = (x ← m; y ← k x; h y) s.
Proof. unfold mbind, CM_bind. by destruct (m s) as [[]|]. Qed.
End run.

(** [mstep] performs the reads and writes at the head of a computation. *)
Ltac mstep :=
  repeat (first
    [ rewrite run_assoc
    | rewrite run_gets
    | rewrite run_modify
    | rewrite run_ret
    | rewrite run_deref_Some
    | erewrite run_deref by eassumption ]; cbv beta).

(** [mrun H] runs the first call of a computation by the equation [H]. *)
Ltac mrun H := rewrite ?run_assoc; rewrite (run_bind _ _ _ _ _ H).

(** [mnext] runs the first call of a computation by evaluation. *)
Ltac mnext := rewrite ?run_assoc; erewrite run_bind by reflexivity.

(** [minv] takes apart a hypothesis that says a computation returned. *)
Ltac minv :=
  repeat match goal with
    | H : mbind ?k ?m ?s = Some (_, _) |- _ =>
        apply run_bind_inv in H; destruct H as (? & ? & ? & ?)
    | H : gets _ _ = Some _ |- _ => unfold gets in H; simplify_eq
    | H : modify _ _ = Some _ |- _ => unfold modify in H; simplify_eq
    | H : mret _ _ = Some _ |- _ => unfold mret, CM_ret in H; simplify_eq
    | H : ub _ = Some _ |- _ => unfold ub in H; done
    | H : deref ?o _ = Some _ |- _ =>
        unfold deref in H; destruct o eqn:?; [|done]; simplify_eq
    end.

(** [safely m s Q]: [m] has a defined behaviour from [s], and [Q] holds of it. *)
Definition safely {S A} (m : CM S A) (s : S) (Q : A → S → Prop) : Prop :=
  ∃ a s', m s = Some (a, s') ∧ Q a s'.

Section safely.
Context {S A B : Type}.
Implicit Types (s : S).

Lemma safely_ret (a : A) s (Q : A → S → Prop) : Q a s → safely (mret a) s Q.
Proof. intros H. by exists a, s. Qed.

Lemma safely_run (m : CM S A) s a s' (Q : A → S → Prop) :
  m s = Some (a, s') → Q a s' → safely m s Q.
Proof. intros H ?. by exists a, s'. Qed.

Lemma safely_mono (m : CM S A) s (P Q : A → S → Prop) :
  safely m s P → (∀ a s', P a s' → Q a s') → safely m s Q.
Proof. intros (a & s' & H & HP) HQ. exists a, s'. auto. Qed.

Lemma safely_bind (m : CM S A) (k : A → CM S B) s (P : A → S → Prop) (Q : B → S → Prop) :
  safely m s P → (∀ a s', P a s' → safely (k a) s' Q) → safely (x ← m; k x) s Q.
Proof.
  intros (a & s' & H & HP) Hk. destruct (Hk a s' HP) as (b & s'' & Hr & HQ).
  exists b, s''. by rewrite (run_bind _ _ _ _ _ H).
Qed.

Lemma safely_step (m : CM S A) (k : A → CM S B) s a s' (Q : B → S → Prop) :
  m s = Some (a, s') → safely (k a) s' Q → safely (x ← m; k x) s Q.
Proof. intros H (b & s'' & Hr & HQ). exists b, s''. by rewrite (run_bind _ _ _ _ _ H). Qed.

Lemma safely_when (b : bool) (m : CM S unit) s (Q : unit → S → Prop) :
  (b = true → safely m s Q) → (b = false → Q tt s) → safely (when b m) s Q.
Proof. intros H1 H2. destruct b; [by apply H1|]. exists tt, s. by split; [|apply H2]. Qed.
End safely.

(** [safely_bind] for a computation that begins with a bind of its own. *)
Lemma safely_bind_assoc {S A B C} (m : CM S A) (k : A → CM S B) (h : B → CM S C) s
    (P : B → S → Prop) (Q : C → S → Prop) :
  safely (x ← m; k x) s P → (∀ b s', P b s' → safely (h b) s' Q) →
  safely (x ← m; y ← k x; h y) s Q.
Proof.
  intros H Hh. destruct (safely_bind _ h s P Q H Hh) as (c & s' & Hr & HQ).
  exists c, s'. by rewrite run_assoc in Hr.
Qed.

(** [refines R m m']: from related states, what [m'] does [m] does too. *)
Definition refines {S T A} (R : S → T → Prop) (m : CM S A) (m' : CM T A) : Prop :=
  ∀ s t a t', R s t → m' t = Some (a, t') → ∃ s', m s = Some (a, s') ∧ R s' t'.

Section refines.
Context {S T : Type} (R : S → T → Prop).

Lemma refines_ret {A} (a : A) : refines R (mret a) (mret a).
Proof. intros s t b t' H Hr. exists s. unfold mret, CM_ret in *. by simplify_eq. Qed.

Lemma refines_ub {A} (m : CM S A) : refines R m ub.
Proof. by intros s t a t' _ Hr. Qed.

Lemma refines_bind {A B} (m : CM S A) (m' : CM T A) (k : A → CM S B) (k' : A → CM T B) :
  refines R m m' → (∀ a, refines R (k a) (k' a)) → refines R (x ← m; k x) (x ← m'; k' x).
Proof.
  intros Hm Hk s t b t' HR Hr. apply run_bind_inv in Hr as (a & t1 & H1 & H2).
  destruct (Hm _ _ _ _ HR H1) as (s1 & Hs & HR1).
  destruct (Hk a _ _ _ _ HR1 H2) as (s' & Hs' & HR'). exists s'.
  by rewrite (run_bind _ _ _ _ _ Hs).
Qed.

Lemma refines_when (b : bool) (m : CM S unit) (m' : CM T unit) :
  refines R m m' → refines R (when b m) (when b m').
Proof. intros H. destruct b; [done|]. apply refines_ret. Qed.

Lemma refines_deref {A} (o : option A) : refines R (deref o) (deref o).
Proof. destruct o; [apply refines_ret|apply refines_ub]. Qed.
End refines.

(** How often an element occurs in a list *)
Section occ.
Context {A : Type} `{EqDecision A}.
Implicit Types (x y : A) (l : list A).

Fixpoint occ x l : Z :=
  match l with
  | [] => 0
  | y :: l => (if decide (x = y) then 1 else 0) + occ x l
  end.

Lemma occ_nonneg x l : 0 ≤ occ x l.
Proof. induction l as [|y l IH]; simpl; [lia|]. destruct (decide _); lia. Qed.

Lemma occ_zero x l : occ x l = 0 ↔ x ∉ l.
Proof.
  induction l as [|y l IH]; simpl; [set_solver|]. pose proof (occ_nonneg x l).
  rewrite not_elem_of_cons. destruct (decide (x = y)); [|rewrite <- IH]; intuition lia.
Qed.

Lemma occ_insert x l i y z : l !! i = Some y →
  occ x (<[i := z]> l) =
    occ x l - (if decide (x = y) then 1 else 0) + (if decide (x = z) then 1 else 0).
Proof.
  revert i. induction l as [|w l IH]; intros [|i] Hi; simpl in *; simplify_eq/=; [lia|].
  change (list_insert i z l) with (<[i := z]> l). rewrite (IH _ Hi). lia.
Qed.

Lemma occ_middle x y l1 l2 :
  occ x (l1 ++ y :: l2) = (if decide (x = y) then 1 else 0) + occ x (l1 ++ l2).
Proof. induction l1 as [|z l1 IH]; simpl; [done|]. rewrite IH. lia. Qed.
End occ.

(** * Lists threaded through an array *)

(** The array [pool] links the indices [q], from [h] on; [stop] ends the list. *)
Fixpoint chain (stop : Z) (pool : list Z) (h : Z) (q : list Z) : Prop :=
  match q with
  | [] => h = stop
  | x :: q => h = x ∧ ∃ n, pool !! Z.to_nat x = Some n ∧ chain stop pool n q
  end.

Lemma chain_frame stop pool h q i v :
  0 ≤ i → Forall (λ x, 0 ≤ x) q → i ∉ q → chain stop pool h q → chain stop (<[Z.to_nat i := v]> pool) h q.
Proof.
  intros Hi. revert h. induction q as [|x q IH]; intros h Hq Hin; cbn; [done|].
  apply Forall_cons in Hq as [Hx Hq]. apply not_elem_of_cons in Hin as [Hne Hin].
  intros (-> & n & Hn & Hc). split; [done|]. exists n.
  rewrite list_lookup_insert_ne by lia. split; [done|]. by apply IH.
Qed.

(** * Hint databases *)

(** [wrapdb] rewrites stored machine integers whose value is in range. *)
Create Rewrite HintDb wrapdb.
(** [listdb] rewrites lengths of updated lists. *)
Create Rewrite HintDb listdb.
#[export] Hint Rewrite @length_insert @length_alter @length_replicate @length_app
  @length_fmap @length_seq @length_take @length_drop : listdb.

Lemma wrap_small w z : 0 ≤ z < 2 ^ w → wrap w z = z.
Proof. intros H. unfold wrap. by apply Z.mod_small. Qed.

Lemma wrap_range w z : 0 ≤ w → 0 ≤ wrap w z < 2 ^ w.
Proof. intros H. unfold wrap. apply Z.mod_pos_bound, Z.pow_pos_nonneg; lia. Qed.

Lemma wrap_idemp w z : wrap w (wrap w z) = wrap w z.
Proof. unfold wrap. apply Zmod_mod. Qed.
#[export] Hint Rewrite wrap_idemp : wrapdb.
#[export] Hint Rewrite wrap_small using lia : wrapdb.

Lemma wrap_add_wrap w a b : wrap w (wrap w a + b) = wrap w (a + b).
Proof. unfold wrap. apply Zplus_mod_idemp_l. Qed.

(** The mask [2 ^ k - 1] is the remainder by [2 ^ k]. *)
Lemma land_mask k z : 0 ≤ k → Z.land z (2 ^ k - 1) = z mod 2 ^ k.
Proof.
  intros H. replace (2 ^ k - 1) with (Z.ones k).
  - by apply Z.land_ones.
  - rewrite Z.ones_equiv. lia.
Qed.

Lemma elem_of_concat {A} (x : A) ls : x ∈ concat ls ↔ ∃ l, x ∈ l ∧ l ∈ ls.
Proof.
  induction ls as [|l ls IH]; simpl.
  - split; [set_solver|]. intros (l & _ & H). by apply elem_of_nil in H.
  - rewrite elem_of_app, IH. split.
    + intros [H|(l' & ? & ?)]; [exists l|exists l']; rewrite elem_of_cons; auto.
    + intros (l' & ? & [->|?]%elem_of_cons); [by left|right; eauto].
Qed.

(** A list of distinct keys of a map is no longer than the map. *)
Lemma NoDup_length_le_size {V} (m : gmap positive V) l :
  NoDup l → (∀ x, x ∈ l → is_Some (m !! x)) → (length l ≤ size m)%nat.
Proof.
  intros Hnd Hd. rewrite <- size_dom, <- (size_list_to_set (C := gset positive)) by done.
  apply subseteq_size. intros x Hx. apply elem_of_list_to_set in Hx.
  apply elem_of_dom. auto.
Qed.

Lemma lookup_app_plus {A} (l1 l2 : list A) k : (l1 ++ l2) !! (length l1 + k)%nat = l2 !! k.
Proof. rewrite lookup_app_r by lia. f_equal. lia. Qed.

Lemma bytes_at_app {A} (pre d : list A) (n : nat) :
  (n ≤ length d)%nat → bytes_at (pre ++ d) (length pre) n = Some (take n d).
Proof.
  intros H. unfold bytes_at. rewrite length_app.
  destruct (Nat.leb_spec (length pre + n) (length pre + length d)); [|lia].
  by rewrite drop_app_length.
Qed.

Lemma bytes_at_length {A} (l x : list A) (p n : nat) : bytes_at l p n = Some x → length x = n.
Proof.
  unfold bytes_at. destruct (Nat.leb_spec (p + n) (length l)); [|done]. intros [= <-].
  rewrite length_take, length_drop. lia.
Qed.
