(* ===== verification/Ring.v ===== *)
(** Circular doubly linked lists in memory.

    The words of the entries are two finite maps, [nx] from an entry to the one
    after it and [ls] to the one before it.  A list hangs on its head, an entry
    that carries no data.  The linked lists of the station management entity and
    the packet queues of the host-target channel are such lists. *)
From S2P Require Import Prelude.

Section ring.
Context {K : Type} `{Countable K}.

(** Neighbours in [xs] are linked both ways. *)
Fixpoint path (nx ls : gmap K K) (xs : list K) : Prop :=
  match xs with
  | x :: ((y :: _) as xs') => nx !! x = Some y ∧ ls !! y = Some x ∧ path nx ls xs'
  | _ => True
  end.

(** The list [l] hangs on the head [h]. *)
Definition circ (nx ls : gmap K K) (h : K) (l : list K) : Prop :=
  path nx ls (h :: l ++ [h]) ∧ NoDup (h :: l).

Implicit Types (nx ls : gmap K K) (xs l : list K).

Lemma path_cons nx ls x y xs :
  path nx ls (x :: y :: xs) ↔ nx !! x = Some y ∧ ls !! y = Some x ∧ path nx ls (y :: xs).
Proof. done. Qed.

Lemma path_app nx ls xs a b ys :
  path nx ls (xs ++ a :: b :: ys) ↔
  path nx ls (xs ++ [a]) ∧ nx !! a = Some b ∧ ls !! b = Some a ∧ path nx ls (b :: ys).
Proof.
  induction xs as [|x xs IH].
  - cbn [app]. rewrite path_cons. simpl. tauto.
  - destruct xs as [|x' xs]; cbn [app] in *; rewrite !path_cons.
    + rewrite IH. simpl. tauto.
    + rewrite IH. tauto.
Qed.

(** Only the [next] words of the sources and the [last] words of the targets
    matter. *)
Lemma path_frame nx ls nx' ls' x xs :
  (∀ y, y ∈ removelast (x :: xs) → nx' !! y = nx !! y) → (∀ y, y ∈ xs → ls' !! y = ls !! y) →
  path nx ls (x :: xs) → path nx' ls' (x :: xs).
Proof.
  revert x. induction xs as [|y xs IH]; intros x Hn Hl; [done|].
  rewrite !path_cons. intros (H1 & H2 & H3). split_and!.
  - rewrite Hn; [done|]. by left.
  - rewrite Hl; [done|]. by left.
  - apply IH; [|intros; apply Hl; by right|done]. intros z Hz. apply Hn. by right.
Qed.

Lemma removelast_snoc {A} (l : list A) x : removelast (l ++ [x]) = l.
Proof. by apply removelast_last. Qed.

Lemma removelast_cons_snoc {A} (l : list A) a x : removelast (a :: l ++ [x]) = a :: l.
Proof. by rewrite app_comm_cons, removelast_snoc. Qed.

(** The circular list read from a position: the entry [a] before it, [b]
    after it. *)
Lemma circ_split nx ls h l1 l2 a b p1 p2 :
  circ nx ls h (l1 ++ l2) → h :: l1 = p1 ++ [a] → l2 ++ [h] = b :: p2 →
  path nx ls (p1 ++ [a]) ∧ nx !! a = Some b ∧ ls !! b = Some a ∧ path nx ls (b :: p2).
Proof.
  intros [Hp _] H1 H2. apply path_app.
  replace (p1 ++ a :: b :: p2) with (h :: (l1 ++ l2) ++ [h]); [done|].
  rewrite <- app_assoc, H2, app_comm_cons, H1, <- app_assoc. done.
Qed.

(** Only the words of the list's own entries matter. *)
Lemma circ_frame nx ls nx' ls' h l :
  (∀ y, y ∈ h :: l → nx' !! y = nx !! y ∧ ls' !! y = ls !! y) →
  circ nx ls h l → circ nx' ls' h l.
Proof.
  intros Hy [Hp Hnd]. split; [|done]. eapply path_frame; [| |exact Hp].
  - intros y. rewrite removelast_cons_snoc. intros Hin. by apply Hy.
  - intros y Hin. apply Hy. set_solver.
Qed.

Lemma path_frame_seg nx ls nx' ls' b seg z p :
  b :: seg = p ++ [z] → (∀ y, y ∈ p → nx' !! y = nx !! y) → (∀ y, y ∈ seg → ls' !! y = ls !! y) →
  path nx ls (b :: seg) → path nx' ls' (b :: seg).
Proof.
  intros Hp Hn Hl. apply path_frame; [|done]. rewrite Hp, removelast_snoc. done.
Qed.

Lemma before_split (h : K) l : ∃ p a, h :: l = p ++ [a].
Proof. destruct l as [|x l _] using rev_ind; [by exists [], h|]. by exists (h :: l), x. Qed.

Lemma after_split (h : K) l : ∃ b p, l ++ [h] = b :: p.
Proof. destruct l as [|x l]; [by exists h, []|]. by exists x, (l ++ [h]). Qed.

(** The neighbours of a gap: [a] occurs once before it, [b] once after it. *)
Lemma gap_neighbours h l1 l2 a b p1 p2 :
  NoDup (h :: l1 ++ l2) → h :: l1 = p1 ++ [a] → l2 ++ [h] = b :: p2 →
  a ∉ p1 ∧ a ∉ l2 ∧ b ∉ l1 ∧ b ∉ p2 ∧ a ∈ h :: l1 ∧ b ∈ l2 ++ [h].
Proof.
  intros Hnd H1 H2.
  assert (NoDup ((p1 ++ [a]) ++ l2)) as Hnd1 by (rewrite <- H1; done).
  assert (NoDup (l1 ++ b :: p2)) as Hnd2.
  { rewrite <- H2, app_assoc. rewrite Permutation_app_comm. done. }
  apply NoDup_app in Hnd1 as (Hq1 & Hq2 & _). apply NoDup_app in Hq1 as (_ & Hq1 & _).
  apply NoDup_app in Hnd2 as (_ & Hq3 & Hq4). apply NoDup_cons in Hq4 as [Hq4 _].
  split_and!; [|apply Hq2; set_solver| |done|rewrite H1; set_solver|rewrite H2; set_solver].
  - intros Hin. apply (Hq1 a Hin). by left.
  - intros Hin. apply (Hq3 b Hin). by left.
Qed.

(** Linking the segment from [x] to [z] between two neighbours. *)
Lemma circ_insert_seg nx ls nx' ls' h l1 l2 seg x xs z zs a b p1 p2 :
  circ nx ls h (l1 ++ l2) → h :: l1 = p1 ++ [a] → l2 ++ [h] = b :: p2 →
  path nx ls seg → seg = x :: xs → seg = zs ++ [z] → NoDup (h :: l1 ++ seg ++ l2) →
  nx' = <[a := x]> (<[z := b]> nx) → ls' = <[b := z]> (<[x := a]> ls) →
  circ nx' ls' h (l1 ++ seg ++ l2).
Proof.
  intros Hc H1 H2 Hs Hx Hz Hnd -> ->.
  pose proof (circ_split _ _ _ _ _ _ _ _ _ Hc H1 H2) as (Ha & _ & _ & Hb).
  destruct Hc as [_ Hnd0].
  destruct (gap_neighbours _ _ _ _ _ _ _ Hnd0 H1 H2) as (Hap1 & Hal2 & Hbl1 & Hbp2 & Hain & Hbin).
  assert (∀ y, y ∈ seg → y ∉ h :: l1 ∧ y ∉ l2 ++ [h]) as Hsep.
  { intros y Hy. rewrite app_comm_cons in Hnd. apply NoDup_app in Hnd as (_ & Hq & Hnd).
    apply NoDup_app in Hnd as (_ & Hq' & _). specialize (Hq' y Hy). set_solver. }
  assert (NoDup seg) as Hnds.
  { apply NoDup_cons in Hnd as [_ Hnd]. apply NoDup_app in Hnd as (_ & _ & Hnd).
    by apply NoDup_app in Hnd as (? & _). }
  assert (x ∈ seg) as Hxs by (rewrite Hx; by left).
  assert (z ∈ seg) as Hzs by (rewrite Hz; set_solver).
  destruct (Hsep x Hxs) as [Hx1 Hx2]. destruct (Hsep z Hzs) as [Hz1 Hz2].
  split; [|done].
  replace (h :: (l1 ++ seg ++ l2) ++ [h]) with ((p1 ++ a :: x :: xs) ++ b :: p2).
  2:{ rewrite <- !app_assoc, H2, (app_comm_cons l1), H1, <- !app_assoc, Hx. done. }
  replace ((p1 ++ a :: x :: xs) ++ b :: p2) with ((p1 ++ a :: zs) ++ z :: b :: p2)
    by (rewrite <- app_assoc; cbn; rewrite <- app_assoc; cbn; f_equal; f_equal;
        rewrite app_comm_cons, <- Hx, Hz, <- app_assoc; done).
  apply path_app. split_and!.
  - replace ((p1 ++ a :: zs) ++ [z]) with (p1 ++ a :: x :: xs)
      by (rewrite <- app_assoc; cbn; by rewrite <- Hz, <- Hx).
    apply path_app. split_and!.
    + destruct p1 as [|h' p1]; [done|]. cbn [app] in *. injection H1 as <- Hl1. subst l1.
      eapply (path_frame_seg nx ls); [by rewrite app_comm_cons| | |exact Ha].
      * intros y Hy. rewrite !lookup_insert_ne; [done| |]; intros <-; set_solver.
      * intros y Hy. rewrite !lookup_insert_ne; [done| |]; intros <-; set_solver.
    + by rewrite lookup_insert_eq.
    + rewrite lookup_insert_ne by (intros <-; set_solver). by rewrite lookup_insert_eq.
    + rewrite <- Hx. rewrite Hx in *. eapply (path_frame_seg nx ls); [exact Hz| | |exact Hs].
      * intros y Hy. rewrite !lookup_insert_ne; [done| |]; intros <-.
        -- rewrite Hz in Hnds. apply NoDup_app in Hnds as (_ & Hq & _). apply (Hq z Hy). by left.
        -- destruct (Hsep a) as [Hn _]; [rewrite Hz; set_solver|done].
      * apply NoDup_cons in Hnds as [Hxxs _].
        intros y Hy. rewrite !lookup_insert_ne; [done| |]; intros <-; [done|].
        destruct (Hsep b) as [_ Hn]; [by right|done].
  - rewrite lookup_insert_ne by (intros <-; done). by rewrite lookup_insert_eq.
  - by rewrite lookup_insert_eq.
  - eapply path_frame; [| |exact Hb].
    + rewrite <- H2, removelast_snoc. intros y Hy. rewrite !lookup_insert_ne; [done| |];
        intros <-; set_solver.
    + intros y Hy. rewrite !lookup_insert_ne; [done| |]; intros <-; [|done].
      apply Hx2. rewrite H2. by right.
Qed.

Lemma circ_seg_path nx ls h seg : circ nx ls h seg → path nx ls seg.
Proof.
  intros [Hp _]. destruct seg as [|x xs _] using rev_ind; [done|].
  rewrite <- app_assoc in Hp. apply (path_app _ _ (h :: xs)) in Hp as [Hp _]. cbn in Hp.
  destruct (xs ++ [x]) eqn:E; [done|]. by destruct Hp as (_ & _ & Hp).
Qed.

(** Linking [e] between two neighbours. *)
Lemma circ_insert nx ls nx' ls' h l1 l2 e a b p1 p2 :
  circ nx ls h (l1 ++ l2) → h :: l1 = p1 ++ [a] → l2 ++ [h] = b :: p2 → e ∉ h :: l1 ++ l2 →
  nx' = <[a := e]> (<[e := b]> nx) → ls' = <[b := e]> (<[e := a]> ls) →
  circ nx' ls' h (l1 ++ e :: l2).
Proof.
  intros Hc H1 H2 He -> ->. pose proof Hc as [_ Hnd].
  apply (circ_insert_seg nx ls _ _ h l1 l2 [e] e [] e [] a b p1 p2); try done.
  cbn [app]. rewrite app_comm_cons, <- Permutation_middle. apply NoDup_cons. split; [|done]. set_solver.
Qed.

(** Unlinking the entry [e] from between its neighbours. *)
Lemma circ_remove nx ls nx' ls' h l1 l2 e a b p1 p2 :
  circ nx ls h (l1 ++ e :: l2) → h :: l1 = p1 ++ [a] → l2 ++ [h] = b :: p2 →
  nx' = <[a := b]> nx → ls' = <[b := a]> ls →
  circ nx' ls' h (l1 ++ l2) ∧ nx !! a = Some e ∧ ls !! e = Some a ∧ nx !! e = Some b ∧
    ls !! b = Some e.
Proof.
  intros Hc H1 H2 -> ->.
  pose proof (circ_split _ _ h l1 (e :: l2) a e p1 (b :: p2) Hc H1 ltac:(cbn; by rewrite H2))
    as (Ha & Hae & Hea & Hb). apply path_cons in Hb as (Heb & Hbe & Hb).
  split; [|done]. destruct Hc as [_ Hnd].
  assert (NoDup (h :: l1 ++ l2)) as Hnd'.
  { rewrite app_comm_cons, <- Permutation_middle in Hnd. by apply NoDup_cons in Hnd as []. }
  destruct (gap_neighbours _ _ _ _ _ _ _ Hnd' H1 H2) as (Hap1 & Hal2 & Hbl1 & Hbp2 & _).
  split; [|done].
  replace (h :: (l1 ++ l2) ++ [h]) with (p1 ++ a :: b :: p2)
    by (rewrite <- app_assoc, H2, app_comm_cons, H1, <- app_assoc; done).
  apply path_app. split_and!.
  - destruct p1 as [|h' p1]; [done|]. cbn [app] in *. injection H1 as <- Hl1. subst l1.
    eapply path_frame; [| |exact Ha].
    + rewrite removelast_cons_snoc. intros y Hy. apply lookup_insert_ne.
      by intros <-.
    + intros y Hy. apply lookup_insert_ne.
      intros <-. set_solver.
  - by rewrite lookup_insert_eq.
  - by rewrite lookup_insert_eq.
  - eapply path_frame; [| |exact Hb].
    + rewrite <- H2, removelast_snoc. intros y Hy. apply lookup_insert_ne.
      by intros <-.
    + intros y Hy. apply lookup_insert_ne.
      by intros <-.
Qed.
(** Removing an element from a list without repetitions. *)
Lemma filter_ne_absent (e : K) l : e ∉ l → filter (λ y : K, y ≠ e) l = l.
Proof.
  induction l as [|y l IH]; intros He; [done|].
  rewrite filter_cons_True by set_solver. by rewrite IH by set_solver.
Qed.

Lemma filter_ne_split (e : K) l1 l2 : NoDup (l1 ++ e :: l2) →
  filter (λ y : K, y ≠ e) (l1 ++ e :: l2) = l1 ++ l2.
Proof.
  intros Hnd. apply NoDup_app in Hnd as (_ & Hd & Hnd). apply NoDup_cons in Hnd as [He _].
  rewrite filter_app, filter_cons_False by auto.
  rewrite !filter_ne_absent; [done..|]. intros Hin. apply (Hd e Hin). by left.
Qed.
End ring.
