(* ===== verification/Tailq.v ===== *)
(** The doubly linked tail queues of [core/cds/src/queue.h].

    The TAILQ macros work on pointers to pointers: an element's [tqe_prev]
    and the head's [tqh_last] hold the address of a "next" word, which is
    either the head's [tqh_first] or some element's [tqe_next].  [slot] is the
    type of these addresses.  The entries of the elements (the TAILQ_ENTRY
    field embedded in each structure) are a finite map from the element's
    pointer to its entry; an element absent from the map is not allocated. *)
From S2P Require Import Prelude.

Inductive slot (K : Type) : Type :=
| SHead
| SNext (k : K).
Arguments SHead {K}.
Arguments SNext {K} k.

Record entry (K : Type) : Type := mk_entry {
  tqe_next : option K;
  tqe_prev : option (slot K);
}.
Arguments mk_entry {K} _ _.
Arguments tqe_next {K} _.
Arguments tqe_prev {K} _.

Record tailq (K : Type) `{Countable K} : Type := mk_tailq {
  tqh_first : option K;
  tqh_last : slot K;
  entries : gmap K (entry K);
}.
Arguments mk_tailq {K _ _} _ _ _.
Arguments tqh_first {K _ _} _.
Arguments tqh_last {K _ _} _.
Arguments entries {K _ _} _.

Section ops.
Context {K : Type} `{Countable K}.
Implicit Types (q : tailq K) (x y : K) (s : slot K).

(** [*s = v], [s] being the address of a next word *)
Definition write_slot s (v : option K) : CM (tailq K) unit := λ q,
  match s with
  | SHead => Some (tt, mk_tailq v (tqh_last q) (entries q))
  | SNext k =>
      match entries q !! k with
      | Some e => Some (tt, mk_tailq (tqh_first q) (tqh_last q)
                              (<[k := mk_entry v (tqe_prev e)]> (entries q)))
      | None => None
      end
  end.

Definition set_next x (v : option K) : CM (tailq K) unit := write_slot (SNext x) v.

Definition set_prev x (p : option (slot K)) : CM (tailq K) unit := λ q,
  match entries q !! x with
  | Some e => Some (tt, mk_tailq (tqh_first q) (tqh_last q)
                          (<[x := mk_entry (tqe_next e) p]> (entries q)))
  | None => None
  end.

Definition set_last s : CM (tailq K) unit :=
  modify (λ q, mk_tailq (tqh_first q) s (entries q)).

Definition get_entry x : CM (tailq K) (entry K) :=
  o ← gets (λ q, entries q !! x); deref o.

Definition TAILQ_INIT : CM (tailq K) unit :=
  modify (λ q, mk_tailq None (tqh_last q) (entries q));;
  set_last SHead.

Definition TAILQ_FIRST q : option K := tqh_first q.

Definition TAILQ_EMPTY q : bool := bool_decide (tqh_first q = None).

Definition TAILQ_NEXT x : CM (tailq K) (option K) :=
  e ← get_entry x; mret (tqe_next e).

Definition TAILQ_INSERT_TAIL x : CM (tailq K) unit :=
  set_next x None;;
  last ← gets tqh_last;
  set_prev x (Some last);;
  write_slot last (Some x);;
  set_last (SNext x).

Definition TAILQ_INSERT_HEAD x : CM (tailq K) unit :=
  first ← gets tqh_first;
  set_next x first;;
  match first with
  | Some y => set_prev y (Some (SNext x))
  | None => set_last (SNext x)
  end;;
  write_slot SHead (Some x);;
  set_prev x (Some SHead).

Definition TAILQ_REMOVE x : CM (tailq K) unit :=
  e ← get_entry x;
  prev ← deref (tqe_prev e);
  match tqe_next e with
  | Some y => set_prev y (Some prev)
  | None => set_last prev
  end;;
  write_slot prev (tqe_next e);;
  set_next x None;;
  set_prev x None.

(** TAILQ_FOREACH: the elements visited from [o] on, following [tqe_next]. *)
Fixpoint walk (fuel : nat) (es : gmap K (entry K)) (o : option K) : option (list K) :=
  match o, fuel with
  | None, _ => Some []
  | Some _, O => None
  | Some x, S n =>
      e ← es !! x;
      l ← walk n es (tqe_next e);
      mret (x :: l)
  end.

Definition TAILQ_FOREACH q : option (list K) :=
  walk (size (entries q)) (entries q) (tqh_first q).
End ops.

(** * Representation *)

Section rep.
Context {K : Type} `{Countable K}.
Implicit Types (q : tailq K) (x y : K) (p : slot K) (l : list K).

(** Starting from the next word at address [p], which holds [h], the
    elements [l] follow, and then the word at [p'], which holds [h']. *)
Fixpoint seg (es : gmap K (entry K)) (h : option K) (p : slot K) l
    (h' : option K) (p' : slot K) : Prop :=
  match l with
  | [] => h = h' ∧ p = p'
  | x :: l' => h = Some x ∧
      ∃ n, es !! x = Some (mk_entry n (Some p)) ∧ seg es n (SNext x) l' h' p'
  end.

Definition rep q l : Prop :=
  NoDup l ∧ seg (entries q) (tqh_first q) SHead l None (tqh_last q).

Definition slot_of l : slot K :=
  match last l with None => SHead | Some x => SNext x end.

Lemma seg_app es h p l1 l2 h' p' :
  seg es h p (l1 ++ l2) h' p' ↔
  ∃ hm pm, seg es h p l1 hm pm ∧ seg es hm pm l2 h' p'.
Proof.
  revert h p. induction l1 as [|x l1 IH]; intros h p; simpl.
  - split; [by eauto|]. by intros (? & ? & [-> ->] & ?).
  - split.
    + intros (-> & n & Hx & (hm & pm & ? & ?)%IH). eauto 10.
    + intros (hm & pm & (-> & n & Hx & ?) & ?). split; [done|].
      exists n. split; [done|]. apply IH. eauto.
Qed.

Lemma seg_frame es es' h p l h' p' :
  (∀ x, x ∈ l → es' !! x = es !! x) →
  seg es h p l h' p' → seg es' h p l h' p'.
Proof.
  revert h p. induction l as [|x l IH]; intros h p Heq; simpl; [done|].
  intros (-> & n & Hx & Hs). split; [done|]. exists n.
  rewrite Heq by set_solver. split; [done|].
  apply IH; [|done]. set_solver.
Qed.

Lemma seg_insert_ne es h p l h' p' x e :
  x ∉ l → seg es h p l h' p' → seg (<[x := e]> es) h p l h' p'.
Proof.
  intros Hx. apply seg_frame. intros y Hy.
  apply lookup_insert_ne. congruence.
Qed.

Lemma seg_end es h l h' p' : seg es h SHead l h' p' → p' = slot_of l.
Proof.
  unfold slot_of. destruct l as [|x l _] using rev_ind; simpl.
  - by intros [_ <-].
  - rewrite seg_app, last_snoc. simpl. by intros (? & ? & _ & _ & ? & _ & _ & <-).
Qed.

Lemma seg_dom es h p l h' p' x : seg es h p l h' p' → x ∈ l → is_Some (es !! x).
Proof.
  revert h p. induction l as [|y l IH]; intros h p; simpl; [set_solver|].
  intros (_ & n & Hy & Hs) [->|Hx]%elem_of_cons; eauto.
Qed.

Lemma slot_of_ne l x : x ∉ l → SNext x ≠ slot_of l.
Proof.
  intros Hx. unfold slot_of. destruct (last l) eqn:E; [|done].
  apply last_Some_elem_of in E. congruence.
Qed.

(** Writing the last next word of a segment. *)
Lemma write_slot_end q l h' p' v :
  NoDup l → seg (entries q) (tqh_first q) SHead l h' p' →
  ∃ q', write_slot p' v q = Some (tt, q') ∧
    seg (entries q') (tqh_first q') SHead l v p' ∧
    tqh_last q' = tqh_last q ∧
    (∀ x, SNext x ≠ p' → entries q' !! x = entries q !! x) ∧
    dom (entries q') = dom (entries q).
Proof.
  intros Hnd Hs. pose proof (seg_end _ _ _ _ _ Hs) as ->.
  unfold slot_of in *. destruct l as [|x l _] using rev_ind; simpl in *.
  - eexists. split; [done|]. simpl. auto.
  - rewrite last_snoc in *. simpl.
    rewrite seg_app in Hs. destruct Hs as (hm & pm & Hs1 & -> & n & Hx & -> & _).
    rewrite Hx. eexists. split; [done|]. simpl.
    apply NoDup_app in Hnd as (_ & Hd & _).
    split_and!; [|done|intros y Hy; apply lookup_insert_ne; congruence
      |apply dom_insert_lookup_L; by rewrite Hx].
    apply seg_app. exists (Some x), pm. split.
    + apply seg_insert_ne; [|done]. intros Hin. by apply (Hd x); [|left].
    + simpl. split; [done|]. exists v. by rewrite lookup_insert_eq.
Qed.
End rep.

(** * The operations implement those of lists *)

Section correct.
Context {K : Type} `{Countable K}.
Implicit Types (q : tailq K) (x y : K) (p : slot K) (l : list K).

Lemma TAILQ_INIT_rep q : ∃ q', TAILQ_INIT q = Some (tt, q') ∧ rep q' [] ∧
  entries q' = entries q.
Proof. eexists. split; [done|]. repeat split. constructor. Qed.

Lemma set_prev_run q x e (p : option (slot K)) : entries q !! x = Some e →
  set_prev x p q = Some (tt, mk_tailq (tqh_first q) (tqh_last q)
                               (<[x := mk_entry (tqe_next e) p]> (entries q))).
Proof. intros Hx. unfold set_prev. by rewrite Hx. Qed.

Lemma set_next_run q x e (v : option K) : entries q !! x = Some e →
  set_next x v q = Some (tt, mk_tailq (tqh_first q) (tqh_last q)
                               (<[x := mk_entry v (tqe_prev e)]> (entries q))).
Proof. intros Hx. unfold set_next, write_slot. by rewrite Hx. Qed.

(** [rep q l] with [q]'s element domain unchanged and the entries of the
    elements outside [l] untouched: what an operation leaves behind. *)
Definition frame q q' l : Prop :=
  dom (entries q') = dom (entries q) ∧
  ∀ z, z ∉ l → entries q' !! z = entries q !! z.

Lemma TAILQ_INSERT_TAIL_ok q l x :
  rep q l → x ∉ l → is_Some (entries q !! x) →
  ∃ q', TAILQ_INSERT_TAIL x q = Some (tt, q') ∧ rep q' (l ++ [x]) ∧
    frame q q' (l ++ [x]).
Proof.
  intros [Hnd Hs] Hx [e He]. unfold TAILQ_INSERT_TAIL.
  mrun (set_next_run q x e None He). mstep. cbn [tqh_last].
  rewrite (run_bind _ _ _ _ _ (set_prev_run (mk_tailq (tqh_first q) (tqh_last q)
    (<[x := mk_entry None (tqe_prev e)]> (entries q))) x _ _ (lookup_insert_eq _ _ _))).
  cbn [tqh_first tqh_last entries tqe_next]. rewrite insert_insert_eq.
  set (q1 := mk_tailq _ _ _).
  assert (seg (entries q1) (tqh_first q1) SHead l None (tqh_last q)) as Hs1
    by by apply seg_insert_ne.
  destruct (write_slot_end q1 l None _ (Some x) Hnd Hs1)
    as (q' & Hw & Hs' & Hl & Hne & Hdom).
  rewrite (run_bind _ _ _ _ _ Hw). eexists. split; [done|].
  assert (∀ z, z ∉ l → SNext z ≠ tqh_last q) as Hslot.
  { rewrite (seg_end _ _ _ _ _ Hs). apply slot_of_ne. }
  split; [split|split]; cbn.
  - clear -Hnd Hx. apply NoDup_app. split_and!; [done|set_solver|apply NoDup_singleton].
  - apply seg_app. do 2 eexists. split; [done|]. simpl. split; [done|].
    exists None. rewrite (Hne x) by auto. subst q1. cbn.
    by rewrite lookup_insert_eq.
  - rewrite Hdom. apply dom_insert_lookup_L. eauto.
  - intros z [Hz1 Hz2%not_elem_of_cons]%not_elem_of_app.
    rewrite Hne by auto. cbn. rewrite lookup_insert_ne; naive_solver.
Qed.

Lemma TAILQ_INSERT_HEAD_ok q l x :
  rep q l → x ∉ l → is_Some (entries q !! x) →
  ∃ q', TAILQ_INSERT_HEAD x q = Some (tt, q') ∧ rep q' (x :: l) ∧
    frame q q' (x :: l).
Proof.
  intros [Hnd Hs] Hx [e He]. unfold TAILQ_INSERT_HEAD. mstep.
  mrun (set_next_run q x e (tqh_first q) He).
  set (q1 := mk_tailq _ _ _).
  assert (NoDup (x :: l)) by by constructor.
  destruct l as [|y l]; simpl in Hs.
  - destruct Hs as [Hf _]. subst q1. rewrite Hf.
    mnext. mnext. unfold set_prev. cbn.
    rewrite lookup_insert_eq. cbn. rewrite insert_insert_eq.
    eexists. split; [done|]. split; [split; [done|]|split]; cbn.
    + split; [done|]. exists None. by rewrite lookup_insert_eq.
    + apply dom_insert_lookup_L. eauto.
    + intros z [Hz _]%not_elem_of_cons. by apply lookup_insert_ne.
  - destruct Hs as (Hf & n & Hy & Hs). rewrite Hf in *.
    apply not_elem_of_cons in Hx as [Hxy Hxl].
    apply NoDup_cons in Hnd as [Hyl _].
    assert (entries q1 !! y = Some (mk_entry n (Some SHead))) as Hy1.
    { subst q1. cbn. by rewrite lookup_insert_ne. }
    rewrite (run_bind _ _ _ _ _ (set_prev_run _ _ _ _ Hy1)).
    mnext. unfold set_prev. cbn.
    rewrite lookup_insert_ne, lookup_insert_eq by done. cbn.
    eexists. split; [done|].
    split; [split; [done|]|split]; cbn.
    + split; [done|]. exists (Some y). rewrite lookup_insert_eq. split; [by rewrite ?Hf|].
      split; [done|]. exists n.
      rewrite lookup_insert_ne, lookup_insert_eq by done. split; [done|].
      by do 3 (apply seg_insert_ne; [done|]).
    + rewrite !dom_insert_L. apply elem_of_dom_2 in Hy, He. clear -Hy He. set_solver.
    + intros z [Hzx [Hzy _]%not_elem_of_cons]%not_elem_of_cons.
      by rewrite !lookup_insert_ne by done.
Qed.

Lemma TAILQ_REMOVE_ok q l1 x l2 :
  rep q (l1 ++ x :: l2) →
  ∃ q', TAILQ_REMOVE x q = Some (tt, q') ∧ rep q' (l1 ++ l2) ∧
    frame q q' (l1 ++ x :: l2) ∧
    entries q' !! x = Some (mk_entry None None).
Proof.
  intros [Hnd Hs]. unfold TAILQ_REMOVE, get_entry.
  apply seg_app in Hs. destruct Hs as (hm & p & Hs1 & -> & n & Hx & Hs2).
  mstep. cbn. assert (NoDup (l1 ++ l2)) as Hnd12.
  { rewrite <- Permutation_middle in Hnd. by apply NoDup_cons in Hnd as []. }
  apply NoDup_app in Hnd as (Hnd1 & Hd & [Hx2 Hnd2]%NoDup_cons).
  assert (∃ q1, match n with Some y => set_prev y (Some p) | None => set_last p end q
      = Some (tt, q1) ∧ seg (entries q1) (tqh_first q1) SHead l1 (Some x) p ∧
      seg (entries q1) n p l2 None (tqh_last q1) ∧
      entries q1 !! x = Some (mk_entry n (Some p)) ∧
      frame q q1 (l1 ++ x :: l2)) as (q1 & Hr & Hs1' & Hs2' & Hx1 & Hdom1 & Hfr1).
  { destruct l2 as [|y l2]; simpl in Hs2.
    - destruct Hs2 as [-> Hl]. eexists. split_and!; done.
    - destruct Hs2 as (-> & n' & Hy & Hs2).
      rewrite (set_prev_run _ _ _ _ Hy). eexists. split; [done|]. cbn.
      assert (y ∉ l1) by (clear -Hd; set_solver).
      apply not_elem_of_cons in Hx2 as [Hxy Hx2]. apply NoDup_cons in Hnd2 as [Hy2 _].
      split_and!; [by apply seg_insert_ne|done| | |split; cbn].
      + exists n'. rewrite lookup_insert_eq. split; [done|]. by apply seg_insert_ne.
      + by rewrite lookup_insert_ne.
      + apply dom_insert_lookup_L. by rewrite Hy.
      + intros z Hz. apply lookup_insert_ne. clear -Hz. set_solver. }
  mstep. mrun Hr.
  destruct (write_slot_end q1 l1 (Some x) p n Hnd1 Hs1')
    as (q2 & Hw & Hs1'' & Hl & Hne & Hdom2).
  rewrite (run_bind _ _ _ _ _ Hw).
  rewrite (seg_end _ _ _ _ _ Hs1') in *.
  assert (x ∉ l1) as Hx1' by (clear -Hd; set_solver).
  assert (∀ z, z ∈ l2 → z ∉ l1) as Hd2 by (clear -Hd; set_solver).
  assert (entries q2 !! x = Some (mk_entry n (Some (slot_of l1)))) as Hx2'.
  { by rewrite Hne by by apply slot_of_ne. }
  rewrite (run_bind _ _ _ _ _ (set_next_run _ _ _ _ Hx2')). cbn.
  unfold set_prev. cbn. rewrite lookup_insert_eq. cbn. rewrite insert_insert_eq.
  eexists. split; [done|]. cbn. split_and!; [split; [done|]| split | ]; cbn.
  - apply seg_app. exists n, (slot_of l1). split.
    + by apply seg_insert_ne.
    + apply seg_insert_ne; [done|]. rewrite Hl.
      eapply seg_frame; [|done]. intros z Hz. apply Hne, slot_of_ne. eauto.
  - rewrite dom_insert_lookup_L by by rewrite Hx2'. by rewrite Hdom2.
  - intros z Hz. rewrite lookup_insert_ne by (clear -Hz; set_solver).
    rewrite Hne by (apply slot_of_ne; clear -Hz; set_solver). by apply Hfr1.
  - apply lookup_insert_eq.
Qed.

Lemma walk_seg es h p l p' n :
  seg es h p l None p' → (length l ≤ n)%nat → walk n es h = Some l.
Proof.
  revert h p n. induction l as [|x l IH]; intros h p n; simpl.
  - intros [-> _] _. by destruct n.
  - intros (-> & nx & Hx & Hs) Hn. destruct n as [|n]; [lia|]. simpl.
    rewrite Hx. simpl. rewrite (IH _ _ n Hs) by lia. done.
Qed.

Lemma rep_length q l : rep q l → (length l ≤ size (entries q))%nat.
Proof.
  intros [Hnd Hs]. rewrite <- (size_list_to_set (C:=gset K)) by done.
  rewrite <- size_dom. apply subseteq_size. intros x Hx%elem_of_list_to_set.
  apply elem_of_dom. eapply seg_dom; eauto.
Qed.

Lemma TAILQ_FOREACH_ok q l : rep q l → TAILQ_FOREACH q = Some l.
Proof. intros Hr. eapply walk_seg; [apply Hr|]. by apply rep_length. Qed.

Lemma TAILQ_FIRST_ok q l : rep q l → TAILQ_FIRST q = head l.
Proof. intros [_ Hs]. destruct l; simpl in *; [by destruct Hs|by destruct Hs]. Qed.

(** The word [tqe_next] of a queued element is NULL exactly for the last one. *)
Lemma TAILQ_NEXT_ok q l1 x l2 :
  rep q (l1 ++ x :: l2) → TAILQ_NEXT x q = Some (head l2, q).
Proof.
  intros [_ Hs]. apply seg_app in Hs. destruct Hs as (? & ? & _ & _ & n & Hx & Hs).
  unfold TAILQ_NEXT, get_entry. mstep. cbn.
  destruct l2; simpl in Hs; destruct Hs as [-> _]; done.
Qed.
End correct.

(** * Sequences of operations refine sequences of list operations *)

Inductive tq_op (K : Type) : Type :=
| OpInsertTail (x : K)
| OpInsertHead (x : K)
| OpRemove (x : K).
Arguments OpInsertTail {K} x.
Arguments OpInsertHead {K} x.
Arguments OpRemove {K} x.

Section refine.
Context {K : Type} `{Countable K}.
Implicit Types (q : tailq K) (l : list K) (op : tq_op K).

Definition exec_op op : CM (tailq K) unit :=
  match op with
  | OpInsertTail x => TAILQ_INSERT_TAIL x
  | OpInsertHead x => TAILQ_INSERT_HEAD x
  | OpRemove x => TAILQ_REMOVE x
  end.

Fixpoint remove_one x l : option (list K) :=
  match l with
  | [] => None
  | y :: l => if decide (x = y) then Some l else l' ← remove_one x l; mret (y :: l')
  end.

Lemma remove_one_split x l l' :
  remove_one x l = Some l' → ∃ l1 l2, l = l1 ++ x :: l2 ∧ l' = l1 ++ l2.
Proof.
  revert l'. induction l as [|y l IH]; intros l'; simpl; [done|].
  case_decide; [intros [= <-]; subst; by exists [], l|].
  destruct (remove_one x l) eqn:E; simpl; [|done]. intros [= <-].
  destruct (IH _ eq_refl) as (l1 & l2 & -> & ->). by exists (y :: l1), l2.
Qed.

(** The queue as a list.  An operation that breaks its contract (an element
    inserted twice, or removed without being queued) has no meaning here. *)
Definition spec_op op l : option (list K) :=
  match op with
  | OpInsertTail x => if decide (x ∈ l) then None else Some (l ++ [x])
  | OpInsertHead x => if decide (x ∈ l) then None else Some (x :: l)
  | OpRemove x => remove_one x l
  end.

Fixpoint spec_ops ops l : option (list K) :=
  match ops with
  | [] => Some l
  | op :: ops => l' ← spec_op op l; spec_ops ops l'
  end.

Definition op_elem op : K :=
  match op with OpInsertTail x | OpInsertHead x | OpRemove x => x end.

Lemma exec_op_refines op q l l' :
  rep q l → op_elem op ∈ dom (entries q) → spec_op op l = Some l' →
  ∃ q', exec_op op q = Some (tt, q') ∧ rep q' l' ∧ dom (entries q') = dom (entries q).
Proof.
  intros Hr Hin%elem_of_dom Hspec. destruct op as [x|x|x]; simpl in *.
  - case_decide; simplify_eq.
    destruct (TAILQ_INSERT_TAIL_ok q l x) as (q' & ? & ? & ? & _); eauto.
  - case_decide; simplify_eq.
    destruct (TAILQ_INSERT_HEAD_ok q l x) as (q' & ? & ? & ? & _); eauto.
  - apply remove_one_split in Hspec as (l1 & l2 & -> & ->).
    destruct (TAILQ_REMOVE_ok q l1 x l2) as (q' & ? & ? & [? _] & _); eauto.
Qed.

(** C34. The tail queue macros refine list operations.  Any sequence of
    insertions at the tail or head and of removals that is meaningful on the
    queue read as a list runs without touching an unallocated element on the
    pointer representation, and the pointers then represent exactly the
    resulting list, which a traversal by TAILQ_FOREACH returns in order. *)
Theorem tailq_refines_list ops q l l' :
  rep q l → (∀ op, op ∈ ops → op_elem op ∈ dom (entries q)) →
  spec_ops ops l = Some l' →
  ∃ q', for_each ops exec_op q = Some (tt, q') ∧ rep q' l' ∧
    TAILQ_FOREACH q' = Some l' ∧ TAILQ_FIRST q' = head l'.
Proof.
  revert q l. induction ops as [|op ops IH]; intros q l Hr Hdom Hspec; simpl in *.
  - simplify_eq. exists q.
    split_and!; auto using TAILQ_FOREACH_ok, TAILQ_FIRST_ok.
  - destruct (spec_op op l) as [l1|] eqn:E; simplify_eq/=.
    destruct (exec_op_refines op q l l1) as (q1 & Hq1 & Hr1 & Hd1);
      [done|apply Hdom; by left|done|].
    mrun Hq1. apply (IH q1 l1); [done| |done].
    intros op' Hop'. rewrite Hd1. apply Hdom. by right.
Qed.
End refine.

Lemma tailq_refines_list_witness :
  let q := mk_tailq None SHead
             (list_to_map ((λ k, (k, mk_entry None None)) <$> [1; 2; 3])) in
  ∃ q', for_each [OpInsertTail 1; OpInsertHead 2; OpInsertTail 3; OpRemove 1] exec_op q
          = Some (tt, q') ∧ rep q' [2; 3] ∧ TAILQ_FOREACH q' = Some [2; 3] ∧
        TAILQ_FIRST q' = head [2; 3].
Proof.
  intros q. apply (tailq_refines_list _ q []).
  - split; [constructor|done].
  - intros op Hop. apply elem_of_dom.
    repeat (apply elem_of_cons in Hop as [->|Hop]; [by eexists; vm_compute|]).
    by apply elem_of_nil in Hop.
  - vm_compute. reflexivity.
Defined.
