(* ===== verification/RxTypes.v ===== *)
(** The state of the receive data path: [core/dp/txrx/ol_txrx_types.h], the
    network buffers of [core/cdf/src/i_cdf_nbuf.h], and the accessors through
    which the receive components read and write them.

    Pointers are [positive]; a nullable pointer is an [option positive].  The
    peers, the network buffers and the heap-allocated reorder arrays are finite
    maps from pointers, so that an access to a freed or never allocated object
    has no defined result.  The fields that the hardware or the firmware wrote
    into a buffer's rx descriptor are the record [rx_desc]. *)
From S2P Require Import Prelude Tailq.

(** * Constants *)

Definition IEEE80211_SEQ_MAX : Z := 4096.
Definition OL_TXRX_NUM_EXT_TIDS : Z := 19.
Definition OL_RX_MCAST_TID : Z := 18.

Inductive htt_rx_status : Type :=
| htt_rx_status_unknown
| htt_rx_status_ok
| htt_rx_status_err_fcs
| htt_rx_status_err_dup
| htt_rx_status_err_replay
| htt_rx_status_err_inv_peer
| htt_rx_status_ctrl_mgmt_null
| htt_rx_status_tkip_mic_err
| htt_rx_status_err_misc.

#[export] Instance htt_rx_status_eq_dec : EqDecision htt_rx_status.
Proof. solve_decision. Defined.

Inductive htt_rx_flush_action : Type :=
| htt_rx_flush_release
| htt_rx_flush_discard.

Inductive wlan_op_mode : Type :=
| wlan_op_mode_unknown
| wlan_op_mode_ap
| wlan_op_mode_ibss
| wlan_op_mode_sta
| wlan_op_mode_monitor
| wlan_op_mode_ocb.

#[export] Instance wlan_op_mode_eq_dec : EqDecision wlan_op_mode.
Proof. solve_decision. Defined.

Inductive htt_sec_type : Type :=
| htt_sec_type_none
| htt_sec_type_wep128
| htt_sec_type_wep104
| htt_sec_type_wep40
| htt_sec_type_tkip
| htt_sec_type_tkip_nomic
| htt_sec_type_aes_ccmp
| htt_sec_type_wapi
| htt_sec_type_aes_ccmp_256
| htt_sec_type_aes_gcmp
| htt_sec_type_aes_gcmp_256.

#[export] Instance htt_sec_type_eq_dec : EqDecision htt_sec_type.
Proof. solve_decision. Defined.

(** [union htt_rx_pn_t]: two 64-bit words.  On the little-endian host [pn24]
    is the low 32-bit half of the first word and [pn48] is that word. *)
Record htt_rx_pn_t : Type := mk_pn {
  pn128_0 : Z;
  pn128_1 : Z;
}.

Definition set_pn128_0 (v : Z) (r : htt_rx_pn_t) : htt_rx_pn_t :=
  mk_pn v (pn128_1 r).
Definition set_pn128_1 (v : Z) (r : htt_rx_pn_t) : htt_rx_pn_t :=
  mk_pn (pn128_0 r) v.

Definition pn24 (u : htt_rx_pn_t) : Z := u32 (pn128_0 u).
Definition pn48 (u : htt_rx_pn_t) : Z := pn128_0 u.

(** * Network buffers *)

(** What the rx descriptor of a buffer holds. *)
Record rx_desc : Type := mk_rx_desc {
  rd_seq_num : Z;
  rd_reorder_idx : Z;
  rd_tid : Z;
  rd_retry : bool;
  rd_mcast : bool;
  rd_encrypted : bool;
  rd_completes_mpdu : bool;
  rd_is_frag : bool;
  rd_pn : htt_rx_pn_t;
}.

Definition set_rd_seq_num (v : Z) (r : rx_desc) : rx_desc :=
  mk_rx_desc v (rd_reorder_idx r) (rd_tid r) (rd_retry r) (rd_mcast r) (rd_encrypted r) (rd_completes_mpdu r) (rd_is_frag r) (rd_pn r).
Definition set_rd_reorder_idx (v : Z) (r : rx_desc) : rx_desc :=
  mk_rx_desc (rd_seq_num r) v (rd_tid r) (rd_retry r) (rd_mcast r) (rd_encrypted r) (rd_completes_mpdu r) (rd_is_frag r) (rd_pn r).
Definition set_rd_tid (v : Z) (r : rx_desc) : rx_desc :=
  mk_rx_desc (rd_seq_num r) (rd_reorder_idx r) v (rd_retry r) (rd_mcast r) (rd_encrypted r) (rd_completes_mpdu r) (rd_is_frag r) (rd_pn r).
Definition set_rd_retry (v : bool) (r : rx_desc) : rx_desc :=
  mk_rx_desc (rd_seq_num r) (rd_reorder_idx r) (rd_tid r) v (rd_mcast r) (rd_encrypted r) (rd_completes_mpdu r) (rd_is_frag r) (rd_pn r).
Definition set_rd_mcast (v : bool) (r : rx_desc) : rx_desc :=
  mk_rx_desc (rd_seq_num r) (rd_reorder_idx r) (rd_tid r) (rd_retry r) v (rd_encrypted r) (rd_completes_mpdu r) (rd_is_frag r) (rd_pn r).
Definition set_rd_encrypted (v : bool) (r : rx_desc) : rx_desc :=
  mk_rx_desc (rd_seq_num r) (rd_reorder_idx r) (rd_tid r) (rd_retry r) (rd_mcast r) v (rd_completes_mpdu r) (rd_is_frag r) (rd_pn r).
Definition set_rd_completes_mpdu (v : bool) (r : rx_desc) : rx_desc :=
  mk_rx_desc (rd_seq_num r) (rd_reorder_idx r) (rd_tid r) (rd_retry r) (rd_mcast r) (rd_encrypted r) v (rd_is_frag r) (rd_pn r).
Definition set_rd_is_frag (v : bool) (r : rx_desc) : rx_desc :=
  mk_rx_desc (rd_seq_num r) (rd_reorder_idx r) (rd_tid r) (rd_retry r) (rd_mcast r) (rd_encrypted r) (rd_completes_mpdu r) v (rd_pn r).
Definition set_rd_pn (v : htt_rx_pn_t) (r : rx_desc) : rx_desc :=
  mk_rx_desc (rd_seq_num r) (rd_reorder_idx r) (rd_tid r) (rd_retry r) (rd_mcast r) (rd_encrypted r) (rd_completes_mpdu r) (rd_is_frag r) v.
(** The fields of [struct ieee80211_frame] that the fragment list is ordered
    by: the sequence control word, the more-fragments bit and two addresses. *)
Record frag_hdr : Type := mk_frag_hdr {
  i_seq : Z;
  i_more_frag : bool;
  i_addr1 : list Z;
  i_addr2 : list Z;
}.

Definition IEEE80211_ADDR_LEN : nat := 6.
Definition IEEE80211_FC1_MORE_FRAG : Z := 0x04.

(** The header at the start of a frame's bytes: [i_fc] is at 0, [i_dur] at 2,
    [i_addr1] at 4, [i_addr2] at 10, [i_addr3] at 16 and [i_seq] at 22. *)
Definition mac_hdr (d : list Z) : option frag_hdr :=
  fc1 ← d !! 1%nat;
  a1 ← bytes_at d 4 IEEE80211_ADDR_LEN;
  a2 ← bytes_at d 10 IEEE80211_ADDR_LEN;
  s0 ← d !! 22%nat;
  s1 ← d !! 23%nat;
  Some (mk_frag_hdr (Z.lor s0 (Z.shiftl s1 8))
    (negb (Z.land fc1 IEEE80211_FC1_MORE_FRAG =? 0)) a1 a2).

(** A network buffer: the [next] word of its list, the rx descriptor and its
    bytes, from the data pointer to the tail. *)
Record nbuf : Type := mk_nbuf {
  nb_next : option positive;
  nb_desc : rx_desc;
  nb_data : list Z;
}.

Definition set_nb_next (v : option positive) (r : nbuf) : nbuf :=
  mk_nbuf v (nb_desc r) (nb_data r).
Definition set_nb_desc (v : rx_desc) (r : nbuf) : nbuf :=
  mk_nbuf (nb_next r) v (nb_data r).
Definition set_nb_data (v : list Z) (r : nbuf) : nbuf :=
  mk_nbuf (nb_next r) (nb_desc r) v.

Definition nb_hdr (b : nbuf) : option frag_hdr := mac_hdr (nb_data b).

(** * Reorder state *)

Record ol_rx_reorder_array_elem_t : Type := mk_elem {
  e_head : option positive;
  e_tail : option positive;
}.

Definition set_e_head (v : option positive) (r : ol_rx_reorder_array_elem_t) : ol_rx_reorder_array_elem_t :=
  mk_elem v (e_tail r).
Definition set_e_tail (v : option positive) (r : ol_rx_reorder_array_elem_t) : ol_rx_reorder_array_elem_t :=
  mk_elem (e_head r) v.

Abbreviation elem := ol_rx_reorder_array_elem_t.
Definition elem_null : elem := mk_elem None None.

(** [rx_reorder->array]: NULL, the address of [base], or an allocated array. *)
Inductive arr_ptr : Type :=
| ArrNull
| ArrBase
| ArrHeap (a : positive).

Record ol_rx_reorder_t : Type := mk_rx_reorder {
  win_sz : Z;
  win_sz_mask : Z;
  num_mpdus : Z;
  array : arr_ptr;
  base : elem;
  timeout_active : bool;
  timeout_timestamp_ms : Z;
  defrag_timeout_ms : Z;
  rr_tid : Z;
}.

Definition set_win_sz (v : Z) (r : ol_rx_reorder_t) : ol_rx_reorder_t :=
  mk_rx_reorder v (win_sz_mask r) (num_mpdus r) (array r) (base r) (timeout_active r) (timeout_timestamp_ms r) (defrag_timeout_ms r) (rr_tid r).
Definition set_win_sz_mask (v : Z) (r : ol_rx_reorder_t) : ol_rx_reorder_t :=
  mk_rx_reorder (win_sz r) v (num_mpdus r) (array r) (base r) (timeout_active r) (timeout_timestamp_ms r) (defrag_timeout_ms r) (rr_tid r).
Definition set_num_mpdus (v : Z) (r : ol_rx_reorder_t) : ol_rx_reorder_t :=
  mk_rx_reorder (win_sz r) (win_sz_mask r) v (array r) (base r) (timeout_active r) (timeout_timestamp_ms r) (defrag_timeout_ms r) (rr_tid r).
Definition set_array (v : arr_ptr) (r : ol_rx_reorder_t) : ol_rx_reorder_t :=
  mk_rx_reorder (win_sz r) (win_sz_mask r) (num_mpdus r) v (base r) (timeout_active r) (timeout_timestamp_ms r) (defrag_timeout_ms r) (rr_tid r).
Definition set_base (v : elem) (r : ol_rx_reorder_t) : ol_rx_reorder_t :=
  mk_rx_reorder (win_sz r) (win_sz_mask r) (num_mpdus r) (array r) v (timeout_active r) (timeout_timestamp_ms r) (defrag_timeout_ms r) (rr_tid r).
Definition set_timeout_active (v : bool) (r : ol_rx_reorder_t) : ol_rx_reorder_t :=
  mk_rx_reorder (win_sz r) (win_sz_mask r) (num_mpdus r) (array r) (base r) v (timeout_timestamp_ms r) (defrag_timeout_ms r) (rr_tid r).
Definition set_timeout_timestamp_ms (v : Z) (r : ol_rx_reorder_t) : ol_rx_reorder_t :=
  mk_rx_reorder (win_sz r) (win_sz_mask r) (num_mpdus r) (array r) (base r) (timeout_active r) v (defrag_timeout_ms r) (rr_tid r).
Definition set_defrag_timeout_ms (v : Z) (r : ol_rx_reorder_t) : ol_rx_reorder_t :=
  mk_rx_reorder (win_sz r) (win_sz_mask r) (num_mpdus r) (array r) (base r) (timeout_active r) (timeout_timestamp_ms r) v (rr_tid r).
Definition set_rr_tid (v : Z) (r : ol_rx_reorder_t) : ol_rx_reorder_t :=
  mk_rx_reorder (win_sz r) (win_sz_mask r) (num_mpdus r) (array r) (base r) (timeout_active r) (timeout_timestamp_ms r) (defrag_timeout_ms r) v.
Record txrx_sec : Type := mk_sec {
  sec_type : htt_sec_type;
  michael_key : list Z;
}.

Definition set_sec_type (v : htt_sec_type) (r : txrx_sec) : txrx_sec :=
  mk_sec v (michael_key r).
Definition set_michael_key (v : list Z) (r : txrx_sec) : txrx_sec :=
  mk_sec (sec_type r) v.
(** [struct ol_txrx_peer_t], with the operating mode of its vdev. *)
Record ol_txrx_peer_t : Type := mk_peer {
  opmode : wlan_op_mode;
  tids_rx_reorder : list ol_rx_reorder_t;
  tids_last_pn : list htt_rx_pn_t;
  tids_last_pn_valid : list bool;
  tids_next_rel_idx : list Z;
  tids_last_seq : list Z;
  tids_mcast_last_seq : list Z;
  security_mcast : txrx_sec;
  security_ucast : txrx_sec;
  fw_pn_check : Z;
  peer_valid : bool;
}.

Definition set_opmode (v : wlan_op_mode) (r : ol_txrx_peer_t) : ol_txrx_peer_t :=
  mk_peer v (tids_rx_reorder r) (tids_last_pn r) (tids_last_pn_valid r) (tids_next_rel_idx r) (tids_last_seq r) (tids_mcast_last_seq r) (security_mcast r) (security_ucast r) (fw_pn_check r) (peer_valid r).
Definition set_tids_rx_reorder (v : list ol_rx_reorder_t) (r : ol_txrx_peer_t) : ol_txrx_peer_t :=
  mk_peer (opmode r) v (tids_last_pn r) (tids_last_pn_valid r) (tids_next_rel_idx r) (tids_last_seq r) (tids_mcast_last_seq r) (security_mcast r) (security_ucast r) (fw_pn_check r) (peer_valid r).
Definition set_tids_last_pn (v : list htt_rx_pn_t) (r : ol_txrx_peer_t) : ol_txrx_peer_t :=
  mk_peer (opmode r) (tids_rx_reorder r) v (tids_last_pn_valid r) (tids_next_rel_idx r) (tids_last_seq r) (tids_mcast_last_seq r) (security_mcast r) (security_ucast r) (fw_pn_check r) (peer_valid r).
Definition set_tids_last_pn_valid (v : list bool) (r : ol_txrx_peer_t) : ol_txrx_peer_t :=
  mk_peer (opmode r) (tids_rx_reorder r) (tids_last_pn r) v (tids_next_rel_idx r) (tids_last_seq r) (tids_mcast_last_seq r) (security_mcast r) (security_ucast r) (fw_pn_check r) (peer_valid r).
Definition set_tids_next_rel_idx (v : list Z) (r : ol_txrx_peer_t) : ol_txrx_peer_t :=
  mk_peer (opmode r) (tids_rx_reorder r) (tids_last_pn r) (tids_last_pn_valid r) v (tids_last_seq r) (tids_mcast_last_seq r) (security_mcast r) (security_ucast r) (fw_pn_check r) (peer_valid r).
Definition set_tids_last_seq (v : list Z) (r : ol_txrx_peer_t) : ol_txrx_peer_t :=
  mk_peer (opmode r) (tids_rx_reorder r) (tids_last_pn r) (tids_last_pn_valid r) (tids_next_rel_idx r) v (tids_mcast_last_seq r) (security_mcast r) (security_ucast r) (fw_pn_check r) (peer_valid r).
Definition set_tids_mcast_last_seq (v : list Z) (r : ol_txrx_peer_t) : ol_txrx_peer_t :=
  mk_peer (opmode r) (tids_rx_reorder r) (tids_last_pn r) (tids_last_pn_valid r) (tids_next_rel_idx r) (tids_last_seq r) v (security_mcast r) (security_ucast r) (fw_pn_check r) (peer_valid r).
Definition set_security_mcast (v : txrx_sec) (r : ol_txrx_peer_t) : ol_txrx_peer_t :=
  mk_peer (opmode r) (tids_rx_reorder r) (tids_last_pn r) (tids_last_pn_valid r) (tids_next_rel_idx r) (tids_last_seq r) (tids_mcast_last_seq r) v (security_ucast r) (fw_pn_check r) (peer_valid r).
Definition set_security_ucast (v : txrx_sec) (r : ol_txrx_peer_t) : ol_txrx_peer_t :=
  mk_peer (opmode r) (tids_rx_reorder r) (tids_last_pn r) (tids_last_pn_valid r) (tids_next_rel_idx r) (tids_last_seq r) (tids_mcast_last_seq r) (security_mcast r) v (fw_pn_check r) (peer_valid r).
Definition set_fw_pn_check (v : Z) (r : ol_txrx_peer_t) : ol_txrx_peer_t :=
  mk_peer (opmode r) (tids_rx_reorder r) (tids_last_pn r) (tids_last_pn_valid r) (tids_next_rel_idx r) (tids_last_seq r) (tids_mcast_last_seq r) (security_mcast r) (security_ucast r) v (peer_valid r).
Definition set_peer_valid (v : bool) (r : ol_txrx_peer_t) : ol_txrx_peer_t :=
  mk_peer (opmode r) (tids_rx_reorder r) (tids_last_pn r) (tids_last_pn_valid r) (tids_next_rel_idx r) (tids_last_seq r) (tids_mcast_last_seq r) (security_mcast r) (security_ucast r) (fw_pn_check r) v.

Inductive ol_rx_err_type : Type :=
| OL_RX_ERR_DEFRAG_MIC
| OL_RX_ERR_PN
| OL_RX_ERR_UNKNOWN_PEER
| OL_RX_ERR_MALFORMED
| OL_RX_ERR_TKIP_MIC
| OL_RX_ERR_DECRYPT
| OL_RX_ERR_MPDU_LENGTH
| OL_RX_ERR_ENCRYPT_REQUIRED
| OL_RX_ERR_DUP
| OL_RX_ERR_UNKNOWN
| OL_RX_ERR_FCS
| OL_RX_ERR_PRIVACY
| OL_RX_ERR_NONE_FRAG
| OL_RX_ERR_NONE.

(** What the receive path reports to other parts of the system. *)
Inductive rx_event : Type :=
| EvRxErr (err : ol_rx_err_type) (peer : positive) (tid : Z) (mpdu : option positive)
| EvAddbaComplete (peer : positive) (tid : Z) (failed : bool)
| EvDupDrop (peer : positive)
| EvTimerStart (ac : nat) (duration_ms : Z)
| EvDefrag (peer : positive) (tid : Z) (frags : option positive).

(** [struct ol_tx_reorder_cat_timeout_t]: the reorder timeouts of an access category. *)
Record reorder_cat_timeout : Type := mk_cat {
  virtual_timer_list : tailq (positive * Z);
  duration_ms : Z;
}.

Definition set_virtual_timer_list (v : tailq (positive * Z)) (r : reorder_cat_timeout) : reorder_cat_timeout :=
  mk_cat v (duration_ms r).
Definition set_duration_ms (v : Z) (r : reorder_cat_timeout) : reorder_cat_timeout :=
  mk_cat (virtual_timer_list r) v.
(** The receive path's part of the pdev, with the memory it uses. *)
Record rx_state : Type := mk_rx {
  rx_peers : gmap positive ol_txrx_peer_t;
  rx_nbufs : gmap positive nbuf;
  rx_arrays : gmap positive (list elem);
  rx_waitlist : tailq (positive * Z);
  access_cats : list reorder_cat_timeout;
  peer_id_to_obj_map : list (option positive);
  now_ms : Z;
  rx_log : list rx_event;
}.

Definition set_rx_peers (v : gmap positive ol_txrx_peer_t) (r : rx_state) : rx_state :=
  mk_rx v (rx_nbufs r) (rx_arrays r) (rx_waitlist r) (access_cats r) (peer_id_to_obj_map r) (now_ms r) (rx_log r).
Definition set_rx_nbufs (v : gmap positive nbuf) (r : rx_state) : rx_state :=
  mk_rx (rx_peers r) v (rx_arrays r) (rx_waitlist r) (access_cats r) (peer_id_to_obj_map r) (now_ms r) (rx_log r).
Definition set_rx_arrays (v : gmap positive (list elem)) (r : rx_state) : rx_state :=
  mk_rx (rx_peers r) (rx_nbufs r) v (rx_waitlist r) (access_cats r) (peer_id_to_obj_map r) (now_ms r) (rx_log r).
Definition set_rx_waitlist (v : tailq (positive * Z)) (r : rx_state) : rx_state :=
  mk_rx (rx_peers r) (rx_nbufs r) (rx_arrays r) v (access_cats r) (peer_id_to_obj_map r) (now_ms r) (rx_log r).
Definition set_access_cats (v : list reorder_cat_timeout) (r : rx_state) : rx_state :=
  mk_rx (rx_peers r) (rx_nbufs r) (rx_arrays r) (rx_waitlist r) v (peer_id_to_obj_map r) (now_ms r) (rx_log r).
Definition set_peer_id_to_obj_map (v : list (option positive)) (r : rx_state) : rx_state :=
  mk_rx (rx_peers r) (rx_nbufs r) (rx_arrays r) (rx_waitlist r) (access_cats r) v (now_ms r) (rx_log r).
Definition set_now_ms (v : Z) (r : rx_state) : rx_state :=
  mk_rx (rx_peers r) (rx_nbufs r) (rx_arrays r) (rx_waitlist r) (access_cats r) (peer_id_to_obj_map r) v (rx_log r).
Definition set_rx_log (v : list rx_event) (r : rx_state) : rx_state :=
  mk_rx (rx_peers r) (rx_nbufs r) (rx_arrays r) (rx_waitlist r) (access_cats r) (peer_id_to_obj_map r) (now_ms r) v.
(** What the receive path takes from the build and from other components:
    the flags of [pdev->rx.flags], the build options, the message buffer pool,
    and the function installed as [peer->rx_opt_proc]. *)
Record rx_env : Type := mk_rx_env {
  dup_check : bool;
  defrag_timeout_check : bool;
  defrag_wait_ms : Z;
  host_addba : bool;
  max_peer_id : Z;
  ocb_peer : option positive;
  reorder_timeout_built : bool;
  rx_opt_proc : positive → Z → option positive → CM rx_state unit;
}.

(** [cdf_mem_compare] of the same number of bytes at two addresses: it is true
    when they are equal, unlike [memcmp]. *)
Definition cdf_mem_compare (m1 m2 : list Z) : bool := bool_decide (m1 = m2).

(** * Accessors *)

Definition emit (e : rx_event) : CM rx_state unit :=
  modify (λ s, set_rx_log (rx_log s ++ [e]) s).

Definition get_peer (p : positive) : CM rx_state ol_txrx_peer_t :=
  o ← gets (λ s, rx_peers s !! p); deref o.

Definition mod_peer (p : positive) (f : ol_txrx_peer_t → ol_txrx_peer_t) : CM rx_state unit :=
  x ← get_peer p;
  modify (λ s, set_rx_peers (<[p := f x]> (rx_peers s)) s).

(** [peer->tids_rx_reorder[tid]] *)
Definition get_reorder (p : positive) (tid : Z) : CM rx_state ol_rx_reorder_t :=
  x ← get_peer p;
  deref (tids_rx_reorder x !! Z.to_nat tid).

Definition mod_reorder (p : positive) (tid : Z) (f : ol_rx_reorder_t → ol_rx_reorder_t) :
    CM rx_state unit :=
  r ← get_reorder p tid;
  mod_peer p (λ x, set_tids_rx_reorder (<[Z.to_nat tid := f r]> (tids_rx_reorder x)) x).

(** [peer->tids_last_seq[tid] = v], [peer->tids_next_rel_idx[tid] = v] *)
Definition put_last_seq (p : positive) (tid v : Z) : CM rx_state unit :=
  mod_peer p (λ x, set_tids_last_seq (<[Z.to_nat tid := v]> (tids_last_seq x)) x).

Definition put_next_rel_idx (p : positive) (tid v : Z) : CM rx_state unit :=
  mod_peer p (λ x, set_tids_next_rel_idx (<[Z.to_nat tid := v]> (tids_next_rel_idx x)) x).

(** [rx_reorder->array[idx]] *)
Definition read_elem (p : positive) (tid idx : Z) : CM rx_state elem :=
  r ← get_reorder p tid;
  match array r with
  | ArrNull => ub
  | ArrBase => if idx =? 0 then mret (base r) else ub
  | ArrHeap a =>
      o ← gets (λ s, rx_arrays s !! a);
      arr ← deref o;
      deref (arr !! Z.to_nat idx)
  end.

Definition write_elem (p : positive) (tid idx : Z) (e : elem) : CM rx_state unit :=
  r ← get_reorder p tid;
  match array r with
  | ArrNull => ub
  | ArrBase => if idx =? 0 then mod_reorder p tid (set_base e) else ub
  | ArrHeap a =>
      o ← gets (λ s, rx_arrays s !! a);
      arr ← deref o;
      if (Z.to_nat idx <? length arr)%nat
      then modify (λ s, set_rx_arrays (<[a := <[Z.to_nat idx := e]> arr]> (rx_arrays s)) s)
      else ub
  end.

(** * Network buffer operations *)

Definition get_nbuf (b : option positive) : CM rx_state nbuf :=
  p ← deref b;
  o ← gets (λ s, rx_nbufs s !! p);
  deref o.

Definition cdf_nbuf_next (b : option positive) : CM rx_state (option positive) :=
  x ← get_nbuf b; mret (nb_next x).

Definition cdf_nbuf_set_next (b n : option positive) : CM rx_state unit :=
  p ← deref b;
  x ← get_nbuf b;
  modify (λ s, set_rx_nbufs (<[p := set_nb_next n x]> (rx_nbufs s)) s).

(** [htt_rx_msdu_desc_retrieve]: the descriptor attached to the buffer *)
Definition htt_rx_msdu_desc_retrieve (b : option positive) : CM rx_state rx_desc :=
  x ← get_nbuf b; mret (nb_desc x).

(** [htt_rx_desc_frame_free]: the buffer ceases to exist *)
Definition htt_rx_desc_frame_free (b : option positive) : CM rx_state unit :=
  p ← deref b;
  _ ← get_nbuf b;
  modify (λ s, set_rx_nbufs (delete p (rx_nbufs s)) s).

(** * Lists of buffers *)

(** The buffers [l] are linked one to the next.  What the last one's [next]
    word holds is left open: the driver terminates a list only when it hands
    the list over. *)
Fixpoint linked (nb : gmap positive nbuf) (l : list positive) : Prop :=
  match l with
  | [] => True
  | x :: l' =>
      match l' with
      | [] => is_Some (nb !! x)
      | y :: _ => (∃ b, nb !! x = Some b ∧ nb_next b = Some y) ∧ linked nb l'
      end
  end.

(** The NULL-terminated list [l] starts at [h]. *)
Fixpoint nlist (nb : gmap positive nbuf) (h : option positive) (l : list positive) : Prop :=
  match l with
  | [] => h = None
  | x :: l' => h = Some x ∧ ∃ b, nb !! x = Some b ∧ nlist nb (nb_next b) l'
  end.

(** What a reorder slot holds: the MSDU chain [c], empty or delimited by the
    slot's head and tail. *)
Definition slot_rep (nb : gmap positive nbuf) (e : elem) (c : list positive) : Prop :=
  e_head e = hd_error c ∧ e_tail e = last c ∧ linked nb c.

Section linked.
Implicit Types (nb : gmap positive nbuf) (l : list positive).

Lemma linked_frame nb nb' l :
  (∀ x, x ∈ l → nb' !! x = nb !! x) → linked nb l → linked nb' l.
Proof.
  induction l as [|x l IH]; intros Heq; [done|].
  destruct l as [|y l]; simpl.
  - rewrite Heq by set_solver. done.
  - intros [Hx Hl]. rewrite Heq by set_solver. split; [done|].
    apply IH; [|done]. intros z Hz. apply Heq. by right.
Qed.

Lemma linked_insert_ne nb l x b : x ∉ l → linked nb l → linked (<[x := b]> nb) l.
Proof.
  intros Hx. apply linked_frame. intros y Hy. apply lookup_insert_ne. congruence.
Qed.

Lemma linked_dom nb l x : linked nb l → x ∈ l → is_Some (nb !! x).
Proof.
  induction l as [|y l IH]; [set_solver|]. intros Hl [->|Hx]%elem_of_cons.
  - destruct l; simpl in Hl; [done|]. destruct Hl as [(b & -> & _) _]. eauto.
  - apply IH; [|done]. destruct l; simpl in *; [done|]. by destruct Hl.
Qed.

Lemma linked_app_inv nb l1 l2 : linked nb (l1 ++ l2) → linked nb l1 ∧ linked nb l2.
Proof.
  induction l1 as [|x l1 IH]; [done|].
  destruct l1 as [|y l1].
  - destruct l2 as [|z l2]; simpl; [done|].
    intros [(b & -> & _) ?]. eauto.
  - intros Hl. change (linked nb (x :: y :: (l1 ++ l2))) in Hl.
    simpl in Hl. destruct Hl as [Hx Hl].
    destruct (IH Hl) as [? ?]. split; [|done]. by split.
Qed.

(** Setting the [next] of the last buffer of a chain to the first of
    another concatenates the chains. *)
Lemma linked_join nb l x y l2 b :
  linked nb (l ++ [x]) → linked nb (y :: l2) → nb !! x = Some b →
  x ∉ l → x ∉ y :: l2 →
  linked (<[x := set_nb_next (Some y) b]> nb) ((l ++ [x]) ++ y :: l2).
Proof.
  intros Hl Hl2 Hb Hx Hx2. induction l as [|z l IH]; simpl.
  - split; [rewrite lookup_insert_eq; by eexists|].
    by apply (linked_insert_ne _ (y :: l2)).
  - apply not_elem_of_cons in Hx as [Hxz Hx].
    assert (linked nb (l ++ [x])) as Hl'.
    { by apply (linked_app_inv nb [z]) in Hl as []. }
    specialize (IH Hl' Hx). destruct l as [|z' l]; simpl in *.
    + destruct Hl as [(b' & Hz & Hn) _]. split; [|done].
      rewrite lookup_insert_ne by done. eauto.
    + destruct Hl as [(b' & Hz & Hn) _]. split; [|done].
      rewrite lookup_insert_ne by done. eauto.
Qed.

(** Setting the [next] of the last buffer to NULL terminates the chain. *)
Lemma nlist_frame nb nb' h l :
  (∀ x, x ∈ l → nb' !! x = nb !! x) → nlist nb h l → nlist nb' h l.
Proof.
  revert h. induction l as [|x l IH]; intros h Heq; simpl; [done|].
  intros (-> & b & Hx & Hl). split; [done|]. exists b.
  rewrite Heq by by left. split; [done|]. apply IH; [|done].
  intros z Hz. apply Heq. by right.
Qed.

Lemma nlist_terminate nb l x b :
  linked nb (l ++ [x]) → nb !! x = Some b → NoDup (l ++ [x]) →
  nlist (<[x := set_nb_next None b]> nb) (hd_error (l ++ [x])) (l ++ [x]).
Proof.
  induction l as [|z l IH]; simpl; intros Hl Hb Hnd.
  - split; [done|]. rewrite lookup_insert_eq. by eexists.
  - split; [done|]. apply NoDup_cons in Hnd as [Hz Hnd].
    assert (z ≠ x) by set_solver.
    destruct l as [|z' l]; simpl in *.
    + destruct Hl as [(b' & Hzb & Hn) Hl]. exists b'.
      rewrite lookup_insert_ne by done. split; [done|]. rewrite Hn. by apply IH.
    + destruct Hl as [(b' & Hzb & Hn) Hl]. exists b'.
      rewrite lookup_insert_ne by done. split; [done|]. rewrite Hn. by apply IH.
Qed.

Lemma nlist_dom nb h l x : nlist nb h l → x ∈ l → is_Some (nb !! x).
Proof.
  revert h. induction l as [|y l IH]; intros h; [set_solver|].
  intros (-> & b & Hy & Hl) [->|Hx]%elem_of_cons; eauto.
Qed.
End linked.

(** * Running the accessors *)

Section run_accessors.
Implicit Types (s : rx_state).

Lemma get_peer_run s p x : rx_peers s !! p = Some x → get_peer p s = Some (x, s).
Proof. intros H. unfold get_peer. mstep. rewrite H. done. Qed.

Lemma mod_peer_run s p x f : rx_peers s !! p = Some x →
  mod_peer p f s = Some (tt, set_rx_peers (<[p := f x]> (rx_peers s)) s).
Proof. intros H. unfold mod_peer. by mrun (get_peer_run _ _ _ H). Qed.

Lemma get_reorder_run s p tid x r : rx_peers s !! p = Some x →
  tids_rx_reorder x !! Z.to_nat tid = Some r → get_reorder p tid s = Some (r, s).
Proof.
  intros H Hr. unfold get_reorder. mrun (get_peer_run _ _ _ H). by rewrite Hr.
Qed.

Lemma mod_reorder_run s p tid x r f : rx_peers s !! p = Some x →
  tids_rx_reorder x !! Z.to_nat tid = Some r →
  mod_reorder p tid f s = Some (tt, set_rx_peers (<[p :=
    set_tids_rx_reorder (<[Z.to_nat tid := f r]> (tids_rx_reorder x)) x]> (rx_peers s)) s).
Proof.
  intros H Hr. unfold mod_reorder. mrun (get_reorder_run _ _ _ _ _ H Hr).
  by rewrite (mod_peer_run _ _ _ _ H).
Qed.

Lemma get_nbuf_run s p b : rx_nbufs s !! p = Some b → get_nbuf (Some p) s = Some (b, s).
Proof. intros H. unfold get_nbuf. mstep. rewrite H. done. Qed.

Lemma cdf_nbuf_next_run s p b : rx_nbufs s !! p = Some b →
  cdf_nbuf_next (Some p) s = Some (nb_next b, s).
Proof. intros H. unfold cdf_nbuf_next. by mrun (get_nbuf_run _ _ _ H). Qed.

Lemma cdf_nbuf_set_next_run s p b n : rx_nbufs s !! p = Some b →
  cdf_nbuf_set_next (Some p) n s =
    Some (tt, set_rx_nbufs (<[p := set_nb_next n b]> (rx_nbufs s)) s).
Proof. intros H. unfold cdf_nbuf_set_next. mstep. by mrun (get_nbuf_run _ _ _ H). Qed.

Lemma htt_rx_msdu_desc_retrieve_run s p b : rx_nbufs s !! p = Some b →
  htt_rx_msdu_desc_retrieve (Some p) s = Some (nb_desc b, s).
Proof. intros H. unfold htt_rx_msdu_desc_retrieve. by mrun (get_nbuf_run _ _ _ H). Qed.

Lemma htt_rx_desc_frame_free_run s p b : rx_nbufs s !! p = Some b →
  htt_rx_desc_frame_free (Some p) s =
    Some (tt, set_rx_nbufs (delete p (rx_nbufs s)) s).
Proof. intros H. unfold htt_rx_desc_frame_free. mstep. by mrun (get_nbuf_run _ _ _ H). Qed.
End run_accessors.
