(* ===== verification/RxTimers.v ===== *)
(** Waiting lists of the receive path.

    - The list of the TIDs that wait for missing fragments:
      [ol_rx_defrag_waitlist_add], [ol_rx_defrag_waitlist_remove] of
      [core/dp/txrx/ol_rx_defrag.c].
    - The virtual timers of the host reorder timeout, one list per access
      category: [core/dp/txrx/ol_rx_reorder_timeout.c], up to the handler,
      which is in [RxReorder.v] because it flushes.

    A list element is named by the peer and the TID whose structure embeds it. *)
From S2P Require Import Prelude Tailq RxTypes.

(** * Fragment waiting list *)

Definition on_waitlist {A} (m : CM (tailq (positive * Z)) A) : CM rx_state A :=
  zoom rx_waitlist set_rx_waitlist m.

Definition ol_rx_defrag_waitlist_add (peer : positive) (tid : Z) : CM rx_state unit :=
  on_waitlist (TAILQ_INSERT_TAIL (peer, tid)).

(** The second branch of the source tests [tqe_next] again, so it is dead. *)
Definition ol_rx_defrag_waitlist_remove (peer : positive) (tid : Z) : CM rx_state unit :=
  tqe_next ← on_waitlist (TAILQ_NEXT (peer, tid));
  match tqe_next with
  | Some _ =>
      on_waitlist (
        TAILQ_REMOVE (peer, tid);;
        set_next (peer, tid) None;;
        set_prev (peer, tid) None)
  | None => mret tt
  end.

(** * Virtual reorder timers *)

Definition TXRX_WMM_AC_VO : nat := 0.
Definition TXRX_WMM_AC_VI : nat := 1.
Definition TXRX_WMM_AC_BK : nat := 2.
Definition TXRX_WMM_AC_BE : nat := 3.

Definition TXRX_TID_TO_WMM_AC (tid : Z) : nat :=
  if Z.shiftr tid 1 =? 3 then TXRX_WMM_AC_VO
  else if Z.shiftr tid 1 =? 2 then TXRX_WMM_AC_VI
  else if negb (Z.land (Z.lxor tid (Z.shiftr tid 1)) 1 =? 0) then TXRX_WMM_AC_BK
  else TXRX_WMM_AC_BE.

Definition get_cat (ac : nat) : CM rx_state reorder_cat_timeout :=
  o ← gets (λ s, access_cats s !! ac); deref o.

Definition put_cat (ac : nat) (c : reorder_cat_timeout) : CM rx_state unit :=
  modify (λ s, set_access_cats (<[ac := c]> (access_cats s)) s).

Definition on_timer_list {A} (ac : nat) (m : CM (tailq (positive * Z)) A) : CM rx_state A :=
  c ← get_cat ac;
  match m (virtual_timer_list c) with
  | Some (a, q) => put_cat ac (set_virtual_timer_list q c);; mret a
  | None => ub
  end.

Definition ol_rx_reorder_timeout_remove (peer : positive) (tid : Z) : CM rx_state unit :=
  r ← get_reorder peer tid;
  if negb (timeout_active r) then mret tt
  else
    mod_reorder peer tid (set_timeout_active false);;
    on_timer_list (TXRX_TID_TO_WMM_AC tid) (TAILQ_REMOVE (peer, tid)).

Definition ol_rx_reorder_timeout_start (ac : nat) (time_now_ms : Z) : CM rx_state unit :=
  c ← get_cat ac;
  list_elem ← deref (TAILQ_FIRST (virtual_timer_list c));
  r ← get_reorder list_elem.1 list_elem.2;
  emit (EvTimerStart ac (u32 (timeout_timestamp_ms r - time_now_ms))).

Definition ol_rx_reorder_timeout_add (peer : positive) (tid : Z) : CM rx_state unit :=
  let ac := TXRX_TID_TO_WMM_AC tid in
  mod_reorder peer tid (set_timeout_active true);;
  time_now_ms ← gets now_ms;
  c ← get_cat ac;
  mod_reorder peer tid (set_timeout_timestamp_ms (u32 (time_now_ms + duration_ms c)));;
  let start := TAILQ_EMPTY (virtual_timer_list c) in
  on_timer_list ac (TAILQ_INSERT_TAIL (peer, tid));;
  when start (ol_rx_reorder_timeout_start ac time_now_ms).

Definition ol_rx_reorder_timeout_update (peer : option positive) (tid : Z) : CM rx_state unit :=
  match peer with
  | None => mret tt
  | Some peer =>
      r ← get_reorder peer tid;
      if num_mpdus r =? 0 then mret tt
      else if timeout_active r then mret tt
      else ol_rx_reorder_timeout_add peer tid
  end.

Definition ol_rx_reorder_timeout_peer_cleanup (peer : positive) : CM rx_state unit :=
  for_each (seqZ 0 OL_TXRX_NUM_EXT_TIDS) (λ tid,
    r ← get_reorder peer tid;
    when (timeout_active r) (ol_rx_reorder_timeout_remove peer tid)).

(** [ol_rx_reorder_timeout_init]: the timer lists of the four categories, with
    the durations of AC_VO, AC_VI, AC_BK and AC_BE. *)
Definition ol_rx_reorder_timeout_init (es : gmap (positive * Z) (entry (positive * Z))) :
    list reorder_cat_timeout :=
  (λ d, mk_cat (mk_tailq None SHead es) d) <$> [40; 100; 100; 100].

(** The macros of [ol_rx_reorder_timeout.h]: without host reorder timeouts in
    the build they are no-ops. *)
Section timeout_macros.
Context (env : rx_env).

Definition OL_RX_REORDER_TIMEOUT_REMOVE (peer : positive) (tid : Z) : CM rx_state unit :=
  when (reorder_timeout_built env) (ol_rx_reorder_timeout_remove peer tid).

Definition OL_RX_REORDER_TIMEOUT_UPDATE (peer : option positive) (tid : Z) :
    CM rx_state unit :=
  when (reorder_timeout_built env) (ol_rx_reorder_timeout_update peer tid).

Definition OL_RX_REORDER_TIMEOUT_PEER_CLEANUP (peer : positive) : CM rx_state unit :=
  when (reorder_timeout_built env) (ol_rx_reorder_timeout_peer_cleanup peer).
End timeout_macros.

(** * The fragment waiting list *)

Lemma zoom_run {S T A} (get : S → T) set (m : CM T A) s a t :
  m (get s) = Some (a, t) → zoom get set m s = Some (a, set t s).
Proof. intros H. unfold zoom. by rewrite H. Qed.

(** What removing the element [k] does to the queue alone. *)
Lemma waitlist_remove_queue q l1 peer tid l2 :
  rep q (l1 ++ (peer, tid) :: l2) →
  ∃ q', (∀ s, rx_waitlist s = q →
      ol_rx_defrag_waitlist_remove peer tid s = Some (tt, set_rx_waitlist q' s)) ∧
    match l2 with
    | [] => q' = q
    | _ => rep q' (l1 ++ l2)
    end.
Proof.
  intros Hr. pose proof (TAILQ_NEXT_ok _ _ _ _ Hr) as Hn.
  destruct l2 as [|y l2]; simpl.
  - exists q. split; [|done]. intros s Hs. unfold ol_rx_defrag_waitlist_remove.
    assert (on_waitlist (TAILQ_NEXT (peer, tid)) s = Some (None, s)) as Hrun.
    { unfold on_waitlist. rewrite (zoom_run _ _ _ _ None q) by by rewrite Hs.
      rewrite <- Hs. by destruct s. }
    mrun Hrun. rewrite <- Hs. by destruct s.
  - destruct (TAILQ_REMOVE_ok _ _ _ _ Hr) as (q1 & Hq1 & [Hnd Hs1] & _ & Hx).
    assert (∀ es : gmap (positive * Z) (entry (positive * Z)),
      es !! (peer, tid) = Some (mk_entry None None) →
      <[(peer, tid) := mk_entry None None]> es = es) as Hsame.
    { intros es He. by apply insert_id. }
    exists q1. split; [|done]. intros s Hs. unfold ol_rx_defrag_waitlist_remove.
    assert (on_waitlist (TAILQ_NEXT (peer, tid)) s = Some (Some y, s)) as Hrun.
    { unfold on_waitlist. rewrite (zoom_run _ _ _ _ (Some y) q) by by rewrite Hs.
      rewrite <- Hs. by destruct s. }
    mrun Hrun. unfold on_waitlist. apply zoom_run. rewrite Hs.
    mrun Hq1. mrun (set_next_run q1 _ _ None Hx). cbn [tqe_prev].
    rewrite Hsame by done. unfold set_prev. cbn. rewrite Hx. cbn.
    rewrite Hsame by done. by destruct q1.
Qed.

(** The waiting list lets the element be removed: it is on the list, or its
    links are cleared. *)
Definition waitlist_ok (q : tailq (positive * Z)) (k : positive * Z) : Prop :=
  (∃ l1 l2, rep q (l1 ++ k :: l2)) ∨ (∃ e, entries q !! k = Some e ∧ tqe_next e = None).

Lemma waitlist_remove_run q peer tid : waitlist_ok q (peer, tid) →
  ∃ q', ∀ s, rx_waitlist s = q →
    ol_rx_defrag_waitlist_remove peer tid s = Some (tt, set_rx_waitlist q' s).
Proof.
  intros [(l1 & l2 & Hr)|(e & He & Hn)].
  - destruct (waitlist_remove_queue _ _ _ _ _ Hr) as (q' & Hq' & _). eauto.
  - exists q. intros s Hs. unfold ol_rx_defrag_waitlist_remove.
    assert (on_waitlist (TAILQ_NEXT (peer, tid)) s = Some (None, s)) as Hrun.
    { unfold on_waitlist. rewrite (zoom_run _ _ _ _ None q).
      - rewrite <- Hs. by destruct s.
      - rewrite Hs. unfold TAILQ_NEXT, get_entry. mstep. by rewrite Hn. }
    mrun Hrun. rewrite <- Hs. by destruct s.
Qed.

(** [ol_rx_defrag_waitlist_remove] takes a TID off the waiting list only
    when another TID waits behind it: the last element, whose [tqe_next] is
    NULL, stays on the list and nothing changes. *)
Theorem waitlist_remove_last_stays s l1 peer tid l2 :
  rep (rx_waitlist s) (l1 ++ (peer, tid) :: l2) →
  ∃ q, ol_rx_defrag_waitlist_remove peer tid s = Some (tt, set_rx_waitlist q s) ∧
    match l2 with
    | [] => q = rx_waitlist s ∧ rep q (l1 ++ [(peer, tid)])
    | _ => rep q (l1 ++ l2)
    end.
Proof.
  intros Hr. destruct (waitlist_remove_queue _ _ _ _ _ Hr) as (q & Hq & Hl).
  exists q. split; [by apply Hq|]. destruct l2; [by subst|done].
Qed.

Definition two_waiting : tailq (positive * Z) :=
  mk_tailq (Some (1%positive, 0)) (SNext (2%positive, 0))
    {[ (1%positive, 0) := mk_entry (Some (2%positive, 0)) (Some SHead);
       (2%positive, 0) := mk_entry None (Some (SNext (1%positive, 0))) ]}.

Definition waiting_state (q : tailq (positive * Z)) : rx_state :=
  mk_rx ∅ ∅ ∅ q [] [] 0 [].

Lemma waitlist_remove_last_stays_witness :
  ∃ q, ol_rx_defrag_waitlist_remove 2 0 (waiting_state two_waiting)
         = Some (tt, set_rx_waitlist q (waiting_state two_waiting)) ∧
    q = rx_waitlist (waiting_state two_waiting) ∧
    rep q ([(1%positive, 0)] ++ [(2%positive, 0)]).
Proof.
  refine (waitlist_remove_last_stays (waiting_state two_waiting) [(1%positive, 0)] 2 0 [] _).
  split; [repeat constructor; set_solver|].
  repeat first [split; [reflexivity|] | eexists; split; [vm_compute; reflexivity|] | done].
Defined.
