(* ===== verification/RxReorder.v ===== *)
(** The receive reorder buffer: [core/dp/txrx/ol_rx_reorder.c], the timeout
    handler of [ol_rx_reorder_timeout.c] and the flush of a fragment slot from
    [ol_rx_defrag.c].

    A TID's block-ack window is an array of slots; a slot holds the chain of
    the MSDUs of one MPDU.  The abstract window is the list of these chains,
    [list (list positive)]; [drain] is what releasing or flushing a run of
    slots does to it. *)
From S2P Require Import Prelude Tailq RxTypes RxTimers.

(** * Window sizes *)

Definition g_log2ceil : list Z :=
  [1; 1; 2; 4; 4] ++ replicate 4 8 ++ replicate 8 16 ++ replicate 16 32 ++ replicate 32 64.

Definition OL_RX_REORDER_IDX_WRAP (idx win_sz_mask : Z) : Z := Z.land idx win_sz_mask.

Definition ol_rx_reorder_init (p : positive) (tid : Z) : CM rx_state unit :=
  mod_reorder p tid (λ r,
    mk_rx_reorder 1 0 (num_mpdus r) ArrBase elem_null (timeout_active r)
      (timeout_timestamp_ms r) 0 tid);;
  on_waitlist (set_next (p, tid) None;; set_prev (p, tid) None).

(** * Sequence numbers *)

Definition seq_num_delta (seq_num last_seq : Z) : Z :=
  Z.land (u32 (seq_num - 1 - last_seq)) (IEEE80211_SEQ_MAX - 1).

Definition ol_rx_reorder_seq_num_check (p : positive) (tid seq_num : Z) :
    CM rx_state htt_rx_status :=
  x ← get_peer p;
  last_seq ← deref (tids_last_seq x !! Z.to_nat tid);
  if last_seq =? IEEE80211_SEQ_MAX then mret htt_rx_status_ok
  else if seq_num_delta seq_num last_seq >? Z.shiftr IEEE80211_SEQ_MAX 1
  then mret htt_rx_status_err_replay
  else mret htt_rx_status_ok.

Definition ol_rx_seq_num_check (p : positive) (tid : Z) (rx_mpdu_desc : rx_desc) :
    CM rx_state htt_rx_status :=
  let seq_num := u16 (rd_seq_num rx_mpdu_desc) in
  if tid =? OL_RX_MCAST_TID then
    let pkt_tid := u16 (rd_tid rx_mpdu_desc) in
    if pkt_tid >=? OL_TXRX_NUM_EXT_TIDS then mret htt_rx_status_ok
    else
      x ← get_peer p;
      last ← deref (tids_mcast_last_seq x !! Z.to_nat pkt_tid);
      if rd_retry rx_mpdu_desc && (seq_num =? last) then
        emit (EvDupDrop p);;
        mret htt_rx_status_err_replay
      else
        mod_peer p (λ x, set_tids_mcast_last_seq
          (<[Z.to_nat pkt_tid := seq_num]> (tids_mcast_last_seq x)) x);;
        mret htt_rx_status_ok
  else ol_rx_reorder_seq_num_check p tid seq_num.

(** * Storing, releasing and flushing *)

Definition ol_rx_reorder_store (p : positive) (tid idx : Z)
    (head_msdu tail_msdu : option positive) : CM rx_state unit :=
  r ← get_reorder p tid;
  let idx := Z.land idx (win_sz_mask r) in
  e ← read_elem p tid idx;
  match e_head e with
  | Some _ =>
      cdf_nbuf_set_next (e_tail e) head_msdu;;
      write_elem p tid idx (mk_elem (e_head e) tail_msdu)
  | None => write_elem p tid idx (mk_elem head_msdu tail_msdu)
  end.

(** The [while] loop of [ol_rx_reorder_release]; it returns [tail_msdu]. *)
Fixpoint release_loop (fuel : nat) (p : positive) (tid win_sz_mask idx idx_end : Z)
    (tail_msdu : option positive) : CM rx_state (option positive) :=
  if idx =? idx_end then mret tail_msdu
  else
    match fuel with
    | O => ub
    | S fuel =>
        e ← read_elem p tid idx;
        match tail_msdu with
        | Some _ => cdf_nbuf_set_next tail_msdu (e_head e)
        | None => mret tt
        end;;
        write_elem p tid idx elem_null;;
        release_loop fuel p tid win_sz_mask (OL_RX_REORDER_IDX_WRAP (idx + 1) win_sz_mask)
          idx_end (e_tail e)
    end.

Section reorder.
Context (env : rx_env).

Definition ol_rx_reorder_release (p : positive) (tid idx_start idx_end : Z) :
    CM rx_state unit :=
  put_next_rel_idx p tid (u16 idx_end);;
  r ← get_reorder p tid;
  let mask := win_sz_mask r in
  let idx_start := Z.land idx_start mask in
  let idx_end := Z.land idx_end mask in
  e ← read_elem p tid idx_start;
  let head_msdu := e_head e in
  write_elem p tid idx_start elem_null;;
  tail_msdu ← release_loop (Z.to_nat (mask + 1)) p tid mask
    (OL_RX_REORDER_IDX_WRAP (idx_start + 1) mask) idx_end (e_tail e);
  d ← htt_rx_msdu_desc_retrieve head_msdu;
  put_last_seq p tid (u16 (rd_seq_num d));;
  cdf_nbuf_set_next tail_msdu None;;
  rx_opt_proc env p tid head_msdu;;
  OL_RX_REORDER_TIMEOUT_REMOVE env p tid.

(** The [do .. while] loop of [ol_rx_reorder_flush]; it returns
    [head_msdu] and [tail_msdu]. *)
Fixpoint flush_loop (fuel : nat) (p : positive) (tid win_sz_mask idx_start idx_end : Z)
    (head_msdu tail_msdu : option positive) :
    CM rx_state (option positive * option positive) :=
  match fuel with
  | O => ub
  | S fuel =>
      e ← read_elem p tid idx_start;
      let next := OL_RX_REORDER_IDX_WRAP (idx_start + 1) win_sz_mask in
      ht ← match e_head e with
           | Some _ =>
               match head_msdu with
               | None =>
                   write_elem p tid idx_start elem_null;;
                   mret (e_head e, e_tail e)
               | Some _ =>
                   cdf_nbuf_set_next tail_msdu (e_head e);;
                   write_elem p tid idx_start elem_null;;
                   mret (head_msdu, e_tail e)
               end
           | None => mret (head_msdu, tail_msdu)
           end;
      if next =? idx_end then mret ht
      else flush_loop fuel p tid win_sz_mask next idx_end ht.1 ht.2
  end.

(** [do { next = head->next; free(head); head = next; } while (head);] *)
Fixpoint free_list (fuel : nat) (head_msdu : option positive) : CM rx_state unit :=
  match fuel with
  | O => ub
  | S fuel =>
      next ← cdf_nbuf_next head_msdu;
      htt_rx_desc_frame_free head_msdu;;
      match next with
      | None => mret tt
      | Some _ => free_list fuel next
      end
  end.

Definition num_nbufs : CM rx_state nat := gets (λ s, size (rx_nbufs s)).

Definition ol_rx_reorder_flush (p : positive) (tid idx_start idx_end : Z)
    (action : htt_rx_flush_action) : CM rx_state unit :=
  r ← get_reorder p tid;
  let mask := win_sz_mask r in
  let all := idx_end =? 0xffff in
  put_next_rel_idx p tid (if all then 0 else u16 idx_end);;
  let idx_end := Z.land (if all then idx_start else idx_end) mask in
  let idx_start := Z.land idx_start mask in
  ht ← flush_loop (Z.to_nat (mask + 1)) p tid mask idx_start idx_end None None;
  ol_rx_defrag_waitlist_remove p tid;;
  match ht.1 with
  | Some _ =>
      d ← htt_rx_msdu_desc_retrieve ht.1;
      put_last_seq p tid (u16 (rd_seq_num d));;
      cdf_nbuf_set_next ht.2 None;;
      match action with
      | htt_rx_flush_release => rx_opt_proc env p tid ht.1
      | htt_rx_flush_discard => n ← num_nbufs; free_list n ht.1
      end
  | None => mret tt
  end;;
  OL_RX_REORDER_TIMEOUT_REMOVE env p tid.

(** The two [while] loops of [ol_rx_reorder_first_hole]: skip the slots
    that are empty ([present = false]) or filled ([present = true]). *)
Fixpoint skip_slots (fuel : nat) (present : bool) (p : positive)
    (tid win_sz_mask idx_start tmp_idx : Z) : CM rx_state Z :=
  if tmp_idx =? idx_start then mret tmp_idx
  else
    match fuel with
    | O => ub
    | S fuel =>
        e ← read_elem p tid tmp_idx;
        if Bool.eqb (bool_decide (is_Some (e_head e))) present
        then skip_slots fuel present p tid win_sz_mask idx_start
               (OL_RX_REORDER_IDX_WRAP (tmp_idx + 1) win_sz_mask)
        else mret tmp_idx
    end.

Definition ol_rx_reorder_first_hole (p : positive) (tid : Z) : CM rx_state Z :=
  r ← get_reorder p tid;
  let mask := win_sz_mask r in
  let fuel := Z.to_nat (mask + 1) in
  i ← skip_slots fuel false p tid mask 0 (OL_RX_REORDER_IDX_WRAP 1 mask);
  skip_slots fuel true p tid mask 0 i.

Definition ol_rx_reorder_peer_cleanup (p : positive) : CM rx_state unit :=
  for_each (seqZ 0 OL_TXRX_NUM_EXT_TIDS)
    (λ tid, ol_rx_reorder_flush p tid 0 0 htt_rx_flush_discard);;
  OL_RX_REORDER_TIMEOUT_PEER_CLEANUP env p.

(** The handler of the reorder timer of an access category. *)
Fixpoint timeout_loop (fuel : nat) (ac : nat) (time_now_ms : Z)
    (list_elem : option (positive * Z)) : CM rx_state unit :=
  match list_elem, fuel with
  | None, _ => mret tt
  | Some _, O => ub
  | Some (p, tid), S fuel =>
      tmp ← on_timer_list ac (TAILQ_NEXT (p, tid));
      r ← get_reorder p tid;
      if timeout_timestamp_ms r >? time_now_ms then mret tt
      else
        mod_reorder p tid (set_timeout_active false);;
        on_timer_list ac (TAILQ_REMOVE (p, tid));;
        idx_end ← ol_rx_reorder_first_hole p tid;
        ol_rx_reorder_flush p tid 0xffff idx_end htt_rx_flush_release;;
        timeout_loop fuel ac time_now_ms tmp
  end.

Definition ol_rx_reorder_timeout (ac : nat) : CM rx_state unit :=
  time_now_ms ← gets now_ms;
  c ← get_cat ac;
  timeout_loop (S (size (entries (virtual_timer_list c)))) ac time_now_ms
    (TAILQ_FIRST (virtual_timer_list c));;
  c ← get_cat ac;
  when (negb (TAILQ_EMPTY (virtual_timer_list c)))
    (ol_rx_reorder_timeout_start ac time_now_ms).

(** * Block-ack agreements *)

Definition ol_txrx_peer_find_by_id (peer_id : Z) : CM rx_state (option positive) :=
  if peer_id >? max_peer_id env then mret None
  else
    m ← gets peer_id_to_obj_map;
    o ← deref (m !! Z.to_nat peer_id);
    match o with
    | None => mret None
    | Some p => x ← get_peer p; mret (if peer_valid x then Some p else None)
    end.

(** [mem] is what [cdf_mem_malloc] returns. *)
Definition ol_rx_addba_handler (mem : option positive)
    (peer_id tid win_sz start_seq_num : Z) (failed : bool) : CM rx_state unit :=
  o ← ol_txrx_peer_find_by_id peer_id;
  match o with
  | None => mret tt
  | Some p =>
      when (host_addba env) (emit (EvAddbaComplete p tid failed));;
      if failed then mret tt
      else
        put_last_seq p tid IEEE80211_SEQ_MAX;;
        mod_reorder p tid (set_win_sz win_sz);;
        round_pwr2_win_sz ← deref (g_log2ceil !! Z.to_nat win_sz);
        match mem with
        | Some a =>
            mod_reorder p tid (set_array (ArrHeap a));;
            modify (λ s, set_rx_arrays
              (<[a := replicate (Z.to_nat round_pwr2_win_sz) elem_null]> (rx_arrays s)) s)
        | None => mod_reorder p tid (set_array ArrNull)
        end;;
        mod_reorder p tid (set_win_sz_mask (u8 (round_pwr2_win_sz - 1)));;
        mod_reorder p tid (set_num_mpdus 0);;
        put_next_rel_idx p tid 0
  end.

Definition ol_rx_delba_handler (peer_id tid : Z) : CM rx_state unit :=
  o ← ol_txrx_peer_find_by_id peer_id;
  match o with
  | None => mret tt
  | Some p =>
      put_next_rel_idx p tid 0xffff;;
      r ← get_reorder p tid;
      match array r with
      | ArrBase | ArrNull => mret tt
      | ArrHeap a =>
          o ← gets (λ s, rx_arrays s !! a);
          _ ← deref o;
          modify (λ s, set_rx_arrays (delete a (rx_arrays s)) s)
      end;;
      ol_rx_reorder_init p tid
  end.

(** * Handlers called by HTT *)

(** [ol_rx_frames_free] of [ol_rx.c]: [while (frag) { .. }] *)
Definition ol_rx_frames_free (frames : option positive) : CM rx_state unit :=
  match frames with
  | None => mret tt
  | Some _ => n ← num_nbufs; free_list n frames
  end.

Definition ol_rx_reorder_flush_frag (p : positive) (tid seq_num : Z) : CM rx_state unit :=
  r ← get_reorder p tid;
  let seq := Z.land seq_num (win_sz_mask r) in
  e ← read_elem p tid seq;
  match e_head e with
  | Some _ =>
      ol_rx_frames_free (e_head e);;
      write_elem p tid seq elem_null
  | None => mret tt
  end.

Definition ol_rx_flush_handler (peer_id tid idx_start idx_end : Z)
    (action : htt_rx_flush_action) : CM rx_state unit :=
  o ← ol_txrx_peer_find_by_id peer_id;
  match o with
  | None => mret tt
  | Some p =>
      r ← get_reorder p tid;
      e ← read_elem p tid (Z.land idx_start (win_sz_mask r));
      is_frag ← match e_head e with
                | Some _ => d ← htt_rx_msdu_desc_retrieve (e_head e); mret (rd_is_frag d)
                | None => mret false
                end;
      if (is_frag : bool) then ol_rx_reorder_flush_frag p tid idx_start
      else
        ol_rx_reorder_flush p tid idx_start idx_end action;;
        OL_RX_REORDER_TIMEOUT_UPDATE env (Some p) tid
  end.

(** [do { .. free(msdu); if (msdu == mpdu_tail) break; msdu = next; } while (1);] *)
Fixpoint free_mpdu (fuel : nat) (msdu mpdu_tail : option positive) : CM rx_state unit :=
  match fuel with
  | O => ub
  | S fuel =>
      next_msdu ← cdf_nbuf_next msdu;
      htt_rx_desc_frame_free msdu;;
      if decide (msdu = mpdu_tail) then mret tt
      else free_mpdu fuel next_msdu mpdu_tail
  end.

(** The [do .. while] loop of [ol_rx_pn_ind_handler]; it returns
    [head_msdu] and [tail_msdu]. *)
Fixpoint pn_ind_loop (fuel : nat) (p : positive) (tid win_sz_mask seq_num seq_num_end : Z)
    (pn_ie_cnt : Z) (pn_ie : list Z) (i : nat) (head_msdu tail_msdu : option positive) :
    CM rx_state (option positive * option positive) :=
  match fuel with
  | O => ub
  | S fuel =>
      e ← read_elem p tid seq_num;
      '(cnt, j, hd, tl) ←
        match e_head e with
        | None => mret (pn_ie_cnt, i, head_msdu, tail_msdu)
        | Some _ =>
            bad ← (if pn_ie_cnt =? 0 then mret false
                   else v ← deref (pn_ie !! i); mret (seq_num =? v));
            if (bad : bool) then
              _ ← htt_rx_msdu_desc_retrieve (e_head e);
              emit (EvRxErr OL_RX_ERR_PN p tid (e_head e));;
              n ← num_nbufs;
              free_mpdu n (e_head e) (e_tail e);;
              write_elem p tid seq_num elem_null;;
              mret (u8 (pn_ie_cnt - 1), S i, head_msdu, tail_msdu)
            else
              match head_msdu with
              | None =>
                  write_elem p tid seq_num elem_null;;
                  mret (pn_ie_cnt, i, e_head e, e_tail e)
              | Some _ =>
                  cdf_nbuf_set_next tail_msdu (e_head e);;
                  write_elem p tid seq_num elem_null;;
                  mret (pn_ie_cnt, i, head_msdu, e_tail e)
              end
        end;
      let next := Z.land (seq_num + 1) win_sz_mask in
      if next =? seq_num_end then mret (hd, tl)
      else pn_ind_loop fuel p tid win_sz_mask next seq_num_end cnt pn_ie j hd tl
  end.

Definition ol_rx_pn_ind_handler (peer_id tid seq_num_start seq_num_end pn_ie_cnt : Z)
    (pn_ie : list Z) : CM rx_state unit :=
  o ← ol_txrx_peer_find_by_id peer_id;
  match (match o with None => ocb_peer env | Some p => Some p end) with
  | None => mret tt
  | Some p =>
      mod_peer p (set_fw_pn_check 1);;
      r ← get_reorder p tid;
      let mask := win_sz_mask r in
      ht ← pn_ind_loop (Z.to_nat (mask + 1)) p tid mask (Z.land seq_num_start mask)
             (Z.land seq_num_end mask) pn_ie_cnt pn_ie 0 None None;
      match ht.1 with
      | Some _ =>
          cdf_nbuf_set_next ht.2 None;;
          rx_opt_proc env p tid ht.1
      | None => mret tt
      end
  end.
End reorder.
