(* ===== verification/RxWindow.v ===== *)
(** The abstract window of a TID and its relation to the reorder array.

    [window] reads a TID's array and [put_window] replaces it; every operation
    of [RxReorder.v] is shown to act on the state through them.  [win_ok] says
    that the slots hold the chains [cs] and that no buffer is in two places.
    [drain] is the specification of taking the frames out of a run of slots. *)
From S2P Require Import Prelude Tailq RxTypes RxTimers RxReorder.

(** * Reading and replacing the array *)

Definition window (s : rx_state) (p : positive) (tid : Z) : option (list elem) :=
  x ← rx_peers s !! p;
  r ← tids_rx_reorder x !! Z.to_nat tid;
  match array r with
  | ArrNull => None
  | ArrBase => Some [base r]
  | ArrHeap a => rx_arrays s !! a
  end.

Definition put_window (p : positive) (tid : Z) (arr : list elem) (s : rx_state) : rx_state :=
  match rx_peers s !! p with
  | Some x =>
      match tids_rx_reorder x !! Z.to_nat tid with
      | Some r =>
          match array r, arr with
          | ArrBase, [b] =>
              set_rx_peers (<[p := set_tids_rx_reorder
                (<[Z.to_nat tid := set_base b r]> (tids_rx_reorder x)) x]> (rx_peers s)) s
          | ArrHeap a, _ => set_rx_arrays (<[a := arr]> (rx_arrays s)) s
          | _, _ => s
          end
      | None => s
      end
  | None => s
  end.

Section window.
Implicit Types (s : rx_state) (arr : list elem).

Lemma window_inv s p tid arr : window s p tid = Some arr →
  ∃ (x : ol_txrx_peer_t) (r : ol_rx_reorder_t), rx_peers s !! p = Some x ∧ tids_rx_reorder x !! Z.to_nat tid = Some r ∧
    ((array r = ArrBase ∧ arr = [base r]) ∨
     (∃ a, array r = ArrHeap a ∧ rx_arrays s !! a = Some arr)).
Proof.
  unfold window. intros H.
  destruct (rx_peers s !! p) as [x|]; [|done]. simpl in H.
  destruct (tids_rx_reorder x !! Z.to_nat tid) as [r|] eqn:Hr; [|done]. simpl in H.
  exists x, r. split_and!; [done..|].
  destruct (array r); simplify_eq; eauto.
Qed.

Lemma read_elem_run s p tid arr i e :
  window s p tid = Some arr → 0 ≤ i → arr !! Z.to_nat i = Some e →
  read_elem p tid i s = Some (e, s).
Proof.
  intros (x & r & Hx & Hr & Hw)%window_inv Hi He. unfold read_elem.
  mrun (get_reorder_run _ _ _ _ _ Hx Hr). destruct Hw as [[-> ->]|(a & -> & Ha)].
  - assert (Z.to_nat i = 0%nat) as H0.
    { apply lookup_lt_Some in He. simpl in He. lia. }
    rewrite H0 in He. simpl in He. simplify_eq. by replace i with 0 by lia.
  - mstep. by rewrite He.
Qed.

Lemma insert_same_fields s p x tid r b :
  rx_peers s !! p = Some x → tids_rx_reorder x !! Z.to_nat tid = Some r →
  put_window p tid [b] s =
    match array r with
    | ArrNull => s
    | ArrBase => set_rx_peers (<[p := set_tids_rx_reorder
              (<[Z.to_nat tid := set_base b r]> (tids_rx_reorder x)) x]> (rx_peers s)) s
    | ArrHeap a => set_rx_arrays (<[a := [b]]> (rx_arrays s)) s
    end.
Proof. intros Hx Hr. unfold put_window. rewrite Hx, Hr. by destruct (array r). Qed.

Lemma write_elem_run s p tid arr i e :
  window s p tid = Some arr → 0 ≤ i < Z.of_nat (length arr) →
  write_elem p tid i e s = Some (tt, put_window p tid (<[Z.to_nat i := e]> arr) s).
Proof.
  intros (x & r & Hx & Hr & Hw)%window_inv Hi. unfold write_elem.
  mrun (get_reorder_run _ _ _ _ _ Hx Hr). destruct Hw as [[Ha ->]|(a & Ha & Harr)].
  - simpl in Hi. assert (i = 0) as -> by lia. rewrite Ha. simpl.
    rewrite (mod_reorder_run _ _ _ _ _ _ Hx Hr).
    rewrite (insert_same_fields _ _ _ _ _ _ Hx Hr). by rewrite Ha.
  - rewrite Ha. mstep.
    destruct (Nat.ltb_spec (Z.to_nat i) (length arr)); [|lia].
    unfold modify, put_window. rewrite Hx, Hr, Ha. done.
Qed.

Lemma window_put s p tid arr arr' :
  window s p tid = Some arr → length arr' = length arr →
  window (put_window p tid arr' s) p tid = Some arr'.
Proof.
  intros (x & r & Hx & Hr & Hw)%window_inv Hl.
  unfold put_window. rewrite Hx, Hr. destruct Hw as [[Ha ->]|(a & Ha & Harr)]; rewrite Ha.
  - destruct arr' as [|b [|]]; simpl in Hl; try lia.
    unfold window. simpl. rewrite lookup_insert_eq. simpl.
    rewrite list_lookup_insert_eq by by apply lookup_lt_Some in Hr. simpl. by rewrite Ha.
  - unfold window. simpl. rewrite Hx. simpl. rewrite Hr. simpl. rewrite Ha.
    by rewrite lookup_insert_eq.
Qed.

Lemma put_put s p tid arr arr1 arr2 :
  window s p tid = Some arr → length arr1 = length arr → length arr2 = length arr →
  put_window p tid arr2 (put_window p tid arr1 s) = put_window p tid arr2 s.
Proof.
  intros (x & r & Hx & Hr & Hw)%window_inv Hl Hl2.
  unfold put_window at 2 3. rewrite Hx, Hr. destruct Hw as [[Ha ->]|(a & Ha & Harr)]; rewrite Ha.
  - destruct arr1 as [|b [|]]; simpl in Hl; try lia.
    destruct arr2 as [|b2 [|]]; simpl in Hl2; try lia.
    unfold put_window. simpl. rewrite lookup_insert_eq. simpl.
    rewrite list_lookup_insert_eq by by apply lookup_lt_Some in Hr. simpl. rewrite Ha.
    unfold set_rx_peers. simpl. rewrite insert_insert_eq. unfold set_tids_rx_reorder.
    simpl. rewrite list_insert_insert_eq. done.
  - unfold put_window. simpl. rewrite Hx, Hr, Ha. unfold set_rx_arrays. simpl.
    by rewrite insert_insert_eq.
Qed.

Lemma put_window_same s p tid arr : window s p tid = Some arr → put_window p tid arr s = s.
Proof.
  intros (x & r & Hx & Hr & Hw)%window_inv.
  unfold put_window. rewrite Hx, Hr. destruct Hw as [[Ha ->]|(a & Ha & Harr)]; rewrite Ha.
  - replace (set_base (base r) r) with r by by destruct r.
    rewrite list_insert_id by done.
    replace (set_tids_rx_reorder _ x) with x by by destruct x.
    rewrite insert_id by done. by destruct s.
  - rewrite insert_id by done. by destruct s.
Qed.

(** [put_window] changes neither the buffers nor the window parameters. *)
Lemma put_window_nbufs s p tid arr nb :
  put_window p tid arr (set_rx_nbufs nb s) = set_rx_nbufs nb (put_window p tid arr s).
Proof. unfold put_window. simpl. repeat case_match; done. Qed.

Lemma rx_nbufs_put_window s p tid arr : rx_nbufs (put_window p tid arr s) = rx_nbufs s.
Proof. unfold put_window. repeat case_match; done. Qed.

Lemma window_nbufs s p tid nb : window (set_rx_nbufs nb s) p tid = window s p tid.
Proof. done. Qed.

Lemma rx_waitlist_put_window s p tid arr :
  rx_waitlist (put_window p tid arr s) = rx_waitlist s.
Proof. unfold put_window. repeat case_match; done. Qed.

Lemma set_nbufs_nbufs nb1 nb2 s : set_rx_nbufs nb2 (set_rx_nbufs nb1 s) = set_rx_nbufs nb2 s.
Proof. done. Qed.

(** The peer's other per-TID words and the parameters of the window. *)
Lemma put_window_peer s p tid arr x r :
  rx_peers s !! p = Some x → tids_rx_reorder x !! Z.to_nat tid = Some r →
  ∃ b, rx_peers (put_window p tid arr s) !! p = Some (set_tids_rx_reorder
    (<[Z.to_nat tid := set_base b r]> (tids_rx_reorder x)) x).
Proof.
  intros Hx Hr. unfold put_window. rewrite Hx, Hr.
  assert (set_tids_rx_reorder (<[Z.to_nat tid := set_base (base r) r]> (tids_rx_reorder x)) x
    = x) as Hid.
  { replace (set_base (base r) r) with r by by destruct r.
    rewrite list_insert_id by done. by destruct x. }
  destruct (array r); [exists (base r); by rewrite Hid| |exists (base r); by rewrite Hid].
  destruct arr as [|b [|]]; [exists (base r); by rewrite Hid| |exists (base r); by rewrite Hid].
  exists b. simpl. by rewrite lookup_insert_eq.
Qed.
End window.

(** * Chains *)

(** A record of the buffers that an operation may relink: the others are the
    same, and no descriptor changes. *)
Definition nb_frame (nb nb' : gmap positive nbuf) (l : list positive) : Prop :=
  (∀ x, x ∉ l → nb' !! x = nb !! x) ∧
  (∀ x b, nb !! x = Some b → ∃ n, nb' !! x = Some (set_nb_next n b)).

Definition win_ok (nb : gmap positive nbuf) (arr : list elem) (cs : list (list positive)) : Prop :=
  Forall2 (slot_rep nb) arr cs.

Section chains.
Implicit Types (nb : gmap positive nbuf) (cs : list (list positive)).

Lemma nb_frame_refl nb l : nb_frame nb nb l.
Proof. split; [done|]. intros x b Hb. exists (nb_next b). rewrite Hb. by destruct b. Qed.

Lemma nb_frame_trans nb1 nb2 nb3 l1 l2 l :
  nb_frame nb1 nb2 l1 → nb_frame nb2 nb3 l2 → l1 ⊆ l → l2 ⊆ l → nb_frame nb1 nb3 l.
Proof.
  intros [H1 H1'] [H2 H2'] Hl1 Hl2. split.
  - intros x Hx. rewrite H2, H1 by auto. done.
  - intros x b Hb. destruct (H1' _ _ Hb) as (n & Hn). by destruct (H2' _ _ Hn) as (n' & ->); exists n'.
Qed.

Lemma nb_frame_set_next nb x b n : nb !! x = Some b →
  nb_frame nb (<[x := set_nb_next n b]> nb) [x].
Proof.
  intros Hb. split.
  - intros y Hy. apply lookup_insert_ne. set_solver.
  - intros y b' Hb'. destruct (decide (x = y)) as [<-|].
    + rewrite lookup_insert_eq. simplify_eq. eauto.
    + rewrite lookup_insert_ne by done. exists (nb_next b'). rewrite Hb'. by destruct b'.
Qed.

Lemma slot_rep_frame nb nb' l e c :
  nb_frame nb nb' l → l ## c → slot_rep nb e c → slot_rep nb' e c.
Proof.
  intros [Hf _] Hd (? & ? & ?). split_and!; [done..|].
  eapply linked_frame; [|done]. intros x Hx. apply Hf. set_solver.
Qed.

Lemma slot_rep_null nb : slot_rep nb elem_null [].
Proof. done. Qed.

Lemma concat_take_drop cs i c : cs !! i = Some c →
  concat cs ≡ₚ c ++ concat (<[i := []]> cs).
Proof.
  revert i. induction cs as [|c' cs IH]; intros [|i] Hc; simpl in *; simplify_eq.
  - done.
  - rewrite (IH _ Hc) at 1. rewrite !app_assoc. f_equiv. apply Permutation_app_comm.
Qed.

Lemma NoDup_take_slot (acc : list positive) cs i c : cs !! i = Some c →
  NoDup (acc ++ concat cs) → NoDup ((acc ++ c) ++ concat (<[i := []]> cs)).
Proof. intros Hc. rewrite (concat_take_drop _ _ _ Hc). by rewrite app_assoc. Qed.

Lemma in_concat_slot cs i c x : cs !! i = Some c → x ∈ c → x ∈ concat cs.
Proof. intros Hc Hx. rewrite (concat_take_drop _ _ _ Hc). set_solver. Qed.

Lemma win_ok_frame nb nb' l arr cs :
  nb_frame nb nb' l → l ## concat cs → win_ok nb arr cs → win_ok nb' arr cs.
Proof.
  intros Hf Hd Hw. apply Forall2_same_length_lookup_2.
  - by eapply Forall2_length.
  - intros i e c He Hc. eapply slot_rep_frame; [done| |].
    + intros x Hx Hxc. apply (Hd x Hx). by eapply in_concat_slot.
    + by eapply Forall2_lookup_lr.
Qed.

Lemma win_ok_insert nb arr cs i e c :
  slot_rep nb e c → win_ok nb arr cs → win_ok nb (<[i := e]> arr) (<[i := c]> cs).
Proof. intros Hs Hw. by apply Forall2_insert. Qed.

Lemma win_ok_dom nb arr cs x : win_ok nb arr cs → x ∈ concat cs → is_Some (nb !! x).
Proof.
  intros Hw. induction Hw as [|e c arr cs (_ & _ & Hl) Hw IH]; simpl; [set_solver|].
  intros [Hx|Hx]%elem_of_app; [by eapply linked_dom|auto].
Qed.

(** A relinked buffer keeps its descriptor. *)
Lemma nb_frame_desc nb nb' l x b : nb_frame nb nb' l → is_Some (nb !! x) →
  nb' !! x = Some b → ∃ b0, nb !! x = Some b0 ∧ nb_desc b = nb_desc b0.
Proof. intros [_ Hf] [b0 Hb0] Hb. destruct (Hf _ _ Hb0) as [n Hn]. naive_solver. Qed.

Lemma win_ok_lookup nb arr cs i c : win_ok nb arr cs → cs !! i = Some c →
  ∃ e, arr !! i = Some e ∧ slot_rep nb e c.
Proof.
  intros Hw Hc. destruct (Forall2_lookup_r _ _ _ _ _ Hw Hc) as (e & ? & ?). eauto.
Qed.
End chains.

(** * Runs of slots *)

(** The [n] slots from [i] on, wrapping around at [mask]. *)
Fixpoint ring (n : nat) (mask i : Z) : list Z :=
  match n with
  | O => []
  | S n => i :: ring n mask (Z.land (i + 1) mask)
  end.

(** The number of slots from [a] (included) forward to [b] (excluded). *)
Definition dist (mask a b : Z) : Z := if a <=? b then b - a else b - a + (mask + 1).

(** The slots that a release or flush from [a] to [b] covers; [a = b] means
    all of them. *)
Definition slots_between (mask a b : Z) : list Z :=
  ring (Z.to_nat (if a =? b then mask + 1 else dist mask a b)) mask a.

(** Taking the frames out of the slots [ixs], in order. *)
Fixpoint drain (ixs : list Z) (cs : list (list positive)) :
    list positive * list (list positive) :=
  match ixs with
  | [] => ([], cs)
  | i :: ixs =>
      let r := drain ixs (<[Z.to_nat i := []]> cs) in
      ((cs !!! Z.to_nat i) ++ r.1, r.2)
  end.

(** A mask is one less than a power of two. *)
Definition is_mask (mask : Z) : Prop := ∃ k, 0 ≤ k ∧ mask = 2 ^ k - 1.

Section ring.
Lemma is_mask_nonneg mask : is_mask mask → 0 ≤ mask.
Proof. intros (k & Hk & ->). pose proof (Z.pow_pos_nonneg 2 k). lia. Qed.

Lemma land_mask_range mask i : is_mask mask → 0 ≤ Z.land i mask ≤ mask.
Proof.
  intros (k & Hk & ->). rewrite land_mask by done.
  pose proof (Z.mod_pos_bound i (2 ^ k) (Z.pow_pos_nonneg 2 k ltac:(lia) Hk)). lia.
Qed.

Lemma land_mask_next mask i : is_mask mask → 0 ≤ i ≤ mask →
  Z.land (i + 1) mask = if i =? mask then 0 else i + 1.
Proof.
  intros (k & Hk & ->) Hi. rewrite land_mask by done.
  destruct (Z.eqb_spec i (2 ^ k - 1)) as [->|].
  - replace (2 ^ k - 1 + 1) with (2 ^ k) by lia. apply Z_mod_same_full.
  - apply Z.mod_small. lia.
Qed.

Lemma land_mask_id mask i : is_mask mask → 0 ≤ i ≤ mask → Z.land i mask = i.
Proof. intros (k & Hk & ->) Hi. rewrite land_mask by done. apply Z.mod_small. lia. Qed.

Lemma dist_next mask a b : is_mask mask → 0 ≤ a ≤ mask → 0 ≤ b ≤ mask → a ≠ b →
  dist mask (Z.land (a + 1) mask) b = dist mask a b - 1.
Proof.
  intros Hm Ha Hb Hab. rewrite land_mask_next by done. unfold dist.
  destruct (Z.eqb_spec a mask); repeat case_match; lia.
Qed.

Lemma dist_range mask a b : 0 ≤ a ≤ mask → 0 ≤ b ≤ mask → 0 ≤ dist mask a b ≤ mask.
Proof. unfold dist. intros. repeat case_match; lia. Qed.

Lemma dist_pos mask a b : 0 ≤ a ≤ mask → 0 ≤ b ≤ mask → a ≠ b → 0 < dist mask a b.
Proof. unfold dist. intros. repeat case_match; lia. Qed.

Lemma dist_eq mask a : dist mask a a = 0.
Proof. unfold dist. case_match; lia. Qed.

Lemma ring_length n mask i : length (ring n mask i) = n.
Proof. revert i. induction n; intros i; simpl; [done|]. by rewrite IHn. Qed.

(** The [j]-th slot of a run. *)
Lemma ring_lookup n mask i j : is_mask mask → 0 ≤ i ≤ mask → (j < n)%nat →
  ring n mask i !! j = Some (Z.land (i + Z.of_nat j) mask).
Proof.
  intros Hm. revert i j. induction n as [|n IH]; intros i j Hi Hj; [lia|].
  destruct j as [|j]; simpl.
  - rewrite Z.add_0_r. by rewrite land_mask_id.
  - rewrite IH by (auto using land_mask_range; lia).
    f_equal. destruct Hm as (k & Hk & ->). rewrite !land_mask by done.
    rewrite Zplus_mod_idemp_l. f_equal. lia.
Qed.

Lemma ring_NoDup n mask i : is_mask mask → 0 ≤ i ≤ mask → Z.of_nat n ≤ mask + 1 →
  NoDup (ring n mask i).
Proof.
  intros Hm Hi Hn. apply NoDup_alt. intros j1 j2 x H1 H2.
  pose proof (lookup_lt_Some _ _ _ H1) as L1. pose proof (lookup_lt_Some _ _ _ H2) as L2.
  rewrite ring_length in L1, L2.
  rewrite ring_lookup in H1, H2 by done. simplify_eq.
  destruct Hm as (k & Hk & ->). rewrite !land_mask in H1 by done.
  assert (∀ j, (j < n)%nat → (i + Z.of_nat j) mod 2 ^ k =
    if i + Z.of_nat j <? 2 ^ k then i + Z.of_nat j else i + Z.of_nat j - 2 ^ k) as Hmod.
  { intros j Hj. destruct (Z.ltb_spec (i + Z.of_nat j) (2 ^ k)).
    - apply Z.mod_small. lia.
    - rewrite <- (Z.mod_small (i + Z.of_nat j - 2 ^ k) (2 ^ k)) by lia.
      rewrite <- (Z_mod_plus_full _ (-1) (2 ^ k)). f_equal; lia. }
  rewrite !Hmod in H1 by done. repeat case_match; lia.
Qed.

(** A run and the slots it leaves out. *)
Lemma drain_chain ixs cs : NoDup ixs → Forall (λ i, 0 ≤ i) ixs →
  (drain ixs cs).1 = concat ((λ i, cs !!! Z.to_nat i) <$> ixs).
Proof.
  revert cs. induction ixs as [|i ixs IH]; intros cs Hnd Hpos; simpl; [done|].
  apply NoDup_cons in Hnd as [Hi Hnd]. apply Forall_cons in Hpos as [Hi0 Hpos].
  rewrite IH by done. f_equal. f_equal. apply list_fmap_ext. intros j x Hx.
  apply list_lookup_total_insert_ne. intros Heq. apply Hi.
  apply list_elem_of_lookup_2 in Hx. rewrite Forall_forall in Hpos.
  assert (x = i) as <- by (specialize (Hpos _ Hx); lia). done.
Qed.

(** Draining moves frames: none is lost and none appears twice. *)
Lemma drain_perm ixs cs : concat cs ≡ₚ (drain ixs cs).1 ++ concat (drain ixs cs).2.
Proof.
  revert cs. induction ixs as [|i ixs IH]; intros cs; cbn [drain fst snd]; [done|].
  rewrite <- app_assoc, <- IH. destruct (cs !! Z.to_nat i) as [c|] eqn:Hc.
  - rewrite (list_lookup_total_correct _ _ _ Hc). by apply concat_take_drop.
  - rewrite list_insert_ge by by apply lookup_ge_None in Hc.
    rewrite list_lookup_total_alt, Hc. done.
Qed.

Lemma drain_length ixs cs : length (drain ixs cs).2 = length cs.
Proof.
  revert cs. induction ixs as [|i ixs IH]; intros cs; simpl; [done|].
  by rewrite IH, length_insert.
Qed.

Lemma drain_slot ixs cs j : Forall (λ i, 0 ≤ i) ixs → (j < length cs)%nat →
  (drain ixs cs).2 !! j = Some (if decide (Z.of_nat j ∈ ixs) then [] else cs !!! j).
Proof.
  revert cs. induction ixs as [|i ixs IH]; intros cs Hpos Hj; cbn [drain fst snd].
  - rewrite list_lookup_lookup_total_lt by done.
    case_decide as H; [by apply elem_of_nil in H|done].
  - apply Forall_cons in Hpos as [Hi0 Hpos].
    rewrite IH by (auto; by rewrite length_insert).
    destruct (decide (Z.of_nat j = i)) as [<-|Hne].
    + rewrite Nat2Z.id, list_lookup_total_insert_eq by done.
      repeat case_decide; set_solver.
    + rewrite list_lookup_total_insert_ne by lia.
      repeat case_decide; set_solver.
Qed.
End ring.
