(* ===== verification/RxReorderProofs.v ===== *)
(** Correctness of the receive reorder buffer of [RxReorder.v] against the
    abstract windows of [RxWindow.v]. *)
From S2P Require Import Prelude Tailq RxTypes RxTimers RxReorder RxWindow.

(** * Joining a slot to the chain being built *)

Lemma hd_error_some {A} (l : list A) : l ≠ [] → ∃ x l', l = x :: l' ∧ hd_error l = Some x.
Proof. destruct l as [|x l]; [done|]. eauto. Qed.

Lemma last_split {A} (l : list A) : l ≠ [] → ∃ l' x, l = l' ++ [x] ∧ last l = Some x.
Proof.
  intros Hl. destruct l as [|x l _] using rev_ind; [done|].
  exists l, x. by rewrite last_snoc.
Qed.

Lemma last_app_ne {A} (l1 l2 : list A) : l2 ≠ [] → last (l1 ++ l2) = last l2.
Proof. intros Hl. destruct (last_split l2 Hl) as (l & x & -> & ->). by rewrite app_assoc, last_snoc. Qed.

Lemma append_slot s acc e c :
  acc ≠ [] → c ≠ [] → linked (rx_nbufs s) acc → slot_rep (rx_nbufs s) e c →
  NoDup (acc ++ c) →
  ∃ nb, cdf_nbuf_set_next (last acc) (e_head e) s = Some (tt, set_rx_nbufs nb s) ∧
    linked nb (acc ++ c) ∧ nb_frame (rx_nbufs s) nb acc ∧ e_tail e = last (acc ++ c).
Proof.
  intros Ha Hc Hl (He & Ht & Hlc) Hnd.
  destruct (last_split acc Ha) as (acc0 & x & -> & ->).
  destruct (hd_error_some c Hc) as (y & c' & -> & Hy). rewrite Hy in He.
  destruct (linked_dom _ _ x Hl) as [b Hb]; [set_solver|].
  eexists. split; [by apply cdf_nbuf_set_next_run|]. rewrite He.
  apply NoDup_app in Hnd as (Hnd & Hd & _). split_and!.
  - apply linked_join; [done..| |apply Hd; set_solver].
    apply NoDup_app in Hnd as (_ & Hd' & _). intros Hin. by apply (Hd' x); [|left].
  - destruct (nb_frame_set_next _ _ _ (Some y) Hb) as [Hf Hf']. split; [|done].
    intros z Hz. apply Hf. set_solver.
  - rewrite Ht. symmetry. by apply last_app_ne.
Qed.

(** What an operation leaves of the window: the new slots hold [cs'], the
    chain [acc] is linked, and no buffer is in two places. *)
Definition drained (nb nb' : gmap positive nbuf) (arr arr' : list elem)
    (acc : list positive) (cs' : list (list positive)) : Prop :=
  length arr' = length arr ∧ linked nb' acc ∧ win_ok nb' arr' cs' ∧
  nb_frame nb nb' acc ∧ NoDup (acc ++ concat cs').

Section loops.
Context (p : positive) (tid mask : Z) (Hmask : is_mask mask).
Implicit Types (s : rx_state) (cs : list (list positive)).

(** One step of a loop: the slot [i] joins [acc] and is emptied. *)
Lemma take_slot s arr cs acc i e c :
  window s p tid = Some arr → win_ok (rx_nbufs s) arr cs → 0 ≤ i →
  cs !! Z.to_nat i = Some c → arr !! Z.to_nat i = Some e → c ≠ [] → acc ≠ [] →
  linked (rx_nbufs s) acc → NoDup (acc ++ concat cs) →
  ∃ nb, cdf_nbuf_set_next (last acc) (e_head e) s = Some (tt, set_rx_nbufs nb s) ∧
    e_tail e = last (acc ++ c) ∧
    write_elem p tid i elem_null (set_rx_nbufs nb s) =
      Some (tt, set_rx_nbufs nb (put_window p tid (<[Z.to_nat i := elem_null]> arr) s)) ∧
    drained (rx_nbufs s) nb arr (<[Z.to_nat i := elem_null]> arr) (acc ++ c)
      (<[Z.to_nat i := []]> cs).
Proof.
  intros Hw Hok Hi Hc He Hcne Hane Hl Hnd.
  pose proof (NoDup_take_slot _ _ _ _ Hc Hnd) as Hnd'.
  destruct (append_slot s acc e c) as (nb & Hrun & Hl' & Hf & Ht); try done.
  { by eapply Forall2_lookup_lr. }
  { by apply NoDup_app in Hnd' as []. }
  exists nb. split_and!; [done..| |].
  - rewrite (write_elem_run _ _ _ arr); [by rewrite put_window_nbufs|done|].
    apply lookup_lt_Some in He. lia.
  - assert (nb_frame (rx_nbufs s) nb (acc ++ c)) as Hf'.
    { destruct Hf as [Hf1 Hf2]. split; [|done]. intros z Hz. apply Hf1. set_solver. }
    split_and!; [by rewrite length_insert|done| |done|done].
    apply win_ok_insert; [done|]. eapply win_ok_frame; [exact Hf| |done].
    apply NoDup_app in Hnd as (_ & Hd & _). intros x Hx. by apply Hd.
Qed.

Lemma drained_trans s nb arr arr' arr'' acc cs' acc2 cs'' nb2 :
  drained (rx_nbufs s) nb arr arr' acc cs' → drained nb nb2 arr' arr'' acc2 cs'' →
  acc ⊆ acc2 → drained (rx_nbufs s) nb2 arr arr'' acc2 cs''.
Proof.
  intros (Hlen & _ & _ & Hf & _) (Hlen' & ? & ? & Hf' & ?) Hsub.
  split_and!; [congruence|done|done| |done].
  by apply (nb_frame_trans _ nb _ acc acc2).
Qed.

(** Emptying the first slot of a run leaves the slots behind it. *)
Lemma ring_rest_full n i (cs : list (list positive)) :
  0 ≤ i ≤ mask → Z.of_nat (S n) ≤ mask + 1 →
  Forall (λ j, cs !!! Z.to_nat j ≠ []) (ring n mask (Z.land (i + 1) mask)) →
  Forall (λ j, <[Z.to_nat i := []]> cs !!! Z.to_nat j ≠ []) (ring n mask (Z.land (i + 1) mask)).
Proof.
  intros Hi Hn Hne. apply Forall_forall. intros j Hj. rewrite Forall_forall in Hne.
  rewrite list_lookup_total_insert_ne; [by apply Hne|].
  assert (NoDup (ring (S n) mask i)) as Hrnd by (by apply ring_NoDup).
  simpl in Hrnd. apply NoDup_cons in Hrnd as [Hni _]. intros Heq.
  assert (0 ≤ j).
  { apply list_elem_of_lookup in Hj as (k & Hk).
    pose proof (lookup_lt_Some _ _ _ Hk) as Hkl. rewrite ring_length in Hkl.
    rewrite ring_lookup in Hk by auto using land_mask_range. simplify_eq.
    by apply land_mask_range. }
  assert (i = j) as Hij by lia. apply Hni. by rewrite Hij at 1.
Qed.

Lemma release_loop_run fuel n i idx_end s arr cs acc :
  window s p tid = Some arr → win_ok (rx_nbufs s) arr cs →
  Z.of_nat (length arr) = mask + 1 → 0 ≤ i ≤ mask → 0 ≤ idx_end ≤ mask →
  n = Z.to_nat (dist mask i idx_end) → (n ≤ fuel)%nat →
  acc ≠ [] → linked (rx_nbufs s) acc → NoDup (acc ++ concat cs) →
  Forall (λ j, cs !!! Z.to_nat j ≠ []) (ring n mask i) →
  ∃ nb arr', let d := drain (ring n mask i) cs in
    release_loop fuel p tid mask i idx_end (last acc) s =
      Some (last (acc ++ d.1), set_rx_nbufs nb (put_window p tid arr' s)) ∧
    drained (rx_nbufs s) nb arr arr' (acc ++ d.1) d.2.
Proof.
  revert n i s arr cs acc. induction fuel as [|fuel IH];
    intros n i s arr cs acc Hw Hok Hlen Hi Hend Hn Hfuel Hane Hl Hnd Hne.
  - assert (i = idx_end) as <-.
    { destruct (decide (i = idx_end)) as [|Hd]; [done|].
      pose proof (dist_pos mask i idx_end Hi Hend Hd). lia. }
    rewrite dist_eq in Hn. subst n. simpl. rewrite Z.eqb_refl, app_nil_r.
    exists (rx_nbufs s), arr. rewrite (put_window_same _ _ _ _ Hw).
    split; [by destruct s|]. split_and!; auto using nb_frame_refl.
  - simpl. destruct (Z.eqb_spec i idx_end) as [<-|Hd].
    { rewrite dist_eq in Hn. subst n. simpl. rewrite app_nil_r.
      exists (rx_nbufs s), arr. rewrite (put_window_same _ _ _ _ Hw).
      split; [by destruct s|]. split_and!; auto using nb_frame_refl. }
    pose proof (dist_pos mask i idx_end Hi Hend Hd) as Hdp.
    destruct n as [|n]; [lia|]. simpl in Hne. apply Forall_cons in Hne as [Hc0 Hne].
    assert (is_Some (cs !! Z.to_nat i)) as [c Hc].
    { apply lookup_lt_is_Some. rewrite <- (Forall2_length _ _ _ Hok). lia. }
    destruct (win_ok_lookup _ _ _ _ _ Hok Hc) as (e & He & Hs).
    rewrite (list_lookup_total_correct _ _ _ Hc) in Hc0.
    destruct (take_slot s arr cs acc i e c) as (nb1 & Hrun1 & Ht & Hrun2 & Hdr);
      first [done|lia|idtac].
    mrun (read_elem_run s p tid arr i e Hw ltac:(lia) He).
    destruct (last_split acc Hane) as (acc0 & x & Hacc & Hlast).
    rewrite Hlast in *. mrun Hrun1. mrun Hrun2. rewrite Ht.
    set (s1 := set_rx_nbufs nb1 _).
    pose proof Hdr as (Hlen1 & Hl1 & Hok1 & Hf1 & Hnd1).
    destruct (IH n (Z.land (i + 1) mask) s1 (<[Z.to_nat i:=elem_null]> arr)
      (<[Z.to_nat i:=[]]> cs) (acc ++ c)) as (nb & arr' & Hrun & Hdr'); try done.
    + subst s1. rewrite window_nbufs. by apply (window_put _ _ _ arr).
    + rewrite Hlen1. done.
    + by apply land_mask_range.
    + rewrite dist_next by done. lia.
    + lia.
    + destruct acc; done.
    + apply ring_rest_full; [done| |done]. pose proof (dist_range mask i idx_end Hi Hend). lia.
    + exists nb, arr'. cbn [drain ring fst snd].
      rewrite (list_lookup_total_correct _ _ _ Hc). rewrite app_assoc.
      split; [|by eapply drained_trans; [exact Hdr|exact Hdr'|]; set_solver].
      unfold OL_RX_REORDER_IDX_WRAP. rewrite Hrun. f_equal. f_equal.
      subst s1. rewrite put_window_nbufs, set_nbufs_nbufs.
      rewrite (put_put _ _ _ arr); [done|done|by rewrite length_insert|].
      by destruct Hdr' as (-> & _).
Qed.
End loops.

(** * Updates of the peer's other words *)

Definition upd_peer (p : positive) (f : ol_txrx_peer_t → ol_txrx_peer_t) (s : rx_state) :
    rx_state := set_rx_peers (alter f p (rx_peers s)) s.

Definition with_last_seq (p : positive) (tid v : Z) : rx_state → rx_state :=
  upd_peer p (λ x, set_tids_last_seq (<[Z.to_nat tid := v]> (tids_last_seq x)) x).

Definition with_next_rel_idx (p : positive) (tid v : Z) : rx_state → rx_state :=
  upd_peer p (λ x, set_tids_next_rel_idx (<[Z.to_nat tid := v]> (tids_next_rel_idx x)) x).

Lemma mod_peer_upd s p x f : rx_peers s !! p = Some x →
  mod_peer p f s = Some (tt, upd_peer p f s).
Proof.
  intros Hx. rewrite (mod_peer_run _ _ _ _ Hx). unfold upd_peer. do 3 f_equal.
  apply map_eq. intros q. rewrite lookup_alter. case_decide as Hq; subst.
  - by rewrite lookup_insert_eq, Hx.
  - by rewrite lookup_insert_ne.
Qed.

Lemma put_last_seq_run s p tid v x : rx_peers s !! p = Some x →
  put_last_seq p tid v s = Some (tt, with_last_seq p tid v s).
Proof. apply mod_peer_upd. Qed.

Lemma put_next_rel_idx_run s p tid v x : rx_peers s !! p = Some x →
  put_next_rel_idx p tid v s = Some (tt, with_next_rel_idx p tid v s).
Proof. apply mod_peer_upd. Qed.

(** The invariant of a TID's window: its array has a power-of-two size, its
    slots hold the chains [cs], and no buffer is in two places. *)
Definition win_state (s : rx_state) (p : positive) (tid mask : Z)
    (cs : list (list positive)) : Prop :=
  ∃ x r arr, rx_peers s !! p = Some x ∧ tids_rx_reorder x !! Z.to_nat tid = Some r ∧
    win_sz_mask r = mask ∧ is_mask mask ∧ window s p tid = Some arr ∧
    Z.of_nat (length arr) = mask + 1 ∧ win_ok (rx_nbufs s) arr cs ∧ NoDup (concat cs).

Section win_state.
Implicit Types (s : rx_state).

Lemma window_upd_peer s p q tid f :
  (∀ x, tids_rx_reorder (f x) = tids_rx_reorder x) →
  window (upd_peer q f s) p tid = window s p tid.
Proof.
  intros Hf. unfold window, upd_peer. simpl. rewrite lookup_alter.
  case_decide; subst; [|done]. destruct (rx_peers s !! p); simpl; [|done]. by rewrite Hf.
Qed.

Lemma win_state_upd_peer s p q tid mask cs f :
  (∀ x, tids_rx_reorder (f x) = tids_rx_reorder x) →
  win_state s p tid mask cs → win_state (upd_peer q f s) p tid mask cs.
Proof.
  intros Hf (x & r & arr & Hx & Hr & Hm & Hmask & Hw & Hlen & Hok & Hnd).
  destruct (decide (q = p)) as [->|Hne].
  - exists (f x), r, arr. rewrite (window_upd_peer _ _ _ _ _ Hf). split_and!; try done.
    + simpl. by rewrite lookup_alter_eq, Hx.
    + by rewrite Hf.
  - exists x, r, arr. rewrite (window_upd_peer _ _ _ _ _ Hf). split_and!; try done.
    simpl. by rewrite lookup_alter_ne.
Qed.

Lemma win_state_put s p tid mask cs arr arr' nb acc cs' :
  win_state s p tid mask cs → window s p tid = Some arr →
  drained (rx_nbufs s) nb arr arr' acc cs' →
  win_state (set_rx_nbufs nb (put_window p tid arr' s)) p tid mask cs'.
Proof.
  intros (x & r & arr0 & Hx & Hr & Hm & Hmask & Hw & Hlen & Hok & Hnd) Hw'
    (Hlen' & Hl & Hok' & Hf & Hnd').
  rewrite Hw in Hw'. simplify_eq.
  destruct (put_window_peer s p tid arr' x r Hx Hr) as [b Hb].
  eexists _, (set_base b r), arr'. split_and!; try done.
  - simpl. by rewrite list_lookup_insert_eq by by apply lookup_lt_Some in Hr.
  - rewrite window_nbufs. by apply (window_put _ _ _ arr).
  - by rewrite Hlen'.
  - by apply NoDup_app in Hnd' as (_ & _ & ?).
Qed.

Lemma win_state_frame s p tid mask cs nb l :
  nb_frame (rx_nbufs s) nb l → l ## concat cs →
  win_state s p tid mask cs → win_state (set_rx_nbufs nb s) p tid mask cs.
Proof.
  intros Hf Hd (x & r & arr & Hx & Hr & Hm & Hmask & Hw & Hlen & Hok & Hnd).
  exists x, r, arr. split_and!; try done. by eapply win_ok_frame.
Qed.
End win_state.

(** * Handing a chain over *)

(** Terminating the linked chain [acc] makes it the NULL-terminated list. *)
Lemma terminate_run s acc :
  acc ≠ [] → linked (rx_nbufs s) acc → NoDup acc →
  ∃ nb, cdf_nbuf_set_next (last acc) None s = Some (tt, set_rx_nbufs nb s) ∧
    nlist nb (hd_error acc) acc ∧ nb_frame (rx_nbufs s) nb acc.
Proof.
  intros Hne Hl Hnd. destruct (last_split acc Hne) as (l & x & -> & ->).
  destruct (linked_dom _ _ x Hl) as [b Hb]; [set_solver|].
  eexists. split; [by apply cdf_nbuf_set_next_run|]. split; [by apply nlist_terminate|].
  destruct (nb_frame_set_next _ _ _ None Hb) as [Hf Hf']. split; [|done].
  intros z Hz. apply Hf. set_solver.
Qed.

Lemma nonneg_ring n mask i : is_mask mask → 0 ≤ i ≤ mask → Forall (λ j, 0 ≤ j) (ring n mask i).
Proof.
  intros Hm. revert i. induction n as [|n IH]; intros i Hi; simpl; [constructor|].
  constructor; [lia|]. by apply IH, land_mask_range.
Qed.

Lemma slots_between_NoDup mask a b : is_mask mask → 0 ≤ a ≤ mask → 0 ≤ b ≤ mask →
  NoDup (slots_between mask a b).
Proof.
  intros Hm Ha Hb. unfold slots_between. apply ring_NoDup; [done..|].
  pose proof (dist_range mask a b Ha Hb). case_match; lia.
Qed.

Lemma slots_between_cons mask a b : is_mask mask → 0 ≤ a ≤ mask → 0 ≤ b ≤ mask →
  slots_between mask a b =
    a :: ring (Z.to_nat (dist mask (Z.land (a + 1) mask) b)) mask (Z.land (a + 1) mask).
Proof.
  intros Hm Ha Hb. unfold slots_between.
  replace (Z.to_nat (if a =? b then mask + 1 else dist mask a b))
    with (S (Z.to_nat (dist mask (Z.land (a + 1) mask) b))); [done|].
  destruct (Z.eqb_spec a b) as [->|Hne].
  - rewrite land_mask_next by done. unfold dist. repeat case_match; lia.
  - rewrite dist_next by done. pose proof (dist_pos mask a b Ha Hb Hne). lia.
Qed.

(** Taking the frames of the first slot. *)
Lemma first_slot p tid s arr cs i c :
  window s p tid = Some arr → win_ok (rx_nbufs s) arr cs → NoDup (concat cs) → 0 ≤ i →
  cs !! Z.to_nat i = Some c →
  ∃ e, arr !! Z.to_nat i = Some e ∧ slot_rep (rx_nbufs s) e c ∧
    write_elem p tid i elem_null s =
      Some (tt, put_window p tid (<[Z.to_nat i := elem_null]> arr) s) ∧
    drained (rx_nbufs s) (rx_nbufs s) arr (<[Z.to_nat i := elem_null]> arr) c
      (<[Z.to_nat i := []]> cs).
Proof.
  intros Hw Hok Hnd Hi Hc. destruct (win_ok_lookup _ _ _ _ _ Hok Hc) as (e & He & Hs).
  exists e. split_and!; [done..| |].
  - rewrite (write_elem_run _ _ _ arr); [done..|]. apply lookup_lt_Some in He. lia.
  - split_and!; [by rewrite length_insert|by destruct Hs as (_ & _ & ?)| |
      apply nb_frame_refl|].
    + by apply win_ok_insert.
    + apply (NoDup_take_slot [] _ _ _ Hc Hnd).
Qed.

Lemma Forall_impl_elem {A} (P Q : A → Prop) l :
  Forall P l → (∀ x, x ∈ l → P x → Q x) → Forall Q l.
Proof. rewrite !Forall_forall. eauto. Qed.

(** The slots of a window after those in [ixs] have been emptied. *)
Definition slots_emptied (ixs : list Z) (cs cs' : list (list positive)) : Prop :=
  length cs' = length cs ∧
  ∀ j, (j < length cs)%nat → cs' !! j = Some (if decide (Z.of_nat j ∈ ixs) then [] else cs !!! j).

Lemma drain_slots_emptied ixs cs : Forall (λ i, 0 ≤ i) ixs → slots_emptied ixs cs (drain ixs cs).2.
Proof. intros H. split; [apply drain_length|]. intros j Hj. by apply drain_slot. Qed.

(** The collecting part of a release from slot [a] up to [b]. *)
Lemma release_collect p tid mask s cs arr a b :
  is_mask mask → window s p tid = Some arr → Z.of_nat (length arr) = mask + 1 →
  win_ok (rx_nbufs s) arr cs → NoDup (concat cs) → 0 ≤ a ≤ mask → 0 ≤ b ≤ mask →
  let ixs := slots_between mask a b in
  Forall (λ j, cs !!! Z.to_nat j ≠ []) ixs →
  let out := concat ((λ j, cs !!! Z.to_nat j) <$> ixs) in
  ∃ e nb arr', read_elem p tid a s = Some (e, s) ∧ e_head e = hd_error out ∧ out ≠ [] ∧
    (write_elem p tid a elem_null;;
     release_loop (Z.to_nat (mask + 1)) p tid mask (OL_RX_REORDER_IDX_WRAP (a + 1) mask) b
       (e_tail e)) s = Some (last out, set_rx_nbufs nb (put_window p tid arr' s)) ∧
    drained (rx_nbufs s) nb arr arr' out (drain ixs cs).2.
Proof.
  intros Hmask Hw Hlen Hok Hnd Ha Hb ixs Hne out. unfold OL_RX_REORDER_IDX_WRAP.
  pose proof (slots_between_NoDup mask a b Hmask Ha Hb) as Hixnd. fold ixs in Hixnd.
  assert (Forall (λ j, 0 ≤ j) ixs) as Hixpos by by apply nonneg_ring.
  assert (out = (drain ixs cs).1) as Hout by by rewrite drain_chain.
  assert (Hixs := slots_between_cons mask a b Hmask Ha Hb). fold ixs in Hixs.
  destruct (cs !! Z.to_nat a) as [c|] eqn:Hc.
  2:{ apply lookup_ge_None in Hc. rewrite <- (Forall2_length _ _ _ Hok) in Hc. lia. }
  rewrite Hixs in *. apply Forall_cons in Hne as [Hc0 Hne].
  apply NoDup_cons in Hixnd as [Hani Hixnd].
  cbn [drain fst snd] in *. rewrite (list_lookup_total_correct _ _ _ Hc) in Hc0, Hout.
  destruct (first_slot p tid s arr cs a c) as (e & He & (Hhd & Htl & _) & Hwr & Hdr); try done.
  { lia. }
  pose proof Hdr as (Hlen1 & Hl1 & Hok1 & Hf1 & Hnd1).
  set (s1 := put_window p tid (<[Z.to_nat a:=elem_null]> arr) s) in *.
  assert (rx_nbufs s1 = rx_nbufs s) as Hnb1 by (unfold s1; by rewrite rx_nbufs_put_window).
  destruct (release_loop_run p tid mask Hmask (Z.to_nat (mask + 1))
    (Z.to_nat (dist mask (Z.land (a + 1) mask) b)) (Z.land (a + 1) mask) b s1 (<[Z.to_nat a:=elem_null]> arr) (<[Z.to_nat a:=[]]> cs) c)
    as (nb & arr' & Hrun & Hdr');
    [by apply (window_put _ _ _ arr)|by rewrite Hnb1|by rewrite Hlen1
    |by apply land_mask_range|done|reflexivity| |done|by rewrite Hnb1|done| |].
  { pose proof (dist_range mask (Z.land (a + 1) mask) b
      (land_mask_range _ _ Hmask) Hb). lia. }
  { eapply Forall_impl_elem; [exact Hne|]. intros j Hj Hjc.
    rewrite list_lookup_total_insert_ne; [done|]. intros Heq. apply Hani.
    rewrite Forall_forall in Hixpos.
    assert (0 ≤ j) by (apply Hixpos; by right). by replace a with j at 1 by lia. }
  rewrite Hnb1 in Hdr'. rewrite <- Hout in Hdr'.
  exists e, nb, arr'. split_and!.
  - apply (read_elem_run _ _ _ arr); [done|lia|done].
  - rewrite Hout, Hhd. by destruct c.
  - rewrite Hout. by destruct c.
  - mrun Hwr. rewrite Htl, Hrun, <- Hout. do 2 f_equal.
    subst s1. rewrite (put_put _ _ _ arr); [done|done|done|].
    destruct Hdr' as (-> & _). done.
  - eapply (drained_trans s); [exact Hdr|exact Hdr'|]. rewrite Hout. set_solver.
Qed.

(** Recording the sequence number of a chain's first frame and terminating
    the chain. *)
Lemma hand_over s p tid acc x :
  acc ≠ [] → linked (rx_nbufs s) acc → NoDup acc → rx_peers s !! p = Some x →
  ∃ h b nb, hd_error acc = Some h ∧ rx_nbufs s !! h = Some b ∧
    (∀ k : CM rx_state unit, (d ← htt_rx_msdu_desc_retrieve (hd_error acc);
     put_last_seq p tid (u16 (rd_seq_num d));;
     cdf_nbuf_set_next (last acc) None;; k) s =
      k (with_last_seq p tid (u16 (rd_seq_num (nb_desc b))) (set_rx_nbufs nb s))) ∧
    nlist nb (Some h) acc ∧ nb_frame (rx_nbufs s) nb acc.
Proof.
  intros Hne Hl Hnd Hx. destruct (hd_error_some acc Hne) as (h & l & Hacc & Hh).
  destruct (linked_dom _ _ h Hl) as [b Hb]; [rewrite Hacc; by left|].
  set (s1 := with_last_seq p tid (u16 (rd_seq_num (nb_desc b))) s).
  destruct (terminate_run s1 acc) as (nb & Hrun & Hnl & Hf); [done..|].
  exists h, b, nb. rewrite Hh in *. split_and!; [done..|intros k|done|done].
  mrun (htt_rx_msdu_desc_retrieve_run _ _ _ Hb). mrun (put_last_seq_run s p tid
    (u16 (rd_seq_num (nb_desc b))) x Hx). by mrun Hrun.
Qed.

(** C1. Releasing a run of filled slots.  Whatever the frames in the window,
    and however the run wraps around the end of the array, the release hands
    to [rx_opt_proc] one NULL-terminated list: the MSDU chains of the slots
    from [idx_start] up to but excluding [idx_end] (all slots when they are
    equal), in window order.  Exactly these slots become empty, the others
    keep their frames, the next release index and the last sequence number
    are recorded, and the reorder timeout is removed afterwards. *)
Theorem ol_rx_reorder_release_delivers env p tid idx_start idx_end s mask cs :
  win_state s p tid mask cs →
  let ixs := slots_between mask (Z.land idx_start mask) (Z.land idx_end mask) in
  Forall (λ j, cs !!! Z.to_nat j ≠ []) ixs →
  let out := concat ((λ j, cs !!! Z.to_nat j) <$> ixs) in
  ∃ nb arr' cs' h b,
    let s' := with_last_seq p tid (u16 (rd_seq_num (nb_desc b)))
      (set_rx_nbufs nb (put_window p tid arr' (with_next_rel_idx p tid (u16 idx_end) s))) in
    ol_rx_reorder_release env p tid idx_start idx_end s =
      (rx_opt_proc env p tid (Some h);; OL_RX_REORDER_TIMEOUT_REMOVE env p tid) s' ∧
    hd_error out = Some h ∧ rx_nbufs s !! h = Some b ∧
    nlist (rx_nbufs s') (Some h) out ∧ NoDup out ∧
    win_state s' p tid mask cs' ∧ slots_emptied ixs cs cs' ∧
    nb_frame (rx_nbufs s) nb out.
Proof.
  intros Hws ixs Hne out.
  pose proof Hws as (x & _ & _ & Hx & _).
  set (s0 := with_next_rel_idx p tid (u16 idx_end) s).
  assert (win_state s0 p tid mask cs) as Hws0 by by apply win_state_upd_peer.
  pose proof Hws0 as (x0 & r & arr & Hx0 & Hr & Hm & Hmask & Hw & Hlen & Hok & Hnd).
  unfold ol_rx_reorder_release. mrun (put_next_rel_idx_run s p tid (u16 idx_end) x Hx).
  fold s0. mrun (get_reorder_run s0 p tid _ _ Hx0 Hr). rewrite Hm.
  destruct (release_collect p tid mask s0 cs arr (Z.land idx_start mask) (Z.land idx_end mask))
    as (e & nb1 & arr' & Hrd & Hhd & Hone & Hrun & Hdr); auto using land_mask_range.
  fold ixs in Hdr, Hrun, Hhd, Hone. fold out in Hdr, Hrun, Hhd, Hone.
  mrun Hrd. rewrite <- run_assoc, (run_bind _ _ _ _ _ Hrun), Hhd.
  pose proof Hdr as (_ & Hl1 & _ & Hf1 & Hnd1).
  set (s1 := set_rx_nbufs nb1 (put_window p tid arr' s0)).
  assert (win_state s1 p tid mask (drain ixs cs).2) as Hws1
    by by eapply (win_state_put _ _ _ _ _ arr).
  pose proof Hws1 as (x1 & _ & _ & Hx1 & _).
  apply NoDup_app in Hnd1 as (Hnd1 & Hdis & _).
  destruct (hand_over s1 p tid out x1) as (h & b & nb & Hh & Hb & Hho & Hnl & Hf); [done..|].
  rewrite Hho. assert (out ⊆ concat cs) as Hsub.
  { rewrite (drain_perm ixs cs), drain_chain; [set_solver|..]. by apply slots_between_NoDup;
      auto using land_mask_range. by apply nonneg_ring, land_mask_range. }
  destruct (nb_frame_desc _ _ _ h b Hf1) as (b0 & Hb0 & Hd); [|done|].
  { apply (win_ok_dom _ _ _ _ Hok), Hsub. destruct out; [done|]. simpl in Hh.
    simplify_eq. by left. }
  exists nb, arr', (drain ixs cs).2, h, b0. rewrite <- Hd, Hh. split_and!; try done.
  - apply win_state_upd_peer; [done|]. eapply (win_state_frame s1); done.
  - by apply drain_slots_emptied, nonneg_ring, land_mask_range.
  - eapply nb_frame_trans; [exact Hf1|exact Hf|done..].
Qed.
