(* ===== verification/RxFlush.v ===== *)
(** Correctness of flushing a run of reorder slots ([ol_rx_reorder_flush]),
    which, unlike a release, tolerates holes, and of what follows it: handing
    the frames over or freeing them. *)
From S2P Require Import Prelude Tailq RxTypes RxTimers RxReorder RxWindow RxReorderProofs.

(** * The flush loop *)

Section flush_loop.
Context (p : positive) (tid mask : Z) (Hmask : is_mask mask).
Implicit Types (s : rx_state) (cs : list (list positive)).

(** One iteration: the slot [i], filled or not, joins the chain [acc]. *)
Lemma flush_slot s arr cs acc i c :
  window s p tid = Some arr → win_ok (rx_nbufs s) arr cs → 0 ≤ i →
  cs !! Z.to_nat i = Some c → linked (rx_nbufs s) acc → NoDup (acc ++ concat cs) →
  ∃ e nb arr', read_elem p tid i s = Some (e, s) ∧
    match e_head e with
    | Some _ =>
        match hd_error acc with
        | None => write_elem p tid i elem_null;; mret (e_head e, e_tail e)
        | Some _ =>
            cdf_nbuf_set_next (last acc) (e_head e);;
            write_elem p tid i elem_null;;
            mret (hd_error acc, e_tail e)
        end
    | None => mret (hd_error acc, last acc)
    end s = Some ((hd_error (acc ++ c), last (acc ++ c)),
                  set_rx_nbufs nb (put_window p tid arr' s)) ∧
    drained (rx_nbufs s) nb arr arr' (acc ++ c) (<[Z.to_nat i := []]> cs).
Proof.
  intros Hw Hok Hi Hc Hl Hnd.
  assert (NoDup (concat cs)) as Hnd0 by by apply NoDup_app in Hnd as (_ & _ & ?).
  destruct (first_slot p tid s arr cs i c) as (e & He & Hrep & Hwr & Hdr); try done.
  pose proof Hrep as (Hh & Ht & Hlc).
  exists e. rewrite Hh. destruct c as [|y c].
  - exists (rx_nbufs s), arr. rewrite (put_window_same _ _ _ _ Hw), app_nil_r.
    split_and!; [by apply (read_elem_run _ _ _ arr)|simpl; by destruct s|].
    rewrite list_insert_id by done. split_and!; auto using nb_frame_refl.
  - cbn [hd_error]. destruct acc as [|a acc].
    + exists (rx_nbufs s), (<[Z.to_nat i := elem_null]> arr).
      split_and!; [by apply (read_elem_run _ _ _ arr)| |done].
      cbn [hd_error app]. mrun Hwr. rewrite Ht. unfold mret, CM_ret. do 2 f_equal.
      unfold put_window. repeat case_match; by destruct s.
    + destruct (take_slot p tid mask Hmask s arr cs (a :: acc) i e (y :: c))
        as (nb & Hrun1 & Ht1 & Hrun2 & Hdr1); try done.
      exists nb, (<[Z.to_nat i := elem_null]> arr).
      split_and!; [by apply (read_elem_run _ _ _ arr)| |done].
      cbn [hd_error]. rewrite Hh in Hrun1. mrun Hrun1. mrun Hrun2. by rewrite Ht1.
Qed.

Lemma flush_loop_run fuel n i b s arr cs acc :
  window s p tid = Some arr → win_ok (rx_nbufs s) arr cs →
  Z.of_nat (length arr) = mask + 1 → 0 ≤ i ≤ mask →
  (n < fuel)%nat → Z.land (i + Z.of_nat (S n)) mask = b →
  (∀ k, 0 < k ≤ Z.of_nat n → Z.land (i + k) mask ≠ b) →
  linked (rx_nbufs s) acc → NoDup (acc ++ concat cs) →
  ∃ nb arr', let d := drain (ring (S n) mask i) cs in
    flush_loop fuel p tid mask i b (hd_error acc) (last acc) s =
      Some ((hd_error (acc ++ d.1), last (acc ++ d.1)),
            set_rx_nbufs nb (put_window p tid arr' s)) ∧
    drained (rx_nbufs s) nb arr arr' (acc ++ d.1) d.2.
Proof.
  revert n i s arr cs acc. induction fuel as [|fuel IH];
    intros n i s arr cs acc Hw Hok Hlen Hi Hfuel Hb Hnb Hl Hnd; [lia|].
  assert (is_Some (cs !! Z.to_nat i)) as [c Hc].
  { apply lookup_lt_is_Some. rewrite <- (Forall2_length _ _ _ Hok). lia. }
  destruct (flush_slot s arr cs acc i c) as (e & nb1 & arr1 & Hrd & Hrun & Hdr);
    [done..|lia|done|done|done|].
  cbn [flush_loop]. mrun Hrd. unfold OL_RX_REORDER_IDX_WRAP. rewrite (run_bind _ _ _ _ _ Hrun).
  set (s1 := set_rx_nbufs nb1 (put_window p tid arr1 s)).
  pose proof Hdr as (Hlen1 & Hl1 & Hok1 & Hf1 & Hnd1).
  assert (window s1 p tid = Some arr1) as Hw1 by by apply (window_put _ _ _ arr).
  cbn [ring]. cbv zeta. cbn [drain]. rewrite (list_lookup_total_correct _ _ _ Hc).
  cbn [fst snd]. destruct n as [|n].
  - change (Z.of_nat 1) with 1 in Hb. rewrite Hb, Z.eqb_refl. cbn [ring drain fst snd]. rewrite app_nil_r. eauto.
  - destruct (Z.eqb_spec (Z.land (i + 1) mask) b) as [He|He].
    { exfalso. apply (Hnb 1); [lia|done]. }
    assert (∀ k, Z.land (Z.land (i + 1) mask + k) mask = Z.land (i + (1 + k)) mask) as Hk.
    { intros k. destruct Hmask as (m & Hm & ->). rewrite !land_mask by done.
      rewrite Zplus_mod_idemp_l. f_equal. lia. }
    destruct (IH n (Z.land (i + 1) mask) s1 arr1 (<[Z.to_nat i:=[]]> cs) (acc ++ c))
      as (nb & arr' & Hrun' & Hdr'); try done.
    + by rewrite Hlen1.
    + by apply land_mask_range.
    + lia.
    + rewrite Hk, <- Hb. f_equal. lia.
    + intros k Hkn. rewrite Hk. apply Hnb. lia.
    + exists nb, arr'. rewrite app_assoc. split.
      * rewrite Hrun'. do 2 f_equal. subst s1.
        rewrite put_window_nbufs, set_nbufs_nbufs, (put_put _ _ _ arr); [done..|].
        destruct Hdr' as (-> & _). done.
      * by eapply (drained_trans s); [exact Hdr|exact Hdr'|]; set_solver.
Qed.

(** The slots a flush from [a] to [b] visits end where the loop stops. *)
Lemma slots_between_steps a b : 0 ≤ a ≤ mask → 0 ≤ b ≤ mask →
  ∃ n, slots_between mask a b = ring (S n) mask a ∧ Z.of_nat n ≤ mask ∧
    Z.land (a + Z.of_nat (S n)) mask = b ∧
    (∀ k, 0 < k ≤ Z.of_nat n → Z.land (a + k) mask ≠ b).
Proof.
  intros Ha Hb. unfold slots_between.
  set (m := if a =? b then mask + 1 else dist mask a b).
  assert (0 < m ≤ mask + 1 ∧ (a + m = b ∨ a + m = b + (mask + 1))) as [Hm Hmb].
  { unfold m, dist. repeat case_match; lia. }
  exists (Z.to_nat (m - 1)).
  replace (S (Z.to_nat (m - 1))) with (Z.to_nat m) by lia.
  split_and!; [done|lia| |].
  - rewrite Z2Nat.id by lia. destruct Hmask as (k & Hk & ->). rewrite land_mask by done.
    destruct Hmb as [->| ->]; [apply Z.mod_small; lia|].
    replace (b + (2 ^ k - 1 + 1)) with (b + 1 * 2 ^ k) by lia.
    rewrite Z_mod_plus_full. apply Z.mod_small. lia.
  - intros j Hj. destruct Hmask as (k & Hk & ->). rewrite land_mask by done.
    rewrite Z2Nat.id in Hj by lia.
    destruct (Z.ltb_spec (a + j) (2 ^ k)); [rewrite Z.mod_small by lia; lia|].
    replace (a + j) with ((a + j - 2 ^ k) + 1 * 2 ^ k) by lia.
    rewrite Z_mod_plus_full, Z.mod_small by lia. lia.
Qed.
End flush_loop.

(** * Freeing a list *)

Definition freed (nb nb' : gmap positive nbuf) (l : list positive) : Prop :=
  ∀ x, nb' !! x = if decide (x ∈ l) then None else nb !! x.

Lemma free_list_run l h fuel s :
  l ≠ [] → nlist (rx_nbufs s) h l → NoDup l → (length l ≤ fuel)%nat →
  ∃ nb, free_list fuel h s = Some (tt, set_rx_nbufs nb s) ∧ freed (rx_nbufs s) nb l.
Proof.
  revert h fuel s. induction l as [|x l IH]; intros h fuel s Hne Hl Hnd Hf; [done|].
  destruct Hl as (-> & b & Hb & Hl). apply NoDup_cons in Hnd as [Hx Hnd].
  destruct fuel as [|fuel]; simpl in Hf; [lia|]. cbn [free_list].
  mrun (cdf_nbuf_next_run _ _ _ Hb). mrun (htt_rx_desc_frame_free_run _ _ _ Hb).
  set (s1 := set_rx_nbufs (delete x (rx_nbufs s)) s).
  destruct l as [|y l].
  - simpl in Hl. rewrite Hl. eexists. split; [done|]. intros z. case_decide as Hz.
    + apply list_elem_of_singleton in Hz as ->. by rewrite lookup_delete_eq.
    + rewrite lookup_delete_ne; [done|set_solver].
  - assert (nlist (rx_nbufs s1) (nb_next b) (y :: l)) as Hl1.
    { eapply nlist_frame; [|exact Hl]. intros z Hz. simpl. apply lookup_delete_ne. congruence. }
    destruct Hl as (Hn & _). rewrite Hn in *.
    destruct (IH (Some y) fuel s1) as (nb & Hrun & Hfr); try done; [lia|].
    exists nb. split; [by rewrite Hrun|]. intros z. rewrite Hfr.
    destruct (decide (z = x)) as [->|Hzx].
    + rewrite decide_False by done. rewrite decide_True by by left. simpl.
      by rewrite lookup_delete_eq.
    + simpl. rewrite lookup_delete_ne by done. repeat case_decide; set_solver.
Qed.

(** The number of buffers in memory is fuel enough to free any list of them. *)
Lemma free_whole_list s h l :
  l ≠ [] → nlist (rx_nbufs s) h l → NoDup l →
  ∃ nb, (n ← num_nbufs; free_list n h) s = Some (tt, set_rx_nbufs nb s) ∧
    freed (rx_nbufs s) nb l.
Proof.
  intros Hne Hl Hnd. destruct (free_list_run l h (size (rx_nbufs s)) s) as (nb & Hrun & Hf); try done.
  { apply NoDup_length_le_size; [done|]. intros x Hx. by eapply nlist_dom. }
  exists nb. split; [|done]. unfold num_nbufs. by mstep.
Qed.

Lemma nb_frame_freed nb nb1 nb2 l : nb_frame nb nb1 l → freed nb1 nb2 l → freed nb nb2 l.
Proof. intros [Hf _] Hfr x. rewrite Hfr. case_decide; [done|by apply Hf]. Qed.

(** Freeing buffers that are not in the window leaves the window alone. *)
Lemma win_state_freed s p tid mask cs nb l :
  freed (rx_nbufs s) nb l → (∀ x, x ∈ l → x ∉ concat cs) →
  win_state s p tid mask cs → win_state (set_rx_nbufs nb s) p tid mask cs.
Proof.
  intros Hf Hd (x & r & arr & ? & ? & ? & ? & ? & ? & Hok & ?).
  exists x, r, arr. split_and!; try done. eapply Forall2_same_length_lookup_2.
  { by eapply Forall2_length. }
  intros i e c He Hc. destruct (Forall2_lookup_lr _ _ _ _ _ _ Hok He Hc) as (? & ? & ?).
  split_and!; [done..|]. eapply linked_frame; [|done]. intros y Hy. simpl. rewrite Hf.
  rewrite decide_False; [done|]. intros Hyo. apply (Hd y Hyo). by eapply in_concat_slot.
Qed.

(** * The flush handler *)

(** The slots that a flush to [idx_end] covers; 0xffff stands for all. *)
Definition flush_slots (mask idx_start idx_end : Z) : list Z :=
  slots_between mask (Z.land idx_start mask)
    (Z.land (if idx_end =? 0xffff then idx_start else idx_end) mask).

(** The common part: emptying the slots and leaving the waiting list. *)
Lemma flush_collect p tid idx_start idx_end s mask cs :
  win_state s p tid mask cs → waitlist_ok (rx_waitlist s) (p, tid) →
  let ixs := flush_slots mask idx_start idx_end in
  let out := concat ((λ j, cs !!! Z.to_nat j) <$> ixs) in
  ∃ s1, (∀ env action, ol_rx_reorder_flush env p tid idx_start idx_end action s =
      (match hd_error out with
       | Some h =>
         d ← htt_rx_msdu_desc_retrieve (hd_error out);
         put_last_seq p tid (u16 (rd_seq_num d));;
         cdf_nbuf_set_next (last out) None;;
         match action with
         | htt_rx_flush_release => rx_opt_proc env p tid (hd_error out)
         | htt_rx_flush_discard => n ← num_nbufs; free_list n (hd_error out)
         end
       | None => mret tt
       end;; OL_RX_REORDER_TIMEOUT_REMOVE env p tid) s1) ∧
    win_state s1 p tid mask (drain ixs cs).2 ∧ linked (rx_nbufs s1) out ∧
    nb_frame (rx_nbufs s) (rx_nbufs s1) out ∧ NoDup (out ++ concat (drain ixs cs).2) ∧
    out = (drain ixs cs).1.
Proof.
  intros Hws Hwl ixs out. pose proof Hws as (x & _ & _ & Hx & _).
  set (s0 := with_next_rel_idx p tid (if idx_end =? 0xffff then 0 else u16 idx_end) s).
  assert (win_state s0 p tid mask cs) as Hws0 by by apply win_state_upd_peer.
  pose proof Hws0 as (x0 & r & arr & Hx0 & Hr & Hm & Hmask & Hw & Hlen & Hok & Hnd).
  pose proof Hws as (x' & r' & _ & Hx' & Hr' & Hm' & _).
  set (a := Z.land idx_start mask).
  set (b := Z.land (if idx_end =? 0xffff then idx_start else idx_end) mask).
  assert (0 ≤ a ≤ mask) as Ha by by apply land_mask_range.
  assert (0 ≤ b ≤ mask) as Hb by by apply land_mask_range.
  destruct (slots_between_steps mask Hmask a b Ha Hb) as (n & Hixs & Hn & Hend & Hnot).
  change (slots_between mask a b) with ixs in Hixs.
  destruct (flush_loop_run p tid mask Hmask (Z.to_nat (mask + 1)) n a b s0 arr cs [])
    as (nb & arr' & Hrun & Hdr); try done; [lia|].
  rewrite <- Hixs in Hrun, Hdr. cbv zeta in Hrun. cbn [app] in Hrun, Hdr.
  assert (out = (drain ixs cs).1) as Hout.
  { unfold out. rewrite drain_chain; [done| |]. by apply slots_between_NoDup.
    by apply nonneg_ring. }
  rewrite <- Hout in Hrun, Hdr.
  destruct (waitlist_remove_run _ _ _ Hwl) as (q' & Hq).
  set (s2 := set_rx_nbufs nb (put_window p tid arr' s0)) in *.
  assert (win_state s2 p tid mask (drain ixs cs).2)
    as Hws1 by by eapply (win_state_put _ _ _ _ _ arr).
  exists (set_rx_waitlist q' s2).
  pose proof Hdr as (_ & Hl & _ & Hf & Hnd').
  split_and!; [|exact Hws1|done|done|done|done].
  intros env action. unfold ol_rx_reorder_flush.
  mrun (get_reorder_run s p tid _ _ Hx' Hr'). rewrite Hm'.
  mrun (put_next_rel_idx_run s p tid (if idx_end =? 0xffff then 0 else u16 idx_end) x Hx).
  fold s0. fold a. fold b. rewrite (run_bind _ _ _ _ _ Hrun).
  assert (rx_waitlist s2 = rx_waitlist s) as Hwq by (unfold s2; simpl; by rewrite rx_waitlist_put_window).
  rewrite (run_bind _ _ _ _ _ (Hq _ Hwq)). cbn [fst snd]. done.
Qed.

Lemma drain_frames_sub ixs cs : (drain ixs cs).1 ⊆ concat cs.
Proof. rewrite (drain_perm ixs cs). set_solver. Qed.

(** C25. Discarding a run of slots.  Whatever holes the window has, a discarding
    flush frees every frame of the covered slots exactly once, frees and
    changes no other frame, empties exactly these slots, and then only
    removes the reorder timeout.  It never dereferences a NULL or freed
    buffer, and terminates. *)
Theorem ol_rx_reorder_flush_discards env p tid idx_start idx_end s mask cs :
  win_state s p tid mask cs → waitlist_ok (rx_waitlist s) (p, tid) →
  let ixs := flush_slots mask idx_start idx_end in
  ∃ s' cs', ol_rx_reorder_flush env p tid idx_start idx_end htt_rx_flush_discard s =
      OL_RX_REORDER_TIMEOUT_REMOVE env p tid s' ∧
    freed (rx_nbufs s) (rx_nbufs s') (concat ((λ j, cs !!! Z.to_nat j) <$> ixs)) ∧
    win_state s' p tid mask cs' ∧ slots_emptied ixs cs cs'.
Proof.
  intros Hws Hwl ixs. pose proof Hws as (_ & _ & _ & _ & _ & _ & Hmask & _).
  destruct (flush_collect p tid idx_start idx_end s mask cs Hws Hwl)
    as (s1 & Hrun & Hws1 & Hl & Hf & Hnd & Hout).
  fold ixs in Hrun, Hws1, Hl, Hf, Hnd, Hout.
  set (out := concat _) in *. apply NoDup_app in Hnd as (Hnd & Hdis & _).
  assert (slots_emptied ixs cs (drain ixs cs).2) as Hse.
  { by apply drain_slots_emptied, nonneg_ring, land_mask_range. }
  rewrite Hrun. destruct (decide (out = [])) as [He|Hne].
  - exists s1, (drain ixs cs).2. rewrite He in *. split_and!; try done.
    intros x. rewrite decide_False by set_solver. apply Hf. set_solver.
  - pose proof Hws1 as (x1 & _ & _ & Hx1 & _).
    destruct (hand_over s1 p tid out x1) as (h & b & nb & Hh & Hb & Hho & Hnl & Hf2); try done.
    rewrite Hh in *.
    set (s2 := with_last_seq p tid (u16 (rd_seq_num (nb_desc b))) (set_rx_nbufs nb s1)) in *.
    destruct (free_whole_list s2 (Some h) out) as (nb' & Hfree & Hfr); [done..|].
    exists (set_rx_nbufs nb' s2), (drain ixs cs).2. split_and!; [| | |done].
    + rewrite (run_bind _ _ _ tt (set_rx_nbufs nb' s2)); [done|]. rewrite Hho. exact Hfree.
    + eapply nb_frame_freed; [|exact Hfr].
      eapply nb_frame_trans; [exact Hf|exact Hf2|done..].
    + assert (win_state s2 p tid mask (drain ixs cs).2) as Hws2.
      { apply win_state_upd_peer; [done|]. by eapply (win_state_frame s1). }
      by apply (win_state_freed s2 _ _ _ _ _ out).
Qed.

(** Flushing a run of slots with release.  Whatever holes the window has,
    the frames of the covered slots reach [rx_opt_proc] as one
    NULL-terminated list in window order, exactly these slots are emptied,
    and no frame is freed or relinked outside the list; when the slots are
    all empty nothing is delivered. *)
Theorem ol_rx_reorder_flush_releases env p tid idx_start idx_end s mask cs :
  win_state s p tid mask cs → waitlist_ok (rx_waitlist s) (p, tid) →
  let ixs := flush_slots mask idx_start idx_end in
  let out := concat ((λ j, cs !!! Z.to_nat j) <$> ixs) in
  ∃ s' cs', ol_rx_reorder_flush env p tid idx_start idx_end htt_rx_flush_release s =
      (when (negb (bool_decide (out = []))) (rx_opt_proc env p tid (hd_error out));;
       OL_RX_REORDER_TIMEOUT_REMOVE env p tid) s' ∧
    nlist (rx_nbufs s') (hd_error out) out ∧ NoDup out ∧
    nb_frame (rx_nbufs s) (rx_nbufs s') out ∧
    win_state s' p tid mask cs' ∧ slots_emptied ixs cs cs'.
Proof.
  intros Hws Hwl ixs. pose proof Hws as (_ & _ & _ & _ & _ & _ & Hmask & _).
  destruct (flush_collect p tid idx_start idx_end s mask cs Hws Hwl)
    as (s1 & Hrun & Hws1 & Hl & Hf & Hnd & Hout).
  fold ixs in Hrun, Hws1, Hl, Hf, Hnd, Hout.
  set (out := concat _) in *. apply NoDup_app in Hnd as (Hnd & Hdis & _).
  assert (slots_emptied ixs cs (drain ixs cs).2) as Hse.
  { by apply drain_slots_emptied, nonneg_ring, land_mask_range. }
  rewrite Hrun. destruct (decide (out = [])) as [He|Hne].
  - exists s1, (drain ixs cs).2. rewrite He in *. split_and!; done.
  - pose proof Hws1 as (x1 & _ & _ & Hx1 & _).
    destruct (hand_over s1 p tid out x1) as (h & b & nb & Hh & Hb & Hho & Hnl & Hf2); try done.
    set (s2 := with_last_seq p tid (u16 (rd_seq_num (nb_desc b))) (set_rx_nbufs nb s1)) in *.
    exists s2, (drain ixs cs).2. rewrite bool_decide_eq_false_2 by done.
    rewrite Hh in *. split_and!; [|done|done| | |done].
    + apply run_bind_eq. apply Hho.
    + eapply nb_frame_trans; [exact Hf|exact Hf2|done..].
    + apply win_state_upd_peer; [done|]. by eapply (win_state_frame s1).
Qed.
