(* ===== verification/RxSession.v ===== *)
(** The rest of the reorder buffer's contract: storing a frame, the duplicate
    check on sequence numbers, the search for the first hole, and the setup
    and teardown of a block-ack agreement. *)
From S2P Require Import Prelude Tailq RxTypes RxTimers RxReorder RxWindow RxReorderProofs.

(** * Storing *)

Lemma set_rx_nbufs_id s : set_rx_nbufs (rx_nbufs s) s = s.
Proof. by destruct s. Qed.

(** Replacing what one slot holds by [c ++ l], where [l] is new. *)
Lemma win_state_grow s p tid mask cs arr i c l e nb :
  win_state s p tid mask cs → window s p tid = Some arr → cs !! i = Some c →
  NoDup (concat cs ++ l) → slot_rep nb e (c ++ l) → nb_frame (rx_nbufs s) nb c →
  win_state (set_rx_nbufs nb (put_window p tid (<[i:=e]> arr) s)) p tid mask
    (<[i:=c ++ l]> cs).
Proof.
  intros (x & r & arr0 & Hx & Hr & Hm & Hmask & Hw & Hlen & Hok & Hnd) Hw' Hc Hndl Hs Hf.
  rewrite Hw in Hw'. simplify_eq.
  destruct (put_window_peer s p tid (<[i:=e]> arr) x r Hx Hr) as [b Hb].
  pose proof (Forall2_length _ _ _ Hok) as Hlc. pose proof (lookup_lt_Some _ _ _ Hc) as Hic.
  eexists _, (set_base b r), (<[i:=e]> arr). split_and!; try done.
  - simpl. by rewrite list_lookup_insert_eq by by apply lookup_lt_Some in Hr.
  - rewrite window_nbufs. apply (window_put _ _ _ arr); [done|by rewrite length_insert].
  - by rewrite length_insert.
  - apply Forall2_same_length_lookup_2; [by rewrite !length_insert|].
    intros j ej cj Hej Hcj. destruct (decide (j = i)) as [->|Hne].
    + rewrite list_lookup_insert_eq in Hej by lia. rewrite list_lookup_insert_eq in Hcj by lia.
      by simplify_eq.
    + rewrite list_lookup_insert_ne in Hej by done. rewrite list_lookup_insert_ne in Hcj by done.
      eapply slot_rep_frame; [exact Hf| |by eapply Forall2_lookup_lr].
      intros y Hy Hyj. rewrite (concat_take_drop _ _ _ Hc) in Hnd.
      apply NoDup_app in Hnd as (_ & Hd & _). apply (Hd y Hy).
      apply (in_concat_slot _ j cj); [|done]. by rewrite list_lookup_insert_ne.
  - rewrite (concat_take_drop (<[i:=c ++ l]> cs) i (c ++ l))
      by by apply list_lookup_insert_eq.
    rewrite list_insert_insert_eq, <- app_assoc, (Permutation_app_comm l), app_assoc.
    by rewrite <- (concat_take_drop _ _ _ Hc).
Qed.

Lemma store_run s p tid idx mask cs l :
  win_state s p tid mask cs → l ≠ [] → linked (rx_nbufs s) l → NoDup (concat cs ++ l) →
  let i := Z.to_nat (Z.land idx mask) in
  ∃ s', ol_rx_reorder_store p tid idx (hd_error l) (last l) s = Some (tt, s') ∧
    win_state s' p tid mask (<[i := (cs !!! i) ++ l]> cs) ∧
    nb_frame (rx_nbufs s) (rx_nbufs s') (cs !!! i) ∧
    ∃ nb arr', s' = set_rx_nbufs nb (put_window p tid arr' s).
Proof.
  intros Hws Hl Hlk Hnd' i.
  pose proof Hws as (x & r & arr & Hx & Hr & Hm & Hmask & Hw & Hlen & Hok & Hnd).
  pose proof (land_mask_range mask idx Hmask) as Hi.
  destruct (cs !! i) as [c|] eqn:Hc.
  2:{ apply lookup_ge_None in Hc. rewrite <- (Forall2_length _ _ _ Hok) in Hc. lia. }
  rewrite (list_lookup_total_correct _ _ _ Hc).
  destruct (win_ok_lookup _ _ _ _ _ Hok Hc) as (e & He & Hh & Ht & Hlc).
  unfold ol_rx_reorder_store. mrun (get_reorder_run s p tid _ _ Hx Hr). rewrite Hm.
  mrun (read_elem_run s p tid arr (Z.land idx mask) e Hw ltac:(lia) He). rewrite Hh.
  destruct (decide (c = [])) as [->|Hcne].
  - simpl. rewrite (write_elem_run s p tid arr) by (done || lia).
    eexists. split; [done|]. rewrite rx_nbufs_put_window. split; [|split; [apply nb_frame_refl|]].
    2:{ eexists (rx_nbufs s), _. rewrite <- (rx_nbufs_put_window s p tid
          (<[i:=mk_elem (hd_error l) (last l)]> arr)). by rewrite set_rx_nbufs_id. }
    set (e' := mk_elem (hd_error l) (last l)).
    pose proof (win_state_grow s p tid mask cs arr i [] l e' (rx_nbufs s) Hws Hw Hc Hnd') as Hg.
    rewrite <- (rx_nbufs_put_window s p tid (<[i:=e']> arr)), set_rx_nbufs_id in Hg.
    apply Hg; [|rewrite rx_nbufs_put_window; apply nb_frame_refl].
    by rewrite rx_nbufs_put_window.
  - destruct (hd_error_some c Hcne) as (y & c' & Hcy & Hhy). rewrite Hhy, Ht.
    destruct (append_slot s c (mk_elem (hd_error l) (last l)) l) as (nb & Hrun & Hl' & Hf & Ht');
      try done.
    { rewrite (concat_take_drop _ _ _ Hc), <- app_assoc, (Permutation_app_comm _ l),
        app_assoc in Hnd'. by apply NoDup_app in Hnd' as []. }
    mrun Hrun. rewrite (write_elem_run _ p tid arr) by (done || lia).
    rewrite put_window_nbufs. eexists. split; [done|]. split; [|split; [done|by eexists _, _]].
    eapply win_state_grow; try done. split_and!; simpl; [by rewrite Hcy|done|done].
Qed.

(** Storing an MPDU.  The MSDU chain [l] joins the end of the chain in slot
    [idx mod window size]; the other slots keep theirs, the frames stay
    linked, and the window invariant is preserved. *)
Theorem ol_rx_reorder_store_appends s p tid idx mask cs l :
  win_state s p tid mask cs → l ≠ [] → linked (rx_nbufs s) l → NoDup (concat cs ++ l) →
  let i := Z.to_nat (Z.land idx mask) in
  ∃ s', ol_rx_reorder_store p tid idx (hd_error l) (last l) s = Some (tt, s') ∧
    win_state s' p tid mask (<[i := (cs !!! i) ++ l]> cs) ∧
    nb_frame (rx_nbufs s) (rx_nbufs s') (cs !!! i).
Proof.
  intros Hws Hl Hlk Hnd i. destruct (store_run s p tid idx mask cs l) as (s' & ? & ? & ? & _); eauto.
Qed.

(** * The duplicate check *)

Lemma seq_num_delta_mod seq_num last_seq :
  seq_num_delta seq_num last_seq = (seq_num - 1 - last_seq) mod 4096.
Proof.
  unfold seq_num_delta, IEEE80211_SEQ_MAX, wrap.
  change (4096 - 1) with (2 ^ 12 - 1). rewrite land_mask by lia.
  change (2 ^ 32) with (2 ^ 12 * 2 ^ 20). change 4096 with (2 ^ 12).
  rewrite Z.rem_mul_r by lia. rewrite Zplus_mod, (Z.mul_comm (2 ^ 12)), Z_mod_mult, Z.add_0_r.
  by rewrite !Zmod_mod.
Qed.

(** The duplicate check by the distance from the last number. *)
Lemma seq_num_check_run s p tid x last d :
  tid ≠ OL_RX_MCAST_TID → rx_peers s !! p = Some x →
  tids_last_seq x !! Z.to_nat tid = Some last → 0 ≤ rd_seq_num d < IEEE80211_SEQ_MAX →
  ol_rx_seq_num_check p tid d s =
    Some (if bool_decide (last = IEEE80211_SEQ_MAX ∨ seq_num_delta (rd_seq_num d) last ≤ 2048)
          then htt_rx_status_ok else htt_rx_status_err_replay, s).
Proof.
  unfold IEEE80211_SEQ_MAX. intros Htid Hx Hl Hs. unfold ol_rx_seq_num_check.
  destruct (Z.eqb_spec tid OL_RX_MCAST_TID); [done|].
  rewrite (wrap_small 16) by lia. unfold ol_rx_reorder_seq_num_check.
  mrun (get_peer_run _ _ _ Hx). mstep. unfold IEEE80211_SEQ_MAX.
  change (Z.shiftr 4096 1) with 2048. rewrite Z.gtb_ltb.
  destruct (Z.eqb_spec last 4096); [by rewrite bool_decide_eq_true_2 by auto|].
  destruct (Z.ltb_spec 2048 (seq_num_delta (rd_seq_num d) last)).
  - rewrite bool_decide_eq_false_2; [done|]. lia.
  - by rewrite bool_decide_eq_true_2 by auto.
Qed.

(** C35. The duplicate check of a unicast frame accepts, of the 4096 sequence
    numbers, exactly the 2049 that follow the last released one on the circle (one
    more than half), and everything while no number is recorded; it reports the
    others as replays, and changes nothing. *)
Theorem ol_rx_seq_num_check_window s p tid x last d :
  tid ≠ OL_RX_MCAST_TID → rx_peers s !! p = Some x →
  tids_last_seq x !! Z.to_nat tid = Some last → 0 ≤ last ≤ IEEE80211_SEQ_MAX →
  0 ≤ rd_seq_num d < IEEE80211_SEQ_MAX →
  ∃ st, ol_rx_seq_num_check p tid d s = Some (st, s) ∧
    (st = htt_rx_status_ok ∨ st = htt_rx_status_err_replay) ∧
    (st = htt_rx_status_ok ↔ last = IEEE80211_SEQ_MAX ∨
      ∃ ahead, 1 ≤ ahead ≤ 2049 ∧ rd_seq_num d = (last + ahead) mod IEEE80211_SEQ_MAX).
Proof.
  intros Htid Hx Hl Hlast Hs. rewrite (seq_num_check_run s p tid x last d) by done.
  eexists. split; [done|]. rewrite seq_num_delta_mod. unfold IEEE80211_SEQ_MAX in *.
  set (delta := (rd_seq_num d - 1 - last) mod 4096).
  pose proof (Z.mod_pos_bound (rd_seq_num d - 1 - last) 4096 ltac:(lia)) as Hb. fold delta in Hb.
  assert (rd_seq_num d = (last + (delta + 1)) mod 4096) as Hd.
  { unfold delta. rewrite (Z.add_comm _ 1), Z.add_assoc, Zplus_mod_idemp_r.
    replace (last + 1 + (rd_seq_num d - 1 - last)) with (rd_seq_num d) by lia.
    by rewrite Z.mod_small. }
  case_bool_decide as H; [split; [by left|]|split; [by right|]].
  - split; [|done]. intros _. destruct H as [->|H]; [by left|]. right. exists (delta + 1).
    split; [lia|done].
  - split; [done|]. intros [?|(ahead & Ha & He)]; [tauto|]. exfalso. apply H. right.
    unfold delta. rewrite He, <- Z.sub_add_distr, Zminus_mod_idemp_l.
    replace (last + ahead - (1 + last)) with (ahead - 1) by lia. rewrite Z.mod_small; lia.
Qed.

(** * The first hole *)

Section first_hole.
Context (p : positive) (tid mask : Z) (s : rx_state) (arr : list elem).
Context (cs : list (list positive)).
Context (Hmask : is_mask mask) (Hw : window s p tid = Some arr).
Context (Hok : win_ok (rx_nbufs s) arr cs) (Hlen : Z.of_nat (length arr) = mask + 1).

(** The slot [j] is as a loop of [ol_rx_reorder_first_hole] wants it. *)
Definition slot_is (present : bool) (j : Z) : Prop :=
  if present then cs !!! Z.to_nat j ≠ [] else cs !!! Z.to_nat j = [].

Lemma slot_is_head present j e c :
  cs !! Z.to_nat j = Some c → e_head e = hd_error c →
  Bool.eqb (bool_decide (is_Some (e_head e))) present = true ↔ slot_is present j.
Proof using.
  intros Hc Hh. unfold slot_is. rewrite Hh, (list_lookup_total_correct _ _ _ Hc).
  destruct c, present; simpl; split; intros H; try done.
Qed.

(** Each loop stops at the first slot that is not as it wants, or has
    wrapped around to slot 0. *)
Lemma skip_slots_run fuel present i :
  0 < i ≤ mask + 1 → (Z.to_nat (mask + 1 - i) ≤ fuel)%nat →
  ∃ j, skip_slots fuel present p tid mask 0 (Z.land i mask) s = Some (Z.land j mask, s) ∧
    i ≤ j ≤ mask + 1 ∧ (∀ k, i ≤ k < j → slot_is present k) ∧
    (j ≤ mask → ¬ slot_is present j).
Proof using Hmask Hw Hok Hlen.
  revert i. induction fuel as [|fuel IH]; intros i Hi Hf.
  all: destruct (decide (i = mask + 1)) as [->|Hne]; [|try lia].
  1, 2: exists (mask + 1); assert (Z.land (mask + 1) mask = 0) as ->
    by (rewrite land_mask_next by (done || lia); by rewrite Z.eqb_refl);
    simpl; split; [done|]; split; [lia|]; split; [lia|lia].
  rewrite land_mask_id by (done || lia). cbn [skip_slots].
  destruct (Z.eqb_spec i 0); [lia|].
  assert (is_Some (cs !! Z.to_nat i)) as [c Hc].
  { apply lookup_lt_is_Some. rewrite <- (Forall2_length _ _ _ Hok). lia. }
  destruct (win_ok_lookup _ _ _ _ _ Hok Hc) as (e & He & Hh & _).
  mrun (read_elem_run s p tid arr i e Hw ltac:(lia) He).
  pose proof (slot_is_head present i e c Hc Hh) as Hs. destruct (Bool.eqb _ _).
  - destruct (IH (i + 1)) as (j & Hrun & Hj & Hall & Hstop); [lia|lia|].
    exists j. split; [done|]. split; [lia|]. split; [|done].
    intros k Hk. destruct (decide (k = i)) as [->|]; [by apply Hs|apply Hall; lia].
  - exists i. rewrite land_mask_id by (done || lia). split; [done|]. split; [lia|].
    split; [lia|]. intros _ Hp. by apply Hs in Hp.
Qed.
End first_hole.

(** [ol_rx_reorder_first_hole] finds the second hole: counting slots from 1
    (slot 0 is taken to be missing), slots [1 .. i-1] are empty, slots
    [i .. j-1] are filled and slot [j] is empty again, and the result is
    [j], or 0 when the end of the window comes first.  Both loops terminate
    and change nothing. *)
Theorem ol_rx_reorder_first_hole_spec s p tid mask cs :
  win_state s p tid mask cs →
  ∃ i j, ol_rx_reorder_first_hole p tid s =
      Some (if j =? mask + 1 then 0 else j, s) ∧
    1 ≤ i ≤ j ∧ j ≤ mask + 1 ∧
    (∀ k, 1 ≤ k < i → cs !!! Z.to_nat k = []) ∧
    (∀ k, i ≤ k < j → cs !!! Z.to_nat k ≠ []) ∧
    (i ≤ mask → i < j) ∧
    (j ≤ mask → cs !!! Z.to_nat j = []).
Proof.
  intros (x & r & arr & Hx & Hr & Hm & Hmask & Hw & Hlen & Hok & Hnd).
  pose proof (is_mask_nonneg _ Hmask).
  destruct (skip_slots_run p tid mask s arr cs Hmask Hw Hok Hlen (Z.to_nat (mask + 1)) false 1)
    as (i & Hrun1 & Hi & Hempty & Hstop1); [lia..|].
  destruct (skip_slots_run p tid mask s arr cs Hmask Hw Hok Hlen (Z.to_nat (mask + 1)) true i)
    as (j & Hrun2 & Hj & Hfull & Hstop2); [lia..|].
  exists i, j. split.
  - unfold ol_rx_reorder_first_hole. mrun (get_reorder_run s p tid _ _ Hx Hr). rewrite Hm.
    unfold OL_RX_REORDER_IDX_WRAP. mrun Hrun1. rewrite Hrun2. do 2 f_equal.
    destruct (Z.eqb_spec j (mask + 1)) as [->|].
    + rewrite land_mask_next by (done || lia). by rewrite Z.eqb_refl.
    + apply land_mask_id; [done|lia].
  - split_and!; try done; try lia.
    + intros Him. destruct (decide (i = j)) as [->|]; [|lia].
      exfalso. apply (Hstop1 Him). unfold slot_is. specialize (Hstop2 Him). unfold slot_is in Hstop2.
      by destruct (cs !!! Z.to_nat j); [|destruct Hstop2].
    + intros Hjm. specialize (Hstop2 Hjm). unfold slot_is in Hstop2.
      by destruct (cs !!! Z.to_nat j); [|destruct Hstop2].
Qed.

(** * Block-ack agreements *)

(** A peer ID that the firmware may use for the peer [p]. *)
Definition peer_id_ok (env : rx_env) (s : rx_state) (peer_id : Z) (p : positive) : Prop :=
  peer_id ≤ max_peer_id env ∧ peer_id_to_obj_map s !! Z.to_nat peer_id = Some (Some p) ∧
  ∃ x, rx_peers s !! p = Some x ∧ peer_valid x = true.

Lemma peer_find_run env s peer_id p : peer_id_ok env s peer_id p →
  ol_txrx_peer_find_by_id env peer_id s = Some (Some p, s).
Proof.
  intros (Hid & Hm & x & Hx & Hv). unfold ol_txrx_peer_find_by_id.
  rewrite Z.gtb_ltb. destruct (Z.ltb_spec (max_peer_id env) peer_id); [lia|].
  mstep. cbv iota. mrun (get_peer_run _ _ _ Hx). by rewrite Hv.
Qed.

(** The table of window sizes rounds up to a power of two. *)
Lemma g_log2ceil_spec w : 0 ≤ w ≤ 64 →
  ∃ k, 0 ≤ k ≤ 6 ∧ g_log2ceil !! Z.to_nat w = Some (2 ^ k) ∧ w ≤ 2 ^ k ∧ (1 < w → 2 ^ k < 2 * w).
Proof.
  intros Hw. assert (Forall (λ n : nat,
    match g_log2ceil !! n with
    | Some v => existsb (λ k, (v =? 2 ^ k) && (Z.of_nat n <=? v) &&
        ((Z.of_nat n <=? 1) || (v <? 2 * Z.of_nat n))) (seqZ 0 7)
    | None => false end = true) (seq 0 65)) as Hall by by repeat constructor.
  rewrite Forall_forall in Hall. specialize (Hall (Z.to_nat w)).
  destruct (g_log2ceil !! Z.to_nat w) as [v|].
  - rewrite existsb_exists in Hall. destruct Hall as (k & Hk & Hb); [apply elem_of_seq; lia|].
    apply list_elem_of_In, elem_of_seqZ in Hk.
    apply andb_true_iff in Hb as [[Hv%Z.eqb_eq Hle%Z.leb_le]%andb_true_iff Hor].
    rewrite Z2Nat.id in * by lia. exists k. subst v. split_and!; [lia|lia|done|lia|].
    intros Hw1. apply orb_true_iff in Hor as [H%Z.leb_le|H%Z.ltb_lt]; lia.
  - exfalso. assert (false = true); [|done]. apply Hall. apply elem_of_seq. lia.
Qed.

Lemma win_state_empty s p tid mask x r a n :
  rx_peers s !! p = Some x → tids_rx_reorder x !! Z.to_nat tid = Some r →
  win_sz_mask r = mask → is_mask mask → Z.of_nat n = mask + 1 →
  (array r = ArrHeap a ∧ rx_arrays s !! a = Some (replicate n elem_null) ∨
   array r = ArrBase ∧ base r = elem_null ∧ n = 1%nat) →
  win_state s p tid mask (replicate n []).
Proof.
  intros Hx Hr Hm Hmask Hn Ha. exists x, r, (replicate n elem_null). split_and!; try done.
  - unfold window. rewrite Hx. simpl. rewrite Hr. simpl.
    destruct Ha as [[-> ->]|(-> & -> & ->)]; done.
  - by rewrite length_replicate.
  - apply Forall2_replicate. apply slot_rep_null.
  - clear. induction n; simpl; [constructor|done].
Qed.

(** Setting up a block-ack agreement.  On success the TID has an empty
    window of [2 ^ k] slots, the smallest power of two that holds the
    negotiated size (at least one), the mask is [2 ^ k - 1], no sequence
    number is recorded, and releasing starts from slot 0. *)
Theorem ol_rx_addba_handler_opens_window env s a peer_id p x r tid win ssn :
  peer_id_ok env s peer_id p → rx_peers s !! p = Some x →
  tids_rx_reorder x !! Z.to_nat tid = Some r → 0 ≤ win ≤ 64 →
  (Z.to_nat tid < length (tids_last_seq x))%nat →
  (Z.to_nat tid < length (tids_next_rel_idx x))%nat →
  ∃ s' k x', ol_rx_addba_handler env (Some a) peer_id tid win ssn false s = Some (tt, s') ∧
    win ≤ 2 ^ k ∧ (1 < win → 2 ^ k < 2 * win) ∧
    win_state s' p tid (2 ^ k - 1) (replicate (Z.to_nat (2 ^ k)) []) ∧
    rx_peers s' !! p = Some x' ∧ tids_last_seq x' !! Z.to_nat tid = Some IEEE80211_SEQ_MAX ∧
    tids_next_rel_idx x' !! Z.to_nat tid = Some 0 ∧ rx_nbufs s' = rx_nbufs s.
Proof.
  intros Hid Hx Hr Hwin Hls Hnr. destruct (g_log2ceil_spec win Hwin) as (k & Hk & Hg & Hle & Hlt).
  pose proof (Z.pow_pos_nonneg 2 k) as Hpos.
  pose proof (Z.pow_le_mono_r 2 k 6 ltac:(lia) ltac:(lia)) as H64.
  unfold ol_rx_addba_handler. mrun (peer_find_run _ _ _ _ Hid).
  set (s0 := if host_addba env then set_rx_log (rx_log s ++ [EvAddbaComplete p tid false]) s else s).
  assert (when (host_addba env) (emit (EvAddbaComplete p tid false)) s = Some (tt, s0)) as H0.
  { unfold s0. by destruct (host_addba env). }
  assert (rx_peers s0 = rx_peers s) as Hp0 by (unfold s0; by destruct (host_addba env)).
  assert (rx_nbufs s0 = rx_nbufs s) as Hn0 by (unfold s0; by destruct (host_addba env)).
  mrun H0. clearbody s0. rewrite <- Hp0 in Hx. clear H0.
  mrun (mod_peer_run s0 p x (λ x, set_tids_last_seq
    (<[Z.to_nat tid:=IEEE80211_SEQ_MAX]> (tids_last_seq x)) x) Hx).
  erewrite run_bind by (eapply mod_reorder_run; [apply lookup_insert_eq|exact Hr]).
  rewrite Hg. mstep. rewrite ?run_assoc.
  erewrite run_bind by (eapply mod_reorder_run;
    [apply lookup_insert_eq|apply list_lookup_insert_eq; by eapply lookup_lt_Some]).
  mstep.
  erewrite run_bind by (eapply mod_reorder_run;
    [apply lookup_insert_eq|apply list_lookup_insert_eq; simpl; rewrite length_insert; by eapply lookup_lt_Some]).
  erewrite run_bind by (eapply mod_reorder_run;
    [apply lookup_insert_eq|apply list_lookup_insert_eq; simpl; rewrite !length_insert; by eapply lookup_lt_Some]).
  unfold put_next_rel_idx. erewrite mod_peer_run by apply lookup_insert_eq.
  eexists _, k, _. split; [done|]. split; [lia|]. split; [done|]. split.
  - eapply win_state_empty; simpl.
    + apply lookup_insert_eq.
    + apply list_lookup_insert_eq. rewrite !length_insert. by eapply lookup_lt_Some.
    + simpl. rewrite (wrap_small 8) by lia. done.
    + exists k. split; [lia|done].
    + lia.
    + left. simpl. split; [done|]. apply lookup_insert_eq.
  - simpl. split; [apply lookup_insert_eq|]. simpl.
    split; [by apply list_lookup_insert_eq|]. split; [by apply list_lookup_insert_eq|done].
Qed.

(** Tearing a block-ack agreement down.  The window shrinks to the one
    embedded slot, which is empty, an allocated array is given back exactly
    once, and releasing has no valid start; the frames of the old window
    are not freed. *)
Theorem ol_rx_delba_handler_resets env s peer_id p x r tid e :
  peer_id_ok env s peer_id p → rx_peers s !! p = Some x →
  tids_rx_reorder x !! Z.to_nat tid = Some r →
  (∀ a, array r = ArrHeap a → is_Some (rx_arrays s !! a)) →
  (Z.to_nat tid < length (tids_next_rel_idx x))%nat →
  entries (rx_waitlist s) !! (p, tid) = Some e →
  ∃ s' x', ol_rx_delba_handler env peer_id tid s = Some (tt, s') ∧
    win_state s' p tid 0 [[]] ∧
    rx_peers s' !! p = Some x' ∧ tids_next_rel_idx x' !! Z.to_nat tid = Some 0xffff ∧
    rx_arrays s' = (match array r with
                    | ArrHeap a => delete a (rx_arrays s)
                    | _ => rx_arrays s end) ∧
    rx_nbufs s' = rx_nbufs s.
Proof.
  intros Hid Hx Hr Ha Hnr He. unfold ol_rx_delba_handler. mrun (peer_find_run _ _ _ _ Hid).
  unfold put_next_rel_idx. mrun (mod_peer_run s p x (λ x, set_tids_next_rel_idx
    (<[Z.to_nat tid:=65535]> (tids_next_rel_idx x)) x) Hx).
  set (s0 := set_rx_peers _ s). set (x0 := set_tids_next_rel_idx _ x) in s0.
  assert (rx_peers s0 !! p = Some x0) as Hx0 by apply lookup_insert_eq.
  mrun (get_reorder_run s0 p tid x0 r Hx0 Hr).
  set (arrs := match array r with ArrHeap a => delete a (rx_arrays s) | _ => rx_arrays s end).
  assert (match array r with
    | ArrHeap a => o ← gets (λ s, rx_arrays s !! a); _ ← deref o;
        modify (λ s, set_rx_arrays (delete a (rx_arrays s)) s)
    | _ => mret tt end s0 = Some (tt, set_rx_arrays arrs s0)) as Harr.
  { unfold arrs. destruct (array r) as [| |a] eqn:E; [done|done|].
    destruct (Ha a eq_refl) as [v Hv]. mstep. done. }
  rewrite (run_bind _ _ _ _ _ Harr). unfold ol_rx_reorder_init.
  erewrite run_bind by (eapply mod_reorder_run; [exact Hx0|exact Hr]).
  unfold on_waitlist. erewrite zoom_run.
  2:{ mrun (set_next_run (rx_waitlist s) _ _ None He). unfold set_prev. cbn.
      rewrite lookup_insert_eq. cbn. reflexivity. }
  eexists _, _. split; [done|]. split; [|split; [apply lookup_insert_eq|]].
  - eapply (win_state_empty _ p tid 0 _ _ 1 1); simpl.
    + apply lookup_insert_eq.
    + apply list_lookup_insert_eq. by eapply lookup_lt_Some.
    + done.
    + exists 0. split; [lia|done].
    + lia.
    + by right.
  - simpl. split; [by apply list_lookup_insert_eq|done].
Qed.
