(* ===== verification/RxPn.v ===== *)
(** The packet-number check of the receive path: [core/dp/txrx/ol_rx_pn.c],
    with [ol_rx_mpdu_list_next] of [ol_txrx_internal.h] and the table of
    packet-number lengths and comparisons that [ol_txrx_pdev_attach] fills in
    ([ol_txrx.c]). *)
From S2P Require Import Prelude Tailq RxTypes RxTimers RxReorder RxWindow RxReorderProofs RxFlush.
From Stdlib Require Import Sorted.

(** * Comparing packet numbers; 1 is a replay *)

Definition ol_rx_pn_cmp24 (new_pn old_pn : htt_rx_pn_t) (is_unicast : bool)
    (opmode : wlan_op_mode) : bool :=
  Z.land (pn24 new_pn) 0xffffff <=? Z.land (pn24 old_pn) 0xffffff.

Definition ol_rx_pn_cmp48 (new_pn old_pn : htt_rx_pn_t) (is_unicast : bool)
    (opmode : wlan_op_mode) : bool :=
  Z.land (pn48 new_pn) 0xffffffffffff <=? Z.land (pn48 old_pn) 0xffffffffffff.

Definition ol_rx_pn_wapi_cmp (new_pn old_pn : htt_rx_pn_t) (is_unicast : bool)
    (opmode : wlan_op_mode) : bool :=
  let pn_is_replay :=
    if pn128_1 new_pn =? pn128_1 old_pn then pn128_0 new_pn <=? pn128_0 old_pn
    else pn128_1 new_pn <? pn128_1 old_pn in
  if is_unicast then
    if decide (opmode = wlan_op_mode_ap)
    then pn_is_replay || negb (Z.land (pn128_0 new_pn) 1 =? 0)
    else pn_is_replay || negb (Z.land (pn128_0 new_pn) 1 =? 1)
  else pn_is_replay.

Definition rx_pn_len (t : htt_sec_type) : Z :=
  match t with
  | htt_sec_type_tkip | htt_sec_type_tkip_nomic | htt_sec_type_aes_ccmp => 48
  | htt_sec_type_wapi => 128
  | _ => 0
  end.

Definition rx_pn_cmp (t : htt_sec_type) :
    option (htt_rx_pn_t → htt_rx_pn_t → bool → wlan_op_mode → bool) :=
  match t with
  | htt_sec_type_tkip | htt_sec_type_tkip_nomic | htt_sec_type_aes_ccmp => Some ol_rx_pn_cmp48
  | htt_sec_type_wapi => Some ol_rx_pn_wapi_cmp
  | _ => None
  end.

(** * Walking a list of MPDUs *)

(** The last MSDU of the first MPDU, and the first MSDU of the next one. *)
Fixpoint ol_rx_mpdu_list_next (fuel : nat) (msdu : option positive) :
    CM rx_state (option positive * option positive) :=
  match fuel with
  | O => ub
  | S fuel =>
      d ← htt_rx_msdu_desc_retrieve msdu;
      next ← cdf_nbuf_next msdu;
      if rd_completes_mpdu d then mret (msdu, next) else ol_rx_mpdu_list_next fuel next
  end.

(** [ADD_MPDU_TO_LIST] *)
Definition ADD_MPDU_TO_LIST (head tail mpdu mpdu_tail : option positive) :
    CM rx_state (option positive * option positive) :=
  match head with
  | None => mret (mpdu, mpdu_tail)
  | Some _ => cdf_nbuf_set_next tail mpdu;; mret (head, mpdu_tail)
  end.

Definition put_last_pn (p : positive) (tid : Z) (pn : htt_rx_pn_t) : CM rx_state unit :=
  mod_peer p (λ x, set_tids_last_pn (<[Z.to_nat tid := pn]> (tids_last_pn x)) x).

Definition put_last_pn_valid (p : positive) (tid : Z) : CM rx_state unit :=
  mod_peer p (λ x, set_tids_last_pn_valid (<[Z.to_nat tid := true]> (tids_last_pn_valid x)) x).

Definition peer_security (is_mcast : bool) (x : ol_txrx_peer_t) : txrx_sec :=
  if is_mcast then security_mcast x else security_ucast x.

(** The [while (mpdu)] loop; it returns the output list. *)
Fixpoint pn_loop (fuel : nat) (p : positive) (tid : Z) (is_mcast : bool)
    (mpdu out_list_head out_list_tail : option positive) (last_pn_valid : bool) :
    CM rx_state (option positive * option positive) :=
  match mpdu, fuel with
  | None, _ => mret (out_list_head, out_list_tail)
  | Some _, O => ub
  | Some _, S fuel =>
      rx_desc ← htt_rx_msdu_desc_retrieve mpdu;
      n ← num_nbufs;
      '(mpdu_tail, next_mpdu) ← ol_rx_mpdu_list_next n mpdu;
      if negb (rd_encrypted rx_desc) then
        '(head, tail) ← ADD_MPDU_TO_LIST out_list_head out_list_tail mpdu mpdu_tail;
        pn_loop fuel p tid is_mcast next_mpdu head tail last_pn_valid
      else
        let new_pn := rd_pn rx_desc in
        x ← get_peer p;
        last_pn ← deref (tids_last_pn x !! Z.to_nat tid);
        pn_is_replay ←
          (if last_pn_valid then
             cmp ← deref (rx_pn_cmp (sec_type (peer_security is_mcast x)));
             mret (cmp new_pn last_pn (negb is_mcast) (opmode x))
           else
             put_last_pn_valid p tid;;
             mret false);
        if (pn_is_replay : bool) then
          emit (EvRxErr OL_RX_ERR_PN p tid mpdu);;
          n ← num_nbufs;
          free_mpdu n mpdu mpdu_tail;;
          pn_loop fuel p tid is_mcast next_mpdu out_list_head out_list_tail true
        else
          '(head, tail) ← ADD_MPDU_TO_LIST out_list_head out_list_tail mpdu mpdu_tail;
          put_last_pn p tid new_pn;;
          pn_loop fuel p tid is_mcast next_mpdu head tail true
  end.

Definition ol_rx_pn_check_base (p : positive) (tid : Z) (msdu_list : option positive) :
    CM rx_state (option positive) :=
  x ← get_peer p;
  if negb (fw_pn_check x =? 0) || bool_decide (opmode x = wlan_op_mode_ibss) then mret msdu_list
  else
    rx_desc ← htt_rx_msdu_desc_retrieve msdu_list;
    let is_mcast := rd_mcast rx_desc in
    if rx_pn_len (sec_type (peer_security is_mcast x)) =? 0 then mret msdu_list
    else
      last_pn_valid ← deref (tids_last_pn_valid x !! Z.to_nat tid);
      n ← num_nbufs;
      '(head, tail) ← pn_loop n p tid is_mcast msdu_list None None last_pn_valid;
      match tail with
      | Some _ => cdf_nbuf_set_next tail None
      | None => mret tt
      end;;
      mret head.

(** [ol_rx_pn_check] and [ol_rx_pn_check_only] differ in where the list goes:
    [ol_rx_fwd_check] or [ol_rx_deliver]. *)
Definition ol_rx_pn_check (ol_rx_fwd_check : positive → Z → option positive → CM rx_state unit)
    (p : positive) (tid : Z) (msdu_list : option positive) : CM rx_state unit :=
  msdu_list ← ol_rx_pn_check_base p tid msdu_list;
  ol_rx_fwd_check p tid msdu_list.

Definition ol_rx_pn_check_only (ol_rx_deliver : positive → Z → option positive → CM rx_state unit)
    (p : positive) (tid : Z) (msdu_list : option positive) : CM rx_state unit :=
  msdu_list ← ol_rx_pn_check_base p tid msdu_list;
  ol_rx_deliver p tid msdu_list.

(** * Reference behaviour

    [pn_spec] decides each MPDU in turn: it returns the accepted and the
    rejected ones with the flag and the last packet number kept afterwards. *)
Fixpoint pn_spec (replay : htt_rx_pn_t → htt_rx_pn_t → bool) (valid : bool)
    (last_pn : htt_rx_pn_t) (ms : list (list positive * rx_desc)) :
    list (list positive * rx_desc) * list (list positive * rx_desc) * (bool * htt_rx_pn_t) :=
  match ms with
  | [] => ([], [], (valid, last_pn))
  | (m, d) :: ms =>
      if negb (rd_encrypted d) then
        let '(a, r, st) := pn_spec replay valid last_pn ms in ((m, d) :: a, r, st)
      else if valid && replay (rd_pn d) last_pn then
        let '(a, r, st) := pn_spec replay true last_pn ms in (a, (m, d) :: r, st)
      else
        let '(a, r, st) := pn_spec replay true (rd_pn d) ms in ((m, d) :: a, r, st)
  end.

(** The buffers of an MPDU: only the last one completes it, and the first
    one's descriptor is [d]. *)
Definition mpdu_ok (nb : gmap positive nbuf) (md : list positive * rx_desc) : Prop :=
  ∃ l t bt bh, md.1 = l ++ [t] ∧
    Forall (λ x, ∃ b, nb !! x = Some b ∧ rd_completes_mpdu (nb_desc b) = false) l ∧
    nb !! t = Some bt ∧ rd_completes_mpdu (nb_desc bt) = true ∧
    (hd_error md.1 ≫= (λ x, nb !! x)) = Some bh ∧ nb_desc bh = md.2.

(** What the check does to the buffers: [rej] are freed, [acc] relinked. *)
Definition pn_frame (nb nb' : gmap positive nbuf) (acc rej : list positive) : Prop :=
  (∀ x, x ∈ rej → nb' !! x = None) ∧
  (∀ x, x ∉ acc → x ∉ rej → nb' !! x = nb !! x) ∧
  (∀ x b, x ∈ acc → nb !! x = Some b → ∃ n, nb' !! x = Some (set_nb_next n b)).

(** The peer after the check. *)
Definition pn_peer (tid : Z) (x x' : ol_txrx_peer_t) (st : bool * htt_rx_pn_t) : Prop :=
  x' = set_tids_last_pn (tids_last_pn x') (set_tids_last_pn_valid (tids_last_pn_valid x') x) ∧
  tids_last_pn x' !! Z.to_nat tid = Some st.2 ∧
  tids_last_pn_valid x' !! Z.to_nat tid = Some st.1.

(** * Walking *)

Lemma nlist_head nb h l : nlist nb h l → h = hd_error l.
Proof. destruct l; [done|]. by intros [-> _]. Qed.

Lemma nlist_linked nb h l : nlist nb h l → linked nb l.
Proof.
  revert h. induction l as [|x l IH]; intros h; [done|]. intros (-> & b & Hb & Hl).
  pose proof (nlist_head _ _ _ Hl) as Hh. destruct l as [|y l]; [by eexists|].
  split; [|by eapply IH]. exists b. by rewrite Hh.
Qed.

Lemma nlist_app_inv nb h l1 l2 : nlist nb h (l1 ++ l2) →
  ∃ h2, nlist nb h2 l2 ∧ linked nb l1.
Proof.
  intros Hl. assert (linked nb l1) as Hlk.
  { apply nlist_linked, linked_app_inv in Hl. by destruct Hl. }
  clear Hlk. revert h Hl. induction l1 as [|x l1 IH]; intros h Hl; [by exists h|].
  pose proof (nlist_linked _ _ _ Hl) as Hlk. destruct Hl as (-> & b & Hb & Hl).
  destruct (IH _ Hl) as (h2 & ? & ?). exists h2. split; [done|].
  by apply (linked_app_inv nb (x :: l1) l2) in Hlk as [].
Qed.

Lemma mpdu_list_next_run l t rest s h fuel bt :
  nlist (rx_nbufs s) h (l ++ t :: rest) →
  Forall (λ x, ∃ b, rx_nbufs s !! x = Some b ∧ rd_completes_mpdu (nb_desc b) = false) l →
  rx_nbufs s !! t = Some bt → rd_completes_mpdu (nb_desc bt) = true → (length l < fuel)%nat →
  ol_rx_mpdu_list_next fuel h s = Some ((Some t, hd_error rest), s).
Proof.
  revert h fuel. induction l as [|x l IH]; intros h fuel Hl Hc Ht Hct Hf.
  all: destruct fuel as [|fuel]; simpl in Hf; [lia|]; cbn [ol_rx_mpdu_list_next].
  - destruct Hl as (-> & b & Hb & Hl). simplify_eq. apply nlist_head in Hl.
    mrun (htt_rx_msdu_desc_retrieve_run _ _ _ Hb). mrun (cdf_nbuf_next_run _ _ _ Hb).
    by rewrite Hct, Hl.
  - destruct Hl as (-> & b & Hb & Hl). apply Forall_cons in Hc as [(b' & Hb' & Hcb) Hc].
    simplify_eq. mrun (htt_rx_msdu_desc_retrieve_run _ _ _ Hb).
    mrun (cdf_nbuf_next_run _ _ _ Hb). rewrite Hcb. apply IH; auto with lia.
Qed.

Lemma free_mpdu_run l t rest s h fuel :
  nlist (rx_nbufs s) h (l ++ t :: rest) → NoDup (l ++ t :: rest) → (length l < fuel)%nat →
  ∃ nb, free_mpdu fuel h (Some t) s = Some (tt, set_rx_nbufs nb s) ∧
    freed (rx_nbufs s) nb (l ++ [t]).
Proof.
  revert h fuel s. induction l as [|x l IH]; intros h fuel s Hl Hnd Hf.
  all: destruct fuel as [|fuel]; simpl in Hf; [lia|]; cbn [free_mpdu].
  all: destruct Hl as (-> & b & Hb & Hl); mrun (cdf_nbuf_next_run _ _ _ Hb);
    mrun (htt_rx_desc_frame_free_run _ _ _ Hb).
  - rewrite decide_True by done. eexists. split; [done|]. intros z. simpl. case_decide as Hz.
    + apply list_elem_of_singleton in Hz as ->. by rewrite lookup_delete_eq.
    + rewrite lookup_delete_ne; [done|set_solver].
  - simpl in Hnd. apply NoDup_cons in Hnd as [Hx Hnd].
    rewrite decide_False by set_solver.
    destruct (IH (nb_next b) fuel (set_rx_nbufs (delete x (rx_nbufs s)) s))
      as (nb & Hrun & Hfr); [|done|lia|].
    { eapply nlist_frame; [|exact Hl]. intros z Hz. simpl. apply lookup_delete_ne. congruence. }
    exists nb. split; [by rewrite Hrun|]. intros z. rewrite Hfr. simpl.
    destruct (decide (z = x)) as [->|Hzx].
    + rewrite decide_False by set_solver. rewrite decide_True by by left.
      by rewrite lookup_delete_eq.
    + rewrite lookup_delete_ne by done. repeat case_decide; set_solver.
Qed.

Lemma add_mpdu_run s acc m :
  linked (rx_nbufs s) acc → linked (rx_nbufs s) m → m ≠ [] → NoDup (acc ++ m) →
  ∃ nb, ADD_MPDU_TO_LIST (hd_error acc) (last acc) (hd_error m) (last m) s =
      Some ((hd_error (acc ++ m), last (acc ++ m)), set_rx_nbufs nb s) ∧
    linked nb (acc ++ m) ∧ nb_frame (rx_nbufs s) nb acc.
Proof.
  intros Ha Hm Hne Hnd. destruct acc as [|a acc].
  - exists (rx_nbufs s). split_and!; [simpl; by destruct s|done|apply nb_frame_refl].
  - destruct (append_slot s (a :: acc) (mk_elem (hd_error m) (last m)) m)
      as (nb & Hrun & Hl & Hf & Ht); try done.
    exists nb. split_and!; [|done|done]. unfold ADD_MPDU_TO_LIST. cbn [hd_error app].
    cbn [e_tail] in Ht. rewrite Ht. by mrun Hrun.
Qed.

Lemma mpdu_ok_frame nb nb' md :
  (∀ x, x ∈ md.1 → nb' !! x = nb !! x) → mpdu_ok nb md → mpdu_ok nb' md.
Proof.
  intros Heq (l & t & bt & bh & Hm & Hl & Ht & Hc & Hh & Hd).
  exists l, t, bt, bh. split_and!; try done.
  - apply Forall_forall. intros x Hx. rewrite Forall_forall in Hl.
    rewrite Heq; [by apply Hl|]. rewrite Hm. set_solver.
  - rewrite Heq; [done|]. rewrite Hm. set_solver.
  - rewrite <- Hh. destruct md.1 as [|y m]; [done|]. simpl. apply Heq. by left.
Qed.

(** * Composing frames *)

Lemma pn_frame_refl nb acc : pn_frame nb nb acc [].
Proof. split_and!; [set_solver|done|]. intros x b _ Hb. exists (nb_next b). rewrite Hb. by destruct b. Qed.

Lemma pn_frame_accept nb nb1 nb2 acc m a r :
  nb_frame nb nb1 acc → pn_frame nb1 nb2 ((acc ++ m) ++ a) r → pn_frame nb nb2 (acc ++ m ++ a) r.
Proof.
  intros [Hf1 Hf1'] (Hr & Hs & Ha). rewrite app_assoc. split_and!; [done| |].
  - intros x Hx Hxr. rewrite Hs by done. apply Hf1. set_solver.
  - intros x b Hx Hb. destruct (Hf1' _ _ Hb) as [n Hn].
    destruct (Ha x _ Hx Hn) as [n' Hn']. by exists n'.
Qed.

Lemma pn_frame_reject nb nb1 nb2 a m r :
  freed nb nb1 m → m ## a → pn_frame nb1 nb2 a r → pn_frame nb nb2 a (m ++ r).
Proof.
  intros Hf Hd (Hr & Hs & Ha). split_and!.
  - intros x Hx. destruct (decide (x ∈ r)) as [|Hxr]; [by apply Hr|].
    assert (x ∈ m) as Hxm by set_solver. rewrite Hs; [|set_solver|done].
    rewrite Hf. by rewrite decide_True.
  - intros x Hx Hxr. rewrite Hs by set_solver. rewrite Hf, decide_False by set_solver. done.
  - intros x b Hx Hb. apply Ha; [done|]. rewrite Hf, decide_False by set_solver. done.
Qed.

Lemma pn_spec_perm replay valid lp ms a r st :
  pn_spec replay valid lp ms = (a, r, st) → concat ms.*1 ≡ₚ concat a.*1 ++ concat r.*1.
Proof.
  revert valid lp a r st. induction ms as [|[m d] ms IH]; intros valid lp a r st; simpl.
  - intros. by simplify_eq.
  - destruct (negb (rd_encrypted d)); [|destruct (valid && replay (rd_pn d) lp)];
      destruct (pn_spec _ _ _ ms) as [[a' r'] st'] eqn:E; intros H; simplify_eq;
      cbn [fmap list_fmap concat fst]; rewrite (IH _ _ _ _ _ E).
    + by rewrite app_assoc.
    + rewrite !app_assoc. f_equiv. by rewrite Permutation_app_comm.
    + by rewrite app_assoc.
Qed.

(** The MPDU at the head of the list. *)
Lemma first_mpdu_run s m d rest :
  mpdu_ok (rx_nbufs s) (m, d) → nlist (rx_nbufs s) (hd_error (m ++ rest)) (m ++ rest) →
  NoDup (m ++ rest) →
  ∃ h t, hd_error (m ++ rest) = Some h ∧ hd_error m = Some h ∧ last m = Some t ∧
    htt_rx_msdu_desc_retrieve (Some h) s = Some (d, s) ∧
    (n ← num_nbufs; ol_rx_mpdu_list_next n (Some h)) s = Some ((Some t, hd_error rest), s) ∧
    ∀ lg, ∃ nb, (n ← num_nbufs; free_mpdu n (Some h) (Some t)) (set_rx_log lg s) =
        Some (tt, set_rx_log lg (set_rx_nbufs nb s)) ∧ freed (rx_nbufs s) nb m.
Proof.
  intros (l & t & bt & bh & Hm & Hl & Ht & Hc & Hh & Hd) Hn Hnd. simpl in *.
  assert (m ++ rest = l ++ t :: rest) as Hmr by (rewrite Hm; by rewrite <- app_assoc).
  assert (length l < size (rx_nbufs s))%nat as Hsz.
  { assert (length (m ++ rest) ≤ size (rx_nbufs s))%nat.
    { apply NoDup_length_le_size; [done|]. intros x Hx. by eapply nlist_dom. }
    rewrite Hmr, length_app in *. simpl in *. lia. }
  destruct m as [|h m]; [by destruct l|]. simpl in Hh.
  rewrite Hmr in Hn, Hnd. exists h, t. split; [done|]. split; [done|].
  split; [by rewrite Hm, last_snoc|]. split_and!; [| |intros lg].
  - rewrite <- Hd. by apply htt_rx_msdu_desc_retrieve_run.
  - unfold num_nbufs. mstep. apply nlist_head in Hn as Hhd.
    eapply mpdu_list_next_run; [|done..]. rewrite <- Hmr in Hn. rewrite <- Hmr. exact Hn.
  - destruct (free_mpdu_run l t rest (set_rx_log lg s) _ (size (rx_nbufs s)) Hn Hnd Hsz)
      as (nb & Hrun & Hf).
    exists nb. unfold num_nbufs. mstep. rewrite <- Hmr in Hrun. split; [exact Hrun|].
    by rewrite Hm.
Qed.

(** * The loop *)

Section pn_loop.
Context (p : positive) (tid : Z) (mc : bool).
Context (cmp : htt_rx_pn_t → htt_rx_pn_t → bool → wlan_op_mode → bool).

Definition pn_done (s : rx_state) (nb : gmap positive nbuf) (x' : ol_txrx_peer_t)
    (r : list (list positive * rx_desc)) : rx_state :=
  set_rx_log (rx_log s ++ ((λ md, EvRxErr OL_RX_ERR_PN p tid (hd_error md.1)) <$> r))
    (set_rx_peers (<[p:=x']> (rx_peers s)) (set_rx_nbufs nb s)).

(** The loop agrees with [pn_spec] on the MPDUs [ms], from any state. *)
Definition pn_loop_ok (fuel : nat) (ms : list (list positive * rx_desc)) : Prop :=
  ∀ s x lp valid acc a r st,
  rx_peers s !! p = Some x →
  tids_last_pn x !! Z.to_nat tid = Some lp → tids_last_pn_valid x !! Z.to_nat tid = Some valid →
  rx_pn_cmp (sec_type (peer_security mc x)) = Some cmp →
  nlist (rx_nbufs s) (hd_error (concat ms.*1)) (concat ms.*1) →
  Forall (mpdu_ok (rx_nbufs s)) ms → linked (rx_nbufs s) acc → NoDup (acc ++ concat ms.*1) →
  pn_spec (λ n o, cmp n o (negb mc) (opmode x)) valid lp ms = (a, r, st) →
  ∃ nb x',
    pn_loop fuel p tid mc (hd_error (concat ms.*1)) (hd_error acc) (last acc) valid s =
      Some ((hd_error (acc ++ concat a.*1), last (acc ++ concat a.*1)), pn_done s nb x' r) ∧
    linked nb (acc ++ concat a.*1) ∧
    pn_frame (rx_nbufs s) nb (acc ++ concat a.*1) (concat r.*1) ∧ pn_peer tid x x' st.

Lemma pn_peer_trans x x1 x2 st1 st2 :
  pn_peer tid x x1 st1 → pn_peer tid x1 x2 st2 → pn_peer tid x x2 st2.
Proof using. intros (H1 & _ & _) (H2 & ? & ?). split; [|done]. rewrite H2, H1. by destruct x. Qed.

(** Going on after the MPDU [m] was accepted. *)
Lemma pn_accept_rest fuel ms s x x1 lp1 valid1 acc m nb1 a r st :
  pn_loop_ok fuel ms → pn_peer tid x x1 (valid1, lp1) →
  rx_pn_cmp (sec_type (peer_security mc x)) = Some cmp →
  nlist (rx_nbufs s) (hd_error (concat ms.*1)) (concat ms.*1) →
  Forall (mpdu_ok (rx_nbufs s)) ms → linked nb1 (acc ++ m) → nb_frame (rx_nbufs s) nb1 acc →
  NoDup ((acc ++ m) ++ concat ms.*1) →
  pn_spec (λ n o, cmp n o (negb mc) (opmode x)) valid1 lp1 ms = (a, r, st) →
  ∃ nb x',
    pn_loop fuel p tid mc (hd_error (concat ms.*1)) (hd_error (acc ++ m)) (last (acc ++ m))
      valid1 (set_rx_peers (<[p:=x1]> (rx_peers s)) (set_rx_nbufs nb1 s)) =
      Some ((hd_error (acc ++ m ++ concat a.*1), last (acc ++ m ++ concat a.*1)),
        pn_done s nb x' r) ∧
    linked nb (acc ++ m ++ concat a.*1) ∧
    pn_frame (rx_nbufs s) nb (acc ++ m ++ concat a.*1) (concat r.*1) ∧ pn_peer tid x x' st.
Proof using.
  intros Hok Hp1 Hcmp Hn Hms Hl Hf Hnd Hspec.
  pose proof Hp1 as (Hx1 & Hlp1 & Hv1).
  assert (∀ y, y ∈ concat ms.*1 → nb1 !! y = rx_nbufs s !! y) as Hsame.
  { intros y Hy. apply (proj1 Hf). intros Hya. apply NoDup_app in Hnd as (_ & Hd & _).
    apply (Hd y); set_solver. }
  destruct (Hok (set_rx_peers (<[p:=x1]> (rx_peers s)) (set_rx_nbufs nb1 s)) x1 lp1 valid1
    (acc ++ m) a r st) as (nb & x' & Hrun & Hl' & Hf' & Hp').
  - apply lookup_insert_eq.
  - done.
  - done.
  - rewrite Hx1. destruct mc; done.
  - by eapply nlist_frame.
  - apply Forall_forall. intros md Hmd. eapply mpdu_ok_frame; [|by eapply Forall_forall].
    intros y Hy. apply Hsame, elem_of_concat. exists md.1. split; [done|].
    by apply list_elem_of_fmap_2.
  - done.
  - done.
  - rewrite Hx1. exact Hspec.
  - rewrite <- app_assoc in Hrun, Hl'. exists nb, x'. split_and!; [|done| |].
    + rewrite Hrun. unfold pn_done. simpl. unfold set_rx_peers. simpl.
      by rewrite insert_insert_eq.
    + by eapply pn_frame_accept.
    + by eapply pn_peer_trans.
Qed.

(** Going on after the MPDU [m] was freed. *)
Lemma pn_reject_rest fuel ms s x lp acc m d nb1 a r st :
  pn_loop_ok fuel ms → rx_peers s !! p = Some x →
  tids_last_pn x !! Z.to_nat tid = Some lp → tids_last_pn_valid x !! Z.to_nat tid = Some true →
  rx_pn_cmp (sec_type (peer_security mc x)) = Some cmp →
  nlist (rx_nbufs s) (hd_error (concat ms.*1)) (concat ms.*1) →
  Forall (mpdu_ok (rx_nbufs s)) ms → linked (rx_nbufs s) acc → freed (rx_nbufs s) nb1 m →
  NoDup ((acc ++ m) ++ concat ms.*1) →
  pn_spec (λ n o, cmp n o (negb mc) (opmode x)) true lp ms = (a, r, st) →
  ∃ nb x',
    pn_loop fuel p tid mc (hd_error (concat ms.*1)) (hd_error acc) (last acc)
      true (set_rx_log (rx_log s ++ [EvRxErr OL_RX_ERR_PN p tid (hd_error m)]) (set_rx_nbufs nb1 s)) =
      Some ((hd_error (acc ++ concat a.*1), last (acc ++ concat a.*1)),
        pn_done s nb x' ((m, d) :: r)) ∧
    linked nb (acc ++ concat a.*1) ∧
    pn_frame (rx_nbufs s) nb (acc ++ concat a.*1) (m ++ concat r.*1) ∧ pn_peer tid x x' st.
Proof using.
  intros Hok Hx Hlp Hv Hcmp Hn Hms Hl Hf Hnd Hspec.
  pose proof (pn_spec_perm _ _ _ _ _ _ _ Hspec) as Hperm.
  apply NoDup_app in Hnd as (Hnd1 & Hd1 & Hnd2). apply NoDup_app in Hnd1 as (Hnd1 & Hd2 & _).
  destruct (Hok (set_rx_log (rx_log s ++ [EvRxErr OL_RX_ERR_PN p tid (hd_error m)]) (set_rx_nbufs nb1 s))
    x lp true acc a r st) as (nb & x' & Hrun & Hl' & Hf' & Hp'); try done.
  - eapply nlist_frame; [|exact Hn]. intros y Hy. simpl. rewrite Hf, decide_False; [done|].
    intros Hym. apply (Hd1 y); set_solver.
  - apply Forall_forall. intros md Hmd. eapply mpdu_ok_frame; [|by eapply Forall_forall].
    intros y Hy. simpl. rewrite Hf, decide_False; [done|].
    intros Hym. apply (Hd1 y); [set_solver|]. apply elem_of_concat. exists md.1.
    split; [done|]. by apply list_elem_of_fmap_2.
  - eapply linked_frame; [|exact Hl]. intros y Hy. simpl. rewrite Hf, decide_False; [done|].
    intros Hym. by apply (Hd2 y).
  - apply NoDup_app. split_and!; [done| |done]. intros y Hy. apply Hd1. set_solver.
  - exists nb, x'. split_and!; [|done| |done].
    + rewrite Hrun. unfold pn_done. simpl. by rewrite <- app_assoc.
    + eapply pn_frame_reject; [exact Hf| |exact Hf']. intros y Hy [Hya|Hya]%elem_of_app.
      * by apply (Hd2 y).
      * apply (Hd1 y); [set_solver|]. rewrite Hperm. set_solver.
Qed.

Lemma pn_peer_id x lp valid : tids_last_pn x !! Z.to_nat tid = Some lp →
  tids_last_pn_valid x !! Z.to_nat tid = Some valid → pn_peer tid x x (valid, lp).
Proof using. intros ? ?. split; [by destruct x|done]. Qed.

Lemma state_same_peer s x nb : rx_peers s !! p = Some x →
  set_rx_peers (<[p:=x]> (rx_peers s)) (set_rx_nbufs nb s) = set_rx_nbufs nb s.
Proof using. intros Hx. rewrite insert_id by done. by destruct s. Qed.

Lemma pn_loop_run ms fuel : (length ms ≤ fuel)%nat → pn_loop_ok fuel ms.
Proof using.
  revert fuel. induction ms as [|[m d] ms IH];
    intros fuel Hf s x lp valid acc a r st Hx Hlp Hv Hcmp Hn Hok Hacc Hnd Hspec.
  { simpl in Hspec. simplify_eq. exists (rx_nbufs s), x. simpl. rewrite app_nil_r.
    split; [|split; [done|split; [apply pn_frame_refl|by apply pn_peer_id]]].
    unfold pn_done. destruct fuel; simpl; rewrite app_nil_r, insert_id by done; by destruct s. }
  destruct fuel as [|fuel]; simpl in Hf; [lia|]. specialize (IH fuel ltac:(lia)).
  apply Forall_cons in Hok as [Hm Hok]. cbn [fmap list_fmap concat fst] in Hn, Hnd |- *.
  pose proof Hnd as Hnd2. apply NoDup_app in Hnd2 as (_ & _ & Hndm).
  rewrite app_assoc in Hnd. pose proof Hnd as Hnd3. apply NoDup_app in Hnd3 as (Hnda & _ & _).
  destruct (first_mpdu_run s m d _ Hm Hn Hndm)
    as (h & t & Hh & Hhm & Htm & Hdesc & Hnext & Hfree).
  destruct (nlist_app_inv _ _ _ _ Hn) as (h2 & Hn2 & Hlm).
  rewrite (nlist_head _ _ _ Hn2) in Hn2.
  destruct (add_mpdu_run s acc m Hacc Hlm) as (nb1 & Hadd & Hl1 & Hf1);
    [by destruct m|done|]. rewrite Hhm, Htm in Hadd.
  rewrite Hh. cbn [pn_loop]. mrun Hdesc. rewrite <- run_assoc. rewrite (run_bind _ _ _ _ _ Hnext).
  cbv iota. cbn [pn_spec] in Hspec. destruct (rd_encrypted d) eqn:Henc; cbn [negb] in *.
  2:{ destruct (pn_spec _ _ _ ms) as [[a' r'] st'] eqn:E. simplify_eq. mrun Hadd. cbv iota.
      rewrite <- (state_same_peer s x nb1 Hx).
      by eapply (pn_accept_rest fuel ms); eauto using pn_peer_id. }
  mrun (get_peer_run _ _ _ Hx). rewrite run_deref with (a := lp) by done.
  destruct valid; cbn [andb] in Hspec.
  - rewrite run_assoc, (run_deref _ _ _ _ Hcmp). mstep.
    destruct (cmp (rd_pn d) lp (negb mc) (opmode x)).
    + destruct (pn_spec _ _ _ ms) as [[a' r'] st'] eqn:E. simplify_eq.
      unfold emit. mstep.
      destruct (Hfree (rx_log s ++ [EvRxErr OL_RX_ERR_PN p tid (Some h)])) as (nbf & Hfr & Hfreed).
      rewrite <- run_assoc, (run_bind _ _ _ _ _ Hfr), <- Hhm.
      by eapply (pn_reject_rest fuel ms).
    + destruct (pn_spec _ _ _ ms) as [[a' r'] st'] eqn:E. simplify_eq. mrun Hadd. cbv iota.
      unfold put_last_pn. rewrite (run_bind _ _ _ _ _ (mod_peer_run (set_rx_nbufs nb1 s) p x _ Hx)).
      change (rx_peers (set_rx_nbufs nb1 s)) with (rx_peers s).
      eapply (pn_accept_rest fuel ms); eauto. split; [by destruct x|].
      split; [|done]. apply list_lookup_insert_eq. by eapply lookup_lt_Some.
  - destruct (pn_spec _ _ _ ms) as [[a' r'] st'] eqn:E. simplify_eq.
    set (xv := set_tids_last_pn_valid (<[Z.to_nat tid:=true]> (tids_last_pn_valid x)) x).
    set (s1 := set_rx_peers (<[p:=xv]> (rx_peers s)) s).
    assert (put_last_pn_valid p tid s = Some (tt, s1)) as Hpv
      by (unfold put_last_pn_valid; by rewrite (mod_peer_run s p x _ Hx)).
    mrun Hpv. mstep.
    destruct (add_mpdu_run s1 acc m Hacc Hlm) as (nb2 & Hadd2 & Hl2 & Hf2);
      [by destruct m|done|]. rewrite Hhm, Htm in Hadd2. mrun Hadd2. cbv iota.
    unfold put_last_pn. rewrite (run_bind _ _ _ _ _ (mod_peer_run (set_rx_nbufs nb2 s1) p xv _
      (lookup_insert_eq _ _ _))).
    replace (set_rx_peers _ (set_rx_nbufs nb2 s1)) with
      (set_rx_peers (<[p:=set_tids_last_pn (<[Z.to_nat tid:=rd_pn d]> (tids_last_pn xv)) xv]>
        (rx_peers s)) (set_rx_nbufs nb2 s)) by (unfold set_rx_peers; simpl; by rewrite insert_insert_eq).
    eapply (pn_accept_rest fuel ms); eauto. split; [by destruct x|].
    split; apply list_lookup_insert_eq; by eapply lookup_lt_Some.
Qed.
End pn_loop.

(** * The check *)

Lemma rx_pn_cmp_len t cmp : rx_pn_cmp t = Some cmp → rx_pn_len t ≠ 0.
Proof. by destruct t. Qed.

Lemma mpdus_length_le_size s (ms : list (list positive * rx_desc)) :
  Forall (mpdu_ok (rx_nbufs s)) ms → NoDup (concat ms.*1) →
  nlist (rx_nbufs s) (hd_error (concat ms.*1)) (concat ms.*1) →
  (length ms ≤ size (rx_nbufs s))%nat.
Proof.
  intros Hok Hnd Hn. transitivity (length (concat ms.*1)).
  - clear Hnd Hn. induction Hok as [|md ms (l & t & bt & bh & Hm & _) _ IH];
      cbn [fmap list_fmap concat length]; [lia|].
    rewrite length_app, Hm, length_app. cbn [length]. etrans; [apply le_n_S, IH|]. unfold fmap. lia.
  - apply NoDup_length_le_size; [done|]. intros x Hx. by eapply nlist_dom.
Qed.

(** C28. The packet-number check filters the list of frames.  For a peer whose
    firmware does not check and whose cipher has packet numbers, the check
    returns the NULL-terminated list of exactly the MSDUs of the MPDUs that
    [pn_spec] accepts, in order; it frees each MSDU of a rejected MPDU once,
    reports each rejected MPDU, touches no other buffer, and records the last
    accepted packet number.  It terminates and never follows a dangling
    pointer, though freed and relinked buffers are interleaved. *)
Theorem ol_rx_pn_check_base_filters s p tid x cmp lp valid h d0 bh ms a r st :
  rx_peers s !! p = Some x → fw_pn_check x = 0 → opmode x ≠ wlan_op_mode_ibss →
  nlist (rx_nbufs s) (Some h) (concat ms.*1) → NoDup (concat ms.*1) →
  Forall (mpdu_ok (rx_nbufs s)) ms → rx_nbufs s !! h = Some bh → nb_desc bh = d0 →
  rx_pn_cmp (sec_type (peer_security (rd_mcast d0) x)) = Some cmp →
  tids_last_pn x !! Z.to_nat tid = Some lp → tids_last_pn_valid x !! Z.to_nat tid = Some valid →
  pn_spec (λ n o, cmp n o (negb (rd_mcast d0)) (opmode x)) valid lp ms = (a, r, st) →
  ∃ nb x',
    ol_rx_pn_check_base p tid (Some h) s =
      Some (hd_error (concat a.*1), pn_done p tid s nb x' r) ∧
    nlist nb (hd_error (concat a.*1)) (concat a.*1) ∧
    pn_frame (rx_nbufs s) nb (concat a.*1) (concat r.*1) ∧ pn_peer tid x x' st.
Proof.
  intros Hx Hfw Hop Hn Hnd Hok Hbh Hd0 Hcmp Hlp Hv Hspec.
  unfold ol_rx_pn_check_base. mrun (get_peer_run _ _ _ Hx). rewrite Hfw.
  rewrite bool_decide_eq_false_2 by done. cbn [Z.eqb negb orb].
  mrun (htt_rx_msdu_desc_retrieve_run _ _ _ Hbh). rewrite Hd0.
  destruct (Z.eqb_spec (rx_pn_len (sec_type (peer_security (rd_mcast d0) x))) 0) as [E|_].
  { by apply rx_pn_cmp_len in Hcmp. }
  rewrite run_deref with (a := valid) by done. unfold num_nbufs. mstep.
  pose proof (nlist_head _ _ _ Hn) as Hh. rewrite Hh in Hn.
  destruct (pn_loop_run p tid (rd_mcast d0) cmp ms (size (rx_nbufs s))
    (mpdus_length_le_size s ms Hok Hnd Hn) s x lp valid [] a r st)
    as (nb & x' & Hrun & Hl & Hf & Hp); try done.
  rewrite Hh. cbn [hd_error last app] in Hrun, Hl, Hf. mrun Hrun. cbv iota.
  pose proof (pn_spec_perm _ _ _ _ _ _ _ Hspec) as Hperm.
  rewrite Hperm in Hnd. apply NoDup_app in Hnd as (Hnda & Hdis & _).
  destruct (decide (concat a.*1 = [])) as [He|Hne].
  - rewrite He in *. simpl. exists nb, x'. done.
  - destruct (terminate_run (pn_done p tid s nb x' r) (concat a.*1)) as (nb2 & Ht & Hnl & Hf2);
      [done..|]. destruct (last_split _ Hne) as (l & t & Ha & Hlast). rewrite Hlast in *.
    mrun Ht. exists nb2, x'. split_and!; [done|done| |by apply Hp..].
    destruct Hf as (Hf1 & Hf2' & Hf3). destruct Hf2 as (Hg1 & Hg2). simpl in Hg1, Hg2. split_and!.
    + intros y Hy. rewrite Hg1; [by apply Hf1|]. intros Hya. by apply (Hdis y).
    + intros y Hy Hyr. rewrite Hg1 by done. by apply Hf2'.
    + intros y b Hy Hb. destruct (Hf3 y b Hy Hb) as [n Hn'].
      destruct (Hg2 _ _ Hn') as [n' ->]. by exists n'.
Qed.

(** * What the comparisons mean *)

Definition pn48_value (d : rx_desc) : Z := Z.land (pn48 (rd_pn d)) 0xffffffffffff.

(** With a 48-bit cipher no packet number is accepted twice, and none is
    accepted after a larger one: the packet numbers of the encrypted frames
    that pass are strictly increasing, all greater than the one recorded
    before when there was one, and the last of them is recorded. *)
Theorem ol_rx_pn_cmp48_increasing is_unicast op valid lp ms a r st :
  pn_spec (λ n o, ol_rx_pn_cmp48 n o is_unicast op) valid lp ms = (a, r, st) →
  let pns := pn48_value <$> filter (λ d, rd_encrypted d = true) a.*2 in
  StronglySorted Z.lt pns ∧
  (valid = true → Forall (λ v, Z.land (pn48 lp) 0xffffffffffff < v) pns) ∧
  Z.land (pn48 st.2) 0xffffffffffff = default (Z.land (pn48 lp) 0xffffffffffff) (last pns).
Proof.
  revert valid lp a r st. induction ms as [|[m d] ms IH]; intros valid lp a r st; simpl.
  { intros. simplify_eq. simpl. split_and!; try done; constructor. }
  destruct (rd_encrypted d) eqn:He; simpl.
  - destruct (valid && ol_rx_pn_cmp48 (rd_pn d) lp is_unicast op) eqn:Hr;
      destruct (pn_spec _ _ _ ms) as [[a' r'] st'] eqn:E; intros; simplify_eq;
      destruct (IH _ _ _ _ _ E) as (Hs & Hgt & Hlast).
    + split_and!; [done|intros; by apply Hgt|done].
    + cbn [fmap list_fmap snd]. rewrite filter_cons_True by done. cbn [fmap list_fmap].
      specialize (Hgt eq_refl). change (Z.land (pn48 (rd_pn d)) 281474976710655)
        with (pn48_value d) in Hgt, Hlast. split_and!.
      * by constructor.
      * intros ->. simpl in Hr. unfold ol_rx_pn_cmp48 in Hr. apply Z.leb_gt in Hr.
        constructor; [done|]. eapply Forall_impl; [exact Hgt|]. intros v Hv.
        change (Z.land (pn48 (rd_pn d)) 281474976710655) with (pn48_value d) in Hr. simpl in *. lia.
      * rewrite Hlast, last_cons. by destruct (last (pn48_value <$> _)).
  - destruct (pn_spec _ _ _ ms) as [[a' r'] st'] eqn:E. intros. simplify_eq.
    destruct (IH _ _ _ _ _ E) as (Hs & Hgt & Hlast). cbn [fmap list_fmap snd].
    rewrite filter_cons_False by congruence. done.
Qed.

Definition pn128_value (pn : htt_rx_pn_t) : Z := pn128_1 pn * 2 ^ 64 + pn128_0 pn.

(** The WAPI comparison accepts a packet number exactly when it is greater
    than the last one as a 128-bit number and, for unicast frames, has the
    parity of its sender: an access point accepts even numbers, a station
    odd ones. *)
Theorem ol_rx_pn_wapi_cmp_spec new old is_unicast op :
  0 ≤ pn128_0 new < 2 ^ 64 → 0 ≤ pn128_0 old < 2 ^ 64 →
  ol_rx_pn_wapi_cmp new old is_unicast op = false ↔
  pn128_value old < pn128_value new ∧
  (is_unicast = true → Z.odd (pn128_value new) = negb (bool_decide (op = wlan_op_mode_ap))).
Proof.
  intros Hn Ho. unfold ol_rx_pn_wapi_cmp, pn128_value.
  assert (Z.land (pn128_0 new) 1 = if Z.odd (pn128_0 new) then 1 else 0) as Hl.
  { change 1 with (2 ^ 1 - 1). rewrite land_mask by lia. change (2 ^ 1) with 2.
    rewrite Zmod_odd. done. }
  assert (Z.odd (pn128_1 new * 2 ^ 64 + pn128_0 new) = Z.odd (pn128_0 new)) as Hodd.
  { rewrite Z.odd_add, Z.odd_mul. change (Z.odd (2 ^ 64)) with false.
    by rewrite andb_false_r, xorb_false_l. }
  rewrite Hodd, Hl.
  assert ((if pn128_1 new =? pn128_1 old then pn128_0 new <=? pn128_0 old
    else pn128_1 new <? pn128_1 old) = false ↔
    pn128_1 old * 2 ^ 64 + pn128_0 old < pn128_1 new * 2 ^ 64 + pn128_0 new) as Hcmp.
  { destruct (Z.eqb_spec (pn128_1 new) (pn128_1 old)) as [->|].
    - rewrite Z.leb_gt. lia.
    - rewrite Z.ltb_ge. split; nia. }
  destruct is_unicast; [|rewrite Hcmp; naive_solver].
  rewrite <- Hcmp. destruct (decide (op = wlan_op_mode_ap)) as [->|Hop].
  - rewrite bool_decide_eq_true_2 by done. rewrite orb_false_iff.
    destruct (Z.odd (pn128_0 new)); simpl; naive_solver.
  - rewrite bool_decide_eq_false_2 by done. rewrite orb_false_iff.
    destruct (Z.odd (pn128_0 new)); simpl; naive_solver.
Qed.
