(* ===== verification/RxDefrag.v ===== *)
(** Receive fragments: [core/dp/txrx/ol_rx_defrag.c] up to the decryption.

    The fragments of one MPDU wait in slot 0 of the TID's window until the
    last one arrives or a timeout flushes them.  [ol_rx_defrag], which merges
    a complete list, is an argument here (the peer, the TID and the first
    fragment) and is defined in RxDecap.  The low-latency build is modelled, where
    [ol_rx_frag_clone] returns NULL, so a fragment is stored itself. *)
From S2P Require Import Prelude Tailq RxTypes RxTimers RxReorder RxWindow.
From S2P Require Import RxReorderProofs RxFlush RxSession RxPn.

Definition IEEE80211_SEQ_FRAG_MASK : Z := 0x000f.
Definition IEEE80211_SEQ_SEQ_SHIFT : Z := 4.

Definition frag_no (h : frag_hdr) : Z := Z.land (i_seq h) IEEE80211_SEQ_FRAG_MASK.
Definition frag_seq (h : frag_hdr) : Z := Z.shiftr (i_seq h) IEEE80211_SEQ_SEQ_SHIFT.

(** [(cdf_mem_compare(a1, a2, IEEE80211_ADDR_LEN) == 0)] *)
Definition DEFRAG_IEEE80211_ADDR_EQ (a1 a2 : list Z) : bool := negb (cdf_mem_compare a1 a2).

Definition ol_rx_frag_get_mac_hdr (b : option positive) : CM rx_state frag_hdr :=
  x ← get_nbuf b; deref (nb_hdr x).

(** The [do .. while (fragno > cur_fragno)] loop: the fragment it stopped at,
    the one after it, and the number of the former. *)
Fixpoint find_frag (fuel : nat) (fragno : Z) (cur : option positive) :
    CM rx_state (option positive * option positive * Z) :=
  match fuel with
  | O => ub
  | S fuel =>
      cmac_hdr ← ol_rx_frag_get_mac_hdr cur;
      let cur_fragno := frag_no cmac_hdr in
      next ← cdf_nbuf_next cur;
      if fragno >? cur_fragno then find_frag fuel fragno next
      else mret (cur, next, cur_fragno)
  end.

(** The [do .. while (next)] loop: it returns [next], NULL when the numbers
    have no gap. *)
Fixpoint count_frags (fuel : nat) (next : option positive) (count : Z) :
    CM rx_state (option positive) :=
  match fuel with
  | O => ub
  | S fuel =>
      next_hdr ← ol_rx_frag_get_mac_hdr next;
      let count := u8 (count + 1) in
      if negb (frag_no next_hdr =? count) then mret next
      else
        next ← cdf_nbuf_next next;
        match next with
        | None => mret None
        | Some _ => count_frags fuel next count
        end
  end.

(** The part of [ol_rx_fraglist_insert] after the insertion. *)
Definition fraglist_complete (head tail : option positive) : CM rx_state bool :=
  next ← cdf_nbuf_next head;
  lmac_hdr ← ol_rx_frag_get_mac_hdr tail;
  if i_more_frag lmac_hdr then mret false
  else
    n ← num_nbufs;
    next ← count_frags n next 0;
    match next with
    | None => mret true
    | Some _ => mret false
    end.

(** It returns the new head and tail and [all_frag_present], whose value on
    entry is [all]. *)
Definition ol_rx_fraglist_insert (head tail frag : option positive) (all : bool) :
    CM rx_state (option positive * option positive * bool) :=
  mac_hdr ← ol_rx_frag_get_mac_hdr frag;
  let fragno := frag_no mac_hdr in
  match head with
  | None =>
      cdf_nbuf_set_next frag None;;
      mret (frag, frag, all)
  | Some _ =>
      lmac_hdr ← ol_rx_frag_get_mac_hdr tail;
      let lfragno := frag_no lmac_hdr in
      if fragno >? lfragno then
        cdf_nbuf_set_next tail frag;;
        cdf_nbuf_set_next frag None;;
        all ← fraglist_complete head frag;
        mret (head, frag, all)
      else
        n ← num_nbufs;
        '(prev, cur, cur_fragno) ← find_frag n fragno head;
        if fragno =? cur_fragno then
          htt_rx_desc_frame_free frag;;
          mret (head, tail, false)
        else
          cdf_nbuf_set_next prev frag;;
          cdf_nbuf_set_next frag cur;;
          all ← fraglist_complete head tail;
          mret (head, tail, all)
  end.

Section defrag.
Context (env : rx_env).
Context (ol_rx_defrag : positive → Z → option positive → CM rx_state unit).

Definition ol_rx_reorder_store_frag (p : positive) (tid seq_num : Z)
    (frag : option positive) : CM rx_state unit :=
  r ← get_reorder p tid;
  let seq := Z.land seq_num (win_sz_mask r) in
  e ← read_elem p tid seq;
  mac_hdr ← ol_rx_frag_get_mac_hdr frag;
  let rxseq := frag_seq mac_hdr in
  let fragno := frag_no mac_hdr in
  if negb (i_more_frag mac_hdr) && (fragno =? 0) && bool_decide (e_head e = None) then
    write_elem p tid seq (mk_elem frag frag);;
    cdf_nbuf_set_next frag None;;
    ol_rx_defrag p tid frag;;
    write_elem p tid seq elem_null
  else
    match e_head e with
    | Some _ =>
        fmac_hdr ← ol_rx_frag_get_mac_hdr (e_head e);
        when (negb (rxseq =? frag_seq fmac_hdr) ||
              negb (DEFRAG_IEEE80211_ADDR_EQ (i_addr1 mac_hdr) (i_addr1 fmac_hdr)) ||
              negb (DEFRAG_IEEE80211_ADDR_EQ (i_addr2 mac_hdr) (i_addr2 fmac_hdr)))
          (ol_rx_frames_free (e_head e);;
           write_elem p tid seq elem_null)
    | None => mret tt
    end;;
    e ← read_elem p tid seq;
    '(head, tail, all_frag_present) ← ol_rx_fraglist_insert (e_head e) (e_tail e) frag false;
    write_elem p tid seq (mk_elem head tail);;
    when (defrag_timeout_check env) (ol_rx_defrag_waitlist_remove p tid);;
    if (all_frag_present : bool) then
      ol_rx_defrag p tid head;;
      write_elem p tid seq elem_null;;
      mod_reorder p tid (set_defrag_timeout_ms 0);;
      put_last_seq p tid seq_num
    else
      when (defrag_timeout_check env)
        (now ← gets now_ms;
         mod_reorder p tid (set_defrag_timeout_ms (u32 (now + defrag_wait_ms env)));;
         ol_rx_defrag_waitlist_add p tid).

(** [flush]: the first sequence number of the message's flush range, when it
    carries one; [seq_num] and [head_msdu] are what HTT reads from it. *)
Definition ol_rx_frag_indication_handler (full_reorder_offload : bool) (flush : option Z)
    (seq_num : Z) (head_msdu : option positive) (peer_id tid : Z) : CM rx_state unit :=
  o ← ol_txrx_peer_find_by_id env peer_id;
  match o with
  | Some p =>
      match flush with
      | Some seq_num_start =>
          when (negb full_reorder_offload) (ol_rx_reorder_flush_frag p tid seq_num_start)
      | None => mret tt
      end;;
      ol_rx_reorder_store_frag p tid (u16 seq_num) head_msdu
  | None => htt_rx_desc_frame_free head_msdu
  end.

(** [TAILQ_FOREACH_SAFE] over the waiting list. *)
Fixpoint waitlist_flush_loop (fuel : nat) (now : Z) (rx_reorder : option (positive * Z)) :
    CM rx_state unit :=
  match rx_reorder, fuel with
  | None, _ => mret tt
  | Some _, O => ub
  | Some (p, tid), S fuel =>
      tmp ← on_waitlist (TAILQ_NEXT (p, tid));
      r ← get_reorder p tid;
      if defrag_timeout_ms r >? now then mret tt
      else
        ol_rx_defrag_waitlist_remove p tid;;
        ol_rx_reorder_flush_frag p tid 0;;
        waitlist_flush_loop fuel now tmp
  end.

Definition ol_rx_defrag_waitlist_flush : CM rx_state unit :=
  now ← gets now_ms;
  q ← gets rx_waitlist;
  waitlist_flush_loop (S (size (entries q))) now (TAILQ_FIRST q).
End defrag.

(** * Lists of fragments *)

(** The buffers [l] hold fragments with the headers [hs]. *)
Definition has_hdrs (nb : gmap positive nbuf) (l : list positive) (hs : list frag_hdr) : Prop :=
  Forall2 (λ x h, ∃ b, nb !! x = Some b ∧ nb_hdr b = Some h) l hs.

Section frags.
Implicit Types (s : rx_state) (nb : gmap positive nbuf).

Lemma has_hdrs_frame nb nb' l0 l hs : nb_frame nb nb' l0 → has_hdrs nb l hs → has_hdrs nb' l hs.
Proof.
  intros [_ Hf] Hh. eapply Forall2_impl; [exact Hh|]. intros x h (b & Hb & <-).
  destruct (Hf _ _ Hb) as [n ->]. by eexists.
Qed.

Lemma get_hdr_run s x h : (∃ b, rx_nbufs s !! x = Some b ∧ nb_hdr b = Some h) →
  ol_rx_frag_get_mac_hdr (Some x) s = Some (h, s).
Proof.
  intros (b & Hb & Hh). unfold ol_rx_frag_get_mac_hdr. mrun (get_nbuf_run _ _ _ Hb).
  unfold deref. by rewrite Hh.
Qed.

Lemma find_frag_run fuel fragno h l1 x l2 s hs1 hx :
  nlist (rx_nbufs s) h (l1 ++ x :: l2) → has_hdrs (rx_nbufs s) l1 hs1 →
  (∃ b, rx_nbufs s !! x = Some b ∧ nb_hdr b = Some hx) →
  Forall (λ h, frag_no h < fragno) hs1 → fragno ≤ frag_no hx → (length l1 < fuel)%nat →
  find_frag fuel fragno h s = Some ((Some x, hd_error l2, frag_no hx), s).
Proof.
  revert fuel h hs1. induction l1 as [|y l1 IH]; intros fuel h hs1 Hl Hh Hx Hlt Hle Hf.
  all: destruct fuel as [|fuel]; simpl in Hf; [lia|]; cbn [find_frag].
  all: destruct Hl as (-> & b & Hb & Hl).
  - mrun (get_hdr_run _ _ _ Hx). mrun (cdf_nbuf_next_run _ _ _ Hb).
    rewrite Z.gtb_ltb. destruct (Z.ltb_spec (frag_no hx) fragno); [lia|].
    by rewrite (nlist_head _ _ _ Hl).
  - apply Forall2_cons_inv_l in Hh as (hy & hs1' & Hy & Hh & ->).
    apply Forall_cons in Hlt as [Hly Hlt].
    mrun (get_hdr_run _ _ _ Hy). mrun (cdf_nbuf_next_run _ _ _ Hb).
    rewrite Z.gtb_ltb. destruct (Z.ltb_spec (frag_no hy) fragno); [|lia].
    by eapply IH; eauto with lia.
Qed.

Lemma count_frags_run fuel l h s hs count :
  nlist (rx_nbufs s) h l → l ≠ [] → has_hdrs (rx_nbufs s) l hs → (length l ≤ fuel)%nat →
  0 ≤ count → count + Z.of_nat (length l) < 256 →
  ∃ o, count_frags fuel h count s = Some (o, s) ∧
    (o = None ↔ frag_no <$> hs = seqZ (count + 1) (Z.of_nat (length l))).
Proof.
  revert fuel h hs count. induction l as [|x l IH]; intros fuel h hs count Hl Hne Hh Hf Hc Hlen;
    [done|].
  destruct fuel as [|fuel]; simpl in Hf; [lia|]. cbn [count_frags length] in *.
  destruct Hl as (-> & b & Hb & Hl).
  apply Forall2_cons_inv_l in Hh as (hx & hs' & Hx & Hh & ->).
  pose proof (Forall2_length _ _ _ Hh) as Hlh.
  mrun (get_hdr_run _ _ _ Hx). rewrite (wrap_small 8) by lia. cbn [fmap list_fmap].
  rewrite (seqZ_cons (count + 1)) by lia.
  replace (Z.succ (count + 1)) with (count + 1 + 1) by lia.
  replace (Z.pred (Z.of_nat (S (length l)))) with (Z.of_nat (length l)) by lia.
  destruct (Z.eqb_spec (frag_no hx) (count + 1)) as [He|He]; cbn [negb].
  2:{ eexists. split; [done|]. split; [done|]. intros [= ? _]. done. }
  mrun (cdf_nbuf_next_run _ _ _ Hb). pose proof (nlist_head _ _ _ Hl) as Hn. rewrite Hn in *.
  destruct l as [|y l]; cbn [hd_error].
  - eexists. split; [done|]. split; [|done]. intros _. rewrite He. destruct hs'; [done|].
    simpl in Hlh. lia.
  - destruct (IH fuel (Some y) hs' (count + 1)) as (o & Hrun & Ho); try done; [simpl in *; lia..|].
    exists o. split; [exact Hrun|]. rewrite Ho, He. split; [by intros ->|by intros [= ->]].
Qed.

(** All fragments are present when the last one says so and the numbers
    after the first count up from 1. *)
Lemma fraglist_complete_run s h l hs t ht :
  nlist (rx_nbufs s) (Some h) (h :: l) → has_hdrs (rx_nbufs s) l hs → l ≠ [] →
  (∃ b, rx_nbufs s !! t = Some b ∧ nb_hdr b = Some ht) → NoDup (h :: l) → (length l < 256)%nat →
  ∃ all, fraglist_complete (Some h) (Some t) s = Some (all, s) ∧
    (all = true ↔ i_more_frag ht = false ∧ frag_no <$> hs = seqZ 1 (Z.of_nat (length l))).
Proof.
  intros (_ & b & Hb & Hl) Hh Hne Ht Hnd Hlen. unfold fraglist_complete.
  mrun (cdf_nbuf_next_run _ _ _ Hb). mrun (get_hdr_run _ _ _ Ht).
  destruct (i_more_frag ht).
  { eexists. split; [done|]. split; [done|]. by intros []. }
  unfold num_nbufs. mstep. apply NoDup_cons in Hnd as [_ Hnd].
  destruct (count_frags_run (size (rx_nbufs s)) l (nb_next b) s hs 0) as (o & Hrun & Ho); try done.
  { apply NoDup_length_le_size; [done|]. intros x Hx. by eapply nlist_dom. }
  { lia. }
  mrun Hrun. destruct o; eexists; (split; [done|]); naive_solver.
Qed.
End frags.

Lemma has_hdrs_last nb l hs t ht : has_hdrs nb l hs → last l = Some t → last hs = Some ht →
  ∃ b, nb !! t = Some b ∧ nb_hdr b = Some ht.
Proof.
  intros Hh Ht Hht. apply last_Some in Ht as [l0 ->].
  apply Forall2_app_inv_l in Hh as (hs0 & hs1 & _ & H1 & ->).
  apply Forall2_cons_inv_l in H1 as (h' & hs2 & Hb & Hn & ->).
  apply Forall2_nil_inv_l in Hn as ->. rewrite last_snoc in Hht. by simplify_eq.
Qed.

Lemma find_frag_search s h l1 x l2 hs1 hx fragno :
  nlist (rx_nbufs s) (Some h) (l1 ++ x :: l2) → has_hdrs (rx_nbufs s) l1 hs1 →
  (∃ b, rx_nbufs s !! x = Some b ∧ nb_hdr b = Some hx) →
  Forall (λ h, frag_no h < fragno) hs1 → fragno ≤ frag_no hx → NoDup (l1 ++ x :: l2) →
  find_frag (size (rx_nbufs s)) fragno (Some h) s = Some ((Some x, hd_error l2, frag_no hx), s).
Proof.
  intros Hl Hh Hx Hlt Hle Hnd. eapply find_frag_run; try done.
  assert (length (l1 ++ x :: l2) ≤ size (rx_nbufs s))%nat as Hsz.
  { apply NoDup_length_le_size; [done|]. intros y Hy. by eapply nlist_dom. }
  rewrite length_app in Hsz. simpl in Hsz. lia.
Qed.

(** The completeness check only reads. *)
Lemma count_frags_frame fuel next count s o s' :
  count_frags fuel next count s = Some (o, s') → s' = s.
Proof.
  revert next count. induction fuel as [|fuel IH]; intros next count; [done|].
  cbn [count_frags]. unfold ol_rx_frag_get_mac_hdr, cdf_nbuf_next, get_nbuf. intros H. minv.
  case_match; [by minv|]. minv. case_match; [by eapply IH|]. by minv.
Qed.

Lemma fraglist_complete_frame head tail s all s' :
  fraglist_complete head tail s = Some (all, s') → s' = s.
Proof.
  unfold fraglist_complete, ol_rx_frag_get_mac_hdr, cdf_nbuf_next, get_nbuf, num_nbufs.
  intros H. minv. case_match; [by minv|]. minv.
  match goal with Hc : count_frags _ _ _ _ = _ |- _ => apply count_frags_frame in Hc end.
  case_match; by minv.
Qed.

(** A fragment that arrives in order, its number greater than the last
    one's, is appended: the list is NULL-terminated and ends in the new
    fragment, no other buffer changes, and the MPDU is reported complete
    exactly when the new fragment is marked as the last and the numbers
    after the first fragment's are 1, 2, 3, ... *)
Theorem ol_rx_fraglist_insert_in_order s h l hs hh hl f hf all :
  nlist (rx_nbufs s) (Some h) (h :: l) → has_hdrs (rx_nbufs s) (h :: l) (hh :: hs) →
  (∃ b, rx_nbufs s !! f = Some b ∧ nb_hdr b = Some hf) → NoDup (h :: l ++ [f]) →
  (length l < 255)%nat → last (hh :: hs) = Some hl → frag_no hl < frag_no hf →
  ∃ nb all', ol_rx_fraglist_insert (Some h) (last (h :: l)) (Some f) all s =
      Some ((Some h, Some f, all'), set_rx_nbufs nb s) ∧
    nlist nb (Some h) (h :: l ++ [f]) ∧ nb_frame (rx_nbufs s) nb (h :: l ++ [f]) ∧
    (all' = true ↔ i_more_frag hf = false ∧
      frag_no <$> (hs ++ [hf]) = seqZ 1 (Z.of_nat (length l) + 1)).
Proof.
  intros Hl Hh Hf Hnd Hlen Hhl Hlt. destruct Hf as (bf & Hbf & Hhf).
  destruct (last_split (h :: l)) as (l0 & t & Hl0 & Ht); [done|].
  pose proof (has_hdrs_last _ _ _ _ _ Hh Ht Hhl) as Hbt.
  rewrite Ht. unfold ol_rx_fraglist_insert.
  assert (∃ b, rx_nbufs s !! f = Some b ∧ nb_hdr b = Some hf) as Hf by eauto.
  mrun (get_hdr_run _ _ _ Hf). mrun (get_hdr_run _ _ _ Hbt).
  rewrite Z.gtb_ltb. destruct (Z.ltb_spec (frag_no hl) (frag_no hf)); [|lia].
  assert (f ∉ h :: l) as Hfl.
  { rewrite app_comm_cons in Hnd. apply NoDup_app in Hnd as (_ & Hd & _). intros Hin.
    apply (Hd f Hin). by left. }
  destruct (append_slot s (h :: l) (mk_elem (Some f) (Some f)) [f]) as (nb1 & Hrun1 & Hl1 & Hf1 & _).
  { done. } { done. } { by eapply nlist_linked. } { split; [done|]. split; [done|]. by eexists. }
  { done. }
  rewrite Ht in Hrun1. mrun Hrun1.
  assert (nb1 !! f = Some bf) as Hbf1 by (rewrite <- Hbf; by apply (proj1 Hf1)).
  mrun (cdf_nbuf_set_next_run (set_rx_nbufs nb1 s) f bf None Hbf1). simpl.
  set (nb2 := <[f:=set_nb_next None bf]> nb1). rewrite set_nbufs_nbufs.
  assert (nlist nb2 (Some h) (h :: l ++ [f])) as Hnl by by apply (nlist_terminate nb1 (h :: l) f bf).
  assert (nb_frame (rx_nbufs s) nb2 (h :: l ++ [f])) as Hfr.
  { eapply nb_frame_trans; [exact Hf1|apply (nb_frame_set_next _ _ _ _ Hbf1)|..];
      intros y Hy; apply (elem_of_app (h :: l)); auto. }
  assert (has_hdrs nb2 (l ++ [f]) (hs ++ [hf])) as Hh2.
  { eapply has_hdrs_frame; [exact Hfr|]. apply Forall2_app; [|repeat constructor; eauto].
    by apply Forall2_cons in Hh as []. }
  destruct (fraglist_complete_run (set_rx_nbufs nb2 s) h (l ++ [f]) (hs ++ [hf]) f hf)
    as (all' & Hrun & Hall); try done.
  { by destruct l. }
  { exists (set_nb_next None bf). simpl. unfold nb2. by rewrite lookup_insert_eq. }
  { rewrite length_app. simpl. lia. }
  mrun Hrun. exists nb2, all'. split; [done|]. split; [exact Hnl|]. split; [exact Hfr|].
  rewrite length_app in Hall. simpl in Hall. by rewrite Nat2Z.inj_add in Hall.
Qed.

(** A duplicate fragment, whose number a stored one already has, is freed,
    and the list stays as it was. *)
Theorem ol_rx_fraglist_insert_duplicate s h l1 x l2 hs1 hx t ht f hf all :
  nlist (rx_nbufs s) (Some h) (l1 ++ x :: l2) → has_hdrs (rx_nbufs s) l1 hs1 →
  (∃ b, rx_nbufs s !! x = Some b ∧ nb_hdr b = Some hx) →
  (∃ b, rx_nbufs s !! t = Some b ∧ nb_hdr b = Some ht) →
  (∃ b, rx_nbufs s !! f = Some b ∧ nb_hdr b = Some hf) → NoDup (l1 ++ x :: l2) →
  frag_no hf ≤ frag_no ht → Forall (λ h, frag_no h < frag_no hf) hs1 → frag_no hf = frag_no hx →
  f ∉ l1 ++ x :: l2 →
  ∃ nb, ol_rx_fraglist_insert (Some h) (Some t) (Some f) all s =
      Some ((Some h, Some t, false), set_rx_nbufs nb s) ∧
    freed (rx_nbufs s) nb [f] ∧ nlist nb (Some h) (l1 ++ x :: l2).
Proof.
  intros Hl Hh Hx Ht Hf Hnd Hle Hlt He Hfl.
  unfold ol_rx_fraglist_insert. mrun (get_hdr_run _ _ _ Hf). mrun (get_hdr_run _ _ _ Ht).
  rewrite Z.gtb_ltb. destruct (Z.ltb_spec (frag_no ht) (frag_no hf)); [lia|].
  unfold num_nbufs. mstep. rewrite (run_bind _ _ _ _ _ (find_frag_search _ _ _ _ _ _ _ _ Hl Hh Hx
    Hlt ltac:(lia) Hnd)). cbv iota. rewrite He, Z.eqb_refl.
  destruct Hf as (bf & Hbf & _). mrun (htt_rx_desc_frame_free_run _ _ _ Hbf).
  eexists. split; [done|]. split.
  - intros y. case_decide as Hy.
    + apply list_elem_of_singleton in Hy as ->. by rewrite lookup_delete_eq.
    + apply lookup_delete_ne. set_solver.
  - eapply nlist_frame; [|exact Hl]. intros y Hy. apply lookup_delete_ne. congruence.
Qed.

(** Linking [f] after [x], and [f] to what followed [x]. *)
Lemma nlist_link_after nb l1 x f l2 bx bf o :
  nlist nb o (l1 ++ x :: l2) → nb !! x = Some bx → NoDup (l1 ++ x :: l2) → f ∉ l1 ++ x :: l2 →
  nlist (<[f:=set_nb_next (hd_error l2) bf]> (<[x:=set_nb_next (Some f) bx]> nb)) o (l1 ++ x :: f :: l2).
Proof.
  intros Hl Hbx Hnd Hfl. assert (f ≠ x) as Hfx by set_solver. set (nb' := <[f:=_]> _).
  assert (∀ y, y ≠ x → y ≠ f → nb' !! y = nb !! y) as Hsame.
  { intros y Hyx Hyf. unfold nb'. by rewrite !lookup_insert_ne. }
  assert (nb' !! x = Some (set_nb_next (Some f) bx)) as Hnx
    by (unfold nb'; by rewrite lookup_insert_ne, lookup_insert_eq).
  assert (nb' !! f = Some (set_nb_next (hd_error l2) bf)) as Hnf
    by (unfold nb'; by rewrite lookup_insert_eq).
  clearbody nb'. revert o Hl Hnd Hfl. clear -Hsame Hnx Hnf Hbx.
  induction l1 as [|y l1 IH]; intros o; cbn [app nlist].
  - intros (-> & b & Hb & Hl) Hnd Hfl. split; [done|]. eexists. split; [exact Hnx|].
    split; [done|]. eexists. split; [exact Hnf|]. simpl.
    pose proof (nlist_head _ _ _ Hl) as Hhd. rewrite <- Hhd.
    apply NoDup_cons in Hnd as [Hxl _].
    eapply nlist_frame; [|exact Hl]. intros z Hz. apply Hsame; [congruence|set_solver].
  - intros (-> & b & Hb & Hl) Hnd Hfl. apply NoDup_cons in Hnd as [Hy Hnd].
    split; [done|]. exists b. rewrite Hsame by set_solver. split; [done|].
    apply IH; [done|done|set_solver].
Qed.

(** C36. A fragment that arrives out of order is misplaced.  The search stops at
    the first stored fragment [x] with a greater number, and the new fragment
    is linked after [x] instead of before it, while the tail stays: the list
    is not ordered afterwards, and when [x] was its last fragment the tail no
    longer is. *)
Theorem ol_rx_fraglist_insert_misplaces s h l1 x l2 hs1 hx hs2 t ht f hf all :
  nlist (rx_nbufs s) (Some h) (l1 ++ x :: l2) → has_hdrs (rx_nbufs s) l1 hs1 → has_hdrs (rx_nbufs s) l2 hs2 →
  (∃ b, rx_nbufs s !! x = Some b ∧ nb_hdr b = Some hx) →
  (∃ b, rx_nbufs s !! t = Some b ∧ nb_hdr b = Some ht) →
  (∃ b, rx_nbufs s !! f = Some b ∧ nb_hdr b = Some hf) → NoDup (l1 ++ x :: l2) →
  frag_no hf ≤ frag_no ht → Forall (λ h, frag_no h < frag_no hf) hs1 → frag_no hf < frag_no hx →
  f ∉ l1 ++ x :: l2 → (length (l1 ++ x :: l2) < 256)%nat →
  ∃ nb all', ol_rx_fraglist_insert (Some h) (Some t) (Some f) all s =
      Some ((Some h, Some t, all'), set_rx_nbufs nb s) ∧
    nlist nb (Some h) (l1 ++ x :: f :: l2).
Proof.
  intros Hl Hh Hh2 Hx Ht Hf Hnd Hle Hlt He Hfl Hlen. unfold ol_rx_fraglist_insert.
  mrun (get_hdr_run _ _ _ Hf). mrun (get_hdr_run _ _ _ Ht).
  rewrite Z.gtb_ltb. destruct (Z.ltb_spec (frag_no ht) (frag_no hf)); [lia|].
  unfold num_nbufs. mstep. rewrite (run_bind _ _ _ _ _ (find_frag_search _ _ _ _ _ _ _ _ Hl Hh Hx
    Hlt ltac:(lia) Hnd)). cbv iota. destruct (Z.eqb_spec (frag_no hf) (frag_no hx)); [lia|].
  pose proof Hf as (bf & Hbf & _). pose proof Hx as (bx & Hbx & _).
  assert (f ≠ x) as Hfx by set_solver.
  mrun (cdf_nbuf_set_next_run _ _ _ (Some f) Hbx).
  mrun (cdf_nbuf_set_next_run (set_rx_nbufs (<[x:=set_nb_next (Some f) bx]> (rx_nbufs s)) s) f bf
    (hd_error l2) ltac:(simpl; by rewrite lookup_insert_ne)).
  rewrite set_nbufs_nbufs. simpl rx_nbufs. set (nb := <[f:=_]> _).
  assert (nlist nb (Some h) (l1 ++ x :: f :: l2)) as Hnl
    by exact (nlist_link_after _ l1 x f l2 bx bf (Some h) Hl Hbx Hnd Hfl).
  assert (nb_frame (rx_nbufs s) nb [x; f]) as Hfr.
  { eapply (nb_frame_trans _ _ _ [x] [f]);
      [apply (nb_frame_set_next _ _ _ (Some f) Hbx)| |set_solver..].
    apply nb_frame_set_next. by rewrite lookup_insert_ne. }
  assert (has_hdrs nb (l1 ++ x :: f :: l2) (hs1 ++ hx :: hf :: hs2)) as Hhs.
  { eapply has_hdrs_frame; [exact Hfr|]. apply Forall2_app; [done|]. by repeat constructor. }
  assert (∃ l hh hs, l1 ++ x :: f :: l2 = h :: l ∧ l ≠ [] ∧
    hs1 ++ hx :: hf :: hs2 = hh :: hs ∧ length l = length (l1 ++ x :: l2)) as
    (l & hh & hs & Hll & Hlne & Hhh & Hlll).
  { clear -Hh Hnl. destruct l1 as [|y l1]; [apply Forall2_nil_inv_l in Hh as ->|
      apply Forall2_cons_inv_l in Hh as (? & ? & _ & _ & ->)]; simpl in *.
    - destruct Hnl as ([= ->] & _). eexists _, _, _. by repeat split.
    - destruct Hnl as ([= ->] & _). eexists _, _, _. split; [done|].
      split; [by destruct l1|]. split; [done|]. rewrite !length_app. simpl. lia. }
  rewrite Hll in *. rewrite Hhh in Hhs.
  destruct (fraglist_complete_run (set_rx_nbufs nb s) h l hs t ht) as (all' & Hrun & _); try done.
  { by apply Forall2_cons in Hhs as []. }
  { destruct Ht as (bt & Hbt & Hht). destruct (proj2 Hfr _ _ Hbt) as [n0 Hn0]. by eexists. }
  { rewrite <- Hll.
    assert (l1 ++ x :: f :: l2 ≡ₚ f :: l1 ++ x :: l2) as ->; [|by apply NoDup_cons].
    rewrite <- !Permutation_middle. apply Permutation_swap. }
  { lia. }
  mrun Hrun. exists nb, all'. split; [done|exact Hnl].
Qed.

(** * Storing a fragment *)

(** The window of one slot after its fragments were replaced by [l]. *)
Lemma win_state_slot s p tid cs arr e l nb :
  win_state s p tid 0 cs → window s p tid = Some arr → slot_rep nb e l → NoDup l →
  win_state (set_rx_nbufs nb (put_window p tid [e] s)) p tid 0 [l].
Proof.
  intros (x & r & arr0 & Hx & Hr & Hm & Hmask & Hw & Hlen & Hok & Hnd) Hw' Hs Hl.
  rewrite Hw in Hw'. simplify_eq. destruct (put_window_peer s p tid [e] x r Hx Hr) as [b Hb].
  eexists _, (set_base b r), [e]. split_and!; try done.
  - simpl. by rewrite list_lookup_insert_eq by by apply lookup_lt_Some in Hr.
  - rewrite window_nbufs. apply (window_put _ _ _ arr); [done|]. simpl. lia.
  - repeat constructor; apply Hs.
  - simpl. by rewrite app_nil_r.
Qed.

(** The test of [ol_rx_reorder_store_frag] on a fragment and the first one of
    the slot. *)
Definition mismatch (h1 h2 : frag_hdr) : bool :=
  negb (frag_seq h1 =? frag_seq h2) ||
  negb (DEFRAG_IEEE80211_ADDR_EQ (i_addr1 h1) (i_addr1 h2)) ||
  negb (DEFRAG_IEEE80211_ADDR_EQ (i_addr2 h1) (i_addr2 h2)).

Lemma mismatch_spec h1 h2 : mismatch h1 h2 = true ↔
  frag_seq h1 ≠ frag_seq h2 ∨ i_addr1 h1 = i_addr1 h2 ∨ i_addr2 h1 = i_addr2 h2.
Proof.
  unfold mismatch, DEFRAG_IEEE80211_ADDR_EQ, cdf_mem_compare. rewrite !negb_involutive.
  rewrite !orb_true_iff, negb_true_iff, Z.eqb_neq, !bool_decide_eq_true. tauto.
Qed.

(** What follows the storing of an incomplete list. *)
Definition frag_wait (env : rx_env) (p : positive) (tid : Z) : CM rx_state unit :=
  when (defrag_timeout_check env) (ol_rx_defrag_waitlist_remove p tid);;
  when (defrag_timeout_check env)
    (now ← gets now_ms;
     mod_reorder p tid (set_defrag_timeout_ms (u32 (now + defrag_wait_ms env)));;
     ol_rx_defrag_waitlist_add p tid).

(** C32. A fragment never joins the earlier ones of its MPDU.
    [DEFRAG_IEEE80211_ADDR_EQ] compares the result of [cdf_mem_compare], which
    is true for equal bytes, with 0, so the address test is inverted: when a
    fragment has the receiver or the transmitter address of the first stored
    one (or another sequence number), all stored fragments are freed and the
    slot holds the new fragment alone.  Nothing is handed to [ol_rx_defrag] and
    nothing is reported. *)
Theorem ol_rx_reorder_store_frag_restarts env ol_rx_defrag s p tid seq_num h l bh hh f bf hf :
  win_state s p tid 0 [h :: l] → nlist (rx_nbufs s) (Some h) (h :: l) →
  rx_nbufs s !! h = Some bh → nb_hdr bh = Some hh →
  rx_nbufs s !! f = Some bf → nb_hdr bf = Some hf → f ∉ h :: l →
  frag_seq hf ≠ frag_seq hh ∨ i_addr1 hf = i_addr1 hh ∨ i_addr2 hf = i_addr2 hh →
  ∃ s', ol_rx_reorder_store_frag env ol_rx_defrag p tid seq_num (Some f) s = frag_wait env p tid s' ∧
    win_state s' p tid 0 [[f]] ∧ rx_log s' = rx_log s ∧ rx_waitlist s' = rx_waitlist s ∧
    rx_nbufs s' !! f = Some (set_nb_next None bf) ∧
    ∀ x, x ≠ f → rx_nbufs s' !! x = if decide (x ∈ h :: l) then None else rx_nbufs s !! x.
Proof.
  intros Hws Hl Hbh Hhh Hbf Hhf Hfl Hmis%mismatch_spec.
  pose proof Hws as (x & r & arr & Hx & Hr & Hm & Hmask & Hw & Hlen & Hok & Hnd).
  simpl in Hnd. rewrite app_nil_r in Hnd.
  destruct (win_ok_lookup _ _ _ 0%nat _ Hok eq_refl) as (e & He & Hh & Ht & Hlc). simpl in Hh.
  assert (arr = [e]) as -> by (destruct arr as [|? [|? ?]]; simpl in *; [done|congruence|lia]).
  unfold ol_rx_reorder_store_frag. mrun (get_reorder_run s p tid _ _ Hx Hr). rewrite Hm, Z.land_0_r.
  mrun (read_elem_run s p tid [e] 0 e Hw ltac:(lia) eq_refl).
  mrun (get_hdr_run s f hf ltac:(by eexists)).
  rewrite Hh. rewrite bool_decide_eq_false_2, andb_false_r by done.
  mrun (get_hdr_run s h hh ltac:(by eexists)). fold (mismatch hf hh). rewrite Hmis. cbn [when].
  destruct (free_whole_list s (Some h) (h :: l)) as (nb & Hfree & Hfr); [done..|].
  change (ol_rx_frames_free (Some h) s = Some (tt, set_rx_nbufs nb s)) in Hfree. mrun Hfree.
  mrun (write_elem_run (set_rx_nbufs nb s) p tid [e] 0 elem_null Hw ltac:(simpl; lia)).
  cbn [Z.to_nat insert list_insert]. rewrite put_window_nbufs.
  set (s1 := put_window p tid [elem_null] s).
  assert (window s1 p tid = Some [elem_null]) as Hw1 by by apply (window_put _ _ _ [e]).
  mrun (read_elem_run (set_rx_nbufs nb s1) p tid [elem_null] 0 elem_null Hw1 ltac:(lia) eq_refl).
  assert (nb !! f = Some bf) as Hbf' by (by rewrite Hfr, decide_False).
  unfold ol_rx_fraglist_insert. cbn [e_head e_tail elem_null].
  mrun (get_hdr_run (set_rx_nbufs nb s1) f hf ltac:(by eexists)).
  mrun (cdf_nbuf_set_next_run (set_rx_nbufs nb s1) f bf None Hbf'). rewrite run_ret.
  set (nb2 := <[f := set_nb_next None bf]> nb).
  mrun (write_elem_run (set_rx_nbufs nb2 s1) p tid [elem_null] 0 (mk_elem (Some f) (Some f)) Hw1
    ltac:(simpl; lia)).
  cbn [Z.to_nat insert list_insert]. rewrite put_window_nbufs. unfold s1.
  rewrite (put_put _ _ _ [e]) by done.
  eexists. split; [reflexivity|]. split; [|split; [|split; [|split]]].
  - eapply win_state_slot; try done; [|repeat constructor; set_solver].
    split; [done|]. split; [done|]. eexists. apply lookup_insert_eq.
  - unfold put_window. by repeat case_match.
  - apply rx_waitlist_put_window.
  - apply lookup_insert_eq.
  - intros y Hy. cbn [rx_nbufs set_rx_nbufs]. unfold nb2. rewrite lookup_insert_ne by done. apply Hfr.
Qed.
