(* ===== verification/RxInd.v ===== *)
(** The rx indication handler of [core/dp/txrx/ol_rx.c]: flush, store and
    release in the order of the handler, and the security indication.

    What HTT decodes from an indication message is the record [rx_ind]; the
    frames that [htt_rx_amsdu_pop] and [htt_rx_mpdu_desc_list_next] return one
    after the other are the lists of [rx_pop].  RSSI, statistics, packet log
    and buffer replenishment are left out: they do not touch this state. *)
From S2P Require Import Prelude Tailq RxTypes RxTimers RxReorder RxWindow.
From S2P Require Import RxReorderProofs RxFlush RxSession RxPn RxDefrag.

(** One popped MPDU: its first and last MSDU, the chaining flag, the rx
    descriptor, and the key ID when the descriptor has one. *)
Record rx_pop : Type := mk_rx_pop {
  pop_head : option positive;
  pop_tail : option positive;
  pop_chaining : bool;
  pop_desc : rx_desc;
  pop_key_id : option Z;
}.

Record rx_ind : Type := mk_rx_ind {
  ind_flush : option (Z * Z);
  ind_release : option (Z * Z);
  ind_mpdu_ranges : list (htt_rx_status * list rx_pop);
}.

(** [discard_msdus] and [chain_msdus] are the same loop. *)
Definition discard_msdus (head_msdu tail_msdu : option positive) : CM rx_state unit :=
  n ← num_nbufs; free_mpdu n head_msdu tail_msdu.

Definition chain_msdus (head_msdu tail_msdu : option positive) : CM rx_state unit :=
  n ← num_nbufs; free_mpdu n head_msdu tail_msdu.

Section ind.
Context (env : rx_env).
(** The TID that the firmware interface reserves for "all TIDs of the peer". *)
Context (HTT_INVALID_TID : Z).

Definition OL_RX_SEQ_NUM_CHECK (p : positive) (tid : Z) (d : rx_desc) :
    CM rx_state htt_rx_status :=
  r ← get_reorder p tid;
  if dup_check env && (win_sz_mask r =? 0) then ol_rx_seq_num_check p tid d
  else mret htt_rx_status_ok.

(** The last argument of the source, [rx_ind_release], is a copy of the
    caller's variable: the assignment to it is lost. *)
Definition process_reorder (d : rx_desc) (tid : Z) (p : positive)
    (head_msdu tail_msdu : option positive) : CM rx_state unit :=
  let reorder_idx := rd_reorder_idx d in
  mpdu_status ← OL_RX_SEQ_NUM_CHECK p tid d;
  if decide (mpdu_status = htt_rx_status_ok) then
    ol_rx_reorder_store p tid reorder_idx head_msdu tail_msdu;;
    r ← get_reorder p tid;
    when (win_sz_mask r =? 0) (put_last_seq p tid (u16 (rd_seq_num d)))
  else discard_msdus head_msdu tail_msdu.

Definition process_good (tid : Z) (p : positive) (m : rx_pop) : CM rx_state unit :=
  if pop_chaining m then chain_msdus (pop_head m) (pop_tail m)
  else process_reorder (pop_desc m) tid p (pop_head m) (pop_tail m).

Definition process_bad (tid : Z) (peer : option positive) (status : htt_rx_status)
    (m : rx_pop) : CM rx_state unit :=
  match peer with
  | Some p =>
      when (bool_decide (status = htt_rx_status_tkip_mic_err))
        (_ ← htt_rx_msdu_desc_retrieve (pop_head m);
         match pop_key_id m with
         | Some _ => emit (EvRxErr OL_RX_ERR_TKIP_MIC p tid (pop_head m))
         | None => mret tt
         end)
  | None => mret tt
  end;;
  n ← num_nbufs;
  free_mpdu n (pop_head m) (pop_tail m).

Definition ol_rx_indication_handler (ind : rx_ind) (peer_id tid : Z) : CM rx_state unit :=
  o ← ol_txrx_peer_find_by_id env peer_id;
  let peer := match o with None => ocb_peer env | Some p => Some p end in
  match ind_flush ind, peer with
  | Some (seq_num_start, seq_num_end), Some p =>
      if tid =? HTT_INVALID_TID then ol_rx_reorder_peer_cleanup env p
      else ol_rx_reorder_flush env p tid seq_num_start seq_num_end htt_rx_flush_release
  | _, _ => mret tt
  end;;
  for_each (ind_mpdu_ranges ind) (λ rg : htt_rx_status * list rx_pop,
    match peer with
    | Some p =>
        if decide (rg.1 = htt_rx_status_ok) then for_each rg.2 (process_good tid p)
        else for_each rg.2 (process_bad tid peer rg.1)
    | None => for_each rg.2 (process_bad tid peer rg.1)
    end);;
  match ind_release ind, peer with
  | Some (seq_num_start, seq_num_end), Some p =>
      ol_rx_reorder_release env p tid seq_num_start seq_num_end
  | _, _ => mret tt
  end;;
  OL_RX_REORDER_TIMEOUT_UPDATE env peer tid;;
  when (defrag_timeout_check env) ol_rx_defrag_waitlist_flush.

(** [rx_pn] is the message's initial packet number. *)
Definition ol_rx_sec_ind_handler (peer_id : Z) (sec : htt_sec_type) (is_unicast : bool)
    (key : list Z) (rx_pn : htt_rx_pn_t) : CM rx_state unit :=
  o ← ol_txrx_peer_find_by_id env peer_id;
  match o with
  | None => mret tt
  | Some p =>
      mod_peer p (if is_unicast then set_security_ucast (mk_sec sec key)
                  else set_security_mcast (mk_sec sec key));;
      let n := Z.to_nat OL_TXRX_NUM_EXT_TIDS in
      if negb (bool_decide (sec = htt_sec_type_wapi)) then
        mod_peer p (set_tids_last_pn_valid (replicate n false))
      else
        x ← get_peer p;
        valid0 ← (if is_unicast then deref (tids_last_pn_valid x !! 0%nat) else mret true);
        when valid0
          (mod_peer p (λ x, set_tids_last_pn (replicate n rx_pn)
             (set_tids_last_pn_valid (replicate n true) x)))
  end.
End ind.

(** * Duplicates *)

Lemma free_whole_mpdu s m t :
  nlist (rx_nbufs s) (hd_error m) m → NoDup m → last m = Some t →
  ∃ nb, (n ← num_nbufs; free_mpdu n (hd_error m) (Some t)) s = Some (tt, set_rx_nbufs nb s) ∧
    freed (rx_nbufs s) nb m.
Proof.
  intros Hn Hnd Ht. destruct (last_Some m t) as [[l ->] _]; [done|].
  assert (length (l ++ [t]) ≤ size (rx_nbufs s))%nat as Hsz.
  { apply NoDup_length_le_size; [done|]. intros x Hx. by eapply nlist_dom. }
  rewrite length_app in Hsz. simpl in Hsz. unfold num_nbufs. mstep.
  apply (free_mpdu_run l t []); [done|done|lia].
Qed.

(** The duplicate branch. *)
Lemma process_reorder_dup_run env s p tid d x r last_seq m t :
  rx_peers s !! p = Some x → tids_rx_reorder x !! Z.to_nat tid = Some r → win_sz_mask r = 0 →
  tids_last_seq x !! Z.to_nat tid = Some last_seq → tid ≠ OL_RX_MCAST_TID →
  0 ≤ rd_seq_num d < IEEE80211_SEQ_MAX → dup_check env = true →
  last_seq ≠ IEEE80211_SEQ_MAX → 2048 < seq_num_delta (rd_seq_num d) last_seq →
  nlist (rx_nbufs s) (hd_error m) m → last m = Some t → NoDup m →
  ∃ nb, process_reorder env d tid p (hd_error m) (Some t) s = Some (tt, set_rx_nbufs nb s) ∧
    freed (rx_nbufs s) nb m.
Proof.
  intros Hx Hr Hmask Hls Htid Hseq Hdup Hne Hdelta Hm Ht Hndm.
  destruct (free_whole_mpdu s m t Hm Hndm Ht) as (nb & Hrun & Hf). exists nb. split; [|done].
  unfold process_reorder, OL_RX_SEQ_NUM_CHECK. rewrite Hdup.
  mrun (get_reorder_run s p tid _ _ Hx Hr). rewrite Hmask. cbn [andb Z.eqb].
  mrun (seq_num_check_run s p tid x last_seq d Htid Hx Hls Hseq).
  rewrite bool_decide_eq_false_2 by lia. cbv iota. destruct (decide _) as [|_]; [done|].
  exact Hrun.
Qed.

(** Depositing an MPDU.  For a TID without aggregation the MPDU is stored
    in the window and its number recorded when the duplicate check accepts it;
    when the check rejects it every MSDU of it is freed exactly once and the
    window and the recorded number do not change. *)
Theorem process_reorder_spec env s p tid d x last_seq c m t :
  win_state s p tid 0 [c] → rx_peers s !! p = Some x →
  tids_last_seq x !! Z.to_nat tid = Some last_seq → tid ≠ OL_RX_MCAST_TID →
  0 ≤ rd_seq_num d < IEEE80211_SEQ_MAX → dup_check env = true →
  nlist (rx_nbufs s) (hd_error m) m → last m = Some t → NoDup (c ++ m) →
  ∃ s', process_reorder env d tid p (hd_error m) (Some t) s = Some (tt, s') ∧
    if bool_decide (last_seq = IEEE80211_SEQ_MAX ∨ seq_num_delta (rd_seq_num d) last_seq ≤ 2048)
    then win_state s' p tid 0 [c ++ m] ∧ ∃ x', rx_peers s' !! p = Some x' ∧
      tids_last_seq x' !! Z.to_nat tid = Some (rd_seq_num d)
    else win_state s' p tid 0 [c] ∧ rx_peers s' = rx_peers s ∧
      freed (rx_nbufs s) (rx_nbufs s') m.
Proof.
  intros Hws Hx Hls Htid Hseq Hdup Hm Ht Hnd.
  pose proof Hws as (x' & r & arr & Hx' & Hr & Hmask & _). simplify_eq.
  pose proof Hnd as Hnd'. apply NoDup_app in Hnd' as (_ & Hdis & Hndm).
  case_bool_decide as Hok.
  - unfold process_reorder, OL_RX_SEQ_NUM_CHECK. rewrite Hdup.
    mrun (get_reorder_run s p tid _ _ Hx Hr). rewrite Hmask. cbn [andb Z.eqb].
    mrun (seq_num_check_run s p tid x last_seq d Htid Hx Hls Hseq).
    rewrite bool_decide_eq_true_2 by done. cbv iota. destruct (decide _) as [_|]; [|done].
    destruct (store_run s p tid (rd_reorder_idx d) 0 [c] m) as (s1 & Hrun & Hws1 & _ & nb & arr' & Hs1);
      [done|by destruct m|by eapply nlist_linked|by rewrite concat_cons, app_nil_r|].
    rewrite Ht in Hrun. mrun Hrun. rewrite Z.land_0_r in Hws1. simpl in Hws1.
    pose proof Hws1 as (x1 & r1 & arr1 & Hx1 & Hr1 & Hmask1 & _).
    mrun (get_reorder_run s1 p tid _ _ Hx1 Hr1). rewrite Hmask1. cbn [Z.eqb when].
    rewrite (put_last_seq_run s1 p tid _ x1 Hx1).
    eexists. split; [done|]. split; [by apply win_state_upd_peer|].
    unfold with_last_seq, upd_peer. simpl. rewrite lookup_alter_eq, Hx1. simpl. eexists. split; [done|].
    simpl. unfold IEEE80211_SEQ_MAX in Hseq. rewrite (wrap_small 16) by lia.
    apply list_lookup_insert_eq. destruct (put_window_peer s p tid arr' x r Hx Hr) as [b Hb].
    rewrite Hs1 in Hx1. simpl in Hx1. rewrite Hb in Hx1. simplify_eq. simpl.
    by eapply lookup_lt_Some.
  - destruct (process_reorder_dup_run env s p tid d x r last_seq m t) as (nb & Hrun & Hf);
      try done; [tauto|lia|].
    rewrite Hrun. eexists. split; [done|]. split; [|done].
    apply (win_state_freed s p tid 0 [c] nb m Hf); [|done]. intros y Hy Hyc. simpl in Hyc.
    rewrite app_nil_r in Hyc. by apply (Hdis y).
Qed.

Lemma release_empty_slot_ub env p tid idx_start idx_end s :
  win_state s p tid 0 [[]] → ol_rx_reorder_release env p tid idx_start idx_end s = None.
Proof.
  intros Hws. pose proof Hws as (x & _ & _ & Hx & _).
  set (s0 := with_next_rel_idx p tid (u16 idx_end) s).
  assert (win_state s0 p tid 0 [[]]) as Hws0 by by apply win_state_upd_peer.
  destruct Hws0 as (x0 & r & arr & Hx0 & Hr & Hm & Hmask & Hw & Hlen & Hok & Hnd).
  unfold ol_rx_reorder_release. mrun (put_next_rel_idx_run s p tid (u16 idx_end) x Hx).
  fold s0. mrun (get_reorder_run s0 p tid _ _ Hx0 Hr). rewrite Hm, !Z.land_0_r.
  apply Forall2_cons_inv_r in Hok as (e & arr' & (Hh & Ht & _) & Hn & ->).
  apply Forall2_nil_inv_r in Hn as ->.
  mrun (read_elem_run s0 p tid [e] 0 e Hw ltac:(lia) eq_refl). rewrite Hh, Ht.
  mrun (write_elem_run s0 p tid [e] 0 elem_null Hw ltac:(simpl; lia)).
  change (Z.to_nat (0 + 1)) with 1%nat. cbn [release_loop Z.eqb]. mstep. done.
Qed.

(** C37. A duplicate crashes the driver.  When the only frame of an indication is
    a duplicate on a TID without aggregation, the frame is discarded, but
    the release that the same message asks for is still performed, on the
    empty slot: the handler dereferences a NULL frame.  The flag that
    [process_reorder] clears to prevent this is its own copy. *)
Theorem duplicate_then_release_faults env inv s peer_id p tid x r last_seq d m t key a b :
  peer_id_ok env s peer_id p → rx_peers s !! p = Some x →
  win_state s p tid 0 [[]] → tids_rx_reorder x !! Z.to_nat tid = Some r →
  tids_last_seq x !! Z.to_nat tid = Some last_seq → tid ≠ OL_RX_MCAST_TID →
  0 ≤ rd_seq_num d < IEEE80211_SEQ_MAX → dup_check env = true →
  last_seq ≠ IEEE80211_SEQ_MAX → 2048 < seq_num_delta (rd_seq_num d) last_seq →
  nlist (rx_nbufs s) (hd_error m) m → last m = Some t → NoDup m →
  ol_rx_indication_handler env inv (mk_rx_ind None (Some (a, b))
    [(htt_rx_status_ok, [mk_rx_pop (hd_error m) (Some t) false d key])]) peer_id tid s = None.
Proof.
  intros Hid Hx Hws Hr Hls Htid Hseq Hdup Hne Hdelta Hm Ht Hnd.
  pose proof Hws as (x' & r' & _ & Hx' & Hr' & Hmask & _). simplify_eq.
  destruct (process_reorder_dup_run env s p tid d x r last_seq m t) as (nb & Hrun & Hf); try done.
  unfold ol_rx_indication_handler. mrun (peer_find_run _ _ _ _ Hid). mstep.
  cbn [ind_flush ind_mpdu_ranges for_each fst snd ind_release]. mstep.
  assert ((process_good env tid p (mk_rx_pop (hd_error m) (Some t) false d key)) s =
    Some (tt, set_rx_nbufs nb s)) as Hg by exact Hrun.
  destruct (decide _) as [_|]; [|done]. mrun Hg. mstep.
  rewrite (run_bind_ub _ _ _ (release_empty_slot_ub env p tid a b _
    (win_state_freed s p tid 0 [[]] nb m Hf ltac:(simpl; set_solver) Hws))). done.
Qed.
