(* ===== verification/RxFrame.v ===== *)
(** Frames as bytes: the buffer operations of [core/cdf/src/i_cdf_nbuf.h] that
    the receive path applies to a frame, the fields of the 802.11, LLC and
    Ethernet headers, and the little-endian words of
    [core/dp/txrx/ol_rx_defrag.h].

    A buffer's bytes run from its data pointer to its tail; what lies before
    the data pointer or after the tail cannot be read.  The network buffers
    come from one pool, so [cdf_nbuf_cat] fails only when the kernel cannot
    enlarge the destination. *)
From S2P Require Import Prelude Tailq RxTypes.

(** * Header fields *)

Definition IEEE80211_FC0_TYPE_MASK : Z := 0x0c.
Definition IEEE80211_FC0_TYPE_DATA : Z := 0x08.
Definition IEEE80211_FC0_SUBTYPE_QOS : Z := 0x80.
Definition IEEE80211_FC1_DIR_MASK : Z := 0x03.
Definition IEEE80211_FC1_DIR_NODS : Z := 0x00.
Definition IEEE80211_FC1_DIR_TODS : Z := 0x01.
Definition IEEE80211_FC1_DIR_FROMDS : Z := 0x02.
Definition IEEE80211_FC1_DIR_DSTODS : Z := 0x03.
Definition IEEE80211_FC1_ORDER : Z := 0x80.
Definition IEEE80211_QOS_TID : Z := 0x0f.

(** [sizeof(struct ieee80211_frame)], [.._qoscntl] and [.._htc] *)
Definition sizeof_ieee80211_frame : nat := 24.
Definition sizeof_ieee80211_qoscntl : nat := 2.
Definition sizeof_ieee80211_htc : nat := 4.

(** [sizeof(struct ethernet_hdr_t)] and [sizeof(struct llc_snap_hdr_t)] *)
Definition ETHERNET_HDR_LEN : nat := 14.
Definition LLC_SNAP_HDR_LEN : nat := 8.
Definition LLC_SNAP_HDR_OFFSET_ETHERTYPE : nat := 6.

(** [wh->i_fc[0]] and [wh->i_fc[1]] *)
Definition i_fc0 (wh : list Z) : option Z := wh !! 0%nat.
Definition i_fc1 (wh : list Z) : option Z := wh !! 1%nat.

(** [wh->i_addr1] .. [wh->i_addr4] of [struct ieee80211_frame_addr4] *)
Definition i_addr (n : nat) (wh : list Z) : option (list Z) :=
  match n with
  | 1%nat => bytes_at wh 4 IEEE80211_ADDR_LEN
  | 2%nat => bytes_at wh 10 IEEE80211_ADDR_LEN
  | 3%nat => bytes_at wh 16 IEEE80211_ADDR_LEN
  | _ => bytes_at wh 24 IEEE80211_ADDR_LEN
  end.

Definition DEFRAG_IEEE80211_QOS_HAS_SEQ (fc0 : Z) : bool :=
  Z.land fc0 (Z.lor IEEE80211_FC0_TYPE_MASK IEEE80211_FC0_SUBTYPE_QOS) =?
  Z.lor IEEE80211_FC0_TYPE_DATA IEEE80211_FC0_SUBTYPE_QOS.

(** * Words *)

Definition get_le32_split (b0 b1 b2 b3 : Z) : Z :=
  Z.lor (Z.lor (Z.lor b0 (Z.shiftl b1 8)) (Z.shiftl b2 16)) (Z.shiftl b3 24).

Definition get_le32 (p : list Z) : option Z :=
  match p with
  | b0 :: b1 :: b2 :: b3 :: _ => Some (get_le32_split b0 b1 b2 b3)
  | _ => None
  end.

Definition put_le32 (v : Z) : list Z :=
  [Z.land v 0xff; Z.land (Z.shiftr v 8) 0xff; Z.land (Z.shiftr v 16) 0xff;
   Z.land (Z.shiftr v 24) 0xff].

Definition rotl (val bits : Z) : Z := Z.lor (u32 (Z.shiftl val bits)) (Z.shiftr val (32 - bits)).
Definition rotr (val bits : Z) : Z := Z.lor (Z.shiftr val bits) (u32 (Z.shiftl val (32 - bits))).
Definition xswap (val : Z) : Z :=
  Z.lor (Z.shiftl (Z.land val 0x00ff00ff) 8) (Z.shiftr (Z.land val 0xff00ff00) 8).

(** * Bytes of a buffer *)

(** [memcpy] of [bs] to position [p] of [l]; [None] beyond its end. *)
Definition put_bytes (l : list Z) (p : nat) (bs : list Z) : option (list Z) :=
  if (p + length bs <=? length l)%nat
  then Some (take p l ++ bs ++ drop (p + length bs) l)
  else None.

(** [cdf_mem_move(l + dst, l + src, n)] *)
Definition move_bytes (l : list Z) (dst src n : nat) : option (list Z) :=
  bs ← bytes_at l src n; put_bytes l dst bs.

Definition cdf_nbuf_data (b : option positive) : CM rx_state (list Z) :=
  x ← get_nbuf b; mret (nb_data x).

Definition put_nbuf_data (b : option positive) (d : list Z) : CM rx_state unit :=
  p ← deref b;
  x ← get_nbuf b;
  modify (λ s, set_rx_nbufs (<[p := set_nb_data d x]> (rx_nbufs s)) s).

Definition cdf_nbuf_len (b : option positive) : CM rx_state Z :=
  d ← cdf_nbuf_data b; mret (Z.of_nat (length d)).

(** It returns whether the new data pointer is not NULL. *)
Definition cdf_nbuf_pull_head (b : option positive) (n : nat) : CM rx_state bool :=
  d ← cdf_nbuf_data b;
  if (length d <? n)%nat then mret false
  else put_nbuf_data b (drop n d);; mret true.

(** [skb_trim(skb, skb->len - size)]: a difference below zero wraps to a length
    that is larger than the buffer's, which leaves the buffer as it is. *)
Definition cdf_nbuf_trim_tail (b : option positive) (n : nat) : CM rx_state unit :=
  d ← cdf_nbuf_data b;
  let len := u32 (Z.of_nat (length d) - Z.of_nat n) in
  if Z.of_nat (length d) >? len then put_nbuf_data b (take (Z.to_nat len) d)
  else mret tt.

(** The bytes copied out; [None] when the range is not inside the buffer, and
    the destination is left as it was. *)
Definition cdf_nbuf_copy_bits (b : option positive) (offset len : Z) : CM rx_state (option (list Z)) :=
  d ← cdf_nbuf_data b;
  mret (if offset <? 0 then None else bytes_at d (Z.to_nat offset) (Z.to_nat len)).

(** [expand] says whether the kernel can enlarge the destination's bytes by the
    source's, or the destination has room for them. *)
Definition cdf_nbuf_cat (expand : list Z → list Z → bool) (dst src : option positive) :
    CM rx_state bool :=
  d ← cdf_nbuf_data dst;
  e ← cdf_nbuf_data src;
  if expand d e then
    put_nbuf_data dst (d ++ e);;
    htt_rx_desc_frame_free src;;
    mret true
  else mret false.

(** * Lemmas *)

Section bytes.
Implicit Types (l bs : list Z).

Lemma put_bytes_ok l p bs : (p + length bs ≤ length l)%nat →
  put_bytes l p bs = Some (take p l ++ bs ++ drop (p + length bs) l).
Proof. intros H. unfold put_bytes. by rewrite (proj2 (Nat.leb_le _ _) H). Qed.

Lemma put_bytes_app a m c bs : length bs = length m →
  put_bytes (a ++ m ++ c) (length a) bs = Some (a ++ bs ++ c).
Proof.
  intros H. rewrite put_bytes_ok by (rewrite !length_app; lia).
  by rewrite take_app_length, H, <- drop_drop, !drop_app_length.
Qed.

Lemma bytes_at_mid {A} (a m c : list A) : bytes_at (a ++ m ++ c) (length a) (length m) = Some m.
Proof. rewrite bytes_at_app by (rewrite length_app; lia). by rewrite take_app_length. Qed.

(** Moving the [n] bytes of the header [h] over the [length iv] bytes that
    follow it and dropping the front removes [iv] from behind the header. *)
Lemma move_over h iv rest :
  ∃ d, move_bytes (h ++ iv ++ rest) (length iv) 0 (length h) = Some d ∧
    drop (length iv) d = h ++ rest ∧ length d = length (h ++ iv ++ rest).
Proof.
  unfold move_bytes.
  rewrite (bytes_at_mid [] h (iv ++ rest) : bytes_at (h ++ iv ++ rest) 0 (length h) = _).
  cbn [mbind option_bind]. rewrite put_bytes_ok by (rewrite !length_app; lia).
  eexists. split; [done|]. split.
  - rewrite drop_app_le by (rewrite length_take, !length_app; lia).
    rewrite drop_ge by (rewrite length_take, !length_app; lia). simpl. f_equal.
    by rewrite Nat.add_comm, <- drop_drop, !drop_app_length.
  - rewrite !length_app, length_take, length_drop, !length_app. lia.
Qed.
End bytes.

Section runs.
Implicit Types (s : rx_state) (d : list Z).

(** The buffer [p] of [s] holds the bytes [d]. *)
Definition holds (nb : gmap positive nbuf) (p : positive) (d : list Z) : Prop :=
  ∃ b, nb !! p = Some b ∧ nb_data b = d.

Lemma cdf_nbuf_data_run s p b : rx_nbufs s !! p = Some b →
  cdf_nbuf_data (Some p) s = Some (nb_data b, s).
Proof. intros H. unfold cdf_nbuf_data. by mrun (get_nbuf_run _ _ _ H). Qed.

Lemma put_nbuf_data_run s p b d : rx_nbufs s !! p = Some b →
  put_nbuf_data (Some p) d s =
    Some (tt, set_rx_nbufs (<[p := set_nb_data d b]> (rx_nbufs s)) s).
Proof. intros H. unfold put_nbuf_data. mstep. by mrun (get_nbuf_run _ _ _ H). Qed.

Lemma cdf_nbuf_len_run s p b : rx_nbufs s !! p = Some b →
  cdf_nbuf_len (Some p) s = Some (Z.of_nat (length (nb_data b)), s).
Proof. intros H. unfold cdf_nbuf_len. by mrun (cdf_nbuf_data_run _ _ _ H). Qed.

Lemma cdf_nbuf_pull_head_run s p b n : rx_nbufs s !! p = Some b → (n ≤ length (nb_data b))%nat →
  cdf_nbuf_pull_head (Some p) n s =
    Some (true, set_rx_nbufs (<[p := set_nb_data (drop n (nb_data b)) b]> (rx_nbufs s)) s).
Proof.
  intros H Hn. unfold cdf_nbuf_pull_head. mrun (cdf_nbuf_data_run _ _ _ H).
  destruct (Nat.ltb_spec (length (nb_data b)) n); [lia|].
  by mrun (put_nbuf_data_run _ _ _ (drop n (nb_data b)) H).
Qed.

Lemma cdf_nbuf_trim_tail_run s p b d t n : rx_nbufs s !! p = Some b →
  nb_data b = d ++ t → length t = n → n ≠ 0%nat → Z.of_nat (length (d ++ t)) < 2 ^ 32 →
  cdf_nbuf_trim_tail (Some p) n s =
    Some (tt, set_rx_nbufs (<[p := set_nb_data d b]> (rx_nbufs s)) s).
Proof.
  intros H Hd Ht Hn Hlen. unfold cdf_nbuf_trim_tail. mrun (cdf_nbuf_data_run _ _ _ H).
  rewrite Hd. rewrite length_app in *.
  rewrite wrap_small by lia. rewrite (proj2 (Z.gtb_lt _ _)) by lia.
  replace (Z.to_nat _) with (length d) by lia. rewrite take_app_length.
  by apply put_nbuf_data_run.
Qed.

Lemma cdf_nbuf_cat_run expand s p q b c : rx_nbufs s !! p = Some b → rx_nbufs s !! q = Some c →
  p ≠ q → expand (nb_data b) (nb_data c) = true →
  cdf_nbuf_cat expand (Some p) (Some q) s = Some (true, set_rx_nbufs
    (delete q (<[p := set_nb_data (nb_data b ++ nb_data c) b]> (rx_nbufs s))) s).
Proof.
  intros Hb Hc Hpq He. unfold cdf_nbuf_cat. mrun (cdf_nbuf_data_run _ _ _ Hb).
  mrun (cdf_nbuf_data_run _ _ _ Hc). rewrite He.
  mrun (put_nbuf_data_run _ _ _ (nb_data b ++ nb_data c) Hb).
  erewrite run_bind by (eapply htt_rx_desc_frame_free_run; cbn [rx_nbufs set_rx_nbufs];
    by rewrite lookup_insert_ne). done.
Qed.

Lemma cdf_nbuf_cat_fails expand s p q b c : rx_nbufs s !! p = Some b → rx_nbufs s !! q = Some c →
  expand (nb_data b) (nb_data c) = false →
  cdf_nbuf_cat expand (Some p) (Some q) s = Some (false, s).
Proof.
  intros Hb Hc He. unfold cdf_nbuf_cat. mrun (cdf_nbuf_data_run _ _ _ Hb).
  mrun (cdf_nbuf_data_run _ _ _ Hc). by rewrite He.
Qed.
End runs.
