(* ===== verification/RxMichael.v ===== *)
(** The Michael integrity code over a chain of buffers: [ol_rx_defrag_michdr]
    and [ol_rx_defrag_mic] of [core/dp/txrx/ol_rx_defrag.c], with
    [michael_block] of [ol_rx_defrag.h], and the proof that it is the code of
    the concatenated bytes. *)
From S2P Require Import Prelude Tailq RxTypes RxReorder RxFrame.

(** * The driver's computation *)

Definition michael_block (lr : Z * Z) : Z * Z :=
  let '(l, r) := lr in
  let r := Z.lxor r (rotl l 17) in
  let l := u32 (l + r) in
  let r := Z.lxor r (xswap l) in
  let l := u32 (l + r) in
  let r := Z.lxor r (rotl l 3) in
  let l := u32 (l + r) in
  let r := Z.lxor r (rotr l 2) in
  let l := u32 (l + r) in
  (l, r).

(** [l ^= w; michael_block(l, r)] *)
Definition michael_word (w : Z) (lr : Z * Z) : Z * Z := michael_block (Z.lxor lr.1 w, lr.2).

(** The pseudo header: destination, source, priority and three zero bytes. *)
Definition ol_rx_defrag_michdr (wh : list Z) : option (list Z) :=
  fc1 ← i_fc1 wh;
  let dir := Z.land fc1 IEEE80211_FC1_DIR_MASK in
  '(da, sa) ←
    (if dir =? IEEE80211_FC1_DIR_NODS then
       da ← i_addr 1 wh; sa ← i_addr 2 wh; Some (da, sa)
     else if dir =? IEEE80211_FC1_DIR_TODS then
       da ← i_addr 3 wh; sa ← i_addr 2 wh; Some (da, sa)
     else if dir =? IEEE80211_FC1_DIR_FROMDS then
       da ← i_addr 1 wh; sa ← i_addr 3 wh; Some (da, sa)
     else
       da ← i_addr 3 wh; sa ← i_addr 4 wh; Some (da, sa));
  fc0 ← i_fc0 wh;
  prio ← (if negb (Z.land fc0 IEEE80211_FC0_SUBTYPE_QOS =? 0) then
            qos ← wh !! 24%nat; Some (Z.land qos IEEE80211_QOS_TID)
          else Some 0);
  Some (da ++ sa ++ [prio; 0; 0; 0]).

(** The inner loop: the 32-bit blocks of the current buffer. *)
Fixpoint mic_words (data : list Z) (space data_len : Z) (lr : Z * Z) :
    option (list Z * Z * Z * (Z * Z)) :=
  if space <? 4 then Some (data, space, data_len, lr)
  else
    match data with
    | b0 :: b1 :: b2 :: b3 :: data =>
        mic_words data (u32 (space - 4)) (u16 (data_len - 4))
          (michael_word (get_le32_split b0 b1 b2 b3) lr)
    | _ => None
    end.

(** The block that straddles two buffers: [space] bytes of it are in the first. *)
Definition mic_straddle (space : Z) (data data_next : list Z) : option Z :=
  match data, data_next with
  | d0 :: data, n0 :: next =>
      if space =? 1 then
        match next with n1 :: n2 :: _ => Some (get_le32_split d0 n0 n1 n2) | _ => None end
      else
        match data with
        | d1 :: data =>
            if space =? 2 then
              match next with n1 :: _ => Some (get_le32_split d0 d1 n0 n1) | _ => None end
            else
              match data with d2 :: _ => Some (get_le32_split d0 d1 d2 n0) | _ => None end
        | _ => None
        end
  | _, _ => None
  end.

(** The [for (;;)] loop: what is left when fewer than four bytes remain, or
    [None] for [OL_RX_DEFRAG_ERR]. *)
Fixpoint mic_loop (fuel : nat) (wbuf : option positive) (data : list Z) (space data_len : Z)
    (lr : Z * Z) : CM rx_state (option (list Z * Z * (Z * Z))) :=
  match fuel with
  | O => ub
  | S fuel =>
      let space := if space >? data_len then data_len else space in
      '(data, space, data_len, lr) ← deref (mic_words data space data_len lr);
      if data_len <? 4 then mret (Some (data, data_len, lr))
      else
        wbuf ← cdf_nbuf_next wbuf;
        match wbuf with
        | None => mret None
        | Some _ =>
            data_next ← cdf_nbuf_data wbuf;
            let len := Z.of_nat (length data_next) in
            if negb (space =? 0) then
              if len <? 4 - space then mret None
              else
                w ← deref (mic_straddle space data data_next);
                mic_loop fuel wbuf (drop (Z.to_nat (4 - space)) data_next)
                  (u32 (len - (4 - space))) (u16 (data_len - 4)) (michael_word w lr)
            else mic_loop fuel wbuf data_next len data_len lr
        end
  end.

(** The last block with its padding, and the second block of zeros. *)
Definition mic_last (data : list Z) (data_len : Z) : option Z :=
  if data_len =? 0 then Some (get_le32_split 0x5a 0 0 0)
  else if data_len =? 1 then
    match data with d0 :: _ => Some (get_le32_split d0 0x5a 0 0) | _ => None end
  else if data_len =? 2 then
    match data with d0 :: d1 :: _ => Some (get_le32_split d0 d1 0x5a 0) | _ => None end
  else
    match data with d0 :: d1 :: d2 :: _ => Some (get_le32_split d0 d1 d2 0x5a) | _ => None end.

(** The eight bytes of the code, or [None] for [OL_RX_DEFRAG_ERR]. *)
Definition ol_rx_defrag_mic (key : list Z) (wbuf : option positive) (off : nat) (data_len : Z) :
    CM rx_state (option (list Z)) :=
  wh ← cdf_nbuf_data wbuf;
  hdr ← deref (ol_rx_defrag_michdr wh);
  l ← deref (get_le32 key);
  r ← deref (get_le32 (drop 4 key));
  h0 ← deref (get_le32 hdr);
  h1 ← deref (get_le32 (drop 4 hdr));
  h2 ← deref (get_le32 (drop 8 hdr));
  h3 ← deref (get_le32 (drop 12 hdr));
  let lr := michael_word h3 (michael_word h2 (michael_word h1 (michael_word h0 (l, r)))) in
  n ← num_nbufs;
  o ← mic_loop (S n) wbuf (drop off wh) (u32 (Z.of_nat (length wh) - Z.of_nat off)) data_len lr;
  match o with
  | None => mret None
  | Some (data, data_len, lr) =>
      w ← deref (mic_last data data_len);
      let lr := michael_block (michael_word w lr) in
      mret (Some (put_le32 lr.1 ++ put_le32 lr.2))
  end.

(** * The reference *)

(** Michael of a byte string (IEEE 802.11, 12.5.2.3.3): the string is padded
    with 0x5a and then four to seven zeros, and every word of it is a round. *)
Fixpoint michael_words (bs : list Z) (lr : Z * Z) : Z * Z :=
  match bs with
  | b0 :: b1 :: b2 :: b3 :: bs => michael_words bs (michael_word (get_le32_split b0 b1 b2 b3) lr)
  | _ => lr
  end.

Definition michael_pad (bs : list Z) : list Z :=
  bs ++ 0x5a :: replicate (7 - length bs mod 4) 0.

Definition michael (key bs : list Z) : option (list Z) :=
  l ← get_le32 key;
  r ← get_le32 (drop 4 key);
  let lr := michael_words (michael_pad bs) (l, r) in
  Some (put_le32 lr.1 ++ put_le32 lr.2).

(** The chain of tests of IEEE 802.11, annex M.6.2: each key is the previous
    code. *)
Example michael_vectors :
  michael [0; 0; 0; 0; 0; 0; 0; 0] [] = Some [0x82; 0x92; 0x5c; 0x1c; 0xa1; 0xd1; 0x30; 0xb8] ∧
  michael [0x82; 0x92; 0x5c; 0x1c; 0xa1; 0xd1; 0x30; 0xb8] [0x4d] =
    Some [0x43; 0x47; 0x21; 0xca; 0x40; 0x63; 0x9b; 0x3f] ∧
  michael [0x43; 0x47; 0x21; 0xca; 0x40; 0x63; 0x9b; 0x3f] [0x4d; 0x69] =
    Some [0xe8; 0xf9; 0xbe; 0xca; 0xe9; 0x7e; 0x5d; 0x29] ∧
  michael [0xe8; 0xf9; 0xbe; 0xca; 0xe9; 0x7e; 0x5d; 0x29] [0x4d; 0x69; 0x63] =
    Some [0x90; 0x03; 0x8f; 0xc6; 0xcf; 0x13; 0xc1; 0xdb] ∧
  michael [0x90; 0x03; 0x8f; 0xc6; 0xcf; 0x13; 0xc1; 0xdb] [0x4d; 0x69; 0x63; 0x68] =
    Some [0xd5; 0x5e; 0x10; 0x05; 0x10; 0x12; 0x89; 0x86].
Proof. vm_compute. done. Qed.

(** * Words of a byte string *)

(** A whole number of words. *)
Inductive whole : list Z → Prop :=
| whole_nil : whole []
| whole_cons b0 b1 b2 b3 l : whole l → whole (b0 :: b1 :: b2 :: b3 :: l).

Lemma whole_split m : ∃ m1 m2, m = m1 ++ m2 ∧ whole m1 ∧ (length m2 < 4)%nat.
Proof.
  revert m. fix IH 1. intros [|b0 [|b1 [|b2 [|b3 l]]]];
    [by eexists [], _; repeat split; [constructor|simpl; lia]..|].
  destruct (IH l) as (m1 & m2 & -> & Hw & Hl).
  exists (b0 :: b1 :: b2 :: b3 :: m1), m2. repeat split; [by constructor|done].
Qed.

Lemma whole_app m m' : whole m → whole m' → whole (m ++ m').
Proof. induction 1; [done|]. intros. simpl. constructor. auto. Qed.

Lemma whole_words m l lr : whole m →
  michael_words (m ++ l) lr = michael_words l (michael_words m lr).
Proof. intros Hw. revert lr. induction Hw; intros lr; [done|]. simpl. auto. Qed.

Lemma whole_length m : whole m → (length m mod 4 = 0)%nat.
Proof.
  induction 1 as [|b0 b1 b2 b3 l _ IH]; [done|]. cbn [length].
  replace (S (S (S (S (length l))))) with (length l + 1 * 4)%nat by lia.
  by rewrite Nat.Div0.mod_add.
Qed.

(** The inner loop consumes the words of the first [space] bytes. *)
Lemma mic_words_run m1 m2 rest (n : nat) lr : whole m1 → (length m2 < 4)%nat →
  Z.of_nat n < 65536 → (length (m1 ++ m2) ≤ n)%nat →
  mic_words (m1 ++ m2 ++ rest) (Z.of_nat (length (m1 ++ m2))) (Z.of_nat n) lr =
    Some (m2 ++ rest, Z.of_nat (length m2), Z.of_nat (n - length m1), michael_words m1 lr).
Proof.
  intros Hw Hm2. revert n lr. induction Hw as [|b0 b1 b2 b3 l _ IH]; intros n lr Hn Hlen.
  - cbn [app length michael_words]. rewrite Nat.sub_0_r.
    destruct (m2 ++ rest) eqn:E; simpl; rewrite (proj2 (Z.ltb_lt _ _)) by lia; done.
  - cbn [app length mic_words michael_words] in *.
    rewrite (proj2 (Z.ltb_ge _ _)) by lia.
    rewrite !wrap_small by lia.
    replace (Z.of_nat (S (S (S (S (length (l ++ m2)))))) - 4)
      with (Z.of_nat (length (l ++ m2))) by lia.
    replace (Z.of_nat n - 4) with (Z.of_nat (n - 4)) by lia.
    rewrite IH by lia. do 3 f_equal. lia.
Qed.

(** * The loop over the buffers *)

(** The string [msg] is cut into the bytes [u] of the current buffer and those
    of the following ones, each of at least four bytes; [extra] follows it in
    the last buffer. *)
Fixpoint cuts (u : list Z) (us : list (list Z)) (msg extra : list Z) : Prop :=
  match us with
  | [] => u = msg ++ extra
  | u' :: us' => ∃ msg', msg = u ++ msg' ∧ (4 ≤ length msg')%nat ∧ (4 ≤ length u')%nat ∧
      cuts u' us' msg' extra
  end.

Lemma cuts_drop k u us msg extra : (k ≤ length u)%nat → (k ≤ length msg)%nat →
  cuts u us msg extra → cuts (drop k u) us (drop k msg) extra.
Proof.
  intros Hu Hm. destruct us as [|u' us]; simpl.
  - intros ->. by rewrite drop_app_le.
  - intros (msg' & -> & ?). exists msg'. by rewrite drop_app_le.
Qed.

Lemma cuts_take k u us msg extra : (k ≤ length u)%nat → (k ≤ length msg)%nat →
  cuts u us msg extra → take k u = take k msg.
Proof.
  intros Hu Hm. destruct us as [|u' us]; simpl.
  - intros ->. by rewrite take_app_le.
  - intros (msg' & -> & ?). by rewrite take_app_le.
Qed.

Lemma mic_straddle_word r t rest : (0 < length r < 4)%nat → (length r + length t = 4)%nat →
  ∃ b0 b1 b2 b3, r ++ t = [b0; b1; b2; b3] ∧
    mic_straddle (Z.of_nat (length r)) r (t ++ rest) = Some (get_le32_split b0 b1 b2 b3).
Proof.
  intros Hr Hlen. destruct r as [|r0 [|r1 [|r2 [|r3 r]]]]; simpl in *; try lia;
    destruct t as [|t0 [|t1 [|t2 [|t3 t]]]]; simpl in *; try lia;
    eexists _, _, _, _; (split; [done|]); reflexivity.
Qed.

Section mic_loop.
Implicit Types (s : rx_state).

(** The bytes that the rest [r] of a buffer lacks of a word. *)
Definition missing (r : list Z) : nat := match r with [] => 0 | _ => 4 - length r end.

Lemma missing_pos r : (0 < length r)%nat → missing r = (4 - length r)%nat.
Proof. by destruct r; simpl; [lia|]. Qed.

(** One round of the loop: the words of the buffer [p], which ends with [r], and
    the word that straddles it and the next buffer. *)
Lemma mic_round fuel s p q b c m1 r n lr :
  rx_nbufs s !! p = Some b → nb_next b = Some q → rx_nbufs s !! q = Some c → whole m1 →
  (length r < 4)%nat → (4 ≤ length (nb_data c))%nat → Z.of_nat (length (nb_data c)) < 2 ^ 32 →
  (4 ≤ n)%nat → Z.of_nat (length (m1 ++ r) + n) < 65536 →
  whole (m1 ++ r ++ take (missing r) (nb_data c)) ∧
  mic_loop (S fuel) (Some p) (m1 ++ r) (Z.of_nat (length (m1 ++ r)))
      (Z.of_nat (length (m1 ++ r) + n)) lr s =
    mic_loop fuel (Some q) (drop (missing r) (nb_data c))
      (Z.of_nat (length (drop (missing r) (nb_data c)))) (Z.of_nat (n - missing r))
      (michael_words (m1 ++ r ++ take (missing r) (nb_data c)) lr) s.
Proof.
  intros Hp Hnext Hq Hw Hr Hc4 Hc32 Hn4 Hn. set (u' := nb_data c) in *.
  cbn [mic_loop]. cbv zeta.
  replace (if _ >? _ then _ else _) with (Z.of_nat (length (m1 ++ r)))
    by (destruct (Z.gtb_spec (Z.of_nat (length (m1 ++ r))) (Z.of_nat (length (m1 ++ r) + n))); [lia|done]).
  pose proof (mic_words_run m1 r [] (length (m1 ++ r) + n) lr Hw Hr) as Hwords.
  rewrite app_nil_r in Hwords. rewrite Hwords by lia. mstep. rewrite length_app in *.
  rewrite (proj2 (Z.ltb_ge _ _)) by lia.
  mrun (cdf_nbuf_next_run _ _ _ Hp). rewrite Hnext. mrun (cdf_nbuf_data_run _ _ _ Hq). fold u'.
  rewrite whole_words by done. set (lr1 := michael_words m1 lr).
  destruct (nil_or_length_pos r) as [->|Hr0].
  - split; [by rewrite take_0, !app_nil_r|]. rewrite (Z.eqb_refl 0 : Z.of_nat (length []) =? 0 = true).
    change (missing []) with 0%nat. rewrite drop_0, take_0. cbn [negb length]. do 2 f_equal. lia.
  - rewrite (proj2 (Z.eqb_neq _ _)) by lia. cbn [negb]. rewrite (proj2 (Z.ltb_ge _ _)) by lia.
    rewrite (missing_pos r ltac:(lia)). set (k := (4 - length r)%nat) in *.
    destruct (mic_straddle_word r (take k u') (drop k u')) as (b0 & b1 & b2 & b3 & Hrt & Hs);
      [lia|rewrite length_take; lia|].
    rewrite take_drop in Hs. rewrite Hs. mstep. rewrite Hrt. split.
    { apply whole_app; [done|]. repeat constructor. }
    replace (Z.to_nat (4 - Z.of_nat (length r))) with k by lia. rewrite !wrap_small, length_drop by lia.
    cbn [michael_words]. f_equal; lia.
Qed.

Lemma mic_loop_run us fuel s p u l msg extra lr :
  nlist (rx_nbufs s) (Some p) (p :: l) → Forall2 (holds (rx_nbufs s)) l us →
  cuts u us msg extra → Z.of_nat (length msg) < 65536 →
  (us = [] ∨ Forall (λ d, Z.of_nat (length d) < 2 ^ 32) us) →
  (length us < fuel)%nat →
  ∃ m1 m2 data, msg = m1 ++ m2 ∧ whole m1 ∧ (length m2 < 4)%nat ∧
    mic_loop fuel (Some p) u (Z.of_nat (length u)) (Z.of_nat (length msg)) lr s =
      Some (Some (m2 ++ data, Z.of_nat (length m2), michael_words m1 lr), s).
Proof.
  revert fuel p u l msg lr. induction us as [|u' us IH]; intros [|fuel] p u l msg lr Hn Hh Hc Hm Hb Hf;
    try (simpl in Hf; lia).
  - simpl in Hc. subst u. destruct (whole_split msg) as (m1 & m2 & -> & Hw & Hl).
    exists m1, m2, extra. split; [done|]. split; [done|]. split; [done|].
    cbn [mic_loop]. cbv zeta.
    replace (if _ >? _ then _ else _) with (Z.of_nat (length (m1 ++ m2)))
      by (destruct (Z.gtb_spec (Z.of_nat (length ((m1 ++ m2) ++ extra))) (Z.of_nat (length (m1 ++ m2))));
          [done|rewrite !length_app in *; lia]).
    rewrite <- app_assoc. rewrite mic_words_run by (done || lia). mstep.
    replace (length (m1 ++ m2) - length m1)%nat with (length m2) by (rewrite length_app; lia).
    by rewrite (proj2 (Z.ltb_lt _ _)) by lia.
  - destruct Hc as (msg' & -> & Hm4 & Hu4 & Hc).
    destruct (whole_split u) as (m1 & r & -> & Hw & Hr).
    destruct l as [|q l]; [by inversion Hh|]. apply Forall2_cons in Hh as [(c & Hq & <-) Hh].
    destruct Hn as (_ & b & Hp & Hn). assert (nb_next b = Some q) as Hnext by (by destruct Hn).
    rewrite Hnext in Hn. destruct Hb as [|Hb]; [done|]. apply Forall_cons in Hb as [Hu32 Hb].
    rewrite (length_app (m1 ++ r) msg') in *.
    destruct (mic_round fuel s p q b c m1 r (length msg') lr) as [Hww ->]; try done.
    set (k := missing r) in *. assert (k ≤ 4)%nat as Hk by (unfold k, missing; destruct r; lia).
    rewrite <- length_drop.
    destruct (IH fuel q (drop k (nb_data c)) l (drop k msg')
      (michael_words (m1 ++ r ++ take k (nb_data c)) lr)) as (n1 & n2 & data & Hm' & Hw1 & Hl2 & Hrun);
      try done; [apply cuts_drop; [lia|lia|done]|rewrite length_drop; lia|by right|simpl in Hf; lia|].
    exists ((m1 ++ r ++ take k (nb_data c)) ++ n1), n2, data. split.
    { rewrite (cuts_take k (nb_data c) us msg' extra ltac:(lia) ltac:(lia) Hc), <- !app_assoc, <- Hm', take_drop.
      done. }
    split; [by apply whole_app|]. split; [done|]. by rewrite Hrun, (whole_words (_ ++ _)) by done.
Qed.
End mic_loop.

(** * The code of a frame *)

Lemma michael_pad_words m1 m2 lr : whole m1 → (length m2 < 4)%nat →
  ∃ w, (∀ data, mic_last (m2 ++ data) (Z.of_nat (length m2)) = Some w) ∧
    michael_words (michael_pad (m1 ++ m2)) lr = michael_block (michael_word w (michael_words m1 lr)).
Proof.
  intros Hw Hl. unfold michael_pad.
  rewrite length_app, <- Nat.Div0.add_mod_idemp_l, (whole_length _ Hw), Nat.add_0_l,
    Nat.mod_small, <- app_assoc by lia.
  rewrite whole_words by done. destruct (michael_words m1 lr) as [l r].
  destruct m2 as [|a [|b [|c [|d m2]]]]; simpl in Hl; try lia;
    (eexists; split; [reflexivity|]); cbn [length Nat.sub app replicate michael_words];
    unfold michael_word at 1; cbn [fst snd]; rewrite Z.lxor_0_r; by destruct (michael_word _ _).
Qed.

Lemma i_addr_length n wh a : i_addr n wh = Some a → length a = IEEE80211_ADDR_LEN.
Proof. unfold i_addr. destruct n as [|[|[|[|n]]]]; apply bytes_at_length. Qed.

Lemma ol_rx_defrag_michdr_length wh hdr : ol_rx_defrag_michdr wh = Some hdr → length hdr = 16%nat.
Proof.
  unfold ol_rx_defrag_michdr. intros H.
  apply bind_Some in H as (fc1 & _ & H). apply bind_Some in H as ([da sa] & Ha & H).
  apply bind_Some in H as (fc0 & _ & H). apply bind_Some in H as (prio & _ & [= <-]).
  repeat case_match; apply bind_Some in Ha as (a & Hda%i_addr_length & Ha);
    apply bind_Some in Ha as (b & Hsa%i_addr_length & [= <- <-]);
    by rewrite !length_app, Hda, Hsa.
Qed.

Lemma michdr_words wh hdr : ol_rx_defrag_michdr wh = Some hdr →
  ∃ h0 h1 h2 h3, get_le32 hdr = Some h0 ∧ get_le32 (drop 4 hdr) = Some h1 ∧
    get_le32 (drop 8 hdr) = Some h2 ∧ get_le32 (drop 12 hdr) = Some h3 ∧ whole hdr ∧
    ∀ bs lr, michael_words (hdr ++ bs) lr =
      michael_words bs (michael_word h3 (michael_word h2 (michael_word h1 (michael_word h0 lr)))).
Proof.
  intros Hlen%ol_rx_defrag_michdr_length.
  do 16 (destruct hdr as [|? hdr]; [done|]). destruct hdr; [|done].
  eexists _, _, _, _. do 4 (split; [reflexivity|]). split; [repeat constructor|]. done.
Qed.

Lemma defrag_mic_run s p l b us key off u msg extra hdr mic :
  nlist (rx_nbufs s) (Some p) (p :: l) → NoDup (p :: l) →
  rx_nbufs s !! p = Some b → Forall2 (holds (rx_nbufs s)) l us →
  u = drop off (nb_data b) → (off ≤ length (nb_data b))%nat →
  cuts u us msg extra → Z.of_nat (length msg) < 65536 →
  Forall (λ d, Z.of_nat (length d) < 2 ^ 32) (u :: us) →
  ol_rx_defrag_michdr (nb_data b) = Some hdr → michael key (hdr ++ msg) = Some mic →
  ol_rx_defrag_mic key (Some p) off (Z.of_nat (length msg)) s = Some (Some mic, s).
Proof.
  intros Hn Hnd Hb Hh -> Hoff Hc Hm (Hu & Hus)%Forall_cons Hhdr Hmic.
  destruct (michdr_words _ _ Hhdr) as (h0 & h1 & h2 & h3 & H0 & H1 & H2 & H3 & Hwh & Hws).
  unfold michael in Hmic. apply bind_Some in Hmic as (kl & Hkl & Hmic).
  apply bind_Some in Hmic as (kr & Hkr & [= <-]).
  unfold ol_rx_defrag_mic. mrun (cdf_nbuf_data_run _ _ _ Hb). mstep.
  unfold num_nbufs. mstep. rewrite <- Nat2Z.inj_sub, <- length_drop, wrap_small by lia.
  destruct (mic_loop_run us (S (size (rx_nbufs s))) s p (drop off (nb_data b)) l msg extra
    (michael_word h3 (michael_word h2 (michael_word h1 (michael_word h0 (kl, kr))))))
    as (m1 & m2 & data & -> & Hw & Hl & Hrun); try done; [by right| |].
  { rewrite <- (Forall2_length _ _ _ Hh). apply (NoDup_length_le_size (rx_nbufs s)) in Hnd.
    - simpl in Hnd. lia.
    - intros x Hx. by eapply nlist_dom. }
  mrun Hrun. destruct (michael_pad_words (hdr ++ m1) m2 (kl, kr)) as (w & Hlast & Hpad);
    [by apply whole_app|done|].
  rewrite (run_deref _ _ _ _ (Hlast data)). rewrite <- app_assoc in Hpad. rewrite Hpad, Hws.
  done.
Qed.

(** C31. The integrity code that the driver computes over a chain of buffers,
    words that straddle two buffers included, is the Michael code of IEEE 802.11
    of the pseudo header and the concatenated bytes, whenever every buffer after
    the first holds at least four bytes of the message; what follows the
    message in the last buffer is not read.  In particular the loops end and
    stay inside the buffers. *)
Theorem ol_rx_defrag_mic_michael s p l b us key off u msg extra hdr mic :
  nlist (rx_nbufs s) (Some p) (p :: l) → NoDup (p :: l) →
  rx_nbufs s !! p = Some b → Forall2 (holds (rx_nbufs s)) l us →
  u = drop off (nb_data b) → (off ≤ length (nb_data b))%nat →
  cuts u us msg extra → Z.of_nat (length msg) < 65536 →
  Forall (λ d, Z.of_nat (length d) < 2 ^ 32) (u :: us) →
  ol_rx_defrag_michdr (nb_data b) = Some hdr → michael key (hdr ++ msg) = Some mic →
  ol_rx_defrag_mic key (Some p) off (Z.of_nat (length msg)) s = Some (Some mic, s).
Proof. apply defrag_mic_run. Qed.
