(* ===== verification/RxDecap.v ===== *)
(** Decryption leftovers, recombination and header conversion of a complete
    list of fragments: [ol_rx_defrag] of [core/dp/txrx/ol_rx_defrag.c] and the
    functions it calls, for the low-latency build.

    The hardware decrypts; what it leaves in each fragment (the initialisation
    vector behind the header, the cipher's trailer and the checksum) is removed
    here.  The vdev's safe mode, the frame format of the host and the kernel's
    ability to enlarge a buffer are the record [defrag_env], with the three
    functions that take over the frames. *)
From Stdlib Require Import String.
From S2P Require Import Prelude Tailq RxTypes RxReorder RxPn RxDefrag RxFrame RxMichael.
#[local] Open Scope Z_scope.

Inductive wlan_frm_fmt : Type :=
| wlan_frm_fmt_unknown
| wlan_frm_fmt_raw
| wlan_frm_fmt_native_wifi
| wlan_frm_fmt_802_3.

#[export] Instance wlan_frm_fmt_eq_dec : EqDecision wlan_frm_fmt.
Proof. solve_decision. Defined.

(** * Ciphers *)

Record ol_rx_defrag_cipher : Type := mk_cipher {
  ic_name : string;
  ic_header : nat;
  ic_trailer : nat;
  ic_miclen : nat;
}.

Definition IEEE80211_WEP_IVLEN : nat := 3.
Definition IEEE80211_WEP_KIDLEN : nat := 1.
Definition IEEE80211_WEP_CRCLEN : nat := 4.
Definition IEEE80211_WEP_EXTIV : Z := 0x20.
Definition IEEE80211_WEP_EXTIVLEN : nat := 4.
Definition IEEE80211_WEP_MICLEN : nat := 8.
Definition DEFRAG_IEEE80211_FCS_LEN : nat := 4.
Definition DEFRAG_IEEE80211_KEY_LEN : nat := 8.

Definition f_ccmp : ol_rx_defrag_cipher :=
  mk_cipher "AES-CCM" (IEEE80211_WEP_IVLEN + IEEE80211_WEP_KIDLEN + IEEE80211_WEP_EXTIVLEN)
    IEEE80211_WEP_MICLEN 0.
Definition f_tkip : ol_rx_defrag_cipher :=
  mk_cipher "TKIP" (IEEE80211_WEP_IVLEN + IEEE80211_WEP_KIDLEN + IEEE80211_WEP_EXTIVLEN)
    IEEE80211_WEP_CRCLEN IEEE80211_WEP_MICLEN.
Definition f_wep : ol_rx_defrag_cipher :=
  mk_cipher "WEP" (IEEE80211_WEP_IVLEN + IEEE80211_WEP_KIDLEN) IEEE80211_WEP_CRCLEN 0.

(** [OL_RX_DEFRAG_ERR] and [OL_RX_DEFRAG_OK]. *)
Definition OL_RX_DEFRAG_ERR : bool := false.
Definition OL_RX_DEFRAG_OK : bool := true.

(** * One fragment *)

(** [ivp[IEEE80211_WEP_IVLEN] & IEEE80211_WEP_EXTIV] *)
Definition has_ext_iv (d : list Z) (hdrlen : nat) : option bool :=
  c ← d !! (hdrlen + IEEE80211_WEP_IVLEN)%nat;
  Some (negb (Z.land c IEEE80211_WEP_EXTIV =? 0)).

(** [cdf_mem_move(origHdr + ic_header, origHdr, hdrlen)] and
    [cdf_nbuf_pull_head(msdu, ic_header)] *)
Definition strip_iv (f : ol_rx_defrag_cipher) (msdu : option positive) (hdrlen : nat) :
    CM rx_state unit :=
  d ← cdf_nbuf_data msdu;
  d ← deref (move_bytes d (ic_header f) 0 hdrlen);
  put_nbuf_data msdu d;;
  cdf_nbuf_pull_head msdu (ic_header f);;
  mret tt.

Definition ol_rx_frag_tkip_decap (msdu : option positive) (hdrlen : nat) : CM rx_state bool :=
  d ← cdf_nbuf_data msdu;
  ext ← deref (has_ext_iv d hdrlen);
  if negb ext then mret OL_RX_DEFRAG_ERR
  else
    strip_iv f_tkip msdu hdrlen;;
    cdf_nbuf_trim_tail msdu (ic_trailer f_tkip);;
    mret OL_RX_DEFRAG_OK.

Definition ol_rx_frag_wep_decap (msdu : option positive) (hdrlen : nat) : CM rx_state bool :=
  strip_iv f_wep msdu hdrlen;;
  cdf_nbuf_trim_tail msdu (ic_trailer f_wep);;
  mret OL_RX_DEFRAG_OK.

Definition ol_rx_frag_ccmp_decap (nbuf : option positive) (hdrlen : nat) : CM rx_state bool :=
  d ← cdf_nbuf_data nbuf;
  ext ← deref (has_ext_iv d hdrlen);
  if negb ext then mret OL_RX_DEFRAG_ERR
  else strip_iv f_ccmp nbuf hdrlen;; mret OL_RX_DEFRAG_OK.

Definition ol_rx_frag_ccmp_demic (wbuf : option positive) (hdrlen : nat) : CM rx_state bool :=
  d ← cdf_nbuf_data wbuf;
  ext ← deref (has_ext_iv d hdrlen);
  if negb ext then mret OL_RX_DEFRAG_ERR
  else cdf_nbuf_trim_tail wbuf (ic_trailer f_ccmp);; mret OL_RX_DEFRAG_OK.

(** * The whole frame *)

(** The code is refused when [cdf_mem_compare] is true, that is when it is the
    right one.  When the copy fails, the driver compares with the bytes of an
    uninitialised array. *)
Definition ol_rx_frag_tkip_demic (key : list Z) (msdu : option positive) (hdrlen : nat) :
    CM rx_state bool :=
  pktlen ← cdf_nbuf_len msdu;
  o ← ol_rx_defrag_mic key msdu hdrlen
        (u16 (pktlen - (Z.of_nat hdrlen + Z.of_nat (ic_miclen f_tkip))));
  match o with
  | None => mret OL_RX_DEFRAG_ERR
  | Some mic =>
      o ← cdf_nbuf_copy_bits msdu (pktlen - Z.of_nat (ic_miclen f_tkip))
            (Z.of_nat (ic_miclen f_tkip));
      mic0 ← deref o;
      if cdf_mem_compare mic mic0 then mret OL_RX_DEFRAG_ERR
      else cdf_nbuf_trim_tail msdu (ic_miclen f_tkip);; mret OL_RX_DEFRAG_OK
  end.

Definition ol_rx_frag_hdrsize (wh : list Z) : option nat :=
  fc0 ← i_fc0 wh;
  fc1 ← i_fc1 wh;
  let size := sizeof_ieee80211_frame in
  let size :=
    if Z.land fc1 IEEE80211_FC1_DIR_MASK =? IEEE80211_FC1_DIR_DSTODS
    then (size + IEEE80211_ADDR_LEN)%nat else size in
  Some (if DEFRAG_IEEE80211_QOS_HAS_SEQ fc0 then
          let size := (size + 2)%nat in
          if negb (Z.land fc1 IEEE80211_FC1_ORDER =? 0)
          then (size + sizeof_ieee80211_htc)%nat else size
        else size).

(** The two header fields that tell a fragment are cleared:
    [i_fc[1] &= ~MORE_FRAG], [i_seq &= ~SEQ_FRAG_MASK]. *)
Definition clear_frag_fields (d : list Z) : option (list Z) :=
  fc1 ← i_fc1 d;
  s0 ← d !! 22%nat;
  s1 ← d !! 23%nat;
  let seq := Z.land (Z.lor s0 (Z.shiftl s1 8)) (Z.lnot IEEE80211_SEQ_FRAG_MASK) in
  d ← put_bytes d 1 [Z.land fc1 (Z.lnot IEEE80211_FC1_MORE_FRAG)];
  put_bytes d 22 [Z.land seq 0xff; Z.land (Z.shiftr seq 8) 0xff].

(** The destination and source addresses of a frame; [None] inside for four
    addresses, for which [ol_rx_defrag_nwifi_to_8023] copies nothing. *)
Definition nwifi_addrs (wh : list Z) : option (option (list Z * list Z)) :=
  fc1 ← i_fc1 wh;
  let dir := Z.land fc1 IEEE80211_FC1_DIR_MASK in
  if dir =? IEEE80211_FC1_DIR_NODS then
    da ← i_addr 1 wh; sa ← i_addr 2 wh; Some (Some (da, sa))
  else if dir =? IEEE80211_FC1_DIR_TODS then
    da ← i_addr 3 wh; sa ← i_addr 2 wh; Some (Some (da, sa))
  else if dir =? IEEE80211_FC1_DIR_FROMDS then
    da ← i_addr 1 wh; sa ← i_addr 3 wh; Some (Some (da, sa))
  else Some None.

Definition ol_rx_defrag_nwifi_to_8023 (msdu : option positive) : CM rx_state unit :=
  d ← cdf_nbuf_data msdu;
  let hdrsize := sizeof_ieee80211_frame in
  wh ← deref (bytes_at d 0 hdrsize);
  llchdr ← deref (bytes_at d hdrsize LLC_SNAP_HDR_LEN);
  cdf_nbuf_pull_head msdu (hdrsize + LLC_SNAP_HDR_LEN - ETHERNET_HDR_LEN);;
  d ← cdf_nbuf_data msdu;
  addrs ← deref (nwifi_addrs wh);
  d ← deref (match addrs with
             | Some (da, sa) => d ← put_bytes d 0 da; put_bytes d IEEE80211_ADDR_LEN sa
             | None => Some d
             end);
  d ← deref (put_bytes d (2 * IEEE80211_ADDR_LEN) (drop LLC_SNAP_HDR_OFFSET_ETHERTYPE llchdr));
  put_nbuf_data msdu d.

(** [hdrlen] is a 16-bit unsigned; it is at least the size of the fields removed. *)
Definition ol_rx_defrag_qos_decap (nbuf : option positive) (hdrlen : nat) : CM rx_state unit :=
  wh ← cdf_nbuf_data nbuf;
  fc0 ← deref (i_fc0 wh);
  fc1 ← deref (i_fc1 wh);
  when (DEFRAG_IEEE80211_QOS_HAS_SEQ fc0)
    (let htc := negb (Z.land fc1 IEEE80211_FC1_ORDER =? 0) in
     let qoslen :=
       (if htc then sizeof_ieee80211_qoscntl + sizeof_ieee80211_htc
        else sizeof_ieee80211_qoscntl)%nat in
     let hdrlen := Z.to_nat (u16 (Z.of_nat hdrlen - Z.of_nat qoslen)) in
     d ← deref (move_bytes wh qoslen 0 hdrlen);
     put_nbuf_data nbuf d;;
     ok ← cdf_nbuf_pull_head nbuf qoslen;
     when ok
       (d ← cdf_nbuf_data nbuf;
        fc0 ← deref (i_fc0 d);
        d ← deref (put_bytes d 0 [Z.land fc0 (Z.lnot IEEE80211_FC0_SUBTYPE_QOS)]);
        put_nbuf_data nbuf d)).

(** * A list of fragments *)

Record defrag_env : Type := mk_defrag_env {
  safemode : positive → bool;
  full_reorder_offload : bool;
  frame_type : wlan_frm_fmt;
  nbuf_expand : list Z → list Z → bool;
  rx_deliver : positive → Z → option positive → CM rx_state unit;
  rx_in_order_deliver : positive → Z → option positive → CM rx_state unit;
  rx_fwd_check : positive → Z → option positive → CM rx_state unit;
}.

Section defrag.
Context (env : defrag_env).

(** The loop of [ol_rx_defrag_decap_recombine]; [htt_rx_msdu_desc_free] does
    nothing in this build.  [false] when a buffer could not be appended. *)
Fixpoint recombine_loop (fuel : nat) (rx_nbuf msdu : option positive) (hdrsize : nat) :
    CM rx_state bool :=
  match msdu, fuel with
  | None, _ => mret true
  | Some _, O => ub
  | Some _, S fuel =>
      tmp ← cdf_nbuf_next msdu;
      cdf_nbuf_set_next msdu None;;
      cdf_nbuf_pull_head msdu hdrsize;;
      ok ← cdf_nbuf_cat (nbuf_expand env) rx_nbuf msdu;
      if negb ok then
        ol_rx_frames_free tmp;;
        htt_rx_desc_frame_free rx_nbuf;;
        htt_rx_desc_frame_free msdu;;
        mret false
      else recombine_loop fuel rx_nbuf tmp hdrsize
  end.

Definition ol_rx_defrag_decap_recombine (frag_list : option positive) (hdrsize : nat) :
    CM rx_state (option positive) :=
  msdu ← cdf_nbuf_next frag_list;
  cdf_nbuf_set_next frag_list None;;
  n ← num_nbufs;
  ok ← recombine_loop n frag_list msdu hdrsize;
  if negb ok then mret None
  else
    d ← cdf_nbuf_data frag_list;
    d ← deref (clear_frag_fields d);
    put_nbuf_data frag_list d;;
    mret frag_list.

(** The packet-number loop: [false] when a fragment was a replay and all of
    them have been freed. *)
Fixpoint frag_pn_loop (fuel : nat) (p : positive) (tid : Z) (frag_list prev cur : option positive) :
    CM rx_state bool :=
  match cur, fuel with
  | None, _ => mret true
  | Some _, O => ub
  | Some _, S fuel =>
      tmp_next ← cdf_nbuf_next cur;
      cdf_nbuf_set_next cur None;;
      ok ← ol_rx_pn_check_base p tid cur;
      match ok with
      | None =>
          match prev with
          | Some _ =>
              cdf_nbuf_set_next prev None;;
              ol_rx_frames_free frag_list
          | None => mret tt
          end;;
          ol_rx_frames_free tmp_next;;
          mret false
      | Some _ =>
          cdf_nbuf_trim_tail cur DEFRAG_IEEE80211_FCS_LEN;;
          cdf_nbuf_set_next cur tmp_next;;
          frag_pn_loop fuel p tid frag_list cur tmp_next
      end
  end.

(** The decapsulation loop of the switch: [false] when a fragment failed and
    all of them have been freed. *)
Fixpoint frag_decap_loop (decap : option positive → CM rx_state bool) (fuel : nat)
    (frag_list cur : option positive) : CM rx_state bool :=
  match cur, fuel with
  | None, _ => mret true
  | Some _, O => ub
  | Some _, S fuel =>
      tmp_next ← cdf_nbuf_next cur;
      ok ← decap cur;
      if negb ok then
        ol_rx_frames_free frag_list;;
        mret false
      else frag_decap_loop decap fuel frag_list tmp_next
  end.

(** The two steps of the CCMP case. *)
Definition ccmp_decap (hdr_space : nat) (cur : option positive) : CM rx_state bool :=
  ok ← ol_rx_frag_ccmp_demic cur hdr_space;
  if negb ok then mret false else ol_rx_frag_ccmp_decap cur hdr_space.

(** The decapsulation of a cipher, when it has one. *)
Definition cipher_decap (sec : htt_sec_type) (hdr_space : nat) :
    option (option positive → CM rx_state bool) :=
  match sec with
  | htt_sec_type_tkip | htt_sec_type_tkip_nomic =>
      Some (λ cur, ol_rx_frag_tkip_decap cur hdr_space)
  | htt_sec_type_aes_ccmp => Some (ccmp_decap hdr_space)
  | htt_sec_type_wep40 | htt_sec_type_wep104 | htt_sec_type_wep128 =>
      Some (λ cur, ol_rx_frag_wep_decap cur hdr_space)
  | _ => None
  end.

(** What follows the recombination: [tkip_demic] and the headers. *)
Definition defrag_finish (p : positive) (tid : Z) (tkip_demic : bool) (key : list Z)
    (msdu : option positive) (hdr_space : nat) : CM rx_state unit :=
  ok ← (if tkip_demic then
          key ← deref (bytes_at key 0 DEFRAG_IEEE80211_KEY_LEN);
          ol_rx_frag_tkip_demic key msdu hdr_space
        else mret true);
  if negb ok then
    htt_rx_desc_frame_free msdu;;
    emit (EvRxErr OL_RX_ERR_DEFRAG_MIC p tid msdu)
  else
    wh ← cdf_nbuf_data msdu;
    fc0 ← deref (i_fc0 wh);
    when (DEFRAG_IEEE80211_QOS_HAS_SEQ fc0) (ol_rx_defrag_qos_decap msdu hdr_space);;
    when (bool_decide (frame_type env = wlan_frm_fmt_802_3)) (ol_rx_defrag_nwifi_to_8023 msdu);;
    rx_fwd_check env p tid msdu.

Definition ol_rx_defrag (p : positive) (tid : Z) (frag_list : option positive) : CM rx_state unit :=
  if safemode env p then
    if full_reorder_offload env then rx_in_order_deliver env p tid frag_list
    else rx_deliver env p tid frag_list
  else
    n ← num_nbufs;
    ok ← frag_pn_loop n p tid frag_list None frag_list;
    if negb ok then mret tt
    else
      wh ← cdf_nbuf_data frag_list;
      hdr_space ← deref (ol_rx_frag_hdrsize wh);
      rx_desc ← htt_rx_msdu_desc_retrieve frag_list;
      x ← get_peer p;
      let sec := peer_security (rd_mcast rx_desc) x in
      ok ← match cipher_decap (sec_type sec) hdr_space with
           | Some decap => n ← num_nbufs; frag_decap_loop decap n frag_list frag_list
           | None => mret true
           end;
      if negb ok then mret tt
      else
        msdu ← ol_rx_defrag_decap_recombine frag_list hdr_space;
        match msdu with
        | None => mret tt
        | Some _ =>
            defrag_finish p tid (bool_decide (sec_type sec = htt_sec_type_tkip))
              (michael_key sec) msdu hdr_space
        end.
End defrag.
