(* ===== verification/RxDecapProofs.v ===== *)
(** What the parts of [ol_rx_defrag] do to buffers: decapsulation, the
    packet-number loop, recombination and header conversion as functions on the
    bytes of the fragments. *)
From S2P Require Import Prelude Tailq RxTypes RxReorder RxWindow RxReorderProofs RxFlush RxSession.
From S2P Require Import RxPn RxDefrag RxFrame RxMichael RxDecap.

(** * One buffer *)

(** [cdf_nbuf_trim_tail] and [cdf_nbuf_pull_head] on the bytes. *)
Definition trim (n : nat) (d : list Z) : list Z :=
  if (n <=? length d)%nat then take (length d - n) d else d.
Definition pull (n : nat) (d : list Z) : list Z := if (length d <? n)%nat then d else drop n d.

Lemma trim_app n d t : length t = n → trim n (d ++ t) = d.
Proof.
  intros <-. unfold trim. rewrite length_app.
  rewrite (proj2 (Nat.leb_le _ _)) by lia. rewrite Nat.add_sub. by rewrite take_app_length.
Qed.

Lemma pull_app n h d : length h = n → pull n (h ++ d) = d.
Proof.
  intros <-. unfold pull. rewrite length_app.
  rewrite (proj2 (Nat.ltb_ge _ _)) by lia. by rewrite drop_app_length.
Qed.

Lemma trim_length n d : (length (trim n d) ≤ length d)%nat.
Proof. unfold trim. destruct (_ <=? _)%nat; [rewrite length_take|]; lia. Qed.

Definition put_data (p : positive) (b : nbuf) (d : list Z) (s : rx_state) : rx_state :=
  set_rx_nbufs (<[p := set_nb_data d b]> (rx_nbufs s)) s.

Lemma put_data_same p b s : rx_nbufs s !! p = Some b → put_data p b (nb_data b) s = s.
Proof.
  intros H. unfold put_data. replace (set_nb_data (nb_data b) b) with b by (by destruct b).
  rewrite insert_id by done. apply set_rx_nbufs_id.
Qed.

Lemma put_data_twice p b d d' s :
  put_data p (set_nb_data d b) d' (put_data p b d s) = put_data p b d' s.
Proof. unfold put_data, set_rx_nbufs. cbn. by rewrite insert_insert_eq. Qed.

Lemma put_data_lookup p b d s : rx_nbufs (put_data p b d s) !! p = Some (set_nb_data d b).
Proof. apply lookup_insert_eq. Qed.

Section one_buffer.
Context (s : rx_state) (p : positive) (b : nbuf) (Hb : rx_nbufs s !! p = Some b).

Lemma trim_tail_run n : n ≠ 0%nat → Z.of_nat n < 2 ^ 32 → Z.of_nat (length (nb_data b)) < 2 ^ 32 →
  cdf_nbuf_trim_tail (Some p) n s = Some (tt, put_data p b (trim n (nb_data b)) s).
Proof using Hb.
  intros Hn Hn32 Hlen. unfold cdf_nbuf_trim_tail, trim. mrun (cdf_nbuf_data_run _ _ _ Hb).
  destruct (Nat.leb_spec n (length (nb_data b))).
  - rewrite wrap_small by lia. rewrite (proj2 (Z.gtb_lt _ _)) by lia.
    replace (Z.to_nat _) with (length (nb_data b) - n)%nat by lia. by apply put_nbuf_data_run.
  - rewrite put_data_same by done.
    assert (u32 (Z.of_nat (length (nb_data b)) - Z.of_nat n) =
      Z.of_nat (length (nb_data b)) - Z.of_nat n + 2 ^ 32) as ->.
    { unfold wrap. symmetry. apply (Z.mod_unique_pos _ _ (-1)); lia. }
    rewrite Z.gtb_ltb, (proj2 (Z.ltb_ge _ _)) by lia. done.
Qed.

Lemma pull_head_run n :
  ∃ ok, cdf_nbuf_pull_head (Some p) n s = Some (ok, put_data p b (pull n (nb_data b)) s).
Proof using Hb.
  unfold cdf_nbuf_pull_head, pull. mrun (cdf_nbuf_data_run _ _ _ Hb).
  destruct (length (nb_data b) <? n)%nat.
  - eexists. rewrite put_data_same by done. done.
  - eexists. by mrun (put_nbuf_data_run _ _ _ (drop n (nb_data b)) Hb).
Qed.
End one_buffer.

(** Removing the initialisation vector. *)
Definition strip_bytes (f : ol_rx_defrag_cipher) (hdrlen : nat) (d : list Z) : option (list Z) :=
  d ← move_bytes d (ic_header f) 0 hdrlen; Some (drop (ic_header f) d).

Lemma move_bytes_length d dst src n d' : move_bytes d dst src n = Some d' →
  length d' = length d ∧ (dst + n ≤ length d)%nat.
Proof.
  unfold move_bytes. intros (bs & Hbs & H)%bind_Some. unfold put_bytes in H.
  destruct (Nat.leb_spec (dst + length bs) (length d)) as [Hle|]; [|done]. simplify_eq.
  apply bytes_at_length in Hbs. rewrite !length_app, length_take, length_drop. lia.
Qed.

Lemma strip_iv_run s p b f hdrlen d : rx_nbufs s !! p = Some b →
  strip_bytes f hdrlen (nb_data b) = Some d →
  strip_iv f (Some p) hdrlen s = Some (tt, put_data p b d s).
Proof.
  intros Hb (d' & Hm & [= <-])%bind_Some. unfold strip_iv. mrun (cdf_nbuf_data_run _ _ _ Hb).
  rewrite run_deref with (a := d') by done. mrun (put_nbuf_data_run _ _ _ d' Hb).
  apply move_bytes_length in Hm as [Hlen Hle].
  destruct (pull_head_run (put_data p b d' s) p _ (put_data_lookup p b d' s) (ic_header f))
    as (ok & Hrun). cbn [nb_data set_nb_data] in Hrun. unfold put_data in Hrun at 1. mrun Hrun.
  unfold pull. rewrite (proj2 (Nat.ltb_ge _ _)) by lia. by rewrite put_data_twice.
Qed.

(** What the switch of [ol_rx_defrag] does to one fragment: [Some None] when it
    is not encrypted the way the peer's cipher requires. *)
Definition decap_bytes (sec : htt_sec_type) (hdr : nat) (d : list Z) : option (option (list Z)) :=
  match sec with
  | htt_sec_type_tkip | htt_sec_type_tkip_nomic =>
      ext ← has_ext_iv d hdr;
      if negb ext then Some None
      else d ← strip_bytes f_tkip hdr d; Some (Some (trim (ic_trailer f_tkip) d))
  | htt_sec_type_aes_ccmp =>
      ext ← has_ext_iv d hdr;
      if negb ext then Some None
      else
        ext ← has_ext_iv (trim (ic_trailer f_ccmp) d) hdr;
        if negb ext then Some None
        else d ← strip_bytes f_ccmp hdr (trim (ic_trailer f_ccmp) d); Some (Some d)
  | htt_sec_type_wep40 | htt_sec_type_wep104 | htt_sec_type_wep128 =>
      d ← strip_bytes f_wep hdr d; Some (Some (trim (ic_trailer f_wep) d))
  | _ => Some (Some d)
  end.

Lemma strip_bytes_length f hdr d d' : strip_bytes f hdr d = Some d' → (length d' ≤ length d)%nat.
Proof.
  intros (e & He & [= <-])%bind_Some. apply move_bytes_length in He as [He _].
  rewrite length_drop. lia.
Qed.

Lemma trim_put_run s p b d n : n ≠ 0%nat → Z.of_nat n < 2 ^ 32 → Z.of_nat (length d) < 2 ^ 32 →
  cdf_nbuf_trim_tail (Some p) n (put_data p b d s) = Some (tt, put_data p b (trim n d) s).
Proof.
  intros Hn Hn32 Hd.
  rewrite (trim_tail_run (put_data p b d s) p _ (put_data_lookup p b d s) n Hn Hn32 Hd).
  by rewrite put_data_twice.
Qed.

Section decap.
Context (s : rx_state) (p : positive) (b : nbuf) (Hb : rx_nbufs s !! p = Some b).
Context (Hlen : Z.of_nat (length (nb_data b)) < 2 ^ 32).

Lemma strip_trim_run f hdr d n : n ≠ 0%nat → Z.of_nat n < 2 ^ 32 →
  strip_bytes f hdr (nb_data b) = Some d →
  (strip_iv f (Some p) hdr;; cdf_nbuf_trim_tail (Some p) n;; mret OL_RX_DEFRAG_OK) s =
    Some (true, put_data p b (trim n d) s).
Proof using Hb Hlen.
  intros Hn Hn32 Hd. mrun (strip_iv_run _ _ _ _ _ _ Hb Hd).
  pose proof (strip_bytes_length _ _ _ _ Hd).
  erewrite run_bind by (apply trim_put_run; lia). done.
Qed.

(** The run [m] does to the buffer what [r] says: it fails, or leaves the bytes. *)
Definition decap_ok (m : CM rx_state bool) (r : option (list Z)) : Prop :=
  ∃ d, m s = Some (bool_decide (is_Some r), put_data p b d s) ∧ ∀ d', r = Some d' → d = d'.

Lemma decap_ok_fails m : m s = Some (false, s) → decap_ok m None.
Proof using Hb. intros Hm. exists (nb_data b). by rewrite put_data_same. Qed.

Lemma decap_ok_some m d : m s = Some (true, put_data p b d s) → decap_ok m (Some d).
Proof using. intros Hm. exists d. split; [done|congruence]. Qed.

Lemma tkip_decap_run hdr r : decap_bytes htt_sec_type_tkip hdr (nb_data b) = Some r →
  decap_ok (ol_rx_frag_tkip_decap (Some p) hdr) r.
Proof using Hb Hlen.
  simpl. intros (ext & Hext & Hr)%bind_Some. destruct ext; simpl in Hr.
  - apply bind_Some in Hr as (d & Hd & [= <-]). apply decap_ok_some.
    unfold ol_rx_frag_tkip_decap. mrun (cdf_nbuf_data_run _ _ _ Hb). mstep. cbn [negb].
    by apply (strip_trim_run f_tkip hdr d 4).
  - simplify_eq. apply decap_ok_fails. unfold ol_rx_frag_tkip_decap.
    mrun (cdf_nbuf_data_run _ _ _ Hb). by mstep.
Qed.

Lemma wep_decap_run hdr r : decap_bytes htt_sec_type_wep40 hdr (nb_data b) = Some r →
  decap_ok (ol_rx_frag_wep_decap (Some p) hdr) r.
Proof using Hb Hlen.
  simpl. intros (d & Hd & [= <-])%bind_Some. apply decap_ok_some.
  by apply (strip_trim_run f_wep hdr d 4).
Qed.

Lemma ccmp_decap_run hdr r : decap_bytes htt_sec_type_aes_ccmp hdr (nb_data b) = Some r →
  decap_ok (ccmp_decap hdr (Some p)) r.
Proof using Hb Hlen.
  simpl. intros (ext & Hext & Hr)%bind_Some.
  unfold decap_ok, ccmp_decap, ol_rx_frag_ccmp_demic.
  rewrite !run_assoc. rewrite (run_bind _ _ _ _ _ (cdf_nbuf_data_run _ _ _ Hb)), run_assoc.
  rewrite (run_deref _ _ _ _ Hext). destruct ext; simpl in Hr; cbn [negb].
  2:{ simplify_eq. mstep. exists (nb_data b). by rewrite put_data_same. }
  apply bind_Some in Hr as (ext & Hext' & Hr).
  pose proof (trim_tail_run s p b Hb 8 ltac:(lia) ltac:(lia) Hlen) as Htrim. mrun Htrim.
  rewrite run_ret. cbn [negb OL_RX_DEFRAG_OK].
  set (d1 := trim 8 (nb_data b)) in *. unfold ol_rx_frag_ccmp_decap.
  mrun (cdf_nbuf_data_run _ _ _ (put_data_lookup p b d1 s)). cbn [nb_data set_nb_data].
  change (trim (ic_trailer f_ccmp) (nb_data b)) with d1 in *.
  rewrite (run_deref _ _ _ _ Hext'). destruct ext; simpl in Hr; cbn [negb].
  - apply bind_Some in Hr as (d & Hd & [= <-]).
    mrun (strip_iv_run _ _ _ _ _ _ (put_data_lookup p b d1 s) Hd). rewrite put_data_twice.
    exists d. split; [done|congruence].
  - simplify_eq. by exists d1.
Qed.

(** Each decapsulation acts on the buffer as [decap_bytes] on its bytes. *)
Lemma cipher_decap_run sec hdr decap r : cipher_decap sec hdr = Some decap →
  decap_bytes sec hdr (nb_data b) = Some r → decap_ok (decap (Some p)) r.
Proof using Hb Hlen.
  destruct sec; try done; intros [= <-] Hr;
    by first [apply tkip_decap_run|apply ccmp_decap_run|apply wep_decap_run].
Qed.
End decap.

(** * Lists of buffers *)

(** The bytes of the buffers [l] become [ds]; nothing else changes. *)
Definition rewritten (nb nb' : gmap positive nbuf) (l : list positive) (ds : list (list Z)) : Prop :=
  (∀ x, x ∉ l → nb' !! x = nb !! x) ∧
  Forall2 (λ x d, ∃ b, nb !! x = Some b ∧ nb' !! x = Some (set_nb_data d b)) l ds.

Lemma rewritten_nil nb : rewritten nb nb [] [].
Proof. by split. Qed.

Lemma rewritten_cons nb nb' x b d l ds : nb !! x = Some b → x ∉ l →
  rewritten (<[x := set_nb_data d b]> nb) nb' l ds → rewritten nb nb' (x :: l) (d :: ds).
Proof.
  intros Hb Hx [Hf Hr]. split.
  - intros y [Hyx Hy]%not_elem_of_cons. rewrite Hf by done. by apply lookup_insert_ne.
  - constructor; [exists b; rewrite Hf by done; by rewrite lookup_insert_eq|].
    eapply Forall2_impl; [apply Forall2_same_length_lookup_2 with
      (P := λ y e, y ∈ l ∧ ∃ c, <[x := set_nb_data d b]> nb !! y = Some c ∧
        nb' !! y = Some (set_nb_data e c)); [by eapply Forall2_length|]|].
    + intros i y e Hy He. split; [by eapply list_elem_of_lookup_2|].
      by destruct (Forall2_lookup_lr _ _ _ _ _ _ Hr Hy He) as (c & ? & ?); exists c.
    + intros y e (Hy & c & Hc & Hc'). rewrite lookup_insert_ne in Hc by congruence. by exists c.
Qed.

Lemma rewritten_next nb nb' l ds x b : rewritten nb nb' l ds → nb !! x = Some b →
  ∃ d, nb' !! x = Some (set_nb_data d b).
Proof.
  intros [Hf Hr] Hb. destruct (decide (x ∈ l)) as [Hx|Hx].
  - apply list_elem_of_lookup_1 in Hx as [i Hi].
    destruct (Forall2_lookup_l _ _ _ _ _ Hr Hi) as (d & _ & c & Hc & Hc'). simplify_eq. by exists d.
  - exists (nb_data b). rewrite Hf, Hb by done. by destruct b.
Qed.

Lemma rewritten_nlist nb nb' l ds h l' : rewritten nb nb' l ds → nlist nb h l' → nlist nb' h l'.
Proof.
  intros Hr. revert h. induction l' as [|x l' IH]; intros h; [done|]. intros (-> & b & Hb & Hl).
  destruct (rewritten_next _ _ _ _ _ _ Hr Hb) as [d Hd]. split; [done|]. eexists. split; [exact Hd|].
  by apply IH.
Qed.

Lemma rewritten_holds nb nb' l ds : rewritten nb nb' l ds → Forall2 (holds nb') l ds.
Proof. intros [_ Hr]. eapply Forall2_impl; [exact Hr|]. intros x d (b & _ & Hb). by eexists. Qed.

Lemma rewritten_freed nb nb1 nb2 l ds l' : rewritten nb nb1 l ds → l ⊆ l' →
  freed nb1 nb2 l' → freed nb nb2 l'.
Proof. intros [Hf _] Hl Hfr x. rewrite Hfr. case_decide; [done|]. apply Hf. set_solver. Qed.

Lemma Forall2_frame {A} (R : nbuf → A → Prop) (nb nb' : gmap positive nbuf) l ds :
  (∀ x, x ∈ l → nb' !! x = nb !! x) →
  Forall2 (λ y d, ∃ c, nb !! y = Some c ∧ R c d) l ds →
  Forall2 (λ y d, ∃ c, nb' !! y = Some c ∧ R c d) l ds.
Proof.
  intros Heq Hh. apply Forall2_same_length_lookup_2; [by eapply Forall2_length|].
  intros i y d Hy Hd. destruct (Forall2_lookup_lr _ _ _ _ _ _ Hh Hy Hd) as (c & Hc & Hcd).
  exists c. rewrite Heq; [done|]. by eapply list_elem_of_lookup_2.
Qed.

Lemma Forall2_insert_ne {A} (R : nbuf → A → Prop) (nb : gmap positive nbuf) l ds x b : x ∉ l →
  Forall2 (λ y d, ∃ c, nb !! y = Some c ∧ R c d) l ds →
  Forall2 (λ y d, ∃ c, <[x := b]> nb !! y = Some c ∧ R c d) l ds.
Proof. intros Hx. apply Forall2_frame. intros y Hy. apply lookup_insert_ne. congruence. Qed.

Lemma frames_free_run s l : nlist (rx_nbufs s) (hd_error l) l → NoDup l →
  ∃ nb, ol_rx_frames_free (hd_error l) s = Some (tt, set_rx_nbufs nb s) ∧ freed (rx_nbufs s) nb l.
Proof.
  intros Hl Hnd. destruct l as [|x l].
  - exists (rx_nbufs s). simpl. rewrite set_rx_nbufs_id. split; [done|]. intros y.
    by rewrite decide_False by set_solver.
  - by apply free_whole_list.
Qed.

(** The decapsulation of all fragments, up to the first that fails. *)
Fixpoint decap_all (sec : htt_sec_type) (hdr : nat) (ds : list (list Z)) :
    option (option (list (list Z))) :=
  match ds with
  | [] => Some (Some [])
  | d :: ds =>
      r ← decap_bytes sec hdr d;
      match r with
      | None => Some None
      | Some d => rs ← decap_all sec hdr ds; Some (option_map (cons d) rs)
      end
  end.

Definition small (d : list Z) : Prop := Z.of_nat (length d) < 2 ^ 32.

Lemma frag_decap_loop_run sec hdr decap l : cipher_decap sec hdr = Some decap →
  ∀ fuel s l0 ds r,
  nlist (rx_nbufs s) (hd_error (l0 ++ l)) (l0 ++ l) → NoDup (l0 ++ l) →
  nlist (rx_nbufs s) (hd_error l) l → Forall2 (holds (rx_nbufs s)) l ds → Forall small ds →
  decap_all sec hdr ds = Some r → (length l ≤ fuel)%nat →
  ∃ nb, frag_decap_loop decap fuel (hd_error (l0 ++ l)) (hd_error l) s =
      Some (bool_decide (is_Some r), set_rx_nbufs nb s) ∧
    match r with
    | Some ds' => rewritten (rx_nbufs s) nb l ds'
    | None => freed (rx_nbufs s) nb (l0 ++ l)
    end.
Proof.
  intros Hdec. induction l as [|x l IH]; intros fuel s l0 ds r Hn Hnd Hnl Hh Hsm Hr Hf.
  - apply Forall2_nil_inv_l in Hh as ->. simpl in Hr. simplify_eq.
    exists (rx_nbufs s). rewrite set_rx_nbufs_id. split; [by destruct fuel|apply rewritten_nil].
  - destruct fuel as [|fuel]; simpl in Hf; [lia|].
    destruct ds as [|d ds]; [by inversion Hh|]. apply Forall2_cons in Hh as [(b & Hb & Hbd) Hh].
    apply Forall_cons in Hsm as [Hsd Hsm].
    destruct Hnl as (_ & b' & Hb' & Hnl). rewrite Hb in Hb'. injection Hb' as <-. subst d.
    pose proof (nlist_head _ _ _ Hnl) as Hnext.
    cbn [hd_error frag_decap_loop]. mrun (cdf_nbuf_next_run _ _ _ Hb).
    simpl in Hr. apply bind_Some in Hr as (r1 & Hr1 & Hr).
    destruct (cipher_decap_run s x b Hb Hsd sec hdr decap r1 Hdec Hr1) as (d' & Hrun & Hd').
    mrun Hrun.
    pose proof (NoDup_app l0 (x :: l)) as [HH _]. destruct (HH Hnd) as (_ & _ & Hxl).
    apply NoDup_cons in Hxl as [Hxl _]. clear HH.
    assert (rewritten (rx_nbufs s) (rx_nbufs (put_data x b d' s)) [x] [d']) as Hrw
      by (apply (rewritten_cons _ _ _ b); [done|set_solver|apply rewritten_nil]).
    destruct r1 as [d1|].
    + rewrite (Hd' d1 eq_refl) in *. clear Hd'. rewrite bool_decide_eq_true_2 by by eexists. cbn [negb].
      apply bind_Some in Hr as (rs & Hrs & [= <-]).
      assert (l0 ++ x :: l = (l0 ++ [x]) ++ l) as Happ by (by rewrite <- app_assoc).
      destruct (IH fuel (put_data x b d1 s) (l0 ++ [x]) ds rs) as (nb & Hrun' & Hres).
      * rewrite <- Happ. by eapply rewritten_nlist.
      * by rewrite <- Happ.
      * rewrite <- Hnext. by eapply rewritten_nlist.
      * by apply (Forall2_insert_ne (λ c d, nb_data c = d)).
      * done.
      * done.
      * lia.
      * exists nb. rewrite <- Happ in Hrun'. rewrite Hnext, Hrun'. split.
        { repeat f_equal. apply bool_decide_ext. destruct rs; simpl; split; by intros [? ?]. }
        destruct rs as [rs|]; simpl.
        -- by eapply rewritten_cons.
        -- rewrite Happ. eapply (rewritten_freed _ _ _ [x]); [exact Hrw| |exact Hres]. set_solver.
    + simplify_eq. rewrite bool_decide_eq_false_2 by by intros []. cbn [negb].
      destruct (frames_free_run (put_data x b d' s) (l0 ++ x :: l))
        as (nb & Hfree & Hfreed); [by eapply rewritten_nlist|done|].
      exists nb. mrun Hfree. split; [done|].
      eapply (rewritten_freed _ _ _ [x]); [exact Hrw| |exact Hfreed]. set_solver.
Qed.

(** * Packet numbers of fragments *)

Definition record_pn (tid : Z) (pn : htt_rx_pn_t) (x : ol_txrx_peer_t) : ol_txrx_peer_t :=
  set_tids_last_pn (<[Z.to_nat tid := pn]> (tids_last_pn x)) x.
Definition record_valid (tid : Z) (x : ol_txrx_peer_t) : ol_txrx_peer_t :=
  set_tids_last_pn_valid (<[Z.to_nat tid := true]> (tids_last_pn_valid x)) x.

(** The check of one fragment with descriptor [d]: [Some None] for a replay,
    otherwise the peer with the number recorded. *)
Definition pn_one (tid : Z) (x : ol_txrx_peer_t) (d : rx_desc) : option (option ol_txrx_peer_t) :=
  let sec := sec_type (peer_security (rd_mcast d) x) in
  if negb (fw_pn_check x =? 0) || bool_decide (opmode x = wlan_op_mode_ibss) || (rx_pn_len sec =? 0)
  then Some (Some x)
  else
    valid ← tids_last_pn_valid x !! Z.to_nat tid;
    if negb (rd_encrypted d) then Some (Some x)
    else
      last_pn ← tids_last_pn x !! Z.to_nat tid;
      if (valid : bool) then
        cmp ← rx_pn_cmp sec;
        if (cmp (rd_pn d) last_pn (negb (rd_mcast d)) (opmode x) : bool) then Some None
        else Some (Some (record_pn tid (rd_pn d) x))
      else Some (Some (record_pn tid (rd_pn d) (record_valid tid x))).

Definition put_peer (p : positive) (x : ol_txrx_peer_t) (s : rx_state) : rx_state :=
  set_rx_peers (<[p := x]> (rx_peers s)) s.

Lemma put_peer_same p x s : rx_peers s !! p = Some x → put_peer p x s = s.
Proof. intros H. unfold put_peer. rewrite insert_id by done. by destruct s. Qed.

Lemma set_next_same s f b : rx_nbufs s !! f = Some b → nb_next b = None →
  cdf_nbuf_set_next (Some f) None s = Some (tt, s).
Proof.
  intros Hb Hn. rewrite (cdf_nbuf_set_next_run _ _ _ None Hb).
  replace (set_nb_next None b) with b by (destruct b; simpl in *; by subst).
  rewrite insert_id by done. by rewrite set_rx_nbufs_id.
Qed.

Lemma pn_loop_nil fuel p tid mc h t v :
  pn_loop fuel p tid mc None h t v = mret (h, t).
Proof. by destruct fuel. Qed.

(** A lone buffer is a list of one MPDU. *)
Section pn_single.
Context (s : rx_state) (p f : positive) (tid : Z) (x : ol_txrx_peer_t) (b : nbuf).
Context (Hx : rx_peers s !! p = Some x) (Hb : rx_nbufs s !! f = Some b).
Context (Hnext : nb_next b = None) (Hdone : rd_completes_mpdu (nb_desc b) = true).

Let s_nonempty : ∃ n, size (rx_nbufs s) = S n.
Proof.
  destruct (size (rx_nbufs s)) as [|n] eqn:E; [|by eexists].
  apply map_size_empty_inv in E. rewrite E in Hb. by rewrite lookup_empty in Hb.
Qed.

Lemma lone_mpdu_run fuel : ol_rx_mpdu_list_next (S fuel) (Some f) s = Some ((Some f, None), s).
Proof using Hb Hnext Hdone.
  apply (mpdu_list_next_run [] f [] s (Some f) (S fuel) b); simpl; try done; [|lia].
  split; [done|]. exists b. by rewrite Hnext.
Qed.

Lemma put_last_pn_run pn s' x' : rx_peers s' !! p = Some x' →
  put_last_pn p tid pn s' = Some (tt, put_peer p (record_pn tid pn x') s').
Proof using. apply mod_peer_run. Qed.

(** The replay: the fragment is freed and reported. *)
Definition pn_replayed : rx_state :=
  set_rx_log (rx_log s ++ [EvRxErr OL_RX_ERR_PN p tid (Some f)])
    (set_rx_nbufs (delete f (rx_nbufs s)) s).

Lemma pn_check_one_run r : pn_one tid x (nb_desc b) = Some r →
  ol_rx_pn_check_base p tid (Some f) s =
    match r with
    | Some x' => Some (Some f, put_peer p x' s)
    | None => Some (None, pn_replayed)
    end.
Proof using All.
  destruct s_nonempty as [n Hn]. unfold pn_one, ol_rx_pn_check_base. intros H.
  mrun (get_peer_run _ _ _ Hx).
  destruct (negb (fw_pn_check x =? 0) || bool_decide (opmode x = wlan_op_mode_ibss)).
  { simpl in H. simplify_eq. by rewrite put_peer_same. }
  mrun (htt_rx_msdu_desc_retrieve_run _ _ _ Hb). simpl in H.
  destruct (rx_pn_len (sec_type (peer_security (rd_mcast (nb_desc b)) x)) =? 0).
  { simplify_eq. by rewrite put_peer_same. }
  apply bind_Some in H as (valid & Hv & H). rewrite (run_deref _ _ _ _ Hv).
  unfold num_nbufs. rewrite run_gets, Hn. cbn [pn_loop].
  mrun (htt_rx_msdu_desc_retrieve_run _ _ _ Hb).
  unfold num_nbufs. mstep. rewrite Hn.
  mrun (lone_mpdu_run n). cbv iota. cbn [ADD_MPDU_TO_LIST].
  destruct (rd_encrypted (nb_desc b)); cbn [negb] in H |- *.
  2:{ simplify_eq. mstep. rewrite pn_loop_nil. mstep.
      rewrite put_peer_same by done. by mrun (set_next_same _ _ _ Hb Hnext). }
  apply bind_Some in H as (lp & Hlp & H). mrun (get_peer_run _ _ _ Hx).
  rewrite ?run_assoc, (run_deref _ _ _ _ Hlp). destruct valid.
  - apply bind_Some in H as (cmp & Hcmp & H). rewrite ?run_assoc.
    rewrite (run_deref _ _ _ _ Hcmp). mstep.
    destruct (cmp (rd_pn (nb_desc b)) lp (negb (rd_mcast (nb_desc b))) (opmode x)); simplify_eq.
    + unfold emit. mstep. cbn [rx_nbufs set_rx_log]. rewrite Hn. cbn [free_mpdu].
      set (s1 := set_rx_log _ s). assert (rx_nbufs s1 !! f = Some b) as Hb1 by done.
      mrun (cdf_nbuf_next_run _ _ _ Hb1). mrun (htt_rx_desc_frame_free_run _ _ _ Hb1).
      rewrite decide_True by done. mstep. by rewrite pn_loop_nil.
    + mstep. mrun (put_last_pn_run (rd_pn (nb_desc b)) s x Hx). rewrite pn_loop_nil. mstep.
      by mrun (set_next_same (put_peer p (record_pn tid (rd_pn (nb_desc b)) x) s) _ _ Hb Hnext).
  - simplify_eq. mrun (mod_peer_run _ _ _ (record_valid tid) Hx). mstep.
    fold (put_peer p (record_valid tid x) s).
    mrun (put_last_pn_run (rd_pn (nb_desc b)) (put_peer p (record_valid tid x) s) _
      (lookup_insert_eq _ _ _)).
    rewrite pn_loop_nil. mstep.
    mrun (set_next_same (put_peer p (record_pn tid (rd_pn (nb_desc b)) (record_valid tid x))
      (put_peer p (record_valid tid x) s)) _ _ Hb Hnext).
    unfold put_peer, set_rx_peers. simpl. by rewrite insert_insert_eq.
Qed.
End pn_single.

(** The check of all fragments in order, up to the first replay. *)
Fixpoint pn_all (tid : Z) (x : ol_txrx_peer_t) (ds : list rx_desc) :
    option (bool * ol_txrx_peer_t) :=
  match ds with
  | [] => Some (true, x)
  | d :: ds =>
      r ← pn_one tid x d;
      match r with
      | Some x => pn_all tid x ds
      | None => Some (false, x)
      end
  end.

(** The buffer holds a fragment: its descriptor and its bytes. *)
Definition frag_is (nb : gmap positive nbuf) (f : positive) (fr : rx_desc * list Z) : Prop :=
  ∃ b, nb !! f = Some b ∧ nb_desc b = fr.1 ∧ nb_data b = fr.2.

Definition frag_ok (fr : rx_desc * list Z) : Prop := rd_completes_mpdu fr.1 = true ∧ small fr.2.

Lemma freed_app nb nb1 nb2 l1 l2 : freed nb nb1 l1 → freed nb1 nb2 l2 → freed nb nb2 (l1 ++ l2).
Proof.
  intros H1 H2 x. rewrite H2, H1. repeat case_decide; try done; set_solver.
Qed.

Lemma freed_nlist nb nb' l h l' : freed nb nb' l → l ## l' → nlist nb h l' → nlist nb' h l'.
Proof.
  intros Hf Hd. apply nlist_frame. intros x Hx. rewrite Hf, decide_False; [done|]. set_solver.
Qed.

(** What the loop frees after a replay: the fragments [l0] before it, then the
    fragments [l] after it. *)
Lemma replay_cleanup s l0 l h : linked (rx_nbufs s) l0 → nlist (rx_nbufs s) (hd_error l) l →
  NoDup (l0 ++ l) → (l0 ≠ [] → h = hd_error l0) →
  ∃ nb, (match last l0 with
         | Some _ => cdf_nbuf_set_next (last l0) None;; ol_rx_frames_free h
         | None => mret tt
         end;; ol_rx_frames_free (hd_error l);; mret false) s = Some (false, set_rx_nbufs nb s) ∧
    freed (rx_nbufs s) nb (l0 ++ l).
Proof.
  intros Hlk Hl Hnd Hh. pose proof Hnd as (Hnd0 & Hdis & Hndl)%NoDup_app.
  assert (l0 ## l) as Hd by (intros y ??; by eapply Hdis).
  destruct (decide (l0 = [])) as [->|Hne].
  - simpl. rewrite run_ret. destruct (frames_free_run s l Hl Hndl) as (nb & Hrun & Hf). mrun Hrun.
    by exists nb.
  - destruct (last_split l0 Hne) as (l0' & t & El & Et). rewrite Et. rewrite <- Et.
    destruct (terminate_run s l0 Hne Hlk Hnd0) as (nb1 & Hset & Hl0 & Hfr). mrun Hset.
    rewrite (Hh Hne).
    destruct (frames_free_run (set_rx_nbufs nb1 s) l0 Hl0 Hnd0) as (nb2 & Hfree & Hf2). mrun Hfree.
    simpl in Hf2. assert (freed (rx_nbufs s) nb2 l0) as Hf2' by (by eapply nb_frame_freed).
    destruct (frames_free_run (set_rx_nbufs nb2 (set_rx_nbufs nb1 s)) l) as (nb3 & Hfree3 & Hf3);
      [by eapply freed_nlist|done|]. mrun Hfree3. exists nb3. split; [done|].
    by eapply freed_app.
Qed.

(** The state after the loop. *)
Definition pn_state (p : positive) (nb : gmap positive nbuf) (x : ol_txrx_peer_t)
    (lg : list rx_event) (s : rx_state) : rx_state :=
  set_rx_log lg (set_rx_peers (<[p := x]> (rx_peers s)) (set_rx_nbufs nb s)).

Lemma pn_state_same s p x : rx_peers s !! p = Some x →
  pn_state p (rx_nbufs s) x (rx_log s) s = s.
Proof. intros H. unfold pn_state. rewrite insert_id by done. by destruct s. Qed.

Lemma pn_state_step s p nb nb' x x' lg :
  pn_state p nb' x' lg (put_peer p x (set_rx_nbufs nb s)) = pn_state p nb' x' lg s.
Proof. unfold pn_state, put_peer, set_rx_peers. simpl. by rewrite insert_insert_eq. Qed.

(** One round of the loop on a fragment whose number is good. *)
Lemma pn_round fuel s p tid x x1 f b h prev :
  rx_peers s !! p = Some x → rx_nbufs s !! f = Some b → rd_completes_mpdu (nb_desc b) = true →
  small (nb_data b) → pn_one tid x (nb_desc b) = Some (Some x1) →
  frag_pn_loop (S fuel) p tid h prev (Some f) s =
    frag_pn_loop fuel p tid h (Some f) (nb_next b) (put_peer p x1 (set_rx_nbufs
      (<[f := set_nb_data (trim DEFRAG_IEEE80211_FCS_LEN (nb_data b)) b]> (rx_nbufs s)) s)).
Proof.
  intros Hx Hb Hdone Hsm Hr. cbn [frag_pn_loop]. mrun (cdf_nbuf_next_run _ _ _ Hb).
  mrun (cdf_nbuf_set_next_run _ _ _ None Hb).
  set (b1 := set_nb_next None b). set (s1 := set_rx_nbufs (<[f := b1]> (rx_nbufs s)) s).
  assert (rx_nbufs s1 !! f = Some b1) as Hb1 by apply lookup_insert_eq.
  mrun (pn_check_one_run s1 p f tid x b1 Hx Hb1 eq_refl Hdone _ Hr). set (s2 := put_peer p x1 s1).
  mrun (trim_tail_run s2 f b1 Hb1 DEFRAG_IEEE80211_FCS_LEN ltac:(done) ltac:(done) Hsm).
  mrun (cdf_nbuf_set_next_run (put_data f b1 (trim DEFRAG_IEEE80211_FCS_LEN (nb_data b1)) s2) f _
    (nb_next b) (lookup_insert_eq _ _ _)).
  f_equal. unfold put_data, s2, put_peer, s1, set_rx_nbufs, set_rx_peers. simpl.
  rewrite !insert_insert_eq. by destruct b.
Qed.

(** One round on a replay: the fragment is freed and reported, and the others
    are about to be. *)
Lemma pn_round_replay fuel s p tid x f b h prev :
  rx_peers s !! p = Some x → rx_nbufs s !! f = Some b → rd_completes_mpdu (nb_desc b) = true →
  pn_one tid x (nb_desc b) = Some None →
  ∃ nb, frag_pn_loop (S fuel) p tid h prev (Some f) s =
      (match prev with
       | Some _ => cdf_nbuf_set_next prev None;; ol_rx_frames_free h
       | None => mret tt
       end;; ol_rx_frames_free (nb_next b);; mret false)
        (pn_state p nb x (rx_log s ++ [EvRxErr OL_RX_ERR_PN p tid (Some f)]) s) ∧
    freed (rx_nbufs s) nb [f].
Proof.
  intros Hx Hb Hdone Hr. cbn [frag_pn_loop]. mrun (cdf_nbuf_next_run _ _ _ Hb).
  mrun (cdf_nbuf_set_next_run _ _ _ None Hb).
  set (b1 := set_nb_next None b). set (s1 := set_rx_nbufs (<[f := b1]> (rx_nbufs s)) s).
  assert (rx_nbufs s1 !! f = Some b1) as Hb1 by apply lookup_insert_eq.
  mrun (pn_check_one_run s1 p f tid x b1 Hx Hb1 eq_refl Hdone _ Hr).
  exists (delete f (<[f := b1]> (rx_nbufs s))).
  split; [unfold pn_state; by rewrite insert_id|].
  rewrite delete_insert_eq. intros y. case_decide as Hy.
  - apply list_elem_of_singleton in Hy as ->. apply lookup_delete_eq.
  - apply lookup_delete_ne. set_solver.
Qed.

Lemma frag_pn_loop_run p tid l : ∀ fuel s l0 x fs ok x',
  rx_peers s !! p = Some x → nlist (rx_nbufs s) (hd_error (l0 ++ l)) (l0 ++ l) → NoDup (l0 ++ l) →
  nlist (rx_nbufs s) (hd_error l) l → Forall2 (frag_is (rx_nbufs s)) l fs → Forall frag_ok fs →
  pn_all tid x fs.*1 = Some (ok, x') → (length l ≤ fuel)%nat →
  ∃ nb lg, frag_pn_loop fuel p tid (hd_error (l0 ++ l)) (last l0) (hd_error l) s =
      Some (ok, pn_state p nb x' lg s) ∧
    if ok then lg = rx_log s ∧ rewritten (rx_nbufs s) nb l (trim DEFRAG_IEEE80211_FCS_LEN <$> fs.*2)
    else freed (rx_nbufs s) nb (l0 ++ l) ∧
      ∃ f, f ∈ l ∧ lg = rx_log s ++ [EvRxErr OL_RX_ERR_PN p tid (Some f)].
Proof.
  induction l as [|f l IH]; intros fuel s l0 x fs ok x' Hx Hn Hnd Hnl Hh Hok Hall Hf.
  - apply Forall2_nil_inv_l in Hh as ->. simpl in Hall. simplify_eq.
    exists (rx_nbufs s), (rx_log s). rewrite pn_state_same by done.
    split; [by destruct fuel|]. split; [done|apply rewritten_nil].
  - destruct fuel as [|fuel]; simpl in Hf; [lia|].
    destruct fs as [|[d e] fs]; [by inversion Hh|].
    apply Forall2_cons in Hh as [(b & Hb & Hbd & Hbe) Hh]. simpl in Hbd, Hbe. subst d e.
    apply Forall_cons in Hok as [[Hdone Hsm] Hok]. simpl in Hdone, Hsm.
    destruct Hnl as (_ & b' & Hb' & Hnl). rewrite Hb in Hb'. injection Hb' as <-.
    pose proof (nlist_head _ _ _ Hnl) as Hnext. rewrite Hnext in Hnl.
    pose proof Hnd as (Hnd0 & Hdis & [Hfl Hndl]%NoDup_cons)%NoDup_app.
    cbn [hd_error fmap list_fmap fst pn_all] in *. apply bind_Some in Hall as ([x1|] & Hr & Hall).
    + rewrite (pn_round fuel s p tid x x1 f b) by done. rewrite Hnext.
      set (d := trim DEFRAG_IEEE80211_FCS_LEN (nb_data b)). set (s3 := put_peer p x1 _).
      assert (rewritten (rx_nbufs s) (rx_nbufs s3) [f] [d]) as Hrw
        by (apply (rewritten_cons _ _ _ b); [done|set_solver|apply rewritten_nil]).
      assert (l0 ++ f :: l = (l0 ++ [f]) ++ l) as Happ by (by rewrite <- app_assoc).
      rewrite Happ in *. destruct (IH fuel s3 (l0 ++ [f]) x1 fs ok x') as (nb & lg & Hrun & Hres);
        [apply lookup_insert_eq|by eapply rewritten_nlist|done|by eapply rewritten_nlist| |done..|lia|].
      { by apply (Forall2_insert_ne (λ c fr, nb_desc c = fr.1 ∧ nb_data c = fr.2)). }
      rewrite last_snoc in Hrun. exists nb, lg. rewrite Hrun.
      split; [unfold s3; by rewrite pn_state_step|]. destruct ok.
      * destruct Hres as [-> Hres]. split; [done|]. by eapply rewritten_cons.
      * destruct Hres as (Hfr & g & Hg & ->). split; [|exists g; split; [by right|done]].
        eapply (rewritten_freed _ _ _ [f]); [exact Hrw| |exact Hfr]. set_solver.
    + simplify_eq. destruct (pn_round_replay fuel s p tid x' f b (hd_error (l0 ++ f :: l)) (last l0))
        as (nb1 & -> & Hfr1); [done..|]. rewrite Hnext.
      destruct (replay_cleanup (pn_state p nb1 x' (rx_log s ++ [EvRxErr OL_RX_ERR_PN p tid (Some f)]) s)
        l0 l (hd_error (l0 ++ f :: l))) as (nb & -> & Hfr2).
      * apply nlist_linked in Hn. eapply linked_frame; [|apply (linked_app_inv _ _ _ Hn)]. intros y Hy.
        simpl. rewrite Hfr1, decide_False; [done|]. intros ->%list_elem_of_singleton. set_solver.
      * eapply freed_nlist; [exact Hfr1| |exact Hnl]. set_solver.
      * apply NoDup_app. split; [done|]. split; [set_solver|done].
      * by destruct l0.
      * eexists nb, _. split; [done|]. split; [|exists f; split; [by left|done]].
        intros y. rewrite (freed_app _ _ _ _ _ Hfr1 Hfr2 y). repeat case_decide; set_solver.
Qed.

(** * Recombination *)

(** The bytes [acc] followed by those of the other fragments without their
    headers; [None] when a buffer cannot be enlarged. *)
Fixpoint join (expand : list Z → list Z → bool) (hdr : nat) (acc : list Z) (ds : list (list Z)) :
    option (list Z) :=
  match ds with
  | [] => Some acc
  | d :: ds => if expand acc (pull hdr d) then join expand hdr (acc ++ pull hdr d) ds else None
  end.

Lemma freed_nil nb : freed nb nb [].
Proof. intros y. by rewrite decide_False by set_solver. Qed.

Lemma freed_delete nb x : freed nb (delete x nb) [x].
Proof.
  intros y. case_decide as Hy.
  - apply list_elem_of_singleton in Hy as ->. apply lookup_delete_eq.
  - apply lookup_delete_ne. set_solver.
Qed.

(** Changes to buffers that are freed do not matter. *)
Lemma freed_insert nb nb' x b l : x ∈ l → freed (<[x := b]> nb) nb' l → freed nb nb' l.
Proof.
  intros Hx Hf y. rewrite Hf. case_decide; [done|]. apply lookup_insert_ne. congruence.
Qed.

Lemma freed_cons nb nb' y l : nb' !! y = None →
  (∀ z, z ≠ y → nb' !! z = if decide (z ∈ l) then None else nb !! z) → freed nb nb' (y :: l).
Proof.
  intros Hy Hz z. destruct (decide (z = y)) as [->|Hzy].
  - rewrite decide_True; [done|]. by left.
  - rewrite Hz by done. apply decide_ext. rewrite elem_of_cons. naive_solver.
Qed.

Lemma freed_perm nb nb' l l' : freed nb nb' l → l ≡ₚ l' → freed nb nb' l'.
Proof. intros Hf Hp x. rewrite Hf. apply decide_ext. by rewrite Hp. Qed.

Section recombine.
Context (env : defrag_env) (hdr : nat).

(** The cleanup when the buffer [y] cannot be appended to [x]. *)
Lemma recombine_cleanup s x y b c l :
  rx_nbufs s !! x = Some b → rx_nbufs s !! y = Some c → nlist (rx_nbufs s) (hd_error l) l →
  NoDup (x :: y :: l) →
  ∃ nb, (ol_rx_frames_free (hd_error l);; htt_rx_desc_frame_free (Some x);;
      htt_rx_desc_frame_free (Some y);; mret false) s = Some (false, set_rx_nbufs nb s) ∧
    freed (rx_nbufs s) nb (x :: y :: l).
Proof using.
  intros Hx Hy Hl [Hxl [Hyl Hnd]%NoDup_cons]%NoDup_cons.
  apply not_elem_of_cons in Hxl as [Hxy Hxl].
  destruct (frames_free_run s l) as (nb & Hfree & Hfr); [done|done|]. mrun Hfree.
  assert (nb !! x = Some b) as Hx' by (by rewrite Hfr, decide_False).
  mrun (htt_rx_desc_frame_free_run (set_rx_nbufs nb s) x b Hx').
  assert (delete x nb !! y = Some c) as Hy'
    by (rewrite lookup_delete_ne, Hfr, decide_False by done; done).
  mrun (htt_rx_desc_frame_free_run (set_rx_nbufs (delete x nb) s) y c Hy').
  exists (delete y (delete x nb)). split; [done|]. cbn [rx_nbufs set_rx_nbufs].
  apply freed_cons; [rewrite lookup_delete_ne by done; apply lookup_delete_eq|]. intros z Hzx.
  destruct (decide (z = y)) as [->|Hzy].
  { rewrite lookup_delete_eq, decide_True; [done|by left]. }
  rewrite !lookup_delete_ne, Hfr by done. apply decide_ext. rewrite elem_of_cons. naive_solver.
Qed.

(** One round of the loop up to [cdf_nbuf_cat]: the buffer [y] is taken from
    the list and its header removed. *)
Lemma recombine_round fuel s x y c : rx_nbufs s !! y = Some c →
  let e := pull hdr (nb_data c) in
  let s2 := set_rx_nbufs (<[y := set_nb_data e (set_nb_next None c)]> (rx_nbufs s)) s in
  recombine_loop env (S fuel) (Some x) (Some y) hdr s =
    (ok ← cdf_nbuf_cat (nbuf_expand env) (Some x) (Some y);
     if negb ok then
       ol_rx_frames_free (nb_next c);; htt_rx_desc_frame_free (Some x);;
       htt_rx_desc_frame_free (Some y);; mret false
     else recombine_loop env fuel (Some x) (nb_next c) hdr) s2.
Proof using.
  intros Hy e s2. cbn [recombine_loop]. mrun (cdf_nbuf_next_run _ _ _ Hy).
  mrun (cdf_nbuf_set_next_run _ _ _ None Hy). set (c1 := set_nb_next None c).
  set (s1 := set_rx_nbufs (<[y := c1]> (rx_nbufs s)) s).
  destruct (pull_head_run s1 y c1 (lookup_insert_eq _ _ _) hdr) as (ok & Hpull). mrun Hpull.
  change (nb_data c1) with (nb_data c). fold e.
  assert (put_data y c1 e s1 = s2) as ->; [|done].
  unfold put_data, s2, s1, set_rx_nbufs. simpl. by rewrite insert_insert_eq.
Qed.

(** What [cdf_nbuf_cat] leaves of the pool when the buffer [y] is appended to
    [x]. *)
Lemma cat_freed nb x y b c : x ≠ y →
  freed (<[x := b]> nb) (delete y (<[x := b]> (<[y := c]> nb))) [y].
Proof using.
  intros Hxy. rewrite insert_insert_ne, delete_insert_eq by done. apply freed_delete.
Qed.

Lemma recombine_loop_run l : ∀ fuel s x b ds,
  rx_nbufs s !! x = Some b → nlist (rx_nbufs s) (hd_error l) l → Forall2 (holds (rx_nbufs s)) l ds →
  NoDup (x :: l) → (length l ≤ fuel)%nat →
  ∃ nb, match join (nbuf_expand env) hdr (nb_data b) ds with
  | Some d => recombine_loop env fuel (Some x) (hd_error l) hdr s = Some (true, set_rx_nbufs nb s) ∧
      freed (<[x := set_nb_data d b]> (rx_nbufs s)) nb l
  | None => recombine_loop env fuel (Some x) (hd_error l) hdr s = Some (false, set_rx_nbufs nb s) ∧
      freed (rx_nbufs s) nb (x :: l)
  end.
Proof using.
  induction l as [|y l IH]; intros fuel s x b ds Hx Hl Hh Hnd Hf.
  - apply Forall2_nil_inv_l in Hh as ->. exists (rx_nbufs s). cbn [join].
    replace (set_nb_data (nb_data b) b) with b by (by destruct b).
    rewrite insert_id, set_rx_nbufs_id by done. split; [by destruct fuel|apply freed_nil].
  - destruct fuel as [|fuel]; simpl in Hf; [lia|].
    destruct ds as [|d ds]; [by inversion Hh|]. apply Forall2_cons in Hh as [(c & Hy & <-) Hh].
    destruct Hl as (_ & c' & Hy' & Hl). rewrite Hy in Hy'. injection Hy' as <-.
    pose proof (nlist_head _ _ _ Hl) as Hnext. rewrite Hnext in Hl.
    pose proof Hnd as [Hxl [Hyl Hnd']%NoDup_cons]%NoDup_cons.
    apply not_elem_of_cons in Hxl as [Hxy Hxl].
    cbn [hd_error]. rewrite (recombine_round fuel s x y c Hy), Hnext. cbv zeta.
    set (e := pull hdr (nb_data c)). set (c1 := set_nb_data e (set_nb_next None c)).
    set (s2 := set_rx_nbufs _ s).
    assert (rx_nbufs s2 !! x = Some b) as Hx2 by (simpl; by rewrite lookup_insert_ne).
    assert (rx_nbufs s2 !! y = Some c1) as Hy2 by apply lookup_insert_eq.
    assert (∀ z, z ∈ l → rx_nbufs s2 !! z = rx_nbufs s !! z) as Hl2
      by (intros z Hz; apply lookup_insert_ne; congruence).
    cbn [join]. fold e. destruct (nbuf_expand env (nb_data b) e) eqn:Hexp.
    + mrun (cdf_nbuf_cat_run (nbuf_expand env) s2 x y b _ Hx2 Hy2 Hxy Hexp).
      cbn [negb nb_data set_nb_data]. set (b1 := set_nb_data (nb_data b ++ e) b).
      set (s3 := set_rx_nbufs _ s2).
      assert (rx_nbufs s3 !! x = Some b1) as Hx3.
      { change (rx_nbufs s3) with (delete y (<[x := b1]> (rx_nbufs s2))).
        rewrite lookup_delete_ne by done. apply lookup_insert_eq. }
      assert (∀ z, z ∈ l → rx_nbufs s3 !! z = rx_nbufs s !! z) as Hl3
        by (intros z Hz; simpl; rewrite lookup_delete_ne, !lookup_insert_ne by congruence; done).
      destruct (IH fuel s3 x b1 ds Hx3) as (nb & Hres);
        [by eapply nlist_frame|by eapply (Forall2_frame (λ c d, nb_data c = d))|by constructor|lia|].
      exists nb. change (nb_data b1) with (nb_data b ++ e) in Hres.
      destruct (join _ _ _ _) as [d|]; destruct Hres as [Hrun Hfr]; (split; [exact Hrun|]).
      * apply (freed_app _ (delete y (<[x := set_nb_data d b]> (<[y := c1]> (rx_nbufs s)))) _ [y] l);
          [by apply cat_freed|]. change (set_nb_data d b) with (set_nb_data d b1).
        change (rx_nbufs s3) with (delete y (<[x := b1]> (<[y := c1]> (rx_nbufs s)))) in Hfr.
        by rewrite <- delete_insert_ne, insert_insert_eq in Hfr by done.
      * apply (freed_insert _ _ x b1); [by left|]. apply (freed_perm _ _ ([y] ++ x :: l)).
        { eapply freed_app; [|exact Hfr]. by apply cat_freed. }
        apply (Permutation_swap x y l).
    + mrun (cdf_nbuf_cat_fails (nbuf_expand env) s2 x y b _ Hx2 Hy2 Hexp). cbn [negb].
      destruct (recombine_cleanup s2 x y b c1 l Hx2 Hy2) as (nb & Hrun & Hfr);
        [by eapply nlist_frame|done|]. exists nb. split; [exact Hrun|].
      eapply (freed_insert _ _ y); [by right; left|exact Hfr].
Qed.
End recombine.

(** * The recombined frame *)

(** [ol_rx_frag_tkip_demic] on the bytes: a code that is not the message's is
    removed, the right one refused. *)
Definition demic_bytes (key : list Z) (hdr : nat) (d : list Z) : option (option (list Z)) :=
  pseudo ← ol_rx_defrag_michdr d;
  let n := (length d - (hdr + ic_miclen f_tkip))%nat in
  msg ← bytes_at d hdr n;
  mic ← michael key (pseudo ++ msg);
  mic0 ← bytes_at d (hdr + n) (ic_miclen f_tkip);
  Some (if decide (mic = mic0) then None else Some (take (hdr + n) d)).

(** [ol_rx_defrag_qos_decap] on the bytes. *)
Definition qos_bytes (hdr : nat) (d : list Z) : option (list Z) :=
  fc0 ← i_fc0 d;
  if DEFRAG_IEEE80211_QOS_HAS_SEQ fc0 then
    fc1 ← i_fc1 d;
    let qoslen :=
      if negb (Z.land fc1 IEEE80211_FC1_ORDER =? 0)
      then (sizeof_ieee80211_qoscntl + sizeof_ieee80211_htc)%nat else sizeof_ieee80211_qoscntl in
    d ← move_bytes d qoslen 0 (Z.to_nat (u16 (Z.of_nat hdr - Z.of_nat qoslen)));
    let d := drop qoslen d in
    fc0 ← i_fc0 d;
    put_bytes d 0 [Z.land fc0 (Z.lnot IEEE80211_FC0_SUBTYPE_QOS)]
  else Some d.

(** [ol_rx_defrag_nwifi_to_8023] on the bytes. *)
Definition eth_bytes (d : list Z) : option (list Z) :=
  wh ← bytes_at d 0 sizeof_ieee80211_frame;
  llchdr ← bytes_at d sizeof_ieee80211_frame LLC_SNAP_HDR_LEN;
  let d := drop (sizeof_ieee80211_frame + LLC_SNAP_HDR_LEN - ETHERNET_HDR_LEN) d in
  addrs ← nwifi_addrs wh;
  d ← match addrs with
      | Some (da, sa) => d ← put_bytes d 0 da; put_bytes d IEEE80211_ADDR_LEN sa
      | None => Some d
      end;
  put_bytes d (2 * IEEE80211_ADDR_LEN) (drop LLC_SNAP_HDR_OFFSET_ETHERTYPE llchdr).

Section finish.
Context (s : rx_state) (x : positive) (b : nbuf) (Hb : rx_nbufs s !! x = Some b).
Context (Hnext : nb_next b = None) (Hlen : Z.of_nat (length (nb_data b)) < 65536).

Lemma tkip_demic_run key hdr r : demic_bytes key hdr (nb_data b) = Some r →
  ∃ d, ol_rx_frag_tkip_demic key (Some x) hdr s = Some (bool_decide (is_Some r), put_data x b d s) ∧
    ∀ d', r = Some d' → d = d'.
Proof using Hb Hnext Hlen.
  unfold demic_bytes. intros (pseudo & Hps & H)%bind_Some.
  apply bind_Some in H as (msg & Hmsg & H). apply bind_Some in H as (mic & Hmic & H).
  apply bind_Some in H as (mic0 & Hmic0 & [= <-]).
  change (ic_miclen f_tkip) with 8%nat in *.
  set (d := nb_data b) in *. set (n := (length d - (hdr + 8))%nat) in *.
  assert (hdr + n + 8 = length d)%nat as Hn.
  { unfold bytes_at in Hmic0. destruct (Nat.leb_spec (hdr + n + 8) (length d)); [|done].
    unfold n in *. lia. }
  pose proof (bytes_at_length _ _ _ _ Hmsg) as Hml.
  assert (drop hdr d = msg ++ drop (hdr + n) d) as Hcut.
  { unfold bytes_at in Hmsg. destruct (Nat.leb_spec (hdr + n) (length d)); [|done].
    simplify_eq. by rewrite <- drop_drop, take_drop. }
  unfold ol_rx_frag_tkip_demic. mrun (cdf_nbuf_len_run _ _ _ Hb). fold d.
  change (Z.of_nat (ic_miclen f_tkip)) with 8.
  rewrite wrap_small by lia. replace (Z.of_nat (length d) - (Z.of_nat hdr + 8))
    with (Z.of_nat (length msg)) by lia.
  assert (nlist (rx_nbufs s) (Some x) [x]) as Hl
    by (split; [done|]; exists b; by rewrite Hnext).
  mrun (defrag_mic_run s x [] b [] key hdr (drop hdr d) msg (drop (hdr + n) d) pseudo mic Hl
    (NoDup_singleton x) Hb (Forall2_nil_2 _ _ _) eq_refl ltac:(fold d; lia) Hcut ltac:(lia)
    ltac:(constructor; [rewrite length_drop; lia|done]) Hps Hmic).
  unfold cdf_nbuf_copy_bits. mrun (cdf_nbuf_data_run _ _ _ Hb). mstep. fold d.
  rewrite (proj2 (Z.ltb_ge _ _)) by lia.
  replace (Z.to_nat (Z.of_nat (length d) - 8)) with (hdr + n)%nat by lia.
  rewrite (run_deref _ _ _ _ Hmic0). case_decide as Heq.
  - unfold cdf_mem_compare. rewrite bool_decide_eq_true_2 by done. exists d. by rewrite put_data_same.
  - unfold cdf_mem_compare. rewrite bool_decide_eq_false_2 by done.
    change (ic_miclen f_tkip) with 8%nat. change (length d - (hdr + _))%nat with n.
    erewrite run_bind by (apply trim_tail_run; [done|lia|lia|fold d; lia]).
    fold d. unfold trim. rewrite (proj2 (Nat.leb_le _ _)) by lia.
    replace (length d - 8)%nat with (hdr + n)%nat by lia.
    exists (take (hdr + n) d). split; [done|congruence].
Qed.

Lemma qos_decap_run hdr d : qos_bytes hdr (nb_data b) = Some d →
  (fc0 ← deref (i_fc0 (nb_data b));
   when (DEFRAG_IEEE80211_QOS_HAS_SEQ fc0) (ol_rx_defrag_qos_decap (Some x) hdr)) s =
    Some (tt, put_data x b d s).
Proof using Hb.
  unfold qos_bytes. intros (fc0 & Hfc0 & H)%bind_Some. rewrite (run_deref _ _ _ _ Hfc0).
  unfold ol_rx_defrag_qos_decap.
  destruct (DEFRAG_IEEE80211_QOS_HAS_SEQ fc0) eqn:Hq; cbn [when].
  2:{ simplify_eq. by rewrite put_data_same. }
  apply bind_Some in H as (fc1 & Hfc1 & H).
  mrun (cdf_nbuf_data_run _ _ _ Hb). rewrite (run_deref _ _ _ _ Hfc0), (run_deref _ _ _ _ Hfc1).
  rewrite Hq. cbn [when]. cbv zeta in H |- *.
  set (qoslen := if negb _ then _ else _) in *.
  apply bind_Some in H as (d1 & Hd1 & H). apply bind_Some in H as (fc0' & Hfc0' & H).
  rewrite (run_deref _ _ _ _ Hd1). mrun (put_nbuf_data_run _ _ _ d1 Hb). fold (put_data x b d1 s).
  apply move_bytes_length in Hd1 as [Hlen1 Hle].
  pose proof (put_data_lookup x b d1 s) as Hb1.
  mrun (cdf_nbuf_pull_head_run _ _ _ qoslen Hb1 ltac:(simpl; lia)). cbn [nb_data set_nb_data].
  fold (put_data x (set_nb_data d1 b) (drop qoslen d1) (put_data x b d1 s)). rewrite put_data_twice.
  cbn [when]. pose proof (put_data_lookup x b (drop qoslen d1) s) as Hb2.
  mrun (cdf_nbuf_data_run _ _ _ Hb2). cbn [nb_data set_nb_data].
  rewrite (run_deref _ _ _ _ Hfc0'), (run_deref _ _ _ _ H).
  rewrite (put_nbuf_data_run _ _ _ d Hb2).
  fold (put_data x (set_nb_data (drop qoslen d1) b) d (put_data x b (drop qoslen d1) s)).
  by rewrite put_data_twice.
Qed.

Lemma nwifi_to_8023_run d : eth_bytes (nb_data b) = Some d →
  ol_rx_defrag_nwifi_to_8023 (Some x) s = Some (tt, put_data x b d s).
Proof using Hb.
  unfold eth_bytes. intros (wh & Hwh & H)%bind_Some. apply bind_Some in H as (llc & Hllc & H).
  cbv zeta in H. apply bind_Some in H as (addrs & Ha & H). apply bind_Some in H as (d1 & Hd1 & H).
  unfold ol_rx_defrag_nwifi_to_8023. mrun (cdf_nbuf_data_run _ _ _ Hb).
  rewrite (run_deref _ _ _ _ Hwh), (run_deref _ _ _ _ Hllc).
  set (k := (sizeof_ieee80211_frame + LLC_SNAP_HDR_LEN - ETHERNET_HDR_LEN)%nat) in *.
  assert (k ≤ length (nb_data b))%nat as Hk.
  { unfold bytes_at in Hllc. destruct (Nat.leb_spec (sizeof_ieee80211_frame + LLC_SNAP_HDR_LEN)
      (length (nb_data b))); [|done]. unfold k. lia. }
  mrun (cdf_nbuf_pull_head_run _ _ _ k Hb Hk). fold (put_data x b (drop k (nb_data b)) s).
  pose proof (put_data_lookup x b (drop k (nb_data b)) s) as Hb2.
  mrun (cdf_nbuf_data_run _ _ _ Hb2). cbn [nb_data set_nb_data].
  rewrite (run_deref _ _ _ _ Ha), (run_deref _ _ _ _ Hd1), (run_deref _ _ _ _ H).
  rewrite (put_nbuf_data_run _ _ _ d Hb2).
  fold (put_data x (set_nb_data (drop k (nb_data b)) b) d (put_data x b (drop k (nb_data b)) s)).
  by rewrite put_data_twice.
Qed.
End finish.

(** What follows the recombination: [Some None] when the integrity code is
    refused. *)
Definition finish_bytes (env : defrag_env) (tkip_demic : bool) (key : list Z) (hdr : nat)
    (d : list Z) : option (option (list Z)) :=
  r ← (if tkip_demic then
         key ← bytes_at key 0 DEFRAG_IEEE80211_KEY_LEN; demic_bytes key hdr d
       else Some (Some d));
  match r with
  | None => Some None
  | Some d =>
      d ← qos_bytes hdr d;
      d ← (if decide (frame_type env = wlan_frm_fmt_802_3) then eth_bytes d else Some d);
      Some (Some d)
  end.

Lemma defrag_finish_run env p tid tkip key hdr s x b r :
  rx_nbufs s !! x = Some b → nb_next b = None → Z.of_nat (length (nb_data b)) < 65536 →
  finish_bytes env tkip key hdr (nb_data b) = Some r →
  match r with
  | Some d => defrag_finish env p tid tkip key (Some x) hdr s =
      rx_fwd_check env p tid (Some x) (put_data x b d s)
  | None => defrag_finish env p tid tkip key (Some x) hdr s =
      Some (tt, set_rx_log (rx_log s ++ [EvRxErr OL_RX_ERR_DEFRAG_MIC p tid (Some x)])
        (set_rx_nbufs (delete x (rx_nbufs s)) s))
  end.
Proof.
  intros Hb Hn Hlen. unfold finish_bytes, defrag_finish. intros (r1 & Hr1 & H)%bind_Some.
  assert (∃ d, (if tkip then key ← deref (bytes_at key 0 DEFRAG_IEEE80211_KEY_LEN);
          ol_rx_frag_tkip_demic key (Some x) hdr else mret true) s =
      Some (bool_decide (is_Some r1), put_data x b d s) ∧ ∀ d', r1 = Some d' → d = d')
    as (d & Hrun & Hd).
  { destruct tkip.
    - apply bind_Some in Hr1 as (k & Hk & Hr1). rewrite (run_deref _ _ _ _ Hk).
      by apply tkip_demic_run.
    - simplify_eq. exists (nb_data b). rewrite put_data_same by done.
      rewrite bool_decide_eq_true_2 by done. split; [done|congruence]. }
  rewrite (run_bind _ _ _ _ _ Hrun). destruct r1 as [d1|].
  - rewrite (Hd d1 eq_refl). rewrite bool_decide_eq_true_2 by done. cbn [negb].
    apply bind_Some in H as (d2 & Hq & H). apply bind_Some in H as (d3 & He & [= <-]).
    pose proof (put_data_lookup x b d1 s) as Hb1. mrun (cdf_nbuf_data_run _ _ _ Hb1).
    pose proof (qos_decap_run _ _ _ Hb1 hdr d2 Hq) as Hrunq. rewrite <- run_assoc.
    rewrite (run_bind _ _ _ _ _ Hrunq), put_data_twice. pose proof (put_data_lookup x b d2 s) as Hb2.
    case_decide as Hf.
    + rewrite bool_decide_eq_true_2 by done. cbn [when].
      rewrite (run_bind _ _ _ _ _ (nwifi_to_8023_run _ _ _ Hb2 d3 He)). by rewrite put_data_twice.
    + rewrite bool_decide_eq_false_2 by done. cbn [when]. by simplify_eq.
  - simplify_eq. rewrite bool_decide_eq_false_2 by by intros []. cbn [negb].
    mrun (htt_rx_desc_frame_free_run _ _ _ (put_data_lookup x b d s)).
    unfold emit. unfold modify. unfold put_data. simpl. by rewrite delete_insert_eq.
Qed.
