(* ===== verification/RxDefragProofs.v ===== *)
(** Complete lists of fragments: [ol_rx_defrag] ends in one of three ways, which
    the bytes of the fragments decide. *)
From S2P Require Import Prelude Tailq RxTypes RxReorder RxWindow RxReorderProofs RxFlush RxSession.
From S2P Require Import RxPn RxDefrag RxFrame RxMichael RxDecap.
From S2P Require Import RxDecapProofs.

(** * The result *)

Inductive defrag_result : Type :=
| Discarded
| MicError
| Delivered (d : list Z).

(** What becomes of fragments with the bytes [fs], whose packet numbers are
    good: [sec] and [key] are the peer's. *)
Definition defrag_bytes (env : defrag_env) (sec : txrx_sec) (fs : list (list Z)) :
    option defrag_result :=
  let ds := trim DEFRAG_IEEE80211_FCS_LEN <$> fs in
  d0 ← hd_error ds;
  hdr ← ol_rx_frag_hdrsize d0;
  r ← decap_all (sec_type sec) hdr ds;
  match r with
  | Some (e0 :: es) =>
      match join (nbuf_expand env) hdr e0 es with
      | Some d =>
          d ← clear_frag_fields d;
          r ← finish_bytes env (bool_decide (sec_type sec = htt_sec_type_tkip)) (michael_key sec) hdr d;
          Some (match r with Some d => Delivered d | None => MicError end)
      | None => Some Discarded
      end
  | _ => Some Discarded
  end.

Lemma put_bytes_length l p bs l' : put_bytes l p bs = Some l' → length l' = length l.
Proof.
  unfold put_bytes. destruct (Nat.leb_spec (p + length bs) (length l)); [|done]. intros [= <-].
  rewrite !length_app, length_take, length_drop. lia.
Qed.

Lemma clear_frag_fields_length d d' : clear_frag_fields d = Some d' → length d' = length d.
Proof.
  unfold clear_frag_fields. intros (fc1 & _ & H)%bind_Some. apply bind_Some in H as (s0 & _ & H).
  apply bind_Some in H as (s1 & _ & H). cbv zeta in H.
  apply bind_Some in H as (d1 & H1%put_bytes_length & H2%put_bytes_length). lia.
Qed.

Lemma join_length expand hdr ds : ∀ acc d, join expand hdr acc ds = Some d →
  (length d ≤ length acc + length (concat ds))%nat.
Proof.
  induction ds as [|e ds IH]; intros acc d; simpl; [intros [= ->]; lia|].
  destruct (expand _ _); [|done]. intros H%IH. rewrite !length_app in *.
  assert (length (pull hdr e) ≤ length e)%nat by
    (unfold pull; destruct (_ <? _)%nat; [|rewrite length_drop]; lia). lia.
Qed.

Lemma decap_bytes_length sec hdr d d' : decap_bytes sec hdr d = Some (Some d') →
  (length d' ≤ length d)%nat.
Proof.
  assert (∀ f n e e', strip_bytes f hdr e = Some e' → (length (trim n e') ≤ length e)%nat) as Hs.
  { intros f n e e' He%strip_bytes_length. pose proof (trim_length n e'). lia. }
  unfold decap_bytes. intros H. destruct sec; try (by injection H as <-).
  1-3: apply bind_Some in H as (e & He & [= <-]); eapply Hs, He.
  1-2: apply bind_Some in H as ([] & _ & H); [|done];
    apply bind_Some in H as (e & He & [= <-]); eapply Hs, He.
  apply bind_Some in H as ([] & _ & H); [|done]. apply bind_Some in H as ([] & _ & H); [|done].
  apply bind_Some in H as (e & He%strip_bytes_length & [= <-]).
  pose proof (trim_length (ic_trailer f_ccmp) d). lia.
Qed.

Lemma decap_all_length sec hdr ds : ∀ ds', decap_all sec hdr ds = Some (Some ds') →
  (length (concat ds') ≤ length (concat ds))%nat.
Proof.
  induction ds as [|d ds IH]; intros ds'; simpl; [by intros [= <-]|].
  intros ([e|] & He & H)%bind_Some; [|done]. apply decap_bytes_length in He.
  apply bind_Some in H as ([es|] & Hes & H); [|done]. injection H as <-. specialize (IH _ Hes).
  cbn [concat option_map]. rewrite !length_app. lia.
Qed.

(** The fragments that [ol_rx_defrag] gets: the list [f :: l] of buffers with
    the descriptors and bytes [fs]. *)
Definition fragments (s : rx_state) (f : positive) (l : list positive)
    (fs : list (rx_desc * list Z)) : Prop :=
  nlist (rx_nbufs s) (Some f) (f :: l) ∧ NoDup (f :: l) ∧
  Forall2 (frag_is (rx_nbufs s)) (f :: l) fs ∧ Forall (λ fr, rd_completes_mpdu fr.1 = true) fs ∧
  Z.of_nat (length (concat fs.*2)) < 65536.

Lemma fragments_ok s f l fs : fragments s f l fs →
  Forall frag_ok fs ∧ (length (f :: l) ≤ size (rx_nbufs s))%nat.
Proof.
  intros (Hn & Hnd & _ & Hc & Hlen). split.
  - clear Hn Hnd. induction Hc as [|[d e] fs Hd _ IH]; [done|].
    cbn [fmap list_fmap snd concat] in Hlen. rewrite length_app in Hlen. constructor.
    + split; [done|]. unfold small. simpl. lia.
    + apply IH. lia.
  - apply NoDup_length_le_size; [done|]. intros y Hy. by eapply nlist_dom.
Qed.

Lemma trim_concat_length n fs : (length (concat (trim n <$> fs)) ≤ length (concat fs))%nat.
Proof.
  induction fs as [|d fs IH]; [done|]. cbn [fmap list_fmap concat]. rewrite !length_app.
  pose proof (trim_length n d). unfold fmap in *. lia.
Qed.

Lemma decap_all_none sec hdr ds : cipher_decap sec hdr = None → decap_all sec hdr ds = Some (Some ds).
Proof.
  intros Hc. induction ds as [|d ds IH]; [done|]. simpl.
  destruct sec; try done; simpl in *; by rewrite IH.
Qed.

(** The switch on the cipher. *)
Lemma decap_switch_run sec hdr s f l ds r :
  nlist (rx_nbufs s) (Some f) (f :: l) → NoDup (f :: l) → Forall2 (holds (rx_nbufs s)) (f :: l) ds →
  Forall small ds → decap_all sec hdr ds = Some r →
  ∃ nb, (match cipher_decap sec hdr with
         | Some decap => n ← num_nbufs; frag_decap_loop decap n (Some f) (Some f)
         | None => mret true
         end) s = Some (bool_decide (is_Some r), set_rx_nbufs nb s) ∧
    match r with
    | Some ds' => rewritten (rx_nbufs s) nb (f :: l) ds'
    | None => freed (rx_nbufs s) nb (f :: l)
    end.
Proof.
  intros Hn Hnd Hh Hsm Hr. destruct (cipher_decap sec hdr) as [decap|] eqn:Hc.
  - destruct (frag_decap_loop_run sec hdr decap (f :: l) Hc (size (rx_nbufs s)) s [] ds r)
      as (nb & Hrun & Hres); try done.
    { apply NoDup_length_le_size; [done|]. intros y Hy. by eapply nlist_dom. }
    exists nb. unfold num_nbufs. mstep. done.
  - rewrite (decap_all_none _ _ _ Hc) in Hr. simplify_eq. exists (rx_nbufs s).
    rewrite set_rx_nbufs_id. split; [done|]. split; [done|].
    eapply Forall2_impl; [exact Hh|]. intros y d (b & Hb & <-). exists b. split; [done|].
    rewrite Hb. by destruct b.
Qed.

(** The run [run] of a function on the fragments [f :: l] of state [s] ends as
    [o] says: it frees every fragment once, or frees all but the first, which
    it hands to [ol_rx_fwd_check] with the frame's bytes.  No other buffer
    changes. *)
Definition ends (env : defrag_env) (p : positive) (tid : Z) (s : rx_state) (f : positive)
    (l : list positive) (o : defrag_result) (run : option (unit * rx_state)) : Prop :=
  ∃ nb, match o with
  | Discarded => run = Some (tt, set_rx_nbufs nb s) ∧ freed (rx_nbufs s) nb (f :: l)
  | MicError =>
      run = Some (tt, set_rx_log (rx_log s ++ [EvRxErr OL_RX_ERR_DEFRAG_MIC p tid (Some f)])
        (set_rx_nbufs nb s)) ∧ freed (rx_nbufs s) nb (f :: l)
  | Delivered d =>
      run = rx_fwd_check env p tid (Some f) (set_rx_nbufs nb s) ∧
      (∃ b, rx_nbufs s !! f = Some b ∧ nb !! f = Some (mk_nbuf None (nb_desc b) d)) ∧
      ∀ z, z ≠ f → nb !! z = if decide (z ∈ l) then None else rx_nbufs s !! z
  end.

Lemma ends_rewritten env p tid s f l o run nb ds :
  rewritten (rx_nbufs s) nb (f :: l) ds → ends env p tid (set_rx_nbufs nb s) f l o run →
  ends env p tid s f l o run.
Proof.
  intros Hrw (nb' & H). exists nb'.
  assert (freed nb nb' (f :: l) → freed (rx_nbufs s) nb' (f :: l)) as Hfr
    by (intros Hf; by eapply rewritten_freed).
  destruct o as [| |d].
  - destruct H as [-> Hf]. split; [done|auto].
  - destruct H as [-> Hf]. split; [done|auto].
  - destruct H as (-> & (b & Hb & Hb') & Hz). split; [done|]. simpl in Hb. split.
    + destruct Hrw as [_ Hrw]. apply Forall2_cons_inv_l in Hrw as (e & ds' & (c & Hc & Hc') & _).
      rewrite Hb in Hc'. injection Hc' as ->. by exists c.
    + intros z Hzf. rewrite Hz by done. case_decide; [done|].
      destruct Hrw as [Hrw _]. apply Hrw. set_solver.
Qed.

(** The recombination and what follows it. *)
Lemma recombine_finish_run env p tid sec hdr s f l e0 es :
  nlist (rx_nbufs s) (Some f) (f :: l) → NoDup (f :: l) →
  Forall2 (holds (rx_nbufs s)) (f :: l) (e0 :: es) →
  Z.of_nat (length (concat (e0 :: es))) < 65536 →
  ∀ o, match join (nbuf_expand env) hdr e0 es with
       | Some d =>
           d ← clear_frag_fields d;
           r ← finish_bytes env (bool_decide (sec_type sec = htt_sec_type_tkip)) (michael_key sec)
                 hdr d;
           Some (match r with Some d => Delivered d | None => MicError end)
       | None => Some Discarded
       end = Some o →
  ends env p tid s f l o
    ((msdu ← ol_rx_defrag_decap_recombine env (Some f) hdr;
      match msdu with
      | None => mret tt
      | Some _ =>
          defrag_finish env p tid (bool_decide (sec_type sec = htt_sec_type_tkip))
            (michael_key sec) msdu hdr
      end) s).
Proof.
  intros (_ & b & Hb & Hn) Hnd Hh Hlen o Ho.
  apply Forall2_cons in Hh as [(b' & Hb' & He0) Hh]. rewrite Hb in Hb'. injection Hb' as <-.
  pose proof (nlist_head _ _ _ Hn) as Hnext. rewrite Hnext in Hn.
  apply NoDup_cons in Hnd as [Hfl Hnd].
  unfold ol_rx_defrag_decap_recombine. mrun (cdf_nbuf_next_run _ _ _ Hb). rewrite Hnext.
  mrun (cdf_nbuf_set_next_run _ _ _ None Hb).
  set (b1 := set_nb_next None b). set (s1 := set_rx_nbufs (<[f := b1]> (rx_nbufs s)) s).
  assert (rx_nbufs s1 !! f = Some b1) as Hb1 by apply lookup_insert_eq.
  unfold num_nbufs. mstep.
  destruct (recombine_loop_run env hdr l (size (rx_nbufs s1)) s1 f b1 es Hb1) as (nb & Hrec).
  { eapply nlist_frame; [|exact Hn]. intros z Hz. apply lookup_insert_ne. congruence. }
  { by apply (Forall2_insert_ne (λ c d, nb_data c = d)). }
  { by constructor. }
  { transitivity (length (f :: l)); [simpl; lia|]. apply NoDup_length_le_size; [by constructor|].
    intros z [->|Hz]%elem_of_cons; [by eexists|]. simpl.
    rewrite lookup_insert_ne by congruence. by eapply nlist_dom. }
  change (nb_data b1) with (nb_data b) in Hrec. rewrite He0 in Hrec.
  destruct (join (nbuf_expand env) hdr e0 es) as [d|] eqn:Hj; destruct Hrec as [Hrun Hfr]; mrun Hrun;
    cbn [negb].
  - apply bind_Some in Ho as (d1 & Hd1 & Ho). apply bind_Some in Ho as (r & Hr & [= <-]).
    assert (rx_nbufs (set_rx_nbufs nb s1) !! f = Some (set_nb_data d b1)) as Hb2.
    { simpl. rewrite Hfr, decide_False by done. apply lookup_insert_eq. }
    set (s2 := set_rx_nbufs nb s1) in *.
    mrun (cdf_nbuf_data_run _ _ _ Hb2). cbn [nb_data set_nb_data].
    rewrite ?run_assoc, (run_deref _ _ _ _ Hd1). mrun (put_nbuf_data_run _ _ _ d1 Hb2).
    fold (put_data f (set_nb_data d b1) d1 s2). rewrite run_ret.
    pose proof (put_data_lookup f (set_nb_data d b1) d1 s2) as Hb3.
    assert (Z.of_nat (length d1) < 65536) as Hd1l.
    { apply join_length in Hj. apply clear_frag_fields_length in Hd1. cbn [concat] in Hlen.
      rewrite length_app in Hlen. lia. }
    pose proof (defrag_finish_run env p tid _ _ hdr _ f _ r Hb3 eq_refl Hd1l Hr) as Hfin.
    assert (∀ z, z ≠ f → nb !! z = if decide (z ∈ l) then None else rx_nbufs s !! z) as Hz.
    { intros z Hzf. rewrite Hfr. destruct (decide (z ∈ l)); [done|]. simpl.
      by rewrite lookup_insert_ne, lookup_insert_ne. }
    destruct r as [d2|].
    + exists (<[f := mk_nbuf None (nb_desc b) d2]> nb). split; [|split].
      * rewrite Hfin, put_data_twice. done.
      * exists b. split; [done|]. apply lookup_insert_eq.
      * intros z Hzf. rewrite lookup_insert_ne by done. by apply Hz.
    + exists (delete f nb). split.
      * rewrite Hfin. unfold put_data. simpl. by rewrite delete_insert_eq.
      * apply freed_cons; [apply lookup_delete_eq|]. intros z Hzf.
        rewrite lookup_delete_ne by done. by apply Hz.
  - simplify_eq. exists nb. split; [done|]. eapply (freed_insert _ _ f b1); [by left|exact Hfr].
Qed.

(** The part of [ol_rx_defrag] after the packet numbers. *)
Lemma defrag_tail_run env p tid s f l fs x mc :
  nlist (rx_nbufs s) (Some f) (f :: l) → NoDup (f :: l) → rx_peers s !! p = Some x →
  Forall2 (holds (rx_nbufs s)) (f :: l) (trim DEFRAG_IEEE80211_FCS_LEN <$> fs) →
  (∃ b, rx_nbufs s !! f = Some b ∧ rd_mcast (nb_desc b) = mc) →
  Z.of_nat (length (concat fs)) < 65536 →
  ∀ o, defrag_bytes env (peer_security mc x) fs = Some o →
  ends env p tid s f l o
    ((wh ← cdf_nbuf_data (Some f);
      hdr_space ← deref (ol_rx_frag_hdrsize wh);
      rx_desc ← htt_rx_msdu_desc_retrieve (Some f);
      x ← get_peer p;
      let sec := peer_security (rd_mcast rx_desc) x in
      ok ← match cipher_decap (sec_type sec) hdr_space with
           | Some decap => n ← num_nbufs; frag_decap_loop decap n (Some f) (Some f)
           | None => mret true
           end;
      if negb ok then mret tt
      else
        msdu ← ol_rx_defrag_decap_recombine env (Some f) hdr_space;
        match msdu with
        | None => mret tt
        | Some _ =>
            defrag_finish env p tid (bool_decide (sec_type sec = htt_sec_type_tkip))
              (michael_key sec) msdu hdr_space
        end) s).
Proof.
  intros Hn Hnd Hx Hh (b & Hb & <-) Hlen o. unfold defrag_bytes. cbv zeta.
  pose proof (trim_concat_length DEFRAG_IEEE80211_FCS_LEN fs) as Htl.
  set (ds := trim DEFRAG_IEEE80211_FCS_LEN <$> fs) in *.
  intros (d0 & Hd0 & H)%bind_Some. apply bind_Some in H as (hdr & Hhdr & H).
  apply bind_Some in H as (r & Hr & H).
  assert (nb_data b = d0) as Hbd.
  { destruct ds as [|d ds']; [done|]. injection Hd0 as ->.
    apply Forall2_cons in Hh as [(b' & Hb' & <-) _]. congruence. }
  mrun (cdf_nbuf_data_run _ _ _ Hb). rewrite Hbd, (run_deref _ _ _ _ Hhdr).
  mrun (htt_rx_msdu_desc_retrieve_run _ _ _ Hb). mrun (get_peer_run _ _ _ Hx).
  set (sec := peer_security (rd_mcast (nb_desc b)) x) in *.
  assert (Forall small ds) as Hsm.
  { apply Forall_forall. intros d Hd. unfold small.
    apply list_elem_of_split in Hd as (d1 & d2 & Ed). rewrite Ed, concat_app in Htl. simpl in Htl.
    rewrite !length_app in Htl. lia. }
  destruct (decap_switch_run (sec_type sec) hdr s f l ds r Hn Hnd Hh Hsm Hr) as (nb & Hrun & Hres).
  mrun Hrun. destruct r as [[|e0 es]|].
  - destruct Hres as [_ Hres]. by inversion Hres.
  - rewrite bool_decide_eq_true_2 by done. cbn [negb].
    eapply ends_rewritten; [exact Hres|]. eapply recombine_finish_run; [| | | |exact H]; try done.
    + by eapply rewritten_nlist.
    + by eapply rewritten_holds.
    + apply decap_all_length in Hr. lia.
  - rewrite bool_decide_eq_false_2 by by intros []. cbn [negb]. simplify_eq. by exists nb.
Qed.

Lemma pn_one_security tid x d x' : pn_one tid x d = Some (Some x') →
  ∀ mc, peer_security mc x' = peer_security mc x.
Proof.
  unfold pn_one. intros H mc. destruct (_ || _); [by simplify_eq|].
  apply bind_Some in H as (valid & _ & H). destruct (negb _); [by simplify_eq|].
  apply bind_Some in H as (lp & _ & H). destruct valid; [|by simplify_eq].
  apply bind_Some in H as (cmp & _ & H). by destruct (cmp _ _ _ _); simplify_eq.
Qed.

Lemma pn_all_security tid ds : ∀ x ok x', pn_all tid x ds = Some (ok, x') →
  ∀ mc, peer_security mc x' = peer_security mc x.
Proof.
  induction ds as [|d ds IH]; intros x ok x' H mc; simpl in H; [by simplify_eq|].
  apply bind_Some in H as ([x1|] & H1 & H); [|by simplify_eq].
  rewrite (IH _ _ _ H mc). by eapply pn_one_security.
Qed.

Lemma ends_pn env p tid s f l o run nb x' ds :
  rewritten (rx_nbufs s) nb (f :: l) ds →
  ends env p tid (pn_state p nb x' (rx_log s) s) f l o run →
  ends env p tid (put_peer p x' s) f l o run.
Proof. intros Hrw. apply (ends_rewritten env p tid (put_peer p x' s) f l o run nb ds Hrw). Qed.

Lemma defrag_run env s p tid x f l fr fs x' o :
  safemode env p = false → rx_peers s !! p = Some x → fragments s f l (fr :: fs) →
  pn_all tid x (fr.1 :: fs.*1) = Some (true, x') →
  defrag_bytes env (peer_security (rd_mcast fr.1) x) (fr.2 :: fs.*2) = Some o →
  ends env p tid (put_peer p x' s) f l o (ol_rx_defrag env p tid (Some f) s).
Proof.
  intros Hsafe Hx Hf Hpn Ho. pose proof (fragments_ok _ _ _ _ Hf) as [Hok Hsz].
  destruct Hf as (Hn & Hnd & Hh & _ & Hlen). unfold ol_rx_defrag. rewrite Hsafe.
  rewrite (run_bind num_nbufs _ s _ s eq_refl).
  destruct (frag_pn_loop_run p tid (f :: l) (size (rx_nbufs s)) s [] x (fr :: fs) true x')
    as (nb & lg & Hrun & -> & Hrw); try done.
  cbn [app hd_error last] in Hrun. mrun Hrun. cbn [negb].
  eapply ends_pn; [exact Hrw|]. eapply (defrag_tail_run _ _ _ _ _ _ (fr.2 :: fs.*2) x' (rd_mcast fr.1));
    try done.
  - by eapply rewritten_nlist.
  - apply lookup_insert_eq.
  - by eapply rewritten_holds.
  - apply Forall2_cons in Hh as [(b & Hb & Hbd & _) _].
    destruct (rewritten_next _ _ _ _ _ _ Hrw Hb) as [d Hd]. exists (set_nb_data d b).
    split; [exact Hd|]. by rewrite <- Hbd.
  - by rewrite (pn_all_security _ _ _ _ _ Hpn).
Qed.

(** C24. What becomes of a complete list of fragments.  If a packet number is a
    replay, every fragment is freed once, the replay is reported and the frame
    is not delivered; otherwise the list ends as [defrag_bytes] decides from
    the bytes alone: all fragments are freed (a fragment is not encrypted as
    the cipher requires, or a buffer cannot be enlarged), all are freed and the
    integrity code is reported, or all but the first are freed and the
    first carries the frame to [ol_rx_fwd_check].  No fragment is leaked or
    freed twice, no other buffer changes, and the loops end. *)
Theorem ol_rx_defrag_ends env s p tid x f l fr fs ok x' :
  safemode env p = false → rx_peers s !! p = Some x → fragments s f l (fr :: fs) →
  pn_all tid x (fr.1 :: fs.*1) = Some (ok, x') →
  if ok then
    ∀ o, defrag_bytes env (peer_security (rd_mcast fr.1) x) (fr.2 :: fs.*2) = Some o →
      ends env p tid (put_peer p x' s) f l o (ol_rx_defrag env p tid (Some f) s)
  else
    ∃ nb g, ol_rx_defrag env p tid (Some f) s =
        Some (tt, pn_state p nb x' (rx_log s ++ [EvRxErr OL_RX_ERR_PN p tid (Some g)]) s) ∧
      g ∈ f :: l ∧ freed (rx_nbufs s) nb (f :: l).
Proof.
  intros Hsafe Hx Hf Hpn. destruct ok; [intros o Ho; by eapply defrag_run|].
  pose proof (fragments_ok _ _ _ _ Hf) as [Hok Hsz]. destruct Hf as (Hn & Hnd & Hh & _ & Hlen).
  unfold ol_rx_defrag. rewrite Hsafe, (run_bind num_nbufs _ s _ s eq_refl).
  destruct (frag_pn_loop_run p tid (f :: l) (size (rx_nbufs s)) s [] x (fr :: fs) false x')
    as (nb & lg & Hrun & Hfr & g & Hg & ->); try done.
  cbn [app hd_error last] in Hrun. mrun Hrun. by exists nb, g.
Qed.
