(* ===== verification/RxRoundtrip.v ===== *)
(** Fragmentation undone: however a sender cuts the encapsulation of an 802.3
    frame into protected fragments, [ol_rx_defrag] rebuilds the frame, except
    that for TKIP it takes a wrong integrity code for a right one and the
    reverse. *)
From S2P Require Import Prelude Tailq RxTypes RxReorder RxFlush RxPn RxDefrag RxFrame RxMichael.
From S2P Require Import RxDecap RxDecapProofs RxDefragProofs.

(** * The sender *)

(** The addresses of a header with the direction [dir] that carries a frame
    from [sa] to [da] through the access point [bssid]. *)
Definition three_addr (dir : Z) (bssid da sa : list Z) : list Z :=
  if dir =? IEEE80211_FC1_DIR_NODS then da ++ sa ++ bssid
  else if dir =? IEEE80211_FC1_DIR_TODS then bssid ++ sa ++ da
  else da ++ bssid ++ sa.

(** The length of the QoS control and HT control fields. *)
Definition qos_length (fc0 fc1 : Z) : nat :=
  if DEFRAG_IEEE80211_QOS_HAS_SEQ fc0
  then if negb (Z.land fc1 IEEE80211_FC1_ORDER =? 0) then 6 else 2 else 0.

Record data_frame : Type := mk_frame {
  df_fc0 : Z;
  df_fc1 : Z;
  df_dur : list Z;
  df_bssid : list Z;
  df_da : list Z;
  df_sa : list Z;
  df_seq : list Z;
  df_qos : list Z;
  df_snap : list Z;
  df_type : list Z;
  df_data : list Z;
}.

Definition df_dir (a : data_frame) : Z := Z.land (df_fc1 a) IEEE80211_FC1_DIR_MASK.

(** A three-address data frame whose fields have the lengths of 802.11. *)
Definition data_frame_ok (a : data_frame) : Prop :=
  Z.land (df_fc0 a) IEEE80211_FC0_TYPE_MASK = IEEE80211_FC0_TYPE_DATA ∧
  df_dir a ≠ IEEE80211_FC1_DIR_DSTODS ∧
  length (df_dur a) = 2%nat ∧ length (df_bssid a) = 6%nat ∧ length (df_da a) = 6%nat ∧
  length (df_sa a) = 6%nat ∧ length (df_seq a) = 2%nat ∧
  length (df_qos a) = qos_length (df_fc0 a) (df_fc1 a) ∧
  length (df_snap a) = 6%nat ∧ length (df_type a) = 2%nat.

Definition df_header (a : data_frame) : list Z :=
  [df_fc0 a; df_fc1 a] ++ df_dur a ++ three_addr (df_dir a) (df_bssid a) (df_da a) (df_sa a) ++
  df_seq a ++ df_qos a.

(** The 802.3 form. *)
Definition df_802_3 (a : data_frame) : list Z := df_da a ++ df_sa a ++ df_type a ++ df_data a.

(** The body: LLC/SNAP and data.  TKIP appends the integrity code of the pseudo
    header and the body. *)
Definition df_priority (a : data_frame) : Z :=
  match df_qos a with [] => 0 | q :: _ => Z.land q IEEE80211_QOS_TID end.
Definition df_plain (a : data_frame) : list Z := df_snap a ++ df_type a ++ df_data a.
Definition df_pseudo (a : data_frame) : list Z :=
  df_da a ++ df_sa a ++ [df_priority a; 0; 0; 0].

Definition df_code (sec : txrx_sec) (a : data_frame) : option (list Z) :=
  key ← bytes_at (michael_key sec) 0 DEFRAG_IEEE80211_KEY_LEN;
  michael key (df_pseudo a ++ df_plain a).

(** What the receiver makes of a frame that carries the code [mic]. *)
Definition outcome (sec : txrx_sec) (a : data_frame) (mic : list Z) : option defrag_result :=
  if decide (sec_type sec = htt_sec_type_tkip) then
    code ← df_code sec a;
    Some (if decide (code = mic) then MicError else Delivered (df_802_3 a))
  else Some (Delivered (df_802_3 a)).

(** One protected fragment on its way: header, initialisation vector, a part
    of the body, the cipher's trailer and the checksum. *)
Record piece : Type := mk_piece {
  pc_hdr : list Z;
  pc_iv : list Z;
  pc_body : list Z;
  pc_trailer : list Z;
  pc_fcs : list Z;
}.

Definition wire (c : piece) : list Z :=
  pc_hdr c ++ pc_iv c ++ pc_body c ++ pc_trailer c ++ pc_fcs c.

(** The lengths that the cipher prescribes; TKIP and CCMP mark the vector as
    extended. *)
Definition cipher_lengths (sec : htt_sec_type) : nat * nat :=
  match sec with
  | htt_sec_type_tkip | htt_sec_type_tkip_nomic => (8%nat, 4%nat)
  | htt_sec_type_aes_ccmp => (8%nat, 8%nat)
  | htt_sec_type_wep40 | htt_sec_type_wep104 | htt_sec_type_wep128 => (4%nat, 4%nat)
  | _ => (0%nat, 0%nat)
  end.

Definition ext_iv (sec : htt_sec_type) : bool :=
  match sec with
  | htt_sec_type_tkip | htt_sec_type_tkip_nomic | htt_sec_type_aes_ccmp => true
  | _ => false
  end.

Definition piece_ok (sec : htt_sec_type) (hdr : nat) (c : piece) : Prop :=
  length (pc_hdr c) = hdr ∧ length (pc_iv c) = (cipher_lengths sec).1 ∧
  length (pc_trailer c) = (cipher_lengths sec).2 ∧ length (pc_fcs c) = DEFRAG_IEEE80211_FCS_LEN ∧
  (ext_iv sec = true → ∃ q, pc_iv c !! IEEE80211_WEP_IVLEN = Some q ∧
    Z.land q IEEE80211_WEP_EXTIV ≠ 0).

(** The pieces [c :: cs] carry the frame [a] with the integrity code [mic], which
    only TKIP has: the first one has the frame's header, and together they have
    its body. *)
Definition mic_length (sec : htt_sec_type) : nat :=
  if decide (sec = htt_sec_type_tkip) then ic_miclen f_tkip else 0.

Definition sends (sec : txrx_sec) (a : data_frame) (mic : list Z) (c : piece) (cs : list piece) :
    Prop :=
  pc_hdr c = df_header a ∧ Forall (piece_ok (sec_type sec) (length (df_header a))) (c :: cs) ∧
  length mic = mic_length (sec_type sec) ∧ df_plain a ++ mic = concat (pc_body <$> c :: cs).

(** * One fragment received *)

Lemma strip_wire f h iv m : ic_header f = length iv →
  strip_bytes f (length h) (h ++ iv ++ m) = Some (h ++ m).
Proof.
  intros Hf. unfold strip_bytes. destruct (move_over h iv m) as (d & Hd & Hdd & _).
  by rewrite Hf, Hd; simpl; rewrite Hdd.
Qed.

Lemma has_ext_iv_wire h iv m q : iv !! IEEE80211_WEP_IVLEN = Some q →
  Z.land q IEEE80211_WEP_EXTIV ≠ 0 → has_ext_iv (h ++ iv ++ m) (length h) = Some true.
Proof.
  intros Hq Hne. unfold has_ext_iv.
  rewrite lookup_app_r by lia.
  replace (length h + IEEE80211_WEP_IVLEN - length h)%nat with IEEE80211_WEP_IVLEN by lia.
  rewrite (lookup_app_l_Some _ _ _ _ Hq). cbn [mbind option_bind].
  by destruct (Z.eqb_spec (Z.land q IEEE80211_WEP_EXTIV) 0).
Qed.

Lemma decap_wire sec hdr c : piece_ok sec hdr c →
  decap_bytes sec hdr (trim DEFRAG_IEEE80211_FCS_LEN (wire c)) = Some (Some (pc_hdr c ++ pc_body c)).
Proof.
  destruct c as [h iv m t fcs]. unfold piece_ok, wire. simpl. intros (<- & Hiv & Ht & Hf & Hext).
  rewrite !app_assoc, trim_app by done. rewrite <- !app_assoc.
  destruct sec; simpl in *;
    try (destruct (Hext eq_refl) as (q & Hq & Hne); rewrite (has_ext_iv_wire _ _ _ q) by done; simpl);
    try (rewrite strip_wire by done; simpl; by rewrite app_assoc, trim_app);
    try by (apply nil_length_inv in Hiv as ->; apply nil_length_inv in Ht as ->; simpl;
      rewrite app_nil_r).
  rewrite !app_assoc, trim_app, <- !app_assoc by done.
  rewrite (has_ext_iv_wire _ _ _ q) by done. simpl. by rewrite strip_wire.
Qed.

Lemma decap_wires sec hdr cs : Forall (piece_ok sec hdr) cs →
  decap_all sec hdr (trim DEFRAG_IEEE80211_FCS_LEN <$> (wire <$> cs)) =
    Some (Some ((λ c, pc_hdr c ++ pc_body c) <$> cs)).
Proof.
  induction 1 as [|c cs Hc _ IH]; [done|]. rewrite !fmap_cons. cbn [decap_all].
  rewrite (decap_wire _ _ _ Hc). cbn [mbind option_bind]. by rewrite IH.
Qed.

Lemma join_wires sec hdr expand cs : (∀ d e, expand d e = true) → Forall (piece_ok sec hdr) cs →
  ∀ acc, join expand hdr acc ((λ c, pc_hdr c ++ pc_body c) <$> cs) =
    Some (acc ++ concat (pc_body <$> cs)).
Proof.
  intros He. induction 1 as [|c cs (Hh & _) _ IH]; intros acc.
  - cbn. by rewrite app_nil_r.
  - rewrite !fmap_cons. cbn [join concat]. by rewrite He, pull_app, IH, app_assoc by done.
Qed.

(** * The frame rebuilt *)

(** The fixed 24 bytes of a three-address header. *)
Definition base_hdr (fc0 fc1 : Z) (dur a1 a2 a3 seq : list Z) : list Z :=
  fc0 :: fc1 :: dur ++ a1 ++ a2 ++ a3 ++ seq.

(** The fields have their lengths. *)
Definition base_lengths (dur a1 a2 a3 seq : list Z) : Prop :=
  length dur = 2%nat ∧ length a1 = 6%nat ∧ length a2 = 6%nat ∧ length a3 = 6%nat ∧
  length seq = 2%nat.

(** A list of known length as its elements. *)
Ltac explode l :=
  repeat match goal with
  | H : length l = S _ |- _ => destruct l as [|? l]; [discriminate H|]; injection H as H
  end;
  match goal with H : length l = 0%nat |- _ => apply nil_length_inv in H; subst l end.

Lemma base_hdr_length fc0 fc1 dur a1 a2 a3 seq : base_lengths dur a1 a2 a3 seq →
  length (base_hdr fc0 fc1 dur a1 a2 a3 seq) = sizeof_ieee80211_frame.
Proof.
  intros (Hdur & H1 & H2 & H3 & Hseq). unfold base_hdr. cbn [length]. rewrite !length_app, Hdur, H1, H2, H3, Hseq. done.
Qed.

Lemma clear_base_hdr fc0 fc1 dur a1 a2 a3 seq m : base_lengths dur a1 a2 a3 seq →
  ∃ seq', length seq' = 2%nat ∧
  clear_frag_fields (base_hdr fc0 fc1 dur a1 a2 a3 seq ++ m) =
    Some (base_hdr fc0 (Z.land fc1 (Z.lnot IEEE80211_FC1_MORE_FRAG)) dur a1 a2 a3 seq' ++ m).
Proof.
  intros (Hdur & H1 & H2 & H3 & Hseq).
  explode dur; explode a1; explode a2; explode a3; explode seq.
  eexists [_; _]. split; [done|]. unfold clear_frag_fields, base_hdr. simpl.
  unfold put_bytes. simpl. reflexivity.
Qed.

Lemma base_hdr_addrs fc0 fc1 dur a1 a2 a3 seq m : base_lengths dur a1 a2 a3 seq →
  i_addr 1 (base_hdr fc0 fc1 dur a1 a2 a3 seq ++ m) = Some a1 ∧
  i_addr 2 (base_hdr fc0 fc1 dur a1 a2 a3 seq ++ m) = Some a2 ∧
  i_addr 3 (base_hdr fc0 fc1 dur a1 a2 a3 seq ++ m) = Some a3.
Proof.
  intros (Hdur & H1 & H2 & H3 & Hseq).
  by explode dur; explode a1; explode a2; explode a3; explode seq.
Qed.

Lemma eth_base_hdr fc0 fc1 dur a1 a2 a3 seq da sa snap type data :
  base_lengths dur a1 a2 a3 seq →
  length da = 6%nat → length sa = 6%nat → length snap = 6%nat → length type = 2%nat →
  nwifi_addrs (base_hdr fc0 fc1 dur a1 a2 a3 seq) = Some (Some (da, sa)) →
  eth_bytes (base_hdr fc0 fc1 dur a1 a2 a3 seq ++ snap ++ type ++ data) =
    Some (da ++ sa ++ type ++ data).
Proof.
  intros Hl Hda Hsa Hsnap Htype Haddrs. unfold eth_bytes.
  pose proof (base_hdr_length fc0 fc1 dur a1 a2 a3 seq Hl) as Hlen.
  destruct Hl as (Hdur & H1 & H2 & H3 & Hseq).
  assert (bytes_at (base_hdr fc0 fc1 dur a1 a2 a3 seq ++ snap ++ type ++ data) 0
    sizeof_ieee80211_frame = Some (base_hdr fc0 fc1 dur a1 a2 a3 seq)) as ->
    by (rewrite <- Hlen; apply (bytes_at_mid [])).
  assert (bytes_at (base_hdr fc0 fc1 dur a1 a2 a3 seq ++ snap ++ type ++ data)
    sizeof_ieee80211_frame LLC_SNAP_HDR_LEN = Some (snap ++ type)) as ->.
  { rewrite <- Hlen, (app_assoc snap).
    replace LLC_SNAP_HDR_LEN with (length (snap ++ type)) by (by rewrite length_app, Hsnap, Htype).
    apply bytes_at_mid. }
  cbn [mbind option_bind]. rewrite Haddrs. cbn [mbind option_bind]. clear Haddrs Hlen.
  explode dur; explode a1; explode a2; explode a3; explode seq.
  explode da; explode sa; explode snap; explode type.
  by unfold base_hdr; simpl.
Qed.

(** * Frame control *)

Lemma land_more_frag fc1 m : Z.land (Z.lnot IEEE80211_FC1_MORE_FRAG) m = m →
  Z.land (Z.land fc1 (Z.lnot IEEE80211_FC1_MORE_FRAG)) m = Z.land fc1 m.
Proof. intros H. by rewrite <- Z.land_assoc, H. Qed.

Lemma dir_cases fc1 : let dir := Z.land fc1 IEEE80211_FC1_DIR_MASK in
  dir = IEEE80211_FC1_DIR_NODS ∨ dir = IEEE80211_FC1_DIR_TODS ∨
  dir = IEEE80211_FC1_DIR_FROMDS ∨ dir = IEEE80211_FC1_DIR_DSTODS.
Proof.
  simpl. change IEEE80211_FC1_DIR_MASK with (Z.ones 2). rewrite Z.land_ones by lia.
  pose proof (Z.mod_pos_bound fc1 (2 ^ 2) ltac:(lia)).
  unfold IEEE80211_FC1_DIR_NODS, IEEE80211_FC1_DIR_TODS, IEEE80211_FC1_DIR_FROMDS,
    IEEE80211_FC1_DIR_DSTODS. lia.
Qed.

(** For data frames the two tests of the QoS bit agree. *)
Lemma qos_bit fc0 : Z.land fc0 IEEE80211_FC0_TYPE_MASK = IEEE80211_FC0_TYPE_DATA →
  DEFRAG_IEEE80211_QOS_HAS_SEQ fc0 = negb (Z.land fc0 IEEE80211_FC0_SUBTYPE_QOS =? 0).
Proof.
  intros H. unfold DEFRAG_IEEE80211_QOS_HAS_SEQ. rewrite Z.land_lor_distr_r, H.
  assert (Z.land fc0 IEEE80211_FC0_SUBTYPE_QOS =
    if Z.testbit fc0 7 then IEEE80211_FC0_SUBTYPE_QOS else 0) as ->.
  { change IEEE80211_FC0_SUBTYPE_QOS with (2 ^ 7). apply Z.bits_inj'. intros n Hn.
    rewrite Z.land_spec, Z.pow2_bits_eqb by lia.
    destruct (Z.eqb_spec 7 n) as [<-|Hne].
    - destruct (Z.testbit fc0 7); [|done]. by rewrite Z.pow2_bits_true by lia.
    - rewrite andb_false_r. destruct (Z.testbit fc0 7); [|by rewrite Z.bits_0].
      by rewrite Z.pow2_bits_false by lia. }
  by destruct (Z.testbit fc0 7).
Qed.

(** * The header of a data frame *)

(** The addresses in the order of the header. *)
Lemma three_addr_fields dir bssid da sa :
  length bssid = 6%nat → length da = 6%nat → length sa = 6%nat →
  dir ≠ IEEE80211_FC1_DIR_DSTODS →
  ∃ a1 a2 a3, three_addr dir bssid da sa = a1 ++ a2 ++ a3 ∧
    length a1 = 6%nat ∧ length a2 = 6%nat ∧ length a3 = 6%nat ∧
    ∀ fc0 fc1 dur seq m, base_lengths dur a1 a2 a3 seq → Z.land fc1 IEEE80211_FC1_DIR_MASK = dir →
      nwifi_addrs (base_hdr fc0 fc1 dur a1 a2 a3 seq ++ m) = Some (Some (da, sa)).
Proof.
  intros Hb Hd Hs Hdir. unfold three_addr.
  assert (∀ a1 a2 a3 fc0 fc1 dur seq m, base_lengths dur a1 a2 a3 seq →
    Z.land fc1 IEEE80211_FC1_DIR_MASK = dir →
    nwifi_addrs (base_hdr fc0 fc1 dur a1 a2 a3 seq ++ m) =
      Some (Some (if dir =? IEEE80211_FC1_DIR_NODS then (a1, a2)
                  else if dir =? IEEE80211_FC1_DIR_TODS then (a3, a2) else (a1, a3)))) as Haddr.
  { intros a1 a2 a3 fc0 fc1 dur seq m Hl Hfc.
    destruct (base_hdr_addrs fc0 fc1 dur a1 a2 a3 seq m Hl) as (H1 & H2 & H3).
    unfold nwifi_addrs. change (i_fc1 _) with (Some fc1). cbn [mbind option_bind].
    rewrite H1, H2, H3, Hfc. pose proof (dir_cases fc1) as Hc. cbv zeta in Hc. rewrite Hfc in Hc.
    by destruct Hc as [->|[->|[->|?]]]. }
  destruct (dir =? IEEE80211_FC1_DIR_NODS); [|destruct (dir =? IEEE80211_FC1_DIR_TODS)];
    eexists _, _, _; (split; [reflexivity|]); auto 10.
Qed.

Lemma michdr_addrs wh da sa fc0 prio : nwifi_addrs wh = Some (Some (da, sa)) → i_fc0 wh = Some fc0 →
  (if negb (Z.land fc0 IEEE80211_FC0_SUBTYPE_QOS =? 0)
   then ∃ q, wh !! 24%nat = Some q ∧ prio = Z.land q IEEE80211_QOS_TID else prio = 0) →
  ol_rx_defrag_michdr wh = Some (da ++ sa ++ [prio; 0; 0; 0]).
Proof.
  unfold nwifi_addrs, ol_rx_defrag_michdr. intros (fc1 & -> & H)%bind_Some -> Hprio.
  cbn [mbind option_bind]. cbv zeta in *.
  destruct (_ =? IEEE80211_FC1_DIR_NODS); [|destruct (_ =? IEEE80211_FC1_DIR_TODS);
    [|destruct (_ =? IEEE80211_FC1_DIR_FROMDS); [|done]]];
    apply bind_Some in H as (x & -> & H); apply bind_Some in H as (y & -> & H); simplify_eq;
    cbn [mbind option_bind]; (destruct (negb _); [destruct Hprio as (q & -> & ->)|rewrite Hprio]);
    reflexivity.
Qed.

(** The header of [a] after [clear_frag_fields]. *)
Record rebuilt (a : data_frame) (fc1 : Z) (a1 a2 a3 : list Z) : Prop := {
  rb_order : Z.land fc1 IEEE80211_FC1_ORDER = Z.land (df_fc1 a) IEEE80211_FC1_ORDER;
  rb_lengths : ∀ seq, length seq = 2%nat → base_lengths (df_dur a) a1 a2 a3 seq;
  rb_addrs : ∀ fc0 seq m, length seq = 2%nat →
    nwifi_addrs (base_hdr fc0 fc1 (df_dur a) a1 a2 a3 seq ++ m) = Some (Some (df_da a, df_sa a));
  rb_clear : ∀ m, ∃ seq, length seq = 2%nat ∧ clear_frag_fields (df_header a ++ m) =
    Some (base_hdr (df_fc0 a) fc1 (df_dur a) a1 a2 a3 seq ++ df_qos a ++ m);
}.

Lemma rebuilt_header a : data_frame_ok a → ∃ fc1 a1 a2 a3, rebuilt a fc1 a1 a2 a3.
Proof.
  intros (_ & Hdir & Hdur & Hb & Hda & Hsa & Hseq & _).
  destruct (three_addr_fields _ _ _ _ Hb Hda Hsa Hdir) as (a1 & a2 & a3 & Heq & H1 & H2 & H3 & Haddr).
  assert (∀ seq, length seq = 2%nat → base_lengths (df_dur a) a1 a2 a3 seq) as Hl by done.
  exists (Z.land (df_fc1 a) (Z.lnot IEEE80211_FC1_MORE_FRAG)), a1, a2, a3. split.
  - by apply land_more_frag.
  - done.
  - intros fc0 seq m Hs. apply Haddr; [by apply Hl|]. by apply land_more_frag.
  - intros m. unfold df_header. rewrite Heq.
    destruct (clear_base_hdr (df_fc0 a) (df_fc1 a) (df_dur a) a1 a2 a3 (df_seq a) (df_qos a ++ m))
      as (seq & Hs & Hc); [by apply Hl|]. exists seq. split; [done|].
    rewrite <- Hc. unfold base_hdr. simpl. by rewrite <- !app_assoc.
Qed.

Lemma df_header_length a : data_frame_ok a →
  length (df_header a) = (24 + qos_length (df_fc0 a) (df_fc1 a))%nat.
Proof.
  intros (_ & Hdir & Hdur & Hb & Hda & Hsa & Hseq & Hq & _).
  destruct (three_addr_fields _ _ _ _ Hb Hda Hsa Hdir) as (a1 & a2 & a3 & Heq & H1 & H2 & H3 & _).
  unfold df_header. rewrite Heq, !length_app, Hq, Hdur, Hseq, H1, H2, H3. simpl. lia.
Qed.

Lemma hdrsize_df_header a m : data_frame_ok a →
  ol_rx_frag_hdrsize (df_header a ++ m) = Some (length (df_header a)).
Proof.
  intros Ha. rewrite df_header_length by done. destruct Ha as (_ & Hdir & _).
  unfold ol_rx_frag_hdrsize, df_header. cbn [app i_fc0 i_fc1 lookup list_lookup mbind option_bind].
  cbv zeta. fold (df_dir a). rewrite (proj2 (Z.eqb_neq _ _) Hdir). unfold qos_length.
  destruct (DEFRAG_IEEE80211_QOS_HAS_SEQ (df_fc0 a)); [|done]. by destruct (negb _).
Qed.

(** The QoS and HT control fields are removed. *)
Lemma qos_bytes_base_hdr a fc1 a1 a2 a3 seq m : data_frame_ok a → rebuilt a fc1 a1 a2 a3 →
  length seq = 2%nat → ∃ fc0,
  qos_bytes (length (df_header a)) (base_hdr (df_fc0 a) fc1 (df_dur a) a1 a2 a3 seq ++ df_qos a ++ m) =
    Some (base_hdr fc0 fc1 (df_dur a) a1 a2 a3 seq ++ m).
Proof.
  intros Ha Hr Hs. rewrite df_header_length by done. destruct Ha as (_ & _ & _ & _ & _ & _ & _ & Hq & _).
  pose proof (base_hdr_length (df_fc0 a) fc1 _ _ _ _ _ (rb_lengths _ _ _ _ _ Hr seq Hs)) as Hlen.
  set (h := base_hdr (df_fc0 a) fc1 (df_dur a) a1 a2 a3 seq) in *.
  assert (∀ r, i_fc0 (h ++ r) = Some (df_fc0 a) ∧ i_fc1 (h ++ r) = Some fc1) as Hfc by done.
  unfold qos_bytes. destruct (Hfc (df_qos a ++ m)) as [-> ->]. cbn [mbind option_bind].
  unfold qos_length in *.
  destruct (DEFRAG_IEEE80211_QOS_HAS_SEQ (df_fc0 a)).
  2:{ apply nil_length_inv in Hq as ->. by eexists. }
  rewrite (rb_order _ _ _ _ _ Hr), <- Hq.
  assert ((if negb (Z.land (df_fc1 a) IEEE80211_FC1_ORDER =? 0)
    then (sizeof_ieee80211_qoscntl + sizeof_ieee80211_htc)%nat else sizeof_ieee80211_qoscntl) =
    length (df_qos a)) as -> by (by rewrite Hq; destruct (negb _)).
  replace (Z.to_nat _) with (length h).
  2:{ rewrite Hlen. replace (Z.of_nat _ - Z.of_nat _) with 24 by lia. done. }
  destruct (move_over h (df_qos a) m) as (d & -> & Hd & _). cbn [mbind option_bind]. rewrite Hd.
  eexists. apply (put_bytes_app [] [_] _ [_]). done.
Qed.

(** The pseudo header of the rebuilt frame is the sender's. *)
Lemma michdr_rebuilt a fc1 a1 a2 a3 seq m : data_frame_ok a → rebuilt a fc1 a1 a2 a3 →
  length seq = 2%nat →
  ol_rx_defrag_michdr (base_hdr (df_fc0 a) fc1 (df_dur a) a1 a2 a3 seq ++ df_qos a ++ m) =
    Some (df_pseudo a).
Proof.
  intros (Htype & _ & _ & _ & _ & _ & _ & Hq & _) Hr Hs.
  pose proof (base_hdr_length (df_fc0 a) fc1 _ _ _ _ _ (rb_lengths _ _ _ _ _ Hr seq Hs)) as Hlen.
  apply (michdr_addrs _ _ _ (df_fc0 a)); [by apply (rb_addrs _ _ _ _ _ Hr)|done|].
  rewrite <- qos_bit by done. unfold df_priority, qos_length in *.
  destruct (DEFRAG_IEEE80211_QOS_HAS_SEQ (df_fc0 a)).
  - destruct (df_qos a) as [|q qs]; [by destruct (negb _)|]. exists q. split; [|done].
    rewrite lookup_app_r by (rewrite Hlen; unfold sizeof_ieee80211_frame; lia). by rewrite Hlen.
  - by apply nil_length_inv in Hq as ->.
Qed.

Lemma demic_rebuilt key hdr pseudo plain code mic :
  ol_rx_defrag_michdr (hdr ++ plain ++ mic) = Some pseudo →
  michael key (pseudo ++ plain) = Some code → length mic = 8%nat →
  demic_bytes key (length hdr) (hdr ++ plain ++ mic) =
    Some (if decide (code = mic) then None else Some (hdr ++ plain)).
Proof.
  intros Hp Hcode H8. unfold demic_bytes.
  rewrite Hp. change (ic_miclen f_tkip) with 8%nat. rewrite !length_app, H8.
  replace (length hdr + (length plain + 8) - (length hdr + 8))%nat with (length plain) by lia.
  cbn [mbind option_bind]. rewrite bytes_at_mid. cbn [mbind option_bind]. rewrite Hcode.
  cbn [mbind option_bind]. rewrite <- length_app, app_assoc.
  rewrite <- H8, <- (app_nil_r mic) at 1. rewrite bytes_at_mid. cbn [mbind option_bind].
  by rewrite take_app_length.
Qed.

(** The headers are converted whatever the cipher. *)
Lemma convert_rebuilt a fc1 a1 a2 a3 seq : data_frame_ok a → rebuilt a fc1 a1 a2 a3 →
  length seq = 2%nat →
  (d ← qos_bytes (length (df_header a))
         (base_hdr (df_fc0 a) fc1 (df_dur a) a1 a2 a3 seq ++ df_qos a ++ df_plain a);
   eth_bytes d) = Some (df_802_3 a).
Proof.
  intros Ha Hr Hs.
  destruct (qos_bytes_base_hdr a fc1 a1 a2 a3 seq (df_plain a) Ha Hr Hs) as (fc0 & ->).
  cbn [mbind option_bind].
  destruct Ha as (_ & _ & _ & _ & Hda & Hsa & _ & _ & Hsnap & Htype). unfold df_plain.
  by rewrite (eth_base_hdr fc0 fc1 _ _ _ _ _ (df_da a) (df_sa a)) by
    first [done|by apply Hr|rewrite <- (app_nil_r (base_hdr _ _ _ _ _ _ _)); by apply Hr].
Qed.

(** What [defrag_finish] makes of the rebuilt frame. *)
Lemma finish_rebuilt env sec a fc1 a1 a2 a3 seq mic o : data_frame_ok a → rebuilt a fc1 a1 a2 a3 →
  length seq = 2%nat → frame_type env = wlan_frm_fmt_802_3 →
  length mic = mic_length (sec_type sec) → outcome sec a mic = Some o →
  (r ← finish_bytes env (bool_decide (sec_type sec = htt_sec_type_tkip)) (michael_key sec)
         (length (df_header a))
         (base_hdr (df_fc0 a) fc1 (df_dur a) a1 a2 a3 seq ++ df_qos a ++ df_plain a ++ mic);
   Some (match r with Some d => Delivered d | None => MicError end)) = Some o.
Proof.
  intros Ha Hr Hs Hfmt Hmic Ho. unfold finish_bytes, outcome, mic_length in *.
  pose proof (convert_rebuilt a fc1 a1 a2 a3 seq Ha Hr Hs) as Hconv.
  set (h := base_hdr (df_fc0 a) fc1 (df_dur a) a1 a2 a3 seq) in *. rewrite <- decide_bool_decide.
  destruct (decide (sec_type sec = htt_sec_type_tkip)) as [Ht|Ht].
  - apply bind_Some in Ho as (code & (key & -> & Hcode)%bind_Some & Ho). cbn [mbind option_bind].
    replace (length (df_header a)) with (length (h ++ df_qos a)) in *.
    2:{ unfold h. rewrite df_header_length, length_app, base_hdr_length by first [done|by apply Hr].
        destruct Ha as (_ & _ & _ & _ & _ & _ & _ & -> & _). done. }
    rewrite (app_assoc h), (demic_rebuilt key (h ++ df_qos a) (df_pseudo a) (df_plain a) code mic);
      [|rewrite <- app_assoc; by apply michdr_rebuilt|done..].
    case_decide; [by simplify_eq|]. simplify_eq. cbn [mbind option_bind]. rewrite <- app_assoc.
    apply bind_Some in Hconv as (d & -> & Hd). cbn [mbind option_bind].
    by rewrite decide_True, Hd by done.
  - apply nil_length_inv in Hmic as ->. rewrite app_nil_r. simplify_eq. cbn [mbind option_bind].
    apply bind_Some in Hconv as (d & -> & Hd). cbn [mbind option_bind].
    by rewrite decide_True, Hd by done.
Qed.

Lemma defrag_bytes_sends env sec a mic c cs o : data_frame_ok a → sends sec a mic c cs →
  frame_type env = wlan_frm_fmt_802_3 → (∀ d e, nbuf_expand env d e = true) →
  outcome sec a mic = Some o →
  defrag_bytes env sec (wire <$> c :: cs) = Some o.
Proof.
  intros Ha (Hh & Hok & Hmic & Hbody) Hfmt Hexp Ho. unfold defrag_bytes. cbv zeta.
  assert (hd_error (trim DEFRAG_IEEE80211_FCS_LEN <$> (wire <$> c :: cs)) =
    Some (trim DEFRAG_IEEE80211_FCS_LEN (wire c))) as -> by done.
  cbn [mbind option_bind].
  assert (trim DEFRAG_IEEE80211_FCS_LEN (wire c) =
    df_header a ++ pc_iv c ++ pc_body c ++ pc_trailer c) as ->.
  { apply Forall_cons in Hok as [(_ & _ & _ & Hf & _) _]. unfold wire.
    rewrite !app_assoc, trim_app by done. by rewrite Hh. }
  rewrite hdrsize_df_header by done. cbn [mbind option_bind].
  rewrite decap_wires by done. cbn [mbind option_bind]. rewrite fmap_cons.
  apply Forall_cons in Hok as [_ Hok]. rewrite (join_wires (sec_type sec)) by done.
  destruct (rebuilt_header a Ha) as (fc1 & a1 & a2 & a3 & Hr). rewrite Hh, <- app_assoc.
  change (pc_body c ++ concat (pc_body <$> cs)) with (concat (pc_body <$> c :: cs)).
  rewrite <- Hbody. destruct (rb_clear _ _ _ _ _ Hr (df_plain a ++ mic)) as (seq & Hs & ->).
  cbn [mbind option_bind]. by apply finish_rebuilt.
Qed.

Lemma defrag_sends_run env s p tid x f l ds c cs a mic d x' o :
  safemode env p = false → frame_type env = wlan_frm_fmt_802_3 →
  (∀ d e, nbuf_expand env d e = true) → rx_peers s !! p = Some x →
  data_frame_ok a → sends (peer_security (rd_mcast d) x) a mic c cs →
  outcome (peer_security (rd_mcast d) x) a mic = Some o →
  length ds = length cs → fragments s f l (zip (d :: ds) (wire <$> c :: cs)) →
  pn_all tid x (d :: ds) = Some (true, x') →
  ends env p tid (put_peer p x' s) f l o (ol_rx_defrag env p tid (Some f) s).
Proof.
  intros Hsafe Hfmt Hexp Hx Ha Hs Ho Hlen Hf Hpn.
  apply (defrag_run env s p tid x f l (d, wire c) (zip ds (wire <$> cs)) x'); [done..| |].
  - cbn [fst]. by rewrite fst_zip by (rewrite length_fmap; lia).
  - cbn [fst snd]. rewrite snd_zip by (rewrite length_fmap; lia). by eapply defrag_bytes_sends.
Qed.

(** C15. However a sender cuts an 802.3 frame into fragments, the receiver
    rebuilds it.  Let [c :: cs] be protected fragments that together carry the
    802.11 form of [a] (its header, LLC/SNAP and data), each with the
    initialisation vector, trailer and checksum of the peer's cipher, which is
    not TKIP with an integrity code, and none of them a replay.  Then
    [ol_rx_defrag] frees the buffers of [cs] and hands [ol_rx_fwd_check] the
    buffer of [c] with exactly the bytes of the 802.3 frame. *)
Theorem ol_rx_defrag_rebuilds_frame env s p tid x f l ds c cs a d x' :
  safemode env p = false → frame_type env = wlan_frm_fmt_802_3 →
  (∀ d e, nbuf_expand env d e = true) → rx_peers s !! p = Some x →
  sec_type (peer_security (rd_mcast d) x) ≠ htt_sec_type_tkip →
  data_frame_ok a → sends (peer_security (rd_mcast d) x) a [] c cs →
  length ds = length cs → fragments s f l (zip (d :: ds) (wire <$> c :: cs)) →
  pn_all tid x (d :: ds) = Some (true, x') →
  ends env p tid (put_peer p x' s) f l (Delivered (df_802_3 a)) (ol_rx_defrag env p tid (Some f) s).
Proof.
  intros Hsafe Hfmt Hexp Hx Ht Ha Hs Hlen Hf Hpn. eapply defrag_sends_run; try done.
  unfold outcome. by rewrite decide_False by done.
Qed.

(** C33. For TKIP the check of the integrity code is inverted.  A frame in
    fragments with the right Michael code is freed and reported as an
    integrity failure; with any other eight bytes in place of the code it is
    delivered. *)
Theorem ol_rx_defrag_tkip_inverted env s p tid x f l ds c cs a mic code d x' :
  safemode env p = false → frame_type env = wlan_frm_fmt_802_3 →
  (∀ d e, nbuf_expand env d e = true) → rx_peers s !! p = Some x →
  sec_type (peer_security (rd_mcast d) x) = htt_sec_type_tkip →
  data_frame_ok a → sends (peer_security (rd_mcast d) x) a mic c cs →
  df_code (peer_security (rd_mcast d) x) a = Some code →
  length ds = length cs → fragments s f l (zip (d :: ds) (wire <$> c :: cs)) →
  pn_all tid x (d :: ds) = Some (true, x') →
  ends env p tid (put_peer p x' s) f l
    (if decide (code = mic) then MicError else Delivered (df_802_3 a))
    (ol_rx_defrag env p tid (Some f) s).
Proof.
  intros Hsafe Hfmt Hexp Hx Ht Ha Hs Hcode Hlen Hf Hpn. eapply defrag_sends_run; try done.
  unfold outcome. by rewrite decide_True, Hcode by done.
Qed.
