(* ===== verification/RxSamples.v ===== *)
(** Concrete receive states on which the theorems about the reorder buffer
    are applied: a peer with a window of four slots, one of them empty. *)
From Stdlib Require Import Sorted.
From S2P Require Import Prelude Tailq RxTypes RxTimers RxReorder RxWindow RxReorderProofs RxFlush RxSession RxPn RxDefrag RxInd RxFrame RxMichael RxDecap RxDecapProofs RxDefragProofs RxRoundtrip.

Definition sample_desc (seq : Z) : rx_desc :=
  mk_rx_desc seq seq 0 false false true true false (mk_pn 0 0).

(** A frame with the given sequence control word. *)
Definition sample_bytes (seq_ctl : Z) (more : bool) : list Z :=
  [0x08; if more then 0x04 else 0x00; 0; 0] ++ [2; 0; 0; 0; 0; 1] ++ [2; 0; 0; 0; 0; 2] ++
  [2; 0; 0; 0; 0; 3] ++ [Z.land seq_ctl 255; Z.shiftr seq_ctl 8].

Definition sample_buf (seq : Z) (next : option positive) : nbuf :=
  mk_nbuf next (sample_desc seq) (sample_bytes (16 * seq) false).

Definition sample_reorder : ol_rx_reorder_t :=
  mk_rx_reorder 4 3 0 (ArrHeap 1) elem_null false 0 0 0.

Definition sample_peer : ol_txrx_peer_t :=
  mk_peer wlan_op_mode_sta [sample_reorder] [mk_pn 0 0] [false] [0] [100] [0]
    (mk_sec htt_sec_type_none []) (mk_sec htt_sec_type_aes_ccmp []) 0 true.

(** Slot 0 holds the frames 10 and 11, slot 1 the frame 12, slot 3 the frame
    13; the frame 14 is about to be stored. *)
Definition sample_cs : list (list positive) := [[10%positive; 11%positive]; [12%positive]; []; [13%positive]].

Definition sample_waitlist : tailq (positive * Z) :=
  mk_tailq None SHead {[ (1%positive, 0) := mk_entry None None ]}.

Definition sample_state : rx_state :=
  mk_rx {[ 1%positive := sample_peer ]}
    {[ 10%positive := sample_buf 101 (Some 11%positive); 11%positive := sample_buf 101 None;
       12%positive := sample_buf 102 None; 13%positive := sample_buf 104 (Some 77%positive);
       14%positive := sample_buf 103 None ]}
    {[ 1%positive := [mk_elem (Some 10%positive) (Some 11%positive);
                      mk_elem (Some 12%positive) (Some 12%positive); elem_null;
                      mk_elem (Some 13%positive) (Some 13%positive)] ]}
    sample_waitlist [] [None; Some 1%positive] 0 [].

Definition sample_env : rx_env :=
  mk_rx_env true true 100 false 10 None false
    (λ p tid h, emit (EvRxErr OL_RX_ERR_NONE p tid h)).

Lemma sample_win : win_state sample_state 1 0 3 sample_cs.
Proof.
  exists sample_peer, sample_reorder.
  eexists. split; [reflexivity|]. split; [reflexivity|]. split; [reflexivity|].
  split; [exists 2; by split|]. split; [reflexivity|]. split; [reflexivity|]. split.
  - repeat (apply Forall2_cons; split; [split; [reflexivity|split; [reflexivity|]]|]).
    + split; [eexists; split; reflexivity|by eexists].
    + by eexists.
    + done.
    + by eexists.
    + apply Forall2_nil; done.
  - by apply (bool_decide_eq_true _); vm_compute.
Defined.

Lemma sample_waitlist_ok : waitlist_ok (rx_waitlist sample_state) (1%positive, 0).
Proof. right. by eexists. Defined.

(** Releasing slots 3, 0 and 1 delivers 13, 10, 11, 12 in this order. *)
Lemma ol_rx_reorder_release_delivers_witness :
  ∃ s', ol_rx_reorder_release sample_env 1 0 3 2 sample_state =
      (rx_opt_proc sample_env 1 0 (Some 13%positive);; OL_RX_REORDER_TIMEOUT_REMOVE sample_env 1 0) s' ∧
    nlist (rx_nbufs s') (Some 13%positive) [13; 10; 11; 12]%positive.
Proof.
  destruct (ol_rx_reorder_release_delivers sample_env 1 0 3 2 sample_state 3 sample_cs sample_win)
    as (nb & arr' & cs' & h & b & Hrun & Hh & _ & Hnl & _).
  - repeat first [apply Forall_cons; split; [done|] | apply Forall_nil; done].
  - vm_compute in Hh. simplify_eq. eexists. split; [exact Hrun|exact Hnl].
Defined.

Lemma ol_rx_reorder_flush_discards_witness :
  ∃ s', ol_rx_reorder_flush sample_env 1 0 0 3 htt_rx_flush_discard sample_state =
      OL_RX_REORDER_TIMEOUT_REMOVE sample_env 1 0 s' ∧
    freed (rx_nbufs sample_state) (rx_nbufs s') [10; 11; 12]%positive.
Proof.
  destruct (ol_rx_reorder_flush_discards sample_env 1 0 0 3 sample_state 3 sample_cs
    sample_win sample_waitlist_ok) as (s' & cs' & Hrun & Hf & _).
  exists s'. split; [exact Hrun|exact Hf].
Defined.

Lemma ol_rx_reorder_flush_releases_witness :
  ∃ s', ol_rx_reorder_flush sample_env 1 0 0 0xffff htt_rx_flush_release sample_state =
      (rx_opt_proc sample_env 1 0 (Some 10%positive);;
       OL_RX_REORDER_TIMEOUT_REMOVE sample_env 1 0) s' ∧
    nlist (rx_nbufs s') (Some 10%positive) [10; 11; 12; 13]%positive.
Proof.
  destruct (ol_rx_reorder_flush_releases sample_env 1 0 0 0xffff sample_state 3 sample_cs
    sample_win sample_waitlist_ok) as (s' & cs' & Hrun & Hnl & _).
  exists s'. split; [exact Hrun|exact Hnl].
Defined.

Lemma ol_rx_reorder_store_appends_witness :
  ∃ s', ol_rx_reorder_store 1 0 6 (Some 14%positive) (Some 14%positive) sample_state = Some (tt, s') ∧
    win_state s' 1 0 3 [[10; 11]; [12]; [14]; [13]]%positive.
Proof.
  destruct (ol_rx_reorder_store_appends sample_state 1 0 6 3 sample_cs [14%positive] sample_win)
    as (s' & Hrun & Hws & _).
  - done.
  - by eexists.
  - by apply (bool_decide_eq_true _); vm_compute.
  - exists s'. split; [exact Hrun|exact Hws].
Defined.

Lemma ol_rx_seq_num_check_window_witness :
  ∃ st, ol_rx_seq_num_check 1 0 (sample_desc 101) sample_state = Some (st, sample_state) ∧
    st = htt_rx_status_ok.
Proof.
  destruct (ol_rx_seq_num_check_window sample_state 1 0 sample_peer 100 (sample_desc 101))
    as (st & Hrun & _ & Hiff).
  - done.
  - reflexivity.
  - reflexivity.
  - unfold IEEE80211_SEQ_MAX. lia.
  - unfold IEEE80211_SEQ_MAX. simpl. lia.
  - exists st. split; [exact Hrun|]. apply Hiff. right. exists 1. split; [lia|reflexivity].
Defined.

Lemma ol_rx_reorder_first_hole_spec_witness :
  ∃ j, ol_rx_reorder_first_hole 1 0 sample_state = Some (j, sample_state) ∧ j = 2.
Proof.
  destruct (ol_rx_reorder_first_hole_spec sample_state 1 0 3 sample_cs sample_win)
    as (i & j & Hrun & Hij & Hj & Hempty & Hfull & Him & Hend).
  assert (i = 1) as ->.
  { destruct (decide (i = 1)); [done|]. specialize (Hempty 1 ltac:(lia)). done. }
  assert (j = 2) as ->; [|by exists 2].
  destruct (decide (j = 2)); [done|]. specialize (Him ltac:(lia)).
  exfalso. by apply (Hfull 2); [lia|].
Defined.

Lemma sample_peer_id : peer_id_ok sample_env sample_state 1 1.
Proof. split; [done|]. split; [reflexivity|]. by exists sample_peer. Defined.

Lemma ol_rx_addba_handler_opens_window_witness :
  ∃ s' k, ol_rx_addba_handler sample_env (Some 2%positive) 1 0 24 500 false sample_state
      = Some (tt, s') ∧
    24 ≤ 2 ^ k < 48 ∧ win_state s' 1 0 (2 ^ k - 1) (replicate (Z.to_nat (2 ^ k)) []).
Proof.
  destruct (ol_rx_addba_handler_opens_window sample_env sample_state 2 1 1 sample_peer
    sample_reorder 0 24 500 sample_peer_id) as (s' & k & x' & Hrun & Hle & Hlt & Hws & _);
    [reflexivity|reflexivity|lia|simpl; lia|simpl; lia|].
  exists s', k. split; [exact Hrun|]. split; [lia|exact Hws].
Defined.

Lemma ol_rx_delba_handler_resets_witness :
  ∃ s', ol_rx_delba_handler sample_env 1 0 sample_state = Some (tt, s') ∧
    win_state s' 1 0 0 [[]] ∧ rx_arrays s' = ∅.
Proof.
  destruct (ol_rx_delba_handler_resets sample_env sample_state 1 1 sample_peer
    sample_reorder 0 (mk_entry None None) sample_peer_id)
    as (s' & x' & Hrun & Hws & _ & _ & Harr & _).
  - reflexivity.
  - reflexivity.
  - intros a [= <-]. by eexists.
  - simpl. lia.
  - reflexivity.
  - exists s'. split; [exact Hrun|]. split; [exact Hws|exact Harr].
Defined.

(** * Packet numbers *)

Definition pn_desc (seq pn : Z) : rx_desc :=
  mk_rx_desc seq seq 0 false false true true false (mk_pn pn 0).

Definition pn_buf (seq pn : Z) (next : option positive) : nbuf :=
  mk_nbuf next (pn_desc seq pn) (sample_bytes (16 * seq) false).

(** Two frames, the second of which replays an old packet number. *)
Definition pn_sample : rx_state :=
  set_rx_nbufs {[ 20%positive := pn_buf 101 5 (Some 21%positive); 21%positive := pn_buf 102 3 None ]}
    sample_state.

Definition pn_ms : list (list positive * rx_desc) :=
  [([20%positive], pn_desc 101 5); ([21%positive], pn_desc 102 3)].

Lemma ol_rx_pn_check_base_filters_witness :
  ∃ nb x', ol_rx_pn_check_base 1 0 (Some 20%positive) pn_sample =
      Some (Some 20%positive, pn_done 1 0 pn_sample nb x' [([21%positive], pn_desc 102 3)]) ∧
    nlist nb (Some 20%positive) [20%positive] ∧ nb !! 21%positive = None.
Proof.
  destruct (ol_rx_pn_check_base_filters pn_sample 1 0 sample_peer ol_rx_pn_cmp48 (mk_pn 0 0) false
    20 (pn_desc 101 5) (pn_buf 101 5 (Some 21%positive)) pn_ms
    [([20%positive], pn_desc 101 5)] [([21%positive], pn_desc 102 3)] (true, mk_pn 5 0))
    as (nb & x' & Hrun & Hl & (Hf & _) & _); try reflexivity; try done.
  - split; [done|]. eexists. split; [reflexivity|]. split; [done|]. eexists. by split.
  - by apply (bool_decide_eq_true _); vm_compute.
  - repeat constructor.
    + exists [], 20%positive. eexists _, _. by repeat split.
    + exists [], 21%positive. eexists _, _. by repeat split.
  - exists nb, x'. split; [exact Hrun|]. split; [exact Hl|]. apply Hf. by left.
Defined.

Lemma ol_rx_pn_cmp48_increasing_witness :
  StronglySorted Z.lt [5; 7].
Proof.
  pose proof (ol_rx_pn_cmp48_increasing true wlan_op_mode_sta false (mk_pn 0 0)
    [([20%positive], pn_desc 101 5); ([21%positive], pn_desc 102 3); ([22%positive], pn_desc 103 7)]
    _ _ _ eq_refl) as (Hs & _).
  exact Hs.
Defined.

Lemma ol_rx_pn_wapi_cmp_spec_witness :
  ol_rx_pn_wapi_cmp (mk_pn 3 1) (mk_pn 9 0) true wlan_op_mode_sta = false.
Proof. apply (ol_rx_pn_wapi_cmp_spec (mk_pn 3 1) (mk_pn 9 0) true wlan_op_mode_sta); done. Defined.

(** * Fragments *)

Definition frag_buf (no : Z) (more : bool) (next : option positive) : nbuf :=
  mk_nbuf next (sample_desc 101) (sample_bytes (16 * 101 + no) more).

Definition hdr_of (no : Z) (more : bool) : frag_hdr :=
  mk_frag_hdr (16 * 101 + no) more [2; 0; 0; 0; 0; 1] [2; 0; 0; 0; 0; 2].

(** Fragments 0 and 2 are stored; 31 is a copy of fragment 2, 32 is fragment 1
    and 33 the last fragment, number 3. *)
Definition frag_state : rx_state :=
  set_rx_nbufs {[ 30%positive := frag_buf 0 true (Some 29%positive); 29%positive := frag_buf 2 true None;
    31%positive := frag_buf 2 true None; 32%positive := frag_buf 1 true None;
    33%positive := frag_buf 3 false None ]} sample_state.

Lemma frag_list : nlist (rx_nbufs frag_state) (Some 30%positive) [30%positive; 29%positive].
Proof. split; [done|]. eexists. split; [reflexivity|]. split; [done|]. eexists. by split. Defined.

Lemma ol_rx_fraglist_insert_in_order_witness :
  ∃ nb, ol_rx_fraglist_insert (Some 30%positive) (Some 29%positive) (Some 33%positive) false
      frag_state = Some ((Some 30%positive, Some 33%positive, false), set_rx_nbufs nb frag_state) ∧
    nlist nb (Some 30%positive) [30; 29; 33]%positive.
Proof.
  destruct (ol_rx_fraglist_insert_in_order frag_state 30 [29%positive] [hdr_of 2 true]
    (hdr_of 0 true) (hdr_of 2 true) 33 (hdr_of 3 false) false frag_list)
    as (nb & all & Hrun & Hl & _ & Hall).
  - repeat constructor; eexists; by split.
  - eexists. by split.
  - by apply (bool_decide_eq_true _); vm_compute.
  - simpl. lia.
  - done.
  - done.
  - exists nb. split; [|exact Hl]. destruct all; [|exact Hrun].
    destruct (proj1 Hall eq_refl) as [_ H]. vm_compute in H. discriminate H.
Defined.

Lemma ol_rx_fraglist_insert_duplicate_witness :
  ∃ nb, ol_rx_fraglist_insert (Some 30%positive) (Some 29%positive) (Some 31%positive) false
      frag_state = Some ((Some 30%positive, Some 29%positive, false), set_rx_nbufs nb frag_state) ∧
    freed (rx_nbufs frag_state) nb [31%positive].
Proof.
  destruct (ol_rx_fraglist_insert_duplicate frag_state 30 [30%positive] 29 [] [hdr_of 0 true]
    (hdr_of 2 true) 29 (hdr_of 2 true) 31 (hdr_of 2 true) false frag_list)
    as (nb & Hrun & Hf & _).
  - repeat constructor; eexists; by split.
  - eexists. by split.
  - eexists. by split.
  - eexists. by split.
  - by apply (bool_decide_eq_true _); vm_compute.
  - done.
  - repeat constructor.
  - done.
  - by apply (bool_decide_eq_true _); vm_compute.
  - exists nb. split; [exact Hrun|exact Hf].
Defined.

(** Fragment 1 arrives after fragments 0 and 2: the list becomes 0, 2, 1. *)
Lemma ol_rx_fraglist_insert_misplaces_witness :
  ∃ nb all, ol_rx_fraglist_insert (Some 30%positive) (Some 29%positive) (Some 32%positive) false
      frag_state = Some ((Some 30%positive, Some 29%positive, all), set_rx_nbufs nb frag_state) ∧
    nlist nb (Some 30%positive) [30; 29; 32]%positive.
Proof.
  apply (ol_rx_fraglist_insert_misplaces frag_state 30 [30%positive] 29 [] [hdr_of 0 true]
    (hdr_of 2 true) [] 29 (hdr_of 2 true) 32 (hdr_of 1 true) false frag_list).
  - repeat constructor; eexists; by split.
  - constructor.
  - eexists. by split.
  - eexists. by split.
  - eexists. by split.
  - by apply (bool_decide_eq_true _); vm_compute.
  - done.
  - repeat constructor.
  - done.
  - by apply (bool_decide_eq_true _); vm_compute.
  - simpl. lia.
Defined.

(** Fragments 0 and 2 are in the slot of a TID without aggregation, and fragment 3
    of the same MPDU arrives: it stays alone. *)
Definition stored_state : rx_state :=
  set_rx_peers {[ 1%positive := set_tids_rx_reorder [mk_rx_reorder 1 0 0 ArrBase
    (mk_elem (Some 30%positive) (Some 29%positive)) false 0 0 0] sample_peer ]} frag_state.

Lemma stored_win : win_state stored_state 1 0 0 [[30; 29]%positive].
Proof.
  eexists _, _, [mk_elem (Some 30%positive) (Some 29%positive)]. split; [reflexivity|].
  split; [reflexivity|]. split; [reflexivity|]. split; [exists 0; by split|]. split; [reflexivity|].
  split; [reflexivity|]. split; [|by apply (bool_decide_eq_true _); vm_compute].
  apply Forall2_cons; split; [|by apply Forall2_nil]. split; [done|]. split; [done|].
  split; [eexists; split; reflexivity|by eexists].
Defined.

Lemma ol_rx_reorder_store_frag_restarts_witness :
  ∃ s', ol_rx_reorder_store_frag sample_env (λ _ _ _, mret tt) 1 0 101 (Some 33%positive)
      stored_state = frag_wait sample_env 1 0 s' ∧
    win_state s' 1 0 0 [[33%positive]] ∧ rx_nbufs s' !! 30%positive = None.
Proof.
  destruct (ol_rx_reorder_store_frag_restarts sample_env (λ _ _ _, mret tt) stored_state 1 0 101
    30 [29%positive] (frag_buf 0 true (Some 29%positive)) (hdr_of 0 true) 33 (frag_buf 3 false None)
    (hdr_of 3 false) stored_win) as (s' & Hrun & Hws & _ & _ & _ & Hfr).
  - split; [done|]. eexists. split; [reflexivity|]. split; [done|]. by eexists.
  - reflexivity.
  - reflexivity.
  - reflexivity.
  - reflexivity.
  - by apply (bool_decide_eq_true _); vm_compute.
  - by right; left.
  - exists s'. split; [exact Hrun|]. split; [exact Hws|]. by rewrite Hfr.
Defined.

(** * Indications *)

(** A TID without aggregation, with an empty slot and the number 100 recorded. *)
Definition base_peer : ol_txrx_peer_t :=
  set_tids_rx_reorder [mk_rx_reorder 1 0 0 ArrBase elem_null false 0 0 0] sample_peer.

Definition base_state : rx_state := set_rx_peers {[ 1%positive := base_peer ]} sample_state.

Lemma base_win : win_state base_state 1 0 0 [[]].
Proof.
  exists base_peer. eexists _, [elem_null]. split; [reflexivity|]. split; [reflexivity|].
  split; [reflexivity|]. split; [exists 0; by split|]. split; [reflexivity|].
  split; [reflexivity|]. split; [|constructor].
  apply Forall2_cons; split; [done|]. apply Forall2_nil; done.
Defined.

(** The frame 14 has number 103, which follows 100. *)
Lemma process_reorder_spec_witness :
  ∃ s', process_reorder sample_env (sample_desc 103) 0 1 (Some 14%positive) (Some 14%positive)
      base_state = Some (tt, s') ∧ win_state s' 1 0 0 [[14%positive]].
Proof.
  destruct (process_reorder_spec sample_env base_state 1 0 (sample_desc 103) base_peer 100 []
    [14%positive] 14 base_win) as (s' & Hrun & H).
  - reflexivity.
  - reflexivity.
  - done.
  - done.
  - reflexivity.
  - split; [done|]. eexists. by split.
  - reflexivity.
  - by apply (bool_decide_eq_true _); vm_compute.
  - exists s'. split; [exact Hrun|]. destruct H as [H _]. exact H.
Defined.

(** The frame 14 arrives again, with the number 100. *)
Lemma duplicate_then_release_faults_witness :
  ol_rx_indication_handler sample_env 31 (mk_rx_ind None (Some (0, 0))
    [(htt_rx_status_ok, [mk_rx_pop (Some 14%positive) (Some 14%positive) false (sample_desc 100) None])])
    1 0 base_state = None.
Proof.
  apply (duplicate_then_release_faults sample_env 31 base_state 1 1 0 base_peer
    (mk_rx_reorder 1 0 0 ArrBase elem_null false 0 0 0) 100 (sample_desc 100) [14%positive] 14).
  - split; [done|]. split; [reflexivity|]. by exists base_peer.
  - reflexivity.
  - exact base_win.
  - reflexivity.
  - reflexivity.
  - done.
  - done.
  - reflexivity.
  - done.
  - reflexivity.
  - split; [done|]. eexists. by split.
  - reflexivity.
  - by apply (bool_decide_eq_true _); vm_compute.
Defined.

(** A frame in two fragments, protected by TKIP or CCMP, on which the theorems
    about complete lists of fragments are applied. *)

Definition tkip_key : list Z := [0x82; 0x92; 0x5c; 0x1c; 0xa1; 0xd1; 0x30; 0xb8].

Definition tkip_peer : ol_txrx_peer_t :=
  mk_peer wlan_op_mode_sta [] [mk_pn 4 0] [true] [0] [100] [0]
    (mk_sec htt_sec_type_none []) (mk_sec htt_sec_type_tkip tkip_key) 0 true.

(** A QoS data frame from the access point with priority 5. *)
Definition tkip_frame : data_frame :=
  mk_frame 0x88 0x46 [0; 0] [2; 0; 0; 0; 0; 2] [2; 0; 0; 0; 0; 1] [2; 0; 0; 0; 0; 3]
    [0x50; 0x06] [5; 0] [0xaa; 0xaa; 3; 0; 0; 0] [8; 0] [0x45; 0; 0; 20; 7].

Definition tkip_code : list Z := default [] (df_code (security_ucast tkip_peer) tkip_frame).
Definition tkip_body : list Z := df_plain tkip_frame ++ tkip_code.

(** The fragment with the packet number [pn] and the body [m]. *)
Definition tkip_piece (hdr : list Z) (pn : Z) (m : list Z) : piece :=
  mk_piece hdr [0; 0; pn; 0x20; 0; 0; 0; 0] m [1; 2; 3; 4] [9; 9; 9; 9].

(** The second fragment's header has the fragment number 1 and no more-fragments
    bit. *)
Definition tkip_hdr2 : list Z :=
  [0x88; 0x42; 0; 0; 2; 0; 0; 0; 0; 1; 2; 0; 0; 0; 0; 2; 2; 0; 0; 0; 0; 3; 0x51; 0x06; 5; 0].

Definition tkip_c1 : piece := tkip_piece (df_header tkip_frame) 5 (take 10 tkip_body).
Definition tkip_c2 : piece := tkip_piece tkip_hdr2 6 (drop 10 tkip_body).

Definition tkip_desc (pn : Z) : rx_desc :=
  mk_rx_desc 101 101 0 false false true true true (mk_pn pn 0).

Definition tkip_state (pn2 : Z) : rx_state :=
  mk_rx {[ 1%positive := tkip_peer ]}
    {[ 10%positive := mk_nbuf (Some 11%positive) (tkip_desc 5) (wire tkip_c1);
       11%positive := mk_nbuf None (tkip_desc pn2) (wire tkip_c2);
       12%positive := mk_nbuf None (tkip_desc 9) [] ]}
    ∅ (mk_tailq None SHead ∅) [] [None; Some 1%positive] 0 [].

Definition sample_defrag_env : defrag_env :=
  mk_defrag_env (λ _, false) false wlan_frm_fmt_802_3 (λ _ _, true) (λ _ _ _, mret tt)
    (λ _ _ _, mret tt) (λ _ _ _, mret tt).

Lemma tkip_fragments pn2 : fragments (tkip_state pn2) 10 [11%positive]
  [(tkip_desc 5, wire tkip_c1); (tkip_desc pn2, wire tkip_c2)].
Proof.
  split; [|split; [|split; [|split]]].
  - split; [done|]. eexists. split; [reflexivity|]. split; [done|]. by eexists.
  - by apply (bool_decide_eq_true _); vm_compute.
  - repeat (apply Forall2_cons; split; [by eexists|]). by apply Forall2_nil.
  - by repeat constructor.
  - vm_compute. done.
Defined.

(** The frame has the right code: both buffers are freed. *)
Lemma ol_rx_defrag_tkip_inverted_witness :
  ∃ x', ends sample_defrag_env 1 0 (put_peer 1 x' (tkip_state 6)) 10 [11%positive] MicError
    (ol_rx_defrag sample_defrag_env 1 0 (Some 10%positive) (tkip_state 6)).
Proof.
  eexists. refine (ol_rx_defrag_tkip_inverted sample_defrag_env (tkip_state 6) 1 0 tkip_peer 10
    [11%positive] [tkip_desc 6] tkip_c1 [tkip_c2] tkip_frame tkip_code tkip_code (tkip_desc 5) _
    _ _ _ _ _ _ _ _ _ _ _).
  - done.
  - done.
  - done.
  - reflexivity.
  - done.
  - repeat split; vm_compute; done.
  - split; [done|]. split; [|split; vm_compute; done].
    repeat constructor; try done; intros _; exists 0x20; done.
  - vm_compute. done.
  - done.
  - apply (tkip_fragments 6).
  - vm_compute. reflexivity.
Defined.

(** The same frame with CCMP. *)
Definition ccmp_peer : ol_txrx_peer_t :=
  set_security_ucast (mk_sec htt_sec_type_aes_ccmp []) tkip_peer.

Definition ccmp_piece (hdr : list Z) (pn : Z) (m : list Z) : piece :=
  mk_piece hdr [pn; 0; 0; 0x20; 0; 0; 0; 0] m [1; 2; 3; 4; 5; 6; 7; 8] [9; 9; 9; 9].

Definition ccmp_c1 : piece := ccmp_piece (df_header tkip_frame) 5 (take 10 (df_plain tkip_frame)).
Definition ccmp_c2 : piece := ccmp_piece tkip_hdr2 6 (drop 10 (df_plain tkip_frame)).

Definition ccmp_state : rx_state :=
  set_rx_peers {[ 1%positive := ccmp_peer ]} (set_rx_nbufs
    {[ 10%positive := mk_nbuf (Some 11%positive) (tkip_desc 5) (wire ccmp_c1);
       11%positive := mk_nbuf None (tkip_desc 6) (wire ccmp_c2) ]} (tkip_state 6)).

(** The frame is rebuilt from the two fragments, and the second buffer freed. *)
Lemma ol_rx_defrag_rebuilds_frame_witness :
  ∃ x', ends sample_defrag_env 1 0 (put_peer 1 x' ccmp_state) 10 [11%positive]
    (Delivered (df_802_3 tkip_frame))
    (ol_rx_defrag sample_defrag_env 1 0 (Some 10%positive) ccmp_state).
Proof.
  eexists. refine (ol_rx_defrag_rebuilds_frame sample_defrag_env ccmp_state 1 0 ccmp_peer 10
    [11%positive] [tkip_desc 6] ccmp_c1 [ccmp_c2] tkip_frame (tkip_desc 5) _ _ _ _ _ _ _ _ _ _ _).
  - done.
  - done.
  - done.
  - reflexivity.
  - done.
  - repeat split; vm_compute; done.
  - split; [done|]. split; [|split; vm_compute; done].
    repeat constructor; try done; intros _; exists 0x20; done.
  - done.
  - split; [|split; [|split; [|split]]].
    + split; [done|]. eexists. split; [reflexivity|]. split; [done|]. by eexists.
    + by apply (bool_decide_eq_true _); vm_compute.
    + repeat (apply Forall2_cons; split; [by eexists|]). by apply Forall2_nil.
    + by repeat constructor.
    + vm_compute. done.
  - vm_compute. reflexivity.
Defined.

(** The second fragment repeats the packet number 5: both buffers are freed. *)
Lemma ol_rx_defrag_ends_witness :
  ∃ nb x' g lg, ol_rx_defrag sample_defrag_env 1 0 (Some 10%positive) (tkip_state 5) =
      Some (tt, pn_state 1 nb x' lg (tkip_state 5)) ∧ lg = [EvRxErr OL_RX_ERR_PN 1 0 (Some g)] ∧
    freed (rx_nbufs (tkip_state 5)) nb [10; 11]%positive.
Proof.
  destruct (ol_rx_defrag_ends sample_defrag_env (tkip_state 5) 1 0 tkip_peer 10 [11%positive]
    (tkip_desc 5, wire tkip_c1) [(tkip_desc 5, wire tkip_c2)] false
    (record_pn 0 (mk_pn 5 0) tkip_peer)) as (nb & g & Hrun & _ & Hf).
  - done.
  - reflexivity.
  - apply (tkip_fragments 5).
  - vm_compute. reflexivity.
  - eexists nb, _, g, _. split; [exact Hrun|]. split; [done|exact Hf].
Defined.

(** The message is cut after its first seven bytes: a word straddles. *)
Definition mic_state : rx_state :=
  set_rx_nbufs
    {[ 10%positive := mk_nbuf (Some 11%positive) (tkip_desc 5)
         (df_header tkip_frame ++ take 7 (df_plain tkip_frame));
       11%positive := mk_nbuf None (tkip_desc 6) (drop 7 (df_plain tkip_frame) ++ [1; 2]) ]}
    (tkip_state 6).

Lemma ol_rx_defrag_mic_michael_witness :
  ol_rx_defrag_mic tkip_key (Some 10%positive) 26 13 mic_state =
    Some (Some (drop 13 tkip_body), mic_state).
Proof.
  refine (ol_rx_defrag_mic_michael mic_state 10 [11%positive] _
    [drop 7 (df_plain tkip_frame) ++ [1; 2]] tkip_key 26 _ (df_plain tkip_frame) [1; 2]
    (df_pseudo tkip_frame) _ _ _ _ _ _ _ _ _ _ _ _).
  - split; [done|]. eexists. split; [reflexivity|]. split; [done|]. by eexists.
  - by apply (bool_decide_eq_true _); vm_compute.
  - reflexivity.
  - repeat (apply Forall2_cons; split; [by eexists|]). by apply Forall2_nil.
  - reflexivity.
  - vm_compute. lia.
  - exists (drop 7 (df_plain tkip_frame)). split; [done|]. vm_compute. split; [lia|]. split; [lia|done].
  - vm_compute. done.
  - repeat constructor.
  - vm_compute. reflexivity.
  - vm_compute. reflexivity.
Defined.
