(* ===== verification/CdfLock.v ===== *)
(** The recursive lock of the driver framework: [cdf_mutex_*] of
    [core/cdf/src/cdf_lock.c] and [cdf_mutex_t] of [i_cdf_lock.h].

    The mutex of the operating system is the class [KMutex]; the lock adds an
    owner and a nesting depth, kept in 8 bits, to it.  [CDF_ASSERT] is a no-op
    in this build. *)
From S2P Require Import Prelude.

Inductive CDF_STATUS : Type :=
| CDF_STATUS_SUCCESS
| CDF_STATUS_E_RESOURCES
| CDF_STATUS_E_NOMEM
| CDF_STATUS_E_AGAIN
| CDF_STATUS_E_INVAL
| CDF_STATUS_E_FAULT
| CDF_STATUS_E_ALREADY
| CDF_STATUS_E_BADMSG
| CDF_STATUS_E_BUSY
| CDF_STATUS_E_CANCELED
| CDF_STATUS_E_ABORTED
| CDF_STATUS_E_NOSUPPORT
| CDF_STATUS_E_PERM
| CDF_STATUS_E_EMPTY
| CDF_STATUS_E_EXISTS
| CDF_STATUS_E_TIMEOUT
| CDF_STATUS_E_FAILURE
| CDF_STATUS_NOT_INITIALIZED
| CDF_STATUS_E_NULL_VALUE
| CDF_STATUS_PMC_PENDING
| CDF_STATUS_PMC_DISABLED
| CDF_STATUS_PMC_NOT_NOW
| CDF_STATUS_PMC_AC_POWER
| CDF_STATUS_PMC_SYS_ERROR
| CDF_STATUS_HEARTBEAT_TMOUT
| CDF_STATUS_NTH_BEACON_DELIVERY
| CDF_STATUS_CSR_WRONG_STATE
| CDF_STATUS_FT_PREAUTH_KEY_SUCCESS
| CDF_STATUS_FT_PREAUTH_KEY_FAILED
| CDF_STATUS_CMD_NOT_QUEUED
| CDF_STATUS_FW_MSG_TIMEDOUT
| CDF_STATUS_E_USB_ERROR
| CDF_STATUS_E_IO
| CDF_STATUS_MAX.

#[export] Instance CDF_STATUS_eq_dec : EqDecision CDF_STATUS.
Proof. solve_decision. Defined.

(** The mutex of the operating system: [km_lock] has no result while the
    mutex is locked, because the calling thread then blocks. *)
Class KMutex (M : Type) : Type := {
  km_init : M;
  km_locked : M → bool;
  km_lock : M → option M;
  km_unlock : M → M;
  km_init_free : km_locked km_init = false;
  km_lock_free : ∀ m, is_Some (km_lock m) ↔ km_locked m = false;
  km_lock_locked : ∀ m m', km_lock m = Some m' → km_locked m' = true;
  km_unlock_free : ∀ m, km_locked m = true → km_locked (km_unlock m) = false;
  km_unlock_lock : ∀ m m', km_lock m = Some m' → km_unlock m' = m;
}.

Inductive lock_state : Type := LOCK_RELEASED | LOCK_ACQUIRED | LOCK_DESTROYED.

#[export] Instance lock_state_eq_dec : EqDecision lock_state.
Proof. solve_decision. Defined.

(** [cookie] is whether the cookie is [LINUX_LOCK_COOKIE]. *)
Record cdf_mutex_t (M : Type) : Type := mk_mutex {
  m_lock : M;
  cookie : bool;
  processID : Z;
  mstate : lock_state;
  refcount : Z;
}.
Arguments mk_mutex {M} _ _ _ _ _.
Arguments m_lock {M} _.
Arguments cookie {M} _.
Arguments processID {M} _.
Arguments mstate {M} _.
Arguments refcount {M} _.

(** The calling context: the thread, or interrupt context. *)
Record context : Type := mk_context {
  current_pid : Z;
  in_interrupt : bool;
}.

Section lock.
Context {M : Type} `{KMutex M}.
Implicit Types (l : cdf_mutex_t M) (c : context).

(** Each function takes a nullable pointer, [None] for NULL; the work on the
    object that it points to is [do_init], [do_acquire], ... *)
Definition on_lock {A} (null : A) (f : cdf_mutex_t M → option (A * cdf_mutex_t M))
    (o : option (cdf_mutex_t M)) : option (A * option (cdf_mutex_t M)) :=
  match o with
  | None => Some (null, None)
  | Some l => '(a, l') ← f l; Some (a, Some l')
  end.

Definition do_init c l : option (CDF_STATUS * cdf_mutex_t M) :=
  if cookie l then Some (CDF_STATUS_E_BUSY, l)
  else if in_interrupt c then Some (CDF_STATUS_E_FAULT, l)
  else Some (CDF_STATUS_SUCCESS, mk_mutex km_init true 0 LOCK_RELEASED 0).

Definition do_acquire c l : option (CDF_STATUS * cdf_mutex_t M) :=
  if negb (cookie l) then Some (CDF_STATUS_E_INVAL, l)
  else if in_interrupt c then Some (CDF_STATUS_E_FAULT, l)
  else if (processID l =? current_pid c) && bool_decide (mstate l = LOCK_ACQUIRED) then
    Some (CDF_STATUS_SUCCESS,
      mk_mutex (m_lock l) (cookie l) (processID l) (mstate l) (u8 (refcount l + 1)))
  else
    m ← km_lock (m_lock l);
    if negb (km_locked m) then
      Some (CDF_STATUS_E_FAILURE, mk_mutex m (cookie l) (processID l) (mstate l) (refcount l))
    else if bool_decide (mstate l = LOCK_DESTROYED) then
      Some (CDF_STATUS_E_FAILURE,
        mk_mutex (km_unlock m) (cookie l) (processID l) (mstate l) (refcount l))
    else
      Some (CDF_STATUS_SUCCESS,
        mk_mutex m (cookie l) (current_pid c) LOCK_ACQUIRED (u8 (refcount l + 1))).

Definition do_release c l : option (CDF_STATUS * cdf_mutex_t M) :=
  if negb (cookie l) then Some (CDF_STATUS_E_INVAL, l)
  else if in_interrupt c then Some (CDF_STATUS_E_FAULT, l)
  else if negb (processID l =? current_pid c) then Some (CDF_STATUS_E_PERM, l)
  else
    let count :=
      if bool_decide (mstate l = LOCK_ACQUIRED) && (refcount l >? 0)
      then u8 (refcount l - 1) else refcount l in
    if negb (count =? 0) then
      Some (CDF_STATUS_SUCCESS, mk_mutex (m_lock l) (cookie l) (processID l) (mstate l) count)
    else
      Some (CDF_STATUS_SUCCESS, mk_mutex (km_unlock (m_lock l)) (cookie l) 0 LOCK_RELEASED 0).

(** [mutex_trylock], then [mutex_unlock]: the lock itself ends unlocked. *)
Definition do_destroy c l : option (CDF_STATUS * cdf_mutex_t M) :=
  if negb (cookie l) then Some (CDF_STATUS_E_INVAL, l)
  else if in_interrupt c then Some (CDF_STATUS_E_FAULT, l)
  else
    match km_lock (m_lock l) with
    | None => Some (CDF_STATUS_E_BUSY, l)
    | Some m => Some (CDF_STATUS_SUCCESS, mk_mutex (km_unlock m) false 0 LOCK_DESTROYED 0)
    end.

Definition cdf_mutex_init c := on_lock CDF_STATUS_E_FAULT (do_init c).
Definition cdf_mutex_acquire c := on_lock CDF_STATUS_E_FAULT (do_acquire c).
Definition cdf_mutex_release c := on_lock CDF_STATUS_E_FAULT (do_release c).
Definition cdf_mutex_destroy c := on_lock CDF_STATUS_E_FAULT (do_destroy c).

(** * Specification: an owner and a depth *)

(** [lock_rep l o]: the initialised lock [l] is free, or held by the thread
    and to the depth in [o]. *)
Definition lock_rep l (o : option (Z * Z)) : Prop :=
  cookie l = true ∧
  match o with
  | None => km_locked (m_lock l) = false ∧ processID l = 0 ∧ mstate l = LOCK_RELEASED ∧
      refcount l = 0
  | Some (pid, depth) => km_locked (m_lock l) = true ∧ processID l = pid ∧
      mstate l = LOCK_ACQUIRED ∧ refcount l = depth ∧ 0 < depth < 256
  end.

Inductive lock_op : Type := OpAcquire | OpRelease.

Definition lock_exec (op : lock_op) (pid : Z) l : option (CDF_STATUS * cdf_mutex_t M) :=
  let c := mk_context pid false in
  match op with
  | OpAcquire => do_acquire c l
  | OpRelease => do_release c l
  end.

(** The abstract lock: [None] when the thread has to wait. *)
Definition lock_spec (op : lock_op) (pid : Z) (o : option (Z * Z)) :
    option (CDF_STATUS * option (Z * Z)) :=
  match op, o with
  | OpAcquire, None => Some (CDF_STATUS_SUCCESS, Some (pid, 1))
  | OpAcquire, Some (q, d) =>
      if q =? pid then Some (CDF_STATUS_SUCCESS, Some (q, d + 1)) else None
  | OpRelease, None => Some (CDF_STATUS_E_PERM, None)
  | OpRelease, Some (q, d) =>
      if q =? pid then Some (CDF_STATUS_SUCCESS, if d =? 1 then None else Some (q, d - 1))
      else Some (CDF_STATUS_E_PERM, o)
  end.

(** A run of operations by several threads, as long as none blocks. *)
Fixpoint lock_run {S} (step : lock_op → Z → S → option (CDF_STATUS * S))
    (ops : list (lock_op * Z)) (s : S) : option (list CDF_STATUS * S) :=
  match ops with
  | [] => Some ([], s)
  | (op, pid) :: ops =>
      '(st, s) ← step op pid s;
      '(sts, s) ← lock_run step ops s;
      Some (st :: sts, s)
  end.

(** The depth stays below 256 in the run. *)
Fixpoint depth_ok (ops : list (lock_op * Z)) (o : option (Z * Z)) : Prop :=
  match ops with
  | [] => True
  | (op, pid) :: ops =>
      match lock_spec op pid o with
      | Some (_, o') => match o' with Some (_, d) => d < 256 | None => True end ∧ depth_ok ops o'
      | None => True
      end
  end.

Lemma lock_step op pid l o : pid ≠ 0 → lock_rep l o →
  match lock_spec op pid o with
  | Some (_, Some (_, d)) => d < 256
  | _ => True
  end →
  match lock_spec op pid o with
  | Some (st, o') => ∃ l', lock_exec op pid l = Some (st, l') ∧ lock_rep l' o'
  | None => lock_exec op pid l = None
  end.
Proof using.
  intros Hpid (Hc & Ho) Hd. destruct op, o as [[q d]|]; simpl in *;
    unfold do_acquire, do_release; rewrite Hc; simpl.
  - destruct Ho as (Hl & Hp & Hs & Hr & Hrange). rewrite Hp, Hs.
    destruct (Z.eqb_spec q pid) as [->|Hne]; simpl.
    + eexists. split; [done|]. split; [done|]. simpl. rewrite Hr.
      rewrite (wrap_small 8) by lia. split_and!; try done; lia.
    + destruct (km_lock (m_lock l)) as [m|] eqn:E; [|done].
      assert (km_locked (m_lock l) = false) by (apply km_lock_free; by eexists). congruence.
  - destruct Ho as (Hl & Hp & Hs & Hr). rewrite Hp, Hs.
    destruct (Z.eqb_spec 0 pid); [lia|]. simpl.
    destruct (proj2 (km_lock_free (m_lock l)) Hl) as [m Hm]. rewrite Hm. simpl.
    rewrite (km_lock_locked _ _ Hm). simpl. eexists. split; [done|]. split; [done|]. simpl.
    rewrite Hr. rewrite (wrap_small 8) by lia. split_and!; try done; [|lia..].
    by eapply km_lock_locked.
  - destruct Ho as (Hl & Hp & Hs & Hr & Hrange). rewrite Hp, Hs.
    destruct (Z.eqb_spec q pid) as [->|Hne]; simpl.
    2:{ eexists. split; [done|]. split; [done|]. simpl. split_and!; try done; lia. }
    rewrite Hr. rewrite Z.gtb_ltb. destruct (Z.ltb_spec 0 d); [|lia]. simpl.
    rewrite (wrap_small 8) by lia. destruct (Z.eqb_spec (d - 1) 0), (Z.eqb_spec d 1); try lia; simpl.
    + eexists. split; [done|]. split; [done|]. simpl. split_and!; try done.
      by apply km_unlock_free.
    + eexists. split; [done|]. split; [done|]. simpl. split_and!; try done; lia.
  - destruct Ho as (Hl & Hp & Hs & Hr). rewrite Hp, Hs.
    destruct (Z.eqb_spec 0 pid); [lia|]. simpl. eexists. split; [done|]. by split.
Qed.
End lock.

(** The lock is a recursive lock.  For any sequence of acquisitions and
    releases by any threads, as long as no thread nests 256 deep, the lock
    answers like the abstract one: a thread that holds it may take it again,
    any other thread waits, only the owner releases it, and it becomes free
    when the owner has released it as often as it took it. *)
Theorem cdf_mutex_refines {M} `{KMutex M} (l : cdf_mutex_t M) o ops :
  lock_rep l o → Forall (λ op, op.2 ≠ 0) ops → depth_ok ops o →
  match lock_run lock_spec ops o with
  | Some (sts, o') => ∃ l', lock_run lock_exec ops l = Some (sts, l') ∧ lock_rep l' o'
  | None => lock_run lock_exec ops l = None
  end.
Proof.
  revert l o. induction ops as [|[op pid] ops IH]; intros l o Hl Hp Hd.
  { simpl. eauto. }
  apply Forall_cons in Hp as [Hpid Hp]. simpl in Hd, Hpid.
  pose proof (lock_step op pid l o Hpid Hl) as Hstep. cbn [lock_run].
  destruct (lock_spec op pid o) as [[st o']|].
  - destruct Hd as [Hdo Hd]. destruct Hstep as (l' & Hrun & Hl'); [by destruct o' as [[]|]|].
    rewrite Hrun. cbn. specialize (IH _ _ Hl' Hp Hd).
    destruct (lock_run lock_spec ops o') as [[sts o'']|].
    + destruct IH as (l'' & -> & ?). cbn. eauto.
    + by rewrite IH.
  - by rewrite (Hstep I).
Qed.

(** The nesting depth wraps.  A thread that takes the lock for the 256th
    time makes the 8-bit depth 0, and its next release, though 255 more are
    due, unlocks the mutex. *)
Theorem cdf_mutex_depth_wraps {M} `{KMutex M} (l : cdf_mutex_t M) pid :
  lock_rep l (Some (pid, 255)) →
  ∃ l1 l2, cdf_mutex_acquire (mk_context pid false) (Some l) = Some (CDF_STATUS_SUCCESS, Some l1) ∧
    refcount l1 = 0 ∧
    cdf_mutex_release (mk_context pid false) (Some l1) = Some (CDF_STATUS_SUCCESS, Some l2) ∧
    lock_rep l2 None.
Proof.
  intros (Hc & Hl & Hp & Hs & Hr & _). unfold cdf_mutex_acquire, on_lock, do_acquire.
  rewrite Hc, Hp, Hs, Hr. simpl. rewrite Z.eqb_refl. simpl. eexists _, _. split; [done|].
  split; [done|]. unfold cdf_mutex_release, on_lock, do_release. simpl. rewrite Z.eqb_refl. simpl. split; [done|].
  split; [done|]. simpl. split_and!; try done. by apply km_unlock_free.
Qed.

(** * A mutex *)

(** Only whether it is locked. *)
#[export] Program Instance bool_mutex : KMutex bool := {|
  km_init := false;
  km_locked m := m;
  km_lock m := if m then None else Some true;
  km_unlock _ := false;
|}.
Next Obligation. done. Qed.
Next Obligation. intros []; simpl; split; intros H; try done; by destruct H. Qed.
Next Obligation. intros [] ?; simpl; by intros [= <-]. Qed.
Next Obligation. done. Qed.
Next Obligation. intros [] ?; simpl; by intros [= <-]. Qed.

Definition free_lock : cdf_mutex_t bool := mk_mutex false true 0 LOCK_RELEASED 0.

Lemma cdf_mutex_refines_witness :
  ∃ l', lock_run lock_exec [(OpAcquire, 7); (OpAcquire, 7); (OpRelease, 8); (OpRelease, 7)] free_lock
      = Some ([CDF_STATUS_SUCCESS; CDF_STATUS_SUCCESS; CDF_STATUS_E_PERM; CDF_STATUS_SUCCESS], l') ∧
    lock_rep l' (Some (7, 1)).
Proof.
  refine (cdf_mutex_refines free_lock None
    [(OpAcquire, 7); (OpAcquire, 7); (OpRelease, 8); (OpRelease, 7)] _ _ _).
  - by repeat split.
  - by repeat constructor.
  - simpl. lia.
Defined.

Lemma cdf_mutex_depth_wraps_witness :
  ∃ l1 l2, cdf_mutex_acquire (mk_context 7 false) (Some (mk_mutex true true 7 LOCK_ACQUIRED 255))
      = Some (CDF_STATUS_SUCCESS, Some l1) ∧
    refcount l1 = 0 ∧
    cdf_mutex_release (mk_context 7 false) (Some l1) = Some (CDF_STATUS_SUCCESS, Some l2) ∧
    lock_rep l2 None.
Proof.
  apply (cdf_mutex_depth_wraps (mk_mutex true true 7 LOCK_ACQUIRED 255)).
  repeat split; lia.
Defined.
