(* ===== verification/CsrLinkList.v ===== *)
(** The linked lists of the station management entity:
    [core/sme/src/csr/csr_link_list.c] and [csr_link_list.h].

    A list is circular and doubly linked through a head that belongs to the
    list object.  The link words of all entries are the two maps [ll_next]
    and [ll_last], so that entries are shared between lists as in memory; a
    pointer that may be NULL is an option.  The lock is the one of
    [CdfLock.v]; the call timers are a log of starts and stops. *)
From S2P Require Import Prelude CdfLock.

Record tDblLinkList (M : Type) : Type := mk_dbl_list {
  ListHead : positive;
  Lock : cdf_mutex_t M;
  Count : Z;
  hHdd : Z;
  is_open : bool;
  cmdTimeoutDuration : Z;
  cmdTimeoutTimer : option positive;
}.
Arguments mk_dbl_list {M} _ _ _ _ _ _ _.
Arguments ListHead {M} _.
Arguments Lock {M} _.
Arguments Count {M} _.
Arguments hHdd {M} _.
Arguments is_open {M} _.
Arguments cmdTimeoutDuration {M} _.
Arguments cmdTimeoutTimer {M} _.

Definition set_Lock {M} (k : cdf_mutex_t M) (x : tDblLinkList M) : tDblLinkList M :=
  mk_dbl_list (ListHead x) k (Count x) (hHdd x) (is_open x) (cmdTimeoutDuration x)
    (cmdTimeoutTimer x).
Definition set_Count {M} (n : Z) (x : tDblLinkList M) : tDblLinkList M :=
  mk_dbl_list (ListHead x) (Lock x) n (hHdd x) (is_open x) (cmdTimeoutDuration x)
    (cmdTimeoutTimer x).

Inductive timer_event : Type :=
| TimerStart (t : positive) (duration : Z)
| TimerStop (t : positive).

Record ll_mem (M : Type) : Type := mk_ll_mem {
  ll_lists : gmap positive (tDblLinkList M);
  ll_next : gmap positive positive;
  ll_last : gmap positive positive;
  ll_timers : list timer_event;
}.
Arguments mk_ll_mem {M} _ _ _ _.
Arguments ll_lists {M} _.
Arguments ll_next {M} _.
Arguments ll_last {M} _.
Arguments ll_timers {M} _.

Section csr.
Context {M : Type} `{KMutex M} (ctx : context).
Abbreviation LL := (CM (ll_mem M)).

(** * Memory accesses *)

Definition rd_next (e : positive) : LL positive := o ← gets (λ m, ll_next m !! e); deref o.
Definition rd_last (e : positive) : LL positive := o ← gets (λ m, ll_last m !! e); deref o.
Definition wr_next (e v : positive) : LL unit :=
  modify (λ m, mk_ll_mem (ll_lists m) (<[e := v]> (ll_next m)) (ll_last m) (ll_timers m)).
Definition wr_last (e v : positive) : LL unit :=
  modify (λ m, mk_ll_mem (ll_lists m) (ll_next m) (<[e := v]> (ll_last m)) (ll_timers m)).
Definition get_list (p : positive) : LL (tDblLinkList M) :=
  o ← gets (λ m, ll_lists m !! p); deref o.
Definition put_list (p : positive) (x : tDblLinkList M) : LL unit :=
  modify (λ m, mk_ll_mem (<[p := x]> (ll_lists m)) (ll_next m) (ll_last m) (ll_timers m)).
Definition log_timer (t : timer_event) : LL unit :=
  modify (λ m, mk_ll_mem (ll_lists m) (ll_next m) (ll_last m) (ll_timers m ++ [t])).

Definition add_Count (p : positive) (d : Z) : LL unit :=
  x ← get_list p; put_list p (set_Count (u32 (Count x + d)) x).

(** * The list primitives *)

Definition csr_list_init (pList : positive) : LL unit :=
  wr_next pList pList;; wr_last pList pList.

Definition csr_list_remove_entry (pEntry : positive) : LL unit :=
  pLast ← rd_last pEntry;
  pNext ← rd_next pEntry;
  wr_next pLast pNext;;
  wr_last pNext pLast.

Definition csr_list_remove_head (pHead : positive) : LL positive :=
  pEntry ← rd_next pHead;
  pNext ← rd_next pEntry;
  wr_next pHead pNext;;
  wr_last pNext pHead;;
  mret pEntry.

Definition csr_list_remove_tail (pHead : positive) : LL positive :=
  pEntry ← rd_last pHead;
  pLast ← rd_last pEntry;
  wr_last pHead pLast;;
  wr_next pLast pHead;;
  mret pEntry.

Definition csr_list_insert_tail (pHead pEntry : positive) : LL unit :=
  pLast ← rd_last pHead;
  wr_last pEntry pLast;;
  wr_next pEntry pHead;;
  wr_next pLast pEntry;;
  wr_last pHead pEntry.

Definition csr_list_insert_head (pHead pEntry : positive) : LL unit :=
  pNext ← rd_next pHead;
  wr_next pEntry pNext;;
  wr_last pEntry pHead;;
  wr_last pNext pEntry;;
  wr_next pHead pEntry.

Definition csr_list_insert_entry (pEntry : option positive) (pNewEntry : positive) : LL unit :=
  match pEntry with
  | None => mret tt
  | Some pEntry =>
      pLast ← rd_last pEntry;
      wr_next pLast pNewEntry;;
      wr_last pEntry pNewEntry;;
      wr_next pNewEntry pEntry;;
      wr_last pNewEntry pLast
  end.

Definition csrIsListEmpty (pHead : positive) : LL bool :=
  n ← rd_next pHead; mret (bool_decide (n = pHead)).

(** * Locking *)

(** [if (!pList) return dflt; if (LIST_FLAG_OPEN == pList->Flag) ..] *)
Definition when_open {A} (pList : option positive) (dflt : A)
    (body : positive → tDblLinkList M → LL A) : LL A :=
  match pList with
  | None => mret dflt
  | Some p =>
      x ← get_list p;
      if is_open x then body p x else mret dflt
  end.

Definition csr_ll_lock (pList : option positive) : LL unit :=
  when_open pList tt (λ p x,
    '(_, k) ← deref (cdf_mutex_acquire ctx (Some (Lock x)));
    k ← deref k;
    put_list p (set_Lock k x)).

Definition csr_ll_unlock (pList : option positive) : LL unit :=
  when_open pList tt (λ p x,
    '(_, k) ← deref (cdf_mutex_release ctx (Some (Lock x)));
    k ← deref k;
    put_list p (set_Lock k x)).

(** [if (fInterlocked) csr_ll_lock(pList); .. if (fInterlocked) csr_ll_unlock(pList);] *)
Definition interlocked {A} (fInterlocked : bool) (p : positive) (body : LL A) : LL A :=
  when fInterlocked (csr_ll_lock (Some p));;
  r ← body;
  when fInterlocked (csr_ll_unlock (Some p));;
  mret r.

(** * Operations *)

Definition csr_ll_count (pList : option positive) : LL Z :=
  when_open pList 0 (λ _ x, mret (Count x)).

Definition csr_ll_is_list_empty (pList : option positive) (fInterlocked : bool) : LL bool :=
  when_open pList true (λ p x, interlocked fInterlocked p (csrIsListEmpty (ListHead x))).

Definition csr_ll_peek_head (pList : option positive) (fInterlocked : bool) :
    LL (option positive) :=
  when_open pList None (λ p x, interlocked fInterlocked p
    (b ← csrIsListEmpty (ListHead x);
     if (b : bool) then mret None else e ← rd_next (ListHead x); mret (Some e))).

Definition csr_ll_peek_tail (pList : option positive) (fInterlocked : bool) :
    LL (option positive) :=
  when_open pList None (λ p x, interlocked fInterlocked p
    (b ← csrIsListEmpty (ListHead x);
     if (b : bool) then mret None else e ← rd_last (ListHead x); mret (Some e))).

(** The [while (pEntry && pEntry != &pList->ListHead)] loop. *)
Fixpoint find_loop (fuel : nat) (head : positive) (pEntry : positive)
    (pEntryToFind : option positive) : LL bool :=
  if decide (pEntry = head) then mret false
  else if decide (Some pEntry = pEntryToFind) then mret true
  else
    match fuel with
    | O => ub
    | S fuel => n ← rd_next pEntry; find_loop fuel head n pEntryToFind
    end.

Definition num_entries : LL nat := gets (λ m, size (ll_next m)).

Definition csr_ll_find_entry (pList pEntryToFind : option positive) : LL bool :=
  when_open pList false (λ p x,
    o ← csr_ll_peek_head pList false;
    match o with
    | None => mret false
    | Some pEntry => n ← num_entries; find_loop n (ListHead x) pEntry pEntryToFind
    end).

Definition csr_ll_open (hdd : Z) (pList : option positive) : LL CDF_STATUS :=
  match pList with
  | None => mret CDF_STATUS_E_FAILURE
  | Some p =>
      x ← get_list p;
      if is_open x then mret CDF_STATUS_SUCCESS
      else
        '(st, k) ← deref (cdf_mutex_init ctx (Some (Lock x)));
        k ← deref k;
        if decide (st = CDF_STATUS_SUCCESS) then
          csr_list_init (ListHead x);;
          put_list p (mk_dbl_list (ListHead x) k 0 hdd true (cmdTimeoutDuration x) None);;
          mret CDF_STATUS_SUCCESS
        else
          put_list p (mk_dbl_list (ListHead x) k 0 (hHdd x) (is_open x)
            (cmdTimeoutDuration x) None);;
          mret CDF_STATUS_E_FAILURE
  end.

Definition csr_ll_insert_tail (pList : option positive) (pEntry : positive)
    (fInterlocked : bool) : LL unit :=
  when_open pList tt (λ p x, interlocked fInterlocked p
    (csr_list_insert_tail (ListHead x) pEntry;; add_Count p 1)).

Definition csr_ll_insert_head (pList : option positive) (pEntry : positive)
    (fInterlocked : bool) : LL unit :=
  when_open pList tt (λ p x,
    interlocked fInterlocked p (csr_list_insert_head (ListHead x) pEntry;; add_Count p 1);;
    match cmdTimeoutTimer x with
    | Some t => when (negb (cmdTimeoutDuration x =? 0)) (log_timer (TimerStart t (cmdTimeoutDuration x)))
    | None => mret tt
    end).

Definition csr_ll_insert_entry (pList pEntry : option positive) (pNewEntry : positive)
    (fInterlocked : bool) : LL unit :=
  when_open pList tt (λ p x, interlocked fInterlocked p
    (csr_list_insert_entry pEntry pNewEntry;; add_Count p 1)).

Definition csr_ll_remove_tail (pList : option positive) (fInterlocked : bool) :
    LL (option positive) :=
  when_open pList None (λ p x, interlocked fInterlocked p
    (b ← csrIsListEmpty (ListHead x);
     if (b : bool) then mret None
     else e ← csr_list_remove_tail (ListHead x); add_Count p (-1);; mret (Some e))).

Definition csr_ll_remove_head (pList : option positive) (fInterlocked : bool) :
    LL (option positive) :=
  when_open pList None (λ p x, interlocked fInterlocked p
    (b ← csrIsListEmpty (ListHead x);
     if (b : bool) then mret None
     else e ← csr_list_remove_head (ListHead x); add_Count p (-1);; mret (Some e))).

Fixpoint purge_loop (fuel : nat) (pList : option positive) : LL unit :=
  match fuel with
  | O => ub
  | S fuel =>
      o ← csr_ll_remove_head pList false;
      match o with
      | None => mret tt
      | Some _ => purge_loop fuel pList
      end
  end.

Definition csr_ll_purge (pList : option positive) (fInterlocked : bool) : LL unit :=
  when_open pList tt (λ p x, interlocked fInterlocked p
    (n ← num_entries; purge_loop (S n) pList)).

Definition csr_ll_close (pList : option positive) : LL unit :=
  when_open pList tt (λ p _,
    csr_ll_purge pList true;;
    x ← get_list p;
    '(_, k) ← deref (cdf_mutex_destroy ctx (Some (Lock x)));
    k ← deref k;
    put_list p (mk_dbl_list (ListHead x) k (Count x) (hHdd x) false (cmdTimeoutDuration x)
      (cmdTimeoutTimer x))).

(** The [while] loop of [csr_ll_remove_entry]. *)
Fixpoint remove_loop (fuel : nat) (p head pEntry : positive) (pEntryToRemove : option positive) :
    LL bool :=
  if decide (pEntry = head) then mret false
  else if decide (Some pEntry = pEntryToRemove) then
    csr_list_remove_entry pEntry;;
    add_Count p (-1);;
    mret true
  else
    match fuel with
    | O => ub
    | S fuel => n ← rd_next pEntry; remove_loop fuel p head n pEntryToRemove
    end.

Definition csr_ll_remove_entry (pList pEntryToRemove : option positive) (fInterlocked : bool) :
    LL bool :=
  when_open pList false (λ p x,
    fFound ← interlocked fInterlocked p
      (o ← csr_ll_peek_head pList false;
       match o with
       | None => mret false
       | Some pEntry => n ← num_entries; remove_loop n p (ListHead x) pEntry pEntryToRemove
       end);
    match cmdTimeoutTimer x with
    | Some t => log_timer (TimerStop t)
    | None => mret tt
    end;;
    mret fFound).

Definition csr_ll_next (pList pEntry : option positive) (fInterlocked : bool) :
    LL (option positive) :=
  when_open pList None (λ p x, interlocked fInterlocked p
    (b ← csrIsListEmpty (ListHead x);
     if (b : bool) then mret None
     else
       f ← csr_ll_find_entry pList pEntry;
       if (f : bool) then
         e ← deref pEntry; n ← rd_next e;
         mret (if decide (n = ListHead x) then None else Some n)
       else mret None)).

Definition csr_ll_previous (pList pEntry : option positive) (fInterlocked : bool) :
    LL (option positive) :=
  when_open pList None (λ p x, interlocked fInterlocked p
    (b ← csrIsListEmpty (ListHead x);
     if (b : bool) then mret None
     else
       f ← csr_ll_find_entry pList pEntry;
       if (f : bool) then
         e ← deref pEntry; n ← rd_last e;
         mret (if decide (n = ListHead x) then None else Some n)
       else mret None)).
End csr.
