(* ===== verification/CsrLinkListProofs.v ===== *)
(** The linked lists of [CsrLinkList.v] implement sequences: every operation on
    the circular representation is the corresponding operation on a list. *)
From S2P Require Import Prelude Ring CdfLock CsrLinkList.

(** * Operations on the memory *)

Section ops.
Context {M : Type} `{KMutex M} (ctx : context).
Implicit Types (m : ll_mem M) (x : tDblLinkList M) (l : list positive) (nx ls : gmap positive positive).

Definition with_links nx ls m : ll_mem M := mk_ll_mem (ll_lists m) nx ls (ll_timers m).

(** The links of [m] outside the entries [l]. *)
Definition links_frame m nx ls l : Prop :=
  ∀ y, y ∉ l → nx !! y = ll_next m !! y ∧ ls !! y = ll_last m !! y.

Lemma rd_next_run m e v : ll_next m !! e = Some v → rd_next e m = Some (v, m).
Proof. intros He. unfold rd_next. mstep. by rewrite He. Qed.

Lemma rd_last_run m e v : ll_last m !! e = Some v → rd_last e m = Some (v, m).
Proof. intros He. unfold rd_last. mstep. by rewrite He. Qed.

Lemma insert_tail_run m h l e :
  circ (ll_next m) (ll_last m) h l → e ∉ h :: l →
  ∃ nx ls, csr_list_insert_tail h e m = Some (tt, with_links nx ls m) ∧ circ nx ls h (l ++ [e]) ∧
    links_frame m nx ls (h :: l ++ [e]).
Proof.
  intros Hc He. destruct (before_split h l) as (p1 & a & Hp).
  assert (circ (ll_next m) (ll_last m) h (l ++ [])) as Hc' by by rewrite app_nil_r.
  destruct (circ_split _ _ _ _ _ a h p1 [] Hc' Hp eq_refl) as (_ & _ & Hl & _).
  eexists _, _. split; [|split].
  - unfold csr_list_insert_tail. mrun (rd_last_run _ _ _ Hl). unfold wr_last, wr_next. mstep.
    unfold modify. reflexivity.
  - eapply (circ_insert _ _ _ _ h l [] e a h); [exact Hc'|exact Hp|reflexivity|by rewrite app_nil_r|done|done].
  - assert (a ∈ h :: l) by (rewrite Hp; set_solver). intros y Hy. simpl.
    rewrite !lookup_insert_ne by set_solver. done.
Qed.

Lemma insert_head_run m h l e :
  circ (ll_next m) (ll_last m) h l → e ∉ h :: l →
  ∃ nx ls, csr_list_insert_head h e m = Some (tt, with_links nx ls m) ∧ circ nx ls h (e :: l) ∧
    links_frame m nx ls (h :: l ++ [e]).
Proof.
  intros Hc He. destruct (after_split h l) as (b & p2 & Hp).
  destruct (circ_split _ _ _ [] l h b [] p2 Hc eq_refl Hp) as (_ & Hn & _ & _).
  eexists _, _. split; [|split].
  - unfold csr_list_insert_head. mrun (rd_next_run _ _ _ Hn). unfold wr_last, wr_next. mstep.
    unfold modify. reflexivity.
  - eapply (circ_insert _ _ _ _ h [] l e h b [] p2); [exact Hc|done|exact Hp|done|done|done].
  - assert (b ∈ l ++ [h]) by (rewrite Hp; set_solver). intros y Hy. simpl.
    rewrite !lookup_insert_ne by set_solver. done.
Qed.

Lemma insert_entry_run m h l1 b l2 e :
  circ (ll_next m) (ll_last m) h (l1 ++ b :: l2) → e ∉ h :: l1 ++ b :: l2 →
  ∃ nx ls, csr_list_insert_entry (Some b) e m = Some (tt, with_links nx ls m) ∧
    circ nx ls h (l1 ++ e :: b :: l2) ∧ links_frame m nx ls (h :: (l1 ++ b :: l2) ++ [e]).
Proof.
  intros Hc He. destruct (before_split h l1) as (p1 & a & Hp).
  destruct (circ_split _ _ _ _ (b :: l2) a b p1 (l2 ++ [h]) Hc Hp eq_refl) as (_ & _ & Hl & _).
  assert (a ∈ h :: l1) by (rewrite Hp; set_solver).
  eexists _, _. split; [|split].
  - unfold csr_list_insert_entry. mrun (rd_last_run _ _ _ Hl). unfold wr_last, wr_next. mstep.
    unfold modify. reflexivity.
  - eapply (circ_insert _ _ _ _ h l1 (b :: l2) e a b); [exact Hc|exact Hp|reflexivity|done| |].
    + apply insert_insert_ne. set_solver.
    + apply insert_insert_ne. set_solver.
  - intros y Hy. simpl. rewrite !lookup_insert_ne by set_solver. done.
Qed.

Lemma remove_entry_run m h l1 e l2 :
  circ (ll_next m) (ll_last m) h (l1 ++ e :: l2) →
  ∃ nx ls, csr_list_remove_entry e m = Some (tt, with_links nx ls m) ∧
    circ nx ls h (l1 ++ l2) ∧ links_frame m nx ls (h :: l1 ++ e :: l2).
Proof.
  intros Hc. destruct (before_split h l1) as (p1 & a & Hp). destruct (after_split h l2) as (b & p2 & Hb).
  destruct (circ_remove _ _ _ _ _ _ _ _ _ _ _ _ Hc Hp Hb eq_refl eq_refl)
    as (Hc' & _ & Hla & Hne & _).
  assert (a ∈ h :: l1) by (rewrite Hp; set_solver).
  assert (b ∈ l2 ++ [h]) by (rewrite Hb; set_solver).
  eexists _, _. split; [|split; [exact Hc'|]].
  - unfold csr_list_remove_entry. mrun (rd_last_run _ _ _ Hla). mrun (rd_next_run _ _ _ Hne).
    unfold wr_last, wr_next. mstep. done.
  - intros y Hy. simpl. rewrite !lookup_insert_ne by set_solver. done.
Qed.

Lemma remove_head_run m h e l :
  circ (ll_next m) (ll_last m) h (e :: l) →
  ∃ nx ls, csr_list_remove_head h m = Some (e, with_links nx ls m) ∧
    circ nx ls h l ∧ links_frame m nx ls (h :: e :: l).
Proof.
  intros Hc. destruct (after_split h l) as (b & p2 & Hb).
  destruct (circ_remove _ _ _ _ h [] l e h b [] p2 Hc eq_refl Hb eq_refl eq_refl)
    as (Hc' & Hhe & _ & Hne & _).
  assert (b ∈ l ++ [h]) by (rewrite Hb; set_solver).
  eexists _, _. split; [|split; [exact Hc'|]].
  - unfold csr_list_remove_head. mrun (rd_next_run _ _ _ Hhe). mrun (rd_next_run _ _ _ Hne).
    unfold wr_last, wr_next. mstep. done.
  - intros y Hy. simpl. rewrite !lookup_insert_ne by set_solver. done.
Qed.

Lemma remove_tail_run m h l e :
  circ (ll_next m) (ll_last m) h (l ++ [e]) →
  ∃ nx ls, csr_list_remove_tail h m = Some (e, with_links nx ls m) ∧
    circ nx ls h l ∧ links_frame m nx ls (h :: l ++ [e]).
Proof.
  intros Hc. destruct (before_split h l) as (p1 & a & Hp).
  destruct (circ_remove _ _ _ _ h l [] e a h p1 [] Hc Hp eq_refl eq_refl eq_refl)
    as (Hc' & _ & Hla & _ & Hlh). rewrite app_nil_r in Hc'.
  assert (a ∈ h :: l) by (rewrite Hp; set_solver).
  eexists _, _. split; [|split; [exact Hc'|]].
  - unfold csr_list_remove_tail. mrun (rd_last_run _ _ _ Hlh). mrun (rd_last_run _ _ _ Hla).
    unfold wr_last, wr_next. mstep. done.
  - intros y Hy. simpl. rewrite !lookup_insert_ne by set_solver. done.
Qed.

Lemma empty_run m h l : circ (ll_next m) (ll_last m) h l →
  csrIsListEmpty h m = Some (bool_decide (l = []), m).
Proof.
  intros Hc. destruct (after_split h l) as (b & p2 & Hp).
  destruct (circ_split _ _ _ [] l h b [] p2 Hc eq_refl Hp) as (_ & Hn & _ & _).
  unfold csrIsListEmpty. mrun (rd_next_run _ _ _ Hn). unfold mret, CM_ret. do 2 f_equal.
  apply bool_decide_ext. destruct Hc as [_ Hnd]. destruct l as [|y l]; cbn [app] in Hp.
  - injection Hp as <- _. done.
  - injection Hp as <- _. apply NoDup_cons in Hnd as [Hh _]. set_solver.
Qed.

Lemma next_run m h l1 e l2 : circ (ll_next m) (ll_last m) h (l1 ++ e :: l2) →
  rd_next e m = Some (hd h l2, m).
Proof.
  intros Hc. destruct (before_split h (l1 ++ [e])) as (p1 & a & Hp).
  rewrite app_comm_cons in Hp. apply app_inj_tail in Hp as [<- <-].
  assert (l2 ++ [h] = hd h l2 :: tl (l2 ++ [h])) as Hl2 by by destruct l2.
  rewrite cons_middle, app_assoc in Hc.
  destruct (circ_split _ _ h (l1 ++ [e]) l2 e (hd h l2) (h :: l1) _ Hc eq_refl Hl2)
    as (_ & Hn & _). by apply rd_next_run.
Qed.

Lemma last_run m h l1 e l2 : circ (ll_next m) (ll_last m) h (l1 ++ e :: l2) →
  rd_last e m = Some (List.last l1 h, m).
Proof.
  intros Hc. assert (h :: l1 = removelast (h :: l1) ++ [List.last l1 h]) as Hp.
  { rewrite (app_removelast_last h (l := h :: l1)) at 1 by done. f_equal. f_equal.
    by destruct l1. }
  destruct (circ_split _ _ h l1 (e :: l2) _ e _ (l2 ++ [h]) Hc Hp eq_refl)
    as (_ & _ & Hl & _). by apply rd_last_run.
Qed.

Lemma head_next_run m h e l : circ (ll_next m) (ll_last m) h (e :: l) →
  rd_next h m = Some (e, m).
Proof.
  intros Hc. destruct (circ_split _ _ h [] (e :: l) h e [] _ Hc eq_refl eq_refl) as (_ & Hn & _).
  by apply rd_next_run.
Qed.

Lemma head_last_run m h l e : circ (ll_next m) (ll_last m) h (l ++ [e]) →
  rd_last h m = Some (e, m).
Proof.
  intros Hc. assert (circ (ll_next m) (ll_last m) h ((l ++ [e]) ++ [])) as Hc' by by rewrite app_nil_r.
  destruct (circ_split _ _ h (l ++ [e]) [] e h (h :: l) [] Hc' eq_refl eq_refl) as (_ & _ & Hl & _).
  by apply rd_last_run.
Qed.
End ops.

(** * List objects *)

Section lists.
Context {M : Type} `{KMutex M} (ctx : context).
Context (Hctx : in_interrupt ctx = false).
Implicit Types (m : ll_mem M) (x : tDblLinkList M) (l : list positive).

(** The list object [x] at [p] is open and holds [l]. *)
Definition ll_at m p x l : Prop :=
  ll_lists m !! p = Some x ∧ is_open x = true ∧ circ (ll_next m) (ll_last m) (ListHead x) l ∧
  Count x = u32 (Z.of_nat (length l)).

(** The calling thread can take the lock of [x] without waiting. *)
Definition lock_ok x : Prop :=
  lock_rep (Lock x) None ∨ ∃ d, lock_rep (Lock x) (Some (current_pid ctx, d)) ∧ d < 255.

Definition at_p m p x nx ls : ll_mem M := mk_ll_mem (<[p := x]> (ll_lists m)) nx ls (ll_timers m).

(** Taking and releasing the lock gives back the same lock. *)
Lemma acquire_release x : lock_ok x →
  ∃ k, cdf_mutex_acquire ctx (Some (Lock x)) = Some (CDF_STATUS_SUCCESS, Some k) ∧
    cdf_mutex_release ctx (Some k) = Some (CDF_STATUS_SUCCESS, Some (Lock x)).
Proof.
  unfold lock_ok, cdf_mutex_acquire, cdf_mutex_release, on_lock, do_acquire, do_release.
  destruct (Lock x) as [ml ck pid st rc]. rewrite Hctx.
  intros [(Hc & Hl & Hp & Hs & Hr)|(d & (Hc & Hl & Hp & Hs & Hr & Hd1) & Hd)];
    simpl in *; subst; simpl.
  - rewrite andb_false_r.
    destruct (proj2 (km_lock_free ml) Hl) as [m Hm]. rewrite Hm. simpl.
    rewrite (km_lock_locked _ _ Hm). simpl. eexists. split; [reflexivity|]. simpl.
    rewrite Z.eqb_refl. simpl. by rewrite (km_unlock_lock _ _ Hm).
  - rewrite Z.eqb_refl. simpl. eexists. split; [reflexivity|]. simpl. rewrite Z.eqb_refl. simpl.
    rewrite (wrap_small 8 (d + 1)) by lia. rewrite Z.gtb_ltb.
    destruct (Z.ltb_spec 0 (d + 1)); [|lia]. simpl.
    replace (d + 1 - 1) with d by lia. rewrite (wrap_small 8) by lia.
    destruct (Z.eqb_spec d 0); [lia|]. done.
Qed.

(** [body] computes [r] and turns the list [l] with head [h] into [l'],
    leaving the other entries alone; [P] restricts the list object. *)
Definition body_ok (P : tDblLinkList M → Prop) (p h : positive) {A} (body : CM (ll_mem M) A)
    (r : A) (l l' : list positive) : Prop :=
  ∀ m x, P x → ListHead x = h → ll_at m p x l →
  ∃ nx ls, body m = Some (r, at_p m p (set_Count (u32 (Z.of_nat (length l'))) x) nx ls) ∧
    circ nx ls h l' ∧ links_frame m nx ls (h :: l ++ l').

Lemma get_list_run m p x : ll_lists m !! p = Some x → get_list p m = Some (x, m).
Proof. intros Hx. unfold get_list. mstep. by rewrite Hx. Qed.

Lemma at_p_at m p x y nx ls : ll_lists (at_p m p x nx ls) !! p = Some y ↔ x = y.
Proof. simpl. rewrite lookup_insert_eq. split; congruence. Qed.

Lemma at_p_at_p m p x nx ls x' nx' ls' :
  at_p (at_p m p x nx ls) p x' nx' ls' = at_p m p x' nx' ls'.
Proof. unfold at_p. simpl. by rewrite insert_insert_eq. Qed.

Lemma at_p_id m p x : ll_lists m !! p = Some x → at_p m p x (ll_next m) (ll_last m) = m.
Proof. intros Hx. unfold at_p. rewrite insert_id by done. by destruct m. Qed.

(** Holding the lock around a body. *)
Lemma interlocked_ok fi p h {A} (body : CM (ll_mem M) A) r l l' :
  body_ok (λ _, True) p h body r l l' → body_ok lock_ok p h (interlocked ctx fi p body) r l l'.
Proof.
  intros Hb m x Hk Hh Hat. unfold interlocked. destruct fi; cbn [when].
  2:{ mstep. destruct (Hb m x I Hh Hat) as (nx & ls & Hrun & Hrest).
      exists nx, ls. split; [|done]. mrun Hrun. mstep. done. }
  destruct (acquire_release x Hk) as (k & Hacq & Hrel).
  pose proof Hat as (Hx & Hopen & Hc & Hn).
  unfold csr_ll_lock, when_open. mrun (get_list_run _ _ _ Hx). rewrite Hopen, Hacq.
  mstep. cbv iota. mstep. unfold put_list. mstep.
  set (m1 := mk_ll_mem (<[p:=set_Lock k x]> (ll_lists m)) _ _ _).
  destruct (Hb m1 (set_Lock k x)) as (nx & ls & Hrun & Hc' & Hf); [done|done| |].
  { split_and!; try done. simpl. apply lookup_insert_eq. }
  exists nx, ls. split; [|done]. mrun Hrun. unfold csr_ll_unlock, when_open.
  rewrite run_assoc. erewrite run_bind by (apply get_list_run; apply at_p_at; reflexivity).
  simpl is_open. rewrite Hopen. simpl Lock. rewrite Hrel. mstep. cbv iota. mstep.
  unfold put_list. mstep. unfold mret, CM_ret. do 2 f_equal. unfold at_p, m1. simpl.
  rewrite !insert_insert_eq. by destruct x.
Qed.

Lemma u32_count n d : u32 (u32 n + d) = u32 (n + d).
Proof. apply wrap_add_wrap. Qed.

(** A body that only reads. *)
Lemma read_ok p h {A} (body : CM (ll_mem M) A) r l :
  (∀ m x, ListHead x = h → ll_at m p x l → body m = Some (r, m)) →
  body_ok (λ _, True) p h body r l l.
Proof.
  intros Hb m x _ Hh Hat. pose proof Hat as (Hx & Hopen & Hc & Hn).
  exists (ll_next m), (ll_last m). split; [|split; [by rewrite Hh in Hc|by intros y]].
  rewrite (Hb m x Hh Hat). rewrite <- Hn. replace (set_Count (Count x) x) with x by by destruct x.
  by rewrite at_p_id.
Qed.

Lemma links_frame_mono m nx ls l l' : l ⊆ l' → links_frame m nx ls l → links_frame m nx ls l'.
Proof. intros Hsub Hf y Hy. apply Hf. intros Hin. apply Hy. by apply Hsub. Qed.

(** Changing the links, then the count. *)
Lemma count_ok p h {A B} (links : CM (ll_mem M) A) (k : A → B) a d l l' :
  Z.of_nat (length l') = Z.of_nat (length l) + d →
  (∀ m x, ListHead x = h → ll_at m p x l →
    ∃ nx ls, links m = Some (a, with_links nx ls m) ∧ circ nx ls h l' ∧
      links_frame m nx ls (h :: l ++ l')) →
  body_ok (λ _, True) p h (e ← links; add_Count p d;; mret (k e)) (k a) l l'.
Proof.
  intros Hd Hl m x _ Hh Hat. pose proof Hat as (Hx & Hopen & Hc & Hn).
  destruct (Hl m x Hh Hat) as (nx & ls & Hrun & Hc' & Hf). exists nx, ls. split; [|done].
  mrun Hrun. unfold add_Count. rewrite run_assoc.
  erewrite run_bind by by apply get_list_run.
  unfold put_list. mstep. unfold mret, CM_ret. rewrite Hn, u32_count, <- Hd. done.
Qed.
End lists.

(** * Reading operations *)

(** The entry after, and before, [e] in [l]. *)
Fixpoint next_of (e : positive) (l : list positive) : option positive :=
  match l with
  | x :: ((y :: _) as l') => if decide (x = e) then Some y else next_of e l'
  | _ => None
  end.

Fixpoint prev_of (e : positive) (l : list positive) : option positive :=
  match l with
  | x :: ((y :: _) as l') => if decide (y = e) then Some x else prev_of e l'
  | _ => None
  end.

Lemma next_of_split e l1 l2 : e ∉ l1 → next_of e (l1 ++ e :: l2) = hd_error l2.
Proof.
  induction l1 as [|x l1 IH]; intros He; cbn [app next_of].
  - destruct l2; [done|]. by rewrite decide_True.
  - destruct (l1 ++ e :: l2) as [|y l'] eqn:E; [by destruct l1|].
    rewrite decide_False by set_solver. apply IH. set_solver.
Qed.

Lemma prev_of_split e l1 l2 : NoDup (l1 ++ e :: l2) → prev_of e (l1 ++ e :: l2) = last l1.
Proof.
  induction l1 as [|x l1 IH]; intros Hnd; cbn [app prev_of].
  - destruct l2 as [|y l2]; [done|]. assert (∀ l, e ∉ l → ∀ z, prev_of e (z :: l) = None) as Hn.
    { clear. induction l as [|y l IH]; intros He z; [done|]. cbn [prev_of].
      rewrite decide_False by set_solver. apply IH. set_solver. }
    apply NoDup_cons in Hnd as [He _]. by apply (Hn (y :: l2)).
  - destruct l1 as [|y l1]; cbn [app] in *.
    + by rewrite decide_True.
    + rewrite decide_False; [by rewrite IH by by apply NoDup_cons in Hnd as []|].
      intros ->. apply NoDup_cons in Hnd as [_ Hnd]. apply NoDup_cons in Hnd as [Hy _]. set_solver.
Qed.

Section reading.
Context {M : Type} `{KMutex M} (ctx : context).
Implicit Types (m : ll_mem M) (l : list positive).

Lemma circ_size m h l : circ (ll_next m) (ll_last m) h l →
  (length l < size (ll_next m))%nat.
Proof.
  intros Hc. cut (length (h :: l) ≤ size (ll_next m))%nat; [simpl; lia|].
  apply NoDup_length_le_size; [apply Hc|]. intros y Hy.
  apply elem_of_cons in Hy as [->|Hy].
  - destruct (after_split h l) as (b & p2 & Hp).
    destruct (circ_split _ _ _ [] l h b [] p2 Hc eq_refl Hp) as (_ & -> & _). by eexists.
  - apply list_elem_of_split in Hy as (l1 & l2 & ->).
    destruct (after_split h l2) as (b & p2 & Hp).
    rewrite cons_middle, app_assoc in Hc.
    destruct (circ_split _ _ _ (l1 ++ [y]) l2 y b (h :: l1) p2 Hc eq_refl Hp) as (_ & -> & _).
    by eexists.
Qed.

Lemma find_loop_run fuel m h l1 l2 e :
  circ (ll_next m) (ll_last m) h (l1 ++ l2) → (length l2 ≤ fuel)%nat →
  find_loop fuel h (hd h l2) (Some e) m = Some (bool_decide (e ∈ l2), m).
Proof.
  revert l1 fuel. induction l2 as [|y l2 IH]; intros l1 fuel Hc Hf.
  - destruct fuel; simpl; by rewrite decide_True.
  - destruct fuel as [|fuel]; simpl in Hf; [lia|]. cbn [find_loop hd].
    pose proof Hc as [_ Hnd]. apply NoDup_cons in Hnd as [Hh _].
    rewrite decide_False by set_solver.
    destruct (decide (Some y = Some e)) as [Heq|Heq].
    + injection Heq as ->. rewrite bool_decide_eq_true_2 by by left. done.
    + mrun (next_run _ _ _ _ _ Hc). rewrite cons_middle, app_assoc in Hc.
      rewrite (IH _ fuel Hc) by lia. do 2 f_equal. apply bool_decide_ext. set_solver.
Qed.

Lemma peek_head_run m p x l : ll_at m p x l →
  csr_ll_peek_head ctx (Some p) false m = Some (hd_error l, m).
Proof.
  intros (Hx & Ho & Hc & _). unfold csr_ll_peek_head, when_open.
  mrun (get_list_run _ _ _ Hx). rewrite Ho. unfold interlocked. cbn [when]. mstep.
  mrun (empty_run _ _ _ Hc). case_bool_decide as Hl.
  - subst. by mstep.
  - destruct l as [|y l]; [done|]. mrun (head_next_run _ _ _ _ Hc). by mstep.
Qed.

Lemma find_entry_run m p x l e : ll_at m p x l →
  csr_ll_find_entry ctx (Some p) (Some e) m = Some (bool_decide (e ∈ l), m).
Proof.
  intros Hat. pose proof Hat as (Hx & Ho & Hc & _). unfold csr_ll_find_entry, when_open at 1.
  mrun (get_list_run _ _ _ Hx). rewrite Ho. mrun (peek_head_run _ _ _ _ Hat).
  destruct l as [|y l]; cbn [hd_error].
  - rewrite bool_decide_eq_false_2; [done|]. by apply not_elem_of_nil.
  - unfold num_entries. mstep. apply (find_loop_run _ m _ [] (y :: l) e Hc).
    pose proof (circ_size _ _ _ Hc). lia.
Qed.
End reading.

(** * Refinement *)

Inductive ll_op : Type :=
| InsertTail (e : positive) | InsertHead (e : positive) | InsertEntry (b e : positive)
| RemoveTail | RemoveHead | RemoveEntry (e : positive) | PeekTail | PeekHead
| Next (e : positive) | Previous (e : positive) | Find (e : positive)
| Purge | IsEmpty | CountOf.

Inductive ll_res : Type :=
| RUnit | RPtr (o : option positive) | RBool (b : bool) | RNum (n : Z).

Definition insert_before (b e : positive) (l : list positive) : list positive :=
  flat_map (λ x, if decide (x = b) then [e; x] else [x]) l.

(** What an operation does to the sequence [l] of a list with head [h]: its
    result and the new sequence.  Entries to insert must be on no list, and
    an entry to insert before must be on this one. *)
Definition ll_spec (h : positive) (op : ll_op) (l : list positive) :
    option (ll_res * list positive) :=
  match op with
  | InsertTail e => if decide (e ∈ h :: l) then None else Some (RUnit, l ++ [e])
  | InsertHead e => if decide (e ∈ h :: l) then None else Some (RUnit, e :: l)
  | InsertEntry b e =>
      if decide (e ∈ h :: l) then None
      else if decide (b ∈ l) then Some (RUnit, insert_before b e l) else None
  | RemoveTail => Some (RPtr (last l), removelast l)
  | RemoveHead => Some (RPtr (hd_error l), tl l)
  | RemoveEntry e => Some (RBool (bool_decide (e ∈ l)), filter (λ y : positive, y ≠ e) l)
  | PeekTail => Some (RPtr (last l), l)
  | PeekHead => Some (RPtr (hd_error l), l)
  | Next e => Some (RPtr (next_of e l), l)
  | Previous e => Some (RPtr (prev_of e l), l)
  | Find e => Some (RBool (bool_decide (e ∈ l)), l)
  | Purge => Some (RUnit, [])
  | IsEmpty => Some (RBool (bool_decide (l = [])), l)
  | CountOf => Some (RNum (u32 (Z.of_nat (length l))), l)
  end.

Definition ll_exec {M} `{KMutex M} (ctx : context) (p : positive) (fi : bool) (op : ll_op) :
    CM (ll_mem M) ll_res :=
  let pl := Some p in
  match op with
  | InsertTail e => csr_ll_insert_tail ctx pl e fi;; mret RUnit
  | InsertHead e => csr_ll_insert_head ctx pl e fi;; mret RUnit
  | InsertEntry b e => csr_ll_insert_entry ctx pl (Some b) e fi;; mret RUnit
  | RemoveTail => o ← csr_ll_remove_tail ctx pl fi; mret (RPtr o)
  | RemoveHead => o ← csr_ll_remove_head ctx pl fi; mret (RPtr o)
  | RemoveEntry e => b ← csr_ll_remove_entry ctx pl (Some e) fi; mret (RBool b)
  | PeekTail => o ← csr_ll_peek_tail ctx pl fi; mret (RPtr o)
  | PeekHead => o ← csr_ll_peek_head ctx pl fi; mret (RPtr o)
  | Next e => o ← csr_ll_next ctx pl (Some e) fi; mret (RPtr o)
  | Previous e => o ← csr_ll_previous ctx pl (Some e) fi; mret (RPtr o)
  | Find e => b ← csr_ll_find_entry ctx pl (Some e); mret (RBool b)
  | Purge => csr_ll_purge ctx pl fi;; mret RUnit
  | IsEmpty => b ← csr_ll_is_list_empty ctx pl fi; mret (RBool b)
  | CountOf => n ← csr_ll_count pl; mret (RNum n)
  end.

Section refine.
Context {M : Type} `{KMutex M} (ctx : context).
Context (Hctx : in_interrupt ctx = false).
Implicit Types (m : ll_mem M) (x : tDblLinkList M) (l : list positive).

(** One operation, from [m] to [m']: the list holds [l'], its lock is as
    before, the other lists and entries did not change. *)
Definition ll_done m p x l m' l' : Prop :=
  ∃ x', ll_at m' p x' l' ∧ ListHead x' = ListHead x ∧ Lock x' = Lock x ∧
    (∀ q, q ≠ p → ll_lists m' !! q = ll_lists m !! q) ∧
    links_frame m (ll_next m') (ll_last m') (ListHead x :: l ++ l').

Definition run_ok p h {A} (run : CM (ll_mem M) A) (r : A) l l' : Prop :=
  ∀ m x, ListHead x = h → lock_ok ctx x → ll_at m p x l →
  ∃ m', run m = Some (r, m') ∧ ll_done m p x l m' l'.

Lemma done_at_p m p x l cnt nx ls l' :
  ll_at m p x l → circ nx ls (ListHead x) l' → links_frame m nx ls (ListHead x :: l ++ l') →
  cnt = u32 (Z.of_nat (length l')) →
  ll_done m p x l (at_p m p (set_Count cnt x) nx ls) l'.
Proof.
  intros (Hx & Ho & Hc & Hn) Hc' Hf ->. exists (set_Count (u32 (Z.of_nat (length l'))) x).
  split_and!; try done.
  - split_and!; try done. by apply at_p_at.
  - intros q Hq. simpl. by rewrite lookup_insert_ne.
Qed.

(** An operation that is a body between lock and unlock. *)
Lemma when_open_ok fi p h {A} (body : positive → CM (ll_mem M) A) dflt r l l' :
  body_ok (λ _, True) p h (body h) r l l' →
  run_ok p h (when_open (Some p) dflt (λ p x, interlocked ctx fi p (body (ListHead x)))) r l l'.
Proof.
  intros Hb m x <- Hk Hat. pose proof Hat as (Hx & Ho & _).
  destruct (interlocked_ok ctx Hctx fi p (ListHead x) _ _ _ _ Hb m x Hk eq_refl Hat)
    as (nx & ls & Hrun & Hc & Hf).
  eexists. split; [|by eapply done_at_p].
  unfold when_open. mrun (get_list_run _ _ _ Hx). by rewrite Ho.
Qed.

Lemma run_ok_ext p h {A} (run run' : CM (ll_mem M) A) r l l' :
  (∀ m, run m = run' m) → run_ok p h run' r l l' → run_ok p h run r l l'.
Proof. intros He Hr m x Hh Hk Hat. rewrite He. by apply Hr. Qed.

Lemma body_ext P p h {A} (body body' : CM (ll_mem M) A) r l l' :
  (∀ m, body m = body' m) → body_ok P p h body' r l l' → body_ok P p h body r l l'.
Proof. intros He Hr m x HP Hh Hat. rewrite He. by apply Hr. Qed.

Lemma run_ok_map p h {A B} (run : CM (ll_mem M) A) (f : A → B) r l l' :
  run_ok p h run r l l' → run_ok p h (x ← run; mret (f x)) (f r) l l'.
Proof.
  intros Hr m x Hh Hk Hat. destruct (Hr m x Hh Hk Hat) as (m' & Hrun & Hd).
  exists m'. split; [|done]. by mrun Hrun.
Qed.

Lemma insert_before_split b e l1 l2 : NoDup (l1 ++ b :: l2) →
  insert_before b e (l1 ++ b :: l2) = l1 ++ e :: b :: l2.
Proof.
  clear Hctx. assert (∀ l, b ∉ l → insert_before b e l = l) as Hid.
  { induction l as [|y l IH]; intros Hb; [done|]. unfold insert_before in *. simpl.
    rewrite decide_False by set_solver. simpl. rewrite IH by set_solver. done. }
  intros Hnd. apply NoDup_app in Hnd as (_ & Hd & Hnd). apply NoDup_cons in Hnd as [Hb _].
  unfold insert_before. rewrite flat_map_app. fold (insert_before b e l1).
  rewrite Hid by (intros Hin; apply (Hd b Hin); by left). simpl. rewrite decide_True by done.
  simpl. fold (insert_before b e l2). by rewrite Hid.
Qed.

(** The shape of the three insertions. *)
Lemma insert_ok p h (links : CM (ll_mem M) unit) l l' :
  length l' = S (length l) →
  (∀ m x, ListHead x = h → ll_at m p x l →
    ∃ nx ls, links m = Some (tt, with_links nx ls m) ∧ circ nx ls h l' ∧
      links_frame m nx ls (h :: l ++ l')) →
  body_ok (λ _, True) p h (links;; add_Count p 1) tt l l'.
Proof.
  intros Hlen Hl. eapply body_ext; [|apply (count_ok p h links (λ _, tt) tt 1 l l')].
  - intros m. unfold mbind, CM_bind. destruct (links m) as [[]|]; [|done].
    destruct (add_Count p 1 _) as [[[] ?]|]; done.
  - lia.
  - done.
Qed.

Lemma insert_tail_ok fi p h l e : e ∉ h :: l →
  run_ok p h (csr_ll_insert_tail ctx (Some p) e fi) tt l (l ++ [e]).
Proof.
  intros He. apply (when_open_ok fi p h (λ h, csr_list_insert_tail h e;; add_Count p 1)).
  apply insert_ok; [rewrite length_app; simpl; lia|].
  intros m x <- (_ & _ & Hc & _). destruct (insert_tail_run m _ l e Hc He) as (nx & ls & ? & ? & Hf).
  exists nx, ls. split_and!; [done..|]. eapply links_frame_mono; [|exact Hf]. set_solver.
Qed.

Lemma insert_entry_ok fi p h l1 b l2 e : e ∉ h :: l1 ++ b :: l2 →
  run_ok p h (csr_ll_insert_entry ctx (Some p) (Some b) e fi) tt (l1 ++ b :: l2)
    (l1 ++ e :: b :: l2).
Proof.
  intros He. apply (when_open_ok fi p h (λ h, csr_list_insert_entry (Some b) e;; add_Count p 1)).
  apply insert_ok; [rewrite !length_app; simpl; lia|].
  intros m x <- (_ & _ & Hc & _).
  destruct (insert_entry_run m _ l1 b l2 e Hc He) as (nx & ls & ? & ? & Hf).
  exists nx, ls. split_and!; [done..|]. eapply links_frame_mono; [|exact Hf]. set_solver.
Qed.

(** The timer of the active list is started outside the lock. *)
Lemma done_timers m p x l m' l' tm : ll_done m p x l m' l' →
  ll_done m p x l (mk_ll_mem (ll_lists m') (ll_next m') (ll_last m') tm) l'.
Proof. done. Qed.

Lemma insert_head_ok fi p h l e : e ∉ h :: l →
  run_ok p h (csr_ll_insert_head ctx (Some p) e fi) tt l (e :: l).
Proof.
  intros He m x <- Hk Hat. pose proof Hat as (Hx & Ho & Hc & _).
  assert (body_ok (M := M) (λ _, True) p (ListHead x)
    (csr_list_insert_head (ListHead x) e;; add_Count p 1) tt l (e :: l)) as Hb.
  { apply insert_ok; [done|]. intros m0 x0 Hh (_ & _ & Hc0 & _). rewrite Hh in Hc0.
    destruct (insert_head_run m0 _ l e Hc0 He) as (nx & ls & ? & ? & Hf).
    exists nx, ls. split_and!; [done..|]. eapply links_frame_mono; [|exact Hf]. set_solver. }
  destruct (interlocked_ok ctx Hctx fi p (ListHead x) _ _ _ _ Hb m x Hk eq_refl Hat)
    as (nx & ls & Hrun & Hc' & Hf).
  pose proof (done_at_p m p x l _ nx ls (e :: l) Hat Hc' Hf eq_refl) as Hd.
  unfold csr_ll_insert_head, when_open. mrun (get_list_run _ _ _ Hx). rewrite Ho. mrun Hrun.
  destruct (cmdTimeoutTimer x) as [t|]; [|by eexists].
  destruct (cmdTimeoutDuration x =? 0); [by eexists|].
  eexists. split; [done|]. by apply done_timers.
Qed.

Lemma remove_tail_ok fi p h l :
  run_ok p h (csr_ll_remove_tail ctx (Some p) fi) (last l) l (removelast l).
Proof.
  apply (when_open_ok fi p h (λ h, b ← csrIsListEmpty h; if (b : bool) then mret None
    else e ← csr_list_remove_tail h; add_Count p (-1);; mret (Some e))).
  destruct l as [|e l _] using rev_ind.
  - apply read_ok. intros m x <- (_ & _ & Hc & _). by mrun (empty_run _ _ _ Hc).
  - rewrite removelast_snoc, last_snoc. intros m x HI Hh Hat.
    pose proof Hat as (_ & _ & Hc & _). rewrite Hh in Hc. mrun (empty_run _ _ _ Hc).
    rewrite bool_decide_eq_false_2 by by destruct l.
    apply (count_ok p h (csr_list_remove_tail h) Some e (-1) (l ++ [e]) l); [| |done..].
    + rewrite length_app. simpl. lia.
    + intros m0 x0 Hh0 (_ & _ & Hc0 & _). rewrite Hh0 in Hc0.
      destruct (remove_tail_run m0 _ l e Hc0) as (nx & ls & ? & ? & Hf).
      exists nx, ls. split_and!; [done..|]. eapply links_frame_mono; [|exact Hf]. set_solver.
Qed.

Lemma remove_head_inner p h l :
  body_ok (M := M) (λ _, True) p h (b ← csrIsListEmpty h; if (b : bool) then mret None
    else e ← csr_list_remove_head h; add_Count p (-1);; mret (Some e)) (hd_error l) l (tl l).
Proof.
  destruct l as [|e l].
  - apply read_ok. intros m x <- (_ & _ & Hc & _). by mrun (empty_run _ _ _ Hc).
  - intros m x HI Hh Hat.
    pose proof Hat as (_ & _ & Hc & _). rewrite Hh in Hc. mrun (empty_run _ _ _ Hc).
    apply (count_ok p h (csr_list_remove_head h) Some e (-1) (e :: l) l); [| |done..].
    + simpl. lia.
    + intros m0 x0 Hh0 (_ & _ & Hc0 & _). rewrite Hh0 in Hc0.
      destruct (remove_head_run m0 _ e l Hc0) as (nx & ls & ? & ? & Hf).
      exists nx, ls. split_and!; [done..|]. eapply links_frame_mono; [|exact Hf]. set_solver.
Qed.

Lemma remove_head_ok fi p h l :
  run_ok p h (csr_ll_remove_head ctx (Some p) fi) (hd_error l) l (tl l).
Proof.
  apply (when_open_ok fi p h (λ h, b ← csrIsListEmpty h; if (b : bool) then mret None
    else e ← csr_list_remove_head h; add_Count p (-1);; mret (Some e))).
  apply remove_head_inner.
Qed.

(** ** Removing an entry *)

Lemma remove_loop_absent fuel m p h l1 l2 e :
  circ (ll_next m) (ll_last m) h (l1 ++ l2) → (length l2 ≤ fuel)%nat → e ∉ l2 →
  remove_loop fuel p h (hd h l2) (Some e) m = Some (false, m).
Proof.
  revert l1 fuel. induction l2 as [|y l2 IH]; intros l1 fuel Hc Hf He.
  - destruct fuel; simpl; by rewrite decide_True.
  - destruct fuel as [|fuel]; simpl in Hf; [lia|]. cbn [remove_loop hd].
    pose proof Hc as [_ Hnd]. apply NoDup_cons in Hnd as [Hh _].
    rewrite decide_False by set_solver. rewrite decide_False by set_solver.
    mrun (next_run _ _ _ _ _ Hc). rewrite cons_middle, app_assoc in Hc.
    apply (IH _ fuel Hc); [lia|set_solver].
Qed.

Lemma remove_loop_found fuel m p h l1 l2 e l3 :
  circ (ll_next m) (ll_last m) h (l1 ++ l2 ++ e :: l3) → (length l2 ≤ fuel)%nat → e ∉ l2 →
  remove_loop fuel p h (hd h (l2 ++ e :: l3)) (Some e) m =
    (csr_list_remove_entry e;; add_Count p (-1);; mret true) m.
Proof.
  revert l1 fuel. induction l2 as [|y l2 IH]; intros l1 fuel Hc Hf He.
  all: pose proof Hc as [_ Hnd]; apply NoDup_cons in Hnd as [Hh _].
  - cbn [app hd]. destruct fuel; cbn [remove_loop]; rewrite decide_False by set_solver;
      by rewrite decide_True.
  - destruct fuel as [|fuel]; simpl in Hf; [lia|]. cbn [remove_loop hd app].
    rewrite decide_False by set_solver. rewrite decide_False by set_solver.
    mrun (next_run _ _ _ _ _ Hc). cbn [app] in Hc. rewrite cons_middle, app_assoc in Hc.
    apply (IH _ fuel Hc); [lia|set_solver].
Qed.

Lemma remove_body_ok p h l e :
  body_ok (M := M) (λ _, True) p h
    (o ← csr_ll_peek_head ctx (Some p) false;
     match o with
     | None => mret false
     | Some pEntry => n ← num_entries; remove_loop n p h pEntry (Some e)
     end) (bool_decide (e ∈ l)) l (filter (λ y : positive, y ≠ e) l).
Proof.
  destruct (decide (e ∈ l)) as [He|He].
  - rewrite bool_decide_eq_true_2 by done. intros m x HI Hh Hat.
    pose proof Hat as (_ & _ & Hc & _). pose proof (circ_size _ _ _ Hc) as Hsz.
    rewrite (run_bind _ _ _ _ _ (peek_head_run ctx _ _ _ _ Hat)).
    apply list_elem_of_split in He as (l1 & l2 & ->).
    assert (NoDup (l1 ++ e :: l2)) as Hnd by (destruct Hc as [_ Hnd]; by apply NoDup_cons in Hnd as []).
    assert (hd_error (l1 ++ e :: l2) = Some (hd h (l1 ++ e :: l2))) as -> by by destruct l1.
    cbv iota. unfold num_entries. mstep. rewrite Hh in Hc.
    rewrite length_app in Hsz. simpl in Hsz.
    rewrite (remove_loop_found _ m p h [] l1 e l2 Hc) by
      (try lia; intros Hin; apply NoDup_app in Hnd as (_ & Hd & _); apply (Hd e Hin); by left).
    rewrite filter_ne_split by done.
    apply (count_ok p h (csr_list_remove_entry e) (λ _, true) tt (-1) (l1 ++ e :: l2) (l1 ++ l2));
      [| |done..].
    + rewrite !length_app. simpl. lia.
    + intros m0 x0 Hh0 (_ & _ & Hc0 & _). rewrite Hh0 in Hc0.
      destruct (remove_entry_run m0 _ l1 e l2 Hc0) as (nx & ls & ? & ? & Hf).
      exists nx, ls. split_and!; [done..|]. eapply links_frame_mono; [|exact Hf]. set_solver.
  - rewrite bool_decide_eq_false_2 by done. rewrite filter_ne_absent by done.
    apply read_ok. intros m x Hh Hat. pose proof Hat as (_ & _ & Hc & _).
    pose proof (circ_size _ _ _ Hc) as Hsz. rewrite Hh in Hc.
    rewrite (run_bind _ _ _ _ _ (peek_head_run ctx _ _ _ _ Hat)).
    destruct l as [|y l]; [done|]. cbn [hd_error]. unfold num_entries. mstep.
    apply (remove_loop_absent _ m p h [] (y :: l) e Hc); [lia|done].
Qed.

Lemma remove_entry_ok fi p h l e :
  run_ok p h (csr_ll_remove_entry ctx (Some p) (Some e) fi) (bool_decide (e ∈ l)) l
    (filter (λ y : positive, y ≠ e) l).
Proof.
  intros m x <- Hk Hat. pose proof Hat as (Hx & Ho & Hc & _).
  destruct (interlocked_ok ctx Hctx fi p (ListHead x) _ _ _ _
    (remove_body_ok p (ListHead x) l e) m x Hk eq_refl Hat) as (nx & ls & Hrun & Hc' & Hf).
  pose proof (done_at_p m p x l _ nx ls _ Hat Hc' Hf eq_refl) as Hd.
  unfold csr_ll_remove_entry, when_open at 1. mrun (get_list_run _ _ _ Hx). rewrite Ho. mrun Hrun.
  destruct (cmdTimeoutTimer x) as [t|]; [|by eexists].
  eexists. split; [done|]. by apply done_timers.
Qed.

(** ** Emptying the list *)

Lemma body_seq p h {A B} (b1 : CM (ll_mem M) A) (k : A → CM (ll_mem M) B) r1 r2 l l1 l2 :
  l1 ⊆ l ++ l2 → body_ok (λ _, True) p h b1 r1 l l1 → body_ok (λ _, True) p h (k r1) r2 l1 l2 →
  body_ok (λ _, True) p h (x ← b1; k x) r2 l l2.
Proof.
  intros Hsub Hb1 Hb2 m x _ Hh Hat. pose proof Hat as (Hx & Ho & Hc & Hn).
  destruct (Hb1 m x I Hh Hat) as (nx1 & ls1 & Hrun1 & Hc1 & Hf1).
  set (x1 := set_Count _ x) in *.
  destruct (Hb2 (at_p m p x1 nx1 ls1) x1 I Hh) as (nx & ls & Hrun2 & Hc2 & Hf2).
  { split_and!; try done; [by apply at_p_at|]. simpl. by rewrite Hh. }
  exists nx, ls. split; [|split; [done|]].
  - mrun Hrun1. rewrite Hrun2, at_p_at_p. done.
  - intros y Hy. destruct (Hf1 y) as [Hy1 Hy2]; [set_solver|].
    destruct (Hf2 y) as [Hy3 Hy4]; [set_solver|]. simpl in *. by rewrite Hy3, Hy4.
Qed.

Lemma remove_head_body_ok p h l :
  body_ok (λ _, True) p h (csr_ll_remove_head ctx (Some p) false) (hd_error l) l (tl l).
Proof.
  intros m x _ <- Hat. pose proof Hat as (Hx & Ho & Hc & _).
  destruct (remove_head_inner p (ListHead x) l m x I eq_refl Hat) as (nx & ls & Hrun & ? & ?).
  exists nx, ls. split; [|done].
  unfold csr_ll_remove_head, when_open. mrun (get_list_run _ _ _ Hx). rewrite Ho.
  unfold interlocked. cbn [when]. rewrite run_ret.
  rewrite (run_bind _ _ _ _ _ Hrun). by mstep.
Qed.

Lemma purge_loop_ok p h l fuel : (length l < fuel)%nat →
  body_ok (λ _, True) p h (purge_loop ctx fuel (Some p)) tt l [].
Proof.
  revert l. induction fuel as [|fuel IH]; intros l Hf; [lia|]. cbn [purge_loop].
  eapply (body_seq p h _ (λ o, match o with None => mret tt
    | Some _ => purge_loop ctx fuel (Some p) end)); [|apply remove_head_body_ok|].
  - destruct l; set_solver.
  - destruct l as [|e l]; simpl in *; [by apply read_ok|]. apply IH. lia.
Qed.

Lemma purge_ok fi p h l : run_ok p h (csr_ll_purge ctx (Some p) fi) tt l [].
Proof.
  apply (when_open_ok fi p h (λ h, n ← num_entries; purge_loop ctx (S n) (Some p))).
  intros m x HI Hh Hat. unfold num_entries. mstep. pose proof Hat as (_ & _ & Hc & _).
  pose proof (circ_size _ _ _ Hc). apply (purge_loop_ok p h l); [lia|done..].
Qed.

(** ** Reading *)

Lemma done_refl m p x l : ll_at m p x l → ll_done m p x l m l.
Proof. intros Hat. exists x. by split_and!. Qed.

Lemma find_ok p h l e :
  run_ok p h (csr_ll_find_entry ctx (Some p) (Some e)) (bool_decide (e ∈ l)) l l.
Proof.
  intros m x _ _ Hat. exists m. split; [|by apply done_refl]. by apply (find_entry_run ctx m p x).
Qed.

Lemma count_of_ok p h l :
  run_ok p h (csr_ll_count (Some p)) (u32 (Z.of_nat (length l))) l l.
Proof.
  intros m x _ _ Hat. exists m. split; [|by apply done_refl].
  destruct Hat as (Hx & Ho & _ & Hn). unfold csr_ll_count, when_open.
  mrun (get_list_run _ _ _ Hx). by rewrite Ho, Hn.
Qed.

Lemma is_empty_ok fi p h l :
  run_ok p h (csr_ll_is_list_empty ctx (Some p) fi) (bool_decide (l = [])) l l.
Proof.
  apply (when_open_ok fi p h csrIsListEmpty). apply read_ok.
  intros m x <- (_ & _ & Hc & _). by apply empty_run.
Qed.

Lemma peek_head_ok fi p h l : run_ok p h (csr_ll_peek_head ctx (Some p) fi) (hd_error l) l l.
Proof.
  apply (when_open_ok fi p h (λ h, b ← csrIsListEmpty h;
    if (b : bool) then mret None else e ← rd_next h; mret (Some e))). apply read_ok.
  intros m x <- (_ & _ & Hc & _). mrun (empty_run _ _ _ Hc). destruct l as [|y l]; [done|].
  rewrite bool_decide_eq_false_2 by done. by mrun (head_next_run _ _ _ _ Hc).
Qed.

Lemma peek_tail_ok fi p h l : run_ok p h (csr_ll_peek_tail ctx (Some p) fi) (last l) l l.
Proof.
  apply (when_open_ok fi p h (λ h, b ← csrIsListEmpty h;
    if (b : bool) then mret None else e ← rd_last h; mret (Some e))). apply read_ok.
  intros m x <- (_ & _ & Hc & _). mrun (empty_run _ _ _ Hc).
  destruct l as [|y l _] using rev_ind; [done|]. rewrite last_snoc.
  rewrite bool_decide_eq_false_2 by by destruct l. by mrun (head_last_run _ _ _ _ Hc).
Qed.

Lemma next_of_absent e l : e ∉ l → next_of e l = None.
Proof.
  induction l as [|x l IH]; intros He; [done|]. destruct l as [|y l]; [done|].
  cbn [next_of]. rewrite decide_False by set_solver. apply IH. set_solver.
Qed.

Lemma prev_of_absent e l : e ∉ l → prev_of e l = None.
Proof.
  induction l as [|x l IH]; intros He; [done|]. destruct l as [|y l]; [done|].
  cbn [prev_of]. rewrite decide_False by set_solver. apply IH. set_solver.
Qed.

Lemma next_ok fi p h l e :
  run_ok p h (csr_ll_next ctx (Some p) (Some e) fi) (next_of e l) l l.
Proof.
  pose (body := (λ h, b ← csrIsListEmpty h;
    if (b : bool) then mret None else f ← csr_ll_find_entry ctx (Some p) (Some e);
    if (f : bool) then e ← deref (Some e); n ← rd_next e;
      mret (if decide (n = h) then None else Some n) else mret None)
    : positive → CM (ll_mem M) (option positive)).
  apply (when_open_ok fi p h body). apply read_ok. unfold body. intros m x <- Hat. pose proof Hat as (_ & _ & Hc & _).
  mrun (empty_run _ _ _ Hc). destruct (decide (l = [])) as [->|Hl]; [done|].
  rewrite bool_decide_eq_false_2 by done. mrun (find_entry_run ctx m p x l e Hat).
  case_bool_decide as He; [|by rewrite next_of_absent].
  apply list_elem_of_split in He as (l1 & l2 & ->). mstep.
  mrun (next_run _ _ _ _ _ Hc). pose proof Hc as [_ Hnd].
  apply NoDup_cons in Hnd as [Hh Hnd]. apply NoDup_app in Hnd as (_ & Hd & _).
  rewrite next_of_split by (intros Hin; apply (Hd e Hin); by left).
  destruct l2 as [|y l2]; simpl; [by rewrite decide_True|].
  rewrite decide_False; [done|]. set_solver.
Qed.

Lemma previous_ok fi p h l e :
  run_ok p h (csr_ll_previous ctx (Some p) (Some e) fi) (prev_of e l) l l.
Proof.
  pose (body := (λ h, b ← csrIsListEmpty h;
    if (b : bool) then mret None else f ← csr_ll_find_entry ctx (Some p) (Some e);
    if (f : bool) then e ← deref (Some e); n ← rd_last e;
      mret (if decide (n = h) then None else Some n) else mret None)
    : positive → CM (ll_mem M) (option positive)).
  apply (when_open_ok fi p h body). apply read_ok. unfold body. intros m x <- Hat. pose proof Hat as (_ & _ & Hc & _).
  mrun (empty_run _ _ _ Hc). destruct (decide (l = [])) as [->|Hl]; [done|].
  rewrite bool_decide_eq_false_2 by done. mrun (find_entry_run ctx m p x l e Hat).
  case_bool_decide as He; [|by rewrite prev_of_absent].
  apply list_elem_of_split in He as (l1 & l2 & ->). mstep.
  mrun (last_run _ _ _ _ _ Hc). pose proof Hc as [_ Hnd].
  apply NoDup_cons in Hnd as [Hh Hnd]. rewrite prev_of_split by done.
  destruct l1 as [|y l1 _] using rev_ind; simpl; [by rewrite decide_True|].
  rewrite List.last_last, last_snoc, decide_False; [done|]. set_solver.
Qed.
End refine.

(** C14. The circular, locked, counted list implements a sequence.  For every
    open list, any operation with or without interlocking, called when the
    lock is free or already held by the thread, terminates without touching
    memory outside the list, returns what the same operation on a sequence
    returns, leaves the list representing the resulting sequence with the
    right count, leaves the lock as it was, and changes no other list. *)
Theorem csr_ll_refines_sequence {M} `{KMutex M} ctx (m : ll_mem M) p x l fi op r l' :
  in_interrupt ctx = false → ll_at m p x l → lock_ok ctx x →
  ll_spec (ListHead x) op l = Some (r, l') →
  ∃ m', ll_exec ctx p fi op m = Some (r, m') ∧ ll_done m p x l m' l'.
Proof.
  intros Hctx Hat Hk Hs.
  assert (run_ok ctx p (ListHead x) (ll_exec ctx p fi op) r l l') as Hok;
    [|by apply Hok].
  destruct op; cbn [ll_spec] in Hs; simplify_eq.
  - case_decide; simplify_eq. apply (run_ok_map ctx p _ _ (λ _, RUnit) tt). by apply insert_tail_ok.
  - case_decide; simplify_eq. apply (run_ok_map ctx p _ _ (λ _, RUnit) tt). by apply insert_head_ok.
  - case_decide; [done|]. case_decide; simplify_eq. apply (run_ok_map ctx p _ _ (λ _, RUnit) tt).
    match goal with Hb : b ∈ l |- _ => apply list_elem_of_split in Hb as (l1 & l2 & ->) end.
    pose proof Hat as (_ & _ & [_ Hnd] & _). apply NoDup_cons in Hnd as [_ Hnd].
    rewrite insert_before_split by done. by apply insert_entry_ok.
  - apply (run_ok_map ctx p _ _ RPtr). by apply remove_tail_ok.
  - apply (run_ok_map ctx p _ _ RPtr). by apply remove_head_ok.
  - apply (run_ok_map ctx p _ _ RBool). by apply remove_entry_ok.
  - apply (run_ok_map ctx p _ _ RPtr). by apply peek_tail_ok.
  - apply (run_ok_map ctx p _ _ RPtr). by apply peek_head_ok.
  - apply (run_ok_map ctx p _ _ RPtr). by apply next_ok.
  - apply (run_ok_map ctx p _ _ RPtr). by apply previous_ok.
  - apply (run_ok_map ctx p _ _ RBool). by apply find_ok.
  - apply (run_ok_map ctx p _ _ (λ _, RUnit) tt). by apply purge_ok.
  - apply (run_ok_map ctx p _ _ RBool). by apply is_empty_ok.
  - apply (run_ok_map ctx p _ _ RNum). by apply count_of_ok.
Qed.

(** Inserting before NULL corrupts the count.  [csr_ll_insert_entry] with
    a NULL position links nothing in, because [csr_list_insert_entry] returns
    early, but counts the entry all the same. *)
Theorem csr_ll_insert_entry_null_miscounts {M} `{KMutex M} ctx (m : ll_mem M) p x l e :
  ll_at m p x l → Z.of_nat (length l) + 1 < 2 ^ 32 →
  ∃ m', csr_ll_insert_entry ctx (Some p) None e false m = Some (tt, m') ∧
    circ (ll_next m') (ll_last m') (ListHead x) l ∧
    ∃ x', ll_lists m' !! p = Some x' ∧ Count x' = Z.of_nat (length l) + 1.
Proof.
  intros (Hx & Ho & Hc & Hn) Hlen. unfold csr_ll_insert_entry, when_open.
  mrun (get_list_run _ _ _ Hx). rewrite Ho. unfold interlocked. cbn [when csr_list_insert_entry].
  mstep. unfold add_Count. rewrite run_assoc. erewrite run_bind by by apply get_list_run.
  unfold put_list. mstep. eexists. split; [done|]. split; [done|]. simpl.
  eexists. split; [apply lookup_insert_eq|]. simpl. rewrite Hn, u32_count. apply wrap_small. lia.
Qed.

(** * An example: a list of two entries *)

Definition sample_list : tDblLinkList bool := mk_dbl_list 1 free_lock 2 0 true 0 None.

Definition sample_mem : ll_mem bool :=
  mk_ll_mem {[ 1%positive := sample_list ]}
    {[ 1%positive := 2%positive; 2%positive := 3%positive; 3%positive := 1%positive ]}
    {[ 1%positive := 3%positive; 2%positive := 1%positive; 3%positive := 2%positive ]} [].

Lemma sample_at : ll_at sample_mem 1 sample_list [2; 3]%positive.
Proof.
  split; [reflexivity|]. split; [reflexivity|]. split; [|reflexivity]. split.
  - repeat split.
  - by apply (bool_decide_eq_true _); vm_compute.
Defined.

Lemma csr_ll_refines_sequence_witness :
  ∃ m', ll_exec (mk_context 7 false) 1 true (RemoveEntry 2) sample_mem = Some (RBool true, m') ∧
    ll_done sample_mem 1 sample_list [2; 3]%positive m' [3]%positive.
Proof.
  apply (csr_ll_refines_sequence (mk_context 7 false) sample_mem 1 sample_list [2; 3]%positive true
    (RemoveEntry 2)).
  - reflexivity.
  - exact sample_at.
  - left. by repeat split.
  - reflexivity.
Defined.

Lemma csr_ll_insert_entry_null_miscounts_witness :
  ∃ m', csr_ll_insert_entry (mk_context 7 false) (Some 1%positive) None 4 false sample_mem
      = Some (tt, m') ∧ ∃ x', ll_lists m' !! 1%positive = Some x' ∧ Count x' = 3.
Proof.
  destruct (csr_ll_insert_entry_null_miscounts (mk_context 7 false) sample_mem 1 sample_list
    [2; 3]%positive 4 sample_at) as (m' & Hrun & _ & Hx); [simpl; lia|].
  exists m'. split; [exact Hrun|exact Hx].
Defined.
