(* ===== verification/Cfg.v ===== *)
(** The configuration store of the MAC layer: [core/mac/src/cfg/cfg_api.c],
    [cfg_proc_msg.c], [cfg_send_msg.c] and [core/mac/src/include/cfg_global.h].

    A parameter is named by its identifier.  Its control word holds its flags
    and its position: in three parallel arrays of 32-bit words (value, minimum,
    maximum) for an integer parameter, in one byte buffer (capacity, length,
    bytes) for a string parameter.

    The four buffers are one allocation in the source; here they are four
    arrays, and an access outside the array it is meant for has no result. *)
From S2P Require Import Prelude.

(** * Constants *)

Definition eSIR_SUCCESS : Z := 0.
Definition eSIR_FAILURE : Z := 1.
Definition eSIR_MEM_ALLOC_FAILED : Z := 0x109.
Definition eSIR_CFG_INVALID_ID : Z := 2601.
Definition eSIR_CFG_INVALID_LEN : Z := 2602.

Definition CFG_PARAM_MAX_NUM : Z := 293.
Definition CFG_MAX_STATIC_STRING : Z := 70.
Definition CFG_MAX_STR_LEN : Z := 256.

Definition CFG_CTL_VALID : Z := 0x00010000.
Definition CFG_CTL_RE : Z := 0x00020000.
Definition CFG_CTL_WE : Z := 0x00040000.
Definition CFG_CTL_INT : Z := 0x00080000.
Definition CFG_CTL_SAVE : Z := 0x00100000.
Definition CFG_CTL_RESTART : Z := 0x00200000.
Definition CFG_CTL_RELOAD : Z := 0x00400000.
Definition CFG_CTL_NTF_HAL : Z := 0x04000000.
Definition CFG_CTL_NTF_SCH : Z := 0x20000000.
Definition CFG_CTL_NTF_LIM : Z := 0x40000000.
Definition CFG_CTL_NTF_MASK : Z := 0xFFE00000.
Definition CFG_BUF_INDX_MASK : Z := 0x00000fff.

Definition CFG_INCOMPLETE : Z := 0.
Definition CFG_SUCCESS : Z := 1.
Definition CFG_FAILURE : Z := 2.

Definition WNI_CFG_LOG_LEVEL : Z := 90.
Definition PAGE_SIZE : Z := 4096.

(** [(control & flag) != 0] *)
Definition has_flag (control flag : Z) : bool := negb (Z.land control flag =? 0).

(** * State *)

(** [cfgstatic_string]: the default of a string parameter. *)
Record cfgstatic_string : Type := mk_static_string {
  ss_cfgId : Z;
  ss_maxLen : Z;
  ss_length : Z;
  ss_data : list Z;
}.

(** [cgstatic]: the defaults of a parameter. *)
Record cgstatic : Type := mk_cgstatic {
  cs_cfgId : Z;
  cs_control : Z;
  cs_cfgIMin : Z;
  cs_cfgIMax : Z;
  cs_cfgIVal : Z;
  cs_pStrData : option cfgstatic_string;
}.

Definition set_pStrData (v : option cfgstatic_string) (r : cgstatic) : cgstatic :=
  mk_cgstatic (cs_cfgId r) (cs_control r) (cs_cfgIMin r) (cs_cfgIMax r) (cs_cfgIVal r) v.

(** What the store sends to other modules: parameter update notifications,
    messages to the host with their parameters and data words, and the
    indication that the download is complete. *)
Inductive cfg_event : Type :=
| CfgNotifySch (cfgId : Z)
| CfgNotifyLim (cfgId : Z)
| CfgNotifyHal (cfgId : Z)
| CfgHostMsg (msgType msgLen : Z) (params data : list Z)
| CfgDownloadComplete.

(** [tAniSirCfg]: the buffers of the store, the table of defaults, the log
    levels that follow a parameter, and what was sent so far. *)
Record tAniSirCfg : Type := mk_cfg {
  gCfgStatus : Z;
  gCfgEntry : option (list Z);
  gCfgSBuf : option (list Z);
  gCfgIBuf : option (list Z);
  gCfgIBufMin : option (list Z);
  gCfgIBufMax : option (list Z);
  gCfgMaxIBufSize : Z;
  gCfgMaxSBufSize : Z;
  gSBuffer : option (list Z);
  gParamList : option (list Z);
  cfg_static : list cgstatic;
  gLogLevel : list Z;
  cfg_log : list cfg_event;
}.

Definition set_gCfgStatus (v : Z) (r : tAniSirCfg) : tAniSirCfg :=
  mk_cfg v (gCfgEntry r) (gCfgSBuf r) (gCfgIBuf r) (gCfgIBufMin r) (gCfgIBufMax r) (gCfgMaxIBufSize r) (gCfgMaxSBufSize r) (gSBuffer r) (gParamList r) (cfg_static r) (gLogLevel r) (cfg_log r).
Definition set_gCfgEntry (v : option (list Z)) (r : tAniSirCfg) : tAniSirCfg :=
  mk_cfg (gCfgStatus r) v (gCfgSBuf r) (gCfgIBuf r) (gCfgIBufMin r) (gCfgIBufMax r) (gCfgMaxIBufSize r) (gCfgMaxSBufSize r) (gSBuffer r) (gParamList r) (cfg_static r) (gLogLevel r) (cfg_log r).
Definition set_gCfgSBuf (v : option (list Z)) (r : tAniSirCfg) : tAniSirCfg :=
  mk_cfg (gCfgStatus r) (gCfgEntry r) v (gCfgIBuf r) (gCfgIBufMin r) (gCfgIBufMax r) (gCfgMaxIBufSize r) (gCfgMaxSBufSize r) (gSBuffer r) (gParamList r) (cfg_static r) (gLogLevel r) (cfg_log r).
Definition set_gCfgIBuf (v : option (list Z)) (r : tAniSirCfg) : tAniSirCfg :=
  mk_cfg (gCfgStatus r) (gCfgEntry r) (gCfgSBuf r) v (gCfgIBufMin r) (gCfgIBufMax r) (gCfgMaxIBufSize r) (gCfgMaxSBufSize r) (gSBuffer r) (gParamList r) (cfg_static r) (gLogLevel r) (cfg_log r).
Definition set_gCfgIBufMin (v : option (list Z)) (r : tAniSirCfg) : tAniSirCfg :=
  mk_cfg (gCfgStatus r) (gCfgEntry r) (gCfgSBuf r) (gCfgIBuf r) v (gCfgIBufMax r) (gCfgMaxIBufSize r) (gCfgMaxSBufSize r) (gSBuffer r) (gParamList r) (cfg_static r) (gLogLevel r) (cfg_log r).
Definition set_gCfgIBufMax (v : option (list Z)) (r : tAniSirCfg) : tAniSirCfg :=
  mk_cfg (gCfgStatus r) (gCfgEntry r) (gCfgSBuf r) (gCfgIBuf r) (gCfgIBufMin r) v (gCfgMaxIBufSize r) (gCfgMaxSBufSize r) (gSBuffer r) (gParamList r) (cfg_static r) (gLogLevel r) (cfg_log r).
Definition set_gCfgMaxIBufSize (v : Z) (r : tAniSirCfg) : tAniSirCfg :=
  mk_cfg (gCfgStatus r) (gCfgEntry r) (gCfgSBuf r) (gCfgIBuf r) (gCfgIBufMin r) (gCfgIBufMax r) v (gCfgMaxSBufSize r) (gSBuffer r) (gParamList r) (cfg_static r) (gLogLevel r) (cfg_log r).
Definition set_gCfgMaxSBufSize (v : Z) (r : tAniSirCfg) : tAniSirCfg :=
  mk_cfg (gCfgStatus r) (gCfgEntry r) (gCfgSBuf r) (gCfgIBuf r) (gCfgIBufMin r) (gCfgIBufMax r) (gCfgMaxIBufSize r) v (gSBuffer r) (gParamList r) (cfg_static r) (gLogLevel r) (cfg_log r).
Definition set_gSBuffer (v : option (list Z)) (r : tAniSirCfg) : tAniSirCfg :=
  mk_cfg (gCfgStatus r) (gCfgEntry r) (gCfgSBuf r) (gCfgIBuf r) (gCfgIBufMin r) (gCfgIBufMax r) (gCfgMaxIBufSize r) (gCfgMaxSBufSize r) v (gParamList r) (cfg_static r) (gLogLevel r) (cfg_log r).
Definition set_gParamList (v : option (list Z)) (r : tAniSirCfg) : tAniSirCfg :=
  mk_cfg (gCfgStatus r) (gCfgEntry r) (gCfgSBuf r) (gCfgIBuf r) (gCfgIBufMin r) (gCfgIBufMax r) (gCfgMaxIBufSize r) (gCfgMaxSBufSize r) (gSBuffer r) v (cfg_static r) (gLogLevel r) (cfg_log r).
Definition set_cfg_static (v : list cgstatic) (r : tAniSirCfg) : tAniSirCfg :=
  mk_cfg (gCfgStatus r) (gCfgEntry r) (gCfgSBuf r) (gCfgIBuf r) (gCfgIBufMin r) (gCfgIBufMax r) (gCfgMaxIBufSize r) (gCfgMaxSBufSize r) (gSBuffer r) (gParamList r) v (gLogLevel r) (cfg_log r).
Definition set_gLogLevel (v : list Z) (r : tAniSirCfg) : tAniSirCfg :=
  mk_cfg (gCfgStatus r) (gCfgEntry r) (gCfgSBuf r) (gCfgIBuf r) (gCfgIBufMin r) (gCfgIBufMax r) (gCfgMaxIBufSize r) (gCfgMaxSBufSize r) (gSBuffer r) (gParamList r) (cfg_static r) v (cfg_log r).
Definition set_cfg_log (v : list cfg_event) (r : tAniSirCfg) : tAniSirCfg :=
  mk_cfg (gCfgStatus r) (gCfgEntry r) (gCfgSBuf r) (gCfgIBuf r) (gCfgIBufMin r) (gCfgIBufMax r) (gCfgMaxIBufSize r) (gCfgMaxSBufSize r) (gSBuffer r) (gParamList r) (cfg_static r) (gLogLevel r) v.
Abbreviation CFG := (CM tAniSirCfg).

(** * Array accesses *)

Definition arr_get (l : list Z) (i : Z) : option Z :=
  if 0 <=? i then l !! Z.to_nat i else None.

Definition arr_put (l : list Z) (i v : Z) : option (list Z) :=
  if (0 <=? i) && (i <? Z.of_nat (length l)) then Some (<[Z.to_nat i := v]> l) else None.

Definition rd (f : tAniSirCfg → option (list Z)) (i : Z) : CFG Z :=
  o ← gets f; l ← deref o; deref (arr_get l i).

Definition wr (f : tAniSirCfg → option (list Z))
    (set_f : option (list Z) → tAniSirCfg → tAniSirCfg) (i v : Z) : CFG unit :=
  o ← gets f; l ← deref o; l' ← deref (arr_put l i v); modify (set_f (Some l')).

Definition log_cfg (e : cfg_event) : CFG unit :=
  modify (λ c, set_cfg_log (cfg_log c ++ [e]) c).

(** * Parameters *)

Definition cfg_need_restart (cfgId : Z) : CFG bool :=
  o ← gets gCfgEntry;
  match o with
  | None => mret false
  | Some _ => control ← rd gCfgEntry cfgId; mret (has_flag control CFG_CTL_RESTART)
  end.

Definition cfg_need_reload (cfgId : Z) : CFG bool :=
  o ← gets gCfgEntry;
  match o with
  | None => mret false
  | Some _ => control ← rd gCfgEntry cfgId; mret (has_flag control CFG_CTL_RELOAD)
  end.

(** [cfg_check_valid]: the status, and the index when it is written. *)
Definition cfg_check_valid (cfgId : Z) : CFG (Z * option Z) :=
  if cfgId >=? CFG_PARAM_MAX_NUM then mret (eSIR_CFG_INVALID_ID, None)
  else
    o ← gets gCfgEntry;
    match o with
    | None => mret (eSIR_CFG_INVALID_ID, None)
    | Some _ =>
        control ← rd gCfgEntry cfgId;
        if Z.land control CFG_CTL_VALID =? 0 then mret (eSIR_CFG_INVALID_ID, None)
        else
          let index := Z.land control CFG_BUF_INDX_MASK in
          max ← gets gCfgMaxSBufSize;
          if index >=? max then mret (eSIR_CFG_INVALID_ID, Some index)
          else mret (eSIR_SUCCESS, Some index)
    end.

Definition notify (cfgId ntfMask : Z) : CFG unit :=
  when (has_flag ntfMask CFG_CTL_NTF_SCH) (log_cfg (CfgNotifySch cfgId));;
  when (has_flag ntfMask CFG_CTL_NTF_LIM) (log_cfg (CfgNotifyLim cfgId));;
  when (has_flag ntfMask CFG_CTL_NTF_HAL) (log_cfg (CfgNotifyHal cfgId)).

Definition cfg_set_int (cfgId value : Z) : CFG Z :=
  '(status, index) ← cfg_check_valid cfgId;
  if negb (status =? eSIR_SUCCESS) then mret status
  else
    index ← deref index;
    vmin ← rd gCfgIBufMin index;
    if vmin >? value then mret eSIR_CFG_INVALID_ID
    else
      vmax ← rd gCfgIBufMax index;
      if vmax <? value then mret eSIR_CFG_INVALID_ID
      else
        wr gCfgIBuf set_gCfgIBuf index value;;
        control ← rd gCfgEntry cfgId;
        let mask := Z.land control CFG_CTL_NTF_MASK in
        when (has_flag mask CFG_CTL_NTF_MASK) (notify cfgId mask);;
        mret status.

(** The status, and the value when it is written. *)
Definition wlan_cfg_get_int (cfgId : Z) : CFG (Z * option Z) :=
  '(status, index) ← cfg_check_valid cfgId;
  if negb (status =? eSIR_SUCCESS) then mret (status, None)
  else
    index ← deref index;
    v ← rd gCfgIBuf index;
    mret (eSIR_SUCCESS, Some v).

(** The [while (pDst < pDstEnd) *pDst++ = *pStr++;] loop, [n] bytes. *)
Fixpoint copy_to_sbuf (n : nat) (pDst : Z) (pStr : list Z) : CFG unit :=
  match n with
  | O => mret tt
  | S n =>
      b ← deref (head pStr);
      wr gCfgSBuf set_gCfgSBuf pDst b;;
      copy_to_sbuf n (pDst + 1) (tail pStr)
  end.

Definition cfg_set_str_notify (cfgId : Z) (pStr : list Z) (len : Z) (notifyMod : bool) :
    CFG Z :=
  '(status, index) ← cfg_check_valid cfgId;
  if negb (status =? eSIR_SUCCESS) then mret status
  else
    index ← deref index;
    paramLen ← rd gCfgSBuf index;
    control ← rd gCfgEntry cfgId;
    if len >? paramLen then mret eSIR_CFG_INVALID_LEN
    else
      wr gCfgSBuf set_gCfgSBuf (index + 1) (u8 len);;
      copy_to_sbuf (Z.to_nat len) (index + 2) pStr;;
      when notifyMod
        (let mask := Z.land control CFG_CTL_NTF_MASK in
         when (has_flag mask CFG_CTL_NTF_MASK) (notify cfgId mask));;
      mret eSIR_SUCCESS.

Definition cfg_set_str (cfgId : Z) (pStr : list Z) (len : Z) : CFG Z :=
  cfg_set_str_notify cfgId pStr len true.

(** The [while (pSrc < pSrcEnd) *pBuf++ = *pSrc++;] loop, [n] bytes. *)
Fixpoint copy_from_sbuf (n : nat) (pSrc : Z) : CFG (list Z) :=
  match n with
  | O => mret []
  | S n => b ← rd gCfgSBuf pSrc; bs ← copy_from_sbuf n (pSrc + 1); mret (b :: bs)
  end.

(** [maxLen] is [*pLength] at the call.  The status, and the bytes written to
    [pBuf], whose number is [*pLength] at the return; nothing is written when
    the call fails. *)
Definition wlan_cfg_get_str (cfgId maxLen : Z) : CFG (Z * option (list Z)) :=
  '(status, index) ← cfg_check_valid cfgId;
  if negb (status =? eSIR_SUCCESS) then mret (status, None)
  else
    index ← deref index;
    len ← rd gCfgSBuf (index + 1);
    if maxLen <? len then mret (eSIR_CFG_INVALID_LEN, None)
    else
      bs ← copy_from_sbuf (Z.to_nat len) (index + 2);
      mret (eSIR_SUCCESS, Some bs).

Definition wlan_cfg_get_str_max_len (cfgId : Z) : CFG (Z * option Z) :=
  '(status, index) ← cfg_check_valid cfgId;
  if negb (status =? eSIR_SUCCESS) then mret (status, None)
  else index ← deref index; v ← rd gCfgSBuf index; mret (status, Some v).

Definition wlan_cfg_get_str_len (cfgId : Z) : CFG (Z * option Z) :=
  '(status, index) ← cfg_check_valid cfgId;
  if negb (status =? eSIR_SUCCESS) then mret (status, None)
  else index ← deref index; v ← rd gCfgSBuf (index + 1); mret (status, Some v).
