(* ===== verification/CfgBoot.v ===== *)
(** Start of the configuration store: [cfg_init], [cfg_get_strindex] and
    [cfg_de_init] of [core/mac/src/cfg/cfg_api.c], and
    [process_cfg_download_req] of [cfg_proc_msg.c], which lays the parameters
    out in the buffers and loads their defaults. *)
From S2P Require Import Prelude Cfg.

(** [cfg_static[i]] *)
Definition get_static (i : Z) : CFG cgstatic :=
  t ← gets cfg_static; deref (t !! Z.to_nat i).

Definition put_pStrData (i : Z) (p : option cfgstatic_string) : CFG unit :=
  x ← get_static i;
  modify (λ c, set_cfg_static (<[Z.to_nat i := set_pStrData p x]> (cfg_static c)) c).

(** The loop over [cfg_static_string]: the first entry of the parameter. *)
Definition cfg_get_strindex (cfg_static_string : list cfgstatic_string) (cfgId : Z) : CFG unit :=
  put_pStrData cfgId
    (head (filter (λ s, ss_cfgId s = cfgId) (take (Z.to_nat CFG_MAX_STATIC_STRING) cfg_static_string))).

Definition is_int (x : cgstatic) : bool := has_flag (cs_control x) CFG_CTL_INT.
Definition is_valid (x : cgstatic) : bool := has_flag (cs_control x) CFG_CTL_VALID.

(** The second loop of [cfg_init]: [max_i_count] and [max_s_count]. *)
Fixpoint count_buffers (l : list cgstatic) (max_i_count max_s_count : Z) : Z * Z :=
  match l with
  | [] => (max_i_count, max_s_count)
  | x :: l =>
      if is_int x then count_buffers l (u32 (max_i_count + 1)) max_s_count
      else
        match cs_pStrData x with
        | None => count_buffers l max_i_count max_s_count
        | Some str_cfg =>
            count_buffers l max_i_count (u32 (max_s_count + ss_maxLen str_cfg + 2))
        end
  end.

Definition zeros (n : Z) : list Z := replicate (Z.to_nat n) 0.

(** [alloc] is whether the allocation, zeroed by [cdf_mem_malloc], succeeds.
    The static arrays are as at the module's first start, zero.
    A combined size that does not fit its 16-bit variable has no result: the
    buffers would then not fit the allocation. *)
Definition cfg_init (cfg_static_string : list cfgstatic_string) (alloc : bool) : CFG Z :=
  modify (λ c, set_gSBuffer (Some (zeros CFG_MAX_STR_LEN))
    (set_gCfgEntry (Some (zeros CFG_PARAM_MAX_NUM)) (set_gParamList (Some (zeros 55)) c)));;
  for_each (seqZ 0 CFG_PARAM_MAX_NUM) (λ i,
    x ← get_static i;
    if negb (is_int x) then cfg_get_strindex cfg_static_string i else put_pStrData i None);;
  t ← gets cfg_static;
  let '(max_i_count, max_s_count) := count_buffers (take (Z.to_nat CFG_PARAM_MAX_NUM) t) 0 0 in
  modify (λ c, set_gCfgMaxIBufSize (u16 max_i_count) (set_gCfgMaxSBufSize (u16 max_s_count) c));;
  let combined := max_s_count + 3 * 4 * max_i_count in
  if combined >=? 2 ^ 16 then ub
  else if combined >? 4 * PAGE_SIZE then mret eSIR_MEM_ALLOC_FAILED
  else if negb alloc then modify (set_gCfgSBuf None);; mret eSIR_MEM_ALLOC_FAILED
  else
    modify (λ c, set_gCfgSBuf (Some (zeros max_s_count))
      (set_gCfgIBuf (Some (zeros max_i_count))
        (set_gCfgIBufMin (Some (zeros max_i_count))
          (set_gCfgIBufMax (Some (zeros max_i_count)) c))));;
    mret eSIR_SUCCESS.

Definition cfg_de_init : CFG unit :=
  modify (λ c, set_gCfgSBuf None (set_gCfgIBuf None (set_gCfgIBufMin None (set_gCfgIBufMax None
    (set_gSBuffer None (set_gCfgEntry None (set_gParamList None c))))))).

(** The store is marked not ready. *)
Definition cfg_cleanup : CFG unit := modify (set_gCfgStatus CFG_INCOMPLETE).

(** * The download *)

(** First loop: the position of every parameter, counted in [iCount] and
    [sCount], is merged into its control word. *)
Fixpoint assign_loop (ids : list Z) (iCount sCount : Z) : CFG unit :=
  match ids with
  | [] => mret tt
  | i :: ids =>
      x ← get_static i;
      let control := cs_control x in
      if is_valid x then
        if negb (is_int x) then
          match cs_pStrData x with
          | None => assign_loop ids iCount sCount
          | Some pStrCfg =>
              wr gCfgEntry set_gCfgEntry i (Z.lor control (Z.land sCount CFG_BUF_INDX_MASK));;
              assign_loop ids iCount (u32 (sCount + ss_maxLen pStrCfg + 1 + 1))
          end
        else
          wr gCfgEntry set_gCfgEntry i (Z.lor control (Z.land iCount CFG_BUF_INDX_MASK));;
          assign_loop ids (u32 (iCount + 1)) sCount
      else
        wr gCfgEntry set_gCfgEntry i (Z.lor control 0);;
        assign_loop ids iCount sCount
  end.

(** Second loop, from the last parameter to the first: the capacity of a
    string is the room up to the next one. *)
Fixpoint capacity_loop (ids : list Z) (bufEnd : Z) : CFG unit :=
  match ids with
  | [] => mret tt
  | i :: ids =>
      control ← rd gCfgEntry i;
      if has_flag control CFG_CTL_INT then capacity_loop ids bufEnd
      else if Z.land control CFG_CTL_VALID =? 0 then capacity_loop ids bufEnd
      else
        let bufStart := Z.land control CFG_BUF_INDX_MASK in
        wr gCfgSBuf set_gCfgSBuf bufStart (u8 (u32 (bufEnd - bufStart - 2)));;
        capacity_loop ids bufStart
  end.

(** Body of the third loop: the defaults of parameter [i]. *)
Definition load_default (i : Z) : CFG unit :=
  control ← rd gCfgEntry i;
  let index := Z.land control CFG_BUF_INDX_MASK in
  x ← get_static i;
  if has_flag control CFG_CTL_INT then
    wr gCfgIBufMin set_gCfgIBufMin index (cs_cfgIMin x);;
    wr gCfgIBufMax set_gCfgIBufMax index (cs_cfgIMax x);;
    wr gCfgIBuf set_gCfgIBuf index (cs_cfgIVal x)
  else if Z.land control CFG_CTL_VALID =? 0 then mret tt
  else
    smax ← gets gCfgMaxSBufSize;
    if index >=? smax then mret tt
    else
      match cs_pStrData x with
      | None => mret tt
      | Some pStrCfg =>
          maxSavedLen ← rd gCfgSBuf index;
          let len := ss_length pStrCfg in
          if len >? maxSavedLen then mret tt
          else
            wr gCfgSBuf set_gCfgSBuf index (ss_maxLen pStrCfg);;
            wr gCfgSBuf set_gCfgSBuf (index + 1) len;;
            copy_to_sbuf (Z.to_nat len) (index + 2) (ss_data pStrCfg)
      end.

(** [WNI_CFG_DNLD_CNF_RES] and [WNI_CFG_SUCCESS] *)
Definition WNI_CFG_DNLD_CNF_RES : Z := 0.
Definition WNI_CFG_SUCCESS : Z := 1.

Definition process_cfg_download_req : CFG unit :=
  let ids := seqZ 0 CFG_PARAM_MAX_NUM in
  assign_loop ids 0 0;;
  bufEnd ← gets gCfgMaxSBufSize;
  capacity_loop (reverse ids) bufEnd;;
  for_each ids load_default;;
  '(_, logLevel) ← wlan_cfg_get_int WNI_CFG_LOG_LEVEL;
  logLevel ← deref logLevel;
  modify (λ c, set_gLogLevel (replicate (length (gLogLevel c)) logLevel) c);;
  modify (set_gCfgStatus CFG_SUCCESS);;
  wr gParamList set_gParamList WNI_CFG_DNLD_CNF_RES WNI_CFG_SUCCESS.
