(* ===== verification/CfgTable.v ===== *)
(** The tables of the configuration store: [cfg_static] and
    [cfg_static_string] of [core/mac/src/cfg/cfg_proc_msg.c], with the limits
    and defaults of [core/mac/inc/wni_cfg.h].  A position in the list is a
    parameter identifier. *)
From S2P Require Import Prelude Cfg.

(** An integer parameter, and a string parameter whose numbers are not used. *)
Definition flags (l : list Z) : Z := fold_right Z.lor 0 l.

Definition cfg_static_0 : list cgstatic := [
  mk_cgstatic 0 (flags [CFG_CTL_VALID; CFG_CTL_RE; CFG_CTL_WE; CFG_CTL_RELOAD; CFG_CTL_NTF_HAL]) 0 255 1 None (* WNI_CFG_STA_ID *);
  mk_cgstatic 1 (flags [CFG_CTL_RE; CFG_CTL_INT; CFG_CTL_RESTART]) 0 255 1 None (* WNI_CFG_CF_POLLABLE *);
  mk_cgstatic 2 (flags [CFG_CTL_VALID; CFG_CTL_RE; CFG_CTL_INT]) 0 255 1 None (* WNI_CFG_CFP_PERIOD *);
  mk_cgstatic 3 (flags [CFG_CTL_VALID; CFG_CTL_RE; CFG_CTL_INT]) 0 65535 30000 None (* WNI_CFG_CFP_MAX_DURATION *);
  mk_cgstatic 4 (flags [CFG_CTL_VALID; CFG_CTL_RE; CFG_CTL_WE; CFG_CTL_RESTART]) 0 255 6 None (* WNI_CFG_SSID *);
  mk_cgstatic 5 (flags [CFG_CTL_VALID; CFG_CTL_RE; CFG_CTL_WE; CFG_CTL_INT; CFG_CTL_NTF_SCH]) 0 65535 100 None (* WNI_CFG_BEACON_INTERVAL *);
  mk_cgstatic 6 (flags [CFG_CTL_VALID; CFG_CTL_RE; CFG_CTL_INT]) 0 65535 1 None (* WNI_CFG_DTIM_PERIOD *);
  mk_cgstatic 7 (flags [CFG_CTL_VALID; CFG_CTL_RE; CFG_CTL_WE; CFG_CTL_INT; CFG_CTL_RESTART]) 5 13 5 None (* WNI_CFG_WEP_KEY_LENGTH *);
  mk_cgstatic 8 (flags [CFG_CTL_VALID; CFG_CTL_WE; CFG_CTL_RESTART]) 0 65535 0 None (* WNI_CFG_WEP_DEFAULT_KEY_1 *);
  mk_cgstatic 9 (flags [CFG_CTL_VALID; CFG_CTL_WE; CFG_CTL_RESTART]) 1 1 1 None (* WNI_CFG_WEP_DEFAULT_KEY_2 *);
  mk_cgstatic 10 (flags [CFG_CTL_VALID; CFG_CTL_WE; CFG_CTL_RESTART]) 0 5 5 None (* WNI_CFG_WEP_DEFAULT_KEY_3 *);
  mk_cgstatic 11 (flags [CFG_CTL_VALID; CFG_CTL_WE; CFG_CTL_RESTART]) 0 1 0 None (* WNI_CFG_WEP_DEFAULT_KEY_4 *);
  mk_cgstatic 12 (flags [CFG_CTL_VALID; CFG_CTL_RE; CFG_CTL_WE; CFG_CTL_INT; CFG_CTL_NTF_LIM]) 0 3 0 None (* WNI_CFG_WEP_DEFAULT_KEYID *);
  mk_cgstatic 13 (flags [CFG_CTL_VALID; CFG_CTL_RE; CFG_CTL_WE; CFG_CTL_INT; CFG_CTL_NTF_LIM]) 0 1 0 None (* WNI_CFG_EXCLUDE_UNENCRYPTED *);
  mk_cgstatic 14 (flags [CFG_CTL_VALID; CFG_CTL_RE; CFG_CTL_WE; CFG_CTL_INT; CFG_CTL_NTF_HAL]) 0 1048576 2347 None (* WNI_CFG_RTS_THRESHOLD *);
  mk_cgstatic 15 (flags [CFG_CTL_VALID; CFG_CTL_RE; CFG_CTL_WE; CFG_CTL_INT; CFG_CTL_NTF_HAL]) 0 255 6 None (* WNI_CFG_SHORT_RETRY_LIMIT *);
  mk_cgstatic 16 (flags [CFG_CTL_VALID; CFG_CTL_RE; CFG_CTL_WE; CFG_CTL_INT; CFG_CTL_NTF_HAL]) 0 255 6 None (* WNI_CFG_LONG_RETRY_LIMIT *);
  mk_cgstatic 17 (flags [CFG_CTL_VALID; CFG_CTL_RE; CFG_CTL_WE; CFG_CTL_INT; CFG_CTL_NTF_HAL]) 256 8000 8000 None (* WNI_CFG_FRAGMENTATION_THRESHOLD *);
  mk_cgstatic 18 (flags [CFG_CTL_VALID; CFG_CTL_RE; CFG_CTL_WE; CFG_CTL_INT]) 0 65535 20 None (* WNI_CFG_ACTIVE_MINIMUM_CHANNEL_TIME *);
  mk_cgstatic 19 (flags [CFG_CTL_VALID; CFG_CTL_RE; CFG_CTL_WE; CFG_CTL_INT]) 0 65535 40 None (* WNI_CFG_ACTIVE_MAXIMUM_CHANNEL_TIME *);
  mk_cgstatic 20 (flags [CFG_CTL_VALID; CFG_CTL_RE; CFG_CTL_WE; CFG_CTL_INT]) 0 65535 60 None (* WNI_CFG_PASSIVE_MINIMUM_CHANNEL_TIME *);
  mk_cgstatic 21 (flags [CFG_CTL_VALID; CFG_CTL_RE; CFG_CTL_WE; CFG_CTL_INT]) 0 65535 110 None (* WNI_CFG_PASSIVE_MAXIMUM_CHANNEL_TIME *);
  mk_cgstatic 22 (flags [CFG_CTL_VALID; CFG_CTL_RE; CFG_CTL_WE; CFG_CTL_INT]) 0 65535 3000 None (* WNI_CFG_JOIN_FAILURE_TIMEOUT *);
  mk_cgstatic 23 (flags [CFG_CTL_VALID; CFG_CTL_RE; CFG_CTL_WE; CFG_CTL_INT]) 0 65535 1000 None (* WNI_CFG_AUTHENTICATE_FAILURE_TIMEOUT *);
  mk_cgstatic 24 (flags [CFG_CTL_VALID; CFG_CTL_RE; CFG_CTL_WE; CFG_CTL_INT]) 0 65535 1000 None (* WNI_CFG_AUTHENTICATE_RSP_TIMEOUT *);
  mk_cgstatic 25 (flags [CFG_CTL_VALID; CFG_CTL_RE; CFG_CTL_WE; CFG_CTL_INT; CFG_CTL_NTF_LIM]) 0 65535 2000 None (* WNI_CFG_ASSOCIATION_FAILURE_TIMEOUT *)
].

Definition cfg_static_1 : list cgstatic := [
  mk_cgstatic 26 (flags [CFG_CTL_VALID; CFG_CTL_RE; CFG_CTL_WE; CFG_CTL_INT]) 0 65535 1000 None (* WNI_CFG_REASSOCIATION_FAILURE_TIMEOUT *);
  mk_cgstatic 27 (flags [CFG_CTL_VALID; CFG_CTL_RE; CFG_CTL_WE; CFG_CTL_INT; CFG_CTL_NTF_HAL]) 0 65535 1000 None (* WNI_CFG_RA_PERIODICITY_TIMEOUT_IN_PS *);
  mk_cgstatic 28 (flags [CFG_CTL_VALID; CFG_CTL_RE; CFG_CTL_WE; CFG_CTL_INT; CFG_CTL_NTF_HAL]) 0 1 1 None (* WNI_CFG_PS_ENABLE_BCN_FILTER *);
  mk_cgstatic 29 (flags [CFG_CTL_VALID; CFG_CTL_RE; CFG_CTL_WE; CFG_CTL_INT; CFG_CTL_NTF_HAL]) 0 1 1 None (* WNI_CFG_PS_ENABLE_HEART_BEAT *);
  mk_cgstatic 30 (flags [CFG_CTL_VALID; CFG_CTL_RE; CFG_CTL_WE; CFG_CTL_INT; CFG_CTL_NTF_HAL]) 0 1 0 None (* WNI_CFG_PS_ENABLE_RSSI_MONITOR *);
  mk_cgstatic 31 (flags [CFG_CTL_VALID; CFG_CTL_RE; CFG_CTL_WE; CFG_CTL_INT; CFG_CTL_NTF_HAL]) 1 255 20 None (* WNI_CFG_PS_DATA_INACTIVITY_TIMEOUT *);
  mk_cgstatic 32 (flags [CFG_CTL_VALID; CFG_CTL_RE; CFG_CTL_WE; CFG_CTL_INT; CFG_CTL_NTF_HAL]) 0 60000 1500 None (* WNI_CFG_RF_SETTLING_TIME_CLK *);
  mk_cgstatic 33 (flags [CFG_CTL_VALID; CFG_CTL_RE]) 0 3 1 None (* WNI_CFG_SUPPORTED_RATES_11B *);
  mk_cgstatic 34 (flags [CFG_CTL_VALID; CFG_CTL_RE]) 0 255 15 None (* WNI_CFG_SUPPORTED_RATES_11A *);
  mk_cgstatic 35 (flags [CFG_CTL_VALID; CFG_CTL_RE; CFG_CTL_WE; CFG_CTL_INT; CFG_CTL_RESTART]) 0 3 0 None (* WNI_CFG_PHY_MODE *);
  mk_cgstatic 36 (flags [CFG_CTL_VALID; CFG_CTL_RE; CFG_CTL_WE; CFG_CTL_INT; CFG_CTL_RESTART; CFG_CTL_NTF_LIM]) 0 11 0 None (* WNI_CFG_DOT11_MODE *);
  mk_cgstatic 37 (flags [CFG_CTL_VALID; CFG_CTL_RE; CFG_CTL_WE; CFG_CTL_RESTART]) 0 1 1 None (* WNI_CFG_OPERATIONAL_RATE_SET *);
  mk_cgstatic 38 (flags [CFG_CTL_VALID; CFG_CTL_RE; CFG_CTL_WE; CFG_CTL_RESTART]) 0 65535 65534 None (* WNI_CFG_EXTENDED_OPERATIONAL_RATE_SET *);
  mk_cgstatic 39 (flags [CFG_CTL_VALID; CFG_CTL_RE; CFG_CTL_WE; CFG_CTL_RESTART]) 0 0 0 None (* WNI_CFG_PROPRIETARY_OPERATIONAL_RATE_SET *);
  mk_cgstatic 40 (flags [CFG_CTL_VALID; CFG_CTL_RE; CFG_CTL_WE; CFG_CTL_INT; CFG_CTL_RESTART]) 0 65535 1 None (* WNI_CFG_LISTEN_INTERVAL *);
  mk_cgstatic 41 (flags [CFG_CTL_VALID; CFG_CTL_RE; CFG_CTL_WE; CFG_CTL_RESTART; CFG_CTL_NTF_LIM]) 0 1 1 None (* WNI_CFG_VALID_CHANNEL_LIST *);
  mk_cgstatic 42 (flags [CFG_CTL_VALID; CFG_CTL_RE; CFG_CTL_INT]) 0 165 1 None (* WNI_CFG_CURRENT_CHANNEL *);
  mk_cgstatic 43 (flags [CFG_CTL_VALID; CFG_CTL_RE; CFG_CTL_WE; CFG_CTL_INT]) 0 11 5 None (* WNI_CFG_DEFAULT_RATE_INDEX_5GHZ *);
  mk_cgstatic 44 (flags [CFG_CTL_VALID; CFG_CTL_RE; CFG_CTL_WE; CFG_CTL_INT]) 0 31 1 None (* WNI_CFG_DEFAULT_RATE_INDEX_24GHZ *);
  mk_cgstatic 45 (flags [CFG_CTL_VALID; CFG_CTL_RE; CFG_CTL_WE; CFG_CTL_INT; CFG_CTL_NTF_SCH]) 0 2 1 None (* WNI_CFG_RATE_ADAPTATION_TYPE *);
  mk_cgstatic 46 (flags [CFG_CTL_VALID; CFG_CTL_RE; CFG_CTL_WE; CFG_CTL_INT; CFG_CTL_NTF_HAL]) 0 44 0 None (* WNI_CFG_FIXED_RATE *);
  mk_cgstatic 47 (flags [CFG_CTL_VALID; CFG_CTL_RE; CFG_CTL_WE; CFG_CTL_INT; CFG_CTL_NTF_HAL]) 0 31 1 None (* WNI_CFG_FIXED_RATE_MULTICAST_24GHZ *);
  mk_cgstatic 48 (flags [CFG_CTL_VALID; CFG_CTL_RE; CFG_CTL_WE; CFG_CTL_INT; CFG_CTL_NTF_HAL]) 0 31 5 None (* WNI_CFG_FIXED_RATE_MULTICAST_5GHZ *);
  mk_cgstatic 49 (flags [CFG_CTL_VALID; CFG_CTL_RE; CFG_CTL_WE; CFG_CTL_INT; CFG_CTL_NTF_HAL]) 0 255 4 None (* WNI_CFG_RETRYRATE_POLICY *);
  mk_cgstatic 50 (flags [CFG_CTL_VALID; CFG_CTL_RE; CFG_CTL_WE; CFG_CTL_INT; CFG_CTL_NTF_HAL]) 0 255 0 None (* WNI_CFG_RETRYRATE_SECONDARY *);
  mk_cgstatic 51 (flags [CFG_CTL_VALID; CFG_CTL_RE; CFG_CTL_WE; CFG_CTL_INT; CFG_CTL_NTF_HAL]) 0 255 0 None (* WNI_CFG_RETRYRATE_TERTIARY *)
].

Definition cfg_static_2 : list cgstatic := [
  mk_cgstatic 52 (flags [CFG_CTL_VALID; CFG_CTL_RE; CFG_CTL_WE; CFG_CTL_INT]) 0 1 0 None (* WNI_CFG_APSD_ENABLED *);
  mk_cgstatic 53 (flags [CFG_CTL_VALID; CFG_CTL_RE; CFG_CTL_WE; CFG_CTL_INT]) 0 1 1 None (* WNI_CFG_SHARED_KEY_AUTH_ENABLE *);
  mk_cgstatic 54 (flags [CFG_CTL_VALID; CFG_CTL_RE; CFG_CTL_WE; CFG_CTL_INT]) 0 1 1 None (* WNI_CFG_OPEN_SYSTEM_AUTH_ENABLE *);
  mk_cgstatic 55 (flags [CFG_CTL_VALID; CFG_CTL_RE; CFG_CTL_WE; CFG_CTL_INT; CFG_CTL_RESTART]) 0 65535 0 None (* WNI_CFG_AUTHENTICATION_TYPE *);
  mk_cgstatic 56 (flags [CFG_CTL_RE; CFG_CTL_WE; CFG_CTL_INT; CFG_CTL_RESTART]) 0 255 1 None (* WNI_CFG_CF_POLL_REQUEST *);
  mk_cgstatic 57 (flags [CFG_CTL_VALID; CFG_CTL_RE; CFG_CTL_WE; CFG_CTL_INT; CFG_CTL_RESTART]) 0 1 0 None (* WNI_CFG_PRIVACY_ENABLED *);
  mk_cgstatic 58 (flags [CFG_CTL_VALID; CFG_CTL_RE; CFG_CTL_WE; CFG_CTL_INT; CFG_CTL_RESTART]) 0 1 1 None (* WNI_CFG_SHORT_PREAMBLE *);
  mk_cgstatic 59 (flags [CFG_CTL_VALID; CFG_CTL_RE; CFG_CTL_WE; CFG_CTL_INT]) 0 1 1 None (* WNI_CFG_SHORT_SLOT_TIME *);
  mk_cgstatic 60 (flags [CFG_CTL_VALID; CFG_CTL_RE; CFG_CTL_WE; CFG_CTL_INT; CFG_CTL_RESTART]) 0 1 0 None (* WNI_CFG_ACCEPT_SHORT_SLOT_ASSOC_ONLY *);
  mk_cgstatic 61 (flags [CFG_CTL_VALID; CFG_CTL_RE; CFG_CTL_WE; CFG_CTL_INT; CFG_CTL_RESTART]) 0 1 0 None (* WNI_CFG_QOS_ENABLED *);
  mk_cgstatic 62 (flags [CFG_CTL_VALID; CFG_CTL_RE; CFG_CTL_WE; CFG_CTL_INT; CFG_CTL_RESTART]) 0 1 0 None (* WNI_CFG_HCF_ENABLED *);
  mk_cgstatic 63 (flags [CFG_CTL_VALID; CFG_CTL_RE; CFG_CTL_WE; CFG_CTL_INT; CFG_CTL_RESTART]) 0 1 0 None (* WNI_CFG_RSN_ENABLED *);
  mk_cgstatic 64 (flags [CFG_CTL_VALID; CFG_CTL_RE; CFG_CTL_WE; CFG_CTL_INT; CFG_CTL_RESTART]) 0 256 64 None (* WNI_CFG_MAX_NUM_PRE_AUTH *);
  mk_cgstatic 65 (flags [CFG_CTL_INT]) 0 255 1 None (* WNI_CFG_PREAUTH_CLNUP_TIMEOUT *);
  mk_cgstatic 66 (flags [CFG_CTL_INT]) 0 255 1 None (* WNI_CFG_RELEASE_AID_TIMEOUT *);
  mk_cgstatic 67 (flags [CFG_CTL_VALID; CFG_CTL_RE; CFG_CTL_WE; CFG_CTL_INT; CFG_CTL_NTF_LIM]) 0 65535 40 None (* WNI_CFG_HEART_BEAT_THRESHOLD *);
  mk_cgstatic 68 (flags [CFG_CTL_VALID; CFG_CTL_RE; CFG_CTL_WE; CFG_CTL_INT]) 10 10000 40 None (* WNI_CFG_PROBE_AFTER_HB_FAIL_TIMEOUT *);
  mk_cgstatic 69 (flags [CFG_CTL_VALID; CFG_CTL_RE]) 0 0 0 None (* WNI_CFG_MANUFACTURER_OUI *);
  mk_cgstatic 70 (flags [CFG_CTL_VALID; CFG_CTL_RE]) 0 0 0 None (* WNI_CFG_MANUFACTURER_NAME *);
  mk_cgstatic 71 (flags [CFG_CTL_VALID; CFG_CTL_RE]) 0 0 0 None (* WNI_CFG_MODEL_NUMBER *);
  mk_cgstatic 72 (flags [CFG_CTL_VALID; CFG_CTL_RE]) 0 0 0 None (* WNI_CFG_MODEL_NAME *);
  mk_cgstatic 73 (flags [CFG_CTL_VALID; CFG_CTL_RE]) 0 0 0 None (* WNI_CFG_MANUFACTURER_PRODUCT_NAME *);
  mk_cgstatic 74 (flags [CFG_CTL_VALID; CFG_CTL_RE]) 0 0 0 None (* WNI_CFG_MANUFACTURER_PRODUCT_VERSION *);
  mk_cgstatic 75 (flags [CFG_CTL_VALID; CFG_CTL_RE; CFG_CTL_WE; CFG_CTL_INT; CFG_CTL_RESTART]) 0 1 1 None (* WNI_CFG_11D_ENABLED *);
  mk_cgstatic 76 (flags [CFG_CTL_VALID; CFG_CTL_RE; CFG_CTL_WE]) 0 0 0 None (* WNI_CFG_MAX_TX_POWER_2_4 *);
  mk_cgstatic 77 (flags [CFG_CTL_VALID; CFG_CTL_RE; CFG_CTL_WE]) 0 0 0 None (* WNI_CFG_MAX_TX_POWER_5 *)
].

Definition cfg_static_3 : list cgstatic := [
  mk_cgstatic 78 (flags [CFG_CTL_VALID; CFG_CTL_RE; CFG_CTL_WE; CFG_CTL_INT; CFG_CTL_NTF_HAL]) 0 3 3 None (* WNI_CFG_NETWORK_DENSITY *);
  mk_cgstatic 79 (flags [CFG_CTL_VALID; CFG_CTL_RE; CFG_CTL_WE; CFG_CTL_INT; CFG_CTL_NTF_HAL]) 1 2 2 None (* WNI_CFG_ADAPTIVE_THRESHOLD_ALGORITHM *);
  mk_cgstatic 80 (flags [CFG_CTL_VALID; CFG_CTL_RE; CFG_CTL_WE; CFG_CTL_INT; CFG_CTL_NTF_HAL]) 1 1 1 None (* WNI_CFG_CURRENT_TX_ANTENNA *);
  mk_cgstatic 81 (flags [CFG_CTL_VALID; CFG_CTL_RE; CFG_CTL_WE; CFG_CTL_INT; CFG_CTL_NTF_HAL]) 1 2 2 None (* WNI_CFG_CURRENT_RX_ANTENNA *);
  mk_cgstatic 82 (flags [CFG_CTL_VALID; CFG_CTL_RE; CFG_CTL_WE; CFG_CTL_INT]) 0 128 27 None (* WNI_CFG_CURRENT_TX_POWER_LEVEL *);
  mk_cgstatic 83 (flags [CFG_CTL_VALID; CFG_CTL_RE; CFG_CTL_WE; CFG_CTL_INT]) 0 1 0 None (* WNI_CFG_NEW_BSS_FOUND_IND *);
  mk_cgstatic 84 (flags [CFG_CTL_VALID; CFG_CTL_RE; CFG_CTL_WE; CFG_CTL_INT; CFG_CTL_RESTART]) 0 1 0 None (* WNI_CFG_PROPRIETARY_RATES_ENABLED *);
  mk_cgstatic 85 (flags [CFG_CTL_RE]) 0 255 1 None (* WNI_CFG_AP_NODE_NAME *);
  mk_cgstatic 86 (flags [CFG_CTL_VALID; CFG_CTL_RE; CFG_CTL_WE]) 0 0 0 None (* WNI_CFG_COUNTRY_CODE *);
  mk_cgstatic 87 (flags [CFG_CTL_VALID; CFG_CTL_RE; CFG_CTL_WE; CFG_CTL_INT; CFG_CTL_RESTART]) 0 1 1 None (* WNI_CFG_11H_ENABLED *);
  mk_cgstatic 88 (flags [CFG_CTL_VALID; CFG_CTL_RE; CFG_CTL_WE; CFG_CTL_INT]) 10 3000 1000 None (* WNI_CFG_WT_CNF_TIMEOUT *);
  mk_cgstatic 89 (flags [CFG_CTL_VALID; CFG_CTL_RE; CFG_CTL_WE; CFG_CTL_INT; CFG_CTL_NTF_HAL]) 0 1 0 None (* WNI_CFG_PROXIMITY *);
  mk_cgstatic 90 (flags [CFG_CTL_VALID; CFG_CTL_RE; CFG_CTL_WE; CFG_CTL_INT]) 0 7 4 None (* WNI_CFG_LOG_LEVEL *);
  mk_cgstatic 91 (flags [CFG_CTL_VALID; CFG_CTL_RE; CFG_CTL_WE; CFG_CTL_INT]) 1000 30000 10000 None (* WNI_CFG_OLBC_DETECT_TIMEOUT *);
  mk_cgstatic 92 (flags [CFG_CTL_VALID; CFG_CTL_RE; CFG_CTL_WE; CFG_CTL_INT; CFG_CTL_RESTART; CFG_CTL_NTF_LIM]) 0 65535 65535 None (* WNI_CFG_PROTECTION_ENABLED *);
  mk_cgstatic 93 (flags [CFG_CTL_VALID; CFG_CTL_RE; CFG_CTL_WE; CFG_CTL_INT; CFG_CTL_RESTART]) 0 1 0 None (* WNI_CFG_11G_PROTECTION_ALWAYS *);
  mk_cgstatic 94 (flags [CFG_CTL_VALID; CFG_CTL_RE; CFG_CTL_WE; CFG_CTL_INT; CFG_CTL_RESTART; CFG_CTL_NTF_HAL]) 0 5 5 None (* WNI_CFG_FORCE_POLICY_PROTECTION *);
  mk_cgstatic 95 (flags [CFG_CTL_VALID; CFG_CTL_RE; CFG_CTL_WE; CFG_CTL_INT; CFG_CTL_RESTART]) 0 1 0 None (* WNI_CFG_11G_SHORT_PREAMBLE_ENABLED *);
  mk_cgstatic 96 (flags [CFG_CTL_VALID; CFG_CTL_RE; CFG_CTL_WE; CFG_CTL_INT; CFG_CTL_RESTART]) 0 1 1 None (* WNI_CFG_11G_SHORT_SLOT_TIME_ENABLED *);
  mk_cgstatic 97 (flags [CFG_CTL_VALID; CFG_CTL_RE; CFG_CTL_WE; CFG_CTL_INT]) 0 1 0 None (* WNI_CFG_11G_ONLY_POLICY *);
  mk_cgstatic 98 (flags [CFG_CTL_VALID; CFG_CTL_RE; CFG_CTL_WE; CFG_CTL_INT; CFG_CTL_NTF_HAL]) 0 3 0 None (* WNI_CFG_PACKET_CLASSIFICATION *);
  mk_cgstatic 99 (flags [CFG_CTL_VALID; CFG_CTL_RE; CFG_CTL_WE; CFG_CTL_INT; CFG_CTL_RESTART]) 0 1 1 None (* WNI_CFG_WME_ENABLED *);
  mk_cgstatic 100 (flags [CFG_CTL_VALID; CFG_CTL_RE; CFG_CTL_WE; CFG_CTL_INT]) 0 65535 1000 None (* WNI_CFG_ADDTS_RSP_TIMEOUT *);
  mk_cgstatic 101 (flags [CFG_CTL_VALID; CFG_CTL_RE; CFG_CTL_WE; CFG_CTL_INT]) 0 3 0 None (* WNI_CFG_MAX_SP_LENGTH *);
  mk_cgstatic 102 (flags [CFG_CTL_RE; CFG_CTL_WE; CFG_CTL_INT]) 0 255 1 None (* WNI_CFG_KEEP_ALIVE_STA_LIMIT_THRESHOLD *);
  mk_cgstatic 103 (flags [CFG_CTL_VALID; CFG_CTL_RE; CFG_CTL_WE; CFG_CTL_INT]) 0 1 0 None (* WNI_CFG_SEND_SINGLE_SSID_ALWAYS *)
].

Definition cfg_static_4 : list cgstatic := [
  mk_cgstatic 104 (flags [CFG_CTL_VALID; CFG_CTL_RE; CFG_CTL_WE; CFG_CTL_INT]) 0 1 0 None (* WNI_CFG_WSM_ENABLED *);
  mk_cgstatic 105 (flags [CFG_CTL_VALID; CFG_CTL_RE; CFG_CTL_WE; CFG_CTL_INT; CFG_CTL_NTF_SCH]) 0 255 1 None (* WNI_CFG_EDCA_PROFILE *);
  mk_cgstatic 106 (flags [CFG_CTL_VALID; CFG_CTL_RE; CFG_CTL_WE; CFG_CTL_RESTART]) 0 0 0 None (* WNI_CFG_EDCA_ANI_ACBK_LOCAL *);
  mk_cgstatic 107 (flags [CFG_CTL_VALID; CFG_CTL_RE; CFG_CTL_WE; CFG_CTL_RESTART]) 0 0 0 None (* WNI_CFG_EDCA_ANI_ACBE_LOCAL *);
  mk_cgstatic 108 (flags [CFG_CTL_VALID; CFG_CTL_RE; CFG_CTL_WE; CFG_CTL_RESTART]) 0 0 0 None (* WNI_CFG_EDCA_ANI_ACVI_LOCAL *);
  mk_cgstatic 109 (flags [CFG_CTL_VALID; CFG_CTL_RE; CFG_CTL_WE; CFG_CTL_RESTART]) 0 0 0 None (* WNI_CFG_EDCA_ANI_ACVO_LOCAL *);
  mk_cgstatic 110 (flags [CFG_CTL_VALID; CFG_CTL_RE; CFG_CTL_WE; CFG_CTL_RESTART]) 0 0 0 None (* WNI_CFG_EDCA_ANI_ACBK *);
  mk_cgstatic 111 (flags [CFG_CTL_VALID; CFG_CTL_RE; CFG_CTL_WE; CFG_CTL_RESTART]) 0 0 0 None (* WNI_CFG_EDCA_ANI_ACBE *);
  mk_cgstatic 112 (flags [CFG_CTL_VALID; CFG_CTL_RE; CFG_CTL_WE; CFG_CTL_RESTART]) 0 0 0 None (* WNI_CFG_EDCA_ANI_ACVI *);
  mk_cgstatic 113 (flags [CFG_CTL_VALID; CFG_CTL_RE; CFG_CTL_WE; CFG_CTL_RESTART]) 0 0 0 None (* WNI_CFG_EDCA_ANI_ACVO *);
  mk_cgstatic 114 (flags [CFG_CTL_VALID; CFG_CTL_RE; CFG_CTL_WE; CFG_CTL_RESTART]) 0 0 0 None (* WNI_CFG_EDCA_WME_ACBK_LOCAL *);
  mk_cgstatic 115 (flags [CFG_CTL_VALID; CFG_CTL_RE; CFG_CTL_WE; CFG_CTL_RESTART]) 0 0 0 None (* WNI_CFG_EDCA_WME_ACBE_LOCAL *);
  mk_cgstatic 116 (flags [CFG_CTL_VALID; CFG_CTL_RE; CFG_CTL_WE; CFG_CTL_RESTART]) 0 0 0 None (* WNI_CFG_EDCA_WME_ACVI_LOCAL *);
  mk_cgstatic 117 (flags [CFG_CTL_VALID; CFG_CTL_RE; CFG_CTL_WE; CFG_CTL_RESTART]) 0 0 0 None (* WNI_CFG_EDCA_WME_ACVO_LOCAL *);
  mk_cgstatic 118 (flags [CFG_CTL_VALID; CFG_CTL_RE; CFG_CTL_WE; CFG_CTL_RESTART]) 0 0 0 None (* WNI_CFG_EDCA_WME_ACBK *);
  mk_cgstatic 119 (flags [CFG_CTL_VALID; CFG_CTL_RE; CFG_CTL_WE; CFG_CTL_RESTART]) 0 0 0 None (* WNI_CFG_EDCA_WME_ACBE *);
  mk_cgstatic 120 (flags [CFG_CTL_VALID; CFG_CTL_RE; CFG_CTL_WE; CFG_CTL_RESTART]) 0 0 0 None (* WNI_CFG_EDCA_WME_ACVI *);
  mk_cgstatic 121 (flags [CFG_CTL_VALID; CFG_CTL_RE; CFG_CTL_WE; CFG_CTL_RESTART]) 0 0 0 None (* WNI_CFG_EDCA_WME_ACVO *);
  mk_cgstatic 122 (flags [CFG_CTL_VALID; CFG_CTL_RE; CFG_CTL_WE; CFG_CTL_INT]) 0 1 0 None (* WNI_CFG_RDET_FLAG *);
  mk_cgstatic 123 (flags [CFG_CTL_VALID; CFG_CTL_RE; CFG_CTL_WE; CFG_CTL_RESTART]) 0 0 0 None (* WNI_CFG_RADAR_CHANNEL_LIST *);
  mk_cgstatic 124 (flags [CFG_CTL_VALID; CFG_CTL_RE; CFG_CTL_WE; CFG_CTL_INT; CFG_CTL_RESTART]) 0 255 0 None (* WNI_CFG_LOCAL_POWER_CONSTRAINT *);
  mk_cgstatic 125 (flags [CFG_CTL_VALID; CFG_CTL_RE; CFG_CTL_WE; CFG_CTL_INT; CFG_CTL_RESTART]) 0 2 0 None (* WNI_CFG_ADMIT_POLICY *);
  mk_cgstatic 126 (flags [CFG_CTL_VALID; CFG_CTL_RE; CFG_CTL_WE; CFG_CTL_INT; CFG_CTL_RESTART]) 0 100 20 None (* WNI_CFG_ADMIT_BWFACTOR *);
  mk_cgstatic 127 (flags [CFG_CTL_VALID; CFG_CTL_RE; CFG_CTL_WE; CFG_CTL_INT; CFG_CTL_RESTART]) 0 256 60 None (* WNI_CFG_MAX_CONSECUTIVE_BACKGROUND_SCAN_FAILURE *);
  mk_cgstatic 128 (flags [CFG_CTL_VALID; CFG_CTL_RE; CFG_CTL_WE; CFG_CTL_INT; CFG_CTL_RESTART; CFG_CTL_NTF_LIM]) 0 10 0 None (* WNI_CFG_CHANNEL_BONDING_MODE *);
  mk_cgstatic 129 (flags [CFG_CTL_VALID; CFG_CTL_RE; CFG_CTL_WE; CFG_CTL_INT]) 0 10 0 None (* WNI_CFG_CB_SECONDARY_CHANNEL_STATE *)
].

Definition cfg_static_5 : list cgstatic := [
  mk_cgstatic 130 (flags [CFG_CTL_VALID; CFG_CTL_RE; CFG_CTL_WE; CFG_CTL_INT; CFG_CTL_NTF_HAL]) 0 255 2 None (* WNI_CFG_DYNAMIC_THRESHOLD_ZERO *);
  mk_cgstatic 131 (flags [CFG_CTL_VALID; CFG_CTL_RE; CFG_CTL_WE; CFG_CTL_INT; CFG_CTL_NTF_HAL]) 0 255 4 None (* WNI_CFG_DYNAMIC_THRESHOLD_ONE *);
  mk_cgstatic 132 (flags [CFG_CTL_VALID; CFG_CTL_RE; CFG_CTL_WE; CFG_CTL_INT; CFG_CTL_NTF_HAL]) 0 255 6 None (* WNI_CFG_DYNAMIC_THRESHOLD_TWO *);
  mk_cgstatic 133 (flags [CFG_CTL_VALID; CFG_CTL_RE; CFG_CTL_WE; CFG_CTL_INT; CFG_CTL_NTF_LIM]) 0 1 0 None (* WNI_CFG_TRIG_STA_BK_SCAN *);
  mk_cgstatic 134 (flags [CFG_CTL_VALID; CFG_CTL_RE; CFG_CTL_WE; CFG_CTL_INT; CFG_CTL_RESTART]) 0 255 255 None (* WNI_CFG_DYNAMIC_PROFILE_SWITCHING *);
  mk_cgstatic 135 (flags [CFG_CTL_VALID; CFG_CTL_RE; CFG_CTL_WE; CFG_CTL_RESTART; CFG_CTL_NTF_LIM]) 0 0 0 None (* WNI_CFG_SCAN_CONTROL_LIST *);
  mk_cgstatic 136 (flags [CFG_CTL_VALID; CFG_CTL_RE; CFG_CTL_WE; CFG_CTL_INT; CFG_CTL_RELOAD]) 0 1 1 None (* WNI_CFG_MIMO_ENABLED *);
  mk_cgstatic 137 (flags [CFG_CTL_VALID; CFG_CTL_RE; CFG_CTL_WE; CFG_CTL_INT; CFG_CTL_RESTART; CFG_CTL_NTF_LIM]) 0 3 0 None (* WNI_CFG_BLOCK_ACK_ENABLED *);
  mk_cgstatic 138 (flags [CFG_CTL_VALID; CFG_CTL_RE; CFG_CTL_WE; CFG_CTL_INT; CFG_CTL_RESTART; CFG_CTL_NTF_LIM]) 0 3 1 None (* WNI_CFG_HT_RX_STBC *);
  mk_cgstatic 139 (flags [CFG_CTL_VALID; CFG_CTL_RE; CFG_CTL_WE; CFG_CTL_INT; CFG_CTL_RESTART; CFG_CTL_NTF_LIM]) 0 65535 364 None (* WNI_CFG_HT_CAP_INFO *);
  mk_cgstatic 140 (flags [CFG_CTL_VALID; CFG_CTL_RE; CFG_CTL_WE; CFG_CTL_INT; CFG_CTL_RESTART; CFG_CTL_NTF_LIM]) 0 255 0 None (* WNI_CFG_HT_AMPDU_PARAMS *);
  mk_cgstatic 141 (flags [CFG_CTL_VALID; CFG_CTL_RE; CFG_CTL_WE; CFG_CTL_SAVE; CFG_CTL_RESTART; CFG_CTL_NTF_LIM]) 0 0 0 None (* WNI_CFG_SUPPORTED_MCS_SET *);
  mk_cgstatic 142 (flags [CFG_CTL_VALID; CFG_CTL_RE; CFG_CTL_WE; CFG_CTL_INT; CFG_CTL_SAVE; CFG_CTL_RESTART; CFG_CTL_NTF_LIM]) 0 65535 1024 None (* WNI_CFG_EXT_HT_CAP_INFO *);
  mk_cgstatic 143 (flags [CFG_CTL_VALID; CFG_CTL_RE; CFG_CTL_INT; CFG_CTL_RESTART; CFG_CTL_NTF_LIM]) 0 4294967295 0 None (* WNI_CFG_TX_BF_CAP *);
  mk_cgstatic 144 (flags [CFG_CTL_VALID; CFG_CTL_RE; CFG_CTL_WE; CFG_CTL_INT; CFG_CTL_SAVE; CFG_CTL_RESTART; CFG_CTL_NTF_LIM]) 0 255 0 None (* WNI_CFG_AS_CAP *);
  mk_cgstatic 145 (flags [CFG_CTL_VALID; CFG_CTL_RE; CFG_CTL_WE; CFG_CTL_INT; CFG_CTL_RESTART; CFG_CTL_NTF_LIM]) 0 255 15 None (* WNI_CFG_HT_INFO_FIELD1 *);
  mk_cgstatic 146 (flags [CFG_CTL_VALID; CFG_CTL_RE; CFG_CTL_WE; CFG_CTL_INT; CFG_CTL_SAVE; CFG_CTL_NTF_LIM]) 0 65535 0 None (* WNI_CFG_HT_INFO_FIELD2 *);
  mk_cgstatic 147 (flags [CFG_CTL_VALID; CFG_CTL_RE; CFG_CTL_WE; CFG_CTL_INT; CFG_CTL_SAVE; CFG_CTL_NTF_LIM]) 0 65535 0 None (* WNI_CFG_HT_INFO_FIELD3 *);
  mk_cgstatic 148 (flags [CFG_CTL_VALID; CFG_CTL_RE; CFG_CTL_WE; CFG_CTL_SAVE; CFG_CTL_RESTART; CFG_CTL_NTF_LIM]) 0 0 0 None (* WNI_CFG_BASIC_MCS_SET *);
  mk_cgstatic 149 (flags [CFG_CTL_VALID; CFG_CTL_RE; CFG_CTL_WE; CFG_CTL_SAVE; CFG_CTL_RESTART; CFG_CTL_NTF_LIM]) 0 0 0 None (* WNI_CFG_CURRENT_MCS_SET *);
  mk_cgstatic 150 (flags [CFG_CTL_VALID; CFG_CTL_RE; CFG_CTL_WE; CFG_CTL_INT; CFG_CTL_RESTART; CFG_CTL_NTF_LIM]) 0 1 0 None (* WNI_CFG_GREENFIELD_CAPABILITY *);
  mk_cgstatic 151 (flags [CFG_CTL_VALID; CFG_CTL_RE; CFG_CTL_WE; CFG_CTL_INT; CFG_CTL_NTF_LIM]) 0 2 0 None (* WNI_CFG_VHT_MAX_MPDU_LENGTH *);
  mk_cgstatic 152 (flags [CFG_CTL_VALID; CFG_CTL_RE; CFG_CTL_WE; CFG_CTL_INT; CFG_CTL_NTF_LIM]) 0 2 2 None (* WNI_CFG_VHT_SUPPORTED_CHAN_WIDTH_SET *);
  mk_cgstatic 153 (flags [CFG_CTL_VALID; CFG_CTL_RE; CFG_CTL_WE; CFG_CTL_INT; CFG_CTL_NTF_LIM]) 0 1 0 None (* WNI_CFG_VHT_LDPC_CODING_CAP *);
  mk_cgstatic 154 (flags [CFG_CTL_VALID; CFG_CTL_RE; CFG_CTL_WE; CFG_CTL_INT; CFG_CTL_NTF_LIM]) 0 1 1 None (* WNI_CFG_VHT_SHORT_GI_80MHZ *);
  mk_cgstatic 155 (flags [CFG_CTL_VALID; CFG_CTL_RE; CFG_CTL_WE; CFG_CTL_INT; CFG_CTL_NTF_LIM]) 0 1 1 None (* WNI_CFG_VHT_SHORT_GI_160_AND_80_PLUS_80MHZ *)
].

Definition cfg_static_6 : list cgstatic := [
  mk_cgstatic 156 (flags [CFG_CTL_VALID; CFG_CTL_RE; CFG_CTL_WE; CFG_CTL_INT; CFG_CTL_NTF_LIM]) 0 1 0 None (* WNI_CFG_VHT_TXSTBC *);
  mk_cgstatic 157 (flags [CFG_CTL_VALID; CFG_CTL_RE; CFG_CTL_WE; CFG_CTL_INT; CFG_CTL_NTF_LIM]) 0 1 1 None (* WNI_CFG_VHT_RXSTBC *);
  mk_cgstatic 158 (flags [CFG_CTL_VALID; CFG_CTL_RE; CFG_CTL_WE; CFG_CTL_INT; CFG_CTL_NTF_LIM]) 0 1 0 None (* WNI_CFG_VHT_SU_BEAMFORMER_CAP *);
  mk_cgstatic 159 (flags [CFG_CTL_VALID; CFG_CTL_RE; CFG_CTL_WE; CFG_CTL_INT; CFG_CTL_NTF_LIM]) 0 1 1 None (* WNI_CFG_VHT_SU_BEAMFORMEE_CAP *);
  mk_cgstatic 160 (flags [CFG_CTL_VALID; CFG_CTL_RE; CFG_CTL_WE; CFG_CTL_INT; CFG_CTL_NTF_LIM]) 0 4 0 None (* WNI_CFG_VHT_CSN_BEAMFORMEE_ANT_SUPPORTED *);
  mk_cgstatic 161 (flags [CFG_CTL_VALID; CFG_CTL_RE; CFG_CTL_WE; CFG_CTL_INT; CFG_CTL_NTF_LIM]) 0 3 0 None (* WNI_CFG_VHT_NUM_SOUNDING_DIMENSIONS *);
  mk_cgstatic 162 (flags [CFG_CTL_VALID; CFG_CTL_RE; CFG_CTL_WE; CFG_CTL_INT; CFG_CTL_NTF_LIM]) 0 1 0 None (* WNI_CFG_VHT_MU_BEAMFORMER_CAP *);
  mk_cgstatic 163 (flags [CFG_CTL_VALID; CFG_CTL_RE; CFG_CTL_WE; CFG_CTL_INT; CFG_CTL_NTF_LIM]) 0 1 0 None (* WNI_CFG_VHT_MU_BEAMFORMEE_CAP *);
  mk_cgstatic 164 (flags [CFG_CTL_VALID; CFG_CTL_RE; CFG_CTL_WE; CFG_CTL_INT; CFG_CTL_NTF_LIM]) 0 1 0 None (* WNI_CFG_VHT_TXOP_PS *);
  mk_cgstatic 165 (flags [CFG_CTL_VALID; CFG_CTL_RE; CFG_CTL_WE; CFG_CTL_INT; CFG_CTL_NTF_LIM]) 0 1 0 None (* WNI_CFG_VHT_HTC_VHTC_CAP *);
  mk_cgstatic 166 (flags [CFG_CTL_VALID; CFG_CTL_RE; CFG_CTL_WE; CFG_CTL_INT; CFG_CTL_NTF_LIM]) 0 7 3 None (* WNI_CFG_VHT_AMPDU_LEN_EXPONENT *);
  mk_cgstatic 167 (flags [CFG_CTL_VALID; CFG_CTL_RE; CFG_CTL_WE; CFG_CTL_INT; CFG_CTL_NTF_LIM]) 0 3 0 None (* WNI_CFG_VHT_LINK_ADAPTATION_CAP *);
  mk_cgstatic 168 (flags [CFG_CTL_VALID; CFG_CTL_RE; CFG_CTL_WE; CFG_CTL_INT; CFG_CTL_NTF_LIM]) 0 1 1 None (* WNI_CFG_VHT_RX_ANT_PATTERN *);
  mk_cgstatic 169 (flags [CFG_CTL_VALID; CFG_CTL_RE; CFG_CTL_WE; CFG_CTL_INT; CFG_CTL_NTF_LIM]) 0 1 1 None (* WNI_CFG_VHT_TX_ANT_PATTERN *);
  mk_cgstatic 170 (flags [CFG_CTL_VALID; CFG_CTL_RE; CFG_CTL_WE; CFG_CTL_INT; CFG_CTL_NTF_LIM]) 0 65535 65534 None (* WNI_CFG_VHT_RX_MCS_MAP *);
  mk_cgstatic 171 (flags [CFG_CTL_VALID; CFG_CTL_RE; CFG_CTL_WE; CFG_CTL_INT; CFG_CTL_NTF_LIM]) 0 65535 65534 None (* WNI_CFG_VHT_TX_MCS_MAP *);
  mk_cgstatic 172 (flags [CFG_CTL_VALID; CFG_CTL_RE; CFG_CTL_WE; CFG_CTL_INT; CFG_CTL_NTF_LIM]) 0 780 780 None (* WNI_CFG_VHT_RX_HIGHEST_SUPPORTED_DATA_RATE *);
  mk_cgstatic 173 (flags [CFG_CTL_VALID; CFG_CTL_RE; CFG_CTL_WE; CFG_CTL_INT; CFG_CTL_NTF_LIM]) 0 780 780 None (* WNI_CFG_VHT_TX_HIGHEST_SUPPORTED_DATA_RATE *);
  mk_cgstatic 174 (flags [CFG_CTL_VALID; CFG_CTL_RE; CFG_CTL_WE; CFG_CTL_INT; CFG_CTL_NTF_LIM]) 0 256 0 None (* WNI_CFG_VHT_CHANNEL_CENTER_FREQ_SEGMENT1 *);
  mk_cgstatic 175 (flags [CFG_CTL_VALID; CFG_CTL_RE; CFG_CTL_WE; CFG_CTL_INT; CFG_CTL_NTF_LIM]) 0 0 0 None (* WNI_CFG_VHT_CHANNEL_CENTER_FREQ_SEGMENT2 *);
  mk_cgstatic 176 (flags [CFG_CTL_VALID; CFG_CTL_RE; CFG_CTL_WE; CFG_CTL_INT; CFG_CTL_NTF_LIM]) 0 65535 65534 None (* WNI_CFG_VHT_BASIC_MCS_SET *);
  mk_cgstatic 177 (flags [CFG_CTL_VALID; CFG_CTL_RE; CFG_CTL_WE; CFG_CTL_INT; CFG_CTL_NTF_LIM]) 0 4 0 None (* WNI_CFG_VHT_MU_MIMO_CAP_STA_COUNT *);
  mk_cgstatic 178 (flags [CFG_CTL_VALID; CFG_CTL_RE; CFG_CTL_WE; CFG_CTL_INT; CFG_CTL_NTF_LIM]) 0 0 0 None (* WNI_CFG_VHT_SS_UNDER_UTIL *);
  mk_cgstatic 179 (flags [CFG_CTL_VALID; CFG_CTL_RE; CFG_CTL_WE; CFG_CTL_INT; CFG_CTL_NTF_LIM]) 0 0 0 None (* WNI_CFG_VHT_40MHZ_UTILIZATION *);
  mk_cgstatic 180 (flags [CFG_CTL_VALID; CFG_CTL_RE; CFG_CTL_WE; CFG_CTL_INT; CFG_CTL_NTF_LIM]) 0 0 0 None (* WNI_CFG_VHT_80MHZ_UTILIZATION *);
  mk_cgstatic 181 (flags [CFG_CTL_VALID; CFG_CTL_RE; CFG_CTL_WE; CFG_CTL_INT; CFG_CTL_NTF_LIM]) 0 0 0 None (* WNI_CFG_VHT_160MHZ_UTILIZATION *)
].

Definition cfg_static_7 : list cgstatic := [
  mk_cgstatic 182 (flags [CFG_CTL_VALID; CFG_CTL_RE; CFG_CTL_WE; CFG_CTL_INT; CFG_CTL_RESTART; CFG_CTL_NTF_LIM]) 0 1 0 None (* WNI_CFG_MAX_AMSDU_LENGTH *);
  mk_cgstatic 183 (flags [CFG_CTL_VALID; CFG_CTL_RE; CFG_CTL_WE; CFG_CTL_INT; CFG_CTL_RESTART; CFG_CTL_NTF_LIM]) 0 7 7 None (* WNI_CFG_MPDU_DENSITY *);
  mk_cgstatic 184 (flags [CFG_CTL_VALID; CFG_CTL_RE; CFG_CTL_WE; CFG_CTL_INT; CFG_CTL_RESTART; CFG_CTL_NTF_LIM]) 0 3 3 None (* WNI_CFG_MAX_RX_AMPDU_FACTOR *);
  mk_cgstatic 185 (flags [CFG_CTL_VALID; CFG_CTL_RE; CFG_CTL_WE; CFG_CTL_INT; CFG_CTL_RESTART; CFG_CTL_NTF_LIM]) 0 1 1 None (* WNI_CFG_SHORT_GI_20MHZ *);
  mk_cgstatic 186 (flags [CFG_CTL_VALID; CFG_CTL_RE; CFG_CTL_WE; CFG_CTL_INT; CFG_CTL_RESTART; CFG_CTL_NTF_LIM]) 0 1 0 None (* WNI_CFG_SHORT_GI_40MHZ *);
  mk_cgstatic 187 (flags [CFG_CTL_VALID; CFG_CTL_RE; CFG_CTL_WE; CFG_CTL_INT; CFG_CTL_RESTART]) 0 1 1 None (* WNI_CFG_RIFS_ENABLED *);
  mk_cgstatic 188 (flags [CFG_CTL_VALID; CFG_CTL_RE; CFG_CTL_WE; CFG_CTL_INT; CFG_CTL_NTF_LIM]) 0 255 0 None (* WNI_CFG_MAX_PS_POLL *);
  mk_cgstatic 189 (flags [CFG_CTL_VALID; CFG_CTL_RE; CFG_CTL_WE; CFG_CTL_INT; CFG_CTL_NTF_LIM]) 1 20 20 None (* WNI_CFG_NUM_BEACON_PER_RSSI_AVERAGE *);
  mk_cgstatic 190 (flags [CFG_CTL_VALID; CFG_CTL_RE; CFG_CTL_WE; CFG_CTL_INT; CFG_CTL_NTF_LIM]) 0 255 5 None (* WNI_CFG_RSSI_FILTER_PERIOD *);
  mk_cgstatic 191 (flags [CFG_CTL_VALID; CFG_CTL_RE; CFG_CTL_WE; CFG_CTL_INT; CFG_CTL_NTF_LIM]) 0 10 10 None (* WNI_CFG_MIN_RSSI_THRESHOLD *);
  mk_cgstatic 192 (flags [CFG_CTL_VALID; CFG_CTL_RE; CFG_CTL_WE; CFG_CTL_INT; CFG_CTL_NTF_LIM]) 0 1 0 None (* WNI_CFG_BROADCAST_FRAME_FILTER_ENABLE *);
  mk_cgstatic 193 (flags [CFG_CTL_VALID; CFG_CTL_RE; CFG_CTL_WE; CFG_CTL_INT; CFG_CTL_NTF_LIM]) 0 1 1 None (* WNI_CFG_SCAN_IN_POWERSAVE *);
  mk_cgstatic 194 (flags [CFG_CTL_VALID; CFG_CTL_RE; CFG_CTL_WE; CFG_CTL_INT]) 0 1 0 None (* WNI_CFG_IGNORE_DTIM *);
  mk_cgstatic 195 (flags [CFG_CTL_VALID; CFG_CTL_RE; CFG_CTL_WE; CFG_CTL_INT]) 0 1 1 None (* WNI_CFG_WOWLAN_UCAST_PATTERN_FILTER_ENABLE *);
  mk_cgstatic 196 (flags [CFG_CTL_VALID; CFG_CTL_RE; CFG_CTL_WE; CFG_CTL_INT]) 0 1 1 None (* WNI_CFG_WOWLAN_CHANNEL_SWITCH_ENABLE *);
  mk_cgstatic 197 (flags [CFG_CTL_VALID; CFG_CTL_RE; CFG_CTL_WE; CFG_CTL_INT]) 0 1 1 None (* WNI_CFG_WOWLAN_DEAUTH_ENABLE *);
  mk_cgstatic 198 (flags [CFG_CTL_VALID; CFG_CTL_RE; CFG_CTL_WE; CFG_CTL_INT]) 0 1 1 None (* WNI_CFG_WOWLAN_DISASSOC_ENABLE *);
  mk_cgstatic 199 (flags [CFG_CTL_VALID; CFG_CTL_RE; CFG_CTL_WE; CFG_CTL_INT]) 0 65535 40 None (* WNI_CFG_WOWLAN_MAX_MISSED_BEACON *);
  mk_cgstatic 200 (flags [CFG_CTL_VALID; CFG_CTL_RE; CFG_CTL_WE; CFG_CTL_INT]) 0 65535 65535 None (* WNI_CFG_WOWLAN_MAX_SLEEP_PERIOD *);
  mk_cgstatic 201 (flags [CFG_CTL_VALID; CFG_CTL_RE; CFG_CTL_WE; CFG_CTL_NTF_LIM]) 0 0 0 None (* WNI_CFG_BG_SCAN_CHANNEL_LIST *);
  mk_cgstatic 202 (flags [CFG_CTL_VALID; CFG_CTL_RE; CFG_CTL_WE; CFG_CTL_INT; CFG_CTL_NTF_HAL]) 0 65535 2048 None (* WNI_CFG_MAX_MEDIUM_TIME *);
  mk_cgstatic 203 (flags [CFG_CTL_VALID; CFG_CTL_RE; CFG_CTL_WE; CFG_CTL_INT; CFG_CTL_NTF_HAL]) 0 65535 64 None (* WNI_CFG_MAX_MPDUS_IN_AMPDU *);
  mk_cgstatic 204 (flags [CFG_CTL_VALID; CFG_CTL_RE; CFG_CTL_WE; CFG_CTL_INT]) 0 1 1 None (* WNI_CFG_IBSS_AUTO_BSSID *);
  mk_cgstatic 205 (flags [CFG_CTL_VALID; CFG_CTL_RE; CFG_CTL_WE; CFG_CTL_INT]) 0 1 0 None (* WNI_CFG_PROBE_REQ_ADDNIE_FLAG *);
  mk_cgstatic 206 (flags [CFG_CTL_VALID; CFG_CTL_RE; CFG_CTL_WE]) 0 0 0 None (* WNI_CFG_PROBE_REQ_ADDNIE_DATA *);
  mk_cgstatic 207 (flags [CFG_CTL_VALID; CFG_CTL_RE; CFG_CTL_WE; CFG_CTL_INT]) 0 1 0 None (* WNI_CFG_PROBE_RSP_ADDNIE_FLAG *)
].

Definition cfg_static_8 : list cgstatic := [
  mk_cgstatic 208 (flags [CFG_CTL_VALID; CFG_CTL_RE; CFG_CTL_WE]) 0 0 0 None (* WNI_CFG_PROBE_RSP_ADDNIE_DATA1 *);
  mk_cgstatic 209 (flags [CFG_CTL_VALID; CFG_CTL_RE; CFG_CTL_WE]) 0 0 0 None (* WNI_CFG_PROBE_RSP_ADDNIE_DATA2 *);
  mk_cgstatic 210 (flags [CFG_CTL_VALID; CFG_CTL_RE; CFG_CTL_WE]) 0 0 0 None (* WNI_CFG_PROBE_RSP_ADDNIE_DATA3 *);
  mk_cgstatic 211 (flags [CFG_CTL_VALID; CFG_CTL_RE; CFG_CTL_WE; CFG_CTL_INT]) 0 1 0 None (* WNI_CFG_ASSOC_RSP_ADDNIE_FLAG *);
  mk_cgstatic 212 (flags [CFG_CTL_VALID; CFG_CTL_RE; CFG_CTL_WE]) 0 0 0 None (* WNI_CFG_ASSOC_RSP_ADDNIE_DATA *);
  mk_cgstatic 213 (flags [CFG_CTL_VALID; CFG_CTL_RE; CFG_CTL_WE; CFG_CTL_INT]) 0 1 0 None (* WNI_CFG_PROBE_REQ_ADDNP2PIE_FLAG *);
  mk_cgstatic 214 (flags [CFG_CTL_VALID; CFG_CTL_RE; CFG_CTL_WE]) 0 0 0 None (* WNI_CFG_PROBE_REQ_ADDNP2PIE_DATA *);
  mk_cgstatic 215 (flags [CFG_CTL_VALID; CFG_CTL_RE; CFG_CTL_WE; CFG_CTL_INT; CFG_CTL_NTF_LIM]) 0 1 0 None (* WNI_CFG_PROBE_RSP_BCN_ADDNIE_FLAG *);
  mk_cgstatic 216 (flags [CFG_CTL_VALID; CFG_CTL_RE; CFG_CTL_WE; CFG_CTL_NTF_LIM]) 0 0 0 None (* WNI_CFG_PROBE_RSP_BCN_ADDNIE_DATA *);
  mk_cgstatic 217 (flags [CFG_CTL_VALID; CFG_CTL_RE; CFG_CTL_WE; CFG_CTL_INT; CFG_CTL_NTF_LIM]) 0 255 0 None (* WNI_CFG_WPS_ENABLE *);
  mk_cgstatic 218 (flags [CFG_CTL_VALID; CFG_CTL_RE; CFG_CTL_WE; CFG_CTL_INT; CFG_CTL_NTF_LIM]) 0 255 1 None (* WNI_CFG_WPS_STATE *);
  mk_cgstatic 219 (flags [CFG_CTL_VALID; CFG_CTL_RE; CFG_CTL_WE; CFG_CTL_INT; CFG_CTL_NTF_LIM]) 0 1 0 None (* WNI_CFG_WPS_PROBE_REQ_FLAG *);
  mk_cgstatic 220 (flags [CFG_CTL_VALID; CFG_CTL_RE; CFG_CTL_WE; CFG_CTL_INT; CFG_CTL_NTF_LIM]) 0 255 16 None (* WNI_CFG_WPS_VERSION *);
  mk_cgstatic 221 (flags [CFG_CTL_VALID; CFG_CTL_RE; CFG_CTL_WE; CFG_CTL_INT; CFG_CTL_NTF_LIM]) 0 255 0 None (* WNI_CFG_WPS_REQUEST_TYPE *);
  mk_cgstatic 222 (flags [CFG_CTL_VALID; CFG_CTL_RE; CFG_CTL_WE; CFG_CTL_INT; CFG_CTL_NTF_LIM]) 0 4294967295 8 None (* WNI_CFG_WPS_CFG_METHOD *);
  mk_cgstatic 223 (flags [CFG_CTL_VALID; CFG_CTL_RE; CFG_CTL_WE; CFG_CTL_NTF_LIM]) 0 0 0 None (* WNI_CFG_WPS_UUID *);
  mk_cgstatic 224 (flags [CFG_CTL_VALID; CFG_CTL_RE; CFG_CTL_WE; CFG_CTL_INT; CFG_CTL_NTF_LIM]) 0 65535 1 None (* WNI_CFG_WPS_PRIMARY_DEVICE_CATEGORY *);
  mk_cgstatic 225 (flags [CFG_CTL_VALID; CFG_CTL_RE; CFG_CTL_WE; CFG_CTL_INT; CFG_CTL_NTF_LIM]) 0 4294967295 5304836 None (* WNI_CFG_WPS_PIMARY_DEVICE_OUI *);
  mk_cgstatic 226 (flags [CFG_CTL_VALID; CFG_CTL_RE; CFG_CTL_WE; CFG_CTL_INT; CFG_CTL_NTF_LIM]) 0 65535 1 None (* WNI_CFG_WPS_DEVICE_SUB_CATEGORY *);
  mk_cgstatic 227 (flags [CFG_CTL_VALID; CFG_CTL_RE; CFG_CTL_WE; CFG_CTL_INT; CFG_CTL_NTF_LIM]) 0 65535 0 None (* WNI_CFG_WPS_ASSOCIATION_STATE *);
  mk_cgstatic 228 (flags [CFG_CTL_VALID; CFG_CTL_RE; CFG_CTL_WE; CFG_CTL_INT; CFG_CTL_NTF_LIM]) 0 65535 0 None (* WNI_CFG_WPS_CONFIGURATION_ERROR *);
  mk_cgstatic 229 (flags [CFG_CTL_VALID; CFG_CTL_RE; CFG_CTL_WE; CFG_CTL_INT; CFG_CTL_NTF_LIM]) 0 4294967295 0 None (* WNI_CFG_WPS_DEVICE_PASSWORD_ID *);
  mk_cgstatic 230 (flags [CFG_CTL_VALID; CFG_CTL_RE; CFG_CTL_WE; CFG_CTL_INT; CFG_CTL_NTF_LIM]) 0 65535 0 None (* WNI_CFG_WPS_ASSOC_METHOD *);
  mk_cgstatic 231 (flags [CFG_CTL_VALID; CFG_CTL_RE; CFG_CTL_WE; CFG_CTL_INT; CFG_CTL_NTF_HAL]) 0 1 0 None (* WNI_CFG_LOW_GAIN_OVERRIDE *);
  mk_cgstatic 232 (flags [CFG_CTL_VALID; CFG_CTL_RE; CFG_CTL_WE; CFG_CTL_INT; CFG_CTL_NTF_HAL]) 0 128 128 None (* WNI_CFG_ENABLE_PHY_AGC_LISTEN_MODE *);
  mk_cgstatic 233 (flags [CFG_CTL_VALID; CFG_CTL_RE; CFG_CTL_WE; CFG_CTL_INT; CFG_CTL_NTF_HAL]) 0 65535 10 None (* WNI_CFG_RPE_POLLING_THRESHOLD *)
].

Definition cfg_static_9 : list cgstatic := [
  mk_cgstatic 234 (flags [CFG_CTL_VALID; CFG_CTL_RE; CFG_CTL_WE; CFG_CTL_INT; CFG_CTL_NTF_HAL]) 0 65535 30 None (* WNI_CFG_RPE_AGING_THRESHOLD_FOR_AC0_REG *);
  mk_cgstatic 235 (flags [CFG_CTL_VALID; CFG_CTL_RE; CFG_CTL_WE; CFG_CTL_INT; CFG_CTL_NTF_HAL]) 0 65535 30 None (* WNI_CFG_RPE_AGING_THRESHOLD_FOR_AC1_REG *);
  mk_cgstatic 236 (flags [CFG_CTL_VALID; CFG_CTL_RE; CFG_CTL_WE; CFG_CTL_INT; CFG_CTL_NTF_HAL]) 0 65535 30 None (* WNI_CFG_RPE_AGING_THRESHOLD_FOR_AC2_REG *);
  mk_cgstatic 237 (flags [CFG_CTL_VALID; CFG_CTL_RE; CFG_CTL_WE; CFG_CTL_INT; CFG_CTL_NTF_HAL]) 0 65535 30 None (* WNI_CFG_RPE_AGING_THRESHOLD_FOR_AC3_REG *);
  mk_cgstatic 238 (flags [CFG_CTL_VALID; CFG_CTL_RE; CFG_CTL_WE; CFG_CTL_INT; CFG_CTL_NTF_HAL]) 0 2 1 None (* WNI_CFG_NO_OF_ONCHIP_REORDER_SESSIONS *);
  mk_cgstatic 239 (flags [CFG_CTL_VALID; CFG_CTL_RE; CFG_CTL_WE; CFG_CTL_INT]) 0 1 1 None (* WNI_CFG_SINGLE_TID_RC *);
  mk_cgstatic 240 (flags [CFG_CTL_VALID; CFG_CTL_RE; CFG_CTL_WE; CFG_CTL_INT]) 0 1 1 None (* WNI_CFG_TX_PWR_CTRL_ENABLE *);
  mk_cgstatic 241 (flags [CFG_CTL_VALID; CFG_CTL_RE; CFG_CTL_WE; CFG_CTL_INT; CFG_CTL_NTF_HAL]) 0 3 0 None (* WNI_CFG_MCAST_BCAST_FILTER_SETTING *);
  mk_cgstatic 242 (flags [CFG_CTL_VALID; CFG_CTL_RE; CFG_CTL_WE; CFG_CTL_INT; CFG_CTL_NTF_HAL]) 0 255 0 None (* WNI_CFG_BTC_DHCP_BT_SLOTS_TO_BLOCK *);
  mk_cgstatic 243 (flags [CFG_CTL_VALID; CFG_CTL_RE; CFG_CTL_WE; CFG_CTL_INT; CFG_CTL_NTF_HAL]) 0 255 0 None (* WNI_CFG_DYNAMIC_PS_POLL_VALUE *);
  mk_cgstatic 244 (flags [CFG_CTL_VALID; CFG_CTL_RE; CFG_CTL_WE; CFG_CTL_INT; CFG_CTL_NTF_HAL]) 0 80 0 None (* WNI_CFG_PS_NULLDATA_AP_RESP_TIMEOUT *);
  mk_cgstatic 245 (flags [CFG_CTL_VALID; CFG_CTL_RE; CFG_CTL_WE; CFG_CTL_INT; CFG_CTL_NTF_HAL]) 0 1 0 None (* WNI_CFG_TELE_BCN_WAKEUP_EN *);
  mk_cgstatic 246 (flags [CFG_CTL_VALID; CFG_CTL_RE; CFG_CTL_WE; CFG_CTL_INT; CFG_CTL_NTF_HAL]) 0 7 3 None (* WNI_CFG_TELE_BCN_TRANS_LI *);
  mk_cgstatic 247 (flags [CFG_CTL_VALID; CFG_CTL_RE; CFG_CTL_WE; CFG_CTL_INT; CFG_CTL_NTF_HAL]) 5 255 10 None (* WNI_CFG_TELE_BCN_TRANS_LI_IDLE_BCNS *);
  mk_cgstatic 248 (flags [CFG_CTL_VALID; CFG_CTL_RE; CFG_CTL_WE; CFG_CTL_INT; CFG_CTL_NTF_HAL]) 0 7 5 None (* WNI_CFG_TELE_BCN_MAX_LI *);
  mk_cgstatic 249 (flags [CFG_CTL_VALID; CFG_CTL_RE; CFG_CTL_WE; CFG_CTL_INT; CFG_CTL_NTF_HAL]) 5 255 15 None (* WNI_CFG_TELE_BCN_MAX_LI_IDLE_BCNS *);
  mk_cgstatic 250 (flags [CFG_CTL_VALID; CFG_CTL_RE; CFG_CTL_WE; CFG_CTL_INT; CFG_CTL_NTF_HAL]) 0 255 7 None (* WNI_CFG_BTC_A2DP_DHCP_BT_SUB_INTERVALS *);
  mk_cgstatic 251 (flags [CFG_CTL_VALID; CFG_CTL_RE; CFG_CTL_WE; CFG_CTL_INT; CFG_CTL_NTF_HAL]) 0 1000 0 None (* WNI_CFG_INFRA_STA_KEEP_ALIVE_PERIOD *);
  mk_cgstatic 252 (flags [CFG_CTL_VALID; CFG_CTL_RE; CFG_CTL_WE; CFG_CTL_INT; CFG_CTL_NTF_LIM]) 1 32 10 None (* WNI_CFG_ASSOC_STA_LIMIT *);
  mk_cgstatic 253 (flags [CFG_CTL_VALID; CFG_CTL_RE; CFG_CTL_WE; CFG_CTL_INT]) 1 252 1 None (* WNI_CFG_SAP_CHANNEL_SELECT_START_CHANNEL *);
  mk_cgstatic 254 (flags [CFG_CTL_VALID; CFG_CTL_RE; CFG_CTL_WE; CFG_CTL_INT]) 1 252 11 None (* WNI_CFG_SAP_CHANNEL_SELECT_END_CHANNEL *);
  mk_cgstatic 255 (flags [CFG_CTL_VALID; CFG_CTL_RE; CFG_CTL_WE; CFG_CTL_INT]) 0 5 0 None (* WNI_CFG_SAP_CHANNEL_SELECT_OPERATING_BAND *);
  mk_cgstatic 256 (flags [CFG_CTL_VALID; CFG_CTL_RE; CFG_CTL_WE; CFG_CTL_INT]) 0 65535 5 None (* WNI_CFG_AP_DATA_AVAIL_POLL_PERIOD *);
  mk_cgstatic 257 (flags [CFG_CTL_VALID; CFG_CTL_RE; CFG_CTL_WE; CFG_CTL_INT]) 0 1 0 None (* WNI_CFG_ENABLE_CLOSE_LOOP *);
  mk_cgstatic 258 (flags [CFG_CTL_VALID; CFG_CTL_RE; CFG_CTL_WE; CFG_CTL_INT]) 0 1 0 None (* WNI_CFG_ENABLE_LTE_COEX *);
  mk_cgstatic 259 (flags [CFG_CTL_VALID; CFG_CTL_RE; CFG_CTL_WE; CFG_CTL_INT; CFG_CTL_NTF_HAL]) 1 65535 20 None (* WNI_CFG_AP_KEEP_ALIVE_TIMEOUT *)
].

Definition cfg_static_10 : list cgstatic := [
  mk_cgstatic 260 (flags [CFG_CTL_VALID; CFG_CTL_RE; CFG_CTL_WE; CFG_CTL_INT; CFG_CTL_NTF_HAL]) 1 65535 20 None (* WNI_CFG_GO_KEEP_ALIVE_TIMEOUT *);
  mk_cgstatic 261 (flags [CFG_CTL_VALID; CFG_CTL_RE; CFG_CTL_WE; CFG_CTL_INT; CFG_CTL_NTF_HAL]) 0 1 0 None (* WNI_CFG_ENABLE_MC_ADDR_LIST *);
  mk_cgstatic 262 (flags [CFG_CTL_VALID; CFG_CTL_RE; CFG_CTL_WE; CFG_CTL_INT; CFG_CTL_NTF_HAL]) 0 1 0 None (* WNI_CFG_ENABLE_UC_FILTER *);
  mk_cgstatic 263 (flags [CFG_CTL_VALID; CFG_CTL_RE; CFG_CTL_WE; CFG_CTL_INT]) 0 1 0 None (* WNI_CFG_ENABLE_LPWR_IMG_TRANSITION *);
  mk_cgstatic 264 (flags [CFG_CTL_VALID; CFG_CTL_RE; CFG_CTL_WE; CFG_CTL_INT]) 0 1 0 None (* WNI_CFG_ENABLE_MCC_ADAPTIVE_SCHED *);
  mk_cgstatic 265 (flags [CFG_CTL_VALID; CFG_CTL_RE; CFG_CTL_WE; CFG_CTL_INT]) 0 1 0 None (* WNI_CFG_DISABLE_LDPC_WITH_TXBF_AP *);
  mk_cgstatic 266 (flags [CFG_CTL_VALID; CFG_CTL_RE; CFG_CTL_WE; CFG_CTL_INT; CFG_CTL_NTF_HAL]) 1 255 3 None (* WNI_CFG_AP_LINK_MONITOR_TIMEOUT *);
  mk_cgstatic 267 (flags [CFG_CTL_VALID; CFG_CTL_RE; CFG_CTL_WE; CFG_CTL_INT; CFG_CTL_NTF_LIM]) 0 15 0 None (* WNI_CFG_TDLS_QOS_WMM_UAPSD_MASK *);
  mk_cgstatic 268 (flags [CFG_CTL_VALID; CFG_CTL_RE; CFG_CTL_WE; CFG_CTL_INT; CFG_CTL_NTF_LIM]) 0 1 0 None (* WNI_CFG_TDLS_BUF_STA_ENABLED *);
  mk_cgstatic 269 (flags [CFG_CTL_VALID; CFG_CTL_RE; CFG_CTL_WE; CFG_CTL_INT; CFG_CTL_NTF_LIM]) 0 10 0 None (* WNI_CFG_TDLS_PUAPSD_INACT_TIME *);
  mk_cgstatic 270 (flags [CFG_CTL_VALID; CFG_CTL_RE; CFG_CTL_WE; CFG_CTL_INT; CFG_CTL_NTF_LIM]) 10 20 10 None (* WNI_CFG_TDLS_RX_FRAME_THRESHOLD *);
  mk_cgstatic 271 (flags [CFG_CTL_VALID; CFG_CTL_RE; CFG_CTL_WE; CFG_CTL_INT; CFG_CTL_RESTART]) 0 20 5 None (* WNI_CFG_PMF_SA_QUERY_MAX_RETRIES *);
  mk_cgstatic 272 (flags [CFG_CTL_VALID; CFG_CTL_RE; CFG_CTL_WE; CFG_CTL_INT; CFG_CTL_RESTART]) 10 2000 200 None (* WNI_CFG_PMF_SA_QUERY_RETRY_INTERVAL *);
  mk_cgstatic 273 (flags [CFG_CTL_VALID; CFG_CTL_RE; CFG_CTL_WE; CFG_CTL_INT; CFG_CTL_NTF_HAL]) 0 1 1 None (* WNI_CFG_ENABLE_ADAPT_RX_DRAIN *);
  mk_cgstatic 274 (flags [CFG_CTL_VALID; CFG_CTL_RE; CFG_CTL_WE; CFG_CTL_INT]) 0 9 0 None (* WNI_CFG_FLEX_CONNECT_POWER_FACTOR *);
  mk_cgstatic 275 (flags [CFG_CTL_VALID; CFG_CTL_RE; CFG_CTL_WE; CFG_CTL_INT; CFG_CTL_NTF_HAL]) 0 3 0 None (* WNI_CFG_ANTENNA_DIVESITY *);
  mk_cgstatic 276 (flags [CFG_CTL_VALID; CFG_CTL_RE; CFG_CTL_WE; CFG_CTL_INT; CFG_CTL_NTF_HAL]) 3 50 10 None (* WNI_CFG_GO_LINK_MONITOR_TIMEOUT *);
  mk_cgstatic 277 (flags [CFG_CTL_VALID; CFG_CTL_RE; CFG_CTL_WE; CFG_CTL_INT; CFG_CTL_NTF_HAL]) 100 1000 300 None (* WNI_CFG_RMC_ACTION_PERIOD_FREQUENCY *);
  mk_cgstatic 278 (flags [CFG_CTL_VALID; CFG_CTL_RE; CFG_CTL_WE; CFG_CTL_INT]) 0 127 0 None (* WNI_CFG_CURRENT_RSSI *);
  mk_cgstatic 279 (flags [CFG_CTL_VALID; CFG_CTL_RE; CFG_CTL_WE; CFG_CTL_INT]) 0 1 1 None (* WNI_CFG_RTT3_ENABLE *);
  mk_cgstatic 280 (flags [CFG_CTL_VALID; CFG_CTL_RE; CFG_CTL_WE; CFG_CTL_INT]) 0 1 0 None (* WNI_CFG_DEBUG_P2P_REMAIN_ON_CHANNEL *);
  mk_cgstatic 281 (flags [CFG_CTL_VALID; CFG_CTL_RE; CFG_CTL_WE; CFG_CTL_INT; CFG_CTL_NTF_LIM]) 0 1 0 None (* WNI_CFG_TDLS_OFF_CHANNEL_ENABLED *);
  mk_cgstatic 282 (flags [CFG_CTL_VALID; CFG_CTL_RE; CFG_CTL_WE; CFG_CTL_INT]) 0 100 0 None (* WNI_CFG_IBSS_ATIM_WIN_SIZE *);
  mk_cgstatic 283 (flags [CFG_CTL_VALID; CFG_CTL_RE; CFG_CTL_WE; CFG_CTL_INT]) 0 1 0 None (* WNI_CFG_DFS_MASTER_ENABLED *);
  mk_cgstatic 284 (flags [CFG_CTL_VALID; CFG_CTL_RE; CFG_CTL_WE; CFG_CTL_INT]) 0 1 0 None (* WNI_CFG_VHT_ENABLE_TXBF_20MHZ *);
  mk_cgstatic 285 (flags [CFG_CTL_VALID; CFG_CTL_RE; CFG_CTL_WE; CFG_CTL_INT; CFG_CTL_NTF_LIM]) 0 1 0 None (* WNI_CFG_TDLS_WMM_MODE_ENABLED *)
].

Definition cfg_static_11 : list cgstatic := [
  mk_cgstatic 286 (flags [CFG_CTL_VALID; CFG_CTL_RE; CFG_CTL_WE; CFG_CTL_INT; CFG_CTL_NTF_LIM]) 5 1000 20 None (* WNI_CFG_OBSS_HT40_SCAN_PASSIVE_DWELL_TIME *);
  mk_cgstatic 287 (flags [CFG_CTL_VALID; CFG_CTL_RE; CFG_CTL_WE; CFG_CTL_INT; CFG_CTL_NTF_LIM]) 10 1000 10 None (* WNI_CFG_OBSS_HT40_SCAN_ACTIVE_DWELL_TIME *);
  mk_cgstatic 288 (flags [CFG_CTL_VALID; CFG_CTL_RE; CFG_CTL_WE; CFG_CTL_INT; CFG_CTL_NTF_LIM]) 10 900 200 None (* WNI_CFG_OBSS_HT40_SCAN_WIDTH_TRIGGER_INTERVAL *);
  mk_cgstatic 289 (flags [CFG_CTL_VALID; CFG_CTL_RE; CFG_CTL_WE; CFG_CTL_INT; CFG_CTL_NTF_LIM]) 200 10000 200 None (* WNI_CFG_OBSS_HT40_SCAN_PASSIVE_TOTAL_PER_CHANNEL *);
  mk_cgstatic 290 (flags [CFG_CTL_VALID; CFG_CTL_RE; CFG_CTL_WE; CFG_CTL_INT; CFG_CTL_NTF_LIM]) 20 10000 20 None (* WNI_CFG_OBSS_HT40_SCAN_ACTIVE_TOTAL_PER_CHANNEL *);
  mk_cgstatic 291 (flags [CFG_CTL_VALID; CFG_CTL_RE; CFG_CTL_WE; CFG_CTL_INT; CFG_CTL_NTF_LIM]) 5 100 5 None (* WNI_CFG_OBSS_HT40_WIDTH_CH_TRANSITION_DELAY *);
  mk_cgstatic 292 (flags [CFG_CTL_VALID; CFG_CTL_RE; CFG_CTL_WE; CFG_CTL_INT; CFG_CTL_NTF_LIM]) 0 100 25 None (* WNI_CFG_OBSS_HT40_SCAN_ACTIVITY_THRESHOLD *)
].

Definition driver_cfg_static : list cgstatic :=
  cfg_static_0 ++ cfg_static_1 ++ cfg_static_2 ++ cfg_static_3 ++ cfg_static_4 ++ cfg_static_5 ++ cfg_static_6 ++ cfg_static_7 ++ cfg_static_8 ++ cfg_static_9 ++ cfg_static_10 ++ cfg_static_11.

Definition cfg_static_string_0 : list cfgstatic_string := [
  mk_static_string 0 6 6 [34; 34; 68; 68; 51; 51] (* WNI_CFG_STA_ID *);
  mk_static_string 4 32 10 [1; 2; 3; 4; 5; 6; 7; 8; 9; 0] (* WNI_CFG_SSID *);
  mk_static_string 8 13 0 [0] (* WNI_CFG_WEP_DEFAULT_KEY_1 *);
  mk_static_string 9 13 0 [0] (* WNI_CFG_WEP_DEFAULT_KEY_2 *);
  mk_static_string 10 13 0 [0] (* WNI_CFG_WEP_DEFAULT_KEY_3 *);
  mk_static_string 11 13 0 [0] (* WNI_CFG_WEP_DEFAULT_KEY_4 *);
  mk_static_string 33 4 4 [2; 4; 11; 22] (* WNI_CFG_SUPPORTED_RATES_11B *);
  mk_static_string 34 8 8 [12; 18; 24; 36; 48; 72; 96; 108] (* WNI_CFG_SUPPORTED_RATES_11A *);
  mk_static_string 37 12 0 [0] (* WNI_CFG_OPERATIONAL_RATE_SET *);
  mk_static_string 38 8 0 [0] (* WNI_CFG_EXTENDED_OPERATIONAL_RATE_SET *);
  mk_static_string 39 4 4 [1; 3; 5; 7] (* WNI_CFG_PROPRIETARY_OPERATIONAL_RATE_SET *);
  mk_static_string 41 100 55 [36; 40; 44; 48; 52; 56; 60; 64; 1; 6; 11; 34; 38; 42; 46; 2; 3; 4; 5; 7; 8; 9; 10; 12; 13; 14; 100; 104; 108; 112; 116; 120; 124; 128; 132; 136; 140; 149; 151; 153; 155; 157; 159; 161; 50; 54; 58; 62; 240; 242; 244; 246; 248; 250; 252] (* WNI_CFG_VALID_CHANNEL_LIST *);
  mk_static_string 69 3 3 [0; 10; 245] (* WNI_CFG_MANUFACTURER_OUI *);
  mk_static_string 70 64 8 [81; 117; 97; 108; 99; 111; 109; 109] (* WNI_CFG_MANUFACTURER_NAME *);
  mk_static_string 71 32 6 [77; 78; 49; 50; 51; 52] (* WNI_CFG_MODEL_NUMBER *);
  mk_static_string 72 32 7 [87; 70; 82; 52; 48; 51; 49] (* WNI_CFG_MODEL_NAME *);
  mk_static_string 73 32 6 [49; 49; 110; 45; 65; 80] (* WNI_CFG_MANUFACTURER_PRODUCT_NAME *);
  mk_static_string 74 32 6 [83; 78; 49; 50; 51; 52] (* WNI_CFG_MANUFACTURER_PRODUCT_VERSION *);
  mk_static_string 76 128 3 [1; 14; 20] (* WNI_CFG_MAX_TX_POWER_2_4 *);
  mk_static_string 77 128 3 [36; 126; 20] (* WNI_CFG_MAX_TX_POWER_5 *);
  mk_static_string 85 32 0 [0] (* WNI_CFG_AP_NODE_NAME *);
  mk_static_string 86 3 0 [0] (* WNI_CFG_COUNTRY_CODE *);
  mk_static_string 106 20 17 [0; 7; 0; 15; 3; 255; 0; 0; 31; 3; 255; 0; 0; 15; 3; 255; 0] (* WNI_CFG_EDCA_ANI_ACBK_LOCAL *);
  mk_static_string 107 20 17 [0; 2; 0; 15; 3; 255; 100; 0; 31; 3; 255; 100; 0; 15; 3; 255; 100] (* WNI_CFG_EDCA_ANI_ACBE_LOCAL *);
  mk_static_string 108 20 17 [0; 2; 0; 7; 0; 15; 200; 0; 15; 0; 31; 188; 0; 7; 0; 15; 200] (* WNI_CFG_EDCA_ANI_ACVI_LOCAL *);
  mk_static_string 109 20 17 [0; 2; 0; 3; 0; 7; 100; 0; 7; 0; 15; 102; 0; 3; 0; 7; 100] (* WNI_CFG_EDCA_ANI_ACVO_LOCAL *)
].

Definition cfg_static_string_1 : list cfgstatic_string := [
  mk_static_string 110 20 17 [0; 7; 0; 15; 3; 255; 0; 0; 31; 3; 255; 0; 0; 15; 3; 255; 0] (* WNI_CFG_EDCA_ANI_ACBK *);
  mk_static_string 111 20 17 [0; 2; 0; 15; 3; 255; 100; 0; 31; 3; 255; 100; 0; 15; 3; 255; 100] (* WNI_CFG_EDCA_ANI_ACBE *);
  mk_static_string 112 20 17 [0; 2; 0; 7; 0; 15; 200; 0; 15; 0; 31; 188; 0; 7; 0; 15; 200] (* WNI_CFG_EDCA_ANI_ACVI *);
  mk_static_string 113 20 17 [0; 2; 0; 3; 0; 7; 100; 0; 7; 0; 15; 102; 0; 3; 0; 7; 100] (* WNI_CFG_EDCA_ANI_ACVO *);
  mk_static_string 114 20 17 [0; 7; 0; 15; 3; 255; 0; 0; 31; 3; 255; 0; 0; 15; 3; 255; 0] (* WNI_CFG_EDCA_WME_ACBK_LOCAL *);
  mk_static_string 115 20 17 [0; 3; 0; 15; 0; 63; 0; 0; 31; 3; 255; 0; 0; 15; 0; 63; 0] (* WNI_CFG_EDCA_WME_ACBE_LOCAL *);
  mk_static_string 116 20 17 [0; 1; 0; 7; 0; 15; 94; 0; 7; 0; 15; 188; 0; 7; 0; 15; 94] (* WNI_CFG_EDCA_WME_ACVI_LOCAL *);
  mk_static_string 117 20 17 [0; 1; 0; 3; 0; 7; 47; 0; 3; 0; 7; 102; 0; 3; 0; 7; 47] (* WNI_CFG_EDCA_WME_ACVO_LOCAL *);
  mk_static_string 118 20 17 [0; 7; 0; 15; 3; 255; 0; 0; 15; 3; 255; 0; 0; 15; 3; 255; 0] (* WNI_CFG_EDCA_WME_ACBK *);
  mk_static_string 119 20 17 [0; 3; 0; 15; 3; 255; 0; 0; 15; 3; 255; 0; 0; 15; 3; 255; 0] (* WNI_CFG_EDCA_WME_ACBE *);
  mk_static_string 120 20 17 [0; 2; 0; 7; 0; 15; 94; 0; 7; 0; 15; 188; 0; 7; 0; 15; 94] (* WNI_CFG_EDCA_WME_ACVI *);
  mk_static_string 121 20 17 [0; 2; 0; 3; 0; 7; 47; 0; 3; 0; 7; 102; 0; 3; 0; 7; 47] (* WNI_CFG_EDCA_WME_ACVO *);
  mk_static_string 123 20 15 [52; 56; 60; 64; 100; 104; 108; 112; 116; 120; 124; 128; 132; 136; 140] (* WNI_CFG_RADAR_CHANNEL_LIST *);
  mk_static_string 135 128 114 [1; 1; 2; 1; 3; 1; 4; 1; 5; 1; 6; 1; 7; 1; 8; 1; 9; 1; 10; 1; 11; 1; 12; 1; 13; 1; 14; 1; 34; 1; 36; 1; 38; 1; 40; 1; 42; 1; 44; 1; 46; 1; 48; 1; 50; 1; 52; 0; 54; 0; 56; 0; 58; 0; 60; 0; 62; 0; 64; 0; 100; 0; 104; 0; 108; 0; 112; 0; 116; 0; 120; 0; 124; 0; 128; 0; 132; 0; 136; 0; 140; 0; 144; 0; 149; 1; 151; 1; 153; 1; 155; 1; 157; 1; 159; 1; 161; 1; 165; 1; 240; 1; 242; 1; 244; 1; 246; 1; 248; 1; 250; 1; 252; 1] (* WNI_CFG_SCAN_CONTROL_LIST *);
  mk_static_string 141 16 16 [255; 0; 0; 0; 0; 0; 0; 0; 0; 0; 0; 0; 0; 0; 0; 0] (* WNI_CFG_SUPPORTED_MCS_SET *);
  mk_static_string 148 16 16 [0; 0; 0; 0; 0; 0; 0; 0; 0; 0; 0; 0; 0; 0; 0; 0] (* WNI_CFG_BASIC_MCS_SET *);
  mk_static_string 149 16 16 [0; 0; 0; 0; 0; 0; 0; 0; 0; 0; 0; 0; 0; 0; 0; 0] (* WNI_CFG_CURRENT_MCS_SET *);
  mk_static_string 201 100 55 [36; 40; 44; 48; 52; 56; 60; 64; 1; 6; 11; 34; 38; 42; 46; 2; 3; 4; 5; 7; 8; 9; 10; 12; 13; 14; 100; 104; 108; 112; 116; 120; 124; 128; 132; 136; 140; 149; 151; 153; 155; 157; 159; 161; 50; 54; 58; 62; 240; 242; 244; 246; 248; 250; 252] (* WNI_CFG_BG_SCAN_CHANNEL_LIST *);
  mk_static_string 206 255 0 [0] (* WNI_CFG_PROBE_REQ_ADDNIE_DATA *);
  mk_static_string 208 255 0 [0] (* WNI_CFG_PROBE_RSP_ADDNIE_DATA1 *);
  mk_static_string 209 255 0 [0] (* WNI_CFG_PROBE_RSP_ADDNIE_DATA2 *);
  mk_static_string 210 255 0 [0] (* WNI_CFG_PROBE_RSP_ADDNIE_DATA3 *);
  mk_static_string 212 255 0 [0] (* WNI_CFG_ASSOC_RSP_ADDNIE_DATA *);
  mk_static_string 214 255 0 [0] (* WNI_CFG_PROBE_REQ_ADDNP2PIE_DATA *);
  mk_static_string 216 255 0 [0] (* WNI_CFG_PROBE_RSP_BCN_ADDNIE_DATA *);
  mk_static_string 223 16 6 [10; 11; 12; 13; 14; 15] (* WNI_CFG_WPS_UUID *)
].

(** The array has 70 elements; those without initialiser are zero. *)
Definition driver_cfg_static_string : list cfgstatic_string :=
  cfg_static_string_0 ++ cfg_static_string_1 ++ replicate 18 (mk_static_string 0 0 0 []).
