(* ===== verification/CfgProofs.v ===== *)
(** The configuration store as a map from identifiers to parameters.

    [cfg_rep ctl c A] says that the buffers of [c], laid out by the control words
    [ctl], hold the parameters [A]; every
    access through the interface of [cfg_api.c] is the access to [A]. *)
From S2P Require Import Prelude Cfg.

(** * Abstract state *)

(** An integer with its limits, or a string with its capacity. *)
Inductive cfg_param : Type :=
| PInt (v vmin vmax : Z)
| PStr (cap : Z) (data : list Z).

Abbreviation params := (Z → option cfg_param).

Record bufs : Type := mk_bufs {
  b_ctl : list Z;
  b_sb : list Z;
  b_ib : list Z;
  b_mn : list Z;
  b_mx : list Z;
}.

Definition store_bufs (c : tAniSirCfg) (b : bufs) : Prop :=
  gCfgEntry c = Some (b_ctl b) ∧ gCfgSBuf c = Some (b_sb b) ∧ gCfgIBuf c = Some (b_ib b) ∧
  gCfgIBufMin c = Some (b_mn b) ∧ gCfgIBufMax c = Some (b_mx b) ∧
  gCfgMaxSBufSize c = Z.of_nat (length (b_sb b)).

(** Position of parameter [id] in its buffer. *)
Definition control_of (b : bufs) (id : Z) : Z := b_ctl b !!! Z.to_nat id.
Definition pos (b : bufs) (id : Z) : nat :=
  Z.to_nat (Z.land (control_of b id) CFG_BUF_INDX_MASK).

Definition param_at (b : bufs) (k : nat) (p : cfg_param) : Prop :=
  match p with
  | PInt v vmin vmax =>
      b_ib b !! k = Some v ∧ b_mn b !! k = Some vmin ∧ b_mx b !! k = Some vmax
  | PStr cap data =>
      b_sb b !! k = Some cap ∧ b_sb b !! S k = Some (Z.of_nat (length data)) ∧
      take (length data) (drop (k + 2) (b_sb b)) = data ∧
      Z.of_nat (length data) ≤ cap ≤ 255 ∧ (k + 2 + Z.to_nat cap ≤ length (b_sb b))%nat
  end.

(** Two parameters in the same buffer do not overlap. *)
Definition apart (k : nat) (p : cfg_param) (k' : nat) (p' : cfg_param) : Prop :=
  match p, p' with
  | PInt _ _ _, PInt _ _ _ => k ≠ k'
  | PStr cap _, PStr cap' _ =>
      (k + 2 + Z.to_nat cap ≤ k' ∨ k' + 2 + Z.to_nat cap' ≤ k)%nat
  | _, _ => True
  end.

Definition is_PInt (p : cfg_param) : bool := match p with PInt _ _ _ => true | _ => false end.

Record bufs_rep (b : bufs) (A : params) : Prop := {
  rep_ctl : length (b_ctl b) = Z.to_nat CFG_PARAM_MAX_NUM;
  rep_dom : ∀ id, A id ≠ None → 0 ≤ id < CFG_PARAM_MAX_NUM;
  rep_valid : ∀ id, 0 ≤ id < CFG_PARAM_MAX_NUM →
    (A id = None ↔ has_flag (control_of b id) CFG_CTL_VALID = false);
  rep_param : ∀ id p, A id = Some p →
    param_at b (pos b id) p ∧ (pos b id < length (b_sb b))%nat ∧
    has_flag (control_of b id) CFG_CTL_INT = is_PInt p;
  rep_apart : ∀ i j p q, A i = Some p → A j = Some q → i ≠ j → apart (pos b i) p (pos b j) q;
}.

(** The store [c], whose control words are [ctl], holds the parameters [A]. *)
Definition cfg_rep (ctl : list Z) (c : tAniSirCfg) (A : params) : Prop :=
  ∃ b, b_ctl b = ctl ∧ store_bufs c b ∧ bufs_rep b A.

Definition is_host_msg (e : cfg_event) : bool :=
  match e with CfgHostMsg _ _ _ _ => true | _ => false end.

(** The messages sent to the host. *)
Definition host_msgs (c : tAniSirCfg) : list cfg_event := List.filter is_host_msg (cfg_log c).

(** Parts of the store that no access to a parameter changes. *)
Definition cfg_frame (c c' : tAniSirCfg) : Prop :=
  gSBuffer c' = gSBuffer c ∧ gParamList c' = gParamList c ∧ gCfgStatus c' = gCfgStatus c ∧
  host_msgs c' = host_msgs c.

Lemma cfg_frame_refl c : cfg_frame c c.
Proof. done. Qed.

Lemma cfg_frame_trans c1 c2 c3 : cfg_frame c1 c2 → cfg_frame c2 c3 → cfg_frame c1 c3.
Proof. intros (?&?&?&?) (?&?&?&?). split_and!; congruence. Qed.

(** * Reading the buffers *)

Lemma arr_get_nat l (k : nat) : arr_get l (Z.of_nat k) = l !! k.
Proof. unfold arr_get. rewrite (proj2 (Z.leb_le 0 (Z.of_nat k))) by lia. by rewrite Nat2Z.id. Qed.

Lemma arr_put_nat l (k : nat) v :
  (k < length l)%nat → arr_put l (Z.of_nat k) v = Some (<[k := v]> l).
Proof.
  intros H. unfold arr_put. rewrite (proj2 (Z.leb_le 0 (Z.of_nat k))) by lia.
  rewrite (proj2 (Z.ltb_lt _ _)) by lia. simpl. by rewrite Nat2Z.id.
Qed.

Lemma rd_run f c l k x :
  f c = Some l → l !! k = Some x → rd f (Z.of_nat k) c = Some (x, c).
Proof.
  intros Hf Hl. unfold rd. rewrite run_gets, Hf, run_deref_Some, arr_get_nat, Hl. done.
Qed.

Lemma wr_run f set_f c l k v :
  f c = Some l → (k < length l)%nat →
  wr f set_f (Z.of_nat k) v c = Some (tt, set_f (Some (<[k := v]> l)) c).
Proof.
  intros Hf Hk. unfold wr.
  by rewrite run_gets, Hf, run_deref_Some, arr_put_nat, run_deref_Some by done.
Qed.

Lemma land_mask_pos x : 0 ≤ Z.land x CFG_BUF_INDX_MASK.
Proof. by apply Z.land_nonneg; right. Qed.

Lemma ctl_lookup b A id :
  bufs_rep b A → 0 ≤ id < CFG_PARAM_MAX_NUM → b_ctl b !! Z.to_nat id = Some (control_of b id).
Proof.
  intros Hb Hid. apply list_lookup_lookup_total_lt. rewrite (rep_ctl _ _ Hb).
  unfold CFG_PARAM_MAX_NUM in *. lia.
Qed.

Section access.
Context (c : tAniSirCfg) (b : bufs) (A : params).
Context (Hs : store_bufs c b) (Hb : bufs_rep b A).

Lemma rd_entry id :
  0 ≤ id < CFG_PARAM_MAX_NUM → rd gCfgEntry id c = Some (control_of b id, c).
Proof.
  intros Hid. destruct Hs as (He & _). rewrite <- (Z2Nat.id id) at 1 by lia.
  apply rd_run with (l := b_ctl b); [done|]. by apply ctl_lookup with (A := A).
Qed.

Lemma check_valid_run id p :
  A id = Some p → cfg_check_valid id c = Some ((eSIR_SUCCESS, Some (Z.of_nat (pos b id))), c).
Proof.
  intros HA. assert (0 ≤ id < CFG_PARAM_MAX_NUM) as Hid by (eapply rep_dom; [done|by rewrite HA]).
  destruct (rep_param _ _ Hb _ _ HA) as (_ & Hpos & _).
  assert (has_flag (control_of b id) CFG_CTL_VALID = true) as Hv.
  { apply not_false_iff_true. intros Hv. apply (rep_valid _ _ Hb id Hid) in Hv. congruence. }
  unfold cfg_check_valid. rewrite Z.geb_leb, (proj2 (Z.leb_gt _ _)) by lia.
  pose proof Hs as (He & _ & _ & _ & _ & Hm). rewrite run_gets, He.
  rewrite (run_bind _ _ _ _ _ (rd_entry id Hid)).
  unfold has_flag in Hv. apply negb_true_iff in Hv. rewrite Hv, run_gets, Hm, Z.geb_leb.
  unfold pos in *. pose proof (land_mask_pos (control_of b id)).
  rewrite (proj2 (Z.leb_gt _ _)) by lia. by rewrite Z2Nat.id by done.
Qed.

Lemma check_invalid_run id :
  0 ≤ id → A id = None → ∃ o, cfg_check_valid id c = Some ((eSIR_CFG_INVALID_ID, o), c).
Proof.
  intros Hid HA. unfold cfg_check_valid. rewrite Z.geb_leb.
  destruct (Z.leb_spec CFG_PARAM_MAX_NUM id); [by eexists|].
  pose proof Hs as (He & _). rewrite run_gets, He.
  rewrite (run_bind _ _ _ _ _ (rd_entry id ltac:(lia))).
  assert (has_flag (control_of b id) CFG_CTL_VALID = false) as Hv by (by apply (rep_valid _ _ Hb)).
  unfold has_flag in Hv. apply negb_false_iff in Hv. rewrite Hv. by eexists.
Qed.

Lemma rd_sb k x : b_sb b !! k = Some x → rd gCfgSBuf (Z.of_nat k) c = Some (x, c).
Proof. destruct Hs as (_ & H & _). by apply rd_run. Qed.

Lemma rd_int id v vmin vmax :
  A id = Some (PInt v vmin vmax) →
  rd gCfgIBuf (Z.of_nat (pos b id)) c = Some (v, c) ∧
  rd gCfgIBufMin (Z.of_nat (pos b id)) c = Some (vmin, c) ∧
  rd gCfgIBufMax (Z.of_nat (pos b id)) c = Some (vmax, c).
Proof.
  intros HA. destruct (rep_param _ _ Hb _ _ HA) as ((H1 & H2 & H3) & _).
  destruct Hs as (_ & _ & Hi & Hn & Hx & _). by split_and!; eapply rd_run.
Qed.

Lemma copy_from_run n k :
  (k + n ≤ length (b_sb b))%nat →
  copy_from_sbuf n (Z.of_nat k) c = Some (take n (drop k (b_sb b)), c).
Proof.
  revert k. induction n as [|n IH]; intros k Hk; simpl.
  - by rewrite take_0.
  - destruct (lookup_lt_is_Some_2 (b_sb b) k) as [x Hx]; [lia|].
    rewrite (run_bind _ _ _ _ _ (rd_sb k x Hx)).
    replace (Z.of_nat k + 1) with (Z.of_nat (S k)) by lia.
    rewrite (run_bind _ _ _ _ _ (IH (S k) ltac:(lia))).
    by rewrite (drop_S _ _ _ Hx).
Qed.
End access.

(** * Changing the buffers *)

Definition with_ints (b : bufs) (l : list Z) : bufs :=
  mk_bufs (b_ctl b) (b_sb b) l (b_mn b) (b_mx b).
Definition with_strings (b : bufs) (l : list Z) : bufs :=
  mk_bufs (b_ctl b) l (b_ib b) (b_mn b) (b_mx b).

Lemma store_bufs_log c b l : store_bufs c b → store_bufs (set_cfg_log l c) b.
Proof. done. Qed.

Lemma log_cfg_frame c e :
  is_host_msg e = false → cfg_frame c (set_cfg_log (cfg_log c ++ [e]) c).
Proof.
  intros He. split_and!; try done. unfold host_msgs. simpl. rewrite List.filter_app. simpl.
  by rewrite He, app_nil_r.
Qed.

(** Writing to the log when a flag is set. *)
Lemma log_when c b (n : bool) e :
  store_bufs c b → is_host_msg e = false →
  ∃ c', when n (log_cfg e) c = Some (tt, c') ∧ store_bufs c' b ∧ cfg_frame c c'.
Proof.
  intros Hs He. destruct n; [|by exists c]. eexists. split_and!; [done|done|].
  by apply log_cfg_frame.
Qed.

Lemma notify_run c b id mask :
  store_bufs c b → ∃ c', notify id mask c = Some (tt, c') ∧ store_bufs c' b ∧ cfg_frame c c'.
Proof.
  intros Hs. unfold notify.
  destruct (log_when c b (has_flag mask CFG_CTL_NTF_SCH) (CfgNotifySch id)) as (c1 & H1 & Hs1 & F1);
    [done..|]. rewrite (run_bind _ _ _ _ _ H1).
  destruct (log_when c1 b (has_flag mask CFG_CTL_NTF_LIM) (CfgNotifyLim id)) as (c2 & H2 & Hs2 & F2);
    [done..|]. rewrite (run_bind _ _ _ _ _ H2).
  destruct (log_when c2 b (has_flag mask CFG_CTL_NTF_HAL) (CfgNotifyHal id)) as (c3 & H3 & Hs3 & F3);
    [done..|]. exists c3. split_and!; [done|done|]. eauto using cfg_frame_trans.
Qed.

Lemma notify_when c b id (n : bool) mask :
  store_bufs c b →
  ∃ c', when n (notify id mask) c = Some (tt, c') ∧ store_bufs c' b ∧ cfg_frame c c'.
Proof. destruct n; [by apply notify_run|]. by exists c. Qed.

(** A byte range of the string buffer after a copy. *)
Definition patch (k : nat) (src l : list Z) : list Z :=
  take k l ++ src ++ drop (k + length src) l.

Lemma patch_length k src l :
  (k + length src ≤ length l)%nat → length (patch k src l) = length l.
Proof. intros H. unfold patch. autorewrite with listdb. lia. Qed.

Lemma patch_outside k src l i :
  (k + length src ≤ length l)%nat → (i < k ∨ k + length src ≤ i)%nat →
  patch k src l !! i = l !! i.
Proof.
  intros H [Hi|Hi]; unfold patch.
  - rewrite lookup_app_l by (autorewrite with listdb; lia). by rewrite lookup_take_lt.
  - rewrite lookup_app_r by (autorewrite with listdb; lia).
    rewrite lookup_app_r by (autorewrite with listdb; lia).
    autorewrite with listdb. rewrite lookup_drop. f_equal. lia.
Qed.

Lemma patch_inside k src l i :
  (k + length src ≤ length l)%nat → (i < length src)%nat → patch k src l !! (k + i)%nat = src !! i.
Proof.
  intros H Hi. unfold patch. rewrite lookup_app_r by (autorewrite with listdb; lia).
  autorewrite with listdb. rewrite lookup_app_l by lia. f_equal. lia.
Qed.

Lemma patch_cons k x src l :
  (k < length l)%nat → patch (S k) src (<[k := x]> l) = patch k (x :: src) l.
Proof.
  intros Hk. unfold patch. simpl.
  rewrite (take_S_r _ _ x) by (rewrite list_lookup_insert_eq; [done|lia]).
  rewrite take_insert_ge, drop_insert_lt by lia. rewrite <- app_assoc. simpl.
  do 3 f_equal. f_equal. lia.
Qed.

Lemma copy_to_run src c b k rest :
  store_bufs c b → (k + length src ≤ length (b_sb b))%nat →
  ∃ c', copy_to_sbuf (length src) (Z.of_nat k) (src ++ rest) c = Some (tt, c') ∧
    store_bufs c' (with_strings b (patch k src (b_sb b))) ∧ cfg_frame c c'.
Proof.
  revert c b k. induction src as [|x src IH]; intros c b k Hs Hk; simpl in *.
  - exists c. split_and!; [done| |done..]. unfold patch. simpl.
    rewrite Nat.add_0_r, take_drop. by destruct b.
  - pose proof Hs as (H1 & H2 & H3 & H4 & H5 & H6).
    rewrite run_deref_Some.
    rewrite (run_bind _ _ _ _ _ (wr_run gCfgSBuf set_gCfgSBuf c (b_sb b) k x H2 ltac:(lia))).
    replace (Z.of_nat k + 1) with (Z.of_nat (S k)) by lia.
    destruct (IH (set_gCfgSBuf (Some (<[k := x]> (b_sb b))) c) (with_strings b (<[k := x]> (b_sb b)))
      (S k)) as (c' & Hrun & Hc' & HF).
    + repeat split; simpl; try done. by rewrite length_insert.
    + simpl. rewrite length_insert. lia.
    + exists c'. split; [done|]. split; [|done].
      by rewrite <- patch_cons by lia.
Qed.

(** * What each operation does to the parameters *)

Definition upd (A : params) (id : Z) (p : cfg_param) : params :=
  λ j, if decide (j = id) then Some p else A j.

(** Replacing a parameter by one of the same kind and extent, in new buffers
    that agree with the old ones outside its place. *)
Lemma bufs_rep_upd b b' A id p p' :
  bufs_rep b A → A id = Some p → b_ctl b' = b_ctl b → length (b_sb b') = length (b_sb b) →
  is_PInt p' = is_PInt p →
  (∀ k q, apart k q (pos b id) p' ↔ apart k q (pos b id) p) →
  (∀ k q, apart (pos b id) p' k q ↔ apart (pos b id) p k q) →
  param_at b' (pos b id) p' →
  (∀ j q, A j = Some q → apart (pos b id) p (pos b j) q →
    param_at b (pos b j) q → param_at b' (pos b j) q) →
  bufs_rep b' (upd A id p').
Proof.
  intros Hb HA Hc Hl Hk Hap Hap' Hp Hother.
  assert (∀ j, control_of b' j = control_of b j) as Hctl by (intros j; unfold control_of; by rewrite Hc).
  assert (∀ j, pos b' j = pos b j) as Hpos by (intros j; unfold pos; by rewrite Hctl).
  split.
  - rewrite Hc. apply Hb.
  - intros j Hj. apply (rep_dom _ _ Hb). unfold upd in Hj. case_decide; [subst; by rewrite HA|done].
  - intros j Hj. rewrite Hctl, <- (rep_valid _ _ Hb j Hj). unfold upd.
    case_decide; [subst; by rewrite HA|done].
  - intros j q Hj. rewrite Hpos, Hctl, Hl. unfold upd in Hj. case_decide; subst.
    + simplify_eq. destruct (rep_param _ _ Hb _ _ HA) as (_ & ? & ?). by rewrite Hk.
    + destruct (rep_param _ _ Hb _ _ Hj) as (? & ? & ?). split; [|done].
      apply Hother; [done| |done]. by apply (rep_apart _ _ Hb id j).
  - intros i j q r Hi Hj Hne. rewrite !Hpos. unfold upd in Hi, Hj.
    repeat case_decide; simplify_eq.
    + apply (proj2 (Hap _ _)). by apply (rep_apart _ _ Hb i id).
    + apply (proj2 (Hap' _ _)). by apply (rep_apart _ _ Hb id j).
    + by apply (rep_apart _ _ Hb i j).
Qed.

Lemma set_int_rep b A id v vmin vmax x :
  bufs_rep b A → A id = Some (PInt v vmin vmax) →
  bufs_rep (with_ints b (<[pos b id := x]> (b_ib b))) (upd A id (PInt x vmin vmax)).
Proof.
  intros Hb HA. destruct (rep_param _ _ Hb _ _ HA) as ((H1 & H2 & H3) & _).
  eapply bufs_rep_upd; [done|done|done|done|done| | | |].
  - by intros k [].
  - by intros k [].
  - split; [|done]. apply list_lookup_insert_eq. by eapply lookup_lt_Some.
  - intros j [w wmin wmax|cap data] Hj Hap Hp; [|done].
    simpl in *. destruct Hp as (? & ? & ?). by rewrite list_lookup_insert_ne.
Qed.

Lemma set_str_rep b A id cap data data' :
  bufs_rep b A → A id = Some (PStr cap data) → Z.of_nat (length data') ≤ cap →
  bufs_rep (with_strings b (patch (pos b id + 1) (Z.of_nat (length data') :: data') (b_sb b)))
    (upd A id (PStr cap data')).
Proof.
  intros Hb HA Hlen. destruct (rep_param _ _ Hb _ _ HA) as ((H1 & H2 & H3 & H4 & H5) & _ & _).
  assert (pos b id + 1 + length (Z.of_nat (length data') :: data') ≤ length (b_sb b))%nat as Hfit
    by (simpl; lia).
  eapply bufs_rep_upd; [done|done|done| |done| | | |].
  - simpl. by apply patch_length.
  - by intros k [].
  - by intros k [].
  - simpl. rewrite patch_length by done. split_and!; [| | |lia|lia|lia].
    + rewrite patch_outside by (simpl; lia). done.
    + replace (S (pos b id)) with (pos b id + 1 + 0)%nat by lia.
      by rewrite patch_inside by (simpl; lia).
    + apply list_eq. intros i. destruct (decide (i < length data')%nat) as [Hi|Hi].
      * rewrite lookup_take_lt, lookup_drop by done.
        replace (pos b id + 2 + i)%nat with (pos b id + 1 + S i)%nat by lia.
        by rewrite patch_inside by (simpl; lia).
      * rewrite !lookup_ge_None_2 by (rewrite ?length_take; lia). done.
  - intros j [w wmin wmax|cap' data''] Hj Hap Hp; [done|]. simpl in *.
    destruct Hp as (Hp1 & Hp2 & Hp3 & Hp4 & Hp5). rewrite patch_length by done.
    rewrite !patch_outside by (simpl; lia). split_and!; [done|done| |lia|lia|lia].
    rewrite <- Hp3 at 2. apply list_eq. intros i.
    destruct (decide (i < length data'')%nat) as [Hi|Hi].
    + rewrite !lookup_take_lt, !lookup_drop by done. apply patch_outside; simpl; lia.
    + rewrite !lookup_ge_None_2 by (rewrite ?length_take; lia). done.
Qed.

(** The status of a successful [cfg_check_valid] has been compared. *)
Ltac status_ok :=
  cbv beta iota; change (negb (eSIR_SUCCESS =? eSIR_SUCCESS)) with false; cbv iota.

(** The results of the operations: a status, with what was written. *)
Lemma cfg_set_int_ok ctl c A id x v vmin vmax :
  cfg_rep ctl c A → A id = Some (PInt v vmin vmax) →
  if decide (vmin ≤ x ≤ vmax) then
    ∃ c', cfg_set_int id x c = Some (eSIR_SUCCESS, c') ∧
      cfg_rep ctl c' (upd A id (PInt x vmin vmax)) ∧ cfg_frame c c'
  else cfg_set_int id x c = Some (eSIR_CFG_INVALID_ID, c).
Proof.
  intros (b & Hctl & Hs & Hb) HA. pose proof (check_valid_run c b A Hs Hb id _ HA) as Hck.
  destruct (rd_int c b A Hs Hb id _ _ _ HA) as (_ & Hmin & Hmax).
  assert (0 ≤ id < CFG_PARAM_MAX_NUM) as Hid by (eapply rep_dom; [done|by rewrite HA]).
  unfold cfg_set_int. rewrite (run_bind _ _ _ _ _ Hck). status_ok.
  rewrite run_deref_Some, (run_bind _ _ _ _ _ Hmin), Z.gtb_ltb.
  destruct (Z.ltb_spec x vmin); [rewrite decide_False by lia; done|].
  rewrite (run_bind _ _ _ _ _ Hmax).
  destruct (Z.ltb_spec vmax x); [rewrite decide_False by lia; done|rewrite decide_True by lia].
  destruct (rep_param _ _ Hb _ _ HA) as ((H1 & _) & _).
  pose proof Hs as (He & H2 & H3 & H4 & H5 & H6).
  rewrite (run_bind _ _ _ _ _ (wr_run gCfgIBuf set_gCfgIBuf c _ _ x H3 (lookup_lt_Some _ _ _ H1))).
  set (c1 := set_gCfgIBuf _ c). set (b1 := with_ints b (<[pos b id := x]> (b_ib b))).
  assert (store_bufs c1 b1) as Hs1 by (repeat split; done).
  pose proof (set_int_rep b A id _ _ _ x Hb HA) as Hb1.
  rewrite (run_bind _ _ _ _ _ (rd_entry c1 b1 _ Hs1 Hb1 id Hid)).
  destruct (notify_when c1 b1 id (has_flag (Z.land (control_of b1 id) CFG_CTL_NTF_MASK)
    CFG_CTL_NTF_MASK) (Z.land (control_of b1 id) CFG_CTL_NTF_MASK) Hs1) as (c2 & Hn & Hs2 & HF).
  cbv zeta. rewrite (run_bind _ _ _ _ _ Hn). exists c2. split_and!; [done| |done]. by exists b1.
Qed.

Lemma wlan_cfg_get_int_ok ctl c A id v vmin vmax :
  cfg_rep ctl c A → A id = Some (PInt v vmin vmax) →
  wlan_cfg_get_int id c = Some ((eSIR_SUCCESS, Some v), c).
Proof.
  intros (b & Hctl & Hs & Hb) HA. unfold wlan_cfg_get_int.
  rewrite (run_bind _ _ _ _ _ (check_valid_run c b A Hs Hb id _ HA)). status_ok.
  destruct (rd_int c b A Hs Hb id _ _ _ HA) as (Hv & _).
  by rewrite run_deref_Some, (run_bind _ _ _ _ _ Hv).
Qed.

Lemma cfg_set_str_ok ctl c A id data rest cap old (n : bool) :
  cfg_rep ctl c A → A id = Some (PStr cap old) →
  if decide (Z.of_nat (length data) ≤ cap) then
    ∃ c', cfg_set_str_notify id (data ++ rest) (Z.of_nat (length data)) n c = Some (eSIR_SUCCESS, c') ∧
      cfg_rep ctl c' (upd A id (PStr cap data)) ∧ cfg_frame c c'
  else
    cfg_set_str_notify id (data ++ rest) (Z.of_nat (length data)) n c = Some (eSIR_CFG_INVALID_LEN, c).
Proof.
  intros (b & Hctl & Hs & Hb) HA. pose proof (check_valid_run c b A Hs Hb id _ HA) as Hck.
  destruct (rep_param _ _ Hb _ _ HA) as ((H1 & H2 & H3 & H4 & H5) & _ & _).
  assert (0 ≤ id < CFG_PARAM_MAX_NUM) as Hid by (eapply rep_dom; [done|by rewrite HA]).
  unfold cfg_set_str_notify. rewrite (run_bind _ _ _ _ _ Hck). status_ok.
  rewrite run_deref_Some, (run_bind _ _ _ _ _ (rd_sb c b Hs _ _ H1)).
  rewrite (run_bind _ _ _ _ _ (rd_entry c b A Hs Hb id Hid)), Z.gtb_ltb.
  destruct (Z.ltb_spec cap (Z.of_nat (length data)));
    [rewrite decide_False by lia; done|rewrite decide_True by lia].
  rewrite wrap_small by lia.
  replace (Z.of_nat (pos b id) + 1) with (Z.of_nat (pos b id + 1)) by lia.
  replace (Z.of_nat (pos b id) + 2) with (Z.of_nat (pos b id + 1 + 1)) by lia.
  destruct (copy_to_run (Z.of_nat (length data) :: data) c b (pos b id + 1) rest Hs) as
    (c1 & Hrun & Hs1 & HF1); [simpl; lia|].
  rewrite <- app_comm_cons in Hrun. cbn [length copy_to_sbuf head tail] in Hrun.
  rewrite run_deref_Some in Hrun.
  pose proof Hs as (_ & Hsb & _).
  pose proof (wr_run gCfgSBuf set_gCfgSBuf c _ (pos b id + 1) (Z.of_nat (length data)) Hsb
    ltac:(lia)) as Hwr.
  rewrite (run_bind _ _ _ _ _ Hwr). rewrite (run_bind _ _ _ _ _ Hwr) in Hrun.
  replace (Z.of_nat (pos b id + 1) + 1) with (Z.of_nat (pos b id + 1 + 1)) in Hrun by lia.
  rewrite Nat2Z.id, (run_bind _ _ _ _ _ Hrun).
  destruct (notify_when c1 _ id (n && has_flag (Z.land (control_of b id) CFG_CTL_NTF_MASK)
    CFG_CTL_NTF_MASK) (Z.land (control_of b id) CFG_CTL_NTF_MASK) Hs1) as (c2 & Hn & Hs2 & HF2).
  assert (∀ m : CFG unit, when n (when (has_flag (Z.land (control_of b id) CFG_CTL_NTF_MASK)
    CFG_CTL_NTF_MASK) m) = when (n && has_flag (Z.land (control_of b id) CFG_CTL_NTF_MASK)
    CFG_CTL_NTF_MASK) m) as Hw by (by destruct n).
  cbv zeta. rewrite Hw, (run_bind _ _ _ _ _ Hn). exists c2.
  split_and!; [done| |by eauto using cfg_frame_trans]. eexists. split; [|split; [done|]]; [done|].
  by apply (set_str_rep b A id cap old data).
Qed.

Section reads.
Context (ctl : list Z) (c : tAniSirCfg) (A : params) (id cap : Z) (data : list Z).
Context (Hc : cfg_rep ctl c A) (HA : A id = Some (PStr cap data)).

Lemma wlan_cfg_get_str_ok maxLen :
  wlan_cfg_get_str id maxLen c =
    Some (if maxLen <? Z.of_nat (length data) then (eSIR_CFG_INVALID_LEN, None)
          else (eSIR_SUCCESS, Some data), c).
Proof.
  destruct Hc as (b & _ & Hs & Hb). destruct (rep_param _ _ Hb _ _ HA) as ((H1 & H2 & H3 & H4 & H5) & _).
  unfold wlan_cfg_get_str. rewrite (run_bind _ _ _ _ _ (check_valid_run c b A Hs Hb id _ HA)).
  status_ok. rewrite run_deref_Some.
  replace (Z.of_nat (pos b id) + 1) with (Z.of_nat (S (pos b id))) by lia.
  rewrite (run_bind _ _ _ _ _ (rd_sb c b Hs _ _ H2)). destruct (_ <? _); [done|].
  replace (Z.of_nat (pos b id) + 2) with (Z.of_nat (pos b id + 2)) by lia.
  rewrite Nat2Z.id, (run_bind _ _ _ _ _ (copy_from_run c b Hs (length data) (pos b id + 2) ltac:(lia))). by rewrite H3.
Qed.

Lemma wlan_cfg_get_str_max_len_ok :
  wlan_cfg_get_str_max_len id c = Some ((eSIR_SUCCESS, Some cap), c).
Proof.
  destruct Hc as (b & _ & Hs & Hb). destruct (rep_param _ _ Hb _ _ HA) as ((H1 & _) & _).
  unfold wlan_cfg_get_str_max_len.
  rewrite (run_bind _ _ _ _ _ (check_valid_run c b A Hs Hb id _ HA)). status_ok.
  by rewrite run_deref_Some, (run_bind _ _ _ _ _ (rd_sb c b Hs _ _ H1)).
Qed.

Lemma wlan_cfg_get_str_len_ok :
  wlan_cfg_get_str_len id c = Some ((eSIR_SUCCESS, Some (Z.of_nat (length data))), c).
Proof.
  destruct Hc as (b & _ & Hs & Hb). destruct (rep_param _ _ Hb _ _ HA) as ((_ & H2 & _) & _).
  unfold wlan_cfg_get_str_len.
  rewrite (run_bind _ _ _ _ _ (check_valid_run c b A Hs Hb id _ HA)). status_ok.
  rewrite run_deref_Some. replace (Z.of_nat (pos b id) + 1) with (Z.of_nat (S (pos b id))) by lia.
  by rewrite (run_bind _ _ _ _ _ (rd_sb c b Hs _ _ H2)).
Qed.
End reads.

(** * Sequences of calls *)

Inductive cfg_op : Type :=
| OpSetInt (id v : Z)
| OpGetInt (id : Z)
| OpSetStr (id : Z) (data : list Z)
| OpGetStr (id maxLen : Z)
| OpGetStrLen (id : Z)
| OpGetStrMaxLen (id : Z).

Definition op_id (op : cfg_op) : Z :=
  match op with
  | OpSetInt id _ | OpGetInt id | OpSetStr id _ | OpGetStr id _ | OpGetStrLen id
  | OpGetStrMaxLen id => id
  end.

Inductive cfg_res : Type :=
| RNone
| RInt (v : Z)
| RStr (data : list Z).

Definition cfg_exec (op : cfg_op) : CFG (Z * cfg_res) :=
  match op with
  | OpSetInt id v => st ← cfg_set_int id v; mret (st, RNone)
  | OpGetInt id => '(st, o) ← wlan_cfg_get_int id; mret (st, from_option RInt RNone o)
  | OpSetStr id data => st ← cfg_set_str id data (Z.of_nat (length data)); mret (st, RNone)
  | OpGetStr id n => '(st, o) ← wlan_cfg_get_str id n; mret (st, from_option RStr RNone o)
  | OpGetStrLen id => '(st, o) ← wlan_cfg_get_str_len id; mret (st, from_option RInt RNone o)
  | OpGetStrMaxLen id =>
      '(st, o) ← wlan_cfg_get_str_max_len id; mret (st, from_option RInt RNone o)
  end.

(** The same call on the parameters; [None] for an integer access to a string
    or the converse, and for a negative identifier. *)
Definition cfg_spec (op : cfg_op) (A : params) : option (Z * cfg_res * params) :=
  if op_id op <? 0 then None
  else
    match A (op_id op), op with
    | None, _ => Some (eSIR_CFG_INVALID_ID, RNone, A)
    | Some (PInt v vmin vmax), OpSetInt id x =>
        Some (if decide (vmin ≤ x ≤ vmax) then (eSIR_SUCCESS, RNone, upd A id (PInt x vmin vmax))
              else (eSIR_CFG_INVALID_ID, RNone, A))
    | Some (PInt v vmin vmax), OpGetInt _ => Some (eSIR_SUCCESS, RInt v, A)
    | Some (PStr cap _), OpSetStr id data =>
        Some (if decide (Z.of_nat (length data) ≤ cap) then
                (eSIR_SUCCESS, RNone, upd A id (PStr cap data))
              else (eSIR_CFG_INVALID_LEN, RNone, A))
    | Some (PStr _ data), OpGetStr _ n =>
        Some (if n <? Z.of_nat (length data) then (eSIR_CFG_INVALID_LEN, RNone, A)
              else (eSIR_SUCCESS, RStr data, A))
    | Some (PStr _ data), OpGetStrLen _ => Some (eSIR_SUCCESS, RInt (Z.of_nat (length data)), A)
    | Some (PStr cap _), OpGetStrMaxLen _ => Some (eSIR_SUCCESS, RInt cap, A)
    | _, _ => None
    end.

Fixpoint cfg_execs (ops : list cfg_op) : CFG (list (Z * cfg_res)) :=
  match ops with
  | [] => mret []
  | op :: ops => r ← cfg_exec op; rs ← cfg_execs ops; mret (r :: rs)
  end.

Fixpoint cfg_specs (ops : list cfg_op) (A : params) : option (list (Z * cfg_res) * params) :=
  match ops with
  | [] => Some ([], A)
  | op :: ops =>
      '(r, A) ← cfg_spec op A;
      '(rs, A) ← cfg_specs ops A;
      Some (r :: rs, A)
  end.

Lemma cfg_exec_absent ctl c A op :
  cfg_rep ctl c A → 0 ≤ op_id op → A (op_id op) = None →
  cfg_exec op c = Some ((eSIR_CFG_INVALID_ID, RNone), c).
Proof.
  intros (b & _ & Hs & Hb) Hid HA.
  destruct (check_invalid_run c b A Hs Hb _ Hid HA) as [o Hck].
  destruct op; simpl in *; unfold cfg_set_int, wlan_cfg_get_int, cfg_set_str, cfg_set_str_notify,
    wlan_cfg_get_str, wlan_cfg_get_str_len, wlan_cfg_get_str_max_len;
    rewrite ?run_assoc, (run_bind _ _ _ _ _ Hck); done.
Qed.

Lemma cfg_exec_refines ctl c A op r A' :
  cfg_rep ctl c A → cfg_spec op A = Some (r, A') →
  ∃ c', cfg_exec op c = Some (r, c') ∧ cfg_rep ctl c' A'.
Proof.
  intros Hc. unfold cfg_spec. destruct (Z.ltb_spec (op_id op) 0) as [|Hid]; [done|].
  destruct (A (op_id op)) as [p|] eqn:HA.
  - destruct p as [v vmin vmax|cap data], op as [id x|id|id str|id n|id|id]; simpl in HA; try done;
      intros H; simpl.
    + pose proof (cfg_set_int_ok ctl c A id x _ _ _ Hc HA) as Hop. case_decide; simplify_eq.
      * destruct Hop as (c' & Hrun & ? & _). rewrite (run_bind _ _ _ _ _ Hrun). by exists c'.
      * rewrite (run_bind _ _ _ _ _ Hop). by exists c.
    + pose proof (wlan_cfg_get_int_ok ctl c A id _ _ _ Hc HA) as Hop. simplify_eq.
      rewrite (run_bind _ _ _ _ _ Hop). by exists c.
    + pose proof (cfg_set_str_ok ctl c A id str [] _ _ true Hc HA) as Hop.
      rewrite app_nil_r in Hop. case_decide; simplify_eq.
      * destruct Hop as (c' & Hrun & ? & _). rewrite (run_bind _ _ _ _ _ Hrun). by exists c'.
      * rewrite (run_bind _ _ _ _ _ Hop). by exists c.
    + pose proof (wlan_cfg_get_str_ok ctl c A id _ _ Hc HA n) as Hop.
      rewrite (run_bind _ _ _ _ _ Hop). destruct (_ <? _); simplify_eq; by exists c.
    + pose proof (wlan_cfg_get_str_len_ok ctl c A id _ _ Hc HA) as Hop. simplify_eq.
      rewrite (run_bind _ _ _ _ _ Hop). by exists c.
    + pose proof (wlan_cfg_get_str_max_len_ok ctl c A id _ _ Hc HA) as Hop. simplify_eq.
      rewrite (run_bind _ _ _ _ _ Hop). by exists c.
  - intros H. assert (r = (eSIR_CFG_INVALID_ID, RNone) ∧ A' = A) as [-> ->] by (by destruct op; simplify_eq).
    exists c. split; [|done]. by apply cfg_exec_absent with (ctl := ctl) (A := A).
Qed.

(** C13. The configuration store implements a map from identifiers to typed
    parameters.  For every sequence of calls that set or get integers and
    strings, each call on a parameter of its own type or on an identifier that
    names none, the statuses and results are those of the map: an integer is
    stored exactly when it lies within its limits, a string exactly when it
    fits its capacity, a read returns what was stored last, a string longer
    than the reader's buffer is refused, an invalid identifier is refused, and
    no call touches another parameter. *)
Theorem cfg_store_refines_map ctl c A ops rs A' :
  cfg_rep ctl c A → cfg_specs ops A = Some (rs, A') →
  ∃ c', cfg_execs ops c = Some (rs, c') ∧ cfg_rep ctl c' A'.
Proof.
  revert c A rs A'. induction ops as [|op ops IH]; intros c A rs A' Hc H; simpl in *.
  - simplify_eq. by exists c.
  - destruct (cfg_spec op A) as [[r A1]|] eqn:Hop; simpl in H; [|done].
    destruct (cfg_specs ops A1) as [[rs1 A2]|] eqn:Hops; simpl in H; [|done]. simplify_eq.
    destruct (cfg_exec_refines ctl c A op r A1 Hc Hop) as (c1 & Hrun & Hc1).
    destruct (IH c1 A1 rs1 A' Hc1 Hops) as (c2 & Hrun2 & Hc2).
    rewrite (run_bind _ _ _ _ _ Hrun), (run_bind _ _ _ _ _ Hrun2). by exists c2.
Qed.

(** The interface between the configuration store and its readers: what a
    component that only reads integer parameters relies on.  The store of
    [Cfg.v] is an instance. *)

(** A state in which integer parameters can be read.  [int_param s id o] says
    that the parameter [id] is the integer [o], or names none when [o] is
    [None]. *)
Class CfgReader (S : Type) : Type := {
  reader_get_int : Z → CM S (Z * option Z);
  int_param : S → Z → option Z → Prop;
}.

(** What a read returns; it changes nothing. *)
Class CfgReaderLaws (S : Type) {R : CfgReader S} : Prop := {
  reader_get_some s id v :
    int_param s id (Some v) → reader_get_int id s = Some ((eSIR_SUCCESS, Some v), s);
  reader_get_none s id :
    int_param s id None → ∃ st, st ≠ eSIR_SUCCESS ∧ reader_get_int id s = Some ((st, None), s);
}.

(** The abstract parameter is an integer, or there is none. *)
Definition store_int_param (c : tAniSirCfg) (id : Z) (o : option Z) : Prop :=
  ∃ ctl A, cfg_rep ctl c A ∧ 0 ≤ id ∧
    match o with
    | Some v => ∃ vmin vmax, A id = Some (PInt v vmin vmax)
    | None => A id = None
    end.

#[export] Instance store_reader : CfgReader tAniSirCfg := {|
  reader_get_int := wlan_cfg_get_int;
  int_param := store_int_param;
|}.

Lemma wlan_cfg_get_int_absent ctl c A id :
  cfg_rep ctl c A → 0 ≤ id → A id = None →
  wlan_cfg_get_int id c = Some ((eSIR_CFG_INVALID_ID, None), c).
Proof.
  intros (b & _ & Hs & Hb) Hid HA.
  destruct (check_invalid_run c b A Hs Hb id Hid HA) as [o Ho].
  unfold wlan_cfg_get_int. by rewrite (run_bind _ _ _ _ _ Ho).
Qed.

#[export] Instance store_reader_laws : CfgReaderLaws tAniSirCfg.
Proof.
  split.
  - intros c id v (ctl & A & Hc & _ & vmin & vmax & HA). by eapply wlan_cfg_get_int_ok.
  - intros c id (ctl & A & Hc & Hid & HA). exists eSIR_CFG_INVALID_ID.
    split; [done|]. by eapply wlan_cfg_get_int_absent.
Qed.
