(* ===== verification/CfgMsg.v ===== *)
(** The messages of the configuration store: [cfg_process_mb_msg] and the
    request handlers of [core/mac/src/cfg/cfg_proc_msg.c], and
    [cfg_send_host_msg] of [cfg_send_msg.c].

    A message body is the list of the 32-bit words that follow its header; a
    read past its end has no result.  The host is little-endian. *)
From S2P Require Import Prelude Cfg CfgBoot.

(** * Constants of [wni_api.h] *)

Definition WNI_CFG_NOT_READY : Z := 2.
Definition WNI_CFG_INVALID_PID : Z := 3.
Definition WNI_CFG_INVALID_LEN : Z := 4.
Definition WNI_CFG_RO_PARAM : Z := 5.
Definition WNI_CFG_WO_PARAM : Z := 6.
Definition WNI_CFG_OTHER_ERROR : Z := 8.
Definition WNI_CFG_NEED_RESTART : Z := 9.
Definition WNI_CFG_NEED_RELOAD : Z := 10.

Definition WNI_CFG_MB_HDR_LEN : Z := 4.
Definition WNI_CFG_PARAM_UPDATE_IND : Z := 0x1500.
Definition WNI_CFG_DNLD_REQ : Z := 0x1501.
Definition WNI_CFG_DNLD_CNF : Z := 0x1502.
Definition WNI_CFG_GET_RSP : Z := 0x1503.
Definition WNI_CFG_SET_CNF : Z := 0x1504.
Definition WNI_CFG_DNLD_CNF_NUM : Z := 1.
Definition WNI_CFG_DNLD_CNF_LEN : Z := WNI_CFG_MB_HDR_LEN + Z.shiftl WNI_CFG_DNLD_CNF_NUM 2.
Definition WNI_CFG_GET_RSP_RES : Z := 0.
Definition WNI_CFG_GET_RSP_PID : Z := 1.
Definition WNI_CFG_GET_RSP_PLEN : Z := 2.
Definition WNI_CFG_GET_RSP_NUM : Z := 3.
Definition WNI_CFG_GET_RSP_PARTIAL_LEN : Z :=
  WNI_CFG_MB_HDR_LEN + Z.shiftl WNI_CFG_GET_RSP_NUM 2.
Definition WNI_CFG_SET_CNF_RES : Z := 0.
Definition WNI_CFG_SET_CNF_PID : Z := 1.
Definition WNI_CFG_SET_CNF_NUM : Z := 2.
Definition WNI_CFG_SET_CNF_LEN : Z := WNI_CFG_MB_HDR_LEN + Z.shiftl WNI_CFG_SET_CNF_NUM 2.

(** [sizeof(pMac->cfg.gSBuffer)], the size of a pointer. *)
Definition sizeof_gSBuffer : Z := 8.

(** * Bytes and words *)

(** [sir_read_u32_n] of the bytes of a word in memory. *)
Definition sir_read_u32_n (w : Z) : Z :=
  Z.lor (Z.shiftl (Z.land w 255) 24)
    (Z.lor (Z.shiftl (Z.land (Z.shiftr w 8) 255) 16)
      (Z.lor (Z.shiftl (Z.land (Z.shiftr w 16) 255) 8) (Z.land (Z.shiftr w 24) 255))).

(** Byte [i] of a sequence of words, and the words of a sequence of bytes. *)
Definition byte_of (ws : list Z) (i : nat) : option Z :=
  w ← ws !! (i / 4)%nat; Some (Z.land (Z.shiftr w (8 * Z.of_nat (i mod 4)%nat)) 255).

Fixpoint words_of (n : nat) (bs : list Z) : option (list Z) :=
  match n, bs with
  | O, _ => Some []
  | S n, b0 :: b1 :: b2 :: b3 :: bs =>
      ws ← words_of n bs;
      Some (Z.lor b0 (Z.lor (Z.shiftl b1 8) (Z.lor (Z.shiftl b2 16) (Z.shiftl b3 24))) :: ws)
  | _, _ => None
  end.

(** [((len + 3) >> 2) << 2] *)
Definition round_up4 (len : Z) : Z := Z.shiftl (Z.shiftr (len + 3) 2) 2.

(** * Messages to the host *)

(** The switch on the message type. *)
Definition known_msg (msgType : Z) : bool :=
  existsb (Z.eqb msgType) [WNI_CFG_GET_RSP; WNI_CFG_PARAM_UPDATE_IND; WNI_CFG_DNLD_REQ;
    WNI_CFG_DNLD_CNF; WNI_CFG_SET_CNF].

(** * The download response *)

Definition CFG_STA_MAGIC_DWORD : Z := 0xbeefbeef.

(** [while (pDst < pDstEnd) *pDst++ = *pSrc++;] from position [i], [n] words;
    the words that are left. *)
Fixpoint copy_words (f : tAniSirCfg → option (list Z))
    (set_f : option (list Z) → tAniSirCfg → tAniSirCfg) (n i : nat) (pSrc : list Z) :
    CFG (list Z) :=
  match n with
  | O => mret pSrc
  | S n =>
      w ← deref (head pSrc);
      wr f set_f (Z.of_nat i) w;;
      copy_words f set_f n (S i) (tail pSrc)
  end.

(** The bytes of a word, the most significant first. *)
Definition bytes_be (w : Z) : list Z :=
  [Z.land (Z.shiftr w 24) 255; Z.land (Z.shiftr w 16) 255; Z.land (Z.shiftr w 8) 255;
   Z.land w 255].

(** The [while (strSize)] loop; whether it reached the end. *)
Fixpoint str_defaults_loop (fuel : nat) (strSize : Z) (pSrc : list Z) : CFG bool :=
  match fuel with
  | O => ub
  | S fuel =>
      if strSize =? 0 then mret true
      else if strSize <? 4 then mret false
      else
        w ← deref (head pSrc);
        let paramId := Z.shiftr w 16 in
        let paramLen := Z.land w 0xff in
        let pSrc := tail pSrc in
        let strSize := strSize - 4 in
        let paramLenCeil4 := Z.shiftr (paramLen + 3) 2 in
        if strSize <? Z.shiftl paramLenCeil4 2 then mret false
        else
          let n := Z.to_nat paramLenCeil4 in
          if (length pSrc <? n)%nat then ub
          else
            st ← cfg_set_str (u16 paramId) (concat (bytes_be <$> take n pSrc)) paramLen;
            if negb (st =? eSIR_SUCCESS) then mret false
            else str_defaults_loop fuel (strSize - 4 * paramLenCeil4) (drop n pSrc)
  end.

(** The checks and copies of [proc_dnld_rsp] up to its label [end]: [retVal]. *)
Definition dnld_body (length : Z) (pParam : list Z) : CFG Z :=
  magic ← deref (head pParam);
  if negb (magic =? CFG_STA_MAGIC_DWORD) then mret WNI_CFG_INVALID_LEN
  else
    let length := u16 (length - 4) in
    controlSize ← deref (pParam !! 2%nat);
    iBufSize ← deref (pParam !! 3%nat);
    sBufSize ← deref (pParam !! 4%nat);
    iMax ← gets gCfgMaxIBufSize;
    let expLen := u32 (Z.shiftl (CFG_PARAM_MAX_NUM + 3 * iMax) 2 + sBufSize + 16) in
    if negb (length =? expLen) then mret WNI_CFG_INVALID_LEN
    else if negb (controlSize =? CFG_PARAM_MAX_NUM) then mret WNI_CFG_INVALID_LEN
    else if negb (iBufSize =? iMax) then mret WNI_CFG_INVALID_LEN
    else
      let n := Z.to_nat iMax in
      pSrc ← copy_words gCfgEntry set_gCfgEntry (Z.to_nat CFG_PARAM_MAX_NUM) 0 (drop 5 pParam);
      pSrc ← copy_words gCfgIBuf set_gCfgIBuf n 0 pSrc;
      pSrc ← copy_words gCfgIBufMin set_gCfgIBufMin n 0 pSrc;
      pSrc ← copy_words gCfgIBufMax set_gCfgIBufMax n 0 pSrc;
      bufEnd ← gets gCfgMaxSBufSize;
      capacity_loop (reverse (seqZ 0 CFG_PARAM_MAX_NUM)) bufEnd;;
      ok ← str_defaults_loop (S (Z.to_nat sBufSize)) sBufSize pSrc;
      if negb ok then mret WNI_CFG_INVALID_LEN
      else
        '(_, logLevel) ← wlan_cfg_get_int WNI_CFG_LOG_LEVEL;
        logLevel ← deref logLevel;
        modify (λ c, set_gLogLevel (replicate (List.length (gLogLevel c)) logLevel) c);;
        modify (set_gCfgStatus CFG_SUCCESS);;
        mret WNI_CFG_SUCCESS.

Section msg.
(** Whether message buffers are allocated. *)
Context (alloc : bool).

Definition cfg_send_host_msg (msgType msgLen paramNum : Z) (pParamList : option (list Z))
    (dataLen : Z) (pData : option (list Z)) : CFG unit :=
  if (paramNum >? 0) && bool_decide (pParamList = None) then mret tt
  else if (dataLen >? 0) && bool_decide (pData = None) then mret tt
  else if negb alloc then mret tt
  else if negb (known_msg msgType) then mret tt
  else
    let params := match pParamList with
                  | None => Some []
                  | Some l => if (Z.to_nat paramNum <=? length l)%nat
                              then Some (take (Z.to_nat paramNum) l) else None
                  end in
    let words := Z.to_nat (Z.shiftr dataLen 2) in
    let data := match pData with
                | None => Some []
                | Some l => if (words <=? length l)%nat then Some (take words l) else None
                end in
    params ← deref params;
    data ← deref data;
    if 4 + 4 * Z.of_nat (length params + length data) >? msgLen then ub
    else log_cfg (CfgHostMsg msgType msgLen params data).

(** * Requests *)

(** The answer, and the result when it is written. *)
Definition check_param (cfgId flag failedResult : Z) : CFG (bool * option Z) :=
  if cfgId >=? CFG_PARAM_MAX_NUM then mret (false, Some WNI_CFG_INVALID_PID)
  else
    control ← rd gCfgEntry cfgId;
    if Z.land control CFG_CTL_VALID =? 0 then mret (false, Some WNI_CFG_INVALID_PID)
    else if Z.land control flag =? 0 then mret (false, Some failedResult)
    else mret (true, None).

(** The [while (pValue < pEnd)] loop: bytes [i ..] of the message, [n] of them. *)
Fixpoint get_str_value (n i : nat) (pBuf : list Z) : CFG unit :=
  match n with
  | O => mret tt
  | S n =>
      b ← deref (byte_of pBuf i);
      wr gSBuffer set_gSBuffer (Z.of_nat i) b;;
      get_str_value n (S i) pBuf
  end.

(** What a successful set answers. *)
Definition set_result (cfgId st : Z) : CFG Z :=
  if negb (st =? eSIR_SUCCESS) then mret WNI_CFG_OTHER_ERROR
  else
    restart ← cfg_need_restart cfgId;
    if (restart : bool) then mret WNI_CFG_NEED_RESTART
    else
      reload ← cfg_need_reload cfgId;
      mret (if (reload : bool) then WNI_CFG_NEED_RELOAD else WNI_CFG_SUCCESS).

(** One TLV of a set request: its value is at [pParam], [length] bytes of the
    message remain. *)
Definition set_one (cfgId valueLen length : Z) (pParam : list Z) : CFG Z :=
  '(ok, _) ← check_param cfgId CFG_CTL_WE WNI_CFG_RO_PARAM;
  if negb ok then mret WNI_CFG_INVALID_LEN
  else
    control ← rd gCfgEntry cfgId;
    if has_flag control CFG_CTL_INT then
      if negb (valueLen =? 4) then mret WNI_CFG_INVALID_LEN
      else
        value ← deref (head pParam);
        st ← cfg_set_int cfgId value;
        set_result cfgId st
    else if u16 (round_up4 valueLen) >? length then mret WNI_CFG_INVALID_LEN
    else
      get_str_value (Z.to_nat valueLen) 0 pParam;;
      buf ← gets gSBuffer;
      buf ← deref buf;
      st ← cfg_set_str cfgId buf valueLen;
      set_result cfgId st.

Definition send_set_cnf (result cfgId : Z) (fRsp : bool) : CFG unit :=
  wr gParamList set_gParamList WNI_CFG_SET_CNF_RES result;;
  wr gParamList set_gParamList WNI_CFG_SET_CNF_PID cfgId;;
  l ← gets gParamList;
  when fRsp (cfg_send_host_msg WNI_CFG_SET_CNF WNI_CFG_SET_CNF_LEN WNI_CFG_SET_CNF_NUM l 0 None).

(** The [while (length >= (sizeof(uint32_t) * 2))] loop. *)
Fixpoint set_req_loop (fuel : nat) (length : Z) (pParam : list Z) (fRsp : bool) : CFG unit :=
  match fuel with
  | O => ub
  | S fuel =>
      if length <? 8 then mret tt
      else
        w0 ← deref (pParam !! 0%nat);
        w1 ← deref (pParam !! 1%nat);
        let cfgId := u16 w0 in
        let valueLen := u16 w1 in
        let pParam := drop 2 pParam in
        let length := length - 8 in
        let valueLenRoundedUp4 := u16 (round_up4 valueLen) in
        result ← set_one cfgId valueLen length pParam;
        send_set_cnf result cfgId fRsp;;
        if valueLenRoundedUp4 >? length then set_req_loop fuel 0 pParam fRsp
        else set_req_loop fuel (length - valueLenRoundedUp4)
               (drop (Z.to_nat (Z.shiftr valueLenRoundedUp4 2)) pParam) fRsp
  end.

(** Every turn consumes 8 bytes of [length].  The length is a uint16_t in the
    code, so its values are the [length] from 0 to 65535; nothing below depends on
    the bound. *)
Definition proc_set_req_internal (length : Z) (pParam : list Z) (fRsp : bool) : CFG unit :=
  status ← gets gCfgStatus;
  if status =? CFG_INCOMPLETE then
    w ← deref (head pParam);
    send_set_cnf WNI_CFG_NOT_READY (u16 (sir_read_u32_n w)) fRsp
  else set_req_loop (S (Z.to_nat length)) length pParam fRsp.

Definition proc_set_req (length : Z) (pParam : list Z) : CFG unit :=
  proc_set_req_internal length pParam true.
Definition proc_set_req_no_rsp (length : Z) (pParam : list Z) : CFG unit :=
  proc_set_req_internal length pParam false.

(** Writing the bytes of a string to [gSBuffer]. *)
Fixpoint fill_gSBuffer (i : nat) (bs : list Z) : CFG unit :=
  match bs with
  | [] => mret tt
  | b :: bs => wr gSBuffer set_gSBuffer (Z.of_nat i) b;; fill_gSBuffer (S i) bs
  end.

(** One parameter of a get request: [result], [valueLen] and the words at
    [pValue]. *)
Definition get_one (cfgId : Z) : CFG (Z * Z * option (list Z)) :=
  '(ok, _) ← check_param cfgId CFG_CTL_RE WNI_CFG_WO_PARAM;
  if negb ok then mret (WNI_CFG_INVALID_LEN, 0, None)
  else
    control ← rd gCfgEntry cfgId;
    if has_flag control CFG_CTL_INT then
      '(st, value) ← wlan_cfg_get_int cfgId;
      value ← deref value;
      mret (if st =? eSIR_SUCCESS then WNI_CFG_SUCCESS else WNI_CFG_OTHER_ERROR, 4, Some [value])
    else
      '(st, bs) ← wlan_cfg_get_str cfgId sizeof_gSBuffer;
      fill_gSBuffer 0 (default [] bs);;
      let valueLen := match bs with
                      | Some bs => Z.of_nat (length bs)
                      | None => sizeof_gSBuffer
                      end in
      buf ← gets gSBuffer;
      buf ← deref buf;
      ws ← deref (words_of (Z.to_nat (Z.shiftr (round_up4 valueLen) 2)) buf);
      mret (if st =? eSIR_SUCCESS then WNI_CFG_SUCCESS else WNI_CFG_OTHER_ERROR, valueLen,
        Some ws).

Definition put_get_rsp (result cfgId valueLen : Z) : CFG unit :=
  wr gParamList set_gParamList WNI_CFG_GET_RSP_RES result;;
  wr gParamList set_gParamList WNI_CFG_GET_RSP_PID cfgId;;
  wr gParamList set_gParamList WNI_CFG_GET_RSP_PLEN valueLen.

(** Body of the loop: the parameter is read and the response sent. *)
Definition get_step (cfgId : Z) : CFG unit :=
  '(result, valueLen, pValue) ← get_one cfgId;
  put_get_rsp result cfgId valueLen;;
  l ← gets gParamList;
  cfg_send_host_msg WNI_CFG_GET_RSP (WNI_CFG_GET_RSP_PARTIAL_LEN + round_up4 valueLen)
    WNI_CFG_GET_RSP_NUM l (round_up4 valueLen) pValue.

(** The [while (length >= sizeof(uint32_t))] loop. *)
Fixpoint get_req_loop (fuel : nat) (length : Z) (pParam : list Z) : CFG unit :=
  match fuel with
  | O => ub
  | S fuel =>
      if length <? 4 then mret tt
      else
        w ← deref (head pParam);
        get_step (u16 w);;
        get_req_loop fuel (length - 4) (tail pParam)
  end.

Definition proc_get_req (length : Z) (pParam : list Z) : CFG unit :=
  status ← gets gCfgStatus;
  if status =? CFG_INCOMPLETE then
    w ← deref (head pParam);
    put_get_rsp WNI_CFG_NOT_READY (u16 (sir_read_u32_n w)) 0;;
    l ← gets gParamList;
    cfg_send_host_msg WNI_CFG_GET_RSP WNI_CFG_GET_RSP_PARTIAL_LEN WNI_CFG_GET_RSP_NUM l 0 None
  else get_req_loop (S (Z.to_nat length)) length pParam.

Definition proc_dnld_rsp (length : Z) (pParam : list Z) : CFG unit :=
  retVal ← dnld_body length pParam;
  when (negb (retVal =? WNI_CFG_SUCCESS)) (modify (set_gCfgStatus CFG_FAILURE));;
  wr gParamList set_gParamList WNI_CFG_DNLD_CNF_RES retVal;;
  l ← gets gParamList;
  cfg_send_host_msg WNI_CFG_DNLD_CNF WNI_CFG_DNLD_CNF_LEN WNI_CFG_DNLD_CNF_NUM l 0 None;;
  log_cfg CfgDownloadComplete.

(** [cfg_process_mb_msg] of a message with its type, its length and the words
    after its header; the index selects in [g_cfg_func]. *)
Definition cfg_process_mb_msg (type msgLen : Z) (pParam : list Z) : CFG unit :=
  let index := Z.land type 0x7f in
  let len := u16 (msgLen - WNI_CFG_MB_HDR_LEN) in
  if index >=? 4 then mret tt
  else if index =? 0 then proc_dnld_rsp len pParam
  else if index =? 1 then proc_get_req len pParam
  else if index =? 2 then proc_set_req len pParam
  else proc_set_req_no_rsp len pParam.
End msg.
