(* ===== verification/CfgMsgProofs.v ===== *)
(** The request messages of the configuration store, as operations on its
    parameters. *)
From S2P Require Import Prelude Cfg CfgBoot CfgProofs CfgMsg.

(** * Bytes packed in words *)

Definition le_word (a b c d : Z) : Z := a + 256 * (b + 256 * (c + 256 * d)).

(** The words that hold a value in a message, the last one padded with zeros. *)
Fixpoint pack (l : list Z) : list Z :=
  match l with
  | a :: b :: c :: d :: l => le_word a b c d :: pack l
  | [a; b; c] => [le_word a b c 0]
  | [a; b] => [le_word a b 0 0]
  | [a] => [le_word a 0 0 0]
  | [] => []
  end.

Definition is_byte (x : Z) : Prop := 0 ≤ x < 256.

Lemma byte_of_div w k :
  0 ≤ k → Z.land (Z.shiftr w (8 * k)) 255 = (w / 256 ^ k) mod 256.
Proof.
  intros Hk. change 255 with (Z.ones 8). rewrite Z.land_ones, Z.shiftr_div_pow2 by lia.
  change (2 ^ 8) with 256. by rewrite Z.pow_mul_r by lia.
Qed.

Lemma le_word_bytes a b c d i :
  is_byte a → is_byte b → is_byte c → is_byte d → (i < 4)%nat →
  byte_of [le_word a b c d] i = [a; b; c; d] !! i.
Proof.
  unfold is_byte, le_word. intros Ha Hb Hc Hd Hi. unfold byte_of.
  rewrite Nat.div_small, Nat.mod_small by done. simpl. rewrite byte_of_div by lia.
  destruct i as [|[|[|[|i]]]]; simpl; [| | | |lia]; f_equal;
    [change (256 ^ Z.of_nat 0) with 1|change (256 ^ Z.of_nat 1) with 256
    |change (256 ^ Z.of_nat 2) with 65536|change (256 ^ Z.of_nat 3) with 16777216];
    Z.div_mod_to_equations; lia.
Qed.

Lemma byte_of_head w ws i : (i < 4)%nat → byte_of (w :: ws) i = byte_of [w] i.
Proof. intros Hi. unfold byte_of. by rewrite Nat.div_small by done. Qed.

Lemma byte_of_tail w ws i : byte_of (w :: ws) (4 + i) = byte_of ws i.
Proof.
  unfold byte_of. replace (4 + i)%nat with (i + 1 * 4)%nat by lia.
  rewrite Nat.div_add, Nat.Div0.mod_add by lia. by rewrite Nat.add_1_r.
Qed.

Lemma list_ind4 (P : list Z → Prop) :
  P [] → (∀ a, P [a]) → (∀ a b, P [a; b]) → (∀ a b c, P [a; b; c]) →
  (∀ a b c d l, P l → P (a :: b :: c :: d :: l)) → ∀ l, P l.
Proof.
  intros H0 H1 H2 H3 H4. fix IH 1. intros [|a [|b [|c [|d l]]]].
  - exact H0.
  - apply H1.
  - apply H2.
  - apply H3.
  - apply H4, IH.
Qed.

Lemma pack_length l : Z.of_nat (length (pack l)) = (Z.of_nat (length l) + 3) / 4.
Proof.
  induction l using list_ind4; try done. cbn [pack length]. rewrite !Nat2Z.inj_succ, IHl.
  Z.div_mod_to_equations. lia.
Qed.

Lemma byte_of_pack l rest i x :
  Forall is_byte l → l !! i = Some x → byte_of (pack l ++ rest) i = Some x.
Proof.
  revert i. induction l as [|a|a b|a b c|a b c d l IH] using list_ind4; intros i Hl Hi; [done|..];
    cbn [pack app]; rewrite !Forall_cons in Hl; destruct_and?.
  4: { destruct (decide (i < 4)%nat) as [Hlt|Hge].
    - rewrite byte_of_head, le_word_bytes by done. rewrite <- Hi.
      by rewrite (lookup_app_l [a; b; c; d] l) by done.
    - replace i with (4 + (i - 4))%nat in Hi |- * by lia. rewrite byte_of_tail. by apply IH. }
  all: pose proof (lookup_lt_Some _ _ _ Hi) as Hlt; simpl in Hlt;
    rewrite byte_of_head, le_word_bytes by first [done|lia|unfold is_byte; lia]; rewrite <- Hi.
  - by rewrite (lookup_app_l [a] [0; 0; 0]) by done.
  - by rewrite (lookup_app_l [a; b] [0; 0]) by done.
  - by rewrite (lookup_app_l [a; b; c] [0]) by done.
Qed.

Lemma round_up4_pack l : round_up4 (Z.of_nat (length l)) = 4 * Z.of_nat (length (pack l)).
Proof.
  unfold round_up4. rewrite Z.shiftl_mul_pow2, Z.shiftr_div_pow2, pack_length by lia.
  change (2 ^ 2) with 4. lia.
Qed.

(** * The static message buffers *)

Record msg_ok (c : tAniSirCfg) : Prop := {
  ok_buffer : ∃ buf, gSBuffer c = Some buf ∧ length buf = Z.to_nat CFG_MAX_STR_LEN;
  ok_params : ∃ pl, gParamList c = Some pl ∧ (3 ≤ length pl)%nat;
  ok_ready : gCfgStatus c ≠ CFG_INCOMPLETE;
}.

Lemma msg_ok_frame c c' : cfg_frame c c' → msg_ok c → msg_ok c'.
Proof. intros (H1 & H2 & H3 & _) [? ? ?]. split; [by rewrite H1|by rewrite H2|by rewrite H3]. Qed.

Lemma cfg_rep_buffer ctl c A buf : cfg_rep ctl c A → cfg_rep ctl (set_gSBuffer (Some buf) c) A.
Proof. intros (b & Hc & Hs & Hb). by exists b. Qed.

Lemma cfg_rep_params ctl c A pl : cfg_rep ctl c A → cfg_rep ctl (set_gParamList (Some pl) c) A.
Proof. intros (b & Hc & Hs & Hb). by exists b. Qed.

Lemma cfg_rep_log ctl c A l : cfg_rep ctl c A → cfg_rep ctl (set_cfg_log l c) A.
Proof. intros (b & Hc & Hs & Hb). by exists b. Qed.

(** Copying the value of a string to the static buffer. *)
Lemma get_str_value_run src i ws c buf :
  gSBuffer c = Some buf → (i + length src ≤ length buf)%nat →
  (∀ k x, src !! k = Some x → byte_of ws (i + k) = Some x) →
  get_str_value (length src) i ws c = Some (tt, set_gSBuffer (Some (patch i src buf)) c).
Proof.
  revert i c buf. induction src as [|x src IH]; intros i c buf Hb Hi Hsrc; cbn [length get_str_value].
  - unfold patch. simpl. rewrite Nat.add_0_r, take_drop. by destruct c; simpl in *; subst.
  - simpl in Hi. pose proof (Hsrc 0%nat x eq_refl) as H0. rewrite Nat.add_0_r in H0.
    rewrite H0, run_deref_Some.
    rewrite (run_bind _ _ _ _ _ (wr_run gSBuffer set_gSBuffer c buf i x Hb ltac:(lia))).
    rewrite (IH (S i) _ (<[i := x]> buf)); [|done|rewrite length_insert; lia|].
    + rewrite patch_cons by lia. done.
    + intros k y Hk. rewrite Nat.add_succ_comm. by apply Hsrc.
Qed.

(** * One value *)

Definition ctl_word (ctl : list Z) (id : Z) : Z := ctl !!! Z.to_nat id.

(** The value of an integer parameter in a message. *)
Definition le_value (data : list Z) : Z := default 0 (head (pack data)).

Definition success_result (ctl : list Z) (id : Z) : Z :=
  if has_flag (ctl_word ctl id) CFG_CTL_RESTART then WNI_CFG_NEED_RESTART
  else if has_flag (ctl_word ctl id) CFG_CTL_RELOAD then WNI_CFG_NEED_RELOAD
  else WNI_CFG_SUCCESS.

(** What setting [id] to the bytes [data] answers and does. *)
Definition set_spec (ctl : list Z) (A : params) (t : Z * list Z) : Z * params :=
  let '(id, data) := t in
  match A id with
  | None => (WNI_CFG_INVALID_LEN, A)
  | Some p =>
      if negb (has_flag (ctl_word ctl id) CFG_CTL_WE) then (WNI_CFG_INVALID_LEN, A)
      else
        match p with
        | PInt _ vmin vmax =>
            if negb (length data =? 4)%nat then (WNI_CFG_INVALID_LEN, A)
            else if decide (vmin ≤ le_value data ≤ vmax) then
              (success_result ctl id, upd A id (PInt (le_value data) vmin vmax))
            else (WNI_CFG_OTHER_ERROR, A)
        | PStr cap _ =>
            if decide (Z.of_nat (length data) ≤ cap) then
              (success_result ctl id, upd A id (PStr cap data))
            else (WNI_CFG_OTHER_ERROR, A)
        end
  end.

Section rep.
Context (ctl : list Z) (c : tAniSirCfg) (A : params) (Hc : cfg_rep ctl c A).

Lemma rd_ctl id :
  0 ≤ id < CFG_PARAM_MAX_NUM → rd gCfgEntry id c = Some (ctl_word ctl id, c).
Proof.
  intros Hid. destruct Hc as (b & <- & Hs & Hb). by apply (rd_entry c b A).
Qed.

Lemma in_range id p : A id = Some p → 0 ≤ id < CFG_PARAM_MAX_NUM.
Proof. intros HA. destruct Hc as (b & _ & _ & Hb). eapply rep_dom; [done|by rewrite HA]. Qed.

Lemma ctl_valid id :
  0 ≤ id < CFG_PARAM_MAX_NUM → (A id = None ↔ has_flag (ctl_word ctl id) CFG_CTL_VALID = false).
Proof. intros Hid. destruct Hc as (b & <- & _ & Hb). by apply (rep_valid b A). Qed.

Lemma ctl_int id p : A id = Some p → has_flag (ctl_word ctl id) CFG_CTL_INT = is_PInt p.
Proof. intros HA. destruct Hc as (b & <- & _ & Hb). by apply (rep_param b A Hb id p). Qed.

Lemma check_param_run id flag failed :
  0 ≤ id → ∃ o, check_param id flag failed c =
    Some ((match A id with Some _ => has_flag (ctl_word ctl id) flag | None => false end, o), c).
Proof.
  intros Hid. unfold check_param. rewrite Z.geb_leb.
  destruct (Z.leb_spec CFG_PARAM_MAX_NUM id) as [Hge|Hlt].
  - destruct (A id) as [p|] eqn:HA; [apply in_range in HA; lia|]. by eexists.
  - rewrite (run_bind _ _ _ _ _ (rd_ctl id ltac:(lia))).
    pose proof (ctl_valid id ltac:(lia)) as Hv. unfold has_flag in *.
    destruct (A id) as [p|], (Z.land (ctl_word ctl id) CFG_CTL_VALID =? 0); simpl in Hv;
      try (exfalso; by (apply proj1 in Hv; specialize (Hv eq_refl))); try by eexists.
    + exfalso. by apply proj2 in Hv; specialize (Hv eq_refl).
    + destruct (Z.land (ctl_word ctl id) flag =? 0); by eexists.
Qed.

Lemma need_run id :
  0 ≤ id < CFG_PARAM_MAX_NUM →
  cfg_need_restart id c = Some (has_flag (ctl_word ctl id) CFG_CTL_RESTART, c) ∧
  cfg_need_reload id c = Some (has_flag (ctl_word ctl id) CFG_CTL_RELOAD, c).
Proof.
  intros Hid. pose proof (rd_ctl id Hid) as Hrd.
  destruct Hc as (b & <- & (He & _) & _). unfold cfg_need_restart, cfg_need_reload.
  by rewrite !run_gets, He, !(run_bind _ _ _ _ _ Hrd).
Qed.

Lemma set_result_run id st :
  0 ≤ id < CFG_PARAM_MAX_NUM →
  set_result id st c =
    Some (if negb (st =? eSIR_SUCCESS) then WNI_CFG_OTHER_ERROR else success_result ctl id, c).
Proof.
  intros Hid. destruct (need_run id Hid) as [H1 H2]. unfold set_result, success_result.
  destruct (negb _); [done|]. rewrite (run_bind _ _ _ _ _ H1).
  destruct (has_flag _ CFG_CTL_RESTART); [done|].
  rewrite (run_bind _ _ _ _ _ H2). by destruct (has_flag _ CFG_CTL_RELOAD).
Qed.
End rep.

(** * Set requests *)

(** A value as the messages carry it. *)
Definition tlv_ok (t : Z * list Z) : Prop :=
  0 ≤ t.1 < 2 ^ 16 ∧ (length t.2 ≤ Z.to_nat CFG_MAX_STR_LEN)%nat ∧ Forall is_byte t.2.

Definition encode_tlv (t : Z * list Z) : list Z := t.1 :: Z.of_nat (length t.2) :: pack t.2.
Definition encode (ts : list (Z * list Z)) : list Z := concat (encode_tlv <$> ts).

Fixpoint set_specs (ctl : list Z) (A : params) (ts : list (Z * list Z)) : list Z * params :=
  match ts with
  | [] => ([], A)
  | t :: ts =>
      let '(r, A) := set_spec ctl A t in
      let '(rs, A) := set_specs ctl A ts in
      (r :: rs, A)
  end.

(** The confirmation of one value. *)
Definition set_cnf (send : bool) (r id : Z) : list cfg_event :=
  if send then [CfgHostMsg WNI_CFG_SET_CNF WNI_CFG_SET_CNF_LEN [r; id] []] else [].

Definition set_cnfs (send : bool) (rs : list Z) (ts : list (Z * list Z)) : list cfg_event :=
  concat (zip_with (λ r t, set_cnf send r t.1) rs ts).

Lemma pack_head data rest :
  length data = 4%nat → head (pack data ++ rest) = Some (le_value data).
Proof. by destruct data as [|a [|b [|d [|e [|]]]]]. Qed.

Lemma set_one_run ctl c A t rest :
  cfg_rep ctl c A → msg_ok c → tlv_ok t →
  ∃ c', set_one t.1 (Z.of_nat (length t.2)) (4 * Z.of_nat (length (pack t.2 ++ rest)))
      (pack t.2 ++ rest) c = Some ((set_spec ctl A t).1, c') ∧
    cfg_rep ctl c' (set_spec ctl A t).2 ∧ msg_ok c' ∧ host_msgs c' = host_msgs c.
Proof.
  destruct t as [id data]. intros Hc Hm ((Hid & _) & Hlen & Hbytes). simpl in *.
  destruct (check_param_run ctl c A Hc id CFG_CTL_WE WNI_CFG_RO_PARAM Hid) as [o Hck].
  unfold set_one. rewrite (run_bind _ _ _ _ _ Hck). cbv beta iota.
  destruct (A id) as [p|] eqn:HA; [|by exists c].
  destruct (has_flag (ctl_word ctl id) CFG_CTL_WE); cbn [negb]; [|by exists c].
  pose proof (in_range ctl c A Hc id p HA) as Hr.
  rewrite (run_bind _ _ _ _ _ (rd_ctl ctl c A Hc id Hr)), (ctl_int ctl c A Hc id p HA).
  destruct p as [v vmin vmax|cap old]; cbn [is_PInt].
  - destruct (Nat.eqb_spec (length data) 4) as [H4|H4]; cbn [negb].
    + replace (Z.of_nat (length data) =? 4) with true by (symmetry; apply Z.eqb_eq; lia).
      cbn [negb]. rewrite pack_head, run_deref_Some by done.
      pose proof (cfg_set_int_ok ctl c A id (le_value data) _ _ _ Hc HA) as Hop.
      case_decide.
      * destruct Hop as (c' & Hrun & Hc' & HF). rewrite (run_bind _ _ _ _ _ Hrun).
        rewrite (set_result_run ctl c' _ Hc' id _ Hr). exists c'.
        split_and!; [done|done|by eapply msg_ok_frame|apply HF].
      * rewrite (run_bind _ _ _ _ _ Hop), (set_result_run ctl c A Hc id _ Hr). by exists c.
    + replace (Z.of_nat (length data) =? 4) with false by (symmetry; apply Z.eqb_neq; lia).
      by exists c.
  - destruct Hm as [(buf & Hbuf & Hblen) Hpl Hrdy]. unfold CFG_MAX_STR_LEN in *.
    rewrite round_up4_pack, Z.gtb_ltb.
    assert (4 * Z.of_nat (length (pack data)) < 2 ^ 16) as Hp.
    { rewrite pack_length. Z.div_mod_to_equations. lia. }
    rewrite wrap_small by lia.
    destruct (Z.ltb_spec (4 * Z.of_nat (length (pack data ++ rest))) (4 * Z.of_nat (length (pack data))))
      as [Hlt|_]; [rewrite length_app in Hlt; lia|].
    rewrite Nat2Z.id.
    pose proof (get_str_value_run data 0 (pack data ++ rest) c buf Hbuf ltac:(lia)
      ltac:(intros k x Hk; by apply byte_of_pack)) as Hget.
    rewrite (run_bind _ _ _ _ _ Hget), run_gets. cbn [gSBuffer set_gSBuffer]. rewrite run_deref_Some.
    unfold cfg_set_str, patch at 1. rewrite take_0, app_nil_l.
    set (c1 := set_gSBuffer _ c).
    assert (msg_ok c1) as Hm1.
    { split; [|done|done]. eexists. split; [done|]. rewrite patch_length; [done|lia]. }
    pose proof (cfg_set_str_ok ctl c1 A id data (drop (0 + length data) buf) _ _ true
      (cfg_rep_buffer _ _ _ _ Hc) HA) as Hop.
    case_decide.
    * destruct Hop as (c' & Hrun & Hc' & HF). rewrite (run_bind _ _ _ _ _ Hrun).
      rewrite (set_result_run ctl c' _ Hc' id _ Hr). exists c'.
      split_and!; [done|done|by eapply msg_ok_frame|apply HF].
    * rewrite (run_bind _ _ _ _ _ Hop).
      rewrite (set_result_run ctl c1 A (cfg_rep_buffer _ _ _ _ Hc) id _ Hr). exists c1.
      split_and!; [done|by apply cfg_rep_buffer|done|done].
Qed.

Lemma send_set_cnf_run alloc ctl c A r id fRsp :
  cfg_rep ctl c A → msg_ok c →
  ∃ c', send_set_cnf alloc r id fRsp c = Some (tt, c') ∧ cfg_rep ctl c' A ∧ msg_ok c' ∧
    host_msgs c' = host_msgs c ++ set_cnf (fRsp && alloc) r id.
Proof.
  intros Hc [Hbuf (pl & Hpl & Hlen) Hrdy]. unfold send_set_cnf.
  destruct pl as [|p0 [|p1 pl]]; simpl in Hlen; try lia.
  rewrite (run_bind _ _ _ _ _ (wr_run gParamList set_gParamList c _ 0 r Hpl ltac:(simpl; lia))).
  rewrite (run_bind _ _ _ _ _ (wr_run gParamList set_gParamList
    (set_gParamList (Some (r :: p1 :: pl)) c) (r :: p1 :: pl) 1 id eq_refl ltac:(simpl; lia))).
  rewrite run_gets. set (c1 := set_gParamList _ _).
  assert (cfg_rep ctl c1 A) as Hc1 by (by apply cfg_rep_params, cfg_rep_params).
  assert (msg_ok c1) as Hm1.
  { split; [done| |done]. exists (r :: id :: pl). split; [done|]. simpl in *. lia. }
  destruct fRsp; [|exists c1; split_and!; [done|done|done|by rewrite app_nil_r]].
  unfold when, cfg_send_host_msg. cbn [gParamList set_gParamList c1].
  destruct alloc; simpl; [|exists c1; split_and!; [done|done|done|by rewrite app_nil_r]].
  unfold log_cfg, modify, deref, mbind, CM_bind. simpl. eexists. split_and!; [done| | |].
  - by apply cfg_rep_log.
  - split; [done| |done]. exists (r :: id :: pl). split; [done|]. simpl in *. lia.
  - unfold host_msgs. simpl. by rewrite List.filter_app.
Qed.

Lemma length_encode_tlv t : length (encode_tlv t) = (2 + length (pack t.2))%nat.
Proof. done. Qed.

Lemma set_req_loop_run alloc ctl fRsp fuel ts c A :
  (length ts < fuel)%nat → Forall tlv_ok ts → cfg_rep ctl c A → msg_ok c →
  ∃ c', set_req_loop alloc fuel (4 * Z.of_nat (length (encode ts))) (encode ts) fRsp c =
      Some (tt, c') ∧
    cfg_rep ctl c' (set_specs ctl A ts).2 ∧
    host_msgs c' = host_msgs c ++ set_cnfs (fRsp && alloc) (set_specs ctl A ts).1 ts.
Proof.
  revert fuel c A. induction ts as [|t ts IH]; intros fuel c A Hfuel Hts Hc Hm;
    (destruct fuel as [|fuel]; [simpl in Hfuel; lia|]).
  - exists c. by rewrite app_nil_r.
  - apply Forall_cons in Hts as [Ht Hts].
    destruct (set_one_run ctl c A t (encode ts) Hc Hm Ht) as (c1 & H1 & Hc1 & Hm1 & HF1).
    destruct t as [id data]. destruct Ht as (Hid & Hlen & _). cbn [fst snd] in *.
    destruct (set_spec ctl A (id, data)) as [r A1] eqn:Hspec. cbn [fst snd] in *.
    destruct (send_set_cnf_run alloc ctl c1 A1 r id fRsp Hc1 Hm1) as (c2 & H2 & Hc2 & Hm2 & HF2).
    destruct (IH fuel c2 A1 ltac:(simpl in Hfuel; lia) Hts Hc2 Hm2) as (c3 & H3 & Hc3 & HF3).
    exists c3. cbn [set_specs]. rewrite Hspec.
    destruct (set_specs ctl A1 ts) as [rs A2] eqn:Hspecs. cbn [fst snd] in *.
    assert (encode ((id, data) :: ts) =
      id :: Z.of_nat (length data) :: pack data ++ encode ts) as -> by done.
    cbn [set_req_loop length app].
    unfold CFG_MAX_STR_LEN in *.
    destruct (Z.ltb_spec (4 * Z.of_nat (S (S (length (pack data ++ encode ts))))) 8); [lia|].
    cbn [lookup list_lookup]. rewrite !run_deref_Some.
    rewrite (wrap_small 16 id), (wrap_small 16 (Z.of_nat (length data))) by lia.
    cbn [drop]. rewrite drop_0.
    replace (4 * Z.of_nat (S (S (length (pack data ++ encode ts)))) - 8)
      with (4 * Z.of_nat (length (pack data ++ encode ts))) by lia.
    rewrite (run_bind _ _ _ _ _ H1), (run_bind _ _ _ _ _ H2), round_up4_pack.
    assert (4 * Z.of_nat (length (pack data)) < 2 ^ 16) as Hp.
    { rewrite pack_length. Z.div_mod_to_equations. lia. }
    rewrite wrap_small by lia. rewrite Z.gtb_ltb, length_app.
    destruct (Z.ltb_spec (4 * Z.of_nat (length (pack data) + length (encode ts)))
      (4 * Z.of_nat (length (pack data)))); [lia|].
    replace (4 * Z.of_nat (length (pack data) + length (encode ts)) -
      4 * Z.of_nat (length (pack data))) with (4 * Z.of_nat (length (encode ts))) by lia.
    rewrite Z.shiftr_div_pow2 by lia. change (2 ^ 2) with 4.
    replace (4 * Z.of_nat (length (pack data)) / 4) with (Z.of_nat (length (pack data)))
      by (rewrite Z.mul_comm, Z.div_mul; lia).
    rewrite Nat2Z.id, drop_app_length.
    split_and!; [done|done|]. rewrite HF3, HF2, HF1. by rewrite <- app_assoc.
Qed.

(** C27. Set requests are carried out.  A set request that encodes any list of
    identifiers and values, of at most 256 bytes each, is processed to the end
    whatever the values: the parameters become those obtained by setting the
    values one after the other, a value being refused when its identifier
    names no parameter, the parameter is not writable, the integer is not four
    bytes or is outside its limits, or the string exceeds its capacity; and
    exactly one confirmation per value is sent, in order, with its result. *)
Theorem proc_set_req_spec alloc ctl c A ts fRsp :
  cfg_rep ctl c A → msg_ok c → Forall tlv_ok ts →
  ∃ c', proc_set_req_internal alloc (4 * Z.of_nat (length (encode ts))) (encode ts) fRsp c =
      Some (tt, c') ∧
    cfg_rep ctl c' (set_specs ctl A ts).2 ∧
    host_msgs c' = host_msgs c ++ set_cnfs (fRsp && alloc) (set_specs ctl A ts).1 ts.
Proof.
  intros Hc Hm Hts. unfold proc_set_req_internal. rewrite run_gets.
  destruct (Z.eqb_spec (gCfgStatus c) CFG_INCOMPLETE) as [Hi|_]; [by destruct Hm|].
  apply set_req_loop_run; [|done..].
  assert (length ts ≤ length (encode ts))%nat; [|lia].
  clear. induction ts as [|t ts IH]; [done|].
  change (encode (t :: ts)) with (encode_tlv t ++ encode ts).
  rewrite length_app, length_encode_tlv. cbn [length]. lia.
Qed.

(** * Set requests that leave the buffers *)

Lemma get_str_value_overflow n i ws c buf :
  gSBuffer c = Some buf → (i ≤ length buf < i + n)%nat → get_str_value n i ws c = None.
Proof.
  revert i c buf. induction n as [|n IH]; intros i c buf Hb Hn; [lia|]. cbn [get_str_value].
  destruct (byte_of ws i) as [x|]; [|done]. rewrite run_deref_Some.
  destruct (decide (i = length buf)) as [->|Hne].
  - apply run_bind_ub. unfold wr. rewrite run_gets, Hb, run_deref_Some. unfold arr_put.
    by rewrite (proj2 (Z.ltb_ge _ _)), andb_false_r by lia.
  - rewrite (run_bind _ _ _ _ _ (wr_run gSBuffer set_gSBuffer c buf i x Hb ltac:(lia))).
    eapply IH; [done|]. rewrite length_insert. lia.
Qed.

(** C38. A set request can overflow the static buffer.  When the first value of
    a set request is for a writable string parameter, is longer than the 256
    bytes of the static buffer and is contained in the message, processing the
    request writes past the end of that buffer: the length is compared with
    the message only, before the copy, and with the capacity of the parameter
    only after it. *)
Theorem proc_set_req_overflows alloc ctl c A id len cap old ws fRsp msgLen :
  cfg_rep ctl c A → msg_ok c → A id = Some (PStr cap old) →
  has_flag (ctl_word ctl id) CFG_CTL_WE = true →
  CFG_MAX_STR_LEN < len < 2 ^ 16 - 3 → 8 + round_up4 len ≤ msgLen →
  proc_set_req_internal alloc msgLen (id :: len :: ws) fRsp c = None.
Proof.
  intros Hc [(buf & Hbuf & Hblen) _ Hrdy] HA HW Hlen Hfit.
  pose proof (in_range ctl c A Hc id _ HA) as Hr. unfold CFG_PARAM_MAX_NUM, CFG_MAX_STR_LEN in *.
  assert (0 ≤ round_up4 len < 2 ^ 16) as Hup.
  { unfold round_up4. rewrite Z.shiftl_mul_pow2, Z.shiftr_div_pow2 by lia. change (2 ^ 2) with 4.
    Z.div_mod_to_equations. lia. }
  unfold proc_set_req_internal. rewrite run_gets.
  destruct (Z.eqb_spec (gCfgStatus c) CFG_INCOMPLETE) as [|_]; [done|]. cbn [set_req_loop].
  destruct (Z.ltb_spec msgLen 8); [lia|]. cbn [lookup list_lookup]. rewrite !run_deref_Some.
  rewrite (wrap_small 16 id), (wrap_small 16 len) by lia. apply run_bind_ub.
  destruct (check_param_run ctl c A Hc id CFG_CTL_WE WNI_CFG_RO_PARAM ltac:(lia)) as [o Hck].
  rewrite HA, HW in Hck. unfold set_one. rewrite (run_bind _ _ _ _ _ Hck). cbn [negb].
  rewrite (run_bind _ _ _ _ _ (rd_ctl ctl c A Hc id Hr)), (ctl_int ctl c A Hc id _ HA).
  cbn [is_PInt]. rewrite wrap_small, Z.gtb_ltb by lia.
  destruct (Z.ltb_spec (msgLen - 8) (round_up4 len)); [lia|].
  apply run_bind_ub. eapply get_str_value_overflow; [done|]. lia.
Qed.

(** * Get requests *)

(** The answer to a get request for [id]. *)
Inductive get_rsp (ctl : list Z) (A : params) (id : Z) : cfg_event → Prop :=
| rsp_refused :
    A id = None ∨ has_flag (ctl_word ctl id) CFG_CTL_RE = false →
    get_rsp ctl A id (CfgHostMsg WNI_CFG_GET_RSP WNI_CFG_GET_RSP_PARTIAL_LEN
      [WNI_CFG_INVALID_LEN; id; 0] [])
| rsp_int v vmin vmax :
    A id = Some (PInt v vmin vmax) → has_flag (ctl_word ctl id) CFG_CTL_RE = true →
    get_rsp ctl A id (CfgHostMsg WNI_CFG_GET_RSP (WNI_CFG_GET_RSP_PARTIAL_LEN + 4)
      [WNI_CFG_SUCCESS; id; 4] [v])
| rsp_str cap data stale ws :
    A id = Some (PStr cap data) → has_flag (ctl_word ctl id) CFG_CTL_RE = true →
    (length data ≤ 8)%nat →
    words_of (length (pack data)) (data ++ stale) = Some ws →
    get_rsp ctl A id (CfgHostMsg WNI_CFG_GET_RSP
      (WNI_CFG_GET_RSP_PARTIAL_LEN + round_up4 (Z.of_nat (length data)))
      [WNI_CFG_SUCCESS; id; Z.of_nat (length data)] ws)
| rsp_long cap data ws :
    A id = Some (PStr cap data) → has_flag (ctl_word ctl id) CFG_CTL_RE = true →
    (8 < length data)%nat → length ws = 2%nat →
    get_rsp ctl A id (CfgHostMsg WNI_CFG_GET_RSP (WNI_CFG_GET_RSP_PARTIAL_LEN + 8)
      [WNI_CFG_OTHER_ERROR; id; 8] ws).

Lemma words_of_some n bs :
  (4 * n ≤ length bs)%nat → ∃ ws, words_of n bs = Some ws ∧ length ws = n.
Proof.
  revert bs. induction n as [|n IH]; intros bs Hn; simpl; [by exists []|].
  destruct bs as [|b0 [|b1 [|b2 [|b3 bs]]]]; simpl in Hn; try lia.
  destruct (IH bs ltac:(lia)) as (ws & -> & Hws). eexists. split; [done|]. simpl. lia.
Qed.

Lemma fill_gSBuffer_run bs i c buf :
  gSBuffer c = Some buf → (i + length bs ≤ length buf)%nat →
  fill_gSBuffer i bs c = Some (tt, set_gSBuffer (Some (patch i bs buf)) c).
Proof.
  revert i c buf. induction bs as [|x bs IH]; intros i c buf Hb Hi; simpl in *.
  - unfold patch. simpl. rewrite Nat.add_0_r, take_drop. by destruct c; simpl in *; subst.
  - rewrite (run_bind _ _ _ _ _ (wr_run gSBuffer set_gSBuffer c buf i x Hb ltac:(lia))).
    rewrite (IH (S i) _ (<[i := x]> buf)); [|done|rewrite length_insert; lia].
    by rewrite patch_cons by lia.
Qed.

(** Sending the response: [data] is what [pValue] points to. *)
Lemma send_get_rsp_run ctl c A result id valueLen pValue :
  cfg_rep ctl c A → msg_ok c → (pValue = None → valueLen = 0) → 0 ≤ valueLen →
  Z.of_nat (length (default [] pValue)) = Z.shiftr (round_up4 valueLen) 2 →
  ∃ c', (put_get_rsp result id valueLen;;
      l ← gets gParamList;
      cfg_send_host_msg true WNI_CFG_GET_RSP (WNI_CFG_GET_RSP_PARTIAL_LEN + round_up4 valueLen)
        WNI_CFG_GET_RSP_NUM l (round_up4 valueLen) pValue) c = Some (tt, c') ∧
    cfg_rep ctl c' A ∧ msg_ok c' ∧
    host_msgs c' = host_msgs c ++ [CfgHostMsg WNI_CFG_GET_RSP
      (WNI_CFG_GET_RSP_PARTIAL_LEN + round_up4 valueLen) [result; id; valueLen]
      (default [] pValue)].
Proof.
  intros Hc [Hbuf (pl & Hpl & Hlen) Hrdy] Hnone Hv Hdata.
  destruct pl as [|p0 [|p1 [|p2 pl]]]; simpl in Hlen; try lia.
  assert (round_up4 valueLen = 4 * Z.of_nat (length (default [] pValue))) as Hup.
  { rewrite Hdata. unfold round_up4. rewrite Z.shiftr_shiftl_l by lia.
    rewrite Z.shiftl_mul_pow2 by lia. change (2 ^ 2) with 4. rewrite Z.shiftl_0_r. lia. }
  set (c1 := set_gParamList (Some (result :: id :: valueLen :: pl)) c).
  assert (put_get_rsp result id valueLen c = Some (tt, c1)) as Hput.
  { unfold put_get_rsp.
    rewrite (run_bind _ _ _ _ _ (wr_run gParamList set_gParamList c _ 0 result Hpl ltac:(simpl; lia))).
    rewrite (run_bind _ _ _ _ _ (wr_run gParamList set_gParamList
      (set_gParamList (Some (result :: p1 :: p2 :: pl)) c) (result :: p1 :: p2 :: pl) 1 id eq_refl
      ltac:(simpl; lia))).
    exact (wr_run gParamList set_gParamList
      (set_gParamList (Some (result :: id :: p2 :: pl)) c) (result :: id :: p2 :: pl) 2 valueLen
      eq_refl ltac:(simpl; lia)). }
  rewrite (run_bind _ _ _ _ _ Hput), run_gets. unfold cfg_send_host_msg.
  change (gParamList c1) with (Some (result :: id :: valueLen :: pl)).
  replace ((round_up4 valueLen >? 0) && bool_decide (pValue = None)) with false.
  2: { destruct pValue; [|by rewrite Hnone].
    rewrite bool_decide_false by done. symmetry. apply andb_false_r. }
  change (known_msg WNI_CFG_GET_RSP) with true. cbn [negb]. cbv iota.
  change (WNI_CFG_GET_RSP_NUM >? 0) with true. rewrite bool_decide_false by done. cbn [andb].
  change (Z.to_nat WNI_CFG_GET_RSP_NUM <=? length (result :: id :: valueLen :: pl))%nat with true.
  cbv iota zeta. change (take (Z.to_nat WNI_CFG_GET_RSP_NUM) (result :: id :: valueLen :: pl))
    with [result; id; valueLen]. rewrite run_deref_Some, <- Hdata, Nat2Z.id.
  assert ((match pValue with
    | Some l => if (length (default [] pValue) <=? length l)%nat
                then Some (take (length (default [] pValue)) l) else None
    | None => Some []
    end) = Some (default [] pValue)) as ->.
  { destruct pValue as [l|]; [|done]. simpl. by rewrite Nat.leb_refl, take_ge by lia. }
  rewrite run_deref_Some, Hup, Z.gtb_ltb. cbn [length]. unfold WNI_CFG_GET_RSP_PARTIAL_LEN.
  change (WNI_CFG_MB_HDR_LEN + Z.shiftl WNI_CFG_GET_RSP_NUM 2) with 16.
  rewrite (proj2 (Z.ltb_ge _ _)) by lia.
  eexists. split_and!; [done| | |].
  - by apply cfg_rep_log, cfg_rep_params.
  - split; [done| |done]. eexists. split; [done|]. simpl in *. lia.
  - unfold host_msgs. simpl. by rewrite List.filter_app.
Qed.

(** The end of a round: the response is put together and sent. *)
Lemma get_step_send ctl c c1 A id result valueLen pValue :
  cfg_rep ctl c1 A → msg_ok c1 → host_msgs c1 = host_msgs c → (pValue = None → valueLen = 0) →
  0 ≤ valueLen → Z.of_nat (length (default [] pValue)) = Z.shiftr (round_up4 valueLen) 2 →
  get_rsp ctl A id (CfgHostMsg WNI_CFG_GET_RSP (WNI_CFG_GET_RSP_PARTIAL_LEN + round_up4 valueLen)
    [result; id; valueLen] (default [] pValue)) →
  ∃ c' e, (put_get_rsp result id valueLen;;
    l ← gets gParamList;
    cfg_send_host_msg true WNI_CFG_GET_RSP (WNI_CFG_GET_RSP_PARTIAL_LEN + round_up4 valueLen)
      WNI_CFG_GET_RSP_NUM l (round_up4 valueLen) pValue) c1 = Some (tt, c') ∧
    cfg_rep ctl c' A ∧ msg_ok c' ∧ host_msgs c' = host_msgs c ++ [e] ∧ get_rsp ctl A id e.
Proof.
  intros Hc1 Hm1 HF Hn Hv Hd Hr.
  destruct (send_get_rsp_run ctl c1 A result id valueLen pValue Hc1 Hm1 Hn Hv Hd)
    as (c' & Hrun & ? & ? & Hlog).
  exists c'. eexists. split_and!; [done|done|done|by rewrite Hlog, HF|done].
Qed.

Lemma get_step_run ctl c A id :
  cfg_rep ctl c A → msg_ok c → 0 ≤ id →
  ∃ c' e, get_step true id c = Some (tt, c') ∧ cfg_rep ctl c' A ∧ msg_ok c' ∧
    host_msgs c' = host_msgs c ++ [e] ∧ get_rsp ctl A id e.
Proof.
  intros Hc Hm Hid. unfold get_step, get_one.
  destruct (check_param_run ctl c A Hc id CFG_CTL_RE WNI_CFG_WO_PARAM Hid) as [o Hck].
  rewrite run_assoc, (run_bind _ _ _ _ _ Hck). cbv beta iota.
  destruct (A id) as [p|] eqn:HA; [destruct (has_flag (ctl_word ctl id) CFG_CTL_RE) eqn:HRE|];
    cbn [negb].
  2, 3: rewrite run_ret; apply (get_step_send ctl c); [done|done|done|done|done|done|];
    apply rsp_refused; by auto.
  pose proof (in_range ctl c A Hc id p HA) as Hr.
  rewrite run_assoc, (run_bind _ _ _ _ _ (rd_ctl ctl c A Hc id Hr)), (ctl_int ctl c A Hc id p HA).
  destruct p as [v vmin vmax|cap data]; cbn [is_PInt].
  - rewrite run_assoc, (run_bind _ _ _ _ _ (wlan_cfg_get_int_ok ctl c A id _ _ _ Hc HA)).
    cbv beta iota. rewrite run_assoc, run_deref_Some, run_ret.
    apply (get_step_send ctl c); [done..|]. by eapply rsp_int.
  - rewrite run_assoc, (run_bind _ _ _ _ _ (wlan_cfg_get_str_ok ctl c A id _ _ Hc HA _)).
    destruct Hm as [(buf & Hbuf & Hblen) Hpl Hrdy]. unfold CFG_MAX_STR_LEN, sizeof_gSBuffer in *.
    destruct (Z.ltb_spec 8 (Z.of_nat (length data))) as [Hlt|Hge]; cbv beta iota.
    + rewrite run_assoc, (run_bind _ _ _ _ _ (fill_gSBuffer_run [] 0 c buf Hbuf ltac:(simpl; lia))).
      rewrite run_assoc, run_gets. cbn [gSBuffer set_gSBuffer]. rewrite run_assoc, run_deref_Some.
      unfold patch. rewrite take_0, !app_nil_l, drop_0.
      destruct (words_of_some 2 buf ltac:(lia)) as (ws & Hws & Hwlen).
      change (Z.to_nat (Z.shiftr (round_up4 8) 2)) with 2%nat.
      rewrite run_assoc, Hws, run_deref_Some, run_ret. apply (get_step_send ctl c).
      * by apply cfg_rep_buffer.
      * split; [by exists buf|done|done].
      * done.
      * done.
      * done.
      * simpl. by rewrite Hwlen.
      * eapply rsp_long; [done|done|lia|done].
    + rewrite run_assoc, (run_bind _ _ _ _ _ (fill_gSBuffer_run data 0 c buf Hbuf ltac:(simpl; lia))).
      rewrite run_assoc, run_gets. cbn [gSBuffer set_gSBuffer]. rewrite run_assoc, run_deref_Some.
      assert (Z.of_nat (length (pack data)) ≤ 2) as Hpk.
      { rewrite pack_length. Z.div_mod_to_equations. lia. }
      assert (Z.shiftr (round_up4 (Z.of_nat (length data))) 2 = Z.of_nat (length (pack data))) as Hw.
      { rewrite round_up4_pack, Z.shiftr_div_pow2 by lia. change (2 ^ 2) with 4.
        by rewrite Z.mul_comm, Z.div_mul. }
      destruct (words_of_some (length (pack data)) (patch 0 data buf)) as (ws & Hws & Hwlen).
      { rewrite patch_length; lia. }
      cbn [default]. rewrite Hw, Nat2Z.id, run_assoc, Hws, run_deref_Some, run_ret. apply (get_step_send ctl c).
      * by apply cfg_rep_buffer.
      * split; [|done|done]. eexists. split; [done|]. by rewrite patch_length by lia.
      * done.
      * done.
      * lia.
      * simpl. by rewrite Hwlen.
      * eapply rsp_str; [done|done|lia|]. unfold patch in Hws. by rewrite take_0 in Hws.
Qed.

Lemma get_req_loop_run ctl A fuel ids c :
  (length ids < fuel)%nat → Forall (λ id, 0 ≤ id < 2 ^ 16) ids → cfg_rep ctl c A → msg_ok c →
  ∃ c' evs, get_req_loop true fuel (4 * Z.of_nat (length ids)) ids c = Some (tt, c') ∧
    cfg_rep ctl c' A ∧ host_msgs c' = host_msgs c ++ evs ∧ Forall2 (get_rsp ctl A) ids evs.
Proof.
  revert ids c. induction fuel as [|fuel IH]; intros ids c Hf Hids Hc Hm; [lia|].
  cbn [get_req_loop]. destruct ids as [|id ids].
  - exists c, []. by rewrite app_nil_r.
  - apply Forall_cons in Hids as [Hid Hids]. cbn [length] in *.
    destruct (Z.ltb_spec (4 * Z.of_nat (S (length ids))) 4); [lia|].
    cbn [head]. rewrite run_deref_Some, wrap_small by lia.
    destruct (get_step_run ctl c A id Hc Hm ltac:(lia)) as (c1 & e & H1 & Hc1 & Hm1 & HF1 & He).
    rewrite (run_bind _ _ _ _ _ H1). cbn [tail].
    replace (4 * Z.of_nat (S (length ids)) - 4) with (4 * Z.of_nat (length ids)) by lia.
    destruct (IH ids c1 ltac:(lia) Hids Hc1 Hm1) as (c2 & evs & H2 & Hc2 & HF2 & Hevs).
    exists c2, (e :: evs). split_and!; [done|done| |by constructor].
    by rewrite HF2, HF1, <- app_assoc.
Qed.

(** Get requests are answered.  A get request for any list of identifiers
    changes no parameter and sends exactly one response per identifier, in
    order: the value of an integer parameter; the bytes of a string of at most
    eight bytes; an error for a longer string, because the reader is given the
    size of a pointer instead of the size of its buffer; and a refusal when
    the identifier names no parameter or the parameter is not readable. *)
Theorem proc_get_req_spec ctl c A ids :
  cfg_rep ctl c A → msg_ok c → Forall (λ id, 0 ≤ id < 2 ^ 16) ids →
  ∃ c' evs, proc_get_req true (4 * Z.of_nat (length ids)) ids c = Some (tt, c') ∧
    cfg_rep ctl c' A ∧ host_msgs c' = host_msgs c ++ evs ∧ Forall2 (get_rsp ctl A) ids evs.
Proof.
  intros Hc Hm Hids. unfold proc_get_req. rewrite run_gets.
  destruct (Z.eqb_spec (gCfgStatus c) CFG_INCOMPLETE) as [Hi|_]; [by destruct Hm|].
  apply get_req_loop_run; [lia|done..].
Qed.
