(* ===== verification/CfgQuery.v ===== *)
(** Two readers of structured byte strings in
    [core/mac/src/cfg/cfg_api.c]: the maximum transmit power of a channel
    ([cfg_get_dot11d_transmit_power], [cfg_get_regulatory_max_transmit_power])
    and the search for a vendor information element
    ([cfg_get_vendor_ie_ptr_from_oui]). *)
From S2P Require Import Prelude Cfg CfgProofs.

(** * Transmit power *)

Definition WMA_MAX_TXPOWER_INVALID : Z := 127.
Definition SIZEOF_CHAN_INFO : Z := 3.
Definition WNI_CFG_MAX_TX_POWER_2_4 : Z := 76.
Definition WNI_CFG_MAX_TX_POWER_5 : Z := 77.
Definition WNI_CFG_MAX_TX_POWER_LEN : Z := 128.
Definition SIR_11A_CHANNEL_BEGIN : Z := 34.
Definition SIR_11A_CHANNEL_END : Z := 165.

(** A byte read as [int8_t]. *)
Definition int8 (b : Z) : Z := if b <? 128 then b else b - 256.

(** [count <= cfgLength - sizeof(tSirMacChanInfo)], where the subtraction is
    unsigned, 64 bits wide. *)
Definition more_triples (count cfgLength : Z) : bool :=
  count <=? u64 (cfgLength - SIZEOF_CHAN_INFO).

(** The [while] loop: [maxTxPwr] when it ends. *)
Fixpoint triple_loop (fuel : nat) (info : list Z) (count cfgLength channel maxTxPwr : Z) :
    option Z :=
  match fuel with
  | O => None
  | S fuel =>
      if negb (more_triples count cfgLength) then Some maxTxPwr
      else
        firstChannel ← arr_get info count;
        maxChannels ← arr_get info (u8 (count + 1));
        pwr ← arr_get info (u8 (count + 2));
        if (channel >=? firstChannel) && (channel <? firstChannel + maxChannels)
        then Some (int8 pwr)
        else triple_loop fuel info (u8 (count + 3)) cfgLength channel (int8 pwr)
  end.

(** [alloc] is whether the zeroed buffer of [cfgLength] bytes is obtained. *)
Definition cfg_get_dot11d_transmit_power (alloc : bool) (cfgId cfgLength channel : Z) : CFG Z :=
  if cfgLength <? SIZEOF_CHAN_INFO then mret WMA_MAX_TXPOWER_INVALID
  else if negb alloc then mret WMA_MAX_TXPOWER_INVALID
  else
    '(st, bs) ← wlan_cfg_get_str cfgId cfgLength;
    if negb (st =? eSIR_SUCCESS) then mret WMA_MAX_TXPOWER_INVALID
    else
      bs ← deref bs;
      let len := Z.of_nat (length bs) in
      let pCountryInfo := bs ++ replicate (Z.to_nat (cfgLength - len)) 0 in
      deref (triple_loop (S (length pCountryInfo)) pCountryInfo 0 len channel
        WMA_MAX_TXPOWER_INVALID).

Definition cfg_get_regulatory_max_transmit_power (alloc : bool) (channel : Z) : CFG Z :=
  if (channel >=? SIR_11A_CHANNEL_BEGIN) && (channel <=? SIR_11A_CHANNEL_END) then
    cfg_get_dot11d_transmit_power alloc WNI_CFG_MAX_TX_POWER_5 WNI_CFG_MAX_TX_POWER_LEN channel
  else
    cfg_get_dot11d_transmit_power alloc WNI_CFG_MAX_TX_POWER_2_4 WNI_CFG_MAX_TX_POWER_LEN channel.

(** * Vendor information elements *)

Definition SIR_MAC_EID_VENDOR : Z := 221.

(** The [while (left >= 2)] loop; the pointer returned is an offset in [ie]. *)
Fixpoint vendor_loop (fuel : nat) (oui ie : list Z) (ptr : nat) (left : Z) : option (option nat) :=
  match fuel with
  | O => None
  | S fuel =>
      if left <? 2 then Some None
      else
        elem_id ← ie !! ptr;
        elem_len ← ie !! S ptr;
        let left := left - 2 in
        if elem_len >? left then Some None
        else
          let next := vendor_loop fuel oui ie (ptr + (Z.to_nat elem_len + 2)) (left - elem_len) in
          if elem_id =? SIR_MAC_EID_VENDOR then
            bs ← bytes_at ie (ptr + 2) (length oui);
            if decide (bs = oui) then Some (Some ptr) else next
          else next
  end.

Definition cfg_get_vendor_ie_ptr_from_oui (oui ie : list Z) (ie_len : Z) : option (option nat) :=
  vendor_loop (S (Z.to_nat ie_len)) oui ie 0 ie_len.

(** * What they compute *)

(** Consecutive channels with one power limit. *)
Definition triple : Type := Z * Z * Z.
Definition triple_bytes (t : triple) : list Z := [t.1.1; t.1.2; t.2].
Definition covers (channel : Z) (t : triple) : bool :=
  (channel >=? t.1.1) && (channel <? t.1.1 + t.1.2).

(** The power of the first triple that covers the channel, or of the last one. *)
Fixpoint power_of (channel dflt : Z) (ts : list triple) : Z :=
  match ts with
  | [] => dflt
  | t :: ts => if covers channel t then int8 t.2 else power_of channel (int8 t.2) ts
  end.

Lemma more_triples_spec count len :
  0 ≤ count → 3 ≤ len < 2 ^ 32 → more_triples count len = (count + 3 <=? len).
Proof.
  intros Hc Hl. unfold more_triples, SIZEOF_CHAN_INFO. rewrite wrap_small by lia.
  destruct (Z.leb_spec count (len - 3)), (Z.leb_spec (count + 3) len); lia || done.
Qed.

Lemma triple_loop_run fuel pre ts rest channel dflt :
  let len := Z.of_nat (length pre + 3 * length ts) in
  (length ts < fuel)%nat → 3 ≤ len ≤ 255 →
  triple_loop fuel (pre ++ concat (triple_bytes <$> ts) ++ rest) (Z.of_nat (length pre)) len
    channel dflt = Some (power_of channel dflt ts).
Proof.
  revert fuel pre dflt. induction ts as [|[[f m] p] ts IH]; intros fuel pre dflt len Hf Hlen;
    (destruct fuel as [|fuel]; [simpl in Hf; lia|]); cbn [triple_loop]; unfold len in *.
  - rewrite more_triples_spec by lia. simpl.
    destruct (Z.leb_spec (Z.of_nat (length pre) + 3) (Z.of_nat (length pre + 0))); [lia|done].
  - cbn [length] in *. rewrite more_triples_spec by lia.
    destruct (Z.leb_spec (Z.of_nat (length pre) + 3)
      (Z.of_nat (length pre + 3 * S (length ts)))); [|lia]. cbn [negb].
    rewrite !wrap_small by lia.
    replace (Z.of_nat (length pre) + 1) with (Z.of_nat (length pre + 1)) by lia.
    replace (Z.of_nat (length pre) + 2) with (Z.of_nat (length pre + 2)) by lia.
    rewrite !arr_get_nat. cbn [fmap list_fmap concat triple_bytes fst snd app].
    rewrite <- (Nat.add_0_r (length pre)) at 1. rewrite !lookup_app_plus.
    cbn [lookup list_lookup mbind option_bind]. cbn [power_of]. unfold covers. cbn [fst snd].
    destruct ((channel >=? f) && (channel <? f + m)); [done|].
    specialize (IH fuel (pre ++ [f; m; p]) (int8 p) ltac:(lia)).
    rewrite length_app in IH. cbn [length] in IH. rewrite <- app_assoc in IH. cbn [app] in IH.
    replace (Z.of_nat (length pre) + 3) with (Z.of_nat (length pre + 3)) by lia.
    replace (length pre + 3 * S (length ts))%nat with (length pre + 3 + 3 * length ts)%nat by lia.
    apply IH. lia.
Qed.

(** The transmit power of a channel.  When the parameter holds a non-empty
    list of channel ranges, that fits the reader's buffer, the power returned
    is that of the first range that covers the channel; a channel that no
    range covers gets the power of the last range, not the invalid power. *)
Theorem dot11d_transmit_power_spec ctl c A cfgId cfgLength channel cap ts :
  cfg_rep ctl c A → A cfgId = Some (PStr cap (concat (triple_bytes <$> ts))) → ts ≠ [] →
  3 * Z.of_nat (length ts) ≤ cfgLength →
  cfg_get_dot11d_transmit_power true cfgId cfgLength channel c =
    Some (power_of channel WMA_MAX_TXPOWER_INVALID ts, c).
Proof.
  intros Hc HA Hne Hlen. set (data := concat (triple_bytes <$> ts)) in *.
  assert (length data = 3 * length ts)%nat as Hd.
  { unfold data. clear. induction ts as [|t ts IH]; [done|]. cbn. simpl in IH. lia. }
  assert (0 < length ts)%nat as Hpos by (destruct ts; [done|simpl; lia]).
  unfold cfg_get_dot11d_transmit_power, SIZEOF_CHAN_INFO.
  destruct (Z.ltb_spec cfgLength 3); [lia|]. cbn [negb].
  rewrite (run_bind _ _ _ _ _ (wlan_cfg_get_str_ok ctl c A cfgId cap data Hc HA cfgLength)).
  destruct (Z.ltb_spec cfgLength (Z.of_nat (length data))); [lia|]. status_ok.
  rewrite run_deref_Some.
  assert (Z.of_nat (length data) ≤ 255) as Hcap.
  { destruct Hc as (b & _ & _ & Hb). destruct (rep_param _ _ Hb _ _ HA) as ((_ & _ & _ & ? & _) & _). lia. }
  pose proof (triple_loop_run (S (length (data ++ replicate (Z.to_nat (cfgLength - Z.of_nat (length data))) 0)))
    [] ts (replicate (Z.to_nat (cfgLength - Z.of_nat (length data))) 0) channel
    WMA_MAX_TXPOWER_INVALID) as Hrun.
  cbv zeta in Hrun. cbn [length Nat.add] in Hrun. rewrite !app_nil_l, <- Hd in Hrun.
  fold data in Hrun. change (Z.of_nat 0) with 0 in Hrun. rewrite Hrun; [done| |lia].
  rewrite length_app. lia.
Qed.

Lemma arr_get_zeros n i v : arr_get (replicate n 0) i = Some v → v = 0.
Proof.
  unfold arr_get. destruct (0 <=? i); [|done]. intros H. by apply lookup_replicate in H as [-> _].
Qed.

Lemma triple_loop_zeros fuel n count channel dflt :
  0 ≤ channel → 0 ≤ count < 256 → triple_loop fuel (replicate n 0) count 0 channel dflt = None.
Proof.
  intros Hch. revert count dflt. induction fuel as [|fuel IH]; intros count dflt Hc; [done|].
  cbn [triple_loop]. replace (more_triples count 0) with true.
  2: { change (more_triples count 0) with (count <=? 2 ^ 64 - 3).
       destruct (Z.leb_spec count (2 ^ 64 - 3)); lia || done. }
  cbn [negb]. destruct (arr_get _ count) as [f|] eqn:Hf; [|done]. cbn [mbind option_bind].
  destruct (arr_get _ (u8 (count + 1))) as [m|] eqn:Hm; [|done]. cbn [mbind option_bind].
  destruct (arr_get _ (u8 (count + 2))) as [p|]; [|done]. cbn [mbind option_bind].
  rewrite (arr_get_zeros _ _ _ Hf), (arr_get_zeros _ _ _ Hm).
  destruct (Z.ltb_spec channel (0 + 0)); [lia|]. rewrite andb_false_r.
  apply IH. by apply wrap_range.
Qed.

(** An empty list of channel ranges.  The bound of the loop is unsigned,
    so it wraps when the parameter holds the empty string: the loop finds no
    range among the zeroes of its buffer and reads past the buffer's end. *)
Theorem dot11d_transmit_power_empty_overreads ctl c A cfgId cfgLength channel cap :
  cfg_rep ctl c A → A cfgId = Some (PStr cap []) → 3 ≤ cfgLength → 0 ≤ channel →
  cfg_get_dot11d_transmit_power true cfgId cfgLength channel c = None.
Proof.
  intros Hc HA Hlen Hch. unfold cfg_get_dot11d_transmit_power, SIZEOF_CHAN_INFO.
  destruct (Z.ltb_spec cfgLength 3); [lia|]. cbn [negb].
  rewrite (run_bind _ _ _ _ _ (wlan_cfg_get_str_ok ctl c A cfgId cap [] Hc HA cfgLength)).
  cbn [length]. destruct (Z.ltb_spec cfgLength (Z.of_nat 0)); [lia|]. status_ok.
  rewrite run_deref_Some. cbn [length]. rewrite app_nil_l. by rewrite triple_loop_zeros.
Qed.

(** * Vendor elements *)

(** An information element: its identifier and its data. *)
Definition elem : Type := Z * list Z.
Definition elem_bytes (e : elem) : list Z := e.1 :: Z.of_nat (length e.2) :: e.2.

(** The element carries the vendor's identifier. *)
Definition is_oui (oui : list Z) (e : elem) : bool :=
  (e.1 =? SIR_MAC_EID_VENDOR) && bool_decide (take (length oui) e.2 = oui).

(** The offset of the first element with the vendor's identifier. *)
Fixpoint oui_offset (oui : list Z) (es : list elem) : option nat :=
  match es with
  | [] => None
  | e :: es => if is_oui oui e then Some O else Nat.add (2 + length e.2) <$> oui_offset oui es
  end.

(** Every vendor element is at least as long as the identifier. *)
Definition long_enough (oui : list Z) (e : elem) : Prop :=
  e.1 = SIR_MAC_EID_VENDOR → (length oui ≤ length e.2)%nat.

(** One turn of the loop, at an element followed by [tail]. *)
Lemma vendor_loop_step oui fuel pre id d tail :
  (id = SIR_MAC_EID_VENDOR → (length oui ≤ length d)%nat) →
  vendor_loop (S fuel) oui (pre ++ id :: Z.of_nat (length d) :: d ++ tail) (length pre)
    (Z.of_nat (2 + length d + length tail)) =
  if is_oui oui (id, d) then Some (Some (length pre))
  else vendor_loop fuel oui (pre ++ id :: Z.of_nat (length d) :: d ++ tail)
         (length pre + (2 + length d)) (Z.of_nat (length tail)).
Proof.
  intros Hl. cbn [vendor_loop].
  pose proof (lookup_app_plus pre (id :: Z.of_nat (length d) :: d ++ tail)) as Hlk.
  pose proof (Hlk 0%nat) as H0. pose proof (Hlk 1%nat) as H1.
  rewrite Nat.add_0_r in H0. rewrite Nat.add_1_r in H1. cbn in H0, H1.
  rewrite H0, H1. clear Hlk H0 H1. cbn [mbind option_bind].
  destruct (Z.ltb_spec (Z.of_nat (2 + length d + length tail)) 2); [lia|].
  rewrite Z.gtb_ltb.
  destruct (Z.ltb_spec (Z.of_nat (2 + length d + length tail) - 2) (Z.of_nat (length d))); [lia|].
  rewrite Nat2Z.id, (Nat.add_comm (length d) 2).
  replace (Z.of_nat (2 + length d + length tail) - 2 - Z.of_nat (length d))
    with (Z.of_nat (length tail)) by lia.
  unfold is_oui. cbn [fst snd]. destruct (Z.eqb_spec id SIR_MAC_EID_VENDOR) as [Hid|]; [|done].
  specialize (Hl Hid). cbn [andb]. rewrite cons_middle, (cons_middle (Z.of_nat _)), !app_assoc.
  rewrite <- !app_assoc, (app_assoc _ [_]), (app_assoc _ [_] (d ++ tail)).
  replace (length pre + 2)%nat with (length ((pre ++ [id]) ++ [Z.of_nat (length d)]))
    by (rewrite !length_app; cbn; lia).
  rewrite bytes_at_app by (rewrite length_app; lia). cbn [mbind option_bind].
  rewrite take_app_le by done. by destruct (decide _), (bool_decide_reflect (take (length oui) d = oui)).
Qed.

Lemma vendor_loop_run oui fuel pre es rest :
  Forall (long_enough oui) es → (length rest ≤ 1)%nat → (length es < fuel)%nat →
  vendor_loop fuel oui (pre ++ concat (elem_bytes <$> es) ++ rest) (length pre)
    (Z.of_nat (length (concat (elem_bytes <$> es) ++ rest))) =
  Some (Nat.add (length pre) <$> oui_offset oui es).
Proof.
  intros Hlong Hrest. revert fuel pre. induction Hlong as [|[id d] es Hl _ IH]; intros fuel pre Hf;
    (destruct fuel as [|fuel]; [simpl in Hf; lia|]).
  - cbn [vendor_loop]. simpl. destruct (Z.ltb_spec (Z.of_nat (length rest)) 2); [done|lia].
  - cbn [fmap list_fmap concat]. change (elem_bytes (id, d)) with (id :: Z.of_nat (length d) :: d).
    fold (elem_bytes <$> es). rewrite <- app_assoc. cbn [app].
    set (tail := concat (elem_bytes <$> es) ++ rest) in *.
    replace (Z.of_nat (length (id :: Z.of_nat (length d) :: d ++ tail)))
      with (Z.of_nat (2 + length d + length tail)) by (cbn; rewrite length_app; lia).
    rewrite vendor_loop_step by exact Hl. cbn [oui_offset].
    destruct (is_oui oui (id, d)); [simpl; by rewrite Nat.add_0_r|].
    specialize (IH fuel (pre ++ id :: Z.of_nat (length d) :: d) ltac:(simpl in Hf; lia)).
    rewrite <- app_assoc in IH. rewrite length_app in IH. cbn [length app] in IH.
    cbn [snd]. etrans; [exact IH|]. destruct (oui_offset oui es) as [k|]; [|done].
    simpl. do 2 f_equal. lia.
Qed.

(** The search for a vendor element.  In a buffer of well-formed elements,
    possibly followed by one stray byte, the pointer returned is that of the
    first vendor element whose data start with the identifier, and null when
    there is none; the loop ends and reads inside the buffer.  The vendor
    elements are assumed to be as long as the identifier, which the code does
    not test before it compares. *)
Theorem cfg_get_vendor_ie_ptr_from_oui_spec oui es rest :
  let ie := concat (elem_bytes <$> es) ++ rest in
  Forall (long_enough oui) es → (length rest ≤ 1)%nat →
  cfg_get_vendor_ie_ptr_from_oui oui ie (Z.of_nat (length ie)) = Some (oui_offset oui es).
Proof.
  intros ie Hlong Hrest. unfold cfg_get_vendor_ie_ptr_from_oui.
  assert (length es ≤ length ie)%nat as Hle.
  { unfold ie. rewrite length_app. clear. induction es; cbn; rewrite ?length_app; lia. }
  pose proof (vendor_loop_run oui (S (Z.to_nat (Z.of_nat (length ie)))) [] es rest Hlong Hrest
    ltac:(lia)) as H.
  cbn [app length] in H. etrans; [exact H|]. by destruct (oui_offset oui es).
Qed.

Lemma cfg_get_vendor_ie_ptr_from_oui_spec_witness :
  cfg_get_vendor_ie_ptr_from_oui [0; 80; 242] [0; 1; 65; 221; 4; 0; 80; 242; 2; 7] 10 = Some (Some 3%nat).
Proof.
  apply (cfg_get_vendor_ie_ptr_from_oui_spec [0; 80; 242] [(0, [65]); (221, [0; 80; 242; 2])] [7]).
  - apply Forall_cons. split; [by intros [=]|].
    apply Forall_cons. split; [intros _; cbn; lia|by apply Forall_nil].
  - cbn. lia.
Defined.

(** A vendor element that ends the buffer and is shorter than the identifier
    makes the comparison read past the buffer. *)
Lemma short_vendor_element_overreads :
  cfg_get_vendor_ie_ptr_from_oui [0; 80; 242] [221; 1; 0] 3 = None.
Proof. reflexivity. Qed.
