(* ===== verification/CfgDriver.v ===== *)
(** The configuration store of this driver: starting it with the driver's
    tables gives a store that represents the driver's parameters. *)
From S2P Require Import Prelude Cfg CfgBoot CfgTable CfgProofs CfgMsg CfgMsgProofs CfgQuery.

(** * A decision procedure for [bufs_rep] *)

Definition opt_eqb (o : option Z) (v : Z) : bool :=
  match o with Some w => w =? v | None => false end.

Definition param_atb (b : bufs) (k : nat) (p : cfg_param) : bool :=
  match p with
  | PInt v vmin vmax =>
      opt_eqb (b_ib b !! k) v && opt_eqb (b_mn b !! k) vmin && opt_eqb (b_mx b !! k) vmax
  | PStr cap data =>
      opt_eqb (b_sb b !! k) cap && opt_eqb (b_sb b !! S k) (Z.of_nat (length data)) &&
      bool_decide (take (length data) (drop (k + 2) (b_sb b)) = data) &&
      (Z.of_nat (length data) <=? cap) && (cap <=? 255) &&
      (k + 2 + Z.to_nat cap <=? length (b_sb b))%nat
  end.

Definition apartb (k : nat) (p : cfg_param) (k' : nat) (p' : cfg_param) : bool :=
  match p, p' with
  | PInt _ _ _, PInt _ _ _ => negb (k =? k')%nat
  | PStr cap _, PStr cap' _ =>
      (k + 2 + Z.to_nat cap <=? k')%nat || (k' + 2 + Z.to_nat cap' <=? k)%nat
  | _, _ => true
  end.

Definition ids : list Z := seqZ 0 CFG_PARAM_MAX_NUM.

Definition placed (b : bufs) (A : params) : list (Z * nat * cfg_param) :=
  omap (λ id, p ← A id; Some (id, pos b id, p)) ids.

Definition bufs_repb (b : bufs) (A : params) : bool :=
  (length (b_ctl b) =? Z.to_nat CFG_PARAM_MAX_NUM)%nat &&
  forallb (λ id,
    match A id with
    | None => negb (has_flag (control_of b id) CFG_CTL_VALID)
    | Some p =>
        has_flag (control_of b id) CFG_CTL_VALID && param_atb b (pos b id) p &&
        (pos b id <? length (b_sb b))%nat &&
        Bool.eqb (has_flag (control_of b id) CFG_CTL_INT) (is_PInt p)
    end) ids &&
  forallb (λ x, forallb (λ y, (x.1.1 =? y.1.1) || apartb x.1.2 x.2 y.1.2 y.2) (placed b A))
    (placed b A).

Lemma opt_eqb_spec o v : opt_eqb o v = true → o = Some v.
Proof. destruct o; simpl; [|done]. by intros ->%Z.eqb_eq. Qed.

Lemma param_atb_sound b k p : param_atb b k p = true → param_at b k p.
Proof.
  destruct p; simpl; rewrite ?andb_true_iff; intros; destruct_and?;
    split_and!; try by apply opt_eqb_spec.
  - by eapply bool_decide_eq_true_1.
  - by apply Z.leb_le.
  - by apply Z.leb_le.
  - by apply Nat.leb_le.
Qed.

Lemma apartb_sound k p k' p' : apartb k p k' p' = true → apart k p k' p'.
Proof.
  destruct p, p'; simpl; try done.
  - intros H%negb_true_iff%Nat.eqb_neq. done.
  - rewrite orb_true_iff, !Nat.leb_le. done.
Qed.

Lemma elem_of_ids id : id ∈ ids ↔ 0 ≤ id < CFG_PARAM_MAX_NUM.
Proof. unfold ids. rewrite elem_of_seqZ. unfold CFG_PARAM_MAX_NUM. lia. Qed.

Lemma bufs_repb_sound b A :
  (∀ id, A id ≠ None → 0 ≤ id < CFG_PARAM_MAX_NUM) → bufs_repb b A = true → bufs_rep b A.
Proof.
  intros Hdom. unfold bufs_repb. rewrite !andb_true_iff, !forallb_forall.
  intros [[Hlen Hids] Hap].
  assert (∀ id p, A id = Some p → id ∈ ids) as Hin.
  { intros id p HA. apply elem_of_ids, Hdom. by rewrite HA. }
  assert (∀ id p, A id = Some p → (id, pos b id, p) ∈ placed b A) as Hpl.
  { intros id p HA. unfold placed. apply list_elem_of_omap. exists id.
    split; [by eapply Hin|]. by rewrite HA. }
  split.
  - by apply Nat.eqb_eq.
  - done.
  - intros id Hid. apply elem_of_ids, list_elem_of_In in Hid. specialize (Hids _ Hid).
    destruct (A id) as [p|]; [|by apply negb_true_iff in Hids].
    rewrite !andb_true_iff in Hids. destruct Hids as [[[-> _] _] _]. done.
  - intros id p HA. pose proof (Hin _ _ HA) as Hid. apply list_elem_of_In in Hid.
    specialize (Hids _ Hid). rewrite HA, !andb_true_iff in Hids. destruct Hids as [[[_ Hp] Hl] Hi].
    split_and!; [by apply param_atb_sound|by apply Nat.ltb_lt|by apply eqb_prop].
  - intros i j p q Hi Hj Hne.
    specialize (Hap (i, pos b i, p) ltac:(by apply list_elem_of_In, Hpl)).
    rewrite forallb_forall in Hap.
    specialize (Hap (j, pos b j, q) ltac:(by apply list_elem_of_In, Hpl)). simpl in Hap.
    apply orb_true_iff in Hap as [H%Z.eqb_eq|H]; [done|]. by apply apartb_sound.
Qed.

(** * The driver's parameters *)

Definition driver_param (x : cgstatic) : option cfg_param :=
  if negb (is_valid x) then None
  else if is_int x then Some (PInt (cs_cfgIVal x) (cs_cfgIMin x) (cs_cfgIMax x))
  else
    s ← head (filter (λ s, ss_cfgId s = cs_cfgId x) driver_cfg_static_string);
    Some (PStr (ss_maxLen s) (take (Z.to_nat (ss_length s)) (ss_data s))).

(** The valid parameters of [cfg_static], with their limits and defaults. *)
Definition driver_params : params := λ id,
  if (0 <=? id) && (id <? CFG_PARAM_MAX_NUM) then
    x ← driver_cfg_static !! Z.to_nat id; driver_param x
  else None.

(** Before [cfg_init]. *)
Definition fresh_store : tAniSirCfg :=
  mk_cfg CFG_INCOMPLETE None None None None None 0 0 None None driver_cfg_static [0; 0; 0] [].

Definition boot : CFG Z :=
  st ← cfg_init driver_cfg_static_string true; process_cfg_download_req;; mret st.

(** What [boot] leaves, and the check of it. *)
Definition bufs_of (c : tAniSirCfg) : option bufs :=
  ctl ← gCfgEntry c; sb ← gCfgSBuf c; ib ← gCfgIBuf c; mn ← gCfgIBufMin c; mx ← gCfgIBufMax c;
  Some (mk_bufs ctl sb ib mn mx).

Definition default_okb (id : Z) : bool :=
  match driver_params id with
  | Some (PInt v vmin vmax) => (vmin <=? v) && (v <=? vmax)
  | _ => true
  end.

(** The flags of a control word, without the position. *)
Definition flags_of (w : Z) : Z := Z.land w 0xFFFFF000.

Definition flags_okb (b : bufs) (id : Z) : bool :=
  match driver_cfg_static !! Z.to_nat id with
  | Some x => flags_of (control_of b id) =? cs_control x
  | None => false
  end.

Definition msg_okb (c : tAniSirCfg) : bool :=
  match gSBuffer c, gParamList c with
  | Some buf, Some pl =>
      (length buf =? Z.to_nat CFG_MAX_STR_LEN)%nat && (3 <=? length pl)%nat &&
      negb (gCfgStatus c =? CFG_INCOMPLETE)
  | _, _ => false
  end.

Lemma msg_okb_sound c : msg_okb c = true → msg_ok c.
Proof.
  unfold msg_okb. destruct (gSBuffer c) as [buf|] eqn:Hb; [|done].
  destruct (gParamList c) as [pl|] eqn:Hp; [|done].
  rewrite !andb_true_iff, negb_true_iff, Z.eqb_neq, Nat.leb_le, Nat.eqb_eq.
  intros [[H1 H2] H3]. split; [by exists buf|by exists pl|done].
Qed.

Definition boot_check (r : option (Z * tAniSirCfg)) : bool :=
  match r with
  | None => false
  | Some (st, c) =>
      match bufs_of c with
      | None => false
      | Some b =>
          (st =? eSIR_SUCCESS) && (gCfgStatus c =? CFG_SUCCESS) &&
          (gCfgMaxSBufSize c =? Z.of_nat (length (b_sb b))) && bufs_repb b driver_params &&
          forallb default_okb ids && msg_okb c && bool_decide (cfg_log c = []) &&
          forallb (flags_okb b) ids
      end
  end.

Lemma boot_checked : boot_check (boot fresh_store) = true.
Proof. vm_compute. reflexivity. Qed.

Lemma bufs_of_store c b :
  bufs_of c = Some b → gCfgMaxSBufSize c = Z.of_nat (length (b_sb b)) → store_bufs c b.
Proof.
  unfold bufs_of, store_bufs. destruct (gCfgEntry c), (gCfgSBuf c), (gCfgIBuf c), (gCfgIBufMin c),
    (gCfgIBufMax c); simpl; try done. by intros [= <-].
Qed.

Definition boot_result (r : option (Z * tAniSirCfg)) : Prop :=
  ∃ ctl c, r = Some (eSIR_SUCCESS, c) ∧ gCfgStatus c = CFG_SUCCESS ∧
    cfg_rep ctl c driver_params ∧ msg_ok c ∧ cfg_log c = [] ∧
    (∀ id x, 0 ≤ id < CFG_PARAM_MAX_NUM → driver_cfg_static !! Z.to_nat id = Some x →
      flags_of (ctl_word ctl id) = cs_control x) ∧
    ∀ id v vmin vmax, driver_params id = Some (PInt v vmin vmax) → vmin ≤ v ≤ vmax.

Lemma boot_check_sound r : boot_check r = true → boot_result r.
Proof.
  unfold boot_check. intros H. destruct r as [[st c]|]; [|done].
  destruct (bufs_of c) as [b|] eqn:Hb; [|done].
  rewrite !andb_true_iff, !forallb_forall in H.
  destruct H as [[[[[[[Hst Hok] Hm] Hrep] Hdef] Hmsg] Hlog] Hflags].
  apply Z.eqb_eq in Hst, Hok, Hm.
  assert (∀ id, driver_params id ≠ None → 0 ≤ id < CFG_PARAM_MAX_NUM) as Hdom.
  { intros id. unfold driver_params. destruct (Z.leb_spec 0 id), (Z.ltb_spec id CFG_PARAM_MAX_NUM);
      done. }
  exists (b_ctl b), c. split_and!;
    [by subst|done| |by apply msg_okb_sound|by eapply bool_decide_eq_true_1| |].
  - exists b. split_and!; [done|by apply bufs_of_store|by apply bufs_repb_sound].
  - intros id x Hid Hx. specialize (Hflags id ltac:(by apply list_elem_of_In, elem_of_ids)).
    unfold flags_okb in Hflags. rewrite Hx in Hflags. by apply Z.eqb_eq.
  - intros id v vmin vmax HA. specialize (Hdef id). unfold default_okb in Hdef. rewrite HA in Hdef.
    rewrite andb_true_iff, !Z.leb_le in Hdef. apply Hdef, list_elem_of_In, elem_of_ids, Hdom.
    by rewrite HA.
Qed.

(** C26. Starting the driver's store works.  [cfg_init] followed by the
    configuration download, with the driver's own tables of 293 parameters and
    52 strings, stays within the buffers, reports success, marks the store
    ready to answer requests, and leaves a store that represents exactly the valid parameters of
    the tables with their flags, limits and defaults, no two of them overlapping; and
    every default integer is within its limits. *)
Theorem driver_boot_ok :
  ∃ ctl c, boot fresh_store = Some (eSIR_SUCCESS, c) ∧ gCfgStatus c = CFG_SUCCESS ∧
    cfg_rep ctl c driver_params ∧ msg_ok c ∧ cfg_log c = [] ∧
    (∀ id x, 0 ≤ id < CFG_PARAM_MAX_NUM → driver_cfg_static !! Z.to_nat id = Some x →
      flags_of (ctl_word ctl id) = cs_control x) ∧
    ∀ id v vmin vmax, driver_params id = Some (PInt v vmin vmax) → vmin ≤ v ≤ vmax.
Proof. exact (boot_check_sound _ boot_checked). Qed.

(** Parameter 17 is the fragmentation threshold, 4 the SSID. *)
Definition sample_ops : list cfg_op :=
  [OpGetInt 17; OpSetInt 17 255; OpSetInt 17 2346; OpGetInt 17; OpSetStr 4 [65; 66];
   OpGetStr 4 1; OpGetStr 4 32; OpGetInt 1].

Definition sample_results : list (Z * cfg_res) :=
  [(0, RInt 8000); (2601, RNone); (0, RNone); (0, RInt 2346); (0, RNone); (2602, RNone);
   (0, RStr [65; 66]); (2601, RNone)].

Lemma specs_results ops A rs :
  option_map fst (cfg_specs ops A) = Some rs → ∃ A', cfg_specs ops A = Some (rs, A').
Proof. destruct (cfg_specs ops A) as [[rs' A']|]; simpl; [intros [= ->]; by exists A'|done]. Qed.

Lemma sample_specs : option_map fst (cfg_specs sample_ops driver_params) = Some sample_results.
Proof. vm_compute. reflexivity. Qed.

Lemma cfg_store_refines_map_witness :
  ∃ ctl c c', cfg_rep ctl c driver_params ∧ cfg_execs sample_ops c = Some (sample_results, c').
Proof.
  destruct (boot_check_sound _ boot_checked) as (ctl & c & _ & _ & Hc & _). exists ctl, c.
  destruct (specs_results _ _ _ sample_specs) as [A' HA].
  destruct (cfg_store_refines_map ctl c driver_params sample_ops sample_results A' Hc HA)
    as (c' & Hrun & _).
  exists c'. split; [exact Hc|exact Hrun].
Defined.

(** The SSID is set to two bytes, the retry limit to an out-of-range value. *)
Definition sample_tlvs : list (Z * list Z) := [(4, [65; 66]); (15, [0; 1; 0; 0]); (300, [])].

Lemma sample_tlvs_ok : Forall tlv_ok sample_tlvs.
Proof.
  assert (∀ x, 0 ≤ x < 256 → is_byte x) as Hb by done.
  repeat constructor; simpl; try lia; apply Hb; lia.
Qed.

Lemma proc_set_req_spec_witness :
  ∃ ctl c c', cfg_rep ctl c driver_params ∧
    proc_set_req_internal true (4 * Z.of_nat (length (encode sample_tlvs))) (encode sample_tlvs)
      true c = Some (tt, c') ∧
    cfg_rep ctl c' (set_specs ctl driver_params sample_tlvs).2.
Proof.
  destruct (boot_check_sound _ boot_checked) as (ctl & c & _ & _ & Hc & Hm & _). exists ctl, c.
  destruct (proc_set_req_spec true ctl c driver_params sample_tlvs true Hc Hm sample_tlvs_ok)
    as (c' & Hrun & Hc' & _).
  exists c'. split; [exact Hc|split; [exact Hrun|exact Hc']].
Defined.

Lemma proc_get_req_spec_witness :
  ∃ ctl c c', cfg_rep ctl c driver_params ∧
    proc_get_req true (4 * Z.of_nat (length [17; 4; 300])) [17; 4; 300] c = Some (tt, c').
Proof.
  destruct (boot_check_sound _ boot_checked) as (ctl & c & _ & _ & Hc & Hm & _). exists ctl, c.
  destruct (proc_get_req_spec ctl c driver_params [17; 4; 300] Hc Hm) as (c' & _ & Hrun & _).
  - repeat constructor; lia.
  - exists c'. split; [exact Hc|exact Hrun].
Defined.

(** A set request that gives the SSID 300 bytes. *)
Lemma proc_set_req_overflows_witness :
  ∃ ctl c, cfg_rep ctl c driver_params ∧
    proc_set_req_internal true 308 (4 :: 300 :: replicate 75 0) true c = None.
Proof.
  destruct (boot_check_sound _ boot_checked) as (ctl & c & _ & _ & Hc & Hm & _ & Hflags & _).
  exists ctl, c. split; [exact Hc|].
  assert (∃ cap old, driver_params 4 = Some (PStr cap old)) as (cap & old & Hp).
  { eexists _, _. vm_compute. reflexivity. }
  apply (proc_set_req_overflows true ctl c driver_params 4 300 cap old).
  - exact Hc.
  - exact Hm.
  - exact Hp.
  - specialize (Hflags 4 _ ltac:(unfold CFG_PARAM_MAX_NUM; lia) eq_refl).
    unfold has_flag. change CFG_CTL_WE with (Z.land 0xFFFFF000 CFG_CTL_WE).
    rewrite Z.land_assoc. unfold flags_of in Hflags. rewrite Hflags. reflexivity.
  - unfold CFG_MAX_STR_LEN. lia.
  - vm_compute. discriminate.
Defined.

(** Channel 36 at 5 GHz. *)
Lemma dot11d_transmit_power_spec_witness :
  ∃ ctl c, cfg_rep ctl c driver_params ∧
    cfg_get_dot11d_transmit_power true WNI_CFG_MAX_TX_POWER_5 WNI_CFG_MAX_TX_POWER_LEN 36 c =
      Some (20, c).
Proof.
  destruct (boot_check_sound _ boot_checked) as (ctl & c & _ & _ & Hc & _).
  exists ctl, c. split; [exact Hc|].
  apply (dot11d_transmit_power_spec ctl c driver_params WNI_CFG_MAX_TX_POWER_5
    WNI_CFG_MAX_TX_POWER_LEN 36 128 [(36, 126, 20)] Hc).
  - vm_compute. reflexivity.
  - discriminate.
  - vm_compute. discriminate.
Defined.

(** A parameter that is empty in the driver's table. *)
Lemma dot11d_transmit_power_empty_overreads_witness :
  ∃ ctl c cap, cfg_rep ctl c driver_params ∧ driver_params 8 = Some (PStr cap []) ∧
    cfg_get_dot11d_transmit_power true 8 WNI_CFG_MAX_TX_POWER_LEN 36 c = None.
Proof.
  destruct (boot_check_sound _ boot_checked) as (ctl & c & _ & _ & Hc & _).
  assert (∃ cap, driver_params 8 = Some (PStr cap [])) as [cap Hcap].
  { eexists. vm_compute. reflexivity. }
  exists ctl, c, cap. split; [exact Hc|split; [exact Hcap|]].
  apply (dot11d_transmit_power_empty_overreads ctl c driver_params 8 WNI_CFG_MAX_TX_POWER_LEN 36 cap Hc).
  - exact Hcap.
  - vm_compute. discriminate.
  - vm_compute. discriminate.
Defined.
