(* ===== verification/Dph.v ===== *)
(** The table of stations: [core/mac/src/dph/dph_hash_table.c] and the node
    and table of [core/mac/src/include/dph_global.h] and
    [core/mac/src/dph/dph_hash_table.h].  A node pointer is the index of the
    node in [pDphNodeArray]. *)
From S2P Require Import Prelude Cfg CfgProofs.

(** * Data *)

(** A station address, its bytes. *)
Record tSirMacAddr : Type := mk_mac {
  mac0 : Z;
  mac1 : Z;
  mac2 : Z;
  mac3 : Z;
  mac4 : Z;
  mac5 : Z;
}.

#[export] Instance mac_eq_dec : EqDecision tSirMacAddr.
Proof. solve_decision. Defined.

Definition zero_mac : tSirMacAddr := mk_mac 0 0 0 0 0 0.

(** A station; [others] are the bytes of the members that this file only
    clears. *)
Record tDphHashNode : Type := mk_node {
  valid : Z;
  added : Z;
  encPolicy : Z;
  staAddr : tSirMacAddr;
  assocId : Z;
  staIndex : Z;
  fragSize : Z;
  is_disassoc_deauth_in_progress : Z;
  last_assoc_received_time : Z;
  others : list Z;
  next : option nat;
}.

Definition set_valid (v : Z) (r : tDphHashNode) : tDphHashNode :=
  mk_node v (added r) (encPolicy r) (staAddr r) (assocId r) (staIndex r) (fragSize r) (is_disassoc_deauth_in_progress r) (last_assoc_received_time r) (others r) (next r).
Definition set_added (v : Z) (r : tDphHashNode) : tDphHashNode :=
  mk_node (valid r) v (encPolicy r) (staAddr r) (assocId r) (staIndex r) (fragSize r) (is_disassoc_deauth_in_progress r) (last_assoc_received_time r) (others r) (next r).
Definition set_encPolicy (v : Z) (r : tDphHashNode) : tDphHashNode :=
  mk_node (valid r) (added r) v (staAddr r) (assocId r) (staIndex r) (fragSize r) (is_disassoc_deauth_in_progress r) (last_assoc_received_time r) (others r) (next r).
Definition set_staAddr (v : tSirMacAddr) (r : tDphHashNode) : tDphHashNode :=
  mk_node (valid r) (added r) (encPolicy r) v (assocId r) (staIndex r) (fragSize r) (is_disassoc_deauth_in_progress r) (last_assoc_received_time r) (others r) (next r).
Definition set_assocId (v : Z) (r : tDphHashNode) : tDphHashNode :=
  mk_node (valid r) (added r) (encPolicy r) (staAddr r) v (staIndex r) (fragSize r) (is_disassoc_deauth_in_progress r) (last_assoc_received_time r) (others r) (next r).
Definition set_staIndex (v : Z) (r : tDphHashNode) : tDphHashNode :=
  mk_node (valid r) (added r) (encPolicy r) (staAddr r) (assocId r) v (fragSize r) (is_disassoc_deauth_in_progress r) (last_assoc_received_time r) (others r) (next r).
Definition set_fragSize (v : Z) (r : tDphHashNode) : tDphHashNode :=
  mk_node (valid r) (added r) (encPolicy r) (staAddr r) (assocId r) (staIndex r) v (is_disassoc_deauth_in_progress r) (last_assoc_received_time r) (others r) (next r).
Definition set_is_disassoc_deauth_in_progress (v : Z) (r : tDphHashNode) : tDphHashNode :=
  mk_node (valid r) (added r) (encPolicy r) (staAddr r) (assocId r) (staIndex r) (fragSize r) v (last_assoc_received_time r) (others r) (next r).
Definition set_last_assoc_received_time (v : Z) (r : tDphHashNode) : tDphHashNode :=
  mk_node (valid r) (added r) (encPolicy r) (staAddr r) (assocId r) (staIndex r) (fragSize r) (is_disassoc_deauth_in_progress r) v (others r) (next r).
Definition set_others (v : list Z) (r : tDphHashNode) : tDphHashNode :=
  mk_node (valid r) (added r) (encPolicy r) (staAddr r) (assocId r) (staIndex r) (fragSize r) (is_disassoc_deauth_in_progress r) (last_assoc_received_time r) v (next r).
Definition set_next (v : option nat) (r : tDphHashNode) : tDphHashNode :=
  mk_node (valid r) (added r) (encPolicy r) (staAddr r) (assocId r) (staIndex r) (fragSize r) (is_disassoc_deauth_in_progress r) (last_assoc_received_time r) (others r) v.
(** The table: the heads of the bucket chains, and the nodes. *)
Record dphHashTableClass : Type := mk_table {
  pHashTable : list (option nat);
  pDphNodeArray : list tDphHashNode;
  size : Z;
}.

Definition set_pHashTable (v : list (option nat)) (r : dphHashTableClass) : dphHashTableClass :=
  mk_table v (pDphNodeArray r) (size r).
Definition set_pDphNodeArray (v : list tDphHashNode) (r : dphHashTableClass) : dphHashTableClass :=
  mk_table (pHashTable r) v (size r).
Definition set_size (v : Z) (r : dphHashTableClass) : dphHashTableClass :=
  mk_table (pHashTable r) (pDphNodeArray r) v.
(** The driver's global structure: the part where parameters are read, and
    the table the operations work on. *)
Record dph_mac (S : Type) : Type := mk_dph_mac { dph_cfg : S; dphHashTable : dphHashTableClass }.
Arguments mk_dph_mac {S} _ _.
Arguments dph_cfg {S} _.
Arguments dphHashTable {S} _.

Definition set_dph_cfg {S} (v : S) (r : dph_mac S) : dph_mac S := mk_dph_mac v (dphHashTable r).
Definition set_dphHashTable {S} (v : dphHashTableClass) (r : dph_mac S) : dph_mac S :=
  mk_dph_mac (dph_cfg r) v.

Abbreviation DPH := (CM dphHashTableClass).

Definition STA_INVALID_IDX : Z := 0xFF.
Definition ENC_POLICY_NULL : Z := 0.
Definition WNI_CFG_FRAGMENTATION_THRESHOLD : Z := 17.

(** * Nodes and buckets *)

Definition get_node_at (p : nat) : DPH tDphHashNode := l ← gets pDphNodeArray; deref (l !! p).

(** [p->member = value] *)
Definition upd_node (p : nat) (f : tDphHashNode → tDphHashNode) : DPH unit :=
  x ← get_node_at p;
  modify (λ t, set_pDphNodeArray (<[p := f x]> (pDphNodeArray t)) t).

(** [pHashTable[i]] *)
Definition get_bucket (i : nat) : DPH (option nat) := l ← gets pHashTable; deref (l !! i).
Definition put_bucket (i : nat) (p : option nat) : DPH unit :=
  _ ← get_bucket i; modify (λ t, set_pHashTable (<[i := p]> (pHashTable t)) t).

Definition dph_compare_mac_addr (addr1 addr2 : tSirMacAddr) : bool :=
  (mac0 addr1 =? mac0 addr2) && (mac1 addr1 =? mac1 addr2) && (mac2 addr1 =? mac2 addr2) &&
  (mac3 addr1 =? mac3 addr2) && (mac4 addr1 =? mac4 addr2) && (mac5 addr1 =? mac5 addr2).

(** * Operations *)

Definition dph_hash_table_class_init : DPH unit :=
  n ← gets (λ t, Z.to_nat (size t));
  for_each (seq 0 n) (λ i, put_bucket i None);;
  for_each (seq 0 n) (λ i,
    upd_node i (λ x, set_assocId (u16 (Z.of_nat i)) (set_added 0 (set_valid 0 x)))).

(** The sum of the bytes, in a 16-bit variable, modulo [numSta]; a division by
    zero has no result. *)
Definition hash_function (a : tSirMacAddr) (numSta : Z) : option nat :=
  let sum := fold_left (λ sum b, u16 (sum + b))
    [mac0 a; mac1 a; mac2 a; mac3 a; mac4 a; mac5 a] 0 in
  if numSta =? 0 then None else Some (Z.to_nat (sum mod numSta)).

Definition bucket_of (a : tSirMacAddr) : DPH nat :=
  n ← gets size; deref (hash_function a n).

(** The walk down a chain; the fuel is the number of nodes, so only a cyclic
    chain exhausts it. *)
Fixpoint lookup_loop (fuel : nat) (a : tSirMacAddr) (ptr : option nat) : DPH (option nat) :=
  match ptr, fuel with
  | None, _ => mret None
  | Some p, O => ub
  | Some p, S fuel =>
      x ← get_node_at p;
      if dph_compare_mac_addr a (staAddr x) then mret (Some p) else lookup_loop fuel a (next x)
  end.

Definition chain_fuel : DPH nat := gets (λ t, length (pDphNodeArray t)).

(** The node found, and the value written to [*pAssocId]. *)
Definition dph_lookup_hash_entry (a : tSirMacAddr) : DPH (option (nat * Z)) :=
  index ← bucket_of a;
  head ← get_bucket index;
  fuel ← chain_fuel;
  ptr ← lookup_loop fuel a head;
  match ptr with
  | Some p => x ← get_node_at p; mret (Some (p, assocId x))
  | None => mret None
  end.

Definition dph_get_hash_entry (peerIdx : Z) : DPH (option nat) :=
  n ← gets size;
  if peerIdx <? n then
    x ← get_node_at (Z.to_nat peerIdx);
    mret (if added x =? 0 then None else Some (Z.to_nat peerIdx))
  else mret None.

Definition get_node (assocId : Z) : nat := Z.to_nat (u8 assocId).

(** The loop with its 8-bit counter. *)
Fixpoint assoc_loop (fuel : nat) (i staIdx : Z) : DPH Z :=
  match fuel with
  | O => ub
  | S fuel =>
      n ← gets size;
      if i <? n then
        x ← get_node_at (Z.to_nat i);
        if negb (added x =? 0) && (staIndex x =? staIdx) then mret i
        else assoc_loop fuel (u8 (i + 1)) staIdx
      else mret i
  end.

Definition dph_lookup_assoc_id_fuel (fuel : nat) (staIdx : Z) : DPH (option nat) :=
  i ← assoc_loop fuel 0 staIdx;
  n ← gets size;
  mret (if i =? n then None else Some (Z.to_nat i)).

(** With room for all the values of the counter. *)
Definition dph_lookup_assoc_id : Z → DPH (option nat) := dph_lookup_assoc_id_fuel 257.

(** [cdf_mem_set] over all of the node but its last member. *)
Definition clear_node (x : tDphHashNode) : tDphHashNode :=
  mk_node 0 0 0 zero_mac 0 0 0 0 0 (replicate (length (others x)) 0) (next x).

(** The loop of [dph_add_hash_entry]; [None] when a node is its own successor. *)
Fixpoint dup_loop (fuel : nat) (a : tSirMacAddr) (id : Z) (ptr : option nat) :
    DPH (option (option nat)) :=
  match ptr, fuel with
  | None, _ => mret (Some None)
  | Some p, O => ub
  | Some p, S fuel =>
      x ← get_node_at p;
      if decide (next x = Some p) then mret None
      else if dph_compare_mac_addr a (staAddr x) || (assocId x =? id) then mret (Some (Some p))
      else dup_loop fuel a id (next x)
  end.

(** The loop of [dph_delete_hash_entry]: [prev] and [ptr], or [None] for the
    failure it reports when they are equal. *)
Fixpoint find_loop (fuel : nat) (a : tSirMacAddr) (prev ptr : option nat) :
    DPH (option (option nat * option nat)) :=
  match ptr, fuel with
  | None, _ => mret (Some (prev, None))
  | Some p, O => ub
  | Some p, S fuel =>
      x ← get_node_at p;
      if dph_compare_mac_addr a (staAddr x) then mret (Some (prev, Some p))
      else if decide (prev = Some p) then mret None
      else find_loop fuel a (Some p) (next x)
  end.

(** The bookkeeping of a node that leaves the table. *)
Definition retire_node (x : tDphHashNode) : tDphHashNode :=
  set_next None (set_last_assoc_received_time 0 (set_is_disassoc_deauth_in_progress 0
    (set_added 0 (set_staAddr zero_mac (set_valid 0 x))))).

Definition dph_delete_hash_entry (a : tSirMacAddr) (id : Z) : DPH Z :=
  index ← bucket_of a;
  n ← gets size;
  if id >=? n then mret eSIR_FAILURE
  else
    x ← get_node_at (Z.to_nat id);
    if added x =? 0 then mret eSIR_FAILURE
    else
      head ← get_bucket index;
      fuel ← chain_fuel;
      r ← find_loop fuel a None head;
      match r with
      | None => mret eSIR_FAILURE
      | Some (_, None) => mret eSIR_FAILURE
      | Some (prev, Some p) =>
          y ← get_node_at p;
          match prev with
          | None => put_bucket index (next y)
          | Some q => upd_node q (set_next (next y))
          end;;
          upd_node p retire_node;;
          mret eSIR_SUCCESS
      end.

Section reader.
Context {S : Type} {R : CfgReader S}.

Abbreviation DPHM := (CM (dph_mac S)).

Definition on_table {A} : DPH A → DPHM A := zoom dphHashTable set_dphHashTable.
Definition on_cfg {A} : CM S A → DPHM A := zoom dph_cfg set_dph_cfg.

Definition dph_init_sta_state (a : tSirMacAddr) (id : Z) (validStaIdx : bool) : DPHM (option nat) :=
  n ← on_table (gets size);
  if id >=? n then mret None
  else
    let pStaDs := get_node id in
    x ← on_table (get_node_at pStaDs);
    let staIdx := staIndex x in
    on_table (upd_node pStaDs clear_node);;
    on_table (upd_node pStaDs (set_assocId id));;
    on_table (upd_node pStaDs (set_staIndex (if validStaIdx then staIdx else STA_INVALID_IDX)));;
    on_table (upd_node pStaDs (set_staAddr a));;
    '(st, v) ← on_cfg (reader_get_int WNI_CFG_FRAGMENTATION_THRESHOLD);
    (if negb (st =? eSIR_SUCCESS) then mret tt
     else v ← deref v; on_table (upd_node pStaDs (set_fragSize (u16 v))));;
    on_table (upd_node pStaDs (set_added 1));;
    on_table (upd_node pStaDs (set_encPolicy ENC_POLICY_NULL));;
    on_table (upd_node pStaDs (set_is_disassoc_deauth_in_progress 0));;
    on_table (upd_node pStaDs (set_last_assoc_received_time 0));;
    on_table (upd_node pStaDs (set_valid 1));;
    mret (Some pStaDs).

Definition dph_add_hash_entry (a : tSirMacAddr) (id : Z) : DPHM (option nat) :=
  index ← on_table (bucket_of a);
  n ← on_table (gets size);
  if id >=? n then mret None
  else
    x ← on_table (get_node_at (Z.to_nat id));
    if negb (added x =? 0) then mret None
    else
      head ← on_table (get_bucket index);
      fuel ← on_table chain_fuel;
      r ← on_table (dup_loop fuel a id head);
      match r with
      | None => mret None
      | Some (Some _) => mret None
      | Some None =>
          q ← dph_init_sta_state a id false;
          match q with
          | None => mret None
          | Some _ =>
              head ← on_table (get_bucket index);
              on_table (upd_node (Z.to_nat id) (set_next head));;
              on_table (put_bucket index (Some (Z.to_nat id)));;
              on_table (get_bucket index)
          end
      end.
End reader.
