(* ===== verification/DphProofs.v ===== *)
(** The table of stations is a map from association identifiers to distinct
    addresses: the invariant of its chains, what each operation does to the
    map, and the initial state of a station. *)
From S2P Require Import Prelude Cfg CfgProofs Dph.

(** * The abstract table *)

Abbreviation stations := (gmap nat tSirMacAddr).

(** The identifier of an address. *)
Definition owner (A : stations) (a : tSirMacAddr) : option nat :=
  fst <$> head (filter (λ kv, kv.2 = a) (map_to_list A)).

Definition injective (A : stations) : Prop :=
  ∀ k k' a, A !! k = Some a → A !! k' = Some a → k = k'.

Lemma owner_Some A a k : injective A → owner A a = Some k ↔ A !! k = Some a.
Proof.
  intros Hinj. unfold owner. split.
  - destruct (filter _ _) as [|[k' a'] l] eqn:E; [done|]. intros [= ->].
    assert ((k, a') ∈ filter (λ kv : nat * tSirMacAddr, kv.2 = a) (map_to_list A)) as H
      by (rewrite E; left).
    apply list_elem_of_filter in H as [Ha H]. simpl in Ha. subst. by apply elem_of_map_to_list.
  - intros HA. assert ((k, a) ∈ filter (λ kv : nat * tSirMacAddr, kv.2 = a) (map_to_list A)) as H.
    { apply list_elem_of_filter. split; [done|]. by apply elem_of_map_to_list. }
    destruct (filter _ _) as [|[k' a'] l] eqn:E; [by apply elem_of_nil in H|]. simpl. f_equal.
    assert ((k', a') ∈ filter (λ kv : nat * tSirMacAddr, kv.2 = a) (map_to_list A)) as H'
      by (rewrite E; left).
    apply list_elem_of_filter in H' as [Ha H']. simpl in Ha. subst.
    apply elem_of_map_to_list in H'. by eapply Hinj.
Qed.

Lemma owner_None A a : injective A → owner A a = None ↔ ∀ k, A !! k ≠ Some a.
Proof.
  intros Hinj. split.
  - intros HN k Hk. apply (owner_Some _ _ _ Hinj) in Hk. by rewrite HN in Hk.
  - intros HN. destruct (owner A a) as [k|] eqn:E; [|done].
    apply (owner_Some _ _ _ Hinj) in E. by destruct (HN k).
Qed.

(** * Chains *)

(** The pointer [h] heads a chain of the nodes [l]. *)
Fixpoint chain (nodes : list tDphHashNode) (h : option nat) (l : list nat) : Prop :=
  match l with
  | [] => h = None
  | p :: l => h = Some p ∧ ∃ x, nodes !! p = Some x ∧ chain nodes (next x) l
  end.

(** A chain depends on the pointers of its nodes only. *)
Lemma chain_ext nodes nodes' h l :
  (∀ p x, p ∈ l → nodes !! p = Some x → ∃ x', nodes' !! p = Some x' ∧ next x' = next x) →
  chain nodes h l → chain nodes' h l.
Proof.
  revert h. induction l as [|p l IH]; intros h Heq; simpl; [done|].
  intros (-> & x & Hx & Hl). split; [done|].
  destruct (Heq p x ltac:(by left) Hx) as (x' & Hx' & Hn). exists x'. split; [done|].
  rewrite Hn. apply IH; [|done]. intros q y Hq. apply Heq. by right.
Qed.

Lemma chain_insert_other nodes h l p y : p ∉ l → chain nodes h l → chain (<[p := y]> nodes) h l.
Proof.
  intros Hp. apply chain_ext. intros q x Hq Hx. exists x.
  by rewrite list_lookup_insert_ne by (intros ->; done).
Qed.

Lemma NoDup_bounded_length (l : list nat) n :
  NoDup l → (∀ x, x ∈ l → (x < n)%nat) → (length l ≤ n)%nat.
Proof.
  intros Hnd Hlt. rewrite <- (length_seq n 0). apply submseteq_length, NoDup_submseteq; [done|].
  intros x Hx. apply elem_of_seq. specialize (Hlt x Hx). lia.
Qed.

(** A node of a chain without repetitions is not its own successor. *)
Lemma chain_next_ne nodes p x l :
  chain nodes (next x) l → p ∉ l → next x ≠ Some p.
Proof. destruct l as [|q l]; simpl; [by intros ->|]. intros [-> _] Hn [= ->]. set_solver. Qed.

(** * The invariant *)

Lemma hash_lt a n i : 0 < n → hash_function a n = Some i → (i < Z.to_nat n)%nat.
Proof.
  unfold hash_function. cbv zeta. generalize (fold_left (λ sum b, u16 (sum + b))
    [mac0 a; mac1 a; mac2 a; mac3 a; mac4 a; mac5 a] 0). intros sum Hn.
  destruct (n =? 0); [done|]. intros [= <-]. pose proof (Z.mod_pos_bound sum n Hn). lia.
Qed.

Lemma hash_total a n : 0 < n → ∃ i, hash_function a n = Some i.
Proof. intros Hn. unfold hash_function. destruct (Z.eqb_spec n 0); [lia|eauto]. Qed.

Lemma compare_mac_spec a b : dph_compare_mac_addr a b = bool_decide (a = b).
Proof.
  unfold dph_compare_mac_addr. destruct a, b; simpl. apply eq_true_iff_eq.
  rewrite !andb_true_iff, !Z.eqb_eq, bool_decide_eq_true. naive_solver.
Qed.

(** A node represents the entry [o] of the map at [k]. *)
Definition node_ok (k : nat) (o : option tSirMacAddr) (x : tDphHashNode) : Prop :=
  match o with
  | Some a => added x = 1 ∧ staAddr x = a ∧ assocId x = Z.of_nat k
  | None => added x = 0
  end.

Record dph_rep (t : dphHashTableClass) (A : stations) (cs : nat → list nat) : Prop := {
  dr_size : 1 ≤ size t ≤ 256;
  dr_nodes : length (pDphNodeArray t) = Z.to_nat (size t);
  dr_hash : length (pHashTable t) = Z.to_nat (size t);
  dr_dom k : is_Some (A !! k) → (k < Z.to_nat (size t))%nat;
  dr_node k x : pDphNodeArray t !! k = Some x → node_ok k (A !! k) x;
  dr_chain i h : pHashTable t !! i = Some h → chain (pDphNodeArray t) h (cs i);
  dr_nodup i : NoDup (cs i);
  dr_mem i k : k ∈ cs i ↔ ∃ a, A !! k = Some a ∧ hash_function a (size t) = Some i;
  dr_inj : injective A;
}.

Definition table_ok (t : dphHashTableClass) (A : stations) : Prop := ∃ cs, dph_rep t A cs.

(** * Reading the table *)

Lemma get_node_run p x t : pDphNodeArray t !! p = Some x → get_node_at p t = Some (x, t).
Proof. intros H. unfold get_node_at. rewrite run_gets. unfold deref. by rewrite H. Qed.

Lemma get_bucket_run i h t : pHashTable t !! i = Some h → get_bucket i t = Some (h, t).
Proof. intros H. unfold get_bucket. rewrite run_gets. unfold deref. by rewrite H. Qed.

Section rep.
Context (t : dphHashTableClass) (A : stations) (cs : nat → list nat) (Hr : dph_rep t A cs).

Lemma rep_node k : (k < Z.to_nat (size t))%nat → ∃ x, pDphNodeArray t !! k = Some x.
Proof. intros Hk. apply lookup_lt_is_Some. by rewrite (dr_nodes _ _ _ Hr). Qed.

Lemma rep_bucket a :
  ∃ i h, hash_function a (size t) = Some i ∧ pHashTable t !! i = Some h ∧
    chain (pDphNodeArray t) h (cs i).
Proof.
  pose proof (dr_size _ _ _ Hr). destruct (hash_total a (size t) ltac:(lia)) as [i Hi].
  destruct (lookup_lt_is_Some_2 (pHashTable t) i) as [h Hh].
  { rewrite (dr_hash _ _ _ Hr). eapply hash_lt; [|done]. lia. }
  exists i, h. split_and!; [done..|]. by eapply dr_chain.
Qed.

Lemma bucket_of_run a i :
  hash_function a (size t) = Some i → bucket_of a t = Some (i, t).
Proof. intros H. unfold bucket_of. rewrite run_gets. unfold deref. by rewrite H. Qed.

(** The nodes of a chain. *)
Lemma rep_member i k :
  k ∈ cs i → ∃ a x, A !! k = Some a ∧ pDphNodeArray t !! k = Some x ∧
    staAddr x = a ∧ assocId x = Z.of_nat k.
Proof.
  intros Hk. apply (dr_mem _ _ _ Hr) in Hk as (a & HA & _).
  destruct (rep_node k) as [x Hx]; [apply (dr_dom _ _ _ Hr); eauto|].
  pose proof (dr_node _ _ _ Hr _ _ Hx) as Hok. rewrite HA in Hok. destruct Hok as (_ & ? & ?).
  by exists a, x.
Qed.

Lemma rep_chain_length i : (length (cs i) ≤ length (pDphNodeArray t))%nat.
Proof.
  rewrite (dr_nodes _ _ _ Hr). apply NoDup_bounded_length; [by eapply dr_nodup|].
  intros k Hk. apply (dr_mem _ _ _ Hr) in Hk as (a & HA & _). apply (dr_dom _ _ _ Hr). eauto.
Qed.

(** An address is looked for in its bucket. *)
Lemma bucket_owner a i :
  hash_function a (size t) = Some i → head (filter (λ k, A !! k = Some a) (cs i)) = owner A a.
Proof.
  intros Hi. destruct (owner A a) as [k|] eqn:E.
  - apply (owner_Some _ _ _ (dr_inj _ _ _ Hr)) in E.
    assert (k ∈ filter (λ k, A !! k = Some a) (cs i)) as Hk.
    { apply list_elem_of_filter. split; [done|]. apply (dr_mem _ _ _ Hr). by exists a. }
    destruct (filter _ (cs i)) as [|k' l] eqn:Ef; [by apply elem_of_nil in Hk|]. simpl. f_equal.
    assert (k' ∈ filter (λ k, A !! k = Some a) (cs i)) as Hk' by (rewrite Ef; left).
    apply list_elem_of_filter in Hk' as [Hk' _]. by eapply (dr_inj _ _ _ Hr).
  - destruct (filter _ (cs i)) as [|k' l] eqn:Ef; [done|].
    assert (k' ∈ filter (λ k, A !! k = Some a) (cs i)) as Hk' by (rewrite Ef; left).
    apply list_elem_of_filter in Hk' as [Hk' _].
    by eapply (owner_None A a (dr_inj _ _ _ Hr)) in E.
Qed.

(** The comparison of an address with that of a node. *)
Lemma compare_node k x a :
  pDphNodeArray t !! k = Some x → is_Some (A !! k) →
  dph_compare_mac_addr a (staAddr x) = bool_decide (A !! k = Some a).
Proof.
  intros Hx [b HA]. pose proof (dr_node _ _ _ Hr _ _ Hx) as Hok. rewrite HA in Hok.
  destruct Hok as (_ & Hb & _). rewrite compare_mac_spec, HA, Hb. apply bool_decide_ext. naive_solver.
Qed.

Lemma lookup_loop_run fuel a h l :
  chain (pDphNodeArray t) h l → (∀ k, k ∈ l → is_Some (A !! k)) → (length l ≤ fuel)%nat →
  lookup_loop fuel a h t = Some (head (filter (λ k, A !! k = Some a) l), t).
Proof.
  revert fuel h. induction l as [|p l IH]; intros fuel h; simpl.
  - intros -> _ _. by destruct fuel.
  - intros (-> & x & Hx & Hl) Hin Hf. destruct fuel as [|fuel]; [lia|]. simpl.
    rewrite (run_bind _ _ _ _ _ (get_node_run _ _ _ Hx)).
    rewrite (compare_node p x a Hx (Hin p ltac:(by left))). rewrite filter_cons.
    case_bool_decide; case_decide; try done. apply IH; [done| |lia]. intros k Hk. apply Hin. by right.
Qed.

Lemma dup_loop_run fuel a id h l :
  chain (pDphNodeArray t) h l → (∀ k, k ∈ l → ∃ i, k ∈ cs i) → NoDup l → (length l ≤ fuel)%nat →
  0 ≤ id → A !! Z.to_nat id = None →
  dup_loop fuel a id h t = Some (Some (head (filter (λ k, A !! k = Some a) l)), t).
Proof.
  revert fuel h. induction l as [|p l IH]; intros fuel h; simpl.
  - intros -> _ _ _ _ _. by destruct fuel.
  - intros (-> & x & Hx & Hl) Hin [Hp Hnd]%NoDup_cons Hf Hid HA. destruct fuel as [|fuel]; [lia|]. simpl.
    rewrite (run_bind _ _ _ _ _ (get_node_run _ _ _ Hx)).
    rewrite decide_False by (by eapply chain_next_ne).
    destruct (Hin p ltac:(by left)) as [i Hi]. destruct (rep_member _ _ Hi) as (b & y & HAp & Hy & _ & Hid').
    simplify_eq. rewrite (compare_node p x a Hx ltac:(eauto)). rewrite filter_cons.
    destruct (Z.eqb_spec (assocId x) id) as [Heq|_].
    + exfalso. assert (Z.to_nat id = p) as Hp' by lia. by rewrite Hp', HAp in HA.
    + rewrite orb_false_r. case_bool_decide; case_decide; try done.
      apply IH; try done; [|lia]. intros k Hk. apply Hin. by right.
Qed.

(** The node before [p], and [p]. *)
Lemma delete_find_run fuel a prev h l1 p l2 :
  chain (pDphNodeArray t) h (l1 ++ p :: l2) → (∀ k, k ∈ l1 ++ p :: l2 → is_Some (A !! k)) →
  A !! p = Some a → (∀ k, k ∈ l1 → A !! k ≠ Some a) → NoDup (option_list prev ++ l1) →
  (length (l1 ++ p :: l2) ≤ fuel)%nat →
  find_loop fuel a prev h t = Some (Some (from_option Some prev (last l1), Some p), t).
Proof.
  revert fuel prev h. induction l1 as [|q l1 IH]; intros fuel prev h; cbn [app chain].
  - intros (-> & x & Hx & Hl) Hin HA _ _ Hf. destruct fuel as [|fuel]; [simpl in Hf; lia|]. cbn [find_loop].
    rewrite (run_bind _ _ _ _ _ (get_node_run _ _ _ Hx)).
    rewrite (compare_node p x a Hx ltac:(eauto)). by rewrite bool_decide_true.
  - intros (-> & x & Hx & Hl) Hin HA Hne Hnd Hf. destruct fuel as [|fuel]; [simpl in Hf; lia|]. cbn [find_loop].
    rewrite (run_bind _ _ _ _ _ (get_node_run _ _ _ Hx)).
    rewrite (compare_node q x a Hx ltac:(apply Hin; left)), bool_decide_false by (apply Hne; left).
    rewrite decide_False.
    2: { intros ->. simpl in Hnd. apply NoDup_cons in Hnd as [Hq _]. apply Hq. left. }
    rewrite (IH fuel (Some q) (next x) Hl); [by rewrite last_cons; destruct (last l1)| |done| | |].
    + intros k Hk. apply Hin. by right.
    + intros k Hk. apply Hne. by right.
    + simpl. by apply NoDup_app in Hnd as (_ & _ & Hnd).
    + simpl in Hf. lia.
Qed.

Lemma delete_find_absent fuel a prev h l :
  chain (pDphNodeArray t) h l → (∀ k, k ∈ l → is_Some (A !! k)) →
  (∀ k, k ∈ l → A !! k ≠ Some a) → NoDup (option_list prev ++ l) → (length l ≤ fuel)%nat →
  ∃ q, find_loop fuel a prev h t = Some (Some (q, None), t).
Proof.
  revert fuel prev h. induction l as [|q l IH]; intros fuel prev h; simpl.
  - intros -> _ _ _ _. exists prev. by destruct fuel.
  - intros (-> & x & Hx & Hl) Hin Hne Hnd Hf. destruct fuel as [|fuel]; [lia|]. simpl.
    rewrite (run_bind _ _ _ _ _ (get_node_run _ _ _ Hx)).
    rewrite (compare_node q x a Hx ltac:(apply Hin; left)), bool_decide_false by (apply Hne; left).
    rewrite decide_False.
    2: { intros ->. simpl in Hnd. apply NoDup_cons in Hnd as [Hq _]. apply Hq. left. }
    apply IH; [done| | | |lia].
    + intros k Hk. apply Hin. by right.
    + intros k Hk. apply Hne. by right.
    + simpl. apply NoDup_app in Hnd as (_ & _ & Hnd). done.
Qed.
End rep.

(** * Changing the table *)

Definition with_tables (hash : list (option nat)) (nodes : list tDphHashNode)
    (t : dphHashTableClass) : dphHashTableClass :=
  set_pHashTable hash (set_pDphNodeArray nodes t).

(** A new node becomes the head of its chain. *)
Lemma rep_insert t A cs k a i h y :
  dph_rep t A cs → (k < Z.to_nat (size t))%nat → A !! k = None → (∀ k', A !! k' ≠ Some a) →
  hash_function a (size t) = Some i → pHashTable t !! i = Some h →
  node_ok k (Some a) y → next y = h →
  table_ok (with_tables (<[i := Some k]> (pHashTable t)) (<[k := y]> (pDphNodeArray t)) t) (<[k := a]> A).
Proof.
  intros Hr Hk HA Hfresh Hi Hh Hy Hn. exists (λ j, if decide (j = i) then k :: cs j else cs j).
  assert (∀ j, k ∉ cs j) as Hnin.
  { intros j Hj. apply (dr_mem _ _ _ Hr) in Hj as (b & Hb & _). by rewrite HA in Hb. }
  pose proof (dr_nodes _ _ _ Hr) as Hln.
  split; cbn [with_tables set_pHashTable set_pDphNodeArray size pHashTable pDphNodeArray].
  - apply (dr_size _ _ _ Hr).
  - by rewrite length_insert.
  - rewrite length_insert. apply (dr_hash _ _ _ Hr).
  - intros j. rewrite lookup_insert_is_Some'. intros [<-|Hj]; [done|]. by apply (dr_dom _ _ _ Hr).
  - intros j x. destruct (decide (j = k)) as [->|Hne].
    + rewrite list_lookup_insert_eq by lia. intros [= <-]. by rewrite lookup_insert_eq.
    + rewrite list_lookup_insert_ne, lookup_insert_ne by done. apply (dr_node _ _ _ Hr).
  - intros j g. case_decide as Hj.
    + subst j. rewrite list_lookup_insert_eq by (eapply lookup_lt_Some; done). intros [= <-].
      split; [done|]. exists y. rewrite list_lookup_insert_eq by lia. split; [done|]. rewrite Hn.
      apply chain_insert_other; [done|]. by eapply dr_chain.
    + rewrite list_lookup_insert_ne by done. intros Hg. apply chain_insert_other; [done|].
      by eapply dr_chain.
  - intros j. case_decide; [apply NoDup_cons; split; [done|]|]; apply (dr_nodup _ _ _ Hr).
  - intros j q. destruct (decide (q = k)) as [->|Hne].
    + rewrite lookup_insert_eq. case_decide as Hj.
      * subst. split; [|by left]. intros _. by exists a.
      * split; [intros Hq; by apply Hnin in Hq|]. intros (b & [= <-] & Hb). congruence.
    + rewrite lookup_insert_ne by done. rewrite <- (dr_mem _ _ _ Hr).
      case_decide; [|done]. rewrite elem_of_cons. naive_solver.
  - intros p q b. destruct (decide (p = k)) as [->|Hp], (decide (q = k)) as [->|Hq];
      rewrite ?lookup_insert_eq, ?lookup_insert_ne by done; try done.
    + intros [= <-] Hb. by destruct (Hfresh q).
    + intros Hb [= <-]. by destruct (Hfresh p).
    + apply (dr_inj _ _ _ Hr).
Qed.

(** Unlinking the node [p] that follows [q]. *)
Lemma chain_unlink nodes h l1 q p l2 x y :
  chain nodes h (l1 ++ q :: p :: l2) → NoDup (l1 ++ q :: p :: l2) →
  nodes !! q = Some x → nodes !! p = Some y →
  chain (<[q := set_next (next y) x]> nodes) h (l1 ++ q :: l2).
Proof.
  intros Hc Hnd Hq Hp. revert h Hc. induction l1 as [|r l1 IH]; intros h; cbn [app chain] in *.
  - intros (-> & x' & Hx' & _ & y' & Hy' & Hl). simplify_eq. split; [done|].
    eexists. rewrite list_lookup_insert_eq by (by eapply lookup_lt_Some). split; [done|]. apply NoDup_cons in Hnd as [Hnq _]. apply chain_insert_other; [|done].
    intros H. apply Hnq. by right.
  - intros (-> & z & Hz & Hl). split; [done|]. apply NoDup_cons in Hnd as [Hr Hnd].
    exists z. rewrite list_lookup_insert_ne by (intros ->; apply Hr; set_solver).
    split; [done|]. by apply IH.
Qed.

Lemma chain_filter_ne (p : nat) l1 l2 :
  NoDup (l1 ++ p :: l2) → filter (λ k, k ≠ p) (l1 ++ p :: l2) = l1 ++ l2.
Proof.
  intros Hnd. apply NoDup_app in Hnd as (_ & Hd & [Hp _]%NoDup_cons).
  assert (∀ l : list nat, p ∉ l → filter (λ k, k ≠ p) l = l) as Hid.
  { clear. induction l as [|k l IH]; intros Hn; [done|]. rewrite filter_cons.
    rewrite decide_True by (intros ->; apply Hn; left). f_equal. apply IH. intros H. apply Hn. by right. }
  rewrite filter_app, filter_cons, decide_False by auto.
  rewrite !Hid; [done|done|]. intros H. apply (Hd _ H). left.
Qed.

(** The node [p] has left its chain and has been retired.  [nodes] is the
    array after the unlinking. *)
Lemma rep_delete t A cs p a i hash nodes y :
  dph_rep t A cs → A !! p = Some a → hash_function a (size t) = Some i →
  length hash = length (pHashTable t) → length nodes = length (pDphNodeArray t) →
  (∀ k x', nodes !! k = Some x' → ∃ x, pDphNodeArray t !! k = Some x ∧
     (x' = x ∨ (k ∈ cs i ∧ ∃ n, x' = set_next n x))) →
  (∀ j, j ≠ i → hash !! j = pHashTable t !! j) →
  (∀ h, hash !! i = Some h → chain nodes h (filter (λ k, k ≠ p) (cs i))) →
  added y = 0 →
  table_ok (with_tables hash (<[p := y]> nodes) t) (delete p A).
Proof.
  intros Hr HA Hi Hlh Hln Hnodes Hhash Hchain Hy. exists (λ j, filter (λ k, k ≠ p) (cs j)).
  assert (∀ j k, k ∈ cs j → k ∈ cs i → j = i) as Hbucket.
  { intros j k (b & Hb & Hj)%(dr_mem _ _ _ Hr) (b' & Hb' & Hi')%(dr_mem _ _ _ Hr). congruence. }
  assert (p ∈ cs i) as Hpi by (apply (dr_mem _ _ _ Hr); eauto).
  split; cbn [with_tables set_pHashTable set_pDphNodeArray size pHashTable pDphNodeArray].
  - apply (dr_size _ _ _ Hr).
  - rewrite length_insert, Hln. apply (dr_nodes _ _ _ Hr).
  - rewrite Hlh. apply (dr_hash _ _ _ Hr).
  - intros j [b [_ Hb]%lookup_delete_Some]. apply (dr_dom _ _ _ Hr). eauto.
  - intros j x. destruct (decide (j = p)) as [->|Hne].
    + intros Hx. rewrite list_lookup_insert_eq in Hx.
      2: { apply lookup_lt_Some in Hx. by rewrite length_insert in Hx. }
      simplify_eq. by rewrite lookup_delete_eq.
    + rewrite list_lookup_insert_ne, lookup_delete_ne by done. intros Hx.
      destruct (Hnodes _ _ Hx) as (x0 & Hx0 & [->|(_ & n & ->)]);
        pose proof (dr_node _ _ _ Hr _ _ Hx0); [done|]. by destruct (A !! j).
  - intros j h Hh. apply chain_insert_other.
    { intros H%list_elem_of_filter. by destruct H. }
    destruct (decide (j = i)) as [->|Hne]; [by apply Hchain|]. rewrite Hhash in Hh by done.
    replace (filter (λ k, k ≠ p) (cs j)) with (cs j).
    + eapply chain_ext; [|by eapply dr_chain]. intros k x Hk Hx.
      assert (∃ x', nodes !! k = Some x') as [x' Hx'].
      { apply lookup_lt_is_Some. rewrite Hln. by eapply lookup_lt_Some. }
      destruct (Hnodes _ _ Hx') as (x0 & Hx0 & [->|(Hki & _)]); [simplify_eq; eauto|].
      by destruct Hne; eapply Hbucket.
    + clear Hh. assert (p ∉ cs j) as Hp by (intros Hp; destruct Hne; by eapply Hbucket).
      induction (cs j) as [|k l IH]; [done|]. rewrite filter_cons.
      rewrite decide_True by (intros ->; apply Hp; left). f_equal. apply IH. intros H. apply Hp. by right.
  - intros j. apply NoDup_filter, (dr_nodup _ _ _ Hr).
  - intros j k. rewrite list_elem_of_filter, (dr_mem _ _ _ Hr). setoid_rewrite lookup_delete_Some.
    naive_solver.
  - intros j k b [_ Hj]%lookup_delete_Some [_ Hk]%lookup_delete_Some. by eapply (dr_inj _ _ _ Hr).
Qed.

(** * The operations on the abstract table *)

(** A table of [n] entries: the entry [id] is in range and in use. *)
Definition in_use (n : Z) (A : stations) (id : Z) : bool :=
  (id <? n) && bool_decide (is_Some (A !! Z.to_nat id)).

Definition spec_lookup (A : stations) (a : tSirMacAddr) : option (nat * Z) :=
  (λ k, (k, Z.of_nat k)) <$> owner A a.

Definition spec_get (n : Z) (A : stations) (id : Z) : option nat :=
  if in_use n A id then Some (Z.to_nat id) else None.

Definition spec_add (n : Z) (A : stations) (a : tSirMacAddr) (id : Z) : option nat * stations :=
  if negb (id <? n) || in_use n A id || bool_decide (is_Some (owner A a)) then (None, A)
  else (Some (Z.to_nat id), <[Z.to_nat id := a]> A).

(** The entry of the address goes, whichever identifier is given. *)
Definition spec_delete (n : Z) (A : stations) (a : tSirMacAddr) (id : Z) : Z * stations :=
  match owner A a with
  | Some k => if in_use n A id then (eSIR_SUCCESS, delete k A) else (eSIR_FAILURE, A)
  | None => (eSIR_FAILURE, A)
  end.

Lemma dph_lookup_hash_entry_run t A a :
  table_ok t A → dph_lookup_hash_entry a t = Some (spec_lookup A a, t).
Proof.
  intros [cs Hr]. destruct (rep_bucket t A cs Hr a) as (i & h & Hi & Hh & Hc).
  unfold dph_lookup_hash_entry. rewrite (run_bind _ _ _ _ _ (bucket_of_run t a i Hi)).
  rewrite (run_bind _ _ _ _ _ (get_bucket_run _ _ _ Hh)). unfold chain_fuel. rewrite run_gets.
  rewrite (run_bind _ _ _ _ _ (lookup_loop_run t A cs Hr _ a h (cs i) Hc
    ltac:(intros k (b & ? & ? & _)%(rep_member t A cs Hr); eauto) (rep_chain_length t A cs Hr i))).
  rewrite (bucket_owner t A cs Hr a i Hi). unfold spec_lookup.
  destruct (owner A a) as [k|] eqn:E; [|done].
  apply (owner_Some _ _ _ (dr_inj _ _ _ Hr)) in E.
  destruct (rep_node t A cs Hr k) as [x Hx]; [apply (dr_dom _ _ _ Hr); eauto|].
  pose proof (dr_node _ _ _ Hr _ _ Hx) as Hok. rewrite E in Hok. destruct Hok as (_ & _ & Hid).
  rewrite (run_bind _ _ _ _ _ (get_node_run _ _ _ Hx)). by rewrite Hid.
Qed.

(** The member [added] tells whether an entry is in use. *)
Lemma rep_added t A cs id :
  dph_rep t A cs → 0 ≤ id < size t →
  ∃ x, pDphNodeArray t !! Z.to_nat id = Some x ∧ (added x =? 0) = negb (in_use (size t) A id).
Proof.
  intros Hr Hid. destruct (rep_node t A cs Hr (Z.to_nat id)) as [x Hx]; [lia|]. exists x.
  split; [done|]. pose proof (dr_node _ _ _ Hr _ _ Hx) as Hok. unfold in_use.
  destruct (Z.ltb_spec id (size t)); [|lia]. cbn [andb].
  destruct (A !! Z.to_nat id) as [a|]; [destruct Hok as [-> _]; done|by rewrite Hok].
Qed.

Lemma dph_get_hash_entry_run t A id :
  table_ok t A → 0 ≤ id → dph_get_hash_entry id t = Some (spec_get (size t) A id, t).
Proof.
  intros [cs Hr] Hid. unfold dph_get_hash_entry. rewrite run_gets. unfold spec_get.
  destruct (Z.ltb_spec id (size t)).
  - destruct (rep_added t A cs id Hr ltac:(lia)) as (x & Hx & Ha).
    rewrite (run_bind _ _ _ _ _ (get_node_run _ _ _ Hx)), Ha. by destruct (in_use _ _ _).
  - unfold in_use. by destruct (Z.ltb_spec id (size t)); [lia|].
Qed.

(** [t'] is [t] with its chains changed to represent [A']. *)
Definition table_becomes (t t' : dphHashTableClass) (A' : stations) : Prop :=
  table_ok t' A' ∧ size t' = size t.

Lemma upd_node_run p x f t :
  pDphNodeArray t !! p = Some x →
  upd_node p f t = Some (tt, set_pDphNodeArray (<[p := f x]> (pDphNodeArray t)) t).
Proof. intros H. unfold upd_node. by rewrite (run_bind _ _ _ _ _ (get_node_run _ _ _ H)). Qed.

Lemma put_bucket_run i h p t :
  pHashTable t !! i = Some h →
  put_bucket i p t = Some (tt, set_pHashTable (<[i := p]> (pHashTable t)) t).
Proof. intros H. unfold put_bucket. by rewrite (run_bind _ _ _ _ _ (get_bucket_run _ _ _ H)). Qed.

(** The end of [dph_delete_hash_entry], once the node has been found. *)
Definition unlink (index : nat) (prev : option nat) (p : nat) : DPH Z :=
  y ← get_node_at p;
  match prev with
  | None => put_bucket index (next y)
  | Some q => upd_node q (set_next (next y))
  end;;
  upd_node p retire_node;;
  mret eSIR_SUCCESS.

Lemma unlink_run t A cs a i h p l1 l2 :
  dph_rep t A cs → A !! p = Some a → hash_function a (size t) = Some i →
  pHashTable t !! i = Some h → chain (pDphNodeArray t) h (cs i) → cs i = l1 ++ p :: l2 →
  ∃ t', unlink i (last l1) p t = Some (eSIR_SUCCESS, t') ∧ table_becomes t t' (delete p A).
Proof.
  intros Hr HA Hi Hh Hc Hcs. pose proof (dr_nodup _ _ _ Hr i) as Hnd. rewrite Hcs in Hc, Hnd.
  destruct (rep_node t A cs Hr p) as [y Hy]; [apply (dr_dom _ _ _ Hr); eauto|].
  unfold unlink. rewrite (run_bind _ _ _ _ _ (get_node_run _ _ _ Hy)).
  destruct l1 as [|q l1 _] using rev_ind.
  - cbn [last]. rewrite (run_bind _ _ _ _ _ (put_bucket_run _ _ (next y) _ Hh)).
    erewrite run_bind by (by apply upd_node_run). eexists. split; [done|]. split; [|done].
    apply (rep_delete t A cs p a i (<[i := next y]> (pHashTable t)) (pDphNodeArray t) (retire_node y));
      try done.
    + apply length_insert.
    + intros k x Hx. exists x. by split; [|left].
    + intros j Hj. by apply list_lookup_insert_ne.
    + intros g. rewrite list_lookup_insert_eq by (by eapply lookup_lt_Some). intros [= <-].
      rewrite Hcs, chain_filter_ne by done. simpl in Hc. destruct Hc as (_ & x & Hx & Hl).
      by simplify_eq.
  - rewrite last_snoc. destruct (rep_node t A cs Hr q) as [x Hx].
    { apply (dr_dom _ _ _ Hr). destruct (rep_member t A cs Hr i q) as (b & ? & Hb & _); [|eauto].
      rewrite Hcs. set_solver. }
    rewrite (run_bind _ _ _ _ _ (upd_node_run _ _ (set_next (next y)) _ Hx)).
    assert (q ≠ p) as Hqp.
    { intros ->. apply NoDup_app in Hnd as (_ & Hd & _). apply (Hd p); set_solver. }
    rewrite (run_bind _ _ _ _ _ (upd_node_run p y retire_node (set_pDphNodeArray
      (<[q := set_next (next y) x]> (pDphNodeArray t)) t) ltac:(by apply list_lookup_insert_Some; auto))).
    eexists. split; [done|]. split; [|done].
    apply (rep_delete t A cs p a i (pHashTable t) (<[q := set_next (next y) x]> (pDphNodeArray t)) (retire_node y));
      try done.
    + apply length_insert.
    + intros k x' [(-> & <- & _)|[Hne Hx']]%list_lookup_insert_Some; [|exists x'; by split; [|left]].
      exists x. split; [done|]. right. split; [|by exists (next y)]. rewrite Hcs. set_solver.
    + intros g Hg. simplify_eq. rewrite Hcs, chain_filter_ne by done.
      rewrite <- app_assoc in Hc, Hnd |- *. exact (chain_unlink _ _ _ _ _ _ _ _ Hc Hnd Hx Hy).
Qed.

Lemma dph_delete_hash_entry_run t A a id :
  table_ok t A → 0 ≤ id →
  ∃ t', dph_delete_hash_entry a id t = Some ((spec_delete (size t) A a id).1, t') ∧
    table_becomes t t' (spec_delete (size t) A a id).2.
Proof.
  intros [cs Hr] Hid. destruct (rep_bucket t A cs Hr a) as (i & h & Hi & Hh & Hc).
  assert (table_becomes t t A) as Hsame by (split; [by exists cs|done]).
  unfold dph_delete_hash_entry. rewrite (run_bind _ _ _ _ _ (bucket_of_run t a i Hi)), run_gets.
  rewrite Z.geb_leb. unfold spec_delete.
  destruct (Z.leb_spec (size t) id).
  { assert (in_use (size t) A id = false) as -> by (unfold in_use; by destruct (Z.ltb_spec id (size t)); [lia|]).
    exists t. by destruct (owner A a). }
  destruct (rep_added t A cs id Hr ltac:(lia)) as (x & Hx & Ha).
  rewrite (run_bind _ _ _ _ _ (get_node_run _ _ _ Hx)), Ha.
  destruct (in_use (size t) A id); cbn [negb]; [|exists t; by destruct (owner A a)].
  rewrite (run_bind _ _ _ _ _ (get_bucket_run _ _ _ Hh)). unfold chain_fuel. rewrite run_gets.
  assert (∀ k, k ∈ cs i → is_Some (A !! k)) as Hin.
  { intros k (b & ? & ? & _)%(rep_member t A cs Hr). eauto. }
  pose proof (rep_chain_length t A cs Hr i) as Hlen.
  destruct (owner A a) as [p|] eqn:E.
  - apply (owner_Some _ _ _ (dr_inj _ _ _ Hr)) in E.
    assert (p ∈ cs i) as Hp by (apply (dr_mem _ _ _ Hr); eauto).
    apply list_elem_of_split in Hp as (l1 & l2 & Hcs).
    pose proof (dr_nodup _ _ _ Hr i) as Hnd. pose proof Hc as Hc'. rewrite Hcs in Hc', Hin, Hlen, Hnd.
    assert (∀ k, k ∈ l1 → A !! k ≠ Some a) as Hne.
    { intros k Hk Hka. apply NoDup_app in Hnd as (_ & Hd & _). apply (Hd _ Hk).
      rewrite ((dr_inj _ _ _ Hr) _ _ _ Hka E). left. }
    rewrite (run_bind _ _ _ _ _ (delete_find_run t A cs Hr _ a None h l1 p l2 Hc' Hin E Hne
      ltac:(by apply NoDup_app in Hnd as [? _]) Hlen)).
    replace (from_option Some None (last l1)) with (last l1) by (by destruct (last l1)).
    by apply (unlink_run t A cs a i h p l1 l2).
  - destruct (delete_find_absent t A cs Hr (length (pDphNodeArray t)) a None h (cs i)) as [q Hq]; try done.
    + intros k _. by apply (owner_None _ _ (dr_inj _ _ _ Hr)).
    + apply (dr_nodup _ _ _ Hr).
    + rewrite (run_bind _ _ _ _ _ Hq). by exists t.
Qed.

(** * Adding a station *)

(** A station just initialised: its threshold is the configured one. *)
Definition fresh_node (a : tSirMacAddr) (id stx : Z) (frag : option Z) (x : tDphHashNode) :
    tDphHashNode :=
  mk_node 1 1 ENC_POLICY_NULL a id stx (from_option u16 0 frag) 0 0
    (replicate (length (others x)) 0) (next x).

Section reader.
Context {S : Type} {R : CfgReader S} {L : CfgReaderLaws S}.

(** The node [p] of the table replaced. *)
Definition with_node (p : nat) (y : tDphHashNode) (m : dph_mac S) : dph_mac S :=
  set_dphHashTable (set_pDphNodeArray (<[p := y]> (pDphNodeArray (dphHashTable m))) (dphHashTable m)) m.

Lemma on_table_run {T} (f : DPH T) (m : dph_mac S) r t' :
  f (dphHashTable m) = Some (r, t') → on_table f m = Some (r, set_dphHashTable t' m).
Proof. intros H. unfold on_table, zoom. by rewrite H. Qed.

(** A step that reads the table. *)
Lemma on_table_read {T} (f : DPH T) (m : dph_mac S) r :
  f (dphHashTable m) = Some (r, dphHashTable m) → on_table f m = Some (r, m).
Proof. intros H. rewrite (on_table_run _ _ _ _ H). by destruct m. Qed.

Definition node_at (m : dph_mac S) (p : nat) : option tDphHashNode :=
  pDphNodeArray (dphHashTable m) !! p.

Lemma on_table_upd p x f (m : dph_mac S) :
  node_at m p = Some x → on_table (upd_node p f) m = Some (tt, with_node p (f x) m).
Proof. intros H. by apply on_table_run, upd_node_run. Qed.

Lemma node_at_with p x y m : node_at m p = Some x → node_at (with_node p y m) p = Some y.
Proof. intros H. apply list_lookup_insert_eq. by eapply lookup_lt_Some. Qed.

Lemma with_node_twice p y z m : with_node p z (with_node p y m) = with_node p z m.
Proof. unfold with_node. cbn. by rewrite list_insert_insert_eq. Qed.

(** One more member of the node [p] written. *)
Lemma upd_again {T} p x y f (m : dph_mac S) (k : CM (dph_mac S) T) :
  node_at m p = Some x →
  (on_table (upd_node p f);; k) (with_node p y m) = k (with_node p (f y) m).
Proof.
  intros H. rewrite (run_bind _ _ _ _ _ (on_table_upd p y f _ (node_at_with _ _ _ _ H))).
  by rewrite with_node_twice.
Qed.

Lemma reader_run (m : dph_mac S) id o :
  int_param (dph_cfg m) id o →
  ∃ st, on_cfg (reader_get_int id) m = Some ((st, o), m) ∧ (st = eSIR_SUCCESS ↔ is_Some o).
Proof.
  intros H. unfold on_cfg, zoom. destruct o as [v|].
  - rewrite (reader_get_some _ _ _ H). exists eSIR_SUCCESS. split; [by destruct m|]. split; [eauto|done].
  - destruct (reader_get_none _ _ H) as (st & Hst & ->). exists st. split; [by destruct m|].
    split; [done|]. by intros [? ?].
Qed.

Lemma init_run (m : dph_mac S) a id validStaIdx x o :
  0 ≤ id < size (dphHashTable m) → size (dphHashTable m) ≤ 256 →
  node_at m (Z.to_nat id) = Some x → int_param (dph_cfg m) WNI_CFG_FRAGMENTATION_THRESHOLD o →
  dph_init_sta_state a id validStaIdx m =
    Some (Some (Z.to_nat id),
      with_node (Z.to_nat id)
        (fresh_node a id (if validStaIdx then staIndex x else STA_INVALID_IDX) o x) m).
Proof.
  intros Hid Hsz Hx Hp. unfold dph_init_sta_state.
  rewrite (run_bind _ _ _ _ _ (on_table_read (gets size) m _ eq_refl)), Z.geb_leb.
  destruct (Z.leb_spec (size (dphHashTable m)) id); [lia|].
  unfold get_node. rewrite wrap_small by lia.
  rewrite (run_bind _ _ _ _ _ (on_table_read _ m _ (get_node_run _ _ _ Hx))).
  rewrite (run_bind _ _ _ _ _ (on_table_upd _ _ clear_node m Hx)).
  rewrite !(upd_again _ _ _ _ _ _ Hx).
  destruct (reader_run (with_node (Z.to_nat id) (set_staAddr a (set_staIndex
    (if validStaIdx then staIndex x else STA_INVALID_IDX) (set_assocId id (clear_node x)))) m)
    WNI_CFG_FRAGMENTATION_THRESHOLD o Hp) as (st & Hrun & Hst).
  rewrite (run_bind _ _ _ _ _ Hrun). destruct (Z.eqb_spec st eSIR_SUCCESS) as [->|Hne]; cbn [negb].
  - destruct o as [v|]; [|by destruct (proj1 Hst eq_refl)]. rewrite !run_assoc, run_deref_Some.
    by rewrite !(upd_again _ _ _ _ _ _ Hx).
  - destruct o as [v|]; [by destruct Hne; apply Hst; eauto|]. rewrite run_ret.
    by rewrite !(upd_again _ _ _ _ _ _ Hx).
Qed.
(** The initial state of a station.  For an identifier in range of a table
    of at most 256 entries, the whole node is cleared but its pointer, then
    gets its identifier, its address, the configured fragmentation threshold
    (zero when there is none) and either its former station index or the
    invalid one; the configuration and the other nodes are not touched. *)
Theorem dph_init_sta_state_spec (m : dph_mac S) a id validStaIdx x o :
  0 ≤ id < size (dphHashTable m) → size (dphHashTable m) ≤ 256 →
  node_at m (Z.to_nat id) = Some x → int_param (dph_cfg m) WNI_CFG_FRAGMENTATION_THRESHOLD o →
  dph_init_sta_state a id validStaIdx m =
    Some (Some (Z.to_nat id),
      with_node (Z.to_nat id)
        (fresh_node a id (if validStaIdx then staIndex x else STA_INVALID_IDX) o x) m).
Proof. apply init_run. Qed.

(** The two writes that put the node [k] at the head of its chain. *)
Lemma link_run m k x i h :
  node_at m k = Some x → pHashTable (dphHashTable m) !! i = Some h →
  (head ← on_table (get_bucket i);
   on_table (upd_node k (set_next head));;
   on_table (put_bucket i (Some k));;
   on_table (get_bucket i)) m =
  Some (Some k, set_dphHashTable (with_tables (<[i := Some k]> (pHashTable (dphHashTable m)))
    (<[k := set_next h x]> (pDphNodeArray (dphHashTable m))) (dphHashTable m)) m).
Proof.
  intros Hx Hh. rewrite (run_bind _ _ _ _ _ (on_table_read _ m _ (get_bucket_run _ _ _ Hh))).
  rewrite (run_bind _ _ _ _ _ (on_table_upd _ _ (set_next h) m Hx)).
  assert (pHashTable (dphHashTable (with_node k (set_next h x) m)) !! i = Some h) as Hh' by done.
  rewrite (run_bind _ _ _ _ _ (on_table_run _ _ _ _ (put_bucket_run _ _ (Some k) _ Hh'))).
  apply on_table_read, get_bucket_run. apply list_lookup_insert_eq. by eapply lookup_lt_Some.
Qed.

Lemma dph_add_hash_entry_run (m : dph_mac S) A a id o :
  table_ok (dphHashTable m) A → 0 ≤ id → int_param (dph_cfg m) WNI_CFG_FRAGMENTATION_THRESHOLD o →
  let r := spec_add (size (dphHashTable m)) A a id in
  ∃ m', dph_add_hash_entry a id m = Some (r.1, m') ∧
    table_becomes (dphHashTable m) (dphHashTable m') r.2 ∧ dph_cfg m' = dph_cfg m.
Proof.
  intros [cs Hr] Hid Hp r. destruct (rep_bucket _ A cs Hr a) as (i & h & Hi & Hh & Hc).
  assert (table_becomes (dphHashTable m) (dphHashTable m) A) as Hsame by (split; [by exists cs|done]).
  unfold dph_add_hash_entry. rewrite (run_bind _ _ _ _ _ (on_table_read _ m _ (bucket_of_run _ a i Hi))).
  rewrite (run_bind _ _ _ _ _ (on_table_read (gets size) m _ eq_refl)), Z.geb_leb, Z.leb_antisym.
  unfold r, spec_add. destruct (Z.ltb_spec id (size (dphHashTable m))); cbn [negb orb]; [|by exists m].
  destruct (rep_added _ A cs id Hr ltac:(lia)) as (x & Hx & Ha).
  rewrite (run_bind _ _ _ _ _ (on_table_read _ m _ (get_node_run _ _ _ Hx))), Ha, negb_involutive.
  destruct (in_use (size (dphHashTable m)) A id) eqn:Huse; [by exists m|]. cbn [orb].
  assert (A !! Z.to_nat id = None) as HA.
  { unfold in_use in Huse. destruct (Z.ltb_spec id (size (dphHashTable m))); [|lia].
    by apply bool_decide_eq_false_1, eq_None_not_Some in Huse. }
  rewrite (run_bind _ _ _ _ _ (on_table_read _ m _ (get_bucket_run _ _ _ Hh))).
  rewrite (run_bind _ _ _ _ _ (on_table_read chain_fuel m _ eq_refl)).
  rewrite (run_bind _ _ _ _ _ (on_table_read _ m _ (dup_loop_run _ A cs Hr
    (length (pDphNodeArray (dphHashTable m))) a id h (cs i) Hc ltac:(eauto) (dr_nodup _ _ _ Hr i)
    (rep_chain_length _ A cs Hr i) Hid HA))).
  rewrite (bucket_owner _ A cs Hr a i Hi). destruct (owner A a) as [k|] eqn:E.
  { rewrite bool_decide_true by eauto. by exists m. }
  rewrite bool_decide_false by (by intros [? ?]).
  pose proof (dr_size _ _ _ Hr).
  rewrite (run_bind _ _ _ _ _ (init_run m a id false x o ltac:(lia) ltac:(lia) Hx Hp)).
  set (y := fresh_node a id STA_INVALID_IDX o x). set (k := Z.to_nat id) in *.
  rewrite (link_run (with_node k y m) k y i h (node_at_with _ _ y _ Hx) Hh).
  eexists. split; [done|]. split; [|done]. split; [|done].
  cbn. rewrite list_insert_insert_eq.
  apply (rep_insert (dphHashTable m) A cs k a i h (set_next h y)); try done.
  - lia.
  - by apply (owner_None _ _ (dr_inj _ _ _ Hr)).
  - split_and!; [done..|]. cbn. lia.
Qed.
End reader.

(** * Initialisation *)

Lemma clear_buckets_run t l1 l2 :
  pHashTable t = l1 ++ l2 →
  for_each (seq (length l1) (length l2)) (λ i, put_bucket i None) t =
    Some (tt, set_pHashTable (l1 ++ replicate (length l2) None) t).
Proof.
  revert t l1. induction l2 as [|h l2 IH]; intros t l1 Ht; cbn [length seq for_each replicate].
  - destruct t; cbn in *. by subst.
  - rewrite (run_bind _ _ _ _ _ (put_bucket_run (length l1) h None t
      ltac:(by rewrite Ht; apply list_lookup_middle))).
    replace (<[length l1 := None]> (pHashTable t)) with ((l1 ++ [None]) ++ l2).
    2: { rewrite Ht, <- app_assoc. by rewrite insert_app_r_alt, Nat.sub_diag. }
    specialize (IH (set_pHashTable ((l1 ++ [None]) ++ l2) t) (l1 ++ [None]) eq_refl).
    rewrite length_app, Nat.add_1_r in IH. etrans; [exact IH|].
    by rewrite <- app_assoc.
Qed.

Definition init_node (i : nat) (x : tDphHashNode) : tDphHashNode :=
  set_assocId (u16 (Z.of_nat i)) (set_added 0 (set_valid 0 x)).

Lemma init_nodes_run t l1 l2 :
  pDphNodeArray t = l1 ++ l2 →
  for_each (seq (length l1) (length l2)) (λ i, upd_node i (init_node i)) t =
    Some (tt, set_pDphNodeArray (l1 ++ imap (λ i, init_node (length l1 + i)) l2) t).
Proof.
  revert t l1. induction l2 as [|x l2 IH]; intros t l1 Ht; cbn [length seq for_each].
  - destruct t; cbn in *. by subst.
  - rewrite (run_bind _ _ _ _ _ (upd_node_run (length l1) x (init_node (length l1)) t
      ltac:(by rewrite Ht; apply list_lookup_middle))).
    replace (<[length l1 := _]> (pDphNodeArray t)) with ((l1 ++ [init_node (length l1) x]) ++ l2).
    2: { rewrite Ht, <- app_assoc. by rewrite insert_app_r_alt, Nat.sub_diag. }
    specialize (IH (set_pDphNodeArray ((l1 ++ [init_node (length l1) x]) ++ l2) t) (l1 ++ [init_node (length l1) x]) eq_refl).
    rewrite length_app, Nat.add_1_r in IH. etrans; [exact IH|].
    rewrite <- app_assoc, imap_cons, Nat.add_0_r. cbn.
    erewrite (imap_ext _ ((λ i, init_node (length l1 + i)) ∘ S) l2); [done|].
    intros i y _. unfold compose. f_equal. lia.
Qed.

(** The arrays of a table have its size. *)
Definition allocated (t : dphHashTableClass) : Prop :=
  length (pHashTable t) = Z.to_nat (size t) ∧ length (pDphNodeArray t) = Z.to_nat (size t) ∧
  1 ≤ size t ≤ 256.

Lemma class_init_run t :
  allocated t → ∃ t', dph_hash_table_class_init t = Some (tt, t') ∧ table_becomes t t' ∅.
Proof.
  intros (Hh & Hn & Hs). unfold dph_hash_table_class_init. rewrite run_gets.
  pose proof (clear_buckets_run t [] (pHashTable t) eq_refl) as H1. cbn [length app] in H1. rewrite Hh in H1.
  rewrite (run_bind _ _ _ _ _ H1). set (t1 := set_pHashTable _ t).
  pose proof (init_nodes_run t1 [] (pDphNodeArray t) eq_refl) as H2. cbn [length app] in H2. rewrite Hn in H2.
  eexists. split; [exact H2|]. split; [|done]. exists (λ _, []).
  split; cbn; try done.
  - by rewrite length_imap.
  - by rewrite length_replicate.
  - intros k [a Ha]. done.
  - intros k x Hx. rewrite list_lookup_imap in Hx. by apply fmap_Some in Hx as (y & _ & ->).
  - by intros i h [-> _]%lookup_replicate.
  - intros i. apply NoDup_nil_2.
  - intros i k. split; [by intros ?%elem_of_nil|]. by intros (a & ? & _).
Qed.

(** * Sequences of operations *)

Inductive dph_op : Type :=
  | OpLookup (a : tSirMacAddr)
  | OpGet (id : Z)
  | OpAdd (a : tSirMacAddr) (id : Z)
  | OpDelete (a : tSirMacAddr) (id : Z).

Inductive dph_res : Type :=
  | RLookup (r : option (nat * Z))
  | RNode (r : option nat)
  | RStatus (st : Z).

Definition op_ok (op : dph_op) : Prop :=
  match op with
  | OpLookup _ => True
  | OpGet id | OpAdd _ id | OpDelete _ id => 0 ≤ id
  end.

Definition dph_spec (n : Z) (op : dph_op) (A : stations) : dph_res * stations :=
  match op with
  | OpLookup a => (RLookup (spec_lookup A a), A)
  | OpGet id => (RNode (spec_get n A id), A)
  | OpAdd a id => let r := spec_add n A a id in (RNode r.1, r.2)
  | OpDelete a id => let r := spec_delete n A a id in (RStatus r.1, r.2)
  end.

Fixpoint dph_specs (n : Z) (ops : list dph_op) (A : stations) : list dph_res * stations :=
  match ops with
  | [] => ([], A)
  | op :: ops =>
      let r := dph_spec n op A in let rs := dph_specs n ops r.2 in (r.1 :: rs.1, rs.2)
  end.

Section sequences.
Context {S : Type} {R : CfgReader S} {L : CfgReaderLaws S}.

Definition dph_exec (op : dph_op) : CM (dph_mac S) dph_res :=
  match op with
  | OpLookup a => r ← on_table (dph_lookup_hash_entry a); mret (RLookup r)
  | OpGet id => r ← on_table (dph_get_hash_entry id); mret (RNode r)
  | OpAdd a id => r ← dph_add_hash_entry a id; mret (RNode r)
  | OpDelete a id => r ← on_table (dph_delete_hash_entry a id); mret (RStatus r)
  end.

Fixpoint dph_execs (ops : list dph_op) : CM (dph_mac S) (list dph_res) :=
  match ops with
  | [] => mret []
  | op :: ops => r ← dph_exec op; rs ← dph_execs ops; mret (r :: rs)
  end.

Lemma dph_exec_run (m : dph_mac S) A op o :
  table_ok (dphHashTable m) A → op_ok op →
  int_param (dph_cfg m) WNI_CFG_FRAGMENTATION_THRESHOLD o →
  let r := dph_spec (size (dphHashTable m)) op A in
  ∃ m', dph_exec op m = Some (r.1, m') ∧
    table_becomes (dphHashTable m) (dphHashTable m') r.2 ∧ dph_cfg m' = dph_cfg m.
Proof.
  intros Ht Hop Hp. destruct op as [a|id|a id|a id]; cbn [dph_spec dph_exec op_ok fst snd] in *.
  - rewrite (run_bind _ _ _ _ _ (on_table_read _ m _ (dph_lookup_hash_entry_run _ A a Ht))). by exists m.
  - rewrite (run_bind _ _ _ _ _ (on_table_read _ m _ (dph_get_hash_entry_run _ A id Ht Hop))). by exists m.
  - destruct (dph_add_hash_entry_run m A a id o Ht Hop Hp) as (m' & Hrun & ? & ?).
    rewrite (run_bind _ _ _ _ _ Hrun). by exists m'.
  - destruct (dph_delete_hash_entry_run _ A a id Ht Hop) as (t' & Hrun & Hb).
    rewrite (run_bind _ _ _ _ _ (on_table_run _ m _ _ Hrun)). by eexists.
Qed.

Lemma dph_execs_run (m : dph_mac S) A ops o :
  table_ok (dphHashTable m) A → Forall op_ok ops →
  int_param (dph_cfg m) WNI_CFG_FRAGMENTATION_THRESHOLD o →
  let r := dph_specs (size (dphHashTable m)) ops A in
  ∃ m', dph_execs ops m = Some (r.1, m') ∧
    table_becomes (dphHashTable m) (dphHashTable m') r.2 ∧ dph_cfg m' = dph_cfg m.
Proof.
  intros Ht Hops Hp. revert m A Ht Hp. induction Hops as [|op ops Hop _ IH]; intros m A Ht Hp.
  - by exists m.
  - destruct (dph_exec_run m A op o Ht Hop Hp) as (m1 & Hrun & [Ht1 Hs1] & Hc1).
    destruct (IH m1 _ Ht1 ltac:(by rewrite Hc1)) as (m2 & Hruns & [Ht2 Hs2] & Hc2).
    exists m2. cbn [dph_execs]. rewrite (run_bind _ _ _ _ _ Hrun), (run_bind _ _ _ _ _ Hruns).
    rewrite Hs1. split; [done|]. rewrite Hs1 in Ht2, Hs2. rewrite Hc2, Hc1. done.
Qed.

(** C30. The table of stations implements a map from association identifiers to
    distinct addresses.  After initialisation of any table of 1 to 256
    entries, every sequence of lookups, gets, additions and deletions returns
    the results of the map and leaves a well-formed table that represents it:
    no operation follows a dangling or cyclic chain; an addition succeeds
    exactly when the identifier is free and the address unknown; a deletion
    removes the entry of the address, whichever used identifier it is given. *)
Theorem dph_table_refines_map (m : dph_mac S) ops o :
  allocated (dphHashTable m) → Forall op_ok ops →
  int_param (dph_cfg m) WNI_CFG_FRAGMENTATION_THRESHOLD o →
  let r := dph_specs (size (dphHashTable m)) ops ∅ in
  ∃ m', (on_table dph_hash_table_class_init;; dph_execs ops) m = Some (r.1, m') ∧
    table_ok (dphHashTable m') r.2 ∧ injective r.2 ∧ dph_cfg m' = dph_cfg m.
Proof.
  intros Hal Hops Hp r. destruct (class_init_run _ Hal) as (t1 & Hrun & Ht1 & Hs1).
  rewrite (run_bind _ _ _ _ _ (on_table_run _ m _ _ Hrun)).
  destruct (dph_execs_run (set_dphHashTable t1 m) ∅ ops o Ht1 Hops Hp) as (m' & Hruns & [Ht Hs] & Hc).
  cbn [dphHashTable set_dphHashTable] in Hruns, Ht, Hs. rewrite Hs1 in Hruns, Ht.
  exists m'. split_and!; [done|done| |done]. destruct Ht as [cs Hr]. apply (dr_inj _ _ _ Hr).
Qed.
End sequences.
