(* ===== verification/DphQuery.v ===== *)
(** The search of the table of stations by station index, and samples of the
    table. *)
From S2P Require Import Prelude Cfg CfgProofs Dph DphProofs.

(** * Search by station index *)

(** The entry [i] is in use and has the station index. *)
Definition has_index (nodes : list tDphHashNode) (staIdx : Z) (i : nat) : bool :=
  match nodes !! i with
  | Some x => negb (added x =? 0) && (staIndex x =? staIdx)
  | None => false
  end.

Section search.
Context (t : dphHashTableClass) (staIdx : Z).
Context (Hal : length (pDphNodeArray t) = Z.to_nat (size t)).

(** One turn of the loop. *)
Lemma assoc_loop_step fuel i :
  0 ≤ i < size t →
  assoc_loop (S fuel) i staIdx t =
    if has_index (pDphNodeArray t) staIdx (Z.to_nat i) then Some (i, t)
    else assoc_loop fuel (u8 (i + 1)) staIdx t.
Proof.
  intros Hi. cbn [assoc_loop]. rewrite run_gets. destruct (Z.ltb_spec i (size t)); [|lia].
  destruct (lookup_lt_is_Some_2 (pDphNodeArray t) (Z.to_nat i)) as [x Hx]; [lia|].
  rewrite (run_bind _ _ _ _ _ (get_node_run _ _ _ Hx)). unfold has_index. rewrite Hx.
  by destruct (_ && _).
Qed.

(** The loop from [i] when the table is smaller than the counter's range. *)
Lemma assoc_loop_run fuel i :
  0 ≤ i ≤ size t → size t ≤ 255 → (Z.to_nat (size t - i) < fuel)%nat →
  ∃ j, assoc_loop fuel i staIdx t = Some (j, t) ∧ i ≤ j ≤ size t ∧
    (∀ k, i ≤ k < j → has_index (pDphNodeArray t) staIdx (Z.to_nat k) = false) ∧
    (j < size t → has_index (pDphNodeArray t) staIdx (Z.to_nat j) = true).
Proof.
  revert i. induction fuel as [|fuel IH]; intros i Hi Hs Hf; [lia|].
  destruct (decide (i = size t)) as [->|Hne].
  - exists (size t). cbn [assoc_loop]. rewrite run_gets, Z.ltb_irrefl.
    split_and!; [done|lia..].
  - rewrite assoc_loop_step by lia. destruct (has_index _ _ _) eqn:Hh.
    + exists i. split_and!; [done|lia..|done].
    + rewrite wrap_small by lia. destruct (IH (i + 1)) as (j & Hrun & Hj & Hk & Ht); [lia..|].
      exists j. split_and!; [done|lia..| |done]. intros k Hk'.
      destruct (decide (k = i)) as [->|]; [done|apply Hk; lia].
Qed.

(** In a larger table the counter wraps before it reaches the size. *)
Lemma assoc_loop_spins fuel i :
  256 ≤ size t → 0 ≤ i < 256 →
  (∀ k, (k < 256)%nat → has_index (pDphNodeArray t) staIdx k = false) →
  assoc_loop fuel i staIdx t = None.
Proof.
  intros Hs Hi Hnone. revert i Hi. induction fuel as [|fuel IH]; intros i Hi; [done|].
  rewrite assoc_loop_step by lia. rewrite Hnone by lia. apply IH. by apply wrap_range.
Qed.
End search.

(** The search by station index.  In a table of at most 255 entries it
    ends and returns the first entry in use with the station index, or null
    when there is none. *)
Theorem dph_lookup_assoc_id_spec t staIdx :
  length (pDphNodeArray t) = Z.to_nat (size t) → 0 ≤ size t ≤ 255 →
  dph_lookup_assoc_id staIdx t =
    Some (head (filter (λ i, has_index (pDphNodeArray t) staIdx i = true)
      (seq 0 (Z.to_nat (size t)))), t).
Proof.
  intros Hal Hs. unfold dph_lookup_assoc_id, dph_lookup_assoc_id_fuel.
  destruct (assoc_loop_run t staIdx Hal 257 0) as (j & Hrun & Hj & Hno & Hyes); [lia..|].
  rewrite (run_bind _ _ _ _ _ Hrun), run_gets. unfold mret, CM_ret. do 2 f_equal.
  replace (Z.to_nat (size t)) with (Z.to_nat j + Z.to_nat (size t - j))%nat by lia.
  rewrite seq_app, filter_app. cbn [Nat.add].
  assert (filter (λ i, has_index (pDphNodeArray t) staIdx i = true) (seq 0 (Z.to_nat j)) = []) as ->.
  { apply filter_nil_iff || idtac. destruct (filter _ _) as [|i l] eqn:E; [done|].
    assert (i ∈ filter (λ i, has_index (pDphNodeArray t) staIdx i = true) (seq 0 (Z.to_nat j))) as H
      by (rewrite E; left).
    apply list_elem_of_filter in H as [H Hi%elem_of_seq]. specialize (Hno (Z.of_nat i) ltac:(lia)).
    rewrite Nat2Z.id in Hno. congruence. }
  cbn [app]. destruct (Z.eqb_spec j (size t)) as [->|Hne].
  - by rewrite Z.sub_diag.
  - destruct (Z.to_nat (size t - j)) as [|n] eqn:En; [lia|]. cbn [seq].
    rewrite filter_cons, decide_True by (apply Hyes; lia). done.
Qed.

(** The counter of that search has 8 bits: in a table of 256 entries or
    more, the search for a station index that the first 256 entries do not
    have never ends. *)
Theorem dph_lookup_assoc_id_spins t staIdx fuel :
  length (pDphNodeArray t) = Z.to_nat (size t) → 256 ≤ size t →
  (∀ k, (k < 256)%nat → has_index (pDphNodeArray t) staIdx k = false) →
  dph_lookup_assoc_id_fuel fuel staIdx t = None.
Proof.
  intros Hal Hs Hnone. unfold dph_lookup_assoc_id_fuel.
  by rewrite (run_bind_ub _ _ _ (assoc_loop_spins t staIdx Hal fuel 0 Hs ltac:(lia) Hnone)).
Qed.

(** * Samples *)

(** A reader whose integer parameters are a map. *)
#[local] Instance map_reader : CfgReader (gmap Z Z) := {|
  reader_get_int id m := Some (match m !! id with
                               | Some v => (eSIR_SUCCESS, Some v)
                               | None => (eSIR_CFG_INVALID_ID, None)
                               end, m);
  int_param m id o := m !! id = o;
|}.

#[local] Instance map_reader_laws : CfgReaderLaws (gmap Z Z).
Proof.
  split; intros m id; simpl.
  - by intros v ->.
  - intros ->. by exists eSIR_CFG_INVALID_ID.
Qed.

Definition raw_node : tDphHashNode := mk_node 1 1 3 zero_mac 7 9 0 1 5 [1; 2] None.

Definition sample_table (n : nat) : dphHashTableClass :=
  mk_table (replicate n (Some 0%nat)) (replicate n raw_node) (Z.of_nat n).

Definition sample_mac_state : dph_mac (gmap Z Z) :=
  mk_dph_mac {[ WNI_CFG_FRAGMENTATION_THRESHOLD := 2346 ]} (sample_table 4).

Definition sta_a : tSirMacAddr := mk_mac 0 1 2 3 4 5.
Definition sta_b : tSirMacAddr := mk_mac 5 4 3 2 1 0.

(** The two addresses share a bucket; the deletion names the wrong identifier. *)
Definition sample_ops : list dph_op :=
  [OpAdd sta_a 1; OpAdd sta_b 2; OpAdd sta_a 3; OpLookup sta_a; OpGet 2; OpDelete sta_b 1;
   OpLookup sta_b; OpLookup sta_a; OpGet 2; OpAdd sta_b 9].

Lemma dph_init_sta_state_spec_witness :
  dph_init_sta_state sta_a 2 true sample_mac_state =
    Some (Some 2%nat, with_node 2 (mk_node 1 1 0 sta_a 2 9 2346 0 0 [0; 0] None) sample_mac_state).
Proof.
  apply (dph_init_sta_state_spec sample_mac_state sta_a 2 true raw_node (Some 2346)).
  - cbn. lia.
  - cbn. lia.
  - reflexivity.
  - reflexivity.
Defined.

Lemma dph_table_refines_map_witness :
  ∃ m', (on_table dph_hash_table_class_init;; dph_execs sample_ops) sample_mac_state =
    Some ([RNode (Some 1%nat); RNode (Some 2%nat); RNode None; RLookup (Some (1%nat, 1));
           RNode (Some 2%nat); RStatus eSIR_SUCCESS; RLookup None; RLookup (Some (1%nat, 1));
           RNode None; RNode None], m') ∧ dph_cfg m' = dph_cfg sample_mac_state.
Proof.
  destruct (dph_table_refines_map sample_mac_state sample_ops (Some 2346)) as (m' & Hrun & _ & _ & Hc).
  - unfold allocated. cbn. lia.
  - unfold sample_ops. repeat (apply Forall_cons; split); [cbn; (exact I || lia)..|apply Forall_nil; exact I].
  - reflexivity.
  - exists m'. split; [|exact Hc]. rewrite Hrun. reflexivity.
Defined.

Lemma dph_lookup_assoc_id_spec_witness :
  dph_lookup_assoc_id 9 (sample_table 4) = Some (Some 0%nat, sample_table 4) ∧
  dph_lookup_assoc_id 8 (sample_table 4) = Some (None, sample_table 4).
Proof.
  split; (etrans; [apply dph_lookup_assoc_id_spec; cbn; lia|reflexivity]).
Defined.

Lemma dph_lookup_assoc_id_spins_witness :
  dph_lookup_assoc_id_fuel 100000 8 (sample_table 300) = None.
Proof.
  apply (dph_lookup_assoc_id_spins (sample_table 300) 8 100000).
  - reflexivity.
  - cbn. lia.
  - intros k Hk. unfold has_index.
    destruct (pDphNodeArray (sample_table 300) !! k) as [x|] eqn:E; [|reflexivity].
    apply lookup_replicate in E as [-> _]. reflexivity.
Defined.
