(* ===== verification/Ce.v ===== *)
(** The copy engine: [core/hif/src/ce/ce_service.c], with the rings of
    [ce_internal.h] and the ring arithmetic of [ce_reg.h], for the build
    without [QCA_WIFI_3_0] and without the fast path.  A copy engine has a
    source ring, on which the host posts buffers to send, and a destination
    ring, on which it posts empty buffers to receive into.  The lock
    [ce_index_lock] makes every operation atomic.  The registers are part of
    the state; the hardware, which moves the read indexes and fills the
    descriptors, is the two steps at the end of the file. *)
From S2P Require Import Prelude CdfLock.

(** * Data *)

(** [struct CE_src_desc] and [struct CE_dest_desc]. *)
Record ce_desc : Type := mk_ce_desc {
  buffer_addr : Z;
  nbytes : Z;
  gather : bool;
  byte_swap : bool;
  meta_data : Z;
}.

Definition set_buffer_addr (v : Z) (r : ce_desc) : ce_desc :=
  mk_ce_desc v (nbytes r) (gather r) (byte_swap r) (meta_data r).
Definition set_nbytes (v : Z) (r : ce_desc) : ce_desc :=
  mk_ce_desc (buffer_addr r) v (gather r) (byte_swap r) (meta_data r).
Definition set_gather (v : bool) (r : ce_desc) : ce_desc :=
  mk_ce_desc (buffer_addr r) (nbytes r) v (byte_swap r) (meta_data r).
Definition set_byte_swap (v : bool) (r : ce_desc) : ce_desc :=
  mk_ce_desc (buffer_addr r) (nbytes r) (gather r) v (meta_data r).
Definition set_meta_data (v : Z) (r : ce_desc) : ce_desc :=
  mk_ce_desc (buffer_addr r) (nbytes r) (gather r) (byte_swap r) v.
(** A ring: its indexes, its descriptors as the device sees them, the shadow
    copies of a source ring, and the contexts of the transfers (0 is NULL). *)
Record CE_ring_state : Type := mk_ring {
  nentries_mask : Z;
  sw_index : Z;
  write_index : Z;
  hw_index : Z;
  base_addr_owner_space : list ce_desc;
  shadow_base : list ce_desc;
  per_transfer_context : list Z;
}.

Definition set_nentries_mask (v : Z) (r : CE_ring_state) : CE_ring_state :=
  mk_ring v (sw_index r) (write_index r) (hw_index r) (base_addr_owner_space r) (shadow_base r) (per_transfer_context r).
Definition set_sw_index (v : Z) (r : CE_ring_state) : CE_ring_state :=
  mk_ring (nentries_mask r) v (write_index r) (hw_index r) (base_addr_owner_space r) (shadow_base r) (per_transfer_context r).
Definition set_write_index (v : Z) (r : CE_ring_state) : CE_ring_state :=
  mk_ring (nentries_mask r) (sw_index r) v (hw_index r) (base_addr_owner_space r) (shadow_base r) (per_transfer_context r).
Definition set_hw_index (v : Z) (r : CE_ring_state) : CE_ring_state :=
  mk_ring (nentries_mask r) (sw_index r) (write_index r) v (base_addr_owner_space r) (shadow_base r) (per_transfer_context r).
Definition set_base_addr_owner_space (v : list ce_desc) (r : CE_ring_state) : CE_ring_state :=
  mk_ring (nentries_mask r) (sw_index r) (write_index r) (hw_index r) v (shadow_base r) (per_transfer_context r).
Definition set_shadow_base (v : list ce_desc) (r : CE_ring_state) : CE_ring_state :=
  mk_ring (nentries_mask r) (sw_index r) (write_index r) (hw_index r) (base_addr_owner_space r) v (per_transfer_context r).
Definition set_per_transfer_context (v : list Z) (r : CE_ring_state) : CE_ring_state :=
  mk_ring (nentries_mask r) (sw_index r) (write_index r) (hw_index r) (base_addr_owner_space r) (shadow_base r) v.
(** A copy engine and its index registers. *)
Record CE_state : Type := mk_ce {
  attr_flags : Z;
  send_context : Z;
  recv_context : Z;
  src_ring : CE_ring_state;
  dest_ring : CE_ring_state;
  src_write_reg : Z;
  src_read_reg : Z;
  dest_write_reg : Z;
  dest_read_reg : Z;
}.

Definition set_attr_flags (v : Z) (r : CE_state) : CE_state :=
  mk_ce v (send_context r) (recv_context r) (src_ring r) (dest_ring r) (src_write_reg r) (src_read_reg r) (dest_write_reg r) (dest_read_reg r).
Definition set_send_context (v : Z) (r : CE_state) : CE_state :=
  mk_ce (attr_flags r) v (recv_context r) (src_ring r) (dest_ring r) (src_write_reg r) (src_read_reg r) (dest_write_reg r) (dest_read_reg r).
Definition set_recv_context (v : Z) (r : CE_state) : CE_state :=
  mk_ce (attr_flags r) (send_context r) v (src_ring r) (dest_ring r) (src_write_reg r) (src_read_reg r) (dest_write_reg r) (dest_read_reg r).
Definition set_src_ring (v : CE_ring_state) (r : CE_state) : CE_state :=
  mk_ce (attr_flags r) (send_context r) (recv_context r) v (dest_ring r) (src_write_reg r) (src_read_reg r) (dest_write_reg r) (dest_read_reg r).
Definition set_dest_ring (v : CE_ring_state) (r : CE_state) : CE_state :=
  mk_ce (attr_flags r) (send_context r) (recv_context r) (src_ring r) v (src_write_reg r) (src_read_reg r) (dest_write_reg r) (dest_read_reg r).
Definition set_src_write_reg (v : Z) (r : CE_state) : CE_state :=
  mk_ce (attr_flags r) (send_context r) (recv_context r) (src_ring r) (dest_ring r) v (src_read_reg r) (dest_write_reg r) (dest_read_reg r).
Definition set_src_read_reg (v : Z) (r : CE_state) : CE_state :=
  mk_ce (attr_flags r) (send_context r) (recv_context r) (src_ring r) (dest_ring r) (src_write_reg r) v (dest_write_reg r) (dest_read_reg r).
Definition set_dest_write_reg (v : Z) (r : CE_state) : CE_state :=
  mk_ce (attr_flags r) (send_context r) (recv_context r) (src_ring r) (dest_ring r) (src_write_reg r) (src_read_reg r) v (dest_read_reg r).
Definition set_dest_read_reg (v : Z) (r : CE_state) : CE_state :=
  mk_ce (attr_flags r) (send_context r) (recv_context r) (src_ring r) (dest_ring r) (src_write_reg r) (src_read_reg r) (dest_write_reg r) v.
Abbreviation CE := (CM CE_state).

Definition CE_ATTR_BYTE_SWAP_DATA : Z := 0x02.
Definition CE_SEND_FLAG_SWAP_DISABLE : Z := 1.
Definition CE_SEND_FLAG_GATHER : Z := 0x00010000.
Definition CE_RECV_FLAG_SWAPPED : Z := 1.
Definition CE_SENDLIST_ITEM_CTXT : Z := 0xcecebeef.
Definition CE_SENDLIST_ITEMS_MAX : Z := 12.

(** * Ring arithmetic *)

Definition CE_RING_DELTA (nentries_mask fromidx toidx : Z) : Z :=
  Z.land (u32 (toidx - fromidx)) nentries_mask.
Definition CE_RING_IDX_INCR (nentries_mask idx : Z) : Z := Z.land (u32 (idx + 1)) nentries_mask.
Definition CE_RING_IDX_ADD (nentries_mask idx num : Z) : Z := Z.land (u32 (idx + num)) nentries_mask.

(** The loop of [roundup_pwr2]. *)
Fixpoint pwr2_loop (i : nat) (test_pwr2 n : Z) : Z :=
  match i with
  | O => 0
  | S i => if test_pwr2 >? n then test_pwr2 else pwr2_loop i (u32 (Z.shiftl test_pwr2 1)) n
  end.

Definition roundup_pwr2 (n : Z) : Z :=
  if Z.land n (u32 (n - 1)) =? 0 then n else pwr2_loop 29 4 n.

(** * Access to the rings *)

Section access.
Context (ring : CE_state → CE_ring_state) (set_ring : CE_ring_state → CE_state → CE_state).

Definition ring_modify (f : CE_ring_state → CE_ring_state) : CE unit :=
  modify (λ c, set_ring (f (ring c)) c).

(** [ring->field[i]] *)
Definition ring_get {A} (field : CE_ring_state → list A) (i : Z) : CE A :=
  r ← gets ring; deref (field r !! Z.to_nat i).

Definition ring_put {A} (field : CE_ring_state → list A)
    (set_field : list A → CE_ring_state → CE_ring_state) (i : Z) (x : A) : CE unit :=
  _ ← ring_get field i; ring_modify (λ r, set_field (<[Z.to_nat i := x]> (field r)) r).

Definition avail : CE Z :=
  r ← gets ring; mret (CE_RING_DELTA (nentries_mask r) (write_index r) (u32 (sw_index r - 1))).
End access.

Abbreviation src_get := (ring_get src_ring).
Abbreviation src_put := (ring_put src_ring set_src_ring).
Abbreviation src_modify := (ring_modify src_ring set_src_ring).
Abbreviation dest_get := (ring_get dest_ring).
Abbreviation dest_put := (ring_put dest_ring set_dest_ring).
Abbreviation dest_modify := (ring_modify dest_ring set_dest_ring).

(** * Ring setup *)

(** The part of [ce_init] that sets a ring up: the number of entries asked for
    is rounded up, the indexes are those of the registers, the contexts are
    zeroed.  [base] and [shadow] are the descriptors in the memory obtained for
    the ring; [cdf_mem_zero] clears those of a destination ring. *)
Definition src_ring_setup (nentries : Z) (base shadow : list ce_desc) : CE unit :=
  let nentries := roundup_pwr2 nentries in
  read ← gets src_read_reg;
  write ← gets src_write_reg;
  modify (set_src_ring (mk_ring (u32 (nentries - 1)) read write read base shadow
    (replicate (Z.to_nat nentries) 0))).

Definition zero_desc : ce_desc := mk_ce_desc 0 0 false false 0.

Definition dest_ring_setup (nentries : Z) : CE unit :=
  let nentries := roundup_pwr2 nentries in
  read ← gets dest_read_reg;
  write ← gets dest_write_reg;
  modify (set_dest_ring (mk_ring (u32 (nentries - 1)) read write 0
    (replicate (Z.to_nat nentries) zero_desc) [] (replicate (Z.to_nat nentries) 0))).

(** * The source ring *)

Definition has_bit (flags bit : Z) : bool := negb (Z.land flags bit =? 0).

(** [hif_ce_war1] is a static that no code sets: the write index register is
    written. *)
Definition war_ce_src_ring_write_idx_set (write_index : Z) : CE unit :=
  modify (set_src_write_reg write_index).

(** The descriptor of a buffer; its members have 32, 16, 1, 1 and 14 bits. *)
Definition src_desc_of (attr buffer nbytes transfer_id flags : Z) : ce_desc :=
  mk_ce_desc (u32 buffer) (u16 nbytes) (has_bit flags CE_SEND_FLAG_GATHER)
    (has_bit attr CE_ATTR_BYTE_SWAP_DATA && negb (has_bit flags CE_SEND_FLAG_SWAP_DISABLE))
    (wrap 14 transfer_id).

(** The [A_TARGET_ACCESS_*] macros at its start and end are empty in this build
    (hif/src/snoc/hif_io32_snoc.h): the target need not be woken. *)
Definition ce_send_nolock (per_transfer_context_ buffer nbytes transfer_id flags : Z) : CE CDF_STATUS :=
  r ← gets src_ring;
  attr ← gets attr_flags;
  let mask := nentries_mask r in
  let write := write_index r in
  if CE_RING_DELTA mask write (u32 (sw_index r - 1)) <=? 0 then mret CDF_STATUS_E_FAILURE
  else
    let d := src_desc_of attr buffer nbytes transfer_id flags in
    src_put shadow_base set_shadow_base write d;;
    src_put base_addr_owner_space set_base_addr_owner_space write d;;
    src_put per_transfer_context set_per_transfer_context write per_transfer_context_;;
    let write := CE_RING_IDX_INCR mask write in
    when (negb (gather d)) (war_ce_src_ring_write_idx_set write);;
    src_modify (set_write_index write);;
    mret CDF_STATUS_SUCCESS.

Definition ce_send : Z → Z → Z → Z → Z → CE CDF_STATUS := ce_send_nolock.

(** One buffer of a send list. *)
Record ce_sendlist_item : Type := mk_item {
  it_data : Z;
  it_nbytes : Z;
  it_flags : Z;
}.

(** A send list is the list of its items. *)
Definition ce_sendlist_buf_add (sl : list ce_sendlist_item) (buffer nbytes flags : Z) :
    CDF_STATUS * list ce_sendlist_item :=
  if Z.of_nat (length sl) >=? CE_SENDLIST_ITEMS_MAX then (CDF_STATUS_E_RESOURCES, sl)
  else (CDF_STATUS_SUCCESS, sl ++ [mk_item buffer nbytes flags]).

(** All but the last item, then the last one ([CDF_ASSERT] is a no-op); with
    no item the count of the loop wraps and it reads past the list. *)
Fixpoint sendlist_loop (ctxt transfer_id : Z) (items : list ce_sendlist_item) : CE CDF_STATUS :=
  match items with
  | [] => ub
  | [it] => ce_send_nolock ctxt (it_data it) (it_nbytes it) transfer_id (it_flags it)
  | it :: items =>
      ce_send_nolock CE_SENDLIST_ITEM_CTXT (it_data it) (it_nbytes it) transfer_id
        (Z.lor (it_flags it) CE_SEND_FLAG_GATHER);;
      sendlist_loop ctxt transfer_id items
  end.

(** The status is [-ENOMEM], here [None], when the list does not fit. *)
Definition ce_sendlist_send (ctxt : Z) (sl : list ce_sendlist_item) (transfer_id : Z) :
    CE (option CDF_STATUS) :=
  r ← gets src_ring;
  let n := Z.of_nat (length sl) in
  if CE_RING_DELTA (nentries_mask r) (write_index r) (u32 (sw_index r - 1)) >=? n then
    st ← sendlist_loop ctxt transfer_id sl; mret (Some st)
  else mret None.

Definition ce_send_entries_avail : CE Z := avail src_ring.
Definition ce_recv_entries_avail : CE Z := avail dest_ring.

Definition ce_send_entries_done : CE Z :=
  r ← gets src_ring; rd ← gets src_read_reg;
  mret (CE_RING_DELTA (nentries_mask r) (sw_index r) rd).

Definition ce_recv_entries_done : CE Z :=
  r ← gets dest_ring; rd ← gets dest_read_reg;
  mret (CE_RING_DELTA (nentries_mask r) (sw_index r) rd).

(** What a completion returns. *)
Record completion : Type := mk_completion {
  co_CE_context : Z;
  co_transfer_context : Z;
  co_buffer : Z;
  co_nbytes : Z;
  co_transfer_id : Z;
}.

(** The completion, when the status is a success, and the indexes returned
    through [sw_idx] and [hw_idx]. *)
Definition ce_completed_send_next_nolock : CE (option completion * (Z * Z)) :=
  r ← gets src_ring;
  let sw := sw_index r in
  (if hw_index r =? sw then rd ← gets src_read_reg; src_modify (set_hw_index rd) else mret tt);;
  r ← gets src_ring;
  let read_index := hw_index r in
  if negb (read_index =? sw) && negb (read_index =? 0xffffffff) then
    d ← src_get shadow_base sw;
    cectx ← gets send_context;
    tctx ← src_get per_transfer_context sw;
    src_put per_transfer_context set_per_transfer_context sw 0;;
    src_modify (set_sw_index (CE_RING_IDX_INCR (nentries_mask r) sw));;
    mret (Some (mk_completion cectx tctx (buffer_addr d) (nbytes d) (meta_data d)), (sw, read_index))
  else mret (None, (sw, read_index)).

Definition ce_completed_send_next : CE (option completion * (Z * Z)) :=
  ce_completed_send_next_nolock.

Definition ce_cancel_send_next : CE (option completion) :=
  r ← gets src_ring;
  let sw := sw_index r in
  if negb (write_index r =? sw) then
    d ← src_get base_addr_owner_space sw;
    cectx ← gets send_context;
    tctx ← src_get per_transfer_context sw;
    src_put per_transfer_context set_per_transfer_context sw 0;;
    src_modify (set_sw_index (CE_RING_IDX_INCR (nentries_mask r) sw));;
    mret (Some (mk_completion cectx tctx (buffer_addr d) (nbytes d) (meta_data d)))
  else mret None.

(** * The destination ring *)

Definition ce_recv_buf_enqueue (per_recv_context buffer : Z) : CE CDF_STATUS :=
  r ← gets dest_ring;
  let mask := nentries_mask r in
  let write := write_index r in
  let sw := sw_index r in
  if CE_RING_DELTA mask write (u32 (sw - 1)) >? 0 then
    d ← dest_get base_addr_owner_space write;
    dest_put base_addr_owner_space set_base_addr_owner_space write
      (set_nbytes 0 (set_buffer_addr (u32 buffer) d));;
    dest_put per_transfer_context set_per_transfer_context write per_recv_context;;
    let write := CE_RING_IDX_INCR mask write in
    when (negb (write =? sw))
      (modify (set_dest_write_reg write);; dest_modify (set_write_index write));;
    mret CDF_STATUS_SUCCESS
  else mret CDF_STATUS_E_FAILURE.

(** The completion and its flags. *)
Definition ce_completed_recv_next_nolock : CE (option (completion * Z)) :=
  r ← gets dest_ring;
  let sw := sw_index r in
  d ← dest_get base_addr_owner_space sw;
  if nbytes d =? 0 then mret None
  else
    dest_put base_addr_owner_space set_base_addr_owner_space sw (set_nbytes 0 d);;
    cectx ← gets recv_context;
    tctx ← dest_get per_transfer_context sw;
    dest_put per_transfer_context set_per_transfer_context sw 0;;
    dest_modify (set_sw_index (CE_RING_IDX_INCR (nentries_mask r) sw));;
    mret (Some (mk_completion cectx tctx (buffer_addr d) (nbytes d) (meta_data d),
      if byte_swap d then CE_RECV_FLAG_SWAPPED else 0)).

Definition ce_completed_recv_next : CE (option (completion * Z)) := ce_completed_recv_next_nolock.

(** The contexts and the buffer of a posted descriptor taken back. *)
Definition ce_revoke_recv_next : CE (option (Z * Z * Z)) :=
  r ← gets dest_ring;
  let sw := sw_index r in
  if negb (write_index r =? sw) then
    d ← dest_get base_addr_owner_space sw;
    cectx ← gets recv_context;
    tctx ← dest_get per_transfer_context sw;
    dest_put per_transfer_context set_per_transfer_context sw 0;;
    dest_modify (set_sw_index (CE_RING_IDX_INCR (nentries_mask r) sw));;
    mret (Some (cectx, tctx, buffer_addr d))
  else mret None.

(** * The hardware *)

(** It processes up to [k] of the source descriptors it has been given. *)
Definition hw_send (k : Z) : CE unit :=
  r ← gets src_ring; rd ← gets src_read_reg; wr ← gets src_write_reg;
  let n := Z.min k (CE_RING_DELTA (nentries_mask r) rd wr) in
  modify (set_src_read_reg (CE_RING_IDX_ADD (nentries_mask r) rd n)).

(** It receives [n] bytes into the next destination descriptor it has been
    given, if there is one. *)
Definition hw_receive (n meta : Z) (swap : bool) : CE unit :=
  r ← gets dest_ring; rd ← gets dest_read_reg; wr ← gets dest_write_reg;
  if rd =? wr then mret tt
  else
    d ← dest_get base_addr_owner_space rd;
    dest_put base_addr_owner_space set_base_addr_owner_space rd
      (set_byte_swap swap (set_meta_data meta (set_nbytes n d)));;
    modify (set_dest_read_reg (CE_RING_IDX_INCR (nentries_mask r) rd)).
