(* ===== verification/CeRing.v ===== *)
(** Power-of-two rings: the slots of a window that starts at the software
    index, the contents of a window, and the ring arithmetic of the copy
    engine. *)
From S2P Require Import Prelude CdfLock Ce.

(** * Slots *)

(** The [j]-th slot from [sw] in a ring of [n]. *)
Definition slot (n sw : Z) (j : nat) : nat := Z.to_nat ((sw + Z.of_nat j) mod n).

(** The index after it. *)
Definition advance (n sw j : Z) : Z := (sw + j) mod n.

Lemma slot_lt n sw j : 0 < n → (slot n sw j < Z.to_nat n)%nat.
Proof. intros Hn. unfold slot. pose proof (Z.mod_pos_bound (sw + Z.of_nat j) n Hn). lia. Qed.

Lemma slot_inj n sw i j :
  0 < n → Z.of_nat i < n → Z.of_nat j < n → slot n sw i = slot n sw j → i = j.
Proof.
  intros Hn Hi Hj. unfold slot. pose proof (Z.mod_pos_bound (sw + Z.of_nat i) n Hn).
  pose proof (Z.mod_pos_bound (sw + Z.of_nat j) n Hn). intros Heq%Z2Nat.inj; [|lia..].
  pose proof (Z.div_mod (sw + Z.of_nat i) n ltac:(lia)). pose proof (Z.div_mod (sw + Z.of_nat j) n ltac:(lia)).
  assert ((sw + Z.of_nat i) / n = (sw + Z.of_nat j) / n) by nia. lia.
Qed.

Lemma slot_advance n sw j : 0 < n → slot n (advance n sw 1) j = slot n sw (S j).
Proof. intros Hn. unfold slot, advance. rewrite Zplus_mod_idemp_l. do 2 f_equal. lia. Qed.

Lemma slot_index n sw j : 0 ≤ j → Z.to_nat (advance n sw j) = slot n sw (Z.to_nat j).
Proof. intros Hj. unfold slot, advance. by rewrite Z2Nat.id. Qed.

Lemma slot_zero n sw : 0 ≤ sw < n → slot n sw 0 = Z.to_nat sw.
Proof. intros H. unfold slot. rewrite Z.add_0_r. by rewrite Z.mod_small. Qed.

Lemma advance_advance n sw i j : 0 < n → advance n (advance n sw i) j = advance n sw (i + j).
Proof. intros Hn. unfold advance. rewrite Zplus_mod_idemp_l. f_equal. lia. Qed.

Lemma advance_range n sw j : 0 < n → 0 ≤ advance n sw j < n.
Proof. apply Z.mod_pos_bound. Qed.

Lemma advance_zero n sw : 0 ≤ sw < n → advance n sw 0 = sw.
Proof. intros H. unfold advance. rewrite Z.add_0_r. by apply Z.mod_small. Qed.

Lemma advance_inj n sw i j :
  0 < n → 0 ≤ i < n → 0 ≤ j < n → advance n sw i = advance n sw j → i = j.
Proof.
  intros Hn Hi Hj H. enough (Z.to_nat i = Z.to_nat j) by lia.
  eapply slot_inj; [exact Hn|rewrite Z2Nat.id; lia..|]. rewrite <- !slot_index by lia. by rewrite H.
Qed.

(** * Windows *)

(** From the slot of [sw] on, the array [l] holds [xs]. *)
Definition window {A} (n sw : Z) (l : list A) (xs : list A) : Prop :=
  Z.of_nat (length l) = n ∧ ∀ j x, xs !! j = Some x → l !! slot n sw j = Some x.

Section window.
Context {A : Type} (n sw : Z) (l xs : list A).
Context (Hn : 0 < n).
Implicit Types (x y : A).

Lemma window_nil : Z.of_nat (length l) = n → window n sw l [].
Proof. split; [done|]. by intros j x. Qed.

Lemma window_lookup j x : window n sw l xs → xs !! j = Some x → l !! slot n sw j = Some x.
Proof. intros [_ H]. apply H. Qed.

Lemma window_snoc x :
  window n sw l xs → Z.of_nat (length xs) < n →
  window n sw (<[slot n sw (length xs) := x]> l) (xs ++ [x]).
Proof.
  intros [Hl Hw] Hxs. split; [by rewrite length_insert|]. intros j y Hj.
  destruct (decide (j = length xs)) as [->|Hne].
  - rewrite lookup_app_r, Nat.sub_diag in Hj by done. injection Hj as <-.
    apply list_lookup_insert_eq. pose proof (slot_lt n sw (length xs) Hn). lia.
  - assert (j < length xs)%nat as Hlt.
    { apply lookup_lt_Some in Hj. rewrite length_app in Hj. simpl in Hj. lia. }
    rewrite lookup_app_l in Hj by done. rewrite list_lookup_insert_ne; [by apply Hw|].
    intros Heq. apply (slot_inj n) in Heq; lia.
Qed.

Lemma window_tail x : window n sw l (x :: xs) → window n (advance n sw 1) l xs.
Proof.
  intros [Hl Hw]. split; [done|]. intros j y Hj. rewrite slot_advance by done. by apply Hw.
Qed.

(** The first slot may then be overwritten. *)
Lemma window_tail_insert x y :
  window n sw l (x :: xs) → Z.of_nat (S (length xs)) ≤ n → 
  window n (advance n sw 1) (<[slot n sw 0 := y]> l) xs.
Proof.
  intros [Hl Hw] Hxs. split; [by rewrite length_insert|]. intros j z Hj.
  rewrite slot_advance by done. apply lookup_lt_Some in Hj as Hlt.
  rewrite list_lookup_insert_ne; [by apply Hw|]. intros Heq. apply (slot_inj n) in Heq; lia.
Qed.

Lemma window_insert j y :
  window n sw l xs → Z.of_nat (length xs) ≤ n → (j < length xs)%nat →
  window n sw (<[slot n sw j := y]> l) (<[j := y]> xs).
Proof.
  intros [Hl Hw] Hxs Hj. split; [by rewrite length_insert|]. intros i z Hi.
  destruct (decide (i = j)) as [->|Hne].
  - rewrite list_lookup_insert_eq in Hi by done. injection Hi as <-.
    apply list_lookup_insert_eq. pose proof (slot_lt n sw j Hn). lia.
  - rewrite list_lookup_insert_ne in Hi by done. apply lookup_lt_Some in Hi as Hlt.
    rewrite list_lookup_insert_ne; [by apply Hw|]. intros Heq. apply (slot_inj n) in Heq; lia.
Qed.

(** Every slot of the window exists. *)
Lemma window_slot_lt j : window n sw l xs → (slot n sw j < length l)%nat.
Proof. intros [Hl _]. pose proof (slot_lt n sw j Hn). lia. Qed.
End window.

(** * Ring arithmetic *)

(** [2 ^ k] entries, [k] at most 31. *)
Definition ring_size (k n : Z) : Prop := n = 2 ^ k ∧ 0 ≤ k ≤ 31.

Lemma ring_size_bounds k n : ring_size k n → 0 < n ∧ n ≤ 2 ^ 31.
Proof.
  intros [-> Hk]. split; [apply Z.pow_pos_nonneg; lia|]. apply Z.pow_le_mono_r; lia.
Qed.

Lemma wrap_mod k n z : ring_size k n → u32 z mod n = z mod n.
Proof.
  intros [-> Hk]. unfold wrap. symmetry. apply Znumtheory.Zmod_div_mod.
  - apply Z.pow_pos_nonneg; lia.
  - lia.
  - exists (2 ^ (32 - k)). rewrite <- Z.pow_add_r by lia. f_equal. lia.
Qed.

Lemma wrap_mask k n z : ring_size k n → Z.land (u32 z) (n - 1) = z mod n.
Proof.
  intros Hn. pose proof (wrap_mod k n z Hn) as H. destruct Hn as [-> Hk]. by rewrite land_mask by lia.
Qed.

Section arithmetic.
Context (k n : Z) (Hn : ring_size k n).

Lemma idx_incr_advance i : CE_RING_IDX_INCR (n - 1) i = advance n i 1.
Proof. unfold CE_RING_IDX_INCR. by rewrite (wrap_mask k) by done. Qed.

Lemma idx_add_advance i j : CE_RING_IDX_ADD (n - 1) i j = advance n i j.
Proof. unfold CE_RING_IDX_ADD. by rewrite (wrap_mask k) by done. Qed.

(** The distance from [i] to [j] steps ahead of it. *)
Lemma delta_advance sw i j :
  0 ≤ i ≤ j → j - i < n → CE_RING_DELTA (n - 1) (advance n sw i) (advance n sw j) = j - i.
Proof.
  intros Hij Hd. unfold CE_RING_DELTA. rewrite (wrap_mask k) by done. unfold advance.
  rewrite <- Zminus_mod. replace (sw + j - (sw + i)) with (j - i) by lia. apply Z.mod_small. lia.
Qed.

Lemma delta_from sw j :
  0 ≤ sw < n → 0 ≤ j < n → CE_RING_DELTA (n - 1) sw (advance n sw j) = j.
Proof.
  intros Hsw Hj. pose proof (delta_advance sw 0 j ltac:(lia) ltac:(lia)) as H.
  rewrite advance_zero, Z.sub_0_r in H by done. done.
Qed.

(** The room of a ring that holds [len] entries. *)
Lemma delta_room sw len :
  0 ≤ len < n → CE_RING_DELTA (n - 1) (advance n sw len) (u32 (sw - 1)) = n - 1 - len.
Proof.
  intros Hlen. unfold CE_RING_DELTA, advance. rewrite (wrap_mask k) by done.
  rewrite Zminus_mod, (wrap_mod k) by done. rewrite Zmod_mod, <- Zminus_mod.
  replace (sw - 1 - (sw + len)) with (n - 1 - len + (-1) * n) by lia.
  rewrite Z_mod_plus_full. apply Z.mod_small. lia.
Qed.
End arithmetic.

(** * Access *)

Section access.
Context (ring : CE_state → CE_ring_state) (set_ring : CE_ring_state → CE_state → CE_state).

Lemma ring_get_run {A} (field : CE_ring_state → list A) i x c :
  field (ring c) !! Z.to_nat i = Some x → ring_get ring field i c = Some (x, c).
Proof. intros H. unfold ring_get. rewrite run_gets. unfold deref. by rewrite H. Qed.

Lemma ring_put_run {A} (field : CE_ring_state → list A) set_field i (x : A) c :
  (Z.to_nat i < length (field (ring c)))%nat →
  ring_put ring set_ring field set_field i x c =
    Some (tt, set_ring (set_field (<[Z.to_nat i := x]> (field (ring c))) (ring c)) c).
Proof.
  intros [y Hy]%lookup_lt_is_Some. unfold ring_put.
  by rewrite (run_bind _ _ _ _ _ (ring_get_run _ _ _ _ Hy)).
Qed.
End access.

Section bounds.
Context (k n : Z) (Hn : ring_size k n).

Lemma ring_pos : 0 < n.
Proof. by apply (ring_size_bounds k). Qed.

(** The slot that is written next exists in an array with a window. *)
Lemma window_bound {A} sw (l : list A) xs i j :
  window n sw l xs → i = advance n sw (Z.of_nat j) → (Z.to_nat i < length l)%nat.
Proof.
  intros Hw ->. rewrite slot_index, Nat2Z.id by lia. eapply window_slot_lt; [apply ring_pos|done].
Qed.

(** The item put after those of a window. *)
Lemma slots_put {A B} (f : B → A) sw (l : list A) (items : list B) i x :
  window n sw l (f <$> items) → i = advance n sw (Z.of_nat (length items)) →
  Z.of_nat (length items) < n →
  window n sw (<[Z.to_nat i := f x]> l) (f <$> items ++ [x]).
Proof.
  intros Hw -> Hlen. rewrite fmap_app, slot_index, Nat2Z.id by lia.
  rewrite <- (length_fmap f items) at 1.
  apply window_snoc; [apply ring_pos|done|by rewrite length_fmap].
Qed.
End bounds.
