(* ===== verification/CeSrc.v ===== *)
(** The source ring of a copy engine is a queue: what each operation and each
    hardware step does to it, and the order of the completions. *)
From S2P Require Import Prelude CdfLock Ce CeRing.

(** * The abstract source ring *)

(** A buffer sent: its context and its descriptor. *)
Record tx_item : Type := mk_tx { ti_ctx : Z; ti_desc : ce_desc }.

(** The buffers sent and not yet completed, the oldest first; how many of them
    the hardware has been told of, has processed, and is known by the cached
    index to have processed. *)
Record sq : Type := mk_sq {
  sq_items : list tx_item;
  sq_posted : nat;
  sq_done : nat;
  sq_cached : nat;
}.

Record sq_ok (n : Z) (q : sq) : Prop := {
  sq_ok_cached : (sq_cached q ≤ sq_done q)%nat;
  sq_ok_done : (sq_done q ≤ sq_posted q)%nat;
  sq_ok_posted : (sq_posted q ≤ length (sq_items q))%nat;
  sq_ok_len : Z.of_nat (length (sq_items q)) < n;
}.

(** The ring [c] of [n] entries represents [q]. *)
Record src_rep (n : Z) (c : CE_state) (q : sq) : Prop := {
  sr_mask : nentries_mask (src_ring c) = n - 1;
  sr_sw : 0 ≤ sw_index (src_ring c) < n;
  sr_ok : sq_ok n q;
  sr_write : write_index (src_ring c) = advance n (sw_index (src_ring c)) (Z.of_nat (length (sq_items q)));
  sr_posted : src_write_reg c = advance n (sw_index (src_ring c)) (Z.of_nat (sq_posted q));
  sr_done : src_read_reg c = advance n (sw_index (src_ring c)) (Z.of_nat (sq_done q));
  sr_cached : hw_index (src_ring c) = advance n (sw_index (src_ring c)) (Z.of_nat (sq_cached q));
  sr_shadow : window n (sw_index (src_ring c)) (shadow_base (src_ring c)) (ti_desc <$> sq_items q);
  sr_base : window n (sw_index (src_ring c)) (base_addr_owner_space (src_ring c)) (ti_desc <$> sq_items q);
  sr_ctx : window n (sw_index (src_ring c)) (per_transfer_context (src_ring c)) (ti_ctx <$> sq_items q);
}.

(** The parts of the engine that the source ring does not own. *)
Definition src_frame (c c' : CE_state) : Prop :=
  attr_flags c' = attr_flags c ∧ send_context c' = send_context c ∧
  recv_context c' = recv_context c ∧ dest_ring c' = dest_ring c ∧
  dest_write_reg c' = dest_write_reg c ∧ dest_read_reg c' = dest_read_reg c.

#[export] Instance src_frame_preorder : PreOrder src_frame.
Proof. split; [by intros c|]. unfold src_frame. intros a b c. naive_solver congruence. Qed.

(** * The operations on the queue *)

Definition spec_send (n attr ctx buffer nbytes id flags : Z) (q : sq) : CDF_STATUS * sq :=
  if Z.of_nat (length (sq_items q)) <? n - 1 then
    let d := src_desc_of attr buffer nbytes id flags in
    (CDF_STATUS_SUCCESS,
     mk_sq (sq_items q ++ [mk_tx ctx d])
       (if gather d then sq_posted q else S (length (sq_items q))) (sq_done q) (sq_cached q))
  else (CDF_STATUS_E_FAILURE, q).

Fixpoint spec_sendlist_loop (n attr ctx id : Z) (sl : list ce_sendlist_item) (q : sq) : CDF_STATUS * sq :=
  match sl with
  | [] => (CDF_STATUS_E_FAILURE, q)
  | [it] => spec_send n attr ctx (it_data it) (it_nbytes it) id (it_flags it) q
  | it :: sl =>
      spec_sendlist_loop n attr ctx id sl
        (spec_send n attr CE_SENDLIST_ITEM_CTXT (it_data it) (it_nbytes it) id
          (Z.lor (it_flags it) CE_SEND_FLAG_GATHER) q).2
  end.

Definition spec_room (n : Z) (q : sq) : Z := n - 1 - Z.of_nat (length (sq_items q)).

Definition spec_sendlist (n attr ctx id : Z) (sl : list ce_sendlist_item) (q : sq) :
    option CDF_STATUS * sq :=
  if spec_room n q >=? Z.of_nat (length sl) then
    let r := spec_sendlist_loop n attr ctx id sl q in (Some r.1, r.2)
  else (None, q).

(** The cached count is refreshed only when it is used up. *)
Definition refresh (q : sq) : sq :=
  mk_sq (sq_items q) (sq_posted q) (sq_done q)
    (if (sq_cached q =? 0)%nat then sq_done q else sq_cached q).

Definition completion_of (sctx : Z) (it : tx_item) : completion :=
  mk_completion sctx (ti_ctx it) (buffer_addr (ti_desc it)) (nbytes (ti_desc it)) (meta_data (ti_desc it)).

Definition spec_completed (sctx : Z) (q : sq) : option completion * sq :=
  let q := refresh q in
  match sq_items q, sq_cached q with
  | it :: items, S k => (Some (completion_of sctx it), mk_sq items (sq_posted q - 1) (sq_done q - 1) k)
  | _, _ => (None, q)
  end.

Definition spec_hw_send (k : Z) (q : sq) : sq :=
  mk_sq (sq_items q) (sq_posted q)
    (sq_done q + Z.to_nat (Z.min k (Z.of_nat (sq_posted q - sq_done q)))) (sq_cached q).

(** * Each operation *)

Section ring.
Context (k n : Z) (Hn : ring_size k n).

Lemma ce_send_run c q ctx buffer nbytes id flags :
  src_rep n c q →
  let r := spec_send n (attr_flags c) ctx buffer nbytes id flags q in
  ∃ c', ce_send_nolock ctx buffer nbytes id flags c = Some (r.1, c') ∧ src_rep n c' r.2 ∧ src_frame c c'.
Proof.
  intros H r. pose proof (ring_pos k n Hn) as Hpos.
  pose proof H as [Hm Hsw [Hc Hd Hp Hl] Hw Hpo Hdo Hca Hsh Hba Hcx].
  unfold ce_send_nolock. rewrite !run_gets. rewrite Hm, Hw.
  rewrite (delta_room k) by (done || lia). unfold r, spec_send.
  destruct (Z.ltb_spec (Z.of_nat (length (sq_items q))) (n - 1)).
  2: { destruct (Z.leb_spec (n - 1 - Z.of_nat (length (sq_items q))) 0); [|lia]. by exists c. }
  destruct (Z.leb_spec (n - 1 - Z.of_nat (length (sq_items q))) 0); [lia|].
  set (d := src_desc_of _ _ _ _ _). set (w := advance n _ _) in *. cbv zeta.
  do 3 (erewrite run_bind by (apply ring_put_run; cbn; by eapply (window_bound k))).
  rewrite (idx_incr_advance k) by done.
  assert (advance n w 1 = advance n (sw_index (src_ring c)) (Z.of_nat (length (sq_items q ++ [mk_tx ctx d])))) as ->.
  { unfold w. rewrite advance_advance, length_app by done. cbn [length]. f_equal. lia. }
  destruct (gather d) eqn:Hg; cbn [negb]; (eexists; split; [reflexivity|]; split; [|done]);
    split; cbn -[length advance]; try done; try (by apply (slots_put k n Hn ti_desc _ _ _ _ (mk_tx ctx d)));
    try (by apply (slots_put k n Hn ti_ctx _ _ _ _ (mk_tx ctx d)));
    try (split; cbn -[length]; rewrite ?length_app; cbn; lia).
  rewrite length_app. cbn [length]. f_equal. lia.
Qed.

Lemma sendlist_loop_run c q ctx id sl :
  sl ≠ [] → src_rep n c q →
  let r := spec_sendlist_loop n (attr_flags c) ctx id sl q in
  ∃ c', sendlist_loop ctx id sl c = Some (r.1, c') ∧ src_rep n c' r.2 ∧ src_frame c c'.
Proof.
  intros Hne. revert c q. induction sl as [|it sl IH]; intros c q H; [done|].
  destruct sl as [|it' sl]; [by apply ce_send_run|].
  destruct (ce_send_run c q CE_SENDLIST_ITEM_CTXT (it_data it) (it_nbytes it) id
    (Z.lor (it_flags it) CE_SEND_FLAG_GATHER) H) as (c1 & Hrun & Hr1 & Hf1).
  destruct (IH ltac:(done) c1 _ Hr1) as (c2 & Hrun2 & Hr2 & Hf2).
  exists c2. change (sendlist_loop ctx id (it :: it' :: sl)) with
    (ce_send_nolock CE_SENDLIST_ITEM_CTXT (it_data it) (it_nbytes it) id
      (Z.lor (it_flags it) CE_SEND_FLAG_GATHER);; sendlist_loop ctx id (it' :: sl)).
  rewrite (run_bind _ _ _ _ _ Hrun). destruct Hf1 as [Ha Hf1]. rewrite Ha in Hrun2, Hr2.
  split_and!; [exact Hrun2|exact Hr2|]. etrans; [|exact Hf2]. by split.
Qed.

Lemma room_run c q :
  src_rep n c q →
  CE_RING_DELTA (n - 1) (write_index (src_ring c)) (u32 (sw_index (src_ring c) - 1)) = spec_room n q.
Proof. intros [? ? [] -> _ _ _ _ _ _]. rewrite (delta_room k) by (done || lia). done. Qed.

Lemma ce_sendlist_send_run c q ctx sl id :
  sl ≠ [] → src_rep n c q →
  let r := spec_sendlist n (attr_flags c) ctx id sl q in
  ∃ c', ce_sendlist_send ctx sl id c = Some (r.1, c') ∧ src_rep n c' r.2 ∧ src_frame c c'.
Proof.
  intros Hne H. unfold ce_sendlist_send, spec_sendlist. rewrite run_gets. cbv zeta.
  rewrite (sr_mask _ _ _ H), (room_run c q H). destruct (_ >=? _).
  - destruct (sendlist_loop_run c q ctx id sl Hne H) as (c' & Hrun & ? & ?).
    exists c'. by rewrite (run_bind _ _ _ _ _ Hrun).
  - by exists c.
Qed.

Lemma ce_send_entries_avail_run c q :
  src_rep n c q → ce_send_entries_avail c = Some (spec_room n q, c).
Proof.
  intros H. unfold ce_send_entries_avail, avail. rewrite run_gets, (sr_mask _ _ _ H).
  by rewrite (room_run c q H).
Qed.

Lemma ce_send_entries_done_run c q :
  src_rep n c q → ce_send_entries_done c = Some (Z.of_nat (sq_done q), c).
Proof.
  intros [Hm Hsw [] _ _ Hd _ _ _ _]. unfold ce_send_entries_done. rewrite !run_gets, Hm, Hd.
  by rewrite (delta_from k) by (done || lia).
Qed.

Lemma refresh_run {T} c q (f : CE T) :
  src_rep n c q →
  ∃ c', ((if hw_index (src_ring c) =? sw_index (src_ring c)
          then rd ← gets src_read_reg; src_modify (set_hw_index rd) else mret tt);; f) c = f c' ∧
    src_rep n c' (refresh q) ∧ src_frame c c' ∧ sw_index (src_ring c') = sw_index (src_ring c).
Proof.
  intros H. pose proof (ring_pos k n Hn) as Hpos. destruct H as [Hm Hsw [Hc Hd Hp Hl] Hw Hpo Hdo Hca Hsh Hba Hcx].
  assert ((hw_index (src_ring c) =? sw_index (src_ring c)) = (sq_cached q =? 0)%nat) as ->.
  { apply eq_true_iff_eq. rewrite Z.eqb_eq, Nat.eqb_eq, Hca. split; [|by intros ->; apply advance_zero].
    intros Heq. enough (Z.of_nat (sq_cached q) = 0) by lia.
    apply (advance_inj n (sw_index (src_ring c))); [lia..|]. by rewrite advance_zero by lia. }
  unfold refresh. destruct (Nat.eqb_spec (sq_cached q) 0).
  - eexists. split; [reflexivity|]. split; [|done]. by split; cbn; try done; split; cbn; lia.
  - eexists. split; [reflexivity|]. split; [|done]. by split; cbn; try done; split; cbn; lia.
Qed.

Lemma ce_completed_send_next_run c q :
  src_rep n c q →
  let r := spec_completed (send_context c) q in
  ∃ ix c', ce_completed_send_next c = Some ((r.1, ix), c') ∧ src_rep n c' r.2 ∧ src_frame c c'.
Proof.
  intros H0. unfold ce_completed_send_next, ce_completed_send_next_nolock. rewrite run_gets. cbv zeta.
  match goal with |- context [(_ ;; ?f) c] => destruct (refresh_run c q f H0) as (c1 & Heq & H & Hf & Hsw1) end.
  rewrite Heq. clear Heq. pose proof (ring_pos k n Hn) as Hpos. cbv zeta. unfold spec_completed.
  change (sq_posted q) with (sq_posted (refresh q)). change (sq_done q) with (sq_done (refresh q)).
  generalize dependent (refresh q). intros q1 H. rewrite run_gets. rewrite <- Hsw1.
  pose proof H as [Hm Hsw [Hc Hd Hp Hl] Hw Hpo Hdo Hca Hsh Hba Hcx].
  assert ((hw_index (src_ring c1) =? 0xffffffff) = false) as ->.
  { apply Z.eqb_neq. rewrite Hca. pose proof (advance_range n (sw_index (src_ring c1)) (Z.of_nat (sq_cached q1)) Hpos).
    pose proof (ring_size_bounds k n Hn). lia. }
  rewrite andb_true_r. destruct (sq_cached q1) as [|m] eqn:Hm1.
  { rewrite Hca, advance_zero, Z.eqb_refl by lia. cbn [negb].
    eexists _, c1. split_and!; [by destruct (sq_items q1)|by destruct (sq_items q1)|done]. }
  destruct (Z.eqb_spec (hw_index (src_ring c1)) (sw_index (src_ring c1))) as [Heq|_]; cbn [negb].
  { exfalso. rewrite Hca in Heq. enough (Z.of_nat (S m) = 0) by lia.
    apply (advance_inj n (sw_index (src_ring c1))); [lia..|]. by rewrite advance_zero by lia. }
  destruct (sq_items q1) as [|it items] eqn:Hit; [simpl in *; lia|]. cbn [length] in *.
  pose proof (window_lookup n _ _ _ 0 _ Hsh eq_refl) as H1. rewrite slot_zero in H1 by done.
  pose proof (window_lookup n _ _ _ 0 _ Hcx eq_refl) as H2. rewrite slot_zero in H2 by done.
  rewrite (run_bind _ _ _ _ _ (ring_get_run _ _ _ _ _ H1)), run_gets.
  rewrite (run_bind _ _ _ _ _ (ring_get_run _ _ _ _ _ H2)).
  erewrite run_bind by (apply ring_put_run; by eapply lookup_lt_Some).
  rewrite Hm, (idx_incr_advance k) by done.
  eexists _, _. split; [rewrite (proj1 (proj2 Hf)); reflexivity|]. split; [|exact Hf].
  split; cbn -[length advance]; try done; rewrite ?advance_advance by done.
  - by apply advance_range.
  - split; cbn -[length]; lia.
  - rewrite Hw. f_equal. lia.
  - rewrite Hpo. f_equal. lia.
  - rewrite Hdo. f_equal. lia.
  - rewrite Hca. f_equal. lia.
  - by eapply window_tail.
  - by eapply window_tail.
  - rewrite <- (slot_zero n (sw_index (src_ring c1))) by done.
    eapply window_tail_insert; [done|done|]. rewrite length_fmap. lia.
Qed.

Lemma hw_send_run c q j :
  0 ≤ j → src_rep n c q →
  ∃ c', hw_send j c = Some (tt, c') ∧ src_rep n c' (spec_hw_send j q) ∧ src_frame c c'.
Proof.
  intros Hj H. pose proof (ring_pos k n Hn) as Hpos.
  pose proof H as [Hm Hsw [Hc Hd Hp Hl] Hw Hpo Hdo Hca Hsh Hba Hcx].
  unfold hw_send. rewrite !run_gets, Hm, Hpo, Hdo. rewrite (delta_advance k) by (done || lia).
  rewrite (idx_add_advance k), advance_advance by done.
  eexists. split; [reflexivity|]. split; [|done].
  split; cbn; try done; [split; cbn; lia|]. f_equal. lia.
Qed.
End ring.
