(* ===== verification/CeDest.v ===== *)
(** The destination ring of a copy engine is a queue of posted buffers, of
    which the hardware fills the oldest first. *)
From S2P Require Import Prelude CdfLock Ce CeRing.

(** * The abstract destination ring *)

(** What the hardware wrote: the length, the meta data, the swap bit. *)
Record rx_fill : Type := mk_fill { rf_nbytes : Z; rf_meta : Z; rf_swap : bool }.

(** A buffer posted: its context, its address and what it holds. *)
Record rx_item : Type := mk_rx { ri_ctx : Z; ri_buffer : Z; ri_fill : option rx_fill }.

(** The posted buffers, the oldest first; the first [dq_filled] are filled. *)
Record dq : Type := mk_dq { dq_items : list rx_item; dq_filled : nat }.

Record dq_ok (n : Z) (q : dq) : Prop := {
  dq_ok_filled : (dq_filled q ≤ length (dq_items q))%nat;
  dq_ok_len : Z.of_nat (length (dq_items q)) < n;
  dq_ok_fill j it : dq_items q !! j = Some it →
    match ri_fill it with
    | Some f => (j < dq_filled q)%nat ∧ rf_nbytes f ≠ 0
    | None => (dq_filled q ≤ j)%nat
    end;
}.

(** The descriptor of a posted buffer. *)
Definition desc_ok (it : rx_item) (d : ce_desc) : Prop :=
  buffer_addr d = ri_buffer it ∧
  match ri_fill it with
  | Some f => nbytes d = rf_nbytes f ∧ meta_data d = rf_meta f ∧ byte_swap d = rf_swap f
  | None => nbytes d = 0
  end.

(** The descriptors: those of the posted buffers, and the others empty. *)
Definition descs_ok (n sw : Z) (descs : list ce_desc) (items : list rx_item) : Prop :=
  Z.of_nat (length descs) = n ∧
  ∀ j d, Z.of_nat j < n → descs !! slot n sw j = Some d →
    match items !! j with Some it => desc_ok it d | None => nbytes d = 0 end.

Record dest_rep (n : Z) (c : CE_state) (q : dq) : Prop := {
  ds_mask : nentries_mask (dest_ring c) = n - 1;
  ds_sw : 0 ≤ sw_index (dest_ring c) < n;
  ds_ok : dq_ok n q;
  ds_write : write_index (dest_ring c) =
    advance n (sw_index (dest_ring c)) (Z.of_nat (length (dq_items q)));
  ds_reg : dest_write_reg c = write_index (dest_ring c);
  ds_read : dest_read_reg c = advance n (sw_index (dest_ring c)) (Z.of_nat (dq_filled q));
  ds_descs : descs_ok n (sw_index (dest_ring c)) (base_addr_owner_space (dest_ring c)) (dq_items q);
  ds_ctx : window n (sw_index (dest_ring c)) (per_transfer_context (dest_ring c)) (ri_ctx <$> dq_items q);
}.

(** The parts of the engine that the destination ring does not own. *)
Definition dest_frame (c c' : CE_state) : Prop :=
  attr_flags c' = attr_flags c ∧ send_context c' = send_context c ∧
  recv_context c' = recv_context c ∧ src_ring c' = src_ring c ∧
  src_write_reg c' = src_write_reg c ∧ src_read_reg c' = src_read_reg c.

(** * The operations on the queue *)

Definition spec_enqueue (n ctx buffer : Z) (q : dq) : CDF_STATUS * dq :=
  if Z.of_nat (length (dq_items q)) <? n - 1 then
    (CDF_STATUS_SUCCESS, mk_dq (dq_items q ++ [mk_rx ctx (u32 buffer) None]) (dq_filled q))
  else (CDF_STATUS_E_FAILURE, q).

Definition recv_of (rctx : Z) (it : rx_item) (f : rx_fill) : completion * Z :=
  (mk_completion rctx (ri_ctx it) (ri_buffer it) (rf_nbytes f) (rf_meta f),
   if rf_swap f then CE_RECV_FLAG_SWAPPED else 0).

Definition spec_recv (rctx : Z) (q : dq) : option (completion * Z) * dq :=
  match dq_items q with
  | mk_rx ctx buffer (Some f) :: items =>
      (Some (recv_of rctx (mk_rx ctx buffer (Some f)) f), mk_dq items (dq_filled q - 1))
  | _ => (None, q)
  end.

Definition spec_hw_receive (nb meta : Z) (swap : bool) (q : dq) : dq :=
  match dq_items q !! dq_filled q with
  | Some it =>
      mk_dq (<[dq_filled q := mk_rx (ri_ctx it) (ri_buffer it) (Some (mk_fill nb meta swap))]> (dq_items q))
        (S (dq_filled q))
  | None => q
  end.

(** * The descriptors *)

Section descs.
Context (n sw : Z) (Hpos : 0 < n) (Hsw : 0 ≤ sw < n).
Context (descs : list ce_desc) (items : list rx_item) (Hd : descs_ok n sw descs items).

Lemma descs_lookup j it :
  items !! j = Some it → Z.of_nat (length items) ≤ n →
  ∃ d, descs !! slot n sw j = Some d ∧ desc_ok it d.
Proof.
  intros Hj Hlen. destruct Hd as [Hl H]. apply lookup_lt_Some in Hj as Hlt.
  destruct (lookup_lt_is_Some_2 descs (slot n sw j)) as [d Hdj].
  { pose proof (slot_lt n sw j Hpos). lia. }
  exists d. split; [done|]. specialize (H j d ltac:(lia) Hdj). by rewrite Hj in H.
Qed.

(** A descriptor of the window, or the one after it, written. *)
Lemma descs_insert j d items' :
  Z.of_nat j < n →
  (∀ i, i ≠ j → items' !! i = items !! i) →
  match items' !! j with Some it => desc_ok it d | None => nbytes d = 0 end →
  descs_ok n sw (<[slot n sw j := d]> descs) items'.
Proof.
  intros Hj Hsame Hjd. destruct Hd as [Hl H]. split; [by rewrite length_insert|].
  intros i e Hi. destruct (decide (i = j)) as [->|Hne].
  - rewrite list_lookup_insert_eq by (pose proof (slot_lt n sw j Hpos); lia). by intros [= <-].
  - rewrite list_lookup_insert_ne by (intros Heq; apply (slot_inj n) in Heq; lia).
    rewrite Hsame by done. by apply H.
Qed.

(** The window moves past its first descriptor, which is empty. *)
Lemma descs_tail it items' :
  items = it :: items' → Z.of_nat (length items) < n →
  (∀ d, descs !! slot n sw 0 = Some d → nbytes d = 0) →
  descs_ok n (advance n sw 1) descs items'.
Proof.
  intros -> Hlen H0. destruct Hd as [Hl H]. split; [done|]. intros j d Hj.
  rewrite slot_advance by done. destruct (decide (Z.of_nat (S j) < n)) as [Hlt|Hge].
  - intros Hjd. by apply (H (S j)).
  - assert (slot n sw (S j) = slot n sw 0) as ->.
    { unfold slot. f_equal. replace (sw + Z.of_nat (S j)) with (sw + Z.of_nat 0 + 1 * n) by lia.
      by rewrite Z_mod_plus_full. }
    intros Hjd. rewrite lookup_ge_None_2 by (cbn in Hlen; lia). by apply H0.
Qed.
End descs.

(** * Each operation *)

Section ring.
Context (k n : Z) (Hn : ring_size k n).

Lemma ce_recv_buf_enqueue_run c q ctx buffer :
  dest_rep n c q →
  let r := spec_enqueue n ctx buffer q in
  ∃ c', ce_recv_buf_enqueue ctx buffer c = Some (r.1, c') ∧ dest_rep n c' r.2 ∧ dest_frame c c'.
Proof.
  intros H. pose proof (ring_pos k n Hn) as Hpos.
  pose proof H as [Hm Hsw [Hf Hl Hfill] Hw Hreg Hrd Hds Hcx].
  unfold ce_recv_buf_enqueue, spec_enqueue. rewrite run_gets. cbv zeta. rewrite Hm, Hw.
  rewrite (delta_room k) by (done || lia). rewrite Z.gtb_ltb.
  destruct (Z.ltb_spec (Z.of_nat (length (dq_items q))) (n - 1)).
  2: { destruct (Z.ltb_spec 0 (n - 1 - Z.of_nat (length (dq_items q)))); [lia|]. by exists c. }
  destruct (Z.ltb_spec 0 (n - 1 - Z.of_nat (length (dq_items q)))); [|lia].
  set (it := mk_rx ctx (u32 buffer) None). set (sw := sw_index (dest_ring c)) in *.
  set (w := advance n sw (Z.of_nat (length (dq_items q)))) in *.
  assert (Z.to_nat w = slot n sw (length (dq_items q))) as Hslot
    by (unfold w; rewrite slot_index, Nat2Z.id by lia; done).
  destruct (lookup_lt_is_Some_2 (base_addr_owner_space (dest_ring c)) (Z.to_nat w)) as [d Hd].
  { rewrite Hslot. destruct Hds as [Hlen _]. pose proof (slot_lt n sw (length (dq_items q)) Hpos). lia. }
  rewrite (run_bind _ _ _ _ _ (ring_get_run _ _ _ _ _ Hd)).
  erewrite run_bind by (apply ring_put_run; by eapply lookup_lt_Some).
  erewrite run_bind by (apply ring_put_run; cbn; by eapply (window_bound k)).
  rewrite (idx_incr_advance k) by done.
  assert (advance n w 1 = advance n sw (Z.of_nat (length (dq_items q ++ [it])))) as ->.
  { unfold w. rewrite advance_advance, length_app by done. cbn [length]. f_equal. lia. }
  destruct (Z.eqb_spec (advance n sw (Z.of_nat (length (dq_items q ++ [it])))) sw) as [Heq|_]; cbn [negb].
  { exfalso. rewrite length_app in Heq. cbn [length] in Heq.
    enough (Z.of_nat (length (dq_items q) + 1) = 0) by lia.
    apply (advance_inj n sw); [lia..|]. by rewrite advance_zero by done. }
  eexists. split; [reflexivity|]. split; [|done]. split; cbn -[length advance]; try done.
  - split; cbn -[length]; [rewrite length_app; lia|rewrite length_app; cbn; lia|].
    intros j x Hj. destruct (decide (j = length (dq_items q))) as [->|Hne].
    + rewrite lookup_app_r, Nat.sub_diag in Hj by done. injection Hj as <-. cbn. lia.
    + rewrite lookup_app_l in Hj; [by apply Hfill|].
      apply lookup_lt_Some in Hj. rewrite length_app in Hj. cbn in Hj. lia.
  - rewrite Hslot. apply (descs_insert n sw Hpos _ (dq_items q)); [done|lia| |].
    + intros i Hi. destruct (decide (i < length (dq_items q))%nat) as [Hlt|Hge]; [by apply lookup_app_l|].
      rewrite !lookup_ge_None_2; [done|lia|rewrite length_app; cbn; lia].
    + by rewrite list_lookup_middle.
  - by apply (slots_put k n Hn ri_ctx _ _ _ _ it).
Qed.

(** The oldest buffer leaves the ring, its descriptor being empty. *)
Lemma dest_pop c q it items descs :
  dest_rep n c q → dq_items q = it :: items →
  descs_ok n (advance n (sw_index (dest_ring c)) 1) descs items →
  (0 < dq_filled q)%nat →
  let r := dest_ring c in
  dest_rep n
    (set_dest_ring (set_sw_index (advance n (sw_index r) 1)
      (set_per_transfer_context (<[Z.to_nat (sw_index r) := 0]> (per_transfer_context r))
        (set_base_addr_owner_space descs r))) c)
    (mk_dq items (dq_filled q - 1)).
Proof.
  intros H Hit Hd Hfill r. subst r. pose proof (ring_pos k n Hn) as Hpos.
  pose proof H as [Hm Hsw [Hf Hl Hfl] Hw Hreg Hrd Hds Hcx]. rewrite Hit in *. cbn [length] in *.
  split; cbn -[length advance]; try done; rewrite ?advance_advance by done.
  - by apply advance_range.
  - split; cbn -[length]; [lia..|]. intros j x Hj. specialize (Hfl (S j) x Hj).
    destruct (ri_fill x); lia.
  - rewrite Hw. f_equal. lia.
  - rewrite Hrd. f_equal. lia.
  - rewrite <- (slot_zero n (sw_index (dest_ring c))) by done.
    eapply window_tail_insert; [done|exact Hcx|]. rewrite length_fmap. lia.
Qed.

Lemma ce_completed_recv_next_run c q :
  dest_rep n c q →
  let r := spec_recv (recv_context c) q in
  ∃ c', ce_completed_recv_next c = Some (r.1, c') ∧ dest_rep n c' r.2 ∧ dest_frame c c'.
Proof.
  intros H. pose proof (ring_pos k n Hn) as Hpos.
  pose proof H as [Hm Hsw [Hf Hl Hfl] Hw Hreg Hrd Hds Hcx].
  unfold ce_completed_recv_next, ce_completed_recv_next_nolock, spec_recv. rewrite run_gets. cbv zeta.
  set (sw := sw_index (dest_ring c)) in *.
  destruct (lookup_lt_is_Some_2 (base_addr_owner_space (dest_ring c)) (Z.to_nat sw)) as [d Hd].
  { destruct Hds as [Hlen _]. lia. }
  rewrite (run_bind _ _ _ _ _ (ring_get_run _ _ _ _ _ Hd)). rewrite <- (slot_zero n sw) in Hd by done.
  pose proof (proj2 Hds 0%nat d ltac:(lia) Hd) as Hdok.
  destruct (dq_items q) as [|[ctx buf fill] items] eqn:Hit; cbn in Hdok.
  { rewrite Hdok. by exists c. }
  destruct Hdok as [Hb Hdok]. cbn in Hb. destruct fill as [f|]; cbn in Hdok; [|rewrite Hdok; by exists c].
  destruct Hdok as (Hnb & Hmeta & Hswap). destruct (Hfl 0%nat _ eq_refl) as [Hpf Hnz].
  cbn in Hnz. rewrite Hnb. destruct (Z.eqb_spec (rf_nbytes f) 0); [done|].
  rewrite (slot_zero n sw) in Hd by done.
  erewrite run_bind by (apply ring_put_run; by eapply lookup_lt_Some). rewrite run_gets.
  pose proof (window_lookup n _ _ _ 0 _ Hcx eq_refl) as H2. rewrite slot_zero in H2 by done.
  erewrite run_bind by (apply ring_get_run; exact H2).
  erewrite run_bind by (apply ring_put_run; cbn; by eapply lookup_lt_Some).
  rewrite Hm, (idx_incr_advance k) by done. unfold recv_of. cbn [ri_ctx ri_buffer].
  eexists. split; [rewrite <- Hmeta, <- Hswap, <- Hb; reflexivity|]. split; [|done].
  apply (dest_pop c q (mk_rx ctx buf (Some f)) items); [done|done| |done].
  rewrite <- (slot_zero n sw) by done. set (d0 := set_nbytes 0 d).
  assert (descs_ok n sw (<[slot n sw 0 := d0]> (base_addr_owner_space (dest_ring c)))
    (<[0%nat := mk_rx ctx (buffer_addr d) None]> (dq_items q))) as Hds'.
  { rewrite Hit. apply (descs_insert n sw Hpos _ _ Hds); [lia| |by split].
    intros i Hi. by rewrite list_lookup_insert_ne. }
  eapply (descs_tail n sw Hpos _ _ Hds'); [by rewrite Hit|rewrite length_insert, Hit; done|].
  intros d' Hd'. rewrite list_lookup_insert_eq in Hd'; [by injection Hd' as <-|].
  destruct Hds as [Hlen _]. pose proof (slot_lt n sw 0 Hpos). lia.
Qed.

Lemma hw_receive_run c q nb meta swap :
  nb ≠ 0 → dest_rep n c q →
  ∃ c', hw_receive nb meta swap c = Some (tt, c') ∧ dest_rep n c' (spec_hw_receive nb meta swap q) ∧
    dest_frame c c'.
Proof.
  intros Hnb H. pose proof (ring_pos k n Hn) as Hpos.
  pose proof H as [Hm Hsw [Hf Hl Hfl] Hw Hreg Hrd Hds Hcx].
  unfold hw_receive, spec_hw_receive. rewrite !run_gets, Hreg, Hw. set (sw := sw_index (dest_ring c)) in *.
  destruct (dq_items q !! dq_filled q) as [it|] eqn:Hit.
  - apply lookup_lt_Some in Hit as Hlt. destruct (Z.eqb_spec (dest_read_reg c) (advance n sw (Z.of_nat (length (dq_items q))))) as [Heq|_].
    { rewrite Hrd in Heq. apply advance_inj in Heq; lia. }
    destruct (descs_lookup n sw Hpos _ _ Hds _ _ Hit ltac:(lia)) as (d & Hd & Hdok).
    assert (Z.to_nat (dest_read_reg c) = slot n sw (dq_filled q)) as Hslot
      by (rewrite Hrd, slot_index, Nat2Z.id by lia; done).
    rewrite <- Hslot in Hd. rewrite (run_bind _ _ _ _ _ (ring_get_run _ _ _ _ _ Hd)).
    erewrite run_bind by (apply ring_put_run; by eapply lookup_lt_Some).
    rewrite Hm, (idx_incr_advance k) by done.
    eexists. split; [reflexivity|]. split; [|done].
    split; cbn -[length advance]; try done; rewrite ?length_insert; try done.
    + split; cbn -[length]; rewrite ?length_insert; [lia..|]. intros j x.
      intros [(-> & <- & _)|[Hne Hj]]%list_lookup_insert_Some; [cbn; lia|].
      specialize (Hfl j x Hj). destruct (ri_fill x); lia.
    + rewrite Hrd, advance_advance by done. f_equal. lia.
    + rewrite Hslot. apply (descs_insert n sw Hpos _ (dq_items q)); [done|lia| |].
      * intros i Hi. by rewrite list_lookup_insert_ne.
      * rewrite list_lookup_insert_eq by done. destruct Hdok as [Hb _]. by split.
    + rewrite list_fmap_insert. cbn. rewrite list_insert_id; [done|]. by rewrite list_lookup_fmap, Hit.
  - apply lookup_ge_None in Hit. assert (dq_filled q = length (dq_items q)) as Heq by lia.
    rewrite Hrd, Heq, Z.eqb_refl. by exists c.
Qed.

Lemma ce_recv_entries_avail_run c q :
  dest_rep n c q → ce_recv_entries_avail c = Some (n - 1 - Z.of_nat (length (dq_items q)), c).
Proof.
  intros [Hm Hsw [] Hw _ _ _ _]. unfold ce_recv_entries_avail, avail. rewrite run_gets, Hm, Hw.
  by rewrite (delta_room k) by (done || lia).
Qed.

Lemma ce_recv_entries_done_run c q :
  dest_rep n c q → ce_recv_entries_done c = Some (Z.of_nat (dq_filled q), c).
Proof.
  intros [Hm Hsw [] _ _ Hrd _ _]. unfold ce_recv_entries_done. rewrite !run_gets, Hm, Hrd.
  by rewrite (delta_from k) by (done || lia).
Qed.
End ring.
