(* ===== verification/CeQueue.v ===== *)
(** A copy engine as a whole: its two rings as two queues under every
    interleaving of the host's calls and the hardware's steps, the order of
    its completions, and that every buffer sent is completed. *)
From S2P Require Import Prelude CdfLock Ce CeRing CeSrc CeDest.

(** * The size of a ring *)

Lemma pow2_test n : 0 < n → Z.land n (n - 1) = 0 → n = 2 ^ Z.log2 n.
Proof.
  intros Hn Hland. pose proof (Z.log2_spec n Hn) as [Hlo Hhi].
  destruct (decide (n = 2 ^ Z.log2 n)) as [|Hne]; [done|]. exfalso.
  assert (Z.log2 (n - 1) = Z.log2 n) as Hlog.
  { apply Z.log2_unique; [apply Z.log2_nonneg|lia]. }
  pose proof (Z.bit_log2 n Hn) as H1. pose proof (Z.bit_log2 (n - 1)) as H2.
  rewrite Hlog in H2. pose proof (Z.pow_pos_nonneg 2 (Z.log2 n) ltac:(lia) (Z.log2_nonneg n)).
  pose proof (f_equal (λ z, Z.testbit z (Z.log2 n)) Hland) as Hb. simpl in Hb.
  rewrite Z.land_spec, H1, H2, Z.bits_0 in Hb by lia. done.
Qed.

Lemma pwr2_loop_spec i j n :
  0 ≤ j → j + Z.of_nat i ≤ 32 → 2 ^ (j - 1) ≤ n < 2 ^ (j + Z.of_nat i - 1) →
  ∃ k, pwr2_loop i (2 ^ j) n = 2 ^ k ∧ j ≤ k < j + Z.of_nat i ∧ 2 ^ (k - 1) ≤ n < 2 ^ k.
Proof.
  revert j. induction i as [|i IH]; intros j Hj Hi Hn.
  - rewrite Z.add_0_r in Hn. lia.
  - cbn [pwr2_loop]. rewrite Z.gtb_ltb. destruct (Z.ltb_spec n (2 ^ j)).
    + exists j. split; [done|]. lia.
    + destruct i as [|i].
      { replace (j + Z.of_nat 1 - 1) with j in Hn by lia. lia. }
      rewrite Z.shiftl_mul_pow2 by lia. change (2 ^ 1) with 2.
      assert (2 ^ j * 2 = 2 ^ (j + 1)) as -> by (rewrite Z.pow_add_r; lia).
      rewrite wrap_small.
      2: { split; [apply Z.pow_nonneg; lia|]. apply Z.pow_lt_mono_r; lia. }
      destruct (IH (j + 1)) as (k & Hk & Hkj & Hkn); [lia|lia| |].
      * replace (j + 1 - 1) with j by lia. replace (j + 1 + Z.of_nat (S i) - 1) with (j + Z.of_nat (S (S i)) - 1) by lia. lia.
      * exists k. split; [done|]. lia.
Qed.

(** The size of a ring.  For 1 to 2 ^ 30 - 1 entries asked for,
    [roundup_pwr2] gives the least power of two that is not smaller. *)
Theorem roundup_pwr2_spec n :
  1 ≤ n < 2 ^ 30 →
  ∃ k, roundup_pwr2 n = 2 ^ k ∧ 0 ≤ k ≤ 30 ∧ n ≤ 2 ^ k ∧ ∀ j, 0 ≤ j → n ≤ 2 ^ j → k ≤ j.
Proof.
  intros Hn. unfold roundup_pwr2. rewrite wrap_small by lia.
  assert (∀ k j, 0 ≤ j → 2 ^ (k - 1) < n → n ≤ 2 ^ j → k ≤ j) as Hmin.
  { intros k j Hj Hk Hle. destruct (decide (k ≤ j)); [done|].
    pose proof (Z.pow_le_mono_r 2 j (k - 1) ltac:(lia) ltac:(lia)). lia. }
  destruct (Z.eqb_spec (Z.land n (n - 1)) 0) as [Hland|Hland].
  - pose proof (pow2_test n ltac:(lia) Hland) as Hp. pose proof (Z.log2_nonneg n).
    assert (Z.log2 n < 30) by (apply Z.log2_lt_pow2; lia).
    exists (Z.log2 n). split_and!; [done|lia..|]. intros j Hj Hle. apply Hmin; [done| |done].
    rewrite Hp at 2. destruct (decide (Z.log2 n = 0)) as [->|]; [done|]. apply Z.pow_lt_mono_r; lia.
  - assert (3 ≤ n) as H3.
    { destruct (decide (n = 1)) as [->|]; [done|]. destruct (decide (n = 2)) as [->|]; [done|]. lia. }
    destruct (pwr2_loop_spec 29 2 n) as (k & Hk & Hkj & Hkn); [lia|lia| |].
    { change (2 ^ (2 - 1)) with 2. change (2 + Z.of_nat 29 - 1) with 30. lia. }
    change (2 ^ 2) with 4 in Hk.
    exists k. split_and!; [done|lia..|]. intros j Hj Hle. apply Hmin; [done| |done].
    destruct (decide (n = 2 ^ (k - 1))) as [Heq|]; [|lia]. exfalso. apply Hland.
    rewrite Heq. replace (2 ^ (k - 1) - 1) with (Z.ones (k - 1)) by (rewrite Z.ones_equiv; lia).
    rewrite Z.land_ones by lia. apply Z_mod_same_full.
Qed.

(** * The two rings together *)

Record engine : Type := mk_engine { eg_src : sq; eg_dest : dq }.

Record engine_rep (ns nd : Z) (c : CE_state) (e : engine) : Prop := {
  er_src : src_rep ns c (eg_src e);
  er_dest : dest_rep nd c (eg_dest e);
}.

(** The operations of one ring leave the other alone. *)
Lemma src_rep_dest_frame n c c' q : dest_frame c c' → src_rep n c q → src_rep n c' q.
Proof.
  intros (_ & _ & _ & Hr & Hw & Hd) [Hm Hsw Hok Hwr Hpo Hdo Hca Hsh Hba Hcx].
  split; rewrite ?Hr, ?Hw, ?Hd; done.
Qed.

Lemma dest_rep_src_frame n c c' q : src_frame c c' → dest_rep n c q → dest_rep n c' q.
Proof.
  intros (_ & _ & _ & Hr & Hw & Hd) [Hm Hsw Hok Hwr Hreg Hrd Hds Hcx].
  split; rewrite ?Hr, ?Hw, ?Hd; done.
Qed.

Inductive ce_op : Type :=
  | OpSend (ctx buffer nbytes id flags : Z)
  | OpSendList (ctx : Z) (sl : list ce_sendlist_item) (id : Z)
  | OpSendCompleted
  | OpSendAvail
  | OpSendDone
  | OpEnqueue (ctx buffer : Z)
  | OpRecvCompleted
  | OpRecvAvail
  | OpRecvDone
  | HwSend (k : Z)
  | HwReceive (nb meta : Z) (swap : bool).

Inductive ce_res : Type :=
  | RStatus (st : CDF_STATUS)
  | RList (st : option CDF_STATUS)
  | RSent (o : option completion)
  | RReceived (o : option (completion * Z))
  | RCount (z : Z)
  | RHw.

Definition op_ok (op : ce_op) : Prop :=
  match op with
  | OpSendList _ sl _ => sl ≠ []
  | HwSend k => 0 ≤ k
  | HwReceive nb _ _ => nb ≠ 0
  | _ => True
  end.

Definition ce_exec (op : ce_op) : CE ce_res :=
  match op with
  | OpSend ctx buffer nbytes id flags => st ← ce_send ctx buffer nbytes id flags; mret (RStatus st)
  | OpSendList ctx sl id => st ← ce_sendlist_send ctx sl id; mret (RList st)
  | OpSendCompleted => r ← ce_completed_send_next; mret (RSent r.1)
  | OpSendAvail => z ← ce_send_entries_avail; mret (RCount z)
  | OpSendDone => z ← ce_send_entries_done; mret (RCount z)
  | OpEnqueue ctx buffer => st ← ce_recv_buf_enqueue ctx buffer; mret (RStatus st)
  | OpRecvCompleted => r ← ce_completed_recv_next; mret (RReceived r)
  | OpRecvAvail => z ← ce_recv_entries_avail; mret (RCount z)
  | OpRecvDone => z ← ce_recv_entries_done; mret (RCount z)
  | HwSend k => hw_send k;; mret RHw
  | HwReceive nb meta swap => hw_receive nb meta swap;; mret RHw
  end.

(** The same on the queues, of an engine with attributes [attr] and callback
    contexts [sctx] and [rctx]. *)
Definition ce_spec (ns nd attr sctx rctx : Z) (op : ce_op) (e : engine) : ce_res * engine :=
  let s := eg_src e in
  let d := eg_dest e in
  match op with
  | OpSend ctx buffer nbytes id flags =>
      let r := spec_send ns attr ctx buffer nbytes id flags s in (RStatus r.1, mk_engine r.2 d)
  | OpSendList ctx sl id =>
      let r := spec_sendlist ns attr ctx id sl s in (RList r.1, mk_engine r.2 d)
  | OpSendCompleted => let r := spec_completed sctx s in (RSent r.1, mk_engine r.2 d)
  | OpSendAvail => (RCount (spec_room ns s), e)
  | OpSendDone => (RCount (Z.of_nat (sq_done s)), e)
  | OpEnqueue ctx buffer => let r := spec_enqueue nd ctx buffer d in (RStatus r.1, mk_engine s r.2)
  | OpRecvCompleted => let r := spec_recv rctx d in (RReceived r.1, mk_engine s r.2)
  | OpRecvAvail => (RCount (nd - 1 - Z.of_nat (length (dq_items d))), e)
  | OpRecvDone => (RCount (Z.of_nat (dq_filled d)), e)
  | HwSend k => (RHw, mk_engine (spec_hw_send k s) d)
  | HwReceive nb meta swap => (RHw, mk_engine s (spec_hw_receive nb meta swap d))
  end.

(** The attributes and the callback contexts of an engine. *)
Definition same_attr (c c' : CE_state) : Prop :=
  attr_flags c' = attr_flags c ∧ send_context c' = send_context c ∧ recv_context c' = recv_context c.

Lemma src_step ns nd c e c' q' :
  engine_rep ns nd c e → src_rep ns c' q' → src_frame c c' →
  engine_rep ns nd c' (mk_engine q' (eg_dest e)) ∧ same_attr c c'.
Proof.
  intros [_ Hd] Hs Hf. split; [split; [done|by eapply dest_rep_src_frame]|].
  destruct Hf as (? & ? & ? & _). done.
Qed.

Lemma dest_step ns nd c e c' q' :
  engine_rep ns nd c e → dest_rep nd c' q' → dest_frame c c' →
  engine_rep ns nd c' (mk_engine (eg_src e) q') ∧ same_attr c c'.
Proof.
  intros [Hs _] Hd Hf. split; [split; [by eapply src_rep_dest_frame|done]|].
  destruct Hf as (? & ? & ? & _). done.
Qed.

Section engine.
Context (ks ns kd nd : Z) (Hns : ring_size ks ns) (Hnd : ring_size kd nd).

(** A call whose effect on one of the rings is known. *)
Ltac run_op Hstep lemma :=
  let c' := fresh "c'" in let Hrun := fresh "Hrun" in let H1 := fresh "H" in let H2 := fresh "H" in
  destruct lemma as (c' & Hrun & H1 & H2);
  exists c'; rewrite (run_bind _ _ _ _ _ Hrun); split; [reflexivity|eapply Hstep; eassumption].

Lemma ce_exec_run c e op :
  engine_rep ns nd c e → op_ok op →
  let r := ce_spec ns nd (attr_flags c) (send_context c) (recv_context c) op e in
  ∃ c', ce_exec op c = Some (r.1, c') ∧ engine_rep ns nd c' r.2 ∧ same_attr c c'.
Proof.
  intros He Hop. pose proof He as [Hs Hd]. destruct op; cbn [op_ok ce_exec ce_spec] in *.
  - run_op src_step (ce_send_run ks ns Hns c (eg_src e) ctx buffer nbytes id flags Hs).
  - run_op src_step (ce_sendlist_send_run ks ns Hns c (eg_src e) ctx sl id Hop Hs).
  - destruct (ce_completed_send_next_run ks ns Hns c (eg_src e) Hs) as (ix & c' & Hrun & H1 & H2).
    exists c'. rewrite (run_bind _ _ _ _ _ Hrun). split; [reflexivity|by eapply src_step].
  - rewrite (run_bind _ _ _ _ _ (ce_send_entries_avail_run ks ns Hns c _ Hs)). by exists c.
  - rewrite (run_bind _ _ _ _ _ (ce_send_entries_done_run ks ns Hns c _ Hs)). by exists c.
  - run_op dest_step (ce_recv_buf_enqueue_run kd nd Hnd c (eg_dest e) ctx buffer Hd).
  - run_op dest_step (ce_completed_recv_next_run kd nd Hnd c (eg_dest e) Hd).
  - rewrite (run_bind _ _ _ _ _ (ce_recv_entries_avail_run kd nd Hnd c _ Hd)). by exists c.
  - rewrite (run_bind _ _ _ _ _ (ce_recv_entries_done_run kd nd Hnd c _ Hd)). by exists c.
  - run_op src_step (hw_send_run ks ns Hns c (eg_src e) k Hop Hs).
  - run_op dest_step (hw_receive_run kd nd Hnd c (eg_dest e) nb meta swap Hop Hd).
Qed.
End engine.

Fixpoint ce_execs (ops : list ce_op) : CE (list ce_res) :=
  match ops with
  | [] => mret []
  | op :: ops => r ← ce_exec op; rs ← ce_execs ops; mret (r :: rs)
  end.

Fixpoint ce_specs (ns nd attr sctx rctx : Z) (ops : list ce_op) (e : engine) : list ce_res * engine :=
  match ops with
  | [] => ([], e)
  | op :: ops =>
      let r := ce_spec ns nd attr sctx rctx op e in
      let rs := ce_specs ns nd attr sctx rctx ops r.2 in (r.1 :: rs.1, rs.2)
  end.

Lemma ce_execs_run ks ns kd nd c e ops :
  ring_size ks ns → ring_size kd nd → engine_rep ns nd c e → Forall op_ok ops →
  let r := ce_specs ns nd (attr_flags c) (send_context c) (recv_context c) ops e in
  ∃ c', ce_execs ops c = Some (r.1, c') ∧ engine_rep ns nd c' r.2 ∧ same_attr c c'.
Proof.
  intros Hns Hnd He Hops. revert c e He. induction Hops as [|op ops Hop _ IH]; intros c e He.
  - by exists c.
  - destruct (ce_exec_run ks ns kd nd Hns Hnd c e op He Hop) as (c1 & Hrun & He1 & Ha & Hs & Hr).
    destruct (IH c1 _ He1) as (c2 & Hruns & He2 & Ha2 & Hs2 & Hr2).
    exists c2. cbn [ce_execs ce_specs]. rewrite (run_bind _ _ _ _ _ Hrun), (run_bind _ _ _ _ _ Hruns).
    rewrite Ha, Hs, Hr in *. by split_and!.
Qed.

(** * The rings just set up *)

Definition empty_engine : engine := mk_engine (mk_sq [] 0 0 0) (mk_dq [] 0).

(** The hardware has no descriptor of either ring: its indexes agree. *)
Definition idle_regs (ns nd : Z) (c : CE_state) : Prop :=
  src_write_reg c = src_read_reg c ∧ 0 ≤ src_read_reg c < ns ∧
  dest_write_reg c = dest_read_reg c ∧ 0 ≤ dest_read_reg c < nd.

Lemma setup_run c ns nd ks kd as_ ad base shadow :
  ring_size ks ns → ring_size kd nd → roundup_pwr2 as_ = ns → roundup_pwr2 ad = nd →
  Z.of_nat (length base) = ns → Z.of_nat (length shadow) = ns → idle_regs ns nd c →
  ∃ c', (src_ring_setup as_ base shadow;; dest_ring_setup ad) c = Some (tt, c') ∧
    engine_rep ns nd c' empty_engine ∧ same_attr c c'.
Proof.
  intros Hs Hd Has Had Hb Hsh (H1 & H2 & H3 & H4).
  pose proof (ring_size_bounds ks ns Hs). pose proof (ring_size_bounds kd nd Hd).
  unfold src_ring_setup, dest_ring_setup. rewrite Has, Had. cbv zeta.
  eexists. split; [reflexivity|]. split; [|done].
  split; split; cbn -[advance replicate]; rewrite ?wrap_small by lia; try done;
    rewrite ?advance_zero by lia; try done.
  - split; cbn; lia.
  - apply window_nil; rewrite ?length_replicate; lia.
  - split; cbn; [lia..|]. by intros j it.
  - split; [rewrite length_replicate; lia|]. intros j d Hj [-> _]%lookup_replicate. done.
  - apply window_nil; rewrite ?length_replicate; lia.
Qed.

(** C2. A copy engine is two queues.  After setup of both rings, while the
    hardware is idle, every interleaving of the host's calls (sending buffers
    and lists, reaping the completions of the sends, posting receive buffers,
    reaping the receptions, counting entries) with the steps of the hardware
    returns what the two bounded queues return: a source ring of [n] entries
    holds up to [n - 1] buffers, a list is sent whole or not at all, the
    completions come oldest first with the context, the address, the length
    and the transfer id truncated to their descriptor's widths, no entry is
    reused before it is completed, and a receive buffer is returned once,
    after it has been filled. *)
Theorem ce_refines_queues c ks ns kd nd as_ ad base shadow ops :
  ring_size ks ns → ring_size kd nd → roundup_pwr2 as_ = ns → roundup_pwr2 ad = nd →
  Z.of_nat (length base) = ns → Z.of_nat (length shadow) = ns → idle_regs ns nd c →
  Forall op_ok ops →
  let r := ce_specs ns nd (attr_flags c) (send_context c) (recv_context c) ops empty_engine in
  ∃ c', ((src_ring_setup as_ base shadow;; dest_ring_setup ad);; ce_execs ops) c = Some (r.1, c') ∧
    engine_rep ns nd c' r.2.
Proof.
  intros Hs Hd Has Had Hb Hsh Hi Hops.
  destruct (setup_run c ns nd ks kd as_ ad base shadow) as (c1 & Hrun & He & Ha & Hsc & Hrc); [done..|].
  destruct (ce_execs_run ks ns kd nd c1 empty_engine ops Hs Hd He Hops) as (c2 & Hruns & He2 & _).
  rewrite Ha, Hsc, Hrc in Hruns, He2. exists c2. by rewrite (run_bind _ _ _ _ _ Hrun).
Qed.

(** * Every buffer sent is completed, in order *)

(** The contexts that a successful operation sends, and those it completes. *)
Definition sent_by (op : ce_op) (r : ce_res) : list Z :=
  match op, r with
  | OpSend ctx _ _ _ _, RStatus CDF_STATUS_SUCCESS => [ctx]
  | OpSendList ctx sl _, RList (Some _) => replicate (length sl - 1) CE_SENDLIST_ITEM_CTXT ++ [ctx]
  | _, _ => []
  end.

Definition completed_by (r : ce_res) : list Z :=
  match r with
  | RSent (Some co) => [co_transfer_context co]
  | _ => []
  end.

Definition sent (ops : list ce_op) (rs : list ce_res) : list Z := concat (zip_with sent_by ops rs).
Definition completed (rs : list ce_res) : list Z := concat (completed_by <$> rs).

Definition outstanding (e : engine) : list Z := ti_ctx <$> sq_items (eg_src e).

Lemma spec_send_ctxs n attr ctx buffer nbytes id flags q :
  let r := spec_send n attr ctx buffer nbytes id flags q in
  Z.of_nat (length (sq_items q)) < n - 1 →
  r.1 = CDF_STATUS_SUCCESS ∧ (ti_ctx <$> sq_items r.2) = (ti_ctx <$> sq_items q) ++ [ctx] ∧
  length (sq_items r.2) = S (length (sq_items q)).
Proof.
  intros r H. unfold r, spec_send. destruct (Z.ltb_spec (Z.of_nat (length (sq_items q))) (n - 1)); [|lia].
  cbn. rewrite fmap_app, length_app. cbn. split_and!; [done..|lia].
Qed.

Lemma spec_sendlist_loop_ctxs n attr ctx id sl q :
  sl ≠ [] → Z.of_nat (length sl) ≤ spec_room n q →
  (ti_ctx <$> sq_items (spec_sendlist_loop n attr ctx id sl q).2) =
    (ti_ctx <$> sq_items q) ++ replicate (length sl - 1) CE_SENDLIST_ITEM_CTXT ++ [ctx].
Proof.
  unfold spec_room. intros Hne. revert q. induction sl as [|it sl IH]; intros q Hlen; [done|].
  destruct sl as [|it' sl].
  - apply spec_send_ctxs. simpl in Hlen. lia.
  - change (spec_sendlist_loop n attr ctx id (it :: it' :: sl) q) with
      (spec_sendlist_loop n attr ctx id (it' :: sl) (spec_send n attr CE_SENDLIST_ITEM_CTXT (it_data it)
        (it_nbytes it) id (Z.lor (it_flags it) CE_SEND_FLAG_GATHER) q).2).
    cbn [length] in Hlen.
    destruct (spec_send_ctxs n attr CE_SENDLIST_ITEM_CTXT (it_data it) (it_nbytes it) id
      (Z.lor (it_flags it) CE_SEND_FLAG_GATHER) q ltac:(lia)) as (_ & Hctx & Hl).
    rewrite IH; [|done|rewrite Hl; cbn [length]; lia]. rewrite Hctx, <- app_assoc.
    cbn [length]. rewrite !Nat.sub_succ, Nat.sub_0_r. done.
Qed.

Lemma ce_spec_conserves ns nd attr sctx rctx op e :
  op_ok op →
  let r := ce_spec ns nd attr sctx rctx op e in
  outstanding e ++ sent_by op r.1 = completed_by r.1 ++ outstanding r.2.
Proof.
  intros Hop. destruct op; cbn [ce_spec fst snd completed_by sent_by eg_src outstanding];
    unfold outstanding; cbn [eg_src]; rewrite ?app_nil_r; try done.
  - destruct (Z.lt_ge_cases (Z.of_nat (length (sq_items (eg_src e)))) (ns - 1)) as [Hlt|Hge].
    + destruct (spec_send_ctxs ns attr ctx buffer nbytes id flags (eg_src e) Hlt) as (H1 & H2 & _).
      rewrite H1, H2. by cbn.
    + unfold spec_send. destruct (Z.ltb_spec (Z.of_nat (length (sq_items (eg_src e)))) (ns - 1)); [lia|].
      cbn. by rewrite app_nil_r.
  - unfold spec_sendlist. rewrite Z.geb_leb.
    destruct (Z.leb_spec (Z.of_nat (length sl)) (spec_room ns (eg_src e))) as [Hle|].
    + cbn [fst snd]. by rewrite spec_sendlist_loop_ctxs.
    + cbn. by rewrite app_nil_r.
  - destruct e as [[items posted dn cached] d]. unfold spec_completed, refresh. cbn.
    destruct items as [|it items]; [done|]. by destruct (if (_ =? 0)%nat then _ else _).
Qed.

Lemma ce_specs_conserve ns nd attr sctx rctx ops e :
  Forall op_ok ops →
  let r := ce_specs ns nd attr sctx rctx ops e in
  outstanding e ++ sent ops r.1 = completed r.1 ++ outstanding r.2.
Proof.
  intros Hops. revert e. induction Hops as [|op ops Hop _ IH]; intros e; cbn; [by rewrite app_nil_r|].
  specialize (IH (ce_spec ns nd attr sctx rctx op e).2).
  pose proof (ce_spec_conserves ns nd attr sctx rctx op e Hop) as H.
  rewrite app_assoc, H, <- app_assoc. unfold sent in IH. rewrite IH.
  unfold completed. cbn. by rewrite app_assoc.
Qed.

(** C3. Nothing sent is lost, duplicated or reordered.  In every run of an
    engine that represents two queues, the contexts outstanding before the
    run, followed by those sent in it, are those completed in it followed by
    those outstanding after it; at most [n - 1] are outstanding. *)
Theorem ce_sends_conserved c ks ns kd nd e ops :
  ring_size ks ns → ring_size kd nd → engine_rep ns nd c e → Forall op_ok ops →
  ∃ rs c' e', ce_execs ops c = Some (rs, c') ∧ engine_rep ns nd c' e' ∧
    outstanding e ++ sent ops rs = completed rs ++ outstanding e' ∧
    Z.of_nat (length (outstanding e')) ≤ ns - 1.
Proof.
  intros Hs Hd He Hops. destruct (ce_execs_run ks ns kd nd c e ops Hs Hd He Hops) as (c' & Hrun & He' & _).
  eexists _, c', _. split_and!; [exact Hrun|exact He'|by apply ce_specs_conserve|].
  unfold outstanding. rewrite length_fmap. destruct He' as [[? ? [] _ _ _ _ _ _ _] _]. lia.
Qed.

(** Reaping [m] completions of a queue all of whose buffers are processed. *)
Lemma specs_drain ns nd attr sctx rctx e :
  sq_done (eg_src e) = length (sq_items (eg_src e)) →
  (sq_cached (eg_src e) ≤ length (sq_items (eg_src e)))%nat →
  ∃ q, ce_specs ns nd attr sctx rctx (replicate (length (sq_items (eg_src e))) OpSendCompleted) e =
    ((λ it, RSent (Some (completion_of sctx it))) <$> sq_items (eg_src e), mk_engine q (eg_dest e)) ∧
    sq_items q = [].
Proof.
  destruct e as [[items posted done cached] d]. cbn [eg_src eg_dest sq_items sq_done sq_cached].
  revert posted done cached. induction items as [|it items IH]; intros posted done cached Hd Hc.
  - by eexists.
  - cbn [length replicate ce_specs ce_spec eg_src].
    assert (∃ m, (if (cached =? 0)%nat then done else cached) = S m ∧ (m ≤ length items)%nat) as (m & Hm & Hle).
    { cbn [length] in *. destruct (Nat.eqb_spec cached 0); [exists (length items); lia|].
      exists (cached - 1)%nat. lia. }
    unfold spec_completed. cbn [refresh sq_items sq_cached sq_done sq_posted]. rewrite Hm. cbn [fst snd eg_dest].
    destruct (IH (posted - 1)%nat (done - 1)%nat m ltac:(cbn in *; lia) Hle) as (q & Hq & Hn).
    exists q. cbn in Hq. rewrite Hq. by cbn.
Qed.

(** C12. Every buffer sent is completed.  Whatever the state of the engine, once
    the hardware has been told of all the outstanding buffers and has
    processed them, as many calls of [ce_completed_send_next] as there are
    outstanding buffers return the completion of each, oldest first, and leave
    the source ring empty. *)
Theorem ce_sends_drain c ks ns kd nd e :
  ring_size ks ns → ring_size kd nd → engine_rep ns nd c e →
  let q := eg_src e in
  sq_posted q = length (sq_items q) →
  ∃ c', ce_execs (HwSend ns :: replicate (length (sq_items q)) OpSendCompleted) c =
      Some (RHw :: ((λ it, RSent (Some (completion_of (send_context c) it))) <$> sq_items q), c') ∧
    ce_send_entries_avail c' = Some (ns - 1, c').
Proof.
  intros Hs Hd He q Hp. pose proof He as [[_ _ [Hc Hdn Hpo Hl] _ _ _ _ _ _ _] _]. fold q in Hc, Hdn, Hpo, Hl.
  assert (Forall op_ok (HwSend ns :: replicate (length (sq_items q)) OpSendCompleted)) as Hops.
  { apply Forall_cons. split; [cbn; lia|]. apply Forall_replicate. exact I. }
  destruct (ce_execs_run ks ns kd nd c e _ Hs Hd He Hops) as (c' & Hrun & He' & _).
  cbn [ce_specs ce_spec fst snd] in Hrun, He'. fold q in Hrun, He'.
  destruct (specs_drain ns nd (attr_flags c) (send_context c) (recv_context c)
    (mk_engine (spec_hw_send ns q) (eg_dest e))) as (q' & Hq' & Hn).
  { cbn. lia. }
  { cbn. lia. }
  cbn [eg_src spec_hw_send sq_items] in Hq'. cbn [eg_src] in Hn. rewrite Hq' in Hrun, He'. cbn in Hrun, He'.
  exists c'. split; [exact Hrun|]. destruct He' as [Hs' _]. cbn in Hs'.
  rewrite (ce_send_entries_avail_run ks ns Hs c' q' Hs'). unfold spec_room. rewrite Hn. do 2 f_equal. cbn. lia.
Qed.

(** * Samples *)

Definition some_desc : ce_desc := mk_ce_desc 9 9 true true 9.

(** An engine before setup, its indexes at 3 and 1. *)
Definition raw_engine : CE_state :=
  mk_ce 0 77 88 (mk_ring 0 0 0 0 [] [] []) (mk_ring 0 0 0 0 [] [] []) 3 3 1 1.

Definition sample_setup : CE unit :=
  src_ring_setup 3 (replicate 4 some_desc) (replicate 4 some_desc);; dest_ring_setup 2.

Lemma size_4 : ring_size 2 4. Proof. split; [done|lia]. Qed.
Lemma size_2 : ring_size 1 2. Proof. split; [done|lia]. Qed.

(** A list of two fills the ring with a buffer sent before; the next send fails. *)
Definition sample_ops : list ce_op :=
  [OpSend 11 0x100001000 70000 20000 0; OpSendList 12 [mk_item 5 6 0; mk_item 7 8 0] 3;
   OpSend 13 0 0 0 0; OpSendAvail; HwSend 1; OpSendDone; OpSendCompleted; OpSendCompleted;
   OpEnqueue 21 300; OpEnqueue 22 400; OpRecvCompleted; HwReceive 64 5 true; OpRecvCompleted].

Definition sample_results : list ce_res :=
  [RStatus CDF_STATUS_SUCCESS; RList (Some CDF_STATUS_SUCCESS); RStatus CDF_STATUS_E_FAILURE; RCount 0;
   RHw; RCount 1; RSent (Some (mk_completion 77 11 0x1000 4464 3616)); RSent None;
   RStatus CDF_STATUS_SUCCESS; RStatus CDF_STATUS_E_FAILURE; RReceived None; RHw;
   RReceived (Some (mk_completion 88 21 300 64 5, 1))].

Lemma sample_ops_ok : Forall op_ok sample_ops.
Proof. repeat (apply Forall_cons; split); try exact I; try done; try (cbn; lia). Qed.

Lemma ce_refines_queues_witness :
  ∃ c', (sample_setup;; ce_execs sample_ops) raw_engine = Some (sample_results, c').
Proof.
  destruct (ce_refines_queues raw_engine 2 4 1 2 3 2 (replicate 4 some_desc) (replicate 4 some_desc) sample_ops)
    as (c' & Hrun & _).
  - exact size_4.
  - exact size_2.
  - reflexivity.
  - reflexivity.
  - reflexivity.
  - reflexivity.
  - unfold idle_regs. cbn. lia.
  - exact sample_ops_ok.
  - exists c'. etrans; [exact Hrun|reflexivity].
Defined.

(** The engine with two buffers sent, of which the hardware knows. *)
Definition sample_queue : engine :=
  mk_engine (mk_sq [mk_tx 11 (src_desc_of 0 1 2 3 0); mk_tx 12 (src_desc_of 0 4 5 6 0)] 2 0 0) (mk_dq [] 0).

Lemma sample_engine : ∃ c, engine_rep 4 2 c sample_queue ∧ send_context c = 77.
Proof.
  destruct (setup_run raw_engine 4 2 2 1 3 2 (replicate 4 some_desc) (replicate 4 some_desc))
    as (c1 & _ & He & Ha & Hs & Hr); [exact size_4|exact size_2|done..|unfold idle_regs; cbn; lia|].
  destruct (ce_execs_run 2 4 1 2 c1 empty_engine [OpSend 11 1 2 3 0; OpSend 12 4 5 6 0] size_4 size_2 He)
    as (c2 & _ & He2 & _ & Hs2 & _); [by repeat constructor|].
  rewrite Ha in He2. exists c2. split; [exact He2|]. by rewrite Hs2, Hs.
Qed.

Lemma ce_sends_conserved_witness :
  ∃ c rs c' e', engine_rep 4 2 c sample_queue ∧ ce_execs sample_ops c = Some (rs, c') ∧
    [11; 12] ++ sent sample_ops rs = completed rs ++ outstanding e'.
Proof.
  destruct sample_engine as (c & He & _).
  destruct (ce_sends_conserved c 2 4 1 2 sample_queue sample_ops size_4 size_2 He sample_ops_ok)
    as (rs & c' & e' & Hrun & _ & Hc & _).
  exists c, rs, c', e'. split; [exact He|split; [exact Hrun|exact Hc]].
Defined.

Lemma ce_sends_drain_witness :
  ∃ c c', ce_execs [HwSend 4; OpSendCompleted; OpSendCompleted] c =
    Some ([RHw; RSent (Some (mk_completion 77 11 1 2 3)); RSent (Some (mk_completion 77 12 4 5 6))], c').
Proof.
  destruct sample_engine as (c & He & Hs).
  destruct (ce_sends_drain c 2 4 1 2 sample_queue size_4 size_2 He eq_refl) as (c' & Hrun & _).
  exists c, c'. rewrite Hs in Hrun. exact Hrun.
Defined.

Lemma roundup_pwr2_spec_witness : ∃ k, roundup_pwr2 500 = 2 ^ k ∧ 500 ≤ 2 ^ k.
Proof.
  destruct (roundup_pwr2_spec 500) as (k & H1 & _ & H2 & _); [lia|]. exists k. split; [exact H1|exact H2].
Defined.

(** Too many entries are rounded to none. *)
Lemma roundup_too_large : roundup_pwr2 (2 ^ 30 + 1) = 0.
Proof. reflexivity. Qed.
