(* ===== verification/TxPool.v ===== *)
(** Flow-controlled pools of transmit descriptors.

    [core/dp/txrx/ol_txrx_flow_control.c], with the allocation and release of
    descriptors of [ol_tx_desc.c] and [ol_tx_desc.h], the global pool's size
    of [ol_txrx.c] and the types of [ol_txrx_types.h], for the build with
    [QCA_LL_TX_FLOW_CONTROL_V2], [QCA_LL_TX_FLOW_GLOBAL_MGMT_POOL] and
    [FEATURE_TSO], without the descriptor sanity checks and without
    [CONFIG_HL_SUPPORT].

    The state is the pdev's: descriptors, pools and vdevs are named by
    pointers, the pdev itself is not NULL.  A free descriptor's [next] is the
    word of the union that [netbuf] occupies while the descriptor is in use.
    Prints are not modelled; the calls of [pause_cb] are logged, the newest
    first.  Each operation runs between the locks it takes; the interleaving
    of an allocation with a release is in [TxPoolFlow.v]. *)
From S2P Require Import Prelude Tailq.

(** * Data *)

Definition OL_TX_FRM_STD : Z := 0.
Definition OL_TX_FRM_TSO : Z := 1.

(** A descriptor: [next] while it is free, [pool], [pkt_type] and [tso_desc]. *)
Record tx_desc : Type := mk_tx_desc {
  d_next : option positive;
  d_pool : option positive;
  pkt_type : Z;
  tso_desc : option positive;
}.

Definition set_d_next (v : option positive) (r : tx_desc) : tx_desc :=
  mk_tx_desc v (d_pool r) (pkt_type r) (tso_desc r).
Definition set_d_pool (v : option positive) (r : tx_desc) : tx_desc :=
  mk_tx_desc (d_next r) v (pkt_type r) (tso_desc r).
Definition set_pkt_type (v : Z) (r : tx_desc) : tx_desc :=
  mk_tx_desc (d_next r) (d_pool r) v (tso_desc r).
Definition set_tso_desc (v : option positive) (r : tx_desc) : tx_desc :=
  mk_tx_desc (d_next r) (d_pool r) (pkt_type r) v.

Inductive flow_pool_status : Type :=
| FLOW_POOL_ACTIVE_UNPAUSED
| FLOW_POOL_ACTIVE_PAUSED
| FLOW_POOL_INVALID
| FLOW_POOL_INACTIVE.

#[export] Instance flow_pool_status_eq_dec : EqDecision flow_pool_status.
Proof. solve_decision. Defined.

(** [struct ol_tx_flow_pool_t]; its list entry is in [flow_pool_list]; [flow_type] is never set. *)
Record flow_pool : Type := mk_flow_pool {
  flow_pool_id : Z;
  flow_pool_size : Z;
  avail_desc : Z;
  deficient_desc : Z;
  status : flow_pool_status;
  member_flow_id : Z;
  stop_th : Z;
  start_th : Z;
  freelist : option positive;
}.

Definition set_flow_pool_id (v : Z) (r : flow_pool) : flow_pool :=
  mk_flow_pool v (flow_pool_size r) (avail_desc r) (deficient_desc r) (status r) (member_flow_id r) (stop_th r) (start_th r) (freelist r).
Definition set_flow_pool_size (v : Z) (r : flow_pool) : flow_pool :=
  mk_flow_pool (flow_pool_id r) v (avail_desc r) (deficient_desc r) (status r) (member_flow_id r) (stop_th r) (start_th r) (freelist r).
Definition set_avail_desc (v : Z) (r : flow_pool) : flow_pool :=
  mk_flow_pool (flow_pool_id r) (flow_pool_size r) v (deficient_desc r) (status r) (member_flow_id r) (stop_th r) (start_th r) (freelist r).
Definition set_deficient_desc (v : Z) (r : flow_pool) : flow_pool :=
  mk_flow_pool (flow_pool_id r) (flow_pool_size r) (avail_desc r) v (status r) (member_flow_id r) (stop_th r) (start_th r) (freelist r).
Definition set_status (v : flow_pool_status) (r : flow_pool) : flow_pool :=
  mk_flow_pool (flow_pool_id r) (flow_pool_size r) (avail_desc r) (deficient_desc r) v (member_flow_id r) (stop_th r) (start_th r) (freelist r).
Definition set_member_flow_id (v : Z) (r : flow_pool) : flow_pool :=
  mk_flow_pool (flow_pool_id r) (flow_pool_size r) (avail_desc r) (deficient_desc r) (status r) v (stop_th r) (start_th r) (freelist r).
Definition set_stop_th (v : Z) (r : flow_pool) : flow_pool :=
  mk_flow_pool (flow_pool_id r) (flow_pool_size r) (avail_desc r) (deficient_desc r) (status r) (member_flow_id r) v (start_th r) (freelist r).
Definition set_start_th (v : Z) (r : flow_pool) : flow_pool :=
  mk_flow_pool (flow_pool_id r) (flow_pool_size r) (avail_desc r) (deficient_desc r) (status r) (member_flow_id r) (stop_th r) v (freelist r).
Definition set_freelist (v : option positive) (r : flow_pool) : flow_pool :=
  mk_flow_pool (flow_pool_id r) (flow_pool_size r) (avail_desc r) (deficient_desc r) (status r) (member_flow_id r) (stop_th r) (start_th r) v.

(** What [kzalloc] returns: all zero. *)
Definition zeroed_pool : flow_pool :=
  mk_flow_pool 0 0 0 0 FLOW_POOL_ACTIVE_UNPAUSED 0 0 0 None.

(** The members of a vdev that the flow control uses. *)
Record tx_vdev : Type := mk_tx_vdev {
  vdev_id : Z;
  v_pool : option positive;
}.

Definition set_vdev_id (v : Z) (r : tx_vdev) : tx_vdev :=
  mk_tx_vdev v (v_pool r).
Definition set_v_pool (v : option positive) (r : tx_vdev) : tx_vdev :=
  mk_tx_vdev (vdev_id r) v.

(** Calls of [pdev->pause_cb] with the action [WLAN_STOP_ALL_NETIF_QUEUE] or
    [WLAN_WAKE_ALL_NETIF_QUEUE], and failed assertions. *)
Inductive tx_event : Type :=
| EvStopQueues (vdev : Z)
| EvWakeQueues (vdev : Z)
| EvAssertFailed.

(** [struct ol_txrx_pool_stats] *)
Record pool_stats : Type := mk_pool_stats {
  pool_map_count : Z;
  pool_unmap_count : Z;
  pkt_drop_no_pool : Z;
  pkt_drop_no_desc : Z;
}.

Definition set_pool_map_count (v : Z) (r : pool_stats) : pool_stats :=
  mk_pool_stats v (pool_unmap_count r) (pkt_drop_no_pool r) (pkt_drop_no_desc r).
Definition set_pool_unmap_count (v : Z) (r : pool_stats) : pool_stats :=
  mk_pool_stats (pool_map_count r) v (pkt_drop_no_pool r) (pkt_drop_no_desc r).
Definition set_pkt_drop_no_pool (v : Z) (r : pool_stats) : pool_stats :=
  mk_pool_stats (pool_map_count r) (pool_unmap_count r) v (pkt_drop_no_desc r).
Definition set_pkt_drop_no_desc (v : Z) (r : pool_stats) : pool_stats :=
  mk_pool_stats (pool_map_count r) (pool_unmap_count r) (pkt_drop_no_pool r) v.

(** The pdev, and the memory its pointers name. *)
Record tx_state : Type := mk_tx_state {
  tx_freelist : option positive;
  num_free : Z;
  num_invalid_bin : Z;
  num_msdu_desc : Z;
  is_mgmt_over_wmi_enabled : Z;
  tx_flow_stop_queue_th : Z;
  tx_flow_start_queue_offset : Z;
  flow_pool_list : tailq positive;
  mgmt_pool : option positive;
  vdev_list : list positive;
  vdevs : gmap positive tx_vdev;
  pools : gmap positive flow_pool;
  descs : gmap positive tx_desc;
  tso_freelist : option positive;
  tso_num_free : Z;
  tso_segs : gmap positive (option positive);
  stats : pool_stats;
  tx_events : list tx_event;
}.

Definition set_tx_freelist (v : option positive) (r : tx_state) : tx_state :=
  mk_tx_state v (num_free r) (num_invalid_bin r) (num_msdu_desc r) (is_mgmt_over_wmi_enabled r) (tx_flow_stop_queue_th r) (tx_flow_start_queue_offset r) (flow_pool_list r) (mgmt_pool r) (vdev_list r) (vdevs r) (pools r) (descs r) (tso_freelist r) (tso_num_free r) (tso_segs r) (stats r) (tx_events r).
Definition set_num_free (v : Z) (r : tx_state) : tx_state :=
  mk_tx_state (tx_freelist r) v (num_invalid_bin r) (num_msdu_desc r) (is_mgmt_over_wmi_enabled r) (tx_flow_stop_queue_th r) (tx_flow_start_queue_offset r) (flow_pool_list r) (mgmt_pool r) (vdev_list r) (vdevs r) (pools r) (descs r) (tso_freelist r) (tso_num_free r) (tso_segs r) (stats r) (tx_events r).
Definition set_num_invalid_bin (v : Z) (r : tx_state) : tx_state :=
  mk_tx_state (tx_freelist r) (num_free r) v (num_msdu_desc r) (is_mgmt_over_wmi_enabled r) (tx_flow_stop_queue_th r) (tx_flow_start_queue_offset r) (flow_pool_list r) (mgmt_pool r) (vdev_list r) (vdevs r) (pools r) (descs r) (tso_freelist r) (tso_num_free r) (tso_segs r) (stats r) (tx_events r).
Definition set_num_msdu_desc (v : Z) (r : tx_state) : tx_state :=
  mk_tx_state (tx_freelist r) (num_free r) (num_invalid_bin r) v (is_mgmt_over_wmi_enabled r) (tx_flow_stop_queue_th r) (tx_flow_start_queue_offset r) (flow_pool_list r) (mgmt_pool r) (vdev_list r) (vdevs r) (pools r) (descs r) (tso_freelist r) (tso_num_free r) (tso_segs r) (stats r) (tx_events r).
Definition set_is_mgmt_over_wmi_enabled (v : Z) (r : tx_state) : tx_state :=
  mk_tx_state (tx_freelist r) (num_free r) (num_invalid_bin r) (num_msdu_desc r) v (tx_flow_stop_queue_th r) (tx_flow_start_queue_offset r) (flow_pool_list r) (mgmt_pool r) (vdev_list r) (vdevs r) (pools r) (descs r) (tso_freelist r) (tso_num_free r) (tso_segs r) (stats r) (tx_events r).
Definition set_tx_flow_stop_queue_th (v : Z) (r : tx_state) : tx_state :=
  mk_tx_state (tx_freelist r) (num_free r) (num_invalid_bin r) (num_msdu_desc r) (is_mgmt_over_wmi_enabled r) v (tx_flow_start_queue_offset r) (flow_pool_list r) (mgmt_pool r) (vdev_list r) (vdevs r) (pools r) (descs r) (tso_freelist r) (tso_num_free r) (tso_segs r) (stats r) (tx_events r).
Definition set_tx_flow_start_queue_offset (v : Z) (r : tx_state) : tx_state :=
  mk_tx_state (tx_freelist r) (num_free r) (num_invalid_bin r) (num_msdu_desc r) (is_mgmt_over_wmi_enabled r) (tx_flow_stop_queue_th r) v (flow_pool_list r) (mgmt_pool r) (vdev_list r) (vdevs r) (pools r) (descs r) (tso_freelist r) (tso_num_free r) (tso_segs r) (stats r) (tx_events r).
Definition set_flow_pool_list (v : tailq positive) (r : tx_state) : tx_state :=
  mk_tx_state (tx_freelist r) (num_free r) (num_invalid_bin r) (num_msdu_desc r) (is_mgmt_over_wmi_enabled r) (tx_flow_stop_queue_th r) (tx_flow_start_queue_offset r) v (mgmt_pool r) (vdev_list r) (vdevs r) (pools r) (descs r) (tso_freelist r) (tso_num_free r) (tso_segs r) (stats r) (tx_events r).
Definition set_mgmt_pool (v : option positive) (r : tx_state) : tx_state :=
  mk_tx_state (tx_freelist r) (num_free r) (num_invalid_bin r) (num_msdu_desc r) (is_mgmt_over_wmi_enabled r) (tx_flow_stop_queue_th r) (tx_flow_start_queue_offset r) (flow_pool_list r) v (vdev_list r) (vdevs r) (pools r) (descs r) (tso_freelist r) (tso_num_free r) (tso_segs r) (stats r) (tx_events r).
Definition set_vdev_list (v : list positive) (r : tx_state) : tx_state :=
  mk_tx_state (tx_freelist r) (num_free r) (num_invalid_bin r) (num_msdu_desc r) (is_mgmt_over_wmi_enabled r) (tx_flow_stop_queue_th r) (tx_flow_start_queue_offset r) (flow_pool_list r) (mgmt_pool r) v (vdevs r) (pools r) (descs r) (tso_freelist r) (tso_num_free r) (tso_segs r) (stats r) (tx_events r).
Definition set_vdevs (v : gmap positive tx_vdev) (r : tx_state) : tx_state :=
  mk_tx_state (tx_freelist r) (num_free r) (num_invalid_bin r) (num_msdu_desc r) (is_mgmt_over_wmi_enabled r) (tx_flow_stop_queue_th r) (tx_flow_start_queue_offset r) (flow_pool_list r) (mgmt_pool r) (vdev_list r) v (pools r) (descs r) (tso_freelist r) (tso_num_free r) (tso_segs r) (stats r) (tx_events r).
Definition set_pools (v : gmap positive flow_pool) (r : tx_state) : tx_state :=
  mk_tx_state (tx_freelist r) (num_free r) (num_invalid_bin r) (num_msdu_desc r) (is_mgmt_over_wmi_enabled r) (tx_flow_stop_queue_th r) (tx_flow_start_queue_offset r) (flow_pool_list r) (mgmt_pool r) (vdev_list r) (vdevs r) v (descs r) (tso_freelist r) (tso_num_free r) (tso_segs r) (stats r) (tx_events r).
Definition set_descs (v : gmap positive tx_desc) (r : tx_state) : tx_state :=
  mk_tx_state (tx_freelist r) (num_free r) (num_invalid_bin r) (num_msdu_desc r) (is_mgmt_over_wmi_enabled r) (tx_flow_stop_queue_th r) (tx_flow_start_queue_offset r) (flow_pool_list r) (mgmt_pool r) (vdev_list r) (vdevs r) (pools r) v (tso_freelist r) (tso_num_free r) (tso_segs r) (stats r) (tx_events r).
Definition set_tso_freelist (v : option positive) (r : tx_state) : tx_state :=
  mk_tx_state (tx_freelist r) (num_free r) (num_invalid_bin r) (num_msdu_desc r) (is_mgmt_over_wmi_enabled r) (tx_flow_stop_queue_th r) (tx_flow_start_queue_offset r) (flow_pool_list r) (mgmt_pool r) (vdev_list r) (vdevs r) (pools r) (descs r) v (tso_num_free r) (tso_segs r) (stats r) (tx_events r).
Definition set_tso_num_free (v : Z) (r : tx_state) : tx_state :=
  mk_tx_state (tx_freelist r) (num_free r) (num_invalid_bin r) (num_msdu_desc r) (is_mgmt_over_wmi_enabled r) (tx_flow_stop_queue_th r) (tx_flow_start_queue_offset r) (flow_pool_list r) (mgmt_pool r) (vdev_list r) (vdevs r) (pools r) (descs r) (tso_freelist r) v (tso_segs r) (stats r) (tx_events r).
Definition set_tso_segs (v : gmap positive (option positive)) (r : tx_state) : tx_state :=
  mk_tx_state (tx_freelist r) (num_free r) (num_invalid_bin r) (num_msdu_desc r) (is_mgmt_over_wmi_enabled r) (tx_flow_stop_queue_th r) (tx_flow_start_queue_offset r) (flow_pool_list r) (mgmt_pool r) (vdev_list r) (vdevs r) (pools r) (descs r) (tso_freelist r) (tso_num_free r) v (stats r) (tx_events r).
Definition set_stats (v : pool_stats) (r : tx_state) : tx_state :=
  mk_tx_state (tx_freelist r) (num_free r) (num_invalid_bin r) (num_msdu_desc r) (is_mgmt_over_wmi_enabled r) (tx_flow_stop_queue_th r) (tx_flow_start_queue_offset r) (flow_pool_list r) (mgmt_pool r) (vdev_list r) (vdevs r) (pools r) (descs r) (tso_freelist r) (tso_num_free r) (tso_segs r) v (tx_events r).
Definition set_tx_events (v : list tx_event) (r : tx_state) : tx_state :=
  mk_tx_state (tx_freelist r) (num_free r) (num_invalid_bin r) (num_msdu_desc r) (is_mgmt_over_wmi_enabled r) (tx_flow_stop_queue_th r) (tx_flow_start_queue_offset r) (flow_pool_list r) (mgmt_pool r) (vdev_list r) (vdevs r) (pools r) (descs r) (tso_freelist r) (tso_num_free r) (tso_segs r) (stats r) v.

(** * Memory *)

Abbreviation TX := (CM tx_state).

Definition get_desc (d : positive) : TX tx_desc := o ← gets (λ s, descs s !! d); deref o.
Definition put_desc (d : positive) (t : tx_desc) : TX unit :=
  modify (λ s, set_descs (<[d := t]> (descs s)) s).
Definition mod_desc (d : positive) (f : tx_desc → tx_desc) : TX unit :=
  t ← get_desc d; put_desc d (f t).

Definition get_pool (p : positive) : TX flow_pool := o ← gets (λ s, pools s !! p); deref o.
Definition put_pool (p : positive) (fp : flow_pool) : TX unit :=
  modify (λ s, set_pools (<[p := fp]> (pools s)) s).
Definition mod_pool (p : positive) (f : flow_pool → flow_pool) : TX unit :=
  fp ← get_pool p; put_pool p (f fp).

Definition get_vdev (v : positive) : TX tx_vdev := o ← gets (λ s, vdevs s !! v); deref o.
Definition mod_vdev (v : positive) (f : tx_vdev → tx_vdev) : TX unit :=
  w ← get_vdev v; modify (λ s, set_vdevs (<[v := f w]> (vdevs s)) s).

Definition on_pool_list {A} (m : CM (tailq positive) A) : TX A :=
  zoom flow_pool_list set_flow_pool_list m.

Definition set_entries (es : gmap positive (entry positive)) (q : tailq positive) : tailq positive :=
  mk_tailq (tqh_first q) (tqh_last q) es.

(** [malloc] is the address the allocator returns, a fresh one or NULL. *)
Definition malloc_pool (p : positive) : TX unit :=
  put_pool p zeroed_pool;;
  on_pool_list (modify (λ q, set_entries (<[p := mk_entry None None]> (entries q)) q)).

(** [cdf_mem_free] of a pool: its members and its list entry are gone. *)
Definition free_pool (p : positive) : TX unit :=
  get_pool p;;
  modify (λ s, set_pools (delete p (pools s)) s);;
  on_pool_list (modify (λ q, set_entries (delete p (entries q)) q)).

Definition tx_emit (e : tx_event) : TX unit := modify (λ s, set_tx_events (e :: tx_events s) s).

(** * Taking and returning descriptors *)

Definition ol_tx_get_desc_global_pool : TX positive :=
  o ← gets tx_freelist;
  d ← deref o;
  t ← get_desc d;
  modify (set_tx_freelist (d_next t));;
  modify (λ s, set_num_free (u16 (num_free s - 1)) s);;
  mret d.

Definition ol_tx_put_desc_global_pool (d : positive) : TX unit :=
  fl ← gets tx_freelist;
  mod_desc d (set_d_next fl);;
  modify (set_tx_freelist (Some d));;
  modify (λ s, set_num_free (u16 (num_free s + 1)) s).

Definition ol_tx_get_desc_flow_pool (p : positive) : TX positive :=
  fp ← get_pool p;
  d ← deref (freelist fp);
  t ← get_desc d;
  put_pool p (set_freelist (d_next t) fp);;
  mod_pool p (λ fp, set_avail_desc (u16 (avail_desc fp - 1)) fp);;
  mret d.

Definition ol_tx_put_desc_flow_pool (p d : positive) : TX unit :=
  mod_desc d (set_d_pool (Some p));;
  fp ← get_pool p;
  mod_desc d (set_d_next (freelist fp));;
  mod_pool p (set_freelist (Some d));;
  mod_pool p (λ fp, set_avail_desc (u16 (avail_desc fp + 1)) fp).

(** * Segments of large sends *)

Definition ol_tso_alloc_segment : TX (option positive) :=
  o ← gets tso_freelist;
  match o with
  | None => mret None
  | Some g =>
      modify (λ s, set_tso_num_free (u16 (tso_num_free s - 1)) s);;
      o ← gets (λ s, tso_segs s !! g);
      next ← deref o;
      modify (set_tso_freelist next);;
      mret (Some g)
  end.

Definition ol_tso_free_segment (g : positive) : TX unit :=
  fl ← gets tso_freelist;
  o ← gets (λ s, tso_segs s !! g);
  _ ← deref o;
  modify (λ s, set_tso_segs (<[g := fl]> (tso_segs s)) s);;
  modify (set_tso_freelist (Some g));;
  modify (λ s, set_tso_num_free (u16 (tso_num_free s + 1)) s).

(** * Moving descriptors between pools *)

(** [n] times: take a descriptor from [src_pool] and link it on [temp_list]. *)
Fixpoint take_loop (n : nat) (src_pool : positive) (temp_list : option positive) : TX (option positive) :=
  match n with
  | O => mret temp_list
  | S n =>
      d ← ol_tx_get_desc_flow_pool src_pool;
      mod_desc d (set_d_next temp_list);;
      take_loop n src_pool (Some d)
  end.

(** At most [n] times, while [dst_pool] is deficient: the head of [temp_list]
    goes to [dst_pool]. *)
Fixpoint give_loop (n : nat) (dst_pool : positive) (temp_list : option positive) (count : Z) :
    TX (option positive * Z) :=
  match n with
  | O => mret (temp_list, count)
  | S n =>
      fp ← get_pool dst_pool;
      if deficient_desc fp =? 0 then mret (temp_list, count)
      else
        put_pool dst_pool (set_deficient_desc (u16 (deficient_desc fp - 1)) fp);;
        d ← deref temp_list;
        t ← get_desc d;
        ol_tx_put_desc_flow_pool dst_pool d;;
        give_loop n dst_pool (d_next t) (u16 (count + 1))
  end.

Fixpoint give_back_loop (fuel : nat) (src_pool : positive) (temp_list : option positive) : TX unit :=
  match temp_list, fuel with
  | None, _ => mret tt
  | Some _, O => ub
  | Some d, S n =>
      t ← get_desc d;
      ol_tx_put_desc_flow_pool src_pool d;;
      give_back_loop n src_pool (d_next t)
  end.

Definition ol_tx_move_desc_n (src_pool dst_pool : positive) (desc_move_count : Z) : TX Z :=
  let n := Z.to_nat desc_move_count in
  temp_list ← take_loop n src_pool None;
  '(temp_list, count) ← give_loop n dst_pool temp_list 0;
  fuel ← gets (λ s, size (descs s));
  give_back_loop fuel src_pool temp_list;;
  mret count.

(** The pools of the list, until no descriptor is left to give. *)
Fixpoint distribute_loop (l : list positive) (src_pool : positive) (desc_count : Z) : TX unit :=
  match l with
  | [] => mret tt
  | dst_pool :: l =>
      fp ← get_pool dst_pool;
      desc_count ←
        (if deficient_desc fp =? 0 then mret desc_count
         else
           let desc_move_count :=
             if deficient_desc fp >? desc_count then desc_count else deficient_desc fp in
           moved ← ol_tx_move_desc_n src_pool dst_pool desc_move_count;
           mret (u16 (desc_count - u16 moved)));
      if desc_count =? 0 then mret tt else distribute_loop l src_pool desc_count
  end.

Definition ol_tx_distribute_descs_to_deficient_pools (src_pool : positive) : TX Z :=
  fp ← get_pool src_pool;
  o ← gets (λ s, TAILQ_FOREACH (flow_pool_list s));
  l ← deref o;
  distribute_loop l src_pool (avail_desc fp);;
  mret 0.

(** * Creating and deleting pools *)

Definition INVALID_FLOW_ID : Z := 255.
Definition MAX_INVALID_BIN : Z := 3.
Definition TX_FLOW_MGMT_POOL_ID : Z := 239.
Definition TX_FLOW_MGMT_POOL_SIZE : Z := 32.
Definition EINVAL : Z := 22.
Definition ENOMEM : Z := 12.

(** [n] descriptors of the global pool, for [pool], linked on [temp_list] *)
Fixpoint take_global_loop (n : nat) (pool : positive) (temp_list : option positive) : TX (option positive) :=
  match n with
  | O => mret temp_list
  | S n =>
      d ← ol_tx_get_desc_global_pool;
      mod_desc d (set_d_pool (Some pool));;
      mod_desc d (set_d_next temp_list);;
      take_global_loop n pool (Some d)
  end.

Definition ol_tx_create_flow_pool (malloc : option positive) (id size : Z) : TX (option positive) :=
  stop_threshold ← gets (λ s, u32 (tx_flow_stop_queue_th s));
  start_threshold ← gets (λ s, u32 (stop_threshold + tx_flow_start_queue_offset s));
  match malloc with
  | None => mret None
  | Some pool =>
      malloc_pool pool;;
      mod_pool pool (set_flow_pool_id id);;
      mod_pool pool (set_flow_pool_size size);;
      mod_pool pool (set_status FLOW_POOL_ACTIVE_UNPAUSED);;
      mod_pool pool (set_start_th (u16 (u32 (start_threshold * size) `div` 100)));;
      mod_pool pool (set_stop_th (u16 (u32 (stop_threshold * size) `div` 100)));;
      free ← gets num_free;
      let size' := if free >=? size then size else free in
      temp_list ← take_global_loop (Z.to_nat size') pool None;
      mod_pool pool (set_freelist temp_list);;
      mod_pool pool (set_avail_desc size');;
      mod_pool pool (λ fp, set_deficient_desc (u16 (flow_pool_size fp - avail_desc fp)) fp);;
      on_pool_list (TAILQ_INSERT_TAIL pool);;
      mret (Some pool)
  end.

Fixpoint put_global_loop (n : nat) (temp_list : option positive) : TX unit :=
  match n with
  | O => mret tt
  | S n =>
      d ← deref temp_list;
      t ← get_desc d;
      ol_tx_put_desc_global_pool d;;
      put_global_loop n (d_next t)
  end.

Definition ol_tx_delete_flow_pool (pool : option positive) (force : bool) : TX Z :=
  match pool with
  | None => mret (- ENOMEM)
  | Some pool =>
      on_pool_list (TAILQ_REMOVE pool);;
      fp ← get_pool pool;
      let inactive := (avail_desc fp =? flow_pool_size fp) || force in
      mod_pool pool (set_status (if inactive then FLOW_POOL_INACTIVE else FLOW_POOL_INVALID));;
      let temp_list := freelist fp in
      let size := avail_desc fp in
      mod_pool pool (set_freelist None);;
      mod_pool pool (set_avail_desc 0);;
      (if inactive then free_pool pool
       else
         mod_pool pool (λ fp, set_flow_pool_size (u16 (flow_pool_size fp - size)) fp);;
         mod_pool pool (set_flow_pool_id INVALID_FLOW_ID);;
         modify (λ s, set_num_invalid_bin (u8 (num_invalid_bin s + 1)) s);;
         bin ← gets num_invalid_bin;
         when (bin >? MAX_INVALID_BIN) (tx_emit EvAssertFailed);;
         on_pool_list (TAILQ_INSERT_TAIL pool));;
      put_global_loop (Z.to_nat size) temp_list;;
      mret 0
  end.

Definition ol_tx_free_invalid_flow_pool (pool : positive) : TX Z :=
  fp ← get_pool pool;
  if negb (bool_decide (status fp = FLOW_POOL_INVALID)) then mret (- EINVAL)
  else
    ol_tx_distribute_descs_to_deficient_pools pool;;
    mod_pool pool (λ fp, set_flow_pool_size (avail_desc fp) fp);;
    modify (λ s, set_num_invalid_bin (u8 (num_invalid_bin s - 1)) s);;
    ol_tx_delete_flow_pool (Some pool) false.

(** * Allocation and release of a descriptor *)

(** The part of [ol_tx_desc_alloc] under the pool's lock: the descriptor and
    whether the queues are to be stopped. *)
Definition alloc_locked (pool : positive) : TX (option positive * bool) :=
  fp ← get_pool pool;
  if avail_desc fp =? 0 then mret (None, false)
  else
    d ← ol_tx_get_desc_flow_pool pool;
    fp ← get_pool pool;
    if avail_desc fp <? stop_th fp
    then mod_pool pool (set_status FLOW_POOL_ACTIVE_PAUSED);; mret (Some d, true)
    else mret (Some d, false).

(** The part after the lock is dropped: the queues are stopped. *)
Definition alloc_stop (vdev : positive) (stop : bool) : TX unit :=
  when stop (w ← get_vdev vdev; tx_emit (EvStopQueues (vdev_id w))).

Definition ol_tx_desc_alloc (vdev : positive) (pool : option positive) : TX (option positive) :=
  match pool with
  | None =>
      modify (λ s, set_stats (set_pkt_drop_no_pool (u16 (pkt_drop_no_pool (stats s) + 1)) (stats s)) s);;
      mret None
  | Some pool =>
      '(tx_desc, stop) ← alloc_locked pool;
      match tx_desc with
      | None =>
          modify (λ s, set_stats (set_pkt_drop_no_desc (u16 (pkt_drop_no_desc (stats s) + 1)) (stats s)) s)
      | Some _ => alloc_stop vdev stop
      end;;
      mret tx_desc
  end.

(** [mgmt]: the frame's type is [htt_pkt_type_mgmt]. *)
Definition ol_tx_desc_alloc_wrapper (vdev : positive) (mgmt : bool) : TX (option positive) :=
  pool ← (if mgmt then gets mgmt_pool else w ← get_vdev vdev; mret (v_pool w));
  ol_tx_desc_alloc vdev pool.

Definition free_tso (t : tx_desc) : TX unit :=
  when (pkt_type t =? OL_TX_FRM_TSO)
    (match tso_desc t with None => mret tt | Some g => ol_tso_free_segment g end).

Definition ol_tx_desc_free (tx_desc : positive) : TX unit :=
  t ← get_desc tx_desc;
  free_tso t;;
  pool ← deref (d_pool t);
  ol_tx_put_desc_flow_pool pool tx_desc;;
  fp ← get_pool pool;
  match status fp with
  | FLOW_POOL_ACTIVE_PAUSED =>
      when (avail_desc fp >? start_th fp)
        (tx_emit (EvWakeQueues (member_flow_id fp));;
         mod_pool pool (set_status FLOW_POOL_ACTIVE_UNPAUSED))
  | FLOW_POOL_INVALID =>
      when (avail_desc fp =? flow_pool_size fp) (ol_tx_free_invalid_flow_pool pool;; mret tt)
  | _ => mret tt
  end.

(** The descriptor's part of [ol_tx_desc_ll]: it is taken, points to the
    frame, whose pointer is the word that was [next], and to the segment when
    the frame is a part of a large send. *)
Definition ol_tx_desc_ll (vdev : positive) (mgmt : bool) (netbuf tso_seg : option positive) :
    TX (option positive) :=
  o ← ol_tx_desc_alloc_wrapper vdev mgmt;
  match o with
  | None => mret None
  | Some d =>
      mod_desc d (set_d_next netbuf);;
      match tso_seg with
      | Some g => mod_desc d (set_tso_desc (Some g));; mod_desc d (set_pkt_type OL_TX_FRM_TSO)
      | None => mod_desc d (set_pkt_type OL_TX_FRM_STD)
      end;;
      mret (Some d)
  end.

(** * Pools and virtual devices *)

Fixpoint find_pool (l : list positive) (id : Z) : TX (option positive) :=
  match l with
  | [] => mret None
  | p :: l =>
      fp ← get_pool p;
      if flow_pool_id fp =? id then mret (Some p) else find_pool l id
  end.

Definition ol_tx_get_flow_pool (id : Z) : TX (option positive) :=
  o ← gets (λ s, TAILQ_FOREACH (flow_pool_list s));
  l ← deref o;
  find_pool l id.

Fixpoint find_vdev (l : list positive) (id : Z) : TX (option positive) :=
  match l with
  | [] => mret None
  | v :: l =>
      w ← get_vdev v;
      if vdev_id w =? id then mret (Some v) else find_vdev l id
  end.

Definition ol_txrx_get_vdev_from_vdev_id (id : Z) : TX (option positive) :=
  l ← gets vdev_list; find_vdev l id.

Definition ol_tx_flow_pool_vdev_map (pool : positive) (id : Z) : TX unit :=
  vdev ← ol_txrx_get_vdev_from_vdev_id id;
  match vdev with
  | None => mret tt
  | Some v =>
      mod_vdev v (set_v_pool (Some pool));;
      mod_pool pool (set_member_flow_id id)
  end.

Definition ol_tx_flow_pool_vdev_unmap (pool : positive) (id : Z) : TX unit :=
  vdev ← ol_txrx_get_vdev_from_vdev_id id;
  match vdev with
  | None => mret tt
  | Some v =>
      mod_vdev v (set_v_pool None);;
      mod_pool pool (set_member_flow_id INVALID_FLOW_ID)
  end.

Definition FLOW_TYPE_VDEV : Z := 0.

Definition ol_tx_flow_pool_map_handler (malloc : option positive)
    (flow_id flow_type id size : Z) : TX unit :=
  modify (λ s, set_stats (set_pool_map_count (u16 (pool_map_count (stats s) + 1)) (stats s)) s);;
  found ← ol_tx_get_flow_pool id;
  pool ← match found with
         | Some p => mret (Some p)
         | None => ol_tx_create_flow_pool malloc id size
         end;
  match pool with
  | None => mret tt
  | Some p =>
      if flow_type =? FLOW_TYPE_VDEV then ol_tx_flow_pool_vdev_map p flow_id
      else when (bool_decide (found = None)) (ol_tx_delete_flow_pool (Some p) false;; mret tt)
  end.

Definition ol_tx_flow_pool_unmap_handler (flow_id flow_type id : Z) : TX unit :=
  modify (λ s, set_stats (set_pool_unmap_count (u16 (pool_unmap_count (stats s) + 1)) (stats s)) s);;
  pool ← ol_tx_get_flow_pool id;
  match pool with
  | None => mret tt
  | Some p =>
      if flow_type =? FLOW_TYPE_VDEV
      then ol_tx_flow_pool_vdev_unmap p flow_id;; ol_tx_delete_flow_pool (Some p) false;; mret tt
      else mret tt
  end.

(** * Start and stop *)

Definition ol_tx_register_flow_control (malloc : option positive) : TX unit :=
  on_pool_list TAILQ_INIT;;
  mgmt ← gets is_mgmt_over_wmi_enabled;
  when (mgmt =? 0)
    (pool ← ol_tx_create_flow_pool malloc TX_FLOW_MGMT_POOL_ID TX_FLOW_MGMT_POOL_SIZE;
     modify (set_mgmt_pool pool)).

Fixpoint deregister_loop (fuel : nat) : TX unit :=
  q ← gets flow_pool_list;
  match TAILQ_FIRST q, fuel with
  | None, _ => mret tt
  | Some _, O => ub
  | Some p, S n => ol_tx_delete_flow_pool (Some p) true;; deregister_loop n
  end.

Definition ol_tx_deregister_flow_control : TX unit :=
  mgmt ← gets is_mgmt_over_wmi_enabled;
  when (mgmt =? 0) (pool ← gets mgmt_pool; ol_tx_delete_flow_pool pool false;; mret tt);;
  fuel ← gets (λ s, size (pools s));
  deregister_loop fuel.

Definition ol_tx_clear_flow_pool_stats : TX unit := modify (set_stats (mk_pool_stats 0 0 0 0)).

Definition ol_tx_set_desc_global_pool_size (n : Z) : TX unit :=
  modify (set_num_msdu_desc n);;
  mgmt ← gets is_mgmt_over_wmi_enabled;
  when (mgmt =? 0)
    (modify (λ s, set_num_msdu_desc (u32 (num_msdu_desc s + TX_FLOW_MGMT_POOL_SIZE)) s)).

Fixpoint sum_avail (l : list positive) (acc : Z) : TX Z :=
  match l with
  | [] => mret acc
  | p :: l => fp ← get_pool p; sum_avail l (u32 (acc + avail_desc fp))
  end.

Definition ol_tx_get_total_free_desc : TX Z :=
  free ← gets num_free;
  o ← gets (λ s, TAILQ_FOREACH (flow_pool_list s));
  l ← deref o;
  sum_avail l free.
