(* ===== verification/TxPoolRep.v ===== *)
(** Transmit descriptor pools: the lists behind the pointers.

    An abstract state holds the free lists, the pools' counters and the
    descriptors in flight; [core] relates it to the pdev.  Taking a descriptor
    from a list or putting it on one is one lemma each, and the loops of
    [ol_tx_move_desc_n], [ol_tx_create_flow_pool] and
    [ol_tx_delete_flow_pool] follow by induction. *)
From S2P Require Import Prelude Tailq TxPool.

(** A pool: its free descriptors, in order, and its other members. *)
Record apool : Type := mk_apool {
  a_id : Z;
  a_size : Z;
  a_free : list positive;
  a_def : Z;
  a_status : flow_pool_status;
  a_member : Z;
  a_stop : Z;
  a_start : Z;
}.

Definition set_a_id (v : Z) (r : apool) : apool :=
  mk_apool v (a_size r) (a_free r) (a_def r) (a_status r) (a_member r) (a_stop r) (a_start r).
Definition set_a_size (v : Z) (r : apool) : apool :=
  mk_apool (a_id r) v (a_free r) (a_def r) (a_status r) (a_member r) (a_stop r) (a_start r).
Definition set_a_free (v : list positive) (r : apool) : apool :=
  mk_apool (a_id r) (a_size r) v (a_def r) (a_status r) (a_member r) (a_stop r) (a_start r).
Definition set_a_def (v : Z) (r : apool) : apool :=
  mk_apool (a_id r) (a_size r) (a_free r) v (a_status r) (a_member r) (a_stop r) (a_start r).
Definition set_a_status (v : flow_pool_status) (r : apool) : apool :=
  mk_apool (a_id r) (a_size r) (a_free r) (a_def r) v (a_member r) (a_stop r) (a_start r).
Definition set_a_member (v : Z) (r : apool) : apool :=
  mk_apool (a_id r) (a_size r) (a_free r) (a_def r) (a_status r) v (a_stop r) (a_start r).
Definition set_a_stop (v : Z) (r : apool) : apool :=
  mk_apool (a_id r) (a_size r) (a_free r) (a_def r) (a_status r) (a_member r) v (a_start r).
Definition set_a_start (v : Z) (r : apool) : apool :=
  mk_apool (a_id r) (a_size r) (a_free r) (a_def r) (a_status r) (a_member r) (a_stop r) v.

(** The free descriptors of the global pool, the pools, and the descriptors in flight with the pool each came from. *)
Record atx : Type := mk_atx {
  aG : list positive;
  aP : gmap positive apool;
  aFly : list (positive * positive);
}.

Definition set_aG (v : list positive) (r : atx) : atx :=
  mk_atx v (aP r) (aFly r).
Definition set_aP (v : gmap positive apool) (r : atx) : atx :=
  mk_atx (aG r) v (aFly r).
Definition set_aFly (v : list (positive * positive)) (r : atx) : atx :=
  mk_atx (aG r) (aP r) v.

(** * Linked lists of descriptors *)

Fixpoint dlist (m : gmap positive tx_desc) (o : option positive) (l : list positive) : Prop :=
  match l with
  | [] => o = None
  | d :: l => o = Some d ∧ ∃ t, m !! d = Some t ∧ dlist m (d_next t) l
  end.

Lemma dlist_insert_ne m o l d t : d ∉ l → dlist m o l → dlist (<[d := t]> m) o l.
Proof.
  revert o. induction l as [|e l IH]; intros o Hd; simpl; [done|].
  apply not_elem_of_cons in Hd as [Hde Hdl]. intros (-> & u & Hu & Hl).
  split; [done|]. exists u. rewrite lookup_insert_ne by congruence. auto.
Qed.

Lemma dlist_push m o l d t :
  d ∉ l → dlist m o l → d_next t = o → dlist (<[d := t]> m) (Some d) (d :: l).
Proof.
  intros Hd Hl Ht. split; [done|]. exists t. rewrite lookup_insert_eq. split; [done|].
  rewrite Ht. by apply dlist_insert_ne.
Qed.

(** * All descriptors *)

Definition frees (P : gmap positive apool) : list positive :=
  concat ((λ x, a_free x.2) <$> map_to_list P).

Definition owned (A : atx) (h x : list positive) : list positive :=
  aG A ++ frees (aP A) ++ (aFly A).*1 ++ h ++ x.

Lemma frees_lookup P p a : P !! p = Some a → frees P ≡ₚ a_free a ++ frees (delete p P).
Proof.
  intros Hp. unfold frees. by rewrite <- (map_to_list_delete P p a Hp).
Qed.

Lemma frees_insert P p a : frees (<[p := a]> P) ≡ₚ a_free a ++ frees (delete p P).
Proof.
  rewrite <- insert_delete_eq. unfold frees. rewrite map_to_list_insert by apply lookup_delete_eq.
  done.
Qed.

Lemma frees_update P p a l :
  P !! p = Some a → frees (<[p := set_a_free l a]> P) ++ a_free a ≡ₚ frees P ++ l.
Proof.
  intros Hp. rewrite frees_insert, (frees_lookup _ _ _ Hp). simpl. solve_Permutation.
Qed.

Lemma elem_of_frees P p a d : P !! p = Some a → d ∈ a_free a → d ∈ frees P.
Proof. intros Hp Hd. rewrite (frees_lookup _ _ _ Hp). set_solver. Qed.

(** A pool as the driver stores it *)
Definition conc (a : apool) (o : option positive) : flow_pool :=
  mk_flow_pool (a_id a) (a_size a) (Z.of_nat (length (a_free a))) (a_def a) (a_status a)
    (a_member a) (a_stop a) (a_start a) o.

Definition pool_rel (m : gmap positive tx_desc) (p : positive) (fp : flow_pool) (a : apool) : Prop :=
  ∃ o, fp = conc a o ∧ dlist m o (a_free a) ∧
    Forall (λ d, ∃ t, m !! d = Some t ∧ d_pool t = Some p) (a_free a).

(** [o] is a list [h] held by the running function, [x] are descriptors that
    are on no list. *)
Record core (s : tx_state) (A : atx) (o : option positive) (h x : list positive) : Prop := {
  c_nodup : NoDup (owned A h x);
  c_dom : ∀ d, is_Some (descs s !! d) ↔ d ∈ owned A h x;
  c_size : Z.of_nat (size (descs s)) < 65536;
  c_glob : dlist (descs s) (tx_freelist s) (aG A);
  c_num : num_free s = Z.of_nat (length (aG A));
  c_pools : ∀ p, option_Forall2 (pool_rel (descs s) p) (pools s !! p) (aP A !! p);
  c_fly : Forall (λ x, ∃ t, descs s !! x.1 = Some t ∧ d_pool t = Some x.2) (aFly A);
  c_hand : dlist (descs s) o h;
  c_tso : ∀ d t g, descs s !! d = Some t → tso_desc t = Some g → is_Some (tso_segs s !! g);
}.

(** The members that moving descriptors touches *)
Definition touch (s s' : tx_state) : Prop :=
  ∃ fl n P D, s' = set_descs D (set_pools P (set_num_free n (set_tx_freelist fl s))).

Lemma touch_refl s : touch s s.
Proof. exists (tx_freelist s), (num_free s), (pools s), (descs s). by destruct s. Qed.
Lemma touch_trans s1 s2 s3 : touch s1 s2 → touch s2 s3 → touch s1 s3.
Proof. intros (? & ? & ? & ? & ->) (? & ? & ? & ? & ->). by do 4 eexists. Qed.
Lemma touch_pools s P : touch s (set_pools P s).
Proof. exists (tx_freelist s), (num_free s), P, (descs s). by destruct s. Qed.
Lemma touch_descs s D : touch s (set_descs D s).
Proof. exists (tx_freelist s), (num_free s), (pools s), D. by destruct s. Qed.
Lemma touch_glob s fl : touch s (set_tx_freelist fl s).
Proof. exists fl, (num_free s), (pools s), (descs s). by destruct s. Qed.
Lemma touch_num s n : touch s (set_num_free n s).
Proof. exists (tx_freelist s), n, (pools s), (descs s). by destruct s. Qed.

(** The state is the result of such writes. *)
Ltac touched := repeat first
  [ apply touch_refl | assumption
  | eapply touch_trans; [|apply touch_pools] | eapply touch_trans; [|apply touch_descs]
  | eapply touch_trans; [|apply touch_glob] | eapply touch_trans; [|apply touch_num] ].

(** * Running the memory accesses *)

Lemma get_desc_run s d t : descs s !! d = Some t → get_desc d s = Some (t, s).
Proof. intros H. unfold get_desc. mstep. by rewrite H. Qed.
Lemma mod_desc_run s d f t : descs s !! d = Some t →
  mod_desc d f s = Some (tt, set_descs (<[d := f t]> (descs s)) s).
Proof. intros H. unfold mod_desc. by mrun (get_desc_run _ _ _ H). Qed.
Lemma get_pool_run s p fp : pools s !! p = Some fp → get_pool p s = Some (fp, s).
Proof. intros H. unfold get_pool. mstep. by rewrite H. Qed.
Lemma mod_pool_run s p f fp : pools s !! p = Some fp →
  mod_pool p f s = Some (tt, set_pools (<[p := f fp]> (pools s)) s).
Proof. intros H. unfold mod_pool. by mrun (get_pool_run _ _ _ H). Qed.

(** * Lengths *)

Lemma owned_length s A o h x : core s A o h x → length (owned A h x) = size (descs s).
Proof.
  intros C. rewrite <- size_dom. rewrite <- (size_list_to_set (C:=gset positive)) by apply C.
  f_equal. apply leibniz_equiv. intros d. rewrite elem_of_list_to_set, elem_of_dom.
  symmetry. apply C.
Qed.

Lemma core_lengths s A o h x : core s A o h x →
  Z.of_nat (length (aG A)) + Z.of_nat (length (frees (aP A))) + Z.of_nat (length (aFly A)) +
  Z.of_nat (length h) + Z.of_nat (length x) < 65536.
Proof.
  intros C. pose proof (owned_length _ _ _ _ _ C) as Hl. pose proof (c_size _ _ _ _ _ C).
  unfold owned in Hl. rewrite !length_app, length_fmap in Hl. lia.
Qed.

Lemma frees_length P p a : P !! p = Some a → (length (a_free a) ≤ length (frees P))%nat.
Proof. intros Hp. rewrite (frees_lookup _ _ _ Hp), length_app. lia. Qed.

Lemma core_free_length s A o h x p a : core s A o h x → aP A !! p = Some a →
  Z.of_nat (length (a_free a)) + Z.of_nat (length h) + Z.of_nat (length x) < 65536.
Proof.
  intros C Hp. pose proof (core_lengths _ _ _ _ _ C).
  pose proof (frees_length _ _ _ Hp). lia.
Qed.

(** * Changing one descriptor that is on no list *)

(** Everything but [d] is unchanged. *)
Definition same_but (m m' : gmap positive tx_desc) (d : positive) : Prop :=
  ∀ e, e ≠ d → m' !! e = m !! e.

Lemma dlist_same m m' d o l : same_but m m' d → d ∉ l → dlist m o l → dlist m' o l.
Proof.
  intros Hm. revert o. induction l as [|e l IH]; intros o Hd; simpl; [done|].
  apply not_elem_of_cons in Hd as [Hde Hdl]. intros (-> & u & Hu & Hl).
  split; [done|]. exists u. rewrite Hm by congruence. auto.
Qed.

Lemma pool_rel_same m m' d p fp a :
  same_but m m' d → d ∉ a_free a → pool_rel m p fp a → pool_rel m' p fp a.
Proof.
  intros Hm Hd (o & -> & Hl & Hf). exists o. split; [done|].
  split; [by eapply dlist_same|].
  rewrite Forall_forall in Hf |- *. intros e He. rewrite Hm by set_solver. by apply Hf.
Qed.

Lemma owned_detached A h x1 d x2 :
  NoDup (owned A h (x1 ++ d :: x2)) →
  d ∉ aG A ∧ d ∉ frees (aP A) ∧ d ∉ (aFly A).*1 ∧ d ∉ h.
Proof.
  intros Hnd. assert (NoDup (d :: owned A h (x1 ++ x2))) as Hnd'.
  { eapply NoDup_Permutation_proper; [|exact Hnd]. unfold owned. solve_Permutation. }
  apply NoDup_cons in Hnd' as [Hd _]. unfold owned in Hd. set_solver.
Qed.

(** Writing a descriptor that is on no list. *)
Lemma core_write s A o h x d t :
  core s A o h x → d ∈ x → is_Some (descs s !! d) →
  (∀ g, tso_desc t = Some g → is_Some (tso_segs s !! g)) →
  core (set_descs (<[d := t]> (descs s)) s) A o h x.
Proof.
  intros C (x1 & x2 & ->)%list_elem_of_split Hd Htso.
  destruct (owned_detached _ _ _ _ _ (c_nodup _ _ _ _ _ C)) as (H1 & H2 & H3 & H4).
  assert (same_but (descs s) (<[d := t]> (descs s)) d) as Hm
    by (intros e He; by apply lookup_insert_ne).
  assert (dom (<[d := t]> (descs s)) = dom (descs s)) as Hdom
    by by apply dom_insert_lookup_L.
  split; cbn -[size].
  - apply C.
  - intros e. rewrite <- (c_dom _ _ _ _ _ C), <- !elem_of_dom, Hdom. done.
  - rewrite <- size_dom, Hdom, size_dom. apply C.
  - eapply dlist_same; [exact Hm|done|apply C].
  - apply C.
  - intros p. pose proof (c_pools _ _ _ _ _ C p) as Hp.
    destruct (aP A !! p) as [a|] eqn:Ha; inversion Hp; subst; constructor.
    eapply pool_rel_same; [exact Hm| |done]. intros Hin. by eapply H2, elem_of_frees.
  - pose proof (c_fly _ _ _ _ _ C) as Hf. rewrite Forall_forall in Hf |- *.
    intros y Hy. cbn. rewrite lookup_insert_ne; [by apply Hf|].
    intros ->. apply H3, list_elem_of_fmap. by exists y.
  - eapply dlist_same; [exact Hm|done|apply C].
  - intros e u g He Hg. destruct (decide (d = e)) as [<-|Hde].
    + rewrite lookup_insert_eq in He. injection He as <-. by apply Htso.
    + rewrite lookup_insert_ne in He by done. by eapply (c_tso _ _ _ _ _ C).
Qed.

(** Writing the pool or the link of such a descriptor. *)
Lemma core_relink s A o h x d t t' :
  core s A o h x → d ∈ x → descs s !! d = Some t → tso_desc t' = tso_desc t →
  core (set_descs (<[d := t']> (descs s)) s) A o h x.
Proof.
  intros C Hd Ht Hg. apply core_write; [done..|by eexists|]. intros g. rewrite Hg.
  intros Hg1. by apply (c_tso _ _ _ _ _ C _ _ _ Ht Hg1).
Qed.

(** Only the contents of the lists as a whole matter to the first two
    conditions. *)
Lemma owned_perm s A o h x l :
  core s A o h x → l ≡ₚ owned A h x → NoDup l ∧ ∀ d, is_Some (descs s !! d) ↔ d ∈ l.
Proof. intros C Hp. split; [rewrite Hp; apply C|intros d; rewrite Hp; apply C]. Qed.

Definition with_free (p : positive) (a : apool) (l : list positive) (A : atx) : atx :=
  set_aP (<[p := set_a_free l a]> (aP A)) A.

Lemma pools_with_free s A o h x p a l fp :
  core s A o h x → aP A !! p = Some a → pool_rel (descs s) p fp (set_a_free l a) →
  ∀ q, option_Forall2 (pool_rel (descs s) q) (<[p := fp]> (pools s) !! q)
    (aP (with_free p a l A) !! q).
Proof.
  intros C Hp Hr q. cbn. destruct (decide (p = q)) as [->|Hq].
  - rewrite !lookup_insert_eq. by constructor.
  - rewrite !lookup_insert_ne by done. apply C.
Qed.

Lemma core_pool s A o h x p a : core s A o h x → aP A !! p = Some a →
  ∃ fp, pools s !! p = Some fp ∧ pool_rel (descs s) p fp a.
Proof.
  intros C Hp. pose proof (c_pools _ _ _ _ _ C p) as Hr. rewrite Hp in Hr.
  inversion Hr; subst. by eexists.
Qed.

(** * Taking from and putting on lists *)

Lemma pop_pool s A o h x p a d l :
  core s A o h x → aP A !! p = Some a → a_free a = d :: l →
  ∃ s', ol_tx_get_desc_flow_pool p s = Some (d, s') ∧ touch s s' ∧
    core s' (with_free p a l A) o h (d :: x) ∧ descs s' = descs s ∧
    ∃ t, descs s !! d = Some t ∧ d_pool t = Some p.
Proof.
  intros C Hp Hf. destruct (core_pool _ _ _ _ _ _ _ C Hp) as (fp & Hfp & fl & -> & Hl & Hown).
  pose proof (core_free_length _ _ _ _ _ _ _ C Hp) as Hlen. rewrite Hf in *.
  destruct Hl as (-> & t & Ht & Hl). apply Forall_cons in Hown as [(t' & Ht' & Htp) Hown].
  replace t' with t in Htp by congruence. clear t' Ht'.
  unfold ol_tx_get_desc_flow_pool. mrun (get_pool_run _ _ _ Hfp). cbn [freelist conc]. mstep.
  mrun (get_desc_run _ _ _ Ht). unfold put_pool at 1. mstep.
  erewrite run_bind by (apply mod_pool_run, lookup_insert_eq). mstep. cbn [pools set_pools].
  rewrite insert_insert_eq.
  eexists. split; [done|]. split; [touched|].
  split; [|split; [done|by exists t]].
  assert (owned (with_free p a l A) h (d :: x) ≡ₚ owned A h x) as Hperm.
  { unfold owned, with_free. cbn. rewrite frees_insert, (frees_lookup _ _ _ Hp), Hf. cbn.
    solve_Permutation. }
  destruct (owned_perm _ _ _ _ _ _ C Hperm) as [Hnd Hdom].
  split; cbn -[size]; try done; try apply C.
  change (∀ q, option_Forall2 (pool_rel (descs s) q)
    (<[p := set_avail_desc (u16 (Z.of_nat (length (a_free a)) - 1)) (set_freelist (d_next t)
       (conc a (Some d)))]> (pools s) !! q) (aP (with_free p a l A) !! q)).
  eapply pools_with_free; [exact C|done|]. exists (d_next t). rewrite Hf.
  split; [|by split]. unfold conc, set_avail_desc, set_freelist. cbn. f_equal.
  cbn in Hlen. rewrite wrap_small; lia.
Qed.

(** The head of [x] is on no list, and is a descriptor. *)
Lemma core_detached s A o h d x : core s A o h (d :: x) →
  d ∉ aG A ∧ d ∉ frees (aP A) ∧ d ∉ (aFly A).*1 ∧ d ∉ h ∧ ∃ t, descs s !! d = Some t.
Proof.
  intros C. destruct (owned_detached A h [] d x (c_nodup _ _ _ _ _ C)) as (H1 & H2 & H3 & H4).
  split_and!; [done..|]. apply (c_dom _ _ _ _ _ C). unfold owned. set_solver.
Qed.

Lemma push_pool s A o h x p a d :
  core s A o h (d :: x) → aP A !! p = Some a →
  ∃ s', ol_tx_put_desc_flow_pool p d s = Some (tt, s') ∧ touch s s' ∧
    core s' (with_free p a (d :: a_free a) A) o h x.
Proof.
  intros C Hp. destruct (core_detached _ _ _ _ _ _ C) as (_ & Hdf & _ & _ & t & Ht).
  destruct (core_pool _ _ _ _ _ _ _ C Hp) as (fp & Hfp & fl & -> & _).
  pose proof (core_free_length _ _ _ _ _ _ _ C Hp) as Hlen. cbn in Hlen.
  unfold ol_tx_put_desc_flow_pool. mrun (mod_desc_run _ _ (set_d_pool (Some p)) _ Ht).
  erewrite run_bind by (by apply get_pool_run).
  erewrite run_bind by (apply mod_desc_run, lookup_insert_eq).
  erewrite run_bind by (by apply mod_pool_run). erewrite mod_pool_run by apply lookup_insert_eq.
  cbn [descs pools set_descs set_pools freelist conc]. rewrite !insert_insert_eq.
  set (t' := set_d_next fl (set_d_pool (Some p) t)). eexists. split; [done|]. split; [touched|].
  assert (core (set_descs (<[d := t']> (descs s)) s) A o h (d :: x)) as C'
    by (eapply core_relink; [done|set_solver|exact Ht|done]).
  destruct (core_pool _ _ _ _ _ _ _ C' Hp) as (fp & Hfp' & o' & -> & Hl & Hown).
  cbn in Hfp'. rewrite Hfp in Hfp'. injection Hfp' as ->.
  assert (owned (with_free p a (d :: a_free a) A) h x ≡ₚ owned A h (d :: x)) as Hperm.
  { unfold owned, with_free. cbn. rewrite frees_insert, (frees_lookup _ _ _ Hp). cbn.
    solve_Permutation. }
  destruct (owned_perm _ _ _ _ _ _ C' Hperm) as [Hnd Hdom].
  pose proof (pools_with_free _ _ _ _ _ p a (d :: a_free a) 
    (set_avail_desc (Z.of_nat (length (a_free a)) + 1) (set_freelist (Some d) (conc a o'))) C' Hp) as Hpools.
  split; cbn -[size]; try done; try apply C'.
  rewrite wrap_small by lia. apply Hpools. exists (Some d). split.
  - unfold conc, set_avail_desc, set_freelist. cbn -[Z.of_nat]. f_equal. lia.
  - cbn. rewrite lookup_insert_eq. split; [split; [done|by eexists]|].
    constructor; [|done]. rewrite lookup_insert_eq. by eexists.
Qed.

Lemma pop_glob s A o h x d G :
  core s A o h x → aG A = d :: G →
  ∃ s', ol_tx_get_desc_global_pool s = Some (d, s') ∧ touch s s' ∧
    core s' (set_aG G A) o h (d :: x) ∧ descs s' = descs s ∧ pools s' = pools s.
Proof.
  intros C Hg. pose proof (c_glob _ _ _ _ _ C) as Hl. rewrite Hg in Hl.
  destruct Hl as (Hfl & t & Ht & Hl). pose proof (core_lengths _ _ _ _ _ C) as Hlen.
  pose proof (c_num _ _ _ _ _ C) as Hn. rewrite Hg in Hlen, Hn. cbn in Hlen.
  unfold ol_tx_get_desc_global_pool. mstep. mrun (get_desc_run _ _ _ Ht). mstep.
  eexists. split; [done|]. split; [touched|]. split; [|done].
  assert (owned (set_aG G A) h (d :: x) ≡ₚ owned A h x) as Hperm.
  { unfold owned. cbn. rewrite Hg. solve_Permutation. }
  destruct (owned_perm _ _ _ _ _ _ C Hperm) as [Hnd Hdom].
  split; cbn -[size]; try done; try apply C.
  rewrite Hn. cbn [length]. rewrite wrap_small; lia.
Qed.

Lemma push_glob s A o h x d :
  core s A o h (d :: x) →
  ∃ s', ol_tx_put_desc_global_pool d s = Some (tt, s') ∧ touch s s' ∧
    core s' (set_aG (d :: aG A) A) o h x.
Proof.
  intros C. destruct (core_detached _ _ _ _ _ _ C) as (Hdg & _ & _ & _ & t & Ht).
  pose proof (core_lengths _ _ _ _ _ C) as Hlen. cbn in Hlen.
  unfold ol_tx_put_desc_global_pool. mstep. mrun (mod_desc_run _ _ (set_d_next (tx_freelist s)) _ Ht).
  mstep. eexists. split; [done|]. split; [touched|].
  assert (core (set_descs (<[d := set_d_next (tx_freelist s) t]> (descs s)) s) A o h (d :: x)) as C'
    by (eapply core_relink; [done|set_solver|exact Ht|done]).
  assert (owned (set_aG (d :: aG A) A) h x ≡ₚ owned A h (d :: x)) as Hperm.
  { unfold owned. cbn. solve_Permutation. }
  destruct (owned_perm _ _ _ _ _ _ C' Hperm) as [Hnd Hdom].
  split; cbn -[size Z.of_nat]; try done; try apply C'.
  - split; [done|]. rewrite lookup_insert_eq. eexists. split; [done|]. apply C'.
  - rewrite (c_num _ _ _ _ _ C). rewrite wrap_small; lia.
Qed.

(** [tx_desc->next = temp_list] *)
Lemma push_hand s A o h x d :
  core s A o h (d :: x) →
  ∃ s', mod_desc d (set_d_next o) s = Some (tt, s') ∧ touch s s' ∧ core s' A (Some d) (d :: h) x.
Proof.
  intros C. destruct (core_detached _ _ _ _ _ _ C) as (_ & _ & _ & Hdh & t & Ht).
  rewrite (mod_desc_run _ _ _ _ Ht). eexists. split; [done|]. split; [touched|].
  assert (core (set_descs (<[d := set_d_next o t]> (descs s)) s) A o h (d :: x)) as C'
    by (eapply core_relink; [done|set_solver|exact Ht|done]).
  assert (owned A (d :: h) x ≡ₚ owned A h (d :: x)) as Hperm by (unfold owned; solve_Permutation).
  destruct (owned_perm _ _ _ _ _ _ C' Hperm) as [Hnd Hdom].
  split; cbn -[size]; try done; try apply C'.
  split; [done|]. rewrite lookup_insert_eq. eexists. split; [done|]. apply C'.
Qed.

(** [temp_list = temp_list->next] *)
Lemma pop_hand s A o h x d :
  core s A o (d :: h) x → o = Some d ∧
  ∃ t, descs s !! d = Some t ∧ core s A (d_next t) h (d :: x).
Proof.
  intros C. destruct (c_hand _ _ _ _ _ C) as (Ho & t & Ht & Hl). split; [done|].
  exists t. split; [done|].
  assert (owned A h (d :: x) ≡ₚ owned A (d :: h) x) as Hperm by (unfold owned; solve_Permutation).
  destruct (owned_perm _ _ _ _ _ _ C Hperm) as [Hnd Hdom]. split; try done; apply C.
Qed.

Lemma fly_out s A o h x d p t f1 f2 :
  core s A o h (d :: x) → aFly A = f1 ++ f2 → descs s !! d = Some t → d_pool t = Some p →
  core s (set_aFly (f1 ++ (d, p) :: f2) A) o h x.
Proof.
  intros C Hf Ht Htp.
  assert (owned (set_aFly (f1 ++ (d, p) :: f2) A) h x ≡ₚ owned A h (d :: x)) as Hperm.
  { unfold owned. cbn. rewrite Hf, !fmap_app. cbn. solve_Permutation. }
  destruct (owned_perm _ _ _ _ _ _ C Hperm) as [Hnd Hdom]. split; try done; try apply C.
  cbn. pose proof (c_fly _ _ _ _ _ C) as Hfl. rewrite Hf in Hfl.
  apply Forall_app in Hfl as [? ?]. apply Forall_app. split; [done|]. constructor; [by exists t|done].
Qed.

Lemma fly_in s A o h x d p f1 f2 :
  core s A o h x → aFly A = f1 ++ (d, p) :: f2 →
  core s (set_aFly (f1 ++ f2) A) o h (d :: x) ∧ ∃ t, descs s !! d = Some t ∧ d_pool t = Some p.
Proof.
  intros C Hf. pose proof (c_fly _ _ _ _ _ C) as Hfl. rewrite Hf in Hfl.
  apply Forall_app in Hfl as [? [Hd ?]%Forall_cons]. split; [|done].
  assert (owned (set_aFly (f1 ++ f2) A) h (d :: x) ≡ₚ owned A h x) as Hperm.
  { unfold owned. cbn. rewrite Hf, !fmap_app. cbn. solve_Permutation. }
  destruct (owned_perm _ _ _ _ _ _ C Hperm) as [Hnd Hdom]. split; try done; try apply C.
  cbn. by apply Forall_app.
Qed.
