(* ===== verification/TxPoolOps.v ===== *)
(** Transmit descriptor pools: the loops that move descriptors, and creating
    and deleting a pool, as operations on the abstract state of
    [TxPoolRep.v]. *)
From S2P Require Import Prelude Tailq TxPool TxPoolRep.

(** * Pools as wholes *)

Lemma core_ext s s' A o h x :
  core s A o h x → descs s' = descs s → pools s' = pools s → tx_freelist s' = tx_freelist s →
  num_free s' = num_free s → tso_segs s' = tso_segs s → core s' A o h x.
Proof.
  intros [] Hd Hp Hf Hn Hg. split; rewrite ?Hd, ?Hp, ?Hf, ?Hn, ?Hg; done.
Qed.

Lemma core_pools_at s A o h x p a fp :
  core s A o h x → pool_rel (descs s) p fp a → (∀ q, q ≠ p → True) →
  ∀ q, option_Forall2 (pool_rel (descs s) q) (<[p := fp]> (pools s) !! q) (<[p := a]> (aP A) !! q).
Proof.
  intros C Hr _ q. destruct (decide (p = q)) as [->|Hq].
  - rewrite !lookup_insert_eq. by constructor.
  - rewrite !lookup_insert_ne by done. apply C.
Qed.

(** Writing a pool's other members. *)
Lemma core_set_pool s A o h x p a a' o1 :
  core s A o h x → aP A !! p = Some a → a_free a' = a_free a → pools s !! p = Some (conc a o1) →
  core (set_pools (<[p := conc a' o1]> (pools s)) s) (set_aP (<[p := a']> (aP A)) A) o h x.
Proof.
  intros C Hp Hf Hfp. destruct (core_pool _ _ _ _ _ _ _ C Hp) as (fp & Hfp' & o' & -> & Hl & Hown).
  rewrite Hfp in Hfp'. injection Hfp' as ->.
  assert (owned (set_aP (<[p := a']> (aP A)) A) h x ≡ₚ owned A h x) as Hperm.
  { unfold owned. cbn. by rewrite frees_insert, (frees_lookup _ _ _ Hp), Hf. }
  destruct (owned_perm _ _ _ _ _ _ C Hperm) as [Hnd Hdom].
  split; cbn -[size]; try done; try apply C.
  eapply core_pools_at; [done| |done]. exists o'. by rewrite Hf.
Qed.

(** A new pool, with no descriptor yet. *)
Lemma core_new_pool s A o h x p a :
  core s A o h x → aP A !! p = None → a_free a = [] →
  core (set_pools (<[p := conc a None]> (pools s)) s) (set_aP (<[p := a]> (aP A)) A) o h x.
Proof.
  intros C Hp Hf.
  assert (owned (set_aP (<[p := a]> (aP A)) A) h x ≡ₚ owned A h x) as Hperm.
  { unfold owned. cbn. by rewrite frees_insert, Hf, delete_id. }
  destruct (owned_perm _ _ _ _ _ _ C Hperm) as [Hnd Hdom].
  split; cbn -[size]; try done; try apply C.
  eapply core_pools_at; [done| |done]. exists None. by rewrite Hf.
Qed.

(** An empty pool is freed. *)
Lemma core_del_pool s A o h x p a :
  core s A o h x → aP A !! p = Some a → a_free a = [] →
  core (set_pools (delete p (pools s)) s) (set_aP (delete p (aP A)) A) o h x.
Proof.
  intros C Hp Hf.
  assert (owned (set_aP (delete p (aP A)) A) h x ≡ₚ owned A h x) as Hperm.
  { unfold owned. cbn. by rewrite (frees_lookup _ _ _ Hp), Hf. }
  destruct (owned_perm _ _ _ _ _ _ C Hperm) as [Hnd Hdom].
  split; cbn -[size]; try done; try apply C.
  intros q. destruct (decide (p = q)) as [->|Hq].
  - rewrite !lookup_delete_eq. constructor.
  - rewrite !lookup_delete_ne by done. apply C.
Qed.

(** The held list becomes the free list of an empty pool. *)
Lemma core_hand_to_pool s A o h p a :
  core s A o h [] → aP A !! p = Some a → a_free a = [] →
  Forall (λ d, ∃ t, descs s !! d = Some t ∧ d_pool t = Some p) h →
  core (set_pools (<[p := conc (set_a_free h a) o]> (pools s)) s) (with_free p a h A) None [] [].
Proof.
  intros C Hp Hf Hown.
  assert (owned (with_free p a h A) [] [] ≡ₚ owned A h []) as Hperm.
  { unfold owned, with_free. cbn. rewrite frees_insert, (frees_lookup _ _ _ Hp), Hf. cbn.
    solve_Permutation. }
  destruct (owned_perm _ _ _ _ _ _ C Hperm) as [Hnd Hdom].
  split; cbn -[size]; try done; try apply C.
  eapply core_pools_at; [done| |done]. exists o. split; [done|]. split; [apply C|done].
Qed.

(** The free list of a pool becomes the held list. *)
Lemma core_pool_to_hand s A p a o1 :
  core s A None [] [] → aP A !! p = Some a → pools s !! p = Some (conc a o1) →
  core (set_pools (<[p := conc (set_a_free [] a) None]> (pools s)) s) (with_free p a [] A) o1 (a_free a) [].
Proof.
  intros C Hp Hfp. destruct (core_pool _ _ _ _ _ _ _ C Hp) as (fp & Hfp' & o' & -> & Hl & Hown).
  rewrite Hfp in Hfp'. injection Hfp' as ->.
  assert (owned (with_free p a [] A) (a_free a) [] ≡ₚ owned A [] []) as Hperm.
  { unfold owned, with_free. cbn. rewrite frees_insert, (frees_lookup _ _ _ Hp). cbn.
    solve_Permutation. }
  destruct (owned_perm _ _ _ _ _ _ C Hperm) as [Hnd Hdom].
  split; cbn -[size]; try done; try apply C.
  eapply core_pools_at; [done| |done]. by exists None.
Qed.

(** * Moving descriptors *)

Lemma with_free_twice p a l l' A : with_free p (set_a_free l a) l' (with_free p a l A) = with_free p a l' A.
Proof. unfold with_free, set_aP. cbn. by rewrite insert_insert_eq. Qed.

Lemma take_loop_run n src s A o h a :
  core s A o h [] → aP A !! src = Some a → (n ≤ length (a_free a))%nat →
  ∃ o' s', take_loop n src o s = Some (o', s') ∧ touch s s' ∧
    core s' (with_free src a (drop n (a_free a)) A) o' (rev (take n (a_free a)) ++ h) [].
Proof.
  revert s A o h a. induction n as [|n IH]; intros s A o h a C Ha Hn.
  - exists o, s. split; [done|]. split; [apply touch_refl|]. cbn.
    unfold with_free. rewrite insert_id; [by destruct A|]. rewrite Ha. by destruct a.
  - destruct (a_free a) as [|d l] eqn:Hf; [cbn in Hn; lia|]. cbn [take_loop].
    destruct (pop_pool _ _ _ _ _ _ _ _ _ C Ha Hf) as (s1 & Hr1 & T1 & C1 & _). mrun Hr1.
    destruct (push_hand _ _ _ _ _ _ C1) as (s2 & Hr2 & T2 & C2). mrun Hr2.
    edestruct (IH _ _ _ _ (set_a_free l a) C2) as (o' & s3 & Hr3 & T3 & C3);
      [apply lookup_insert_eq|cbn in *; lia|].
    exists o', s3. split; [done|]. split; [by eapply touch_trans; [|eapply touch_trans]|].
    rewrite with_free_twice in C3. cbn in C3 |- *. rewrite <- (assoc_L (++)). exact C3.
Qed.

Definition give_to (dst : positive) (b : apool) (l : list positive) (A : atx) : atx :=
  set_aP (<[dst := set_a_def (a_def b - Z.of_nat (length l)) (set_a_free (l ++ a_free b) b)]> (aP A)) A.

Lemma give_to_cons dst b d l A :
  give_to dst (set_a_free (d :: a_free b) (set_a_def (a_def b - 1) b)) l
    (with_free dst (set_a_def (a_def b - 1) b) (d :: a_free b)
       (set_aP (<[dst := set_a_def (a_def b - 1) b]> (aP A)) A)) =
  give_to dst b (l ++ [d]) A.
Proof.
  unfold give_to, with_free, set_aP. cbn. rewrite !insert_insert_eq, length_app, <- (assoc_L (++)).
  cbn. do 2 f_equal. unfold set_a_def, set_a_free. cbn. f_equal. lia.
Qed.

Lemma give_loop_run n dst s A o h b count :
  core s A o h [] → aP A !! dst = Some b → (n ≤ length h)%nat → Z.of_nat n ≤ a_def b < 65536 →
  0 ≤ count → count + Z.of_nat n < 65536 →
  ∃ o' s', give_loop n dst o count s = Some ((o', count + Z.of_nat n), s') ∧ touch s s' ∧
    core s' (give_to dst b (rev (take n h)) A) o' (drop n h) [].
Proof.
  revert s A o h b count. induction n as [|n IH]; intros s A o h b count C Hb Hn Hdef Hc Hcn.
  - exists o, s. rewrite Z.add_0_r. split; [done|]. split; [apply touch_refl|].
    unfold give_to. cbn. rewrite Z.sub_0_r, insert_id; [by destruct A|]. rewrite Hb. by destruct b.
  - destruct h as [|d h]; [cbn in Hn; lia|]. cbn [give_loop].
    destruct (core_pool _ _ _ _ _ _ _ C Hb) as (fp & Hfp & o1 & -> & _).
    mrun (get_pool_run _ _ _ Hfp). cbn [deficient_desc conc].
    destruct (Z.eqb_spec (a_def b) 0); [lia|]. unfold put_pool at 1. mstep.
    rewrite (wrap_small 16 (a_def b - 1)) by lia. change (set_deficient_desc (a_def b - 1) (conc b o1))
      with (conc (set_a_def (a_def b - 1) b) o1).
    pose proof (core_set_pool _ _ _ _ _ _ _ (set_a_def (a_def b - 1) b) _ C Hb eq_refl Hfp) as C1.
    destruct (pop_hand _ _ _ _ _ _ C1) as (-> & t & Ht & C2). mstep. mrun (get_desc_run _ _ _ Ht).
    edestruct (push_pool _ _ _ _ _ dst (set_a_def (a_def b - 1) b) _ C2) as (s2 & Hr2 & T2 & C3);
      [apply lookup_insert_eq|]. mrun Hr2. rewrite wrap_small by lia.
    edestruct (IH _ _ _ _ (set_a_free (d :: a_free b) (set_a_def (a_def b - 1) b)) (count + 1) C3)
      as (o' & s3 & Hr3 & T3 & C4); [cbn; by rewrite lookup_insert_eq|cbn in *; lia..|].
    exists o', s3. split; [rewrite Hr3; do 3 f_equal; lia|].
    split; [eapply touch_trans; [apply touch_pools|]; by eapply touch_trans|].
    cbn [take rev drop]. rewrite <- give_to_cons. exact C4.
Qed.

(** What moving [n] descriptors from [src] to [dst] does. *)
Definition a_move (src dst : positive) (n : nat) (A : atx) : atx :=
  match aP A !! src with
  | None => A
  | Some a =>
      let A1 := with_free src a (drop n (a_free a)) A in
      match aP A1 !! dst with
      | None => A1
      | Some b => give_to dst b (take n (a_free a)) A1
      end
  end.

Lemma ol_tx_move_desc_n_run src dst n s A a b :
  core s A None [] [] → aP A !! src = Some a → aP A !! dst = Some b →
  0 ≤ n ≤ Z.of_nat (length (a_free a)) → n ≤ a_def b < 65536 →
  ∃ s', ol_tx_move_desc_n src dst n s = Some (n, s') ∧ touch s s' ∧
    core s' (a_move src dst (Z.to_nat n) A) None [] [].
Proof.
  intros C Ha Hb Hn Hdef. unfold ol_tx_move_desc_n.
  edestruct (take_loop_run (Z.to_nat n)) as (o1 & s1 & Hr1 & T1 & C1); [exact C|exact Ha|lia|].
  mrun Hr1. rewrite app_nil_r in C1.
  set (A1 := with_free src a (drop (Z.to_nat n) (a_free a)) A) in *.
  assert (∃ b1, aP A1 !! dst = Some b1 ∧ a_def b1 = a_def b) as (b1 & Hb1 & Hd1).
  { unfold A1. cbn. destruct (decide (src = dst)) as [<-|Hne].
    - rewrite lookup_insert_eq. eexists. split; [done|]. cbn. congruence.
    - rewrite lookup_insert_ne by done. by exists b. }
  pose proof (core_free_length _ _ _ _ _ _ _ C Ha) as Hlen.
  assert (length (rev (take (Z.to_nat n) (a_free a))) = Z.to_nat n) as Hlr
    by (rewrite length_rev, length_take; lia).
  edestruct (give_loop_run (Z.to_nat n) dst s1 A1 o1 _ b1 0 C1 Hb1) as (o2 & s2 & Hr2 & T2 & C2);
    [lia|lia|lia|lia|].
  mrun Hr2. rewrite take_ge, drop_ge, rev_involutive in C2 by lia.
  assert (o2 = None) as -> by apply (c_hand _ _ _ _ _ C2). mstep.
  assert (∀ k, give_back_loop k src None s2 = Some (tt, s2)) as Hgb by by intros [].
  mrun (Hgb (size (descs s2))).
  exists s2. rewrite Z2Nat.id by lia. split; [done|]. split; [by eapply touch_trans|].
  unfold a_move. rewrite Ha. fold A1. by rewrite Hb1.
Qed.

(** * Distributing a pool *)

Fixpoint a_distribute (l : list positive) (src : positive) (c : Z) (A : atx) : atx :=
  match l with
  | [] => A
  | dst :: l =>
      match aP A !! dst with
      | None => A
      | Some b =>
          let n := if a_def b =? 0 then 0 else if a_def b >? c then c else a_def b in
          let A' := a_move src dst (Z.to_nat n) A in
          if c - n =? 0 then A' else a_distribute l src (c - n) A'
      end
  end.

(** The other members of a pool *)
Definition same_members (a a' : apool) : Prop :=
  a_id a' = a_id a ∧ a_size a' = a_size a ∧ a_status a' = a_status a ∧ a_member a' = a_member a ∧
  a_stop a' = a_stop a ∧ a_start a' = a_start a.

(** What distributing [src] leaves alone: a pool that got descriptors lacks as
    many less. *)
Definition spread (src : positive) (A A' : atx) : Prop :=
  aG A' = aG A ∧ aFly A' = aFly A ∧
  ∀ q, option_Forall2 (λ a a', same_members a a' ∧ 0 ≤ a_def a' ≤ a_def a ∧
      (q ≠ src → Z.of_nat (length (a_free a')) + a_def a' = Z.of_nat (length (a_free a)) + a_def a))
    (aP A !! q) (aP A' !! q).

Definition defs_ok (A : atx) : Prop := ∀ p a, aP A !! p = Some a → 0 ≤ a_def a < 65536.

Lemma spread_refl src A : defs_ok A → spread src A A.
Proof.
  intros Hd. split_and!; [done..|]. intros q. destruct (aP A !! q) as [a|] eqn:E; constructor.
  specialize (Hd _ _ E). split; [by repeat split|]. split; [lia|done].
Qed.

Lemma spread_trans src A1 A2 A3 : spread src A1 A2 → spread src A2 A3 → spread src A1 A3.
Proof.
  intros (H1 & H2 & H3) (K1 & K2 & K3). split_and!; [congruence..|]. intros q.
  specialize (H3 q). specialize (K3 q).
  inversion H3 as [a a' (S1 & D1 & L1) E1 E2|E1 E2]; rewrite <- E2 in K3;
    inversion K3 as [b b' (S2 & D2 & L2) F1 F2|]; subst; constructor.
  split; [|split; [lia|intros Hq; rewrite L2, L1; done]].
  destruct S1 as (?&?&?&?&?&?), S2 as (?&?&?&?&?&?). repeat split; congruence.
Qed.

Lemma spread_defs src A A' : defs_ok A → spread src A A' → defs_ok A'.
Proof.
  intros Hd (_ & _ & H) p a' Ha'. specialize (H p). rewrite Ha' in H.
  inversion H as [a b (_ & Hle & _) E|]; subst. specialize (Hd p a). rewrite <- E in Hd.
  specialize (Hd eq_refl). lia.
Qed.

Lemma spread_dom src A A' q : spread src A A' → is_Some (aP A' !! q) ↔ is_Some (aP A !! q).
Proof. intros (_ & _ & H). specialize (H q). by inversion H. Qed.

Lemma a_move_lookup src dst n A a b :
  aP A !! src = Some a → aP A !! dst = Some b → (n ≤ length (a_free a))%nat →
  aG (a_move src dst n A) = aG A ∧ aFly (a_move src dst n A) = aFly A ∧
  (∀ q, q ≠ src → q ≠ dst → aP (a_move src dst n A) !! q = aP A !! q) ∧
  (src = dst → aP (a_move src dst n A) !! src = Some (set_a_def (a_def a - Z.of_nat n) a)) ∧
  (src ≠ dst → aP (a_move src dst n A) !! src = Some (set_a_free (drop n (a_free a)) a) ∧
    aP (a_move src dst n A) !! dst =
      Some (set_a_def (a_def b - Z.of_nat n) (set_a_free (take n (a_free a) ++ a_free b) b))).
Proof.
  intros Ha Hb Hn. unfold a_move. rewrite Ha. cbn.
  destruct (decide (src = dst)) as [<-|Hne].
  - rewrite lookup_insert_eq. cbn. split_and!; [done..| | |done].
    + intros q Hq _. by rewrite !lookup_insert_ne.
    + intros _. rewrite lookup_insert_eq, length_take_le by done.
      unfold set_a_def, set_a_free. cbn. by rewrite take_drop.
  - rewrite lookup_insert_ne, Hb by done. cbn. split_and!; [done..| |done|].
    + intros q Hq1 Hq2. by rewrite !lookup_insert_ne.
    + intros _. rewrite lookup_insert_ne, !lookup_insert_eq, length_take_le by done. done.
Qed.

Lemma a_move_zero src dst A a b :
  aP A !! src = Some a → aP A !! dst = Some b → a_move src dst 0 A = A.
Proof.
  intros Ha Hb. destruct (a_move_lookup src dst 0 A a b Ha Hb ltac:(lia)) as (HG & HF & Ho & Hs & Hne).
  assert (aP (a_move src dst 0 A) = aP A) as HP.
  { apply map_eq. intros q. destruct (decide (src = dst)) as [<-|Hsd].
    - destruct (decide (q = src)) as [->|Hq]; [|by apply Ho]. rewrite Hs, Ha by done.
      destruct a. unfold set_a_def. cbn. by rewrite Z.sub_0_r.
    - destruct (Hne Hsd) as [Hs1 Hd1]. destruct (decide (q = src)) as [->|Hq1]; [|
        destruct (decide (q = dst)) as [->|Hq2]; [|by apply Ho]].
      + rewrite Hs1, Ha. by destruct a.
      + rewrite Hd1, Hb. destruct b. unfold set_a_def, set_a_free. cbn. by rewrite Z.sub_0_r. }
  destruct (a_move src dst 0 A), A. cbn in *. congruence.
Qed.

Lemma a_move_spread src dst n A a b :
  defs_ok A → aP A !! src = Some a → aP A !! dst = Some b → (n ≤ length (a_free a))%nat →
  Z.of_nat n ≤ a_def b → spread src A (a_move src dst n A) ∧
  ∃ a', aP (a_move src dst n A) !! src = Some a' ∧ (length (a_free a) ≤ length (a_free a') + n)%nat.
Proof.
  intros Hd Ha Hb Hn Hdef.
  destruct (a_move_lookup _ _ _ _ _ _ Ha Hb Hn) as (HG & HF & Ho & Hs & Hne).
  pose proof (Hd _ _ Ha) as Hda. pose proof (Hd _ _ Hb) as Hdb. split.
  - split_and!; [done..|]. intros q. destruct (decide (src = dst)) as [<-|Hsd].
    + destruct (decide (q = src)) as [->|Hq]; [rewrite Hs, Ha by done|rewrite Ho by done].
      * constructor. replace b with a in * by congruence. split; [by repeat split|]. cbn. split; [lia|done].
      * by apply (proj2 (proj2 (spread_refl src A Hd))).
    + destruct (Hne Hsd) as [Hs1 Hd1]. destruct (decide (q = src)) as [->|Hq1].
      { rewrite Hs1, Ha. constructor. split; [by repeat split|]. cbn. split; [lia|done]. }
      destruct (decide (q = dst)) as [->|Hq2].
      * rewrite Hd1, Hb. constructor. split; [by repeat split|]. cbn. split; [lia|intros _].
        rewrite length_app, length_take_le by done. lia.
      * rewrite Ho by done. by apply (proj2 (proj2 (spread_refl src A Hd))).
  - destruct (decide (src = dst)) as [<-|Hsd].
    + rewrite Hs by done. eexists. split; [done|]. cbn. lia.
    + rewrite (proj1 (Hne Hsd)). eexists. split; [done|]. cbn. rewrite length_drop. lia.
Qed.

(** What a pool gets: what it lacks, or what is left. *)
Definition share (b : apool) (c : Z) : Z :=
  if a_def b =? 0 then 0 else if a_def b >? c then c else a_def b.

Lemma share_bounds b c : 0 ≤ c → 0 ≤ a_def b → 0 ≤ share b c ≤ c ∧ share b c ≤ a_def b.
Proof.
  intros Hc Hb. unfold share. destruct (Z.eqb_spec (a_def b) 0); [lia|].
  rewrite Z.gtb_ltb. destruct (Z.ltb_spec c (a_def b)); lia.
Qed.

Lemma a_distribute_spread l src c A a :
  defs_ok A → aP A !! src = Some a → 0 ≤ c ≤ Z.of_nat (length (a_free a)) →
  spread src A (a_distribute l src c A).
Proof.
  revert c A a. induction l as [|dst l IH]; intros c A a Hd Ha Hc; cbn [a_distribute]; [by apply spread_refl|].
  destruct (aP A !! dst) as [b|] eqn:Hb; [|by apply spread_refl]. fold (share b c).
  destruct (share_bounds b c ltac:(lia) ltac:(by apply (Hd dst))) as [Hn1 Hn2].
  destruct (a_move_spread src dst (Z.to_nat (share b c)) A a b Hd Ha Hb ltac:(lia) ltac:(lia)) as (Sp & a' & Ha' & Hla).
  destruct (Z.eqb_spec (c - share b c) 0); [done|]. eapply spread_trans; [exact Sp|].
  eapply IH; [by eapply spread_defs|exact Ha'|lia].
Qed.

Lemma distribute_loop_run l src c s A a :
  core s A None [] [] → defs_ok A → aP A !! src = Some a → 0 ≤ c ≤ Z.of_nat (length (a_free a)) →
  (∀ q, q ∈ l → is_Some (aP A !! q)) →
  ∃ s', distribute_loop l src c s = Some (tt, s') ∧ touch s s' ∧
    core s' (a_distribute l src c A) None [] [].
Proof.
  revert c s A a. induction l as [|dst l IH]; intros c s A a C Hd Ha Hc Hl.
  - exists s. split; [done|]. by split; [apply touch_refl|].
  - destruct (Hl dst ltac:(set_solver)) as [b Hb]. cbn [distribute_loop a_distribute]. rewrite Hb.
    destruct (core_pool _ _ _ _ _ _ _ C Hb) as (fp & Hfp & o1 & -> & _).
    mrun (get_pool_run _ _ _ Hfp). cbn [deficient_desc conc].
    pose proof (Hd _ _ Hb) as Hdb. pose proof (core_free_length _ _ _ _ _ _ _ C Ha) as Hlen.
    fold (share b c). set (n := share b c). destruct (share_bounds b c ltac:(lia) ltac:(lia)) as [Hn1 Hn2]. fold n in Hn1, Hn2.
    destruct (ol_tx_move_desc_n_run src dst n s A a b C Ha Hb ltac:(lia) ltac:(lia)) as (s1 & Hr1 & T1 & C1).
    destruct (a_move_spread src dst (Z.to_nat n) A a b Hd Ha Hb ltac:(lia) ltac:(lia)) as (Sp & a' & Ha' & Hla).
    assert (∃ s1', (if a_def b =? 0 then mret c
      else moved ← ol_tx_move_desc_n src dst (if a_def b >? c then c else a_def b); mret (u16 (c - u16 moved))) s
      = Some (c - n, s1') ∧ touch s s1' ∧ core s1' (a_move src dst (Z.to_nat n) A) None [] []) as (s1' & Hr & T & C').
    { unfold n, share in *. destruct (Z.eqb_spec (a_def b) 0).
      - exists s. rewrite Z.sub_0_r. split; [done|]. split; [apply touch_refl|].
        change (Z.to_nat 0) with O in *. by rewrite (a_move_zero _ _ _ a b).
      - mrun Hr1. exists s1. split; [|done]. cbv [mret CM_ret]. rewrite !wrap_small; [done|lia|].
        rewrite wrap_small; lia. }
    mrun Hr. destruct (Z.eqb_spec (c - n) 0).
    + exists s1'. by split_and!.
    + edestruct (IH (c - n)) as (s2 & Hr2 & T2 & C2); [exact C'|by eapply spread_defs|exact Ha'|lia| |].
      { intros q Hq. apply (spread_dom _ _ _ _ Sp), Hl. set_solver. }
      exists s2. split; [done|]. by split; [eapply touch_trans|].
Qed.
