(* ===== verification/TxPoolLife.v ===== *)
(** Transmit descriptor pools: creation and deletion of a pool, and the
    release of an invalid one. *)
From S2P Require Import Prelude Tailq TxPool TxPoolRep TxPoolOps.

(** * The list of pools *)

(** [flow_pool_list] holds the pools, in the order [ord]. *)
Definition listed (s : tx_state) (A : atx) (ord : list positive) : Prop :=
  rep (flow_pool_list s) ord ∧ ∀ p, p ∈ ord ↔ is_Some (aP A !! p).

Lemma rep_frame_entries q ord es :
  rep q ord → (∀ x, x ∈ ord → es !! x = entries q !! x) → rep (set_entries es q) ord.
Proof. intros [Hnd Hs] Hes. split; [done|]. cbn. by eapply seg_frame. Qed.

Lemma pool_list_zoom {A} (m : CM (tailq positive) A) s a q :
  m (flow_pool_list s) = Some (a, q) → on_pool_list m s = Some (a, set_flow_pool_list q s).
Proof. intros H. unfold on_pool_list, zoom. by rewrite H. Qed.

Lemma listed_insert A p a ord :
  (∀ q, q ∈ ord ↔ is_Some (aP A !! q)) →
  ∀ q, q ∈ ord ++ [p] ↔ is_Some (<[p := a]> (aP A) !! q).
Proof.
  intros Hord q. rewrite elem_of_app, list_elem_of_singleton, Hord. destruct (decide (p = q)) as [->|Hq].
  - rewrite lookup_insert_eq. naive_solver.
  - rewrite lookup_insert_ne by done. naive_solver.
Qed.

Lemma listed_delete A p o1 o2 :
  NoDup (o1 ++ p :: o2) → (∀ q, q ∈ o1 ++ p :: o2 ↔ is_Some (aP A !! q)) →
  ∀ q, q ∈ o1 ++ o2 ↔ is_Some (delete p (aP A) !! q).
Proof.
  intros Hnd Hord q. rewrite <- Permutation_middle in Hnd. apply NoDup_cons in Hnd as [Hp _].
  destruct (decide (p = q)) as [<-|Hq].
  - rewrite lookup_delete_eq. split; [done|by intros []].
  - rewrite lookup_delete_ne, <- Hord by done. set_solver.
Qed.

Lemma listed_requeue A p a o1 o2 :
  (∀ q, q ∈ o1 ++ p :: o2 ↔ is_Some (aP A !! q)) →
  ∀ q, q ∈ (o1 ++ o2) ++ [p] ↔ is_Some (<[p := a]> (aP A) !! q).
Proof.
  intros Hord q. assert (q ∈ (o1 ++ o2) ++ [p] ↔ q ∈ o1 ++ p :: o2) as -> by set_solver.
  destruct (decide (p = q)) as [->|Hq].
  - rewrite lookup_insert_eq. split; [by eexists|]. set_solver.
  - by rewrite lookup_insert_ne.
Qed.

(** The members that creating, deleting and moving leave alone *)
Definition keeps (s s' : tx_state) : Prop :=
  vdev_list s' = vdev_list s ∧ vdevs s' = vdevs s ∧ mgmt_pool s' = mgmt_pool s ∧
  tso_freelist s' = tso_freelist s ∧ tso_num_free s' = tso_num_free s ∧ tso_segs s' = tso_segs s ∧
  is_mgmt_over_wmi_enabled s' = is_mgmt_over_wmi_enabled s ∧ num_msdu_desc s' = num_msdu_desc s ∧
  tx_flow_stop_queue_th s' = tx_flow_stop_queue_th s ∧
  tx_flow_start_queue_offset s' = tx_flow_start_queue_offset s ∧ stats s' = stats s.

Lemma keeps_refl s : keeps s s.
Proof. by repeat split. Qed.
Lemma keeps_trans s1 s2 s3 : keeps s1 s2 → keeps s2 s3 → keeps s1 s3.
Proof. unfold keeps. intros H K. destruct_and!. split_and!; congruence. Qed.
Lemma touch_keeps s s' : touch s s' → keeps s s'.
Proof. intros (? & ? & ? & ? & ->). by repeat split. Qed.
Lemma touch_list s s' : touch s s' → flow_pool_list s' = flow_pool_list s ∧
  num_invalid_bin s' = num_invalid_bin s ∧ tx_events s' = tx_events s.
Proof. by intros (? & ? & ? & ? & ->). Qed.

(** * Between the global pool and a held list *)

Lemma put_global_loop_run h s A o :
  core s A o h [] →
  ∃ s', put_global_loop (length h) o s = Some (tt, s') ∧ touch s s' ∧
    core s' (set_aG (rev h ++ aG A) A) None [] [].
Proof.
  revert s A o. induction h as [|d h IH]; intros s A o C.
  - exists s. split; [done|]. split; [apply touch_refl|]. pose proof (c_hand _ _ _ _ _ C) as Ho.
    cbn in Ho. subst o. by destruct A.
  - destruct (pop_hand _ _ _ _ _ _ C) as (-> & t & Ht & C1). cbn [length put_global_loop]. mstep.
    mrun (get_desc_run _ _ _ Ht). destruct (push_glob _ _ _ _ _ _ C1) as (s1 & Hr1 & T1 & C2).
    mrun Hr1. destruct (IH _ _ _ C2) as (s2 & Hr2 & T2 & C3). exists s2. split; [done|].
    split; [by eapply touch_trans|]. cbn [rev]. rewrite <- (assoc_L (++)). exact C3.
Qed.

Definition for_pool (s : tx_state) (p d : positive) : Prop :=
  ∃ t, descs s !! d = Some t ∧ d_pool t = Some p.

Lemma take_global_loop_run n s A o h p :
  core s A o h [] → (n ≤ length (aG A))%nat → Forall (for_pool s p) h →
  ∃ o' s', take_global_loop n p o s = Some (o', s') ∧ touch s s' ∧ pools s' = pools s ∧
    core s' (set_aG (drop n (aG A)) A) o' (rev (take n (aG A)) ++ h) [] ∧
    Forall (for_pool s' p) (rev (take n (aG A)) ++ h).
Proof.
  revert s A o h. induction n as [|n IH]; intros s A o h C Hn Hh.
  - exists o, s. split; [done|]. split; [apply touch_refl|]. split; [done|]. cbn. split; [by destruct A|done].
  - destruct (aG A) as [|d G] eqn:HG; [cbn in Hn; lia|]. cbn [take_global_loop].
    destruct (pop_glob _ _ _ _ _ _ _ C HG) as (s1 & Hr1 & T1 & C1 & Hd1 & Hp1). mrun Hr1.
    destruct (core_detached _ _ _ _ _ _ C1) as (_ & _ & _ & Hdh & t & Ht).
    mrun (mod_desc_run _ _ (set_d_pool (Some p)) _ Ht).
    set (s2 := set_descs _ s1).
    assert (core s2 (set_aG G A) o h [d]) as C2 by (eapply core_relink; [done|set_solver|exact Ht|done]).
    assert (descs s2 !! d = Some (set_d_pool (Some p) t)) as Ht2 by apply lookup_insert_eq.
    destruct (push_hand _ _ _ _ _ _ C2) as (s3 & Hr3 & T3 & C3). mrun Hr3.
    rewrite (mod_desc_run _ _ _ _ Ht2) in Hr3. injection Hr3 as Hs3.
    edestruct (IH s3) as (o' & s4 & Hr4 & T4 & P4 & C4 & F4); [exact C3|cbn in *; lia| |].
    { subst s3 s2. constructor; [eexists; cbn; by rewrite lookup_insert_eq|].
      rewrite Forall_forall in Hh |- *. intros e He. destruct (Hh e He) as (u & Hu & Hup). exists u. cbn.
      rewrite !lookup_insert_ne by (intros ->; done). by rewrite Hd1. }
    exists o', s4. split; [done|]. split; [|split; [rewrite P4; by subst s3 s2|]].
    + eapply touch_trans; [exact T1|]. eapply touch_trans; [apply touch_descs|].
      by eapply touch_trans.
    + cbn in *. rewrite <- (assoc_L (++)). done.
Qed.

(** * Creating a pool *)

Definition stop_of (s : tx_state) (size : Z) : Z := u16 (u32 (u32 (tx_flow_stop_queue_th s) * size) `div` 100).
Definition start_of (s : tx_state) (size : Z) : Z :=
  u16 (u32 (u32 (u32 (tx_flow_stop_queue_th s) + tx_flow_start_queue_offset s) * size) `div` 100).

(** The pool a creation makes: the first descriptors of the global pool, all
    it asks for if there are enough. *)
Definition a_new (s : tx_state) (id size : Z) (G : list positive) : apool :=
  let n := Z.min size (Z.of_nat (length G)) in
  mk_apool id size (rev (take (Z.to_nat n) G)) (size - n) FLOW_POOL_ACTIVE_UNPAUSED 0
    (stop_of s size) (start_of s size).

Definition a_create (s : tx_state) (p : positive) (id size : Z) (A : atx) : atx :=
  let n := Z.min size (Z.of_nat (length (aG A))) in
  set_aP (<[p := a_new s id size (aG A)]> (aP A)) (set_aG (drop (Z.to_nat n) (aG A)) A).

Lemma malloc_pool_run p s :
  malloc_pool p s = Some (tt, set_flow_pool_list
    (set_entries (<[p := mk_entry None None]> (entries (flow_pool_list s))) (flow_pool_list s))
    (set_pools (<[p := zeroed_pool]> (pools s)) s)).
Proof. done. Qed.

Lemma on_pool_list_run {A B} (m : CM (tailq positive) A) (k : A → TX B) s a q :
  m (flow_pool_list s) = Some (a, q) → (x ← on_pool_list m; k x) s = k a (set_flow_pool_list q s).
Proof. intros H. by rewrite (run_bind _ _ _ _ _ (pool_list_zoom _ _ _ _ H)). Qed.

Lemma ol_tx_create_flow_pool_run p id size s A ord :
  core s A None [] [] → listed s A ord → aP A !! p = None → 0 ≤ size < 65536 →
  ∃ s', ol_tx_create_flow_pool (Some p) id size s = Some (Some p, s') ∧ keeps s s' ∧
    num_invalid_bin s' = num_invalid_bin s ∧ tx_events s' = tx_events s ∧
    core s' (a_create s p id size A) None [] [] ∧ listed s' (a_create s p id size A) (ord ++ [p]).
Proof.
  intros C [Hrep Hord] Hp Hsz. unfold ol_tx_create_flow_pool. mstep.
  rewrite (run_bind _ _ _ _ _ (malloc_pool_run _ _)).
  do 5 (erewrite run_bind by (apply mod_pool_run; cbn; apply lookup_insert_eq)). mstep. cbn [num_free set_pools set_flow_pool_list].
  set (a0 := mk_apool id size [] 0 FLOW_POOL_ACTIVE_UNPAUSED 0 (stop_of s size) (start_of s size)).
  match goal with |- context [mbind _ _ ?s1] => set (s5 := s1) end.
  assert (core s5 (set_aP (<[p := a0]> (aP A)) A) None [] []) as C5.
  { eapply core_ext; [apply (core_new_pool _ _ _ _ _ p a0 C Hp eq_refl)|done| |done..].
    cbn. by rewrite !insert_insert_eq. }
  pose proof (c_num _ _ _ _ _ C) as Hnum. rewrite Hnum.
  set (n := Z.min size (Z.of_nat (length (aG A)))).
  assert ((if Z.of_nat (length (aG A)) >=? size then size else Z.of_nat (length (aG A))) = n) as ->.
  { unfold n. rewrite Z.geb_leb. destruct (Z.leb_spec size (Z.of_nat (length (aG A)))); lia. }
  destruct (take_global_loop_run (Z.to_nat n) s5 _ None [] p C5) as (o' & s6 & Hr6 & T6 & P6 & C6 & F6);
    [cbn; unfold n; lia|constructor|]. rewrite app_nil_r in C6, F6. cbn [aG set_aP] in C6, F6.
  mrun Hr6. assert (pools s6 !! p = Some (conc a0 None)) as Hp6
    by (rewrite P6; cbn; by rewrite lookup_insert_eq).
  mrun (mod_pool_run _ _ (set_freelist o') _ Hp6).
  do 2 (erewrite run_bind by (apply mod_pool_run; cbn; apply lookup_insert_eq)).
  destruct (touch_list _ _ T6) as (Hl6 & Hi6 & He6).
  assert (p ∉ ord) as Hpo by (rewrite Hord, Hp; by intros [? ?]).
  destruct (TAILQ_INSERT_TAIL_ok (flow_pool_list s6) ord p) as (q' & Hq & Hrep' & _); [| done | |].
  { rewrite Hl6. apply (rep_frame_entries _ _ _ Hrep). intros x Hx. apply lookup_insert_ne. set_solver. }
  { rewrite Hl6. cbn. rewrite lookup_insert_eq. by eexists. }
  erewrite on_pool_list_run by (cbn; exact Hq). eexists. split; [done|].
  split; [|split_and!; [done..| |split; [done|]]].
  - apply (keeps_trans _ s6); [|by repeat split]. apply (keeps_trans _ s5); [by repeat split|by apply touch_keeps].
  - eapply (core_ext (set_pools (<[p := conc (a_new s id size (aG A)) o']> (pools s6)) s6)); try done.
    + pose proof (core_hand_to_pool _ _ _ _ _ a0 C6 (lookup_insert_eq _ _ _) eq_refl F6) as C7.
      pose proof (core_set_pool _ _ _ _ _ p _ (a_new s id size (aG A)) o' C7 (lookup_insert_eq _ _ _)
        eq_refl (lookup_insert_eq _ _ _)) as C8.
      unfold a_create, with_free, set_aP in *. cbn in C8 |- *. rewrite !insert_insert_eq in C8. exact C8.
    + cbn. rewrite !insert_insert_eq. do 2 f_equal. unfold conc, a_new, set_freelist, set_avail_desc, set_deficient_desc.
      cbn. rewrite length_rev, length_take. f_equal; [unfold n; lia|apply wrap_small; unfold n; lia].
  - by apply listed_insert.
Qed.

(** * Deleting a pool *)

(** Whether [ol_tx_delete_flow_pool] frees the pool. *)
Definition frees_pool (a : apool) (force : bool) : bool :=
  (Z.of_nat (length (a_free a)) =? a_size a) || force.

(** The pool that a deletion leaves behind while descriptors are missing *)
Definition invalidated (a : apool) : apool :=
  mk_apool INVALID_FLOW_ID (a_size a - Z.of_nat (length (a_free a))) [] (a_def a) FLOW_POOL_INVALID
    (a_member a) (a_stop a) (a_start a).

Definition a_delete (p : positive) (a : apool) (force : bool) (A : atx) : atx :=
  mk_atx (rev (a_free a) ++ aG A)
    (if frees_pool a force then delete p (aP A) else <[p := invalidated a]> (aP A)) (aFly A).

Definition delete_events (bin : Z) (gone : bool) (evs : list tx_event) : list tx_event :=
  if gone then evs else if bin >? MAX_INVALID_BIN then EvAssertFailed :: evs else evs.

(** The pool's memory is gone, or the pool is invalid and last in the list. *)
Lemma dispose_run (gone : bool) p a s A o1 o2 bin o h :
  core s A o h [] → aP A !! p = Some a → a_free a = [] → pools s !! p = Some (conc a None) →
  rep (flow_pool_list s) (o1 ++ o2) → p ∉ o1 ++ o2 → is_Some (entries (flow_pool_list s) !! p) →
  0 ≤ bin ≤ a_size a ∧ a_size a < 65536 →
  let a' := mk_apool INVALID_FLOW_ID (a_size a - bin) [] (a_def a) (a_status a) (a_member a)
    (a_stop a) (a_start a) in
  ∃ s', (if gone then free_pool p
       else
         mod_pool p (λ fp, set_flow_pool_size (u16 (flow_pool_size fp - bin)) fp);;
         mod_pool p (set_flow_pool_id INVALID_FLOW_ID);;
         modify (λ s, set_num_invalid_bin (u8 (num_invalid_bin s + 1)) s);;
         bin ← gets num_invalid_bin;
         when (bin >? MAX_INVALID_BIN) (tx_emit EvAssertFailed);;
         on_pool_list (TAILQ_INSERT_TAIL p)) s = Some (tt, s') ∧ keeps s s' ∧
    num_invalid_bin s' = (if gone then num_invalid_bin s else u8 (num_invalid_bin s + 1)) ∧
    tx_events s' = delete_events (u8 (num_invalid_bin s + 1)) gone (tx_events s) ∧
    core s' (set_aP (if gone then delete p (aP A) else <[p := a']> (aP A)) A) o h [] ∧
    rep (flow_pool_list s') (if gone then o1 ++ o2 else (o1 ++ o2) ++ [p]).
Proof.
  intros C Hp Hf Hfp Hrep Hpo He Hsz a'. destruct gone.
  - unfold free_pool. mrun (get_pool_run _ _ _ Hfp). mstep. unfold on_pool_list, zoom, modify.
    eexists. split; [done|]. split; [by repeat split|]. split_and!; [done..| |].
    + eapply core_ext; [by eapply core_del_pool|done..].
    + apply (rep_frame_entries _ _ _ Hrep). intros x Hx. apply lookup_delete_ne. set_solver.
  - mrun (mod_pool_run _ _ (λ fp, set_flow_pool_size (u16 (flow_pool_size fp - bin)) fp) _ Hfp).
    erewrite run_bind by (apply mod_pool_run; cbn; apply lookup_insert_eq). mstep.
    destruct (TAILQ_INSERT_TAIL_ok _ _ p Hrep Hpo He) as (q' & Hq & Hrep' & _).
    assert (∀ s1, flow_pool_list s1 = flow_pool_list s →
      on_pool_list (TAILQ_INSERT_TAIL p) s1 = Some (tt, set_flow_pool_list q' s1)) as Hins
      by (intros s1 Hs1; apply pool_list_zoom; by rewrite Hs1).
    assert (core (set_pools (<[p := conc a' None]> (pools s)) s) (set_aP (<[p := a']> (aP A)) A) o h []) as C'
      by (by eapply core_set_pool).
    assert (set_flow_pool_id INVALID_FLOW_ID (set_flow_pool_size (u16 (a_size a - bin)) (conc a None)) = conc a' None) as ->.
    { unfold conc, set_flow_pool_id, set_flow_pool_size. cbn. rewrite Hf, wrap_small by lia. done. }
    unfold delete_events. destruct (_ >? _); cbn [when]; mnext; rewrite Hins by done; (eexists; split; [done|]);
      (split; [by repeat split|]); (split_and!; [done..| |exact Hrep']);
      (eapply core_ext; [exact C'|done| |done..]); cbn; rewrite insert_insert_eq; by f_equal.
Qed.

Lemma ol_tx_delete_flow_pool_run p force s A a o1 o2 :
  core s A None [] [] → listed s A (o1 ++ p :: o2) → aP A !! p = Some a →
  Z.of_nat (length (a_free a)) ≤ a_size a ∧ a_size a < 65536 →
  ∃ s', ol_tx_delete_flow_pool (Some p) force s = Some (0, s') ∧ keeps s s' ∧
    num_invalid_bin s' = (if frees_pool a force then num_invalid_bin s else u8 (num_invalid_bin s + 1)) ∧
    tx_events s' = delete_events (u8 (num_invalid_bin s + 1)) (frees_pool a force) (tx_events s) ∧
    core s' (a_delete p a force A) None [] [] ∧
    listed s' (a_delete p a force A) (if frees_pool a force then o1 ++ o2 else (o1 ++ o2) ++ [p]).
Proof.
  intros C [Hrep Hord] Hp Hsz. unfold ol_tx_delete_flow_pool.
  destruct (TAILQ_REMOVE_ok _ _ _ _ Hrep) as (q1 & Hq1 & Hrep1 & _ & Hent).
  erewrite on_pool_list_run by exact Hq1. set (s1 := set_flow_pool_list q1 s).
  assert (core s1 A None [] []) as C1 by (eapply core_ext; done).
  destruct (core_pool _ _ _ _ _ _ _ C1 Hp) as (fp & Hfp & fl & -> & _).
  mrun (get_pool_run _ _ _ Hfp). cbn [avail_desc flow_pool_size freelist conc].
  fold (frees_pool a force). set (gone := frees_pool a force).
  set (st := if gone then FLOW_POOL_INACTIVE else FLOW_POOL_INVALID).
  mrun (mod_pool_run _ _ (set_status st) _ Hfp).
  do 2 (erewrite run_bind by (apply mod_pool_run; cbn; apply lookup_insert_eq)).
  pose proof (core_set_pool _ _ _ _ _ _ _ (set_a_status st a) fl C1 Hp eq_refl Hfp) as C2.
  pose proof (core_pool_to_hand _ _ _ _ _ C2 (lookup_insert_eq _ _ _) (lookup_insert_eq _ _ _)) as C3.
  unfold with_free, set_aP in C3. cbn [aP aG aFly a_free set_a_status] in C3. rewrite insert_insert_eq in C3.
  match goal with |- context [mbind _ _ ?s2] => set (s3 := s2) end.
  eapply (core_ext _ s3) in C3; [|done| |done..]; [|cbn; by rewrite !insert_insert_eq].
  assert (NoDup (o1 ++ p :: o2)) as Hnd by apply Hrep.
  assert (p ∉ o1 ++ o2) as Hpo by (rewrite <- Permutation_middle in Hnd; by apply NoDup_cons in Hnd as []).
  assert (pools s3 !! p = Some (conc (set_a_free [] (set_a_status st a)) None)) as Hp3
    by (cbn; by rewrite lookup_insert_eq).
  destruct (dispose_run gone p _ s3 _ o1 o2 (Z.of_nat (length (a_free a))) _ _ C3 (lookup_insert_eq _ _ _) eq_refl Hp3 Hrep1 Hpo)
    as (s4 & Hr4 & K4 & B4 & E4 & C4 & L4); [by eexists|cbn; lia|].
  mrun Hr4. destruct (put_global_loop_run _ _ _ _ C4) as (s5 & Hr5 & T5 & C5). rewrite Nat2Z.id. mrun Hr5.
  destruct (touch_list _ _ T5) as (Hl5 & Hi5 & He5). exists s5. split; [done|].
  split; [apply (keeps_trans _ s3); [by repeat split|]; apply (keeps_trans _ s4); [done|by apply touch_keeps]|].
  rewrite Hi5, He5, B4, E4. split; [done|]. split; [done|].
  assert (set_aG (rev (a_free a) ++ aG A) (set_aP (if gone then delete p (aP A) else <[p := invalidated a]> (aP A)) A) =
    a_delete p a force A) as HA by (unfold a_delete; fold gone; done).
  rewrite <- HA. split.
  - destruct gone; cbn in C5 |- *; [rewrite delete_insert_eq in C5|rewrite insert_insert_eq in C5]; exact C5.
  - unfold listed. rewrite Hl5. split; [done|]. cbn. destruct gone; [by apply listed_delete|].
    by apply listed_requeue.
Qed.
