(* ===== verification/TxPoolFlow.v ===== *)
(** Transmit descriptor pools: allocation and release of a descriptor, and the
    release of an invalid pool when its last descriptor comes back. *)
From S2P Require Import Prelude Tailq TxPool TxPoolRep TxPoolOps TxPoolLife.

(** * No operation makes or loses a descriptor *)

Lemma owned_create s p id size A :
  aP A !! p = None → owned (a_create s p id size A) [] [] ≡ₚ owned A [] [].
Proof.
  intros Hp. unfold owned, a_create, a_new. cbn. rewrite frees_insert, delete_id by done. cbn.
  set (n := Z.to_nat _). rewrite <- Permutation_rev.
  trans ((take n (aG A) ++ drop n (aG A)) ++ frees (aP A) ++ (aFly A).*1 ++ [] ++ []); [solve_Permutation|].
  by rewrite take_drop.
Qed.

Lemma owned_delete p a force A :
  aP A !! p = Some a → owned (a_delete p a force A) [] [] ≡ₚ owned A [] [].
Proof.
  intros Hp. unfold owned, a_delete. cbn. rewrite <- Permutation_rev, (frees_lookup _ _ _ Hp).
  destruct (frees_pool a force); [|rewrite frees_insert; cbn]; solve_Permutation.
Qed.

Lemma owned_set_pool p a a' A :
  aP A !! p = Some a → a_free a' = a_free a → owned (set_aP (<[p := a']> (aP A)) A) [] [] ≡ₚ owned A [] [].
Proof.
  intros Hp Hf. unfold owned. cbn. by rewrite frees_insert, (frees_lookup _ _ _ Hp), Hf.
Qed.

Lemma owned_move src dst n A a b :
  aP A !! src = Some a → aP A !! dst = Some b → owned (a_move src dst n A) [] [] ≡ₚ owned A [] [].
Proof.
  intros Ha Hb. unfold a_move. rewrite Ha. cbn.
  destruct (decide (src = dst)) as [<-|Hne].
  - rewrite lookup_insert_eq. unfold owned. cbn. rewrite insert_insert_eq, frees_insert,
      (frees_lookup _ _ _ Ha). cbn. by rewrite take_drop.
  - rewrite lookup_insert_ne, Hb by done. unfold owned. cbn. rewrite frees_insert. cbn.
    rewrite delete_insert_ne, frees_insert, (frees_lookup (aP A) src a) by done.
    assert (delete src (aP A) !! dst = Some b) as Hb' by (by rewrite lookup_delete_ne).
    rewrite (frees_lookup _ _ _ Hb'), (delete_delete _ src dst). cbn.
    trans (aG A ++ ((take n (a_free a) ++ drop n (a_free a)) ++ a_free b ++
      frees (delete dst (delete src (aP A)))) ++ (aFly A).*1 ++ []); [solve_Permutation|].
    by rewrite take_drop.
Qed.

Lemma owned_distribute l src c A a :
  defs_ok A → aP A !! src = Some a → 0 ≤ c ≤ Z.of_nat (length (a_free a)) →
  owned (a_distribute l src c A) [] [] ≡ₚ owned A [] [].
Proof.
  revert c A a. induction l as [|dst l IH]; intros c A a Hd Ha Hc; cbn [a_distribute]; [done|].
  destruct (aP A !! dst) as [b|] eqn:Hb; [|done].
  pose proof (Hd _ _ Hb) as Hdb. fold (share b c). set (n := share b c). destruct (share_bounds b c ltac:(lia) ltac:(lia)) as [Hn1 Hn2]. fold n in Hn1, Hn2.
  destruct (a_move_spread src dst (Z.to_nat n) A a b Hd Ha Hb ltac:(lia) ltac:(lia)) as (Sp & a' & Ha' & Hla).
  pose proof (owned_move src dst (Z.to_nat n) A a b Ha Hb) as Hm.
  destruct (Z.eqb_spec (c - n) 0); [done|]. rewrite <- Hm. eapply IH; [by eapply spread_defs|exact Ha'|lia].
Qed.

(** * Releasing an invalid pool *)

Definition a_release (p : positive) (a : apool) (ord : list positive) (A : atx) : atx :=
  let A1 := a_distribute ord p (Z.of_nat (length (a_free a))) A in
  match aP A1 !! p with
  | Some a1 => mk_atx (rev (a_free a1) ++ aG A) (delete p (aP A1)) (aFly A)
  | None => A1
  end.

Lemma ol_tx_free_invalid_flow_pool_run p s A a o1 o2 :
  core s A None [] [] → listed s A (o1 ++ p :: o2) → aP A !! p = Some a → defs_ok A →
  a_status a = FLOW_POOL_INVALID →
  ∃ s', ol_tx_free_invalid_flow_pool p s = Some (0, s') ∧ keeps s s' ∧
    num_invalid_bin s' = u8 (num_invalid_bin s - 1) ∧ tx_events s' = tx_events s ∧
    core s' (a_release p a (o1 ++ p :: o2) A) None [] [] ∧
    listed s' (a_release p a (o1 ++ p :: o2) A) (o1 ++ o2) ∧
    owned (a_release p a (o1 ++ p :: o2) A) [] [] ≡ₚ owned A [] [].
Proof.
  intros C [Hrep Hord] Hp Hd Hst. unfold ol_tx_free_invalid_flow_pool.
  destruct (core_pool _ _ _ _ _ _ _ C Hp) as (fp & Hfp & fl & -> & _).
  mrun (get_pool_run _ _ _ Hfp). cbn [status conc]. rewrite bool_decide_true by done. cbn [negb].
  unfold ol_tx_distribute_descs_to_deficient_pools.
  mrun (get_pool_run _ _ _ Hfp). mstep. rewrite (TAILQ_FOREACH_ok _ _ Hrep). mstep. cbn [avail_desc conc].
  destruct (distribute_loop_run (o1 ++ p :: o2) p (Z.of_nat (length (a_free a))) s A a C Hd Hp)
    as (s1 & Hr1 & T1 & C1); [lia|by intros q ?%Hord|].
  mrun Hr1. mstep. unfold a_release.
  pose proof (a_distribute_spread (o1 ++ p :: o2) p (Z.of_nat (length (a_free a))) A a Hd Hp ltac:(lia)) as Sp1.
  set (A1 := a_distribute _ _ _ _) in *.
  assert (is_Some (aP A1 !! p)) as [a1 Ha1] by (apply (spread_dom _ _ _ _ Sp1); by eexists). rewrite Ha1.
  destruct (core_pool _ _ _ _ _ _ _ C1 Ha1) as (fp1 & Hfp1 & fl1 & -> & _).
  mrun (mod_pool_run _ _ (λ fp, set_flow_pool_size (avail_desc fp) fp) _ Hfp1). mstep.
  set (a2 := set_a_size (Z.of_nat (length (a_free a1))) a1).
  pose proof (core_set_pool _ _ _ _ _ _ _ a2 _ C1 Ha1 eq_refl Hfp1) as C2.
  destruct (touch_list _ _ T1) as (Hl1 & Hi1 & He1).
  match goal with |- context [ol_tx_delete_flow_pool _ _ ?s2] => set (s3 := s2) end.
  assert (core s3 (set_aP (<[p:=a2]> (aP A1)) A1) None [] []) as C3 by (eapply core_ext; done).
  pose proof (core_free_length _ _ _ _ _ _ _ C1 Ha1) as Hlen.
  edestruct (ol_tx_delete_flow_pool_run p false s3 _ a2 o1 o2 C3) as (s4 & Hr4 & K4 & B4 & E4 & C4 & L4).
  { split; [cbn; by rewrite Hl1|]. intros q. rewrite Hord, <- (spread_dom _ _ _ q Sp1). cbn.
    destruct (decide (p = q)) as [<-|Hq]; [rewrite lookup_insert_eq, Ha1; split; by eexists|by rewrite lookup_insert_ne]. }
  { apply lookup_insert_eq. }
  { cbn. lia. }
  assert (frees_pool a2 false = true) as Hgone by (unfold frees_pool, a2; cbn; by rewrite Z.eqb_refl).
  rewrite Hgone in *. exists s4. split; [exact Hr4|].
  split; [apply (keeps_trans _ s1); [by apply touch_keeps|]; apply (keeps_trans _ s3); [by repeat split|done]|].
  rewrite B4, E4. cbn [delete_events]. split; [cbn; by rewrite Hi1|]. split; [exact He1|].
  destruct Sp1 as (SG & SF & SP) eqn:E. unfold a_delete in C4, L4. rewrite Hgone in C4, L4. cbn in C4, L4.
  rewrite delete_insert_eq, SG, SF in C4, L4. split; [done|]. split; [done|].
  rewrite <- (owned_distribute (o1 ++ p :: o2) p (Z.of_nat (length (a_free a))) A a Hd Hp) by lia. fold A1.
  unfold owned. cbn. rewrite <- Permutation_rev, (frees_lookup _ _ _ Ha1), SG, SF. solve_Permutation.
Qed.

(** * Allocation *)

Lemma core_fly_write s A o h x d p f1 f2 t :
  core s A o h x → aFly A = f1 ++ (d, p) :: f2 → d_pool t = Some p →
  (∀ g, tso_desc t = Some g → is_Some (tso_segs s !! g)) →
  core (set_descs (<[d := t]> (descs s)) s) A o h x.
Proof.
  intros C Hf Ht Hg. destruct (fly_in _ _ _ _ _ _ _ _ _ C Hf) as [C1 (t0 & Ht0 & _)].
  assert (core (set_descs (<[d := t]> (descs s)) s) (set_aFly (f1 ++ f2) A) o h (d :: x)) as C2
    by (apply core_write; [done|set_solver|by eexists|done]).
  replace A with (set_aFly (f1 ++ (d, p) :: f2) (set_aFly (f1 ++ f2) A)) by (rewrite <- Hf; by destruct A).
  eapply fly_out; [exact C2|done|apply lookup_insert_eq|done].
Qed.

Lemma core_fly_lookup s A o h x d p f1 f2 :
  core s A o h x → aFly A = f1 ++ (d, p) :: f2 → ∃ t, descs s !! d = Some t ∧ d_pool t = Some p.
Proof. intros C Hf. exact (proj2 (fly_in _ _ _ _ _ _ _ _ _ C Hf)). Qed.

(** The status of a pool, [n] descriptors being left, after an allocation. *)
Definition alloc_status (a : apool) (n : nat) : flow_pool_status :=
  if Z.of_nat n <? a_stop a then FLOW_POOL_ACTIVE_PAUSED else a_status a.

Definition a_take (p : positive) (a : apool) (d : positive) (l : list positive) (A : atx) : atx :=
  mk_atx (aG A) (<[p := set_a_status (alloc_status a (length l)) (set_a_free l a)]> (aP A)) ((d, p) :: aFly A).

Lemma alloc_locked_run s A p a d l :
  core s A None [] [] → aP A !! p = Some a → a_free a = d :: l →
  ∃ s', alloc_locked p s = Some ((Some d, Z.of_nat (length l) <? a_stop a), s') ∧ touch s s' ∧
    core s' (a_take p a d l A) None [] [].
Proof.
  intros C Hp Hf. unfold alloc_locked.
  destruct (core_pool _ _ _ _ _ _ _ C Hp) as (fp & Hfp & fl & -> & _).
  mrun (get_pool_run _ _ _ Hfp). cbn [avail_desc conc]. rewrite Hf.
  destruct (Z.eqb_spec (Z.of_nat (length (d :: l))) 0); [cbn in *; lia|].
  destruct (pop_pool _ _ _ _ _ _ _ _ _ C Hp Hf) as (s1 & Hr1 & T1 & C1 & Hds & t & Ht & Htp). mrun Hr1.
  rewrite <- Hds in Ht. pose proof (fly_out _ _ _ _ _ _ _ _ [] (aFly A) C1 eq_refl Ht Htp) as C2.
  destruct (core_pool _ _ _ _ _ p _ C2 (lookup_insert_eq _ _ _)) as (fp & Hfp1 & fl1 & -> & _).
  mrun (get_pool_run _ _ _ Hfp1). cbn [avail_desc stop_th conc a_free set_a_free a_stop].
  unfold a_take, alloc_status. destruct (Z.of_nat (length l) <? a_stop a) eqn:E.
  - mrun (mod_pool_run _ _ (set_status FLOW_POOL_ACTIVE_PAUSED) _ Hfp1). eexists. split; [done|].
    split; [eapply touch_trans; [exact T1|touched]|].
    pose proof (core_set_pool _ _ _ _ _ p _ (set_a_status FLOW_POOL_ACTIVE_PAUSED (set_a_free l a)) _
      C2 (lookup_insert_eq _ _ _) eq_refl Hfp1) as C3.
    unfold set_aP in C3. cbn in C3. rewrite insert_insert_eq in C3. exact C3.
  - exists s1. split; [done|]. split; [done|].
    assert (set_a_status (a_status a) (set_a_free l a) = set_a_free l a) as -> by done. exact C2.
Qed.

Definition bump_no_desc (s : tx_state) : tx_state :=
  set_stats (set_pkt_drop_no_desc (u16 (pkt_drop_no_desc (stats s) + 1)) (stats s)) s.

Definition bump_no_pool (s : tx_state) : tx_state :=
  set_stats (set_pkt_drop_no_pool (u16 (pkt_drop_no_pool (stats s) + 1)) (stats s)) s.

Lemma ol_tx_desc_alloc_empty s A v p a :
  core s A None [] [] → aP A !! p = Some a → a_free a = [] →
  ol_tx_desc_alloc v (Some p) s = Some (None, bump_no_desc s).
Proof.
  intros C Hp Hf. unfold ol_tx_desc_alloc, alloc_locked.
  destruct (core_pool _ _ _ _ _ _ _ C Hp) as (fp & Hfp & fl & -> & _).
  mrun (get_pool_run _ _ _ Hfp). cbn [avail_desc conc]. by rewrite Hf.
Qed.

Lemma ol_tx_desc_alloc_run s A v w p a d l :
  core s A None [] [] → aP A !! p = Some a → a_free a = d :: l → vdevs s !! v = Some w →
  ∃ s', ol_tx_desc_alloc v (Some p) s = Some (Some d, s') ∧
    core s' (a_take p a d l A) None [] [] ∧ keeps s s' ∧ flow_pool_list s' = flow_pool_list s ∧
    num_invalid_bin s' = num_invalid_bin s ∧
    tx_events s' = (if Z.of_nat (length l) <? a_stop a then EvStopQueues (vdev_id w) :: tx_events s
                    else tx_events s).
Proof.
  intros C Hp Hf Hv. unfold ol_tx_desc_alloc.
  destruct (alloc_locked_run _ _ _ _ _ _ C Hp Hf) as (s1 & Hr1 & T1 & C1). mrun Hr1.
  destruct (touch_list _ _ T1) as (Hl & Hi & He). pose proof (touch_keeps _ _ T1) as K.
  destruct (Z.of_nat (length l) <? a_stop a) eqn:E; unfold alloc_stop; cbn [when].
  - assert (vdevs s1 !! v = Some w) as Hv1 by (destruct K as (_ & -> & _); done).
    unfold get_vdev. mstep. unfold tx_emit. mstep. eexists. split; [done|].
    split; [by eapply core_ext|]. split_and!; try done. cbn. by rewrite He.
  - mstep. exists s1. by split_and!.
Qed.

(** * Release *)

Definition a_put (p : positive) (a : apool) (d : positive) (F : list (positive * positive)) (A : atx) : atx :=
  with_free p a (d :: a_free a) (set_aFly F A).

(** The abstract state after the descriptor [d] of pool [p] has come back,
    [F] being the others in flight. *)
Definition a_complete (p : positive) (a : apool) (d : positive) (F : list (positive * positive))
    (ord : list positive) (A : atx) : atx :=
  let a1 := set_a_free (d :: a_free a) a in
  match a_status a with
  | FLOW_POOL_ACTIVE_PAUSED =>
      if Z.of_nat (length (a_free a1)) >? a_start a
      then mk_atx (aG A) (<[p := set_a_status FLOW_POOL_ACTIVE_UNPAUSED a1]> (aP A)) F
      else a_put p a d F A
  | FLOW_POOL_INVALID =>
      if Z.of_nat (length (a_free a1)) =? a_size a then a_release p a1 ord (a_put p a d F A)
      else a_put p a d F A
  | _ => a_put p a d F A
  end.

(** The pool is released by this completion. *)
Definition released (a : apool) : bool :=
  bool_decide (a_status a = FLOW_POOL_INVALID) && (Z.of_nat (S (length (a_free a))) =? a_size a).

(** The members that a release may also touch: the segments' free list. *)
Definition keeps_flow (s s' : tx_state) : Prop :=
  vdev_list s' = vdev_list s ∧ vdevs s' = vdevs s ∧ mgmt_pool s' = mgmt_pool s ∧
  (∀ g, is_Some (tso_segs s !! g) → is_Some (tso_segs s' !! g)).

Lemma keeps_flow_trans s1 s2 s3 : keeps_flow s1 s2 → keeps_flow s2 s3 → keeps_flow s1 s3.
Proof. unfold keeps_flow. intros H K. destruct_and!. split_and!; [congruence..|eauto]. Qed.
Lemma keeps_keeps_flow s s' : keeps s s' → keeps_flow s s'.
Proof. unfold keeps, keeps_flow. intros H. destruct_and!. split_and!; try congruence. Qed.

Lemma free_tso_run s A o h x d t :
  core s A o h x → descs s !! d = Some t →
  ∃ s1, free_tso t s = Some (tt, s1) ∧ core s1 A o h x ∧ descs s1 = descs s ∧ flow_pool_list s1 = flow_pool_list s ∧
    num_invalid_bin s1 = num_invalid_bin s ∧ tx_events s1 = tx_events s ∧ keeps_flow s s1.
Proof.
  intros C Ht. unfold free_tso. destruct (pkt_type t =? OL_TX_FRM_TSO); cbn [when];
    [|exists s; by repeat (split; [done|])].
  destruct (tso_desc t) as [g|] eqn:Eg; [|exists s; by repeat (split; [done|])].
  destruct (c_tso _ _ _ _ _ C _ _ _ Ht Eg) as [nx Hnx]. unfold ol_tso_free_segment. mstep.
  assert (∀ g', is_Some (tso_segs s !! g') → is_Some (<[g := tso_freelist s]> (tso_segs s) !! g')) as Hg.
  { intros g' Hg'. destruct (decide (g = g')) as [->|Hg]; [rewrite lookup_insert_eq; by eexists|].
    by rewrite lookup_insert_ne. }
  eexists. split; [done|]. split; [|by repeat (split; [done|])].
  destruct C as [? ? ? ? ? ? ? ? Ct]. split; try done. cbn. intros e u g' He Hu. by eapply Hg, Ct.
Qed.

Lemma a_put_perm p a d f1 f2 A :
  aP A !! p = Some a → aFly A = f1 ++ (d, p) :: f2 →
  owned (a_put p a d (f1 ++ f2) A) [] [] ≡ₚ owned A [] [].
Proof.
  intros Hp Hf. unfold owned, a_put, with_free. cbn. rewrite frees_insert, (frees_lookup _ _ _ Hp), Hf, !fmap_app.
  cbn. solve_Permutation.
Qed.

(** What a completed transmission reports, and the pools it leaves listed. *)
Definition complete_events (a : apool) (evs : list tx_event) : list tx_event :=
  if bool_decide (a_status a = FLOW_POOL_ACTIVE_PAUSED) && (Z.of_nat (S (length (a_free a))) >? a_start a)
  then EvWakeQueues (a_member a) :: evs else evs.

Lemma ol_tx_desc_free_run s A p a d f1 f2 o1 o2 :
  core s A None [] [] → listed s A (o1 ++ p :: o2) → aP A !! p = Some a → aFly A = f1 ++ (d, p) :: f2 →
  defs_ok A → a_status a ≠ FLOW_POOL_INACTIVE →
  let ord := o1 ++ p :: o2 in
  let A' := a_complete p a d (f1 ++ f2) ord A in
  ∃ s', ol_tx_desc_free d s = Some (tt, s') ∧ core s' A' None [] [] ∧
    listed s' A' (if released a then o1 ++ o2 else ord) ∧ keeps_flow s s' ∧
    num_invalid_bin s' = (if released a then u8 (num_invalid_bin s - 1) else num_invalid_bin s) ∧
    tx_events s' = complete_events a (tx_events s) ∧ owned A' [] [] ≡ₚ owned A [] [].
Proof.
  intros C [Hrep Hord] Hp Hf Hd Hst ord A'. unfold ol_tx_desc_free.
  destruct (core_fly_lookup _ _ _ _ _ _ _ _ _ C Hf) as (t & Ht & Htp). mrun (get_desc_run _ _ _ Ht).
  destruct (free_tso_run _ _ _ _ _ _ _ C Ht) as (s1 & Hr1 & C1 & Hd1 & Hl1 & Hi1 & He1 & K1). mrun Hr1.
  rewrite Htp. mstep. destruct (fly_in _ _ _ _ _ _ _ _ _ C1 Hf) as [C2 _].
  destruct (push_pool _ _ _ _ _ p a _ C2 Hp) as (s2 & Hr2 & T2 & C3). mrun Hr2. fold (a_put p a d (f1 ++ f2) A) in C3.
  destruct (touch_list _ _ T2) as (Hl2 & Hi2 & He2). pose proof (keeps_keeps_flow _ _ (touch_keeps _ _ T2)) as K2.
  pose proof (keeps_flow_trans _ _ _ K1 K2) as K.
  pose proof (a_put_perm p a d f1 f2 A Hp Hf) as Hperm. set (a1 := set_a_free (d :: a_free a) a) in *.
  assert (aP (a_put p a d (f1 ++ f2) A) !! p = Some a1) as Hp1 by apply lookup_insert_eq.
  assert (listed s2 (a_put p a d (f1 ++ f2) A) ord) as L2.
  { split; [by rewrite Hl2, Hl1|]. intros q. unfold ord. rewrite Hord. cbn.
    destruct (decide (p = q)) as [<-|Hq]; [rewrite lookup_insert_eq, Hp; split; by eexists|by rewrite lookup_insert_ne]. }
  destruct (core_pool _ _ _ _ _ p _ C3 Hp1) as (fp & Hfp & fl & -> & _).
  mrun (get_pool_run _ _ _ Hfp). cbn [status avail_desc start_th flow_pool_size member_flow_id conc].
  unfold A', a_complete, released, complete_events. fold a1. cbn [length a_free set_a_free a_status a_start a_size a_member a1].
  destruct (a_status a) eqn:Es; [| | |done]; (repeat first [rewrite bool_decide_false by done|rewrite bool_decide_true by done]); cbn [andb].
  - exists s2. split_and!; try done; congruence.
  - destruct (Z.of_nat (S (length (a_free a))) >? a_start a) eqn:Ew; cbn [when].
    + unfold tx_emit. mstep. erewrite mod_pool_run by exact Hfp. eexists. split; [done|].
      pose proof (core_set_pool _ _ _ _ _ p _ (set_a_status FLOW_POOL_ACTIVE_UNPAUSED a1) _ C3 Hp1 eq_refl Hfp) as C4.
      pose proof (owned_set_pool p _ (set_a_status FLOW_POOL_ACTIVE_UNPAUSED a1) _ Hp1 eq_refl) as Hperm4.
      unfold set_aP, a_put, with_free in C4, Hperm4, Hperm, L2. cbn in C4, Hperm4, Hperm, L2. rewrite insert_insert_eq in C4, Hperm4.
      split; [by eapply core_ext|]. split; [|split_and!; try done; cbn; try congruence; by rewrite <- Hperm].
      destruct L2 as [L2 Ho]. split; [done|]. intros q. rewrite Ho. cbn.
      destruct (decide (p = q)) as [<-|Hq]; [rewrite !lookup_insert_eq; split; by eexists|by rewrite !lookup_insert_ne].
    + exists s2. split_and!; try done; congruence.
  - destruct (Z.of_nat (S (length (a_free a))) =? a_size a) eqn:Ew; cbn [when].
    + destruct (ol_tx_free_invalid_flow_pool_run p s2 _ a1 o1 o2 C3 L2 Hp1) as (s3 & Hr3 & K3 & B3 & E3 & C4 & L3 & O3);
        [|exact Es|].
      { intros q b Hb. cbn in Hb. destruct (decide (p = q)) as [<-|Hq].
        - rewrite lookup_insert_eq in Hb. injection Hb as <-. exact (Hd p a Hp).
        - rewrite lookup_insert_ne in Hb by done. exact (Hd q b Hb). }
      mrun Hr3. exists s3. split; [done|]. split; [exact C4|]. split; [exact L3|].
      split; [eapply keeps_flow_trans; [exact K|by apply keeps_keeps_flow]|]. rewrite B3, E3, Hi2, He2.
      split_and!; [congruence..|]. etrans; [exact O3|exact Hperm].
    + exists s2. split_and!; try done; congruence.
Qed.
