(* ===== verification/TxPoolSystem.v ===== *)
(** Transmit descriptor pools as a system: the target's map and unmap
    messages, the transmissions and their completions, in any order.

    [sys_step] runs one operation of the driver on the pdev and the list of
    the descriptors in flight; [allowed] is what the rest of the system
    guarantees about an operation. *)
From S2P Require Import Prelude Tailq TxPool TxPoolRep TxPoolOps TxPoolLife TxPoolFlow.

(** * Counting the descriptors in flight *)

Definition fly_count (p : positive) (F : list (positive * positive)) : Z :=
  Z.of_nat (length (filter (λ x, x.2 = p) F)).

Lemma fly_count_cons p d q F : fly_count p ((d, q) :: F) = (if decide (q = p) then 1 else 0) + fly_count p F.
Proof. unfold fly_count. rewrite filter_cons. cbn. destruct (decide (q = p)); cbn [length]; lia. Qed.

Lemma fly_count_mid p d q f1 f2 :
  fly_count p (f1 ++ (d, q) :: f2) = (if decide (q = p) then 1 else 0) + fly_count p (f1 ++ f2).
Proof.
  unfold fly_count. rewrite !filter_app, !length_app, filter_cons. cbn.
  destruct (decide (q = p)); cbn [length]; lia.
Qed.

Lemma fly_count_nonneg p F : 0 ≤ fly_count p F.
Proof. unfold fly_count. lia. Qed.

Lemma fly_count_zero p F x : fly_count p F = 0 → x ∈ F → x.2 ≠ p.
Proof.
  unfold fly_count. intros H Hx Hp. assert (x ∈ filter (λ x, x.2 = p) F) as Hin by by apply list_elem_of_filter.
  destruct (filter _ F); [set_solver|cbn in H; lia].
Qed.

(** * Well-formed abstract states *)

(** Of each pool, the descriptors it has, those it was never given and those in
    flight are all it was made for. *)
Definition awf (A : atx) : Prop :=
  (∀ p a, aP A !! p = Some a →
    0 ≤ a_def a ∧ a_size a < 65536 ∧
    a_size a = Z.of_nat (length (a_free a)) + a_def a + fly_count p (aFly A) ∧
    a_status a ≠ FLOW_POOL_INACTIVE ∧ (a_status a = FLOW_POOL_INVALID ↔ a_id a = INVALID_FLOW_ID)) ∧
  (∀ x, x ∈ aFly A → is_Some (aP A !! x.2)).

Lemma awf_defs A : awf A → defs_ok A.
Proof.
  intros [H _] p a Ha. destruct (H _ _ Ha) as (H1 & H2 & H3 & _).
  pose proof (fly_count_nonneg p (aFly A)). lia.
Qed.

Lemma awf_create s p id size A :
  awf A → aP A !! p = None → id ≠ INVALID_FLOW_ID → 0 ≤ size < 65536 → awf (a_create s p id size A).
Proof.
  intros [H Hh] Hp Hid Hsz. split; cbn.
  - intros q a. destruct (decide (p = q)) as [<-|Hq]; [|rewrite lookup_insert_ne by done; by apply H].
    rewrite lookup_insert_eq. intros [= <-]. unfold a_new. cbn.
    assert (fly_count p (aFly A) = 0) as ->.
    { unfold fly_count. destruct (filter _ (aFly A)) as [|x F] eqn:E; [done|].
      assert (x ∈ filter (λ x, x.2 = p) (aFly A)) as [Hx Hin]%list_elem_of_filter by (rewrite E; set_solver).
      destruct (Hh _ Hin) as [? Hs]. congruence. }
    split; [lia|]. split; [lia|]. split; [rewrite length_rev, length_take; lia|]. split; [done|]. by split.
  - intros x Hx. destruct (decide (p = x.2)) as [->|Hq]; [rewrite lookup_insert_eq; by eexists|].
    rewrite lookup_insert_ne by done. by apply Hh.
Qed.

Lemma awf_delete p a A : awf A → aP A !! p = Some a → awf (a_delete p a false A).
Proof.
  intros [H Hh] Hp. destruct (H _ _ Hp) as (H1 & H2 & H3 & H4). unfold a_delete, frees_pool. rewrite orb_false_r.
  pose proof (fly_count_nonneg p (aFly A)). destruct (Z.eqb_spec (Z.of_nat (length (a_free a))) (a_size a)).
  - assert (fly_count p (aFly A) = 0) as Hz by lia. split; cbn.
    + intros q b Hb. apply lookup_delete_Some in Hb as [_ Hb]. by apply H.
    + intros x Hx. rewrite lookup_delete_ne by (apply not_eq_sym; by eapply fly_count_zero). by apply Hh.
  - split; cbn.
    + intros q b. destruct (decide (p = q)) as [<-|Hq]; [|rewrite lookup_insert_ne by done; by apply H].
      rewrite lookup_insert_eq. intros [= <-]. unfold invalidated. cbn. split_and!; try done; lia.
    + intros x Hx. destruct (decide (p = x.2)) as [->|Hq]; [rewrite lookup_insert_eq; by eexists|].
      rewrite lookup_insert_ne by done. by apply Hh.
Qed.

Lemma awf_take p a d l A :
  awf A → aP A !! p = Some a → a_free a = d :: l → a_status a ≠ FLOW_POOL_INVALID → awf (a_take p a d l A).
Proof.
  intros [H Hh] Hp Hf Hst. destruct (H _ _ Hp) as (H1 & H2 & H3 & H4 & H5). rewrite Hf in H3. cbn [length] in H3.
  split; cbn.
  - intros q b. rewrite fly_count_cons. destruct (decide (p = q)) as [<-|Hq].
    + rewrite lookup_insert_eq. intros [= <-]. cbn. split; [done|]. split; [done|]. split; [lia|].
      unfold alloc_status. destruct (Z.of_nat (length l) <? a_stop a); [|done]. split; [done|]. split; [done|].
      intros Hid. by apply H5 in Hid.
    + rewrite lookup_insert_ne by done. intros Hb. destruct (H _ _ Hb) as (?&?&?&?). split; [done|]. split; [done|]. split; [lia|done].
  - intros x Hx. destruct (decide (p = x.2)) as [->|Hq]; [rewrite lookup_insert_eq; by eexists|].
    rewrite lookup_insert_ne by done. apply elem_of_cons in Hx as [->|Hx]; [done|]. by apply Hh.
Qed.

(** Changing a pool's members, the counted ones excepted. *)
Lemma awf_update p a a' A :
  awf A → aP A !! p = Some a → a_def a' = a_def a → a_size a' = a_size a → a_free a' = a_free a →
  a_status a' = a_status a → a_id a' = a_id a → awf (set_aP (<[p := a']> (aP A)) A).
Proof.
  intros [H Hh] Hp E1 E2 E3 E4 E5. split; cbn.
  - intros q b. destruct (decide (p = q)) as [<-|Hq]; [|rewrite lookup_insert_ne by done; by apply H].
    rewrite lookup_insert_eq. intros [= <-]. rewrite E1, E2, E3, E4, E5. by apply H.
  - intros x Hx. destruct (decide (p = x.2)) as [->|Hq]; [rewrite lookup_insert_eq; by eexists|].
    rewrite lookup_insert_ne by done. by apply Hh.
Qed.

(** A completion: of the pool whose descriptor comes back [b] is the new one. *)
Lemma awf_back p a b d f1 f2 A :
  awf A → aP A !! p = Some a → aFly A = f1 ++ (d, p) :: f2 →
  a_free b = d :: a_free a → a_def b = a_def a → a_size b = a_size a → a_id b = a_id a →
  b.(a_status) = a_status a ∨ (a_status a = FLOW_POOL_ACTIVE_PAUSED ∧ a_status b = FLOW_POOL_ACTIVE_UNPAUSED) →
  awf (mk_atx (aG A) (<[p := b]> (aP A)) (f1 ++ f2)).
Proof.
  intros [H Hh] Hp Hf E1 E2 E3 E4 E5. destruct (H _ _ Hp) as (H1 & H2 & H3 & H4 & H5).
  rewrite Hf, fly_count_mid, decide_True in H3 by done. split; cbn.
  - intros q c. destruct (decide (p = q)) as [<-|Hq].
    + rewrite lookup_insert_eq. intros [= <-]. rewrite E1, E2, E3, E4. cbn [length]. split; [done|]. split; [done|].
      split; [lia|]. destruct E5 as [->|[Ha ->]]; [done|]. split; [done|]. split; [done|].
      rewrite <- H5, Ha. done.
    + rewrite lookup_insert_ne by done. intros Hb. destruct (H _ _ Hb) as (?&?&H3'&?).
      rewrite Hf, fly_count_mid, decide_False in H3' by done. split; [done|]. split; [done|]. split; [lia|done].
  - intros x Hx. destruct (decide (p = x.2)) as [->|Hq]; [rewrite lookup_insert_eq; by eexists|].
    rewrite lookup_insert_ne by done. apply Hh. rewrite Hf. set_solver.
Qed.

Lemma spread_lookup src A A' q a' :
  spread src A A' → aP A' !! q = Some a' → ∃ a, aP A !! q = Some a ∧ same_members a a' ∧
    0 ≤ a_def a' ≤ a_def a ∧
    (q ≠ src → Z.of_nat (length (a_free a')) + a_def a' = Z.of_nat (length (a_free a)) + a_def a).
Proof. intros (_ & _ & H) Ha'. specialize (H q). rewrite Ha' in H. inversion H; subst. eauto. Qed.

Lemma spread_lookup_fwd src A A' q a :
  spread src A A' → aP A !! q = Some a → ∃ a', aP A' !! q = Some a' ∧ same_members a a' ∧
    0 ≤ a_def a' ≤ a_def a ∧
    (q ≠ src → Z.of_nat (length (a_free a')) + a_def a' = Z.of_nat (length (a_free a)) + a_def a).
Proof. intros (_ & _ & H) Ha'. specialize (H q). rewrite Ha' in H. inversion H; subst. eauto. Qed.

Lemma a_release_eq p a ord A :
  defs_ok A → aP A !! p = Some a → ∃ A1, spread p A A1 ∧ aP (a_release p a ord A) = delete p (aP A1) ∧
    aFly (a_release p a ord A) = aFly A.
Proof.
  intros Hd Hp. unfold a_release.
  pose proof (a_distribute_spread ord p (Z.of_nat (length (a_free a))) A a Hd Hp ltac:(lia)) as Sp.
  destruct (spread_lookup_fwd _ _ _ _ _ Sp Hp) as (a1 & -> & _). by eexists.
Qed.

Lemma awf_release p a ord A :
  awf A → aP A !! p = Some a → Z.of_nat (length (a_free a)) = a_size a → awf (a_release p a ord A).
Proof.
  intros Hw Hp Hlen. destruct (a_release_eq p a ord A (awf_defs _ Hw) Hp) as (A1 & Sp & HP & HF).
  destruct Hw as [H Hh]. pose proof (fly_count_nonneg p (aFly A)).
  destruct (H _ _ Hp) as (H1 & _ & H2 & _). assert (fly_count p (aFly A) = 0) as Hz by lia.
  split; rewrite HP, HF.
  - intros q b' [Hq Hb']%lookup_delete_Some. destruct (spread_lookup _ _ _ _ _ Sp Hb') as (b & Hb & Hs & Hd & Hl).
    destruct (H _ _ Hb) as (K1 & K2 & K3 & K4 & K5). destruct Hs as (-> & -> & -> & _).
    specialize (Hl (not_eq_sym Hq)). split; [lia|]. split; [lia|]. split; [lia|done].
  - intros x Hx. rewrite lookup_delete_ne by (apply not_eq_sym; by eapply fly_count_zero).
    apply (spread_dom _ _ _ _ Sp). by apply Hh.
Qed.

Lemma awf_put p a d f1 f2 A :
  awf A → aP A !! p = Some a → aFly A = f1 ++ (d, p) :: f2 → awf (a_put p a d (f1 ++ f2) A).
Proof.
  intros Hw Hp Hf. apply (awf_back p a (set_a_free (d :: a_free a) a) d f1 f2 A Hw Hp Hf); try done. by left.
Qed.

Lemma awf_complete p a d f1 f2 ord A :
  awf A → aP A !! p = Some a → aFly A = f1 ++ (d, p) :: f2 → awf (a_complete p a d (f1 ++ f2) ord A).
Proof.
  intros Hw Hp Hf.
  pose proof (awf_put _ _ _ _ _ _ Hw Hp Hf) as Hput.
  unfold a_complete. destruct (a_status a) eqn:Es; try done.
  - destruct (_ >? _); [|done].
    apply (awf_back p a (set_a_status FLOW_POOL_ACTIVE_UNPAUSED (set_a_free (d :: a_free a) a)) d f1 f2 A Hw Hp Hf);
      try done. by right.
  - destruct (Z.eqb_spec (Z.of_nat (length (a_free (set_a_free (d :: a_free a) a)))) (a_size a)); [|done].
    apply awf_release; [done| |done]. apply lookup_insert_eq.
Qed.

(** * Pools that nothing in flight belongs to *)

(** What an operation on other pools does to [p]. *)
Definition quiet (p : positive) (A A' : atx) : Prop :=
  ∀ a, aP A !! p = Some a → fly_count p (aFly A) = 0 →
  ∃ a', aP A' !! p = Some a' ∧ a_status a' = a_status a ∧ a_id a' = a_id a ∧
    (length (a_free a) ≤ length (a_free a'))%nat ∧ fly_count p (aFly A') = 0.

Lemma quiet_insert p q b A G F :
  p ≠ q → (fly_count p (aFly A) = 0 → fly_count p F = 0) → quiet p A (mk_atx G (<[q := b]> (aP A)) F).
Proof. intros Hp HF a Ha Hz. exists a. cbn. rewrite lookup_insert_ne by done. split_and!; auto. Qed.

Lemma quiet_same p A : quiet p A A.
Proof. intros a Ha Hz. exists a. by split_and!. Qed.

Lemma quiet_delete p q a force A : p ≠ q → quiet p A (a_delete q a force A).
Proof.
  intros Hp b Hb Hz. exists b. unfold a_delete. cbn.
  destruct (frees_pool a force); [rewrite lookup_delete_ne by done|rewrite lookup_insert_ne by done]; by split_and!.
Qed.

Lemma quiet_complete p q a d f1 f2 ord A :
  awf A → aP A !! q = Some a → aFly A = f1 ++ (d, q) :: f2 → p ≠ q → quiet p A (a_complete q a d (f1 ++ f2) ord A).
Proof.
  intros Hw Hq Hf Hp.
  assert (∀ F, F = f1 ++ f2 → fly_count p (aFly A) = 0 → fly_count p F = 0) as Hz.
  { intros F -> . rewrite Hf, fly_count_mid, decide_False by done. done. }
  assert (quiet p A (a_put q a d (f1 ++ f2) A)) as Hput
    by (apply (quiet_insert p q _ A _ (f1 ++ f2)); [done|by apply Hz]).
  unfold a_complete. destruct (a_status a); try done.
  - destruct (_ >? _); [|done]. apply quiet_insert; [done|by apply Hz].
  - destruct (_ =? _) eqn:E; [|done]. intros b Hb Hzb.
    pose proof (awf_put _ _ _ _ _ _ Hw Hq Hf) as Hwp.
    destruct (a_release_eq q (set_a_free (d :: a_free a) a) ord _ (awf_defs _ Hwp) (lookup_insert_eq _ _ _)) as (A1 & Sp & HP & HF).
    destruct (Hput b Hb Hzb) as (b1 & Hb1 & Hs1 & Hi1 & Hl1 & Hz1).
    destruct (spread_lookup_fwd _ _ _ _ _ Sp Hb1) as (b2 & Hb2 & (Hi2 & _ & Hs2 & _) & Hd2 & Hl2).
    specialize (Hl2 Hp). exists b2. rewrite HP, HF, lookup_delete_ne by done.
    split; [done|]. split; [congruence|]. split; [congruence|]. split; [lia|done].
Qed.

(** * Looking up pools and vdevs *)

Lemma find_pool_run l id s A o h x :
  core s A o h x → (∀ p, p ∈ l → is_Some (aP A !! p)) →
  ∃ r, find_pool l id s = Some (r, s) ∧
    match r with
    | Some p => p ∈ l ∧ ∃ a, aP A !! p = Some a ∧ a_id a = id
    | None => True
    end.
Proof.
  intros C. induction l as [|p l IH]; intros Hl; [by exists None|].
  destruct (Hl p ltac:(set_solver)) as [a Ha]. destruct (core_pool _ _ _ _ _ _ _ C Ha) as (fp & Hfp & fl & -> & _).
  cbn [find_pool]. mrun (get_pool_run _ _ _ Hfp). cbn [flow_pool_id conc].
  destruct (Z.eqb_spec (a_id a) id) as [Hid|Hid].
  - exists (Some p). split; [done|]. split; [set_solver|by eexists].
  - destruct IH as (r & Hr & Hrr); [set_solver|]. exists r. split; [done|].
    destruct r; [|done]. destruct Hrr as [? ?]. split; [set_solver|done].
Qed.

Lemma ol_tx_get_flow_pool_run id s A ord :
  core s A None [] [] → listed s A ord →
  ∃ r, ol_tx_get_flow_pool id s = Some (r, s) ∧
    match r with
    | Some p => p ∈ ord ∧ ∃ a, aP A !! p = Some a ∧ a_id a = id
    | None => True
    end.
Proof.
  intros C [Hrep Hord]. unfold ol_tx_get_flow_pool. mstep. rewrite (TAILQ_FOREACH_ok _ _ Hrep). mstep.
  eapply find_pool_run; [exact C|]. intros p. apply Hord.
Qed.

Definition vdevs_ok (s : tx_state) : Prop :=
  (∀ v, v ∈ vdev_list s ↔ is_Some (vdevs s !! v)) ∧
  (∀ v1 v2 w1 w2, vdevs s !! v1 = Some w1 → vdevs s !! v2 = Some w2 → vdev_id w1 = vdev_id w2 → v1 = v2).

Lemma find_vdev_run l id s :
  (∀ v, v ∈ l → is_Some (vdevs s !! v)) →
  ∃ r, find_vdev l id s = Some (r, s) ∧
    match r with
    | Some v => ∃ w, vdevs s !! v = Some w ∧ vdev_id w = id
    | None => ∀ v w, v ∈ l → vdevs s !! v = Some w → vdev_id w ≠ id
    end.
Proof.
  induction l as [|v l IH]; intros Hl; [exists None; split; [done|set_solver]|].
  destruct (Hl v ltac:(set_solver)) as [w Hw]. cbn [find_vdev]. unfold get_vdev. mstep.
  destruct (Z.eqb_spec (vdev_id w) id) as [Hid|Hid]; [exists (Some v); split; [done|by eexists]|].
  destruct IH as (r & Hr & Hrr); [set_solver|]. exists r. split; [done|].
  destruct r; [done|]. intros v' w' [->|Hv']%elem_of_cons Hw'; [congruence|by eapply Hrr].
Qed.

Lemma ol_txrx_get_vdev_run id s :
  vdevs_ok s →
  ∃ r, ol_txrx_get_vdev_from_vdev_id id s = Some (r, s) ∧
    match r with
    | Some v => ∃ w, vdevs s !! v = Some w ∧ vdev_id w = id
    | None => ∀ v w, vdevs s !! v = Some w → vdev_id w ≠ id
    end.
Proof.
  intros [Hv _]. unfold ol_txrx_get_vdev_from_vdev_id. mstep.
  destruct (find_vdev_run (vdev_list s) id s) as (r & Hr & Hrr); [intros v; apply Hv|].
  exists r. split; [done|]. destruct r; [done|]. intros v w Hw. apply (Hrr v w); [|done]. apply Hv. by eexists.
Qed.

(** Pointing the vdev to a pool (or to none), and the pool's member to [m]. *)
Definition repoint (v : positive) (w : tx_vdev) (vp : option positive) (p : positive) (a : apool)
    (o : option positive) (m : Z) (s : tx_state) : tx_state :=
  set_pools (<[p := conc (set_a_member m a) o]> (pools s))
    (set_vdevs (<[v := set_v_pool vp w]> (vdevs s)) s).

Lemma repoint_core v w vp p a o m s A :
  core s A None [] [] → aP A !! p = Some a → pools s !! p = Some (conc a o) →
  core (repoint v w vp p a o m s) (set_aP (<[p := set_a_member m a]> (aP A)) A) None [] [].
Proof.
  intros C Hp Hfp. eapply core_ext; [by eapply (core_set_pool _ _ _ _ _ p a (set_a_member m a))|done..].
Qed.

Lemma repoint_vdevs v w vp p a o m s : vdevs s !! v = Some w → vdevs_ok s → vdevs_ok (repoint v w vp p a o m s).
Proof.
  intros Hv [H1 H2]. split; cbn.
  - intros u. rewrite H1. destruct (decide (v = u)) as [<-|Hu]; [rewrite lookup_insert_eq, Hv; split; by eexists|].
    by rewrite lookup_insert_ne.
  - assert (∀ u x, <[v := set_v_pool vp w]> (vdevs s) !! u = Some x → ∃ y, vdevs s !! u = Some y ∧ vdev_id y = vdev_id x) as Hy.
    { intros u x. destruct (decide (v = u)) as [<-|Hu]; [|rewrite lookup_insert_ne by done; eauto].
      rewrite lookup_insert_eq. intros [= <-]. by exists w. }
    intros v1 v2 w1 w2 (y1 & Hy1 & E1)%Hy (y2 & Hy2 & E2)%Hy E. eapply H2; [done..|congruence].
Qed.

Lemma vdev_map_run p id s A a :
  core s A None [] [] → aP A !! p = Some a → vdevs_ok s →
  (ol_tx_flow_pool_vdev_map p id s = Some (tt, s)) ∨
  ∃ v w o, vdevs s !! v = Some w ∧ vdev_id w = id ∧ pools s !! p = Some (conc a o) ∧
    ol_tx_flow_pool_vdev_map p id s = Some (tt, repoint v w (Some p) p a o id s).
Proof.
  intros C Hp Hv. unfold ol_tx_flow_pool_vdev_map.
  destruct (ol_txrx_get_vdev_run id s Hv) as ([v|] & Hr & Hrr); mrun Hr; [|by left]. right.
  destruct Hrr as (w & Hw & Hid). destruct (core_pool _ _ _ _ _ _ _ C Hp) as (fp & Hfp & o & -> & _).
  exists v, w, o. split_and!; try done. unfold mod_vdev, get_vdev. mstep.
  erewrite mod_pool_run by exact Hfp. done.
Qed.

Lemma vdev_unmap_run p id s A a :
  core s A None [] [] → aP A !! p = Some a → vdevs_ok s →
  (ol_tx_flow_pool_vdev_unmap p id s = Some (tt, s) ∧ ∀ v w, vdevs s !! v = Some w → vdev_id w ≠ id) ∨
  ∃ v w o, vdevs s !! v = Some w ∧ vdev_id w = id ∧ pools s !! p = Some (conc a o) ∧
    ol_tx_flow_pool_vdev_unmap p id s = Some (tt, repoint v w None p a o INVALID_FLOW_ID s).
Proof.
  intros C Hp Hv. unfold ol_tx_flow_pool_vdev_unmap.
  destruct (ol_txrx_get_vdev_run id s Hv) as ([v|] & Hr & Hrr); mrun Hr; [|by left]. right.
  destruct Hrr as (w & Hw & Hid). destruct (core_pool _ _ _ _ _ _ _ C Hp) as (fp & Hfp & o & -> & _).
  exists v, w, o. split_and!; try done. unfold mod_vdev, get_vdev. mstep.
  erewrite mod_pool_run by exact Hfp. done.
Qed.

(** * The system *)

Inductive tx_op : Type :=
| OpMap (malloc : option positive) (flow_id flow_type id size : Z)
| OpUnmap (flow_id flow_type id : Z)
| OpTx (vdev : positive) (mgmt : bool) (netbuf tso_seg : option positive)
| OpFree (d : positive).

Definition sys : Type := tx_state * list positive.

Definition sys_step (op : tx_op) (x : sys) : option sys :=
  match op with
  | OpMap m f t id size => '(_, s) ← ol_tx_flow_pool_map_handler m f t id size x.1; Some (s, x.2)
  | OpUnmap f t id => '(_, s) ← ol_tx_flow_pool_unmap_handler f t id x.1; Some (s, x.2)
  | OpTx v mgmt nb seg =>
      '(o, s) ← ol_tx_desc_ll v mgmt nb seg x.1;
      Some (s, match o with Some d => d :: x.2 | None => x.2 end)
  | OpFree d => '(_, s) ← ol_tx_desc_free d x.1; Some (s, filter (λ e, e ≠ d) x.2)
  end.

Fixpoint sys_run (ops : list tx_op) (x : sys) : option sys :=
  match ops with
  | [] => Some x
  | op :: ops => x ← sys_step op x; sys_run ops x
  end.

(** What the code relies on and does not check: the allocator returns fresh
    memory; the target names real pools, and unmaps a pool with the
    identifier of the only vdev that points to it, and never the management
    pool; a frame is sent on a vdev, with a segment that exists; a descriptor
    is completed while it is in flight.  What an unmap message does when
    another vdev points to the pool is in TxPoolSamples
    ([shared_pool_dangles], [wrong_vdev_dangles]). *)
Definition allowed (op : tx_op) (x : sys) : Prop :=
  let s := x.1 in
  match op with
  | OpMap m f t id size => id ≠ INVALID_FLOW_ID ∧ 0 ≤ size < 65536 ∧ (∀ p, m = Some p → pools s !! p = None)
  | OpUnmap f t id => id ≠ INVALID_FLOW_ID ∧
      map_Forall (λ p fp, flow_pool_id fp = id →
        mgmt_pool s ≠ Some p ∧ map_Forall (λ v w, v_pool w = Some p → vdev_id w = f) (vdevs s)) (pools s)
  | OpTx v mgmt nb seg => is_Some (vdevs s !! v) ∧ ∀ g, seg = Some g → is_Some (tso_segs s !! g)
  | OpFree d => d ∈ x.2
  end.

Fixpoint legal (ops : list tx_op) (x : sys) : Prop :=
  match ops with
  | [] => True
  | op :: ops => allowed op x ∧ ∀ x', sys_step op x = Some x' → legal ops x'
  end.

(** [allowed] and [legal] can be evaluated. *)
#[export] Instance option_forall_dec {A} (o : option A) (P : A → Prop) `{∀ a, Decision (P a)} :
  Decision (∀ a, o = Some a → P a).
Proof.
  destruct o as [a|]; [|by left].
  destruct (decide (P a)) as [Ha|Ha]; [left; by intros b [= <-]|right; intros Hb; by apply Ha, Hb].
Defined.

#[export] Instance allowed_dec op x : Decision (allowed op x).
Proof. destruct op; cbn; apply _. Defined.

Fixpoint legalb (ops : list tx_op) (x : sys) : bool :=
  match ops with
  | [] => true
  | op :: ops =>
      bool_decide (allowed op x) && match sys_step op x with Some x' => legalb ops x' | None => true end
  end.

Lemma legalb_sound ops x : legalb ops x = true → legal ops x.
Proof.
  revert x. induction ops as [|op ops IH]; intros x; cbn; [done|].
  intros [Ha Hl]%andb_prop. split; [by apply bool_decide_eq_true in Ha|].
  intros x' Hx'. rewrite Hx' in Hl. by apply IH.
Qed.

(** The operation takes a descriptor of the pool, or deletes it. *)
Definition uses (op : tx_op) (s : tx_state) (p : positive) : Prop :=
  match op with
  | OpTx v mgmt _ _ => (if mgmt then mgmt_pool s else vdevs s !! v ≫= v_pool) = Some p
  | OpUnmap _ _ id => ∃ fp, pools s !! p = Some fp ∧ flow_pool_id fp = id
  | _ => False
  end.

(** A pool from which frames are sent is not invalid. *)
Definition usable (A : atx) (o : option positive) : Prop :=
  ∀ p, o = Some p → ∃ a, aP A !! p = Some a ∧ a_status a ≠ FLOW_POOL_INVALID.

Record inv (s : tx_state) (A : atx) (ord : list positive) (out : list positive) : Prop := {
  i_core : core s A None [] [];
  i_list : listed s A ord;
  i_awf : awf A;
  i_out : (aFly A).*1 = out;
  i_vdevs : vdevs_ok s;
  i_vpool : ∀ v w, vdevs s !! v = Some w → usable A (v_pool w);
  i_mgmt : usable A (mgmt_pool s);
}.

Lemma inv_pool s A ord out p fp : inv s A ord out → pools s !! p = Some fp →
  ∃ a o, aP A !! p = Some a ∧ fp = conc a o.
Proof.
  intros I Hfp. pose proof (c_pools _ _ _ _ _ (i_core _ _ _ _ I) p) as Hr. rewrite Hfp in Hr.
  inversion Hr as [? a (o & -> & _)|]; subst. eauto.
Qed.

Lemma inv_split s A ord out p : inv s A ord out → is_Some (aP A !! p) → ∃ o1 o2, ord = o1 ++ p :: o2.
Proof. intros I Hp. apply (proj2 (i_list _ _ _ _ I)) in Hp. by apply list_elem_of_split in Hp. Qed.
