(* ===== verification/TxPoolSteps.v ===== *)
(** Transmit descriptor pools: every operation keeps the system's invariant. *)
From S2P Require Import Prelude Tailq TxPool TxPoolRep TxPoolOps TxPoolLife TxPoolFlow TxPoolSystem.

(** What is shown of each operation: it has a defined behaviour, keeps the
    invariant, loses no descriptor, and leaves alone the idle pools that it
    does not use. *)
Definition step_ok (op : tx_op) (s : tx_state) (A : atx) (out : list positive) : Prop :=
  ∃ s' A' ord' out', sys_step op (s, out) = Some (s', out') ∧ inv s' A' ord' out' ∧
    owned A' [] [] ≡ₚ owned A [] [] ∧ ∀ p, ¬ uses op s p → quiet p A A'.

Lemma usable_insert A p b G F o :
  (a_status b ≠ FLOW_POOL_INVALID ∨ o ≠ Some p) →
  usable A o → usable (mk_atx G (<[p := b]> (aP A)) F) o.
Proof.
  intros Hb Hu q Hq. destruct (Hu q Hq) as (a & Ha & Hs). cbn. destruct (decide (p = q)) as [<-|Hpq].
  - rewrite lookup_insert_eq. exists b. naive_solver.
  - rewrite lookup_insert_ne by done. by exists a.
Qed.

(** * Sending a frame *)

Lemma fill_run s A d p F nb seg t :
  core s A None [] [] → aFly A = (d, p) :: F → descs s !! d = Some t → d_pool t = Some p →
  (∀ g, seg = Some g → is_Some (tso_segs s !! g)) →
  ∃ t', (mod_desc d (set_d_next nb);;
     match seg with
     | Some g => mod_desc d (set_tso_desc (Some g));; mod_desc d (set_pkt_type OL_TX_FRM_TSO)
     | None => mod_desc d (set_pkt_type OL_TX_FRM_STD)
     end;; mret (Some d)) s = Some (Some d, set_descs (<[d := t']> (descs s)) s) ∧
    core (set_descs (<[d := t']> (descs s)) s) A None [] [].
Proof.
  intros C Hf Ht Htp Hseg. mrun (mod_desc_run _ _ (set_d_next nb) _ Ht).
  assert (∀ t', d_pool t' = d_pool t → (∀ g, tso_desc t' = Some g → tso_desc t = Some g ∨ seg = Some g) →
    core (set_descs (<[d := t']> (descs s)) s) A None [] []) as Hw.
  { intros t' E1 E2. apply (core_fly_write _ _ _ _ _ _ p [] F); [done|done|congruence|].
    intros g [Hg|Hg]%E2; [|by apply Hseg]. by apply (c_tso _ _ _ _ _ C _ _ _ Ht Hg). }
  destruct seg as [g|].
  - erewrite run_bind by (erewrite run_bind by (apply mod_desc_run; cbn; apply lookup_insert_eq);
      apply mod_desc_run; cbn; apply lookup_insert_eq).
    eexists. split; [cbn; by rewrite !insert_insert_eq|]. apply Hw; [done|]. cbn. auto.
  - erewrite run_bind by (apply mod_desc_run; cbn; apply lookup_insert_eq).
    eexists. split; [cbn; by rewrite !insert_insert_eq|]. apply Hw; [done|]. cbn. auto.
Qed.

Lemma inv_stats s A ord out st : inv s A ord out → inv (set_stats st s) A ord out.
Proof. intros []. split; try done. by eapply core_ext. Qed.

Lemma owned_take p a d l A :
  aP A !! p = Some a → a_free a = d :: l → owned (a_take p a d l A) [] [] ≡ₚ owned A [] [].
Proof.
  intros Hp Hf. unfold owned, a_take. cbn. rewrite frees_insert, (frees_lookup _ _ _ Hp), Hf. cbn. solve_Permutation.
Qed.

Lemma OpTx_nothing s A ord out v mgmt nb seg st :
  inv s A ord out → sys_step (OpTx v mgmt nb seg) (s, out) = Some (set_stats st s, out) →
  step_ok (OpTx v mgmt nb seg) s A out.
Proof.
  intros I Hr. exists (set_stats st s), A, ord, out. split; [done|]. split; [by apply inv_stats|].
  split; [done|]. intros p _. apply quiet_same.
Qed.

Lemma OpTx_ok s A ord out v mgmt nb seg :
  inv s A ord out → allowed (OpTx v mgmt nb seg) (s, out) → step_ok (OpTx v mgmt nb seg) s A out.
Proof.
  intros I [[w Hv] Hseg]. cbn in Hv, Hseg.
  set (pool := if mgmt then mgmt_pool s else v_pool w).
  assert (sys_step (OpTx v mgmt nb seg) (s, out) =
    '(o, s) ← (o ← ol_tx_desc_alloc v pool;
      match o with
      | None => mret None
      | Some d => mod_desc d (set_d_next nb);;
          match seg with
          | Some g => mod_desc d (set_tso_desc (Some g));; mod_desc d (set_pkt_type OL_TX_FRM_TSO)
          | None => mod_desc d (set_pkt_type OL_TX_FRM_STD)
          end;; mret (Some d)
      end) s; Some (s, match o with Some d => d :: out | None => out end)) as Hstep.
  { cbn [sys_step]. unfold ol_tx_desc_ll, ol_tx_desc_alloc_wrapper, pool, get_vdev.
    destruct mgmt; cbn; by mstep. }
  assert (usable A pool) as Hu by (unfold pool; destruct mgmt; [apply I|by eapply (i_vpool _ _ _ _ I)]).
  assert (∀ p, ¬ uses (OpTx v mgmt nb seg) s p → pool ≠ Some p) as Huse.
  { intros p Hn Hp. apply Hn. unfold pool in Hp. cbn. destruct mgmt; [done|]. by rewrite Hv. }
  destruct pool as [p|]; [|eapply OpTx_nothing; [done|]; rewrite Hstep; done].
  destruct (Hu p eq_refl) as (a & Ha & Hs). destruct (a_free a) as [|d l] eqn:Hf.
  - eapply OpTx_nothing; [done|]. rewrite Hstep.
    by rewrite (run_bind _ _ _ _ _ (ol_tx_desc_alloc_empty _ _ v _ _ (i_core _ _ _ _ I) Ha Hf)).
  - destruct (ol_tx_desc_alloc_run _ _ v w p a d l (i_core _ _ _ _ I) Ha Hf Hv) as (s1 & Hr1 & C1 & K1 & L1 & B1 & E1).
    destruct (core_fly_lookup _ _ _ _ _ d p [] (aFly A) C1 eq_refl) as (t & Ht & Htp).
    pose proof K1 as (Kl & Kv & Km & _ & _ & Kg & _).
    destruct (fill_run s1 _ d p (aFly A) nb seg t C1 eq_refl Ht Htp) as (t' & Hr2 & C2); [by rewrite Kg|].
    exists (set_descs (<[d := t']> (descs s1)) s1), (a_take p a d l A), ord, (d :: out).
    split; [by rewrite Hstep, (run_bind _ _ _ _ _ Hr1), Hr2|]. split; [|split; [by apply owned_take|]].
    + destruct I as [C [Lr Lo] Hw Ho [V1 V2] Hvp Hm]. split; try done.
      * split; [cbn; by rewrite L1|]. intros q. rewrite Lo. cbn. destruct (decide (p = q)) as [<-|Hq];
          [rewrite lookup_insert_eq, Ha; split; by eexists|by rewrite lookup_insert_ne].
      * by apply awf_take.
      * cbn. by rewrite Ho.
      * split; cbn; rewrite Kv, ?Kl; done.
      * intros v' w'. cbn. rewrite Kv. intros Hv'. apply usable_insert; [left|by eapply Hvp].
        cbn. unfold alloc_status. by destruct (_ <? _).
      * cbn. rewrite Km. apply usable_insert; [left|done]. cbn. unfold alloc_status. by destruct (_ <? _).
    + intros q Hq%Huse. apply quiet_insert; [congruence|]. intros Hz. rewrite fly_count_cons, decide_False by congruence. done.
Qed.

(** * Completing a frame *)

Lemma a_complete_fly p a d F ord A :
  awf (a_put p a d F A) → aFly (a_complete p a d F ord A) = F.
Proof.
  intros Hw. unfold a_complete. destruct (a_status a); try done; [by destruct (_ >? _)|].
  destruct (_ =? _); [|done].
  by destruct (a_release_eq p (set_a_free (d :: a_free a) a) ord _ (awf_defs _ Hw) (lookup_insert_eq _ _ _)) as (A1 & _ & _ & ->).
Qed.

Lemma usable_complete p a d F ord A o :
  awf (a_put p a d F A) → aP A !! p = Some a → usable A o → usable (a_complete p a d F ord A) o.
Proof.
  intros Hw Hp Hu. assert (a_status a = FLOW_POOL_INVALID → o ≠ Some p) as Hne.
  { intros Hs ->. destruct (Hu p eq_refl) as (b & Hb & Hsb). congruence. }
  assert (usable (a_put p a d F A) o) as Hput.
  { apply (usable_insert A p _ _ F); [|done]. cbn. destruct (decide (a_status a = FLOW_POOL_INVALID)); auto. }
  unfold a_complete. destruct (a_status a) eqn:Es; try done.
  - destruct (_ >? _); [|done]. apply usable_insert; [by left|done].
  - destruct (_ =? _); [|done].
    destruct (a_release_eq p (set_a_free (d :: a_free a) a) ord _ (awf_defs _ Hw) (lookup_insert_eq _ _ _)) as (A1 & Sp & HP & _).
    intros q Hq. destruct (Hput q Hq) as (b & Hb & Hsb).
    destruct (spread_lookup_fwd _ _ _ _ _ Sp Hb) as (b2 & Hb2 & (_ & _ & Hs2 & _) & _).
    exists b2. rewrite HP, lookup_delete_ne by (intros <-; by apply Hne). split; [done|congruence].
Qed.

Lemma filter_ne_id (l : list positive) d : d ∉ l → filter (λ e, e ≠ d) l = l.
Proof.
  induction l as [|e l IH]; intros Hd; [done|]. apply not_elem_of_cons in Hd as [Hde Hdl].
  rewrite filter_cons_True by congruence. by rewrite IH.
Qed.

Lemma filter_drop_one (f1 f2 : list (positive * positive)) d p :
  NoDup ((f1 ++ (d, p) :: f2).*1) → filter (λ e, e ≠ d) ((f1 ++ (d, p) :: f2).*1) = (f1 ++ f2).*1.
Proof.
  rewrite !fmap_app. cbn. intros Hnd. rewrite filter_app, filter_cons_False by (intros H; by apply H).
  apply NoDup_app in Hnd as (_ & Hd & [Hd2 _]%NoDup_cons).
  rewrite !filter_ne_id; [done|done|]. intros Hx. apply (Hd d Hx), elem_of_cons. by left.
Qed.

Lemma inv_fly_nodup s A ord out : inv s A ord out → NoDup out.
Proof.
  intros I. pose proof (c_nodup _ _ _ _ _ (i_core _ _ _ _ I)) as Hnd. unfold owned in Hnd.
  rewrite <- (i_out _ _ _ _ I). apply NoDup_app in Hnd as (_ & _ & Hnd).
  apply NoDup_app in Hnd as (_ & _ & Hnd). by apply NoDup_app in Hnd as (Hnd & _).
Qed.

Lemma OpFree_ok s A ord out d :
  inv s A ord out → allowed (OpFree d) (s, out) → step_ok (OpFree d) s A out.
Proof.
  intros I Hd. cbn in Hd. rewrite <- (i_out _ _ _ _ I) in Hd.
  apply list_elem_of_fmap in Hd as ([? p] & -> & (f1 & f2 & Hf)%list_elem_of_split). cbn [fst].
  destruct (proj2 (i_awf _ _ _ _ I) (p0, p)) as [a Ha]; [rewrite Hf; set_solver|]. rename p0 into d. cbn in Ha.
  destruct (inv_split _ _ _ _ _ I ltac:(by eexists)) as (o1 & o2 & Ho).
  pose proof (i_awf _ _ _ _ I) as Hw. destruct (proj1 Hw _ _ Ha) as (_ & _ & _ & Hst & _).
  pose proof (i_list _ _ _ _ I) as Hl. rewrite Ho in Hl.
  destruct (ol_tx_desc_free_run s A p a d f1 f2 o1 o2 (i_core _ _ _ _ I) Hl Ha Hf (awf_defs _ Hw) Hst)
    as (s' & Hr & C' & L' & (Kl & Kv & Km & _) & _ & _ & O').
  eexists s', _, _, (filter (λ e, e ≠ d) out). split; [cbn; by rewrite Hr|].
  pose proof (awf_put _ _ _ _ _ _ Hw Ha Hf) as Hwp.
  split; [|split; [exact O'|]].
  - pose proof (inv_fly_nodup _ _ _ _ I) as Hnd. rewrite <- (i_out _ _ _ _ I), Hf in Hnd.
    split; [exact C'|exact L'|by apply awf_complete| | | |].
    + rewrite a_complete_fly by done. rewrite <- (i_out _ _ _ _ I), Hf. by rewrite filter_drop_one.
    + destruct (i_vdevs _ _ _ _ I) as [V1 V2]. split; rewrite Kv, ?Kl; done.
    + intros v w. rewrite Kv. intros Hv. apply usable_complete; [done..|]. by eapply (i_vpool _ _ _ _ I).
    + rewrite Km. apply usable_complete; [done..|]. apply I.
  - intros q _ b Hb Hz. assert (q ≠ p) as Hq.
    { intros ->. by apply (fly_count_zero p (aFly A) (d, p)); [|rewrite Hf; set_solver|]. }
    by apply (quiet_complete q p a d f1 f2 _ A Hw Ha Hf Hq).
Qed.

(** * Mapping and unmapping *)

Lemma inv_repoint s A ord out v w vp p a o m :
  inv s A ord out → pools s !! p = Some (conc a o) → aP A !! p = Some a → vdevs s !! v = Some w →
  (∀ q, vp = Some q → q = p ∧ a_status a ≠ FLOW_POOL_INVALID) →
  inv (repoint v w vp p a o m s) (set_aP (<[p := set_a_member m a]> (aP A)) A) ord out.
Proof.
  intros [C [Lr Lo] Hw Ho Hv Hvp Hm] Hfp Ha Hvw Hp. split.
  - by apply repoint_core.
  - split; [done|]. intros q. rewrite Lo. cbn. destruct (decide (p = q)) as [<-|Hq];
      [rewrite lookup_insert_eq, Ha; split; by eexists|by rewrite lookup_insert_ne].
  - by apply (awf_update p a).
  - done.
  - by apply repoint_vdevs.
  - assert (∀ x, usable A x → usable (set_aP (<[p := set_a_member m a]> (aP A)) A) x) as Hu.
    { intros x Hx. apply usable_insert; [|done]. destruct (decide (a_status a = FLOW_POOL_INVALID)) as [Hs|Hs]; [|by left].
      right. intros ->. destruct (Hx p eq_refl) as (b & Hb & Hsb). congruence. }
    intros v' w'. cbn. destruct (decide (v = v')) as [<-|Hne].
    + rewrite lookup_insert_eq. intros [= <-] q Hq. destruct (Hp q Hq) as [-> Hs].
      exists (set_a_member m a). cbn. by rewrite lookup_insert_eq.
    + rewrite lookup_insert_ne by done. intros Hv'. by eapply Hu, Hvp.
  - cbn. apply usable_insert; [|done]. destruct (decide (a_status a = FLOW_POOL_INVALID)) as [Hs|Hs]; [|by left].
    right. intros E. destruct (Hm p E) as (b & Hb & Hsb). congruence.
Qed.

Lemma usable_delete A p a o :
  o ≠ Some p → usable A o → usable (a_delete p a false A) o.
Proof.
  intros Ho Hu q Hq. destruct (Hu q Hq) as (b & Hb & Hs). exists b. unfold a_delete. cbn.
  assert (p ≠ q) by congruence.
  destruct (frees_pool a false); [rewrite lookup_delete_ne by done|rewrite lookup_insert_ne by done]; done.
Qed.

Lemma inv_delete s A ord out p a :
  inv s A ord out → aP A !! p = Some a → mgmt_pool s ≠ Some p →
  (∀ v w, vdevs s !! v = Some w → v_pool w ≠ Some p) →
  ∃ s' ord', ol_tx_delete_flow_pool (Some p) false s = Some (0, s') ∧ inv s' (a_delete p a false A) ord' out.
Proof.
  intros I Ha Hnm Hnv. destruct (inv_split _ _ _ _ _ I ltac:(by eexists)) as (o1 & o2 & ->).
  destruct I as [C L Hw Ho Hv Hvp Hm]. destruct (proj1 Hw _ _ Ha) as (H1 & H2 & H3 & _).
  pose proof (fly_count_nonneg p (aFly A)).
  destruct (ol_tx_delete_flow_pool_run p false s A a o1 o2 C L Ha ltac:(lia)) as (s' & Hr & K & _ & _ & C' & L').
  destruct K as (Kl & Kv & Km & _). exists s'. eexists. split; [exact Hr|].
  split; [exact C'|exact L'|by apply awf_delete|done| | |].
  - destruct Hv as [V1 V2]. split; rewrite Kv, ?Kl; done.
  - intros v w. rewrite Kv. intros Hvw. apply usable_delete; [by eapply Hnv|by eapply Hvp].
  - rewrite Km. by apply usable_delete.
Qed.

Lemma inv_create s A ord out p id size :
  inv s A ord out → aP A !! p = None → id ≠ INVALID_FLOW_ID → 0 ≤ size < 65536 →
  ∃ s', ol_tx_create_flow_pool (Some p) id size s = Some (Some p, s') ∧
    inv s' (a_create s p id size A) (ord ++ [p]) out ∧ mgmt_pool s' = mgmt_pool s ∧ vdevs s' = vdevs s.
Proof.
  intros I Hp Hid Hsz. destruct I as [C L Hw Ho Hv Hvp Hm].
  destruct (ol_tx_create_flow_pool_run p id size s A ord C L Hp Hsz) as (s' & Hr & K & _ & _ & C' & L').
  destruct K as (Kl & Kv & Km & _). exists s'. split; [done|]. split; [|done].
  assert (∀ o, usable A o → usable (a_create s p id size A) o) as Hu by (intros o; apply usable_insert; by left).
  split; [exact C'|exact L'|by apply awf_create|done| | |].
  - destruct Hv as [V1 V2]. split; rewrite Kv, ?Kl; done.
  - intros v w. rewrite Kv. intros Hvw. by eapply Hu, Hvp.
  - rewrite Km. by apply Hu.
Qed.

Lemma usable_none A p o : aP A !! p = None → usable A o → o ≠ Some p.
Proof. intros Hp Hu ->. destruct (Hu p eq_refl) as (a & Ha & _). congruence. Qed.

(** The message maps a vdev to a pool that exists. *)
Lemma map_existing s A ord out p a f :
  inv s A ord out → aP A !! p = Some a → a_status a ≠ FLOW_POOL_INVALID →
  ∃ s' A', ol_tx_flow_pool_vdev_map p f s = Some (tt, s') ∧ inv s' A' ord out ∧
    owned A' [] [] ≡ₚ owned A [] [] ∧ ∀ q, quiet q A A'.
Proof.
  intros I Ha Hs. destruct (vdev_map_run p f s A a (i_core _ _ _ _ I) Ha (i_vdevs _ _ _ _ I)) as [Hr|(v & w & o & Hv & Hid & Hfp & Hr)].
  - exists s, A. split; [done|]. split; [done|]. split; [done|]. intros q. apply quiet_same.
  - eexists _, _. split; [exact Hr|]. split; [apply inv_repoint; try done; by intros q [= ->]|].
    split; [by apply owned_set_pool with a|]. intros q. destruct (decide (q = p)) as [->|Hq].
    + intros b Hb Hz. exists (set_a_member f a). cbn. rewrite lookup_insert_eq.
      assert (b = a) as -> by congruence. by split_and!.
    + by apply quiet_insert.
Qed.

Lemma OpMap_ok s A ord out m f t id size :
  inv s A ord out → allowed (OpMap m f t id size) (s, out) → step_ok (OpMap m f t id size) s A out.
Proof.
  intros I (Hid & Hsz & Hm). cbn in Hm. unfold step_ok. cbn [sys_step fst snd]. unfold ol_tx_flow_pool_map_handler. mstep.
  match goal with |- context [set_stats ?st s] => set (s1 := set_stats st s) end.
  assert (inv s1 A ord out) as I1 by by apply inv_stats.
  destruct (ol_tx_get_flow_pool_run id s1 A ord (i_core _ _ _ _ I1) (i_list _ _ _ _ I1)) as ([p|] & Hr & Hrr); mrun Hr.
  - destruct Hrr as (_ & a & Ha & Hida). mstep. cbv iota. destruct (t =? FLOW_TYPE_VDEV).
    + destruct (map_existing s1 A ord out p a f I1 Ha) as (s' & A' & Hr' & I' & O' & Q').
      { intros Hs. apply (proj1 (i_awf _ _ _ _ I) _ _ Ha) in Hs. congruence. }
      rewrite Hr'. exists s', A', ord, out. cbn. auto.
    + rewrite bool_decide_false by done. exists s1, A, ord, out. cbn. split_and!; try done. intros p' _. apply quiet_same.
  - destruct m as [p|]; [|exists s1, A, ord, out; cbn; split_and!; try done; intros p' _; apply quiet_same].
    assert (aP A !! p = None) as Hp.
    { destruct (aP A !! p) eqn:E; [|done]. destruct (core_pool _ _ _ _ _ _ _ (i_core _ _ _ _ I) E) as (fp & Hfp & _).
      specialize (Hm p eq_refl). congruence. }
    destruct (inv_create s1 A ord out p id size I1 Hp Hid Hsz) as (s2 & Hr2 & I2 & Em & Ev). mrun Hr2.
    pose proof (lookup_insert_eq (aP A) p (a_new s1 id size (aG A))) as Ha2.
    assert (∀ q, quiet q A (a_create s1 p id size A)) as Q2.
    { intros q. destruct (decide (q = p)) as [->|Hq]; [intros b Hb; congruence|by apply (quiet_insert q p)]. }
    pose proof (owned_create s1 p id size A Hp) as O2.
    destruct (t =? FLOW_TYPE_VDEV).
    + destruct (map_existing s2 _ _ out p _ f I2 Ha2) as (s3 & A3 & Hr3 & I3 & O3 & Q3); [done|].
      rewrite Hr3. exists s3, A3, (ord ++ [p]), out. cbn. split; [done|]. split; [done|].
      split; [by etrans|]. intros q _ b Hb Hz. destruct (Q2 q b Hb Hz) as (b2 & Hb2 & E1 & E2 & E3 & E4).
      destruct (Q3 q b2 Hb2 E4) as (b3 & Hb3 & F1 & F2 & F3 & F4). exists b3. split_and!; try done; [congruence..|lia].
    + rewrite bool_decide_true by done. cbn [when].
      destruct (inv_delete s2 _ _ out p _ I2 Ha2) as (s3 & ord3 & Hr3 & I3).
      { rewrite Em. eapply usable_none; [exact Hp|apply I]. }
      { intros v w. rewrite Ev. intros Hv. eapply usable_none; [exact Hp|by eapply (i_vpool _ _ _ _ I)]. }
      mrun Hr3. exists s3. eexists _, ord3, out. split; [done|]. split; [exact I3|].
      split; [etrans; [by apply owned_delete|done]|]. intros q _ b Hb Hz.
      assert (q ≠ p) as Hq by congruence. destruct (Q2 q b Hb Hz) as (b2 & Hb2 & E1 & E2 & E3 & E4).
      destruct (quiet_delete q p (a_new s1 id size (aG A)) false _ Hq b2 Hb2 E4) as (b3 & Hb3 & F1 & F2 & F3 & F4).
      exists b3. split_and!; try done; [congruence..|lia].
Qed.

Lemma quiet_trans p A1 A2 A3 : quiet p A1 A2 → quiet p A2 A3 → quiet p A1 A3.
Proof.
  intros Q2 Q3 b Hb Hz. destruct (Q2 b Hb Hz) as (b2 & Hb2 & E1 & E2 & E3 & E4).
  destruct (Q3 b2 Hb2 E4) as (b3 & Hb3 & F1 & F2 & F3 & F4). exists b3. split_and!; try done; [congruence..|lia].
Qed.

(** Finding a pool does not look at the statistics. *)
Lemma find_pool_stats st l id s r : find_pool l id s = Some (r, s) →
  find_pool l id (set_stats st s) = Some (r, set_stats st s).
Proof.
  induction l as [|p l IH]; cbn [find_pool]; [by intros [= <-]|]. intros H.
  apply run_bind_inv in H as (fp & s1 & Hg & H). unfold get_pool in Hg. minv.
  match goal with Hp : pools ?s0 !! p = Some _ |- _ => mrun (get_pool_run (set_stats st s0) p _ Hp) end.
  destruct (_ =? _); [minv; by simplify_eq|by apply IH].
Qed.
Lemma find_stats_run st id s r : ol_tx_get_flow_pool id s = Some (r, s) →
  ol_tx_get_flow_pool id (set_stats st s) = Some (r, set_stats st s).
Proof.
  unfold ol_tx_get_flow_pool. intros H. minv. mstep. by apply find_pool_stats.
Qed.
Lemma find_stats st id s r r' : ol_tx_get_flow_pool id s = Some (r, s) →
  ol_tx_get_flow_pool id (set_stats st s) = Some (r', set_stats st s) → r' = r.
Proof. intros H. rewrite (find_stats_run _ _ _ _ H). congruence. Qed.

(** After the unmap no vdev points to the pool. *)
Lemma unmap_pointers s A ord out p a f :
  inv s A ord out → aP A !! p = Some a → a_status a ≠ FLOW_POOL_INVALID →
  (∀ v w, vdevs s !! v = Some w → v_pool w = Some p → vdev_id w = f) →
  ∃ s' a', ol_tx_flow_pool_vdev_unmap p f s = Some (tt, s') ∧ inv s' (set_aP (<[p := a']> (aP A)) A) ord out ∧
    a_free a' = a_free a ∧ a_size a' = a_size a ∧ mgmt_pool s' = mgmt_pool s ∧
    ∀ v w, vdevs s' !! v = Some w → v_pool w ≠ Some p.
Proof.
  intros I Ha Hs Hf.
  destruct (vdev_unmap_run p f s A a (i_core _ _ _ _ I) Ha (i_vdevs _ _ _ _ I)) as [[Hr Hno]|(v & w & o & Hv & Hid & Hfp & Hr)].
  - exists s, a. split; [done|]. split; [|split; [done|split; [done|split; [done|]]]].
    + rewrite insert_id by done. by destruct A.
    + intros v w Hv Hp. by apply (Hno v w), (Hf v w).
  - eexists _, (set_a_member INVALID_FLOW_ID a). split; [exact Hr|].
    split; [by apply inv_repoint|]. do 3 (split; [done|]).
    intros v' w'. cbn. destruct (decide (v = v')) as [<-|Hne].
    + rewrite lookup_insert_eq. intros [= <-]. done.
    + rewrite lookup_insert_ne by done. intros Hv' Hp. apply Hne.
      apply (proj2 (i_vdevs _ _ _ _ I) v v' w w' Hv Hv'). rewrite Hid. symmetry. by eapply Hf.
Qed.

(** The unmap message of a pool that exists *)
Lemma unmap_run s A ord out p a f :
  inv s A ord out → ol_tx_get_flow_pool (a_id a) s = Some (Some p, s) → aP A !! p = Some a →
  allowed (OpUnmap f FLOW_TYPE_VDEV (a_id a)) (s, out) →
  ∃ s' a' ord', sys_step (OpUnmap f FLOW_TYPE_VDEV (a_id a)) (s, out) = Some (s', out) ∧
    inv s' (a_delete p a' false (set_aP (<[p := a']> (aP A)) A)) ord' out ∧
    a_free a' = a_free a ∧ a_size a' = a_size a.
Proof.
  intros I Hfind Ha (Hid & Hg). cbn in Hg. cbn [sys_step fst snd]. unfold ol_tx_flow_pool_unmap_handler. mstep.
  match goal with |- context [set_stats ?st s] => set (s1 := set_stats st s) end.
  assert (inv s1 A ord out) as I1 by by apply inv_stats.
  destruct (ol_tx_get_flow_pool_run (a_id a) s1 A ord (i_core _ _ _ _ I1) (i_list _ _ _ _ I1)) as (r & Hr & _).
  assert (r = Some p) as -> by (eapply find_stats; [exact Hfind|exact Hr]).
  mrun Hr. destruct (core_pool _ _ _ _ _ _ _ (i_core _ _ _ _ I1) Ha) as (fp & Hfp & o & -> & _).
  destruct (Hg p _ Hfp eq_refl) as [Hm Hv].
  destruct (unmap_pointers s1 A ord out p a f I1 Ha) as (s2 & a' & Hr2 & I2 & Hfa & Hsz & Em & Hnv); [|done|].
  { intros Hs. apply (proj1 (i_awf _ _ _ _ I) _ _ Ha) in Hs. congruence. }
  rewrite Z.eqb_refl. mrun Hr2. assert (aP (set_aP (<[p := a']> (aP A)) A) !! p = Some a') as Ha2 by apply lookup_insert_eq.
  destruct (inv_delete s2 _ ord out p a' I2 Ha2) as (s3 & ord3 & Hr3 & I3); [by rewrite Em|done|].
  mrun Hr3. by exists s3, a', ord3.
Qed.

Lemma OpUnmap_ok s A ord out f t id :
  inv s A ord out → allowed (OpUnmap f t id) (s, out) → step_ok (OpUnmap f t id) s A out.
Proof.
  intros I Hal. unfold step_ok.
  assert (∀ st, ∃ s' A' ord' out', Some (set_stats st s, out) = Some (s', out') ∧ inv s' A' ord' out' ∧ owned A' [] [] ≡ₚ owned A [] [] ∧
    ∀ p, ¬ uses (OpUnmap f t id) s p → quiet p A A') as Hnone.
  { intros st. exists (set_stats st s), A, ord, out. split_and!; try done; [by apply inv_stats|]. intros p _. apply quiet_same. }
  destruct (ol_tx_get_flow_pool_run id s A ord (i_core _ _ _ _ I) (i_list _ _ _ _ I)) as (r & Hfind & Hrr).
  destruct r as [p|]; [destruct (Z.eqb_spec t FLOW_TYPE_VDEV) as [->|Ht]|].
  - destruct Hrr as (_ & a & Ha & <-). destruct (unmap_run s A ord out p a f I Hfind Ha Hal) as (s3 & a' & ord3 & Hr & I3 & Hfa & _).
    eexists s3, _, ord3, out. split; [exact Hr|]. split; [exact I3|]. split.
    + etrans; [apply owned_delete, lookup_insert_eq|]. by apply owned_set_pool with a.
    + intros q Hq. destruct (core_pool _ _ _ _ _ _ _ (i_core _ _ _ _ I) Ha) as (fp & Hfp & o & -> & _).
      assert (q ≠ p) as Hqp by (intros ->; apply Hq; by eexists).
      eapply quiet_trans; [by apply (quiet_insert q p a')|by apply quiet_delete].
  - cbn [sys_step fst snd]. unfold ol_tx_flow_pool_unmap_handler. mstep.
    match goal with |- context [set_stats ?st s] => mrun (find_stats_run st id s _ Hfind) end.
    rewrite (proj2 (Z.eqb_neq _ _) Ht). apply Hnone.
  - cbn [sys_step fst snd]. unfold ol_tx_flow_pool_unmap_handler. mstep.
    match goal with |- context [set_stats ?st s] => mrun (find_stats_run st id s _ Hfind) end. apply Hnone.
Qed.

(** Every operation that is allowed keeps the invariant. *)
Lemma sys_step_ok op s A ord out : inv s A ord out → allowed op (s, out) → step_ok op s A out.
Proof.
  destruct op; [by apply OpMap_ok|by apply OpUnmap_ok|by apply OpTx_ok|by apply OpFree_ok].
Qed.

(** * Runs *)

Lemma sys_run_ok ops s A ord out :
  inv s A ord out → legal ops (s, out) →
  ∃ s' A' ord' out', sys_run ops (s, out) = Some (s', out') ∧ inv s' A' ord' out' ∧
    owned A' [] [] ≡ₚ owned A [] [].
Proof.
  revert s A ord out. induction ops as [|op ops IH]; intros s A ord out I Hl.
  - exists s, A, ord, out. by split_and!.
  - destruct Hl as [Ha Hl]. destruct (sys_step_ok op s A ord out I Ha) as (s1 & A1 & ord1 & out1 & Hr & I1 & O1 & _).
    destruct (IH _ _ _ _ I1 (Hl _ Hr)) as (s2 & A2 & ord2 & out2 & Hr2 & I2 & O2).
    exists s2, A2, ord2, out2. cbn [sys_run]. rewrite Hr. split; [done|]. split; [done|]. by etrans.
Qed.

(** What the invariant says of the numbers in the pdev. *)

(** The descriptors in flight that came from a pool *)
Definition outstanding (s : tx_state) (out : list positive) (p : positive) : Z :=
  Z.of_nat (length (filter (λ d, (descs s !! d ≫= d_pool) = Some p) out)).

Lemma outstanding_fly s A ord out p : inv s A ord out → outstanding s out p = fly_count p (aFly A).
Proof.
  intros I. unfold outstanding, fly_count. rewrite <- (i_out _ _ _ _ I). f_equal.
  pose proof (c_fly _ _ _ _ _ (i_core _ _ _ _ I)) as Hf. induction Hf as [|[d q] F (t & Ht & Htq) Hf IH]; [done|].
  rewrite fmap_cons, !filter_cons. cbn [fst snd] in *.
  assert ((descs s !! d ≫= d_pool) = Some q) as -> by (rewrite Ht; exact Htq).
  destruct (decide (Some q = Some p)), (decide (q = p)); try congruence; cbn [length]; by rewrite IH.
Qed.

Lemma sum_avail_run l s A acc :
  core s A None [] [] → 0 ≤ acc →
  acc + Z.of_nat (length (concat ((λ p, from_option a_free [] (aP A !! p)) <$> l))) < 65536 →
  (∀ p, p ∈ l → is_Some (aP A !! p)) →
  sum_avail l acc s = Some (acc + Z.of_nat (length (concat ((λ p, from_option a_free [] (aP A !! p)) <$> l))), s).
Proof.
  intros C. revert acc. induction l as [|p l IH]; intros acc Hacc Hlt Hl; [by rewrite Z.add_0_r|].
  destruct (Hl p ltac:(set_solver)) as [a Ha]. destruct (core_pool _ _ _ _ _ _ _ C Ha) as (fp & Hfp & fl & -> & _).
  cbn [sum_avail fmap list_fmap concat] in *. rewrite Ha in *. cbn [from_option] in *. rewrite length_app in *.
  mrun (get_pool_run _ _ _ Hfp). cbn [avail_desc conc]. rewrite wrap_small by lia.
  rewrite IH; [do 2 f_equal; lia|lia|lia|set_solver].
Qed.

(** The lists of the pools, in the order of the pool list *)
Lemma frees_order (P : gmap positive apool) ord :
  NoDup ord → (∀ p, p ∈ ord ↔ is_Some (P !! p)) →
  concat ((λ p, from_option a_free [] (P !! p)) <$> ord) ≡ₚ frees P.
Proof.
  revert P. induction ord as [|p ord IH]; intros P Hnd Ho.
  - replace P with (∅ : gmap positive apool); [done|]. symmetry. apply map_empty. intros q.
    apply eq_None_not_Some. intros Hq%Ho. set_solver.
  - apply NoDup_cons in Hnd as [Hp Hnd]. destruct (proj1 (Ho p) ltac:(set_solver)) as [a Ha].
    cbn. rewrite Ha, (frees_lookup _ _ _ Ha). cbn. f_equiv. rewrite <- (IH (delete p P)); [|done|].
    + apply reflexive_eq. f_equal. apply list_fmap_ext. intros i q Hq. rewrite lookup_delete_ne; [done|].
      intros <-. apply Hp. by eapply list_elem_of_lookup_2.
    + intros q. destruct (decide (p = q)) as [<-|Hq].
      * rewrite lookup_delete_eq. split; [done|by intros []].
      * rewrite lookup_delete_ne, <- Ho by done. set_solver.
Qed.

Lemma total_free_run s A ord out :
  inv s A ord out →
  ol_tx_get_total_free_desc s = Some (Z.of_nat (size (descs s)) - Z.of_nat (length out), s).
Proof.
  intros I. pose proof (i_core _ _ _ _ I) as C. destruct (i_list _ _ _ _ I) as [Lr Lo].
  unfold ol_tx_get_total_free_desc. mstep. rewrite (TAILQ_FOREACH_ok _ _ Lr). mstep.
  pose proof (frees_order (aP A) ord (proj1 Lr) Lo) as Hp. apply Permutation_length in Hp.
  pose proof (core_lengths _ _ _ _ _ C) as Hlen. pose proof (owned_length _ _ _ _ _ C) as Ho.
  unfold owned in Ho. rewrite !length_app in Ho. cbn [length] in Ho.
  rewrite <- (i_out _ _ _ _ I) in *. rewrite length_fmap in *.
  rewrite (sum_avail_run ord s A); [|done|rewrite (c_num _ _ _ _ _ C); lia|rewrite (c_num _ _ _ _ _ C); lia|intros p; apply Lo].
  rewrite (c_num _ _ _ _ _ C), Hp. do 2 f_equal. lia.
Qed.
