(* ===== verification/TxPoolTheorems.v ===== *)
(** Transmit descriptor pools: what holds of every run of the driver, from
    its attachment on. *)
From S2P Require Import Prelude Tailq TxPool TxPoolRep TxPoolOps TxPoolLife TxPoolFlow TxPoolSystem TxPoolSteps.

(** * The start *)

(** The pdev as its attachment leaves it: the descriptors [l] are linked on the
    global free list, there is no pool, and no vdev has one. *)
Record attached (s : tx_state) (l : list positive) : Prop := {
  at_nodup : NoDup l;
  at_dom : ∀ d, is_Some (descs s !! d) ↔ d ∈ l;
  at_size : Z.of_nat (size (descs s)) < 65536;
  at_free : dlist (descs s) (tx_freelist s) l;
  at_num : num_free s = Z.of_nat (length l);
  at_pools : pools s = ∅;
  at_mgmt : mgmt_pool s = None;
  at_vdevs : vdevs_ok s;
  at_vpool : ∀ v w, vdevs s !! v = Some w → v_pool w = None;
  at_tso : ∀ d t, descs s !! d = Some t → tso_desc t = None;
}.

Lemma attached_inv s l q :
  attached s l → rep q [] → inv (set_flow_pool_list q s) (mk_atx l ∅ []) [] [].
Proof.
  intros [Hnd Hdom Hsz Hl Hn Hp Hm Hv Hvp Ht] Hq. split.
  - split; try done.
    + unfold owned. cbn. by rewrite app_nil_r.
    + intros d. cbn. rewrite Hdom. unfold owned. cbn. by rewrite app_nil_r.
    + intros p. cbn. rewrite Hp, !lookup_empty. constructor.
    + intros d t g Hd Hg. cbn in Hd. rewrite (Ht _ _ Hd) in Hg. done.
  - split; [done|]. intros p. cbn. rewrite lookup_empty. split; [set_solver|by intros []].
  - split; [intros p a Ha|intros x Hx]; cbn in *; [by rewrite lookup_empty in Ha|set_solver].
  - done.
  - done.
  - intros v w Hw p. cbn in Hw. by rewrite (Hvp _ _ Hw).
  - intros p. cbn. by rewrite Hm.
Qed.

Lemma core_mgmt s A o h x p : core s A o h x → core (set_mgmt_pool p s) A o h x.
Proof. intros C. by eapply core_ext. Qed.

Lemma register_ok s l m :
  attached s l → ∃ s1 A1 ord1, ol_tx_register_flow_control m s = Some (tt, s1) ∧ inv s1 A1 ord1 [] ∧
    owned A1 [] [] ≡ₚ l.
Proof.
  intros Hat. unfold ol_tx_register_flow_control.
  destruct (TAILQ_INIT_rep (flow_pool_list s)) as (q & Hq & Hrep & _).
  erewrite on_pool_list_run by exact Hq. mstep. pose proof (attached_inv s l q Hat Hrep) as I.
  set (s0 := set_flow_pool_list q s) in *.
  assert (owned (mk_atx l ∅ []) [] [] = l) as Hl by (unfold owned; cbn; by rewrite app_nil_r).
  destruct (is_mgmt_over_wmi_enabled s0 =? 0); cbn [when];
    [|exists s0, (mk_atx l ∅ []), []; by rewrite Hl].
  destruct m as [p|].
  - destruct (inv_create s0 _ _ _ p TX_FLOW_MGMT_POOL_ID TX_FLOW_MGMT_POOL_SIZE I) as (s1 & Hr & I1 & Em & _); [done..|].
    mrun Hr. eexists _, _, _. split; [done|]. split.
    + destruct I1 as [C L Hw Ho Hv Hvp Hm]. split; try done; [by apply core_mgmt|].
      intros x [= <-]. eexists. split; [apply lookup_insert_eq|done].
    + rewrite owned_create by done. by rewrite Hl.
  - exists (set_mgmt_pool None s0), (mk_atx l ∅ []), []. rewrite Hl. split; [done|]. split; [|done].
    destruct I as [C L Hw Ho Hv Hvp Hm].
    split; try done. by apply core_mgmt.
Qed.

(** The states that the driver can reach, with the descriptors in flight *)
Definition reachable (x : sys) : Prop :=
  ∃ s0 l m s1 ops, attached s0 l ∧ ol_tx_register_flow_control m s0 = Some (tt, s1) ∧
    legal ops (s1, []) ∧ sys_run ops (s1, []) = Some x.

Lemma reachable_inv s out : reachable (s, out) → ∃ A ord, inv s A ord out.
Proof.
  intros (s0 & l & m & s1 & ops & Hat & Hr & Hl & Hrun).
  destruct (register_ok s0 l m Hat) as (s1' & A1 & ord1 & Hr' & I1 & _).
  rewrite Hr in Hr'. injection Hr' as <-.
  destruct (sys_run_ok ops s1 A1 ord1 [] I1 Hl) as (s2 & A2 & ord2 & out2 & Hrun2 & I2 & _).
  rewrite Hrun in Hrun2. injection Hrun2 as <- <-. by exists A2, ord2.
Qed.

Lemma inv_size s A ord out : inv s A ord out → size (descs s) = length (owned A [] []).
Proof. intros I. symmetry. exact (owned_length _ _ _ _ _ (i_core _ _ _ _ I)). Qed.

(** C6. From the attachment on, map and unmap messages, transmissions and
    completions, one at a time and as [legal] has them, never make the flow
    control dereference a bad pointer, and none makes or loses a descriptor:
    the driver's own count of its free descriptors is the number of
    descriptors less those in flight, and of each pool the available, the
    deficient and the outstanding descriptors are together its size.
    [legal] is what the code relies on without checking it: a map message
    names an identifier other than 255 and a 16-bit size, and the allocator
    returns memory that is no pool; an unmap message names an identifier
    other than 255, not the management pool, and the only vdev that points to
    the pool; a frame is sent on a vdev that exists, with a segment that
    exists; a descriptor is completed while it is in flight.  A pool that two
    vdevs share, or that is unmapped under another vdev's identifier, leaves
    a vdev with a pointer to freed memory ([shared_pool_dangles],
    [wrong_vdev_dangles] in TxPoolSamples). *)
Theorem tx_pools_account s0 l m :
  attached s0 l →
  ∃ s1, ol_tx_register_flow_control m s0 = Some (tt, s1) ∧
    ∀ ops, legal ops (s1, []) →
    ∃ s2 out, sys_run ops (s1, []) = Some (s2, out) ∧ NoDup out ∧
      ol_tx_get_total_free_desc s2 = Some (Z.of_nat (length l) - Z.of_nat (length out), s2) ∧
      ∀ p fp, pools s2 !! p = Some fp →
        flow_pool_size fp = avail_desc fp + deficient_desc fp + outstanding s2 out p.
Proof.
  intros Hat. destruct (register_ok s0 l m Hat) as (s1 & A1 & ord1 & Hr & I1 & O1).
  exists s1. split; [done|]. intros ops Hl.
  destruct (sys_run_ok ops s1 A1 ord1 [] I1 Hl) as (s2 & A2 & ord2 & out & Hrun & I2 & O2).
  exists s2, out. split; [done|]. split; [by eapply inv_fly_nodup|]. split.
  - rewrite (total_free_run _ _ _ _ I2), (inv_size _ _ _ _ I2). do 3 f_equal. by rewrite O2, O1.
  - intros p fp Hfp. destruct (inv_pool _ _ _ _ _ _ I2 Hfp) as (a & o & Ha & ->).
    rewrite (outstanding_fly _ _ _ _ p I2). by apply (proj1 (i_awf _ _ _ _ I2)).
Qed.

(** Creating a pool gives it the descriptors it asks for as far as the
    global pool has them, the rest is its deficit; its thresholds are the
    configured percentages of its size. *)
Theorem ol_tx_create_flow_pool_spec s out p id size :
  reachable (s, out) → pools s !! p = None → id ≠ INVALID_FLOW_ID → 0 ≤ size < 65536 →
  0 ≤ tx_flow_stop_queue_th s → 0 ≤ tx_flow_start_queue_offset s →
  tx_flow_stop_queue_th s + tx_flow_start_queue_offset s ≤ 100 →
  ∃ s' fp, ol_tx_create_flow_pool (Some p) id size s = Some (Some p, s') ∧ pools s' !! p = Some fp ∧
    avail_desc fp = Z.min size (num_free s) ∧ num_free s' = num_free s - avail_desc fp ∧
    deficient_desc fp = size - avail_desc fp ∧ flow_pool_size fp = size ∧ flow_pool_id fp = id ∧
    status fp = FLOW_POOL_ACTIVE_UNPAUSED ∧
    stop_th fp = (tx_flow_stop_queue_th s * size) `div` 100 ∧
    start_th fp = ((tx_flow_stop_queue_th s + tx_flow_start_queue_offset s) * size) `div` 100 ∧
    stop_th fp ≤ start_th fp ≤ size.
Proof.
  intros (A & ord & I)%reachable_inv Hp Hid Hsz Hst Hof Hsum.
  assert (aP A !! p = None) as Ha.
  { destruct (aP A !! p) eqn:E; [|done]. destruct (core_pool _ _ _ _ _ _ _ (i_core _ _ _ _ I) E) as (fp & Hfp & _). congruence. }
  destruct (inv_create s A ord out p id size I Ha Hid Hsz) as (s' & Hr & I' & _).
  destruct (core_pool _ _ _ _ _ p _ (i_core _ _ _ _ I') (lookup_insert_eq _ _ _)) as (fp & Hfp & o & -> & _).
  eexists s', _. split; [done|]. split; [exact Hfp|]. cbn [conc avail_desc deficient_desc flow_pool_size flow_pool_id status stop_th start_th].
  rewrite (c_num _ _ _ _ _ (i_core _ _ _ _ I)), (c_num _ _ _ _ _ (i_core _ _ _ _ I')).
  unfold a_create, a_new, stop_of, start_of. cbn. rewrite length_rev, length_take, length_drop.
  set (st := tx_flow_stop_queue_th s) in *. set (off := tx_flow_start_queue_offset s) in *.
  rewrite (wrap_small 32 st), (wrap_small 32 (st + off)), (wrap_small 32 (st * size)), (wrap_small 32 ((st + off) * size)) by nia.
  assert ((st * size) `div` 100 ≤ ((st + off) * size) `div` 100) by (apply Z.div_le_mono; nia).
  assert (((st + off) * size) `div` 100 ≤ size) by (apply Z.div_le_upper_bound; nia).
  assert (0 ≤ (st * size) `div` 100) by (apply Z.div_pos; nia).
  rewrite (wrap_small 16 ((st * size) `div` 100)), (wrap_small 16 (((st + off) * size) `div` 100)) by lia.
  split_and!; try done; lia.
Qed.

(** When the last descriptor of an invalid pool that lacks none comes back,
    the pool is freed and leaves the invalid bin, and its descriptors go back
    to the deficient pools and to the global one. *)
Theorem last_completion_releases s out d t p fp :
  reachable (s, out) → d ∈ out → descs s !! d = Some t → d_pool t = Some p → pools s !! p = Some fp →
  status fp = FLOW_POOL_INVALID → deficient_desc fp = 0 → outstanding s out p = 1 →
  ∃ s', ol_tx_desc_free d s = Some (tt, s') ∧ pools s' !! p = None ∧
    num_invalid_bin s' = u8 (num_invalid_bin s - 1) ∧ tx_events s' = tx_events s ∧
    ol_tx_get_total_free_desc s' =
      Some (Z.of_nat (size (descs s)) - Z.of_nat (length out) + 1, s').
Proof.
  intros (A & ord & I)%reachable_inv Hd Ht Htp Hfp Hst Hdef Hone.
  pose proof Hd as Hd'. rewrite <- (i_out _ _ _ _ I) in Hd'.
  apply list_elem_of_fmap in Hd' as ([d' q] & -> & (f1 & f2 & Hf)%list_elem_of_split). cbn [fst] in *.
  destruct (core_fly_lookup _ _ _ _ _ _ _ _ _ (i_core _ _ _ _ I) Hf) as (t' & Ht' & Htq).
  assert (q = p) as -> by congruence. clear t' Ht' Htq.
  destruct (inv_pool _ _ _ _ _ _ I Hfp) as (a & o & Ha & ->). cbn in Hst, Hdef.
  destruct (inv_split _ _ _ _ _ I ltac:(by eexists)) as (o1 & o2 & Ho).
  pose proof (i_awf _ _ _ _ I) as Hw. destruct (proj1 Hw _ _ Ha) as (_ & _ & Hb & Hna & _).
  rewrite (outstanding_fly _ _ _ _ _ I) in Hone. rewrite Hone, Hdef in Hb.
  pose proof (i_list _ _ _ _ I) as Hl. rewrite Ho in Hl.
  destruct (ol_tx_desc_free_run s A p a d' f1 f2 o1 o2 (i_core _ _ _ _ I) Hl Ha Hf (awf_defs _ Hw) Hna)
    as (s' & Hr & C' & L' & _ & B' & E' & O').
  assert (released a = true) as Hrel.
  { unfold released. rewrite bool_decide_true by done. cbn [andb]. apply Z.eqb_eq. lia. }
  destruct (OpFree_ok s A ord out d' I Hd) as (s2 & A2 & ord2 & out2 & Hstep & I2 & O2 & _).
  cbn [sys_step fst snd] in Hstep. rewrite Hr in Hstep. cbn in Hstep. injection Hstep as <- <-.
  exists s'. rewrite Hrel in *. split; [done|]. split; [|split; [done|split]].
  - pose proof (c_pools _ _ _ _ _ C' p) as Hp.
    assert (aP (a_complete p a d' (f1 ++ f2) (o1 ++ p :: o2) A) !! p = None) as Hnone.
    { apply eq_None_not_Some. intros Hs%(proj2 L'). destruct L' as [[Hnd _] _]. destruct Hl as [[Hnd' _] _].
      rewrite <- Permutation_middle in Hnd'. by apply NoDup_cons in Hnd' as []. }
    rewrite Hnone in Hp. by inversion Hp.
  - rewrite E'. unfold complete_events. by rewrite Hst, bool_decide_false.
  - rewrite (total_free_run _ _ _ _ I2), (inv_size _ _ _ _ I2), (inv_size _ _ _ _ I), O2. do 2 f_equal.
    pose proof (inv_fly_nodup _ _ _ _ I) as Hnd. rewrite <- (i_out _ _ _ _ I), Hf in Hnd |- *.
    rewrite filter_drop_one by done. rewrite !length_fmap, !length_app. cbn [length]. lia.
Qed.

(** * Pools that nothing brings back *)

(** No operation of the run uses the pool. *)
Fixpoint spared (p : positive) (ops : list tx_op) (x : sys) : Prop :=
  match ops with
  | [] => True
  | op :: ops => ¬ uses op x.1 p ∧ ∀ x', sys_step op x = Some x' → spared p ops x'
  end.

Lemma quiet_run p ops s A ord out :
  inv s A ord out → legal ops (s, out) → spared p ops (s, out) →
  ∃ s' A' ord' out', sys_run ops (s, out) = Some (s', out') ∧ inv s' A' ord' out' ∧ quiet p A A'.
Proof.
  revert s A ord out. induction ops as [|op ops IH]; intros s A ord out I Hl Hs.
  - exists s, A, ord, out. split_and!; [done..|]. apply quiet_same.
  - destruct Hl as [Ha Hl], Hs as [Hu Hs].
    destruct (sys_step_ok op s A ord out I Ha) as (s1 & A1 & ord1 & out1 & Hr & I1 & _ & Q1).
    destruct (IH _ _ _ _ I1 (Hl _ Hr) (Hs _ Hr)) as (s2 & A2 & ord2 & out2 & Hr2 & I2 & Q2).
    exists s2, A2, ord2, out2. cbn [sys_run]. rewrite Hr. split; [done|]. split; [done|].
    eapply quiet_trans; [by apply Q1|done].
Qed.

(** An invalid pool is used by no operation. *)
Lemma invalid_spared op s A ord out p a :
  inv s A ord out → aP A !! p = Some a → a_status a = FLOW_POOL_INVALID → allowed op (s, out) → ¬ uses op s p.
Proof.
  intros I Ha Hs Hal Hu. destruct op as [| |v mgmt nb seg|]; cbn in Hu; try done.
  - destruct Hu as (fp & Hfp & Hid). destruct Hal as [Hne _].
    destruct (inv_pool _ _ _ _ _ _ I Hfp) as (b & o & Hb & ->). cbn in Hid.
    apply (proj1 (i_awf _ _ _ _ I) _ _ Ha) in Hs. congruence.
  - assert (usable A (Some p)) as Hup.
    { rewrite <- Hu. destruct mgmt; [apply I|]. destruct (vdevs s !! v) as [w|] eqn:Hv; [|done].
      by eapply (i_vpool _ _ _ _ I). }
    destruct (Hup p eq_refl) as (b & Hb & Hsb). congruence.
Qed.

Lemma invalid_run p ops s A ord out a :
  inv s A ord out → legal ops (s, out) → aP A !! p = Some a → a_status a = FLOW_POOL_INVALID →
  fly_count p (aFly A) = 0 → spared p ops (s, out).
Proof.
  revert s A ord out a. induction ops as [|op ops IH]; intros s A ord out a I Hl Ha Hs Hz; [done|].
  destruct Hl as [Hal Hl]. pose proof (invalid_spared _ _ _ _ _ _ _ I Ha Hs Hal) as Hu. split; [done|].
  intros [s1 out1] Hr. destruct (sys_step_ok op s A ord out I Hal) as (s1' & A1 & ord1 & out1' & Hr' & I1 & _ & Q1).
  rewrite Hr in Hr'. injection Hr' as <- <-. destruct (Q1 p Hu a Ha Hz) as (a1 & Ha1 & E1 & _ & _ & Hz1).
  eapply (IH _ _ _ _ a1 I1); [by apply Hl|done|congruence|done].
Qed.

(** The pool is in the pdev's list, invalid and with nothing in flight. *)
Definition stranded (s : tx_state) (out : list positive) (p : positive) (fp : flow_pool) : Prop :=
  pools s !! p = Some fp ∧ status fp = FLOW_POOL_INVALID ∧ outstanding s out p = 0 ∧
  ∃ l, TAILQ_FOREACH (flow_pool_list s) = Some l ∧ p ∈ l.

Lemma stranded_intro s A ord out p a :
  inv s A ord out → aP A !! p = Some a → a_status a = FLOW_POOL_INVALID → fly_count p (aFly A) = 0 →
  ∃ o, stranded s out p (conc a o).
Proof.
  intros I Ha Hs Hz. destruct (core_pool _ _ _ _ _ _ _ (i_core _ _ _ _ I) Ha) as (fp & Hfp & o & -> & _).
  exists o. split; [exact Hfp|]. split; [done|]. split; [by rewrite (outstanding_fly _ _ _ _ _ I)|].
  destruct (i_list _ _ _ _ I) as [Hrep Ho]. exists ord. split; [by apply TAILQ_FOREACH_ok|]. apply Ho. by eexists.
Qed.

(** Whatever is done next, it remains so, and only receives descriptors. *)
Lemma stranded_run s A ord out p a ops :
  inv s A ord out → aP A !! p = Some a → a_status a = FLOW_POOL_INVALID → fly_count p (aFly A) = 0 → legal ops (s, out) →
  ∃ s' A' ord' out' a', sys_run ops (s, out) = Some (s', out') ∧ inv s' A' ord' out' ∧ aP A' !! p = Some a' ∧
    a_status a' = FLOW_POOL_INVALID ∧ fly_count p (aFly A') = 0 ∧ (length (a_free a) ≤ length (a_free a'))%nat.
Proof.
  intros I Ha Hs Hz Hl. destruct (quiet_run p ops s A ord out I Hl) as (s' & A' & ord' & out' & Hr & I' & Q).
  { by eapply invalid_run. }
  destruct (Q a Ha Hz) as (a' & Ha' & E & _ & Hle & Hz').
  exists s', A', ord', out', a'. rewrite E. auto 10.
Qed.

Lemma legal_app ops1 ops2 x :
  legal (ops1 ++ ops2) x → legal ops1 x ∧ ∀ x', sys_run ops1 x = Some x' → legal ops2 x'.
Proof.
  revert x. induction ops1 as [|op ops IH]; intros x; cbn [legal app sys_run].
  - intros Hl. split; [done|]. by intros x' [= <-].
  - intros [Ha Hl]. split.
    + split; [done|]. intros x' Hx. by apply IH, Hl.
    + intros x' Hr. apply bind_Some in Hr as (x1 & Hx & Hr). by apply (IH x1); [apply Hl|].
Qed.

(** C40. A pool that lacks descriptors, and has none in flight, is stranded
    when it is unmapped: it is marked invalid, although no completion will
    come to release it.  Whatever map and unmap messages, transmissions and
    completions follow, as [legal] has them (see [tx_pools_account]), it stays
    in the pdev's list, invalid and with nothing in flight, and the number of
    descriptors it holds, which other pools may add to, never falls. *)
Theorem deficient_pool_stranded s out p fp f :
  reachable (s, out) → pools s !! p = Some fp → ol_tx_get_flow_pool (flow_pool_id fp) s = Some (Some p, s) →
  0 < deficient_desc fp → outstanding s out p = 0 →
  allowed (OpUnmap f FLOW_TYPE_VDEV (flow_pool_id fp)) (s, out) →
  ∃ s1, sys_step (OpUnmap f FLOW_TYPE_VDEV (flow_pool_id fp)) (s, out) = Some (s1, out) ∧
    ∀ ops1 ops2, legal (ops1 ++ ops2) (s1, out) →
    ∃ s2 out2 fp2 s3 out3 fp3,
      sys_run ops1 (s1, out) = Some (s2, out2) ∧ stranded s2 out2 p fp2 ∧
      sys_run ops2 (s2, out2) = Some (s3, out3) ∧ stranded s3 out3 p fp3 ∧ avail_desc fp2 ≤ avail_desc fp3.
Proof.
  intros (A & ord & I)%reachable_inv Hfp Hfind Hdef Hz Hal. rewrite (outstanding_fly _ _ _ _ _ I) in Hz.
  destruct (inv_pool _ _ _ _ _ _ I Hfp) as (a & o & Ha & ->). cbn [conc flow_pool_id deficient_desc] in *.
  destruct (unmap_run s A ord out p a f I Hfind Ha Hal) as (s1 & a' & ord1 & Hr & I1 & Hfa & Hsz).
  exists s1. split; [exact Hr|]. intros ops1 ops2 [Hl1 Hl2]%legal_app.
  destruct (proj1 (i_awf _ _ _ _ I) _ _ Ha) as (_ & _ & Hb & _).
  assert (frees_pool a' false = false) as Hnf.
  { unfold frees_pool. rewrite orb_false_r, Hfa, Hsz. apply Z.eqb_neq. lia. }
  assert (∃ b, aP (a_delete p a' false (set_aP (<[p := a']> (aP A)) A)) !! p = Some b ∧ a_status b = FLOW_POOL_INVALID) as (b & Hb1 & Hs1).
  { unfold a_delete. rewrite Hnf. eexists. split; [apply lookup_insert_eq|done]. }
  destruct (stranded_run s1 _ _ out p b ops1 I1 Hb1 Hs1 Hz Hl1) as (s2 & A2 & ord2 & out2 & a2 & Hr2 & I2 & Ha2 & Hs2 & Hz2 & _).
  destruct (stranded_run s2 _ _ out2 p a2 ops2 I2 Ha2 Hs2 Hz2 (Hl2 _ Hr2)) as (s3 & A3 & ord3 & out3 & a3 & Hr3 & I3 & Ha3 & Hs3 & Hz3 & Hle).
  destruct (stranded_intro _ _ _ _ _ _ I2 Ha2 Hs2 Hz2) as [o2 St2], (stranded_intro _ _ _ _ _ _ I3 Ha3 Hs3 Hz3) as [o3 St3].
  do 6 eexists. split; [exact Hr2|]. split; [exact St2|]. split; [exact Hr3|]. split; [exact St3|]. cbn. lia.
Qed.

(** A paused pool with nothing in flight stays paused as long as no frame
    is taken from it and it is not unmapped, however many descriptors the
    release of other pools gives it: only a completion wakes the queues. *)
Theorem idle_pool_stays_paused s out p fp ops :
  reachable (s, out) → pools s !! p = Some fp → status fp = FLOW_POOL_ACTIVE_PAUSED →
  outstanding s out p = 0 → legal ops (s, out) → spared p ops (s, out) →
  ∃ s' out' fp', sys_run ops (s, out) = Some (s', out') ∧ pools s' !! p = Some fp' ∧
    status fp' = FLOW_POOL_ACTIVE_PAUSED ∧ avail_desc fp ≤ avail_desc fp' ∧ outstanding s' out' p = 0.
Proof.
  intros (A & ord & I)%reachable_inv Hfp Hst Hz Hl Hsp. rewrite (outstanding_fly _ _ _ _ _ I) in Hz.
  destruct (inv_pool _ _ _ _ _ _ I Hfp) as (a & o & Ha & ->). cbn in Hst.
  destruct (quiet_run p ops s A ord out I Hl Hsp) as (s' & A' & ord' & out' & Hr & I' & Q).
  destruct (Q a Ha Hz) as (a' & Ha' & E1 & _ & Hle & Hz').
  destruct (core_pool _ _ _ _ _ _ _ (i_core _ _ _ _ I') Ha') as (fp' & Hfp' & o' & -> & _).
  eexists s', out', _. split; [done|]. split; [exact Hfp'|]. cbn. rewrite (outstanding_fly _ _ _ _ _ I').
  split_and!; try done; [congruence|lia].
Qed.

(** * The end *)

Definition sizes_ok (A : atx) : Prop :=
  ∀ p a, aP A !! p = Some a → Z.of_nat (length (a_free a)) ≤ a_size a ∧ a_size a < 65536.

Lemma awf_sizes A : awf A → sizes_ok A.
Proof.
  intros [H _] p a Ha. destruct (H _ _ Ha) as (H1 & H2 & H3 & _).
  pose proof (fly_count_nonneg p (aFly A)). lia.
Qed.

Lemma a_delete_force p a A : a_delete p a true A = mk_atx (rev (a_free a) ++ aG A) (delete p (aP A)) (aFly A).
Proof. unfold a_delete, frees_pool. by rewrite orb_true_r. Qed.

Lemma deregister_loop_run ord n s A :
  core s A None [] [] → listed s A ord → sizes_ok A → (length ord ≤ n)%nat →
  ∃ s' A', deregister_loop n s = Some (tt, s') ∧ core s' A' None [] [] ∧ listed s' A' [] ∧
    aFly A' = aFly A ∧ owned A' [] [] ≡ₚ owned A [] [].
Proof.
  revert n s A. induction ord as [|p ord IH]; intros n s A C L Hs Hn.
  - exists s, A. split; [|done]. destruct n; cbn; mstep; by rewrite (TAILQ_FIRST_ok _ _ (proj1 L)).
  - destruct n as [|n]; [cbn in Hn; lia|]. cbn [deregister_loop]. mstep.
    rewrite (TAILQ_FIRST_ok _ _ (proj1 L)). cbn [head].
    destruct (proj1 (proj2 L p) ltac:(set_solver)) as [a Ha].
    destruct (ol_tx_delete_flow_pool_run p true s A a [] ord C L Ha (Hs _ _ Ha)) as (s1 & Hr1 & _ & _ & _ & C1 & L1).
    mrun Hr1. assert (frees_pool a true = true) as Hg by (unfold frees_pool; by rewrite orb_true_r).
    rewrite Hg in L1. cbn [app] in L1.
    destruct (IH n s1 _ C1 L1) as (s2 & A2 & Hr2 & C2 & L2 & F2 & O2); [|cbn in Hn; lia|].
    { intros q b. rewrite a_delete_force. cbn. intros [_ Hb]%lookup_delete_Some. by apply (Hs q). }
    exists s2, A2. split; [done|]. split; [done|]. split; [done|]. split; [done|].
    etrans; [exact O2|]. by apply owned_delete.
Qed.

Lemma listed_size s A ord : core s A None [] [] → listed s A ord → length ord = size (pools s).
Proof.
  intros C [[Hnd _] Ho]. rewrite <- size_dom, <- (size_list_to_set (C:=gset positive)) by done.
  f_equal. apply leibniz_equiv. intros p. rewrite elem_of_list_to_set, elem_of_dom, Ho.
  pose proof (c_pools _ _ _ _ _ C p) as Hp. by inversion Hp.
Qed.

(** C39. Detaching the driver with nothing in flight ends, frees every pool, the
    stranded ones included, and leaves every descriptor in the global pool. *)
Theorem ol_tx_deregister_flow_control_spec s :
  reachable (s, []) →
  ∃ s', ol_tx_deregister_flow_control s = Some (tt, s') ∧ pools s' = ∅ ∧
    TAILQ_EMPTY (flow_pool_list s') = true ∧ num_free s' = Z.of_nat (size (descs s)).
Proof.
  intros (A & ord & I)%reachable_inv. pose proof (i_out _ _ _ _ I) as Hout. apply fmap_nil_inv in Hout.
  assert (∃ s1 A1 ord1, (when (is_mgmt_over_wmi_enabled s =? 0)
      (pool ← gets mgmt_pool; ol_tx_delete_flow_pool pool false;; mret tt)) s = Some (tt, s1) ∧
    core s1 A1 None [] [] ∧ listed s1 A1 ord1 ∧ sizes_ok A1 ∧ aFly A1 = [] ∧ owned A1 [] [] ≡ₚ owned A [] [])
    as (s1 & A1 & ord1 & Hr1 & C1 & L1 & Hs1 & F1 & O1).
  { assert (∃ s1 A1 ord1, Some (tt, s) = Some (tt, s1) ∧ core s1 A1 None [] [] ∧ listed s1 A1 ord1 ∧
      sizes_ok A1 ∧ aFly A1 = [] ∧ owned A1 [] [] ≡ₚ owned A [] []) as Hnone
      by (exists s, A, ord; split_and!; try done; [apply I|apply I|apply awf_sizes, I]).
    destruct (is_mgmt_over_wmi_enabled s =? 0); cbn [when]; [|done]. mstep.
    pose proof (i_mgmt _ _ _ _ I) as Hm. destruct (mgmt_pool s) as [p|]; [|done].
    destruct (Hm p eq_refl) as (a & Ha & _). destruct (inv_split _ _ _ _ _ I ltac:(by eexists)) as (o1 & o2 & ->).
    destruct (ol_tx_delete_flow_pool_run p false s A a o1 o2 (i_core _ _ _ _ I) (i_list _ _ _ _ I) Ha
      (awf_sizes _ (i_awf _ _ _ _ I) _ _ Ha)) as (s1 & Hr & _ & _ & _ & C1 & L1).
    mrun Hr. eexists s1, _, _. split; [done|]. split; [exact C1|]. split; [exact L1|].
    split; [apply awf_sizes, awf_delete; [apply I|done]|]. split; [done|]. by apply owned_delete. }
  unfold ol_tx_deregister_flow_control. mstep. mrun Hr1. mstep.
  destruct (deregister_loop_run ord1 (size (pools s1)) s1 A1 C1 L1 Hs1) as (s' & A' & Hr' & C' & L' & F' & O').
  { by rewrite (listed_size _ _ _ C1 L1). }
  rewrite Hr'. exists s'. split; [done|]. pose proof (listed_size _ _ _ C' L') as Hsz. cbn in Hsz.
  assert (aP A' = ∅) as HP.
  { apply map_empty. intros p. apply eq_None_not_Some. intros Hp%(proj2 L'). set_solver. }
  split; [by apply map_size_empty_inv|].
  pose proof (TAILQ_FIRST_ok _ _ (proj1 L')) as Hf. unfold TAILQ_FIRST in Hf.
  split; [unfold TAILQ_EMPTY; by rewrite Hf|].
  rewrite (c_num _ _ _ _ _ C'), (inv_size _ _ _ _ I). f_equal. rewrite <- O1, <- O'. unfold owned.
  rewrite F', F1, HP. cbn. by rewrite app_nil_r.
Qed.
