(* ===== verification/TxPoolSamples.v ===== *)
(** Transmit descriptor pools: runs on concrete pdevs. *)
From S2P Require Import Prelude Tailq TxPool TxPoolRep TxPoolSystem TxPoolSteps TxPoolTheorems.

(** A pdev with [n] descriptors and two vdevs, management frames going over
    WMI, and the given thresholds. *)
Definition sample_desc (n i : nat) : positive * tx_desc :=
  (Pos.of_nat i, mk_tx_desc (if decide (i = n) then None else Some (Pos.of_nat (S i))) None 0 None).

Definition sample_pdev (n : nat) (stop offset : Z) : tx_state :=
  mk_tx_state (Some 1%positive) (Z.of_nat n) 0 (Z.of_nat n) 1 stop offset (mk_tailq None SHead ∅) None
    [1%positive; 2%positive]
    (<[1%positive := mk_tx_vdev 0 None]> (<[2%positive := mk_tx_vdev 1 None]> ∅)) ∅
    (list_to_map (sample_desc n <$> seq 1 n)) None 0 ∅ (mk_pool_stats 0 0 0 0) [].

Definition sample_list (n : nat) : list positive := Pos.of_nat <$> seq 1 n.

(** [attached], evaluated *)
Lemma attached_decide s l :
  bool_decide (NoDup l) = true → dom (descs s) = list_to_set l → (Z.of_nat (size (descs s)) <? 65536) = true →
  dlist (descs s) (tx_freelist s) l → num_free s = Z.of_nat (length l) → pools s = ∅ → mgmt_pool s = None →
  dom (vdevs s) = list_to_set (vdev_list s) →
  bool_decide (NoDup ((vdev_id ∘ snd) <$> map_to_list (vdevs s))) = true →
  bool_decide (map_Forall (λ _ w, v_pool w = None) (vdevs s)) = true →
  bool_decide (map_Forall (λ _ t, tso_desc t = None) (descs s)) = true → attached s l.
Proof.
  intros H1%bool_decide_eq_true H2 H3 H4 H5 H6 H7 H8 H9%bool_decide_eq_true
    H10%bool_decide_eq_true H11%bool_decide_eq_true. split; try done.
  - intros d. by rewrite <- elem_of_dom, H2, elem_of_list_to_set.
  - by apply Z.ltb_lt in H3.
  - split.
    + intros v. by rewrite <- elem_of_dom, H8, elem_of_list_to_set.
    + intros v1 v2 w1 w2 Hv1%elem_of_map_to_list Hv2%elem_of_map_to_list E.
      apply list_elem_of_lookup in Hv1 as [i Hi], Hv2 as [j Hj].
      assert (i = j) as <-.
      { eapply (NoDup_lookup _ i j (vdev_id w1) H9); rewrite list_lookup_fmap; [rewrite Hi|rewrite Hj]; cbn; congruence. }
      congruence.
Qed.

Definition pdev6 : tx_state := sample_pdev 6 50 10.
Definition pdev3 : tx_state := sample_pdev 3 50 10.

Lemma attached_pdev6 : attached pdev6 (sample_list 6).
Proof. apply attached_decide; vm_compute; auto 20. repeat (split; [done|]; eexists; split; [done|]). done. Qed.

Definition state_of (o : option (unit * tx_state)) (s : tx_state) : tx_state :=
  match o with Some (_, s') => s' | None => s end.
Definition sys_of (o : option sys) (x : sys) : sys := default x o.

(** The state after a run from the attachment *)
Definition after (s0 : tx_state) (ops : list tx_op) : sys :=
  let s1 := state_of (ol_tx_register_flow_control None s0) s0 in sys_of (sys_run ops (s1, [])) (s1, []).

Lemma after_reachable s0 l ops :
  attached s0 l → legalb ops (state_of (ol_tx_register_flow_control None s0) s0, []) = true →
  reachable ((after s0 ops).1, (after s0 ops).2).
Proof.
  rewrite <- surjective_pairing. intros Hat Hl. destruct (register_ok s0 l None Hat) as (s1 & A1 & ord1 & Hr & I1 & _).
  unfold after. rewrite Hr in *. cbn [state_of] in *. apply legalb_sound in Hl.
  destruct (sys_run_ok ops s1 A1 ord1 [] I1 Hl) as (s2 & A2 & ord2 & out2 & Hrun & _).
  exists s0, l, None, s1, ops. split_and!; try done. by rewrite Hrun.
Qed.

Lemma tx_pools_account_witness :
  attached pdev6 (sample_list 6) ∧
  ∃ s1, ol_tx_register_flow_control None pdev6 = Some (tt, s1) ∧
    ∀ ops, legal ops (s1, []) →
    ∃ s2 out, sys_run ops (s1, []) = Some (s2, out) ∧ NoDup out ∧
      ol_tx_get_total_free_desc s2 = Some (6 - Z.of_nat (length out), s2) ∧
      ∀ p fp, pools s2 !! p = Some fp →
        flow_pool_size fp = avail_desc fp + deficient_desc fp + outstanding s2 out p.
Proof.
  split; [exact attached_pdev6|]. exact (tx_pools_account pdev6 (sample_list 6) None attached_pdev6).
Defined.

(** A pool of four descriptors, mapped to the first vdev. *)
Definition mapped6 : sys := after pdev6 [OpMap (Some 11%positive) 0 0 5 4].

Lemma mapped6_reachable : reachable (mapped6.1, mapped6.2).
Proof. apply (after_reachable _ _ _ attached_pdev6). vm_compute; reflexivity. Qed.

(** Outside [legal]: the pool is mapped to both vdevs and unmapped for the
    first.  It is freed, the second still points to it, and its next frame
    reads freed memory. *)
Example shared_pool_dangles :
  let x := after pdev6 [OpMap (Some 11%positive) 0 0 5 4; OpMap None 1 0 5 4; OpUnmap 0 0 5] in
  pools x.1 !! 11%positive = None ∧ (v_pool <$> vdevs x.1 !! 2%positive) = Some (Some 11%positive) ∧
  sys_step (OpTx 2%positive false None None) x = None.
Proof. vm_compute; auto. Qed.

(** So does an unmap message that names another vdev than the pool's. *)
Example wrong_vdev_dangles :
  let x := after pdev6 [OpMap (Some 11%positive) 0 0 5 4; OpUnmap 1 0 5] in
  pools x.1 !! 11%positive = None ∧ (v_pool <$> vdevs x.1 !! 1%positive) = Some (Some 11%positive) ∧
  sys_step (OpTx 1%positive false None None) x = None.
Proof. vm_compute; auto. Qed.

Lemma ol_tx_create_flow_pool_spec_witness :
  reachable (mapped6.1, mapped6.2) ∧
  ∃ s' fp, ol_tx_create_flow_pool (Some 12%positive) 6 8 (mapped6.1) = Some (Some 12%positive, s') ∧
    pools s' !! 12%positive = Some fp ∧ avail_desc fp = Z.min 8 (num_free (mapped6.1)) ∧
    deficient_desc fp = 8 - avail_desc fp.
Proof.
  split; [exact mapped6_reachable|].
  assert (pools (mapped6.1) !! 12%positive = None) as Hp by (vm_compute; reflexivity).
  assert (0 ≤ tx_flow_stop_queue_th (mapped6.1)) as H1 by (vm_compute; discriminate).
  assert (0 ≤ tx_flow_start_queue_offset (mapped6.1)) as H2 by (vm_compute; discriminate).
  assert (tx_flow_stop_queue_th (mapped6.1) + tx_flow_start_queue_offset (mapped6.1) ≤ 100) as H3
    by (vm_compute; discriminate).
  destruct (ol_tx_create_flow_pool_spec (mapped6.1) (mapped6.2) 12%positive 6 8 mapped6_reachable Hp
    ltac:(discriminate) ltac:(lia) H1 H2 H3) as (s' & fp & E1 & E2 & E3 & _ & E5 & _).
  exists s', fp. split; [exact E1|]. split; [exact E2|]. split; [exact E3|exact E5].
Defined.

(** The pool is unmapped while its only frame is in flight. *)
Definition unmapped6 : sys := after pdev6
  [OpMap (Some 11%positive) 0 0 5 4; OpTx 1%positive false None None; OpUnmap 0 0 5].

Lemma unmapped6_reachable : reachable (unmapped6.1, unmapped6.2).
Proof. apply (after_reachable _ _ _ attached_pdev6). vm_compute; reflexivity. Qed.

Lemma last_completion_releases_witness :
  reachable (unmapped6.1, unmapped6.2) ∧
  ∃ s', ol_tx_desc_free 4%positive (unmapped6.1) = Some (tt, s') ∧ pools s' !! 11%positive = None ∧
    num_invalid_bin s' = u8 (num_invalid_bin (unmapped6.1) - 1) ∧ tx_events s' = tx_events (unmapped6.1) ∧
    ol_tx_get_total_free_desc s' =
      Some (Z.of_nat (size (descs (unmapped6.1))) - Z.of_nat (length (unmapped6.2)) + 1, s').
Proof.
  split; [exact unmapped6_reachable|].
  refine (last_completion_releases (unmapped6.1) (unmapped6.2) 4%positive
      (default (mk_tx_desc None None 0 None) (descs (unmapped6.1) !! 4%positive)) 11%positive
      (default zeroed_pool (pools (unmapped6.1) !! 11%positive)) unmapped6_reachable _ _ _ _ _ _ _).
  1: vm_compute; by left. all: vm_compute; reflexivity.
Defined.

(** A pool of five on a pdev of three: it lacks two. *)
Definition lacking3 : sys := after pdev3 [OpMap (Some 11%positive) 0 0 5 5].

Lemma attached_pdev3 : attached pdev3 (sample_list 3).
Proof. apply attached_decide; vm_compute; auto 20. repeat (split; [done|]; eexists; split; [done|]). done. Qed.

Lemma lacking3_reachable : reachable (lacking3.1, lacking3.2).
Proof. apply (after_reachable _ _ _ attached_pdev3). vm_compute; reflexivity. Qed.

(** It is unmapped while it is idle. *)
Definition short3 : sys := after pdev3 [OpMap (Some 11%positive) 0 0 5 5; OpUnmap 0 0 5].

(** Another pool takes the three, has a frame in flight when it is unmapped
    too, and its release gives two of them to the stranded pool. *)
Definition later3 : list tx_op :=
  [OpMap (Some 12%positive) 1 0 6 3; OpTx 2%positive false None None; OpUnmap 1 0 6; OpFree 3%positive].

Lemma deficient_pool_stranded_witness :
  ∃ s2 out2 fp2 s3 out3 fp3,
    sys_run [] (short3.1, short3.2) = Some (s2, out2) ∧ stranded s2 out2 11%positive fp2 ∧
    sys_run later3 (s2, out2) = Some (s3, out3) ∧ stranded s3 out3 11%positive fp3 ∧ avail_desc fp2 ≤ avail_desc fp3.
Proof.
  destruct (deficient_pool_stranded (lacking3.1) (lacking3.2) 11%positive
      (default zeroed_pool (pools (lacking3.1) !! 11%positive)) 0 lacking3_reachable) as (s1 & Hr & H).
  1-4: vm_compute; reflexivity.
  { apply (bool_decide_eq_true_1 (allowed _ _)). vm_compute; reflexivity. }
  assert ((s1, lacking3.2) = (short3.1, short3.2)) as E.
  { apply (inj Some). rewrite <- Hr. vm_compute; reflexivity. }
  rewrite <- E. apply (H [] later3). rewrite E. apply legalb_sound. vm_compute; reflexivity.
Defined.

(** The stranded pool then holds a descriptor that nobody can use. *)
Example later3_values :
  option_map (λ x : sys, ((λ fp, (avail_desc fp, deficient_desc fp, flow_pool_size fp)) <$> pools x.1 !! 11%positive,
    num_free x.1, num_invalid_bin x.1, x.2)) (sys_run later3 (short3.1, short3.2)) = Some (Some (1, 1, 2), 2, 1, []).
Proof. vm_compute; reflexivity. Qed.

(** The second pool lacks two of its four descriptors, is paused by a frame
    that has completed, and the first pool is unmapped with a frame in
    flight. *)
Definition paused6 : sys := after pdev6
  [OpMap (Some 11%positive) 0 0 5 4; OpMap (Some 12%positive) 1 0 6 4; OpTx 2%positive false None None;
   OpFree 6%positive; OpTx 1%positive false None None; OpUnmap 0 0 5].

Lemma paused6_reachable : reachable (paused6.1, paused6.2).
Proof. apply (after_reachable _ _ _ attached_pdev6). vm_compute; reflexivity. Qed.

Lemma idle_pool_stays_paused_witness :
  legal [OpFree 4%positive] (paused6.1, paused6.2) ∧
  ∃ s' out' fp', sys_run [OpFree 4%positive] (paused6.1, paused6.2) = Some (s', out') ∧
    pools s' !! 12%positive = Some fp' ∧ status fp' = FLOW_POOL_ACTIVE_PAUSED ∧
    avail_desc (default zeroed_pool (pools (paused6.1) !! 12%positive)) ≤ avail_desc fp' ∧
    outstanding s' out' 12%positive = 0.
Proof.
  assert (legal [OpFree 4%positive] (paused6.1, paused6.2)) as Hl by (apply legalb_sound; vm_compute; reflexivity).
  split; [exact Hl|].
  refine (idle_pool_stays_paused (paused6.1) (paused6.2) 12%positive
      (default zeroed_pool (pools (paused6.1) !! 12%positive)) _ paused6_reachable _ _ _ Hl _).
  1,2,3: vm_compute; reflexivity. split; [intros []|]. intros x' _. exact I.
Defined.

(** Its descriptors are then above the threshold, and it is paused. *)
Example paused6_values :
  option_map (λ x : sys, (λ fp, (avail_desc fp, start_th fp, status fp)) <$> pools x.1 !! 12%positive)
    (sys_run [OpFree 4%positive] (paused6.1, paused6.2)) = Some (Some (3, 2, FLOW_POOL_ACTIVE_PAUSED)).
Proof. vm_compute; reflexivity. Qed.

(** Two frames of a pool of four are in flight. *)
Definition busy6 : sys := after pdev6
  [OpMap (Some 11%positive) 0 0 5 4; OpTx 1%positive false None None; OpTx 1%positive false None None].

Lemma busy6_reachable : reachable (busy6.1, busy6.2).
Proof. apply (after_reachable _ _ _ attached_pdev6). vm_compute; reflexivity. Qed.

(** The allocation that pauses a pool drops the lock before it stops the
    queues.  If completions wake the queues in between, the queues end up
    stopped while the pool is not paused, and when all frames have completed
    and the pool is full nothing has woken them. *)
Theorem alloc_races_completion :
  ∃ s1 s2 s3 s4 fp, reachable (busy6.1, busy6.2) ∧
    alloc_locked 11 (busy6.1) = Some ((Some 2%positive, true), s1) ∧
    (ol_tx_desc_free 4;; ol_tx_desc_free 3) s1 = Some (tt, s2) ∧
    alloc_stop 1 true s2 = Some (tt, s3) ∧ ol_tx_desc_free 2 s3 = Some (tt, s4) ∧
    tx_events s4 = [EvStopQueues 0; EvWakeQueues 0] ∧
    pools s4 !! 11%positive = Some fp ∧ status fp = FLOW_POOL_ACTIVE_UNPAUSED ∧
    avail_desc fp = flow_pool_size fp.
Proof.
  do 5 eexists. split; [exact busy6_reachable|].
  repeat (split; [vm_compute; reflexivity|]). vm_compute; reflexivity.
Qed.

(** Everything has completed, one descriptor is in the stranded pool. *)
Lemma later3_reachable : reachable (after pdev3
  ([OpMap (Some 11%positive) 0 0 5 5; OpUnmap 0 0 5] ++ later3)).
Proof.
  rewrite (surjective_pairing (after _ _)). apply (after_reachable _ _ _ attached_pdev3). vm_compute; reflexivity.
Qed.

Lemma ol_tx_deregister_flow_control_spec_witness :
  let s := (after pdev3 ([OpMap (Some 11%positive) 0 0 5 5; OpUnmap 0 0 5] ++ later3)).1 in
  reachable (s, []) ∧
  ∃ s', ol_tx_deregister_flow_control s = Some (tt, s') ∧ pools s' = ∅ ∧
    TAILQ_EMPTY (flow_pool_list s') = true ∧ num_free s' = Z.of_nat (size (descs s)).
Proof.
  set (x := after _ _). cbv zeta.
  assert (x = (x.1, [])) as Hx by (vm_compute; reflexivity).
  assert (reachable (x.1, [])) as Hr by (rewrite <- Hx; exact later3_reachable).
  split; [exact Hr|]. exact (ol_tx_deregister_flow_control_spec _ Hr).
Defined.
