(* ===== verification/PeerTypes.v ===== *)
(** The registry of peers: the members of [core/dp/txrx/ol_txrx_types.h] that
    say which virtual devices and peers exist, under which addresses and
    identifiers they are found, and how many references to a peer there are.

    Peers and virtual devices are named by pointers and live in finite maps;
    freeing an object removes it, with the list entries embedded in it, so that
    a use after that has no result.  The reorder windows of a peer are part of
    the receive path ([RxTypes.v]); of them only the arrays that a block-ack
    agreement allocates appear here, since deleting a peer frees them.

    Operations run one at a time.  The reference count and the lists are changed
    under [peer_ref_mutex], but attaching, detaching, the handlers of the target's
    messages and the change of a peer's state also read and write members of a peer
    outside it: what such sections of two operations do to each other is not
    modelled, except for the wait of an attachment, which other operations may
    fall into. *)
From S2P Require Import Prelude Tailq.

(** * Constants *)

Definition HTT_INVALID_PEER : Z := 0xffff.
Definition HTT_INVALID_PEER_ID : Z := 0xffff.
Definition MAX_NUM_PEER_ID_PER_PEER : nat := 8.
Definition OL_TXRX_NUM_LOCAL_PEER_IDS : Z := 33.
Definition OL_TXRX_INVALID_LOCAL_PEER_ID : Z := 0xffff.
Definition WLAN_MAX_STA_COUNT : Z := 41.
Definition OL_TXRX_NUM_EXT_TIDS : nat := 19.

(** [union ol_txrx_align_mac_addr_t]: six bytes, read as 16-bit or 32-bit
    little-endian words. *)
Record mac_addr : Type := mk_mac { m0 : Z; m1 : Z; m2 : Z; m3 : Z; m4 : Z; m5 : Z }.

#[export] Instance mac_addr_eq_dec : EqDecision mac_addr.
Proof. solve_decision. Defined.

Definition le16 (lo hi : Z) : Z := Z.lor lo (Z.shiftl hi 8).
Definition bytes_ab (m : mac_addr) : Z := le16 (m0 m) (m1 m).
Definition bytes_cd (m : mac_addr) : Z := le16 (m2 m) (m3 m).
Definition bytes_ef (m : mac_addr) : Z := le16 (m4 m) (m5 m).

Inductive ol_txrx_peer_state : Type :=
| ol_txrx_peer_state_invalid
| ol_txrx_peer_state_disc
| ol_txrx_peer_state_conn
| ol_txrx_peer_state_auth.

#[export] Instance ol_txrx_peer_state_eq_dec : EqDecision ol_txrx_peer_state.
Proof. solve_decision. Defined.

(** The transmit filters of [ol_txrx.c]. *)
Inductive ol_tx_filter : Type :=
| ol_tx_filter_discard
| ol_tx_filter_non_auth
| ol_tx_filter_pass_thru.

Inductive CDF_STATUS : Type :=
| CDF_STATUS_SUCCESS
| CDF_STATUS_E_INVAL
| CDF_STATUS_E_FAULT
| CDF_STATUS_E_TIMEOUT
| CDF_STATUS_E_FAILURE.

(** A peer.  [osif_rx] says whether a receive callback is registered, [rx_discards]
    whether [rx_opt_proc] is [ol_rx_discard]; the array of a TID is [None] when it
    is the embedded one. *)
Record ol_txrx_peer_t : Type := mk_peer {
  peer_vdev : positive;
  ref_cnt : Z;
  delete_in_progress : Z;
  flush_in_progress : Z;
  state : ol_txrx_peer_state;
  osif_rx : bool;
  cached_bufq : list positive;
  tx_filter : option ol_tx_filter;
  peer_ids : list Z;
  local_id : Z;
  peer_mac : mac_addr;
  tid_arrays : list (option positive);
  rx_discards : bool;
  valid : bool;
  bss_peer : bool;
  keyinstalled : Z;
}.

Definition set_peer_vdev (v : positive) (r : ol_txrx_peer_t) : ol_txrx_peer_t :=
  mk_peer v (ref_cnt r) (delete_in_progress r) (flush_in_progress r) (state r) (osif_rx r) (cached_bufq r) (tx_filter r) (peer_ids r) (local_id r) (peer_mac r) (tid_arrays r) (rx_discards r) (valid r) (bss_peer r) (keyinstalled r).
Definition set_ref_cnt (v : Z) (r : ol_txrx_peer_t) : ol_txrx_peer_t :=
  mk_peer (peer_vdev r) v (delete_in_progress r) (flush_in_progress r) (state r) (osif_rx r) (cached_bufq r) (tx_filter r) (peer_ids r) (local_id r) (peer_mac r) (tid_arrays r) (rx_discards r) (valid r) (bss_peer r) (keyinstalled r).
Definition set_delete_in_progress (v : Z) (r : ol_txrx_peer_t) : ol_txrx_peer_t :=
  mk_peer (peer_vdev r) (ref_cnt r) v (flush_in_progress r) (state r) (osif_rx r) (cached_bufq r) (tx_filter r) (peer_ids r) (local_id r) (peer_mac r) (tid_arrays r) (rx_discards r) (valid r) (bss_peer r) (keyinstalled r).
Definition set_flush_in_progress (v : Z) (r : ol_txrx_peer_t) : ol_txrx_peer_t :=
  mk_peer (peer_vdev r) (ref_cnt r) (delete_in_progress r) v (state r) (osif_rx r) (cached_bufq r) (tx_filter r) (peer_ids r) (local_id r) (peer_mac r) (tid_arrays r) (rx_discards r) (valid r) (bss_peer r) (keyinstalled r).
Definition set_state (v : ol_txrx_peer_state) (r : ol_txrx_peer_t) : ol_txrx_peer_t :=
  mk_peer (peer_vdev r) (ref_cnt r) (delete_in_progress r) (flush_in_progress r) v (osif_rx r) (cached_bufq r) (tx_filter r) (peer_ids r) (local_id r) (peer_mac r) (tid_arrays r) (rx_discards r) (valid r) (bss_peer r) (keyinstalled r).
Definition set_osif_rx (v : bool) (r : ol_txrx_peer_t) : ol_txrx_peer_t :=
  mk_peer (peer_vdev r) (ref_cnt r) (delete_in_progress r) (flush_in_progress r) (state r) v (cached_bufq r) (tx_filter r) (peer_ids r) (local_id r) (peer_mac r) (tid_arrays r) (rx_discards r) (valid r) (bss_peer r) (keyinstalled r).
Definition set_cached_bufq (v : list positive) (r : ol_txrx_peer_t) : ol_txrx_peer_t :=
  mk_peer (peer_vdev r) (ref_cnt r) (delete_in_progress r) (flush_in_progress r) (state r) (osif_rx r) v (tx_filter r) (peer_ids r) (local_id r) (peer_mac r) (tid_arrays r) (rx_discards r) (valid r) (bss_peer r) (keyinstalled r).
Definition set_tx_filter (v : option ol_tx_filter) (r : ol_txrx_peer_t) : ol_txrx_peer_t :=
  mk_peer (peer_vdev r) (ref_cnt r) (delete_in_progress r) (flush_in_progress r) (state r) (osif_rx r) (cached_bufq r) v (peer_ids r) (local_id r) (peer_mac r) (tid_arrays r) (rx_discards r) (valid r) (bss_peer r) (keyinstalled r).
Definition set_peer_ids (v : list Z) (r : ol_txrx_peer_t) : ol_txrx_peer_t :=
  mk_peer (peer_vdev r) (ref_cnt r) (delete_in_progress r) (flush_in_progress r) (state r) (osif_rx r) (cached_bufq r) (tx_filter r) v (local_id r) (peer_mac r) (tid_arrays r) (rx_discards r) (valid r) (bss_peer r) (keyinstalled r).
Definition set_local_id (v : Z) (r : ol_txrx_peer_t) : ol_txrx_peer_t :=
  mk_peer (peer_vdev r) (ref_cnt r) (delete_in_progress r) (flush_in_progress r) (state r) (osif_rx r) (cached_bufq r) (tx_filter r) (peer_ids r) v (peer_mac r) (tid_arrays r) (rx_discards r) (valid r) (bss_peer r) (keyinstalled r).
Definition set_peer_mac (v : mac_addr) (r : ol_txrx_peer_t) : ol_txrx_peer_t :=
  mk_peer (peer_vdev r) (ref_cnt r) (delete_in_progress r) (flush_in_progress r) (state r) (osif_rx r) (cached_bufq r) (tx_filter r) (peer_ids r) (local_id r) v (tid_arrays r) (rx_discards r) (valid r) (bss_peer r) (keyinstalled r).
Definition set_tid_arrays (v : list (option positive)) (r : ol_txrx_peer_t) : ol_txrx_peer_t :=
  mk_peer (peer_vdev r) (ref_cnt r) (delete_in_progress r) (flush_in_progress r) (state r) (osif_rx r) (cached_bufq r) (tx_filter r) (peer_ids r) (local_id r) (peer_mac r) v (rx_discards r) (valid r) (bss_peer r) (keyinstalled r).
Definition set_rx_discards (v : bool) (r : ol_txrx_peer_t) : ol_txrx_peer_t :=
  mk_peer (peer_vdev r) (ref_cnt r) (delete_in_progress r) (flush_in_progress r) (state r) (osif_rx r) (cached_bufq r) (tx_filter r) (peer_ids r) (local_id r) (peer_mac r) (tid_arrays r) v (valid r) (bss_peer r) (keyinstalled r).
Definition set_valid (v : bool) (r : ol_txrx_peer_t) : ol_txrx_peer_t :=
  mk_peer (peer_vdev r) (ref_cnt r) (delete_in_progress r) (flush_in_progress r) (state r) (osif_rx r) (cached_bufq r) (tx_filter r) (peer_ids r) (local_id r) (peer_mac r) (tid_arrays r) (rx_discards r) v (bss_peer r) (keyinstalled r).
Definition set_bss_peer (v : bool) (r : ol_txrx_peer_t) : ol_txrx_peer_t :=
  mk_peer (peer_vdev r) (ref_cnt r) (delete_in_progress r) (flush_in_progress r) (state r) (osif_rx r) (cached_bufq r) (tx_filter r) (peer_ids r) (local_id r) (peer_mac r) (tid_arrays r) (rx_discards r) (valid r) v (keyinstalled r).
Definition set_keyinstalled (v : Z) (r : ol_txrx_peer_t) : ol_txrx_peer_t :=
  mk_peer (peer_vdev r) (ref_cnt r) (delete_in_progress r) (flush_in_progress r) (state r) (osif_rx r) (cached_bufq r) (tx_filter r) (peer_ids r) (local_id r) (peer_mac r) (tid_arrays r) (rx_discards r) (valid r) (bss_peer r) v.

(** A virtual device; [wait_delete_comp] is whether the event has been set. *)
Record ol_txrx_vdev_t : Type := mk_vdev {
  vdev_mac : mac_addr;
  peer_list : tailq positive;
  last_real_peer : option positive;
  delete_pending : bool;
  delete_callback : bool;
  wait_on_peer_id : Z;
  wait_delete_comp : bool;
}.

Definition set_vdev_mac (v : mac_addr) (r : ol_txrx_vdev_t) : ol_txrx_vdev_t :=
  mk_vdev v (peer_list r) (last_real_peer r) (delete_pending r) (delete_callback r) (wait_on_peer_id r) (wait_delete_comp r).
Definition set_peer_list (v : tailq positive) (r : ol_txrx_vdev_t) : ol_txrx_vdev_t :=
  mk_vdev (vdev_mac r) v (last_real_peer r) (delete_pending r) (delete_callback r) (wait_on_peer_id r) (wait_delete_comp r).
Definition set_last_real_peer (v : option positive) (r : ol_txrx_vdev_t) : ol_txrx_vdev_t :=
  mk_vdev (vdev_mac r) (peer_list r) v (delete_pending r) (delete_callback r) (wait_on_peer_id r) (wait_delete_comp r).
Definition set_delete_pending (v : bool) (r : ol_txrx_vdev_t) : ol_txrx_vdev_t :=
  mk_vdev (vdev_mac r) (peer_list r) (last_real_peer r) v (delete_callback r) (wait_on_peer_id r) (wait_delete_comp r).
Definition set_delete_callback (v : bool) (r : ol_txrx_vdev_t) : ol_txrx_vdev_t :=
  mk_vdev (vdev_mac r) (peer_list r) (last_real_peer r) (delete_pending r) v (wait_on_peer_id r) (wait_delete_comp r).
Definition set_wait_on_peer_id (v : Z) (r : ol_txrx_vdev_t) : ol_txrx_vdev_t :=
  mk_vdev (vdev_mac r) (peer_list r) (last_real_peer r) (delete_pending r) (delete_callback r) v (wait_delete_comp r).
Definition set_wait_delete_comp (v : bool) (r : ol_txrx_vdev_t) : ol_txrx_vdev_t :=
  mk_vdev (vdev_mac r) (peer_list r) (last_real_peer r) (delete_pending r) (delete_callback r) (wait_on_peer_id r) v.

(** What the registry does to its surroundings. *)
Inductive peer_event : Type :=
| EvPeerFreed (p : positive)
| EvVdevFreed (v : positive)
| EvVdevDeleteCb (v : positive)
| EvRxCleanup (p : positive)
| EvArrayFreed (a : positive)
| EvNbufFreed (b : positive)
| EvNbufDelivered (b : positive) (local_id : Z)
| EvDropRxpkt (local_id : Z).

(** The pdev, and the memory its peers and virtual devices are allocated from. *)
Record pdev_t : Type := mk_pdev {
  peers : gmap positive ol_txrx_peer_t;
  vdevs : gmap positive ol_txrx_vdev_t;
  vdev_list : tailq positive;
  hash_mask : Z;
  hash_idx_bits : Z;
  hash_bins : list (tailq positive);
  peer_id_to_obj_map : list (option positive);
  ids_pool : list Z;
  ids_freelist : Z;
  ids_map : list (option positive);
  ocb_peer : option positive;
  ocb_peer_valid : bool;
  log : list peer_event;
}.

Definition set_peers (v : gmap positive ol_txrx_peer_t) (r : pdev_t) : pdev_t :=
  mk_pdev v (vdevs r) (vdev_list r) (hash_mask r) (hash_idx_bits r) (hash_bins r) (peer_id_to_obj_map r) (ids_pool r) (ids_freelist r) (ids_map r) (ocb_peer r) (ocb_peer_valid r) (log r).
Definition set_vdevs (v : gmap positive ol_txrx_vdev_t) (r : pdev_t) : pdev_t :=
  mk_pdev (peers r) v (vdev_list r) (hash_mask r) (hash_idx_bits r) (hash_bins r) (peer_id_to_obj_map r) (ids_pool r) (ids_freelist r) (ids_map r) (ocb_peer r) (ocb_peer_valid r) (log r).
Definition set_vdev_list (v : tailq positive) (r : pdev_t) : pdev_t :=
  mk_pdev (peers r) (vdevs r) v (hash_mask r) (hash_idx_bits r) (hash_bins r) (peer_id_to_obj_map r) (ids_pool r) (ids_freelist r) (ids_map r) (ocb_peer r) (ocb_peer_valid r) (log r).
Definition set_hash_mask (v : Z) (r : pdev_t) : pdev_t :=
  mk_pdev (peers r) (vdevs r) (vdev_list r) v (hash_idx_bits r) (hash_bins r) (peer_id_to_obj_map r) (ids_pool r) (ids_freelist r) (ids_map r) (ocb_peer r) (ocb_peer_valid r) (log r).
Definition set_hash_idx_bits (v : Z) (r : pdev_t) : pdev_t :=
  mk_pdev (peers r) (vdevs r) (vdev_list r) (hash_mask r) v (hash_bins r) (peer_id_to_obj_map r) (ids_pool r) (ids_freelist r) (ids_map r) (ocb_peer r) (ocb_peer_valid r) (log r).
Definition set_hash_bins (v : list (tailq positive)) (r : pdev_t) : pdev_t :=
  mk_pdev (peers r) (vdevs r) (vdev_list r) (hash_mask r) (hash_idx_bits r) v (peer_id_to_obj_map r) (ids_pool r) (ids_freelist r) (ids_map r) (ocb_peer r) (ocb_peer_valid r) (log r).
Definition set_peer_id_to_obj_map (v : list (option positive)) (r : pdev_t) : pdev_t :=
  mk_pdev (peers r) (vdevs r) (vdev_list r) (hash_mask r) (hash_idx_bits r) (hash_bins r) v (ids_pool r) (ids_freelist r) (ids_map r) (ocb_peer r) (ocb_peer_valid r) (log r).
Definition set_ids_pool (v : list Z) (r : pdev_t) : pdev_t :=
  mk_pdev (peers r) (vdevs r) (vdev_list r) (hash_mask r) (hash_idx_bits r) (hash_bins r) (peer_id_to_obj_map r) v (ids_freelist r) (ids_map r) (ocb_peer r) (ocb_peer_valid r) (log r).
Definition set_ids_freelist (v : Z) (r : pdev_t) : pdev_t :=
  mk_pdev (peers r) (vdevs r) (vdev_list r) (hash_mask r) (hash_idx_bits r) (hash_bins r) (peer_id_to_obj_map r) (ids_pool r) v (ids_map r) (ocb_peer r) (ocb_peer_valid r) (log r).
Definition set_ids_map (v : list (option positive)) (r : pdev_t) : pdev_t :=
  mk_pdev (peers r) (vdevs r) (vdev_list r) (hash_mask r) (hash_idx_bits r) (hash_bins r) (peer_id_to_obj_map r) (ids_pool r) (ids_freelist r) v (ocb_peer r) (ocb_peer_valid r) (log r).
Definition set_ocb_peer (v : option positive) (r : pdev_t) : pdev_t :=
  mk_pdev (peers r) (vdevs r) (vdev_list r) (hash_mask r) (hash_idx_bits r) (hash_bins r) (peer_id_to_obj_map r) (ids_pool r) (ids_freelist r) (ids_map r) v (ocb_peer_valid r) (log r).
Definition set_ocb_peer_valid (v : bool) (r : pdev_t) : pdev_t :=
  mk_pdev (peers r) (vdevs r) (vdev_list r) (hash_mask r) (hash_idx_bits r) (hash_bins r) (peer_id_to_obj_map r) (ids_pool r) (ids_freelist r) (ids_map r) (ocb_peer r) v (log r).
Definition set_log (v : list peer_event) (r : pdev_t) : pdev_t :=
  mk_pdev (peers r) (vdevs r) (vdev_list r) (hash_mask r) (hash_idx_bits r) (hash_bins r) (peer_id_to_obj_map r) (ids_pool r) (ids_freelist r) (ids_map r) (ocb_peer r) (ocb_peer_valid r) v.

Notation PM := (CM pdev_t).

(** * Accessors *)

Definition emit (e : peer_event) : PM unit := modify (λ s, set_log (log s ++ [e]) s).

Definition get_peer (p : positive) : PM ol_txrx_peer_t :=
  o ← gets (λ s, peers s !! p); deref o.

Definition mod_peer (p : positive) (f : ol_txrx_peer_t → ol_txrx_peer_t) : PM unit :=
  x ← get_peer p; modify (λ s, set_peers (<[p := f x]> (peers s)) s).

Definition get_vdev (v : positive) : PM ol_txrx_vdev_t :=
  o ← gets (λ s, vdevs s !! v); deref o.

Definition mod_vdev (v : positive) (f : ol_txrx_vdev_t → ol_txrx_vdev_t) : PM unit :=
  x ← get_vdev v; modify (λ s, set_vdevs (<[v := f x]> (vdevs s)) s).

(** An operation on the peer list of a virtual device. *)
Definition on_peer_list {A} (v : positive) (m : CM (tailq positive) A) : PM A :=
  x ← get_vdev v;
  match m (peer_list x) with
  | Some (a, q) => mod_vdev v (set_peer_list q);; mret a
  | None => ub
  end.

(** An operation on a bin of the hash table. *)
Definition on_bin {A} (i : Z) (m : CM (tailq positive) A) : PM A :=
  q ← gets (λ s, hash_bins s !! Z.to_nat i); q ← deref q;
  match m q with
  | Some (a, q) => modify (λ s, set_hash_bins (<[Z.to_nat i := q]> (hash_bins s)) s);; mret a
  | None => ub
  end.

Definition on_vdev_list {A} (m : CM (tailq positive) A) : PM A := zoom vdev_list set_vdev_list m.

(** The list entry of a new object, and of an object that is freed. *)
Definition entry_new (x : positive) : CM (tailq positive) unit :=
  modify (λ q, mk_tailq (tqh_first q) (tqh_last q) (<[x := mk_entry None None]> (entries q))).
Definition entry_gone (x : positive) : CM (tailq positive) unit :=
  modify (λ q, mk_tailq (tqh_first q) (tqh_last q) (delete x (entries q))).

(** [cdf_atomic_inc(&peer->ref_cnt)] and [cdf_atomic_dec(&peer->ref_cnt)] *)
Definition peer_ref (p : positive) : PM unit := mod_peer p (λ x, set_ref_cnt (ref_cnt x + 1) x).
Definition peer_unref (p : positive) : PM unit := mod_peer p (λ x, set_ref_cnt (ref_cnt x - 1) x).
