(* ===== verification/PeerFind.v ===== *)
(** Finding peers: the address table and the identifier map of
    [core/dp/txrx/ol_txrx_peer_find.c] and [ol_txrx_peer_find.h], up to the
    functions that drop a reference, which are in [PeerLife.v].  A parameter
    that says whether an address is aligned has no effect and is left out. *)
From S2P Require Import Prelude Tailq PeerTypes.

(** * Attachment *)

(** [while (tmp) { log2++; tmp >>= 1; }] of a 32-bit value *)
Fixpoint log2_loop (fuel : nat) (tmp log2 : Z) : Z :=
  match fuel with
  | O => log2
  | S fuel => if tmp =? 0 then log2 else log2_loop fuel (Z.shiftr tmp 1) (log2 + 1)
  end.

Definition ol_txrx_log2_ceil (value : Z) : Z :=
  if value =? 0 then 0
  else
    let log2 := log2_loop 32 value (-1) in
    if negb (u32 (Z.shiftl 1 log2) =? value) then log2 + 1 else log2.

Definition TXRX_PEER_HASH_LOAD_MULT : Z := 2.
Definition TXRX_PEER_HASH_LOAD_SHIFT : Z := 0.

(** [TAILQ_INIT] of every bin of the new array. *)
Definition empty_bin : tailq positive := mk_tailq None SHead ∅.

(** [bins] is whether the allocation succeeds; the result is 1 when it does not. *)
Definition ol_txrx_peer_find_hash_attach (max_peer_id : Z) (bins : bool) : PM Z :=
  let hash_elems := Z.shiftr ((max_peer_id + 1) * TXRX_PEER_HASH_LOAD_MULT) TXRX_PEER_HASH_LOAD_SHIFT in
  let log2 := ol_txrx_log2_ceil hash_elems in
  let hash_elems := Z.shiftl 1 log2 in
  modify (set_hash_mask (hash_elems - 1));;
  modify (set_hash_idx_bits log2);;
  if negb bins then mret 1
  else
    modify (set_hash_bins (replicate (Z.to_nat hash_elems) empty_bin));;
    mret 0.

Definition ol_txrx_peer_find_hash_detach : PM unit := modify (set_hash_bins []).

Definition ol_txrx_peer_find_map_attach (max_peer_id : Z) (map : bool) : PM Z :=
  if negb map then mret 1
  else
    modify (set_peer_id_to_obj_map (replicate (Z.to_nat (max_peer_id + 1)) None));;
    mret 0.

Definition ol_txrx_peer_find_map_detach : PM unit := modify (set_peer_id_to_obj_map []).

Definition ol_txrx_peer_find_attach (max_peer_id : Z) (map bins : bool) : PM Z :=
  r ← ol_txrx_peer_find_map_attach max_peer_id map;
  if negb (r =? 0) then mret 1
  else
    r ← ol_txrx_peer_find_hash_attach max_peer_id bins;
    if negb (r =? 0) then ol_txrx_peer_find_map_detach;; mret 1
    else mret 0.

Definition ol_txrx_peer_find_detach : PM unit :=
  ol_txrx_peer_find_map_detach;;
  ol_txrx_peer_find_hash_detach.

(** * The address table *)

(** Whether the addresses differ. *)
Definition ol_txrx_peer_find_mac_addr_cmp (mac1 mac2 : mac_addr) : bool :=
  negb (bool_decide ((m0 mac1, m1 mac1, m2 mac1, m3 mac1) = (m0 mac2, m1 mac2, m2 mac2, m3 mac2)) &&
        bool_decide ((m4 mac1, m5 mac1) = (m4 mac2, m5 mac2))).

Definition ol_txrx_peer_find_hash_index (idx_bits mask : Z) (mac : mac_addr) : Z :=
  let index := Z.lxor (Z.lxor (bytes_ab mac) (bytes_cd mac)) (bytes_ef mac) in
  let index := Z.lxor index (Z.shiftr index idx_bits) in
  Z.land index mask.

Definition hash_index (mac : mac_addr) : PM Z :=
  gets (λ s, ol_txrx_peer_find_hash_index (hash_idx_bits s) (hash_mask s) mac).

(** The peer's list entry is part of the peer, which has just been allocated. *)
Definition ol_txrx_peer_find_hash_add (p : positive) : PM unit :=
  x ← get_peer p;
  index ← hash_index (peer_mac x);
  on_bin index (entry_new p;; TAILQ_INSERT_TAIL p).

(** [TAILQ_FOREACH] with the test of the loop body: the peer found, with one
    more reference. *)
Fixpoint hash_search (test : ol_txrx_peer_t → bool) (l : list positive) : PM (option positive) :=
  match l with
  | [] => mret None
  | p :: l =>
      x ← get_peer p;
      if test x then peer_ref p;; mret (Some p) else hash_search test l
  end.

Definition hash_lookup (mac : mac_addr) (test : ol_txrx_peer_t → bool) : PM (option positive) :=
  index ← hash_index mac;
  l ← on_bin index (λ q, l ← TAILQ_FOREACH q; Some (l, q));
  hash_search test l.

Definition ol_txrx_peer_vdev_find_hash (v : positive) (mac : mac_addr) (check_valid : bool) :
    PM (option positive) :=
  hash_lookup mac (λ x, negb (ol_txrx_peer_find_mac_addr_cmp mac (peer_mac x)) &&
    (negb check_valid || valid x) && bool_decide (peer_vdev x = v)).

Definition ol_txrx_peer_find_hash_find (mac : mac_addr) (check_valid : bool) : PM (option positive) :=
  hash_lookup mac (λ x, negb (ol_txrx_peer_find_mac_addr_cmp mac (peer_mac x)) &&
    (negb check_valid || valid x)).

Definition ol_txrx_peer_find_hash_remove (p : positive) : PM unit :=
  x ← get_peer p;
  index ← hash_index (peer_mac x);
  on_bin index (TAILQ_REMOVE p).

(** * The identifier map *)

(** The loop over [peer->peer_ids]: the identifiers with the new one, or [None]
    when there is no room. *)
Fixpoint add_id_loop (ids : list Z) (peer_id : Z) : option (list Z) :=
  match ids with
  | [] => None
  | i :: ids => if i =? HTT_INVALID_PEER then Some (peer_id :: ids)
                else option_map (cons i) (add_id_loop ids peer_id)
  end.

Definition ol_txrx_peer_find_add_id_to_obj (p : positive) (peer_id : Z) : PM Z :=
  x ← get_peer p;
  match add_id_loop (peer_ids x) peer_id with
  | Some ids => mod_peer p (set_peer_ids ids);; mret 0
  | None => mret 1
  end.

(** An access outside the map has no result. *)
Definition read_id_map (peer_id : Z) : PM (option positive) :=
  o ← gets (λ s, peer_id_to_obj_map s !! Z.to_nat peer_id); deref o.

Definition write_id_map (peer_id : Z) (o : option positive) : PM unit :=
  read_id_map peer_id;;
  modify (λ s, set_peer_id_to_obj_map (<[Z.to_nat peer_id := o]> (peer_id_to_obj_map s)) s).

Definition ol_txrx_peer_find_by_id (max_peer_id peer_id : Z) : PM (option positive) :=
  o ← (if peer_id >? max_peer_id then mret None else read_id_map peer_id);
  match o with
  | Some p => x ← get_peer p; mret (if valid x then Some p else None)
  | None => mret None
  end.

(** [vdev->last_real_peer], with one more reference, once it has an identifier. *)
Definition ol_txrx_assoc_peer_find (v : positive) : PM (option positive) :=
  y ← get_vdev v;
  match last_real_peer y with
  | Some p =>
      x ← get_peer p;
      id ← deref (head (peer_ids x));
      if negb (id =? HTT_INVALID_PEER_ID) then peer_ref p;; mret (Some p) else mret None
  | None => mret None
  end.
