(* ===== verification/PeerLife.v ===== *)
(** The life of peers and virtual devices: attachment, detachment, the messages
    that map identifiers to peers, and the reference count that deletes a peer;
    from [core/dp/txrx/ol_txrx.c] and [ol_txrx_peer_find.c], for the low-latency
    build with local peer identifiers, where pausing queues does nothing.

    The pool of local identifiers is a free list in an array, as the pool of
    [LimAid.v].  Objects are allocated under the name the allocator returns;
    [None] is a failed allocation. *)
From S2P Require Import Prelude Tailq PeerTypes PeerFind.

(** * Local peer identifiers *)

Definition ol_txrx_local_peer_id_pool_init : PM unit :=
  modify (set_ids_freelist 0);;
  modify (set_ids_pool (seqZ 1 OL_TXRX_NUM_LOCAL_PEER_IDS ++ [OL_TXRX_NUM_LOCAL_PEER_IDS]));;
  modify (set_ids_map (replicate (Z.to_nat OL_TXRX_NUM_LOCAL_PEER_IDS) None)).

Definition pool_at (i : Z) : PM Z := o ← gets (λ s, ids_pool s !! Z.to_nat i); deref o.

(** An assignment to [map[i]]. *)
Definition write_ids_map (i : Z) (o : option positive) : PM unit :=
  m ← gets (λ s, ids_map s !! Z.to_nat i); deref m;;
  modify (λ s, set_ids_map (<[Z.to_nat i := o]> (ids_map s)) s).

Definition ol_txrx_local_peer_id_alloc (p : positive) : PM unit :=
  i ← gets ids_freelist;
  next ← pool_at i;
  if next =? i then mod_peer p (set_local_id OL_TXRX_INVALID_LOCAL_PEER_ID)
  else
    mod_peer p (set_local_id i);;
    modify (set_ids_freelist next);;
    write_ids_map i (Some p).

Definition ol_txrx_local_peer_id_free (p : positive) : PM unit :=
  x ← get_peer p;
  let i := local_id x in
  if (i =? OL_TXRX_INVALID_LOCAL_PEER_ID) || (i >=? OL_TXRX_NUM_LOCAL_PEER_IDS) then mret tt
  else
    pool_at i;;
    free ← gets ids_freelist;
    modify (λ s, set_ids_pool (<[Z.to_nat i := free]> (ids_pool s)) s);;
    modify (set_ids_freelist (u8 i));;
    write_ids_map i None.

Definition ol_txrx_peer_find_by_local_id (local_peer_id : Z) : PM (option positive) :=
  if (local_peer_id =? OL_TXRX_INVALID_LOCAL_PEER_ID) || (local_peer_id >=? OL_TXRX_NUM_LOCAL_PEER_IDS)
  then mret None
  else o ← gets (λ s, ids_map s !! Z.to_nat local_peer_id); deref o.

(** * The end of a peer *)

(** [cdf_mem_free(vdev)] *)
Definition free_vdev (v : positive) : PM unit :=
  get_vdev v;;
  on_vdev_list (entry_gone v);;
  modify (λ s, set_vdevs (delete v (vdevs s)) s);;
  emit (EvVdevFreed v).

(** [cdf_mem_free(peer)] frees the list entries embedded in the peer; the one of
    [vdev->peer_list] has no more meaning when the virtual device is gone. *)
Definition free_peer (p : positive) : PM unit :=
  x ← get_peer p;
  index ← hash_index (peer_mac x);
  on_bin index (entry_gone p);;
  o ← gets (λ s, vdevs s !! peer_vdev x);
  (match o with
   | Some _ => on_peer_list (peer_vdev x) (entry_gone p)
   | None => mret tt
   end);;
  modify (λ s, set_peers (delete p (peers s)) s);;
  emit (EvPeerFreed p).

(** The loop that frees the arrays of block-ack agreements still open. *)
Definition free_arrays (p : positive) : PM unit :=
  x ← get_peer p;
  for_each (omap id (tid_arrays x)) (λ a, emit (EvArrayFreed a));;
  mod_peer p (λ x, set_tid_arrays (replicate (length (tid_arrays x)) None) x).

(** The part of [ol_txrx_peer_unref_delete] after the last reference is gone. *)
Definition delete_peer (p : positive) : PM unit :=
  x ← get_peer p;
  let v := peer_vdev x in
  let peer_id := local_id x in
  ol_txrx_peer_find_hash_remove p;;
  on_peer_list v (TAILQ_REMOVE p);;
  mod_peer p (set_keyinstalled 0);;
  emit (EvRxCleanup p);;
  mod_peer p (set_delete_in_progress 0);;
  y ← get_vdev v;
  when (peer_id =? wait_on_peer_id y)
    (mod_vdev v (set_wait_delete_comp true);;
     mod_vdev v (set_wait_on_peer_id OL_TXRX_INVALID_LOCAL_PEER_ID));;
  y ← get_vdev v;
  when (TAILQ_EMPTY (peer_list y) && delete_pending y)
    (free_vdev v;;
     when (delete_callback y) (emit (EvVdevDeleteCb v)));;
  free_arrays p;;
  free_peer p.

Definition ol_txrx_peer_unref_delete (p : positive) : PM unit :=
  x ← get_peer p;
  if ref_cnt x =? 0 then mret tt
  else
    peer_unref p;;
    x ← get_peer p;
    when (ref_cnt x =? 0) (delete_peer p).

(** * The target's messages *)

Definition ol_txrx_peer_find_add_id (mac : mac_addr) (peer_id : Z) : PM unit :=
  o ← ol_txrx_peer_find_hash_find mac false;
  match o with
  | Some p =>
      write_id_map peer_id (Some p);;
      x ← get_peer p;
      id ← deref (head (peer_ids x));
      when (id =? HTT_INVALID_PEER) (ol_txrx_peer_unref_delete p);;
      ol_txrx_peer_find_add_id_to_obj p peer_id;;
      mret tt
  | None => mret tt
  end.

Definition ol_rx_peer_map_handler (peer_id : Z) (mac : mac_addr) : PM unit :=
  ol_txrx_peer_find_add_id mac peer_id.

Definition ol_rx_peer_unmap_handler (peer_id : Z) : PM unit :=
  o ← (if peer_id =? HTT_INVALID_PEER then mret None else read_id_map peer_id);
  write_id_map peer_id None;;
  match o with
  | Some p => ol_txrx_peer_unref_delete p
  | None => mret tt
  end.

(** [TAILQ_FOREACH_SAFE] over a bin. *)
Fixpoint erase_bin (fuel : nat) (i : Z) (cur : option positive) : PM unit :=
  match cur, fuel with
  | None, _ => mret tt
  | Some _, O => ub
  | Some p, S fuel =>
      next ← on_bin i (TAILQ_NEXT p);
      mod_peer p (set_ref_cnt 0);;
      peer_ref p;;
      ol_txrx_peer_unref_delete p;;
      erase_bin fuel i next
  end.

Definition erase_bin_from (i : Z) : PM unit :=
  q ← gets (λ s, hash_bins s !! Z.to_nat i); q ← deref q;
  when (negb (TAILQ_EMPTY q)) (erase_bin (S (size (entries q))) i (TAILQ_FIRST q)).

Definition ol_txrx_peer_find_hash_erase : PM unit :=
  mask ← gets hash_mask;
  for_each (seqZ 0 (mask + 1)) erase_bin_from.

(** * Virtual devices *)

Definition new_vdev (mac : mac_addr) : ol_txrx_vdev_t :=
  mk_vdev mac (mk_tailq None SHead ∅) None false false OL_TXRX_INVALID_LOCAL_PEER_ID false.

Definition ol_txrx_vdev_attach (vdev_mac_addr : mac_addr) (v : option positive) :
    PM (option positive) :=
  match v with
  | None => mret None
  | Some v =>
      modify (λ s, set_vdevs (<[v := new_vdev vdev_mac_addr]> (vdevs s)) s);;
      on_vdev_list (entry_new v;; TAILQ_INSERT_TAIL v);;
      mret (Some v)
  end.

Definition ol_txrx_vdev_detach (v : positive) (callback : bool) : PM unit :=
  get_vdev v;;
  on_vdev_list (TAILQ_REMOVE v);;
  y ← get_vdev v;
  if negb (TAILQ_EMPTY (peer_list y)) then
    mod_vdev v (set_delete_pending true);;
    mod_vdev v (set_delete_callback callback)
  else
    free_vdev v;;
    when callback (emit (EvVdevDeleteCb v)).

(** * The start of a peer *)

(** What the loop over the peers of the virtual device decides. *)
Inductive attach_check : Type :=
| AttachGo
| AttachWait
| AttachRefused.

Fixpoint attach_check_loop (v : positive) (mac : mac_addr) (l : list positive)
    (wait_on_deletion : bool) : PM attach_check :=
  match l with
  | [] => mret (if wait_on_deletion then AttachWait else AttachGo)
  | p :: l =>
      x ← get_peer p;
      if negb (ol_txrx_peer_find_mac_addr_cmp (peer_mac x) mac) then
        if negb (delete_in_progress x =? 0) then
          mod_vdev v (set_wait_on_peer_id (local_id x));;
          mod_vdev v (set_wait_delete_comp false);;
          attach_check_loop v mac l true
        else mret AttachRefused
      else attach_check_loop v mac l wait_on_deletion
  end.

(** [ol_txrx_peer_attach] up to the wait for the deletion of an older peer. *)
Definition ol_txrx_peer_attach_check (v : positive) (mac : mac_addr) : PM attach_check :=
  l ← on_peer_list v (λ q, l ← TAILQ_FOREACH q; Some (l, q));
  attach_check_loop v mac l false.

(** After the wait; [rc] is what [cdf_wait_single_event] returned, and the result
    whether the attachment goes on.  [CDF_STATUS_SUCCESS] is 0, so that [!rc] takes
    the event that came in time for a timeout, and every failure for the event. *)
Definition ol_txrx_peer_attach_wait (v : positive) (rc : CDF_STATUS) : PM bool :=
  match rc with
  | CDF_STATUS_SUCCESS => mod_vdev v (set_wait_on_peer_id OL_TXRX_INVALID_LOCAL_PEER_ID);; mret false
  | _ => mret true
  end.

Definition ol_txrx_peer_state_update (mac : mac_addr) (st : ol_txrx_peer_state) : PM CDF_STATUS :=
  o ← ol_txrx_peer_find_hash_find mac true;
  match o with
  | None => mret CDF_STATUS_E_INVAL
  | Some p =>
      x ← get_peer p;
      if bool_decide (state x = st) then peer_unref p;; mret CDF_STATUS_SUCCESS
      else
        mod_peer p (set_tx_filter (Some
          (if bool_decide (st = ol_txrx_peer_state_auth) then ol_tx_filter_pass_thru
           else if bool_decide (st = ol_txrx_peer_state_conn) then ol_tx_filter_non_auth
           else ol_tx_filter_discard)));;
        peer_unref p;;
        mod_peer p (set_state st);;
        mret CDF_STATUS_SUCCESS
  end.

(** The peer as [ol_txrx_peer_attach] and [ol_rx_peer_init] initialise it, before
    its references are taken. *)
Definition new_peer (v : positive) (mac : mac_addr) : ol_txrx_peer_t :=
  mk_peer v 0 0 0 ol_txrx_peer_state_invalid false [] None
    (replicate MAX_NUM_PEER_ID_PER_PEER HTT_INVALID_PEER) 0 mac
    (replicate OL_TXRX_NUM_EXT_TIDS None) false false false 0.

(** [ol_txrx_peer_attach] from the allocation until the peer can be found. *)
Definition ol_txrx_peer_attach_link (v p : positive) (mac : mac_addr) : PM unit :=
  modify (λ s, set_peers (<[p := new_peer v mac]> (peers s)) s);;
  on_peer_list v (entry_new p;; TAILQ_INSERT_TAIL p);;
  y ← get_vdev v;
  when (ol_txrx_peer_find_mac_addr_cmp (vdev_mac y) mac) (mod_vdev v (set_last_real_peer (Some p)));;
  peer_ref p;;
  peer_ref p;;
  mod_peer p (set_valid true);;
  ol_txrx_peer_find_hash_add p.

(** [ol_txrx_peer_attach] from the allocation on. *)
Definition ol_txrx_peer_attach_add (v : positive) (mac : mac_addr) (p : option positive) :
    PM (option positive) :=
  match p with
  | None => mret None
  | Some p =>
      ol_txrx_peer_attach_link v p mac;;
      y ← get_vdev v;
      let differs := bool_decide (mac = vdev_mac y) in
      when (negb differs) (mod_peer p (set_bss_peer true));;
      mod_peer p (set_state ol_txrx_peer_state_invalid);;
      ol_txrx_peer_state_update mac ol_txrx_peer_state_disc;;
      ol_txrx_local_peer_id_alloc p;;
      mret (Some p)
  end.

(** * Flushing and detaching *)

(** [ol_txrx_flush_rx_frames]; [osif] is whether the receive callback accepts a
    frame. *)
Definition ol_txrx_flush_rx_frames (osif : positive → bool) (p : positive) (drop : bool) : PM unit :=
  mod_peer p (λ x, set_flush_in_progress (flush_in_progress x + 1) x);;
  x ← get_peer p;
  if flush_in_progress x >? 1 then mod_peer p (λ x, set_flush_in_progress (flush_in_progress x - 1) x)
  else
    let drop :=
      match state x with
      | ol_txrx_peer_state_conn | ol_txrx_peer_state_auth => drop
      | _ => true
      end in
    for_each (cached_bufq x) (λ b,
      if drop then emit (EvNbufFreed b)
      else if negb (osif_rx x) then ub
      else emit (EvNbufDelivered b (local_id x));; when (negb (osif b)) (emit (EvNbufFreed b)));;
    mod_peer p (set_cached_bufq []);;
    mod_peer p (λ x, set_flush_in_progress (flush_in_progress x - 1) x).

Definition ol_txrx_clear_peer_internal (osif : positive → bool) (p : positive) : PM CDF_STATUS :=
  x ← get_peer p;
  emit (EvDropRxpkt (local_id x));;
  ol_txrx_flush_rx_frames osif p true;;
  mod_peer p (set_osif_rx false);;
  mod_peer p (set_state ol_txrx_peer_state_disc);;
  mret CDF_STATUS_SUCCESS.

Definition ol_txrx_clear_peer (osif : positive → bool) (sta_id : Z) : PM CDF_STATUS :=
  if sta_id >=? WLAN_MAX_STA_COUNT then mret CDF_STATUS_E_INVAL
  else
    o ← ol_txrx_peer_find_by_local_id sta_id;
    match o with
    | None => mret CDF_STATUS_E_FAULT
    | Some p => ol_txrx_clear_peer_internal osif p
    end.

Definition ol_txrx_peer_detach (osif : positive → bool) (p : positive) : PM unit :=
  x ← get_peer p;
  let v := peer_vdev x in
  mod_peer p (set_rx_discards true);;
  mod_peer p (set_valid false);;
  ol_txrx_clear_peer_internal osif p;;
  ol_txrx_local_peer_id_free p;;
  y ← get_vdev v;
  when (bool_decide (last_real_peer y = Some p)) (mod_vdev v (set_last_real_peer None));;
  mod_peer p (set_delete_in_progress 1);;
  ol_txrx_peer_unref_delete p.

(** * Callers that borrow a reference *)

Definition ol_txrx_peer_find_by_addr (mac : mac_addr) : PM (option positive) :=
  o ← ol_txrx_peer_find_hash_find mac false;
  match o with
  | Some p => ol_txrx_peer_unref_delete p;; mret (Some p)
  | None => mret None
  end.

(** The peer and its local identifier, which is stored in a byte. *)
Definition borrow (o : option positive) : PM (option (positive * Z)) :=
  match o with
  | None => mret None
  | Some p => x ← get_peer p; peer_unref p;; mret (Some (p, u8 (local_id x)))
  end.

Definition ol_txrx_find_peer_by_addr (mac : mac_addr) : PM (option (positive * Z)) :=
  o ← ol_txrx_peer_find_hash_find mac true; borrow o.

Definition ol_txrx_find_peer_by_addr_and_vdev (v : positive) (mac : mac_addr) :
    PM (option (positive * Z)) :=
  o ← ol_txrx_peer_vdev_find_hash v mac true; borrow o.

Definition ol_txrx_get_vdev_by_sta_id (sta_id : Z) : PM (option positive) :=
  if sta_id >=? WLAN_MAX_STA_COUNT then mret None
  else
    o ← ol_txrx_peer_find_by_local_id sta_id;
    match o with
    | Some p => x ← get_peer p; mret (Some (peer_vdev x))
    | None => mret None
    end.

(** [ol_txrx_set_ocb_peer], [ol_txrx_get_ocb_peer], [ol_txrx_register_ocb_peer] *)
Definition ol_txrx_set_ocb_peer (o : option positive) : PM unit :=
  modify (set_ocb_peer o);;
  modify (set_ocb_peer_valid (bool_decide (is_Some o))).

Definition ol_txrx_get_ocb_peer : PM (option (option positive)) :=
  ok ← gets ocb_peer_valid; o ← gets ocb_peer; mret (if ok : bool then Some o else None).

Definition ol_txrx_register_ocb_peer (mac : mac_addr) : PM CDF_STATUS :=
  o ← ol_txrx_find_peer_by_addr mac;
  match o with
  | None => mret CDF_STATUS_E_FAILURE
  | Some (p, _) =>
      ol_txrx_set_ocb_peer (Some p);;
      x ← get_peer p;
      ol_txrx_peer_state_update (peer_mac x) ol_txrx_peer_state_auth;;
      mret CDF_STATUS_SUCCESS
  end.

(** [ol_txrx_register_peer]: the parameters of the station that it forwards to
    HTT and the privacy filter are not part of the registry; looking the peer
    up by its address borrows a reference. *)
Definition ol_txrx_register_peer (osif : positive → bool) (sta_id : Z) (rxcb : bool) : PM CDF_STATUS :=
  if sta_id >=? WLAN_MAX_STA_COUNT then mret CDF_STATUS_E_INVAL
  else
    o ← ol_txrx_peer_find_by_local_id sta_id;
    match o with
    | None => mret CDF_STATUS_E_FAULT
    | Some p =>
        mod_peer p (set_osif_rx rxcb);;
        mod_peer p (set_state ol_txrx_peer_state_conn);;
        x ← get_peer p;
        ol_txrx_find_peer_by_addr (peer_mac x);;
        ol_txrx_flush_rx_frames osif p false;;
        mret CDF_STATUS_SUCCESS
    end.
