(* ===== verification/PeerRep.v ===== *)
(** The registry of peers: the lists behind the pointers, and what finding a
    peer does. *)
From S2P Require Import Prelude Tailq PeerTypes PeerFind PeerLife.

(** * Running the accessors *)

Definition upd_peer (p : positive) (f : ol_txrx_peer_t → ol_txrx_peer_t) (s : pdev_t) : pdev_t :=
  set_peers (alter f p (peers s)) s.
Definition upd_vdev (v : positive) (f : ol_txrx_vdev_t → ol_txrx_vdev_t) (s : pdev_t) : pdev_t :=
  set_vdevs (alter f v (vdevs s)) s.
Definition upd_bin (i : Z) (q : tailq positive) (s : pdev_t) : pdev_t :=
  set_hash_bins (<[Z.to_nat i := q]> (hash_bins s)) s.

Section runs.
Implicit Types (s : pdev_t) (p v : positive).

Lemma peer_get_run s p x : peers s !! p = Some x → get_peer p s = Some (x, s).
Proof. intros H. unfold get_peer. mstep. by rewrite H. Qed.

Lemma peer_mod_run s p x f : peers s !! p = Some x → mod_peer p f s = Some (tt, upd_peer p f s).
Proof.
  intros H. unfold mod_peer. mrun (peer_get_run _ _ _ H). unfold modify, upd_peer.
  by rewrite (alter_alt_Some f (peers s) p x H).
Qed.

Lemma get_vdev_run s v y : vdevs s !! v = Some y → get_vdev v s = Some (y, s).
Proof. intros H. unfold get_vdev. mstep. by rewrite H. Qed.

Lemma mod_vdev_run s v y f : vdevs s !! v = Some y → mod_vdev v f s = Some (tt, upd_vdev v f s).
Proof.
  intros H. unfold mod_vdev. mrun (get_vdev_run _ _ _ H). unfold modify, upd_vdev.
  by rewrite (alter_alt_Some f (vdevs s) v y H).
Qed.

Lemma upd_peer_lookup s p f x : peers s !! p = Some x → peers (upd_peer p f s) !! p = Some (f x).
Proof. intros H. simpl. by rewrite lookup_alter_eq, H. Qed.

Lemma upd_vdev_lookup s v f y : vdevs s !! v = Some y → vdevs (upd_vdev v f s) !! v = Some (f y).
Proof. intros H. simpl. by rewrite lookup_alter_eq, H. Qed.

Lemma upd_peer_compose s p f g : upd_peer p g (upd_peer p f s) = upd_peer p (g ∘ f) s.
Proof. unfold upd_peer, set_peers. simpl. by rewrite alter_alter_eq. Qed.

Lemma upd_peer_ext s p f g : (∀ x, peers s !! p = Some x → f x = g x) → upd_peer p f s = upd_peer p g s.
Proof. intros H. unfold upd_peer. by rewrite (alter_ext _ g _ _ H). Qed.

Lemma upd_peer_id s p f : (∀ x, peers s !! p = Some x → f x = x) → upd_peer p f s = s.
Proof. intros H. unfold upd_peer. rewrite alter_id by done. by destruct s. Qed.

Lemma upd_bin_bins s i q : hash_bins (upd_bin i q s) = <[Z.to_nat i := q]> (hash_bins s).
Proof. done. Qed.

Lemma on_bin_run {A} s i q (m : CM (tailq positive) A) a q' :
  hash_bins s !! Z.to_nat i = Some q → m q = Some (a, q') →
  on_bin i m s = Some (a, upd_bin i q' s).
Proof. intros Hq Hm. unfold on_bin. mstep. by rewrite Hm. Qed.

Lemma on_bin_read {A} s i q (m : CM (tailq positive) A) a :
  hash_bins s !! Z.to_nat i = Some q → m q = Some (a, q) → on_bin i m s = Some (a, s).
Proof.
  intros Hq Hm. rewrite (on_bin_run _ _ _ _ _ _ Hq Hm). unfold upd_bin.
  rewrite list_insert_id by done. by destruct s.
Qed.

Lemma on_peer_list_run {A} s v y (m : CM (tailq positive) A) a q' :
  vdevs s !! v = Some y → m (peer_list y) = Some (a, q') →
  on_peer_list v m s = Some (a, upd_vdev v (set_peer_list q') s).
Proof.
  intros Hy Hm. unfold on_peer_list. mrun (get_vdev_run _ _ _ Hy). rewrite Hm.
  mrun (mod_vdev_run _ _ _ (set_peer_list q') Hy). done.
Qed.

Lemma on_peer_list_read {A} s v y (m : CM (tailq positive) A) a :
  vdevs s !! v = Some y → m (peer_list y) = Some (a, peer_list y) → on_peer_list v m s = Some (a, s).
Proof.
  intros Hy Hm. rewrite (on_peer_list_run _ _ _ _ _ _ Hy Hm). unfold upd_vdev.
  rewrite alter_id; [by destruct s|]. intros y'. rewrite Hy. intros [= <-]. by destruct y.
Qed.

Lemma rep_inj (q : tailq positive) l l' : rep q l → rep q l' → l = l'.
Proof. intros Hr%TAILQ_FOREACH_ok Hr'%TAILQ_FOREACH_ok. congruence. Qed.

Lemma on_bin_foreach s i q l : hash_bins s !! Z.to_nat i = Some q → rep q l →
  on_bin i (λ q, l ← TAILQ_FOREACH q; Some (l, q)) s = Some (l, s).
Proof.
  intros Hq Hr. eapply on_bin_read; [exact Hq|]. cbv beta. by rewrite (TAILQ_FOREACH_ok _ _ Hr).
Qed.

Lemma on_peer_list_foreach s v y l : vdevs s !! v = Some y → rep (peer_list y) l →
  on_peer_list v (λ q, l ← TAILQ_FOREACH q; Some (l, q)) s = Some (l, s).
Proof.
  intros Hy Hr. eapply on_peer_list_read; [exact Hy|]. cbv beta. by rewrite (TAILQ_FOREACH_ok _ _ Hr).
Qed.

(** A new element joins the tail of a queue; an element that has left it is freed. *)
Lemma join_tail_run (q : tailq positive) l x : rep q l → x ∉ l →
  ∃ q', (entry_new x;; TAILQ_INSERT_TAIL x) q = Some (tt, q') ∧ rep q' (l ++ [x]).
Proof.
  intros [Hnd Hs] Hx. unfold entry_new. mstep. set (q1 := mk_tailq _ _ _).
  destruct (TAILQ_INSERT_TAIL_ok q1 l x) as (q' & Hrun & Hr & _).
  - split; [done|]. by apply seg_insert_ne.
  - done.
  - simpl. rewrite lookup_insert_eq. by eexists.
  - by exists q'.
Qed.

Lemma entry_gone_rep (q : tailq positive) l x : rep q l → x ∉ l →
  rep (mk_tailq (tqh_first q) (tqh_last q) (delete x (entries q))) l.
Proof.
  intros [Hnd Hs] Hx. split; [done|]. simpl. eapply seg_frame; [|exact Hs].
  intros y Hy. apply lookup_delete_ne. congruence.
Qed.

(** The elements of a queue other than [x]. *)
Definition without (x : positive) (l : list positive) : list positive := filter (λ y, y ≠ x) l.

Lemma elem_of_without x l y : y ∈ without x l ↔ y ∈ l ∧ y ≠ x.
Proof. unfold without. rewrite list_elem_of_filter. naive_solver. Qed.

Lemma without_id x l : x ∉ l → without x l = l.
Proof.
  intros H. induction l as [|y l IH]; [done|]. apply not_elem_of_cons in H as [Hne H].
  unfold without in *. rewrite filter_cons_True by congruence. by rewrite IH.
Qed.

Lemma tailq_remove_run (q : tailq positive) l x : rep q l → x ∈ l →
  ∃ q', TAILQ_REMOVE x q = Some (tt, q') ∧ rep q' (without x l).
Proof.
  intros Hr Hx. apply list_elem_of_split in Hx as (l1 & l2 & ->).
  destruct (TAILQ_REMOVE_ok _ _ _ _ Hr) as (q' & Hrun & Hr' & _).
  exists q'. split; [done|]. destruct Hr as [Hnd _].
  apply NoDup_app in Hnd as (_ & Hd & Hnd2). apply NoDup_cons in Hnd2 as [Hx2 _].
  unfold without. rewrite filter_app, filter_cons_False by auto.
  fold (without x l1) (without x l2). rewrite !without_id; [done|done|].
  intros H1. apply (Hd x H1). by left.
Qed.

Lemma TAILQ_EMPTY_rep (q : tailq positive) l : rep q l → TAILQ_EMPTY q = bool_decide (l = []).
Proof.
  intros Hr. unfold TAILQ_EMPTY. apply bool_decide_ext.
  rewrite (TAILQ_FIRST_ok _ _ Hr : tqh_first q = head l). by destruct l.
Qed.
End runs.

(** * The lists *)

Definition index_of (s : pdev_t) (mac : mac_addr) : Z :=
  ol_txrx_peer_find_hash_index (hash_idx_bits s) (hash_mask s) mac.

(** The queue [q] holds exactly the peers that satisfy [P], except [o]. *)
Definition holds_peers (ps : gmap positive ol_txrx_peer_t) (o : option positive) (q : tailq positive)
    (P : ol_txrx_peer_t → Prop) : Prop :=
  ∃ l, rep q l ∧ ∀ p, p ∈ l ↔ Some p ≠ o ∧ ∃ x, ps !! p = Some x ∧ P x.

(** The lists are right, but [ob] is in no bin and [ov] in no peer list: the two
    holes appear one after the other while a peer is linked or unlinked. *)
Record lists_but (ob ov : option positive) (s : pdev_t) : Prop := {
  lo_mask : 0 ≤ hash_idx_bits s ∧ hash_mask s = 2 ^ hash_idx_bits s - 1;
  lo_length : Z.of_nat (length (hash_bins s)) = hash_mask s + 1;
  lo_bins : ∀ i q, hash_bins s !! i = Some q →
    holds_peers (peers s) ob q (λ x, Z.to_nat (index_of s (peer_mac x)) = i);
  lo_peer_list : ∀ v y, vdevs s !! v = Some y →
    holds_peers (peers s) ov (peer_list y) (λ x, peer_vdev x = v);
  lo_owner : ∀ p x, peers s !! p = Some x → Some p ≠ ov → is_Some (vdevs s !! peer_vdev x);
  lo_vdev_list : ∃ l, rep (vdev_list s) l ∧
    ∀ v, v ∈ l ↔ ∃ y, vdevs s !! v = Some y ∧ delete_pending y = false;
}.

(** A virtual device whose deletion was requested still has a peer, other than
    [o]. *)
Definition pending_but (o : option positive) (s : pdev_t) : Prop :=
  ∀ v y, vdevs s !! v = Some y → delete_pending y = true →
    ∃ p x, peers s !! p = Some x ∧ peer_vdev x = v ∧ Some p ≠ o.

Definition lists_ok (s : pdev_t) : Prop := lists_but None None s ∧ pending_but None s.

Section lists.
Context (ob ov : option positive) (s : pdev_t) (Hs : lists_but ob ov s).

Lemma index_range mac : 0 ≤ index_of s mac < Z.of_nat (length (hash_bins s)).
Proof using Hs.
  destruct (lo_mask ob ov s Hs) as [Hb Hm]. rewrite (lo_length ob ov s Hs), Hm.
  unfold index_of, ol_txrx_peer_find_hash_index. rewrite Hm, land_mask by done.
  pose proof (Z.pow_pos_nonneg 2 (hash_idx_bits s) eq_refl Hb).
  match goal with |- _ ≤ ?a mod ?b < _ => pose proof (Z.mod_pos_bound a b) end. lia.
Qed.

Lemma bin_of mac : ∃ q, hash_bins s !! Z.to_nat (index_of s mac) = Some q.
Proof using Hs.
  apply lookup_lt_is_Some_2. pose proof (index_range mac). lia.
Qed.
End lists.

Lemma holds_peers_upd ps o q P p f : (∀ x, P (f x) ↔ P x) →
  holds_peers ps o q P → holds_peers (alter f p ps) o q P.
Proof.
  intros Hf (l & Hr & Hl). exists l. split; [done|]. intros p'. rewrite Hl.
  destruct (decide (p = p')) as [<-|Hne]; [|by rewrite lookup_alter_ne].
  rewrite lookup_alter_eq. destruct (ps !! p) as [x|]; [|naive_solver]. simpl.
  split; intros [? (x' & [= <-] & HP)]; (split; [done|]); eexists; (split; [done|]); by apply Hf.
Qed.

(** Changes that leave the address and the owner of a peer alone. *)
Definition keeps_place (f : ol_txrx_peer_t → ol_txrx_peer_t) : Prop :=
  ∀ x, peer_mac (f x) = peer_mac x ∧ peer_vdev (f x) = peer_vdev x.

Lemma lists_upd_peer ob ov s p f : keeps_place f → lists_but ob ov s → lists_but ob ov (upd_peer p f s).
Proof.
  intros Hf [Hm Hlen Hb Hv Ho Hvl]. split; try done.
  - intros i q Hq. apply holds_peers_upd; [|by apply (Hb i q)]. intros x.
    unfold index_of. simpl. by destruct (Hf x) as [-> _].
  - intros v y Hy. apply holds_peers_upd; [|by apply Hv]. intros x. by destruct (Hf x) as [_ ->].
  - intros p' x'. simpl. intros Hx' Hp'. apply lookup_alter_Some in Hx'.
    destruct Hx' as [(<- & x & Hx & ->)|[_ Hx']]; [|by eapply Ho].
    destruct (Hf x) as [_ ->]. by eapply Ho.
Qed.

Lemma pending_upd_peer o s p f : keeps_place f → pending_but o s → pending_but o (upd_peer p f s).
Proof.
  intros Hf Hp v y Hy Hpend. destruct (Hp v y Hy Hpend) as (p' & x & Hx & Hv & Hne). simpl.
  destruct (decide (p = p')) as [<-|Hne'].
  - exists p, (f x). rewrite lookup_alter_eq, Hx. split; [done|]. by destruct (Hf x) as [_ ->].
  - exists p', x. by rewrite lookup_alter_ne.
Qed.

Lemma lists_ok_upd_peer s p f : keeps_place f → lists_ok s → lists_ok (upd_peer p f s).
Proof. intros Hf [Hl Hp]. split; [by apply lists_upd_peer|by apply pending_upd_peer]. Qed.

(** Changes of a virtual device that leave its list and its deletion alone. *)
Definition keeps_lists (f : ol_txrx_vdev_t → ol_txrx_vdev_t) : Prop :=
  ∀ y, peer_list (f y) = peer_list y ∧ delete_pending (f y) = delete_pending y.

Lemma upd_vdev_inv s v f v' y' : vdevs (upd_vdev v f s) !! v' = Some y' →
  ∃ y, vdevs s !! v' = Some y ∧ y' = if decide (v = v') then f y else y.
Proof.
  simpl. intros [(<- & y & Hy & ->)|[Hne Hy]]%lookup_alter_Some.
  - exists y. by rewrite decide_True.
  - exists y'. by rewrite decide_False.
Qed.

(** A change of a virtual device [v]; [ov'] is the hole after it. *)
Lemma lists_vdev ob ov ov' s v f :
  (∀ y, vdevs s !! v = Some y → delete_pending (f y) = delete_pending y ∧
    holds_peers (peers s) ov' (peer_list (f y)) (λ x, peer_vdev x = v)) →
  (∀ v' y, vdevs s !! v' = Some y → v' ≠ v → holds_peers (peers s) ov' (peer_list y) (λ x, peer_vdev x = v')) →
  (∀ p x, peers s !! p = Some x → Some p ≠ ov' → is_Some (vdevs s !! peer_vdev x)) →
  lists_but ob ov s → lists_but ob ov' (upd_vdev v f s).
Proof.
  intros Hf Hrest Hown [Hm Hlen Hb Hv Ho (l & Hr & Hl)]. split; try done.
  - intros v' y' (y & Hy & ->)%upd_vdev_inv. destruct (decide (v = v')) as [<-|]; [by apply Hf|by apply Hrest].
  - intros p x Hx Hp. simpl. rewrite lookup_alter_is_Some. by eapply Hown.
  - exists l. split; [done|]. intros v'. rewrite Hl. split.
    + intros (y & Hy & Hd). destruct (decide (v = v')) as [<-|Hne].
      * exists (f y). rewrite (upd_vdev_lookup _ _ _ _ Hy). split; [done|]. by destruct (Hf y Hy) as [-> _].
      * exists y. simpl. by rewrite lookup_alter_ne.
    + intros (y' & (y & Hy & ->)%upd_vdev_inv & Hd). exists y. split; [done|].
      destruct (decide (v = v')) as [<-|]; [|done]. by destruct (Hf y Hy) as [<- _].
Qed.

Lemma lists_upd_vdev ob ov s v f : keeps_lists f → lists_but ob ov s → lists_but ob ov (upd_vdev v f s).
Proof.
  intros Hf Hs. apply (lists_vdev ob ov ov); [| | |done].
  - intros y Hy. destruct (Hf y) as [-> ->]. split; [done|]. by apply (lo_peer_list _ _ _ Hs).
  - intros v' y Hy _. by apply (lo_peer_list _ _ _ Hs).
  - apply (lo_owner _ _ _ Hs).
Qed.

Lemma pending_upd_vdev o s v f : (∀ y, delete_pending (f y) = delete_pending y) →
  pending_but o s → pending_but o (upd_vdev v f s).
Proof.
  intros Hf Hp v' y' (y & Hy & ->)%upd_vdev_inv Hd. apply (Hp v' y Hy).
  destruct (decide (v = v')); [by rewrite <- Hf|done].
Qed.

(** Other parts of the registry do not matter. *)
Definition same_lists (s s' : pdev_t) : Prop :=
  peers s' = peers s ∧ vdevs s' = vdevs s ∧ vdev_list s' = vdev_list s ∧ hash_mask s' = hash_mask s ∧
  hash_idx_bits s' = hash_idx_bits s ∧ hash_bins s' = hash_bins s.

Lemma lists_same ob ov s s' : same_lists s s' → lists_but ob ov s → lists_but ob ov s'.
Proof.
  intros (Hp & Hv & Hl & Hm & Hi & Hb) [H1 H2 H3 H4 H5 H6].
  split; unfold index_of in *; rewrite ?Hp, ?Hv, ?Hl, ?Hm, ?Hi, ?Hb; done.
Qed.

Lemma pending_same o s s' : same_lists s s' → pending_but o s → pending_but o s'.
Proof. intros (Hp & Hv & _) H. unfold pending_but in *. by rewrite Hp, Hv. Qed.

(** * Finding *)

Fixpoint first_match (s : pdev_t) (test : ol_txrx_peer_t → bool) (l : list positive) : option positive :=
  match l with
  | [] => None
  | p :: l =>
      x ← peers s !! p;
      if test x then Some p else first_match s test l
  end.

Definition take_ref (o : option positive) (s : pdev_t) : pdev_t :=
  match o with
  | Some p => upd_peer p (λ x, set_ref_cnt (ref_cnt x + 1) x) s
  | None => s
  end.

Lemma hash_search_run s test l : (∀ p, p ∈ l → is_Some (peers s !! p)) →
  hash_search test l s = Some (first_match s test l, take_ref (first_match s test l) s).
Proof.
  induction l as [|p l IH]; intros Hl; [done|]. cbn [hash_search first_match].
  destruct (Hl p) as [x Hx]; [by left|]. mrun (peer_get_run _ _ _ Hx). rewrite Hx. simpl.
  destruct (test x); [by mrun (peer_mod_run _ _ _ (λ x, set_ref_cnt (ref_cnt x + 1) x) Hx)|].
  apply IH. intros p' Hp'. apply Hl. by right.
Qed.

Lemma first_match_spec s test l : (∀ p, p ∈ l → is_Some (peers s !! p)) →
  match first_match s test l with
  | Some p => p ∈ l ∧ ∃ x, peers s !! p = Some x ∧ test x = true
  | None => ∀ p x, p ∈ l → peers s !! p = Some x → test x = false
  end.
Proof.
  induction l as [|p l IH]; intros Hl; simpl; [set_solver|].
  destruct (Hl p) as [x Hx]; [by left|]. rewrite Hx. simpl.
  destruct (test x) eqn:Ht; [split; [by left|by exists x]|].
  specialize (IH (λ p' Hp', Hl p' (list_elem_of_further _ _ _ Hp'))).
  destruct (first_match s test l) as [p'|].
  - destruct IH as [? ?]. split; [by right|done].
  - intros p' x' [->|Hp']%elem_of_cons Hx'; [congruence|by eapply IH].
Qed.

(** Every lookup takes a reference to the peer it finds, which passes the test;
    it finds one when a peer of the address's bin passes. *)
Lemma hash_lookup_run s mac test : lists_but None None s →
  ∃ o, hash_lookup mac test s = Some (o, take_ref o s) ∧
    match o with
    | Some p => ∃ x, peers s !! p = Some x ∧ test x = true
    | None => ∀ p x, peers s !! p = Some x → index_of s (peer_mac x) = index_of s mac → test x = false
    end.
Proof.
  intros Hs. unfold hash_lookup, hash_index. mstep. fold (index_of s mac).
  destruct (bin_of None None s Hs mac) as (q & Hq).
  destruct (lo_bins _ _ _ Hs _ _ Hq) as (l & Hr & Hl).
  mrun (on_bin_foreach s (index_of s mac) q l Hq Hr).
  assert (∀ p, p ∈ l → is_Some (peers s !! p)) as Hlive.
  { intros p (_ & x & Hx & _)%Hl. by exists x. }
  exists (first_match s test l). split; [by apply hash_search_run|].
  pose proof (first_match_spec s test l Hlive) as Hf. destruct (first_match s test l) as [p|].
  - apply Hf.
  - intros p x Hx Hi. eapply Hf; [|exact Hx]. apply Hl. split; [done|]. exists x.
    split; [done|]. by rewrite Hi.
Qed.
