(* ===== verification/PeerDelete.v ===== *)
(** The registry of peers: deleting a peer keeps the lists right.

    [ol_txrx_peer_unref_delete] unlinks a peer from its bin, then from the list
    of its virtual device, and frees the device when it was only waiting for
    its last peer.  [deleting] follows the state through these steps. *)
From S2P Require Import Prelude Tailq PeerTypes PeerFind PeerLife PeerRep.

(** What no step of a deletion touches. *)
Definition rest_same (s s' : pdev_t) : Prop :=
  peer_id_to_obj_map s' = peer_id_to_obj_map s ∧ ids_pool s' = ids_pool s ∧
  ids_freelist s' = ids_freelist s ∧ ids_map s' = ids_map s ∧ hash_mask s' = hash_mask s ∧
  hash_idx_bits s' = hash_idx_bits s.

#[export] Instance rest_same_preorder : PreOrder rest_same.
Proof.
  split; [by intros s|]. intros s1 s2 s3 (?&?&?&?&?&?) (?&?&?&?&?&?). split_and!; congruence.
Qed.

(** The virtual devices left are those there were, up to the members that the
    deletion of a peer uses; the others were waiting to be deleted. *)
Definition vdevs_kept (s s' : pdev_t) : Prop :=
  (∀ v y', vdevs s' !! v = Some y' → ∃ y, vdevs s !! v = Some y ∧
    vdev_mac y' = vdev_mac y ∧ last_real_peer y' = last_real_peer y ∧ delete_pending y' = delete_pending y) ∧
  (∀ v y, vdevs s !! v = Some y → vdevs s' !! v = None → delete_pending y = true).

#[export] Instance vdevs_kept_preorder : PreOrder vdevs_kept.
Proof.
  split; [intros s; split; [by intros v y ?; exists y|congruence]|].
  intros s1 s2 s3 [Hs1 Hg1] [Hs2 Hg2]. split.
  - intros v y3 Hy3. destruct (Hs2 v y3 Hy3) as (y2 & Hy2 & ? & ? & ?).
    destruct (Hs1 v y2 Hy2) as (y1 & Hy1 & ? & ? & ?). exists y1. split_and!; congruence.
  - intros v y1 Hy1 Hn. destruct (vdevs s2 !! v) as [y2|] eqn:Hy2; [|by eapply Hg1].
    destruct (Hs1 v y2 Hy2) as (y1' & Hy1' & _ & _ & He). rewrite <- (Hg2 v y2 Hy2 Hn). congruence.
Qed.

(** Every bin holds what it held, in order, less [p] if it has been unlinked. *)
Definition bins_but (unlinked : bool) (p : positive) (s s' : pdev_t) : Prop :=
  ∀ i q l, hash_bins s !! i = Some q → rep q l →
    ∃ q', hash_bins s' !! i = Some q' ∧ rep q' (if unlinked then without p l else l).

(** On the way from [s0], the peer [p], whose members were [x], is out of the
    bins ([ub]) and out of the list of its virtual device ([uv]). *)
Record deleting (s0 : pdev_t) (p : positive) (x : ol_txrx_peer_t) (ub uv : bool) (s : pdev_t) : Prop := {
  dl_lists : lists_but (if ub then Some p else None) (if uv then Some p else None) s;
  dl_peer : ∃ x', peers s !! p = Some x' ∧ peer_mac x' = peer_mac x ∧ peer_vdev x' = peer_vdev x;
  dl_others : delete p (peers s) = delete p (peers s0);
  dl_rest : rest_same s0 s;
  dl_vdevs : vdevs_kept s0 s;
  dl_bins : bins_but ub p s0 s;
}.

Section delete.
Context (s0 : pdev_t) (p : positive) (x : ol_txrx_peer_t).

Lemma deleting_start : lists_but None None s0 → peers s0 !! p = Some x → deleting s0 p x false false s0.
Proof using.
  intros Hl Hx. split; try done.
  - by exists x.
  - intros i q l Hq Hr. by exists q.
Qed.

Lemma deleting_upd_peer ub uv s f : keeps_place f →
  deleting s0 p x ub uv s → deleting s0 p x ub uv (upd_peer p f s).
Proof using.
  intros Hf [Hl (x' & Hx & Hm & Hv) Ho Hr Hvd Hb]. split; try done.
  - by apply lists_upd_peer.
  - exists (f x'). rewrite (upd_peer_lookup _ _ _ _ Hx). split; [done|].
    destruct (Hf x') as [-> ->]. done.
  - rewrite <- Ho. simpl. apply map_eq. intros p'. destruct (decide (p = p')) as [<-|Hne].
    + by rewrite !lookup_delete_eq.
    + by rewrite !lookup_delete_ne, lookup_alter_ne.
Qed.

Lemma deleting_emit ub uv s e : deleting s0 p x ub uv s →
  deleting s0 p x ub uv (set_log (log s ++ [e]) s).
Proof using. intros [Hl Hx Ho Hr Hvd Hb]. split; try done. eapply lists_same; [|exact Hl]. by split_and!. Qed.

(** Changes of the wait for a deletion *)
Definition keeps_vdev (f : ol_txrx_vdev_t → ol_txrx_vdev_t) : Prop :=
  ∀ y, peer_list (f y) = peer_list y ∧ delete_pending (f y) = delete_pending y ∧
    vdev_mac (f y) = vdev_mac y ∧ last_real_peer (f y) = last_real_peer y.

Lemma kept_upd_vdev s v f :
  (∀ y, vdev_mac (f y) = vdev_mac y ∧ last_real_peer (f y) = last_real_peer y ∧
    delete_pending (f y) = delete_pending y) → vdevs_kept s (upd_vdev v f s).
Proof using.
  intros Hf. split.
  - intros v' y' (y & Hy & ->)%upd_vdev_inv. exists y. split; [done|].
    destruct (decide (v = v')); [apply Hf|done].
  - intros v' y Hy Hn. cbn in Hn. apply lookup_alter_None in Hn. congruence.
Qed.

Lemma deleting_upd_vdev ub uv s v f : keeps_vdev f →
  deleting s0 p x ub uv s → deleting s0 p x ub uv (upd_vdev v f s).
Proof using.
  intros Hf [Hl Hx Ho Hr Hvd Hb]. split; try done.
  - apply lists_upd_vdev; [|done]. intros y. destruct (Hf y) as (? & ? & _). by split_and!.
  - etrans; [done|]. apply kept_upd_vdev. intros y. destruct (Hf y) as (_ & ? & ? & ?). by split_and!.
Qed.

(** Out of the bin *)
Lemma unlink_bin s : deleting s0 p x false false s →
  safely (ol_txrx_peer_find_hash_remove p) s (λ _ s', deleting s0 p x true false s' ∧ vdevs s' = vdevs s ∧ peers s' = peers s).
Proof using.
  intros [Hl Hx Ho Hr Hvd Hb]. destruct Hx as (x' & Hx & Hxm & Hxv).
  unfold ol_txrx_peer_find_hash_remove, hash_index. eapply safely_step; [by apply peer_get_run|].
  eapply safely_step; [done|]. fold (index_of s (peer_mac x')).
  destruct (bin_of None None s Hl (peer_mac x')) as (q & Hq).
  destruct (lo_bins _ _ _ Hl _ _ Hq) as (l & Hrep & Hin).
  assert (p ∈ l) as Hp by (apply Hin; split; [done|by exists x']).
  destruct (tailq_remove_run q l p Hrep Hp) as (q' & Hrun & Hrep').
  eapply safely_run; [by eapply on_bin_run|]. split; [|done]. split; try done.
  - destruct Hl as [Hm Hlen Hbins Hpl Hown Hvl]. split; try done.
    + by rewrite upd_bin_bins, length_insert.
    + intros i qi. rewrite upd_bin_bins. intros Hqi. apply list_lookup_insert_Some in Hqi as [(<- & <- & _)|[Hne Hqi]].
      * exists (without p l). split; [done|]. intros p'. rewrite elem_of_without, Hin.
        change (index_of (upd_bin _ _ s)) with (index_of s). simpl. naive_solver.
      * destruct (Hbins _ _ Hqi) as (li & Hri & Hli). exists li. split; [done|]. intros p'. rewrite Hli.
        change (index_of (upd_bin _ _ s)) with (index_of s). simpl. split; [|naive_solver].
        intros [_ (x'' & Hx'' & Hi)]. split; [|by exists x'']. intros [= ->]. simplify_eq.
  - by exists x'.
  - intros i qi li Hqi Hri. destruct (Hb i qi li Hqi Hri) as (qi' & Hqi' & Hri').
    rewrite upd_bin_bins.
    destruct (decide (i = Z.to_nat (index_of s (peer_mac x')))) as [->|Hne].
    + exists q'. rewrite list_lookup_insert_eq by (by eapply lookup_lt_Some). split; [done|].
      simplify_eq. by rewrite <- (rep_inj _ _ _ Hrep Hri').
    + exists qi'. rewrite list_lookup_insert_ne by done. split; [done|].
      destruct (Hl.(lo_bins _ _ _) _ _ Hqi') as (l2 & Hr2 & Hl2). pose proof (rep_inj _ _ _ Hr2 Hri') as ->.
      rewrite without_id; [done|]. intros (_ & x'' & Hx'' & Hi)%Hl2. simplify_eq.
Qed.

(** Out of the list of the virtual device *)
Lemma unlink_list s : deleting s0 p x true false s →
  safely (on_peer_list (peer_vdev x) (TAILQ_REMOVE p)) s (λ _ s',
    deleting s0 p x true true s' ∧ is_Some (vdevs s' !! peer_vdev x) ∧
    (pending_but None s → pending_but None s')).
Proof using.
  intros [Hl Hx Ho Hr Hvd Hb]. destruct Hx as (x' & Hx & Hxm & Hxv).
  destruct (lo_owner _ _ _ Hl p x' Hx) as [y Hy]; [done|]. rewrite Hxv in Hy.
  destruct (lo_peer_list _ _ _ Hl _ _ Hy) as (l & Hrep & Hin).
  assert (p ∈ l) as Hp by (apply Hin; split; [done|by exists x']).
  destruct (tailq_remove_run (peer_list y) l p Hrep Hp) as (q' & Hrun & Hrep').
  eapply safely_run; [by eapply on_peer_list_run|].
  split; [|split; [eexists; by apply upd_vdev_lookup|by apply pending_upd_vdev]]. split; try done.
  - apply (lists_vdev _ None (Some p)); [| | |done].
    + intros y' Hy'. simplify_eq. split; [done|]. exists (without p l). split; [done|].
      intros p'. rewrite elem_of_without, Hin. naive_solver.
    + intros v' y' Hy' Hne. destruct (lo_peer_list _ _ _ Hl _ _ Hy') as (l' & Hrep2 & Hin2).
      exists l'. split; [done|]. intros p'. rewrite Hin2. split; [|naive_solver].
      intros [_ (x2 & Hx2 & Hv2)]. split; [|by exists x2]. intros [= ->]. simplify_eq.
    + intros p' x2 Hx2 _. by apply (lo_owner _ _ _ Hl p' x2).
  - by exists x'.
  - etrans; [done|]. by apply kept_upd_vdev.
Qed.

(** The deletion that [ol_txrx_peer_attach] waits for *)
Lemma signal_wait s v peer_id : is_Some (vdevs s !! v) → deleting s0 p x true true s → pending_but None s →
  safely (y ← get_vdev v;
    when (peer_id =? wait_on_peer_id y)
      (mod_vdev v (set_wait_delete_comp true);;
       mod_vdev v (set_wait_on_peer_id OL_TXRX_INVALID_LOCAL_PEER_ID))) s
    (λ _ s', deleting s0 p x true true s' ∧ pending_but None s' ∧ is_Some (vdevs s' !! v)).
Proof using.
  intros [y Hy] Hd Hp. eapply safely_step; [by apply get_vdev_run|].
  apply safely_when; intros _; [|by eauto].
  eapply safely_step; [by eapply mod_vdev_run|]. eapply safely_run.
  { eapply mod_vdev_run. by apply upd_vdev_lookup. }
  split_and!.
  - by do 2 (apply deleting_upd_vdev; [done|]).
  - by do 2 (apply pending_upd_vdev; [done|]).
  - eexists. do 2 eapply upd_vdev_lookup. exact Hy.
Qed.

End delete.

(** * The end of a virtual device *)

Definition freed_vdev (v : positive) (s : pdev_t) : pdev_t :=
  set_log (log s ++ [EvVdevFreed v]) (set_vdevs (delete v (vdevs s))
    (set_vdev_list (mk_tailq (tqh_first (vdev_list s)) (tqh_last (vdev_list s))
      (delete v (entries (vdev_list s)))) s)).

Lemma free_vdev_run s v : is_Some (vdevs s !! v) → free_vdev v s = Some (tt, freed_vdev v s).
Proof. intros [y Hy]. unfold free_vdev. mrun (get_vdev_run _ _ _ Hy). done. Qed.

(** A virtual device that is in no list and has no peers, but for [ov], goes. *)
Lemma lists_free_vdev ob ov s v ql l :
  lists_but ob ov s → rep ql l →
  (∀ v', v' ∈ l ↔ v' ≠ v ∧ ∃ y, vdevs s !! v' = Some y ∧ delete_pending y = false) →
  (∀ p x, peers s !! p = Some x → Some p ≠ ov → peer_vdev x ≠ v) →
  lists_but ob ov (freed_vdev v (set_vdev_list ql s)).
Proof.
  intros [Hm Hlen Hb Hv Ho _] Hr Hl Hno. split; try done.
  - intros v' y'. simpl. intros [Hne Hy]%lookup_delete_Some. by apply Hv.
  - intros p x Hx Hp. simpl. rewrite lookup_delete_ne by (intros ->; by eapply Hno). by eapply Ho.
  - exists l. split.
    + apply entry_gone_rep; [done|]. rewrite Hl. naive_solver.
    + intros v'. rewrite Hl. simpl. setoid_rewrite lookup_delete_Some. naive_solver.
Qed.

Section vdev_end.
Context (s0 : pdev_t) (p : positive) (x : ol_txrx_peer_t).

(** Once [p] is out of the lists, its virtual device goes if it was only waiting
    for that; no device is left waiting for [p]. *)
Lemma vdev_end s : deleting s0 p x true true s → pending_but None s → is_Some (vdevs s !! peer_vdev x) →
  safely (y ← get_vdev (peer_vdev x);
    when (TAILQ_EMPTY (peer_list y) && delete_pending y)
      (free_vdev (peer_vdev x);; when (delete_callback y) (emit (EvVdevDeleteCb (peer_vdev x))))) s
    (λ _ s', deleting s0 p x true true s' ∧ pending_but (Some p) s').
Proof using.
  intros Hd Hp [y Hy]. pose proof (dl_lists _ _ _ _ _ _ Hd) as Hl. cbn in Hl.
  destruct (lo_peer_list _ _ _ Hl _ _ Hy) as (l & Hrep & Hin).
  destruct (dl_peer _ _ _ _ _ _ Hd) as (x' & Hx & Hxm & Hxv).
  eapply safely_step; [by apply get_vdev_run|]. rewrite (TAILQ_EMPTY_rep _ _ Hrep).
  assert (∀ v' y', vdevs s !! v' = Some y' → delete_pending y' = true → v' ≠ peer_vdev x →
    ∃ p' x2, peers s !! p' = Some x2 ∧ peer_vdev x2 = v' ∧ Some p' ≠ Some p) as Hother.
  { intros v' y' Hy' Hpend Hne. destruct (Hp v' y' Hy' Hpend) as (p' & x2 & Hx2 & Hv2 & _).
    exists p', x2. split_and!; [done|done|]. intros [= ->]. simplify_eq. }
  apply safely_when.
  - intros [->%bool_decide_eq_true Hpend]%andb_true_iff.
    eapply safely_step; [by apply free_vdev_run|].
    assert (deleting s0 p x true true (freed_vdev (peer_vdev x) s) ∧
      pending_but (Some p) (freed_vdev (peer_vdev x) s)) as [Hd' Hp'].
    { split.
      - destruct Hd as [_ _ Ho Hr Hvd Hb]. split; try done.
        + destruct (lo_vdev_list _ _ _ Hl) as (lv & Hrv & Hlv). destruct s as [? ? qv].
          eapply (lists_free_vdev _ _ (mk_pdev _ _ qv _ _ _ _ _ _ _ _ _ _) _ qv lv); [exact Hl|exact Hrv| |].
          * intros v'. rewrite Hlv. split; [|naive_solver]. intros (y' & Hy' & Hd'). split; [|by exists y'].
            intros ->. simplify_eq/=. congruence.
          * intros p' x2 Hx2 Hne Hv2. assert (p' ∈ []) as []%not_elem_of_nil.
            apply Hin. split; [done|]. by exists x2.
        + by exists x'.
        + destruct Hvd as [Hvd1 Hvd2]. split.
          * intros v' y'. simpl. intros [_ Hy']%lookup_delete_Some. by apply Hvd1.
          * intros v' y'. simpl. intros Hy' [<-|Hn]%lookup_delete_None; [|by eapply Hvd2].
            destruct (Hvd1 _ _ Hy) as (y0 & Hy0 & _ & _ & He). congruence.
      - intros v' y'. simpl. intros [Hne Hy']%lookup_delete_Some. intros Hpend'. by eapply Hother. }
    apply safely_when; intros _; [|done]. eapply safely_run; [done|]. split; [by apply deleting_emit|done].
  - intros Hf. split; [done|]. intros v' y' Hy' Hpend.
    destruct (decide (v' = peer_vdev x)) as [->|Hne]; [|by eapply Hother]. simplify_eq.
    rewrite Hpend, andb_true_r in Hf. apply bool_decide_eq_false in Hf.
    destruct l as [|p' l]; [done|]. destruct (proj1 (Hin p')) as (Hne & x2 & Hx2 & Hv2); [by left|].
    by exists p', x2.
Qed.
End vdev_end.

(** * The end of the peer *)

Lemma emits_run {A} (f : A → peer_event) l s :
  for_each l (λ a, emit (f a)) s = Some (tt, set_log (log s ++ map f l) s).
Proof.
  revert s. induction l as [|a l IH]; intros s; cbn [for_each map].
  - rewrite app_nil_r. by destruct s.
  - mnext. rewrite IH. cbn. by rewrite <- app_assoc.
Qed.

(** After the deletion of [p] the lists are right, and nothing else changed but
    what the virtual device keeps about deletions. *)
Record deleted (s0 : pdev_t) (p : positive) (s : pdev_t) : Prop := {
  dd_lists : lists_ok s;
  dd_peers : peers s = delete p (peers s0);
  dd_rest : rest_same s0 s;
  dd_vdevs : vdevs_kept s0 s;
  dd_bins : bins_but true p s0 s;
}.

Section free.
Context (s0 : pdev_t) (p : positive) (x : ol_txrx_peer_t).
Implicit Types (s : pdev_t).

(** What holds between the end of the virtual device and the end of the peer. *)
Definition unlinked s : Prop := deleting s0 p x true true s ∧ pending_but (Some p) s.

Lemma unlinked_log s l : unlinked s → unlinked (set_log l s).
Proof using.
  intros [[Hl Hx Ho Hr Hvd Hb] Hp]. split; [|done]. split; try done.
  eapply lists_same; [|exact Hl]. by split_and!.
Qed.

Lemma free_arrays_ok s : unlinked s → safely (free_arrays p) s (λ _ s', unlinked s').
Proof using.
  intros [Hd Hp]. destruct (dl_peer _ _ _ _ _ _ Hd) as (x' & Hx & _).
  unfold free_arrays. eapply safely_step; [by apply peer_get_run|].
  eapply safely_step; [apply emits_run|]. eapply safely_run; [by apply (peer_mod_run _ _ x')|].
  split; [apply deleting_upd_peer; [done|]|apply pending_upd_peer; [done|]]; by apply unlinked_log.
Qed.

(** Freeing the entries of the peer leaves the lists alone. *)
Lemma bin_entry_gone s i : unlinked s → (∃ q, hash_bins s !! Z.to_nat i = Some q) →
  safely (on_bin i (entry_gone p)) s (λ _ s', unlinked s' ∧ vdevs s' = vdevs s).
Proof using.
  intros [[Hl Hx Ho Hr Hvd Hb] Hp] (q & Hq). eapply safely_run; [by eapply on_bin_run|].
  assert (∀ i' q' l, hash_bins s !! i' = Some q' → rep q' l → p ∉ l →
    ∃ q2, hash_bins (upd_bin i (mk_tailq (tqh_first q) (tqh_last q) (delete p (entries q))) s) !! i' = Some q2 ∧ rep q2 l) as Hbin.
  { intros i' q' l Hq' Hrep Hnp. rewrite upd_bin_bins. destruct (decide (i' = Z.to_nat i)) as [->|Hne].
    - rewrite list_lookup_insert_eq by (by eapply lookup_lt_Some). simplify_eq.
      eexists. split; [done|]. by apply entry_gone_rep.
    - rewrite list_lookup_insert_ne by done. eauto. }
  split; [|done]. split; [|done]. split; try done.
  - destruct Hl as [Hm Hlen Hbins Hpl Hown Hvl]. split; try done; [by rewrite upd_bin_bins, length_insert|].
    intros i' q' Hq'. rewrite upd_bin_bins in Hq'. assert (is_Some (hash_bins s !! i')) as [q2 Hq2].
    { apply lookup_lt_Some in Hq'. rewrite length_insert in Hq'. by apply lookup_lt_is_Some_2. }
    destruct (Hbins _ _ Hq2) as (l & Hrep & Hin). destruct (Hbin _ _ _ Hq2 Hrep) as (q3 & Hq3 & Hrep3).
    { rewrite Hin. naive_solver. }
    rewrite upd_bin_bins, Hq' in Hq3. injection Hq3 as <-. by exists l.
  - intros i' q' l Hq' Hrep. destruct (Hb i' q' l Hq' Hrep) as (q2 & Hq2 & Hrep2).
    apply (Hbin _ _ _ Hq2 Hrep2). rewrite elem_of_without. naive_solver.
Qed.

Lemma list_entry_gone s v : unlinked s → is_Some (vdevs s !! v) →
  safely (on_peer_list v (entry_gone p)) s (λ _ s', unlinked s').
Proof using.
  intros [[Hl Hx Ho Hr Hvd Hb] Hp] [y Hy]. eapply safely_run; [by eapply on_peer_list_run|].
  split; [|by apply pending_upd_vdev]. split; try done.
  - apply (lists_vdev _ (Some p)); [| | |done].
    + intros y' Hy'. assert (y' = y) as -> by congruence. split; [done|].
      destruct (lo_peer_list _ _ _ Hl _ _ Hy) as (l & Hrep & Hin). exists l. split; [|done].
      apply entry_gone_rep; [done|]. rewrite Hin. naive_solver.
    + intros v' y' Hy' _. by apply (lo_peer_list _ _ _ Hl).
    + by apply (lo_owner _ _ _ Hl).
  - etrans; [done|]. by apply kept_upd_vdev.
Qed.

Lemma lists_delete s : unlinked s → deleted s0 p (set_peers (delete p (peers s)) s).
Proof using.
  intros [[[Hm Hlen Hbins Hpl Hown Hvl] Hx Ho Hr Hvd Hb] Hp].
  assert (∀ q P, holds_peers (peers s) (Some p) q P → holds_peers (delete p (peers s)) None q P) as Hholds.
  { intros q P (l & Hrep & Hl). exists l. split; [done|]. intros p'. rewrite Hl.
    setoid_rewrite lookup_delete_Some. naive_solver. }
  split; try done. split.
  - split; try done; simpl; auto.
    intros p' x'. intros [Hne Hx']%lookup_delete_Some _. apply (Hown p' x' Hx'). congruence.
  - intros v y Hy Hpend. destruct (Hp v y Hy Hpend) as (p' & x' & Hx' & Hv & Hne). exists p', x'.
    simpl. rewrite lookup_delete_ne by congruence. done.
Qed.

Lemma free_peer_ok s : unlinked s → safely (free_peer p) s (λ _ s', deleted s0 p s').
Proof using.
  intros Hu. pose proof (dl_lists _ _ _ _ _ _ (proj1 Hu)) as Hl.
  destruct (dl_peer _ _ _ _ _ _ (proj1 Hu)) as (x' & Hx & _). unfold free_peer, hash_index.
  eapply safely_step; [by apply peer_get_run|]. eapply safely_step; [done|].
  eapply safely_bind; [apply bin_entry_gone; [done|]|].
  { eapply bin_of. exact Hl. }
  intros _ s1 [Hu1 Hv1]. eapply safely_step; [done|]. cbv beta.
  eapply safely_bind with (P := λ _ s', unlinked s').
  { destruct (vdevs s1 !! peer_vdev x') as [y|] eqn:Hy; [|by apply safely_ret].
    apply list_entry_gone; [done|by exists y]. }
  intros ? s2 Hu2. eapply safely_step; [done|]. eapply safely_run; [done|].
  destruct (lists_delete s2 Hu2) as [[Hl2 Hp2] Hps Hr Hvd Hb]. split; try done. split; [|done].
  eapply lists_same; [|exact Hl2]. by split_and!.
Qed.
End free.

(** The deletion of a peer, from lists that are right. *)
Lemma delete_peer_ok s p x : lists_ok s → peers s !! p = Some x →
  safely (delete_peer p) s (λ _ s', deleted s p s').
Proof.
  intros [Hl Hp] Hx. unfold delete_peer. eapply safely_step; [by apply peer_get_run|]. cbv beta zeta.
  eapply safely_bind; [apply unlink_bin; by apply deleting_start|]. intros _ s1 (Hd1 & Hv1 & Hp1).
  eapply safely_bind; [by apply unlink_list|]. intros _ s2 (Hd2 & Hlive & Hpend).
  assert (pending_but None s2) as Hp2 by (apply Hpend; unfold pending_but; by rewrite Hv1, Hp1).
  destruct (dl_peer _ _ _ _ _ _ Hd2) as (x2 & Hx2 & _). clear Hpend.
  eapply safely_step; [by eapply peer_mod_run|]. eapply safely_step; [done|].
  eapply safely_step; [by eapply peer_mod_run, upd_peer_lookup|].
  eapply safely_bind_assoc; [apply signal_wait; [exact Hlive| |by do 2 (apply pending_upd_peer; [done|])]|].
  { apply deleting_upd_peer; [done|]. apply deleting_emit. by apply deleting_upd_peer. }
  intros _ s3 (Hd3 & Hp3 & Hlive3). eapply safely_bind_assoc; [by apply vdev_end|].
  intros ? s4 Hu. eapply safely_bind; [by apply (free_arrays_ok s p x)|]. intros ? s5 Hu5.
  by apply (free_peer_ok s p x).
Qed.
