(* ===== verification/PeerErase.v ===== *)
(** The registry of peers: dropping the last reference, and erasing the whole
    table when the driver is unloaded. *)
From S2P Require Import Prelude Tailq PeerTypes PeerFind PeerLife PeerRep PeerDelete.

Definition dec_ref (x : ol_txrx_peer_t) : ol_txrx_peer_t := set_ref_cnt (ref_cnt x - 1) x.

(** [ol_txrx_peer_unref_delete] drops a reference, and deletes the peer with the
    last one. *)
Lemma unref_delete_last s p x : lists_ok s → peers s !! p = Some x → ref_cnt x = 1 →
  safely (ol_txrx_peer_unref_delete p) s (λ _ s', deleted s p s').
Proof.
  intros Hl Hx Hc. unfold ol_txrx_peer_unref_delete.
  eapply safely_step; [by apply peer_get_run|]. rewrite Hc. cbn.
  eapply safely_step; [by eapply peer_mod_run|]. fold dec_ref.
  eapply safely_step; [by apply peer_get_run, upd_peer_lookup|]. cbn. rewrite Hc. cbn.
  eapply safely_mono; [apply (delete_peer_ok _ p (dec_ref x)); [by apply lists_ok_upd_peer|by apply upd_peer_lookup]|].
  intros _ s' [Hl' Hp Hr Hv Hb]. split; [done| |done..]. rewrite Hp. cbn.
  apply map_eq. intros p'. destruct (decide (p = p')) as [<-|Hne].
  - by rewrite !lookup_delete_eq.
  - by rewrite !lookup_delete_ne, lookup_alter_ne.
Qed.

Lemma unref_delete_more s p x : peers s !! p = Some x → ref_cnt x ≠ 0 → ref_cnt x ≠ 1 →
  ol_txrx_peer_unref_delete p s = Some (tt, upd_peer p dec_ref s).
Proof.
  intros Hx H0 H1. unfold ol_txrx_peer_unref_delete. mrun (peer_get_run _ _ _ Hx).
  destruct (Z.eqb_spec (ref_cnt x) 0); [done|]. unfold peer_unref. mrun (peer_mod_run _ _ _ dec_ref Hx).
  mrun (peer_get_run _ _ _ (upd_peer_lookup s p dec_ref x Hx)). cbn.
  destruct (Z.eqb_spec (ref_cnt x - 1) 0); [lia|done].
Qed.

(** * Erasing the table *)

(** The loop over a bin deletes all its peers: the successor of a peer is read
    before the peer goes. *)
Lemma erase_bin_ok i l : ∀ fuel s q, lists_ok s → hash_bins s !! Z.to_nat i = Some q → rep q l →
  (length l ≤ fuel)%nat →
  safely (erase_bin fuel i (head l)) s (λ _ s', lists_ok s' ∧ rest_same s s' ∧ vdevs_kept s s' ∧
    (∀ p x, peers s' !! p = Some x ↔ peers s !! p = Some x ∧ p ∉ l)).
Proof.
  induction l as [|p l IH]; intros fuel s q Hl Hq Hrep Hfuel.
  { cbn. destruct fuel; apply safely_ret; (split_and!; [done|done|done|set_solver]). }
  destruct fuel as [|fuel]; [cbn in Hfuel; lia|]. cbn [erase_bin head].
  destruct (lo_bins _ _ _ (proj1 Hl) _ _ Hq) as (l' & Hrep' & Hin).
  pose proof (rep_inj _ _ _ Hrep Hrep') as <-.
  destruct (proj1 (Hin p)) as (_ & x & Hx & _); [by left|].
  eapply safely_step.
  { eapply on_bin_read; [exact Hq|]. apply (TAILQ_NEXT_ok q [] p l Hrep). }
  eapply safely_step; [by eapply peer_mod_run|].
  eapply safely_step; [by eapply peer_mod_run, upd_peer_lookup|]. rewrite upd_peer_compose.
  set (s1 := upd_peer p _ s).
  assert (lists_ok s1) as Hl1 by by apply lists_ok_upd_peer.
  eapply safely_bind; [by eapply unref_delete_last; [|by apply upd_peer_lookup|]|].
  intros _ s2 [Hl2 Hp2 Hr2 Hv2 Hb2]. destruct (Hb2 _ q _ Hq Hrep) as (q2 & Hq2 & Hrep2).
  assert (p ∉ l ∧ without p (p :: l) = l) as [Hnp Hw].
  { destruct Hrep as [[Hnp _]%NoDup_cons _]. split; [done|]. unfold without.
    rewrite filter_cons_False by auto. by apply without_id. }
  rewrite Hw in Hrep2. eapply safely_mono; [apply (IH fuel s2 q2 Hl2 Hq2 Hrep2); cbn in Hfuel; lia|].
  cbv beta. intros _ s3 (Hl3 & Hr3 & Hv3 & Hp3). split_and!; [done|by etrans|by etrans|].
  intros p' x'. rewrite Hp3, Hp2, lookup_delete_Some, not_elem_of_cons. subst s1. cbn.
  destruct (decide (p = p')) as [<-|Hne]; [naive_solver|]. rewrite lookup_alter_ne by done. naive_solver.
Qed.

Lemma erase_bin_from_ok s i : lists_ok s → 0 ≤ i ≤ hash_mask s →
  safely (erase_bin_from i) s (λ _ s', lists_ok s' ∧ rest_same s s' ∧ vdevs_kept s s' ∧
    (∀ p x, peers s' !! p = Some x ↔ peers s !! p = Some x ∧ index_of s (peer_mac x) ≠ i)).
Proof.
  intros Hl Hi. unfold erase_bin_from.
  assert (is_Some (hash_bins s !! Z.to_nat i)) as [q Hq].
  { apply lookup_lt_is_Some_2. pose proof (lo_length _ _ _ (proj1 Hl)). lia. }
  destruct (lo_bins _ _ _ (proj1 Hl) _ _ Hq) as (l & Hrep & Hin).
  eapply safely_step; [done|]. cbv beta. rewrite Hq. eapply safely_step; [done|]. cbv beta.
  assert (∀ p x, peers s !! p = Some x → p ∉ l ↔ index_of s (peer_mac x) ≠ i) as Hl'.
  { intros p x Hx. pose proof (index_range _ _ _ (proj1 Hl) (peer_mac x)).
    rewrite Hin. split; [intros Hn He; apply Hn; split; [done|exists x; by rewrite He]|].
    intros Hn (_ & x' & Hx' & He). simplify_eq. lia. }
  rewrite (TAILQ_EMPTY_rep _ _ Hrep). apply safely_when.
  - intros _. rewrite (TAILQ_FIRST_ok _ _ Hrep).
    eapply safely_mono; [apply (erase_bin_ok i l _ s q Hl Hq Hrep); pose proof (rep_length _ _ Hrep); lia|].
    cbv beta. intros _ s' (? & ? & ? & Hp). split_and!; [done..|].
    intros p x. rewrite Hp. split; intros [Hx Hn]; (split; [done|]); by eapply Hl'.
  - intros He%negb_false_iff%bool_decide_eq_true. subst l. split_and!; [done..|].
    intros p x. split; [|naive_solver]. intros Hx. split; [done|]. apply (Hl' _ _ Hx). set_solver.
Qed.

(** Erasing the bins [a], [a + 1], ... *)
Lemma erase_bins_ok n : ∀ a s, lists_ok s → 0 ≤ a → a + Z.of_nat n = hash_mask s + 1 →
  (∀ p x, peers s !! p = Some x → a ≤ index_of s (peer_mac x)) →
  safely (for_each (seqZ a (Z.of_nat n)) erase_bin_from) s (λ _ s',
    lists_ok s' ∧ rest_same s s' ∧ vdevs_kept s s' ∧ peers s' = ∅).
Proof.
  induction n as [|n IH]; intros a s Hl Ha Hn Hp.
  - apply safely_ret. split_and!; [done..|]. apply map_eq. intros p. rewrite lookup_empty.
    destruct (peers s !! p) as [x|] eqn:Hx; [|done].
    pose proof (Hp _ _ Hx). pose proof (index_range _ _ _ (proj1 Hl) (peer_mac x)).
    pose proof (lo_length _ _ _ (proj1 Hl)). lia.
  - rewrite seqZ_cons by lia. replace (Z.pred (Z.of_nat (S n))) with (Z.of_nat n) by lia. cbn [for_each].
    eapply safely_bind; [apply erase_bin_from_ok; [done|lia]|]. intros _ s1 (Hl1 & Hr1 & Hv1 & Hp1).
    pose proof Hr1 as (_ & _ & _ & _ & Hm & Hi).
    eapply safely_mono; [apply (IH (Z.succ a) s1 Hl1); [lia|lia|]|].
    + intros p x [Hx Hne]%Hp1. specialize (Hp _ _ Hx). unfold index_of in *. rewrite Hm, Hi. lia.
    + cbv beta. intros _ s2 (? & ? & ? & ?). split_and!; [done|by etrans|by etrans|done].
Qed.

Lemma hash_erase_ok s : lists_ok s →
  safely ol_txrx_peer_find_hash_erase s (λ _ s', lists_ok s' ∧ rest_same s s' ∧ vdevs_kept s s' ∧ peers s' = ∅).
Proof.
  intros Hl. destruct (lo_mask _ _ _ (proj1 Hl)) as [Hb Hm].
  pose proof (Z.pow_pos_nonneg 2 (hash_idx_bits s) eq_refl Hb).
  unfold ol_txrx_peer_find_hash_erase. eapply safely_step; [done|]. cbv beta.
  replace (hash_mask s + 1) with (Z.of_nat (Z.to_nat (hash_mask s + 1))) by lia.
  apply erase_bins_ok; [done|lia|lia|]. intros p x _. apply (index_range _ _ _ (proj1 Hl)).
Qed.
