(* ===== verification/PeerInv.v ===== *)
(** The registry of peers: the invariant.

    A reference of a peer is held by its attachment ([valid]), by the target
    before it first maps an identifier to the peer, by each entry of the
    identifier map, and by each caller of a lookup that has not given it back
    yet.  [held] lists the references of the callers. *)
From S2P Require Import Prelude Tailq PeerTypes PeerFind PeerLife PeerRep PeerDelete PeerErase.

(** No identifier has been mapped to the peer so far. *)
Definition fresh (x : ol_txrx_peer_t) : bool := bool_decide (head (peer_ids x) = Some HTT_INVALID_PEER).

Definition refs_of (s : pdev_t) (held : list positive) (p : positive) (x : ol_txrx_peer_t) : Z :=
  Z.b2z (valid x) + Z.b2z (fresh x) + occ (Some p) (peer_id_to_obj_map s) + occ p held.

Record refs_ok (s : pdev_t) (held : list positive) : Prop := {
  rc_count : ∀ p x, peers s !! p = Some x → ref_cnt x = refs_of s held p x ∧ 0 < ref_cnt x;
  rc_map : ∀ p, Some p ∈ peer_id_to_obj_map s → is_Some (peers s !! p);
  rc_held : ∀ p, p ∈ held → is_Some (peers s !! p);
  rc_ids : ∀ p x, peers s !! p = Some x → peer_ids x ≠ [];
  rc_fresh : ∀ p x, peers s !! p = Some x → fresh x = true → Some p ∉ peer_id_to_obj_map s;
}.

(** The pool of local identifiers: those free are threaded through the array,
    the others name the peers that are attached.  [on] is a peer that has no
    identifier yet, [og] one that is being detached. *)
Record ids_but (on og : option positive) (s : pdev_t) : Prop := {
  ib_pool : length (ids_pool s) = 34%nat ∧ ids_pool s !! 33%nat = Some 33;
  ib_length : length (ids_map s) = 33%nat;
  ib_free : ∃ fl, chain 33 (ids_pool s) (ids_freelist s) fl ∧ NoDup fl ∧
    ∀ i, i ∈ fl ↔ 0 ≤ i ∧ ids_map s !! Z.to_nat i = Some None;
  ib_map : ∀ k p, ids_map s !! k = Some (Some p) → Some p ≠ on ∧
    ∃ x, peers s !! p = Some x ∧ local_id x = Z.of_nat k ∧ (valid x = true ∨ Some p = og);
  ib_peer : ∀ p x, peers s !! p = Some x → valid x = true → Some p ≠ on →
    local_id x = OL_TXRX_INVALID_LOCAL_PEER_ID ∨
    0 ≤ local_id x < 33 ∧ ids_map s !! Z.to_nat (local_id x) = Some (Some p);
}.

(** The last real peer of a virtual device is attached to it. *)
Definition last_but (og : option positive) (s : pdev_t) : Prop :=
  ∀ v y p, vdevs s !! v = Some y → last_real_peer y = Some p →
    ∃ x, peers s !! p = Some x ∧ peer_vdev x = v ∧ (valid x = true ∨ Some p = og).

Record registry_but (on og : option positive) (s : pdev_t) (held : list positive) : Prop := {
  rg_lists : lists_ok s;
  rg_refs : refs_ok s held;
  rg_ids : ids_but on og s;
  rg_last : last_but og s;
}.

Definition registry_ok : pdev_t → list positive → Prop := registry_but None None.

(** * Changes that do not matter *)

Definition quiet (f : ol_txrx_peer_t → ol_txrx_peer_t) : Prop := ∀ x,
  (peer_mac (f x) = peer_mac x ∧ peer_vdev (f x) = peer_vdev x) ∧ ref_cnt (f x) = ref_cnt x ∧ valid (f x) = valid x ∧ peer_ids (f x) = peer_ids x ∧
  local_id (f x) = local_id x.

Lemma quiet_place f : quiet f → keeps_place f.
Proof. intros H x. by apply H. Qed.

(** An attribute of the peers that an update of one of them keeps. *)
Lemma upd_peer_inv s p f p' x' : peers (upd_peer p f s) !! p' = Some x' →
  ∃ x, peers s !! p' = Some x ∧ x' = if decide (p = p') then f x else x.
Proof.
  simpl. intros [(<- & x & Hx & ->)|[Hne Hx]]%lookup_alter_Some.
  - exists x. by rewrite decide_True.
  - exists x'. by rewrite decide_False.
Qed.

Lemma upd_peer_live s p f p' : is_Some (peers s !! p') → is_Some (peers (upd_peer p f s) !! p').
Proof. intros H. simpl. by apply lookup_alter_is_Some. Qed.

Lemma ids_upd_peer on og s p f : (∀ x, valid (f x) = valid x ∧ local_id (f x) = local_id x) →
  ids_but on og s → ids_but on og (upd_peer p f s).
Proof.
  intros Hf [Hp Hlen Hfree Hm Hpeer]. split; try done.
  - intros k p' (Hn & x & Hx & Hl & Hv)%Hm. split; [done|].
    destruct (decide (p = p')) as [<-|Hne].
    + exists (f x). rewrite (upd_peer_lookup _ _ _ _ Hx). destruct (Hf x) as [-> ->]. done.
    + exists x. simpl. by rewrite lookup_alter_ne.
  - intros p' x' (x & Hx & ->)%upd_peer_inv. destruct (Hf x) as [Hv Hl].
    destruct (decide (p = p')); rewrite ?Hv, ?Hl; by apply Hpeer.
Qed.

Lemma last_upd_peer og s p f : (∀ x, valid (f x) = valid x ∧ peer_vdev (f x) = peer_vdev x) →
  last_but og s → last_but og (upd_peer p f s).
Proof.
  intros Hf Hl v y p' Hy Hlast. destruct (Hl v y p' Hy Hlast) as (x & Hx & Hv & Hval).
  destruct (decide (p = p')) as [<-|Hne].
  - exists (f x). rewrite (upd_peer_lookup _ _ _ _ Hx). destruct (Hf x) as [-> ->]. done.
  - exists x. simpl. by rewrite lookup_alter_ne.
Qed.

(** Changing a peer and who holds its references, in step. *)
Lemma refs_upd_peer s p f held held' x : peers s !! p = Some x →
  (∀ q, q ≠ p → occ q held' = occ q held) →
  ref_cnt (f x) - Z.b2z (valid (f x)) - occ p held' = ref_cnt x - Z.b2z (valid x) - occ p held →
  0 < ref_cnt (f x) → peer_ids (f x) = peer_ids x →
  refs_ok s held → refs_ok (upd_peer p f s) held'.
Proof.
  intros Hx Hocc Hc Hpos Hids [Hcount Hmap Hheld Hne Hfr].
  assert (fresh (f x) = fresh x) as Hfresh by (unfold fresh; by rewrite Hids).
  split.
  - intros p' x' (x2 & Hx2 & ->)%upd_peer_inv. destruct (Hcount _ _ Hx2) as [Hr ?]. unfold refs_of in *.
    change (peer_id_to_obj_map (upd_peer p f s)) with (peer_id_to_obj_map s).
    destruct (decide (p = p')) as [<-|Hn]; [|rewrite Hocc by done; split; [lia|done]].
    simplify_eq. rewrite Hfresh. lia.
  - intros p' Hp'. by apply upd_peer_live, Hmap.
  - intros p' Hp'. apply upd_peer_live. destruct (decide (p' = p)) as [->|Hn]; [by exists x|].
    apply Hheld. destruct (decide (p' ∈ held)) as [|Hn2]; [done|]. exfalso.
    apply occ_zero in Hn2. rewrite <- Hocc in Hn2 by done. by apply occ_zero in Hn2.
  - intros p' x' (x2 & Hx2 & ->)%upd_peer_inv. destruct (decide (p = p')) as [<-|Hn]; [|by eapply Hne].
    simplify_eq. rewrite Hids. by eapply Hne.
  - intros p' x' (x2 & Hx2 & ->)%upd_peer_inv. destruct (decide (p = p')) as [<-|Hn]; [|by eapply Hfr].
    simplify_eq. rewrite Hfresh. by eapply Hfr.
Qed.

Lemma registry_quiet on og s p f held : quiet f →
  registry_but on og s held → registry_but on og (upd_peer p f s) held.
Proof.
  intros Hf [Hl Hr Hi Hla]. destruct (peers s !! p) as [x|] eqn:Hx.
  - destruct (Hf x) as (_ & Hrc & Hv & Hids & _). split.
    + apply lists_ok_upd_peer; [by apply quiet_place|done].
    + apply (refs_upd_peer s p f held held x); try done; [by rewrite Hrc, Hv|].
      rewrite Hrc. by apply (rc_count _ _ Hr p x).
    + apply ids_upd_peer; [|done]. intros x'. by destruct (Hf x') as (_ & _ & -> & _ & ->).
    + apply last_upd_peer; [|done]. intros x'. by destruct (Hf x') as ([_ ->] & _ & -> & _).
  - replace (upd_peer p f s) with s; [done|]. symmetry. rewrite (upd_peer_id s p f); [done|]. congruence.
Qed.

Lemma registry_log on og s held l : registry_but on og s held → registry_but on og (set_log l s) held.
Proof.
  intros [[Hl Hp] [] [] Hla]. split; try done. split; [|done]. eapply lists_same; [|exact Hl]. by split_and!.
Qed.

(** Only how many references each peer is owed matters. *)
Lemma registry_held on og s held held' : (∀ p, occ p held' = occ p held) →
  registry_but on og s held → registry_but on og s held'.
Proof.
  intros Hocc [Hl [Hc Hm Hh Hi Hf] Hids Hla]. split; [done| |done..]. split; try done.
  - intros p x Hx. unfold refs_of. rewrite Hocc. by apply Hc.
  - intros p Hp. apply Hh. destruct (decide (p ∈ held)) as [|Hn]; [done|]. exfalso.
    apply occ_zero in Hn. rewrite <- Hocc in Hn. by apply occ_zero in Hn.
Qed.

(** The registry of peers: taking references and giving them back. *)

Definition inc_ref (x : ol_txrx_peer_t) : ol_txrx_peer_t := set_ref_cnt (ref_cnt x + 1) x.

Lemma occ_other (p q : positive) held : q ≠ p → occ q (p :: held) = occ q held.
Proof. intros H. cbn. by rewrite decide_False. Qed.

Lemma occ_self (p : positive) held : occ p (p :: held) = 1 + occ p held.
Proof. cbn. by rewrite decide_True. Qed.

(** What the count of a peer says about who refers to it *)
Lemma refs_of_held s held p x : refs_ok s held → peers s !! p = Some x → p ∈ held →
  1 + Z.b2z (valid x) + Z.b2z (fresh x) + occ (Some p) (peer_id_to_obj_map s) ≤ ref_cnt x.
Proof.
  intros Hr Hx Hin. destruct (rc_count _ _ Hr _ _ Hx) as [-> _]. unfold refs_of.
  pose proof (occ_nonneg p held). assert (occ p held ≠ 0) by (rewrite occ_zero; naive_solver). lia.
Qed.

Section refs.
Context (on og : option positive).
Implicit Types (s : pdev_t).

Lemma registry_inc s held p x : peers s !! p = Some x → registry_but on og s held →
  registry_but on og (upd_peer p inc_ref s) (p :: held).
Proof using.
  intros Hx [Hl Hr Hi Hla]. split.
  - by apply lists_ok_upd_peer.
  - apply (refs_upd_peer s p inc_ref held _ x); try done; [intros q Hq; by rewrite occ_other|rewrite occ_self; cbn; lia|].
    cbn. pose proof (rc_count _ _ Hr _ _ Hx). lia.
  - by apply ids_upd_peer.
  - by apply last_upd_peer.
Qed.

Lemma registry_take s held o : (∀ p, o = Some p → is_Some (peers s !! p)) →
  registry_but on og s held → registry_but on og (take_ref o s) (option_list o ++ held).
Proof using.
  intros Ho Hr. destruct o as [p|]; [|done]. destruct (Ho p eq_refl) as [x Hx]. by eapply registry_inc.
Qed.

Lemma registry_dec s held p x : peers s !! p = Some x → ref_cnt x ≠ 1 →
  registry_but on og s (p :: held) → registry_but on og (upd_peer p dec_ref s) held.
Proof using.
  intros Hx Hn [Hl Hr Hi Hla]. pose proof (rc_count _ _ Hr _ _ Hx) as [_ ?]. split.
  - by apply lists_ok_upd_peer.
  - apply (refs_upd_peer s p dec_ref (p :: held) _ x); try done.
    + intros q Hq. by rewrite occ_other.
    + rewrite occ_self. cbn. lia.
    + cbn. lia.
  - by apply ids_upd_peer.
  - by apply last_upd_peer.
Qed.

(** Deleting a peer nobody refers to *)
Lemma registry_deleted s held p s' : deleted s p s' → refs_ok s (p :: held) →
  (∀ x, peers s !! p = Some x → valid x = false ∧ Some p ∉ peer_id_to_obj_map s ∧ p ∉ held) →
  ids_but None None s → last_but None s → registry_ok s' held.
Proof using.
  intros [Hl Hp (Hmap & Hpool & Hfl & Hids & _) [Hv _] _] Hr Hx Hi Hla.
  assert (∀ q, (peers s !! q = None → False) → (q = p → ∀ x, peers s !! p = Some x → False) → is_Some (peers s' !! q)) as Hlive.
  { intros q Hq Hqp. destruct (peers s !! q) as [xq|] eqn:Hxq; [|done]. rewrite Hp. destruct (decide (q = p)) as [->|Hne].
    - exfalso. by eapply Hqp.
    - exists xq. by rewrite lookup_delete_ne. }
  split; [done| | |].
  - destruct Hr as [Hc Hm Hh Hid Hf]. split; unfold refs_of in *; rewrite ?Hmap.
    + intros q xq. rewrite Hp. intros [Hne Hq]%lookup_delete_Some.
      destruct (Hc _ _ Hq) as [He ?]. by rewrite occ_other in He.
    + intros q Hq. apply Hlive; [intros HN; apply Hm in Hq; rewrite HN in Hq; by destruct Hq|].
      intros -> x Hpx. by destruct (Hx _ Hpx) as (_ & ? & ?).
    + intros q Hq. apply Hlive; [intros HN; destruct (Hh q) as [xq Hxq]; [by right|congruence]|].
      intros -> x Hpx. by destruct (Hx _ Hpx) as (_ & ? & ?).
    + intros q xq. rewrite Hp. intros [_ Hq]%lookup_delete_Some. by eapply Hid.
    + intros q xq. rewrite Hp. intros [_ Hq]%lookup_delete_Some. by apply Hf.
  - destruct Hi as [? ? Hfree Hm Hpeer]. split; rewrite ?Hpool, ?Hids, ?Hfl; try done.
    + intros k q Hk. destruct (Hm k q Hk) as (Hn & xq & Hq & Hlo & Hval). split; [done|].
      exists xq. rewrite Hp. rewrite lookup_delete_ne; [done|]. intros <-. destruct (Hx _ Hq) as [? _].
      destruct Hval; congruence.
    + intros q xq. rewrite Hp. intros [_ Hq]%lookup_delete_Some. by apply Hpeer.
  - intros v y' q Hy' Hlast. destruct (Hv v y' Hy') as (y & Hy & _ & He & _). rewrite He in Hlast.
    destruct (Hla v y q Hy Hlast) as (xq & Hq & Hvd & Hval). exists xq. rewrite Hp.
    rewrite lookup_delete_ne; [done|]. intros <-. destruct (Hx _ Hq) as [? _]. destruct Hval; congruence.
Qed.
End refs.

(** Giving a reference back keeps the registry right; the peer goes with the
    last one, and only then. *)
Lemma unref_delete_ok s held p x : peers s !! p = Some x → registry_ok s (p :: held) →
  safely (ol_txrx_peer_unref_delete p) s (λ _ s', registry_ok s' held ∧
    (if decide (ref_cnt x = 1) then deleted s p s' else s' = upd_peer p dec_ref s)).
Proof.
  intros Hx Hg. pose proof (rg_refs _ _ _ _ Hg) as Hr. pose proof (rc_count _ _ Hr _ _ Hx) as [Hc Hpos].
  destruct (decide (ref_cnt x = 1)) as [H1|Hn].
  - eapply safely_mono; [apply (unref_delete_last s p x); [apply Hg|done|done]|]. cbv beta. intros _ s' Hd. split; [|done].
    pose proof (refs_of_held _ _ p x Hr Hx ltac:(by left)) as Hle. unfold refs_of in Hc. rewrite occ_self in Hc.
    pose proof (occ_nonneg (Some p) (peer_id_to_obj_map s)). pose proof (occ_nonneg p held).
    assert (occ p held = 0 ∧ occ (Some p) (peer_id_to_obj_map s) = 0 ∧ valid x = false) as (Hh & Hm & Hv).
    { destruct (valid x), (fresh x); cbn in *; split_and!; try lia; done. }
    apply occ_zero in Hh. apply occ_zero in Hm.
    apply (registry_deleted s held p); [done|done| |apply Hg|apply Hg].
    intros x' Hx'. by simplify_eq.
  - eapply safely_run; [apply (unref_delete_more _ _ x); [done|lia|done]|]. split; [|done]. by eapply registry_dec.
Qed.
