(* ===== verification/PeerOps.v ===== *)
(** The registry of peers: what lookups, state changes, the target's messages
    and the attachment of virtual devices do to it. *)
From S2P Require Import Prelude Tailq PeerTypes PeerFind PeerLife PeerRep PeerDelete PeerErase PeerInv.

Implicit Types (s : pdev_t) (held : list positive).

(** * Lookups *)

(** Whether a peer passes the test of [ol_txrx_peer_find_hash_find]. *)
Definition has_addr (mac : mac_addr) (check_valid : bool) (x : ol_txrx_peer_t) : bool :=
  negb (ol_txrx_peer_find_mac_addr_cmp mac (peer_mac x)) && (negb check_valid || valid x).

Lemma mac_addr_cmp_spec a b : ol_txrx_peer_find_mac_addr_cmp a b = bool_decide (a ≠ b).
Proof.
  unfold ol_txrx_peer_find_mac_addr_cmp. destruct a as [a0 a1 a2 a3 a4 a5], b as [b0 b1 b2 b3 b4 b5]. cbn.
  rewrite <- bool_decide_and, <- bool_decide_not. apply bool_decide_ext.
  split; intros Hn He; apply Hn; [by simplify_eq|by destruct He; simplify_eq].
Qed.

(** The outcome of a lookup: the peer found passes the test; when none is found,
    no peer with that address passes it. *)
Definition found (s : pdev_t) (mac : mac_addr) (test : ol_txrx_peer_t → bool) (o : option positive) : Prop :=
  match o with
  | Some p => ∃ x, peers s !! p = Some x ∧ test x = true
  | None => ∀ p x, peers s !! p = Some x → peer_mac x = mac → test x = false
  end.

Lemma lookup_run s mac test : lists_ok s →
  ∃ o, hash_lookup mac test s = Some (o, take_ref o s) ∧ found s mac test o.
Proof.
  intros [Hl _]. destruct (hash_lookup_run s mac test Hl) as (o & Hrun & Ho). exists o. split; [done|].
  destruct o as [p|]; [done|]. intros p x Hx <-. by eapply Ho.
Qed.

Lemma found_live s mac test o p : found s mac test o → o = Some p → is_Some (peers s !! p).
Proof. intros Hf ->. destruct Hf as (x & Hx & _). by exists x. Qed.

Lemma lookup_ok on og s held mac test : registry_but on og s held →
  safely (hash_lookup mac test) s (λ o s', s' = take_ref o s ∧ found s mac test o ∧
    registry_but on og s' (option_list o ++ held)).
Proof.
  intros Hg. destruct (lookup_run s mac test (rg_lists _ _ _ _ Hg)) as (o & Hrun & Ho).
  eapply safely_run; [done|]. split_and!; [done|done|]. apply registry_take; [|done].
  intros p. by apply (found_live s mac test).
Qed.

(** A reference taken and given back leaves no trace. *)
Lemma dec_inc_ref s p : upd_peer p dec_ref (upd_peer p inc_ref s) = s.
Proof.
  rewrite upd_peer_compose. apply upd_peer_id. intros x _. destruct x. unfold compose, dec_ref, inc_ref, set_ref_cnt.
  cbn. f_equal. lia.
Qed.

Lemma take_ref_lookup s p x : peers s !! p = Some x → peers (take_ref (Some p) s) !! p = Some (inc_ref x).
Proof. intros H. by apply (upd_peer_lookup s p inc_ref). Qed.

Lemma borrow_run s o : (∀ p, o = Some p → is_Some (peers s !! p)) →
  borrow o (take_ref o s) = Some (p ← o; x ← peers s !! p; Some (p, u8 (local_id x)), s).
Proof.
  intros Ho. destruct o as [p|]; [|done]. destruct (Ho p eq_refl) as [x Hx]. cbn [borrow mbind option_bind].
  pose proof (take_ref_lookup _ _ _ Hx) as Hx'. mrun (peer_get_run _ _ _ Hx'). unfold peer_unref.
  mrun (peer_mod_run _ _ _ dec_ref Hx'). rewrite Hx. cbn [take_ref]. by rewrite dec_inc_ref.
Qed.

(** [ol_txrx_find_peer_by_addr] and its variant for one virtual device *)
Lemma find_peer_by_addr_run s mac test : lists_ok s →
  ∃ o, (o ← hash_lookup mac test; borrow o) s = Some (p ← o; x ← peers s !! p; Some (p, u8 (local_id x)), s) ∧
    found s mac test o.
Proof.
  intros Hl. destruct (lookup_run s mac test Hl) as (o & Hrun & Ho). exists o. split; [|done].
  mrun Hrun. apply borrow_run. intros p. by apply (found_live s mac test).
Qed.

(** [ol_txrx_peer_find_by_addr] drops its reference again, which deletes nothing. *)
Lemma find_by_addr_run s held mac : registry_ok s held →
  ∃ o, ol_txrx_peer_find_by_addr mac s = Some (o, s) ∧ found s mac (has_addr mac false) o.
Proof.
  intros Hg. destruct (lookup_run s mac (has_addr mac false) (rg_lists _ _ _ _ Hg)) as (o & Hrun & Ho).
  exists o. split; [|done]. unfold ol_txrx_peer_find_by_addr, ol_txrx_peer_find_hash_find.
  fold (has_addr mac false). mrun Hrun. destruct o as [p|]; [|done].
  destruct Ho as (x & Hx & _). pose proof (rc_count _ _ (rg_refs _ _ _ _ Hg) _ _ Hx) as [_ ?].
  assert (ol_txrx_peer_unref_delete p (take_ref (Some p) s) = Some (tt, s)) as Hun.
  { rewrite (unref_delete_more _ p (inc_ref x)); [cbn [take_ref]; by rewrite dec_inc_ref|by apply take_ref_lookup|cbn; lia..]. }
  by mrun Hun.
Qed.

(** * The state of a peer *)

Definition filter_of (st : ol_txrx_peer_state) : ol_tx_filter :=
  match st with
  | ol_txrx_peer_state_auth => ol_tx_filter_pass_thru
  | ol_txrx_peer_state_conn => ol_tx_filter_non_auth
  | _ => ol_tx_filter_discard
  end.

Definition with_state (st : ol_txrx_peer_state) (x : ol_txrx_peer_t) : ol_txrx_peer_t :=
  set_state st (set_tx_filter (Some (filter_of st)) x).

Lemma with_state_quiet st : quiet (with_state st).
Proof. by intros x. Qed.

(** The first attached peer with the address gets the state, and the transmit
    filter that goes with it; no reference is lost or kept. *)
Lemma state_update_run s mac st : lists_ok s →
  ∃ o, found s mac (has_addr mac true) o ∧
    ol_txrx_peer_state_update mac st s = Some
      match o with
      | None => (CDF_STATUS_E_INVAL, s)
      | Some p => (CDF_STATUS_SUCCESS, upd_peer p (λ x, if bool_decide (state x = st) then x else with_state st x) s)
      end.
Proof.
  intros Hl. destruct (lookup_run s mac (has_addr mac true) Hl) as (o & Hrun & Ho). exists o. split; [done|].
  unfold ol_txrx_peer_state_update, ol_txrx_peer_find_hash_find. fold (has_addr mac true). mrun Hrun.
  destruct o as [p|]; [|done]. destruct Ho as (x & Hx & _). pose proof (take_ref_lookup _ _ _ Hx) as Hx'.
  mrun (peer_get_run _ _ _ Hx'). change (state (inc_ref x)) with (state x).
  assert (∀ f, (∀ x', peers s !! p = Some x' → (if bool_decide (state x' = st) then x' else with_state st x') = f x') →
    upd_peer p (λ x, if bool_decide (state x = st) then x else with_state st x) s = upd_peer p f s) as Hext.
  { intros f Hf. by apply upd_peer_ext. }
  unfold peer_unref. fold dec_ref. case_bool_decide as Hst.
  - mrun (peer_mod_run _ _ _ dec_ref Hx'). rewrite (Hext (λ x, x)).
    + cbn [take_ref]. rewrite dec_inc_ref. by rewrite upd_peer_id.
    + intros x'. rewrite Hx. intros [= <-]. by rewrite bool_decide_true.
  - match goal with |- context [mod_peer p (set_tx_filter ?t)] =>
      replace t with (Some (filter_of st)) by (destruct st; done) end.
    mrun (peer_mod_run _ _ _ (set_tx_filter (Some (filter_of st))) Hx').
    pose proof (upd_peer_lookup _ _ (set_tx_filter (Some (filter_of st))) _ Hx') as Hx2.
    mrun (peer_mod_run _ _ _ dec_ref Hx2). pose proof (upd_peer_lookup _ _ dec_ref _ Hx2) as Hx3.
    mrun (peer_mod_run _ _ _ (set_state st) Hx3). cbn [take_ref]. rewrite !upd_peer_compose.
    rewrite (Hext (set_state st ∘ (dec_ref ∘ (set_tx_filter (Some (filter_of st)) ∘ inc_ref)))); [done|].
    intros x'. rewrite Hx. intros [= <-]. rewrite bool_decide_false by done. destruct x.
    unfold compose, dec_ref, inc_ref, set_ref_cnt, with_state, set_state, set_tx_filter. cbn. f_equal. lia.
Qed.

Lemma state_update_ok on og s held mac st : registry_but on og s held →
  safely (ol_txrx_peer_state_update mac st) s (λ _ s', registry_but on og s' held ∧
    ∃ p f, quiet f ∧ s' = upd_peer p f s).
Proof.
  intros Hg. destruct (state_update_run s mac st (rg_lists _ _ _ _ Hg)) as (o & _ & Hrun).
  assert (quiet (λ x, if bool_decide (state x = st) then x else with_state st x)) as Hq.
  { intros x. case_bool_decide; [by split_and!|apply with_state_quiet]. }
  destruct o as [p|].
  - eapply safely_run; [done|]. split; [by apply registry_quiet|]. by eexists _, _.
  - eapply safely_run; [done|]. split; [done|]. exists 1%positive, id. split; [by intros x|]. by rewrite upd_peer_id.
Qed.
