(* ===== verification/PeerMap.v ===== *)
(** The registry of peers: the target's messages, which map identifiers to peers
    and unmap them. *)
From S2P Require Import Prelude Tailq PeerTypes PeerFind PeerLife PeerRep PeerDelete PeerErase PeerInv PeerOps.

Implicit Types (s : pdev_t) (held : list positive).

(** The entry of the map for an identifier *)
Definition id_entry (s : pdev_t) (peer_id : Z) : option (option positive) :=
  peer_id_to_obj_map s !! Z.to_nat peer_id.

Definition upd_map (peer_id : Z) (o : option positive) (s : pdev_t) : pdev_t :=
  set_peer_id_to_obj_map (<[Z.to_nat peer_id := o]> (peer_id_to_obj_map s)) s.

Lemma read_id_map_run s peer_id o : id_entry s peer_id = Some o → read_id_map peer_id s = Some (o, s).
Proof. intros H. unfold read_id_map. mstep. unfold id_entry in H. by rewrite H. Qed.

Lemma write_id_map_run s peer_id o o' : id_entry s peer_id = Some o →
  write_id_map peer_id o' s = Some (tt, upd_map peer_id o' s).
Proof. intros H. unfold write_id_map. by mrun (read_id_map_run _ _ _ H). Qed.

Lemma lists_upd_map s id o : lists_ok s → lists_ok (upd_map id o s).
Proof. intros [Hl Hp]. split; [|done]. eapply lists_same; [|exact Hl]. by split_and!. Qed.

Lemma ids_upd_map on og s id o : ids_but on og s → ids_but on og (upd_map id o s).
Proof. by intros []. Qed.

Section entries.
Context (s : pdev_t) (held : list positive) (peer_id : Z) (p : positive) (x : ol_txrx_peer_t).
Context (Hr : refs_ok s held).

(** An entry that is removed leaves its reference behind. *)
Lemma refs_unmap : id_entry s peer_id = Some (Some p) → refs_ok (upd_map peer_id None s) (p :: held).
Proof using Hr.
  intros He. destruct Hr as [Hc Hm Hh Hi Hf].
  assert (∀ q, Some q ∈ peer_id_to_obj_map (upd_map peer_id None s) → Some q ∈ peer_id_to_obj_map s) as Hsub.
  { intros q [k Hk]%list_elem_of_lookup. apply list_lookup_insert_Some in Hk as [(_ & ? & _)|[_ Hk]]; [done|].
    by apply list_elem_of_lookup_2 in Hk. }
  assert (Some p ∈ peer_id_to_obj_map s) as Hp by by apply list_elem_of_lookup_2 in He.
  split; [| | |done|].
  - intros q xq Hq. destruct (Hc q xq Hq) as [-> ?]. split; [|done]. unfold refs_of. cbn [upd_map peer_id_to_obj_map set_peer_id_to_obj_map].
    rewrite (occ_insert _ _ _ _ None He), (decide_False (P := Some q = None)) by done. cbn. destruct (decide (q = p)) as [->|Hne].
    + rewrite !decide_True by done. lia.
    + rewrite !decide_False by congruence. lia.
  - intros q Hq. by apply Hm, Hsub.
  - intros q [->|Hq]%elem_of_cons; [by apply Hm|by apply Hh].
  - intros q xq Hq Hfr Hin. by eapply Hf, Hsub.
Qed.

(** A new entry takes the reference that was kept for it, or one of its own. *)
Lemma refs_map f : id_entry s peer_id = Some None → peers s !! p = Some x → valid (f x) = valid x →
  fresh (f x) = false → peer_ids (f x) ≠ [] → ref_cnt (f x) = ref_cnt x + (1 - Z.b2z (fresh x)) →
  refs_ok (upd_map peer_id (Some p) (upd_peer p f s)) held.
Proof using Hr.
  intros He Hx Hv Hfr Hids Hc'. destruct Hr as [Hc Hm Hh Hi Hf].
  assert (∀ q, Some q ∈ peer_id_to_obj_map (upd_map peer_id (Some p) (upd_peer p f s)) → q = p ∨ Some q ∈ peer_id_to_obj_map s) as Hsub.
  { intros q [k Hk]%list_elem_of_lookup. apply list_lookup_insert_Some in Hk as [(_ & ? & _)|[_ Hk]]; [left; congruence|right].
    by apply list_elem_of_lookup_2 in Hk. }
  split.
  - intros q xq (x2 & Hx2 & ->)%upd_peer_inv. destruct (Hc _ _ Hx2) as [Hr2 ?]. unfold refs_of in *.
    cbn [upd_map upd_peer set_peers peer_id_to_obj_map set_peer_id_to_obj_map].
    rewrite (occ_insert _ _ _ _ (Some p) He). rewrite (decide_False (P := Some q = None)) by done.
    destruct (decide (p = q)) as [<-|Hne].
    + simplify_eq. rewrite decide_True by done. rewrite Hv, Hfr, Hc'. destruct (fresh x); cbn in *; lia.
    + rewrite decide_False by congruence. split; [lia|done].
  - intros q [->|Hq]%Hsub; apply upd_peer_live; [by exists x|by apply Hm].
  - intros q Hq. by apply upd_peer_live, Hh.
  - intros q xq (x2 & Hx2 & ->)%upd_peer_inv. destruct (decide (p = q)) as [<-|Hne]; [|by eapply Hi]. by simplify_eq.
  - intros q xq (x2 & Hx2 & ->)%upd_peer_inv. destruct (decide (p = q)) as [<-|Hne]; [simplify_eq; congruence|].
    intros Hfq [->|Hin]%Hsub; [done|]. by eapply Hf.
Qed.
End entries.

(** * The identifiers of a peer *)

(** What the loop over the slots of a peer makes of them. *)
Definition ids_with (peer_id : Z) (ids : list Z) : list Z := default ids (add_id_loop ids peer_id).

Lemma ids_with_head peer_id ids : ids ≠ [] →
  head (ids_with peer_id ids) =
    if bool_decide (head ids = Some HTT_INVALID_PEER) then Some peer_id else head ids.
Proof.
  unfold ids_with. destruct ids as [|i ids]; [done|]. intros _. cbn. destruct (Z.eqb_spec i HTT_INVALID_PEER) as [->|Hne].
  - by rewrite bool_decide_true.
  - rewrite bool_decide_false by congruence. by destruct (add_id_loop ids peer_id).
Qed.

Lemma add_id_run s p x peer_id : peers s !! p = Some x →
  ∃ r, ol_txrx_peer_find_add_id_to_obj p peer_id s =
    Some (r, upd_peer p (λ x, set_peer_ids (ids_with peer_id (peer_ids x)) x) s).
Proof.
  intros Hx. unfold ol_txrx_peer_find_add_id_to_obj. mrun (peer_get_run _ _ _ Hx).
  destruct (add_id_loop (peer_ids x) peer_id) as [ids|] eqn:E.
  - exists 0. mrun (peer_mod_run _ _ _ (set_peer_ids ids) Hx). unfold mret, CM_ret. do 2 f_equal.
    apply upd_peer_ext. intros x'. rewrite Hx. intros [= <-]. unfold ids_with. by rewrite E.
  - exists 1. unfold mret, CM_ret. rewrite upd_peer_id; [done|]. intros x'. rewrite Hx. intros [= <-].
    unfold ids_with. rewrite E. by destruct x.
Qed.

(** * The messages *)

(** The peer after a message maps [peer_id] to it *)
Definition mapped (peer_id : Z) (x : ol_txrx_peer_t) : ol_txrx_peer_t :=
  set_peer_ids (ids_with peer_id (peer_ids x)) (if fresh x then x else inc_ref x).

(** The identifier of a virtual device is ignored; otherwise the entry names the
    first peer found, and the reference kept since the peer's attachment, or a
    new one, is the entry's. *)
Lemma map_run s held peer_id mac : registry_ok s held → id_entry s peer_id = Some None →
  ∃ o, found s mac (has_addr mac false) o ∧ ol_rx_peer_map_handler peer_id mac s = Some (tt,
    match o with
    | Some p => upd_map peer_id (Some p) (upd_peer p (mapped peer_id) s)
    | None => s
    end).
Proof.
  intros Hg He. destruct (lookup_run s mac (has_addr mac false) (rg_lists _ _ _ _ Hg)) as (o & Hrun & Ho).
  exists o. split; [done|]. unfold ol_rx_peer_map_handler, ol_txrx_peer_find_add_id, ol_txrx_peer_find_hash_find.
  fold (has_addr mac false). mrun Hrun. destruct o as [p|]; [|done]. destruct Ho as (x & Hx & _).
  set (s1 := take_ref (Some p) s). assert (id_entry s1 peer_id = Some None) as He1 by done.
  mrun (write_id_map_run _ _ _ (Some p) He1).
  pose proof (take_ref_lookup _ _ _ Hx : peers (upd_map peer_id (Some p) s1) !! p = _) as Hx1.
  mrun (peer_get_run _ _ _ Hx1). cbn [inc_ref set_ref_cnt peer_ids].
  pose proof (rc_ids _ _ (rg_refs _ _ _ _ Hg) _ _ Hx) as Hids.
  pose proof (rc_count _ _ (rg_refs _ _ _ _ Hg) _ _ Hx) as [_ Hpos].
  destruct (peer_ids x) as [|i ids] eqn:Ei; [done|]. cbn [head]. mstep.
  assert (fresh x = (i =? HTT_INVALID_PEER)) as Hfr.
  { unfold fresh. rewrite Ei. cbn. destruct (Z.eqb_spec i HTT_INVALID_PEER) as [->|]; [by apply bool_decide_true|].
    apply bool_decide_false. congruence. }
  assert (∃ s2, when (i =? HTT_INVALID_PEER) (ol_txrx_peer_unref_delete p) (upd_map peer_id (Some p) s1) = Some (tt, s2) ∧
    s2 = upd_map peer_id (Some p) (upd_peer p (λ x, if fresh x then x else inc_ref x) s)) as (s2 & Hrun2 & Hs2).
  { rewrite <- Hfr. destruct (fresh x) eqn:Ef.
    - eexists. split; [eapply (unref_delete_more _ _ (inc_ref x)); [done|cbn; lia..]|].
      change (upd_peer p dec_ref (upd_map peer_id (Some p) s1)) with (upd_map peer_id (Some p) (upd_peer p dec_ref (upd_peer p inc_ref s))).
      rewrite dec_inc_ref. f_equal. symmetry. apply upd_peer_id. intros x'. rewrite Hx. intros [= <-]. by rewrite Ef.
    - eexists. split; [done|]. unfold s1. cbn [take_ref]. f_equal. apply upd_peer_ext. intros x'. rewrite Hx.
      intros [= <-]. by rewrite Ef. }
  mrun Hrun2. rewrite Hs2. clear Hrun2 Hs2 s2.
  destruct (add_id_run (upd_map peer_id (Some p) (upd_peer p (λ x, if fresh x then x else inc_ref x) s)) p
    (if fresh x then x else inc_ref x) peer_id) as (r & Hrun3).
  { by apply (upd_peer_lookup s p (λ x, if fresh x then x else inc_ref x)). }
  mrun Hrun3. unfold mret, CM_ret. do 2 f_equal.
  match goal with |- upd_peer p ?g (upd_map ?i ?o (upd_peer p ?f s)) = _ =>
    change (upd_peer p g (upd_map i o (upd_peer p f s))) with (upd_map i o (upd_peer p g (upd_peer p f s))) end.
  rewrite upd_peer_compose. f_equal. apply upd_peer_ext. intros x' _. unfold compose, mapped.
  by destruct (fresh x').
Qed.

Lemma mapped_place peer_id : keeps_place (mapped peer_id).
Proof. intros x. unfold mapped. by destruct (fresh x). Qed.

Lemma mapped_ids peer_id x : valid (mapped peer_id x) = valid x ∧ local_id (mapped peer_id x) = local_id x.
Proof. unfold mapped. by destruct (fresh x). Qed.

Lemma fresh_mapped peer_id x : peer_id ≠ HTT_INVALID_PEER → peer_ids x ≠ [] →
  fresh (mapped peer_id x) = false ∧ peer_ids (mapped peer_id x) ≠ [].
Proof.
  intros Hid Hne. pose proof (ids_with_head peer_id (peer_ids x) Hne) as Hh.
  unfold fresh, mapped. cbn [set_peer_ids peer_ids]. rewrite Hh. split.
  - apply bool_decide_false. case_bool_decide; congruence.
  - intros He. rewrite He in Hh. case_bool_decide; [done|]. by destruct (peer_ids x).
Qed.

Lemma map_ok s held peer_id mac : registry_ok s held → id_entry s peer_id = Some None →
  peer_id ≠ HTT_INVALID_PEER →
  safely (ol_rx_peer_map_handler peer_id mac) s (λ _ s', registry_ok s' held).
Proof.
  intros Hg He Hid. destruct (map_run s held peer_id mac Hg He) as (o & Ho & Hrun).
  eapply safely_run; [done|]. destruct o as [p|]; [|done]. destruct Ho as (x & Hx & _).
  destruct Hg as [Hl Hr Hi Hla]. split.
  - apply lists_upd_map, lists_ok_upd_peer; [apply mapped_place|done].
  - destruct (fresh_mapped peer_id x Hid (rc_ids _ _ Hr _ _ Hx)).
    eapply (refs_map s held peer_id p x Hr); try done.
    + by destruct (mapped_ids peer_id x).
    + unfold mapped. destruct (fresh x); cbn; lia.
  - apply ids_upd_map, ids_upd_peer; [apply mapped_ids|done].
  - eapply last_upd_peer; [|done]. intros x'. destruct (mapped_ids peer_id x') as [-> _]. split; [done|]. apply mapped_place.
Qed.

(** The entry goes, and with it its reference: the peer is deleted if that was
    the last one. *)
Lemma unmap_ok s held peer_id o : registry_ok s held → peer_id ≠ HTT_INVALID_PEER →
  id_entry s peer_id = Some o →
  safely (ol_rx_peer_unmap_handler peer_id) s (λ _ s', registry_ok s' held ∧ id_entry s' peer_id = Some None ∧
    match o with
    | Some p => ∃ x, peers s !! p = Some x ∧
        (if decide (ref_cnt x = 1) then deleted (upd_map peer_id None s) p s'
         else s' = upd_map peer_id None (upd_peer p dec_ref s))
    | None => s' = s
    end).
Proof.
  intros Hg Hid He. unfold ol_rx_peer_unmap_handler. rewrite (proj2 (Z.eqb_neq _ _) Hid).
  eapply safely_step; [by apply read_id_map_run|]. eapply safely_step; [by eapply write_id_map_run|]. cbv beta.
  assert (id_entry (upd_map peer_id None s) peer_id = Some None) as He'.
  { unfold id_entry, upd_map. cbn. rewrite list_lookup_insert_eq; [done|]. by eapply lookup_lt_Some. }
  destruct o as [p|].
  - destruct Hg as [Hl Hr Hi Hla]. destruct (rc_map _ _ Hr p) as [x Hx]; [by apply list_elem_of_lookup_2 in He|].
    eapply safely_mono; [apply (unref_delete_ok _ held p x); [done|]|].
    { split; [by apply lists_upd_map|by apply refs_unmap|by apply ids_upd_map|done]. }
    cbv beta. intros _ s' [Hg' Hd]. split; [done|]. destruct (decide (ref_cnt x = 1)) as [H1|H1].
    + split; [|exists x; by rewrite decide_True]. unfold id_entry. by destruct (dd_rest _ _ _ Hd) as (-> & _).
    + subst s'. split; [done|]. exists x. by rewrite decide_False.
  - assert (upd_map peer_id None s = s) as ->; [|by eapply safely_run].
    unfold upd_map. rewrite list_insert_id by done. by destruct s.
Qed.
