(* ===== verification/PeerLocal.v ===== *)
(** The registry of peers: local identifiers, and the attachment and detachment
    of virtual devices. *)
From S2P Require Import Prelude Tailq PeerTypes PeerFind PeerLife PeerRep PeerDelete PeerErase PeerInv PeerOps.

Implicit Types (s : pdev_t) (held : list positive).

(** * The pool of local identifiers *)

Definition upd_ids (pool : list Z) (free : Z) (m : list (option positive)) (s : pdev_t) : pdev_t :=
  set_ids_map m (set_ids_freelist free (set_ids_pool pool s)).

(** The other parts of the invariant do not depend on the pool. *)
Lemma upd_ids_lists s pool free m : lists_ok s → lists_ok (upd_ids pool free m s).
Proof. intros [Hl Hp]. split; [|done]. eapply lists_same; [|exact Hl]. by split_and!. Qed.

Lemma upd_ids_refs s held pool free m : refs_ok s held → refs_ok (upd_ids pool free m s) held.
Proof. by intros []. Qed.

Section pool.
Context (s : pdev_t) (p : positive) (x : ol_txrx_peer_t) (Hx : peers s !! p = Some x).

(** The peer and the pool after an allocation: the head of the free list, or an
    invalid identifier when there is none. *)
Definition allocated : pdev_t :=
  if decide (ids_freelist s = 33) then upd_peer p (set_local_id OL_TXRX_INVALID_LOCAL_PEER_ID) s
  else upd_ids (ids_pool s) (default 33 (ids_pool s !! Z.to_nat (ids_freelist s)))
    (<[Z.to_nat (ids_freelist s) := Some p]> (ids_map s)) (upd_peer p (set_local_id (ids_freelist s)) s).

Lemma alloc_run on og : ids_but on og s → ol_txrx_local_peer_id_alloc p s = Some (tt, allocated).
Proof using Hx.
  intros [[Hlen Hend] Hml (fl & Hch & Hnd & Hfl) _ _]. unfold ol_txrx_local_peer_id_alloc, pool_at, allocated.
  mstep. destruct fl as [|i fl].
  - cbn in Hch. rewrite Hch. rewrite decide_True by done. rewrite (run_deref _ _ _ _ Hend). rewrite Z.eqb_refl.
    by rewrite (peer_mod_run _ _ _ _ Hx).
  - destruct Hch as (Hi & n & Hn & Hch). rewrite Hi. destruct (proj1 (Hfl i)) as [Hi0 Him]; [by left|].
    pose proof (lookup_lt_Some _ _ _ Him). rewrite decide_False by lia.
    rewrite (run_deref _ _ _ _ Hn). apply NoDup_cons in Hnd as [Hnin Hnd].
    assert (n ≠ i) as Hne by (destruct fl; cbn in Hch; [lia|destruct Hch as [-> _]; set_solver]).
    rewrite (proj2 (Z.eqb_neq n i) Hne). mrun (peer_mod_run _ _ _ (set_local_id i) Hx). mstep.
    unfold write_ids_map. mstep. cbn [ids_map set_ids_freelist upd_peer set_peers].
    rewrite Hn. done.
Qed.

(** The peer that had no identifier has one, or the invalid one. *)
Lemma ids_alloc : valid x = true → ids_but (Some p) None s → ids_but None None allocated.
Proof using Hx.
  intros Hval [[Hlen Hend] Hml (fl & Hch & Hnd & Hfl) Hm Hpeer]. unfold allocated. destruct fl as [|i fl].
  - cbn in Hch. rewrite decide_True by done. split; [done|done|by exists []| |].
    + intros k q Hk. destruct (Hm k q Hk) as (Hn & xq & Hq & Hv). split; [done|]. exists xq.
      cbn. rewrite lookup_alter_ne by congruence. done.
    + intros q xq' (xq & Hq & ->)%upd_peer_inv Hv _. destruct (decide (p = q)) as [<-|Hne]; [by left|].
      apply Hpeer; [done|done|congruence].
  - destruct Hch as (Hi & n & Hn & Hch). rewrite Hi, Hn. cbn [default id]. destruct (proj1 (Hfl i)) as [Hi0 Him]; [by left|].
    pose proof (lookup_lt_Some _ _ _ Him) as Hlt. rewrite decide_False by lia. apply NoDup_cons in Hnd as [Hnin Hnd].
    split; cbn [upd_ids ids_pool ids_map ids_freelist set_ids_map set_ids_pool set_ids_freelist]; [done|by rewrite length_insert| | |].
    + exists fl. split_and!; [done|done|]. intros j. destruct (decide (j = i)) as [->|Hne].
      * rewrite list_lookup_insert_eq by done. split; [done|]. by intros [_ ?].
      * assert (j ∈ fl ↔ j ∈ i :: fl) as -> by set_solver. rewrite Hfl.
        split; intros [Hj Hjm]; (split; [done|]); (rewrite list_lookup_insert_ne in * by lia); done.
    + intros k q [(<- & [= <-] & _)|[Hne Hk]]%list_lookup_insert_Some.
      * split; [done|]. eexists. split; [apply (upd_peer_lookup _ _ _ _ Hx)|].
        cbn. rewrite Z2Nat.id by done. by auto.
      * destruct (Hm k q Hk) as (Hn2 & xq & Hq & Hv). split; [done|]. exists xq.
        cbn. rewrite lookup_alter_ne by congruence. done.
    + intros q xq' (xq & Hq & ->)%upd_peer_inv Hv _. destruct (decide (p = q)) as [<-|Hne].
      * right. cbn. rewrite list_lookup_insert_eq by done. split; [lia|done].
      * destruct (Hpeer q xq Hq Hv) as [Hinv|[Hlo Hmq]]; [congruence|by left|right]. split; [done|].
        rewrite list_lookup_insert_ne; [done|]. intros Heq. rewrite <- Heq in Hmq. congruence.
Qed.

(** The identifier of a peer that is being detached *)
Definition owned : Prop :=
  local_id x = OL_TXRX_INVALID_LOCAL_PEER_ID ∨
  0 ≤ local_id x < 33 ∧ ids_map s !! Z.to_nat (local_id x) = Some (Some p).

(** The pool after it is given back, which is done by whoever still had one *)
Definition released : pdev_t :=
  if decide (local_id x = OL_TXRX_INVALID_LOCAL_PEER_ID) then s
  else upd_ids (<[Z.to_nat (local_id x) := ids_freelist s]> (ids_pool s)) (local_id x)
    (<[Z.to_nat (local_id x) := None]> (ids_map s)) s.

Lemma free_run og : ids_but None og s → owned → ol_txrx_local_peer_id_free p s = Some (tt, released).
Proof using Hx.
  intros Hi Ho. unfold ol_txrx_local_peer_id_free, released, pool_at. mrun (peer_get_run _ _ _ Hx).
  destruct Ho as [->|[Hlo Hm]]; [by rewrite decide_True|].
  rewrite decide_False by (unfold OL_TXRX_INVALID_LOCAL_PEER_ID; lia).
  destruct (Z.eqb_spec (local_id x) OL_TXRX_INVALID_LOCAL_PEER_ID) as [He|_];
    [unfold OL_TXRX_INVALID_LOCAL_PEER_ID in He; lia|].
  unfold OL_TXRX_NUM_LOCAL_PEER_IDS. rewrite Z.geb_leb, (proj2 (Z.leb_gt 33 (local_id x))) by lia. cbn [orb].
  destruct (lookup_lt_is_Some_2 (ids_pool s) (Z.to_nat (local_id x))) as [n Hn].
  { destruct (ib_pool _ _ _ Hi) as [-> _]. lia. }
  mstep. rewrite (wrap_small 8 (local_id x)) by lia. unfold write_ids_map. mstep. done.
Qed.

Lemma ids_release : ids_but None (Some p) s → owned → valid x = false → ids_but None None released.
Proof using Hx.
  intros [[Hlen Hend] Hml (fl & Hch & Hnd & Hfl) Hm Hpeer] Ho Hval. unfold released.
  assert (∀ k q, ids_map s !! k = Some (Some q) → q = p → Z.of_nat k = local_id x) as Hown.
  { intros k q Hk ->. destruct (Hm _ _ Hk) as (_ & xq & Hq & <- & _). congruence. }
  destruct Ho as [He|[Hlo Hmx]].
  - rewrite decide_True by done. split; [done..|by exists fl| |].
    + intros k q Hk. destruct (Hm k q Hk) as (Hn & xq & Hq & Hl & Hv). split; [done|]. exists xq. split_and!; [done..|].
      destruct Hv as [|[= ->]]; [by left|]. pose proof (Hown _ _ Hk eq_refl) as Hkx. rewrite He in Hkx.
      apply lookup_lt_Some in Hk. unfold OL_TXRX_INVALID_LOCAL_PEER_ID in Hkx. lia.
    + intros q xq Hq Hv Hn. by apply Hpeer.
  - rewrite decide_False by (unfold OL_TXRX_INVALID_LOCAL_PEER_ID; lia).
    set (i := local_id x) in *. assert (i ∉ fl) as Hnin by (rewrite Hfl; intros [_ ?]; congruence).
    split; cbn [upd_ids ids_pool ids_map ids_freelist set_ids_map set_ids_pool set_ids_freelist].
    + rewrite length_insert, list_lookup_insert_ne by lia. done.
    + by rewrite length_insert.
    + exists (i :: fl). split_and!.
      * cbn. split; [done|]. exists (ids_freelist s). rewrite list_lookup_insert_eq by lia. split; [done|].
        apply chain_frame; [lia| |done|done]. apply Forall_forall. intros j Hj. by apply Hfl.
      * by constructor.
      * intros j. rewrite elem_of_cons, Hfl. destruct (decide (j = i)) as [->|Hne].
        { rewrite list_lookup_insert_eq by lia. split; [|by left]. intros _. split; [lia|done]. }
        split; [intros [?|[Hj Hjm]]; [done|]|intros [Hj Hjm]; right]; (split; [done|]);
          rewrite list_lookup_insert_ne in * by lia; done.
    + intros k q [(_ & ? & _)|[Hne Hk]]%list_lookup_insert_Some; [done|].
      destruct (Hm k q Hk) as (Hn & xq & Hq & Hl & Hv). split; [done|]. exists xq. split_and!; [done..|].
      destruct Hv as [|[= ->]]; [by left|]. pose proof (Hown _ _ Hk eq_refl). subst i. lia.
    + intros q xq Hq Hv Hn. destruct (Hpeer q xq Hq Hv Hn) as [?|[Hlq Hmq]]; [by left|right]. split; [done|].
      rewrite list_lookup_insert_ne; [done|]. intros He. rewrite <- He in Hmq.
      rewrite Hmx in Hmq. injection Hmq as <-. assert (x = xq) as <- by (cbn in Hq; congruence). congruence.
Qed.
End pool.

(** Changing the local identifier of a peer, and the pool with it *)
Lemma registry_ids on og s held p i pool free m : registry_but on og s held →
  ids_but None None (upd_ids pool free m (upd_peer p (set_local_id i) s)) → last_but None s →
  registry_ok (upd_ids pool free m (upd_peer p (set_local_id i) s)) held.
Proof.
  intros [Hl Hr Hi _] Hids Hla. split; [|apply upd_ids_refs|done|].
  - by apply upd_ids_lists, lists_ok_upd_peer.
  - destruct (peers s !! p) as [x|] eqn:Hx; [|by rewrite upd_peer_id by congruence].
    apply (refs_upd_peer s p _ held held x); try done. by apply (rc_count _ _ Hr p x).
  - by apply (last_upd_peer None s p (set_local_id i)).
Qed.

Lemma alloc_ok s held p x : registry_but (Some p) None s held → peers s !! p = Some x → valid x = true →
  safely (ol_txrx_local_peer_id_alloc p) s (λ _ s', registry_ok s' held ∧
    ∃ i, peers s' !! p = Some (set_local_id i x)).
Proof.
  intros Hg Hx Hv. pose proof (ids_alloc s p x Hx Hv (rg_ids _ _ _ _ Hg)) as Hi.
  eapply safely_run; [eapply alloc_run; [done|apply Hg]|]. unfold allocated in *.
  destruct (decide _).
  - split; [|by eexists; apply upd_peer_lookup].
    apply (registry_ids (Some p) None s held p _ (ids_pool s) (ids_freelist s) (ids_map s) Hg Hi (rg_last _ _ _ _ Hg)).
  - split; [|by eexists; apply (upd_peer_lookup s)]. by apply (registry_ids (Some p) None); [| |apply Hg].
Qed.

(** * Virtual devices *)

Definition attached_vdev (v : positive) (mac : mac_addr) (q : tailq positive) (s : pdev_t) : pdev_t :=
  set_vdev_list q (set_vdevs (<[v := new_vdev mac]> (vdevs s)) s).

Lemma vdev_attach_ok s held mac v : registry_ok s held → vdevs s !! v = None →
  safely (ol_txrx_vdev_attach mac (Some v)) s (λ r s', r = Some v ∧ registry_ok s' held ∧
    peers s' = peers s ∧ vdevs s' = <[v := new_vdev mac]> (vdevs s)).
Proof.
  intros [[Hl Hp] Hr Hi Hla] Hv. unfold ol_txrx_vdev_attach. eapply safely_step; [done|].
  destruct (lo_vdev_list _ _ _ Hl) as (l & Hrep & Hin). assert (v ∉ l) as Hnin by (rewrite Hin; naive_solver).
  destruct (join_tail_run _ _ _ Hrep Hnin) as (q & Hrun & Hrep').
  eapply safely_step; [unfold on_vdev_list, zoom; cbn [vdev_list set_vdevs]; by rewrite Hrun|].
  apply safely_ret. split; [done|]. split; [|done]. destruct Hl as [Hm Hlen Hb Hpl Ho _].
  assert (∀ p x, peers s !! p = Some x → peer_vdev x ≠ v) as Hno.
  { intros p x Hx <-. destruct (Ho p x Hx) as [y Hy]; [done|congruence]. }
  split; [split; [split|]; try done| | |].
  - intros v' y'. cbn. intros [(<- & <-)|(Hne & Hy)]%lookup_insert_Some; [|by apply Hpl].
    exists []. split; [repeat split; constructor|]. intros p. split; [by intros ?%elem_of_nil|].
    intros (_ & x & Hx & He). by destruct (Hno p x Hx).
  - intros p x Hx _. cbn. apply lookup_insert_is_Some'. right. by apply (Ho p x).
  - exists (l ++ [v]). split; [done|]. intros v'. rewrite elem_of_app, list_elem_of_singleton, Hin.
    setoid_rewrite lookup_insert_Some. destruct (decide (v' = v)) as [->|]; [|naive_solver].
    split; [|by right]. intros _. by exists (new_vdev mac); auto.
  - intros v' y'. cbn. intros [(<- & <-)|(Hne & Hy)]%lookup_insert_Some; [done|]. by apply Hp.
  - by destruct Hr.
  - by destruct Hi.
  - intros v' y' p. cbn. intros [(<- & <-)|(Hne & Hy)]%lookup_insert_Some; [done|]. by apply Hla.
Qed.

(** Whether a virtual device has peers *)
Definition has_peers (s : pdev_t) (v : positive) : Prop :=
  ∃ p x, peers s !! p = Some x ∧ peer_vdev x = v.

Lemma peer_list_empty s v y : lists_ok s → vdevs s !! v = Some y →
  (TAILQ_EMPTY (peer_list y) = true → ¬ has_peers s v) ∧ (TAILQ_EMPTY (peer_list y) = false → has_peers s v).
Proof.
  intros [Hl _] Hy. destruct (lo_peer_list _ _ _ Hl _ _ Hy) as (l & Hrep & Hin).
  rewrite (TAILQ_EMPTY_rep _ _ Hrep). split.
  - intros ->%bool_decide_eq_true (p & x & Hx & Hv). assert (p ∈ []) as []%not_elem_of_nil.
    apply Hin. split; [done|]. by exists x.
  - intros Hne%bool_decide_eq_false. destruct l as [|p l]; [done|].
    destruct (proj1 (Hin p)) as (_ & x & Hx & Hv); [by left|]. by exists p, x.
Qed.

(** Taking a virtual device off its list, to wait for its peers *)
Lemma lists_pend s v q l f : lists_but None None s → rep q l →
  (∀ v', v' ∈ l ↔ v' ≠ v ∧ ∃ y, vdevs s !! v' = Some y ∧ delete_pending y = false) →
  (∀ y, peer_list (f y) = peer_list y ∧ delete_pending (f y) = true) →
  lists_but None None (upd_vdev v f (set_vdev_list q s)).
Proof.
  intros [Hm Hlen Hb Hpl Ho _] Hrep Hin Hf. split; try done.
  - intros v' y' (y & Hy & ->)%upd_vdev_inv. destruct (decide (v = v')); [destruct (Hf y) as [-> _]|]; by apply Hpl.
  - intros p x Hx _. cbn. rewrite lookup_alter_is_Some. by apply (Ho p x).
  - exists l. split; [done|]. intros v'. rewrite Hin. split.
    + intros (Hne & y & Hy & Hd). exists y. cbn. by rewrite lookup_alter_ne.
    + intros (y' & (y & Hy & ->)%upd_vdev_inv & Hd). destruct (decide (v = v')) as [<-|Hne].
      * destruct (Hf y); congruence.
      * split; [done|]. by exists y.
Qed.

Lemma vdev_detach_ok s held v cb y : registry_ok s held → vdevs s !! v = Some y → delete_pending y = false →
  safely (ol_txrx_vdev_detach v cb) s (λ _ s', registry_ok s' held ∧ peers s' = peers s ∧
    (has_peers s v → vdevs s' = <[v := set_delete_callback cb (set_delete_pending true y)]> (vdevs s)) ∧
    (¬ has_peers s v → vdevs s' = delete v (vdevs s))).
Proof.
  intros Hg Hy Hd. pose proof Hg as [[Hl Hp] Hr Hi Hla]. unfold ol_txrx_vdev_detach.
  eapply safely_step; [by apply get_vdev_run|].
  destruct (lo_vdev_list _ _ _ Hl) as (l & Hrep & Hin).
  destruct (tailq_remove_run _ _ v Hrep) as (q & Hrun & Hrep'); [apply Hin; by exists y|].
  assert (∀ v', v' ∈ without v l ↔ v' ≠ v ∧ ∃ y, vdevs s !! v' = Some y ∧ delete_pending y = false) as Hin'.
  { intros v'. rewrite elem_of_without, Hin. naive_solver. }
  eapply safely_step; [unfold on_vdev_list, zoom; by rewrite Hrun|].
  set (s1 := set_vdev_list q s). assert (vdevs s1 !! v = Some y) as Hy1 by done.
  eapply safely_step; [by apply get_vdev_run|].
  destruct (peer_list_empty s v y (rg_lists _ _ _ _ Hg) Hy) as [He Hne].
  destruct (TAILQ_EMPTY (peer_list y)); cbn [negb].
  - specialize (He eq_refl). eapply safely_step; [by apply free_vdev_run|].
    assert (registry_ok (freed_vdev v s1) held) as Hg'.
    { split; [split| | |].
      - eapply lists_free_vdev; [done|done|done|]. intros p x Hx _ Hv. apply He. by exists p, x.
      - intros v' y'. cbn. intros [_ Hy']%lookup_delete_Some. by apply Hp.
      - by destruct Hr.
      - by destruct Hi.
      - intros v' y' p. cbn. intros [_ Hy']%lookup_delete_Some. by apply Hla. }
    apply safely_when; intros _; [eapply safely_run; [done|]|]; split_and!; try done. by apply registry_log.
  - specialize (Hne eq_refl). eapply safely_step; [by eapply mod_vdev_run|].
    eapply safely_run; [eapply mod_vdev_run; by apply upd_vdev_lookup|].
    assert (∀ f g, upd_vdev v g (upd_vdev v f s1) = upd_vdev v (g ∘ f) s1) as ->.
    { intros f g. unfold upd_vdev, set_vdevs. cbn. by rewrite alter_alter_eq. }
    split_and!; [|done| |done].
    + split; [split| | |].
      * by eapply lists_pend.
      * intros v' y' (y2 & Hy2 & ->)%upd_vdev_inv Hd'. destruct (decide (v = v')) as [<-|Hnv].
        { destruct Hne as (p & x & Hx & Hv). by exists p, x. }
        by eapply Hp.
      * by destruct Hr.
      * by destruct Hi.
      * intros v' y' p (y2 & Hy2 & ->)%upd_vdev_inv Hlast. apply (Hla v' y2); [done|]. by destruct (decide (v = v')).
    + intros _. cbn. by rewrite (alter_alt_Some _ _ _ y Hy).
Qed.
