(* ===== verification/PeerAttach.v ===== *)
(** The registry of peers: attaching a peer. *)
From S2P Require Import Prelude Tailq PeerTypes PeerFind PeerLife PeerRep PeerDelete PeerErase PeerInv PeerOps PeerLocal.

Implicit Types (s : pdev_t) (held : list positive).

(** * Linking the peer *)

Lemma holds_new ps q P p x : ps !! p = None → holds_peers ps None q P → holds_peers (<[p := x]> ps) (Some p) q P.
Proof.
  intros Hn (l & Hrep & Hin). exists l. split; [done|]. intros p'. rewrite Hin.
  setoid_rewrite lookup_insert_Some. naive_solver.
Qed.

Lemma lists_new s p x : lists_but None None s → peers s !! p = None →
  lists_but (Some p) (Some p) (set_peers (<[p := x]> (peers s)) s).
Proof.
  intros [Hm Hlen Hb Hpl Ho Hvl] Hn. split; try done.
  - intros i q Hq. apply holds_new; [done|by apply (Hb i q)].
  - intros v y Hy. apply holds_new; [done|by apply Hpl].
  - intros p' x'. cbn. intros [(<- & _)|(Hne & Hx')]%lookup_insert_Some Hp'; [done|]. by eapply Ho.
Qed.

(** Joining a queue that held all the others *)
Lemma holds_join ps q q' l p x (P : ol_txrx_peer_t → Prop) : rep q l → rep q' (l ++ [p]) →
  (∀ p', p' ∈ l ↔ Some p' ≠ Some p ∧ ∃ x, ps !! p' = Some x ∧ P x) → ps !! p = Some x → P x →
  holds_peers ps None q' P.
Proof.
  intros Hrep Hrep' Hin Hx HP. exists (l ++ [p]). split; [done|]. intros p'.
  rewrite elem_of_app, list_elem_of_singleton, Hin. destruct (decide (p' = p)) as [->|]; naive_solver.
Qed.

(** The peer that a queue does not miss is not in its class. *)
Lemma holds_other ps q p x (P : ol_txrx_peer_t → Prop) : ps !! p = Some x → ¬ P x →
  holds_peers ps (Some p) q P → holds_peers ps None q P.
Proof.
  intros Hx HP (l & Hrep & Hin). exists l. split; [done|]. intros p'. rewrite Hin. split; [naive_solver|].
  intros (_ & x' & Hx' & HP'). split; [|by exists x']. intros [= ->]. by simplify_eq.
Qed.

Lemma join_list s p x : lists_but (Some p) (Some p) s → peers s !! p = Some x → is_Some (vdevs s !! peer_vdev x) →
  safely (on_peer_list (peer_vdev x) (entry_new p;; TAILQ_INSERT_TAIL p)) s (λ _ s',
    ∃ q, s' = upd_vdev (peer_vdev x) (set_peer_list q) s ∧ lists_but (Some p) None s').
Proof.
  intros Hl Hx [y Hy]. destruct (lo_peer_list _ _ _ Hl _ _ Hy) as (l & Hrep & Hin).
  destruct (join_tail_run (peer_list y) l p Hrep) as (q & Hrun & Hrep'); [rewrite Hin; naive_solver|].
  eapply safely_run; [by eapply on_peer_list_run|]. exists q. split; [done|].
  apply (lists_vdev _ (Some p) None); [| | |done].
  - intros y' Hy'. split; [done|]. by apply (holds_join _ (peer_list y) q l p x).
  - intros v' y' Hy' Hne. apply (holds_other _ _ p x); [done|congruence|]. by apply (lo_peer_list _ _ _ Hl).
  - intros p' x' Hx' _. destruct (decide (p' = p)) as [->|Hne]; [simplify_eq; by exists y|].
    apply (lo_owner _ _ _ Hl p' x'); [done|congruence].
Qed.

Lemma join_bin s p x : lists_but (Some p) None s → peers s !! p = Some x →
  safely (ol_txrx_peer_find_hash_add p) s (λ _ s', ∃ q,
    s' = upd_bin (index_of s (peer_mac x)) q s ∧ lists_but None None s').
Proof.
  intros Hl Hx. unfold ol_txrx_peer_find_hash_add, hash_index. eapply safely_step; [by apply peer_get_run|].
  eapply safely_step; [done|]. fold (index_of s (peer_mac x)).
  destruct (bin_of _ _ s Hl (peer_mac x)) as (q & Hq).
  destruct (lo_bins _ _ _ Hl _ _ Hq) as (l & Hrep & Hin).
  destruct (join_tail_run q l p Hrep) as (q' & Hrun & Hrep'); [rewrite Hin; naive_solver|].
  eapply safely_run; [by eapply on_bin_run|]. exists q'. split; [done|].
  destruct Hl as [Hm Hlen Hb Hpl Ho Hvl]. split; try done.
  - by rewrite upd_bin_bins, length_insert.
  - intros i qi. rewrite upd_bin_bins.
    change (index_of (upd_bin _ _ s)) with (index_of s). change (peers (upd_bin _ _ s)) with (peers s).
    intros [(<- & <- & _)|[Hne Hqi]]%list_lookup_insert_Some; [by apply (holds_join _ q q' l p x)|].
    apply (holds_other _ _ p x); [done|congruence|]. by apply Hb.
Qed.

(** * The registry with a new peer *)

(** [s'] is [s] with the peer [p], attached to [v] as [x], which has no local
    identifier yet. *)
Record joined (s : pdev_t) (v p : positive) (x : ol_txrx_peer_t) (s' : pdev_t) : Prop := {
  jn_lists : lists_but None None s';
  jn_peers : peers s' = <[p := x]> (peers s);
  jn_rest : rest_same s s';
  jn_vdevs : ∀ v' y', vdevs s' !! v' = Some y' → ∃ y, vdevs s !! v' = Some y ∧
    delete_pending y' = delete_pending y ∧
    (last_real_peer y' = last_real_peer y ∨ v' = v ∧ last_real_peer y' = Some p);
}.

Lemma joined_registry s held v p x s' : registry_ok s held → peers s !! p = None → joined s v p x s' →
  peer_vdev x = v → valid x = true → fresh x = true → ref_cnt x = 2 → registry_but (Some p) None s' held.
Proof.
  intros [[Hl Hpend] [Hc Hm Hh Hid Hf] [Hpool Hlen Hfree Hmap Hpeer] Hla] Hn
    [Hl' Hp (Em & Epool & Efree & Eids & _) Hv] Hxv Hval Hfr Href.
  assert (∀ q, is_Some (peers s !! q) → is_Some (peers s' !! q)) as Hlive.
  { intros q Hq. rewrite Hp. by apply lookup_insert_is_Some'; right. }
  assert (∀ q xq, peers s !! q = Some xq → peers s' !! q = Some xq ∧ q ≠ p) as Hold.
  { intros q xq Hq. rewrite Hp. assert (q ≠ p) by congruence. by rewrite lookup_insert_ne. }
  split.
  - split; [done|]. intros v' y' Hy' Hd. destruct (Hv v' y' Hy') as (y & Hy & Hd' & _). rewrite Hd in Hd'.
    destruct (Hpend v' y Hy (eq_sym Hd')) as (q & xq & Hq & Hqv & _). exists q, xq.
    by destruct (Hold _ _ Hq) as [-> _].
  - split; unfold refs_of in *; rewrite ?Em; auto.
    + intros q xq. rewrite Hp. intros [(<- & <-)|(Hne & Hq)]%lookup_insert_Some; [|by apply Hc].
      assert (occ (Some p) (peer_id_to_obj_map s) = 0 ∧ occ p held = 0) as [-> ->].
      { rewrite !occ_zero. split; intros Hin; [apply Hm in Hin|apply Hh in Hin]; rewrite Hn in Hin; by destruct Hin. }
      rewrite Hval, Hfr, Href. done.
    + intros q xq. rewrite Hp. intros [(<- & <-)|(Hne & Hq)]%lookup_insert_Some; [|by eapply Hid].
      intros He. unfold fresh in Hfr. by rewrite He in Hfr.
    + intros q xq. rewrite Hp. intros [(<- & <-)|(Hne & Hq)]%lookup_insert_Some; [|by apply Hf].
      intros _ Hin. apply Hm in Hin. rewrite Hn in Hin. by destruct Hin.
  - split; rewrite ?Epool, ?Eids, ?Efree; try done.
    + intros k q Hk. destruct (Hmap k q Hk) as (_ & xq & Hq & Hrest). destruct (Hold _ _ Hq) as [? ?].
      split; [congruence|by exists xq].
    + intros q xq. rewrite Hp. intros [(<- & <-)|(Hne & Hq)]%lookup_insert_Some; [done|]. intros Hvq _. by apply Hpeer.
  - intros v' y' q Hy' Hlast. destruct (Hv v' y' Hy') as (y & Hy & _ & [He|[-> He]]); rewrite He in Hlast.
    + destruct (Hla v' y q Hy Hlast) as (xq & Hq & Hqv & Hvq). exists xq. by destruct (Hold _ _ Hq) as [-> _].
    + injection Hlast as <-. exists x. rewrite Hp, lookup_insert_eq. by auto.
Qed.

(** * [ol_txrx_peer_attach] *)

(** The peer once its references are taken *)
Definition attached_peer (v : positive) (mac : mac_addr) : ol_txrx_peer_t :=
  set_valid true (inc_ref (inc_ref (new_peer v mac))).

Lemma attach_link_ok s v p mac y : lists_but None None s → vdevs s !! v = Some y → peers s !! p = None →
  safely (ol_txrx_peer_attach_link v p mac) s (λ _ s', joined s v p (attached_peer v mac) s' ∧
    ∃ y', vdevs s' !! v = Some y' ∧ vdev_mac y' = vdev_mac y).
Proof.
  intros Hl Hy Hn. unfold ol_txrx_peer_attach_link. eapply safely_step; [done|]. cbv beta.
  set (s1 := set_peers _ s). set (x := new_peer v mac).
  assert (peers s1 !! p = Some x) as Hx by apply lookup_insert_eq.
  eapply safely_bind; [apply (join_list s1 p x); [by apply lists_new|done|by exists y]|].
  intros _ s2 (q & -> & Hl2). set (s2 := upd_vdev (peer_vdev x) (set_peer_list q) s1) in *.
  assert (vdevs s2 !! v = Some (set_peer_list q y)) as Hy2 by by apply upd_vdev_lookup.
  eapply safely_step; [by apply get_vdev_run|]. cbv beta.
  set (f := λ y : ol_txrx_vdev_t, if ol_txrx_peer_find_mac_addr_cmp (vdev_mac y) mac then set_last_real_peer (Some p) y else y).
  eapply (safely_step _ _ _ tt (upd_vdev v f s2)).
  { unfold f. destruct (ol_txrx_peer_find_mac_addr_cmp (vdev_mac (set_peer_list q y)) mac) eqn:Hc; cbn [when].
    - rewrite (mod_vdev_run _ _ _ _ Hy2). unfold upd_vdev. do 3 f_equal. apply alter_ext. intros y'.
      rewrite Hy2. intros [= <-]. by rewrite Hc.
    - unfold mret, CM_ret. unfold upd_vdev. rewrite alter_id; [by destruct s2|]. intros y'. rewrite Hy2.
      intros [= <-]. by rewrite Hc. }
  assert (lists_but (Some p) None (upd_vdev v f s2)) as Hl3.
  { apply lists_upd_vdev; [|done]. intros y'. unfold f. by destruct (ol_txrx_peer_find_mac_addr_cmp _ _). }
  set (s3 := upd_vdev v f s2) in *. unfold peer_ref. fold inc_ref.
  assert (peers s3 !! p = Some x) as Hx3 by done.
  eapply safely_step; [by eapply peer_mod_run|]. eapply safely_step; [by eapply peer_mod_run, upd_peer_lookup|].
  eapply safely_step; [by eapply peer_mod_run, upd_peer_lookup, upd_peer_lookup|].
  rewrite !upd_peer_compose. set (s4 := upd_peer p _ s3).
  assert (peers s4 !! p = Some (attached_peer v mac)) as Hx4 by exact (upd_peer_lookup s3 p (λ x, set_valid true (inc_ref (inc_ref x))) x Hx3).
  eapply safely_mono; [apply (join_bin s4 p); [by apply lists_upd_peer|done]|].
  intros _ s5 (q5 & -> & Hl5). split; [split|]; [done| |done| |].
  - cbn. rewrite alter_insert_eq. done.
  - intros v' y5 Hy5. destruct (upd_vdev_inv s2 v f v' y5 Hy5) as (y3 & Hy3 & ->).
    destruct (upd_vdev_inv s1 _ _ _ _ Hy3) as (y2 & Hy2' & ->). exists y2. split; [done|]. cbn [peer_vdev x new_peer].
    unfold f. destruct (decide (v = v')) as [<-|]; [|by auto].
    destruct (ol_txrx_peer_find_mac_addr_cmp _ _); by auto.
  - eexists. split; [by apply upd_vdev_lookup|]. unfold f. by destruct (ol_txrx_peer_find_mac_addr_cmp _ _).
Qed.

(** The new peer is attached, with the reference of its attachment and the one
    kept for the target; whatever else is in the registry stays right. *)
Lemma attach_add_ok s held v p mac : registry_ok s held → is_Some (vdevs s !! v) → peers s !! p = None →
  safely (ol_txrx_peer_attach_add v mac (Some p)) s (λ r s', r = Some p ∧ registry_ok s' held ∧
    ∃ x, peers s' !! p = Some x ∧ peer_vdev x = v ∧ peer_mac x = mac ∧ valid x = true ∧ ref_cnt x = 2).
Proof.
  intros Hg [y Hy] Hn. unfold ol_txrx_peer_attach_add.
  eapply safely_bind; [apply (attach_link_ok s v p mac y (proj1 (rg_lists _ _ _ _ Hg)) Hy Hn)|].
  intros _ s1 (Hj & y1 & Hy1 & _).
  assert (registry_but (Some p) None s1 held) as Hg1 by by eapply joined_registry.
  assert (peers s1 !! p = Some (attached_peer v mac)) as Hx1.
  { rewrite (jn_peers _ _ _ _ _ Hj). apply lookup_insert_eq. }
  eapply safely_step; [by apply get_vdev_run|]. cbv beta zeta.
  set (g := λ x, if bool_decide (mac = vdev_mac y1) then x else set_bss_peer true x).
  assert (quiet g) as Hq1 by (intros x; unfold g; by case_bool_decide).
  eapply (safely_step _ _ _ tt (upd_peer p g s1)).
  { unfold g. case_bool_decide; cbn [negb when].
    - by rewrite upd_peer_id.
    - by rewrite (peer_mod_run _ _ _ _ Hx1). }
  eapply safely_step; [by eapply peer_mod_run, upd_peer_lookup|]. rewrite upd_peer_compose.
  set (g2 := _ ∘ g). assert (quiet g2) as Hq2.
  { intros x. destruct (Hq1 x) as ([? ?] & ? & ? & ? & ?). done. }
  eapply safely_bind; [apply state_update_ok; by apply (registry_quiet _ _ s1 p g2)|].
  intros _ s3 (Hg3 & q & h & Hh & ->).
  set (x3 := (if decide (q = p) then h (g2 (attached_peer v mac)) else g2 (attached_peer v mac))).
  assert (peers (upd_peer q h (upd_peer p g2 s1)) !! p = Some x3) as Hx3.
  { pose proof (upd_peer_lookup _ _ g2 _ Hx1) as Hx2. unfold x3. destruct (decide (q = p)) as [->|Hne].
    - by apply upd_peer_lookup.
    - rewrite <- Hx2. cbn. by rewrite lookup_alter_ne. }
  assert (peer_vdev x3 = v ∧ peer_mac x3 = mac ∧ valid x3 = true ∧ ref_cnt x3 = 2) as (Hv3 & Hm3 & Hval3 & Hr3).
  { destruct (Hq2 (attached_peer v mac)) as ([? ?] & ? & ? & _), (Hh (g2 (attached_peer v mac))) as ([? ?] & ? & ? & _).
    assert (peer_vdev (attached_peer v mac) = v ∧ peer_mac (attached_peer v mac) = mac ∧
      valid (attached_peer v mac) = true ∧ ref_cnt (attached_peer v mac) = 2) as (? & ? & ? & ?) by done.
    unfold x3. destruct (decide (q = p)); split_and!; congruence. }
  eapply safely_bind; [by apply (alloc_ok _ held p x3)|]. intros _ s4 (Hg4 & i & Hx4).
  apply safely_ret. split; [done|]. split; [done|]. by exists (set_local_id i x3).
Qed.
