(* ===== verification/PeerDetach.v ===== *)
(** The registry of peers: detaching a peer. *)
From S2P Require Import Prelude Tailq PeerTypes PeerFind PeerLife PeerRep PeerDelete PeerErase PeerInv PeerOps PeerLocal.

Implicit Types (s : pdev_t) (held : list positive).

(** * Flushing the frames kept for a peer *)

(** [s'] is [s] after a quiet change of [p], with some events more. *)
Definition quietly (p : positive) (s s' : pdev_t) : Prop := ∃ f l, quiet f ∧ s' = set_log l (upd_peer p f s).

Lemma quietly_upd p s s' f : quiet f → quietly p s s' → quietly p s (upd_peer p f s').
Proof.
  intros Hf (g & l & Hg & ->). exists (f ∘ g), l. split.
  - intros x. destruct (Hf (g x)) as ([? ?] & ? & ? & ? & ?), (Hg x) as ([? ?] & ? & ? & ? & ?).
    unfold compose. split_and!; congruence.
  - change (upd_peer p f (set_log l (upd_peer p g s))) with (set_log l (upd_peer p f (upd_peer p g s))).
    by rewrite upd_peer_compose.
Qed.

Lemma quietly_log p s s' l : quietly p s s' → quietly p s (set_log l s').
Proof. intros (g & l' & Hg & ->). by exists g, l. Qed.

Lemma quietly_refl p s : quietly p s s.
Proof. exists id, (log s). split; [by intros x|]. rewrite upd_peer_id by done. by destruct s. Qed.

Lemma quietly_registry on og p s s' held : quietly p s s' → registry_but on og s held → registry_but on og s' held.
Proof. intros (f & l & Hf & ->) Hg. by apply registry_log, registry_quiet. Qed.

(** What a quiet change keeps of the peer *)
Lemma quietly_peer p s s' x : quietly p s s' → peers s !! p = Some x →
  ∃ x', peers s' !! p = Some x' ∧ peer_vdev x' = peer_vdev x ∧ valid x' = valid x ∧ local_id x' = local_id x ∧
    ref_cnt x' = ref_cnt x.
Proof.
  intros (f & l & Hf & ->) Hx. exists (f x). split; [by apply upd_peer_lookup|].
  by destruct (Hf x) as ([_ ?] & ? & ? & _ & ?).
Qed.

Lemma delete_upd_peer s p f : delete p (peers (upd_peer p f s)) = delete p (peers s).
Proof.
  cbn. apply map_eq. intros q. destruct (decide (p = q)) as [<-|Hne].
  - by rewrite !lookup_delete_eq.
  - by rewrite !lookup_delete_ne, lookup_alter_ne.
Qed.

(** A quiet change, and what comes after it *)
Lemma quietly_mod {A} p s s' x f (k : unit → PM A) Q : quiet f → quietly p s s' → peers s !! p = Some x →
  (∀ s'', quietly p s s'' → safely (k tt) s'' Q) → safely (y ← mod_peer p f; k y) s' Q.
Proof.
  intros Hf Hq Hx Hk. destruct (quietly_peer p s s' x Hq Hx) as (x' & Hx' & _).
  eapply safely_step; [by eapply peer_mod_run|]. apply Hk. by apply quietly_upd.
Qed.

(** A loop whose body only emits events *)
Lemma for_each_logs {A} (body : A → PM unit) l : (∀ a s, ∃ e, body a s = Some (tt, set_log e s)) →
  ∀ s, ∃ e, for_each l body s = Some (tt, set_log e s).
Proof.
  intros Hb. induction l as [|a l IH]; intros s; [exists (log s); by destruct s|].
  destruct (Hb a s) as [e He], (IH (set_log e s)) as [e' He']. exists e'. cbn [for_each]. by mrun He.
Qed.

(** Frames are delivered only to a callback that is registered. *)
Lemma flush_ok osif drop s p x : peers s !! p = Some x → drop = true ∨ osif_rx x = true →
  safely (ol_txrx_flush_rx_frames osif p drop) s (λ _ s', quietly p s s').
Proof.
  intros Hx Hd. unfold ol_txrx_flush_rx_frames. eapply safely_step; [by eapply peer_mod_run|].
  set (f := λ x, set_flush_in_progress (flush_in_progress x + 1) x). assert (quietly p s (upd_peer p f s)) as Hq1.
  { apply quietly_upd; [by intros x'|apply quietly_refl]. }
  pose proof (upd_peer_lookup _ _ f _ Hx) as Hx1. eapply safely_step; [by apply peer_get_run|]. cbv beta zeta.
  destruct (flush_in_progress (f x) >? 1).
  { eapply safely_run; [by eapply peer_mod_run|]. by apply quietly_upd; [intros x'|]. }
  change (osif_rx (f x)) with (osif_rx x).
  match goal with |- context [for_each ?l ?b] => destruct (for_each_logs b l) with (s := upd_peer p f s) as [e He] end.
  { intros b s2. cbv beta. match goal with |- context [if ?d then emit _ else _] => destruct d eqn:Ed end;
      [by eexists|].
    destruct Hd as [-> | ->]; [revert Ed; by destruct (state (f x))|]. cbn [negb]. mnext.
    destruct (negb (osif b)); by eexists. }
  eapply safely_step; [exact He|].
  eapply quietly_mod; [by intros x'|by apply quietly_log|done|]. intros s2 Hq2.
  destruct (quietly_peer p s s2 x Hq2 Hx) as (x2 & Hx2 & _).
  eapply safely_run; [by eapply peer_mod_run|]. by apply quietly_upd; [intros x'|].
Qed.

Lemma clear_internal_ok osif s p x : peers s !! p = Some x →
  safely (ol_txrx_clear_peer_internal osif p) s (λ r s', r = CDF_STATUS_SUCCESS ∧ quietly p s s').
Proof.
  intros Hx. unfold ol_txrx_clear_peer_internal. eapply safely_step; [by apply peer_get_run|].
  eapply safely_step; [done|]. cbv beta. eapply safely_bind; [by eapply flush_ok; [|left]|].
  intros ? s1 Hq1. assert (quietly p s s1) as Hq.
  { destruct Hq1 as (f & l & Hf & ->). by exists f, l. }
  eapply quietly_mod; [by intros x'|done|done|]. intros s2 Hq2.
  eapply quietly_mod; [by intros x'|done|done|]. intros s3 Hq3. by apply safely_ret.
Qed.

(** * The end of the attachment *)

Lemma registry_invalidate s held p x f : registry_ok s held → peers s !! p = Some x → valid x = true →
  (∀ x, keeps_place f ∧ ref_cnt (f x) = ref_cnt x ∧ valid (f x) = false ∧ peer_ids (f x) = peer_ids x ∧
    local_id (f x) = local_id x) →
  registry_but None (Some p) (upd_peer p f s) (p :: held) ∧ owned s p x.
Proof.
  intros [Hl Hr [Hp Hlen Hfree Hm Hpeer] Hla] Hx Hv Hf. split.
  - destruct (Hf x) as (Hk & Hrc & Hval & Hids & Hlo). split.
    + by apply lists_ok_upd_peer.
    + apply (refs_upd_peer s p f held _ x); try done.
      * intros q Hq. by rewrite occ_other.
      * rewrite occ_self, Hrc, Hval, Hv. cbn. lia.
      * rewrite Hrc. by apply (rc_count _ _ Hr p x).
    + split; try done.
      * intros k q (Hn & xq & Hq & Hlq & Hvq)%Hm. split; [done|]. destruct (decide (p = q)) as [<-|Hne].
        { exists (f x). rewrite (upd_peer_lookup _ _ _ _ Hx), Hlo. simplify_eq. by auto. }
        exists xq. cbn. rewrite lookup_alter_ne by done. split_and!; [done|done|]. left. by destruct Hvq.
      * intros q xq' (xq & Hq & ->)%upd_peer_inv. destruct (decide (p = q)) as [<-|Hne]; [|by apply Hpeer].
        simplify_eq. rewrite Hval. done.
    + intros v y q Hy Hlast. destruct (Hla v y q Hy Hlast) as (xq & Hq & Hqv & Hvq).
      destruct (decide (p = q)) as [<-|Hne].
      * exists (f x). rewrite (upd_peer_lookup _ _ _ _ Hx). simplify_eq. destruct (Hk x) as [_ ->]. by auto.
      * exists xq. cbn. rewrite lookup_alter_ne by done. split_and!; [done|done|]. left. by destruct Hvq.
  - by apply (Hpeer p x).
Qed.

(** The last real peer is forgotten, and the local identifier given back. *)
Lemma registry_close s held p x v f : registry_but None (Some p) s held → peers s !! p = Some x →
  valid x = false → owned s p x → peer_vdev x = v →
  (∀ y, vdevs s !! v = Some y → keeps_lists f ∧ last_real_peer (f y) ≠ Some p ∧
    (last_real_peer (f y) = last_real_peer y ∨ last_real_peer (f y) = None)) →
  registry_ok (upd_vdev v f (released s x)) held.
Proof.
  intros [Hl Hr Hi Hla] Hx Hv Ho Hxv Hf. destruct (lo_owner _ _ _ (proj1 Hl) p x Hx) as [y Hy]; [done|].
  rewrite Hxv in Hy. destruct (Hf y Hy) as (Hk & _).
  pose proof (ids_release s p x Hx Hi Ho Hv) as Hi'.
  assert (lists_ok (released s x) ∧ refs_ok (released s x) held ∧ vdevs (released s x) = vdevs s ∧
    peers (released s x) = peers s) as ([Hl1 Hl2] & Hr' & Hvs & Hps).
  { unfold released. destruct (decide _); [done|]. split_and!; [by apply upd_ids_lists|by apply upd_ids_refs|done|done]. }
  split.
  - split; [by apply lists_upd_vdev|]. apply pending_upd_vdev; [|done]. intros y'. by destruct (Hk y') as [_ ?].
  - by destruct Hr'.
  - by destruct Hi'.
  - intros v' y' q (y0 & Hy0 & ->)%upd_vdev_inv Hlast. rewrite Hvs in Hy0.
    change (peers (upd_vdev v f (released s x))) with (peers (released s x)). rewrite Hps.
    assert (last_real_peer y0 = Some q ∧ q ≠ p) as [Hq Hne].
    { destruct (decide (v = v')) as [<-|Hnv].
      - destruct (Hf y0 Hy0) as (_ & Hn & [He|He]); split; congruence.
      - split; [done|]. intros ->. destruct (Hla v' y0 p Hy0 Hlast) as (x2 & Hx2 & Hv2 & _). congruence. }
    destruct (Hla v' y0 q Hy0 Hq) as (xq & Hxq & Hvq & Hval). exists xq. split_and!; [done|done|].
    left. destruct Hval as [|[= ->]]; [done|]. done.
Qed.

(** Detaching gives up the reference of the attachment: the peer can no longer
    be found as a valid one, and goes unless somebody else refers to it. *)
Lemma peer_detach_ok osif s held p x : registry_ok s held → peers s !! p = Some x → valid x = true →
  safely (ol_txrx_peer_detach osif p) s (λ _ s', registry_ok s' held ∧
    if decide (ref_cnt x = 1) then peers s' = delete p (peers s)
    else ∃ x', peers s' !! p = Some x' ∧ valid x' = false ∧ ref_cnt x' = ref_cnt x - 1).
Proof.
  intros Hg Hx Hv. unfold ol_txrx_peer_detach. eapply safely_step; [by apply peer_get_run|]. cbv beta zeta.
  eapply safely_step; [by eapply peer_mod_run|]. eapply safely_step; [by eapply peer_mod_run, upd_peer_lookup|].
  rewrite upd_peer_compose. set (f := set_valid false ∘ set_rx_discards true).
  destruct (registry_invalidate s held p x f Hg Hx Hv) as [Hg1 Ho].
  { by intros x'. }
  pose proof (upd_peer_lookup _ _ f _ Hx) as Hx1. set (s1 := upd_peer p f s) in *.
  eapply safely_bind; [by apply (clear_internal_ok osif s1 p (f x))|]. intros _ s2 [_ Hq2].
  pose proof (quietly_registry _ _ _ _ _ _ Hq2 Hg1) as Hg2.
  destruct (quietly_peer _ _ _ _ Hq2 Hx1) as (x2 & Hx2 & Hv2 & Hval2 & Hlo2 & Hr2).
  assert (owned s2 p x2 ∧ delete p (peers s2) = delete p (peers s)) as [Ho2 Hps2].
  { destruct Hq2 as (g & l & _ & ->). split.
    - unfold owned in *. rewrite Hlo2. exact Ho.
    - change (peers (set_log l (upd_peer p g s1))) with (peers (upd_peer p g s1)). unfold s1. by rewrite !delete_upd_peer. }
  eapply safely_step; [by eapply free_run; [|apply Hg2|]|].
  destruct (lo_owner _ _ _ (proj1 (rg_lists _ _ _ _ Hg2)) p x2 Hx2) as [y Hy]; [done|].
  assert (peer_vdev x2 = peer_vdev x) as Hvd by done. rewrite Hvd in Hy.
  set (s3 := released s2 x2). assert (vdevs s3 = vdevs s2 ∧ peers s3 = peers s2) as [Hvs3 Hps3].
  { unfold s3, released. by destruct (decide _). }
  assert (vdevs s3 !! peer_vdev x = Some y) as Hy3 by by rewrite Hvs3.
  eapply safely_step; [by apply get_vdev_run|]. cbv beta.
  set (h := λ y, if bool_decide (last_real_peer y = Some p) then set_last_real_peer None y else y).
  eapply (safely_step _ _ _ tt (upd_vdev (peer_vdev x) h s3)).
  { unfold h. case_bool_decide as Hl; cbn [when].
    - rewrite (mod_vdev_run _ _ _ _ Hy3). unfold upd_vdev. do 3 f_equal. apply alter_ext. intros y'.
      rewrite Hy3. intros [= <-]. by rewrite bool_decide_true.
    - unfold mret, CM_ret, upd_vdev. rewrite alter_id; [by destruct s3|]. intros y'. rewrite Hy3.
      intros [= <-]. by rewrite bool_decide_false. }
  assert (registry_ok (upd_vdev (peer_vdev x) h s3) (p :: held)) as Hg4.
  { apply (registry_close s2 _ p x2); [done|done|by rewrite Hval2|done|done|]. intros y' _. unfold h. split_and!.
    - intros y2. by case_bool_decide.
    - case_bool_decide; [done|congruence].
    - case_bool_decide; by auto. }
  set (s4 := upd_vdev (peer_vdev x) h s3) in *.
  assert (peers s4 !! p = Some x2) as Hx4 by (change (peers s4) with (peers s3); by rewrite Hps3).
  eapply safely_step; [by eapply peer_mod_run|].
  pose proof (upd_peer_lookup _ _ (set_delete_in_progress 1) _ Hx4) as Hx5.
  eapply safely_mono; [apply (unref_delete_ok _ held p _ Hx5); by apply registry_quiet|].
  cbv beta. intros _ s6 [Hg6 Hd]. split; [done|].
  change (ref_cnt (set_delete_in_progress 1 x2)) with (ref_cnt x2) in Hd.
  assert (ref_cnt x2 = ref_cnt x) as Hrx by done. rewrite Hrx in Hd. destruct (decide (ref_cnt x = 1)).
  - rewrite (dd_peers _ _ _ Hd), delete_upd_peer. change (peers s4) with (peers s3). by rewrite Hps3.
  - subst s6. eexists. split; [by apply upd_peer_lookup|]. split; [done|]. cbn. by rewrite Hrx.
Qed.
