(* ===== verification/PeerAttachCheck.v ===== *)
(** The registry of peers: the check that [ol_txrx_peer_attach] makes for an
    older peer, the size of the tables, and the registry of a new pdev. *)
From S2P Require Import Prelude Tailq PeerTypes PeerFind PeerLife PeerRep PeerDelete PeerErase PeerInv PeerOps PeerLocal PeerAttach.

Implicit Types (s : pdev_t) (held : list positive).

(** * The check for an older peer *)

(** Changes of the wait for a deletion, which the invariant does not depend on *)
Lemma registry_upd_vdev on og s held v f : keeps_vdev f → registry_but on og s held → registry_but on og (upd_vdev v f s) held.
Proof.
  intros Hf [[Hl Hp] Hr Hi Hla]. split.
  - split.
    + apply lists_upd_vdev; [|done]. intros y. destruct (Hf y) as (? & ? & _). done.
    + apply pending_upd_vdev; [|done]. intros y. by destruct (Hf y) as (_ & ? & _).
  - by destruct Hr.
  - by destruct Hi.
  - intros v' y' p (y & Hy & ->)%upd_vdev_inv Hlast. apply (Hla v' y p Hy).
    destruct (decide (v = v')); [|done]. destruct (Hf y) as (_ & _ & _ & He). congruence.
Qed.

(** The older peers with the address, in the order of the list *)
Definition older (s : pdev_t) (mac : mac_addr) (l : list positive) : list ol_txrx_peer_t :=
  filter (λ x, peer_mac x = mac) (omap (λ p, peers s !! p) l).

Definition check_result (xs : list ol_txrx_peer_t) (wait : bool) : attach_check :=
  if decide (Exists (λ x, delete_in_progress x = 0) xs) then AttachRefused
  else if wait || negb (bool_decide (xs = [])) then AttachWait else AttachGo.

Lemma check_result_cons x xs wait : check_result (x :: xs) wait =
  if decide (delete_in_progress x = 0) then AttachRefused else check_result xs true.
Proof.
  unfold check_result. destruct (decide (delete_in_progress x = 0)) as [He|Hne].
  - rewrite decide_True; [done|]. by left.
  - rewrite (decide_ext (Exists _ (x :: xs)) (Exists (λ x, delete_in_progress x = 0) xs)).
    + rewrite (bool_decide_false (x :: xs = [])) by done. by rewrite orb_true_r.
    + rewrite Exists_cons. tauto.
Qed.

Lemma attach_check_loop_ok mac v l : ∀ s held wait, registry_ok s held → is_Some (vdevs s !! v) →
  (∀ p, p ∈ l → is_Some (peers s !! p)) →
  safely (attach_check_loop v mac l wait) s (λ r s', registry_ok s' held ∧ peers s' = peers s ∧
    is_Some (vdevs s' !! v) ∧ r = check_result (older s mac l) wait).
Proof.
  induction l as [|p l IH]; intros s held wait Hg [y Hy] Hl.
  { apply safely_ret. split_and!; [done|done|by exists y|]. by destruct wait. }
  cbn [attach_check_loop]. destruct (Hl p) as [x Hx]; [by left|].
  assert (∀ p', p' ∈ l → is_Some (peers s !! p')) as Hl' by (intros p' Hp'; apply Hl; by right).
  eapply safely_step; [by apply peer_get_run|]. rewrite mac_addr_cmp_spec.
  unfold older. cbn [omap list_omap]. rewrite Hx. fold (older s mac l).
  destruct (decide (peer_mac x = mac)) as [He|Hne].
  - rewrite (bool_decide_false (peer_mac x ≠ mac)), filter_cons_True by auto. cbn [negb].
    fold (older s mac l). rewrite check_result_cons. destruct (Z.eqb_spec (delete_in_progress x) 0) as [H0|H0].
    + rewrite decide_True by done. apply safely_ret. split_and!; [done|done|by exists y|done].
    + rewrite decide_False by done. cbn [negb].
      eapply safely_step; [by eapply mod_vdev_run|]. eapply safely_step; [by eapply mod_vdev_run, upd_vdev_lookup|].
      match goal with |- safely _ ?s2 _ => apply (IH s2 held true) end.
      * by do 2 (apply registry_upd_vdev; [done|]).
      * eexists. by do 2 apply upd_vdev_lookup.
      * done.
  - rewrite (bool_decide_true (peer_mac x ≠ mac)), filter_cons_False by auto. cbn [negb].
    apply IH; [done|by exists y|done].
Qed.

(** A new peer is refused while an attached peer of the virtual device has its
    address, and waits while only peers being detached have it. *)
Lemma attach_check_ok s held v mac y : registry_ok s held → vdevs s !! v = Some y →
  safely (ol_txrx_peer_attach_check v mac) s (λ r s', registry_ok s' held ∧ peers s' = peers s ∧
    is_Some (vdevs s' !! v) ∧ ∃ l, rep (peer_list y) l ∧ r = check_result (older s mac l) false).
Proof.
  intros Hg Hy. pose proof (rg_lists _ _ _ _ Hg) as [Hl _].
  destruct (lo_peer_list _ _ _ Hl _ _ Hy) as (l & Hrep & Hin). unfold ol_txrx_peer_attach_check.
  eapply safely_step; [by eapply on_peer_list_foreach|].
  eapply safely_mono; [apply (attach_check_loop_ok mac v l s held false Hg); [by exists y|]|].
  - intros p Hp. apply Hin in Hp as (_ & x & Hx & _). by exists x.
  - cbv beta. intros r s' (? & ? & ? & ?). split_and!; [done..|]. by exists l.
Qed.

(** * The size of the tables *)

Lemma log2_loop_spec n : ∀ tmp l, 0 ≤ tmp < 2 ^ Z.of_nat n →
  log2_loop n tmp l = l + (if tmp =? 0 then 0 else Z.log2 tmp + 1).
Proof.
  induction n as [|n IH]; intros tmp l Ht.
  - cbn in *. replace tmp with 0 by lia. cbn. lia.
  - cbn [log2_loop]. destruct (Z.eqb_spec tmp 0) as [->|Hne]; [lia|].
    rewrite IH.
    + destruct (Z.eqb_spec (Z.shiftr tmp 1) 0) as [H0|H0].
      * apply Z.shiftr_eq_0_iff in H0 as [?|[_ H0]]; [lia|]. pose proof (Z.log2_nonneg tmp). lia.
      * rewrite Z.log2_shiftr by lia. rewrite Z.shiftr_div_pow2 in H0 by lia.
        destruct (decide (tmp = 1)) as [->|H1]; [done|].
        pose proof (Z.log2_le_mono 2 tmp ltac:(lia)) as Hl. change (Z.log2 2) with 1 in Hl. lia.
    + rewrite Z.shiftr_div_pow2 by lia. change (2 ^ 1) with 2. split; [apply Z.div_pos; lia|].
      apply Z.div_lt_upper_bound; [lia|]. replace (2 * 2 ^ Z.of_nat n) with (2 ^ Z.of_nat (S n)); [lia|].
      rewrite Nat2Z.inj_succ, Z.pow_succ_r; lia.
Qed.

(** The loop computes the logarithm, rounded up. *)
Lemma log2_ceil_spec v : 0 < v < 2 ^ 32 → ol_txrx_log2_ceil v = Z.log2_up v.
Proof.
  intros Hv. unfold ol_txrx_log2_ceil. rewrite (proj2 (Z.eqb_neq v 0)) by lia.
  rewrite (log2_loop_spec 32) by lia. rewrite (proj2 (Z.eqb_neq v 0)) by lia.
  replace (-1 + (Z.log2 v + 1)) with (Z.log2 v) by lia.
  pose proof (Z.log2_spec v ltac:(lia)) as [Hlo Hhi]. pose proof (Z.log2_nonneg v).
  rewrite Z.shiftl_mul_pow2, Z.mul_1_l by done.
  rewrite (wrap_small 32) by (split; [by apply Z.pow_nonneg|lia]).
  destruct (Z.eqb_spec (2 ^ Z.log2 v) v) as [He|Hne]; cbn [negb].
  - rewrite <- He at 2. by rewrite Z.log2_up_pow2.
  - symmetry. apply Z.log2_up_unique; [lia|]. rewrite Z.pow_succ_r in Hhi by done. replace (Z.pred (Z.log2 v + 1)) with (Z.log2 v) by lia.
    rewrite Z.pow_add_r by lia. lia.
Qed.

(** * A new pdev *)

(** The memory of a pdev before anything is attached to it *)
Definition pdev0 : pdev_t :=
  mk_pdev ∅ ∅ (mk_tailq None SHead ∅) 0 0 [] [] [] 0 [] None false [].

Definition registry_start (max_peer_id : Z) : PM Z :=
  r ← ol_txrx_peer_find_attach max_peer_id true true;
  ol_txrx_local_peer_id_pool_init;;
  mret r.

Lemma empty_bin_rep : rep empty_bin [].
Proof. repeat split. constructor. Qed.

Lemma chain_seqZ (n : nat) : ∀ (a stop : Z) pool, 0 ≤ a → stop = a + Z.of_nat n →
  (∀ i, a ≤ i < stop → pool !! Z.to_nat i = Some (i + 1)) → chain stop pool a (seqZ a (Z.of_nat n)).
Proof.
  induction n as [|n IH]; intros a stop pool Ha Hs Hp; [rewrite seqZ_nil by lia; cbn; lia|].
  rewrite seqZ_cons by lia. replace (Z.pred (Z.of_nat (S n))) with (Z.of_nat n) by lia. cbn [chain].
  split; [done|]. exists (a + 1). split; [apply Hp; lia|].
  apply IH; [lia|lia|]. intros i Hi. apply Hp. lia.
Qed.

Lemma pool_init_ids s : peers s = ∅ →
  safely ol_txrx_local_peer_id_pool_init s (λ _ s', ids_but None None s' ∧
    ∃ pool free m, s' = upd_ids pool free m s).
Proof.
  intros Hp. unfold ol_txrx_local_peer_id_pool_init. do 2 (eapply safely_step; [done|]).
  eapply safely_run; [done|]. cbv beta. split; [|by eexists _, _, _].
  set (pool := seqZ 1 OL_TXRX_NUM_LOCAL_PEER_IDS ++ [OL_TXRX_NUM_LOCAL_PEER_IDS]).
  split; cbn [ids_pool ids_map ids_freelist set_ids_map set_ids_pool set_ids_freelist].
  - done.
  - done.
  - exists (seqZ 0 (Z.of_nat 33)). split_and!; [|apply NoDup_seqZ|].
    + apply (chain_seqZ 33); [done|done|]. intros i Hi. unfold pool.
      rewrite lookup_app_l by (rewrite length_seqZ; change OL_TXRX_NUM_LOCAL_PEER_IDS with 33; lia).
      rewrite lookup_seqZ. change OL_TXRX_NUM_LOCAL_PEER_IDS with 33. split; lia.
    + intros i. rewrite elem_of_seqZ. change (Z.to_nat OL_TXRX_NUM_LOCAL_PEER_IDS) with 33%nat.
      rewrite lookup_replicate. split; [intros [? ?]; split_and!; [lia|done|lia]|intros (? & _ & ?); lia].
  - intros k p Hk. apply lookup_replicate in Hk as [? _]. done.
  - intros p x Hx. cbn in Hx. rewrite Hp in Hx. by rewrite lookup_empty in Hx.
Qed.

(** The tables of a new pdev are empty and have a slot for every identifier. *)
Lemma registry_start_ok max_peer_id : 0 ≤ max_peer_id < 2 ^ 16 →
  safely (registry_start max_peer_id) pdev0 (λ r s, r = 0 ∧ registry_ok s [] ∧
    peer_id_to_obj_map s = replicate (Z.to_nat (max_peer_id + 1)) None ∧ peers s = ∅ ∧ vdevs s = ∅ ∧
    max_peer_id + 1 ≤ hash_mask s).
Proof.
  intros Hmax. unfold registry_start, ol_txrx_peer_find_attach, ol_txrx_peer_find_map_attach, ol_txrx_peer_find_hash_attach.
  set (n := Z.shiftr ((max_peer_id + 1) * TXRX_PEER_HASH_LOAD_MULT) TXRX_PEER_HASH_LOAD_SHIFT).
  assert (n = (max_peer_id + 1) * 2) as Hn by (unfold n, TXRX_PEER_HASH_LOAD_SHIFT; by rewrite Z.shiftr_0_r).
  rewrite (log2_ceil_spec n) by lia. rewrite Z.shiftl_mul_pow2, Z.mul_1_l by apply Z.log2_up_nonneg.
  pose proof (Z.log2_up_nonneg n). pose proof (Z.log2_up_spec n ltac:(lia)) as [_ Hup].
  eapply (safely_step _ _ _ 0); [done|]. cbv beta. set (s1 := set_hash_bins _ _).
  eapply safely_bind; [by apply pool_init_ids|]. intros _ s2 (Hids & pool & free & m & ->).
  apply safely_ret. split_and!; [done| |done|done|done|cbn; lia].
  split; [apply upd_ids_lists; split| |done|].
  - split; cbn [hash_idx_bits hash_mask hash_bins vdevs vdev_list peers s1 set_hash_bins set_hash_idx_bits set_hash_mask set_peer_id_to_obj_map pdev0]; try done.
    + rewrite length_replicate. lia.
    + intros i q [-> _]%lookup_replicate. exists []. split; [apply empty_bin_rep|]. set_solver.
    + exists []. split; [apply empty_bin_rep|]. intros v. setoid_rewrite lookup_empty. set_solver.
  - intros v y Hy. cbn in Hy. by rewrite lookup_empty in Hy.
  - split; cbn; try (intros p x Hx; by rewrite lookup_empty in Hx).
    + by intros p [? _]%elem_of_replicate.
    + by intros p ?%elem_of_nil.
  - intros v y p Hy. cbn in Hy. by rewrite lookup_empty in Hy.
Qed.
