(* ===== verification/PeerSystem.v ===== *)
(** The registry of peers as a system: every sequence of operations that its
    callers may perform runs without a fault and keeps the invariant. *)
From S2P Require Import Prelude Tailq PeerTypes PeerFind PeerLife PeerRep PeerDelete PeerErase PeerInv PeerOps PeerMap PeerLocal PeerAttach PeerDetach PeerAttachCheck.

Implicit Types (s : pdev_t) (held : list positive).

(** * Operations *)

Inductive peer_op : Type :=
| OpVdevAttach (mac : mac_addr) (v : positive)
| OpVdevDetach (v : positive) (callback : bool)
| OpPeerAttach (v : positive) (mac : mac_addr) (p : positive)
| OpPeerAttachWaited (v : positive) (mac : mac_addr) (p : positive) (rc : CDF_STATUS)
| OpPeerDetach (p : positive)
| OpMap (peer_id : Z) (mac : mac_addr)
| OpUnmap (peer_id : Z)
| OpFind (mac : mac_addr) (check_valid : bool)
| OpFindVdev (v : positive) (mac : mac_addr) (check_valid : bool)
| OpFindAssoc (v : positive)
| OpUnref (p : positive)
| OpFindByAddr (mac : mac_addr)
| OpFindById (peer_id : Z)
| OpStateUpdate (mac : mac_addr) (st : ol_txrx_peer_state)
| OpClear (sta_id : Z)
| OpRegister (sta_id : Z).

Section system.
Context (osif : positive → bool) (max_peer_id : Z).

(** The reference that an operation hands to its caller is its result. *)
Definition run_op (op : peer_op) : PM (option positive) :=
  match op with
  | OpVdevAttach mac v => ol_txrx_vdev_attach mac (Some v);; mret None
  | OpVdevDetach v cb => ol_txrx_vdev_detach v cb;; mret None
  | OpPeerAttach v mac p =>
      r ← ol_txrx_peer_attach_check v mac;
      match r with
      | AttachGo => ol_txrx_peer_attach_add v mac (Some p);; mret None
      | _ => mret None
      end
  | OpPeerAttachWaited v mac p rc =>
      ok ← ol_txrx_peer_attach_wait v rc;
      if ok : bool then ol_txrx_peer_attach_add v mac (Some p);; mret None else mret None
  | OpPeerDetach p => ol_txrx_peer_detach osif p;; mret None
  | OpMap peer_id mac => ol_rx_peer_map_handler peer_id mac;; mret None
  | OpUnmap peer_id => ol_rx_peer_unmap_handler peer_id;; mret None
  | OpFind mac cv => ol_txrx_peer_find_hash_find mac cv
  | OpFindVdev v mac cv => ol_txrx_peer_vdev_find_hash v mac cv
  | OpFindAssoc v => ol_txrx_assoc_peer_find v
  | OpUnref p => ol_txrx_peer_unref_delete p;; mret None
  | OpFindByAddr mac => ol_txrx_peer_find_by_addr mac;; mret None
  | OpFindById peer_id => ol_txrx_peer_find_by_id max_peer_id peer_id;; mret None
  | OpStateUpdate mac st => ol_txrx_peer_state_update mac st;; mret None
  | OpClear sta_id => ol_txrx_clear_peer osif sta_id;; mret None
  | OpRegister sta_id => ol_txrx_register_peer osif sta_id true;; mret None
  end.

(** What the callers must see to: objects are allocated under new names, used
    while they exist and detached once; the target maps an identifier that is
    in range and free; a reference is given back by who holds it. *)
Definition allowed (s : pdev_t) (held : list positive) (op : peer_op) : Prop :=
  match op with
  | OpVdevAttach _ v => vdevs s !! v = None
  | OpVdevDetach v _ => ∃ y, vdevs s !! v = Some y ∧ delete_pending y = false
  | OpPeerAttach v _ p | OpPeerAttachWaited v _ p _ => is_Some (vdevs s !! v) ∧ peers s !! p = None
  | OpPeerDetach p => ∃ x, peers s !! p = Some x ∧ valid x = true
  | OpMap peer_id _ => id_entry s peer_id = Some None ∧ peer_id ≠ HTT_INVALID_PEER
  | OpUnmap peer_id => is_Some (id_entry s peer_id) ∧ peer_id ≠ HTT_INVALID_PEER
  | OpFindAssoc v => is_Some (vdevs s !! v)
  | OpUnref p => p ∈ held
  | OpFindById peer_id => max_peer_id < peer_id ∨ is_Some (id_entry s peer_id)
  | OpClear sta_id | OpRegister sta_id => 0 ≤ sta_id
  | _ => True
  end.

Definition held_after (op : peer_op) (r : option positive) (held : list positive) : list positive :=
  match op with
  | OpUnref p => default held (remove_one p held)
  | _ => option_list r ++ held
  end.

(** * Every operation *)

Lemma find_assoc_ok s held v : registry_ok s held → is_Some (vdevs s !! v) →
  safely (ol_txrx_assoc_peer_find v) s (λ r s', registry_ok s' (option_list r ++ held)).
Proof using.
  intros Hg [y Hy]. unfold ol_txrx_assoc_peer_find. eapply safely_step; [by apply get_vdev_run|].
  destruct (last_real_peer y) as [p|] eqn:Hl; [|by apply safely_ret].
  destruct (rg_last _ _ _ _ Hg v y p Hy Hl) as (x & Hx & _ & _). eapply safely_step; [by apply peer_get_run|].
  destruct (peer_ids x) as [|i ids] eqn:Hi; [by destruct (rc_ids _ _ (rg_refs _ _ _ _ Hg) p x Hx)|].
  eapply safely_step; [done|]. cbv beta. destruct (negb (i =? HTT_INVALID_PEER_ID)); [|by apply safely_ret].
  eapply safely_step; [by eapply peer_mod_run|]. apply safely_ret. by apply (registry_inc None None s held p x).
Qed.

(** The local identifiers name the attached peers. *)
Lemma find_by_local_id_run s held i : registry_ok s held → 0 ≤ i →
  ∃ o, ol_txrx_peer_find_by_local_id i s = Some (o, s) ∧
    ∀ p, o = Some p ↔ i ≠ OL_TXRX_INVALID_LOCAL_PEER_ID ∧ ∃ x, peers s !! p = Some x ∧ valid x = true ∧ local_id x = i.
Proof using.
  intros Hg Hi. pose proof (rg_ids _ _ _ _ Hg) as [_ Hlen _ Hm Hp]. unfold ol_txrx_peer_find_by_local_id.
  destruct (Z.eqb_spec i OL_TXRX_INVALID_LOCAL_PEER_ID) as [He|Hne]; cbn [orb].
  { exists None. split; [done|]. intros p. split; [done|]. by intros []. }
  change OL_TXRX_NUM_LOCAL_PEER_IDS with 33. rewrite Z.geb_leb. destruct (Z.leb_spec 33 i) as [Hle|Hlt].
  { exists None. split; [done|]. intros p. split; [done|]. intros (_ & x & Hx & Hv & Hl).
    destruct (Hp p x Hx Hv) as [?|[? _]]; [done|congruence|lia]. }
  destruct (lookup_lt_is_Some_2 (ids_map s) (Z.to_nat i)) as [o Ho]; [lia|].
  exists o. split; [by mstep; rewrite Ho|]. intros p. split.
  - intros ->. destruct (Hm _ _ Ho) as (_ & x & Hx & Hl & Hv). split; [done|]. exists x.
    split_and!; [done|by destruct Hv|lia].
  - intros (_ & x & Hx & Hv & Hl). destruct (Hp p x Hx Hv) as [?|[_ Hmp]]; [done|congruence|]. rewrite Hl in Hmp. congruence.
Qed.

Lemma clear_ok s held i : registry_ok s held → 0 ≤ i →
  safely (ol_txrx_clear_peer osif i) s (λ _ s', registry_ok s' held).
Proof using.
  intros Hg Hi. unfold ol_txrx_clear_peer. destruct (i >=? WLAN_MAX_STA_COUNT); [by apply safely_ret|].
  destruct (find_by_local_id_run s held i Hg Hi) as (o & Hrun & Ho). eapply safely_step; [done|].
  destruct o as [p|]; [|by apply safely_ret]. destruct (proj1 (Ho p) eq_refl) as (_ & x & Hx & _).
  eapply safely_mono; [by eapply clear_internal_ok|]. intros r s' [_ Hq]. by eapply quietly_registry.
Qed.

Lemma register_peer_ok s held i : registry_ok s held → 0 ≤ i →
  safely (ol_txrx_register_peer osif i true) s (λ _ s', registry_ok s' held).
Proof using.
  intros Hg Hi. unfold ol_txrx_register_peer. destruct (i >=? WLAN_MAX_STA_COUNT); [by apply safely_ret|].
  destruct (find_by_local_id_run s held i Hg Hi) as (o & Hrun & Ho). eapply safely_step; [done|].
  destruct o as [p|]; [|by apply safely_ret]. destruct (proj1 (Ho p) eq_refl) as (_ & x & Hx & _).
  eapply safely_step; [by eapply peer_mod_run|]. eapply safely_step; [by eapply peer_mod_run, upd_peer_lookup|].
  rewrite upd_peer_compose. set (f := set_state _ ∘ set_osif_rx true).
  pose proof (upd_peer_lookup _ _ f _ Hx) as Hx1. eapply safely_step; [by apply peer_get_run|]. cbv beta.
  assert (registry_ok (upd_peer p f s) held) as Hg1 by by apply registry_quiet.
  destruct (find_peer_by_addr_run (upd_peer p f s) (peer_mac (f x)) (has_addr (peer_mac (f x)) true)) as (o & Hrun2 & _); [apply Hg1|].
  eapply safely_step; [exact Hrun2|]. eapply safely_bind; [by eapply flush_ok; [|right]|].
  intros ? s' Hq. apply safely_ret. eapply quietly_registry; [exact Hq|exact Hg1].
Qed.

Lemma find_by_id_ok s held peer_id : registry_ok s held → max_peer_id < peer_id ∨ is_Some (id_entry s peer_id) →
  safely (ol_txrx_peer_find_by_id max_peer_id peer_id) s (λ r s', s' = s ∧
    ∀ p, r = Some p → ∃ x, peers s !! p = Some x ∧ valid x = true).
Proof using.
  intros Hg Hi. unfold ol_txrx_peer_find_by_id. rewrite Z.gtb_ltb. destruct (Z.ltb_spec max_peer_id peer_id) as [Hlt|Hle].
  { eapply safely_step; [done|]. by apply safely_ret. }
  destruct Hi as [?|[o Ho]]; [lia|]. eapply safely_step; [by apply read_id_map_run|].
  destruct o as [p|]; [|by apply safely_ret].
  destruct (rc_map _ _ (rg_refs _ _ _ _ Hg) p) as [x Hx]; [by apply list_elem_of_lookup_2 in Ho|].
  eapply safely_step; [by apply peer_get_run|]. apply safely_ret. split; [done|].
  intros q. destruct (valid x) eqn:Hv; [|done]. intros [= <-]. by exists x.
Qed.

Lemma remove_held held p q : p ∈ held → occ q (p :: default held (remove_one p held)) = occ q held.
Proof using.
  induction held as [|h held IH]; [by intros ?%elem_of_nil|]. intros Hp. cbn [remove_one].
  destruct (decide (p = h)) as [->|Hne]; [done|]. apply elem_of_cons in Hp as [?|Hp]; [done|]. specialize (IH Hp).
  cbn [mbind option_bind]. destruct (remove_one p held) as [l|] eqn:E; cbn in *; [lia|].
  pose proof (occ_nonneg q held). lia.
Qed.

(** A call whose result is dropped *)
Lemma drop_result {A} (m : PM A) s P held : safely m s P → (∀ a s', P a s' → registry_ok s' held) →
  safely (m;; mret None) s (λ r s', registry_ok s' (option_list r ++ held)).
Proof using. intros Hm Hp. eapply safely_bind; [done|]. intros a s' H. apply safely_ret. by eapply Hp. Qed.

Lemma attach_add_step s held v p mac : registry_ok s held → is_Some (vdevs s !! v) → peers s !! p = None →
  safely (ol_txrx_peer_attach_add v mac (Some p);; mret None) s (λ r s', registry_ok s' (option_list r ++ held)).
Proof using. intros Hg Hv Hp. eapply drop_result; [by eapply attach_add_ok|]. by intros a s' (_ & ? & _). Qed.

Lemma lookup_step s held mac test : registry_ok s held →
  safely (hash_lookup mac test) s (λ r s', registry_ok s' (option_list r ++ held)).
Proof using. intros Hg. eapply safely_mono; [by eapply lookup_ok|]. by intros a s' (_ & _ & ?). Qed.

(** Every operation that is allowed runs, and keeps the registry right. *)
Lemma step_ok s held op : registry_ok s held → allowed s held op →
  safely (run_op op) s (λ r s', registry_ok s' (held_after op r held)).
Proof using.
  intros Hg Ha. destruct op; cbn [run_op allowed held_after] in *.
  - eapply drop_result; [by eapply vdev_attach_ok|]. by intros a s' (_ & ? & _).
  - destruct Ha as (y & Hy & Hd). eapply drop_result; [by eapply vdev_detach_ok|]. by intros a s' (? & _).
  - destruct Ha as [[y Hy] Hp]. eapply safely_bind; [by eapply attach_check_ok|].
    intros r s1 (Hg1 & Hp1 & Hv1 & _). destruct r; [|by apply safely_ret..].
    apply attach_add_step; [done|done|by rewrite Hp1].
  - destruct Ha as [[y Hy] Hp]. destruct rc; cbn [ol_txrx_peer_attach_wait].
    2-5: eapply safely_step; [done|]; by apply attach_add_step.
    eapply safely_bind with (P := λ r s', r = false ∧ registry_ok s' held).
    { eapply safely_step; [by eapply mod_vdev_run|]. apply safely_ret. split; [done|]. by apply registry_upd_vdev. }
    intros r s' [-> ?]. by apply safely_ret.
  - destruct Ha as (x & Hx & Hv). eapply drop_result; [by eapply peer_detach_ok|]. by intros a s' (? & _).
  - destruct Ha as [He Hid]. eapply drop_result; [by eapply map_ok|]. done.
  - destruct Ha as [[o He] Hid]. eapply drop_result; [by eapply unmap_ok|]. by intros a s' (? & _).
  - by apply lookup_step.
  - by apply lookup_step.
  - by apply find_assoc_ok.
  - destruct (rc_held _ _ (rg_refs _ _ _ _ Hg) p Ha) as [x Hx].
    assert (registry_ok s (p :: default held (remove_one p held))) as Hg'.
    { eapply registry_held; [|done]. intros q. by apply remove_held. }
    eapply safely_bind; [by eapply unref_delete_ok|]. intros a s' [? _]. by apply safely_ret.
  - destruct (find_by_addr_run s held mac Hg) as (o & Hrun & _). eapply safely_step; [done|]. by apply safely_ret.
  - eapply safely_bind; [by eapply find_by_id_ok|]. intros a s' [-> _]. by apply safely_ret.
  - eapply drop_result; [by eapply state_update_ok|]. by intros a s' (? & _).
  - eapply drop_result; [by eapply clear_ok|]. done.
  - eapply drop_result; [by eapply register_peer_ok|]. done.
Qed.

(** The registries that the operations reach, with the references that callers hold *)
Inductive reach : pdev_t → list positive → Prop :=
| reach_start s : registry_start max_peer_id pdev0 = Some (0, s) → reach s []
| reach_step s held op r s' : reach s held → allowed s held op → run_op op s = Some (r, s') →
    reach s' (held_after op r held).

Lemma reach_ok s held : 0 ≤ max_peer_id < 2 ^ 16 → reach s held → registry_ok s held.
Proof using.
  intros Hmax. induction 1 as [s Hs|s held op r s' _ IH Ha Hrun].
  - destruct (registry_start_ok max_peer_id Hmax) as (r & s' & Hs' & _ & Hg & _). congruence.
  - destruct (step_ok s held op IH Ha) as (r' & s2 & Hrun' & Hg). congruence.
Qed.
End system.
