(* ===== verification/PeerTheorems.v ===== *)
(** The registry of peers: what holds in every run.

    The references counted by a peer are those that exist; no pointer in the
    tables dangles; no operation faults; the last reference deletes the peer. *)
From S2P Require Import Prelude Tailq PeerTypes PeerFind PeerLife PeerRep PeerDelete PeerErase PeerInv PeerOps PeerMap PeerLocal PeerAttach PeerDetach PeerAttachCheck PeerSystem.

Implicit Types (s : pdev_t) (held : list positive).

(** A pointer to the peer is on some queue, a bin of the address table or the list of a
    virtual device, its own or not: one of the places where a pointer could dangle. *)
Definition in_lists (s : pdev_t) (p : positive) : Prop :=
  (∃ i q l, hash_bins s !! i = Some q ∧ rep q l ∧ p ∈ l) ∨
  (∃ v y l, vdevs s !! v = Some y ∧ rep (peer_list y) l ∧ p ∈ l).

(** The bin of a peer's address, and the list of its own virtual device, with the
    peer on them *)
Definition in_own_bin (s : pdev_t) (p : positive) (x : ol_txrx_peer_t) : Prop :=
  ∃ q l, hash_bins s !! Z.to_nat (ol_txrx_peer_find_hash_index (hash_idx_bits s) (hash_mask s) (peer_mac x)) = Some q ∧ rep q l ∧ p ∈ l.
Definition in_own_vdev (s : pdev_t) (p : positive) (x : ol_txrx_peer_t) : Prop :=
  ∃ y l, vdevs s !! peer_vdev x = Some y ∧ rep (peer_list y) l ∧ p ∈ l.

(** Every place that keeps a pointer to a peer *)
Definition pointed_to (s : pdev_t) (held : list positive) (p : positive) : Prop :=
  in_lists s p ∨ Some p ∈ peer_id_to_obj_map s ∨ Some p ∈ ids_map s ∨
  (∃ v y, vdevs s !! v = Some y ∧ last_real_peer y = Some p) ∨ p ∈ held.

Lemma pointed_to_live s held p : registry_ok s held → pointed_to s held p → is_Some (peers s !! p).
Proof.
  intros [[Hl Hp] Hr Hi Hla] [[(i & q & l & Hq & Hrep & Hin)|(v & y & l & Hy & Hrep & Hin)]|[Hm|[Hm|[(v & y & Hy & He)|Hh]]]].
  - destruct (lo_bins _ _ _ Hl _ _ Hq) as (l' & Hrep' & Hin'). rewrite (rep_inj _ _ _ Hrep Hrep') in Hin.
    apply Hin' in Hin as (_ & x & Hx & _). by exists x.
  - destruct (lo_peer_list _ _ _ Hl _ _ Hy) as (l' & Hrep' & Hin'). rewrite (rep_inj _ _ _ Hrep Hrep') in Hin.
    apply Hin' in Hin as (_ & x & Hx & _). by exists x.
  - by apply (rc_map _ _ Hr).
  - apply list_elem_of_lookup in Hm as [k Hk].
    destruct (ib_map _ _ _ Hi k p Hk) as (_ & x & Hx & _). by exists x.
  - destruct (Hla v y p Hy He) as (x & Hx & _). by exists x.
  - by apply (rc_held _ _ Hr).
Qed.

(** Every peer is in its bin and in the list of its virtual device. *)
Lemma peer_linked s held p x : registry_ok s held → peers s !! p = Some x →
  in_own_bin s p x ∧ in_own_vdev s p x.
Proof.
  intros [[Hl Hp] _ _ _] Hx. split.
  - destruct (bin_of _ _ _ Hl (peer_mac x)) as (q & Hq). destruct (lo_bins _ _ _ Hl _ _ Hq) as (l & Hrep & Hin).
    exists q, l. split_and!; [done|done|]. apply Hin. split; [done|]. by exists x.
  - destruct (lo_owner _ _ _ Hl p x Hx) as [y Hy]; [done|]. destruct (lo_peer_list _ _ _ Hl _ _ Hy) as (l & Hrep & Hin).
    exists y, l. split_and!; [done|done|]. apply Hin. split; [done|]. by exists x.
Qed.

(** * A run *)

Definition ap_mac : mac_addr := mk_mac 2 0 0 0 0 1.
Definition sta_mac : mac_addr := mk_mac 2 0 0 0 0 9.

Definition after (m : PM (option positive)) (s : pdev_t) : pdev_t :=
  match m s with Some (_, s) => s | None => s end.

Definition osif_ok : positive → bool := λ _, true.

Definition run0 : pdev_t := match registry_start 15 pdev0 with Some (_, s) => s | None => pdev0 end.
Definition run1 : pdev_t := Eval vm_compute in after (run_op osif_ok 15 (OpVdevAttach ap_mac 1)) run0.
Definition run2 : pdev_t := Eval vm_compute in after (run_op osif_ok 15 (OpPeerAttach 1 sta_mac 2)) run1.
Definition run3 : pdev_t := Eval vm_compute in after (run_op osif_ok 15 (OpMap 4 sta_mac)) run2.
Definition run4 : pdev_t := Eval vm_compute in after (run_op osif_ok 15 (OpFind sta_mac true)) run3.
Definition run5 : pdev_t := Eval vm_compute in after (run_op osif_ok 15 (OpPeerDetach 2)) run4.
Definition run6 : pdev_t := Eval vm_compute in after (run_op osif_ok 15 (OpUnmap 4)) run5.
Definition run7 : pdev_t := Eval vm_compute in after (run_op osif_ok 15 (OpVdevDetach 1 true)) run6.

Lemma run4_reach : reach osif_ok 15 run4 [2%positive].
Proof.
  eapply (reach_step osif_ok 15 run3 [] (OpFind sta_mac true) (Some 2%positive)); [|exact I|vm_compute; reflexivity].
  eapply (reach_step osif_ok 15 run2 [] (OpMap 4 sta_mac) None); [|split; [reflexivity|discriminate]|vm_compute; reflexivity].
  eapply (reach_step osif_ok 15 run1 [] (OpPeerAttach 1 sta_mac 2) None);
    [|split; [eexists; reflexivity|reflexivity]|vm_compute; reflexivity].
  eapply (reach_step osif_ok 15 run0 [] (OpVdevAttach ap_mac 1) None); [|reflexivity|vm_compute; reflexivity].
  apply reach_start. vm_compute. reflexivity.
Qed.

Lemma run7_reach : reach osif_ok 15 run7 [2%positive].
Proof.
  eapply (reach_step osif_ok 15 run6 [2%positive] (OpVdevDetach 1 true) None);
    [|eexists; split; reflexivity|vm_compute; reflexivity].
  eapply (reach_step osif_ok 15 run5 [2%positive] (OpUnmap 4) None);
    [|split; [eexists; reflexivity|discriminate]|vm_compute; reflexivity].
  eapply (reach_step osif_ok 15 run4 [2%positive] (OpPeerDetach 2) None);
    [apply run4_reach|eexists; split; reflexivity|vm_compute; reflexivity].
Qed.

(** * Theorems *)

(** C5. From the attachment of a pdev, with operations one at a time, every one that
    the callers may perform runs: no pointer that the registry follows dangles, no entry is
    taken from a list it is not in, nothing is freed twice, and every loop
    ends. *)
Theorem registry_never_faults osif max_peer_id s held op :
  0 ≤ max_peer_id < 2 ^ 16 → reach osif max_peer_id s held → allowed max_peer_id s held op →
  is_Some (run_op osif max_peer_id op s).
Proof.
  intros Hmax Hr Ha. destruct (step_ok osif max_peer_id s held op) as (r & s' & Hrun & _).
  - by eapply reach_ok.
  - done.
  - by exists (r, s').
Qed.

(** C4. In every registry that the operations, one at a time, reach, a pointer to a
    peer kept anywhere (in a bin, in the list of a virtual device, in either
    identifier map, as a last real peer, by a caller of a lookup) names a peer that
    exists; and every peer is in the bin of its address and also in the list of its
    own virtual device, and its reference count is positive and counts exactly its
    attachment, the reference kept until an identifier is mapped to it, the entries
    of the identifier map, and the references that callers hold. *)
Theorem registry_references osif max_peer_id s held :
  0 ≤ max_peer_id < 2 ^ 16 → reach osif max_peer_id s held →
  (∀ p, pointed_to s held p → is_Some (peers s !! p)) ∧
  (∀ p x, peers s !! p = Some x → in_own_bin s p x ∧ in_own_vdev s p x ∧ 0 < ref_cnt x ∧
    ref_cnt x = Z.b2z (valid x) + Z.b2z (fresh x) + occ (Some p) (peer_id_to_obj_map s) + occ p held).
Proof.
  intros Hmax Hr. pose proof (reach_ok _ _ _ _ Hmax Hr) as Hg. split.
  - intros p. by apply pointed_to_live.
  - intros p x Hx. destruct (peer_linked s held p x Hg Hx) as [Hb Hv].
    destruct (rc_count _ _ (rg_refs _ _ _ _ Hg) p x Hx) as [He Hpos]. by split_and!.
Qed.

(** C22. Giving back a reference deletes the peer exactly when it was the last
    one: the other peers stay as they are, a virtual device whose deletion waited
    for its peers goes with the last of them, and no other goes. *)
Theorem last_reference_deletes osif max_peer_id s held p x :
  0 ≤ max_peer_id < 2 ^ 16 → reach osif max_peer_id s held → p ∈ held → peers s !! p = Some x →
  ∃ s', ol_txrx_peer_unref_delete p s = Some (tt, s') ∧
    if decide (ref_cnt x = 1)
    then peers s' = delete p (peers s) ∧ ¬ pointed_to s' [] p ∧
      (∀ v y, vdevs s !! v = Some y → vdevs s' !! v = None ↔ delete_pending y = true ∧ ¬ has_peers s' v)
    else peers s' = <[p := set_ref_cnt (ref_cnt x - 1) x]> (peers s) ∧ vdevs s' = vdevs s.
Proof.
  intros Hmax Hr Hp Hx. pose proof (reach_ok _ _ _ _ Hmax Hr) as Hg.
  assert (registry_ok s (p :: default held (remove_one p held))) as Hg'.
  { eapply registry_held; [|done]. intros q. by apply remove_held. }
  destruct (unref_delete_ok s _ p x Hx Hg') as ([] & s' & Hrun & Hg2 & Hd). exists s'. split; [done|].
  destruct (decide (ref_cnt x = 1)).
  - pose proof (dd_peers _ _ _ Hd) as Hps. split_and!; [done| |].
    + intros Hpt. destruct (pointed_to_live s' (default held (remove_one p held)) p Hg2) as [x' Hx'].
      { destruct Hpt as [?|[?|[?|[?|[]%elem_of_nil]]]]; unfold pointed_to; auto. }
      rewrite Hps, lookup_delete_eq in Hx'. done.
    + intros v y Hy. destruct (dd_vdevs _ _ _ Hd) as [Hkept Hgone]. split.
      * intros Hn. split; [by eapply Hgone|]. intros (p' & x' & Hx' & <-).
        destruct (lo_owner _ _ _ (proj1 (rg_lists _ _ _ _ Hg2)) p' x' Hx') as [y' Hy']; [done|]. congruence.
      * intros [Hpend Hno]. destruct (vdevs s' !! v) as [y'|] eqn:Hy'; [|done]. exfalso. apply Hno.
        destruct (Hkept v y' Hy') as (y0 & Hy0 & _ & _ & He). assert (y0 = y) as -> by congruence.
        destruct (proj2 (rg_lists _ _ _ _ Hg2) v y' Hy') as (p' & x' & ? & ? & _); [congruence|]. by exists p', x'.
  - subst s'. split; [|done]. cbn. by rewrite (alter_alt_Some _ _ _ x Hx).
Qed.

(** C23. Erasing the table when the driver is unloaded ends, and deletes every
    peer whatever its references: the bins that a peer is deleted from are those
    that the loop is walking. Of the virtual devices, those that waited for their
    peers are gone. *)
Theorem hash_erase_ends osif max_peer_id s held :
  0 ≤ max_peer_id < 2 ^ 16 → reach osif max_peer_id s held →
  ∃ s', ol_txrx_peer_find_hash_erase s = Some (tt, s') ∧ peers s' = ∅ ∧
    (∀ i q, hash_bins s' !! i = Some q → TAILQ_EMPTY q = true) ∧
    (∀ v y, vdevs s !! v = Some y → vdevs s' !! v = None ↔ delete_pending y = true).
Proof.
  intros Hmax Hr. pose proof (reach_ok _ _ _ _ Hmax Hr) as Hg.
  destruct (hash_erase_ok s (rg_lists _ _ _ _ Hg)) as ([] & s' & Hrun & [Hl Hp] & _ & [Hkept Hgone] & Hps).
  exists s'. split_and!; [done|done| |].
  - intros i q Hq. destruct (lo_bins _ _ _ Hl _ _ Hq) as (l & Hrep & Hin). rewrite (TAILQ_EMPTY_rep _ _ Hrep).
    apply bool_decide_eq_true. destruct l as [|p l]; [done|].
    destruct (proj1 (Hin p)) as (_ & x & Hx & _); [by left|]. by rewrite Hps, lookup_empty in Hx.
  - intros v y Hy. split; [by apply Hgone|]. intros Hpend. destruct (vdevs s' !! v) as [y'|] eqn:Hy'; [|done]. exfalso.
    destruct (Hkept v y' Hy') as (y0 & Hy0 & _ & _ & He). assert (y0 = y) as -> by congruence.
    destruct (Hp v y' Hy') as (p & x & Hx & _); [congruence|]. by rewrite Hps, lookup_empty in Hx.
Qed.

(** [ol_txrx_peer_attach] refuses an address that a peer of the virtual
    device has, unless every such peer is being detached, and then it waits for
    their deletion; otherwise it goes on. *)
Theorem attach_refuses_duplicates osif max_peer_id s held v mac :
  0 ≤ max_peer_id < 2 ^ 16 → reach osif max_peer_id s held → is_Some (vdevs s !! v) →
  ∃ r s', ol_txrx_peer_attach_check v mac s = Some (r, s') ∧ peers s' = peers s ∧
    let same x := peer_vdev x = v ∧ peer_mac x = mac in
    match r with
    | AttachGo => ∀ p x, peers s !! p = Some x → ¬ same x
    | AttachWait => (∃ p x, peers s !! p = Some x ∧ same x) ∧
        ∀ p x, peers s !! p = Some x → same x → delete_in_progress x ≠ 0
    | AttachRefused => ∃ p x, peers s !! p = Some x ∧ same x ∧ delete_in_progress x = 0
    end.
Proof.
  intros Hmax Hr [y Hy]. pose proof (reach_ok _ _ _ _ Hmax Hr) as Hg.
  destruct (attach_check_ok s held v mac y Hg Hy) as (r & s' & Hrun & _ & Hps & _ & l & Hrep & Hres).
  exists r, s'. split_and!; [done|done|]. cbv zeta.
  destruct (lo_peer_list _ _ _ (proj1 (rg_lists _ _ _ _ Hg)) _ _ Hy) as (l' & Hrep' & Hin).
  pose proof (rep_inj _ _ _ Hrep Hrep') as <-.
  assert (∀ x, x ∈ older s mac l ↔ ∃ p, peers s !! p = Some x ∧ peer_vdev x = v ∧ peer_mac x = mac) as Hold.
  { intros x. unfold older. rewrite list_elem_of_filter, list_elem_of_omap. split.
    - intros (Hm & p & (_ & x' & Hx' & Hv)%Hin & Hx). exists p. split_and!; congruence.
    - intros (p & Hx & Hv & Hm). split; [done|]. exists p. split; [|done]. apply Hin. split; [done|]. by exists x. }
  unfold check_result in Hres. destruct (decide _) as [He|Hne]; subst r.
  - apply Exists_exists in He as (x & (p & Hx & ? & ?)%Hold & Hz). by exists p, x.
  - assert (∀ p x, peers s !! p = Some x → peer_vdev x = v ∧ peer_mac x = mac → x ∈ older s mac l) as Hmem.
    { intros p x Hx [? ?]. apply Hold. by exists p. }
    cbn [orb]. case_bool_decide as Hnil; cbn [negb].
    + intros p x Hx Hs. pose proof (Hmem p x Hx Hs) as Hx2. rewrite Hnil in Hx2. by apply elem_of_nil in Hx2.
    + split.
      * destruct (older s mac l) as [|x xs] eqn:Eo; [done|]. destruct (proj1 (Hold x)) as (p & Hx & ? & ?); [by left|].
        by exists p, x.
      * intros p x Hx Hs H0. apply Hne, Exists_exists. exists x. split; [by eapply Hmem|done].
Qed.

(** A local identifier names the peer it was given to, as long as that peer
    is attached, and nothing after that. *)
Theorem local_ids_name_peers osif max_peer_id s held i :
  0 ≤ max_peer_id < 2 ^ 16 → reach osif max_peer_id s held → 0 ≤ i →
  ∃ o, ol_txrx_peer_find_by_local_id i s = Some (o, s) ∧
    ∀ p, o = Some p ↔ i ≠ OL_TXRX_INVALID_LOCAL_PEER_ID ∧
      ∃ x, peers s !! p = Some x ∧ valid x = true ∧ local_id x = i.
Proof.
  intros Hmax Hr Hi. by apply (find_by_local_id_run s held), Hi; eapply reach_ok.
Qed.

(** * Witnesses *)

Lemma small_map : 0 ≤ 15 < 2 ^ 16.
Proof. lia. Qed.

Lemma registry_never_faults_witness : is_Some (run_op osif_ok 15 (OpUnref 2) run7).
Proof.
  refine (registry_never_faults osif_ok 15 run7 [2%positive] (OpUnref 2) small_map run7_reach _). by left.
Defined.

Lemma registry_references_witness :
  (∀ p, pointed_to run4 [2%positive] p → is_Some (peers run4 !! p)) ∧
  (∀ p x, peers run4 !! p = Some x → in_own_bin run4 p x ∧ in_own_vdev run4 p x ∧ 0 < ref_cnt x ∧
    ref_cnt x = Z.b2z (valid x) + Z.b2z (fresh x) + occ (Some p) (peer_id_to_obj_map run4) + occ p [2%positive]).
Proof. exact (registry_references osif_ok 15 run4 [2%positive] small_map run4_reach). Defined.

(** The last reference of a peer of a virtual device that waits for it *)
Definition last_peer : ol_txrx_peer_t := Eval vm_compute in default (new_peer 1 sta_mac) (peers run7 !! 2%positive).

Lemma last_reference_deletes_witness : ref_cnt last_peer = 1 ∧
  ∃ s', ol_txrx_peer_unref_delete 2 run7 = Some (tt, s') ∧
    if decide (ref_cnt last_peer = 1)
    then peers s' = delete 2%positive (peers run7) ∧ ¬ pointed_to s' [] 2 ∧
      (∀ v y, vdevs run7 !! v = Some y → vdevs s' !! v = None ↔ delete_pending y = true ∧ ¬ has_peers s' v)
    else peers s' = <[2%positive := set_ref_cnt (ref_cnt last_peer - 1) last_peer]> (peers run7) ∧ vdevs s' = vdevs run7.
Proof.
  split; [reflexivity|].
  refine (last_reference_deletes osif_ok 15 run7 [2%positive] 2 last_peer small_map run7_reach _ _); [by left|].
  vm_compute. reflexivity.
Defined.

Lemma hash_erase_ends_witness :
  ∃ s', ol_txrx_peer_find_hash_erase run7 = Some (tt, s') ∧ peers s' = ∅ ∧
    (∀ i q, hash_bins s' !! i = Some q → TAILQ_EMPTY q = true) ∧
    (∀ v y, vdevs run7 !! v = Some y → vdevs s' !! v = None ↔ delete_pending y = true).
Proof. exact (hash_erase_ends osif_ok 15 run7 [2%positive] small_map run7_reach). Defined.

Lemma attach_refuses_duplicates_witness :
  ∃ r s', ol_txrx_peer_attach_check 1 sta_mac run4 = Some (r, s') ∧ peers s' = peers run4 ∧
    let same x := peer_vdev x = 1%positive ∧ peer_mac x = sta_mac in
    match r with
    | AttachGo => ∀ p x, peers run4 !! p = Some x → ¬ same x
    | AttachWait => (∃ p x, peers run4 !! p = Some x ∧ same x) ∧
        ∀ p x, peers run4 !! p = Some x → same x → delete_in_progress x ≠ 0
    | AttachRefused => ∃ p x, peers run4 !! p = Some x ∧ same x ∧ delete_in_progress x = 0
    end.
Proof.
  refine (attach_refuses_duplicates osif_ok 15 run4 [2%positive] 1 sta_mac small_map run4_reach _).
  vm_compute. eexists. reflexivity.
Defined.

Lemma local_ids_name_peers_witness :
  ∃ o, ol_txrx_peer_find_by_local_id 0 run4 = Some (o, run4) ∧
    ∀ p, o = Some p ↔ 0 ≠ OL_TXRX_INVALID_LOCAL_PEER_ID ∧
      ∃ x, peers run4 !! p = Some x ∧ valid x = true ∧ local_id x = 0.
Proof. refine (local_ids_name_peers osif_ok 15 run4 [2%positive] 0 small_map run4_reach _). lia. Defined.

(** The run that the witnesses take: a wait ends with the virtual device gone. *)
Example run7_ends : (log run7, peers <$> (snd <$> ol_txrx_peer_unref_delete 2 run7)) =
  ([EvDropRxpkt 0], Some ∅).
Proof. vm_compute. reflexivity. Qed.

(** The wait for the deletion of an older peer is read the wrong way round: when the
    deletion is reported in time the attachment gives up, when it is not the new
    peer is attached beside the old one. *)
Example wait_is_inverted :
  (fst <$> ol_txrx_peer_attach_wait 1 CDF_STATUS_SUCCESS run4,
   fst <$> ol_txrx_peer_attach_wait 1 CDF_STATUS_E_TIMEOUT run4) = (Some false, Some true).
Proof. vm_compute. reflexivity. Qed.

(** * Where the registry depends on its callers *)

(** The handlers of the target's messages do not compare the identifier with the
    size of the map: a message that unmaps [HTT_INVALID_PEER], or any identifier
    past the end, writes outside it. *)
Theorem unmap_out_of_range s peer_id : id_entry s peer_id = None → ol_rx_peer_unmap_handler peer_id s = None.
Proof.
  intros He. unfold ol_rx_peer_unmap_handler, write_id_map, read_id_map, id_entry in *.
  destruct (peer_id =? HTT_INVALID_PEER); [mstep; by rewrite He|mstep; by rewrite He].
Qed.

(** A message that maps an identifier already in use replaces the entry, and
    nobody is left to give back the reference of the peer it named. *)
Definition run_remap : pdev_t :=
  Eval vm_compute in after (run_op osif_ok 15 (OpPeerAttach 1 ap_mac 3)) run3.

Example remap_leaks :
  let s := after (run_op osif_ok 15 (OpPeerDetach 2)) (after (run_op osif_ok 15 (OpMap 4 ap_mac)) run_remap) in
  peer_id_to_obj_map s !! 4%nat = Some (Some 3%positive) ∧ Some 2%positive ∉ peer_id_to_obj_map s ∧
  ref_cnt <$> peers s !! 2%positive = Some 1.
Proof. vm_compute. split; [reflexivity|]. split; [|reflexivity]. set_solver. Qed.
