(* ===== verification/LimAid.v ===== *)
(** Association identifiers: [core/mac/src/pe/lim/lim_aid_mgmt.c], with the
    count of the stations of [lim_session_utils.c].

    A session keeps its free identifiers as a list threaded through a byte
    array: [gpLimPeerIdxpool[i]] is the identifier after [i], 0 ends the list.
    The build has [FEATURE_WLAN_TDLS] and [QCA_IBSS_SUPPORT].  Sessions are
    named by their index in [gpSession]. *)
From S2P Require Import Prelude.

(** * Data *)

Inductive lim_system_role : Type :=
| eLIM_UNKNOWN_ROLE
| eLIM_AP_ROLE
| eLIM_STA_IN_IBSS_ROLE
| eLIM_STA_ROLE
| eLIM_P2P_DEVICE_ROLE
| eLIM_P2P_DEVICE_GO
| eLIM_P2P_DEVICE_CLIENT.

#[export] Instance lim_system_role_eq_dec : EqDecision lim_system_role.
Proof. solve_decision. Defined.

(** The members of [tPESession] that the identifiers use. *)
Record pe_session : Type := mk_pe_session {
  valid : bool;
  limSystemRole : lim_system_role;
  gpLimPeerIdxpool : list Z;
  freePeerIdxHead : Z;
  freePeerIdxTail : Z;
  gLimNumOfCurrentSTAs : Z;
}.

Definition set_valid (v : bool) (r : pe_session) : pe_session :=
  mk_pe_session v (limSystemRole r) (gpLimPeerIdxpool r) (freePeerIdxHead r) (freePeerIdxTail r) (gLimNumOfCurrentSTAs r).
Definition set_limSystemRole (v : lim_system_role) (r : pe_session) : pe_session :=
  mk_pe_session (valid r) v (gpLimPeerIdxpool r) (freePeerIdxHead r) (freePeerIdxTail r) (gLimNumOfCurrentSTAs r).
Definition set_gpLimPeerIdxpool (v : list Z) (r : pe_session) : pe_session :=
  mk_pe_session (valid r) (limSystemRole r) v (freePeerIdxHead r) (freePeerIdxTail r) (gLimNumOfCurrentSTAs r).
Definition set_freePeerIdxHead (v : Z) (r : pe_session) : pe_session :=
  mk_pe_session (valid r) (limSystemRole r) (gpLimPeerIdxpool r) v (freePeerIdxTail r) (gLimNumOfCurrentSTAs r).
Definition set_freePeerIdxTail (v : Z) (r : pe_session) : pe_session :=
  mk_pe_session (valid r) (limSystemRole r) (gpLimPeerIdxpool r) (freePeerIdxHead r) v (gLimNumOfCurrentSTAs r).
Definition set_gLimNumOfCurrentSTAs (v : Z) (r : pe_session) : pe_session :=
  mk_pe_session (valid r) (limSystemRole r) (gpLimPeerIdxpool r) (freePeerIdxHead r) (freePeerIdxTail r) v.

(** The members of [pMac->lim]; [maxBssId] is the number of sessions. *)
Record lim_state : Type := mk_lim_state {
  gpSession : list pe_session;
  gLimAssocStaLimit : Z;
  gLimIbssStaLimit : Z;
}.

Definition set_gpSession (v : list pe_session) (r : lim_state) : lim_state :=
  mk_lim_state v (gLimAssocStaLimit r) (gLimIbssStaLimit r).
Definition set_gLimAssocStaLimit (v : Z) (r : lim_state) : lim_state :=
  mk_lim_state (gpSession r) v (gLimIbssStaLimit r).
Definition set_gLimIbssStaLimit (v : Z) (r : lim_state) : lim_state :=
  mk_lim_state (gpSession r) (gLimAssocStaLimit r) v.

Definition LIM_START_PEER_IDX : Z := 1.
Definition DPH_STA_HASH_INDEX_PEER : Z := 1.

(** * Memory *)

Definition get_session (k : nat) : CM lim_state pe_session :=
  o ← gets (λ s, gpSession s !! k); deref o.

Definition mod_session (k : nat) (f : pe_session → pe_session) : CM lim_state unit :=
  e ← get_session k; modify (λ s, set_gpSession (<[k := f e]> (gpSession s)) s).

Definition read_pool (e : pe_session) (i : Z) : CM lim_state Z := deref (gpLimPeerIdxpool e !! Z.to_nat i).

(** [gpLimPeerIdxpool[i] = v] *)
Definition write_pool (k : nat) (i v : Z) : CM lim_state unit :=
  e ← get_session k;
  if decide (Z.to_nat i < length (gpLimPeerIdxpool e))%nat
  then mod_session k (λ e, set_gpLimPeerIdxpool (<[Z.to_nat i := v]> (gpLimPeerIdxpool e)) e)
  else ub.

(** * Operations *)

(** The loop that links identifier [i] to [i + 1], and its final index. *)
Fixpoint link_loop (fuel : nat) (k : nat) (i max : Z) : CM lim_state Z :=
  match fuel with
  | O => ub
  | S fuel =>
      if i <? max then write_pool k i (u8 (i + 1));; link_loop fuel k (u8 (i + 1)) max
      else mret i
  end.

Definition lim_init_peer_idxpool (k : nat) : CM lim_state unit :=
  limit ← gets gLimAssocStaLimit;
  ibss ← gets gLimIbssStaLimit;
  e ← get_session k;
  write_pool k 0 0;;
  let first := if decide (limSystemRole e = eLIM_STA_ROLE) then DPH_STA_HASH_INDEX_PEER + 1 else LIM_START_PEER_IDX in
  let max := if decide (limSystemRole e = eLIM_STA_IN_IBSS_ROLE) then ibss else u8 limit in
  mod_session k (set_freePeerIdxHead first);;
  i ← link_loop 256 k first max;
  write_pool k i 0;;
  mod_session k (set_freePeerIdxTail i).

Fixpoint count_loop (l : list pe_session) (stacount : Z) : Z :=
  match l with
  | [] => stacount
  | e :: l => count_loop l (if valid e then u8 (stacount + gLimNumOfCurrentSTAs e) else stacount)
  end.

Definition pe_get_current_stas_count : CM lim_state Z := gets (λ s, count_loop (gpSession s) 0).

Definition lim_assign_peer_idx (k : nat) : CM lim_state Z :=
  count ← pe_get_current_stas_count;
  limit ← gets gLimAssocStaLimit;
  if count >=? limit then mret 0
  else
    e ← get_session k;
    let peerId := freePeerIdxHead e in
    if peerId =? 0 then mret 0
    else
      next ← read_pool e peerId;
      mod_session k (set_freePeerIdxHead next);;
      when (next =? 0) (mod_session k (set_freePeerIdxTail 0));;
      mod_session k (λ e, set_gLimNumOfCurrentSTAs (u16 (gLimNumOfCurrentSTAs e + 1)) e);;
      mret peerId.

Definition lim_release_peer_idx (peerIdx : Z) (k : nat) : CM lim_state unit :=
  mod_session k (λ e, set_gLimNumOfCurrentSTAs (u16 (gLimNumOfCurrentSTAs e - 1)) e);;
  e ← get_session k;
  (if freePeerIdxTail e =? 0
   then mod_session k (λ e, set_freePeerIdxTail (u8 peerIdx) (set_freePeerIdxHead (u8 peerIdx) e))
   else
     write_pool k (freePeerIdxTail e) (u8 peerIdx);;
     mod_session k (set_freePeerIdxTail (u8 peerIdx)));;
  write_pool k (u8 peerIdx) 0.
