(* ===== verification/LimAidProofs.v ===== *)
(** Association identifiers: the byte array holds a queue.

    A session's free identifiers are served first in, first out; the
    identifiers given out and the free ones are always the same set, and the
    stations of all sessions together never exceed the limit. *)
From S2P Require Import Prelude LimAid.

(** * The threaded list *)

(** An identifier that the array can hold *)
Definition aid_ok (pool : list Z) (i : Z) : Prop := 0 < i < 256 ∧ (Z.to_nat i < length pool)%nat.

Definition aid_rep (e : pe_session) (q out : list Z) : Prop :=
  chain 0 (gpLimPeerIdxpool e) (freePeerIdxHead e) q ∧ freePeerIdxTail e = default 0 (last q) ∧
  gLimNumOfCurrentSTAs e = Z.of_nat (length out) ∧ NoDup (q ++ out) ∧
  Forall (aid_ok (gpLimPeerIdxpool e)) (q ++ out).

(** Appending an identifier at the tail. *)
Lemma chain_snoc pool h q t x :
  chain 0 pool h (q ++ [t]) → Forall (aid_ok pool) (q ++ [t]) → aid_ok pool x → NoDup (q ++ [t]) → x ∉ q ++ [t] →
  chain 0 (<[Z.to_nat x := 0]> (<[Z.to_nat t := x]> pool)) h (q ++ [t; x]).
Proof.
  revert h. induction q as [|y q IH]; intros h Hc Hok [Hx Hxl] Hnd Hin; cbn in *.
  - destruct Hc as (-> & n & Hn & _). apply Forall_cons in Hok as [[Ht Htl] _].
    split; [done|]. exists x. rewrite list_lookup_insert_ne by (set_solver by lia).
    rewrite list_lookup_insert_eq by done. split; [done|]. split; [done|]. exists 0.
    by rewrite list_lookup_insert_eq by (rewrite length_insert; lia).
  - destruct Hc as (-> & n & Hn & Hc). apply Forall_cons in Hok as [[Hy Hyl] Hok].
    apply NoDup_cons in Hnd as [Hy' Hnd]. apply not_elem_of_cons in Hin as [Hxy Hin].
    split; [done|]. exists n. rewrite Forall_app, Forall_singleton in Hok. destruct Hok as [Hok [Ht Htl]].
    assert (y ≠ t) by set_solver. rewrite !list_lookup_insert_ne by lia. split; [done|].
    apply IH; try done. apply Forall_app. by rewrite Forall_singleton.
Qed.

(** * The stations of all sessions *)

Definition station_lists : Type := option (list Z * list Z).

Definition stations (o : station_lists) : Z :=
  match o with Some (_, out) => Z.of_nat (length out) | None => 0 end.

Definition total (Q : list station_lists) : Z := foldr (λ o n, stations o + n) 0 Q.

Lemma total_cons o Q : total (o :: Q) = stations o + total Q.
Proof. done. Qed.

Lemma stations_nonneg o : 0 ≤ stations o.
Proof. destruct o as [[]|]; cbn; lia. Qed.

Lemma total_nonneg Q : 0 ≤ total Q.
Proof. induction Q as [|o Q IH]; [done|]. rewrite total_cons. pose proof (stations_nonneg o). lia. Qed.

Lemma total_insert Q k o o' : Q !! k = Some o → total (<[k := o']> Q) = total Q - stations o + stations o'.
Proof.
  revert k. induction Q as [|x Q IH]; intros [|k] Hk; cbn [list_insert] in *; simplify_eq/=;
    rewrite ?total_cons; [lia|]. cbn in Hk. specialize (IH k Hk). change (list_insert k o' Q) with (<[k := o']> Q).
  lia.
Qed.

Definition session_rep (e : pe_session) (o : station_lists) : Prop :=
  match o with
  | Some (q, out) => valid e = true ∧ aid_rep e q out
  | None => valid e = false
  end.

(** The sessions hold the lists [Q]; the limit is one that a byte can count. *)
Definition lim_rep (s : lim_state) (Q : list station_lists) : Prop :=
  Forall2 session_rep (gpSession s) Q ∧ total Q < 256 ∧ gLimAssocStaLimit s < 256.

Lemma count_loop_total l Q c :
  Forall2 session_rep l Q → 0 ≤ c → c + total Q < 256 → count_loop l c = c + total Q.
Proof.
  intros H. revert c. induction H as [|e o l Q He H IH]; intros c Hc Hlt; [unfold total; cbn; lia|].
  rewrite total_cons in *. pose proof (total_nonneg Q). cbn [count_loop].
  destruct o as [[q out]|]; cbn in He |- *.
  - destruct He as (-> & _ & _ & -> & _). cbn in Hlt. rewrite wrap_small by lia. rewrite IH by lia. lia.
  - rewrite He. cbn in Hlt. rewrite IH by lia. lia.
Qed.

(** * The abstract operations *)

Inductive aid_op : Type :=
| AidAssign (k : nat)
| AidRelease (k : nat) (id : Z).

Definition aid_run1 (op : aid_op) : CM lim_state Z :=
  match op with
  | AidAssign k => lim_assign_peer_idx k
  | AidRelease k id => lim_release_peer_idx id k;; mret 0
  end.

(** A queue per session: [None] is an operation on a session that is not
    valid, or the release of an identifier that is not given out. *)
Definition aid_spec (limit : Z) (op : aid_op) (Q : list station_lists) : option (Z * list station_lists) :=
  match op with
  | AidAssign k =>
      match Q !! k with
      | Some (Some (q, out)) =>
          if total Q >=? limit then Some (0, Q)
          else match q with
               | [] => Some (0, Q)
               | x :: q => Some (x, <[k := Some (q, x :: out)]> Q)
               end
      | _ => None
      end
  | AidRelease k id =>
      match Q !! k with
      | Some (Some (q, out)) =>
          if decide (id ∈ out) then Some (0, <[k := Some (q ++ [id], filter (λ i, i ≠ id) out)]> Q) else None
      | _ => None
      end
  end.

Lemma get_session_run s k e : gpSession s !! k = Some e → get_session k s = Some (e, s).
Proof. intros H. unfold get_session. mstep. by rewrite H. Qed.

Lemma mod_session_run s k e f : gpSession s !! k = Some e →
  mod_session k f s = Some (tt, set_gpSession (<[k := f e]> (gpSession s)) s).
Proof. intros H. unfold mod_session. by mrun (get_session_run _ _ _ H). Qed.

Lemma write_pool_run s k e i v : gpSession s !! k = Some e → (Z.to_nat i < length (gpLimPeerIdxpool e))%nat →
  write_pool k i v s = Some (tt, set_gpSession
    (<[k := set_gpLimPeerIdxpool (<[Z.to_nat i := v]> (gpLimPeerIdxpool e)) e]> (gpSession s)) s).
Proof.
  intros H Hi. unfold write_pool. mrun (get_session_run _ _ _ H). rewrite decide_True by done.
  by erewrite mod_session_run by exact H.
Qed.

Lemma session_insert s Q k e' o' :
  Forall2 session_rep (gpSession s) Q → session_rep e' o' →
  Forall2 session_rep (<[k := e']> (gpSession s)) (<[k := o']> Q).
Proof. intros H He. by apply Forall2_insert. Qed.

Lemma session_at s Q k q out :
  lim_rep s Q → Q !! k = Some (Some (q, out)) →
  ∃ e, gpSession s !! k = Some e ∧ valid e = true ∧ aid_rep e q out.
Proof.
  intros (H & _) Hk. destruct (Forall2_lookup_r _ _ _ _ _ H Hk) as (e & He & Hv & Hr). by exists e.
Qed.

Lemma twice s k e e' : set_gpSession (<[k := e']> (<[k := e]> (gpSession s))) s = set_gpSession (<[k := e']> (gpSession s)) s.
Proof. by rewrite list_insert_insert_eq. Qed.

(** * Assigning *)

Lemma aid_rep_take e x q out :
  aid_rep e (x :: q) out → Z.of_nat (length out) < 65535 →
  ∃ n, gpLimPeerIdxpool e !! Z.to_nat x = Some n ∧
    aid_rep (mk_pe_session (valid e) (limSystemRole e) (gpLimPeerIdxpool e) n
      (if n =? 0 then 0 else freePeerIdxTail e) (u16 (gLimNumOfCurrentSTAs e + 1))) q (x :: out) ∧ x ≠ 0.
Proof.
  intros (Hc & Ht & Hn & Hnd & Hok) Hlt. destruct Hc as (Hh & n & Hx & Hc). exists n. split; [done|].
  cbn in Hok. apply Forall_cons in Hok as [[Hx1 Hx2] Hok]. split; [|lia].
  assert (x :: q ++ out ≡ₚ q ++ x :: out) as Hp by by rewrite Permutation_middle.
  unfold aid_rep. cbn. split; [done|]. split; [|split; [rewrite Hn, wrap_small; lia|split]].
  - destruct q as [|y q]; cbn in Hc; [subst n; done|].
    destruct Hc as (-> & _). apply Forall_cons in Hok as [[Hy _] _].
    destruct (Z.eqb_spec y 0); [lia|]. rewrite Ht. by rewrite last_cons_cons.
  - by rewrite <- Hp.
  - rewrite <- Hp. constructor; [done|exact Hok].
Qed.

Lemma lim_assign_peer_idx_run s Q k r Q' :
  lim_rep s Q → aid_spec (gLimAssocStaLimit s) (AidAssign k) Q = Some (r, Q') →
  ∃ s', lim_assign_peer_idx k s = Some (r, s') ∧ lim_rep s' Q' ∧ gLimAssocStaLimit s' = gLimAssocStaLimit s.
Proof.
  intros HR. cbn [aid_spec]. destruct (Q !! k) as [[[q out]|]|] eqn:Hk; [|done..].
  destruct (session_at _ _ _ _ _ HR Hk) as (e & He & Hv & Hr). pose proof HR as (HF & Htot & Hlim).
  unfold lim_assign_peer_idx, pe_get_current_stas_count. mstep.
  rewrite (count_loop_total _ Q) by (done || lia). rewrite Z.add_0_l.
  destruct (total Q >=? gLimAssocStaLimit s) eqn:El.
  { intros [= <- <-]. by exists s. }
  rewrite Z.geb_leb in El. apply Z.leb_gt in El. mrun (get_session_run _ _ _ He). cbv zeta.
  destruct q as [|x q].
  - intros [= <- <-]. destruct Hr as (Hh & _). cbn in Hh. rewrite Hh. by exists s.
  - intros [= <- <-]. assert (Z.of_nat (length out) ≤ total Q) as Hout.
    { pose proof (total_nonneg (<[k:=None : station_lists]> Q)) as Hn0. rewrite (total_insert Q k _ None Hk) in Hn0.
      cbn [stations] in Hn0. lia. }
    destruct (aid_rep_take _ _ _ _ Hr ltac:(lia)) as (n & Hn & Hr' & Hx). destruct Hr as ((-> & _) & _).
    destruct (Z.eqb_spec x 0); [done|]. unfold read_pool. rewrite Hn. mstep.
    mrun (mod_session_run _ _ _ (set_freePeerIdxHead n) He).
    set (e1 := mk_pe_session (valid e) (limSystemRole e) (gpLimPeerIdxpool e) n
      (if n =? 0 then 0 else freePeerIdxTail e) (gLimNumOfCurrentSTAs e)).
    assert ((when (n =? 0) (mod_session k (set_freePeerIdxTail 0)))
      (set_gpSession (<[k := set_freePeerIdxHead n e]> (gpSession s)) s) =
      Some (tt, set_gpSession (<[k := e1]> (gpSession s)) s)) as Hw.
    { unfold e1. destruct (n =? 0); cbn [when]; [|done].
      erewrite mod_session_run by (cbn; apply list_lookup_insert_eq; by eapply lookup_lt_Some). cbn. by rewrite list_insert_insert_eq. }
    mrun Hw. erewrite run_bind by (apply mod_session_run; cbn; apply list_lookup_insert_eq; by eapply lookup_lt_Some).
    cbn [gpSession set_gpSession]. rewrite list_insert_insert_eq. eexists. split; [done|]. split; [|done].
    split; [|split; [|done]]; cbn.
    + apply session_insert; [done|]. split; [done|exact Hr'].
    + rewrite (total_insert _ _ _ _ Hk). cbn. lia.
Qed.

(** * Releasing *)

Lemma filter_out_perm (out : list Z) id : NoDup out → id ∈ out → id :: filter (λ i, i ≠ id) out ≡ₚ out.
Proof.
  intros Hnd (l1 & l2 & ->)%list_elem_of_split. apply NoDup_app in Hnd as (_ & Hd & [Hd2 _]%NoDup_cons).
  assert (∀ l : list Z, id ∉ l → filter (λ i, i ≠ id) l = l) as Hid.
  { induction l as [|y l IH]; intros Hin; [done|]. apply not_elem_of_cons in Hin as [Hy Hin].
    rewrite filter_cons_True by congruence. by rewrite IH. }
  rewrite filter_app, filter_cons_False by (intros H; by apply H).
  rewrite !Hid; [by rewrite Permutation_middle|done|]. intros Hin. apply (Hd id Hin). by left.
Qed.

Lemma aid_ok_insert pool i v x : aid_ok pool x → aid_ok (<[i := v]> pool) x.
Proof. unfold aid_ok. by rewrite length_insert. Qed.

(** The session after a release, the count excepted *)
Definition released_session (e : pe_session) (id : Z) : pe_session :=
  if freePeerIdxTail e =? 0
  then mk_pe_session (valid e) (limSystemRole e) (<[Z.to_nat id := 0]> (gpLimPeerIdxpool e)) id id (gLimNumOfCurrentSTAs e)
  else mk_pe_session (valid e) (limSystemRole e)
         (<[Z.to_nat id := 0]> (<[Z.to_nat (freePeerIdxTail e) := id]> (gpLimPeerIdxpool e)))
         (freePeerIdxHead e) id (gLimNumOfCurrentSTAs e).

Lemma aid_rep_release e q out id :
  aid_rep e q out → id ∈ out →
  aid_rep (set_gLimNumOfCurrentSTAs (gLimNumOfCurrentSTAs e - 1) (released_session e id)) (q ++ [id])
    (filter (λ i, i ≠ id) out).
Proof.
  intros (Hc & Ht & Hn & Hnd & Hok) Hid. pose proof (proj1 (proj2 (proj1 (NoDup_app _ _) Hnd))) as Hd.
  pose proof (proj2 (proj2 (proj1 (NoDup_app _ _) Hnd))) as Hndo. pose proof (filter_out_perm _ _ Hndo Hid) as Hp.
  assert ((q ++ [id]) ++ filter (λ i, i ≠ id) out ≡ₚ q ++ out) as Hperm by (rewrite <- (assoc_L (++)); by rewrite <- Hp at 2).
  assert (id ∉ q) as Hq by (intros Hin; by apply (Hd id)).
  assert (aid_ok (gpLimPeerIdxpool e) id) as Hi by (rewrite Forall_forall in Hok; apply Hok; set_solver).
  assert (gLimNumOfCurrentSTAs e - 1 = Z.of_nat (length (filter (λ i, i ≠ id) out))) as Hlen
    by (pose proof (Permutation_length Hp) as Hl; cbn [length] in Hl; rewrite Hn; lia).
  unfold aid_rep, released_session. rewrite last_snoc. cbn [default]. destruct q as [|y q _] using rev_ind.
  - cbn in Hc, Ht. rewrite Ht. cbn. split; [split; [done|]|split_and!; try done].
    + exists 0. by rewrite list_lookup_insert_eq by apply Hi.
    + by rewrite Hperm.
    + rewrite Hperm. eapply Forall_impl; [exact Hok|]. intros x. apply aid_ok_insert.
  - rewrite last_snoc in Ht. cbn in Ht. apply Forall_app in Hok as [Hokq Hoko].
    assert (aid_ok (gpLimPeerIdxpool e) y) as Hy by (rewrite Forall_forall in Hokq; apply Hokq; set_solver).
    rewrite Ht. destruct (Z.eqb_spec y 0) as [->|Hy0]; [destruct Hy; lia|]. cbn. split_and!; try done.
    + rewrite <- (assoc_L (++)). apply chain_snoc; try done. by apply NoDup_app in Hnd as [].
    + by rewrite Hperm.
    + rewrite Hperm. apply (Forall_impl (aid_ok (gpLimPeerIdxpool e))); [by apply Forall_app|].
      intros x Hx. by do 2 apply aid_ok_insert.
Qed.

Lemma lim_release_peer_idx_run s Q k id r Q' :
  lim_rep s Q → aid_spec (gLimAssocStaLimit s) (AidRelease k id) Q = Some (r, Q') →
  ∃ s', aid_run1 (AidRelease k id) s = Some (r, s') ∧ lim_rep s' Q' ∧ gLimAssocStaLimit s' = gLimAssocStaLimit s.
Proof.
  intros HR. cbn [aid_spec aid_run1]. destruct (Q !! k) as [[[q out]|]|] eqn:Hk; [|done..].
  destruct (decide (id ∈ out)) as [Hid|]; [|done]. intros [= <- <-].
  destruct (session_at _ _ _ _ _ HR Hk) as (e & He & Hv & Hr). destruct HR as (HF & Htot & Hlim).
  assert (aid_ok (gpLimPeerIdxpool e) id) as [Hi Hil].
  { destruct Hr as (_ & _ & _ & _ & Hok). rewrite Forall_forall in Hok. apply Hok. set_solver. }
  assert (NoDup out) as Hnd by (destruct Hr as (_ & _ & _ & Hnd & _); by apply NoDup_app in Hnd as (_ & _ & ?)).
  pose proof (filter_out_perm _ _ Hnd Hid) as Hp. apply Permutation_length in Hp. cbn [length] in Hp.
  assert (Z.of_nat (length out) ≤ total Q) as Hout.
  { pose proof (total_nonneg (<[k:=None : station_lists]> Q)) as Hn0. rewrite (total_insert Q k _ None Hk) in Hn0.
    cbn [stations] in Hn0. lia. }
  assert (gLimNumOfCurrentSTAs e = Z.of_nat (length out)) as Hn by apply Hr.
  assert (∃ s', lim_release_peer_idx id k s = Some (tt, s') ∧ s' = set_gpSession
    (<[k := set_gLimNumOfCurrentSTAs (gLimNumOfCurrentSTAs e - 1) (released_session e id)]> (gpSession s)) s) as (s' & Hrun & ->).
  { eexists. split; [|done]. unfold lim_release_peer_idx.
    mrun (mod_session_run _ _ _ (λ e, set_gLimNumOfCurrentSTAs (u16 (gLimNumOfCurrentSTAs e - 1)) e) He).
    assert ((k < length (gpSession s))%nat) as Hkl by by eapply lookup_lt_Some.
    erewrite run_bind by (apply get_session_run; cbn; by apply list_lookup_insert_eq).
    cbn [freePeerIdxTail set_gLimNumOfCurrentSTAs]. rewrite (wrap_small 8 id), (wrap_small 16) by lia.
    unfold released_session. destruct (freePeerIdxTail e =? 0) eqn:Et.
    - erewrite run_bind by (apply mod_session_run; cbn; by apply list_lookup_insert_eq).
      erewrite write_pool_run; [|cbn; by rewrite list_insert_insert_eq, list_lookup_insert_eq|done].
      cbn. by rewrite !list_insert_insert_eq.
    - assert (Z.to_nat (freePeerIdxTail e) < length (gpLimPeerIdxpool e))%nat as Htl.
      { destruct Hr as (_ & Ht & _ & _ & Hok). destruct (last q) as [t|] eqn:El; cbn in Ht.
        - rewrite Ht. rewrite Forall_forall in Hok. apply Hok, elem_of_app. left. by apply last_Some_elem_of in El.
        - by rewrite Ht in Et. }
      erewrite run_bind; [|erewrite run_bind by (apply write_pool_run; [cbn; by apply list_lookup_insert_eq|done]);
        erewrite mod_session_run by (cbn; rewrite list_insert_insert_eq; by apply list_lookup_insert_eq); reflexivity].
      erewrite write_pool_run; [|cbn; rewrite !list_insert_insert_eq; by apply list_lookup_insert_eq|cbn; by rewrite length_insert].
      cbn. by rewrite !list_insert_insert_eq. }
  mrun Hrun. eexists. split; [done|]. split; [|done]. split; [|split; [|done]]; cbn [gpSession set_gpSession gLimAssocStaLimit].
  - apply session_insert; [done|]. split; [|by apply aid_rep_release].
    unfold released_session. by destruct (_ =? _).
  - rewrite (total_insert _ _ _ _ Hk). cbn. lia.
Qed.

(** * Starting *)

Lemma link_loop_run fuel k i max s e :
  gpSession s !! k = Some e → 0 < i < 256 → max < 256 →
  (Z.to_nat (Z.max i max) < length (gpLimPeerIdxpool e))%nat → Z.max i max - i < Z.of_nat fuel →
  ∃ pool, link_loop fuel k i max s = Some (Z.max i max,
      set_gpSession (<[k := set_gpLimPeerIdxpool pool e]> (gpSession s)) s) ∧
    length pool = length (gpLimPeerIdxpool e) ∧
    (∀ j, i ≤ j < max → pool !! Z.to_nat j = Some (j + 1)) ∧
    (∀ j, 0 ≤ j < i → pool !! Z.to_nat j = gpLimPeerIdxpool e !! Z.to_nat j).
Proof.
  revert i s e. induction fuel as [|fuel IH]; intros i s e He Hi Hm Hl Hf; cbn [link_loop].
  - exfalso. lia.
  - destruct (Z.ltb_spec i max).
    + erewrite run_bind by (apply write_pool_run; [exact He|lia]). rewrite wrap_small by lia.
      set (e1 := set_gpLimPeerIdxpool _ e). set (s1 := set_gpSession _ s).
      assert (gpSession s1 !! k = Some e1) as He1 by (apply list_lookup_insert_eq; by eapply lookup_lt_Some).
      destruct (IH (i + 1) s1 e1 He1) as (pool & Hr & Hlen & Hp1 & Hp2); [lia|lia| |lia|].
      { unfold e1. cbn. rewrite length_insert. lia. }
      unfold e1 in Hlen, Hp2. cbn in Hlen, Hp2. rewrite length_insert in Hlen.
      exists pool. rewrite Hr. split; [|split; [done|split]].
      * replace (Z.max (i + 1) max) with (Z.max i max) by lia. unfold s1, e1. cbn. by rewrite list_insert_insert_eq.
      * intros j Hj. destruct (decide (j = i)) as [->|Hne]; [|apply Hp1; lia].
        rewrite Hp2 by lia. rewrite list_lookup_insert_eq; [done|lia].
      * intros j Hj. rewrite Hp2 by lia. apply list_lookup_insert_ne. lia.
    + exists (gpLimPeerIdxpool e). replace (Z.max i max) with i by lia. split; [|split; [done|split; [lia|done]]].
      rewrite list_insert_id by (rewrite He; by destruct e). by destruct s.
Qed.

Lemma chain_links pool i n :
  0 < i → (∀ j, i ≤ j < i + Z.of_nat n → pool !! Z.to_nat j = Some (j + 1)) →
  pool !! Z.to_nat (i + Z.of_nat n) = Some 0 → chain 0 pool i (seqZ i (Z.of_nat (S n))).
Proof.
  revert i. induction n as [|n IH]; intros i Hi Hl Hlast.
  - rewrite seqZ_cons by lia. cbn. split; [done|]. exists 0. rewrite Z.add_0_r in Hlast. done.
  - rewrite seqZ_cons by lia. split; [done|]. exists (i + 1). split; [apply Hl; lia|].
    replace (Z.succ i) with (i + 1) by lia. replace (Z.pred (Z.of_nat (S (S n)))) with (Z.of_nat (S n)) by lia.
    apply IH; [lia|intros j Hj; apply Hl; lia|]. by replace (i + 1 + Z.of_nat n) with (i + Z.of_nat (S n)) by lia.
Qed.

Definition first_aid (e : pe_session) : Z :=
  if decide (limSystemRole e = eLIM_STA_ROLE) then DPH_STA_HASH_INDEX_PEER + 1 else LIM_START_PEER_IDX.

Definition max_aid (s : lim_state) (e : pe_session) : Z :=
  Z.max (first_aid e) (if decide (limSystemRole e = eLIM_STA_IN_IBSS_ROLE) then gLimIbssStaLimit s else gLimAssocStaLimit s).

(** Starting a session without stations makes its free identifiers the
    ones from 1 (from 2 for a station, whose access point is 1) to the limit
    of its role, in this order; the other sessions are untouched. *)
Theorem lim_init_peer_idxpool_spec s k e :
  gpSession s !! k = Some e → 0 ≤ gLimAssocStaLimit s < 256 → 0 ≤ gLimIbssStaLimit s < 256 →
  gLimNumOfCurrentSTAs e = 0 → (Z.to_nat (max_aid s e) < length (gpLimPeerIdxpool e))%nat →
  ∃ e', lim_init_peer_idxpool k s = Some (tt, set_gpSession (<[k := e']> (gpSession s)) s) ∧
    valid e' = valid e ∧ limSystemRole e' = limSystemRole e ∧
    aid_rep e' (seqZ (first_aid e) (max_aid s e - first_aid e + 1)) [].
Proof.
  intros He Hlim Hibss Hz Hlen. unfold lim_init_peer_idxpool. mstep. mrun (get_session_run _ _ _ He).
  fold (first_aid e). set (f := first_aid e).
  assert (1 ≤ f ≤ 2) as Hf by (unfold f, first_aid, LIM_START_PEER_IDX, DPH_STA_HASH_INDEX_PEER; case_decide; lia).
  rewrite (wrap_small 8) by lia. set (m := if decide (limSystemRole e = eLIM_STA_IN_IBSS_ROLE) then _ else _).
  assert (max_aid s e = Z.max f m) as Hmx by done. assert (0 ≤ m < 256) as Hm by (unfold m; case_decide; lia).
  rewrite Hmx in *. clearbody m f. assert ((k < length (gpSession s))%nat) as Hk by by eapply lookup_lt_Some.
  erewrite run_bind by (apply write_pool_run; [exact He|change (Z.to_nat 0) with 0%nat; lia]).
  erewrite run_bind by (apply mod_session_run; cbn; by apply list_lookup_insert_eq). cbn [gpSession set_gpSession].
  rewrite list_insert_insert_eq. match goal with |- context [set_gpSession (<[k := ?x]> _) _] => set (e1 := x) end.
  set (s1 := set_gpSession (<[k := e1]> (gpSession s)) _).
  assert (gpSession s1 !! k = Some e1) as He1 by by apply list_lookup_insert_eq.
  destruct (link_loop_run 256 k f m s1 e1 He1) as (pool & Hr & Hlp & Hp1 & _); [lia|lia| |lia|].
  { unfold e1. cbn. rewrite length_insert. lia. }
  unfold e1 in Hlp. cbn in Hlp. rewrite length_insert in Hlp. mrun Hr.
  erewrite run_bind by (apply write_pool_run; [cbn; rewrite list_insert_insert_eq; by apply list_lookup_insert_eq|cbn; lia]).
  erewrite mod_session_run by (cbn; rewrite !list_insert_insert_eq; by apply list_lookup_insert_eq).
  cbn. rewrite !list_insert_insert_eq. eexists. split; [done|]. split; [done|]. split; [done|].
  set (n := Z.to_nat (Z.max f m - f)). replace (Z.max f m - f + 1) with (Z.of_nat (S n)) by lia.
  split; [|split; [|split; [done|]]]; cbn.
  - apply chain_links; [lia| |].
    + intros j Hj. rewrite list_lookup_insert_ne by lia. apply Hp1. lia.
    + replace (f + Z.of_nat n) with (Z.max f m) by lia. apply list_lookup_insert_eq. lia.
  - replace (Z.of_nat (S n)) with (Z.of_nat n + 1) by lia. rewrite seqZ_app by lia. change (seqZ _ 1) with [f + Z.of_nat n].
    rewrite last_snoc. cbn. lia.
  - rewrite app_nil_r. split; [apply NoDup_seqZ|]. apply Forall_forall. intros x Hx%elem_of_seqZ. split; [lia|].
    rewrite length_insert. lia.
Qed.

(** * Sequences of operations *)

Fixpoint aid_run (ops : list aid_op) : CM lim_state (list Z) :=
  match ops with
  | [] => mret []
  | op :: ops => r ← aid_run1 op; rs ← aid_run ops; mret (r :: rs)
  end.

Fixpoint aid_spec_run (limit : Z) (ops : list aid_op) (Q : list station_lists) :
    option (list Z * list station_lists) :=
  match ops with
  | [] => Some ([], Q)
  | op :: ops =>
      '(r, Q) ← aid_spec limit op Q;
      '(rs, Q) ← aid_spec_run limit ops Q;
      Some (r :: rs, Q)
  end.

(** C29. Assigning and releasing association identifiers, on any sessions and in
    any order, is serving a queue per session: an identifier is given from the
    front, unless all sessions together have reached the limit or the queue is
    empty, and comes back at the end.  The free identifiers and those given
    out stay disjoint and distinct, so no two stations of a session share
    one. *)
Theorem lim_aid_refines_queues ops s Q rs Q' :
  lim_rep s Q → aid_spec_run (gLimAssocStaLimit s) ops Q = Some (rs, Q') →
  ∃ s', aid_run ops s = Some (rs, s') ∧ lim_rep s' Q' ∧ gLimAssocStaLimit s' = gLimAssocStaLimit s.
Proof.
  revert s Q rs. induction ops as [|op ops IH]; intros s Q rs HR; cbn [aid_spec_run aid_run].
  - intros [= <- <-]. by exists s.
  - destruct (aid_spec _ op Q) as [[r Q1]|] eqn:E; [|done]. cbn.
    destruct (aid_spec_run _ ops Q1) as [[rs1 Q2]|] eqn:E2; [|done]. cbn. intros [= <- <-].
    assert (∃ s1, aid_run1 op s = Some (r, s1) ∧ lim_rep s1 Q1 ∧ gLimAssocStaLimit s1 = gLimAssocStaLimit s)
      as (s1 & Hr & HR1 & Hl) by (destruct op; [by eapply lim_assign_peer_idx_run|by eapply lim_release_peer_idx_run]).
    rewrite <- Hl in E2. destruct (IH _ _ _ HR1 E2) as (s2 & Hr2 & HR2 & Hl2). mrun Hr. mrun Hr2.
    exists s2. split; [done|]. split; [done|congruence].
Qed.

(** * A concrete table *)

(** A session of an access point and one that is not in use, the limit is 3. *)
Definition sample_lim : lim_state :=
  mk_lim_state [mk_pe_session true eLIM_AP_ROLE [0; 2; 3; 0] 1 3 0;
                mk_pe_session false eLIM_UNKNOWN_ROLE [] 0 0 0] 3 3.

Definition sample_aids : list station_lists := [Some ([1; 2; 3], []); None].

Lemma lim_init_peer_idxpool_spec_witness :
  gLimNumOfCurrentSTAs (mk_pe_session true eLIM_AP_ROLE [0; 2; 3; 0] 1 3 0) = 0 ∧
  ∃ e', lim_init_peer_idxpool 0 sample_lim = Some (tt, set_gpSession (<[0%nat := e']> (gpSession sample_lim)) sample_lim) ∧
    aid_rep e' [1; 2; 3] [].
Proof.
  split; [done|].
  destruct (lim_init_peer_idxpool_spec sample_lim 0 (mk_pe_session true eLIM_AP_ROLE [0; 2; 3; 0] 1 3 0)) as
    (e' & H1 & _ & _ & H2); [done|cbn; lia|cbn; lia|done|vm_compute; lia|].
  exists e'. split; [exact H1|exact H2].
Defined.

Lemma sample_lim_rep : lim_rep sample_lim sample_aids.
Proof.
  split; [|by vm_compute]. constructor; [|constructor; [done|constructor]].
  split; [done|]. split; [|split; [done|split; [done|split]]].
  - cbn. repeat (split; [done|]; eexists; split; [done|]). done.
  - by apply (bool_decide_eq_true_1 (NoDup ([1; 2; 3] ++ []))).
  - repeat constructor; cbn; lia.
Qed.

Lemma lim_aid_refines_queues_witness :
  lim_rep sample_lim sample_aids ∧
  ∃ s', aid_run [AidAssign 0; AidAssign 0; AidRelease 0 1; AidAssign 0; AidAssign 0; AidAssign 0] sample_lim =
      Some ([1; 2; 0; 3; 1; 0], s') ∧
    lim_rep s' [Some ([], [1; 3; 2]); None] ∧ gLimAssocStaLimit s' = 3.
Proof.
  split; [exact sample_lim_rep|].
  apply (lim_aid_refines_queues _ sample_lim sample_aids _ _ sample_lim_rep). vm_compute. reflexivity.
Defined.
