(* ===== verification/HtcQueue.v ===== *)
(** The packet queues of the host-target channel: [core/htc/dl_list.h] and the
    queue macros of [core/htc/htc_packet.h].

    A [DL_LIST] is either the head of a queue or the link embedded in a packet;
    the words of all of them are two finite maps, in which a NULL pointer is an
    absent word.  [PacketQueue] is the interface through which the channel uses
    its queues.  It has two instances: the code, over the words, and lists of
    packets, where an operation that the code may not be asked for (linking a
    packet that is linked already, removing one from a queue it is not in) has no
    result.  [QueueRefinement] says what the first promises of the second;
    [HtcQueueProofs.v] proves it. *)
From S2P Require Import Prelude.

(** The queues of an endpoint and those a function has on its stack. *)
Inductive htc_queue : Type :=
| TxQueue (ep : Z)
| TxLookupQueue (ep : Z)
| RxBufferHoldQueue (ep : Z)
| LocalQueue (n : positive).

#[export] Instance htc_queue_eq_dec : EqDecision htc_queue.
Proof. solve_decision. Defined.
#[export] Instance htc_queue_countable : Countable htc_queue.
Proof.
  apply (inj_countable'
    (λ q, match q with
          | TxQueue e => inl (inl e) | TxLookupQueue e => inl (inr e)
          | RxBufferHoldQueue e => inr (inl e) | LocalQueue n => inr (inr n)
          end)
    (λ x, match x with
          | inl (inl e) => TxQueue e | inl (inr e) => TxLookupQueue e
          | inr (inl e) => RxBufferHoldQueue e | inr (inr n) => LocalQueue n
          end)).
  by intros [].
Defined.

(** What a pointer to a [DL_LIST] points to. *)
Inductive DL_LIST : Type :=
| QueueHead (q : htc_queue)
| ListLink (p : positive).

#[export] Instance DL_LIST_eq_dec : EqDecision DL_LIST.
Proof. solve_decision. Defined.
#[export] Instance DL_LIST_countable : Countable DL_LIST.
Proof.
  apply (inj_countable'
    (λ d, match d with QueueHead q => inl q | ListLink p => inr p end)
    (λ x, match x with inl q => QueueHead q | inr p => ListLink p end)).
  by intros [].
Defined.

(** * The interface *)

Class PacketQueue (Q : Type) : Type := {
  q_init : htc_queue → CM Q unit;
  q_init_and_add : htc_queue → positive → CM Q unit;
  q_depth : htc_queue → CM Q Z;
  q_enqueue : htc_queue → positive → CM Q unit;
  q_enqueue_to_head : htc_queue → positive → CM Q unit;
  q_remove : htc_queue → positive → CM Q unit;
  q_dequeue : htc_queue → CM Q (option positive);
  q_dequeue_tail : htc_queue → CM Q (option positive);
  q_at_head : htc_queue → CM Q (option positive);
  q_transfer_to_tail : htc_queue → htc_queue → CM Q unit;
  q_transfer_to_head : htc_queue → htc_queue → CM Q unit;
  (* the pointer [pTemp] of the iteration macros: a packet, or the end *)
  q_first : htc_queue → CM Q (option positive);
  q_next : htc_queue → positive → CM Q (option positive);
}.

(** The operations of [Q1] do what those of [Q2] do, on states that correspond. *)
Class QueueRefinement {Q1 Q2 : Type} `{PacketQueue Q1, PacketQueue Q2}
    (R : Q1 → Q2 → Prop) : Prop := {
  ref_init q : refines R (q_init q) (q_init q);
  ref_init_and_add q p : refines R (q_init_and_add q p) (q_init_and_add q p);
  ref_depth q : refines R (q_depth q) (q_depth q);
  ref_enqueue q p : refines R (q_enqueue q p) (q_enqueue q p);
  ref_enqueue_to_head q p : refines R (q_enqueue_to_head q p) (q_enqueue_to_head q p);
  ref_remove q p : refines R (q_remove q p) (q_remove q p);
  ref_dequeue q : refines R (q_dequeue q) (q_dequeue q);
  ref_dequeue_tail q : refines R (q_dequeue_tail q) (q_dequeue_tail q);
  ref_at_head q : refines R (q_at_head q) (q_at_head q);
  ref_transfer_to_tail d s : refines R (q_transfer_to_tail d s) (q_transfer_to_tail d s);
  ref_transfer_to_head d s : refines R (q_transfer_to_head d s) (q_transfer_to_head d s);
  ref_first q : refines R (q_first q) (q_first q);
  ref_next q p : refines R (q_next q p) (q_next q p);
}.

(** * The code *)

Record dl_mem : Type := mk_dl_mem {
  pNext : gmap DL_LIST DL_LIST;
  pPrev : gmap DL_LIST DL_LIST;
  Depth : gmap htc_queue Z;
}.

Abbreviation DL := (CM dl_mem).

(** A pointer may be NULL; dereferencing it then has no result. *)
Definition rd_pNext (d : DL_LIST) : DL (option DL_LIST) := gets (λ m, pNext m !! d).
Definition rd_pPrev (d : DL_LIST) : DL (option DL_LIST) := gets (λ m, pPrev m !! d).
Definition wr_pNext (d : option DL_LIST) (v : option DL_LIST) : DL unit :=
  d ← deref d; modify (λ m, mk_dl_mem (partial_alter (λ _, v) d (pNext m)) (pPrev m) (Depth m)).
Definition wr_pPrev (d : option DL_LIST) (v : option DL_LIST) : DL unit :=
  d ← deref d; modify (λ m, mk_dl_mem (pNext m) (partial_alter (λ _, v) d (pPrev m)) (Depth m)).

Definition DL_LIST_INIT (pList : DL_LIST) : DL unit :=
  wr_pPrev (Some pList) (Some pList);; wr_pNext (Some pList) (Some pList).

Definition DL_LIST_INIT_AND_ADD (pList pItem : DL_LIST) : DL unit :=
  wr_pPrev (Some pList) (Some pItem);;
  wr_pNext (Some pList) (Some pItem);;
  wr_pNext (Some pItem) (Some pList);;
  wr_pPrev (Some pItem) (Some pList).

Definition DL_LIST_IS_EMPTY (pList : DL_LIST) : DL bool :=
  prev ← rd_pPrev pList;
  next ← rd_pNext pList;
  mret (bool_decide (prev = Some pList) && bool_decide (next = Some pList)).

Definition dl_list_insert_tail (pList pAdd : DL_LIST) : DL unit :=
  prev ← rd_pPrev pList;
  wr_pPrev (Some pAdd) prev;;
  wr_pNext (Some pAdd) (Some pList);;
  prev ← rd_pPrev pList;
  when (bool_decide (is_Some prev)) (wr_pNext prev (Some pAdd));;
  wr_pPrev (Some pList) (Some pAdd).

Definition dl_list_insert_head (pList pAdd : DL_LIST) : DL unit :=
  wr_pPrev (Some pAdd) (Some pList);;
  next ← rd_pNext pList;
  wr_pNext (Some pAdd) next;;
  next ← rd_pNext pList;
  wr_pPrev next (Some pAdd);;
  wr_pNext (Some pList) (Some pAdd).

Definition dl_list_remove (pDel : DL_LIST) : DL unit :=
  next ← rd_pNext pDel;
  prev ← rd_pPrev pDel;
  when (bool_decide (is_Some next)) (wr_pPrev next prev);;
  prev ← rd_pPrev pDel;
  next ← rd_pNext pDel;
  when (bool_decide (is_Some prev)) (wr_pNext prev next);;
  wr_pNext (Some pDel) (Some pDel);;
  wr_pPrev (Some pDel) (Some pDel).

Definition dl_list_remove_item_from_head (pList : DL_LIST) : DL (option DL_LIST) :=
  next ← rd_pNext pList;
  if bool_decide (next = Some pList) then mret None
  else
    pItem ← deref next;
    dl_list_remove pItem;;
    mret (Some pItem).

Definition dl_list_remove_item_from_tail (pList : DL_LIST) : DL (option DL_LIST) :=
  prev ← rd_pPrev pList;
  if bool_decide (prev = Some pList) then mret None
  else
    pItem ← deref prev;
    dl_list_remove pItem;;
    mret (Some pItem).

Definition dl_list_transfer_items_to_tail (pDest pSrc : DL_LIST) : DL unit :=
  empty ← DL_LIST_IS_EMPTY pSrc;
  when (negb empty) (
    last ← rd_pPrev pSrc;
    wr_pNext last (Some pDest);;
    first ← rd_pNext pSrc;
    dlast ← rd_pPrev pDest;
    wr_pPrev first dlast;;
    dlast ← rd_pPrev pDest;
    first ← rd_pNext pSrc;
    wr_pNext dlast first;;
    last ← rd_pPrev pSrc;
    wr_pPrev (Some pDest) last;;
    wr_pPrev (Some pSrc) (Some pSrc);;
    wr_pNext (Some pSrc) (Some pSrc)).

Definition dl_list_transfer_items_to_head (pDest pSrc : DL_LIST) : DL unit :=
  empty ← DL_LIST_IS_EMPTY pSrc;
  when (negb empty) (
    first ← rd_pNext pSrc;
    wr_pPrev first (Some pDest);;
    dfirst ← rd_pNext pDest;
    last ← rd_pPrev pSrc;
    wr_pPrev dfirst last;;
    last ← rd_pPrev pSrc;
    dfirst ← rd_pNext pDest;
    wr_pNext last dfirst;;
    first ← rd_pNext pSrc;
    wr_pNext (Some pDest) first;;
    wr_pPrev (Some pSrc) (Some pSrc);;
    wr_pNext (Some pSrc) (Some pSrc)).

(** [A_CONTAINING_STRUCT(.., HTC_PACKET, ListLink)]: the head of a queue is not
    inside a packet. *)
Definition containing_packet (d : DL_LIST) : option positive :=
  match d with
  | ListLink p => Some p
  | QueueHead _ => None
  end.

(** ** Queues *)

Definition get_Depth (q : htc_queue) : DL Z := o ← gets (λ m, Depth m !! q); deref o.
Definition set_Depth (q : htc_queue) (n : Z) : DL unit :=
  modify (λ m, mk_dl_mem (pNext m) (pPrev m) (<[q := n]> (Depth m))).
Definition add_Depth (q : htc_queue) (n : Z) : DL unit := d ← get_Depth q; set_Depth q (d + n).

Definition INIT_HTC_PACKET_QUEUE (pQ : htc_queue) : DL unit :=
  DL_LIST_INIT (QueueHead pQ);; set_Depth pQ 0.

Definition HTC_PACKET_ENQUEUE (pQ : htc_queue) (p : positive) : DL unit :=
  dl_list_insert_tail (QueueHead pQ) (ListLink p);; add_Depth pQ 1.

Definition HTC_PACKET_ENQUEUE_TO_HEAD (pQ : htc_queue) (p : positive) : DL unit :=
  dl_list_insert_head (QueueHead pQ) (ListLink p);; add_Depth pQ 1.

Definition htc_get_pkt_at_head (queue : htc_queue) : DL (option positive) :=
  d ← get_Depth queue;
  if d =? 0 then mret None
  else
    first ← rd_pNext (QueueHead queue);
    first ← deref first;
    p ← deref (containing_packet first);
    mret (Some p).

Definition HTC_PACKET_REMOVE (pQ : htc_queue) (p : positive) : DL unit :=
  dl_list_remove (ListLink p);; add_Depth pQ (-1).

Definition htc_packet_dequeue (queue : htc_queue) : DL (option positive) :=
  pItem ← dl_list_remove_item_from_head (QueueHead queue);
  match pItem with
  | None => mret None
  | Some d => add_Depth queue (-1);; p ← deref (containing_packet d); mret (Some p)
  end.

Definition htc_packet_dequeue_tail (queue : htc_queue) : DL (option positive) :=
  pItem ← dl_list_remove_item_from_tail (QueueHead queue);
  match pItem with
  | None => mret None
  | Some d => add_Depth queue (-1);; p ← deref (containing_packet d); mret (Some p)
  end.

Definition HTC_PACKET_QUEUE_TRANSFER_TO_TAIL (pQDest pQSrc : htc_queue) : DL unit :=
  dl_list_transfer_items_to_tail (QueueHead pQDest) (QueueHead pQSrc);;
  d ← get_Depth pQSrc;
  add_Depth pQDest d;;
  set_Depth pQSrc 0.

Definition HTC_PACKET_QUEUE_TRANSFER_TO_HEAD (pQDest pQSrc : htc_queue) : DL unit :=
  dl_list_transfer_items_to_head (QueueHead pQDest) (QueueHead pQSrc);;
  d ← get_Depth pQSrc;
  add_Depth pQDest d;;
  set_Depth pQSrc 0.

Definition INIT_HTC_PACKET_QUEUE_AND_ADD (pQ : htc_queue) (pP : positive) : DL unit :=
  DL_LIST_INIT_AND_ADD (QueueHead pQ) (ListLink pP);; set_Depth pQ 1.

(** The iteration macros walk from [pStart->pNext] until they are back at the
    head; the body may remove the item it is given. *)
Definition iterate_ptr (pStart : htc_queue) (d : option DL_LIST) : DL (option positive) :=
  d ← deref d;
  if bool_decide (d = QueueHead pStart) then mret None
  else p ← deref (containing_packet d); mret (Some p).

Definition iterate_first (pStart : htc_queue) : DL (option positive) :=
  first ← rd_pNext (QueueHead pStart); iterate_ptr pStart first.

Definition iterate_next (pStart : htc_queue) (p : positive) : DL (option positive) :=
  next ← rd_pNext (ListLink p); iterate_ptr pStart next.

#[export] Instance dl_queues : PacketQueue dl_mem := {|
  q_init := INIT_HTC_PACKET_QUEUE;
  q_init_and_add := INIT_HTC_PACKET_QUEUE_AND_ADD;
  q_depth := get_Depth;
  q_enqueue := HTC_PACKET_ENQUEUE;
  q_enqueue_to_head := HTC_PACKET_ENQUEUE_TO_HEAD;
  q_remove := HTC_PACKET_REMOVE;
  q_dequeue := htc_packet_dequeue;
  q_dequeue_tail := htc_packet_dequeue_tail;
  q_at_head := htc_get_pkt_at_head;
  q_transfer_to_tail := HTC_PACKET_QUEUE_TRANSFER_TO_TAIL;
  q_transfer_to_head := HTC_PACKET_QUEUE_TRANSFER_TO_HEAD;
  q_first := iterate_first;
  q_next := iterate_next;
|}.

(** * Lists of packets *)

Abbreviation queue_map := (gmap htc_queue (list positive)).

Definition unlinked (m : queue_map) (p : positive) : bool :=
  bool_decide (map_Forall (λ _ l, p ∉ l) m).

Definition list_of (q : htc_queue) : CM queue_map (list positive) :=
  o ← gets (λ m, m !! q); deref o.

Definition link (p : positive) : CM queue_map unit :=
  ok ← gets (λ m, unlinked m p); if ok : bool then mret tt else ub.

Fixpoint next_in (p : positive) (l : list positive) : option (option positive) :=
  match l with
  | [] => None
  | x :: l => if decide (x = p) then Some (head l) else next_in p l
  end.

#[export] Instance list_queues : PacketQueue queue_map := {|
  q_init q := modify <[q := []]>;
  q_init_and_add q p := link p;; modify <[q := [p]]>;
  q_depth q := l ← list_of q; mret (Z.of_nat (length l));
  q_enqueue q p := l ← list_of q; link p;; modify <[q := l ++ [p]]>;
  q_enqueue_to_head q p := l ← list_of q; link p;; modify <[q := p :: l]>;
  q_remove q p :=
    l ← list_of q;
    if bool_decide (p ∈ l) then modify <[q := filter (.≠ p) l]> else ub;
  q_dequeue q :=
    l ← list_of q;
    match l with
    | [] => mret None
    | p :: l => modify <[q := l]>;; mret (Some p)
    end;
  q_dequeue_tail q :=
    l ← list_of q;
    match last l with
    | None => mret None
    | Some p => modify <[q := removelast l]>;; mret (Some p)
    end;
  q_at_head q := l ← list_of q; mret (head l);
  q_transfer_to_tail d s :=
    if bool_decide (d = s) then ub
    else
      ld ← list_of d; l ← list_of s;
      modify <[d := ld ++ l]>;; modify <[s := []]>;
  q_transfer_to_head d s :=
    if bool_decide (d = s) then ub
    else
      ld ← list_of d; l ← list_of s;
      modify <[d := l ++ ld]>;; modify <[s := []]>;
  q_first q := l ← list_of q; mret (head l);
  q_next q p := l ← list_of q; deref (next_in p l);
|}.
