(* ===== verification/HtcQueueProofs.v ===== *)
(** The packet queues of [HtcQueue.v] over the words of their links implement
    the lists of packets: the instance of [QueueRefinement]. *)
From S2P Require Import Prelude Ring HtcQueue.

(** * What the words represent *)

Record rep (m : dl_mem) (M : queue_map) : Prop := {
  rep_circ q l : M !! q = Some l → circ (pNext m) (pPrev m) (QueueHead q) (ListLink <$> l);
  rep_depth q l : M !! q = Some l → Depth m !! q = Some (Z.of_nat (length l));
  rep_disj q1 q2 l1 l2 p :
    M !! q1 = Some l1 → M !! q2 = Some l2 → p ∈ l1 → p ∈ l2 → q1 = q2;
}.

#[export] Instance ListLink_inj : Inj (=) (=) ListLink.
Proof. by intros ?? [= ->]. Qed.

Section rep.
Implicit Types (m : dl_mem) (M : queue_map) (q : htc_queue) (l : list positive) (p : positive).

(** The entries of the queue [q]. *)
Definition entries q l : list DL_LIST := QueueHead q :: (ListLink <$> l).

Lemma elem_entries d q l : d ∈ entries q l ↔ d = QueueHead q ∨ ∃ p, d = ListLink p ∧ p ∈ l.
Proof. unfold entries. rewrite elem_of_cons, list_elem_of_fmap. done. Qed.

Lemma unlinked_spec M p : unlinked M p = true ↔ ∀ q l, M !! q = Some l → p ∉ l.
Proof. unfold unlinked. rewrite bool_decide_eq_true. done. Qed.

Lemma rep_nodup m M q l : rep m M → M !! q = Some l → NoDup l.
Proof.
  intros H Hq. destruct (rep_circ _ _ H _ _ Hq) as [_ Hnd].
  apply NoDup_cons in Hnd as [_ Hnd]. by apply NoDup_fmap in Hnd; [|apply _].
Qed.

(** Words and depths of the queues that change; the others keep theirs. *)
Lemma rep_intro m m' M M' (S : list DL_LIST) :
  rep m M →
  (∀ d, d ∉ S → pNext m' !! d = pNext m !! d ∧ pPrev m' !! d = pPrev m !! d) →
  (∀ q l, M' !! q = Some l →
    M !! q = Some l ∧ Depth m' !! q = Depth m !! q ∧ (∀ d, d ∈ entries q l → d ∉ S) ∨
    circ (pNext m') (pPrev m') (QueueHead q) (ListLink <$> l) ∧
      Depth m' !! q = Some (Z.of_nat (length l))) →
  (∀ q1 q2 l1 l2 p, M' !! q1 = Some l1 → M' !! q2 = Some l2 → p ∈ l1 → p ∈ l2 → q1 = q2) →
  rep m' M'.
Proof.
  intros H Hf Hq Hd. split; [| |done].
  - intros q l Hl. destruct (Hq _ _ Hl) as [(H1 & _ & Hn)|[Hc _]]; [|done].
    eapply circ_frame; [|exact (rep_circ _ _ H _ _ H1)]. intros d Hin. apply Hf, Hn. exact Hin.
  - intros q l Hl. destruct (Hq _ _ Hl) as [(H1 & -> & _)|[_ Hc]]; [|done].
    exact (rep_depth _ _ H _ _ H1).
Qed.

(** One queue changes; it gains only packets that no queue had. *)
Lemma rep_update m m' M q l l' :
  rep m M → default [] (M !! q) = l →
  (∀ d, d ∉ entries q (l ++ l') → pNext m' !! d = pNext m !! d ∧ pPrev m' !! d = pPrev m !! d) →
  circ (pNext m') (pPrev m') (QueueHead q) (ListLink <$> l') →
  Depth m' = <[q := Z.of_nat (length l')]> (Depth m) →
  (∀ p, p ∈ l' → p ∈ l ∨ unlinked M p = true) →
  rep m' (<[q := l']> M).
Proof.
  intros H Hl Hf Hc HD Hnew.
  assert (∀ q2 l2 p, M !! q2 = Some l2 → q2 ≠ q → p ∈ l2 → p ∉ l ++ l') as Hother.
  { intros q2 l2 p H2 Hne Hp [Hin|Hin]%elem_of_app.
    - destruct (M !! q) as [l0|] eqn:E; simpl in Hl; subst; [|by apply elem_of_nil in Hin].
      apply Hne. by eapply (rep_disj _ _ H).
    - destruct (Hnew _ Hin) as [Hin'|Hu].
      + destruct (M !! q) as [l0|] eqn:E; simpl in Hl; subst; [|by apply elem_of_nil in Hin'].
        apply Hne. by eapply (rep_disj _ _ H).
      + apply unlinked_spec with (q := q2) (l := l2) in Hu; done. }
  apply (rep_intro m m' M _ (entries q (l ++ l'))); [done|done| |].
  - intros q2 l2. destruct (decide (q2 = q)) as [->|Hne].
    + rewrite lookup_insert_eq. intros [= <-]. right. split; [done|]. by rewrite HD, lookup_insert_eq.
    + rewrite lookup_insert_ne by done. intros H2. left. split; [done|].
      rewrite HD, lookup_insert_ne by done. split; [done|].
      intros d [->|(p & -> & Hp)]%elem_entries; rewrite elem_entries; intros [Heq|(p' & Heq & Hp')];
        simplify_eq. by apply (Hother _ _ _ H2 Hne Hp).
  - intros q1 q2 l1 l2 p. destruct (decide (q1 = q)) as [->|Hn1], (decide (q2 = q)) as [->|Hn2];
      rewrite ?lookup_insert_eq, ?lookup_insert_ne by done; try done.
    + intros [= <-] H2 Hp Hp2. exfalso. apply (Hother _ _ _ H2 Hn2 Hp2). set_solver.
    + intros H1 [= <-] Hp Hp2. exfalso. apply (Hother _ _ _ H1 Hn1 Hp). set_solver.
    + intros H1 H2 Hp Hp2. by eapply (rep_disj _ _ H).
Qed.

(** The words around a queue's head. *)
Lemma rep_first m M q l : rep m M → M !! q = Some l →
  pNext m !! QueueHead q = Some (match l with [] => QueueHead q | p :: _ => ListLink p end).
Proof.
  intros H Hq. destruct (rep_circ _ _ H _ _ Hq) as [Hp _].
  destruct l as [|p l]; cbn in Hp; by destruct Hp as (? & _).
Qed.

Lemma rep_last m M q l : rep m M → M !! q = Some l →
  pPrev m !! QueueHead q = Some (match last l with None => QueueHead q | Some p => ListLink p end).
Proof.
  intros H Hq. pose proof (rep_circ _ _ H _ _ Hq) as Hc.
  destruct l as [|p l _] using rev_ind; [by destruct Hc as [(_ & ? & _) _]|].
  rewrite last_snoc.
  destruct (circ_split (pNext m) (pPrev m) (QueueHead q) (ListLink <$> l ++ [p]) [] (ListLink p)
    (QueueHead q) (QueueHead q :: (ListLink <$> l)) []) as (_ & _ & ? & _);
    [by rewrite app_nil_r|by rewrite fmap_app|done|done].
Qed.

Lemma is_empty_run m M q l : rep m M → M !! q = Some l →
  DL_LIST_IS_EMPTY (QueueHead q) m = Some (bool_decide (l = []), m).
Proof.
  intros H Hq. unfold DL_LIST_IS_EMPTY, rd_pPrev, rd_pNext. mstep.
  rewrite (rep_first _ _ _ _ H Hq), (rep_last _ _ _ _ H Hq). unfold mret, CM_ret. do 2 f_equal.
  destruct l as [|p l]; [by rewrite !bool_decide_eq_true_2|].
  rewrite (bool_decide_eq_false_2 (Some (ListLink p) = _)) by done.
  rewrite andb_false_r. by rewrite bool_decide_eq_false_2.
Qed.

Lemma get_Depth_run m M q l : rep m M → M !! q = Some l →
  get_Depth q m = Some (Z.of_nat (length l), m).
Proof. intros H Hq. unfold get_Depth. mstep. by rewrite (rep_depth _ _ H _ _ Hq). Qed.

(** * Operations *)

Lemma INIT_run q m : INIT_HTC_PACKET_QUEUE q m = Some (tt, mk_dl_mem
  (<[QueueHead q := QueueHead q]> (pNext m)) (<[QueueHead q := QueueHead q]> (pPrev m))
  (<[q := 0]> (Depth m))).
Proof. reflexivity. Qed.

Lemma init_refines q : refines rep (q_init (Q := dl_mem) q) (q_init (Q := queue_map) q).
Proof.
  intros m M a M' H. cbn. intros [= <- <-]. eexists. split; [apply INIT_run|].
  eapply (rep_update m _ M q); [done|done| | |done|set_solver]; cbn [pNext pPrev].
  - intros d Hd. unfold entries in Hd. rewrite !lookup_insert_ne; [done| |]; set_solver.
  - split; [|by apply NoDup_singleton]. cbn. by rewrite !lookup_insert_eq.
Qed.

Lemma depth_refines q : refines rep (q_depth (Q := dl_mem) q) (q_depth (Q := queue_map) q).
Proof.
  intros m M a M' H. cbn. unfold list_of. intros Hr. minv. exists m. split; [|done].
  by eapply get_Depth_run.
Qed.
End rep.

(** ** Runs on the words *)

Definition put_next (d v : DL_LIST) (m : dl_mem) : dl_mem :=
  mk_dl_mem (<[d := v]> (pNext m)) (pPrev m) (Depth m).
Definition put_prev (d v : DL_LIST) (m : dl_mem) : dl_mem :=
  mk_dl_mem (pNext m) (<[d := v]> (pPrev m)) (Depth m).

Section runs.
Context {A : Type}.
Implicit Types (m : dl_mem) (d v : DL_LIST) (k : unit → DL A).

Lemma rd_next_bind d (k : option DL_LIST → DL A) m :
  (x ← rd_pNext d; k x) m = k (pNext m !! d) m.
Proof. reflexivity. Qed.
Lemma rd_prev_bind d (k : option DL_LIST → DL A) m :
  (x ← rd_pPrev d; k x) m = k (pPrev m !! d) m.
Proof. reflexivity. Qed.
Lemma wr_next_bind d v k m :
  (x ← wr_pNext (Some d) (Some v); k x) m = k tt (put_next d v m).
Proof. reflexivity. Qed.
Lemma wr_prev_bind d v k m :
  (x ← wr_pPrev (Some d) (Some v); k x) m = k tt (put_prev d v m).
Proof. reflexivity. Qed.
Lemma when_some_bind (v : DL_LIST) (c : DL unit) k m :
  (x ← when (bool_decide (is_Some (Some v))) c; k x) m = (x ← c; k x) m.
Proof. by rewrite bool_decide_eq_true_2 by eauto. Qed.
End runs.

Lemma wr_next_run d v m : wr_pNext (Some d) (Some v) m = Some (tt, put_next d v m).
Proof. reflexivity. Qed.
Lemma wr_prev_run d v m : wr_pPrev (Some d) (Some v) m = Some (tt, put_prev d v m).
Proof. reflexivity. Qed.

(** Performs reads and writes of words; the hypotheses say what the words are
    and which entries differ. *)
Ltac dl_lookup :=
  cbn [pNext pPrev Depth put_next put_prev];
  repeat match goal with
    | |- context [<[?i := _]> _ !! ?i] => rewrite lookup_insert_eq
    | |- context [<[?i := _]> _ !! ?j] => rewrite (lookup_insert_ne _ i j) by congruence
    | H : pNext ?m !! ?d = Some _ |- context [pNext ?m !! ?d] => rewrite H
    | H : pPrev ?m !! ?d = Some _ |- context [pPrev ?m !! ?d] => rewrite H
    end.
Ltac dl_run :=
  repeat first
    [ rewrite run_assoc
    | rewrite rd_next_bind; dl_lookup
    | rewrite rd_prev_bind; dl_lookup
    | rewrite wr_next_bind
    | rewrite wr_prev_bind
    | rewrite when_some_bind
    | rewrite run_ret ].

Section words.
Implicit Types (m : dl_mem) (h e a b : DL_LIST).

Lemma insert_tail_words m h e a : pPrev m !! h = Some a → e ≠ h →
  dl_list_insert_tail h e m = Some (tt, mk_dl_mem
    (<[a := e]> (<[e := h]> (pNext m))) (<[h := e]> (<[e := a]> (pPrev m))) (Depth m)).
Proof. intros Ha He. unfold dl_list_insert_tail. dl_run. reflexivity. Qed.

Lemma insert_head_words m h e b : pNext m !! h = Some b → e ≠ h →
  dl_list_insert_head h e m = Some (tt, mk_dl_mem
    (<[h := e]> (<[e := b]> (pNext m))) (<[b := e]> (<[e := h]> (pPrev m))) (Depth m)).
Proof. intros Hb He. unfold dl_list_insert_head. dl_run. reflexivity. Qed.

(** [a] and [b] may both be the head of the list. *)
Lemma remove_words m e a b : pNext m !! e = Some b → pPrev m !! e = Some a → e ≠ a → e ≠ b →
  dl_list_remove e m = Some (tt, mk_dl_mem
    (<[e := e]> (<[a := b]> (pNext m))) (<[e := e]> (<[b := a]> (pPrev m))) (Depth m)).
Proof. intros Hb Ha Hea Heb. unfold dl_list_remove. dl_run. reflexivity. Qed.
End words.

(** ** The operations *)

Lemma list_of_inv {B} q (k : list positive → CM queue_map B) M b M' :
  (l ← list_of q; k l) M = Some (b, M') → ∃ l, M !! q = Some l ∧ k l M = Some (b, M').
Proof.
  intros (l & M1 & H1 & H2)%run_bind_inv. unfold list_of in H1. minv. eauto.
Qed.

Lemma link_inv {B} p (k : unit → CM queue_map B) M b M' :
  (x ← link p; k x) M = Some (b, M') → unlinked M p = true ∧ k tt M = Some (b, M').
Proof.
  intros (l & M1 & H1 & H2)%run_bind_inv. unfold link in H1. apply run_bind_inv in H1 as (ok & M2 & [= <- <-] & H1).
  destruct (unlinked M p); [|done]. unfold mret, CM_ret in H1. by simplify_eq.
Qed.

Section operations.
Implicit Types (m : dl_mem) (M : queue_map) (q : htc_queue) (l : list positive) (p : positive).

Lemma rep_gap m M q l l1 l2 : rep m M → M !! q = Some l → l = l1 ++ l2 →
  ∃ pre a b post, QueueHead q :: (ListLink <$> l1) = pre ++ [a] ∧
    (ListLink <$> l2) ++ [QueueHead q] = b :: post ∧ pNext m !! a = Some b ∧ pPrev m !! b = Some a.
Proof.
  intros H Hq ->. pose proof (rep_circ _ _ H _ _ Hq) as Hc. rewrite fmap_app in Hc.
  destruct (before_split (QueueHead q) (ListLink <$> l1)) as (pre & a & H1).
  destruct (after_split (QueueHead q) (ListLink <$> l2)) as (b & post & H2).
  destruct (circ_split _ _ _ _ _ _ _ _ _ Hc H1 H2) as (_ & Hab & Hba & _).
  by exists pre, a, b, post.
Qed.

Lemma add_Depth_run m q (d n : Z) : Depth m !! q = Some d →
  add_Depth q n m = Some (tt, mk_dl_mem (pNext m) (pPrev m) (<[q := d + n]> (Depth m))).
Proof. intros Hd. unfold add_Depth, get_Depth. by mstep. Qed.

Lemma not_elem_entries p q l : p ∉ l → ListLink p ∉ QueueHead q :: (ListLink <$> l).
Proof. intros Hp. change (ListLink p ∉ entries q l). rewrite elem_entries. intros [?|(p' & ? & ?)]; by simplify_eq. Qed.

(** Linking a packet into the gap between [l1] and [l2]. *)
Lemma rep_link m m' M q l1 l2 p pre a b post :
  rep m M → M !! q = Some (l1 ++ l2) → unlinked M p = true →
  QueueHead q :: (ListLink <$> l1) = pre ++ [a] → (ListLink <$> l2) ++ [QueueHead q] = b :: post →
  pNext m' = <[a := ListLink p]> (<[ListLink p := b]> (pNext m)) →
  pPrev m' = <[b := ListLink p]> (<[ListLink p := a]> (pPrev m)) →
  Depth m' = <[q := Z.of_nat (length (l1 ++ l2)) + 1]> (Depth m) →
  rep m' (<[q := l1 ++ p :: l2]> M).
Proof.
  intros H Hq Hu H1 H2 Hn Hv HD.
  assert (p ∉ l1 ++ l2) as Hp by (by eapply unlinked_spec in Hu).
  pose proof (rep_circ _ _ H _ _ Hq) as Hc. rewrite fmap_app in Hc.
  assert (a ∈ entries q (l1 ++ l2)) as Ha.
  { unfold entries. rewrite fmap_app, app_comm_cons, H1. set_solver. }
  assert (b ∈ entries q (l1 ++ l2)) as Hb.
  { assert (b ∈ (ListLink <$> l2) ++ [QueueHead q]) as Hin by (rewrite H2; by left).
    unfold entries. rewrite fmap_app. set_solver. }
  apply (rep_update m m' M q (l1 ++ l2)); [done|by rewrite Hq| | | |].
  - intros d Hd. rewrite Hn, Hv. assert (d ≠ a ∧ d ≠ b ∧ d ≠ ListLink p) as (? & ? & ?).
    { unfold entries in *. rewrite !fmap_app in *. rewrite fmap_cons in Hd. set_solver. }
    by rewrite !lookup_insert_ne.
  - rewrite fmap_app, fmap_cons. eapply circ_insert; [exact Hc|exact H1|exact H2| |done|done].
    rewrite <- fmap_app. by apply not_elem_entries.
  - rewrite HD. f_equal. rewrite !length_app. cbn. lia.
  - intros p' Hp'. rewrite elem_of_app, elem_of_cons in Hp'. rewrite elem_of_app.
    destruct Hp' as [?|[->|?]]; auto.
Qed.

Lemma enqueue_refines q p :
  refines rep (q_enqueue (Q := dl_mem) q p) (q_enqueue (Q := queue_map) q p).
Proof.
  intros m M [] M' H Hr. cbn in Hr. apply list_of_inv in Hr as (l & Hq & Hr).
  apply link_inv in Hr as [Hu [= <-]].
  destruct (rep_gap m M q l l [] H Hq) as (pre & a & b & post & H1 & H2 & _ & Hb);
    [by rewrite app_nil_r|].
  cbn in H2. injection H2 as <- <-. cbn. unfold HTC_PACKET_ENQUEUE.
  rewrite (run_bind _ _ _ _ _ (insert_tail_words m (QueueHead q) (ListLink p) a Hb ltac:(done))).
  eexists. split; [apply add_Depth_run; exact (rep_depth _ _ H _ _ Hq)|].
  eapply (rep_link m _ M q _ []); try done; by rewrite app_nil_r.
Qed.

Lemma enqueue_to_head_refines q p :
  refines rep (q_enqueue_to_head (Q := dl_mem) q p) (q_enqueue_to_head (Q := queue_map) q p).
Proof.
  intros m M [] M' H Hr. cbn in Hr. apply list_of_inv in Hr as (l & Hq & Hr).
  apply link_inv in Hr as [Hu [= <-]].
  destruct (rep_gap m M q l [] l H Hq) as (pre & a & b & post & H1 & H2 & Ha & _); [done|].
  destruct pre; [|by destruct pre]. cbn in H1. injection H1 as <-. cbn. unfold HTC_PACKET_ENQUEUE_TO_HEAD.
  rewrite (run_bind _ _ _ _ _ (insert_head_words m (QueueHead q) (ListLink p) b Ha ltac:(done))).
  eexists. split; [apply add_Depth_run; exact (rep_depth _ _ H _ _ Hq)|].
  by eapply (rep_link m _ M q [] l p [] (QueueHead q)).
Qed.
(** Unlinking [p] from between [l1] and [l2]. *)
Lemma rep_unlink m M q l1 p l2 :
  rep m M → M !! q = Some (l1 ++ p :: l2) →
  ∃ m1, dl_list_remove (ListLink p) m = Some (tt, m1) ∧ Depth m1 = Depth m ∧
    ∀ m', pNext m' = pNext m1 → pPrev m' = pPrev m1 →
      Depth m' = <[q := Z.of_nat (length (l1 ++ p :: l2)) + -1]> (Depth m) →
      rep m' (<[q := l1 ++ l2]> M).
Proof.
  intros H Hq. pose proof (rep_circ _ _ H _ _ Hq) as Hc. rewrite fmap_app, fmap_cons in Hc.
  destruct (before_split (QueueHead q) (ListLink <$> l1)) as (pre & a & H1).
  destruct (after_split (QueueHead q) (ListLink <$> l2)) as (b & post & H2).
  destruct (circ_remove _ _ _ _ _ _ _ _ _ _ _ _ Hc H1 H2 eq_refl eq_refl)
    as (Hc' & Hae & Hea & Heb & Hbe).
  destruct Hc as [_ Hnd]. assert (ListLink p ∉ QueueHead q :: (ListLink <$> l1) ++ (ListLink <$> l2)) as Hp.
  { rewrite app_comm_cons, <- Permutation_middle in Hnd. by apply NoDup_cons in Hnd as []. }
  assert (a ∈ QueueHead q :: (ListLink <$> l1)) as Ha by (rewrite H1; set_solver).
  assert (b ∈ (ListLink <$> l2) ++ [QueueHead q]) as Hb by (rewrite H2; by left).
  assert (ListLink p ≠ a) as Hpa by (intros <-; set_solver).
  assert (ListLink p ≠ b) as Hpb by (intros <-; set_solver).
  eexists. split; [by apply (remove_words m (ListLink p) a b)|]. split; [done|].
  intros m' Hn Hv HD. cbn in Hn, Hv.
  apply (rep_update m m' M q (l1 ++ p :: l2)); [done|by rewrite Hq| | | |set_solver].
  - intros d Hd. rewrite Hn, Hv. unfold entries in Hd. rewrite !fmap_app, fmap_cons in Hd.
    rewrite !lookup_insert_ne; [done|set_solver..].
  - rewrite fmap_app. eapply circ_frame; [|exact Hc']. intros d Hd. rewrite Hn, Hv.
    assert (ListLink p ≠ d) as Hd' by (intros <-; done). by rewrite !(lookup_insert_ne _ (ListLink p)).
  - rewrite HD. f_equal. rewrite !length_app. cbn. lia.
Qed.

Lemma remove_refines q p :
  refines rep (q_remove (Q := dl_mem) q p) (q_remove (Q := queue_map) q p).
Proof.
  intros m M [] M' H Hr. cbn in Hr. apply list_of_inv in Hr as (l & Hq & Hr).
  destruct (decide (p ∈ l)) as [Hp|Hp]; [|by rewrite bool_decide_eq_false_2 in Hr].
  rewrite bool_decide_eq_true_2 in Hr by done. injection Hr as <-.
  pose proof (rep_nodup _ _ _ _ H Hq) as Hnd. apply list_elem_of_split in Hp as (l1 & l2 & ->).
  rewrite filter_ne_split by done.
  destruct (rep_unlink _ _ _ _ _ _ H Hq) as (m1 & Hrun & HD & Hrep).
  cbn. unfold HTC_PACKET_REMOVE. rewrite (run_bind _ _ _ _ _ Hrun).
  eexists. split; [apply add_Depth_run; rewrite HD; exact (rep_depth _ _ H _ _ Hq)|].
  apply Hrep; [done|done|]. by cbn; rewrite HD.
Qed.

(** Dequeueing from either end. *)
Lemma unlink_at_run m M q l1 p l2 : rep m M → M !! q = Some (l1 ++ p :: l2) →
  ∃ m', (dl_list_remove (ListLink p);; add_Depth q (-1)) m = Some (tt, m') ∧
    rep m' (<[q := l1 ++ l2]> M).
Proof.
  intros H Hq. destruct (rep_unlink _ _ _ _ _ _ H Hq) as (m1 & Hrun & HD & Hrep).
  rewrite (run_bind _ _ _ _ _ Hrun).
  eexists. split; [apply add_Depth_run; rewrite HD; exact (rep_depth _ _ H _ _ Hq)|].
  apply Hrep; [done|done|]. by cbn; rewrite HD.
Qed.

Lemma dequeue_refines q :
  refines rep (q_dequeue (Q := dl_mem) q) (q_dequeue (Q := queue_map) q).
Proof.
  intros m M r M' H Hr. cbn in Hr. apply list_of_inv in Hr as (l & Hq & Hr).
  pose proof (rep_first _ _ _ _ H Hq) as Hf.
  cbn. unfold htc_packet_dequeue, dl_list_remove_item_from_head. dl_run.
  destruct l as [|p l].
  - cbn in Hr. injection Hr as <- <-. exists m. by rewrite bool_decide_eq_true_2.
  - cbn in Hr. injection Hr as <- <-. rewrite bool_decide_eq_false_2 by done.
    destruct (unlink_at_run _ _ _ [] _ _ H Hq) as (m' & Hrun & Hrep). exists m'. split; [|done].
    mstep. apply run_bind_inv in Hrun as ([] & m1 & H1 & H2). mrun H1. mstep. mrun H2. done.
Qed.

Lemma dequeue_tail_refines q :
  refines rep (q_dequeue_tail (Q := dl_mem) q) (q_dequeue_tail (Q := queue_map) q).
Proof.
  intros m M r M' H Hr. cbn in Hr. apply list_of_inv in Hr as (l & Hq & Hr).
  pose proof (rep_last _ _ _ _ H Hq) as Hf.
  cbn. unfold htc_packet_dequeue_tail, dl_list_remove_item_from_tail. dl_run.
  destruct l as [|p l _] using rev_ind.
  - cbn in Hr. injection Hr as <- <-. exists m. by rewrite bool_decide_eq_true_2.
  - rewrite last_snoc in Hr, Hf |- *. injection Hr as <- <-. rewrite bool_decide_eq_false_2 by done.
    rewrite removelast_snoc.
    destruct (unlink_at_run _ _ _ _ _ [] H Hq) as (m' & Hrun & Hrep). rewrite app_nil_r in Hrep.
    exists m'. split; [|done].
    mstep. apply run_bind_inv in Hrun as ([] & m1 & H1 & H2). mrun H1. mstep. mrun H2. done.
Qed.

Lemma at_head_refines q :
  refines rep (q_at_head (Q := dl_mem) q) (q_at_head (Q := queue_map) q).
Proof.
  intros m M r M' H Hr. cbn in Hr. apply list_of_inv in Hr as (l & Hq & [= <- <-]).
  pose proof (rep_first _ _ _ _ H Hq) as Hf. exists m. split; [|done].
  cbn. unfold htc_get_pkt_at_head. mrun (get_Depth_run _ _ _ _ H Hq).
  destruct l as [|p l]; [done|]. destruct (Z.eqb_spec (Z.of_nat (length (p :: l))) 0); [done|].
  dl_run. reflexivity.
Qed.

Lemma iterate_ptr_run m q l : iterate_ptr q
  (Some (match l with [] => QueueHead q | p :: _ => ListLink p end)) m = Some (head l, m).
Proof.
  unfold iterate_ptr. mstep. destruct l as [|p l]; [by rewrite bool_decide_eq_true_2|].
  by rewrite bool_decide_eq_false_2.
Qed.

Lemma first_refines q :
  refines rep (q_first (Q := dl_mem) q) (q_first (Q := queue_map) q).
Proof.
  intros m M r M' H Hr. cbn in Hr. apply list_of_inv in Hr as (l & Hq & [= <- <-]).
  pose proof (rep_first _ _ _ _ H Hq) as Hf. exists m. split; [|done].
  cbn. unfold iterate_first. dl_run. apply iterate_ptr_run.
Qed.

Lemma next_in_inv p l o : NoDup l → next_in p l = Some o →
  ∃ l1 l2, l = l1 ++ p :: l2 ∧ o = head l2.
Proof.
  induction l as [|x l IH]; [done|]. intros [Hx Hnd]%NoDup_cons. cbn.
  destruct (decide (x = p)) as [->|Hne].
  - intros [= <-]. by exists [], l.
  - intros (l1 & l2 & -> & ->)%IH; [|done]. by exists (x :: l1), l2.
Qed.

Lemma next_refines q p :
  refines rep (q_next (Q := dl_mem) q p) (q_next (Q := queue_map) q p).
Proof.
  intros m M r M' H Hr. cbn in Hr. apply list_of_inv in Hr as (l & Hq & Hr).
  unfold deref in Hr. destruct (next_in p l) as [o|] eqn:Hn; [|done]. simplify_eq.
  apply next_in_inv in Hn as (l1 & l2 & -> & ->); [|by eapply rep_nodup].
  destruct (rep_gap _ _ _ _ (l1 ++ [p]) l2 H Hq) as (pre & a & b & post & H1 & H2 & Ha & _);
    [by rewrite <- app_assoc|].
  exists m. split; [|done]. cbn. unfold iterate_next.
  rewrite fmap_app, app_comm_cons in H1. apply app_inj_tail in H1 as [_ <-].
  dl_run. replace b with (match l2 with [] => QueueHead q | p :: _ => ListLink p end);
    [apply iterate_ptr_run|]. destruct l2; cbn in H2; by injection H2.
Qed.
Section splice.
Context m M (d s : htc_queue) l1 l2 (seg : list positive) (H : rep m M) (Hds : d ≠ s).
Context (Hd : M !! d = Some (l1 ++ l2)) (Hs : M !! s = Some seg).

Lemma splice_nodup : NoDup (l1 ++ seg ++ l2).
Proof.
  rewrite (Permutation_app_comm seg), app_assoc. apply NoDup_app. split_and!.
  - by eapply rep_nodup.
  - intros p Hp Hp'. apply Hds. by eapply (rep_disj _ _ H).
  - by eapply rep_nodup.
Qed.

Lemma splice_other q l p : q ≠ d → q ≠ s → M !! q = Some l → p ∈ l → p ∉ l1 ++ seg ++ l2.
Proof.
  intros Hqd Hqs Hq Hp Hin. rewrite !elem_of_app in Hin.
  assert (p ∈ seg ∨ p ∈ l1 ++ l2) as [Hin'|Hin'] by set_solver.
  - apply Hqs. by eapply (rep_disj _ _ H).
  - apply Hqd. by eapply (rep_disj _ _ H).
Qed.

Lemma splice_disj q1 q2 l1' l2' p :
  (<[s := []]> (<[d := l1 ++ seg ++ l2]> M) : queue_map) !! q1 = Some l1' →
  (<[s := []]> (<[d := l1 ++ seg ++ l2]> M) : queue_map) !! q2 = Some l2' →
  p ∈ l1' → p ∈ l2' → q1 = q2.
Proof.
  destruct (decide (q1 = s)) as [->|Hs1];
    [rewrite lookup_insert_eq; intros [= <-] _ Hin; by apply elem_of_nil in Hin|].
  destruct (decide (q2 = s)) as [->|Hs2];
    [rewrite lookup_insert_eq; intros _ [= <-] _ Hin; by apply elem_of_nil in Hin|].
  rewrite !(lookup_insert_ne _ s) by done.
  destruct (decide (q1 = d)) as [->|Hd1], (decide (q2 = d)) as [->|Hd2];
    rewrite ?lookup_insert_eq, ?lookup_insert_ne by done; try done.
  - intros [= <-] Hq Hp Hp2. by destruct (splice_other _ _ _ Hd2 Hs2 Hq Hp2).
  - intros Hq [= <-] Hp Hp2. by destruct (splice_other _ _ _ Hd1 Hs1 Hq Hp).
  - intros Hq1 Hq2 Hp Hp2. by eapply (rep_disj _ _ H).
Qed.
End splice.

(** Moving all packets of [s] into the gap between [l1] and [l2] of [d]. *)
Lemma rep_splice m m' M d s l1 l2 x xs z zs pre a b post :
  rep m M → d ≠ s → M !! d = Some (l1 ++ l2) → M !! s = Some (x :: xs) → x :: xs = zs ++ [z] →
  QueueHead d :: (ListLink <$> l1) = pre ++ [a] → (ListLink <$> l2) ++ [QueueHead d] = b :: post →
  pNext m' = <[QueueHead s := QueueHead s]> (<[a := ListLink x]> (<[ListLink z := b]> (pNext m))) →
  pPrev m' = <[QueueHead s := QueueHead s]> (<[b := ListLink z]> (<[ListLink x := a]> (pPrev m))) →
  Depth m' = <[s := 0]> (<[d := Z.of_nat (length (l1 ++ l2)) + Z.of_nat (length (x :: xs))]> (Depth m)) →
  rep m' (<[s := []]> (<[d := l1 ++ (x :: xs) ++ l2]> M)).
Proof.
  intros H Hds Hd Hs Hz H1 H2 Hn Hv HD.
  pose proof (rep_circ _ _ H _ _ Hd) as Hcd. pose proof (rep_circ _ _ H _ _ Hs) as Hcs.
  rewrite fmap_app in Hcd.
  pose proof (splice_nodup _ _ _ _ _ _ _ H Hds Hd Hs) as Hnd.
  assert (∀ y, y ∈ entries d (l1 ++ (x :: xs) ++ l2) → y ≠ QueueHead s) as Hns.
  { intros y [->|(p & -> & _)]%elem_entries; [|done]. by intros [= ->]. }
  assert (a ∈ entries d l1) as Ha by (unfold entries; rewrite H1; set_solver).
  assert (b ∈ entries d l2) as Hb.
  { assert (b ∈ (ListLink <$> l2) ++ [QueueHead d]) as Hin by (rewrite H2; by left).
    unfold entries. set_solver. }
  assert (z ∈ x :: xs) as Hzin by (rewrite Hz; set_solver).
  assert (circ (pNext m') (pPrev m') (QueueHead d) (ListLink <$> l1 ++ (x :: xs) ++ l2)) as Hc'.
  { eapply (circ_frame (<[a := ListLink x]> (<[ListLink z := b]> (pNext m)))
      (<[b := ListLink z]> (<[ListLink x := a]> (pPrev m)))).
    { intros y Hy. rewrite Hn, Hv. by rewrite !(lookup_insert_ne _ (QueueHead s)) by (symmetry; by apply Hns). }
    rewrite !fmap_app. eapply circ_insert_seg; [exact Hcd|exact H1|exact H2| |done| | |done|done].
    - by eapply circ_seg_path.
    - by rewrite Hz, fmap_app.
    - rewrite <- !fmap_app. apply NoDup_cons. split; [|by apply NoDup_fmap; [apply _|]].
      intros (? & ? & _)%list_elem_of_fmap. done. }
  apply (rep_intro m m' M _ (entries d (l1 ++ (x :: xs) ++ l2) ++ entries s [])); [done| | |].
  - intros y Hy. rewrite Hn, Hv. rewrite not_elem_of_app in Hy. destruct Hy as [Hy Hy'].
    assert (y ≠ a ∧ y ≠ b ∧ y ≠ ListLink x ∧ y ≠ ListLink z ∧ y ≠ QueueHead s) as (? & ? & ? & ? & ?).
    { rewrite !elem_entries in *. split_and!; intros ->; naive_solver set_solver. }
    by rewrite !lookup_insert_ne.
  - intros q l. destruct (decide (q = s)) as [->|Hqs]; [|destruct (decide (q = d)) as [->|Hqd]].
    + rewrite lookup_insert_eq. intros [= <-]. right. rewrite HD, Hn, Hv, lookup_insert_eq.
      split; [|done]. split; [|by apply NoDup_singleton]. cbn. by rewrite !lookup_insert_eq.
    + rewrite lookup_insert_ne, lookup_insert_eq by done. intros [= <-]. right. split; [done|].
      rewrite HD, lookup_insert_ne, lookup_insert_eq by done. f_equal. cbn [app length]. rewrite !length_app. cbn [length]. rewrite length_app. lia.
    + rewrite !lookup_insert_ne by done. intros Hq. left. split; [done|].
      rewrite HD, !lookup_insert_ne by done. split; [done|].
      intros y Hy. rewrite elem_of_app, !elem_entries. rewrite elem_entries in Hy.
      destruct Hy as [->|(p & -> & Hp)]; [naive_solver|].
      intros [[?|(p' & [= <-] & Hp')]|[?|(? & ? & Hn')]]; [done| |done|by apply elem_of_nil in Hn'].
      by apply (splice_other _ _ _ _ _ _ _ H Hds Hd Hs q l p).
  - intros q1 q2 l1' l2' p. by apply (splice_disj _ _ _ _ _ _ _ H Hds Hd Hs).
Qed.

(** The words of an empty source are left alone; otherwise they are spliced. *)
Lemma splice_words_tail m d s x z a :
  d ≠ s → pNext m !! s = Some (ListLink x) → pPrev m !! s = Some (ListLink z) →
  pPrev m !! d = Some a → ListLink x ≠ d → ListLink x ≠ s → ListLink z ≠ s → a ≠ s →
  DL_LIST_IS_EMPTY s m = Some (false, m) →
  dl_list_transfer_items_to_tail d s m = Some (tt, mk_dl_mem
    (<[s := s]> (<[a := ListLink x]> (<[ListLink z := d]> (pNext m))))
    (<[s := s]> (<[d := ListLink z]> (<[ListLink x := a]> (pPrev m)))) (Depth m)).
Proof.
  intros Hds Hx Hz Ha ???? Hemp. unfold dl_list_transfer_items_to_tail. mrun Hemp.
  cbn [negb when]. dl_run. reflexivity.
Qed.

Lemma splice_words_head m d s x z b :
  d ≠ s → pNext m !! s = Some (ListLink x) → pPrev m !! s = Some (ListLink z) →
  pNext m !! d = Some b → ListLink z ≠ d → ListLink x ≠ s → ListLink z ≠ s → b ≠ s →
  DL_LIST_IS_EMPTY s m = Some (false, m) →
  dl_list_transfer_items_to_head d s m = Some (tt, mk_dl_mem
    (<[s := s]> (<[d := ListLink x]> (<[ListLink z := b]> (pNext m))))
    (<[s := s]> (<[b := ListLink z]> (<[ListLink x := d]> (pPrev m)))) (Depth m)).
Proof.
  intros Hds Hx Hz Ha ???? Hemp. unfold dl_list_transfer_items_to_head. mrun Hemp.
  cbn [negb when]. dl_run. reflexivity.
Qed.

Lemma add_depths_run m d s (n n' : Z) : d ≠ s → Depth m !! d = Some n → Depth m !! s = Some n' →
  (k ← get_Depth s; add_Depth d k;; set_Depth s 0) m =
    Some (tt, mk_dl_mem (pNext m) (pPrev m) (<[s := 0]> (<[d := n + n']> (Depth m)))).
Proof.
  intros Hds Hd Hs. unfold get_Depth. mstep. rewrite (run_bind _ _ _ _ _ (add_Depth_run _ _ _ n' Hd)).
  reflexivity.
Qed.

(** What both transfers need to know of a source that is not empty. *)
Lemma source_ends m M s x xs : rep m M → M !! s = Some (x :: xs) →
  ∃ z zs, x :: xs = zs ++ [z] ∧ pNext m !! QueueHead s = Some (ListLink x) ∧
    pPrev m !! QueueHead s = Some (ListLink z) ∧
    DL_LIST_IS_EMPTY (QueueHead s) m = Some (false, m).
Proof.
  intros H Hs. pose proof (rep_first _ _ _ _ H Hs) as Hf. pose proof (rep_last _ _ _ _ H Hs) as Hl.
  pose proof (is_empty_run _ _ _ _ H Hs) as He.
  destruct xs as [|z zs _] using rev_ind; [by exists x, []|].
  rewrite app_comm_cons, last_snoc in Hl. by exists z, (x :: zs).
Qed.

Lemma head_entry_ne d s l a pre :
  d ≠ s → QueueHead d :: (ListLink <$> l) = pre ++ [a] → a ≠ QueueHead s.
Proof.
  intros Hds H1 ->. assert (QueueHead s ∈ entries d l) as Hin by (unfold entries; rewrite H1; set_solver).
  apply elem_entries in Hin as [[= ->]|(? & ? & _)]; done.
Qed.

Lemma tail_entry_ne d s l b post :
  d ≠ s → (ListLink <$> l) ++ [QueueHead d] = b :: post → b ≠ QueueHead s.
Proof.
  intros Hds H1 ->. assert (QueueHead s ∈ entries d l) as Hin.
  { assert (QueueHead s ∈ (ListLink <$> l) ++ [QueueHead d]) by (rewrite H1; by left).
    unfold entries. set_solver. }
  apply elem_entries in Hin as [[= ->]|(? & ? & _)]; done.
Qed.

Lemma transfer_empty m M d s l (t : DL unit) :
  rep m M → d ≠ s → M !! d = Some l → M !! s = Some [] → t m = Some (tt, m) →
  ∃ m', (t;; k ← get_Depth s; add_Depth d k;; set_Depth s 0) m = Some (tt, m') ∧
    rep m' (<[s := []]> (<[d := l]> M)).
Proof.
  intros H Hds Hd Hs Ht. rewrite (run_bind _ _ _ _ _ Ht).
  eexists. split; [by eapply add_depths_run; [done|exact (rep_depth _ _ H _ _ Hd)|exact (rep_depth _ _ H _ _ Hs)]|].
  rewrite (insert_id M d) by done. rewrite (insert_id M s) by done. rewrite Z.add_0_r.
  rewrite (insert_id (Depth m) d) by exact (rep_depth _ _ H _ _ Hd).
  rewrite (insert_id (Depth m) s) by exact (rep_depth _ _ H _ _ Hs). by destruct m.
Qed.

Lemma to_tail_refines d s :
  refines rep (q_transfer_to_tail (Q := dl_mem) d s) (q_transfer_to_tail (Q := queue_map) d s).
Proof.
  intros m M r M' H Hr. cbn in Hr. destruct (decide (d = s)) as [->|Hds];
    [by rewrite bool_decide_eq_true_2 in Hr|].
  rewrite bool_decide_eq_false_2 in Hr by done.
  apply list_of_inv in Hr as (ld & Hd & Hr). apply list_of_inv in Hr as (l & Hs & [= <- <-]).
  cbn. unfold HTC_PACKET_QUEUE_TRANSFER_TO_TAIL. destruct l as [|x xs].
  - rewrite app_nil_r. apply transfer_empty; try done.
    unfold dl_list_transfer_items_to_tail. by mrun (is_empty_run _ _ _ _ H Hs).
  - destruct (source_ends _ _ _ _ _ H Hs) as (z & zs & Hz & Hfirst & Hlast & Hemp).
    destruct (rep_gap _ _ _ _ ld [] H Hd) as (pre & a & b & post & H1 & H2 & _ & Hba);
      [by rewrite app_nil_r|]. cbn in H2. injection H2 as <- <-.
    rewrite (run_bind _ _ _ _ _ (splice_words_tail m (QueueHead d) (QueueHead s) x z a
      ltac:(congruence) Hfirst Hlast Hba ltac:(done) ltac:(done) ltac:(done)
      (head_entry_ne _ _ _ _ _ Hds H1) Hemp)).
    eexists. split; [apply add_depths_run;
      [done|exact (rep_depth _ _ H _ _ Hd)|exact (rep_depth _ _ H _ _ Hs)]|].
    rewrite <- (app_nil_r (x :: xs)) at 2.
    eapply (rep_splice m _ M d s ld [] x xs z zs); try done; by rewrite app_nil_r.
Qed.

Lemma to_head_refines d s :
  refines rep (q_transfer_to_head (Q := dl_mem) d s) (q_transfer_to_head (Q := queue_map) d s).
Proof.
  intros m M r M' H Hr. cbn in Hr. destruct (decide (d = s)) as [->|Hds];
    [by rewrite bool_decide_eq_true_2 in Hr|].
  rewrite bool_decide_eq_false_2 in Hr by done.
  apply list_of_inv in Hr as (ld & Hd & Hr). apply list_of_inv in Hr as (l & Hs & [= <- <-]).
  cbn. unfold HTC_PACKET_QUEUE_TRANSFER_TO_HEAD. destruct l as [|x xs].
  - apply transfer_empty; try done.
    unfold dl_list_transfer_items_to_head. by mrun (is_empty_run _ _ _ _ H Hs).
  - destruct (source_ends _ _ _ _ _ H Hs) as (z & zs & Hz & Hfirst & Hlast & Hemp).
    destruct (rep_gap _ _ _ _ [] ld H Hd) as (pre & a & b & post & H1 & H2 & Hab & _); [done|].
    destruct pre; [|by destruct pre]. cbn in H1. injection H1 as <-.
    rewrite (run_bind _ _ _ _ _ (splice_words_head m (QueueHead d) (QueueHead s) x z b
      ltac:(congruence) Hfirst Hlast Hab ltac:(done) ltac:(done) ltac:(done)
      (tail_entry_ne _ _ _ _ _ Hds H2) Hemp)).
    eexists. split; [apply add_depths_run;
      [done|exact (rep_depth _ _ H _ _ Hd)|exact (rep_depth _ _ H _ _ Hs)]|].
    by eapply (rep_splice m _ M d s [] ld x xs z zs []).
Qed.
End operations.

Lemma init_and_add_refines q p :
  refines rep (q_init_and_add (Q := dl_mem) q p) (q_init_and_add (Q := queue_map) q p).
Proof.
  intros m M a M' H Hr. cbn in Hr. apply link_inv in Hr as [Hu [= <- <-]]. cbn.
  unfold INIT_HTC_PACKET_QUEUE_AND_ADD, DL_LIST_INIT_AND_ADD. dl_run.
  eexists. split; [reflexivity|].
  eapply (rep_update m _ M q); [done|done| | |done|set_solver]; cbn [pNext pPrev put_next put_prev].
  - intros d Hd. unfold entries in Hd. rewrite fmap_app in Hd. rewrite !lookup_insert_ne; set_solver.
  - split; [|by repeat constructor; set_solver]. cbn. dl_lookup. done.
Qed.

(** The queues of the code are lists of packets. *)
#[export] Instance dl_refines_lists : QueueRefinement rep.
Proof.
  split; [apply init_refines|apply init_and_add_refines|apply depth_refines|apply enqueue_refines|apply enqueue_to_head_refines
    |apply remove_refines|apply dequeue_refines|apply dequeue_tail_refines|apply at_head_refines
    |apply to_tail_refines|apply to_head_refines|apply first_refines|apply next_refines].
Qed.
