(* ===== verification/HtcTypes.v ===== *)
(** The host-target channel: the types of [core/htc/htc_packet.h] and
    [htc_internal.h], and the buffers and surroundings its send path uses.

    Packets and network buffers are named by pointers and live in finite maps.
    The queues are behind the interface of [HtcQueue.v]: a state is a pair of
    queues and everything else, and an operation on either is lifted to the pair
    by [qop] and [op].  The build is the one for PCIe: no bundles of packets, no
    transmit scheduler, [ATH_11AC_TXCOMPACT] and runtime power management. *)
From S2P Require Import Prelude HtcQueue.

(** * Constants *)

Definition ENDPOINT_0 : Z := 0.
Definition ENDPOINT_MAX : Z := 9.
Definition WMI_CONTROL_SVC : Z := 0x100.
Definition HTC_TX_PACKET_TAG_BUNDLED : Z := 11.
Definition HTC_TX_PACKET_TAG_AUTO_PM : Z := 12.
Definition HTC_TX_PACKET_TAG_RUNTIME_PUT : Z := 13.
Definition HTC_TX_PACKET_FLAG_FIXUP_NETBUF : Z := 1.
Definition HTC_FLAGS_NEED_CREDIT_UPDATE : Z := 1.
Definition HTC_HDR_LENGTH : Z := 8.
Definition HTC_STATE_STOPPING : Z := 1.
Definition HTC_CREDIT_HISTORY_MAX : Z := 1024.
Definition HTC_DATA_RESOURCE_THRS : Z := 256.
Definition HTC_DATA_MINDESC_PERPACKET : Z := 2.

(** [A_STATUS] *)
Definition A_ERROR : Z := -1.
Definition A_OK : Z := 0.
Definition A_EINVAL : Z := 14.
Definition A_ECANCELED : Z := 16.
Definition A_EPROTO : Z := 19.
Definition A_NO_RESOURCE : Z := 22.

Inductive htc_credit_exchange_type : Type :=
| HTC_REQUEST_CREDIT
| HTC_PROCESS_CREDIT_REPORT
| HTC_SUSPEND_ACK
| HTC_SUSPEND_NACK.

(** [(type, tx_credit, htc_tx_queue_depth)] of the credit history *)
Definition HTC_CREDIT_HISTORY : Type := htc_credit_exchange_type * Z * Z.

(** Fields of a 32-bit word: [SM] and [MS] with the shift and the mask written out. *)
Definition SM (v lsb mask : Z) : Z := Z.land (u32 (Z.shiftl v lsb)) mask.
Definition HTC_FRAME_HDR_ENDPOINTID (v : Z) : Z := SM v 0 0x000000ff.
Definition HTC_FRAME_HDR_FLAGS (v : Z) : Z := SM v 8 0x0000ff00.
Definition HTC_FRAME_HDR_PAYLOADLEN (v : Z) : Z := SM v 16 0xffff0000.
Definition HTC_FRAME_HDR_CONTROLBYTES1 (v : Z) : Z := SM v 8 0x0000ff00.

(** A 32-bit word in memory *)
Definition word_bytes (v : Z) : list Z :=
  [Z.land v 0xff; Z.land (Z.shiftr v 8) 0xff; Z.land (Z.shiftr v 16) 0xff;
   Z.land (Z.shiftr v 24) 0xff].

(** A packet, as far as the send path uses it. *)
Record HTC_PACKET : Type := mk_packet {
  pkt_Endpoint : Z;
  ActualLength : Z;
  Status : Z;
  Tag : Z;
  CreditsUsed : Z;
  SendFlags : Z;
  pkt_SeqNo : Z;
  Flags : Z;
  pNetBufContext : positive;
}.

Definition set_pkt_Endpoint (v : Z) (r : HTC_PACKET) : HTC_PACKET :=
  mk_packet v (ActualLength r) (Status r) (Tag r) (CreditsUsed r) (SendFlags r) (pkt_SeqNo r) (Flags r) (pNetBufContext r).
Definition set_ActualLength (v : Z) (r : HTC_PACKET) : HTC_PACKET :=
  mk_packet (pkt_Endpoint r) v (Status r) (Tag r) (CreditsUsed r) (SendFlags r) (pkt_SeqNo r) (Flags r) (pNetBufContext r).
Definition set_Status (v : Z) (r : HTC_PACKET) : HTC_PACKET :=
  mk_packet (pkt_Endpoint r) (ActualLength r) v (Tag r) (CreditsUsed r) (SendFlags r) (pkt_SeqNo r) (Flags r) (pNetBufContext r).
Definition set_Tag (v : Z) (r : HTC_PACKET) : HTC_PACKET :=
  mk_packet (pkt_Endpoint r) (ActualLength r) (Status r) v (CreditsUsed r) (SendFlags r) (pkt_SeqNo r) (Flags r) (pNetBufContext r).
Definition set_CreditsUsed (v : Z) (r : HTC_PACKET) : HTC_PACKET :=
  mk_packet (pkt_Endpoint r) (ActualLength r) (Status r) (Tag r) v (SendFlags r) (pkt_SeqNo r) (Flags r) (pNetBufContext r).
Definition set_SendFlags (v : Z) (r : HTC_PACKET) : HTC_PACKET :=
  mk_packet (pkt_Endpoint r) (ActualLength r) (Status r) (Tag r) (CreditsUsed r) v (pkt_SeqNo r) (Flags r) (pNetBufContext r).
Definition set_pkt_SeqNo (v : Z) (r : HTC_PACKET) : HTC_PACKET :=
  mk_packet (pkt_Endpoint r) (ActualLength r) (Status r) (Tag r) (CreditsUsed r) (SendFlags r) v (Flags r) (pNetBufContext r).
Definition set_Flags (v : Z) (r : HTC_PACKET) : HTC_PACKET :=
  mk_packet (pkt_Endpoint r) (ActualLength r) (Status r) (Tag r) (CreditsUsed r) (SendFlags r) (pkt_SeqNo r) v (pNetBufContext r).
Definition set_pNetBufContext (v : positive) (r : HTC_PACKET) : HTC_PACKET :=
  mk_packet (pkt_Endpoint r) (ActualLength r) (Status r) (Tag r) (CreditsUsed r) (SendFlags r) (pkt_SeqNo r) (Flags r) v.

(** A network buffer: the bytes in front of [skb->data], nearest first, and those
    from there on; the memory of the extra first fragment, if it has one; and
    whether it is mapped for the device. *)
Record sk_buff : Type := mk_skb {
  headroom : list Z;
  data : list Z;
  extra_frag : option (list Z);
  mapped : bool;
}.

Definition set_headroom (v : list Z) (r : sk_buff) : sk_buff :=
  mk_skb v (data r) (extra_frag r) (mapped r).
Definition set_data (v : list Z) (r : sk_buff) : sk_buff :=
  mk_skb (headroom r) v (extra_frag r) (mapped r).
Definition set_extra_frag (v : option (list Z)) (r : sk_buff) : sk_buff :=
  mk_skb (headroom r) (data r) v (mapped r).
Definition set_mapped (v : bool) (r : sk_buff) : sk_buff :=
  mk_skb (headroom r) (data r) (extra_frag r) v.

(** An endpoint; [has_] says which of its callbacks are there. *)
Record HTC_ENDPOINT : Type := mk_endpoint {
  Id : Z;
  service_id : Z;
  has_EpSendFull : bool;
  has_EpTxCompleteMultiple : bool;
  has_resume_tx_queue : bool;
  MaxTxQueueDepth : Z;
  MaxMsgLength : Z;
  UL_PipeID : Z;
  ul_is_polled : bool;
  ul_outstanding_cnt : Z;
  SeqNo : Z;
  TxProcessCount : Z;
  TxCredits : Z;
  TxCreditSize : Z;
  TxCreditsPerMaxMsg : Z;
  TxCreditFlowEnabled : bool;
}.

Definition set_Id (v : Z) (r : HTC_ENDPOINT) : HTC_ENDPOINT :=
  mk_endpoint v (service_id r) (has_EpSendFull r) (has_EpTxCompleteMultiple r) (has_resume_tx_queue r) (MaxTxQueueDepth r) (MaxMsgLength r) (UL_PipeID r) (ul_is_polled r) (ul_outstanding_cnt r) (SeqNo r) (TxProcessCount r) (TxCredits r) (TxCreditSize r) (TxCreditsPerMaxMsg r) (TxCreditFlowEnabled r).
Definition set_service_id (v : Z) (r : HTC_ENDPOINT) : HTC_ENDPOINT :=
  mk_endpoint (Id r) v (has_EpSendFull r) (has_EpTxCompleteMultiple r) (has_resume_tx_queue r) (MaxTxQueueDepth r) (MaxMsgLength r) (UL_PipeID r) (ul_is_polled r) (ul_outstanding_cnt r) (SeqNo r) (TxProcessCount r) (TxCredits r) (TxCreditSize r) (TxCreditsPerMaxMsg r) (TxCreditFlowEnabled r).
Definition set_has_EpSendFull (v : bool) (r : HTC_ENDPOINT) : HTC_ENDPOINT :=
  mk_endpoint (Id r) (service_id r) v (has_EpTxCompleteMultiple r) (has_resume_tx_queue r) (MaxTxQueueDepth r) (MaxMsgLength r) (UL_PipeID r) (ul_is_polled r) (ul_outstanding_cnt r) (SeqNo r) (TxProcessCount r) (TxCredits r) (TxCreditSize r) (TxCreditsPerMaxMsg r) (TxCreditFlowEnabled r).
Definition set_has_EpTxCompleteMultiple (v : bool) (r : HTC_ENDPOINT) : HTC_ENDPOINT :=
  mk_endpoint (Id r) (service_id r) (has_EpSendFull r) v (has_resume_tx_queue r) (MaxTxQueueDepth r) (MaxMsgLength r) (UL_PipeID r) (ul_is_polled r) (ul_outstanding_cnt r) (SeqNo r) (TxProcessCount r) (TxCredits r) (TxCreditSize r) (TxCreditsPerMaxMsg r) (TxCreditFlowEnabled r).
Definition set_has_resume_tx_queue (v : bool) (r : HTC_ENDPOINT) : HTC_ENDPOINT :=
  mk_endpoint (Id r) (service_id r) (has_EpSendFull r) (has_EpTxCompleteMultiple r) v (MaxTxQueueDepth r) (MaxMsgLength r) (UL_PipeID r) (ul_is_polled r) (ul_outstanding_cnt r) (SeqNo r) (TxProcessCount r) (TxCredits r) (TxCreditSize r) (TxCreditsPerMaxMsg r) (TxCreditFlowEnabled r).
Definition set_MaxTxQueueDepth (v : Z) (r : HTC_ENDPOINT) : HTC_ENDPOINT :=
  mk_endpoint (Id r) (service_id r) (has_EpSendFull r) (has_EpTxCompleteMultiple r) (has_resume_tx_queue r) v (MaxMsgLength r) (UL_PipeID r) (ul_is_polled r) (ul_outstanding_cnt r) (SeqNo r) (TxProcessCount r) (TxCredits r) (TxCreditSize r) (TxCreditsPerMaxMsg r) (TxCreditFlowEnabled r).
Definition set_MaxMsgLength (v : Z) (r : HTC_ENDPOINT) : HTC_ENDPOINT :=
  mk_endpoint (Id r) (service_id r) (has_EpSendFull r) (has_EpTxCompleteMultiple r) (has_resume_tx_queue r) (MaxTxQueueDepth r) v (UL_PipeID r) (ul_is_polled r) (ul_outstanding_cnt r) (SeqNo r) (TxProcessCount r) (TxCredits r) (TxCreditSize r) (TxCreditsPerMaxMsg r) (TxCreditFlowEnabled r).
Definition set_UL_PipeID (v : Z) (r : HTC_ENDPOINT) : HTC_ENDPOINT :=
  mk_endpoint (Id r) (service_id r) (has_EpSendFull r) (has_EpTxCompleteMultiple r) (has_resume_tx_queue r) (MaxTxQueueDepth r) (MaxMsgLength r) v (ul_is_polled r) (ul_outstanding_cnt r) (SeqNo r) (TxProcessCount r) (TxCredits r) (TxCreditSize r) (TxCreditsPerMaxMsg r) (TxCreditFlowEnabled r).
Definition set_ul_is_polled (v : bool) (r : HTC_ENDPOINT) : HTC_ENDPOINT :=
  mk_endpoint (Id r) (service_id r) (has_EpSendFull r) (has_EpTxCompleteMultiple r) (has_resume_tx_queue r) (MaxTxQueueDepth r) (MaxMsgLength r) (UL_PipeID r) v (ul_outstanding_cnt r) (SeqNo r) (TxProcessCount r) (TxCredits r) (TxCreditSize r) (TxCreditsPerMaxMsg r) (TxCreditFlowEnabled r).
Definition set_ul_outstanding_cnt (v : Z) (r : HTC_ENDPOINT) : HTC_ENDPOINT :=
  mk_endpoint (Id r) (service_id r) (has_EpSendFull r) (has_EpTxCompleteMultiple r) (has_resume_tx_queue r) (MaxTxQueueDepth r) (MaxMsgLength r) (UL_PipeID r) (ul_is_polled r) v (SeqNo r) (TxProcessCount r) (TxCredits r) (TxCreditSize r) (TxCreditsPerMaxMsg r) (TxCreditFlowEnabled r).
Definition set_SeqNo (v : Z) (r : HTC_ENDPOINT) : HTC_ENDPOINT :=
  mk_endpoint (Id r) (service_id r) (has_EpSendFull r) (has_EpTxCompleteMultiple r) (has_resume_tx_queue r) (MaxTxQueueDepth r) (MaxMsgLength r) (UL_PipeID r) (ul_is_polled r) (ul_outstanding_cnt r) v (TxProcessCount r) (TxCredits r) (TxCreditSize r) (TxCreditsPerMaxMsg r) (TxCreditFlowEnabled r).
Definition set_TxProcessCount (v : Z) (r : HTC_ENDPOINT) : HTC_ENDPOINT :=
  mk_endpoint (Id r) (service_id r) (has_EpSendFull r) (has_EpTxCompleteMultiple r) (has_resume_tx_queue r) (MaxTxQueueDepth r) (MaxMsgLength r) (UL_PipeID r) (ul_is_polled r) (ul_outstanding_cnt r) (SeqNo r) v (TxCredits r) (TxCreditSize r) (TxCreditsPerMaxMsg r) (TxCreditFlowEnabled r).
Definition set_TxCredits (v : Z) (r : HTC_ENDPOINT) : HTC_ENDPOINT :=
  mk_endpoint (Id r) (service_id r) (has_EpSendFull r) (has_EpTxCompleteMultiple r) (has_resume_tx_queue r) (MaxTxQueueDepth r) (MaxMsgLength r) (UL_PipeID r) (ul_is_polled r) (ul_outstanding_cnt r) (SeqNo r) (TxProcessCount r) v (TxCreditSize r) (TxCreditsPerMaxMsg r) (TxCreditFlowEnabled r).
Definition set_TxCreditSize (v : Z) (r : HTC_ENDPOINT) : HTC_ENDPOINT :=
  mk_endpoint (Id r) (service_id r) (has_EpSendFull r) (has_EpTxCompleteMultiple r) (has_resume_tx_queue r) (MaxTxQueueDepth r) (MaxMsgLength r) (UL_PipeID r) (ul_is_polled r) (ul_outstanding_cnt r) (SeqNo r) (TxProcessCount r) (TxCredits r) v (TxCreditsPerMaxMsg r) (TxCreditFlowEnabled r).
Definition set_TxCreditsPerMaxMsg (v : Z) (r : HTC_ENDPOINT) : HTC_ENDPOINT :=
  mk_endpoint (Id r) (service_id r) (has_EpSendFull r) (has_EpTxCompleteMultiple r) (has_resume_tx_queue r) (MaxTxQueueDepth r) (MaxMsgLength r) (UL_PipeID r) (ul_is_polled r) (ul_outstanding_cnt r) (SeqNo r) (TxProcessCount r) (TxCredits r) (TxCreditSize r) v (TxCreditFlowEnabled r).
Definition set_TxCreditFlowEnabled (v : bool) (r : HTC_ENDPOINT) : HTC_ENDPOINT :=
  mk_endpoint (Id r) (service_id r) (has_EpSendFull r) (has_EpTxCompleteMultiple r) (has_resume_tx_queue r) (MaxTxQueueDepth r) (MaxMsgLength r) (UL_PipeID r) (ul_is_polled r) (ul_outstanding_cnt r) (SeqNo r) (TxProcessCount r) (TxCredits r) (TxCreditSize r) (TxCreditsPerMaxMsg r) v.

(** What the channel does to its surroundings. *)
Inductive htc_event : Type :=
| EvSendHead (ep nbytes : Z) (netbuf : positive) (is_mapped : bool)
| EvTxComplete (ep : Z) (p : positive) (status : Z)
| EvSendFull (ep : Z) (p : positive)
| EvResumeTxQueue (ep : Z).

(** The packets that have been completed, in order *)
Definition completed_packet (v : htc_event) : option positive :=
  match v with
  | EvTxComplete _ p _ => Some p
  | _ => None
  end.
Definition completed (l : list htc_event) : list positive := omap completed_packet l.

(** The channel's state beside its queues, with the credit history, the memory of
    packets and buffers, the next address for a local queue, how often the bus is
    held awake, and the log. *)
Record HTC_TARGET : Type := mk_target {
  endpoint : gmap Z HTC_ENDPOINT;
  HTCStateFlags : Z;
  htc_get_pkt_q_fail_count : Z;
  htc_pkt_q_empty_count : Z;
  htc_send_q_empty_count : Z;
  ce_send_cnt : Z;
  TX_comp_cnt : Z;
  g_htc_credit_history_idx : Z;
  htc_credit_history_buffer : list HTC_CREDIT_HISTORY;
  packets : gmap positive HTC_PACKET;
  nbufs : gmap positive sk_buff;
  next_local : positive;
  pm_usage : Z;
  log : list htc_event;
}.

Definition set_endpoint (v : gmap Z HTC_ENDPOINT) (r : HTC_TARGET) : HTC_TARGET :=
  mk_target v (HTCStateFlags r) (htc_get_pkt_q_fail_count r) (htc_pkt_q_empty_count r) (htc_send_q_empty_count r) (ce_send_cnt r) (TX_comp_cnt r) (g_htc_credit_history_idx r) (htc_credit_history_buffer r) (packets r) (nbufs r) (next_local r) (pm_usage r) (log r).
Definition set_HTCStateFlags (v : Z) (r : HTC_TARGET) : HTC_TARGET :=
  mk_target (endpoint r) v (htc_get_pkt_q_fail_count r) (htc_pkt_q_empty_count r) (htc_send_q_empty_count r) (ce_send_cnt r) (TX_comp_cnt r) (g_htc_credit_history_idx r) (htc_credit_history_buffer r) (packets r) (nbufs r) (next_local r) (pm_usage r) (log r).
Definition set_htc_get_pkt_q_fail_count (v : Z) (r : HTC_TARGET) : HTC_TARGET :=
  mk_target (endpoint r) (HTCStateFlags r) v (htc_pkt_q_empty_count r) (htc_send_q_empty_count r) (ce_send_cnt r) (TX_comp_cnt r) (g_htc_credit_history_idx r) (htc_credit_history_buffer r) (packets r) (nbufs r) (next_local r) (pm_usage r) (log r).
Definition set_htc_pkt_q_empty_count (v : Z) (r : HTC_TARGET) : HTC_TARGET :=
  mk_target (endpoint r) (HTCStateFlags r) (htc_get_pkt_q_fail_count r) v (htc_send_q_empty_count r) (ce_send_cnt r) (TX_comp_cnt r) (g_htc_credit_history_idx r) (htc_credit_history_buffer r) (packets r) (nbufs r) (next_local r) (pm_usage r) (log r).
Definition set_htc_send_q_empty_count (v : Z) (r : HTC_TARGET) : HTC_TARGET :=
  mk_target (endpoint r) (HTCStateFlags r) (htc_get_pkt_q_fail_count r) (htc_pkt_q_empty_count r) v (ce_send_cnt r) (TX_comp_cnt r) (g_htc_credit_history_idx r) (htc_credit_history_buffer r) (packets r) (nbufs r) (next_local r) (pm_usage r) (log r).
Definition set_ce_send_cnt (v : Z) (r : HTC_TARGET) : HTC_TARGET :=
  mk_target (endpoint r) (HTCStateFlags r) (htc_get_pkt_q_fail_count r) (htc_pkt_q_empty_count r) (htc_send_q_empty_count r) v (TX_comp_cnt r) (g_htc_credit_history_idx r) (htc_credit_history_buffer r) (packets r) (nbufs r) (next_local r) (pm_usage r) (log r).
Definition set_TX_comp_cnt (v : Z) (r : HTC_TARGET) : HTC_TARGET :=
  mk_target (endpoint r) (HTCStateFlags r) (htc_get_pkt_q_fail_count r) (htc_pkt_q_empty_count r) (htc_send_q_empty_count r) (ce_send_cnt r) v (g_htc_credit_history_idx r) (htc_credit_history_buffer r) (packets r) (nbufs r) (next_local r) (pm_usage r) (log r).
Definition set_g_htc_credit_history_idx (v : Z) (r : HTC_TARGET) : HTC_TARGET :=
  mk_target (endpoint r) (HTCStateFlags r) (htc_get_pkt_q_fail_count r) (htc_pkt_q_empty_count r) (htc_send_q_empty_count r) (ce_send_cnt r) (TX_comp_cnt r) v (htc_credit_history_buffer r) (packets r) (nbufs r) (next_local r) (pm_usage r) (log r).
Definition set_htc_credit_history_buffer (v : list HTC_CREDIT_HISTORY) (r : HTC_TARGET) : HTC_TARGET :=
  mk_target (endpoint r) (HTCStateFlags r) (htc_get_pkt_q_fail_count r) (htc_pkt_q_empty_count r) (htc_send_q_empty_count r) (ce_send_cnt r) (TX_comp_cnt r) (g_htc_credit_history_idx r) v (packets r) (nbufs r) (next_local r) (pm_usage r) (log r).
Definition set_packets (v : gmap positive HTC_PACKET) (r : HTC_TARGET) : HTC_TARGET :=
  mk_target (endpoint r) (HTCStateFlags r) (htc_get_pkt_q_fail_count r) (htc_pkt_q_empty_count r) (htc_send_q_empty_count r) (ce_send_cnt r) (TX_comp_cnt r) (g_htc_credit_history_idx r) (htc_credit_history_buffer r) v (nbufs r) (next_local r) (pm_usage r) (log r).
Definition set_nbufs (v : gmap positive sk_buff) (r : HTC_TARGET) : HTC_TARGET :=
  mk_target (endpoint r) (HTCStateFlags r) (htc_get_pkt_q_fail_count r) (htc_pkt_q_empty_count r) (htc_send_q_empty_count r) (ce_send_cnt r) (TX_comp_cnt r) (g_htc_credit_history_idx r) (htc_credit_history_buffer r) (packets r) v (next_local r) (pm_usage r) (log r).
Definition set_next_local (v : positive) (r : HTC_TARGET) : HTC_TARGET :=
  mk_target (endpoint r) (HTCStateFlags r) (htc_get_pkt_q_fail_count r) (htc_pkt_q_empty_count r) (htc_send_q_empty_count r) (ce_send_cnt r) (TX_comp_cnt r) (g_htc_credit_history_idx r) (htc_credit_history_buffer r) (packets r) (nbufs r) v (pm_usage r) (log r).
Definition set_pm_usage (v : Z) (r : HTC_TARGET) : HTC_TARGET :=
  mk_target (endpoint r) (HTCStateFlags r) (htc_get_pkt_q_fail_count r) (htc_pkt_q_empty_count r) (htc_send_q_empty_count r) (ce_send_cnt r) (TX_comp_cnt r) (g_htc_credit_history_idx r) (htc_credit_history_buffer r) (packets r) (nbufs r) (next_local r) v (log r).
Definition set_log (v : list htc_event) (r : HTC_TARGET) : HTC_TARGET :=
  mk_target (endpoint r) (HTCStateFlags r) (htc_get_pkt_q_fail_count r) (htc_pkt_q_empty_count r) (htc_send_q_empty_count r) (ce_send_cnt r) (TX_comp_cnt r) (g_htc_credit_history_idx r) (htc_credit_history_buffer r) (packets r) (nbufs r) (next_local r) (pm_usage r) v.

(** What the channel is told by its surroundings during a step: whether the bus is
    awake, what [hif_send_head] returns, how many descriptors the pipe has free,
    and whether the [EpSendFull] callback drops a packet. *)
Record hif_env : Type := mk_hif {
  pm_awake : bool;
  hif_send_status : Z;
  free_queue_number : Z;
  send_full_drops : positive → bool;
}.

(** * Accessors *)

Abbreviation TM := (CM HTC_TARGET).

Definition get_ep (e : Z) : TM HTC_ENDPOINT := o ← gets (λ t, endpoint t !! e); deref o.
Definition upd_ep (e : Z) (f : HTC_ENDPOINT → HTC_ENDPOINT) : TM unit :=
  x ← get_ep e; modify (λ t, set_endpoint (<[e := f x]> (endpoint t)) t).
Definition get_pkt (p : positive) : TM HTC_PACKET := o ← gets (λ t, packets t !! p); deref o.
Definition upd_pkt (p : positive) (f : HTC_PACKET → HTC_PACKET) : TM unit :=
  x ← get_pkt p; modify (λ t, set_packets (<[p := f x]> (packets t)) t).
Definition get_nbuf (b : positive) : TM sk_buff := o ← gets (λ t, nbufs t !! b); deref o.
Definition upd_nbuf (b : positive) (f : sk_buff → option sk_buff) : TM unit :=
  x ← get_nbuf b; y ← deref (f x); modify (λ t, set_nbufs (<[b := y]> (nbufs t)) t).
Definition emit (v : htc_event) : TM unit := modify (λ t, set_log (log t ++ [v]) t).

(** * Network buffers *)

(** [skb_push] has no result when the headroom is too small. *)
Definition skb_push (n : nat) (b : sk_buff) : option sk_buff :=
  if (n <=? length (headroom b))%nat
  then Some (set_headroom (drop n (headroom b))
         (set_data (rev (take n (headroom b)) ++ data b) b))
  else None.
(** [skb_pull] leaves the buffer alone when it is too short. *)
Definition skb_pull (n : nat) (b : sk_buff) : option sk_buff :=
  Some (if (n <=? length (data b))%nat
        then set_headroom (rev (take n (data b)) ++ headroom b) (set_data (drop n (data b)) b)
        else b).

Definition write_at (l : list Z) (p : nat) (bs : list Z) : option (list Z) :=
  if (p + length bs <=? length l)%nat
  then Some (take p l ++ bs ++ drop (p + length bs) l)
  else None.

(** [HTC_WRITE32] at an offset into the first fragment of a buffer *)
Definition frag0_write (p : nat) (v : Z) (b : sk_buff) : option sk_buff :=
  match extra_frag b with
  | Some m => m ← write_at m p (word_bytes v); Some (set_extra_frag (Some m) b)
  | None => m ← write_at (data b) p (word_bytes v); Some (set_data m b)
  end.
Definition num_frags (b : sk_buff) : Z := if extra_frag b is Some _ then 2 else 1.

Definition cdf_nbuf_push_head (b : positive) (n : nat) : TM unit := upd_nbuf b (skb_push n).
Definition cdf_nbuf_pull_head (b : positive) (n : nat) : TM unit := upd_nbuf b (skb_pull n).
Definition HTC_WRITE32 (b : positive) (p : nat) (v : Z) : TM unit := upd_nbuf b (frag0_write p v).
Definition cdf_nbuf_map (b : positive) : TM unit := upd_nbuf b (λ x, Some (set_mapped true x)).
Definition cdf_nbuf_unmap (b : positive) : TM unit := upd_nbuf b (λ x, Some (set_mapped false x)).

(** * The bus *)

(** A get on a suspended bus only asks for it to be resumed; it returns whether
    it failed. *)
Definition hif_pm_runtime_get (env : hif_env) : TM bool :=
  if pm_awake env then modify (λ t, set_pm_usage (pm_usage t + 1) t);; mret false
  else mret true.
Definition hif_pm_runtime_put : TM unit := modify (λ t, set_pm_usage (pm_usage t - 1) t).

Definition hif_send_head (env : hif_env) (ep : Z) (nbytes : Z) (netbuf : positive) : TM Z :=
  b ← get_nbuf netbuf;
  when (hif_send_status env =? A_OK) (emit (EvSendHead ep nbytes netbuf (mapped b)));;
  mret (hif_send_status env).

(** * Queues and the rest *)

Abbreviation HM Q := (CM (Q * HTC_TARGET)).

Section lift.
Context {Q : Type} `{PacketQueue Q}.

Definition qop {A} (m : CM Q A) : HM Q A := zoom fst (λ q s, (q, s.2)) m.
Definition op {A} (m : TM A) : HM Q A := zoom snd (λ t s, (s.1, t)) m.

(** A queue that is a local variable of a function *)
Definition new_queue : HM Q htc_queue :=
  n ← op (gets next_local);
  op (modify (set_next_local (Pos.succ n)));;
  qop (q_init (LocalQueue n));;
  mret (LocalQueue n).

(** [HTC_QUEUE_EMPTY] *)
Definition q_empty (q : htc_queue) : HM Q bool := d ← qop (q_depth q); mret (d =? 0).
End lift.
