(* ===== verification/HtcSend.v ===== *)
(** The send path of the host-target channel: [core/htc/htc_send.c].

    The transmit lock of the channel protects its queues, so a function is cut
    where it takes or releases the lock, and where it calls the bus: a [task] is
    the rest of a function at such a point, with its local variables and what its
    caller does next ([cont]), and [run_task] runs it up to the next one.  Nothing
    else may run in between; anything may run at the cuts.  Every function of the
    file is generic in the queues ([PacketQueue]). *)
From S2P Require Import Prelude HtcQueue HtcTypes.

(** Where a call of [htc_try_send] returns to. *)
Inductive cont : Type :=
| KReturn
| KLeftover (ep : Z) (q : htc_queue)                 (* [htc_send_pkts_multiple] *)
| KCredit (rpt : list (Z * Z)) (trailer : list Z)    (* [htc_process_credit_rpt] *)
| KKick (i : Z).                                     (* [htc_kick_queues] *)

Inductive task : Type :=
| TSendMultiple (q : htc_queue)
| TPrepare (ep : Z) (q : htc_queue) (pTemp : option positive)
| TTrySend (ep : Z) (k : cont)
| TAdmit (ep : Z) (sendQueue : htc_queue) (full : bool) (k : cont)
| TEnter (ep : Z) (sendQueue : htc_queue) (tx_resources : Z) (k : cont)
| TDrain (ep : Z) (sendQueue : htc_queue) (tx_resources : Z) (k : cont)
| TIssue (ep : Z) (sendQueue : htc_queue) (k : cont)
| THif (ep : Z) (sendQueue : htc_queue) (p : positive) (k : cont)
| TReclaim (ep : Z) (sendQueue : htc_queue) (p : positive) (k : cont)
| TFail (ep : Z) (sendQueue : htc_queue) (k : cont)
| TClear (ep : Z) (k : cont)
| TLeftover (ep : Z) (q : htc_queue)
| TComplete (ep : Z) (netbuf : positive)
| TSearch (ep : Z) (netbuf : positive) (lookupQueue : htc_queue)
| TIndicate (ep : Z) (p : option positive)
| TCredit (rpt : list (Z * Z)) (trailer : list Z)
| TTrailer (trailer : list Z)
| TFlush (ep : Z)
| TKick (i : Z)
| TDone (status : Z).

Definition resume (k : cont) : task :=
  match k with
  | KReturn => TDone A_OK
  | KLeftover ep q => TLeftover ep q
  | KCredit rpt trailer => TCredit rpt trailer
  | KKick i => TKick i
  end.

(** The queue the caller of [htc_try_send] passes, if it does. *)
Definition callers_queue (k : cont) : option htc_queue :=
  match k with
  | KLeftover _ q => Some q
  | _ => None
  end.

Section send.
Context {Q : Type} `{PacketQueue Q}.

(** * Completions *)

Definition htc_credit_record (type : htc_credit_exchange_type) (tx_credit depth : Z) : TM unit :=
  i ← gets g_htc_credit_history_idx;
  when (HTC_CREDIT_HISTORY_MAX <=? i) (modify (set_g_htc_credit_history_idx 0));;
  i ← gets g_htc_credit_history_idx;
  l ← gets htc_credit_history_buffer;
  if (0 <=? i) && (i <? Z.of_nat (length l)) then
    modify (set_htc_credit_history_buffer (<[Z.to_nat i := (type, tx_credit, depth)]> l));;
    modify (set_g_htc_credit_history_idx (u32 (i + 1)))
  else ub.

Definition restore_tx_packet (p : positive) : TM unit :=
  pkt ← get_pkt p;
  when (negb (Z.land (Flags pkt) HTC_TX_PACKET_FLAG_FIXUP_NETBUF =? 0)) (
    cdf_nbuf_unmap (pNetBufContext pkt);;
    cdf_nbuf_pull_head (pNetBufContext pkt) 8;;
    upd_pkt p (λ x, set_Flags (Z.ldiff (Flags x) HTC_TX_PACKET_FLAG_FIXUP_NETBUF) x)).

(** The callback is told of a packet, with the status the packet has. *)
Definition ep_tx_complete (ep : Z) (p : positive) : TM unit :=
  pkt ← get_pkt p; emit (EvTxComplete ep p (Status pkt)).

(** [EpTxCompleteMultiple] walks the queue it is given. *)
Fixpoint complete_multiple (fuel : nat) (ep : Z) (q : htc_queue) (pTemp : option positive) : HM Q unit :=
  match pTemp, fuel with
  | None, _ => mret tt
  | Some p, O => ub
  | Some p, S fuel =>
      next ← qop (q_next q p);
      op (ep_tx_complete ep p);;
      complete_multiple fuel ep q next
  end.

Fixpoint complete_each (fuel : nat) (ep : Z) (q : htc_queue) : HM Q unit :=
  match fuel with
  | O => ub
  | S fuel =>
      p ← qop (q_dequeue q);
      p ← deref p;
      op (ep_tx_complete ep p);;
      empty ← q_empty q;
      if empty : bool then mret tt else complete_each fuel ep q
  end.

Definition do_send_completion (ep : Z) (q : htc_queue) : HM Q unit :=
  empty ← q_empty q;
  when (negb empty) (
    e ← op (get_ep ep);
    d ← qop (q_depth q);
    if has_EpTxCompleteMultiple e then
      first ← qop (q_first q);
      complete_multiple (Z.to_nat d) ep q first;;
      qop (q_init q)
    else complete_each (Z.to_nat d) ep q).

Definition send_packet_completion (p : positive) : HM Q unit :=
  pkt ← op (get_pkt p);
  op (restore_tx_packet p);;
  n ← op (gets next_local);
  op (modify (set_next_local (Pos.succ n)));;
  qop (q_init_and_add (LocalQueue n) p);;
  do_send_completion (pkt_Endpoint pkt) (LocalQueue n).

(** * Packets out of the transmit queue *)

Fixpoint extract_loop (fuel : nat) (ep : Z) (queue : htc_queue) (pTemp : option positive) : HM Q unit :=
  match pTemp, fuel with
  | None, _ => mret tt
  | Some p, O => ub
  | Some p, S fuel =>
      next ← qop (q_next (TxQueue ep) p);
      pkt ← op (get_pkt p);
      when (Tag pkt =? HTC_TX_PACKET_TAG_AUTO_PM) (
        qop (q_remove (TxQueue ep) p);;
        qop (q_enqueue queue p));;
      extract_loop fuel ep queue next
  end.

Definition extract_htc_pm_packets (ep : Z) (queue : htc_queue) : HM Q unit :=
  e ← op (get_ep ep);
  when (service_id e =? WMI_CONTROL_SVC) (
    d ← qop (q_depth (TxQueue ep));
    first ← qop (q_first (TxQueue ep));
    extract_loop (Z.to_nat d) ep queue first).

Definition queue_htc_pm_packets (ep : Z) (queue : htc_queue) : HM Q unit :=
  e ← op (get_ep ep);
  when (service_id e =? WMI_CONTROL_SVC) (qop (q_transfer_to_head (TxQueue ep) queue)).

(** The credits a packet needs; there is none when a size of zero is divided by. *)
Definition creditsRequired (e : HTC_ENDPOINT) (pkt : HTC_PACKET) : option Z :=
  let transferLength := u32 (ActualLength pkt + HTC_HDR_LENGTH) in
  let size := u32 (TxCreditSize e) in
  if transferLength <=? size then Some 1
  else if size =? 0 then None
  else
    let n := transferLength `div` size in
    let remainder := transferLength `mod` size in
    Some (if remainder =? 0 then n else n + 1).

(** Takes the credits of a packet and returns what it used and its flags, or
    nothing when there are too few. *)
Definition take_credits (ep : Z) (tx_queue : htc_queue) (need : Z) : HM Q (option (Z * Z)) :=
  e ← op (get_ep ep);
  if Id e =? ENDPOINT_0 then mret (Some (0, 0))
  else if TxCredits e <? need then mret None
  else
    let credits := TxCredits e - need in
    op (upd_ep ep (set_TxCredits credits));;
    if credits <=? TxCreditsPerMaxMsg e then
      d ← qop (q_depth tx_queue);
      when (service_id e =? WMI_CONTROL_SVC) (op (htc_credit_record HTC_REQUEST_CREDIT credits d));;
      mret (Some (need, HTC_FLAGS_NEED_CREDIT_UPDATE))
    else mret (Some (need, 0)).

(** [do_pm_get && hif_pm_runtime_get(..)] *)
Definition pm_get_fails (env : hif_env) (do_pm_get : bool) : HM Q bool :=
  if do_pm_get then op (hif_pm_runtime_get env) else mret false.

Fixpoint credit_loop (fuel : nat) (env : hif_env) (ep : Z) (pQueue tx_queue : htc_queue)
    (do_pm_get : bool) : HM Q unit :=
  match fuel with
  | O => ub
  | S fuel =>
      busy ← pm_get_fails env do_pm_get;
      if busy : bool then mret tt
      else
        o ← qop (q_at_head tx_queue);
        match o with
        | None => when do_pm_get (op hif_pm_runtime_put)
        | Some p =>
            pkt ← op (get_pkt p);
            e ← op (get_ep ep);
            need ← deref (creditsRequired e pkt);
            taken ← take_credits ep tx_queue need;
            match taken with
            | None => when do_pm_get (op hif_pm_runtime_put)
            | Some (used, sendFlags) =>
                o ← qop (q_dequeue tx_queue);
                match o with
                | Some p =>
                    op (upd_pkt p (λ x, set_SendFlags sendFlags (set_CreditsUsed used x)));;
                    qop (q_enqueue pQueue p)
                | None => mret tt
                end;;
                credit_loop fuel env ep pQueue tx_queue do_pm_get
            end
        end
  end.

(** The queue to send from: the power management packets, if there are any. *)
Definition pm_or_tx_queue (ep : Z) : HM Q (htc_queue * htc_queue * bool) :=
  pm_queue ← new_queue;
  extract_htc_pm_packets ep pm_queue;;
  empty ← q_empty pm_queue;
  mret (if empty : bool then (pm_queue, TxQueue ep, true) else (pm_queue, pm_queue, false)).

Definition requeue_pm (ep : Z) (pm_queue : htc_queue) : HM Q unit :=
  empty ← q_empty pm_queue;
  when (negb empty) (queue_htc_pm_packets ep pm_queue).

Definition get_htc_send_packets_credit_based (env : hif_env) (ep : Z) (pQueue : htc_queue) : HM Q unit :=
  '(pm_queue, tx_queue, do_pm_get) ← pm_or_tx_queue ep;
  d ← qop (q_depth tx_queue);
  credit_loop (S (Z.to_nat d)) env ep pQueue tx_queue do_pm_get;;
  requeue_pm ep pm_queue.

Fixpoint resource_loop (fuel : nat) (env : hif_env) (ep : Z) (pQueue tx_queue : htc_queue)
    (do_pm_get : bool) (Resources : Z) : HM Q unit :=
  if Resources <=? 0 then mret tt
  else
    match fuel with
    | O => ub
    | S fuel =>
        busy ← pm_get_fails env do_pm_get;
        if busy : bool then mret tt
        else
          o ← qop (q_dequeue tx_queue);
          match o with
          | None => when do_pm_get (op hif_pm_runtime_put)
          | Some p =>
              op (upd_pkt p (λ x, set_SendFlags 0 (set_CreditsUsed 0 x)));;
              qop (q_enqueue pQueue p);;
              pkt ← op (get_pkt p);
              b ← op (get_nbuf (pNetBufContext pkt));
              let n := if Z.land (Flags pkt) HTC_TX_PACKET_FLAG_FIXUP_NETBUF =? 0
                       then num_frags b else 1 in
              resource_loop fuel env ep pQueue tx_queue do_pm_get (Resources - n)
          end
    end.

Definition get_htc_send_packets (env : hif_env) (ep : Z) (pQueue : htc_queue) (Resources : Z) : HM Q unit :=
  '(pm_queue, tx_queue, do_pm_get) ← pm_or_tx_queue ep;
  d ← qop (q_depth tx_queue);
  resource_loop (S (Z.to_nat d)) env ep pQueue tx_queue do_pm_get Resources;;
  requeue_pm ep pm_queue.

(** * Handing packets to the bus *)

(** The first word of the frame header, and the second *)
Definition frame_word0 (len flags ep : Z) : Z :=
  Z.lor (Z.lor (HTC_FRAME_HDR_PAYLOADLEN len) (HTC_FRAME_HDR_FLAGS flags)) (HTC_FRAME_HDR_ENDPOINTID ep).
Definition frame_word1 (seq : Z) : Z := HTC_FRAME_HDR_CONTROLBYTES1 seq.

(** The next packet of [htc_issue_packets]: its header is written and it joins
    the lookup queue. *)
Definition issue_prepare (ep : Z) (p : positive) : HM Q unit :=
  e ← op (get_ep ep);
  pkt ← op (get_pkt p);
  when (TxCreditFlowEnabled e) (op (
    HTC_WRITE32 (pNetBufContext pkt) 0
      (frame_word0 (u16 (ActualLength pkt)) (SendFlags pkt) (pkt_Endpoint pkt));;
    HTC_WRITE32 (pNetBufContext pkt) 4 (frame_word1 (pkt_SeqNo pkt));;
    when (negb (Z.land (Flags pkt) HTC_TX_PACKET_FLAG_FIXUP_NETBUF =? 0))
      (cdf_nbuf_map (pNetBufContext pkt))));;
  qop (q_enqueue (TxLookupQueue ep) p);;
  op (upd_ep ep (λ x, set_ul_outstanding_cnt (ul_outstanding_cnt x + 1) x)).

Definition issue_next (ep : Z) (pPktQueue : htc_queue) : HM Q (option positive) :=
  o ← qop (q_dequeue pPktQueue);
  match o with
  | None => mret None
  | Some p => issue_prepare ep p;; mret (Some p)
  end.

Definition issue_send (env : hif_env) (ep : Z) (p : positive) : HM Q Z :=
  e ← op (get_ep ep);
  pkt ← op (get_pkt p);
  status ← op (hif_send_head env (Id e) (u32 (HTC_HDR_LENGTH + ActualLength pkt)) (pNetBufContext pkt));
  op (modify (λ t, set_ce_send_cnt (u32 (ce_send_cnt t + 1)) t));;
  when ((status =? A_OK) && (Tag pkt =? HTC_TX_PACKET_TAG_RUNTIME_PUT)) (op hif_pm_runtime_put);;
  mret status.

Definition issue_reclaim (ep : Z) (pPktQueue : htc_queue) (p : positive) : HM Q unit :=
  op (modify (λ t, set_ce_send_cnt (u32 (ce_send_cnt t - 1)) t));;
  op (upd_ep ep (λ x, set_ul_outstanding_cnt (ul_outstanding_cnt x - 1) x));;
  qop (q_remove (TxLookupQueue ep) p);;
  pkt ← op (get_pkt p);
  op (upd_ep ep (λ x, set_TxCredits (TxCredits x + CreditsUsed pkt) x));;
  qop (q_enqueue_to_head pPktQueue p).

Fixpoint pm_put_loop (n : nat) : TM unit :=
  match n with
  | O => mret tt
  | S n => hif_pm_runtime_put;; pm_put_loop n
  end.

(** * [htc_try_send] *)

Fixpoint admit_loop (n : nat) (callers sendQueue : htc_queue) : HM Q unit :=
  match n with
  | O => mret tt
  | S n =>
      p ← qop (q_dequeue callers);
      p ← deref p;
      qop (q_enqueue sendQueue p);;
      admit_loop n callers sendQueue
  end.

(** The packets that overflow the queue are offered to the [EpSendFull] callback. *)
Fixpoint overflow_loop (fuel : nat) (env : hif_env) (ep : Z) (callers sendQueue : htc_queue)
    (pTemp : option positive) : HM Q unit :=
  match pTemp, fuel with
  | None, _ => mret tt
  | Some p, O => ub
  | Some p, S fuel =>
      next ← qop (q_next callers p);
      op (restore_tx_packet p);;
      op (emit (EvSendFull ep p));;
      when (negb (send_full_drops env p)) (
        qop (q_remove callers p);;
        pkt ← op (get_pkt p);
        op (cdf_nbuf_push_head (pNetBufContext pkt) 8);;
        qop (q_enqueue sendQueue p));;
      overflow_loop fuel env ep callers sendQueue next
  end.

(** Moves what may be sent to the local queue; false when nothing may. *)
Definition admit_packets (env : hif_env) (ep : Z) (callers sendQueue : htc_queue) (full : bool) : HM Q bool :=
  e ← op (get_ep ep);
  depth ← qop (q_depth (TxQueue ep));
  n ← qop (q_depth callers);
  let overflow := if full then n else depth + n - MaxTxQueueDepth e in
  if (overflow <=? 0) || negb (has_EpSendFull e) then
    qop (q_transfer_to_tail sendQueue callers);; mret true
  else
    admit_loop (Z.to_nat (n - overflow)) callers sendQueue;;
    d ← qop (q_depth callers);
    first ← qop (q_first callers);
    overflow_loop (Z.to_nat d) env ep callers sendQueue first;;
    empty ← q_empty sendQueue;
    when empty (op (modify (λ t, set_htc_send_q_empty_count (htc_send_q_empty_count t + 1) t)));;
    mret (negb empty).

Definition tx_resources (env : hif_env) (ep : Z) : HM Q Z :=
  e ← op (get_ep ep); mret (if TxCreditFlowEnabled e then 0 else free_queue_number env).

(** Up to the first read of the queue's depth. *)
Definition try_send (env : hif_env) (ep : Z) (k : cont) : HM Q task :=
  sendQueue ← new_queue;
  match callers_queue k with
  | None => r ← tx_resources env ep; mret (TEnter ep sendQueue r k)
  | Some callers =>
      empty ← q_empty callers;
      if empty : bool then
        op (modify (λ t, set_htc_pkt_q_empty_count (htc_pkt_q_empty_count t + 1) t));;
        mret (resume k)
      else
        e ← op (get_ep ep);
        depth ← qop (q_depth (TxQueue ep));
        mret (TAdmit ep sendQueue (MaxTxQueueDepth e <=? depth) k)
  end.

Definition try_admit (env : hif_env) (ep : Z) (sendQueue : htc_queue) (full : bool) (k : cont) : HM Q task :=
  callers ← deref (callers_queue k);
  ok ← admit_packets env ep callers sendQueue full;
  if ok : bool then r ← tx_resources env ep; mret (TEnter ep sendQueue r k)
  else mret (resume k).

(** One round of the drain loop, with the lock held. *)
Definition drain_round (env : hif_env) (ep : Z) (sendQueue : htc_queue) (r : Z) (k : cont) : HM Q task :=
  let stop := op (upd_ep ep (set_TxProcessCount 0));; mret (resume k) in
  depth ← qop (q_depth (TxQueue ep));
  if depth =? 0 then stop
  else
    e ← op (get_ep ep);
    (if TxCreditFlowEnabled e then get_htc_send_packets_credit_based env ep sendQueue
     else get_htc_send_packets env ep sendQueue r);;
    depth ← qop (q_depth sendQueue);
    if depth =? 0 then stop else mret (TIssue ep sendQueue k).

Definition try_enter (env : hif_env) (ep : Z) (sendQueue : htc_queue) (r : Z) (k : cont) : HM Q task :=
  empty ← q_empty sendQueue;
  when (negb empty) (
    qop (q_transfer_to_tail (TxQueue ep) sendQueue);; qop (q_init sendQueue));;
  op (upd_ep ep (λ x, set_TxProcessCount (TxProcessCount x + 1) x));;
  e ← op (get_ep ep);
  if 1 <? TxProcessCount e then
    op (upd_ep ep (λ x, set_TxProcessCount (TxProcessCount x - 1) x));;
    mret (resume k)
  else drain_round env ep sendQueue r k.

Definition try_issue (env : hif_env) (ep : Z) (sendQueue : htc_queue) (k : cont) : HM Q task :=
  o ← issue_next ep sendQueue;
  match o with
  | Some p => mret (THif ep sendQueue p k)
  | None => r ← tx_resources env ep; mret (TDrain ep sendQueue r k)
  end.

Definition try_hif (env : hif_env) (ep : Z) (sendQueue : htc_queue) (p : positive) (k : cont) : HM Q task :=
  status ← issue_send env ep p;
  mret (if status =? A_OK then TIssue ep sendQueue k else TReclaim ep sendQueue p k).

Definition try_reclaim (ep : Z) (sendQueue : htc_queue) (p : positive) (k : cont) : HM Q task :=
  issue_reclaim ep sendQueue p;; mret (TFail ep sendQueue k).

(** The packets that are left go back to the head of the transmit queue.  The code
    calls [hif_pm_runtime_put] and moves the packets before it takes the lock again;
    here this is one section, in which nothing else runs. *)
Definition try_fail (ep : Z) (sendQueue : htc_queue) (k : cont) : HM Q task :=
  n ← qop (q_depth sendQueue);
  op (pm_put_loop (Z.to_nat n));;
  qop (q_transfer_to_head (TxQueue ep) sendQueue);;
  mret (TClear ep k).

Definition try_clear (ep : Z) (k : cont) : HM Q task :=
  op (upd_ep ep (set_TxProcessCount 0));; mret (resume k).

(** * [htc_send_pkts_multiple] *)

Definition send_pkts_multiple (pPktQueue : htc_queue) : HM Q task :=
  o ← qop (q_at_head pPktQueue);
  match o with
  | None =>
      op (modify (λ t, set_htc_get_pkt_q_fail_count (htc_get_pkt_q_fail_count t + 1) t));;
      mret (TDone A_EINVAL)
  | Some p =>
      pkt ← op (get_pkt p);
      e ← op (get_ep (pkt_Endpoint pkt));
      if service_id e =? 0 then mret (TDone A_EINVAL)
      else
        first ← qop (q_first pPktQueue);
        mret (TPrepare (pkt_Endpoint pkt) pPktQueue first)
  end.

(** One packet of the loop that makes room for the frame headers. *)
Definition prepare_packet (ep : Z) (p : positive) : TM unit :=
  pkt ← get_pkt p;
  let netbuf := pNetBufContext pkt in
  cdf_nbuf_push_head netbuf 8;;
  HTC_WRITE32 netbuf 0 (frame_word0 (ActualLength pkt) 0 (pkt_Endpoint pkt));;
  e ← get_ep ep;
  upd_pkt p (set_pkt_SeqNo (SeqNo e));;
  upd_ep ep (λ x, set_SeqNo (u8 (SeqNo x + 1)) x);;
  HTC_WRITE32 netbuf 4 (frame_word1 (SeqNo e));;
  cdf_nbuf_map netbuf;;
  upd_pkt p (λ x, set_Flags (Z.lor (Flags x) HTC_TX_PACKET_FLAG_FIXUP_NETBUF) x).

Definition send_prepare (ep : Z) (q : htc_queue) (pTemp : option positive) : HM Q task :=
  match pTemp with
  | None => mret (TTrySend ep (KLeftover ep q))
  | Some p =>
      next ← qop (q_next q p);
      op (prepare_packet ep p);;
      mret (TPrepare ep q next)
  end.

Definition leftover_status : TM Z :=
  f ← gets HTCStateFlags;
  mret (if Z.land f HTC_STATE_STOPPING =? 0 then A_NO_RESOURCE else A_ECANCELED).

Fixpoint leftover_loop (fuel : nat) (q : htc_queue) (pTemp : option positive) : HM Q unit :=
  match pTemp, fuel with
  | None, _ => mret tt
  | Some p, O => ub
  | Some p, S fuel =>
      next ← qop (q_next q p);
      op (restore_tx_packet p);;
      status ← op leftover_status;
      op (upd_pkt p (set_Status status));;
      leftover_loop fuel q next
  end.

(** Completion of the packets that could not get in. *)
Definition send_leftover (ep : Z) (q : htc_queue) : HM Q task :=
  empty ← q_empty q;
  when (negb empty) (
    d ← qop (q_depth q);
    first ← qop (q_first q);
    leftover_loop (Z.to_nat d) q first;;
    do_send_completion ep q);;
  mret (TDone A_OK).

(** [htc_send_pkt], up to its call of [htc_send_pkts_multiple] *)
Definition htc_send_pkt (p : positive) : HM Q task :=
  n ← op (gets next_local);
  op (modify (set_next_local (Pos.succ n)));;
  qop (q_init_and_add (LocalQueue n) p);;
  mret (TSendMultiple (LocalQueue n)).

(** * Completion of a transfer *)

(** [htc_lookup_tx_packet] up to where it first releases the lock *)
Definition lookup_first (ep : Z) (netbuf : positive) : HM Q task :=
  lookupQueue ← new_queue;
  op (upd_ep ep (λ x, set_ul_outstanding_cnt (ul_outstanding_cnt x - 1) x));;
  o ← qop (q_dequeue (TxLookupQueue ep));
  match o with
  | None => mret (TIndicate ep None)
  | Some p =>
      pkt ← op (get_pkt p);
      if bool_decide (netbuf = pNetBufContext pkt) then mret (TIndicate ep (Some p))
      else
        qop (q_enqueue lookupQueue p);;
        qop (q_transfer_to_tail lookupQueue (TxLookupQueue ep));;
        mret (TSearch ep netbuf lookupQueue)
  end.

Fixpoint tx_lookup_loop (fuel : nat) (netbuf : positive) (lookupQueue : htc_queue)
    (pTemp : option positive) : HM Q (option positive) :=
  match pTemp, fuel with
  | None, _ => mret None
  | Some p, O => ub
  | Some p, S fuel =>
      next ← qop (q_next lookupQueue p);
      pkt ← op (get_pkt p);
      if bool_decide (netbuf = pNetBufContext pkt) then
        qop (q_remove lookupQueue p);; mret (Some p)
      else tx_lookup_loop fuel netbuf lookupQueue next
  end.

Definition lookup_search (ep : Z) (netbuf : positive) (lookupQueue : htc_queue) : HM Q task :=
  d ← qop (q_depth lookupQueue);
  first ← qop (q_first lookupQueue);
  found ← tx_lookup_loop (Z.to_nat d) netbuf lookupQueue first;
  qop (q_transfer_to_head (TxLookupQueue ep) lookupQueue);;
  mret (TIndicate ep found).

Definition tx_completion_handler (ep : Z) (netbuf : positive) : HM Q task :=
  op (modify (λ t, set_TX_comp_cnt (u32 (TX_comp_cnt t + 1)) t));;
  lookup_first ep netbuf.

(** The rest of [htc_tx_completion_handler].  A bundle has no packets here. *)
Definition indicate (ep : Z) (o : option positive) : HM Q task :=
  match o with
  | None => mret tt
  | Some p =>
      pkt ← op (get_pkt p);
      when (negb (Tag pkt =? HTC_TX_PACKET_TAG_AUTO_PM)) (op hif_pm_runtime_put);;
      if Tag pkt =? HTC_TX_PACKET_TAG_BUNDLED then ub
      else
        op (upd_pkt p (set_Status 0));;
        send_packet_completion p
  end;;
  e ← op (get_ep ep);
  mret (if TxCreditFlowEnabled e then TDone A_OK else TTrySend ep KReturn).

(** * Credits from the target *)

(** One entry of a report; whether the endpoint has packets to send now. *)
Definition credit_entry (ep credits : Z) : HM Q bool :=
  op (upd_ep ep (λ x, set_TxCredits (TxCredits x + credits) x));;
  e ← op (get_ep ep);
  depth ← qop (q_depth (TxQueue ep));
  when (service_id e =? WMI_CONTROL_SVC)
    (op (htc_credit_record HTC_PROCESS_CREDIT_REPORT (TxCredits e) depth));;
  mret (negb (TxCredits e =? 0) && negb (depth =? 0)).

(** [htc_process_credit_rpt]: entries up to the first that calls [htc_try_send] *)
Fixpoint process_credit_rpt (rpt : list (Z * Z)) (trailer : list Z) : HM Q task :=
  match rpt with
  | [] => mret (TTrailer trailer)
  | (ep, credits) :: rpt =>
      if ENDPOINT_MAX <=? ep then mret (TTrailer trailer)
      else
        send ← credit_entry ep credits;
        if send : bool then mret (TTrySend ep (KCredit rpt trailer))
        else process_credit_rpt rpt trailer
  end.

(** * Flushing, and resuming after a suspend *)

Fixpoint tx_flush_loop (fuel : nat) (ep : Z) : HM Q unit :=
  depth ← qop (q_depth (TxQueue ep));
  if depth =? 0 then mret tt
  else
    match fuel with
    | O => ub
    | S fuel =>
        o ← qop (q_dequeue (TxQueue ep));
        match o with
        | Some p => op (upd_pkt p (set_Status A_ECANCELED));; send_packet_completion p
        | None => mret tt
        end;;
        tx_flush_loop fuel ep
    end.

Definition htc_flush_endpoint_tx (ep : Z) : HM Q unit :=
  d ← qop (q_depth (TxQueue ep)); tx_flush_loop (Z.to_nat d) ep.

Definition htc_flush_endpoint (ep : Z) : HM Q unit :=
  e ← op (get_ep ep);
  if service_id e =? 0 then mret tt else htc_flush_endpoint_tx ep.

(** The loop of [htc_kick_queues] from [i] on, up to its next call of [htc_try_send] *)
Definition kick_queues (i : Z) : HM Q task :=
  if ENDPOINT_MAX <=? i then mret (TDone A_OK)
  else
    e ← op (get_ep i);
    if service_id e =? 0 then mret (TKick (i + 1))
    else
      when (has_resume_tx_queue e) (op (emit (EvResumeTxQueue i)));;
      mret (TTrySend i (KKick (i + 1))).

Fixpoint find_pipe (n : nat) (i pipeID : Z) : TM (option Z) :=
  match n with
  | O => mret None
  | S n =>
      e ← get_ep i;
      if negb (service_id e =? 0) && (UL_PipeID e =? pipeID) then mret (Some i)
      else find_pipe n (i + 1) pipeID
  end.

Definition htc_tx_resource_avail_handler (pipeID : Z) : HM Q task :=
  o ← op (find_pipe (Z.to_nat ENDPOINT_MAX) 0 pipeID);
  mret (match o with Some ep => TTrySend ep KReturn | None => TDone A_OK end).

(** The transmit credits that the host has for control messages. *)
Fixpoint control_credits (n : nat) (i : Z) : TM Z :=
  match n with
  | O => mret 0
  | S n =>
      e ← get_ep i;
      if service_id e =? WMI_CONTROL_SVC then mret (TxCredits e) else control_credits n (i + 1)
  end.
Definition htc_get_control_endpoint_tx_host_credits : TM Z :=
  control_credits (Z.to_nat ENDPOINT_MAX) 0.

(** * Data packets, which bypass the queues *)

(** [polled] is what the pipe has free once its completions have been polled. *)
Definition htc_send_data_pkt (env : hif_env) (polled : Z) (netbuf : positive) (Epid ActualLength : Z) : TM Z :=
  e ← get_ep Epid;
  let tx_resources := free_queue_number env in
  let low := tx_resources <? HTC_DATA_RESOURCE_THRS in
  let tx_resources := if low && ul_is_polled e then polled else tx_resources in
  if low && (tx_resources <? HTC_DATA_MINDESC_PERPACKET) then mret A_ERROR
  else
    busy ← hif_pm_runtime_get env;
    if busy : bool then mret A_ERROR
    else
      HTC_WRITE32 netbuf 0 (frame_word0 ActualLength 0 Epid);;
      HTC_WRITE32 netbuf 4 (frame_word1 (SeqNo e));;
      upd_ep Epid (λ x, set_SeqNo (u8 (SeqNo x + 1)) x);;
      hif_send_head env (Id e) ActualLength netbuf.
End send.

(** Running the send path of the host-target channel: the trailers of received
    frames, which carry the target's credit reports
    ([htc_process_trailer] of [core/htc/htc_recv.c]), one step of a task, and
    [run_alone], which runs a task to its end with nothing in between. *)

Definition HTC_RECORD_CREDITS : Z := 1.
Definition RECORD_HDR_SIZE : nat := 4.
Definition CREDIT_REPORT_SIZE : nat := 4.

(** The entries of a credit report: endpoint and credits. *)
Fixpoint credit_entries (n : nat) (buf : list Z) : list (Z * Z) :=
  match n, buf with
  | S n, ep :: credits :: _ :: _ :: buf => (ep, credits) :: credit_entries n buf
  | _, _ => []
  end.

(** One round of the loop of [htc_process_trailer] over the bytes left. *)
Definition process_trailer (buf : list Z) : task :=
  match buf with
  | [] => TDone A_OK
  | id :: len :: _ :: _ :: buf =>
      if Z.of_nat (length buf) <? len then TDone A_EPROTO
      else
        let n := Z.to_nat len in
        let rest := drop n buf in
        if id =? HTC_RECORD_CREDITS
        then TCredit (credit_entries (n / CREDIT_REPORT_SIZE) (take n buf)) rest
        else TTrailer rest
  | _ => TDone A_EPROTO
  end.

Section task.
Context {Q : Type} `{PacketQueue Q}.

Definition run_task (env : hif_env) (t : task) : HM Q task :=
  match t with
  | TSendMultiple q => send_pkts_multiple q
  | TPrepare ep q pTemp => send_prepare ep q pTemp
  | TTrySend ep k => try_send env ep k
  | TAdmit ep sendQueue full k => try_admit env ep sendQueue full k
  | TEnter ep sendQueue r k => try_enter env ep sendQueue r k
  | TDrain ep sendQueue r k => drain_round env ep sendQueue r k
  | TIssue ep sendQueue k => try_issue env ep sendQueue k
  | THif ep sendQueue p k => try_hif env ep sendQueue p k
  | TReclaim ep sendQueue p k => try_reclaim ep sendQueue p k
  | TFail ep sendQueue k => try_fail ep sendQueue k
  | TClear ep k => try_clear ep k
  | TLeftover ep q => send_leftover ep q
  | TComplete ep netbuf => tx_completion_handler ep netbuf
  | TSearch ep netbuf lookupQueue => lookup_search ep netbuf lookupQueue
  | TIndicate ep p => indicate ep p
  | TCredit rpt trailer => process_credit_rpt rpt trailer
  | TTrailer trailer => mret (process_trailer trailer)
  | TFlush ep => htc_flush_endpoint ep;; mret (TDone A_OK)
  | TKick i => kick_queues i
  | TDone status => mret (TDone status)
  end.

(** A task alone, until it is done. *)
Fixpoint run_alone (fuel : nat) (env : hif_env) (t : task) : HM Q Z :=
  match t, fuel with
  | TDone status, _ => mret status
  | _, O => ub
  | _, S fuel => t ← run_task env t; run_alone fuel env t
  end.
End task.
