(* ===== verification/HtcSim.v ===== *)
(** The send path does the same over any two implementations of its queues of
    which one refines the other: what it does over lists of packets it does over
    the words of their links. *)
From S2P Require Import Prelude HtcQueue HtcTypes HtcSend.

Section sim.
Context {Q1 Q2 : Type} {R : Q1 → Q2 → Prop}.

(** States that differ only in the queues. *)
Definition same_rest (s : Q1 * HTC_TARGET) (s' : Q2 * HTC_TARGET) : Prop := R s.1 s'.1 ∧ s.2 = s'.2.

Lemma qop_sim {A} (m : CM Q1 A) (m' : CM Q2 A) :
  refines R m m' → refines same_rest (qop m) (qop m').
Proof.
  intros H [q t] [q' t'] a [q1' t1'] [HR Ht] Hr. cbn in HR, Ht. subst t'. unfold qop, zoom in *. cbn in *.
  destruct (m' q') as [[b q2]|] eqn:E; [|done]. simplify_eq.
  destruct (H _ _ _ _ HR E) as (q2' & -> & HR2). by exists (q2', t1').
Qed.

Lemma op_sim {A} (m : TM A) : refines same_rest (op m) (op m).
Proof.
  intros [q t] [q' t'] a [q1' t1'] [HR Ht] Hr. cbn in HR, Ht. subst t'. unfold op, zoom in *. cbn in *.
  destruct (m t) as [[b t2]|]; [|done]. simplify_eq. by exists (q, t1').
Qed.
End sim.

Create HintDb simdb.
#[export] Hint Resolve refines_ret refines_ub refines_deref op_sim : simdb.
#[export] Hint Extern 1 (refines _ (qop _) (qop _)) => apply qop_sim : simdb.
#[export] Hint Resolve ref_init ref_init_and_add ref_depth ref_enqueue ref_enqueue_to_head ref_remove
  ref_dequeue ref_dequeue_tail ref_at_head ref_transfer_to_tail ref_transfer_to_head
  ref_first ref_next : simdb.

(** Walks both programs, which have the same shape. *)
Ltac sim :=
  repeat first
    [ solve [eauto 3 with simdb]
    | apply refines_bind; [|intros ?]
    | apply refines_when
    | match goal with
      | |- refines _ (match ?x with _ => _ end) _ => destruct x
      | |- refines _ (let '_ := ?x in _) _ => destruct x
      end ].

Section programs.
Context {Q1 Q2 : Type} `{PacketQueue Q1, PacketQueue Q2} (R : Q1 → Q2 → Prop) `{!QueueRefinement R}.
Abbreviation sim f g := (refines (same_rest (R := R)) f g).

Lemma new_queue_sim : sim new_queue new_queue.
Proof. unfold new_queue. sim. Qed.
Hint Resolve new_queue_sim : simdb.

Lemma q_empty_sim q : sim (q_empty q) (q_empty q).
Proof. unfold q_empty. sim. Qed.
Hint Resolve q_empty_sim : simdb.

Lemma complete_multiple_sim fuel ep q o :
  sim (complete_multiple fuel ep q o) (complete_multiple fuel ep q o).
Proof. revert o. induction fuel; intros [p|]; cbn; sim. Qed.
Hint Resolve complete_multiple_sim : simdb.

Lemma complete_each_sim fuel ep q : sim (complete_each fuel ep q) (complete_each fuel ep q).
Proof. induction fuel; cbn; sim. Qed.
Hint Resolve complete_each_sim : simdb.

Lemma do_send_completion_sim ep q : sim (do_send_completion ep q) (do_send_completion ep q).
Proof. unfold do_send_completion. sim. Qed.
Hint Resolve do_send_completion_sim : simdb.

Lemma send_packet_completion_sim p : sim (send_packet_completion p) (send_packet_completion p).
Proof. unfold send_packet_completion. sim. Qed.
Hint Resolve send_packet_completion_sim : simdb.

Lemma extract_loop_sim fuel ep q o : sim (extract_loop fuel ep q o) (extract_loop fuel ep q o).
Proof. revert o. induction fuel; intros [p|]; cbn; sim. Qed.
Hint Resolve extract_loop_sim : simdb.

Lemma pm_or_tx_queue_sim ep : sim (pm_or_tx_queue ep) (pm_or_tx_queue ep).
Proof. unfold pm_or_tx_queue, extract_htc_pm_packets. sim. Qed.
Hint Resolve pm_or_tx_queue_sim : simdb.

Lemma requeue_pm_sim ep q : sim (requeue_pm ep q) (requeue_pm ep q).
Proof. unfold requeue_pm, queue_htc_pm_packets. sim. Qed.
Hint Resolve requeue_pm_sim : simdb.

Lemma credit_loop_sim fuel env ep pq tq b :
  sim (credit_loop fuel env ep pq tq b) (credit_loop fuel env ep pq tq b).
Proof. induction fuel; cbn; unfold pm_get_fails, take_credits; sim. Qed.
Hint Resolve credit_loop_sim : simdb.

Lemma resource_loop_sim fuel env ep pq tq b r :
  sim (resource_loop fuel env ep pq tq b r) (resource_loop fuel env ep pq tq b r).
Proof. revert r. induction fuel; intros r; cbn; unfold pm_get_fails; sim. Qed.
Hint Resolve resource_loop_sim : simdb.

Lemma admit_loop_sim n q q' : sim (admit_loop n q q') (admit_loop n q q').
Proof. induction n; cbn; sim. Qed.
Hint Resolve admit_loop_sim : simdb.

Lemma overflow_loop_sim fuel env ep q q' o :
  sim (overflow_loop fuel env ep q q' o) (overflow_loop fuel env ep q q' o).
Proof. revert o. induction fuel; intros [p|]; cbn; sim. Qed.
Hint Resolve overflow_loop_sim : simdb.

Lemma drain_round_sim env ep q r k : sim (drain_round env ep q r k) (drain_round env ep q r k).
Proof.
  unfold drain_round, get_htc_send_packets_credit_based, get_htc_send_packets. sim.
Qed.
Hint Resolve drain_round_sim : simdb.

Lemma leftover_loop_sim fuel q o : sim (leftover_loop fuel q o) (leftover_loop fuel q o).
Proof. revert o. induction fuel; intros [p|]; cbn; sim. Qed.
Hint Resolve leftover_loop_sim : simdb.

Lemma lookup_loop_sim fuel b q o : sim (tx_lookup_loop fuel b q o) (tx_lookup_loop fuel b q o).
Proof. revert o. induction fuel; intros [p|]; cbn; sim. Qed.
Hint Resolve lookup_loop_sim : simdb.

Lemma process_credit_rpt_sim rpt tr : sim (process_credit_rpt rpt tr) (process_credit_rpt rpt tr).
Proof. induction rpt as [|[ep c] rpt IH]; cbn; unfold credit_entry; sim. Qed.
Hint Resolve process_credit_rpt_sim : simdb.

Lemma flush_loop_sim fuel ep : sim (tx_flush_loop fuel ep) (tx_flush_loop fuel ep).
Proof. induction fuel; cbn; sim. Qed.
Hint Resolve flush_loop_sim : simdb.

(** One step of a task *)
Lemma run_task_sim env t : sim (run_task env t) (run_task env t).
Proof.
  destruct t; cbn;
    unfold send_pkts_multiple, send_prepare, try_send, try_admit, try_enter, try_issue, try_hif,
      try_reclaim, try_fail, try_clear, send_leftover, tx_completion_handler, lookup_search,
      indicate, htc_flush_endpoint, kick_queues, admit_packets, issue_next, issue_prepare, issue_send,
      issue_reclaim, lookup_first, htc_flush_endpoint_tx, HtcSend.tx_resources; sim.
Qed.
End programs.
