(* ===== verification/HtcSystem.v ===== *)
(** The host-target channel as a system: any number of tasks, interleaved where
    they do not hold the transmit lock, the bus, which accepts packets and later
    says that they have been transferred, and the target, which gives credits
    back.

    What the code relies on its surroundings for is in the rules.  A caller hands
    over packets that the channel does not have, with buffers of their own that
    have room for a frame header.  The bus completes a transfer it has accepted,
    once.  The target reports credits of packets it has received.

    Completions may overlap, also those of one endpoint: the copy engine is served
    by tasklets and by the tasks of users, and its lock is not held when
    [htc_tx_completion_handler] is called ([ce_per_engine_servicereap]).  The
    surroundings record the endpoints of which two lookups were under way at once
    ([overlapped]), for these may lose a completion.

    Two rules are more orderly than the code.  A packet that the bus refuses is
    taken back while no completion of its endpoint searches the lookup queue
    ([may_run]): the code does not enforce this, and without it the packet is
    unlinked from the queue of the search and counted out of the lookup queue
    ([refusal_during_search] of [HtcTheorems.v]), and the loop of the search, which
    holds no lock, may read a packet that is linked to itself.  The packets of a
    refused batch go back to the transmit queue in one section ([TFail]), although
    [htc_try_send] moves them before it takes the lock. *)
From S2P Require Import Prelude HtcQueue HtcTypes HtcSend.

Definition is_ep (e : Z) : bool := (0 <=? e) && (e <? ENDPOINT_MAX).

(** * What reports say *)

(** Credits for endpoint [e] in the entries that will be processed. *)
Fixpoint entries_credits (rpt : list (Z * Z)) (e : Z) : Z :=
  match rpt with
  | [] => 0
  | (ep, credits) :: rpt =>
      if ENDPOINT_MAX <=? ep then 0
      else (if ep =? e then credits else 0) + entries_credits rpt e
  end.

(** The same for the bytes of a trailer, of which every record has four at least. *)
Fixpoint trailer_credits (fuel : nat) (buf : list Z) (e : Z) : Z :=
  match fuel with
  | O => 0
  | S fuel =>
      match process_trailer buf with
      | TCredit rpt rest => entries_credits rpt e + trailer_credits fuel rest e
      | TTrailer rest => trailer_credits fuel rest e
      | _ => 0
      end
  end.
Definition trailer_report (buf : list Z) (e : Z) : Z := trailer_credits (length buf) buf e.

(** * Surroundings *)

(** The transfers the bus has accepted and not completed; the credits of each
    endpoint that the target holds; the packets handed over, in order; the
    endpoints that had a packet refused; those whose last round ended because
    of the bus: it was asleep, or out of descriptors, or refused a packet; and
    those of which two completions have looked up their packets at once. *)
Record surroundings : Type := mk_sur {
  in_flight : list (Z * positive);
  held : gmap Z Z;
  posted : list positive;
  refused : gset Z;
  stalled : gset Z;
  overlapped : gset Z;
}.

Definition holds (x : surroundings) (e : Z) : Z := default 0 (held x !! e).

(** A packet that the channel does not have. *)
Definition free_packet (x : surroundings) (t : HTC_TARGET) (p : positive) : Prop :=
  occ p (posted x) = occ p (completed (log t)).

Definition buffer_free (x : surroundings) (t : HTC_TARGET) (b : positive) : Prop :=
  ∀ p pkt, packets t !! p = Some pkt → pNetBufContext pkt = b → free_packet x t p.

(** Room for a header in front of the data and in the first fragment *)
Definition header_room (b : sk_buff) : Prop :=
  (8 ≤ length (headroom b))%nat ∧ ∀ m, extra_frag b = Some m → (8 ≤ length m)%nat.

(** What may be handed over for the endpoint [ep]. *)
Definition sendable (x : surroundings) (t : HTC_TARGET) (ep : Z) (p : positive) : Prop :=
  free_packet x t p ∧
  ∃ pkt b, packets t !! p = Some pkt ∧ pkt_Endpoint pkt = ep ∧ Tag pkt ≠ HTC_TX_PACKET_TAG_BUNDLED ∧
    nbufs t !! pNetBufContext pkt = Some b ∧ header_room b ∧ buffer_free x t (pNetBufContext pkt).

Definition buffers_of (t : HTC_TARGET) (ps : list positive) : list positive :=
  omap (λ p, pNetBufContext <$> packets t !! p) ps.

(** A completion that has not finished to look up its packet *)
Definition completes (ep : Z) (t : task) : bool :=
  match t with
  | TComplete e _ | TSearch e _ _ => bool_decide (e = ep)
  | _ => false
  end.
(** What a completion of [ep] that begins adds to [overlapped] *)
Definition overlap (ts : list task) (ep : Z) (o : gset Z) : gset Z :=
  if existsb (completes ep) ts then o ∪ {[ep]} else o.
Definition searches (ep : Z) (t : task) : bool :=
  match t with
  | TSearch e _ _ => bool_decide (e = ep)
  | _ => false
  end.

(** A round of the drain loop that took nothing *)
Definition round_over (env : hif_env) (ep r : Z) (e : HTC_ENDPOINT) (x : surroundings) : surroundings :=
  mk_sur (in_flight x) (held x) (posted x) (refused x)
    (if negb (pm_awake env) || (negb (TxCreditFlowEnabled e) && (r <=? 0))
     then stalled x ∪ {[ep]} else stalled x ∖ {[ep]}) (overlapped x).

(** What the surroundings see of a step from [t] to [t'].  A task that finds the
    queue being drained has no round of its own. *)
Definition after (env : hif_env) (t t' : task) (s : HTC_TARGET) (x : surroundings) : surroundings :=
  match t, t' with
  | THif ep _ p _, TIssue _ _ _ =>
      match packets s !! p with
      | Some pkt =>
          mk_sur (in_flight x ++ [(ep, pNetBufContext pkt)])
            (<[ep := holds x ep + CreditsUsed pkt]> (held x)) (posted x) (refused x) (stalled x) (overlapped x)
      | None => x
      end
  | TReclaim ep _ _ _, _ =>
      mk_sur (in_flight x) (held x) (posted x) (refused x ∪ {[ep]}) (stalled x) (overlapped x)
  | TClear ep _, _ =>
      mk_sur (in_flight x) (held x) (posted x) (refused x) (stalled x ∪ {[ep]}) (overlapped x)
  | (TEnter ep _ r _ | TDrain ep _ r _), TIssue _ _ _ =>
      mk_sur (in_flight x) (held x) (posted x) (refused x) (stalled x ∖ {[ep]}) (overlapped x)
  | TEnter ep _ r _, _ =>
      match endpoint s !! ep with
      | Some e => if TxProcessCount e =? 0 then round_over env ep r e x else x
      | None => x
      end
  | TDrain ep _ r _, _ =>
      match endpoint s !! ep with
      | Some e => round_over env ep r e x
      | None => x
      end
  | _, _ => x
  end.

Section system.
Context {Q : Type} `{PacketQueue Q}.

Record world : Type := mk_world {
  st : Q * HTC_TARGET;
  tasks : list task;
  sur : surroundings;
}.

(** A caller puts its packets on a queue of its own. *)
Fixpoint enqueue_all (q : htc_queue) (ps : list positive) : HM Q unit :=
  match ps with
  | [] => mret tt
  | p :: ps => qop (q_enqueue q p);; enqueue_all q ps
  end.
Definition callers_packets (ps : list positive) : HM Q task :=
  q ← new_queue; enqueue_all q ps;; mret (TSendMultiple q).

(** What keeps a task from running: a refused packet is not taken back while a
    completion of its endpoint searches.  The code has no such condition (see the
    top of the file). *)
Definition may_run (w : world) (t : task) : Prop :=
  match t with
  | TReclaim ep _ _ _ => existsb (searches ep) (tasks w) = false
  | _ => True
  end.

Inductive step (w : world) : world → Prop :=
| step_run i t env t' s' :
    tasks w !! i = Some t → may_run w t → run_task env t (st w) = Some (t', s') →
    step w (mk_world s' (<[i := t']> (tasks w)) (after env t t' (st w).2 (sur w)))
| step_packet p pkt :
    free_packet (sur w) (st w).2 p →
    step w (mk_world ((st w).1, set_packets (<[p := pkt]> (packets (st w).2)) (st w).2)
      (tasks w) (sur w))
| step_buffer b nb :
    buffer_free (sur w) (st w).2 b →
    step w (mk_world ((st w).1, set_nbufs (<[b := nb]> (nbufs (st w).2)) (st w).2)
      (tasks w) (sur w))
| step_send ep e ps t s' :
    is_ep ep = true → endpoint (st w).2 !! ep = Some e → service_id e ≠ 0 → ps ≠ [] → NoDup ps →
    NoDup (buffers_of (st w).2 ps) → (∀ p, p ∈ ps → sendable (sur w) (st w).2 ep p) →
    callers_packets ps (st w) = Some (t, s') →
    step w (mk_world s' (tasks w ++ [t])
      (mk_sur (in_flight (sur w)) (held (sur w)) (posted (sur w) ++ ps) (refused (sur w))
        (stalled (sur w)) (overlapped (sur w))))
| step_complete l1 ep b l2 :
    in_flight (sur w) = l1 ++ (ep, b) :: l2 →
    step w (mk_world (st w) (tasks w ++ [TComplete ep b])
      (mk_sur (l1 ++ l2) (held (sur w)) (posted (sur w)) (refused (sur w)) (stalled (sur w))
        (overlap (tasks w) ep (overlapped (sur w)))))
| step_report buf h :
    Forall (λ c, 0 ≤ c < 256) buf → (∀ e, trailer_report buf e ≤ holds (sur w) e) →
    (∀ e, default 0 (h !! e) = holds (sur w) e - trailer_report buf e) →
    step w (mk_world (st w) (tasks w ++ [TTrailer buf])
      (mk_sur (in_flight (sur w)) h (posted (sur w)) (refused (sur w)) (stalled (sur w))
        (overlapped (sur w))))
| step_flush ep :
    is_ep ep = true →
    step w (mk_world (st w) (tasks w ++ [TFlush ep]) (sur w))
| step_kick :
    step w (mk_world (st w) (tasks w ++ [TKick 0]) (sur w))
| step_available pipeID t s' :
    htc_tx_resource_avail_handler pipeID (st w) = Some (t, s') →
    step w (mk_world s' (tasks w ++ [t]) (sur w)).

(** * The start *)

(** One endpoint of [reset_endpoint_states] *)
Definition reset_endpoint (i : Z) : HM Q unit :=
  op (upd_ep i (λ x, set_service_id 0 (set_MaxMsgLength 0 (set_MaxTxQueueDepth 0 (set_Id i x)))));;
  qop (q_init (TxQueue i));;
  qop (q_init (TxLookupQueue i));;
  qop (q_init (RxBufferHoldQueue i));;
  op (upd_ep i (λ x, set_TxCreditFlowEnabled true (set_TxProcessCount 0 x))).

Fixpoint reset_loop (n : nat) (i : Z) : HM Q unit :=
  match n with
  | O => mret tt
  | S n => reset_endpoint i;; reset_loop n (i + 1)
  end.
Definition reset_endpoint_states : HM Q unit := reset_loop (Z.to_nat ENDPOINT_MAX) ENDPOINT_0.

(** The endpoints once the services are connected. *)
Definition connected (eps : gmap Z HTC_ENDPOINT) : Prop :=
  (∀ e, is_ep e = true → is_Some (eps !! e)) ∧
  ∀ e x, eps !! e = Some x →
    is_ep e = true ∧ Id x = e ∧ TxProcessCount x = 0 ∧ 0 ≤ TxCredits x ∧
    (TxCreditFlowEnabled x = true → u32 (TxCreditSize x) ≠ 0).

Definition idle : surroundings := mk_sur [] ∅ [] ∅ ∅ ∅.

(** After the reset, with the services connected and nothing sent yet. *)
Definition starts (w : world) : Prop :=
  ∃ s t eps, reset_endpoint_states s = Some (tt, ((st w).1, t)) ∧ connected eps ∧
    (st w).2 = set_log [] (set_endpoint eps t) ∧ tasks w = [] ∧ sur w = idle ∧
    Z.of_nat (length (htc_credit_history_buffer t)) = HTC_CREDIT_HISTORY_MAX ∧
    0 ≤ g_htc_credit_history_idx t ≤ HTC_CREDIT_HISTORY_MAX.

Inductive reachable (w0 : world) : world → Prop :=
| reach_start : starts w0 → reachable w0 w0
| reach_step w w' : reachable w0 w → step w w' → reachable w0 w'.
End system.
Arguments world : clear implicits.
