(* ===== verification/HtcView.v ===== *)
(** A program logic for the send path over lists of packets.

    [view_of] forgets what no theorem about the send path's bookkeeping needs:
    sequence numbers, statuses, statistics, and the bytes of the buffers, of which
    it keeps the sizes.  [does m M V Q] says that [m], from queues [M] and any
    state whose view is [V], has a result, and [Q] holds of it, of the queues and
    of the view. *)
From S2P Require Import Prelude HtcQueue HtcTypes HtcSend Ring.

(** Endpoints and packets with the forgotten fields cleared, the sizes of headroom,
    data and extra fragment, the completed packets, and the next local queue. *)
Record view : Type := mk_view {
  v_eps : gmap Z HTC_ENDPOINT;
  v_pkts : gmap positive HTC_PACKET;
  v_nbs : gmap positive (nat * nat * option nat);
  v_done : list positive;
  v_next : positive;
}.

Definition set_v_eps (v : gmap Z HTC_ENDPOINT) (r : view) : view :=
  mk_view v (v_pkts r) (v_nbs r) (v_done r) (v_next r).
Definition set_v_pkts (v : gmap positive HTC_PACKET) (r : view) : view :=
  mk_view (v_eps r) v (v_nbs r) (v_done r) (v_next r).
Definition set_v_nbs (v : gmap positive (nat * nat * option nat)) (r : view) : view :=
  mk_view (v_eps r) (v_pkts r) v (v_done r) (v_next r).
Definition set_v_done (v : list positive) (r : view) : view :=
  mk_view (v_eps r) (v_pkts r) (v_nbs r) v (v_next r).
Definition set_v_next (v : positive) (r : view) : view :=
  mk_view (v_eps r) (v_pkts r) (v_nbs r) (v_done r) v.

Definition norm_ep (x : HTC_ENDPOINT) : HTC_ENDPOINT := set_SeqNo 0 (set_ul_outstanding_cnt 0 x).
Definition norm_pkt (x : HTC_PACKET) : HTC_PACKET :=
  set_Status 0 (set_SendFlags 0 (set_pkt_SeqNo 0 x)).
Definition nb_size (b : sk_buff) : nat * nat * option nat :=
  (length (headroom b), length (data b), length <$> extra_frag b).

Definition view_of (t : HTC_TARGET) : view :=
  mk_view (norm_ep <$> endpoint t) (norm_pkt <$> packets t) (nb_size <$> nbufs t)
    (completed (log t)) (next_local t).

(** The credit history has room for an entry. *)
Definition hist_ok (t : HTC_TARGET) : Prop :=
  Z.of_nat (length (htc_credit_history_buffer t)) = HTC_CREDIT_HISTORY_MAX ∧
  0 ≤ g_htc_credit_history_idx t ≤ HTC_CREDIT_HISTORY_MAX.

(** * Programs on the target *)

Definition tdoes {A} (m : TM A) (V : view) (Q : A → view → Prop) : Prop :=
  ∀ t, view_of t = V → hist_ok t → safely m t (λ a t', hist_ok t' ∧ Q a (view_of t')).

Section tdoes.
Context {A B : Type}.
Implicit Types (V : view).

Lemma tdoes_ret (a : A) V (Q : A → view → Prop) : Q a V → tdoes (mret a) V Q.
Proof. intros H t <- Ht. by apply safely_ret. Qed.

Lemma tdoes_mono (m : TM A) V (P Q : A → view → Prop) :
  tdoes m V P → (∀ a V', P a V' → Q a V') → tdoes m V Q.
Proof.
  intros H HQ t Ht Hh. eapply safely_mono; [by apply H|]. intros a t' [? ?]. split; [done|]. by apply HQ.
Qed.

Lemma tdoes_bind (m : TM A) (k : A → TM B) V (Q : B → view → Prop) :
  tdoes m V (λ a V', tdoes (k a) V' Q) → tdoes (x ← m; k x) V Q.
Proof.
  intros H t Ht Hh. eapply safely_bind; [by apply H|]. intros a t' [Hh' HP]. by apply HP.
Qed.

Lemma tdoes_gets (f : HTC_TARGET → A) V (Q : A → view → Prop) :
  (∀ a, Q a V) → tdoes (gets f) V Q.
Proof. intros H t <- Ht. exists (f t), t. split; [done|]. split; [done|]. apply H. Qed.

Lemma tdoes_deref (o : option A) V a (Q : A → view → Prop) :
  o = Some a → Q a V → tdoes (deref o) V Q.
Proof. intros -> H. by apply tdoes_ret. Qed.
End tdoes.

Section steps.
Context {A : Type}.
Implicit Types (V : view).

Lemma tdoes_modify (f : HTC_TARGET → HTC_TARGET) V V' (Q : unit → view → Prop) :
  (∀ t, view_of t = V → view_of (f t) = V' ∧ (hist_ok t → hist_ok (f t))) → Q tt V' →
  tdoes (modify f) V Q.
Proof.
  intros H HQ t Ht Hh. destruct (H t Ht) as [Hv Hh']. exists tt, (f t).
  split; [done|]. rewrite Hv. auto.
Qed.

Lemma tdoes_when (b : bool) (m : TM unit) V (Q : unit → view → Prop) :
  (b = true → tdoes m V Q) → (b = false → Q tt V) → tdoes (when b m) V Q.
Proof. intros H1 H2. destruct b; [by apply H1|]. by apply tdoes_ret, H2. Qed.

Lemma view_eps_lookup t V e x : view_of t = V → v_eps V !! e = Some x →
  ∃ y, endpoint t !! e = Some y ∧ norm_ep y = x.
Proof. intros <- H. cbn in H. rewrite lookup_fmap in H. destruct (endpoint t !! e); naive_solver. Qed.
Lemma view_pkts_lookup t V p x : view_of t = V → v_pkts V !! p = Some x →
  ∃ y, packets t !! p = Some y ∧ norm_pkt y = x.
Proof. intros <- H. cbn in H. rewrite lookup_fmap in H. destruct (packets t !! p); naive_solver. Qed.
Lemma view_nbs_lookup t V b x : view_of t = V → v_nbs V !! b = Some x →
  ∃ y, nbufs t !! b = Some y ∧ nb_size y = x.
Proof. intros <- H. cbn in H. rewrite lookup_fmap in H. destruct (nbufs t !! b); naive_solver. Qed.

Lemma tdoes_get_ep e V x (Q : HTC_ENDPOINT → view → Prop) :
  v_eps V !! e = Some x → (∀ y, norm_ep y = x → Q y V) → tdoes (get_ep e) V Q.
Proof.
  intros Hx HQ t Ht Hh. destruct (view_eps_lookup _ _ _ _ Ht Hx) as (y & Hy & Hn).
  unfold get_ep. exists y, t. split; [mstep; by rewrite Hy|]. split; [done|]. rewrite Ht. auto.
Qed.

Lemma tdoes_get_pkt p V x (Q : HTC_PACKET → view → Prop) :
  v_pkts V !! p = Some x → (∀ y, norm_pkt y = x → Q y V) → tdoes (get_pkt p) V Q.
Proof.
  intros Hx HQ t Ht Hh. destruct (view_pkts_lookup _ _ _ _ Ht Hx) as (y & Hy & Hn).
  unfold get_pkt. exists y, t. split; [mstep; by rewrite Hy|]. split; [done|]. rewrite Ht. auto.
Qed.

Lemma tdoes_get_nbuf b V x (Q : sk_buff → view → Prop) :
  v_nbs V !! b = Some x → (∀ y, nb_size y = x → Q y V) → tdoes (get_nbuf b) V Q.
Proof.
  intros Hx HQ t Ht Hh. destruct (view_nbs_lookup _ _ _ _ Ht Hx) as (y & Hy & Hn).
  unfold get_nbuf. exists y, t. split; [mstep; by rewrite Hy|]. split; [done|]. rewrite Ht. auto.
Qed.

Lemma tdoes_upd_ep e f V x x' (Q : unit → view → Prop) :
  v_eps V !! e = Some x → (∀ y, norm_ep y = x → norm_ep (f y) = x') →
  Q tt (set_v_eps (<[e := x']> (v_eps V)) V) → tdoes (upd_ep e f) V Q.
Proof.
  intros Hx Hf HQ. unfold upd_ep. apply tdoes_bind. eapply tdoes_get_ep; [exact Hx|].
  intros y Hy. eapply tdoes_modify; [|exact HQ]. intros t <-. split; [|done].
  unfold view_of, set_v_eps. cbn. by rewrite fmap_insert, (Hf _ Hy).
Qed.

Lemma tdoes_upd_pkt p f V x x' (Q : unit → view → Prop) :
  v_pkts V !! p = Some x → (∀ y, norm_pkt y = x → norm_pkt (f y) = x') →
  Q tt (set_v_pkts (<[p := x']> (v_pkts V)) V) → tdoes (upd_pkt p f) V Q.
Proof.
  intros Hx Hf HQ. unfold upd_pkt. apply tdoes_bind. eapply tdoes_get_pkt; [exact Hx|].
  intros y Hy. eapply tdoes_modify; [|exact HQ]. intros t <-. split; [|done].
  unfold view_of, set_v_pkts. cbn. by rewrite fmap_insert, (Hf _ Hy).
Qed.

Lemma tdoes_upd_nbuf b f V x x' (Q : unit → view → Prop) :
  v_nbs V !! b = Some x → (∀ y, nb_size y = x → ∃ z, f y = Some z ∧ nb_size z = x') →
  Q tt (set_v_nbs (<[b := x']> (v_nbs V)) V) → tdoes (upd_nbuf b f) V Q.
Proof.
  intros Hx Hf HQ. unfold upd_nbuf. apply tdoes_bind. eapply tdoes_get_nbuf; [exact Hx|].
  intros y Hy. destruct (Hf _ Hy) as (z & Hz & Hs).
  apply tdoes_bind. eapply tdoes_deref; [exact Hz|]. eapply tdoes_modify; [|exact HQ]. intros t <-. split; [|done].
  unfold view_of, set_v_nbs. cbn. by rewrite fmap_insert, Hs.
Qed.

(** Updates the view does not see. *)
Lemma set_v_eps_id V e x : v_eps V !! e = Some x → set_v_eps (<[e := x]> (v_eps V)) V = V.
Proof. intros H. rewrite insert_id by done. by destruct V. Qed.
Lemma set_v_pkts_id V p x : v_pkts V !! p = Some x → set_v_pkts (<[p := x]> (v_pkts V)) V = V.
Proof. intros H. rewrite insert_id by done. by destruct V. Qed.
Lemma set_v_nbs_id V b x : v_nbs V !! b = Some x → set_v_nbs (<[b := x]> (v_nbs V)) V = V.
Proof. intros H. rewrite insert_id by done. by destruct V. Qed.
End steps.

(** * Programs on the queues and the target *)

Definition does {A} (m : HM queue_map A) (M : queue_map) (V : view)
    (Q : A → queue_map → view → Prop) : Prop :=
  ∀ t, view_of t = V → hist_ok t →
    safely m (M, t) (λ a s, hist_ok s.2 ∧ Q a s.1 (view_of s.2)).

Section does.
Implicit Types (M : queue_map) (V : view) (q : htc_queue) (p : positive).

Lemma does_ret {A} (a : A) M V (Q : A → queue_map → view → Prop) : Q a M V → does (mret a) M V Q.
Proof. intros H t <- Ht. by apply safely_ret. Qed.

Lemma does_mono {A} (m : HM queue_map A) M V (P Q : A → queue_map → view → Prop) :
  does m M V P → (∀ a M' V', P a M' V' → Q a M' V') → does m M V Q.
Proof.
  intros H HQ t Ht Hh. eapply safely_mono; [by apply H|]. intros a t' [? ?]. split; [done|]. by apply HQ.
Qed.

Lemma does_bind {A B} (m : HM queue_map A) (k : A → HM queue_map B) M V (Q : B → queue_map → view → Prop) :
  does m M V (λ a M' V', does (k a) M' V' Q) → does (x ← m; k x) M V Q.
Proof.
  intros H t Ht Hh. eapply safely_bind; [by apply H|]. intros a [M' t'] [Hh' HP]. by apply HP.
Qed.

Lemma does_when (b : bool) (m : HM queue_map unit) M V (Q : unit → queue_map → view → Prop) :
  (b = true → does m M V Q) → (b = false → Q tt M V) → does (when b m) M V Q.
Proof. intros H1 H2. destruct b; [by apply H1|]. by apply does_ret, H2. Qed.

Lemma does_deref {A} (o : option A) M V a (Q : A → queue_map → view → Prop) :
  o = Some a → Q a M V → does (deref o) M V Q.
Proof. intros -> H. by apply does_ret. Qed.

Lemma does_op {A} (m : TM A) M V (Q : A → queue_map → view → Prop) :
  tdoes m V (λ a V', Q a M V') → does (op m) M V Q.
Proof.
  intros H t Ht Hh. destruct (H t Ht Hh) as (a & t' & Hr & Hh' & HQ).
  exists a, (M, t'). unfold op, zoom. cbn. by rewrite Hr.
Qed.

Lemma does_qop {A} (m : CM queue_map A) M M' V a (Q : A → queue_map → view → Prop) :
  m M = Some (a, M') → Q a M' V → does (qop m) M V Q.
Proof.
  intros H HQ t <- Hh. exists a, (M', t). unfold qop, zoom. cbn. by rewrite H.
Qed.

(** ** Queues *)

Lemma list_of_run q M l : M !! q = Some l → list_of q M = Some (l, M).
Proof. intros H. unfold list_of. by mstep; rewrite H. Qed.

Lemma does_init q M V (Q : unit → queue_map → view → Prop) :
  Q tt (<[q := []]> M) V → does (qop (q_init q)) M V Q.
Proof. by eapply does_qop. Qed.

Lemma does_init_and_add q p M V (Q : unit → queue_map → view → Prop) :
  unlinked M p = true → Q tt (<[q := [p]]> M) V → does (qop (q_init_and_add q p)) M V Q.
Proof. intros Hu. eapply does_qop. cbn. unfold link. mstep. by rewrite Hu. Qed.

Lemma does_depth q M V l (Q : Z → queue_map → view → Prop) :
  M !! q = Some l → Q (Z.of_nat (length l)) M V → does (qop (q_depth q)) M V Q.
Proof. intros H. eapply does_qop. cbn. by rewrite (run_bind _ _ _ _ _ (list_of_run _ _ _ H)). Qed.

Lemma does_empty q M V l (Q : bool → queue_map → view → Prop) :
  M !! q = Some l → Q (bool_decide (l = [])) M V → does (q_empty q) M V Q.
Proof.
  intros H HQ. unfold q_empty. apply does_bind. eapply does_depth; [exact H|]. apply does_ret.
  replace (Z.of_nat (length l) =? 0) with (bool_decide (l = [])); [done|].
  destruct l as [|x l]; [done|]. symmetry. by apply Z.eqb_neq.
Qed.

Lemma does_enqueue q p M V l (Q : unit → queue_map → view → Prop) :
  M !! q = Some l → unlinked M p = true → Q tt (<[q := l ++ [p]]> M) V →
  does (qop (q_enqueue q p)) M V Q.
Proof.
  intros H Hu. eapply does_qop. cbn. rewrite (run_bind _ _ _ _ _ (list_of_run _ _ _ H)).
  unfold link. mstep. by rewrite Hu.
Qed.

Lemma does_enqueue_to_head q p M V l (Q : unit → queue_map → view → Prop) :
  M !! q = Some l → unlinked M p = true → Q tt (<[q := p :: l]> M) V →
  does (qop (q_enqueue_to_head q p)) M V Q.
Proof.
  intros H Hu. eapply does_qop. cbn. rewrite (run_bind _ _ _ _ _ (list_of_run _ _ _ H)).
  unfold link. mstep. by rewrite Hu.
Qed.

Lemma does_remove q p M V l (Q : unit → queue_map → view → Prop) :
  M !! q = Some l → p ∈ l → Q tt (<[q := filter (.≠ p) l]> M) V →
  does (qop (q_remove q p)) M V Q.
Proof.
  intros H Hp. eapply does_qop. cbn. rewrite (run_bind _ _ _ _ _ (list_of_run _ _ _ H)).
  by rewrite bool_decide_eq_true_2.
Qed.

Lemma does_dequeue q M V l (Q : option positive → queue_map → view → Prop) :
  M !! q = Some l → Q (head l) (<[q := tail l]> M) V → does (qop (q_dequeue q)) M V Q.
Proof.
  intros H. destruct l as [|p l].
  - cbn. rewrite insert_id by done. eapply does_qop. cbn.
    by rewrite (run_bind _ _ _ _ _ (list_of_run _ _ _ H)).
  - eapply does_qop. cbn. by rewrite (run_bind _ _ _ _ _ (list_of_run _ _ _ H)).
Qed.

Lemma does_at_head q M V l (Q : option positive → queue_map → view → Prop) :
  M !! q = Some l → Q (head l) M V → does (qop (q_at_head q)) M V Q.
Proof. intros H. eapply does_qop. cbn. by rewrite (run_bind _ _ _ _ _ (list_of_run _ _ _ H)). Qed.

Lemma does_first q M V l (Q : option positive → queue_map → view → Prop) :
  M !! q = Some l → Q (head l) M V → does (qop (q_first q)) M V Q.
Proof. intros H. eapply does_qop. cbn. by rewrite (run_bind _ _ _ _ _ (list_of_run _ _ _ H)). Qed.

Lemma next_in_split p l1 l2 : p ∉ l1 → next_in p (l1 ++ p :: l2) = Some (head l2).
Proof.
  induction l1 as [|x l1 IH]; cbn; intros Hp; [by rewrite decide_True|].
  rewrite decide_False by set_solver. apply IH. set_solver.
Qed.

Lemma does_next q p M V l1 l2 (Q : option positive → queue_map → view → Prop) :
  M !! q = Some (l1 ++ p :: l2) → p ∉ l1 → Q (head l2) M V → does (qop (q_next q p)) M V Q.
Proof.
  intros H Hp. eapply does_qop. cbn. rewrite (run_bind _ _ _ _ _ (list_of_run _ _ _ H)).
  by rewrite next_in_split.
Qed.

Lemma does_transfer_to_tail d s M V ld l (Q : unit → queue_map → view → Prop) :
  d ≠ s → M !! d = Some ld → M !! s = Some l → Q tt (<[s := []]> (<[d := ld ++ l]> M)) V →
  does (qop (q_transfer_to_tail d s)) M V Q.
Proof.
  intros Hn Hd Hs. eapply does_qop. cbn. rewrite bool_decide_eq_false_2 by done.
  rewrite (run_bind _ _ _ _ _ (list_of_run _ _ _ Hd)).
  by rewrite (run_bind _ _ _ _ _ (list_of_run _ _ _ Hs)).
Qed.

Lemma does_transfer_to_head d s M V ld l (Q : unit → queue_map → view → Prop) :
  d ≠ s → M !! d = Some ld → M !! s = Some l → Q tt (<[s := []]> (<[d := l ++ ld]> M)) V →
  does (qop (q_transfer_to_head d s)) M V Q.
Proof.
  intros Hn Hd Hs. eapply does_qop. cbn. rewrite bool_decide_eq_false_2 by done.
  rewrite (run_bind _ _ _ _ _ (list_of_run _ _ _ Hd)).
  by rewrite (run_bind _ _ _ _ _ (list_of_run _ _ _ Hs)).
Qed.

Lemma does_new_queue M V (Q : htc_queue → queue_map → view → Prop) :
  Q (LocalQueue (v_next V)) (<[LocalQueue (v_next V) := []]> M) (set_v_next (Pos.succ (v_next V)) V) →
  does new_queue M V Q.
Proof.
  intros HQ t <- Hh. exists (LocalQueue (next_local t)), (<[LocalQueue (next_local t) := []]> M,
    set_next_local (Pos.succ (next_local t)) t). by split.
Qed.
End does.

(** What the functions of the send path do to lists of packets: the packets a
    round of draining takes, and the credits it charges for them. *)

(** * All packets that are on some queue *)

Definition all (M : queue_map) : list positive := concat (map_to_list M).*2.

Section all.
Implicit Types (M : queue_map) (q : htc_queue) (p : positive).

Lemma all_insert_new M q l : M !! q = None → all (<[q := l]> M) ≡ₚ l ++ all M.
Proof. intros H. unfold all. by rewrite (map_to_list_insert M q l H). Qed.

Lemma all_lookup M q l : M !! q = Some l → all M ≡ₚ l ++ all (delete q M).
Proof.
  intros H. rewrite <- (insert_delete_id M q l H) at 1. apply all_insert_new, lookup_delete_eq.
Qed.

Lemma all_insert M q l : all (<[q := l]> M) ≡ₚ l ++ all (delete q M).
Proof. rewrite <- insert_delete_eq. apply all_insert_new, lookup_delete_eq. Qed.

Lemma elem_of_all M p : p ∈ all M ↔ ∃ q l, M !! q = Some l ∧ p ∈ l.
Proof.
  unfold all. rewrite elem_of_concat. split.
  - intros (l & Hp & Hl). apply list_elem_of_fmap in Hl as ([q l'] & -> & Hq).
    apply elem_of_map_to_list in Hq. eauto.
  - intros (q & l & Hq & Hp). exists l. split; [done|]. apply list_elem_of_fmap.
    exists (q, l). split; [done|]. by apply elem_of_map_to_list.
Qed.

Lemma unlinked_all M p : unlinked M p = true ↔ p ∉ all M.
Proof.
  unfold unlinked. rewrite bool_decide_eq_true, elem_of_all, map_Forall_lookup. naive_solver.
Qed.

Lemma all_empty : all ∅ = [].
Proof. unfold all. by rewrite map_to_list_empty. Qed.

(** Replacing the contents of queues. *)
Lemma all_replace M q l l' : M !! q = Some l → l' ++ all M ≡ₚ l ++ all (<[q := l']> M).
Proof. intros H. rewrite (all_lookup _ _ _ H), all_insert. solve_Permutation. Qed.

Lemma all_replace2 M q1 q2 l1 l2 l1' l2' : q1 ≠ q2 → M !! q1 = Some l1 → M !! q2 = Some l2 →
  l1' ++ l2' ≡ₚ l1 ++ l2 → all (<[q1 := l1']> (<[q2 := l2']> M)) ≡ₚ all M.
Proof.
  intros Hne H1 H2 Hp. rewrite all_insert, delete_insert_ne by done.
  rewrite all_insert, (all_lookup M q1 l1 H1).
  assert (delete q1 M !! q2 = Some l2) as H2' by (by rewrite lookup_delete_ne).
  rewrite (all_lookup (delete q1 M) q2 l2 H2'). rewrite !app_assoc. by rewrite Hp.
Qed.

Lemma all_new_empty M q : default [] (M !! q) = [] → all (<[q := []]> M) ≡ₚ all M.
Proof.
  intros H. destruct (M !! q) as [l|] eqn:E; cbn in H.
  - subst. by rewrite insert_id.
  - by rewrite all_insert_new.
Qed.

Lemma queue_nodup M q l : NoDup (all M) → M !! q = Some l → NoDup l.
Proof. intros H Hq. rewrite (all_lookup _ _ _ Hq) in H. by apply NoDup_app in H as (? & _). Qed.

Lemma queues_disjoint M q1 q2 l1 l2 p : NoDup (all M) → M !! q1 = Some l1 → M !! q2 = Some l2 →
  p ∈ l1 → p ∈ l2 → q1 = q2.
Proof.
  intros H H1 H2 Hp1 Hp2. destruct (decide (q1 = q2)) as [|Hne]; [done|]. exfalso.
  rewrite (all_lookup _ _ _ H1) in H. apply NoDup_app in H as (_ & H & _). apply (H p Hp1).
  apply elem_of_all. exists q2, l2. by rewrite lookup_delete_ne.
Qed.
End all.

(** * Charging for packets *)

(** The credits endpoint [x] uses for a packet; a packet whose size cannot be
    divided by the size of a credit does not get that far. *)
Definition used_for (x : HTC_ENDPOINT) (pkt : HTC_PACKET) : Z :=
  if negb (TxCreditFlowEnabled x) || (Id x =? ENDPOINT_0) then 0
  else default 0 (creditsRequired x pkt).

Definition charge (e : Z) (V : view) (p : positive) : view :=
  match v_eps V !! e, v_pkts V !! p with
  | Some x, Some pkt =>
      let u := used_for x pkt in
      set_v_pkts (<[p := set_CreditsUsed u pkt]> (v_pkts V))
        (set_v_eps (<[e := set_TxCredits (TxCredits x - u) x]> (v_eps V)) V)
  | _, _ => V
  end.

(** The endpoint has too few credits for the packet. *)
Definition starved (V : view) (e : Z) (p : positive) : Prop :=
  ∃ x pkt n, v_eps V !! e = Some x ∧ v_pkts V !! p = Some pkt ∧ Id x ≠ ENDPOINT_0 ∧
    TxCreditFlowEnabled x = true ∧ creditsRequired x pkt = Some n ∧ TxCredits x < n.

Section norm.
Implicit Types (x y : HTC_ENDPOINT) (pkt : HTC_PACKET).

Lemma creditsRequired_norm x pkt : creditsRequired (norm_ep x) (norm_pkt pkt) = creditsRequired x pkt.
Proof. reflexivity. Qed.
Lemma used_for_norm x pkt : used_for (norm_ep x) (norm_pkt pkt) = used_for x pkt.
Proof. reflexivity. Qed.
End norm.

(** [norm] replaces what was read by its normal form, whose fields are the same. *)
Ltac norm :=
  repeat match goal with
  | H : norm_ep ?y = ?x |- _ => is_var x; subst x
  | H : norm_pkt ?y = ?x |- _ => is_var x; subst x
  end.

Section programs.
Implicit Types (M : queue_map) (V : view) (q : htc_queue) (p : positive).

(** ** Reading *)

Lemma does_get_ep e M V x (Q : HTC_ENDPOINT → queue_map → view → Prop) :
  v_eps V !! e = Some x → (∀ y, norm_ep y = x → Q y M V) → does (op (get_ep e)) M V Q.
Proof. intros H HQ. apply does_op. by eapply tdoes_get_ep. Qed.

Lemma does_get_pkt p M V x (Q : HTC_PACKET → queue_map → view → Prop) :
  v_pkts V !! p = Some x → (∀ y, norm_pkt y = x → Q y M V) → does (op (get_pkt p)) M V Q.
Proof. intros H HQ. apply does_op. by eapply tdoes_get_pkt. Qed.

Lemma does_upd_ep e f M V x x' (Q : unit → queue_map → view → Prop) :
  v_eps V !! e = Some x → (∀ y, norm_ep y = x → norm_ep (f y) = x') →
  Q tt M (set_v_eps (<[e := x']> (v_eps V)) V) → does (op (upd_ep e f)) M V Q.
Proof. intros H Hf HQ. apply does_op. by eapply tdoes_upd_ep. Qed.

Lemma does_upd_pkt p f M V x x' (Q : unit → queue_map → view → Prop) :
  v_pkts V !! p = Some x → (∀ y, norm_pkt y = x → norm_pkt (f y) = x') →
  Q tt M (set_v_pkts (<[p := x']> (v_pkts V)) V) → does (op (upd_pkt p f)) M V Q.
Proof. intros H Hf HQ. apply does_op. by eapply tdoes_upd_pkt. Qed.

(** A change that the view does not see. *)
Lemma does_unseen (f : HTC_TARGET → HTC_TARGET) M V (Q : unit → queue_map → view → Prop) :
  (∀ t, view_of (f t) = view_of t ∧ (hist_ok t → hist_ok (f t))) → Q tt M V →
  does (op (modify f)) M V Q.
Proof.
  intros Hf HQ. apply does_op. apply tdoes_modify with V; [|done]. intros t <-. apply Hf.
Qed.

Lemma does_put M V (Q : unit → queue_map → view → Prop) : Q tt M V → does (op hif_pm_runtime_put) M V Q.
Proof. by apply does_unseen. Qed.

Lemma does_pm_get env b M V (Q : bool → queue_map → view → Prop) :
  (b && negb (pm_awake env) = true → Q true M V) → (b && negb (pm_awake env) = false → Q false M V) →
  does (pm_get_fails env b) M V Q.
Proof.
  intros H1 H2. unfold pm_get_fails, hif_pm_runtime_get. destruct b; [|by apply does_ret, H2].
  destruct (pm_awake env).
  - apply does_op, tdoes_bind. apply tdoes_modify with V; [by intros t <-|]. by apply tdoes_ret, H2.
  - by apply does_op, tdoes_ret, H1.
Qed.

Lemma does_credit_record type c d M V (Q : unit → queue_map → view → Prop) :
  Q tt M V → does (op (htc_credit_record type c d)) M V Q.
Proof.
  intros HQ. apply does_op. intros t <- [Hl Hi].
  unfold htc_credit_record. destruct (Z.leb_spec HTC_CREDIT_HISTORY_MAX (g_htc_credit_history_idx t)) as [Hle|Hlt].
  - eexists tt, _. split.
    + unfold mbind, CM_bind, gets. destruct (Z.leb_spec HTC_CREDIT_HISTORY_MAX (g_htc_credit_history_idx t)); [|lia].
      cbn -[wrap]. rewrite (proj2 (Z.ltb_lt _ _)) by (unfold HTC_CREDIT_HISTORY_MAX in *; lia). reflexivity.
    + split; [|done]. split; cbn -[wrap]; [by autorewrite with listdb|].
      unfold HTC_CREDIT_HISTORY_MAX. autorewrite with wrapdb. lia.
  - eexists tt, _. split.
    + unfold mbind, CM_bind, gets. destruct (Z.leb_spec HTC_CREDIT_HISTORY_MAX (g_htc_credit_history_idx t)); [lia|].
      cbn -[wrap]. rewrite (proj2 (Z.leb_le _ _)) by lia. rewrite (proj2 (Z.ltb_lt _ _)) by lia. reflexivity.
    + split; [|done]. unfold HTC_CREDIT_HISTORY_MAX in *. split; cbn -[wrap]; [by autorewrite with listdb|].
      autorewrite with wrapdb. unfold HTC_CREDIT_HISTORY_MAX. lia.
Qed.

(** ** Taking packets *)

(** What is known of the packets an endpoint may take. *)
Definition takable V e p : Prop :=
  ∃ x pkt b, v_eps V !! e = Some x ∧ v_pkts V !! p = Some pkt ∧ v_nbs V !! pNetBufContext pkt = Some b.

Lemma creditsRequired_some x pkt : u32 (TxCreditSize x) ≠ 0 → ∃ n, creditsRequired x pkt = Some n.
Proof.
  intros H. unfold creditsRequired. destruct (_ <=? _); [eauto|].
  rewrite (proj2 (Z.eqb_neq _ _) H). eauto.
Qed.

Lemma creditsRequired_pos x pkt n : creditsRequired x pkt = Some n → 0 < n.
Proof.
  unfold creditsRequired. destruct (Z.leb_spec (u32 (ActualLength pkt + HTC_HDR_LENGTH)) (u32 (TxCreditSize x)));
    [by intros [= <-]|].
  destruct (Z.eqb_spec (u32 (TxCreditSize x)) 0); [done|]. intros [= <-].
  pose proof (wrap_range 32 (TxCreditSize x)). 
  set (a := u32 (ActualLength pkt + HTC_HDR_LENGTH)) in *. set (b := u32 (TxCreditSize x)) in *.
  assert (0 < a `div` b) by (apply Z.div_str_pos; lia). destruct (_ =? 0); lia.
Qed.

Lemma used_for_nonneg x pkt : 0 ≤ used_for x pkt.
Proof.
  unfold used_for. destruct (_ || _); [done|].
  destruct (creditsRequired x pkt) as [n|] eqn:E; cbn; [|done].
  apply creditsRequired_pos in E. lia.
Qed.

Lemma does_take_credits e tq n M V x l (Q : option (Z * Z) → queue_map → view → Prop) :
  v_eps V !! e = Some x → TxCreditFlowEnabled x = true → M !! tq = Some l →
  (∀ fl, let u := if Id x =? ENDPOINT_0 then 0 else n in u ≤ TxCredits x ∨ u = 0 →
    Q (Some (u, fl)) M (set_v_eps (<[e := set_TxCredits (TxCredits x - u) x]> (v_eps V)) V)) →
  (Id x ≠ ENDPOINT_0 → TxCredits x < n → Q None M V) →
  does (take_credits e tq n) M V Q.
Proof.
  intros Hx Hfl Hl HQ Hn. unfold take_credits. apply does_bind. eapply does_get_ep; [exact Hx|].
  intros y Hy. norm. destruct (Z.eqb_spec (Id y) ENDPOINT_0) as [H0|H0].
  - specialize (HQ 0). cbn in HQ. rewrite H0 in HQ. cbn in HQ. apply does_ret.
    rewrite Z.sub_0_r in HQ.
    replace (set_v_eps (<[e := set_TxCredits (TxCredits y) (norm_ep y)]> (v_eps V)) V) with V in HQ.
    + apply HQ. by right.
    + symmetry. rewrite <- (set_v_eps_id V e (norm_ep y)) at 3 by done. by destruct y.
  - destruct (Z.ltb_spec (TxCredits y) n) as [Hlt|Hge]; [by apply does_ret, Hn|].
    apply does_bind. eapply does_upd_ep; [exact Hx| |].
    { intros z Hz. instantiate (1 := set_TxCredits (TxCredits y - n) (norm_ep y)). by rewrite <- Hz. }
    assert (∀ fl, Q (Some (n, fl)) M (set_v_eps (<[e := set_TxCredits (TxCredits y - n) (norm_ep y)]> (v_eps V)) V)) as HQ'.
    { intros fl. specialize (HQ fl). cbn in HQ. rewrite (proj2 (Z.eqb_neq _ _) H0) in HQ. apply HQ. by left. }
    destruct (_ <=? _); [|by apply does_ret].
    apply does_bind. eapply does_depth; [exact Hl|]. apply does_bind.
    apply does_when; intros _; [apply does_credit_record|]; by apply does_ret.
Qed.

Lemma insert2_insert2 M q1 q2 a b a' b' : q1 ≠ q2 →
  <[q1 := a']> (<[q2 := b']> (<[q1 := a]> (<[q2 := b]> M))) = <[q1 := a']> (<[q2 := b']> M).
Proof.
  intros H. rewrite (insert_insert_ne _ q2 q1) by done. by rewrite !insert_insert_eq.
Qed.

Lemma insert2_id M q1 q2 a b : M !! q1 = Some a → M !! q2 = Some b → <[q1 := a]> (<[q2 := b]> M) = M.
Proof. intros H1 H2. rewrite (insert_id M q2) by done. by apply insert_id. Qed.

Lemma unlinked_head M q p l : NoDup (all M) → M !! q = Some (p :: l) → unlinked (<[q := l]> M) p = true.
Proof.
  intros Hnd Hq. apply unlinked_all. rewrite all_insert. rewrite (all_lookup _ _ _ Hq) in Hnd.
  by apply NoDup_cons in Hnd as [].
Qed.

(** Moving the head of [tq] to the end of [pq]. *)
Lemma all_move M pq tq taken p l : pq ≠ tq → M !! pq = Some taken → M !! tq = Some (p :: l) →
  all (<[pq := taken ++ [p]]> (<[tq := l]> M)) ≡ₚ all M.
Proof. intros Hne Hpq Htq. eapply all_replace2; [done..|]. by rewrite <- app_assoc. Qed.

Definition credits_of V (e : Z) : Z := default 0 (TxCredits <$> v_eps V !! e).

Lemma charge_run e V p x pkt : v_eps V !! e = Some x → v_pkts V !! p = Some pkt →
  charge e V p = set_v_pkts (<[p := set_CreditsUsed (used_for x pkt) pkt]> (v_pkts V))
    (set_v_eps (<[e := set_TxCredits (TxCredits x - used_for x pkt) x]> (v_eps V)) V).
Proof. intros Hx Hp. unfold charge. by rewrite Hx, Hp. Qed.

Lemma charge_pkts e V p p' : is_Some (v_pkts (charge e V p) !! p') ↔ is_Some (v_pkts V !! p').
Proof.
  unfold charge. destruct (v_eps V !! e) as [x|]; [|done]. destruct (v_pkts V !! p) as [pkt|] eqn:E; [|done].
  cbn. destruct (decide (p = p')) as [->|Hne]; [|by rewrite lookup_insert_ne].
  rewrite lookup_insert_eq, E. split; eauto.
Qed.

(** Why a loop over the queue stopped before [l2]. *)
Definition loop_stops env (b : bool) V (e : Z) (l2 : list positive) : Prop :=
  b && negb (pm_awake env) = true ∨ l2 = [] ∨ ∃ p l, l2 = p :: l ∧ starved V e p.

(** Stopping before the first packet. *)
Lemma credit_stop env e pq tq b l M V taken x (Q : unit → queue_map → view → Prop) :
  M !! pq = Some taken → M !! tq = Some l → v_eps V !! e = Some x → 0 ≤ TxCredits x →
  (∀ l1 l2, l = l1 ++ l2 → let V' := foldl (charge e) V l1 in
    0 ≤ credits_of V' e → (b && negb (pm_awake env) = true → l1 = []) → loop_stops env b V' e l2 →
    Q tt (<[pq := taken ++ l1]> (<[tq := l2]> M)) V') →
  loop_stops env b V e l → Q tt M V.
Proof.
  intros Hpq Htq Hx Hc HQ Hr. rewrite <- (insert2_id M pq tq taken _ Hpq Htq), <- (app_nil_r taken).
  apply (HQ []); [done|cbn; unfold credits_of; by rewrite Hx|done|exact Hr].
Qed.

Lemma does_credit_loop env e pq tq b l fuel M V taken x (Q : unit → queue_map → view → Prop) :
  (length l < fuel)%nat → M !! pq = Some taken → M !! tq = Some l → pq ≠ tq → NoDup (all M) →
  v_eps V !! e = Some x → TxCreditFlowEnabled x = true → u32 (TxCreditSize x) ≠ 0 →
  Forall (λ p, is_Some (v_pkts V !! p)) l → 0 ≤ TxCredits x →
  (∀ l1 l2, l = l1 ++ l2 → let V' := foldl (charge e) V l1 in
    0 ≤ credits_of V' e → (b && negb (pm_awake env) = true → l1 = []) → loop_stops env b V' e l2 →
    Q tt (<[pq := taken ++ l1]> (<[tq := l2]> M)) V') →
  does (credit_loop fuel env e pq tq b) M V Q.
Proof.
  revert fuel M V taken x. induction l as [|p l IH]; intros fuel M V taken x Hf Hpq Htq Hne Hnd Hx Hfl Hsz Hl Hc HQ;
    (destruct fuel as [|fuel]; [cbn in Hf; lia|]); cbn [credit_loop].
  all: pose proof (credit_stop env e pq tq b _ M V taken x Q Hpq Htq Hx Hc HQ) as Hstop.
  all: apply does_bind; apply does_pm_get; intros Hpm; [apply does_ret, Hstop; by left|].
  all: apply does_bind; eapply does_at_head; [exact Htq|]; cbn [head].
  - apply does_when; intros _; [apply does_put|]; (apply Hstop; by right; left).
  - apply Forall_cons in Hl as [[pkt Hp] Hl].
    apply does_bind. eapply does_get_pkt; [exact Hp|]. intros pk Hpk. norm.
    apply does_bind. eapply does_get_ep; [exact Hx|]. intros y Hy. norm.
    destruct (creditsRequired_some y pk Hsz) as [n Hn].
    apply does_bind. eapply does_deref; [exact Hn|]. apply does_bind.
    eapply (does_take_credits e tq n M V); [exact Hx|done|exact Htq| |].
    + intros fl u Hu. assert (used_for (norm_ep y) (norm_pkt pk) = u) as Huse.
      { unfold u, used_for. change (TxCreditFlowEnabled (norm_ep y)) with (TxCreditFlowEnabled y) in *.
        rewrite Hfl. change (Id (norm_ep y)) with (Id y). cbn [negb orb].
        destruct (Id y =? ENDPOINT_0); [done|]. by rewrite creditsRequired_norm, Hn. }
      apply does_bind. eapply does_dequeue; [exact Htq|]. cbn [head tail].
      apply does_bind, does_bind. eapply does_upd_pkt; [exact Hp| |].
      { intros z Hz. instantiate (1 := set_CreditsUsed u (norm_pkt pk)). by rewrite <- Hz. }
      eapply does_enqueue; [by rewrite lookup_insert_ne|by apply unlinked_head|].
      pose proof (charge_run e V p _ _ Hx Hp) as Hch. rewrite Huse in Hch.
      match goal with |- does _ _ ?V1 _ => replace V1 with (charge e V p) by done end.
      eapply (IH fuel _ (charge e V p)); [cbn in Hf; lia|by rewrite lookup_insert_eq
        |rewrite lookup_insert_ne by done; by rewrite lookup_insert_eq|done|by rewrite all_move
        |rewrite Hch; cbn; by rewrite lookup_insert_eq|done|done| | |].
      * eapply Forall_impl; [exact Hl|]. intros p' Hp'. by apply charge_pkts.
      * cbn. pose proof (used_for_nonneg (norm_ep y) (norm_pkt pk)). cbn in *. lia.
      * intros l1 l2 -> V' Hc' Hpm' Hst. rewrite insert2_insert2 by done. rewrite <- app_assoc.
        apply (HQ (p :: l1) l2); [done|done| |done]. by rewrite Hpm.
    + intros H0 Hlt. apply does_when; intros _; [apply does_put|]; (apply Hstop; right; right;
        exists p, l; split; [done|]; exists (norm_ep y), (norm_pkt pk), n; done).
Qed.

Lemma charge_nbs e V p : v_nbs (charge e V p) = v_nbs V.
Proof. unfold charge. destruct (v_eps V !! e); [|done]. by destruct (v_pkts V !! p). Qed.

Lemma charge_nb e V p p' : pNetBufContext <$> v_pkts (charge e V p) !! p' = pNetBufContext <$> v_pkts V !! p'.
Proof.
  unfold charge. destruct (v_eps V !! e) as [x|]; [|done]. destruct (v_pkts V !! p) as [pkt|] eqn:E; [|done].
  cbn. destruct (decide (p = p')) as [->|Hne]; [|by rewrite lookup_insert_ne].
  by rewrite lookup_insert_eq, E.
Qed.

(** A packet with a buffer *)
Definition buffered V p : Prop := ∃ b s, pNetBufContext <$> v_pkts V !! p = Some b ∧ v_nbs V !! b = Some s.

Lemma buffered_charge e V p p' : buffered V p' → buffered (charge e V p) p'.
Proof. intros (b & s & H1 & H2). exists b, s. by rewrite charge_nb, charge_nbs. Qed.

Lemma does_resource_loop env e pq tq b l fuel M V taken x r (Q : unit → queue_map → view → Prop) :
  (length l < fuel)%nat → M !! pq = Some taken → M !! tq = Some l → pq ≠ tq → NoDup (all M) →
  v_eps V !! e = Some x → TxCreditFlowEnabled x = false → Forall (buffered V) l →
  (∀ l1 l2, l = l1 ++ l2 → v_eps (foldl (charge e) V l1) !! e = Some x →
    (b && negb (pm_awake env) = true → l1 = []) →
    (l1 = [] → r ≤ 0 ∨ b && negb (pm_awake env) = true ∨ l = []) →
    Q tt (<[pq := taken ++ l1]> (<[tq := l2]> M)) (foldl (charge e) V l1)) →
  does (resource_loop fuel env e pq tq b r) M V Q.
Proof.
  revert fuel M V taken r. induction l as [|p l IH]; intros fuel M V taken r Hf Hpq Htq Hne Hnd Hx Hfl Hl HQ;
    (destruct fuel as [|fuel]; [cbn in Hf; lia|]); cbn [resource_loop].
  all: pose proof (HQ [] _ eq_refl) as Hstop; cbn in Hstop; rewrite app_nil_r in Hstop;
    rewrite (insert2_id M pq tq taken _ Hpq Htq) in Hstop.
  all: destruct (Z.leb_spec r 0) as [Hr|Hr]; [by apply does_ret, Hstop; auto|].
  all: apply does_bind; apply does_pm_get; intros Hpm; [by apply does_ret, Hstop; auto|].
  all: apply does_bind; eapply does_dequeue; [exact Htq|]; cbn [head tail].
  - rewrite insert_id by done. apply does_when; intros _; [apply does_put|]; apply Hstop; auto.
  - apply Forall_cons in Hl as [(bf & sz & Hb & Hs) Hl].
    destruct (v_pkts V !! p) as [pkt|] eqn:Hp; [|done]. injection Hb as <-.
    apply does_bind. eapply does_upd_pkt; [exact Hp| |].
    { intros z Hz. instantiate (1 := set_CreditsUsed 0 pkt). by rewrite <- Hz. }
    apply does_bind. eapply does_enqueue; [by rewrite lookup_insert_ne|by apply unlinked_head|].
    apply does_bind. eapply does_get_pkt; [cbn; by rewrite lookup_insert_eq|]. intros pk Hpk.
    apply does_bind. eapply (does_op (get_nbuf _)), tdoes_get_nbuf.
    { cbn. change (pNetBufContext pk) with (pNetBufContext (norm_pkt pk)). rewrite Hpk. exact Hs. }
    intros nb _. match goal with |- does _ _ ?V1 _ => assert (V1 = charge e V p) as -> end.
    { rewrite (charge_run e V p x pkt Hx Hp). unfold used_for. rewrite Hfl. cbn [negb orb].
      rewrite Z.sub_0_r. replace (set_TxCredits (TxCredits x) x) with x by by destruct x.
      by rewrite set_v_eps_id. }
    assert (v_eps (charge e V p) !! e = Some x) as Hx'.
    { rewrite (charge_run e V p x pkt Hx Hp). cbn. rewrite lookup_insert_eq.
      unfold used_for. rewrite Hfl. cbn. rewrite Z.sub_0_r. by destruct x. }
    eapply (IH fuel _ (charge e V p)); [cbn in Hf; lia|by rewrite lookup_insert_eq
      |rewrite lookup_insert_ne by done; by rewrite lookup_insert_eq|done|by rewrite all_move
      |done|done| |].
    + eapply Forall_impl; [exact Hl|]. intros p'. apply buffered_charge.
    + intros l1 l2 -> Hx1 Hpm' _. rewrite insert2_insert2 by done. rewrite <- app_assoc.
      apply (HQ (p :: l1) l2); [done|done|by rewrite Hpm|done].
Qed.

(** ** Power management packets *)

Definition is_pm V p : bool :=
  match v_pkts V !! p with
  | Some pkt => Tag pkt =? HTC_TX_PACKET_TAG_AUTO_PM
  | None => false
  end.
Definition pm_part V (l : list positive) : list positive := filter (λ p, is_pm V p = true) l.
Definition data_part V (l : list positive) : list positive := filter (λ p, is_pm V p ≠ true) l.

(** Power management packets of the control service go first. *)
Definition promote V (e : Z) (l : list positive) : list positive :=
  match v_eps V !! e with
  | Some x => if service_id x =? WMI_CONTROL_SVC then pm_part V l ++ data_part V l else l
  | None => l
  end.

Lemma parts_perm V l : pm_part V l ++ data_part V l ≡ₚ l.
Proof. apply filter_app_complement. Qed.

Lemma data_part_all V l : pm_part V l = [] → data_part V l = l.
Proof.
  unfold pm_part, data_part. induction l as [|p l IH]; [done|].
  destruct (decide (is_pm V p = true)) as [H|H]; [by rewrite filter_cons_True|].
  rewrite filter_cons_False, (filter_cons_True (λ p, is_pm V p ≠ true)) by done.
  intros Hl. by rewrite IH.
Qed.

Lemma promote_perm V e l : promote V e l ≡ₚ l.
Proof. unfold promote. destruct (v_eps V !! e) as [x|]; [|done]. destruct (_ =? _); [apply parts_perm|done]. Qed.

Lemma promote_nil V e : promote V e [] = [].
Proof. unfold promote. destruct (v_eps V !! e); [|done]. by destruct (_ =? _). Qed.

Lemma does_extract_loop e q todo fuel M V kept acc (Q : unit → queue_map → view → Prop) :
  (length todo ≤ fuel)%nat → q ≠ TxQueue e → M !! TxQueue e = Some (kept ++ todo) → M !! q = Some acc →
  NoDup (all M) → Forall (λ p, is_Some (v_pkts V !! p)) todo →
  Q tt (<[q := acc ++ pm_part V todo]> (<[TxQueue e := kept ++ data_part V todo]> M)) V →
  does (extract_loop fuel e q (head todo)) M V Q.
Proof.
  revert fuel M kept acc. induction todo as [|p l IH]; intros fuel M kept acc Hf Hne Htx Hq Hnd Hl HQ.
  - unfold pm_part, data_part in HQ. cbn in HQ. rewrite !app_nil_r in *.
    rewrite insert2_id in HQ by done. destruct fuel; by apply does_ret.
  - destruct fuel as [|fuel]; [cbn in Hf; lia|]. cbn [head extract_loop].
    pose proof (queue_nodup _ _ _ Hnd Htx) as Hndq.
    assert (p ∉ kept) as Hpk. { apply NoDup_app in Hndq as (_ & Hd & _). intros Hin. apply (Hd p Hin). by left. }
    apply Forall_cons in Hl as [[pkt Hp] Hl].
    apply does_bind. eapply does_next; [exact Htx|done|].
    apply does_bind. eapply does_get_pkt; [exact Hp|]. intros pk Hpkn. norm.
    apply does_bind. unfold pm_part, data_part in HQ. apply does_when; intros Htag.
    + assert (is_pm V p = true) as Hpm by (unfold is_pm; by rewrite Hp).
      rewrite filter_cons_True in HQ by done. rewrite (filter_cons_False (λ p, is_pm V p ≠ true)) in HQ by auto.
      apply does_bind. eapply does_remove; [exact Htx|set_solver|]. rewrite filter_ne_split by done.
      eapply does_enqueue; [by rewrite lookup_insert_ne| |].
      { apply unlinked_all. rewrite all_insert. rewrite (all_lookup _ _ _ Htx), <- app_assoc in Hnd.
        rewrite <- app_assoc. cbn [app] in Hnd. rewrite <- Permutation_middle in Hnd.
        by apply NoDup_cons in Hnd as []. }
      eapply (IH fuel _ kept (acc ++ [p])); [cbn in Hf; lia|done| |by rewrite lookup_insert_eq| |done|].
      * rewrite lookup_insert_ne by done. by rewrite lookup_insert_eq.
      * eapply NoDup_Permutation_proper; [|exact Hnd]. eapply all_replace2; [done..|].
        rewrite <- !app_assoc. cbn. solve_Permutation.
      * rewrite insert2_insert2 by done. rewrite <- app_assoc. exact HQ.
    + assert (is_pm V p ≠ true) as Hpm by (unfold is_pm; rewrite Hp; cbn in *; congruence).
      rewrite filter_cons_False in HQ by done. rewrite (filter_cons_True (λ p, is_pm V p ≠ true)) in HQ by done.
      eapply (IH fuel _ (kept ++ [p])); [cbn in Hf; lia|done|by rewrite <- app_assoc|exact Hq|done|done|].
      rewrite <- app_assoc. exact HQ.
Qed.
End programs.

(** Equality of maps of queues, key by key. *)
Ltac qmap :=
  apply map_eq; let q := fresh "q" in intros q;
  repeat match goal with
  | |- context [<[?k := _]> _ !! q] =>
      destruct (decide (k = q)) as [<-|?];
      [rewrite ?lookup_insert_eq|rewrite ?(lookup_insert_ne _ k q) by done];
      repeat rewrite lookup_insert_ne by congruence; rewrite ?lookup_insert_eq
  end; try done.

Section rounds.
Implicit Types (M : queue_map) (V : view) (q : htc_queue) (p : positive).

(** The queue that packets are taken from, as [pm_or_tx_queue] leaves it. *)
Lemma does_pm_or_tx_queue e M V x tx (Q : htc_queue * htc_queue * bool → queue_map → view → Prop) :
  let L := LocalQueue (v_next V) in
  let V1 := set_v_next (Pos.succ (v_next V)) V in
  M !! L = None → M !! TxQueue e = Some tx → v_eps V !! e = Some x → NoDup (all M) →
  Forall (λ p, is_Some (v_pkts V !! p)) tx →
  (promote V e tx = tx → Q (L, TxQueue e, true) (<[L := []]> M) V1) →
  (service_id x = WMI_CONTROL_SVC → pm_part V tx ≠ [] →
    Q (L, L, false) (<[L := pm_part V tx]> (<[TxQueue e := data_part V tx]> M)) V1) →
  does (pm_or_tx_queue e) M V Q.
Proof.
  intros L V1 HL Htx Hx Hnd Hl HQ1 HQ2. unfold pm_or_tx_queue, promote in *. rewrite Hx in HQ1.
  apply does_bind, does_new_queue. fold L. fold V1. apply does_bind. unfold extract_htc_pm_packets.
  apply does_bind. eapply does_get_ep; [exact Hx|]. intros y Hy. norm.
  change (service_id (norm_ep y)) with (service_id y) in *. apply does_when; intros Hs.
  - rewrite Hs in HQ1. apply Z.eqb_eq in Hs.
    apply does_bind. eapply does_depth; [by rewrite lookup_insert_ne|].
    apply does_bind. eapply does_first; [by rewrite lookup_insert_ne|].
    eapply (does_extract_loop e L tx _ _ V1 [] []); [lia|done|by rewrite lookup_insert_ne|by rewrite lookup_insert_eq
      |by rewrite all_new_empty by (by rewrite HL)|done|].
    cbn [app]. apply does_bind. eapply does_empty; [by rewrite lookup_insert_eq|]. apply does_ret.
    change (pm_part V1 tx) with (pm_part V tx). change (data_part V1 tx) with (data_part V tx).
    case_bool_decide as Hpm.
    + pose proof (data_part_all _ _ Hpm) as Heq. rewrite Hpm in *. cbn in HQ1.
      rewrite Heq in *. rewrite (insert_id (<[L := []]> M) (TxQueue e)) by (by rewrite lookup_insert_ne).
      rewrite insert_insert_eq. by apply HQ1.
    + specialize (HQ2 Hs Hpm).
      replace (<[L := pm_part V tx]> (<[TxQueue e := data_part V tx]> (<[L := []]> M)))
        with (<[L := pm_part V tx]> (<[TxQueue e := data_part V tx]> M)) by qmap. exact HQ2.
  - rewrite Hs in HQ1. apply does_bind. eapply does_empty; [by rewrite lookup_insert_eq|].
    rewrite bool_decide_eq_true_2 by done. by apply does_ret, HQ1.
Qed.

(** Why nothing could be taken. *)
Definition round_stops env V (e : Z) (x : HTC_ENDPOINT) r (l : list positive) : Prop :=
  pm_awake env = false ∨ l = [] ∨ (∃ p l', l = p :: l' ∧ starved V e p) ∨
  (TxCreditFlowEnabled x = false ∧ r ≤ 0).

(** Putting the power management packets that were left back in front. *)
Lemma does_requeue_pm e q M V x l tx (Q : unit → queue_map → view → Prop) :
  q ≠ TxQueue e → M !! q = Some l → M !! TxQueue e = Some tx → v_eps V !! e = Some x →
  (l ≠ [] → service_id x = WMI_CONTROL_SVC) →
  Q tt (<[q := []]> (<[TxQueue e := l ++ tx]> M)) V → does (requeue_pm e q) M V Q.
Proof.
  intros Hne Hq Htx Hx Hs HQ. unfold requeue_pm, queue_htc_pm_packets. apply does_bind.
  eapply does_empty; [exact Hq|]. case_bool_decide as Hl; cbn.
  - subst. apply does_ret. cbn in HQ. by rewrite insert2_id in HQ.
  - apply does_bind. eapply does_get_ep; [exact Hx|]. intros y Hy. norm.
    apply does_when; intros Hs'.
    + eapply does_transfer_to_head; [done|exact Htx|exact Hq|exact HQ].
    + apply Z.eqb_neq in Hs'. by destruct (Hs' (Hs Hl)).
Qed.

(** Charging changes the credits of the endpoint only. *)
Lemma charged_ep e V l x : v_eps V !! e = Some x →
  ∃ c, v_eps (foldl (charge e) V l) !! e = Some (set_TxCredits c x).
Proof.
  revert V x. induction l as [|p l IH]; intros V x Hx; cbn; [exists (TxCredits x); rewrite Hx; by destruct x|].
  unfold charge at 2. rewrite Hx. destruct (v_pkts V !! p) as [pkt|]; [|by apply IH].
  apply (IH _ (set_TxCredits (TxCredits x - used_for x pkt) x)). cbn. by rewrite lookup_insert_eq.
Qed.

(** Why a loop over a queue took nothing. *)
Definition nothing_taken env (b : bool) V (e : Z) (x : HTC_ENDPOINT) r (l : list positive) : Prop :=
  b && negb (pm_awake env) = true ∨ l = [] ∨ (∃ p l', l = p :: l' ∧ starved V e p) ∨
  (TxCreditFlowEnabled x = false ∧ r ≤ 0).

(** Both functions that get packets, given what their loops do. *)
Lemma does_get_packets (loop : htc_queue → bool → nat → HM queue_map unit) env e pq r M V x tx
    (Q : unit → queue_map → view → Prop) :
  let L := LocalQueue (v_next V) in
  let V1 := set_v_next (Pos.succ (v_next V)) V in
  M !! L = None → M !! pq = Some [] → pq ≠ TxQueue e → M !! TxQueue e = Some tx →
  v_eps V !! e = Some x → NoDup (all M) → Forall (λ p, is_Some (v_pkts V !! p)) tx →
  (∀ tq b M1 l (Q1 : unit → queue_map → view → Prop),
    M1 !! pq = Some [] → M1 !! tq = Some l → pq ≠ tq → NoDup (all M1) → l ⊆ tx →
    (∀ l1 l2, l = l1 ++ l2 → let V' := foldl (charge e) V1 l1 in
      0 ≤ credits_of V' e → (l1 = [] → nothing_taken env b V' e x r l2) →
      Q1 tt (<[pq := l1]> (<[tq := l2]> M1)) V') →
    does (loop tq b (S (length l))) M1 V1 Q1) →
  (∀ taken tx', taken ++ tx' = promote V e tx → let V' := foldl (charge e) V1 taken in
    0 ≤ credits_of V' e → (taken = [] → round_stops env V' e x r tx') →
    Q tt (<[TxQueue e := tx']> (<[pq := taken]> (<[L := []]> M))) V') →
  does ('(pm_queue, tx_queue, do_pm_get) ← pm_or_tx_queue e;
        d ← qop (q_depth tx_queue);
        loop tx_queue do_pm_get (S (Z.to_nat d));;
        requeue_pm e pm_queue) M V Q.
Proof.
  intros L V1 HL Hpq Hne Htx Hx Hnd Hl Hloop HQ. assert (L ≠ pq) as HLpq by (intros ->; congruence).
  apply does_bind. eapply does_pm_or_tx_queue; [exact HL|exact Htx|exact Hx|done|done| |]; fold L V1.
  - intros Hpro. rewrite Hpro in HQ. apply does_bind. eapply does_depth; [by rewrite lookup_insert_ne|].
    rewrite Nat2Z.id. apply does_bind. eapply (Hloop (TxQueue e) true _ tx); try done;
      [by rewrite lookup_insert_ne|by rewrite lookup_insert_ne|by rewrite all_new_empty by (by rewrite HL)|].
    intros l1 l2 Heq V' Hc' Hst. destruct (charged_ep e V1 l1 x Hx) as [c Hx'].
    eapply (does_requeue_pm e L _ _ _ [] l2); [done| | |exact Hx'|done|].
    + rewrite !lookup_insert_ne by done. by rewrite lookup_insert_eq.
    + rewrite lookup_insert_ne by done. by rewrite lookup_insert_eq.
    + cbn [app]. specialize (HQ l1 l2 (eq_sym Heq) Hc').
      replace (<[L := []]> (<[TxQueue e := l2]> (<[pq := l1]> (<[TxQueue e := l2]> (<[L := []]> M)))))
        with (<[TxQueue e := l2]> (<[pq := l1]> (<[L := []]> M))) by qmap.
      apply HQ. intros Hl1. destruct (Hst Hl1) as [Hst'|Hst']; [left|by right]. by destruct (pm_awake env).
  - intros Hs Hpmne. unfold promote in HQ. rewrite Hx, Hs in HQ. cbn in HQ.
    apply does_bind. eapply does_depth; [by rewrite lookup_insert_eq|].
    rewrite Nat2Z.id. apply does_bind. eapply (Hloop L false _ (pm_part V tx));
      [by rewrite !lookup_insert_ne|by rewrite lookup_insert_eq|done| | |].
    { eapply NoDup_Permutation_proper; [|exact Hnd]. rewrite all_insert_new by (by rewrite lookup_insert_ne).
      rewrite all_insert, (all_lookup _ _ _ Htx), app_assoc. by rewrite parts_perm. }
    { intros p [_ Hp]%list_elem_of_filter. done. }
    intros l1 l2 Heq V' Hc' Hst. destruct (charged_ep e V1 l1 x Hx) as [c Hx'].
    eapply (does_requeue_pm e L _ _ _ l2 (data_part V tx)); [done| | |exact Hx'|done|].
    + rewrite lookup_insert_ne by done. by rewrite lookup_insert_eq.
    + rewrite !lookup_insert_ne by done. by rewrite lookup_insert_eq.
    + specialize (HQ l1 (l2 ++ data_part V tx)). rewrite app_assoc, <- Heq in HQ. specialize (HQ eq_refl Hc').
      replace (<[L := []]> (<[TxQueue e := l2 ++ data_part V tx]> (<[pq := l1]> (<[L := l2]>
          (<[L := pm_part V tx]> (<[TxQueue e := data_part V tx]> M))))))
        with (<[TxQueue e := l2 ++ data_part V tx]> (<[pq := l1]> (<[L := []]> M))) by qmap.
      apply HQ. intros ->. destruct (Hst eq_refl) as [Hst'|[->|[(p & l' & -> & Hst')|Hst']]].
      * done.
      * by rewrite app_nil_r in Heq.
      * right; right; left. by exists p, (l' ++ data_part V tx).
      * by right; right; right.
Qed.

(** What a round of the drain loop takes, with and without credits. *)
Lemma does_get env e pq r M V x tx (Q : unit → queue_map → view → Prop) :
  let L := LocalQueue (v_next V) in
  let V1 := set_v_next (Pos.succ (v_next V)) V in
  M !! L = None → M !! pq = Some [] → pq ≠ TxQueue e → M !! TxQueue e = Some tx →
  v_eps V !! e = Some x → NoDup (all M) → Forall (buffered V) tx →
  (TxCreditFlowEnabled x = true → u32 (TxCreditSize x) ≠ 0) → 0 ≤ TxCredits x →
  (∀ taken tx', taken ++ tx' = promote V e tx → let V' := foldl (charge e) V1 taken in
    0 ≤ credits_of V' e → (taken = [] → round_stops env V' e x r tx') →
    Q tt (<[TxQueue e := tx']> (<[pq := taken]> (<[L := []]> M))) V') →
  does (if TxCreditFlowEnabled x then get_htc_send_packets_credit_based env e pq
        else get_htc_send_packets env e pq r) M V Q.
Proof.
  intros L V1 HL Hpq Hne Htx Hx Hnd Hbuf Hsz Hc HQ.
  assert (Forall (λ p, is_Some (v_pkts V !! p)) tx) as Hl.
  { eapply Forall_impl; [exact Hbuf|]. intros p (b & s & Hb & _). destruct (v_pkts V !! p); [eauto|done]. }
  destruct (TxCreditFlowEnabled x) eqn:Hfl.
  - unfold get_htc_send_packets_credit_based.
    eapply (does_get_packets (λ tq b fuel, credit_loop fuel env e pq tq b)); try done.
    intros tq b M1 l Q1 Hpq1 Htq1 Hne1 Hnd1 Hsub HQ1.
    eapply (does_credit_loop env e pq tq b l _ M1 V1 []); try done; [lia|by apply Hsz| |].
    + rewrite Forall_forall in *. intros p Hp. by apply Hl, Hsub.
    + intros l1 l2 Heq V' Hc' Hpm Hst. apply HQ1; [done|done|]. intros _.
      destruct Hst as [?|[?|?]]; [by left|by right; left|by right; right; left].
  - unfold get_htc_send_packets.
    eapply (does_get_packets (λ tq b fuel, resource_loop fuel env e pq tq b r)); try done.
    intros tq b M1 l Q1 Hpq1 Htq1 Hne1 Hnd1 Hsub HQ1.
    eapply (does_resource_loop env e pq tq b l _ M1 V1 []); try done; [lia| |].
    + rewrite Forall_forall in *. intros p Hp. by apply Hbuf, Hsub.
    + intros l1 l2 Heq Hx' Hpm Hst.
      assert (0 ≤ credits_of (foldl (charge e) V1 l1) e) as Hc' by (unfold credits_of; by rewrite Hx').
      apply HQ1; [done|exact Hc'|].
      intros ->. destruct (Hst eq_refl) as [?|[?|Hl0]]; [by right; right; right|by left|].
      right; left. by rewrite Heq in Hl0.
Qed.
End rounds.
