(* ===== verification/HtcMoves.v ===== *)
(** What the functions of the send path do to lists of packets, continued: the
    packets they prepare, restore and complete, and those that are admitted. *)
From S2P Require Import Prelude Ring HtcQueue HtcTypes HtcSend HtcSystem HtcView.

(** * Changes of packets and buffers *)

(** What no step changes of a packet that the channel has, of a buffer, and of an
    endpoint. *)
Definition pkt_static (x : HTC_PACKET) : HTC_PACKET := set_CreditsUsed 0 (set_Flags 0 x).
Definition ep_static (x : HTC_ENDPOINT) : HTC_ENDPOINT := set_TxCredits 0 (set_TxProcessCount 0 x).

Definition buffer_of (V : view) (p : positive) : option positive := pNetBufContext <$> v_pkts V !! p.

(** The packets [ps] and their buffers may have changed, and nothing else. *)
Record touches (ps : list positive) (V V' : view) : Prop := {
  touch_pkt p : p ∉ ps → v_pkts V' !! p = v_pkts V !! p;
  touch_static p : pkt_static <$> v_pkts V' !! p = pkt_static <$> v_pkts V !! p;
  touch_nb b : (∀ p, p ∈ ps → buffer_of V p ≠ Some b) → v_nbs V' !! b = v_nbs V !! b;
  touch_frag b : snd <$> v_nbs V' !! b = snd <$> v_nbs V !! b;
}.

Section touches.
Implicit Types (V : view) (ps l : list positive) (p : positive).

Lemma touch_buffer_of ps V V' p : touches ps V V' → buffer_of V' p = buffer_of V p.
Proof.
  intros H. pose proof (touch_static _ _ _ H p) as Hp. unfold buffer_of.
  destruct (v_pkts V' !! p) as [[]|], (v_pkts V !! p) as [[]|]; simplify_eq/=; congruence.
Qed.

Lemma touches_same ps V V' : v_pkts V' = v_pkts V → v_nbs V' = v_nbs V → touches ps V V'.
Proof. intros H1 H2. split; intros; congruence. Qed.

Lemma touches_trans ps ps' V1 V2 V3 : touches ps V1 V2 → touches ps' V2 V3 → touches (ps ++ ps') V1 V3.
Proof.
  intros H1 H2. split.
  - intros p Hp. rewrite (touch_pkt _ _ _ H2), (touch_pkt _ _ _ H1) by set_solver. done.
  - intros p. by rewrite (touch_static _ _ _ H2), (touch_static _ _ _ H1).
  - intros b Hb. rewrite (touch_nb _ _ _ H2), (touch_nb _ _ _ H1); [done|set_solver|].
    intros p Hp. rewrite (touch_buffer_of _ _ _ _ H1). apply Hb. set_solver.
  - intros b. by rewrite (touch_frag _ _ _ H2), (touch_frag _ _ _ H1).
Qed.

Lemma touches_mono ps ps' V V' : touches ps V V' → ps ⊆ ps' → touches ps' V V'.
Proof.
  intros H Hs. split; [|apply (touch_static _ _ _ H)| |apply (touch_frag _ _ _ H)].
  - intros p Hp. apply (touch_pkt _ _ _ H). set_solver.
  - intros b Hb. apply (touch_nb _ _ _ H). set_solver.
Qed.

Lemma touches_foldl (f : view → positive → view) V l :
  (∀ V p, touches [p] V (f V p)) → touches l V (foldl f V l).
Proof.
  intros Hf. revert V. induction l as [|p l IH]; intros V; [by apply touches_same|].
  cbn. by apply (touches_trans [p] l V (f V p)).
Qed.

Lemma touches_one p pkt pkt' V f : v_pkts V !! p = Some pkt → pkt_static pkt' = pkt_static pkt →
  (∀ s : nat * nat * option nat, (f s).2 = s.2) →
  touches [p] V (set_v_pkts (<[p := pkt']> (v_pkts V))
    (set_v_nbs (alter f (pNetBufContext pkt) (v_nbs V)) V)).
Proof.
  intros Hp Hs Hf. split; cbn.
  - intros p' Hp'. rewrite lookup_insert_ne by set_solver. done.
  - intros p'. destruct (decide (p = p')) as [<-|Hne]; [|by rewrite lookup_insert_ne].
    rewrite lookup_insert_eq, Hp. cbn. by rewrite Hs.
  - intros b Hb. rewrite lookup_alter_ne; [done|]. intros <-.
    apply (Hb p); [set_solver|]. unfold buffer_of. by rewrite Hp.
  - intros b. destruct (decide (pNetBufContext pkt = b)) as [<-|Hne]; [|by rewrite lookup_alter_ne].
    rewrite lookup_alter_eq. destruct (v_nbs V !! _); [|done]. cbn. by rewrite Hf.
Qed.

Lemma touches_pkt p pkt pkt' V : v_pkts V !! p = Some pkt → pkt_static pkt' = pkt_static pkt →
  touches [p] V (set_v_pkts (<[p := pkt']> (v_pkts V)) V).
Proof.
  intros Hp Hs. pose proof (touches_one p pkt pkt' V id Hp Hs) as H. cbn in H.
  rewrite alter_id in H; [|done]. destruct V. by apply H.
Qed.

Lemma charge_touches e V p : touches [p] V (charge e V p).
Proof.
  unfold charge. destruct (v_eps V !! e) as [x|]; [|by apply touches_same].
  destruct (v_pkts V !! p) as [pkt|] eqn:Hp; [|by apply touches_same].
  destruct (touches_pkt p pkt (set_CreditsUsed (used_for x pkt) pkt) V Hp); [done|by split].
Qed.
End touches.

(** * What a packet is like *)

(** [P] holds of the packet and the sizes of its buffer. *)
Definition packet_is (P : HTC_PACKET → nat * nat * option nat → Prop) (V : view) (p : positive) : Prop :=
  ∃ pkt s, v_pkts V !! p = Some pkt ∧ v_nbs V !! pNetBufContext pkt = Some s ∧ P pkt s.

(** A packet that the channel has: as [sendable] has it, but for the header. *)
Definition owned_packet (x : HTC_PACKET) (s : nat * nat * option nat) : Prop :=
  is_ep (pkt_Endpoint x) = true ∧ Tag x ≠ HTC_TX_PACKET_TAG_BUNDLED ∧
  ∀ m, s.2 = Some m → (8 ≤ m)%nat.
(** There is room for a header; there is a header; it was made by the channel. *)
Definition roomy (x : HTC_PACKET) (s : nat * nat * option nat) : Prop := (8 ≤ s.1.1)%nat.
Definition headed (x : HTC_PACKET) (s : nat * nat * option nat) : Prop := (8 ≤ s.1.2)%nat.
Definition prepared (x : HTC_PACKET) (s : nat * nat * option nat) : Prop :=
  (8 ≤ s.1.2)%nat ∧ Z.land (Flags x) HTC_TX_PACKET_FLAG_FIXUP_NETBUF ≠ 0.

(** ** Restoring, preparing and completing a packet *)

Definition pulled (s : nat * nat * option nat) : nat * nat * option nat :=
  if (8 <=? s.1.2)%nat then ((s.1.1 + 8, s.1.2 - 8)%nat, s.2) else s.
Definition pushed (s : nat * nat * option nat) : nat * nat * option nat :=
  ((s.1.1 - 8, s.1.2 + 8)%nat, s.2).

Definition restored (V : view) (p : positive) : view :=
  match v_pkts V !! p with
  | Some pkt =>
      if Z.land (Flags pkt) HTC_TX_PACKET_FLAG_FIXUP_NETBUF =? 0 then V
      else set_v_pkts (<[p := set_Flags (Z.ldiff (Flags pkt) HTC_TX_PACKET_FLAG_FIXUP_NETBUF) pkt]> (v_pkts V))
             (set_v_nbs (alter pulled (pNetBufContext pkt) (v_nbs V)) V)
  | None => V
  end.

Definition prepare (V : view) (p : positive) : view :=
  match v_pkts V !! p with
  | Some pkt =>
      set_v_pkts (<[p := set_Flags (Z.lor (Flags pkt) HTC_TX_PACKET_FLAG_FIXUP_NETBUF) pkt]> (v_pkts V))
        (set_v_nbs (alter pushed (pNetBufContext pkt) (v_nbs V)) V)
  | None => V
  end.

Definition push_header (V : view) (p : positive) : view :=
  match v_pkts V !! p with
  | Some pkt => set_v_nbs (alter pushed (pNetBufContext pkt) (v_nbs V)) V
  | None => V
  end.

(** What becomes of a packet that overflows the queue. *)
Definition offer (env : hif_env) (V : view) (p : positive) : view :=
  if send_full_drops env p then restored V p else push_header (restored V p) p.

Section changes.
Implicit Types (V : view) (l : list positive) (p : positive).

Lemma restored_touches V p : touches [p] V (restored V p).
Proof.
  unfold restored. destruct (v_pkts V !! p) as [pkt|] eqn:Hp; [|by apply touches_same].
  destruct (_ =? 0); [by apply touches_same|]. apply touches_one; [done|done|].
  intros [[h d] f]. unfold pulled. by destruct (_ <=? _)%nat.
Qed.

Lemma prepare_touches V p : touches [p] V (prepare V p).
Proof.
  unfold prepare. destruct (v_pkts V !! p) as [pkt|] eqn:Hp; [|by apply touches_same].
  by apply touches_one.
Qed.

Lemma push_header_touches V p : touches [p] V (push_header V p).
Proof.
  unfold push_header. destruct (v_pkts V !! p) as [pkt|] eqn:Hp; [|by apply touches_same].
  pose proof (touches_one p pkt pkt V pushed Hp eq_refl (λ _, eq_refl)) as H.
  rewrite insert_id in H by done. by destruct V.
Qed.

Lemma offer_touches env V p : touches [p] V (offer env V p).
Proof.
  unfold offer. destruct (send_full_drops env p); [apply restored_touches|].
  eapply touches_mono; [eapply touches_trans; [apply restored_touches|apply push_header_touches]|set_solver].
Qed.

Lemma restored_eps V p : v_eps (restored V p) = v_eps V.
Proof. unfold restored. destruct (v_pkts V !! p); [|done]. by destruct (_ =? 0). Qed.
Lemma restored_done V p : v_done (restored V p) = v_done V.
Proof. unfold restored. destruct (v_pkts V !! p); [|done]. by destruct (_ =? 0). Qed.
Lemma restored_next V p : v_next (restored V p) = v_next V.
Proof. unfold restored. destruct (v_pkts V !! p); [|done]. by destruct (_ =? 0). Qed.
End changes.

(** An update keeps to the normal form of what was read. *)
Ltac fields :=
  let z := fresh "z" in let H := fresh "H" in intros z H;
  try match type of H with _ = norm_pkt ?y => destruct y end;
  try match type of H with _ = norm_ep ?y => destruct y end;
  destruct z; unfold norm_pkt, norm_ep in *; simplify_eq/=; done.

Section programs.
Implicit Types (M : queue_map) (V : view) (q : htc_queue) (p : positive).

(** A packet that has a buffer keeps one. *)
Lemma packet_is_buffered P V p : packet_is P V p → buffered V p.
Proof. intros (pkt & s & Hp & Hs & _). exists (pNetBufContext pkt), s. by rewrite Hp. Qed.

Lemma buffered_touches ps V V' p : touches ps V V' → buffered V p → buffered V' p.
Proof.
  intros H (b & s & Hb & Hs). pose proof (touch_buffer_of _ _ _ p H) as Hb'. unfold buffer_of in *.
  pose proof (touch_frag _ _ _ H b) as Hf. rewrite Hs in Hf.
  destruct (v_nbs V' !! b) as [s'|] eqn:E; [|done]. exists b, s'. by rewrite Hb', Hb.
Qed.

Lemma tdoes_upd_nbuf' b f g V (Q : unit → view → Prop) s :
  v_nbs V !! b = Some s → (∀ y, nb_size y = s → ∃ z, f y = Some z ∧ nb_size z = g s) →
  Q tt (set_v_nbs (alter g b (v_nbs V)) V) → tdoes (upd_nbuf b f) V Q.
Proof.
  intros Hb Hf HQ. eapply tdoes_upd_nbuf; [exact Hb|exact Hf|].
  replace (<[b := g s]> (v_nbs V)) with (alter g b (v_nbs V)); [done|].
  apply map_eq. intros b'. destruct (decide (b = b')) as [<-|Hne].
  - by rewrite lookup_alter_eq, lookup_insert_eq, Hb.
  - by rewrite lookup_alter_ne, lookup_insert_ne.
Qed.

(** An operation that keeps the sizes of a buffer *)
Lemma tdoes_nbuf_keep b f V (Q : unit → view → Prop) s :
  v_nbs V !! b = Some s → (∀ y, nb_size y = s → ∃ z, f y = Some z ∧ nb_size z = s) →
  Q tt V → tdoes (upd_nbuf b f) V Q.
Proof.
  intros Hb Hf HQ. eapply tdoes_upd_nbuf; [exact Hb|exact Hf|]. by rewrite set_v_nbs_id.
Qed.

Lemma pull_size b : ∃ z, skb_pull 8 b = Some z ∧ nb_size z = pulled (nb_size b).
Proof.
  unfold skb_pull, pulled. eexists; split; [done|]. unfold nb_size; cbn -[Nat.leb].
  destruct (Nat.leb_spec 8 (length (data b))) as [H|H]; cbn -[take drop]; [|done].
  rewrite length_app, length_rev, length_take, length_drop. f_equal; f_equal; lia.
Qed.

Lemma push_size b : (8 ≤ length (headroom b))%nat → ∃ z, skb_push 8 b = Some z ∧ nb_size z = pushed (nb_size b).
Proof.
  intros H. unfold skb_push, pushed. rewrite (proj2 (Nat.leb_le _ _) H). eexists; split; [done|].
  unfold nb_size; cbn -[take drop]. rewrite length_app, length_rev, length_take, length_drop. f_equal; f_equal; lia.
Qed.

Lemma write_at_length l (p : nat) v : (p + 4 ≤ length l)%nat →
  ∃ l', write_at l p (word_bytes v) = Some l' ∧ length l' = length l.
Proof.
  intros H. unfold write_at. change (length (word_bytes v)) with 4%nat.
  rewrite (proj2 (Nat.leb_le _ _) H). eexists; split; [done|].
  rewrite !length_app, length_take, length_drop. change (length (word_bytes v)) with 4%nat. lia.
Qed.

(** The first fragment has eight bytes at least. *)
Definition frag0_ok (s : nat * nat * option nat) : Prop :=
  match s.2 with Some m => (8 ≤ m)%nat | None => (8 ≤ s.1.2)%nat end.

Lemma write_size b (p : nat) v : (p + 4 ≤ 8)%nat → frag0_ok (nb_size b) →
  ∃ z, frag0_write p v b = Some z ∧ nb_size z = nb_size b.
Proof.
  unfold frag0_ok, frag0_write, nb_size. cbn. intros Hp. destruct (extra_frag b) as [m|] eqn:E; cbn; intros Hb.
  - destruct (write_at_length m p v) as (l' & -> & Hl); [lia|]. cbn. eexists; split; [done|]. cbn. by rewrite Hl.
  - destruct (write_at_length (data b) p v) as (l' & -> & Hl); [lia|]. cbn. eexists; split; [done|]. cbn.
    by rewrite Hl, E.
Qed.

Lemma tdoes_write b (p : nat) v V (Q : unit → view → Prop) s :
  v_nbs V !! b = Some s → (p + 4 ≤ 8)%nat → frag0_ok s → Q tt V → tdoes (HTC_WRITE32 b p v) V Q.
Proof.
  intros Hb Hp Hs HQ. unfold HTC_WRITE32. eapply tdoes_nbuf_keep; [exact Hb| |done].
  intros y <-. by apply write_size.
Qed.

Lemma tdoes_map b V (Q : unit → view → Prop) s : v_nbs V !! b = Some s → Q tt V → tdoes (cdf_nbuf_map b) V Q.
Proof. intros Hb HQ. eapply tdoes_nbuf_keep; [exact Hb| |done]. intros y <-. by eexists. Qed.

Lemma tdoes_unmap b V (Q : unit → view → Prop) s : v_nbs V !! b = Some s → Q tt V → tdoes (cdf_nbuf_unmap b) V Q.
Proof. intros Hb HQ. eapply tdoes_nbuf_keep; [exact Hb| |done]. intros y <-. by eexists. Qed.

Lemma alter_insert_same {A} (m : gmap positive A) b s (g : A → A) :
  m !! b = Some s → alter g b m = <[b := g s]> m.
Proof.
  intros Hb. apply map_eq. intros b'. destruct (decide (b = b')) as [<-|Hne].
  - by rewrite lookup_alter_eq, lookup_insert_eq, Hb.
  - by rewrite lookup_alter_ne, lookup_insert_ne.
Qed.

Lemma tdoes_restore p V (Q : unit → view → Prop) :
  buffered V p → Q tt (restored V p) → tdoes (restore_tx_packet p) V Q.
Proof.
  intros (b & s & Hb & Hs) HQ. unfold restore_tx_packet, restored in *.
  destruct (v_pkts V !! p) as [pkt|] eqn:Hp; [|done]. injection Hb as <-.
  apply tdoes_bind. eapply tdoes_get_pkt; [exact Hp|]. intros y Hy. norm.
  change (Flags (norm_pkt y)) with (Flags y) in HQ. apply tdoes_when; intros Hf.
  - rewrite (negb_true_iff _) in Hf. rewrite Hf in HQ. apply tdoes_bind. eapply tdoes_unmap; [exact Hs|].
    apply tdoes_bind. eapply (tdoes_upd_nbuf' _ _ pulled); [exact Hs| |].
    { intros z <-. apply pull_size. }
    eapply tdoes_upd_pkt; [exact Hp| |exact HQ]. fields.
  - rewrite (negb_false_iff _) in Hf. by rewrite Hf in HQ.
Qed.

Lemma does_restore p M V (Q : unit → queue_map → view → Prop) :
  buffered V p → Q tt M (restored V p) → does (op (restore_tx_packet p)) M V Q.
Proof. intros Hb HQ. by apply does_op, tdoes_restore. Qed.

Lemma tdoes_push_header p V (Q : unit → view → Prop) pkt s :
  v_pkts V !! p = Some pkt → v_nbs V !! pNetBufContext pkt = Some s → (8 ≤ s.1.1)%nat →
  Q tt (push_header V p) → tdoes (cdf_nbuf_push_head (pNetBufContext pkt) 8) V Q.
Proof.
  intros Hp Hs Hr HQ. unfold push_header in HQ. rewrite Hp in HQ.
  eapply (tdoes_upd_nbuf' _ _ pushed); [exact Hs| |exact HQ].
  intros y <-. by apply push_size.
Qed.

(** The header of a packet with room for it. *)
Lemma does_prepare_packet e p M V x (Q : unit → queue_map → view → Prop) :
  v_eps V !! e = Some x → packet_is owned_packet V p → packet_is roomy V p → Q tt M (prepare V p) →
  does (op (prepare_packet e p)) M V Q.
Proof.
  intros Hx (pkt & s & Hp & Hs & _ & _ & Hf) (pkt' & s' & Hp' & Hs' & Hr) HQ. simplify_eq.
  unfold prepare in HQ. rewrite Hp in HQ. apply does_op. unfold prepare_packet.
  apply tdoes_bind. eapply tdoes_get_pkt; [exact Hp|]. intros y Hy. norm.
  change (pNetBufContext (norm_pkt y)) with (pNetBufContext y) in *.
  assert (frag0_ok (pushed s)) as Hok.
  { unfold frag0_ok. cbn. destruct s.2 as [m|]; [by apply Hf|lia]. }
  apply tdoes_bind. eapply (tdoes_upd_nbuf _ _ _ _ (pushed s)); [exact Hs| |].
  { intros z <-. by apply push_size. }
  rewrite (alter_insert_same _ _ _ _ Hs) in HQ.
  assert (∀ V1, v_nbs V1 = <[pNetBufContext y := pushed s]> (v_nbs V) →
    v_nbs V1 !! pNetBufContext y = Some (pushed s)) as Hlook by (intros V1 ->; apply lookup_insert_eq).
  apply tdoes_bind. eapply tdoes_write; [by apply Hlook|lia|done|].
  apply tdoes_bind. eapply tdoes_get_ep; [exact Hx|]. intros z Hz. norm.
  apply tdoes_bind. eapply (tdoes_upd_pkt _ _ _ _ (norm_pkt y)); [exact Hp|fields|].
  apply tdoes_bind. eapply (tdoes_upd_ep _ _ _ _ (norm_ep z)); [exact Hx|fields|].
  apply tdoes_bind. eapply tdoes_write; [by apply Hlook|lia|done|].
  apply tdoes_bind. eapply tdoes_map; [by apply Hlook|].
  eapply (tdoes_upd_pkt _ _ _ _ (set_Flags (Z.lor (Flags y) HTC_TX_PACKET_FLAG_FIXUP_NETBUF) (norm_pkt y)));
    [cbn; by rewrite lookup_insert_eq|fields|].
  cbn. rewrite insert_insert_eq, (insert_id (v_eps V)) by done. exact HQ.
Qed.

(** ** Completions *)

Lemma completed_app l1 l2 : completed (l1 ++ l2) = completed l1 ++ completed l2.
Proof. apply omap_app. Qed.

Lemma tdoes_emit v V (Q : unit → view → Prop) :
  Q tt (set_v_done (v_done V ++ completed [v]) V) → tdoes (emit v) V Q.
Proof.
  intros HQ. apply tdoes_modify with (set_v_done (v_done V ++ completed [v]) V); [|done].
  intros t <-. split; [|done]. unfold view_of, set_v_done. cbn -[completed]. by rewrite completed_app.
Qed.

Lemma tdoes_emit_other v V (Q : unit → view → Prop) :
  completed_packet v = None → Q tt V → tdoes (emit v) V Q.
Proof.
  intros Hv HQ. apply tdoes_emit. cbn. rewrite Hv, app_nil_r. by destruct V.
Qed.

Definition told (V : view) (l : list positive) : view := set_v_done (v_done V ++ l) V.

Lemma does_tell e p M V (Q : unit → queue_map → view → Prop) :
  is_Some (v_pkts V !! p) → Q tt M (told V [p]) → does (op (ep_tx_complete e p)) M V Q.
Proof.
  intros [pkt Hp] HQ. apply does_op, tdoes_bind. eapply tdoes_get_pkt; [exact Hp|]. intros y _.
  by apply tdoes_emit.
Qed.

Lemma told_app V l1 l2 : told (told V l1) l2 = told V (l1 ++ l2).
Proof. unfold told. cbn. by rewrite app_assoc. Qed.

Lemma does_complete_multiple e q pre l fuel M V (Q : unit → queue_map → view → Prop) :
  (length l ≤ fuel)%nat → M !! q = Some (pre ++ l) → NoDup (pre ++ l) →
  Forall (λ p, is_Some (v_pkts V !! p)) l → Q tt M (told V l) →
  does (complete_multiple fuel e q (head l)) M V Q.
Proof.
  revert pre fuel V. induction l as [|p l IH]; intros pre fuel V Hf Hq Hnd Hl HQ.
  - unfold told in HQ. rewrite app_nil_r in HQ. destruct V. destruct fuel; by apply does_ret.
  - destruct fuel as [|fuel]; [cbn in Hf; lia|]. cbn [head complete_multiple].
    apply Forall_cons in Hl as [Hp Hl]. apply does_bind.
    eapply does_next; [exact Hq|apply NoDup_app in Hnd as (_ & Hd & _); intros H; apply (Hd p H); left|].
    apply does_bind. eapply does_tell; [exact Hp|].
    eapply (IH (pre ++ [p])); [cbn in Hf; lia|by rewrite <- app_assoc|by rewrite <- app_assoc|done|].
    by rewrite told_app.
Qed.

Lemma does_complete_each e q l fuel M V (Q : unit → queue_map → view → Prop) :
  (length l ≤ fuel)%nat → l ≠ [] → M !! q = Some l → Forall (λ p, is_Some (v_pkts V !! p)) l →
  Q tt (<[q := []]> M) (told V l) → does (complete_each fuel e q) M V Q.
Proof.
  revert fuel M V. induction l as [|p l IH]; intros fuel M V Hf Hne Hq Hl HQ; [done|].
  destruct fuel as [|fuel]; [cbn in Hf; lia|]. cbn [complete_each].
  apply Forall_cons in Hl as [Hp Hl].
  apply does_bind. eapply does_dequeue; [exact Hq|]. cbn [head tail].
  apply does_bind. eapply does_deref; [done|]. apply does_bind. eapply does_tell; [exact Hp|].
  apply does_bind. eapply does_empty; [by rewrite lookup_insert_eq|]. case_bool_decide as Hl'.
  - subst. by apply does_ret.
  - eapply IH; [cbn in Hf; lia|done|by rewrite lookup_insert_eq|done|].
    by rewrite insert_insert_eq, told_app.
Qed.

Lemma does_send_completion e q M V x l (Q : unit → queue_map → view → Prop) :
  v_eps V !! e = Some x → M !! q = Some l → NoDup l → Forall (λ p, is_Some (v_pkts V !! p)) l →
  Q tt (<[q := []]> M) (told V l) → does (do_send_completion e q) M V Q.
Proof.
  intros Hx Hq Hnd Hl HQ. unfold do_send_completion. apply does_bind. eapply does_empty; [exact Hq|].
  case_bool_decide as Hne; cbn.
  - subst. rewrite insert_id in HQ by done. unfold told in HQ. rewrite app_nil_r in HQ. destruct V.
    by apply does_ret.
  - apply does_bind. eapply does_get_ep; [exact Hx|]. intros y _.
    apply does_bind. eapply does_depth; [exact Hq|]. rewrite Nat2Z.id.
    destruct (has_EpTxCompleteMultiple y).
    + apply does_bind. eapply does_first; [exact Hq|]. apply does_bind.
      eapply (does_complete_multiple e q []); [lia|done|done|done|]. by apply does_init.
    + by eapply does_complete_each.
Qed.

Lemma buffered_pkt V p : buffered V p → is_Some (v_pkts V !! p).
Proof. intros (b & s & Hb & _). destruct (v_pkts V !! p); [eauto|done]. Qed.

Lemma does_next_local {A} (k : positive → HM queue_map A) M V (Q : A → queue_map → view → Prop) :
  does (k (v_next V)) M V Q → does (n ← op (gets next_local); k n) M V Q.
Proof. intros H t <- Hh. exact (H t eq_refl Hh). Qed.

(** The completion of a packet that is on no queue. *)
Definition finish (V : view) (p : positive) : view :=
  set_v_next (Pos.succ (v_next V)) (told (restored V p) [p]).

Lemma does_send_packet_completion p M V (Q : unit → queue_map → view → Prop) :
  M !! LocalQueue (v_next V) = None → p ∉ all M → packet_is owned_packet V p →
  (∀ e, is_ep e = true → is_Some (v_eps V !! e)) →
  Q tt (<[LocalQueue (v_next V) := []]> M) (finish V p) → does (send_packet_completion p) M V Q.
Proof.
  intros HL Hp (pkt & s & Hpk & Hs & He & _) Heps HQ. unfold send_packet_completion.
  destruct (Heps _ He) as [x Hx].
  apply does_bind. eapply does_get_pkt; [exact Hpk|]. intros y Hy. norm.
  assert (buffered V p) as Hbuf by (exists (pNetBufContext y), s; by rewrite Hpk).
  pose proof (buffered_pkt _ _ (buffered_touches _ _ _ _ (restored_touches V p) Hbuf)) as Hpk'.
  apply does_bind. eapply does_restore; [done|].
  assert (does (do_send_completion (pkt_Endpoint y) (LocalQueue (v_next V)))
    (<[LocalQueue (v_next V) := [p]]> M) (set_v_next (Pos.succ (v_next V)) (restored V p)) Q) as Hrest.
  { eapply (does_send_completion _ _ _ _ x [p]); [cbn; by rewrite restored_eps|by rewrite lookup_insert_eq
      |apply NoDup_singleton|by apply Forall_singleton|]. rewrite insert_insert_eq. exact HQ. }
  apply does_next_local. rewrite restored_next. apply does_bind, does_op.
  apply tdoes_modify with (set_v_next (Pos.succ (v_next V)) (restored V p)); [by intros t <-|].
  apply does_bind. eapply does_init_and_add; [by apply unlinked_all|]. exact Hrest.
Qed.
End programs.

(** * Several packets *)

(** Packets of a list have different buffers. *)
Definition distinct (V : view) (l : list positive) : Prop :=
  ∀ p p', p ∈ l → p' ∈ l → buffer_of V p = buffer_of V p' → p = p'.

Section several.
Implicit Types (M : queue_map) (V : view) (q : htc_queue) (p : positive) (l ps : list positive).

Lemma distinct_sub V l l' : distinct V l → l' ⊆ l → distinct V l'.
Proof. intros H Hs p p' Hp Hp'. apply H; by apply Hs. Qed.

Lemma distinct_touches ps V V' l : touches ps V V' → distinct V l → distinct V' l.
Proof. intros Ht H p p' Hp Hp'. rewrite !(touch_buffer_of _ _ _ _ Ht). by apply H. Qed.

Lemma packet_is_mono (P P' : HTC_PACKET → nat * nat * option nat → Prop) V p :
  packet_is P V p → (∀ x s, P x s → P' x s) → packet_is P' V p.
Proof. intros (pkt & s & Hp & Hs & HP) H. exists pkt, s. auto. Qed.

Lemma owned_touches ps V V' p : touches ps V V' → packet_is owned_packet V p → packet_is owned_packet V' p.
Proof.
  intros Ht (pkt & s & Hp & Hs & He & Htag & Hf).
  pose proof (touch_static _ _ _ Ht p) as Hst. rewrite Hp in Hst.
  destruct (v_pkts V' !! p) as [pkt'|] eqn:Hp'; [|done].
  pose proof (touch_frag _ _ _ Ht (pNetBufContext pkt)) as Hfr. rewrite Hs in Hfr.
  destruct (v_nbs V' !! pNetBufContext pkt) as [s'|] eqn:Hs'; [|done].
  assert (pkt_Endpoint pkt' = pkt_Endpoint pkt ∧ Tag pkt' = Tag pkt ∧ pNetBufContext pkt' = pNetBufContext pkt)
    as (H1 & H2 & H3) by (destruct pkt, pkt'; simplify_eq/=; done).
  exists pkt', s'. rewrite H3. split; [done|]. split; [done|]. unfold owned_packet. rewrite H1, H2.
  split; [done|]. split; [done|]. intros m Hm. apply Hf. injection Hfr as <-. done.
Qed.

(** Packets that a change does not touch, nor their buffers *)
Lemma packet_is_frame P ps V V' p :
  touches ps V V' → p ∉ ps → (∀ p', p' ∈ ps → buffer_of V p' ≠ buffer_of V p) →
  packet_is P V p → packet_is P V' p.
Proof.
  intros Ht Hp Hb (pkt & s & Hpk & Hs & HP). exists pkt, s.
  rewrite (touch_pkt _ _ _ Ht p Hp), (touch_nb _ _ _ Ht); [done|].
  intros p' Hp' Heq. apply (Hb p' Hp'). rewrite Heq. unfold buffer_of. by rewrite Hpk.
Qed.

Lemma packet_is_frame_in P ps V V' l p :
  touches ps V V' → distinct V l → ps ⊆ l → p ∈ l → p ∉ ps → packet_is P V p → packet_is P V' p.
Proof.
  intros Ht Hd Hps Hl Hp. apply packet_is_frame with ps; [done|done|].
  intros p' Hp' Heq. apply Hp. rewrite <- (Hd p' p); auto.
Qed.

(** What holds of each packet after it has been changed, and the others have. *)
Lemma foldl_each (f : view → positive → view) P P' V l :
  (∀ V p, touches [p] V (f V p)) → (∀ V p, packet_is P V p → packet_is (P' p) (f V p) p) →
  NoDup l → distinct V l → Forall (packet_is P V) l →
  ∀ p, p ∈ l → packet_is (P' p) (foldl f V l) p.
Proof.
  intros Hf HP. revert V. induction l as [|p l IH]; intros V Hnd Hd Hl p' Hp'; [by apply elem_of_nil in Hp'|].
  apply NoDup_cons in Hnd as [Hp Hnd]. apply Forall_cons in Hl as [HPp Hl].
  assert (distinct (f V p) l) as Hd'.
  { eapply distinct_touches; [apply Hf|]. eapply distinct_sub; [exact Hd|]. set_solver. }
  assert (∀ p1, p1 ∈ l → p1 ∉ [p]) as Hne by (intros p1 H1 ->%list_elem_of_singleton; done).
  apply elem_of_cons in Hp' as [->|Hp']; cbn.
  - eapply packet_is_frame; [by apply touches_foldl|done| |by apply HP].
    intros p' Hp' Heq. rewrite !(touch_buffer_of _ _ _ _ (Hf V p)) in Heq.
    apply Hp. rewrite <- (Hd p' p); [done|set_solver|set_solver|done].
  - apply IH; [done|done| |done]. apply Forall_forall. intros p1 H1.
    eapply packet_is_frame_in; [apply Hf|exact Hd|set_solver|set_solver|by apply Hne|].
    rewrite Forall_forall in Hl. by apply Hl.
Qed.

(** ** The packets that could not get in *)

Lemma does_leftover_loop q pre l fuel M V (Q : unit → queue_map → view → Prop) :
  (length l ≤ fuel)%nat → M !! q = Some (pre ++ l) → NoDup (pre ++ l) → Forall (buffered V) l →
  Q tt M (foldl restored V l) → does (leftover_loop fuel q (head l)) M V Q.
Proof.
  revert pre fuel V. induction l as [|p l IH]; intros pre fuel V Hf Hq Hnd Hl HQ.
  - destruct fuel; by apply does_ret.
  - destruct fuel as [|fuel]; [cbn in Hf; lia|]. cbn [head leftover_loop].
    apply Forall_cons in Hl as [Hp Hl]. apply does_bind.
    eapply does_next; [exact Hq|apply NoDup_app in Hnd as (_ & Hd & _); intros H; apply (Hd p H); left|].
    apply does_bind. eapply does_restore; [done|].
    assert (buffered (restored V p) p) as Hp'
      by (eapply buffered_touches; [apply restored_touches|done]).
    apply buffered_pkt in Hp' as [pkt Hpk].
    apply does_bind. unfold leftover_status. apply does_op, tdoes_bind, tdoes_gets. intros fl. apply tdoes_ret.
    apply does_bind. eapply (does_upd_pkt p _ _ _ pkt pkt); [exact Hpk|by intros y <-|].
    rewrite set_v_pkts_id by done.
    eapply (IH (pre ++ [p])); [cbn in Hf; lia|by rewrite <- app_assoc|by rewrite <- app_assoc| |exact HQ].
    eapply Forall_impl; [exact Hl|]. intros p' Hb. eapply buffered_touches; [apply restored_touches|done].
Qed.

Lemma restored_foldl V l :
  v_eps (foldl restored V l) = v_eps V ∧ v_done (foldl restored V l) = v_done V ∧
  v_next (foldl restored V l) = v_next V.
Proof.
  revert V. induction l as [|p l IH]; intros V; [done|]. cbn.
  by rewrite !(proj1 (IH _)), !(proj1 (proj2 (IH _))), !(proj2 (proj2 (IH _))), restored_eps, restored_done, restored_next.
Qed.

Lemma does_send_leftover e q M V x l (Q : task → queue_map → view → Prop) :
  v_eps V !! e = Some x → M !! q = Some l → NoDup l → Forall (buffered V) l →
  Q (TDone A_OK) (<[q := []]> M) (told (foldl restored V l) l) → does (send_leftover e q) M V Q.
Proof.
  intros Hx Hq Hnd Hl HQ. unfold send_leftover. apply does_bind. eapply does_empty; [exact Hq|]. apply does_bind.
  case_bool_decide as Hne; cbn.
  - subst. apply does_ret. rewrite insert_id in HQ by done. unfold told in HQ. cbn in HQ. rewrite app_nil_r in HQ.
    destruct V. by apply does_ret.
  - apply does_bind. eapply does_depth; [exact Hq|]. rewrite Nat2Z.id.
    apply does_bind. eapply does_first; [exact Hq|]. apply does_bind.
    eapply (does_leftover_loop q []); [done|done|done|done|].
    destruct (restored_foldl V l) as (H1 & _ & _).
    eapply does_send_completion; [by rewrite H1|exact Hq|done| |by apply does_ret].
    eapply Forall_impl; [exact Hl|]. intros p Hb. apply buffered_pkt.
    eapply buffered_touches; [|exact Hb]. apply touches_foldl, restored_touches.
Qed.
End several.

(** What the functions of the send path do to lists of packets, continued: the
    packets that are admitted to an endpoint's queue, looked up when their transfer
    completes, and flushed. *)

Definition contents (M : queue_map) (q : htc_queue) : list positive := default [] (M !! q).

Definition drops_part (env : hif_env) (l : list positive) : list positive :=
  filter (λ p, send_full_drops env p = true) l.
Definition keeps_part (env : hif_env) (l : list positive) : list positive :=
  filter (λ p, send_full_drops env p ≠ true) l.

Section admit_packets.
Implicit Types (M : queue_map) (V : view) (q : htc_queue) (p : positive) (l : list positive).

Lemma unlinked_moved M q p l1 l2 : NoDup (all M) → M !! q = Some (l1 ++ p :: l2) →
  unlinked (<[q := l1 ++ l2]> M) p = true.
Proof.
  intros Hnd Hq. apply unlinked_all. rewrite all_insert. rewrite (all_lookup _ _ _ Hq) in Hnd.
  rewrite <- app_assoc in Hnd |- *. cbn [app] in Hnd. rewrite <- Permutation_middle in Hnd.
  by apply NoDup_cons in Hnd as [].
Qed.

Lemma does_admit_loop n callers sq lc ls M V (Q : unit → queue_map → view → Prop) :
  (n ≤ length lc)%nat → callers ≠ sq → M !! callers = Some lc → M !! sq = Some ls → NoDup (all M) →
  Q tt (<[callers := drop n lc]> (<[sq := ls ++ take n lc]> M)) V →
  does (admit_loop n callers sq) M V Q.
Proof.
  revert lc ls M. induction n as [|n IH]; intros lc ls M Hn Hne Hc Hs Hnd HQ.
  - apply does_ret. rewrite drop_0, take_0, app_nil_r, insert2_id in HQ by done. exact HQ.
  - destruct lc as [|p lc]; [cbn in Hn; lia|]. cbn [admit_loop].
    apply does_bind. eapply does_dequeue; [exact Hc|]. cbn [head tail].
    apply does_bind. eapply does_deref; [done|]. apply does_bind.
    eapply does_enqueue; [by rewrite lookup_insert_ne|by apply unlinked_head|].
    eapply (IH lc (ls ++ [p])); [cbn in Hn; lia|done| |by rewrite lookup_insert_eq| |].
    + rewrite lookup_insert_ne by done. by rewrite lookup_insert_eq.
    + rewrite insert_insert_ne by done. eapply NoDup_Permutation_proper; [|exact Hnd].
      eapply all_replace2; [done|done|done|]. cbn. solve_Permutation.
    + rewrite (insert_insert_ne _ sq callers) by done.
      rewrite insert2_insert2, <- app_assoc by done. exact HQ.
Qed.

Lemma does_overflow_loop env e callers sq pre l fuel M V ls (Q : unit → queue_map → view → Prop) :
  (length l ≤ fuel)%nat → callers ≠ sq → M !! callers = Some (pre ++ l) → M !! sq = Some ls →
  NoDup (all M) → distinct V l → Forall (packet_is prepared V) l →
  Q tt (<[callers := pre ++ drops_part env l]> (<[sq := ls ++ keeps_part env l]> M)) (foldl (offer env) V l) →
  does (overflow_loop fuel env e callers sq (head l)) M V Q.
Proof.
  revert pre fuel M V ls. induction l as [|p l IH]; intros pre fuel M V ls Hf Hne Hc Hs Hnd Hd Hl HQ.
  - unfold drops_part, keeps_part in HQ. cbn in HQ. rewrite !app_nil_r in *.
    rewrite insert2_id in HQ by done. destruct fuel; by apply does_ret.
  - destruct fuel as [|fuel]; [cbn in Hf; lia|]. cbn [head overflow_loop].
    pose proof (queue_nodup _ _ _ Hnd Hc) as Hndc.
    assert (p ∉ pre) as Hpre. { apply NoDup_app in Hndc as (_ & Hdj & _). intros H. apply (Hdj p H). left. }
    assert (p ∉ l) as Hpl by (apply NoDup_app in Hndc as (_ & _ & Hndc); by apply NoDup_cons in Hndc as []).
    apply Forall_cons in Hl as [Hp Hl]. pose proof (packet_is_buffered _ _ _ Hp) as Hbuf.
    assert (distinct (offer env V p) l) as Hd'.
    { eapply distinct_touches; [apply offer_touches|]. eapply distinct_sub; [exact Hd|set_solver]. }
    assert (Forall (packet_is prepared (offer env V p)) l) as Hl'.
    { rewrite Forall_forall in *. intros p' Hp'.
      eapply packet_is_frame_in; [apply offer_touches|exact Hd|set_solver|set_solver| |by apply Hl].
      intros ->%list_elem_of_singleton. done. }
    apply does_bind. eapply does_next; [exact Hc|done|].
    apply does_bind. eapply does_restore; [done|].
    apply does_bind, does_op, tdoes_emit_other; [done|].
    unfold drops_part, keeps_part in HQ. apply does_bind, does_when; intros Hdr.
    + apply negb_true_iff in Hdr. rewrite filter_cons_False in HQ by congruence.
      rewrite (filter_cons_True (λ p, send_full_drops env p ≠ true)) in HQ by congruence.
      apply does_bind. eapply does_remove; [exact Hc|set_solver|]. rewrite filter_ne_split by done.
      destruct Hp as (pkt & s & Hpk & Hsz & Hr & Hfix).
      assert (v_pkts (restored V p) !! p = Some (set_Flags (Z.ldiff (Flags pkt) HTC_TX_PACKET_FLAG_FIXUP_NETBUF) pkt)
        ∧ v_nbs (restored V p) !! pNetBufContext pkt = Some (pulled s)) as [Hpk' Hsz'].
      { unfold restored. rewrite Hpk, (proj2 (Z.eqb_neq _ _) Hfix). cbn.
        by rewrite lookup_insert_eq, lookup_alter_eq, Hsz. }
      apply does_bind. eapply does_get_pkt; [exact Hpk'|]. intros y Hy.
      assert (pNetBufContext y = pNetBufContext pkt) as Hnb
        by (change (pNetBufContext y) with (pNetBufContext (norm_pkt y)); by rewrite Hy).
      apply does_bind, does_op. rewrite Hnb.
      eapply (tdoes_push_header p _ _ (set_Flags _ pkt)); [exact Hpk'|exact Hsz'| |].
      { unfold pulled. rewrite (proj2 (Nat.leb_le _ _) Hr). cbn. lia. }
      unfold offer in HQ, Hd', Hl'. cbn [foldl] in HQ. rewrite Hdr in *.
      eapply does_enqueue; [by rewrite lookup_insert_ne|by apply unlinked_moved|].
      eapply (IH pre _ _ _ (ls ++ [p])); [cbn in Hf; lia|done| |by rewrite lookup_insert_eq| |done|done|].
      * rewrite lookup_insert_ne by done. by rewrite lookup_insert_eq.
      * rewrite insert_insert_ne by done. eapply NoDup_Permutation_proper; [|exact Hnd].
        eapply all_replace2; [done..|]. rewrite <- !app_assoc. cbn. solve_Permutation.
      * rewrite (insert_insert_ne _ sq callers) by done.
        rewrite insert2_insert2, <- app_assoc by done. exact HQ.
    + apply negb_false_iff in Hdr. rewrite filter_cons_True in HQ by done.
      rewrite (filter_cons_False (λ p, send_full_drops env p ≠ true)) in HQ by auto.
      unfold offer in HQ, Hd', Hl'. cbn [foldl] in HQ. rewrite Hdr in *.
      eapply (IH (pre ++ [p])); [cbn in Hf; lia|done|by rewrite <- app_assoc|exact Hs|done|done|done|].
      rewrite <- app_assoc. exact HQ.
Qed.

(** What [htc_try_send] admits of the caller's packets: all, or those for which
    there is room and those of the others that the callback keeps. *)
Lemma does_admit env e callers sq full M V x lc tx (Q : bool → queue_map → view → Prop) :
  callers ≠ sq → M !! callers = Some lc → M !! sq = Some [] → M !! TxQueue e = Some tx →
  v_eps V !! e = Some x → NoDup (all M) → distinct V lc → Forall (packet_is prepared V) lc →
  (∀ good rest b, lc = good ++ rest → (b = false → good ++ keeps_part env rest = []) →
    Q b (<[callers := drops_part env rest]> (<[sq := good ++ keeps_part env rest]> M)) (foldl (offer env) V rest)) →
  does (admit_packets env e callers sq full) M V Q.
Proof.
  intros Hne Hc Hs Htx Hx Hnd Hd Hl HQ. unfold admit_packets.
  apply does_bind. eapply does_get_ep; [exact Hx|]. intros y _.
  apply does_bind. eapply does_depth; [exact Htx|]. apply does_bind. eapply does_depth; [exact Hc|].
  set (over := if full then _ else _). destruct ((over <=? 0) || negb (has_EpSendFull y)) eqn:Ho.
  - apply does_bind. eapply does_transfer_to_tail; [done|exact Hs|exact Hc|]. apply does_ret.
    specialize (HQ lc [] true). cbn in HQ. rewrite !app_nil_r in HQ. by apply HQ.
  - apply orb_false_iff in Ho as [Ho _]. apply Z.leb_gt in Ho.
    set (n := Z.to_nat (Z.of_nat (length lc) - over)).
    assert (n ≤ length lc)%nat as Hn by lia.
    pose proof (take_drop n lc) as Hsplit. set (good := take n lc) in *. set (rest := drop n lc) in *.
    assert (rest ⊆ lc) as Hsub by (rewrite <- Hsplit; set_solver).
    apply does_bind. eapply does_admit_loop; [exact Hn|done|exact Hc|exact Hs|done|]. cbn [app].
    fold good rest. apply does_bind. eapply does_depth; [by rewrite lookup_insert_eq|]. rewrite Nat2Z.id.
    apply does_bind. eapply does_first; [by rewrite lookup_insert_eq|].
    apply does_bind. eapply (does_overflow_loop env e callers sq [] rest _ _ _ good);
      [done|done|by rewrite lookup_insert_eq|rewrite lookup_insert_ne by done; by rewrite lookup_insert_eq| | | |].
    + eapply NoDup_Permutation_proper; [|exact Hnd]. eapply all_replace2; [done..|].
      rewrite app_nil_r, <- Hsplit. solve_Permutation.
    + by eapply distinct_sub.
    + rewrite Forall_forall in *. auto.
    + rewrite insert2_insert2 by done. cbn [app]. apply does_bind.
      eapply does_empty; [rewrite lookup_insert_ne by done; by rewrite lookup_insert_eq|].
      apply does_bind, does_when; intros He; [apply does_unseen; [by intros t|]|]; apply does_ret;
        (apply HQ; [done|]); intros Hb; apply negb_false_iff, bool_decide_eq_true in Hb; done.
Qed.
End admit_packets.

Section lookup.
Implicit Types (M : queue_map) (V : view) (q : htc_queue) (p : positive) (l : list positive).

(** The first packet of a list that has the buffer. *)
Lemma does_lookup_loop b q pre l fuel M V (Q : option positive → queue_map → view → Prop) :
  (length l ≤ fuel)%nat → M !! q = Some (pre ++ l) → NoDup (pre ++ l) → Forall (buffered V) l →
  (∀ l1 p l2, l = l1 ++ p :: l2 → buffer_of V p = Some b →
    Q (Some p) (<[q := pre ++ l1 ++ l2]> M) V) →
  (Forall (λ p, buffer_of V p ≠ Some b) l → Q None M V) →
  does (tx_lookup_loop fuel b q (head l)) M V Q.
Proof.
  revert pre fuel. induction l as [|p l IH]; intros pre fuel Hf Hq Hnd Hl HQ1 HQ2.
  - destruct fuel; by apply does_ret, HQ2.
  - destruct fuel as [|fuel]; [cbn in Hf; lia|]. cbn [head tx_lookup_loop].
    assert (p ∉ pre) as Hpre. { apply NoDup_app in Hnd as (_ & Hdj & _). intros H. apply (Hdj p H). left. }
    apply Forall_cons in Hl as [Hp Hl]. apply does_bind. eapply does_next; [exact Hq|done|].
    destruct Hp as (bf & s & Hb & _). destruct (v_pkts V !! p) as [pkt|] eqn:Hpk; [|done]. injection Hb as Hb.
    apply does_bind. eapply does_get_pkt; [exact Hpk|]. intros y Hy. norm.
    change (pNetBufContext (norm_pkt y)) with (pNetBufContext y) in Hb. case_bool_decide as Hnb.
    + apply does_bind. eapply does_remove; [exact Hq|set_solver|]. rewrite filter_ne_split by done.
      apply does_ret. apply (HQ1 [] p l); [done|]. unfold buffer_of. rewrite Hpk. cbn. by rewrite Hnb.
    + eapply (IH (pre ++ [p])); [cbn in Hf; lia|by rewrite <- app_assoc|by rewrite <- app_assoc|done| |].
      * intros l1 p' l2 -> Hp'. rewrite <- app_assoc. by apply (HQ1 (p :: l1)).
      * intros Hall. apply HQ2. constructor; [|done]. unfold buffer_of. rewrite Hpk. cbn. congruence.
Qed.

(** ** Flushing *)

(** The maps of queues that [M] becomes when local queues that no one uses come and
    go: the same contents, and only empty queues more. *)
Record extends (M : queue_map) (n : positive) (M' : queue_map) (n' : positive) : Prop := {
  ext_next : (n ≤ n')%positive;
  ext_old q : is_Some (M !! q) → M' !! q = M !! q;
  ext_new q : M !! q = None → is_Some (M' !! q) →
    M' !! q = Some [] ∧ ∃ k, q = LocalQueue k ∧ (n ≤ k < n')%positive;
}.

Lemma extends_refl M n : extends M n M n.
Proof. split; [lia|done|]. intros q Hq [l Hl]. congruence. Qed.

Lemma extends_local M n : M !! LocalQueue n = None →
  extends M n (<[LocalQueue n := []]> M) (Pos.succ n).
Proof.
  intros Hn. split; [lia| |].
  - intros q [l Hl]. rewrite lookup_insert_ne; [done|]. intros <-. congruence.
  - intros q Hq [l Hl]. apply lookup_insert_Some in Hl as [[<- <-]|[_ Hl]]; [|congruence].
    rewrite lookup_insert_eq. split; [done|]. exists n. split; [done|lia].
Qed.

Lemma extends_trans M1 n1 M2 n2 M3 n3 : extends M1 n1 M2 n2 → extends M2 n2 M3 n3 → extends M1 n1 M3 n3.
Proof.
  intros H1 H2. pose proof (ext_next _ _ _ _ H1). pose proof (ext_next _ _ _ _ H2). split; [lia| |].
  - intros q Hq. rewrite (ext_old _ _ _ _ H2), (ext_old _ _ _ _ H1); [done|done|].
    by rewrite (ext_old _ _ _ _ H1).
  - intros q Hq Hq'. destruct (M2 !! q) as [l|] eqn:E.
    + destruct (ext_new _ _ _ _ H1 q Hq) as (Hl & k & -> & Hk); [by rewrite E|].
      rewrite (ext_old _ _ _ _ H2) by (by rewrite E). split; [done|]. exists k. split; [done|lia].
    + destruct (ext_new _ _ _ _ H2 q E Hq') as (Hl & k & -> & Hk). split; [done|]. exists k. split; [done|lia].
Qed.

Lemma extends_contents M n M' n' q : extends M n M' n' → contents M' q = contents M q.
Proof.
  intros H. unfold contents. destruct (M !! q) as [l|] eqn:E.
  - by rewrite (ext_old _ _ _ _ H), E by (by rewrite E).
  - destruct (M' !! q) as [l|] eqn:E'; [|done].
    destruct (ext_new _ _ _ _ H q E) as (Hl & _); [by rewrite E'|]. rewrite E' in Hl. by injection Hl.
Qed.

Lemma all_contents M : all M ≡ₚ all (filter (λ ql, ql.2 ≠ []) M).
Proof.
  induction M as [|q l M Hq IH] using map_ind; [by rewrite map_filter_empty|].
  rewrite all_insert_new by done. destruct (decide (l = [])) as [->|Hl].
  - rewrite map_filter_insert_False by (intros H; by apply H).
    rewrite delete_id by done. exact IH.
  - rewrite map_filter_insert_True by done. rewrite all_insert_new; [by rewrite IH|].
    apply map_lookup_filter_None. by left.
Qed.

Lemma extends_all M n M' n' : extends M n M' n' → all M' ≡ₚ all M.
Proof.
  intros H. rewrite (all_contents M), (all_contents M'). apply reflexive_eq. f_equal.
  apply map_eq. intros q. apply option_eq. intros l. rewrite !map_lookup_filter_Some. cbn.
  destruct (M !! q) as [l1|] eqn:E.
  - rewrite (ext_old _ _ _ _ H), E by (by rewrite E). done.
  - split; [|by intros []]. intros [Hl Hne]. destruct (ext_new _ _ _ _ H q E) as (Hl' & _); [by rewrite Hl|].
    congruence.
Qed.

Lemma finish_touches V p : touches [p] V (finish V p).
Proof. destruct (restored_touches V p) as [H1 H2 H3 H4]. by split. Qed.

Lemma finish_fields V l :
  v_eps (foldl finish V l) = v_eps V ∧ v_done (foldl finish V l) = v_done V ++ l ∧
  (v_next V ≤ v_next (foldl finish V l))%positive.
Proof.
  revert V. induction l as [|p l IH]; intros V; cbn; [by rewrite app_nil_r|].
  destruct (IH (finish V p)) as (-> & -> & H). cbn in *. rewrite restored_eps, restored_done, <- app_assoc.
  split; [done|]. split; [done|]. lia.
Qed.

Lemma does_flush_loop e l fuel M V (Q : unit → queue_map → view → Prop) :
  (length l ≤ fuel)%nat → M !! TxQueue e = Some l → NoDup (all M) →
  (∀ n, (v_next V ≤ n)%positive → M !! LocalQueue n = None) →
  (∀ e, is_ep e = true → is_Some (v_eps V !! e)) → Forall (packet_is owned_packet V) l →
  (∀ M', extends (<[TxQueue e := []]> M) (v_next V) M' (v_next (foldl finish V l)) →
    Q tt M' (foldl finish V l)) →
  does (tx_flush_loop fuel e) M V Q.
Proof.
  revert fuel M V. induction l as [|p l IH]; intros fuel M V Hf Hq Hnd Hn He Hl HQ.
  - specialize (HQ M). rewrite insert_id in HQ by done. specialize (HQ (extends_refl _ _)).
    destruct fuel; cbn [tx_flush_loop]; (apply does_bind; eapply does_depth; [exact Hq|]; by apply does_ret).
  - destruct fuel as [|fuel]; [cbn in Hf; lia|]. cbn [tx_flush_loop].
    apply Forall_cons in Hl as [Hp Hl]. apply does_bind. eapply does_depth; [exact Hq|].
    rewrite (proj2 (Z.eqb_neq _ _)) by (cbn; lia).
    apply does_bind. eapply does_dequeue; [exact Hq|]. cbn [head tail].
    pose proof Hp as (pkt & s & Hpk & Hs & _).
    apply does_bind, does_bind. eapply (does_upd_pkt p _ _ _ pkt pkt); [exact Hpk|by intros y <-|].
    rewrite set_v_pkts_id by done.
    assert (p ∉ all (<[TxQueue e := l]> M)) as Hpn by (by apply unlinked_all, unlinked_head).
    assert (<[TxQueue e := l]> M !! LocalQueue (v_next V) = None) as HL
      by (rewrite lookup_insert_ne by done; apply Hn; lia).
    apply does_send_packet_completion; [exact HL|done|done|done|].
    set (M1 := <[LocalQueue (v_next V) := []]> (<[TxQueue e := l]> M)).
    assert (extends (<[TxQueue e := l]> M) (v_next V) M1 (Pos.succ (v_next V))) as Hext
      by (by apply extends_local).
    apply (IH fuel M1); [cbn in Hf; lia|unfold M1; rewrite lookup_insert_ne by done; by rewrite lookup_insert_eq| | | | |].
    + rewrite (extends_all _ _ _ _ Hext), all_insert. rewrite (all_lookup _ _ _ Hq) in Hnd.
      cbn in Hnd. by apply NoDup_cons in Hnd as [].
    + intros n Hn'. cbn in Hn'. unfold M1. rewrite !lookup_insert_ne by (intros [=]; lia). apply Hn. lia.
    + cbn. by rewrite restored_eps.
    + eapply Forall_impl; [exact Hl|]. intros p'. apply owned_touches with [p], finish_touches.
    + intros M' H'. apply HQ. eapply extends_trans; [|exact H'].
      replace (<[TxQueue e := []]> M1) with (<[LocalQueue (v_next V) := []]> (<[TxQueue e := []]> M))
        by (unfold M1; qmap). cbn. apply extends_local. rewrite lookup_insert_ne by done. apply Hn. lia.
Qed.
End lookup.
