(* ===== verification/HtcInv.v ===== *)
(** The invariant of the host-target channel, over lists of packets.

    It has a part for the packets and the queues ([packets_ok]: where each packet
    is, what it and its buffer are like there), and one each for who drains an
    endpoint, for the transfers under way, for the credits, and for who will send
    what is queued.  A step of a task that satisfies [moves] keeps the first. *)
From S2P Require Import Prelude Ring HtcQueue HtcTypes HtcSend HtcSystem HtcView HtcMoves.

(** * What a task has *)

Definition task_cont (t : task) : cont :=
  match t with
  | TTrySend _ k | TAdmit _ _ _ k | TEnter _ _ _ k | TDrain _ _ _ k | TIssue _ _ k
  | THif _ _ _ k | TReclaim _ _ _ k | TFail _ _ k | TClear _ k => k
  | _ => KReturn
  end.

Definition send_queue (t : task) : list htc_queue :=
  match t with
  | TAdmit _ q _ _ | TEnter _ q _ _ | TDrain _ q _ _ | TIssue _ q _ | THif _ q _ _
  | TReclaim _ q _ _ | TFail _ q _ => [q]
  | TSendMultiple q | TPrepare _ q _ | TLeftover _ q | TSearch _ _ q => [q]
  | _ => []
  end.
Definition task_queues (t : task) : list htc_queue :=
  send_queue t ++ match callers_queue (task_cont t) with Some q => [q] | None => [] end.

(** The packet that is on no queue; the packet that the bus may or may not take. *)
Definition loose (t : task) : list positive :=
  match t with TIndicate _ (Some p) => [p] | _ => [] end.
Definition hif_packet (t : task) : option (Z * positive) :=
  match t with THif e _ p _ | TReclaim e _ p _ => Some (e, p) | _ => None end.

Definition live (M : queue_map) (ts : list task) : list positive := all M ++ (ts ≫= loose).

(** * Transfers *)

Definition search_part (e : Z) (M : queue_map) (t : task) : list positive :=
  match t with TSearch e' _ q => if e' =? e then contents M q else [] | _ => [] end.
(** The packets of endpoint [e] that wait for their transfer to complete *)
Definition lookups (e : Z) (M : queue_map) (ts : list task) : list positive :=
  contents M (TxLookupQueue e) ++ (ts ≫= search_part e M).

Definition in_flight_of (e : Z) (x : surroundings) : list positive :=
  (filter (λ eb, eb.1 = e) (in_flight x)).*2.
Definition pending (e : Z) (V : view) (t : task) : list (option positive) :=
  match t with
  | TComplete e' b | TSearch e' b _ => if e' =? e then [Some b] else []
  | THif e' _ p _ | TReclaim e' _ p _ => if e' =? e then [buffer_of V p] else []
  | _ => []
  end.
(** and the transfers that are being started, under way, or being completed *)
Definition transfers (e : Z) (V : view) (ts : list task) (x : surroundings) : list (option positive) :=
  (Some <$> in_flight_of e x) ++ (ts ≫= pending e V).

(** A lookup of endpoint [e] that is under way will find its packet, and one that
    has ended has found it. *)
Definition finds (e : Z) (M : queue_map) (V : view) (t : task) : Prop :=
  match t with
  | TSearch e' b q => e' = e → ∃ p, p ∈ contents M q ∧ buffer_of V p = Some b
  | TIndicate e' o => e' = e → is_Some o
  | _ => True
  end.
(** The tasks of which this says something *)
Definition looks (t : task) : bool :=
  match t with TSearch _ _ _ | TIndicate _ None => true | _ => false end.
Lemma finds_plain e M V t : looks t = false → finds e M V t.
Proof. destruct t as [| | | | | | | | | | | | | |e' [p|]| | | | |]; cbn; try done. Qed.

(** * Credits *)

Definition total {A} (f : A → Z) (l : list A) : Z := foldr (λ a s, f a + s) 0 l.

Definition used (V : view) (p : positive) : Z := default 0 (CreditsUsed <$> v_pkts V !! p).

(** The credits that have been taken for packets not yet handed to the bus *)
Definition charged (e : Z) (M : queue_map) (V : view) (t : task) : Z :=
  match t with
  | TIssue e' q _ => if e' =? e then total (used V) (contents M q) else 0
  | THif e' q p _ | TReclaim e' q p _ =>
      if e' =? e then used V p + total (used V) (contents M q) else 0
  | _ => 0
  end.

(** The credits in reports that have been received and not yet processed *)
Definition cont_report (e : Z) (k : cont) : Z :=
  match k with
  | KCredit rpt trailer => entries_credits rpt e + trailer_report trailer e
  | _ => 0
  end.
Definition reported (e : Z) (t : task) : Z :=
  match t with
  | TCredit rpt trailer => entries_credits rpt e + trailer_report trailer e
  | TTrailer trailer => trailer_report trailer e
  | _ => 0
  end + cont_report e (task_cont t).

(** * Draining *)

Definition drains (e : Z) (t : task) : Z :=
  match t with
  | TDrain e' _ _ _ | TIssue e' _ _ | THif e' _ _ _ | TReclaim e' _ _ _ | TFail e' _ _
  | TClear e' _ => c_bool (e' =? e)
  | _ => 0
  end.

(** A task that is going to drain the queue, whatever else happens *)
Definition wakes (e : Z) (t : task) : bool :=
  match t with
  | TTrySend e' k => (e' =? e) && match callers_queue k with None => true | Some _ => false end
  | TEnter e' _ _ _ => e' =? e
  | _ => false
  end.

(** * Tasks *)

Definition is_byte (c : Z) : Prop := 0 ≤ c < 256.
Definition entry_ok (en : Z * Z) : Prop := 0 ≤ en.1 ∧ 0 ≤ en.2.

Definition cont_ok (k : cont) : Prop :=
  match k with
  | KReturn => True
  | KLeftover e _ => is_ep e = true
  | KCredit rpt trailer => Forall entry_ok rpt ∧ Forall is_byte trailer
  | KKick i => 0 ≤ i
  end.

(** The packets the caller handed over are all prepared. *)
Definition callers_ok (M : queue_map) (V : view) (k : cont) : Prop :=
  match callers_queue k with
  | Some q => Forall (packet_is prepared V) (contents M q)
  | None => True
  end.

Definition has_credits (V : view) (p : positive) : Prop := 0 ≤ used V p.
Definition to_endpoint (V : view) (e : Z) (p : positive) : Prop :=
  pkt_Endpoint <$> v_pkts V !! p = Some e.

Definition task_ok (M : queue_map) (V : view) (t : task) : Prop :=
  cont_ok (task_cont t) ∧
  match t with
  | TSendMultiple q =>
      ∃ e, is_ep e = true ∧ (∃ x, v_eps V !! e = Some x ∧ service_id x ≠ 0) ∧
        contents M q ≠ [] ∧ Forall (packet_is roomy V) (contents M q) ∧
        Forall (to_endpoint V e) (contents M q)
  | TPrepare e q o =>
      is_ep e = true ∧ ∃ l1 l2, contents M q = l1 ++ l2 ∧ o = head l2 ∧
        Forall (packet_is prepared V) l1 ∧ Forall (packet_is roomy V) l2
  | TTrySend e k => is_ep e = true ∧ callers_ok M V k
  | TAdmit e q _ k =>
      is_ep e = true ∧ contents M q = [] ∧ callers_queue k ≠ None ∧ callers_ok M V k
  | TEnter e q _ _ => is_ep e = true ∧ Forall (packet_is headed V) (contents M q)
  | TDrain e q _ _ => is_ep e = true ∧ contents M q = []
  | TIssue e q _ | TFail e q _ =>
      is_ep e = true ∧ Forall (packet_is headed V) (contents M q) ∧ Forall (has_credits V) (contents M q)
  | THif e q p _ | TReclaim e q p _ =>
      is_ep e = true ∧ Forall (packet_is headed V) (contents M q) ∧
        Forall (has_credits V) (contents M q) ∧ has_credits V p ∧ packet_is headed V p
  | TSearch e _ q => is_ep e = true ∧ Forall (packet_is headed V) (contents M q)
  | TIndicate e _ | TClear e _ | TLeftover e _ | TComplete e _ | TFlush e => is_ep e = true
  | TCredit rpt trailer => Forall entry_ok rpt ∧ Forall is_byte trailer
  | TTrailer trailer => Forall is_byte trailer
  | TKick i => 0 ≤ i
  | TDone _ => True
  end.

(** * The invariant *)

Definition endpoint_queue (q : htc_queue) : Prop :=
  ∃ e, is_ep e = true ∧ (q = TxQueue e ∨ q = TxLookupQueue e).

Record queues_ok (ts : list task) (M : queue_map) (n : positive) : Prop := {
  qo_ep e : is_ep e = true → is_Some (M !! TxQueue e) ∧ is_Some (M !! TxLookupQueue e);
  qo_local k : (n ≤ k)%positive → M !! LocalQueue k = None;
  qo_nodup : NoDup (ts ≫= task_queues);
  qo_own q : q ∈ ts ≫= task_queues → (∃ k, q = LocalQueue k) ∧ is_Some (M !! q);
  qo_dead q : contents M q = [] ∨ endpoint_queue q ∨ q ∈ ts ≫= task_queues;
}.

Record packets_ok (ts : list task) (M : queue_map) (V : view) (posted : list positive) : Prop := {
  po_queues : queues_ok ts M (v_next V);
  po_nodup : NoDup (live M ts);
  po_posted : posted ≡ₚ v_done V ++ live M ts;
  po_distinct : distinct V (live M ts);
  po_owned : Forall (packet_is owned_packet V) (live M ts);
  po_headed q p : endpoint_queue q → p ∈ contents M q → packet_is headed V p;
  po_tasks : Forall (task_ok M V) ts;
}.

Definition eps_ok (V : view) : Prop :=
  ∀ e, is_ep e = true → ∃ x, v_eps V !! e = Some x ∧ Id x = e ∧ 0 ≤ TxCredits x ∧
    (TxCreditFlowEnabled x = true → u32 (TxCreditSize x) ≠ 0).

Definition drains_ok (ts : list task) (V : view) : Prop :=
  ∀ e x, is_ep e = true → v_eps V !! e = Some x →
    TxProcessCount x = total (drains e) ts ∧ TxProcessCount x ≤ 1.

(** The packets that wait for a transfer are those of the transfers, and those whose
    completion has not found them ([lost]), which there are only where completions
    have overlapped. *)
Definition waits_ok (e : Z) (ts : list task) (M : queue_map) (V : view) (x : surroundings) : Prop :=
  ∃ lost, buffer_of V <$> lookups e M ts ≡ₚ transfers e V ts x ++ lost ∧ (e ∉ overlapped x → lost = []).

Definition transfers_ok (ts : list task) (M : queue_map) (V : view) (x : surroundings) : Prop :=
  ∀ e, is_ep e = true →
    waits_ok e ts M V x ∧
    (e ∉ overlapped x → total (λ t, c_bool (completes e t)) ts ≤ 1 ∧ Forall (finds e M V) ts) ∧
    ∀ t p, t ∈ ts → hif_packet t = Some (e, p) → p ∈ lookups e M ts.

(** The credits of an endpoint, wherever they are *)
Definition accounted (e : Z) (ts : list task) (M : queue_map) (V : view) (x : surroundings) : Z :=
  credits_of V e + total (charged e M V) ts + holds x e + total (reported e) ts.

Definition credits_ok (granted : Z → Z) (ts : list task) (M : queue_map) (V : view) (x : surroundings) : Prop :=
  ∀ e, is_ep e = true →
    accounted e ts M V x ≤ granted e ∧ (e ∉ refused x → accounted e ts M V x = granted e).

(** A queue that nobody drains is empty, or its endpoint waits for the bus, or
    someone is about to drain it, or the first packet waits for credits. *)
Definition wake_ok (ts : list task) (M : queue_map) (V : view) (x : surroundings) : Prop :=
  ∀ e y, is_ep e = true → v_eps V !! e = Some y → TxProcessCount y = 0 →
    contents M (TxQueue e) = [] ∨ e ∈ stalled x ∨ existsb (wakes e) ts = true ∨
    ∃ p l, contents M (TxQueue e) = p :: l ∧ starved V e p.

Record inv (granted : Z → Z) (ts : list task) (M : queue_map) (V : view) (x : surroundings) : Prop := {
  inv_eps : eps_ok V;
  inv_packets : packets_ok ts M V (posted x);
  inv_flight : Forall (λ eb, is_ep eb.1 = true) (in_flight x);
  inv_drains : drains_ok ts V;
  inv_transfers : transfers_ok ts M V x;
  inv_credits : credits_ok granted ts M V x;
  inv_wake : wake_ok ts M V x;
}.

(** * The order of the tasks does not matter *)

#[export] Instance total_perm {A} (f : A → Z) : Proper ((≡ₚ) ==> (=)) (total f).
Proof.
  intros l l' H. unfold total. induction H as [|a l l' _ IH|a b l|l1 l2 l3 _ IH1 _ IH2]; cbn; lia.
Qed.

Lemma total_app {A} (f : A → Z) l1 l2 : total f (l1 ++ l2) = total f l1 + total f l2.
Proof. unfold total. induction l1 as [|a l1 IH]; cbn; lia. Qed.

Lemma total_of_cons {A} (f : A → Z) a l : total f (a :: l) = f a + total f l.
Proof. done. Qed.

Lemma total_ext {A} (f g : A → Z) l : (∀ a, a ∈ l → f a = g a) → total f l = total g l.
Proof.
  induction l as [|a l IH]; intros H; [done|]. rewrite !total_of_cons, (H a) by left.
  rewrite IH; [done|]. intros b Hb. apply H. by right.
Qed.

Lemma total_of_nonneg {A} (f : A → Z) l : (∀ a, a ∈ l → 0 ≤ f a) → 0 ≤ total f l.
Proof.
  induction l as [|a l IH]; intros H; [done|]. rewrite total_of_cons. pose proof (H a (list_elem_of_here _ _)).
  assert (0 ≤ total f l); [|lia]. apply IH. intros b Hb. apply H. by right.
Qed.

Section perm.
Implicit Types (ts : list task) (M : queue_map) (V : view) (x : surroundings).

#[export] Instance live_perm M : Proper ((≡ₚ) ==> (≡ₚ)) (live M).
Proof. intros ts ts' H. unfold live. by rewrite H. Qed.
#[export] Instance lookups_perm e M : Proper ((≡ₚ) ==> (≡ₚ)) (lookups e M).
Proof. intros ts ts' H. unfold lookups. by rewrite H. Qed.
Lemma transfers_perm e V ts ts' x : ts ≡ₚ ts' → transfers e V ts x ≡ₚ transfers e V ts' x.
Proof. intros H. unfold transfers. by rewrite H. Qed.

Lemma existsb_perm {A} (f : A → bool) l l' : l ≡ₚ l' → existsb f l = existsb f l'.
Proof.
  induction 1 as [|a l l' _ IH|a b l|l1 l2 l3 _ IH1 _ IH2]; cbn; [done|by rewrite IH| |congruence].
  by destruct (f a), (f b).
Qed.

Lemma queues_ok_perm ts ts' M n : ts ≡ₚ ts' → queues_ok ts M n → queues_ok ts' M n.
Proof.
  intros H [H1 H2 H3 H4 H5]. pose proof (bind_Permutation task_queues _ _ H) as Hq. split; [done|done| | |].
  - by rewrite <- Hq.
  - intros q. rewrite <- Hq. apply H4.
  - intros q. rewrite <- Hq. apply H5.
Qed.

Lemma packets_ok_perm ts ts' M V ps : ts ≡ₚ ts' → packets_ok ts M V ps → packets_ok ts' M V ps.
Proof.
  intros H [H1 H2 H3 H4 H5 H6 H7]. pose proof (live_perm M _ _ H) as Hl. split; [by eapply queues_ok_perm|..].
  - by rewrite <- Hl.
  - by rewrite <- Hl.
  - eapply distinct_sub; [exact H4|]. intros p. by rewrite Hl.
  - by rewrite <- Hl.
  - done.
  - by rewrite <- H.
Qed.

Lemma inv_perm granted ts ts' M V x : ts ≡ₚ ts' → inv granted ts M V x → inv granted ts' M V x.
Proof.
  intros H [H1 H2 H3 H4 H5 H6 H7]. split; [done|by eapply packets_ok_perm|done| | | |].
  - intros e y He Hy. rewrite <- H. by apply H4.
  - intros e He. destruct (H5 e He) as ((lost & Ha & Hl) & Hb & Hc). split; [|split].
    + exists lost. by rewrite <- (lookups_perm e M _ _ H), <- (transfers_perm e V _ _ x H).
    + by rewrite <- H.
    + intros t p Ht. rewrite <- H in Ht. rewrite <- (lookups_perm e M _ _ H). by apply Hc.
  - intros e He. unfold accounted. rewrite <- H. by apply H6.
  - intros e y He Hy Hc. rewrite <- (existsb_perm _ _ _ H). by apply (H7 e y).
Qed.
End perm.

(** * Moves *)

(** What the steps of tasks have in common: [t] becomes [t'], the packets [ps] of
    its own or of the transmit queues may change, and [ds] are completed. *)
Record moves (t t' : task) (M M' : queue_map) (V V' : view) (ps ds : list positive) : Prop := {
  mv_next : (v_next V ≤ v_next V')%positive;
  mv_old q : is_Some (M !! q) → is_Some (M' !! q);
  mv_new q : M !! q = None → is_Some (M' !! q) → ∃ k, q = LocalQueue k ∧ (v_next V ≤ k < v_next V')%positive;
  mv_nodup : NoDup (task_queues t');
  mv_own q : q ∈ task_queues t' → is_Some (M' !! q) ∧ (q ∈ task_queues t ∨ M !! q = None);
  mv_rest q : contents M' q = contents M q ∨ endpoint_queue q ∨ q ∈ task_queues t ∨ q ∈ task_queues t';
  mv_dead q : q ∈ task_queues t → q ∈ task_queues t' ∨ contents M' q = [];
  mv_live : all M ++ loose t ≡ₚ ds ++ all M' ++ loose t';
  mv_done : v_done V' = v_done V ++ ds;
  mv_touches : touches ps V V';
  mv_place p : p ∈ ps → p ∈ loose t ∨
    ∃ q, p ∈ contents M q ∧ ((∃ e, q = TxQueue e) ∨ q ∈ task_queues t);
  mv_search e b q : t = TSearch e b q → ps = [];
  mv_static e : ep_static <$> v_eps V' !! e = ep_static <$> v_eps V !! e;
}.

Section moves.
Implicit Types (O : list task) (M : queue_map) (V : view) (q : htc_queue) (p : positive).

Lemma contents_all M q p : p ∈ contents M q → p ∈ all M.
Proof.
  unfold contents. destruct (M !! q) as [l|] eqn:E; cbn; [|by intros ?%elem_of_nil].
  intros Hp. apply elem_of_all. eauto.
Qed.

Lemma contents_disjoint M q1 q2 p : NoDup (all M) → p ∈ contents M q1 → p ∈ contents M q2 → q1 = q2.
Proof.
  unfold contents. intros Hnd H1 H2.
  destruct (M !! q1) as [l1|] eqn:E1; cbn in H1; [|by apply elem_of_nil in H1].
  destruct (M !! q2) as [l2|] eqn:E2; cbn in H2; [|by apply elem_of_nil in H2].
  by eapply queues_disjoint.
Qed.

Lemma live_cons M t O : live M (t :: O) ≡ₚ (all M ++ loose t) ++ (O ≫= loose).
Proof. unfold live. cbn. by rewrite app_assoc. Qed.

Context {t t' : task} {O : list task} {M M' : queue_map} {V V' : view} {ps ds posted : list positive}.
Hypothesis Hok : packets_ok (t :: O) M V posted.
Hypothesis Hmv : moves t t' M M' V V' ps ds.

Lemma all_nodup : NoDup (all M).
Proof. pose proof (po_nodup _ _ _ _ Hok) as H. by apply NoDup_app in H as (? & _). Qed.

Lemma live_moves : live M (t :: O) ≡ₚ ds ++ live M' (t' :: O).
Proof. rewrite !live_cons, (mv_live _ _ _ _ _ _ _ _ Hmv). by rewrite <- !app_assoc. Qed.

(** The queues of the other tasks keep their packets. *)
Lemma others_own q : q ∈ O ≫= task_queues → (∃ k, q = LocalQueue k) ∧ is_Some (M !! q) ∧
  q ∉ task_queues t ∧ q ∉ task_queues t'.
Proof.
  intros Hq. pose proof (po_queues _ _ _ _ Hok) as Hqs.
  destruct (qo_own _ _ _ Hqs q) as [Hk Hs]; [cbn; apply elem_of_app; by right|].
  assert (q ∉ task_queues t) as Hn.
  { pose proof (qo_nodup _ _ _ Hqs) as Hnd. cbn in Hnd. apply NoDup_app in Hnd as (_ & Hd & _).
    intros H. by apply (Hd q). }
  split; [done|]. split; [done|]. split; [done|]. intros H.
  destruct (mv_own _ _ _ _ _ _ _ _ Hmv q H) as [_ [?|Hnone]]; [done|]. rewrite Hnone in Hs. by destruct Hs.
Qed.

Lemma others_contents q : q ∈ O ≫= task_queues → contents M' q = contents M q.
Proof.
  intros Hq. destruct (others_own q Hq) as ([k ->] & _ & H1 & H2).
  destruct (mv_rest _ _ _ _ _ _ _ _ Hmv (LocalQueue k)) as [H|[(e & _ & [?|?])|[?|?]]]; done.
Qed.

(** Packets that others have, or that wait for their transfer, do not change. *)
Definition elsewhere p : Prop :=
  (∃ q, q ∈ O ≫= task_queues ∧ p ∈ contents M q) ∨ p ∈ O ≫= loose ∨ ∃ e, p ∈ contents M (TxLookupQueue e).

Lemma elsewhere_live p : elsewhere p → p ∈ live M (t :: O).
Proof.
  rewrite live_cons, !elem_of_app. intros [(q & _ & Hp)|[Hp|[e Hp]]]; [|by right|]; left; left; by eapply contents_all.
Qed.

Lemma elsewhere_untouched p : elsewhere p → p ∉ ps.
Proof.
  intros He Hp. pose proof all_nodup as Hall.
  pose proof (po_nodup _ _ _ _ Hok) as Hnd. rewrite live_cons in Hnd.
  apply NoDup_app in Hnd as (Hnd1 & Hd2 & _). apply NoDup_app in Hnd1 as (_ & Hd1 & _).
  destruct (mv_place _ _ _ _ _ _ _ _ Hmv p Hp) as [Hl|(q & Hq & Hplace)].
  - destruct He as [(q & _ & Hq)|[Ho|[e Hq]]].
    + apply (Hd1 p); [by eapply contents_all|done].
    + apply (Hd2 p); [apply elem_of_app; by right|done].
    + apply (Hd1 p); [by eapply contents_all|done].
  - destruct He as [(q' & Hq' & Hc)|[Ho|[e Hc]]].
    + rewrite (contents_disjoint _ _ _ _ Hall Hq Hc) in Hplace.
      destruct (others_own q' Hq') as ([k ->] & _ & H1 & _). destruct Hplace as [[e ?]|?]; done.
    + apply (Hd2 p); [apply elem_of_app; left; by eapply contents_all|done].
    + rewrite (contents_disjoint _ _ _ _ Hall Hq Hc) in Hplace. destruct Hplace as [[e' ?]|Hown]; [done|].
      destruct (qo_own _ _ _ (po_queues _ _ _ _ Hok) (TxLookupQueue e)) as [[k ?] _]; [|done].
      cbn. apply elem_of_app. by left.
Qed.

Lemma elsewhere_pkt p : p ∉ ps → v_pkts V' !! p = v_pkts V !! p.
Proof. apply (touch_pkt _ _ _ (mv_touches _ _ _ _ _ _ _ _ Hmv)). Qed.

(** The packets that may change are packets of the channel. *)
Lemma touched_live : ps ⊆ live M (t :: O).
Proof.
  intros p Hp. rewrite live_cons, !elem_of_app.
  destruct (mv_place _ _ _ _ _ _ _ _ Hmv p Hp) as [Hl|(q & Hq & _)]; [by left; right|].
  left; left. by eapply contents_all.
Qed.

Lemma elsewhere_is P p : p ∈ live M (t :: O) → p ∉ ps → packet_is P V p → packet_is P V' p.
Proof.
  intros Hl Hp. eapply packet_is_frame_in; [exact (mv_touches _ _ _ _ _ _ _ _ Hmv)
    |exact (po_distinct _ _ _ _ Hok)|exact touched_live|done|done].
Qed.

Lemma others_elsewhere q p : q ∈ O ≫= task_queues → p ∈ contents M q → p ∈ live M (t :: O) ∧ p ∉ ps.
Proof.
  intros Hq Hp. assert (elsewhere p) as He by (left; eauto).
  split; [by apply elsewhere_live|by apply elsewhere_untouched].
Qed.

Lemma lookups_elsewhere e p : p ∈ lookups e M (t :: O) → p ∈ live M (t :: O) ∧ p ∉ ps.
Proof.
  unfold lookups. cbn. rewrite !elem_of_app. intros [Hp|[Hp|Hp]].
  - assert (elsewhere p) as He by (right; right; eauto).
    split; [by apply elsewhere_live|by apply elsewhere_untouched].
  - destruct t; cbn in Hp; try by apply elem_of_nil in Hp. case_match; [|by apply elem_of_nil in Hp].
    rewrite (mv_search _ _ _ _ _ _ _ _ Hmv _ _ _ eq_refl). split; [|set_solver].
    rewrite live_cons, !elem_of_app. left; left. by eapply contents_all.
  - apply list_elem_of_bind in Hp as (t1 & Hp & Ht1). destruct t1; cbn in Hp; try by apply elem_of_nil in Hp.
    case_match; [|by apply elem_of_nil in Hp]. apply (others_elsewhere lookupQueue); [|done].
    apply list_elem_of_bind. eexists; split; [|exact Ht1]. by left.
Qed.

Lemma others_Forall (P : view → positive → Prop) q :
  (∀ p, p ∈ live M (t :: O) → p ∉ ps → P V p → P V' p) → q ∈ O ≫= task_queues →
  Forall (P V) (contents M q) → Forall (P V') (contents M' q).
Proof.
  intros HP Hq. rewrite others_contents by done. rewrite !Forall_forall. intros H p Hp.
  destruct (others_elsewhere q p Hq Hp). apply HP; auto.
Qed.

Lemma untouched_used p : p ∉ ps → used V' p = used V p.
Proof. intros Hp. unfold used. by rewrite elsewhere_pkt. Qed.

Lemma untouched_credits p : p ∉ ps → has_credits V p → has_credits V' p.
Proof. intros Hp. unfold has_credits. by rewrite untouched_used. Qed.

(** What the others rely on still holds. *)
Lemma others_ok x t1 : transfers_ok (t :: O) M V x → t1 ∈ O → task_ok M V t1 → task_ok M' V' t1.
Proof.
  intros Htr Ht1 [Hc H]. split; [exact Hc|].
  assert (∀ q, q ∈ task_queues t1 → q ∈ O ≫= task_queues) as Hqs
    by (intros q Hq; apply list_elem_of_bind; eauto).
  assert (∀ P q, q ∈ task_queues t1 → Forall (packet_is P V) (contents M q) →
    Forall (packet_is P V') (contents M' q)) as His.
  { intros P q Hq. apply (others_Forall (packet_is P)); [apply elsewhere_is|by apply Hqs]. }
  assert (∀ q, q ∈ task_queues t1 → Forall (has_credits V) (contents M q) →
    Forall (has_credits V') (contents M' q)) as Hcr.
  { intros q Hq. apply (others_Forall has_credits); [|by apply Hqs]. intros p _. apply untouched_credits. }
  assert (∀ q, q ∈ task_queues t1 → contents M' q = contents M q) as Hsame
    by (intros q Hq; by apply others_contents, Hqs).
  assert (∀ e p, hif_packet t1 = Some (e, p) → is_ep e = true → p ∈ live M (t :: O) ∧ p ∉ ps) as Hhif.
  { intros e p Hp He. destruct (Htr e He) as (_ & _ & Hin). apply (lookups_elsewhere e).
    apply (Hin t1); [by right|done]. }
  assert (∀ k, callers_queue (task_cont t1) = callers_queue k → callers_ok M V k → callers_ok M' V' k) as Hcall.
  { intros k Hk. unfold callers_ok. destruct (callers_queue k) as [q|] eqn:E; [|done]. apply His.
    unfold task_queues. rewrite Hk. apply elem_of_app. right. by left. }
  destruct t1; cbn in H |- *; try done.
  - destruct H as (e & He & (y & Hy & Hs) & Hne & Hr & Hto). exists e. split; [done|].
    assert (q ∈ task_queues (TSendMultiple q)) as Hq by (by left).
    rewrite Hsame by done. split; [|split; [done|]].
    + pose proof (mv_static _ _ _ _ _ _ _ _ Hmv e) as Hst. rewrite Hy in Hst.
      destruct (v_eps V' !! e) as [y'|]; [|done]. exists y'. split; [done|]. destruct y, y'; simplify_eq/=; done.
    + rewrite <- (Hsame q) by done. split; [by apply His|].
      rewrite Hsame by done. rewrite Forall_forall in Hto |- *. intros p Hp.
      destruct (others_elsewhere q p (Hqs q Hq) Hp). unfold to_endpoint. rewrite elsewhere_pkt by done. by apply Hto.
  - destruct H as (He & l1 & l2 & Heq & -> & H1 & H2). split; [done|].
    assert (q ∈ task_queues (TPrepare ep q (head l2))) as Hq by (by left).
    rewrite Hsame by done. exists l1, l2. split; [done|]. split; [done|].
    assert (∀ p, p ∈ l1 ++ l2 → p ∈ live M (t :: O) ∧ p ∉ ps) as Hp.
    { intros p. rewrite <- Heq. apply others_elsewhere. by apply Hqs. }
    rewrite !Forall_forall in *. split; intros p Hpl;
      (destruct (Hp p) as [? ?]; [set_solver|]); apply elsewhere_is; auto.
  - destruct H as [? ?]. split; [done|]. by apply Hcall.
  - destruct H as (? & ? & ? & ?). split; [done|]. rewrite Hsame by (by left). split; [done|]. split; [done|]. by apply Hcall.
  - destruct H as [? ?]. split; [done|]. apply His; [by left|done].
  - destruct H as [? ?]. split; [done|]. rewrite Hsame; [done|by left].
  - destruct H as (? & ? & ?). split; [done|]. split; [apply His|apply Hcr]; first [by left|done].
  - destruct H as (He & ? & ? & Hcp & Hhp). split; [done|]. destruct (Hhif _ _ eq_refl He).
    split; [apply His; first [by left|done]|]. split; [apply Hcr; first [by left|done]|].
    split; [by apply untouched_credits|by apply elsewhere_is].
  - destruct H as (He & ? & ? & Hcp & Hhp). split; [done|]. destruct (Hhif _ _ eq_refl He).
    split; [apply His; first [by left|done]|]. split; [apply Hcr; first [by left|done]|].
    split; [by apply untouched_credits|by apply elsewhere_is].
  - destruct H as (? & ? & ?). split; [done|]. split; [apply His|apply Hcr]; first [by left|done].
  - destruct H as [? ?]. split; [done|]. apply His; [by left|done].
Qed.

Lemma moves_queues : queues_ok (t' :: O) M' (v_next V').
Proof.
  pose proof (po_queues _ _ _ _ Hok) as [H1 H2 H3 H4 H5]. destruct Hmv. cbn in H3, H4, H5.
  apply NoDup_app in H3 as (H3a & H3b & H3c). split.
  - intros e He. destruct (H1 e He) as [Ha Hb]. split; by apply mv_old0.
  - intros k Hk. destruct (M' !! LocalQueue k) as [l|] eqn:E; [|done].
    destruct (mv_new0 (LocalQueue k)) as (k' & [= ->] & Hk'); [apply H2; lia|by rewrite E|lia].
  - cbn. apply NoDup_app. split; [done|]. split; [|done]. intros q Hq Hqo.
    by destruct (others_own q Hqo) as (_ & _ & _ & Hn).
  - cbn. intros q [Hq|Hq]%elem_of_app.
    + destruct (mv_own0 q Hq) as [Hs [Ho|Hn]]; (split; [|done]).
      * apply H4, elem_of_app. by left.
      * destruct (mv_new0 q Hn Hs) as (k & -> & _). by exists k.
    + destruct (others_own q Hq) as (Hk & Hs & _). split; [done|]. by apply mv_old0.
  - cbn. intros q. rewrite elem_of_app.
    assert (q ∈ task_queues t → contents M' q = [] ∨ endpoint_queue q ∨ q ∈ task_queues t' ∨ q ∈ O ≫= task_queues)
      as Ht by (intros Ht; destruct (mv_dead0 q Ht); auto).
    destruct (mv_rest0 q) as [Hs|[He|[Hq|Hq]]]; [|auto..].
    destruct (H5 q) as [He|[He|[Hq|Hq]%elem_of_app]]; [left; congruence|auto..].
Qed.

Lemma live_sub p : p ∈ live M' (t' :: O) → p ∈ live M (t :: O).
Proof. rewrite live_moves. intros Hp. apply elem_of_app. by right. Qed.

(** A step that moves packets keeps the invariant of the packets. *)
Lemma packets_moves x :
  transfers_ok (t :: O) M V x → task_ok M' V' t' →
  (∀ q p, endpoint_queue q → p ∈ contents M' q → p ∈ contents M q ∧ p ∉ ps ∨ packet_is headed V' p) →
  packets_ok (t' :: O) M' V' posted.
Proof.
  intros Htr Ht' Hhead. split.
  - apply moves_queues.
  - pose proof (po_nodup _ _ _ _ Hok) as H. rewrite live_moves in H. by apply NoDup_app in H as (_ & _ & ?).
  - rewrite (mv_done _ _ _ _ _ _ _ _ Hmv), (po_posted _ _ _ _ Hok), live_moves. by rewrite app_assoc.
  - eapply distinct_touches; [exact (mv_touches _ _ _ _ _ _ _ _ Hmv)|].
    eapply distinct_sub; [exact (po_distinct _ _ _ _ Hok)|exact live_sub].
  - pose proof (po_owned _ _ _ _ Hok) as H. rewrite Forall_forall in H |- *. intros p Hp.
    eapply owned_touches; [exact (mv_touches _ _ _ _ _ _ _ _ Hmv)|]. by apply H, live_sub.
  - intros q p Hq Hp. destruct (Hhead q p Hq Hp) as [[Hin Hps]|?]; [|done].
    apply elsewhere_is; [|done|by eapply (po_headed _ _ _ _ Hok)].
    rewrite live_cons, !elem_of_app. left; left. by eapply contents_all.
  - constructor; [done|]. pose proof (po_tasks _ _ _ _ Hok) as H. apply Forall_cons in H as [_ H].
    rewrite Forall_forall in H |- *. intros t1 Ht1. eapply others_ok; eauto.
Qed.

(** The other tasks' shares of the transfers and of the credits do not change. *)
Lemma others_search e : (O ≫= search_part e M') = (O ≫= search_part e M).
Proof.
  assert (∀ t1, t1 ∈ O → search_part e M' t1 = search_part e M t1) as H.
  { intros t1 Ht1. destruct t1; cbn; try done. case_match; [|done]. apply others_contents.
    apply list_elem_of_bind. eexists; split; [|exact Ht1]. by left. }
  clear Hok Hmv. induction O as [|t1 O1 IH]; [done|]. cbn. rewrite H by by left.
  f_equal. apply IH. intros t2 Ht2. apply H. by right.
Qed.

Lemma buffer_of_moves p : buffer_of V' p = buffer_of V p.
Proof. eapply touch_buffer_of, (mv_touches _ _ _ _ _ _ _ _ Hmv). Qed.

Lemma pending_moves e t1 : pending e V' t1 = pending e V t1.
Proof. destruct t1; cbn; try done; by rewrite buffer_of_moves. Qed.

Lemma others_charged x e : transfers_ok (t :: O) M V x → is_ep e = true →
  total (charged e M' V') O = total (charged e M V) O.
Proof.
  intros Htr He. apply total_ext. intros t1 Ht1.
  assert (∀ q, q ∈ task_queues t1 → total (used V') (contents M' q) = total (used V) (contents M q)) as Hq.
  { intros q Hq. assert (q ∈ O ≫= task_queues) as Hq' by (apply list_elem_of_bind; eauto).
    rewrite others_contents by done. apply total_ext. intros p Hp.
    apply untouched_used. by apply (others_elsewhere q). }
  assert (∀ p, hif_packet t1 = Some (e, p) → used V' p = used V p) as Hp.
  { intros p Hp. destruct (Htr e He) as (_ & _ & Hin). apply untouched_used.
    apply (lookups_elsewhere e). apply (Hin t1); [by right|done]. }
  destruct t1; cbn; try done; case_match eqn:Heq; try done; apply Z.eqb_eq in Heq as ->;
    rewrite ?Hq by (by left); rewrite ?Hp by done; done.
Qed.
End moves.

(** How each part of the channel's invariant is kept by a step. *)

Section parts.
Implicit Types (O : list task) (M : queue_map) (V : view) (q : htc_queue) (p : positive) (x : surroundings).

(** What a step leaves in the surroundings, as far as the view tells. *)
Definition after_view (env : hif_env) (t t' : task) (V : view) (x : surroundings) : surroundings :=
  match t, t' with
  | THif ep _ p _, TIssue _ _ _ =>
      match v_pkts V !! p with
      | Some pkt =>
          mk_sur (in_flight x ++ [(ep, pNetBufContext pkt)])
            (<[ep := holds x ep + CreditsUsed pkt]> (held x)) (posted x) (refused x) (stalled x) (overlapped x)
      | None => x
      end
  | TReclaim ep _ _ _, _ =>
      mk_sur (in_flight x) (held x) (posted x) (refused x ∪ {[ep]}) (stalled x) (overlapped x)
  | TClear ep _, _ =>
      mk_sur (in_flight x) (held x) (posted x) (refused x) (stalled x ∪ {[ep]}) (overlapped x)
  | (TEnter ep _ r _ | TDrain ep _ r _), TIssue _ _ _ =>
      mk_sur (in_flight x) (held x) (posted x) (refused x) (stalled x ∖ {[ep]}) (overlapped x)
  | TEnter ep _ r _, _ =>
      match v_eps V !! ep with
      | Some e => if TxProcessCount e =? 0 then round_over env ep r e x else x
      | None => x
      end
  | TDrain ep _ r _, _ =>
      match v_eps V !! ep with
      | Some e => round_over env ep r e x
      | None => x
      end
  | _, _ => x
  end.

Lemma after_view_of env t t' s x : after env t t' s x = after_view env t t' (view_of s) x.
Proof.
  destruct t; try done; destruct t'; try done; cbn; rewrite lookup_fmap;
    first [by destruct (packets s !! _)|by destruct (endpoint s !! _)].
Qed.

(** ** Steps that keep the queues *)

Lemma moves_same t t' M V V' :
  NoDup (task_queues t') → task_queues t' ⊆ task_queues t →
  (∀ q, q ∈ task_queues t → is_Some (M !! q)) →
  (∀ q, q ∈ task_queues t → q ∈ task_queues t' ∨ contents M q = []) →
  loose t' = loose t → v_pkts V' = v_pkts V → v_nbs V' = v_nbs V → v_done V' = v_done V → v_next V' = v_next V →
  (∀ e, ep_static <$> v_eps V' !! e = ep_static <$> v_eps V !! e) →
  moves t t' M M V V' [] [].
Proof.
  intros Hnd Hsub Hown Hdead Hl Hp Hn Hd Hnx Hs. split; try done.
  - lia.
  - intros q Hq [l Hl']. congruence.
  - intros q Hq. split; [by apply Hown, Hsub|left; by apply Hsub].
  - intros q. by left.
  - by rewrite Hl.
  - by rewrite Hd, app_nil_r.
  - by apply touches_same.
  - intros p Hp'. by apply elem_of_nil in Hp'.
Qed.

(** ** Draining *)

Section step.
Context {t t' : task} {O : list task} {M M' : queue_map} {V V' : view} {ps ds posted : list positive}.
Hypothesis Hok : packets_ok (t :: O) M V posted.
Hypothesis Hmv : moves t t' M M' V V' ps ds.

Lemma static_lookup e y' : v_eps V' !! e = Some y' → ∃ y, v_eps V !! e = Some y ∧ ep_static y' = ep_static y.
Proof.
  intros Hy. pose proof (mv_static _ _ _ _ _ _ _ _ Hmv e) as H. rewrite Hy in H.
  destruct (v_eps V !! e) as [y|]; [|done]. exists y. split; [done|]. cbn in H. congruence.
Qed.

Lemma drains_moves :
  drains_ok (t :: O) V →
  (∀ e y y', is_ep e = true → v_eps V !! e = Some y → v_eps V' !! e = Some y' → TxProcessCount y ≤ 1 →
    TxProcessCount y = drains e t + total (drains e) O →
    TxProcessCount y' = drains e t' + (TxProcessCount y - drains e t) ∧ TxProcessCount y' ≤ 1) →
  drains_ok (t' :: O) V'.
Proof.
  intros Hd H e y' He Hy'. destruct (static_lookup e y' Hy') as (y & Hy & _).
  destruct (Hd e y He Hy) as [H1 H2]. rewrite total_of_cons in H1.
  destruct (H e y y' He Hy Hy' H2 H1) as [H3 H4]. rewrite total_of_cons. split; [lia|done].
Qed.

Lemma drains_same : v_eps V' = v_eps V → (∀ e, drains e t' = drains e t) →
  drains_ok (t :: O) V → drains_ok (t' :: O) V'.
Proof.
  intros He Hd H. apply drains_moves; [done|]. intros e y y' Hep Hy Hy' H1 _. rewrite He in Hy'. simplify_eq.
  rewrite Hd. split; [lia|done].
Qed.

Lemma eps_moves : eps_ok V →
  (∀ e y y', is_ep e = true → v_eps V !! e = Some y → v_eps V' !! e = Some y' → 0 ≤ TxCredits y → 0 ≤ TxCredits y') →
  eps_ok V'.
Proof.
  intros Hep H e He. destruct (Hep e He) as (y & Hy & Hid & Hc & Hsz).
  pose proof (mv_static _ _ _ _ _ _ _ _ Hmv e) as Hst. rewrite Hy in Hst.
  destruct (v_eps V' !! e) as [y'|] eqn:Hy'; [|done]. exists y'. split; [done|].
  assert (Id y' = Id y ∧ TxCreditFlowEnabled y' = TxCreditFlowEnabled y ∧ TxCreditSize y' = TxCreditSize y)
    as (-> & -> & ->) by (destruct y, y'; simplify_eq/=; done).
  split; [done|]. split; [by eapply H|done].
Qed.

(** ** Transfers *)

Lemma others_finds e t1 : t1 ∈ O → finds e M V t1 → finds e M' V' t1.
Proof.
  intros Ht1 H. destruct t1; cbn in *; try done. intros Hep. destruct (H Hep) as (p & Hp & Hb). exists p.
  rewrite (buffer_of_moves Hmv), (others_contents Hok Hmv); [done|].
  apply list_elem_of_bind. eexists. split; [|exact Ht1]. by left.
Qed.

Lemma transfers_moves x x' :
  transfers_ok (t :: O) M V x → overlapped x' = overlapped x →
  (∀ e, is_ep e = true →
    (∀ lost, buffer_of V <$> (contents M (TxLookupQueue e) ++ search_part e M t ++ (O ≫= search_part e M)) ≡ₚ
      ((Some <$> in_flight_of e x) ++ pending e V t ++ (O ≫= pending e V)) ++ lost →
     ∃ lost', buffer_of V <$> (contents M' (TxLookupQueue e) ++ search_part e M' t' ++ (O ≫= search_part e M)) ≡ₚ
      ((Some <$> in_flight_of e x') ++ pending e V t' ++ (O ≫= pending e V)) ++ lost' ∧
      (e ∉ overlapped x → lost = [] → lost' = [])) ∧
    (completes e t' = true → completes e t = true) ∧
    (e ∉ overlapped x → finds e M' V' t') ∧
    (∀ p, hif_packet t' = Some (e, p) → hif_packet t = Some (e, p) ∨ p ∈ contents M' (TxLookupQueue e)) ∧
    (∀ t1 p, t1 ∈ t :: O → hif_packet t1 = Some (e, p) → t1 ∈ O ∨ hif_packet t' = Some (e, p) →
      p ∈ contents M (TxLookupQueue e) ++ search_part e M t →
      p ∈ contents M' (TxLookupQueue e) ++ search_part e M' t')) →
  transfers_ok (t' :: O) M' V' x'.
Proof.
  intros Htr Hov H e He. destruct (Htr e He) as ((lost & H1 & Hl) & H2 & H3). destruct (H e He) as (Ha & Hb & Hf & Hc & Hd).
  assert (lookups e M' (t' :: O) = contents M' (TxLookupQueue e) ++ search_part e M' t' ++ (O ≫= search_part e M)) as Hlk
    by (unfold lookups; cbn; by rewrite (others_search Hok Hmv)).
  assert ((O ≫= pending e V') = (O ≫= pending e V)) as Hpo.
  { clear -Hmv. induction O as [|t1 O1 IH]; [done|]. cbn. by rewrite (pending_moves Hmv), IH. }
  unfold waits_ok. rewrite Hov. split; [|split].
  - destruct (Ha lost H1) as (lost' & Hp & Hl'). exists lost'. rewrite Hlk. unfold transfers. cbn.
    rewrite (pending_moves Hmv), Hpo.
    assert (∀ l, buffer_of V' <$> l = buffer_of V <$> l) as ->.
    { intros l. apply list_fmap_ext. intros ? p _. apply (buffer_of_moves Hmv). }
    split; [exact Hp|]. auto.
  - intros Hn. destruct (H2 Hn) as [H2a H2b]. apply Forall_cons in H2b as [_ H2b]. split.
    + rewrite total_of_cons in *. destruct (completes e t'); cbn; [rewrite Hb in H2a by done; exact H2a|].
      destruct (completes e t); cbn in *; lia.
    + constructor; [by apply Hf|]. rewrite Forall_forall in H2b |- *. intros t1 Ht1. apply others_finds; auto.
  - intros t1 p Ht1 Hp. rewrite Hlk, app_assoc. apply elem_of_app.
    assert (∀ t2, t2 ∈ t :: O → hif_packet t2 = Some (e, p) → t2 ∈ O ∨ hif_packet t' = Some (e, p) →
      p ∈ contents M' (TxLookupQueue e) ++ search_part e M' t' ∨ p ∈ O ≫= search_part e M) as Hkeep.
    { intros t2 Ht2 Hp2 Hcase. pose proof (H3 t2 p Ht2 Hp2) as Hin. unfold lookups in Hin. cbn in Hin.
      rewrite app_assoc in Hin. apply elem_of_app in Hin as [Hin|Hin]; [left|by right]. by eapply Hd. }
    apply elem_of_cons in Ht1 as [->|Ht1].
    + destruct (Hc p Hp) as [Hp'|Hin]; [|left; apply elem_of_app; by left].
      apply (Hkeep t); [by left|done|by right].
    + apply (Hkeep t1); [by right|done|by left].
Qed.

(** Steps that have nothing to do with transfers *)
Definition same_flight x x' : Prop := in_flight x' = in_flight x ∧ overlapped x' = overlapped x.
Definition same_hif t1 t2 : Prop := (∀ ep, hif_packet t2 = Some ep → hif_packet t1 = Some ep) ∧ looks t2 = false.

Lemma transfers_same x x' :
  same_flight x x' → (∀ e, contents M' (TxLookupQueue e) = contents M (TxLookupQueue e)) →
  (∀ e, search_part e M' t' = search_part e M t) → (∀ e, pending e V t' = pending e V t) →
  (∀ e, completes e t' = true → completes e t = true) → same_hif t t' →
  transfers_ok (t :: O) M V x → transfers_ok (t' :: O) M' V' x'.
Proof.
  intros [Hf Ho] Hl Hs Hp Hc [Hh Hk] Htr. eapply transfers_moves; [exact Htr|done|]. intros e He.
  unfold in_flight_of. rewrite Hf, Hl, Hs, Hp. split; [eauto|]. split; [apply Hc|]. split; [intros _; by apply finds_plain|].
  split; [intros p Hp'; left; by apply Hh|done].
Qed.

(** ** Credits *)

Lemma credits_moves granted x x' :
  transfers_ok (t :: O) M V x → credits_ok granted (t :: O) M V x →
  (∀ e, is_ep e = true →
    let c' := credits_of V' e + charged e M' V' t' + holds x' e + reported e t' in
    let c := credits_of V e + charged e M V t + holds x e + reported e t in
    c' = c ∨ c' ≤ c ∧ e ∈ refused x') →
  refused x ⊆ refused x' →
  credits_ok granted (t' :: O) M' V' x'.
Proof.
  intros Htr Hc H Hr e He. destruct (Hc e He) as [H1 H2]. specialize (H e He).
  unfold accounted in *. rewrite !total_of_cons in *. rewrite (others_charged Hok Hmv x e Htr He).
  cbn zeta in H. destruct H as [H|[H Hin]].
  - split; [lia|]. intros Hn. rewrite <- H2; [lia|]. intros Hin. by apply Hn, Hr.
  - split; [lia|done].
Qed.

Lemma credits_same granted x x' :
  refused x' = refused x → held x' = held x → v_eps V' = v_eps V →
  (∀ e, charged e M' V' t' = charged e M V t) → (∀ e, reported e t' = reported e t) →
  transfers_ok (t :: O) M V x → credits_ok granted (t :: O) M V x → credits_ok granted (t' :: O) M' V' x'.
Proof.
  intros Hr Hh He Hc Hrep Htr Hok'. eapply credits_moves; [exact Htr|exact Hok'| |by rewrite Hr].
  intros e Hep. cbn zeta. left. unfold credits_of, holds. by rewrite He, Hc, Hrep, Hh.
Qed.

(** ** Who sends what is queued *)

Lemma starved_moves e p : v_eps V' !! e = v_eps V !! e → starved V e p → starved V' e p.
Proof.
  intros He (y & pkt & n & Hy & Hp & H1 & H2 & H3 & H4).
  pose proof (touch_static _ _ _ (mv_touches _ _ _ _ _ _ _ _ Hmv) p) as Hst. rewrite Hp in Hst.
  destruct (v_pkts V' !! p) as [pkt'|] eqn:Hp'; [|done]. exists y, pkt', n. rewrite He.
  split; [done|]. split; [done|]. split; [done|]. split; [done|]. split; [|done].
  rewrite <- H3. unfold creditsRequired. destruct pkt, pkt'; simplify_eq/=; done.
Qed.

Lemma wake_moves x x' :
  wake_ok (t :: O) M V x →
  (∀ e y', is_ep e = true → v_eps V' !! e = Some y' → TxProcessCount y' = 0 →
    contents M' (TxQueue e) = [] ∨ e ∈ stalled x' ∨ wakes e t' = true ∨
    (∃ p l, contents M' (TxQueue e) = p :: l ∧ starved V' e p) ∨
    (v_eps V' !! e = v_eps V !! e ∧ contents M' (TxQueue e) = contents M (TxQueue e) ∧
      (e ∈ stalled x → e ∈ stalled x') ∧ wakes e t = false)) →
  wake_ok (t' :: O) M' V' x'.
Proof.
  intros Hw H e y' He Hy' Hz. destruct (H e y' He Hy' Hz) as [H1|[H1|[H1|[H1|(H1 & H2 & H3 & H4)]]]].
  - by left.
  - by right; left.
  - right; right; left. cbn. by rewrite H1.
  - by right; right; right.
  - rewrite H1 in Hy'. destruct (Hw e y' He Hy' Hz) as [Ha|[Ha|[Ha|(p & l & Hl & Hst)]]].
    + left. by rewrite H2.
    + right; left. auto.
    + right; right; left. cbn in *. rewrite H4 in Ha. cbn in Ha. by rewrite Ha, orb_true_r.
    + right; right; right. exists p, l. rewrite H2. split; [done|]. by apply starved_moves.
Qed.

Lemma wake_same x x' :
  v_eps V' = v_eps V → (∀ e, contents M' (TxQueue e) = contents M (TxQueue e)) → stalled x' = stalled x →
  (∀ e, wakes e t = true → wakes e t' = true) →
  wake_ok (t :: O) M V x → wake_ok (t' :: O) M' V' x'.
Proof.
  intros He Hc Hs Hwk Hw. eapply wake_moves; [exact Hw|]. intros e y' Hep Hy' Hz. rewrite He, Hc, Hs.
  destruct (wakes e t) eqn:E; [right; right; left; by apply Hwk|right; right; right; right; auto].
Qed.
End step.
End parts.
