(* ===== verification/HtcSteps.v ===== *)
(** Each step of a task that only prepares packets or moves them keeps the
    channel's invariant. *)
From S2P Require Import Prelude Ring HtcQueue HtcTypes HtcSend HtcSystem HtcView HtcMoves HtcInv.

Lemma contents_insert M k l q : contents (<[k := l]> M) q = if decide (k = q) then l else contents M q.
Proof.
  unfold contents. case_decide as H; [subst; by rewrite lookup_insert_eq|by rewrite lookup_insert_ne].
Qed.
Lemma contents_insert_eq M k l : contents (<[k := l]> M) k = l.
Proof. rewrite contents_insert. by rewrite decide_True. Qed.
Lemma contents_insert_ne M k l q : k ≠ q → contents (<[k := l]> M) q = contents M q.
Proof. intros H. rewrite contents_insert. by rewrite decide_False. Qed.

(** What the invariant says of the queues a step uses. *)
Section facts.
Context {t : task} {O : list task} {M : queue_map} {V : view} {posted : list positive}.
Hypothesis Hok : packets_ok (t :: O) M V posted.
Implicit Types (q : htc_queue) (p : positive).

Lemma own_queue q : q ∈ task_queues t → M !! q = Some (contents M q).
Proof.
  intros Hq. destruct (qo_own _ _ _ (po_queues _ _ _ _ Hok) q) as [_ [l Hl]]; [cbn; apply elem_of_app; by left|].
  unfold contents. by rewrite Hl.
Qed.
Lemma own_is_local q : q ∈ task_queues t → ∃ k, q = LocalQueue k ∧ (k < v_next V)%positive.
Proof.
  intros Hq. destruct (qo_own _ _ _ (po_queues _ _ _ _ Hok) q) as [[k ->] [l Hl]]; [cbn; apply elem_of_app; by left|].
  exists k. split; [done|]. destruct (decide (v_next V ≤ k)%positive) as [H|H]; [|lia].
  rewrite (qo_local _ _ _ (po_queues _ _ _ _ Hok) k H) in Hl. done.
Qed.
Lemma own_nodup : NoDup (task_queues t).
Proof. pose proof (qo_nodup _ _ _ (po_queues _ _ _ _ Hok)) as H. cbn in H. by apply NoDup_app in H as (? & _). Qed.
Lemma tx_queue e : is_ep e = true → M !! TxQueue e = Some (contents M (TxQueue e)).
Proof. intros He. destruct (qo_ep _ _ _ (po_queues _ _ _ _ Hok) e He) as [[l Hl] _]. unfold contents. by rewrite Hl. Qed.
Lemma lookup_queue e : is_ep e = true → M !! TxLookupQueue e = Some (contents M (TxLookupQueue e)).
Proof. intros He. destruct (qo_ep _ _ _ (po_queues _ _ _ _ Hok) e He) as [_ [l Hl]]. unfold contents. by rewrite Hl. Qed.
Lemma local_fresh : M !! LocalQueue (v_next V) = None.
Proof. apply (qo_local _ _ _ (po_queues _ _ _ _ Hok)). lia. Qed.

Lemma own_fresh q : q ∈ task_queues t → q ≠ LocalQueue (v_next V).
Proof. intros Hq. destruct (own_is_local q Hq) as (k & -> & Hk). intros [=]. lia. Qed.
Lemma own_endpoint q q' : q ∈ task_queues t → endpoint_queue q' → q ≠ q'.
Proof. intros Hq (e & _ & He) ->. destruct (own_is_local _ Hq) as (k & -> & _). by destruct He. Qed.

(** Packets of a task's own are not queued at an endpoint. *)
Lemma own_not_queued q q' p : q ∈ task_queues t → p ∈ contents M q → endpoint_queue q' → p ∉ contents M q'.
Proof.
  intros Hq Hp Hq' Hp'. apply (own_endpoint q q' Hq Hq'). eapply contents_disjoint; [|done|done].
  exact (all_nodup Hok).
Qed.
Lemma loose_not_queued q' p : p ∈ loose t → p ∉ contents M q'.
Proof.
  intros Hp Hp'. pose proof (po_nodup _ _ _ _ Hok) as H. rewrite live_cons in H.
  apply NoDup_app in H as (H & _). apply NoDup_app in H as (_ & H & _). apply (H p); [by eapply contents_all|done].
Qed.
Lemma own_list_nodup q : q ∈ task_queues t → NoDup (contents M q).
Proof. intros Hq. eapply queue_nodup; [exact (all_nodup Hok)|by apply own_queue]. Qed.

Lemma queued_owned q p : p ∈ contents M q → packet_is owned_packet V p.
Proof.
  intros Hp. pose proof (po_owned _ _ _ _ Hok) as H. rewrite Forall_forall in H. apply H.
  rewrite live_cons, !elem_of_app. left; left. by eapply contents_all.
Qed.
Lemma loose_owned p : p ∈ loose t → packet_is owned_packet V p.
Proof.
  intros Hp. pose proof (po_owned _ _ _ _ Hok) as H. rewrite Forall_forall in H. apply H.
  rewrite live_cons, !elem_of_app. left; by right.
Qed.
Lemma queue_buffered q : Forall (buffered V) (contents M q).
Proof. apply Forall_forall. intros p Hp. by eapply packet_is_buffered, queued_owned. Qed.
Lemma queue_distinct q : distinct V (contents M q).
Proof.
  eapply distinct_sub; [exact (po_distinct _ _ _ _ Hok)|]. intros p Hp.
  rewrite live_cons, !elem_of_app. left; left. by eapply contents_all.
Qed.
End facts.

(** A queue that is neither local nor changed *)
Lemma queue_same {t t' O M M' V V' ps ds posted} q :
  packets_ok (t :: O) M V posted → moves t t' M M' V V' ps ds → (∀ k, q ≠ LocalQueue k) →
  (endpoint_queue q → contents M' q = contents M q) → contents M' q = contents M q.
Proof.
  intros Hok Hmv Hq Hsame. destruct (mv_rest _ _ _ _ _ _ _ _ Hmv q) as [?|[?|[Ho|Ho]]]; [done|auto| |].
  - destruct (own_is_local Hok q Ho) as (k & Hk & _). by destruct (Hq k).
  - destruct (qo_own _ _ _ (moves_queues Hok Hmv) q) as [[k Hk] _]; [cbn; apply elem_of_app; by left|].
    by destruct (Hq k).
Qed.

Section quiet.
Context {t t' : task} {O : list task} {M M' : queue_map} {V V' : view} {ps ds : list positive}
  {x : surroundings} {granted : Z → Z}.
Hypothesis Hinv : inv granted (t :: O) M V x.
Hypothesis Hmv : moves t t' M M' V V' ps ds.

(** A step that neither drains, nor has to do with transfers or credits. *)
Lemma quiet_step :
  v_eps V' = v_eps V →
  (∀ q, endpoint_queue q → contents M' q = contents M q ∧ ∀ p, p ∈ contents M q → p ∉ ps) →
  task_ok M' V' t' →
  (∀ e, drains e t' = drains e t ∧ search_part e M' t' = search_part e M t ∧ pending e V t' = pending e V t ∧
    (completes e t' = true → completes e t = true) ∧ charged e M' V' t' = charged e M V t ∧
    reported e t' = reported e t ∧ (wakes e t = true → wakes e t' = true)) →
  same_hif t t' →
  inv granted (t' :: O) M' V' x.
Proof.
  destruct Hinv as [H1 H2 H3 H4 H5 H6 H7]. intros He Hq Ht Hf Hh.
  assert (∀ e, contents M' (TxQueue e) = contents M (TxQueue e)) as Htx.
  { intros e. apply (queue_same _ H2 Hmv); [by intros|]. apply Hq. }
  assert (∀ e, contents M' (TxLookupQueue e) = contents M (TxLookupQueue e)) as Hlk.
  { intros e. apply (queue_same _ H2 Hmv); [by intros|]. apply Hq. }
  split.
  - eapply eps_moves; [exact Hmv|done|]. intros e y y' _ Hy Hy'. rewrite He in Hy'. by simplify_eq.
  - eapply packets_moves; [exact H2|exact Hmv|exact H5|done|]. intros q p Hep Hp.
    destruct (Hq q Hep) as [Hs Hn]. rewrite Hs in Hp. left; auto.
  - done.
  - eapply drains_same; [exact Hmv|done| |done]. intros e. by apply Hf.
  - eapply transfers_same; [exact H2|exact Hmv|done|done| | | |done|done]; intros e; apply (Hf e).
  - eapply credits_same; [exact H2|exact Hmv|done|done|done| | |done|done]; intros e; apply (Hf e).
  - eapply wake_same; [exact Hmv|done|done|done| |done]. intros e. by apply Hf.
Qed.
End quiet.

(** What is left to show of a step of [t]. *)
Definition keeps (granted : Z → Z) (env : hif_env) (t : task) (O : list task) (M : queue_map) (V : view)
    (x : surroundings) : Prop :=
  does (run_task env t) M V (λ t' M' V', inv granted (t' :: O) M' V' (after_view env t t' V x)).

(** Moves, from the queues that are new and those whose packets change. *)
Lemma moves_of {t t' O M M' V V' ps ds posted} (new changed : list htc_queue) :
  packets_ok (t :: O) M V posted →
  (v_next V ≤ v_next V')%positive →
  (∀ q, is_Some (M' !! q) ↔ q ∈ new ∨ is_Some (M !! q)) →
  (∀ q, q ∈ new → ∃ k, q = LocalQueue k ∧ (v_next V ≤ k < v_next V')%positive) →
  NoDup (task_queues t') → (∀ q, q ∈ task_queues t' → q ∈ new ∨ q ∈ task_queues t) →
  (∀ q, q ∉ changed → contents M' q = contents M q) →
  (∀ q, q ∈ changed → endpoint_queue q ∨ q ∈ task_queues t ∨ q ∈ task_queues t') →
  (∀ q, q ∈ task_queues t → q ∈ task_queues t' ∨ contents M' q = []) →
  all M ++ loose t ≡ₚ ds ++ all M' ++ loose t' → v_done V' = v_done V ++ ds →
  touches ps V V' →
  (∀ p, p ∈ ps → p ∈ loose t ∨ ∃ q, p ∈ contents M q ∧ ((∃ e, q = TxQueue e) ∨ q ∈ task_queues t)) →
  (∀ e b q, t = TSearch e b q → ps = []) →
  (∀ e, ep_static <$> v_eps V' !! e = ep_static <$> v_eps V !! e) →
  moves t t' M M' V V' ps ds.
Proof.
  intros Hok Hn Hdom Hnew Hnd Hown Hch Hchk Hdead Hl Hd Ht Hps Hse Hst. split; try done.
  - intros q Hq. apply Hdom. by right.
  - intros q Hq Hq'. apply Hdom in Hq' as [Hq'|[l Hq']]; [by apply Hnew|congruence].
  - intros q Hq. destruct (Hown q Hq) as [Hq'|Hq'].
    + split; [apply Hdom; by left|]. right. destruct (Hnew q Hq') as (k & -> & Hk).
      apply (qo_local _ _ _ (po_queues _ _ _ _ Hok)). lia.
    + split; [|by left]. apply Hdom. right. by rewrite (own_queue Hok).
  - intros q. destruct (decide (q ∈ changed)) as [Hc|Hc]; [right; by apply Hchk|left; by apply Hch].
Qed.

Section prepare.
Context {O : list task} {M : queue_map} {V : view} {x : surroundings} {granted : Z → Z}.
Implicit Types (env : hif_env) (q : htc_queue) (p : positive).

Lemma quiet_kind t t' :
  (∀ e, drains e t' = drains e t ∧ search_part e M t' = search_part e M t ∧ pending e V t' = pending e V t ∧
    (completes e t' = true → completes e t = true) ∧ charged e M V t' = charged e M V t ∧
    reported e t' = reported e t ∧ (wakes e t = true → wakes e t' = true)) →
  same_hif t t' →
  NoDup (task_queues t') → task_queues t' ⊆ task_queues t →
  (∀ q, q ∈ task_queues t → q ∈ task_queues t' ∨ contents M q = []) → loose t' = loose t →
  task_ok M V t' → inv granted (t :: O) M V x → inv granted (t' :: O) M V x.
Proof.
  intros Hf Hh Hnd Hsub Hdead Hl Hok Hinv. eapply quiet_step; [exact Hinv| |done| |done|done|done].
  - apply moves_same; try done. intros q Hq. by rewrite (own_queue (inv_packets _ _ _ _ _ Hinv) q Hq).
  - intros q _. split; [done|]. intros p _ Hp. by apply elem_of_nil in Hp.
Qed.

Lemma keep_send_multiple env q :
  inv granted (TSendMultiple q :: O) M V x → keeps granted env (TSendMultiple q) O M V x.
Proof.
  intros Hinv. pose proof (inv_packets _ _ _ _ _ Hinv) as Hok.
  pose proof (po_tasks _ _ _ _ Hok) as Ht. apply Forall_cons in Ht as [[_ (e & He & (y & Hy & Hs) & Hne & Hr & Hto)] _].
  assert (M !! q = Some (contents M q)) as Hq by (apply (own_queue Hok); by left).
  unfold keeps. cbn. unfold send_pkts_multiple. apply does_bind. eapply does_at_head; [exact Hq|].
  destruct (contents M q) as [|p l] eqn:El; [done|]. cbn [head].
  apply Forall_cons in Hr as [Hrp Hr]. apply Forall_cons in Hto as [Hte Hto]. 
  destruct Hrp as (pkt & s & Hp & Hsz & Hroom). unfold to_endpoint in Hte. rewrite Hp in Hte. injection Hte as Hte.
  apply does_bind. eapply does_get_pkt; [exact Hp|]. intros k Hk. norm.
  change (pkt_Endpoint (norm_pkt k)) with (pkt_Endpoint k) in Hte.
  apply does_bind. eapply does_get_ep; [rewrite Hte; exact Hy|]. intros z Hz. norm.
  rewrite (proj2 (Z.eqb_neq _ _)) by exact Hs.
  apply does_bind. eapply does_first; [exact Hq|]. apply does_ret. rewrite Hte. cbn [after_view].
  eapply quiet_kind; [| | | | | | |exact Hinv]; try done.
  - apply NoDup_singleton.
  - intros q' Hq'. by left.
  - split; [done|]. cbn. split; [done|]. exists [], (p :: l). rewrite El. split; [done|]. split; [done|].
    split; [constructor|]. constructor; [|done]. by exists (norm_pkt k), s.
Qed.

Lemma moves_view t t' V' ps :
  inv granted (t :: O) M V x →
  NoDup (task_queues t') → task_queues t' ⊆ task_queues t →
  (∀ q, q ∈ task_queues t → q ∈ task_queues t' ∨ contents M q = []) → loose t' = loose t →
  touches ps V V' → v_done V' = v_done V → v_next V' = v_next V → v_eps V' = v_eps V →
  (∀ p, p ∈ ps → ∃ q, p ∈ contents M q ∧ q ∈ task_queues t) → (∀ e b q, t ≠ TSearch e b q) →
  moves t t' M M V V' ps [].
Proof.
  intros Hinv Hnd Hsub Hdead Hl Ht Hd Hn He Hps Hse. pose proof (inv_packets _ _ _ _ _ Hinv) as Hok.
  split; try done.
  - lia.
  - intros q Hq [l Hl']. congruence.
  - intros q Hq. split; [|left; by apply Hsub]. rewrite (own_queue Hok); [done|]. by apply Hsub.
  - intros q. by left.
  - by rewrite Hl.
  - by rewrite Hd, app_nil_r.
  - intros p Hp. right. destruct (Hps p Hp) as (q & ? & ?). exists q. auto.
  - intros e b q ->. by destruct (Hse e b q).
  - intros e. by rewrite He.
Qed.

Lemma prepared_after V1 p : packet_is roomy V1 p → packet_is prepared (prepare V1 p) p.
Proof.
  intros (pkt & s & Hp & Hs & Hr). unfold prepare. rewrite Hp.
  exists (set_Flags (Z.lor (Flags pkt) HTC_TX_PACKET_FLAG_FIXUP_NETBUF) pkt), (pushed s). cbn.
  rewrite lookup_insert_eq, lookup_alter_eq, Hs. split; [done|]. split; [done|]. split; [cbn; lia|]. cbn.
  rewrite Z.land_lor_distr_l. intros H. apply Z.lor_eq_0_iff in H as [_ H]. done.
Qed.

Lemma keep_prepare env e q o :
  inv granted (TPrepare e q o :: O) M V x → keeps granted env (TPrepare e q o) O M V x.
Proof.
  intros Hinv. pose proof (inv_packets _ _ _ _ _ Hinv) as Hok.
  pose proof (po_tasks _ _ _ _ Hok) as Ht.
  apply Forall_cons in Ht as [[_ (He & l1 & l2 & Hl & Ho & H1 & H2)] _].
  assert (M !! q = Some (contents M q)) as Hq by (apply (own_queue Hok); by left).
  assert (q ∈ task_queues (TPrepare e q o)) as Hqo by by left.
  unfold keeps. cbn. unfold send_prepare. destruct l2 as [|p l2]; cbn in Ho; subst o.
  - apply does_ret. cbn [after_view]. rewrite app_nil_r in Hl.
    eapply quiet_kind; [| | | | | | |exact Hinv]; try done.
    + apply NoDup_singleton.
    + intros q' Hq'. by left.
    + split; [done|]. cbn. split; [done|]. unfold callers_ok. cbn. by rewrite Hl.
  - pose proof (own_list_nodup Hok q Hqo) as Hnd. rewrite Hl in Hnd.
    assert (p ∉ l1) as Hp1. { apply NoDup_app in Hnd as (_ & Hdj & _). intros H. apply (Hdj p H). left. }
    assert (p ∉ l2) as Hp2. { apply NoDup_app in Hnd as (_ & _ & Hnd). by apply NoDup_cons in Hnd as []. }
    apply Forall_cons in H2 as [Hp H2].
    destruct (inv_eps _ _ _ _ _ Hinv e He) as (y & Hy & _).
    assert (packet_is owned_packet V p) as Hown by (apply (queued_owned Hok q); rewrite Hl; set_solver).
    apply does_bind. eapply does_next; [by rewrite Hq, Hl|done|].
    apply does_bind. eapply does_prepare_packet; [exact Hy|done|done|]. apply does_ret. cbn [after_view].
    assert (moves (TPrepare e q (Some p)) (TPrepare e q (head l2)) M M V (prepare V p) [p] []) as Hmv.
    { apply moves_view; try done.
      - apply NoDup_singleton.
      - intros q' Hq'. by left.
      - apply prepare_touches.
      - unfold prepare. by destruct (v_pkts V !! p).
      - unfold prepare. by destruct (v_pkts V !! p).
      - unfold prepare. by destruct (v_pkts V !! p).
      - intros p' ->%list_elem_of_singleton. exists q. split; [|by left]. rewrite Hl. set_solver. }
    eapply quiet_step; [exact Hinv|exact Hmv| | | |done|done].
    + unfold prepare. by destruct (v_pkts V !! p).
    + intros q' Hq'. split; [done|]. intros p' Hp' ->%list_elem_of_singleton.
      revert Hp'. apply (own_not_queued Hok q); [by left| |done]. rewrite Hl. set_solver.
    + split; [done|]. cbn. split; [done|]. exists (l1 ++ [p]), l2. rewrite Hl, <- app_assoc.
      split; [done|]. split; [done|].
      assert (∀ P p', p' ∈ l1 ++ l2 → packet_is P V p' → packet_is P (prepare V p) p') as Hfr.
      { intros P p' Hp'. eapply packet_is_frame_in; [apply prepare_touches|apply (queue_distinct Hok q)| | |].
        - rewrite Hl. set_solver.
        - rewrite Hl. set_solver.
        - intros ->%list_elem_of_singleton. set_solver. }
      rewrite Forall_app, Forall_singleton, !Forall_forall in *. split; [split|].
      * intros p' Hp'. apply Hfr; [set_solver|auto].
      * by apply prepared_after.
      * intros p' Hp'. apply Hfr; [set_solver|auto].
Qed.

Lemma does_tx_resources env e (Q : Z → queue_map → view → Prop) M1 V1 :
  is_ep e = true → v_eps V1 = v_eps V → eps_ok V → (∀ r, Q r M1 V1) → does (HtcSend.tx_resources env e) M1 V1 Q.
Proof.
  intros He Hv Hep HQ. destruct (Hep e He) as (y & Hy & _). unfold HtcSend.tx_resources. apply does_bind.
  eapply does_get_ep; [by rewrite Hv|]. intros z _. by apply does_ret.
Qed.

(** Taking a local queue *)
Lemma new_queue_moves e k t' :
  inv granted (TTrySend e k :: O) M V x →
  let L := LocalQueue (v_next V) in
  (task_queues t' = L :: task_queues (TTrySend e k) ∨ task_queues t' = task_queues (TTrySend e k)) → loose t' = [] →
  moves (TTrySend e k) t' M (<[L := []]> M) V (set_v_next (Pos.succ (v_next V)) V) [] [].
Proof.
  intros Hinv L Hq Hl. pose proof (inv_packets _ _ _ _ _ Hinv) as Hok.
  pose proof (local_fresh Hok) as HL. fold L in HL.
  assert (contents M L = []) as HcL by (unfold contents; by rewrite HL).
  apply (moves_of [L] [] Hok).
  - cbn. lia.
  - intros q. rewrite lookup_insert_is_Some'. set_solver.
  - intros q ->%list_elem_of_singleton. exists (v_next V). split; [done|]. cbn. lia.
  - destruct Hq as [-> | ->]; [|by apply (own_nodup Hok)]. constructor; [|by apply (own_nodup Hok)].
    intros Hin. by apply (own_fresh Hok L Hin).
  - intros q. destruct Hq as [-> | ->]; [|by right]. rewrite elem_of_cons, list_elem_of_singleton. done.
  - intros q _. rewrite contents_insert. case_decide; [by subst|done].
  - intros q Hq'. by apply elem_of_nil in Hq'.
  - intros q Hq'. left. destruct Hq as [-> | ->]; [by right|done].
  - rewrite Hl. cbn. rewrite all_new_empty by (unfold contents in HcL; done). done.
  - cbn. by rewrite app_nil_r.
  - by apply touches_same.
  - intros p Hp. by apply elem_of_nil in Hp.
  - done.
  - done.
Qed.

Lemma keep_try_send env e k :
  inv granted (TTrySend e k :: O) M V x → keeps granted env (TTrySend e k) O M V x.
Proof.
  intros Hinv. pose proof (inv_packets _ _ _ _ _ Hinv) as Hok. pose proof (inv_eps _ _ _ _ _ Hinv) as Hep.
  pose proof (po_tasks _ _ _ _ Hok) as Ht. apply Forall_cons in Ht as [[Hk [He Hcall]] _]. cbn in Hk.
  set (L := LocalQueue (v_next V)). set (V1 := set_v_next (Pos.succ (v_next V)) V).
  pose proof (local_fresh Hok) as HL. fold L in HL.
  assert (∀ q, contents (<[L := []]> M) q = contents M q) as Hsame.
  { intros q. rewrite contents_insert. case_decide; [|done]. subst q. unfold contents. by rewrite HL. }
  assert (∀ t', (task_queues t' = L :: task_queues (TTrySend e k) ∨ task_queues t' = task_queues (TTrySend e k)) →
    loose t' = [] → task_ok (<[L := []]> M) V1 t' → same_hif (TTrySend e k) t' →
    (∀ e', drains e' t' = 0 ∧ search_part e' (<[L := []]> M) t' = [] ∧ pending e' V t' = [] ∧ completes e' t' = false ∧
      charged e' (<[L := []]> M) V1 t' = 0 ∧ reported e' t' = cont_report e' k ∧
      (wakes e' (TTrySend e k) = true → wakes e' t' = true)) →
    inv granted (t' :: O) (<[L := []]> M) V1 x) as Hgoal.
  { intros t' Hq Hl Hok' Hh Hf. eapply quiet_step; [exact Hinv|by apply new_queue_moves|done| |done| |].
    - intros q _. split; [apply Hsame|]. intros p _ Hp. by apply elem_of_nil in Hp.
    - intros e'. destruct (Hf e') as (-> & -> & -> & -> & -> & -> & Hw). done.
    - done. }
  unfold keeps. cbn [run_task]. unfold try_send. apply does_bind, does_new_queue. fold L V1.
  destruct (callers_queue k) as [callers|] eqn:Ek.
  - destruct k as [|e' q'|rpt tr|i]; try done. injection Ek as ->. destruct (Hep e He) as (y & Hy & _).
    assert (callers ∈ task_queues (TTrySend e (KLeftover e' callers))) as Hq by by left.
    assert (<[L := []]> M !! callers = Some (contents M callers)) as Hc.
    { rewrite lookup_insert_ne; [by apply (own_queue Hok)|]. apply not_eq_sym, (own_fresh Hok callers Hq). }
    assert (<[L := []]> M !! TxQueue e = Some (contents M (TxQueue e))) as Htx
      by (rewrite lookup_insert_ne by done; by apply (tx_queue Hok)).
    apply does_bind. eapply does_empty; [exact Hc|]. case_bool_decide as Hne.
    + apply does_bind, does_unseen; [by intros t|]. apply does_ret. cbn [after_view resume].
      apply Hgoal; try done; [by right|].
      intros e1. repeat (split; [done|]). cbn. by rewrite andb_false_r.
    + apply does_bind. eapply does_get_ep; [exact Hy|]. intros z _.
      apply does_bind. eapply does_depth; [exact Htx|]. apply does_ret. cbn [after_view].
      apply Hgoal; try done; [by left| |].
      * split; [done|]. cbn. rewrite Hsame. split; [done|]. split; [unfold contents; by rewrite HL|]. split; [done|].
        unfold callers_ok in *. cbn in *. by rewrite Hsame.
      * intros e1. repeat (split; [done|]). cbn. by rewrite andb_false_r.
  - apply does_bind, (does_tx_resources env e); [done|done|done|]. intros r. apply does_ret. cbn [after_view].
    apply Hgoal; try done.
    + left. cbn. by rewrite Ek.
    + split; [done|]. cbn. rewrite Hsame. unfold contents. by rewrite HL.
    + intros e'. split; [done|]. repeat (split; [done|]). cbn. by rewrite Ek, andb_true_r.
Qed.

Lemma offer_after env V1 p : packet_is prepared V1 p →
  packet_is (if send_full_drops env p then λ _ _, True else headed) (offer env V1 p) p.
Proof.
  intros (pkt & s & Hp & Hs & Hd & Hf). unfold offer, restored. rewrite Hp, (proj2 (Z.eqb_neq _ _) Hf).
  set (pkt' := set_Flags _ pkt). destruct (send_full_drops env p).
  - exists pkt', (pulled s). change (pNetBufContext pkt') with (pNetBufContext pkt). cbn.
    by rewrite lookup_insert_eq, lookup_alter_eq, Hs.
  - exists pkt', (pushed (pulled s)). unfold push_header. cbn. rewrite !lookup_insert_eq. cbn.
    change (pNetBufContext pkt') with (pNetBufContext pkt). rewrite lookup_insert_eq, !lookup_alter_eq, Hs. split; [done|]. split; [done|]. unfold headed. cbn. lia.
Qed.

Lemma offer_fields env V1 l : v_eps (foldl (offer env) V1 l) = v_eps V1 ∧
  v_done (foldl (offer env) V1 l) = v_done V1 ∧ v_next (foldl (offer env) V1 l) = v_next V1.
Proof.
  revert V1. induction l as [|p l IH]; intros V1; [done|]. cbn. destruct (IH (offer env V1 p)) as (-> & -> & ->).
  unfold offer. destruct (send_full_drops env p);
    [by rewrite restored_eps, restored_done, restored_next|].
  unfold push_header. destruct (v_pkts (restored V1 p) !! p); cbn;
    by rewrite restored_eps, restored_done, restored_next.
Qed.

(** The packets that were kept have a header, in front of the data or in the first fragment. *)
Lemma admitted_headed env V1 good rest :
  NoDup (good ++ rest) → distinct V1 (good ++ rest) → Forall (packet_is prepared V1) (good ++ rest) →
  Forall (packet_is headed (foldl (offer env) V1 rest)) (good ++ keeps_part env rest).
Proof.
  intros Hnd Hd Hp. apply NoDup_app in Hnd as (_ & Hdj & Hnd). apply Forall_app in Hp as [Hg Hr].
  rewrite Forall_forall in *. intros p [Hpg|Hpk]%elem_of_app.
  - eapply packet_is_frame_in; [apply touches_foldl, offer_touches|exact Hd|set_solver|set_solver|by apply Hdj|].
    eapply packet_is_mono; [by apply Hg|]. by intros ? ? [? _].
  - apply list_elem_of_filter in Hpk as [Hk Hin].
    pose proof (foldl_each (offer env) prepared (λ p, if send_full_drops env p then λ _ _, True else headed)
      V1 rest (offer_touches env) (offer_after env) Hnd) as H.
    rewrite Forall_forall in H. assert (distinct V1 rest) as Hd' by (eapply distinct_sub; [exact Hd|set_solver]).
    specialize (H Hd' Hr p Hin). cbn in H. by destruct (send_full_drops env p).
Qed.

Section admission.
Context {env : hif_env} {e e' : Z} {sq callers : htc_queue} {full : bool} {good rest : list positive} {b : bool}.
Abbreviation t := (TAdmit e sq full (KLeftover e' callers)).
Abbreviation V' := (foldl (offer env) V rest).
Abbreviation M' := (<[callers := drops_part env rest]> (<[sq := good ++ keeps_part env rest]> M)).
Hypothesis Hinv : inv granted (t :: O) M V x.
Hypothesis Hsplit : contents M callers = good ++ rest.
Hypothesis Hb : b = false → good ++ keeps_part env rest = [].
Let Hok := inv_packets _ _ _ _ _ Hinv.

Lemma admit_own : sq ∈ task_queues t ∧ callers ∈ task_queues t ∧ callers ≠ sq.
Proof.
  split; [by left|]. split; [right; by left|]. pose proof (own_nodup Hok) as Hnd.
  intros Heq. cbn in Hnd. rewrite Heq in Hnd. apply NoDup_cons in Hnd as [Hn _]. apply Hn. by left.
Qed.

Lemma admit_nil : contents M sq = [].
Proof. pose proof (po_tasks _ _ _ _ Hok) as Ht. by apply Forall_cons in Ht as [[_ (_ & ? & _)] _]. Qed.

Lemma admit_rest p : p ∈ rest → p ∈ contents M callers.
Proof. rewrite Hsplit. set_solver. Qed.

(** The tasks that may follow: the callers' queue is theirs, and the local one when
    it is not empty. *)
Definition admit_next (t' : task) : Prop :=
  (task_queues t' = task_queues t ∨ (task_queues t' = [callers] ∧ b = false)) ∧ loose t' = [].

Lemma admit_moves t' : admit_next t' → moves t t' M M' V V' rest [].
Proof.
  intros [Hq Hl]. destruct admit_own as (Hsqo & Hco & Hne). destruct (offer_fields env V rest) as (Hve & Hvd & Hvn).
  pose proof (own_queue Hok _ Hsqo) as Hsqm. rewrite admit_nil in Hsqm. pose proof (own_queue Hok _ Hco) as Hcm.
  pose proof (own_nodup Hok) as Hnd. apply (moves_of [] [callers; sq] Hok); try done.
  - rewrite Hvn. lia.
  - intros q. rewrite !lookup_insert_is_Some'. split; [|set_solver].
    intros [<-|[<-|?]]; right; [by rewrite Hcm|by rewrite Hsqm|done].
  - intros q Hq'. by apply elem_of_nil in Hq'.
  - destruct Hq as [-> |[-> _]]; [done|apply NoDup_singleton].
  - intros q Hq'. right. destruct Hq as [Hq|[Hq _]]; rewrite Hq in Hq'; [done|].
    by apply list_elem_of_singleton in Hq' as ->.
  - intros q Hq'. rewrite !contents_insert_ne; [done|set_solver|set_solver].
  - intros q Hq'. right; left. set_solver.
  - intros q Hq'. destruct Hq as [-> |[-> Hbf]]; [by left|]. cbn in Hq'.
    apply elem_of_cons in Hq' as [->|Hq']; [right|by left].
    rewrite contents_insert_ne, contents_insert_eq by done. by apply Hb.
  - rewrite Hl. cbn. rewrite !app_nil_r. symmetry. eapply all_replace2; [done|exact Hcm|done|].
    rewrite app_nil_r, Hsplit. unfold drops_part, keeps_part.
    rewrite app_assoc, (Permutation_app_comm _ good), <- app_assoc. by rewrite (filter_app_complement (λ p, send_full_drops env p = true)).
  - by rewrite Hvd, app_nil_r.
  - apply touches_foldl, offer_touches.
  - intros p Hp. right. exists callers. split; [by apply admit_rest|by right].
  - intros e1. by rewrite Hve.
Qed.

Lemma admit_inv t' : admit_next t' → task_ok M' V' t' → same_hif t t' →
  (∀ e', drains e' t' = 0 ∧ search_part e' M' t' = [] ∧ pending e' V t' = [] ∧ completes e' t' = false ∧
    charged e' M' V' t' = 0 ∧ reported e' t' = 0) → inv granted (t' :: O) M' V' x.
Proof.
  intros Hn Hok' Hh Hf. destruct admit_own as (Hsqo & Hco & Hne). destruct (offer_fields env V rest) as (Hve & _).
  eapply quiet_step; [exact Hinv|by apply admit_moves|done| |done| |].
  - intros q Hq'. rewrite !contents_insert_ne by (by eapply (own_endpoint Hok)). split; [done|].
    intros p Hp Hpr. revert Hp. apply (own_not_queued Hok callers); [done|by apply admit_rest|done].
  - intros e1. destruct (Hf e1) as (-> & -> & -> & -> & -> & ->). done.
  - done.
Qed.
End admission.

Lemma keep_admit env e sq full k :
  inv granted (TAdmit e sq full k :: O) M V x → keeps granted env (TAdmit e sq full k) O M V x.
Proof.
  intros Hinv. pose proof (inv_packets _ _ _ _ _ Hinv) as Hok. pose proof (inv_eps _ _ _ _ _ Hinv) as Hep.
  pose proof (po_tasks _ _ _ _ Hok) as Ht. apply Forall_cons in Ht as [[Hk (He & Hsq & Hc & Hcall)] _]. cbn in Hk.
  destruct k as [|e' callers|rpt tr|i]; try done. clear Hc. unfold callers_ok in Hcall. cbn in Hcall, Hk.
  destruct (admit_own Hinv) as (Hsqo & Hco & Hne).
  pose proof (own_queue Hok _ Hsqo) as Hsqm. rewrite Hsq in Hsqm. pose proof (own_queue Hok _ Hco) as Hcm.
  destruct (Hep e He) as (y & Hy & _).
  unfold keeps. cbn [run_task]. unfold try_admit. apply does_bind. eapply does_deref; [done|].
  apply does_bind. eapply does_admit; [exact Hne|exact Hcm|exact Hsqm|by apply (tx_queue Hok)|exact Hy
    |exact (all_nodup Hok)|exact (queue_distinct Hok callers)|exact Hcall|].
  intros good rest b Hsplit Hb. destruct (offer_fields env V rest) as (Hve & _). destruct b.
  - apply does_bind, (does_tx_resources env e); [done|by rewrite Hve|done|]. intros r. apply does_ret. cbn [after_view].
    eapply (admit_inv Hinv Hsplit Hb); try done; [split; [by left|done]|]. split; [done|]. cbn. split; [done|].
    rewrite contents_insert_ne, contents_insert_eq by done. apply admitted_headed; rewrite <- Hsplit; first [exact (own_list_nodup Hok _ Hco)|exact (queue_distinct Hok callers)|exact Hcall].
  - apply does_ret. cbn [after_view resume]. eapply (admit_inv Hinv Hsplit Hb); try done. split; [by right|done].
Qed.
End prepare.
