(* ===== verification/HtcDrain.v ===== *)
(** The steps of the drain loop of [htc_try_send] keep the channel's invariant. *)
From S2P Require Import Prelude Ring HtcQueue HtcTypes HtcSend HtcSystem HtcView HtcMoves HtcInv HtcSteps.

(** The drain loop is over for endpoint [e]. *)
Definition set_count (e c : Z) (V : view) : view :=
  match v_eps V !! e with
  | Some y => set_v_eps (<[e := set_TxProcessCount c y]> (v_eps V)) V
  | None => V
  end.

Section charge.
Implicit Types (V : view) (p : positive) (l : list positive).

Lemma charge_foldl_nbs e V l : v_nbs (foldl (charge e) V l) = v_nbs V ∧
  v_done (foldl (charge e) V l) = v_done V ∧ v_next (foldl (charge e) V l) = v_next V.
Proof.
  revert V. induction l as [|p l IH]; intros V; [done|]. cbn. destruct (IH (charge e V p)) as (-> & -> & ->).
  unfold charge. destruct (v_eps V !! e); [|done]. by destruct (v_pkts V !! p).
Qed.

Lemma charge_foldl_ep e e' V l : e' ≠ e → v_eps (foldl (charge e) V l) !! e' = v_eps V !! e'.
Proof.
  intros Hne. revert V. induction l as [|p l IH]; intros V; [done|]. cbn. rewrite IH.
  unfold charge. destruct (v_eps V !! e); [|done]. destruct (v_pkts V !! p); [|done].
  cbn. by rewrite lookup_insert_ne.
Qed.

Lemma charge_headed e V l p : packet_is headed V p → packet_is headed (foldl (charge e) V l) p.
Proof.
  intros (pkt & s & Hp & Hs & Hd).
  pose proof (touches_foldl (charge e) V l (charge_touches e)) as Ht.
  pose proof (touch_static _ _ _ Ht p) as Hst. rewrite Hp in Hst.
  destruct (v_pkts (foldl (charge e) V l) !! p) as [pkt'|] eqn:Hp'; [|done].
  exists pkt', s. split; [done|]. split; [|done]. rewrite (proj1 (charge_foldl_nbs e V l)).
  destruct pkt, pkt'; simplify_eq/=; done.
Qed.

Lemma charge_used_ne e V p p' : p' ≠ p → used (charge e V p) p' = used V p'.
Proof.
  intros Hne. unfold used, charge. destruct (v_eps V !! e); [|done]. destruct (v_pkts V !! p); [|done].
  cbn. by rewrite lookup_insert_ne.
Qed.

(** What is taken from the credits of the endpoint is charged to the packets. *)
Lemma charge_credits e V p y : v_eps V !! e = Some y → is_Some (v_pkts V !! p) →
  credits_of (charge e V p) e + used (charge e V p) p = credits_of V e ∧ 0 ≤ used (charge e V p) p.
Proof.
  intros Hy [pkt Hp]. unfold credits_of, used. rewrite (charge_run e V p y pkt Hy Hp), Hy. cbn.
  rewrite !lookup_insert_eq. cbn. split; [lia|apply used_for_nonneg].
Qed.

Lemma charge_foldl_used_ne e V l p : p ∉ l → used (foldl (charge e) V l) p = used V p.
Proof.
  revert V. induction l as [|p' l IH]; intros V Hp; [done|]. cbn.
  rewrite IH by set_solver. apply charge_used_ne. set_solver.
Qed.

Lemma charge_foldl_credits e V l y : v_eps V !! e = Some y → NoDup l →
  Forall (λ p, is_Some (v_pkts V !! p)) l →
  let V' := foldl (charge e) V l in
  credits_of V' e + total (used V') l = credits_of V e ∧ Forall (has_credits V') l.
Proof.
  revert V y. induction l as [|p l IH]; intros V y Hy Hnd Hl; [cbn; split; [lia|done]|].
  apply NoDup_cons in Hnd as [Hp Hnd]. apply Forall_cons in Hl as [Hpk Hl]. cbn [foldl].
  destruct (charge_credits e V p y Hy Hpk) as [Hc Hu].
  destruct Hpk as [pkt Hpk].
  edestruct (IH (charge e V p)) as [H1 H2]; [rewrite (charge_run e V p y pkt Hy Hpk); cbn; by rewrite lookup_insert_eq|done| |].
  { eapply Forall_impl; [exact Hl|]. intros p'. apply charge_pkts. }
  assert (used (foldl (charge e) (charge e V p) l) p = used (charge e V p) p) as Hup by (by apply charge_foldl_used_ne).
  split; [rewrite total_of_cons, Hup; lia|]. constructor; [|done]. unfold has_credits. by rewrite Hup.
Qed.
End charge.

(** ** One round *)

Section round.
Implicit Types (M : queue_map) (V : view) (sq : htc_queue).

Lemma does_stop e k M V y (Q : task → queue_map → view → Prop) :
  v_eps V !! e = Some y → Q (resume k) M (set_count e 0 V) →
  does (op (upd_ep e (set_TxProcessCount 0));; mret (resume k)) M V Q.
Proof.
  intros Hy HQ. unfold set_count in HQ. rewrite Hy in HQ. apply does_bind.
  eapply does_upd_ep; [exact Hy| |by apply does_ret]. intros z <-. by destruct z.
Qed.

Lemma does_drain_round env e sq r k M V y tx (Q : task → queue_map → view → Prop) :
  let L := LocalQueue (v_next V) in
  let V1 := set_v_next (Pos.succ (v_next V)) V in
  M !! L = None → M !! sq = Some [] → sq ≠ TxQueue e → M !! TxQueue e = Some tx →
  v_eps V !! e = Some y → NoDup (all M) → Forall (buffered V) tx →
  (TxCreditFlowEnabled y = true → u32 (TxCreditSize y) ≠ 0) → 0 ≤ TxCredits y →
  (tx = [] → Q (resume k) M (set_count e 0 V)) →
  (∀ tx', tx' = promote V e tx → round_stops env V1 e y r tx' →
    Q (resume k) (<[TxQueue e := tx']> (<[sq := []]> (<[L := []]> M))) (set_count e 0 V1)) →
  (∀ taken tx', taken ++ tx' = promote V e tx → taken ≠ [] → let V' := foldl (charge e) V1 taken in
    0 ≤ credits_of V' e →
    Q (TIssue e sq k) (<[TxQueue e := tx']> (<[sq := taken]> (<[L := []]> M))) V') →
  does (drain_round env e sq r k) M V Q.
Proof.
  intros L V1 HL Hsq Hne Htx Hy Hnd Hbuf Hsz Hc HQ1 HQ2 HQ3. unfold drain_round.
  apply does_bind. eapply does_depth; [exact Htx|]. destruct (Z.eqb_spec (Z.of_nat (length tx)) 0) as [H0|H0].
  - eapply does_stop; [exact Hy|]. apply HQ1. by destruct tx.
  - apply does_bind. eapply does_get_ep; [exact Hy|]. intros z Hz. norm. apply does_bind.
    change (TxCreditFlowEnabled z) with (TxCreditFlowEnabled (norm_ep z)).
    eapply does_get; [exact HL|exact Hsq|done|exact Htx|exact Hy|done|done|done|done|].
    intros taken tx' Heq V' Hc' Hst. fold L V1 in V', Hst |- *.
    apply does_bind. eapply does_depth; [rewrite lookup_insert_ne by done; by rewrite lookup_insert_eq|].
    destruct (Z.eqb_spec (Z.of_nat (length taken)) 0) as [Ht|Ht].
    + destruct taken; [|done]. eapply does_stop; [exact Hy|]. apply HQ2; [done|by apply Hst].
    + apply does_ret. apply HQ3; [done|by destruct taken|done].
Qed.
End round.

Section resume.
Implicit Types (M : queue_map) (V : view) (k : cont).

Lemma resume_queues k : task_queues (resume k) = match callers_queue k with Some q => [q] | None => [] end.
Proof. by destruct k. Qed.

Lemma resume_ok M V k : cont_ok k → task_ok M V (resume k).
Proof. destruct k; cbn; intros H; (split; [done|]); done. Qed.

Lemma resume_plain e M V k : drains e (resume k) = 0 ∧ search_part e M (resume k) = [] ∧ pending e V (resume k) = [] ∧
  completes e (resume k) = false ∧ charged e M V (resume k) = 0 ∧ reported e (resume k) = cont_report e k ∧
  wakes e (resume k) = false ∧ hif_packet (resume k) = None ∧ loose (resume k) = [].
Proof. unfold reported. destruct k; cbn; rewrite ?Z.add_0_r; repeat split. Qed.

Lemma set_count_lookup e c V e' y' : v_eps (set_count e c V) !! e' = Some y' →
  ∃ y, v_eps V !! e' = Some y ∧ y' = if decide (e' = e) then set_TxProcessCount c y else y.
Proof.
  unfold set_count. destruct (v_eps V !! e) as [y|] eqn:E; cbn.
  - destruct (decide (e' = e)) as [->|Hne].
    + rewrite lookup_insert_eq. intros [= <-]. eauto.
    + rewrite lookup_insert_ne by done. eauto.
  - intros H. exists y'. split; [done|]. case_decide; [congruence|done].
Qed.

Lemma set_count_static e c V e' : ep_static <$> v_eps (set_count e c V) !! e' = ep_static <$> v_eps V !! e'.
Proof.
  unfold set_count. destruct (v_eps V !! e) as [y|] eqn:E; [|done]. cbn.
  destruct (decide (e = e')) as [<-|Hne]; [by rewrite lookup_insert_eq, E|by rewrite lookup_insert_ne].
Qed.

Lemma set_count_credits e c V e' : credits_of (set_count e c V) e' = credits_of V e'.
Proof.
  unfold credits_of, set_count. destruct (v_eps V !! e) as [y|] eqn:E; [|done]. cbn.
  destruct (decide (e = e')) as [<-|Hne]; [by rewrite lookup_insert_eq, E|by rewrite lookup_insert_ne].
Qed.

Lemma set_count_others e c V : v_pkts (set_count e c V) = v_pkts V ∧ v_nbs (set_count e c V) = v_nbs V ∧
  v_done (set_count e c V) = v_done V ∧ v_next (set_count e c V) = v_next V.
Proof. unfold set_count. by destruct (v_eps V !! e). Qed.

Lemma set_count_starved e c V p : starved V e p → starved (set_count e c V) e p.
Proof.
  intros (y & pkt & n & Hy & Hp & H1 & H2 & H3 & H4). exists (set_TxProcessCount c y), pkt, n.
  destruct (set_count_others e c V) as (-> & _). unfold set_count. rewrite Hy. cbn.
  rewrite lookup_insert_eq. done.
Qed.
End resume.

Section stop.
Context {t : task} {O : list task} {M M' : queue_map} {V V1 : view} {x : surroundings} {granted : Z → Z}
  {e : Z} {k : cont}.
Hypothesis Hinv : inv granted (t :: O) M V x.
Hypothesis Hdr : ∀ e', drains e' t = c_bool (e =? e').
Hypothesis Hk : task_cont t = k.
Hypothesis Hplain : ∀ e', search_part e' M t = [] ∧ pending e' V t = [] ∧ charged e' M V t = 0 ∧
  reported e' t = cont_report e' k ∧ wakes e' t = false.
Hypothesis Hloose : loose t = [].
Hypothesis Hep : is_ep e = true.
Hypothesis HV1 : v_pkts V1 = v_pkts V ∧ v_nbs V1 = v_nbs V ∧ v_done V1 = v_done V ∧ v_eps V1 = v_eps V.

(** Someone who drains an endpoint is the only one. *)
Lemma drainer_alone y : v_eps V !! e = Some y → TxProcessCount y = 1 ∧ total (drains e) O = 0.
Proof.
  intros Hy. destruct (inv_drains _ _ _ _ _ Hinv e y Hep Hy) as [H1 H2]. rewrite total_of_cons, Hdr, Z.eqb_refl in H1.
  cbn in H1. assert (0 ≤ total (drains e) O); [|lia]. apply total_of_nonneg. intros t1 _.
  destruct t1; cbn; unfold c_bool; try case_match; lia.
Qed.

(** The end of a drain loop *)
Lemma stop_step x' :
  moves t (resume k) M M' V (set_count e 0 V1) [] [] →
  (∀ q p, endpoint_queue q → p ∈ contents M' q → p ∈ contents M q) →
  (∀ e', e' ≠ e → contents M' (TxQueue e') = contents M (TxQueue e')) →
  (∀ e', contents M' (TxLookupQueue e') = contents M (TxLookupQueue e')) →
  same_flight x x' → held x' = held x → posted x' = posted x → refused x' = refused x →
  (∀ e', e' ≠ e → e' ∈ stalled x → e' ∈ stalled x') →
  contents M' (TxQueue e) = [] ∨ e ∈ stalled x' ∨
    (∃ p l, contents M' (TxQueue e) = p :: l ∧ starved V1 e p) →
  inv granted (resume k :: O) M' (set_count e 0 V1) x'.
Proof.
  destruct Hinv as [H1 H2 H3 H4 H5 H6 H7]. destruct HV1 as (Hvp & Hvn & Hvd & Hve).
  intros Hmv Hq Htx Hlk Hx1 Hx2 Hx3 Hx4 Hst Hwake.
  assert (cont_ok k) as Hck.
  { pose proof (po_tasks _ _ _ _ H2) as Ht. apply Forall_cons in Ht as [[Hc _] _]. by rewrite Hk in Hc. }
  split.
  - eapply eps_moves; [exact Hmv|done|]. intros e' y y' _ Hy Hy' Hc.
    apply set_count_lookup in Hy' as (z & Hz & ->). rewrite Hve in Hz. simplify_eq. by case_decide.
  - rewrite Hx3. eapply packets_moves; [exact H2|exact Hmv|exact H5|by apply resume_ok|].
    intros q p Hep' Hp. left. split; [by apply Hq|]. intros ?%elem_of_nil. done.
  - by rewrite (proj1 Hx1).
  - eapply drains_moves; [exact Hmv|done|]. intros e' y y' He' Hy Hy' Hle Htot.
    destruct (resume_plain e' M' V k) as (-> & _). rewrite Hdr in *.
    apply set_count_lookup in Hy' as (z & Hz & ->). rewrite Hve in Hz. simplify_eq.
    destruct (decide (e' = e)) as [->|Hne].
    + destruct (drainer_alone _ Hy) as [Hz _]. rewrite Z.eqb_refl. cbn. lia.
    + rewrite (proj2 (Z.eqb_neq e e')) in * by done. cbn in *. lia.
  - eapply transfers_same; [exact H2|exact Hmv|done|done| | | | |exact H5].
    + intros e'. destruct (resume_plain e' M' V k) as (_ & -> & _). by rewrite (proj1 (Hplain e')).
    + intros e'. destruct (resume_plain e' M' V k) as (_ & _ & -> & _). by rewrite (proj1 (proj2 (Hplain e'))).
    + intros e'. destruct (resume_plain e' M' V k) as (_ & _ & _ & -> & _). done.
    + by destruct k.
  - eapply credits_moves; [exact H2|exact Hmv|exact H5|done| |by rewrite Hx4]. intros e' He'. cbn zeta. left.
    rewrite set_count_credits. destruct (resume_plain e' M' (set_count e 0 V1) k) as (_ & _ & _ & _ & -> & -> & _).
    destruct (Hplain e') as (_ & _ & -> & -> & _). unfold credits_of, holds. by rewrite Hve, Hx2.
  - eapply wake_moves; [exact Hmv|exact H7|]. intros e' y' He' Hy' Hz.
    apply set_count_lookup in Hy' as (z & Hz' & ->). rewrite Hve in Hz'.
    destruct (decide (e' = e)) as [->|Hne].
    + destruct Hwake as [?|[?|(p & l & Hl & Hs)]]; [by left|by right; left|].
      right; right; right; left. exists p, l. split; [done|]. by apply set_count_starved.
    + right; right; right; right. split; [|split; [by apply Htx|split; [by apply Hst|apply (Hplain e')]]].
      unfold set_count. destruct (v_eps V1 !! e); cbn; [rewrite lookup_insert_ne by done|]; by rewrite Hve.
Qed.
End stop.

Section drain.
Context {O : list task} {M : queue_map} {V : view} {x : surroundings} {granted : Z → Z}.
Implicit Types (sq : htc_queue) (k : cont).

(** The queues after a round *)
Definition after_round (e : Z) sq (taken tx' : list positive) (L : htc_queue) (M : queue_map) : queue_map :=
  <[TxQueue e := tx']> (<[sq := taken]> (<[L := []]> M)).

Lemma round_moves t t' e sq (taken tx' : list positive) V' :
  packets_ok (t :: O) M V (posted x) → is_ep e = true → sq ∈ task_queues t → contents M sq = [] →
  taken ++ tx' = promote V e (contents M (TxQueue e)) →
  (task_queues t' = task_queues t ∨ taken = [] ∧ (sq :: task_queues t' = task_queues t)) →
  loose t = [] → loose t' = [] → (∀ e b q, t ≠ TSearch e b q) →
  touches taken V V' → v_done V' = v_done V → v_next V' = Pos.succ (v_next V) →
  (∀ e, ep_static <$> v_eps V' !! e = ep_static <$> v_eps V !! e) →
  moves t t' M (after_round e sq taken tx' (LocalQueue (v_next V)) M) V V' taken [].
Proof.
  intros Hok He Hsq Hc Heq Hqs Hl Hl' Hse Ht Hd Hn Hst. set (L := LocalQueue (v_next V)).
  pose proof (own_queue Hok sq Hsq) as Hsqm. rewrite Hc in Hsqm. pose proof (tx_queue Hok e He) as Htx.
  pose proof (local_fresh Hok) as HL. fold L in HL.
  assert (L ≠ sq) as HLs by (intros <-; congruence).
  assert (endpoint_queue (TxQueue e)) as Hepq by (exists e; eauto).
  pose proof (own_endpoint Hok sq _ Hsq Hepq) as Hsqe.
  pose proof (own_nodup Hok) as Hnd.
  apply (moves_of [L] [TxQueue e; sq] Hok); try done.
  - rewrite Hn. lia.
  - intros q. unfold after_round. rewrite !lookup_insert_is_Some'.
    split; [|set_solver]. intros [<-|[<-|[<-|?]]]; [right; by rewrite Htx|right; by rewrite Hsqm|left; by left|by right].
  - intros q ->%list_elem_of_singleton. exists (v_next V). split; [done|]. rewrite Hn. lia.
  - destruct Hqs as [-> |[_ Hqs]]; [done|]. rewrite <- Hqs in Hnd. by apply NoDup_cons in Hnd as [].
  - intros q Hq. right. destruct Hqs as [Hqs|[_ Hqs]]; [by rewrite <- Hqs|]. rewrite <- Hqs. by right.
  - intros q Hq. apply not_elem_of_cons in Hq as [Hq1 Hq]. apply not_elem_of_cons in Hq as [Hq2 _].
    unfold after_round. rewrite (contents_insert_ne _ (TxQueue e)), (contents_insert_ne _ sq) by done.
    rewrite contents_insert. case_decide; [|done]. subst q. unfold contents. by rewrite HL.
  - intros q [->|[->|Hq%elem_of_nil]%elem_of_cons]%elem_of_cons; [by left|by right; left|done].
  - intros q Hq. destruct Hqs as [Hqs|[-> Hqs]]; [left; by rewrite Hqs|]. rewrite <- Hqs in Hq.
    apply elem_of_cons in Hq as [->|Hq]; [right|by left].
    unfold after_round. by rewrite contents_insert_ne, contents_insert_eq.
  - rewrite Hl, Hl'. cbn. rewrite !app_nil_r. symmetry. unfold after_round.
    rewrite (all_replace2 (<[L := []]> M) (TxQueue e) sq (contents M (TxQueue e)) []);
      [by rewrite all_new_empty by (by rewrite HL)|done|by rewrite lookup_insert_ne|by rewrite lookup_insert_ne|].
    rewrite app_nil_r, Permutation_app_comm, Heq. apply promote_perm.
  - by rewrite Hd, app_nil_r.
  - intros p Hp. right. exists (TxQueue e). split; [|left; by exists e].
    rewrite <- (promote_perm V e), <- Heq. apply elem_of_app. by left.
  - intros e' b q ->. by destruct (Hse e' b q).
Qed.

Lemma after_round_contents e sq taken tx' q : sq ≠ TxQueue e → LocalQueue (v_next V) ≠ sq →
  M !! LocalQueue (v_next V) = None →
  contents (after_round e sq taken tx' (LocalQueue (v_next V)) M) q =
    if decide (q = TxQueue e) then tx' else if decide (q = sq) then taken else contents M q.
Proof.
  intros H1 H2 HL. unfold after_round. rewrite !contents_insert. repeat case_decide; subst; try done.
  unfold contents. by rewrite HL.
Qed.

(** A round that took packets: they are charged to the endpoint. *)
Section issue.
Context {e : Z} {sq : htc_queue} {r : Z} {k : cont} {taken tx' : list positive} {y : HTC_ENDPOINT}.
Abbreviation t := (TDrain e sq r k).
Abbreviation t' := (TIssue e sq k).
Abbreviation V1 := (set_v_next (Pos.succ (v_next V)) V).
Abbreviation V' := (foldl (charge e) V1 taken).
Abbreviation M' := (after_round e sq taken tx' (LocalQueue (v_next V)) M).
Hypothesis Hinv : inv granted (t :: O) M V x.
Hypothesis Heq : taken ++ tx' = promote V e (contents M (TxQueue e)).
Hypothesis Hy : v_eps V !! e = Some y.
Let H2 := inv_packets _ _ _ _ _ Hinv.
Let H5 := inv_transfers _ _ _ _ _ Hinv.

Lemma issue_ok : task_ok M V t.
Proof. pose proof (po_tasks _ _ _ _ H2) as Ht. by apply Forall_cons in Ht as [? _]. Qed.
Lemma issue_ep : is_ep e = true.
Proof. apply issue_ok. Qed.
Lemma issue_own : sq ∈ task_queues t.
Proof. by left. Qed.
Lemma issue_queue : endpoint_queue (TxQueue e).
Proof. exists e. pose proof issue_ep. auto. Qed.

Lemma issue_taken p : p ∈ taken → p ∈ contents M (TxQueue e).
Proof. intros Hp. rewrite <- (promote_perm V e), <- Heq. apply elem_of_app. by left. Qed.
Lemma issue_left p : p ∈ tx' → p ∈ contents M (TxQueue e).
Proof. intros Hp. rewrite <- (promote_perm V e), <- Heq. apply elem_of_app. by right. Qed.

Lemma issue_headed p : p ∈ contents M (TxQueue e) → packet_is headed V' p.
Proof. intros Hp. apply charge_headed. exact (po_headed _ _ _ _ H2 (TxQueue e) p issue_queue Hp). Qed.

(** The packets taken are charged to the endpoint. *)
Lemma issue_charged : credits_of V' e + total (used V') taken = credits_of V e ∧ Forall (has_credits V') taken.
Proof.
  assert (NoDup (taken ++ tx')) as Hnd.
  { rewrite Heq, promote_perm. eapply queue_nodup; [exact (all_nodup H2)|exact (tx_queue H2 e issue_ep)]. }
  apply NoDup_app in Hnd as (Hnd & _). apply (charge_foldl_credits e V1 taken y); [exact Hy|exact Hnd|].
  apply Forall_forall. intros p Hp. pose proof (queue_buffered H2 (TxQueue e)) as Hb. rewrite Forall_forall in Hb.
  by apply buffered_pkt, (Hb p), issue_taken.
Qed.

Lemma issue_moves : moves t t' M M' V V' taken [].
Proof.
  destruct (charged_ep e V1 taken y Hy) as [c Hyc]. destruct (charge_foldl_nbs e V1 taken) as (Hvn & Hvd & Hvx).
  pose proof issue_own as Hsqo. pose proof issue_ep as He.
  apply round_moves; try done; [apply issue_ok|by left| |].
  - apply (touches_trans [] taken V V1); [by apply touches_same|]. apply touches_foldl, charge_touches.
  - intros e'. destruct (decide (e' = e)) as [->|Hne]; [by rewrite Hyc, Hy|by rewrite charge_foldl_ep].
Qed.
Lemma issue_contents q : contents M' q =
  if decide (q = TxQueue e) then tx' else if decide (q = sq) then taken else contents M q.
Proof.
  apply after_round_contents; [exact (own_endpoint H2 sq _ issue_own issue_queue)| |exact (local_fresh H2)].
  apply not_eq_sym, (own_fresh H2 _ issue_own).
Qed.

Lemma issue_local q : (∀ n, q ≠ LocalQueue n) → q ≠ sq.
Proof. intros Hq. destruct (own_is_local H2 _ issue_own) as (n & -> & _). apply Hq. Qed.

Lemma issue_lookup e' : contents M' (TxLookupQueue e') = contents M (TxLookupQueue e').
Proof.
  rewrite issue_contents, decide_False by done. by rewrite decide_False by (by apply issue_local).
Qed.

Lemma issue_packets : packets_ok (t' :: O) M' V' (posted x).
Proof.
  destruct issue_ok as [Hk _]. destruct issue_charged as [_ Hcr].
  eapply packets_moves; [exact H2|exact issue_moves|exact H5| |].
  - split; [done|]. cbn. split; [exact issue_ep|]. rewrite issue_contents, decide_False, decide_True by
      (done || exact (own_endpoint H2 sq _ issue_own issue_queue)). split; [|done].
    apply Forall_forall. intros p Hp. by apply issue_headed, issue_taken.
  - intros q p Hq Hp. rewrite issue_contents in Hp. case_decide as Hq1; [subst q|].
    + right. by apply issue_headed, issue_left.
    + case_decide as Hq2; [subst q; by destruct (own_endpoint H2 sq sq issue_own Hq)|]. left. split; [done|].
      intros Hpt. apply Hq1. eapply contents_disjoint; [exact (all_nodup H2)|exact Hp|by apply issue_taken].
Qed.

Lemma issue_credits x' : held x' = held x → refused x' = refused x → credits_ok granted (t' :: O) M' V' x'.
Proof.
  intros Hx2 Hx4. destruct issue_charged as [Hsum _].
  eapply credits_moves; [exact H2|exact issue_moves|exact H5|apply Hinv| |by rewrite Hx4]. intros e' He'. cbn zeta. left.
  unfold holds. rewrite Hx2. cbn [charged]. rewrite issue_contents, decide_False, decide_True by
    (done || exact (own_endpoint H2 sq _ issue_own issue_queue)).
  unfold reported. cbn [task_cont charged]. destruct (Z.eqb_spec e e') as [<-|Hne]; [lia|].
  assert (credits_of V' e' = credits_of V e') as ->; [|lia]. unfold credits_of. by rewrite charge_foldl_ep.
Qed.

Lemma issue_inv x' :
  0 ≤ credits_of V' e →
  same_flight x x' → held x' = held x → posted x' = posted x → refused x' = refused x →
  (∀ e', e' ≠ e → e' ∈ stalled x → e' ∈ stalled x') →
  inv granted (t' :: O) M' V' x'.
Proof.
  intros Hc' Hx1 Hx2 Hx3 Hx4 Hst. destruct (charged_ep e V1 taken y Hy) as [c Hyc]. pose proof issue_moves as Hmv.
  split.
  - eapply eps_moves; [exact Hmv|apply Hinv|]. intros e' z z' _ Hz Hz' Hle. destruct (decide (e' = e)) as [->|Hne].
    + unfold credits_of in Hc'. by rewrite Hz' in Hc'.
    + rewrite charge_foldl_ep in Hz' by done. change (v_eps V1) with (v_eps V) in Hz'. by simplify_eq.
  - rewrite Hx3. exact issue_packets.
  - rewrite (proj1 Hx1). exact (inv_flight _ _ _ _ _ Hinv).
  - eapply drains_moves; [exact Hmv|apply Hinv|]. intros e' z z' He' Hz Hz' Hle _. cbn.
    assert (TxProcessCount z' = TxProcessCount z); [|lia]. destruct (decide (e' = e)) as [->|Hne].
    + rewrite Hyc in Hz'. by simplify_eq.
    + rewrite charge_foldl_ep in Hz' by done. change (v_eps V1) with (v_eps V) in Hz'. by simplify_eq.
  - eapply transfers_same; [exact H2|exact Hmv|done|exact issue_lookup|done|done|done|done|exact H5].
  - by apply issue_credits.
  - eapply wake_moves; [exact Hmv|apply Hinv|]. intros e' z' He' Hz' H0. destruct (decide (e' = e)) as [->|Hne].
    + rewrite Hyc in Hz'. injection Hz' as <-. cbn in H0. destruct (drainer_alone Hinv (λ _, eq_refl) issue_ep y Hy). lia.
    + right; right; right; right. split; [by rewrite charge_foldl_ep|].
      split; [|split; [by apply Hst|done]]. rewrite issue_contents, decide_False by congruence.
      by rewrite decide_False by (by apply issue_local).
Qed.
End issue.

Lemma issue_step e sq r k taken tx' x' :
  inv granted (TDrain e sq r k :: O) M V x → taken ++ tx' = promote V e (contents M (TxQueue e)) →
  let V' := foldl (charge e) (set_v_next (Pos.succ (v_next V)) V) taken in
  0 ≤ credits_of V' e →
  same_flight x x' → held x' = held x → posted x' = posted x → refused x' = refused x →
  (∀ e', e' ≠ e → e' ∈ stalled x → e' ∈ stalled x') →
  inv granted (TIssue e sq k :: O) (after_round e sq taken tx' (LocalQueue (v_next V)) M) V' x'.
Proof.
  intros Hinv Heq V'. destruct (inv_eps _ _ _ _ _ Hinv e (issue_ep Hinv)) as (y & Hy & _). by eapply issue_inv.
Qed.


(** A round that took nothing, or found the queue empty *)
Lemma idle_step e sq r k tx' x' :
  inv granted (TDrain e sq r k :: O) M V x → tx' = promote V e (contents M (TxQueue e)) →
  let V1 := set_v_next (Pos.succ (v_next V)) V in
  same_flight x x' → held x' = held x → posted x' = posted x → refused x' = refused x →
  (∀ e', e' ≠ e → e' ∈ stalled x → e' ∈ stalled x') →
  tx' = [] ∨ e ∈ stalled x' ∨ (∃ p l, tx' = p :: l ∧ starved V1 e p) →
  inv granted (resume k :: O) (after_round e sq [] tx' (LocalQueue (v_next V)) M) (set_count e 0 V1) x'.
Proof.
  intros Hinv Heq V1 Hx1 Hx2 Hx3 Hx4 Hst Hwake. pose proof (inv_packets _ _ _ _ _ Hinv) as Hok.
  pose proof (po_tasks _ _ _ _ Hok) as Ht. apply Forall_cons in Ht as [[Hk [He Hsq]] _]. cbn in Hk.
  set (t := TDrain e sq r k) in *. assert (sq ∈ task_queues t) as Hsqo by by left.
  destruct (set_count_others e 0 V1) as (Hp & Hn & Hd & Hx).
  assert (endpoint_queue (TxQueue e)) as Hepq by (exists e; eauto).
  pose proof (own_endpoint Hok sq _ Hsqo Hepq) as Hsqe. pose proof (own_fresh Hok _ Hsqo) as HsL.
  pose proof (λ q, after_round_contents e sq [] tx' q Hsqe (not_eq_sym HsL) (local_fresh Hok)) as Hcon.
  destruct (own_is_local Hok _ Hsqo) as (k' & Hk' & _).
  eapply (stop_step Hinv (λ _, eq_refl) eq_refl); try done.
  - change (task_cont t) with k. apply round_moves; try done;
      [right; split; [done|by rewrite resume_queues]| | |].
    + by destruct (resume_plain e M V k) as (_ & _ & _ & _ & _ & _ & _ & _ & ?).
    + by apply touches_same.
    + intros e'. by rewrite set_count_static.
  - intros q p Hq Hp'. rewrite Hcon in Hp'. case_decide as Hq1; [subst q|].
    + rewrite Heq, promote_perm in Hp'. done.
    + case_decide; [by apply elem_of_nil in Hp'|done].
  - intros e' Hne. rewrite Hcon, decide_False by congruence. rewrite decide_False; [done|]. by intros <-.
  - intros e'. rewrite Hcon, decide_False by done. rewrite decide_False; [done|]. by intros <-.
  - rewrite Hcon, decide_True by done. exact Hwake.
Qed.

(** What the surroundings see of a round *)
Lemma after_drain env e sq r k t' y (x' := after_view env (TDrain e sq r k) t' V x) : v_eps V !! e = Some y →
  same_flight x x' ∧ held x' = held x ∧ posted x' = posted x ∧ refused x' = refused x ∧
  (∀ e', e' ≠ e → e' ∈ stalled x → e' ∈ stalled x') ∧
  ((∀ e' q k', t' ≠ TIssue e' q k') →
   pm_awake env = false ∨ TxCreditFlowEnabled y = false ∧ r ≤ 0 → e ∈ stalled x').
Proof.
  intros Hy. set (b := negb (pm_awake env) || (negb (TxCreditFlowEnabled y) && (r <=? 0))).
  assert (x' = mk_sur (in_flight x) (held x) (posted x) (refused x)
    (if b && (if t' is TIssue _ _ _ then false else true) then stalled x ∪ {[e]} else stalled x ∖ {[e]}) (overlapped x)) as ->.
  { unfold x', b. cbn. rewrite Hy. by destruct t'; rewrite ?andb_true_r, ?andb_false_r. }
  cbn. repeat (split; [done|]). split.
  - intros e' Hne Hin. case_match; set_solver.
  - intros Ht Hb. assert (b = true) as ->.
    { unfold b. destruct Hb as [-> |[-> Hr]]; [done|]. apply orb_true_iff; right. by apply Z.leb_le. }
    assert ((if t' is TIssue _ _ _ then false else true) = true) as ->; [|set_solver].
    destruct t'; try done. by destruct (Ht ep sendQueue k0).
Qed.

Lemma keep_drain env e sq r k :
  inv granted (TDrain e sq r k :: O) M V x → keeps granted env (TDrain e sq r k) O M V x.
Proof.
  intros Hinv. pose proof (inv_packets _ _ _ _ _ Hinv) as Hok.
  pose proof (po_tasks _ _ _ _ Hok) as Ht. apply Forall_cons in Ht as [[Hk [He Hsq]] _]. cbn in Hk.
  assert (sq ∈ task_queues (TDrain e sq r k)) as Hsqo by by left.
  destruct (inv_eps _ _ _ _ _ Hinv e He) as (y & Hy & _ & Hc & Hsz).
  pose proof (own_queue Hok sq Hsqo) as Hsqm. rewrite Hsq in Hsqm.
  assert (endpoint_queue (TxQueue e)) as Hepq by (exists e; eauto).
  pose proof (own_endpoint Hok sq _ Hsqo Hepq) as Hsqe.
  assert (∀ t' e' q k', resume k = t' → t' ≠ TIssue e' q k') as Hres by (intros t' e' q k' <-; by destruct k).
  unfold keeps. cbn [run_task].
  eapply does_drain_round; [exact (local_fresh Hok)|exact Hsqm|done|by apply (tx_queue Hok)|exact Hy
    |exact (all_nodup Hok)|apply (queue_buffered Hok)|done|done| | |].
  - intros H0. destruct (after_drain env e sq r k (resume k) y Hy) as (Ha1 & Ha2 & Ha3 & Ha4 & Ha5 & Ha6).
    eapply (stop_step Hinv (λ _, eq_refl) eq_refl); try done.
    + destruct (set_count_others e 0 V) as (Hp & Hn & Hd & Hx).
      apply moves_same; try done.
      * rewrite resume_queues. pose proof (own_nodup Hok) as Hnd. cbn in Hnd. by apply NoDup_cons in Hnd as [].
      * rewrite resume_queues. cbn. set_solver.
      * intros q Hq. by rewrite (own_queue Hok).
      * intros q Hq. rewrite resume_queues. cbn in Hq. apply elem_of_cons in Hq as [->|Hq]; [by right|by left].
      * by destruct (resume_plain e M V k) as (_ & _ & _ & _ & _ & _ & _ & _ & ?).
      * intros e'. by rewrite set_count_static.
    + by left.
  - intros tx' Heq Hst. destruct (after_drain env e sq r k (resume k) y Hy) as (Ha1 & Ha2 & Ha3 & Ha4 & Ha5 & Ha6).
    eapply idle_step; [exact Hinv|done..|].
    destruct Hst as [Hst|[->|[Hst|Hst]]]; [|by left|by right; right|].
    + right; left. apply Ha6; [intros e' q k'; by apply Hres|by left].
    + right; left. apply Ha6; [intros e' q k'; by apply Hres|by right].
  - intros taken tx' Heq Hne V' Hc'.
    destruct (after_drain env e sq r k (TIssue e sq k) y Hy) as (Ha1 & Ha2 & Ha3 & Ha4 & Ha5 & Ha6).
    by eapply issue_step.
Qed.
End drain.

(** The other steps of [htc_try_send] keep the channel's invariant: entering the
    drain loop, and handing packets to the bus. *)

(** Facts about a step on the queues [a] and [b], which the task or an endpoint has. *)
Lemma two_queues_moves {t t' O M V V' posted ds ps} a b la lb :
  packets_ok (t :: O) M V posted → a ≠ b → is_Some (M !! a) → is_Some (M !! b) →
  (endpoint_queue a ∨ a ∈ task_queues t) → (endpoint_queue b ∨ b ∈ task_queues t) →
  NoDup (task_queues t') → (∀ q, q ∈ task_queues t' → q ∈ task_queues t) →
  (∀ q, q ∈ task_queues t → q ∈ task_queues t' ∨ contents (<[a := la]> (<[b := lb]> M)) q = []) →
  contents M a ++ contents M b ++ loose t ≡ₚ ds ++ la ++ lb ++ loose t' →
  v_done V' = v_done V ++ ds → v_next V' = v_next V → touches ps V V' →
  (∀ p, p ∈ ps → p ∈ loose t ∨ ∃ q, p ∈ contents M q ∧ ((∃ e, q = TxQueue e) ∨ q ∈ task_queues t)) →
  (∀ e b q, t = TSearch e b q → ps = []) →
  (∀ e, ep_static <$> v_eps V' !! e = ep_static <$> v_eps V !! e) →
  moves t t' M (<[a := la]> (<[b := lb]> M)) V V' ps ds.
Proof.
  intros Hok Hne [l1 Ha] [l2 Hb] Hqa Hqb Hnd Hown Hdead Hl Hd Hn Ht Hps Hse Hst.
  apply (moves_of [] [a; b] Hok); try done.
  - rewrite Hn. lia.
  - intros q. rewrite !lookup_insert_is_Some'. split; [|set_solver].
    intros [<-|[<-|?]]; right; [by rewrite Ha|by rewrite Hb|done].
  - intros q Hq. by apply elem_of_nil in Hq.
  - intros q Hq. right. by apply Hown.
  - intros q Hq. apply not_elem_of_cons in Hq as [Hq1 Hq]. apply not_elem_of_cons in Hq as [Hq2 _].
    by rewrite !contents_insert_ne.
  - intros q [->|[->|Hq%elem_of_nil]%elem_of_cons]%elem_of_cons; [| |done].
    + destruct Hqa; auto.
    + destruct Hqb; auto.
  - unfold contents in Hl. rewrite Ha, Hb in Hl. cbn in Hl.
    rewrite (all_lookup M a l1 Ha), all_insert, delete_insert_ne by done. rewrite all_insert.
    assert (delete a M !! b = Some l2) as Hb' by (by rewrite lookup_delete_ne).
    rewrite (all_lookup (delete a M) b l2 Hb').
    set (R := all (delete b (delete a M))).
    transitivity (R ++ (l1 ++ l2 ++ loose t)); [solve_Permutation|]. rewrite Hl. solve_Permutation.
Qed.

Section enter.
Context {O : list task} {M : queue_map} {V : view} {x : surroundings} {granted : Z → Z}.
Implicit Types (sq : htc_queue) (k : cont).

(** The queues once the packets to send have joined the endpoint's. *)
Definition joined (e : Z) sq (M : queue_map) : queue_map :=
  <[sq := []]> (<[TxQueue e := contents M (TxQueue e) ++ contents M sq]> M).

Lemma joined_contents e sq q : sq ≠ TxQueue e → contents (joined e sq M) q =
  if decide (q = sq) then [] else if decide (q = TxQueue e) then contents M (TxQueue e) ++ contents M sq
  else contents M q.
Proof. intros Hne. unfold joined. rewrite !contents_insert. repeat case_decide; subst; done. Qed.

(** What the drain loop's counter may become *)
Definition counted (e : Z) (y : HTC_ENDPOINT) (V V' : view) (t' : task) : Prop :=
  V' = V ∧ 0 < TxProcessCount y ∧ (∀ e', drains e' t' = 0) ∨
  V' = set_count e 1 V ∧ TxProcessCount y = 0 ∧ (∀ e', drains e' t' = c_bool (e =? e')).

Lemma counted_view e y V' t' : v_eps V !! e = Some y → counted e y V V' t' →
  (v_pkts V' = v_pkts V ∧ v_nbs V' = v_nbs V ∧ v_done V' = v_done V ∧ v_next V' = v_next V) ∧
  (∀ e', ep_static <$> v_eps V' !! e' = ep_static <$> v_eps V !! e') ∧
  (∀ e', credits_of V' e' = credits_of V e') ∧ (∀ e', e' ≠ e → v_eps V' !! e' = v_eps V !! e') ∧
  ∃ c, 0 < c ∧ v_eps V' !! e = Some (set_TxProcessCount c y) ∧
    (c = TxProcessCount y ∧ (∀ e', drains e' t' = 0) ∨
     c = 1 ∧ TxProcessCount y = 0 ∧ (∀ e', drains e' t' = c_bool (e =? e'))).
Proof.
  intros Hy [(-> & Hpos & Hd)|(-> & Hz & Hd)].
  - repeat (split; [done|]). exists (TxProcessCount y). rewrite Hy. split; [done|]. split; [by destruct y|]. by left.
  - destruct (set_count_others e 1 V) as (-> & -> & -> & ->). split; [done|].
    split; [intros; apply set_count_static|]. split; [intros; apply set_count_credits|].
    unfold set_count. rewrite Hy. cbn. split; [intros e' Hne; by rewrite lookup_insert_ne|].
    exists 1. rewrite lookup_insert_eq. split; [lia|]. split; [done|]. by right.
Qed.

Section join.
Context {e : Z} {sq : htc_queue} {r : Z} {k : cont}.
Abbreviation t := (TEnter e sq r k).
Hypothesis Hinv : inv granted (t :: O) M V x.
Lemma enter_facts : packets_ok (t :: O) M V (posted x) ∧ cont_ok k ∧ is_ep e = true ∧
  Forall (packet_is headed V) (contents M sq) ∧ sq ∈ task_queues t ∧ endpoint_queue (TxQueue e) ∧ sq ≠ TxQueue e ∧
  (∀ q, (∀ n, q ≠ LocalQueue n) → sq ≠ q).
Proof.
  pose proof (inv_packets _ _ _ _ _ Hinv) as Hok.
  pose proof (po_tasks _ _ _ _ Hok) as Ht. apply Forall_cons in Ht as [[Hk [He Hhead]] _].
  assert (sq ∈ task_queues t) as Hsqo by by left.
  assert (endpoint_queue (TxQueue e)) as Hepq by (exists e; eauto).
  repeat (split; [done|]). split; [by eapply own_endpoint|].
  intros q Hq <-. destruct (own_is_local Hok _ Hsqo) as (k' & -> & _). by destruct (Hq k').
Qed.

Context {t' : task} {V' : view} {y : HTC_ENDPOINT}.
Hypothesis Hy : v_eps V !! e = Some y.
Hypothesis Hqs : task_queues t' = task_queues t ∨ sq :: task_queues t' = task_queues t.
Hypothesis Hl : loose t' = [].
Hypothesis Hcase : counted e y V V' t'.

Lemma join_moves : moves t t' M (joined e sq M) V V' [] [].
Proof.
  destruct enter_facts as (Hok & _ & He & _ & Hsqo & Hepq & Hsqe & _). pose proof (own_nodup Hok) as Hnd.
  destruct (counted_view e y V' t' Hy Hcase) as ((Hvp & Hvn & Hvd & Hvx) & Hvs & _).
  apply (two_queues_moves sq (TxQueue e) _ _ Hok); try done.
  - by rewrite (own_queue Hok).
  - by rewrite (tx_queue Hok).
  - by right.
  - by left.
  - destruct Hqs as [-> |Hqs']; [done|]. rewrite <- Hqs' in Hnd. by apply NoDup_cons in Hnd as [].
  - intros q Hq. destruct Hqs as [Hqs'|Hqs']; rewrite <- Hqs'; [done|by right].
  - intros q Hq. destruct Hqs as [Hqs'|Hqs']; rewrite <- Hqs' in Hq; [by left|].
    apply elem_of_cons in Hq as [->|Hq]; [right|by left]. by rewrite contents_insert_eq.
  - rewrite Hl. cbn. rewrite !app_nil_r. apply Permutation_app_comm.
  - by rewrite Hvd, app_nil_r.
  - by apply touches_same.
  - intros p Hp. by apply elem_of_nil in Hp.
Qed.

Lemma join_packets : task_ok (joined e sq M) V' t' → packets_ok (t' :: O) (joined e sq M) V' (posted x).
Proof.
  intros Hok'. destruct enter_facts as (Hok & _ & He & Hhead & Hsqo & Hepq & Hsqe & _).
  destruct (counted_view e y V' t' Hy Hcase) as ((Hvp & Hvn & _) & _).
  eapply packets_moves; [exact Hok|exact join_moves|exact (inv_transfers _ _ _ _ _ Hinv)|done|].
  intros q p Hq Hp. rewrite joined_contents in Hp by done. case_decide; [by apply elem_of_nil in Hp|].
  rewrite Forall_forall in Hhead.
  case_decide; [subst q|left; split; [done|by intros ?%elem_of_nil]].
  apply elem_of_app in Hp as [Hp|Hp]; [left; split; [done|by intros ?%elem_of_nil]|right].
  destruct (Hhead p Hp) as (pkt & s & ? & ? & ?). exists pkt, s. by rewrite Hvp, Hvn.
Qed.

(** Joining the endpoint's queue, with what the task does next *)
Lemma join_step :
  same_hif t t' → task_ok (joined e sq M) V' t' →
  (∀ e', search_part e' (joined e sq M) t' = [] ∧ pending e' V t' = [] ∧ completes e' t' = false ∧
    charged e' (joined e sq M) V' t' = 0 ∧ reported e' t' = cont_report e' k) →
  inv granted (t' :: O) (joined e sq M) V' x.
Proof.
  intros Hh Hok' Hplain. destruct enter_facts as (Hok & _ & He & _ & Hsqo & Hepq & Hsqe & Hsq).
  pose proof Hinv as [H1 _ H3 H4 H5 H6 H7]. pose proof join_moves as Hmv.
  destruct (counted_view e y V' t' Hy Hcase) as (_ & _ & Hvc & Hve & c & Hc & Hy' & Hcc).
  pose proof (λ q, joined_contents e sq q Hsqe) as Hcon.
  split.
  - eapply eps_moves; [exact Hmv|done|]. intros e' z z' _ Hz Hz' Hle. destruct (decide (e' = e)) as [->|Hne].
    + rewrite Hy' in Hz'. simplify_eq. done.
    + rewrite Hve in Hz' by done. by simplify_eq.
  - by apply join_packets.
  - done.
  - eapply drains_moves; [exact Hmv|done|]. intros e' z z' He' Hz Hz' Hle _. cbn [drains].
    destruct (decide (e' = e)) as [->|Hne].
    + rewrite Hy' in Hz'. simplify_eq. cbn. destruct Hcc as [(-> & Hd)|(-> & Hz0 & Hd)]; rewrite Hd, ?Z.eqb_refl; cbn; lia.
    + rewrite Hve in Hz' by done. simplify_eq. assert (drains e' t' = 0) as ->; [|lia].
      destruct Hcc as [(_ & Hd)|(_ & _ & Hd)]; rewrite Hd; [done|]. by rewrite (proj2 (Z.eqb_neq e e')).
  - eapply transfers_same; [exact Hok|exact Hmv|done| | | | | |exact H5].
    + intros e'. rewrite Hcon, decide_False, decide_False; [done|done|]. apply not_eq_sym, Hsq. done.
    + intros e'. by destruct (Hplain e') as (-> & _).
    + intros e'. by destruct (Hplain e') as (_ & -> & _).
    + intros e'. by destruct (Hplain e') as (_ & _ & -> & _).
    + done.
  - eapply credits_moves; [exact Hok|exact Hmv|exact H5|done| |done]. intros e' He'. cbn zeta. left.
    destruct (Hplain e') as (_ & _ & _ & -> & ->). rewrite Hvc. unfold reported. cbn. lia.
  - eapply wake_moves; [exact Hmv|exact H7|]. intros e' z' He' Hz' H0. destruct (decide (e' = e)) as [->|Hne].
    + rewrite Hy' in Hz'. injection Hz' as <-. cbn in H0. lia.
    + right; right; right; right. split; [by apply Hve|]. split; [|split; [done|cbn; by apply Z.eqb_neq, not_eq_sym]].
      rewrite Hcon, decide_False, decide_False; [done|congruence|]. apply not_eq_sym, Hsq. done.
Qed.
End join.

Lemma does_count e (f : Z → Z) M1 V1 y c (Q : unit → queue_map → view → Prop) :
  v_eps V1 !! e = Some y → c = f (TxProcessCount y) → Q tt M1 (set_count e c V1) →
  does (op (upd_ep e (λ z, set_TxProcessCount (f (TxProcessCount z)) z))) M1 V1 Q.
Proof.
  intros Hy -> HQ. unfold set_count in HQ. rewrite Hy in HQ.
  eapply does_upd_ep; [exact Hy| |exact HQ]. intros z <-. by destruct z.
Qed.

Lemma set_count_back e c V1 y : v_eps V1 !! e = Some y → set_count e (TxProcessCount y) (set_count e c V1) = V1.
Proof.
  intros Hy. unfold set_count at 2. rewrite Hy. unfold set_count. cbn. rewrite lookup_insert_eq, insert_insert_eq. cbn.
  replace (set_TxProcessCount (TxProcessCount y) (set_TxProcessCount c y)) with y by (by destruct y).
  rewrite insert_id by done. by destruct V1.
Qed.

Lemma keep_enter env e sq r k :
  inv granted (TEnter e sq r k :: O) M V x → keeps granted env (TEnter e sq r k) O M V x.
Proof.
  intros Hinv. destruct (enter_facts Hinv) as (Hok & Hk & He & Hhead & Hsqo & Hepq & Hsqe & _).
  destruct (inv_eps _ _ _ _ _ Hinv e He) as (y & Hy & _ & _ & _).
  pose proof (own_queue Hok sq Hsqo) as Hsqm. pose proof (tx_queue Hok e He) as Htx.
  unfold keeps. cbn [run_task]. unfold try_enter. apply does_bind. eapply does_empty; [exact Hsqm|]. apply does_bind.
  assert (∀ Q : unit → queue_map → view → Prop, Q tt (joined e sq M) V →
    does (when (negb (bool_decide (contents M sq = [])))
      (qop (q_transfer_to_tail (TxQueue e) sq);; qop (q_init sq))) M V Q) as Hjoin.
  { intros Q HQ. case_bool_decide as Hne; cbn.
    - apply does_ret. unfold joined in HQ. rewrite Hne, app_nil_r, insert2_id in HQ by (by rewrite <- ?Hne).
      exact HQ.
    - apply does_bind. eapply does_transfer_to_tail; [by apply not_eq_sym|exact Htx|exact Hsqm|].
      apply does_init. by rewrite insert_insert_eq. }
  apply Hjoin. apply does_bind. eapply (does_count e (λ c, c + 1)); [exact Hy|done|].
  apply does_bind. eapply does_get_ep; [unfold set_count; rewrite Hy; cbn; by rewrite lookup_insert_eq|].
  intros z Hz. assert (TxProcessCount z = TxProcessCount y + 1) as ->
    by (change (TxProcessCount z) with (TxProcessCount (norm_ep z)); by rewrite Hz).
  destruct (inv_drains _ _ _ _ _ Hinv e y He Hy) as [Htot Hle].
  assert (0 ≤ TxProcessCount y) as Hpos.
  { rewrite Htot. apply total_of_nonneg. intros t1 _. destruct t1; cbn; unfold c_bool; try case_match; lia. }
  destruct (Z.ltb_spec 1 (TxProcessCount y + 1)) as [Hlt|Hge].
  - apply does_bind. eapply (does_count e (λ c, c - 1));
      [unfold set_count; rewrite Hy; cbn; by rewrite lookup_insert_eq|done|].
    apply does_ret. replace (TxProcessCount _ - 1) with (TxProcessCount y) by (cbn; lia). rewrite (set_count_back e _ V y Hy).
    assert (after_view env (TEnter e sq r k) (resume k) V x = x) as ->.
    { cbn. rewrite Hy, (proj2 (Z.eqb_neq _ _)) by lia. by destruct k. }
    eapply (join_step Hinv Hy).
    + right. by rewrite resume_queues.
    + by destruct (resume_plain e M V k) as (_ & _ & _ & _ & _ & _ & _ & _ & ?).
    + left. split; [done|]. split; [lia|]. intros e'. by destruct (resume_plain e' M V k) as (? & _).
    + by destruct k.
    + by apply resume_ok.
    + intros e'. by destruct (resume_plain e' (joined e sq M) V k) as (_ & ? & ? & ? & ? & ? & _).
  - assert (TxProcessCount y = 0) as Hz0 by lia. rewrite Hz0.
    eapply does_mono.
    + apply (keep_drain (granted := granted) (x := x) (O := O)). eapply (join_step Hinv Hy); [by left|done| |done| |].
      * right. split; [done|]. split; [done|]. done.
      * split; [done|]. cbn. split; [done|]. rewrite joined_contents by done. by rewrite decide_True.
      * done.
    + intros t' M' V' Hi. cbn in Hi |- *.
      assert (v_eps (set_count e (0 + 1) V) !! e = Some (set_TxProcessCount 1 y)) as Hy'
        by (unfold set_count; rewrite Hy; cbn; by rewrite lookup_insert_eq).
      rewrite Hy' in Hi. rewrite Hy. by rewrite Hz0.
Qed.
End enter.
