(* ===== verification/HtcHif.v ===== *)
(** The steps that hand packets to the bus, or take a refused packet back, keep the
    channel's invariant. *)
From S2P Require Import Prelude Ring HtcQueue HtcTypes HtcSend HtcSystem HtcView HtcMoves HtcInv HtcSteps HtcDrain.

Section programs.
Implicit Types (M : queue_map) (V : view) (q : htc_queue) (p : positive).

Lemma headed_frag0 V p pkt s : packet_is owned_packet V p → packet_is headed V p →
  v_pkts V !! p = Some pkt → v_nbs V !! pNetBufContext pkt = Some s → frag0_ok s.
Proof.
  intros (pk & s1 & H1 & H2 & _ & _ & Hf) (pk' & s2 & H3 & H4 & Hd) Hp Hs.
  rewrite Hp in H1, H3. injection H1 as <-. injection H3 as <-. rewrite Hs in H2, H4. injection H2 as <-. injection H4 as <-.
  unfold frag0_ok. unfold headed in Hd. destruct s.2 as [m|]; [by apply Hf|done].
Qed.

(** The next packet gets its header and joins the lookup queue. *)
Lemma does_issue_prepare e p M V y lk (Q : unit → queue_map → view → Prop) :
  v_eps V !! e = Some y → M !! TxLookupQueue e = Some lk → unlinked M p = true →
  packet_is owned_packet V p → packet_is headed V p →
  Q tt (<[TxLookupQueue e := lk ++ [p]]> M) V → does (issue_prepare e p) M V Q.
Proof.
  intros Hy Hlk Hu Hown Hhead HQ. pose proof Hown as (pkt & s & Hp & Hs & _).
  pose proof (headed_frag0 _ _ _ _ Hown Hhead Hp Hs) as Hfr. unfold issue_prepare.
  apply does_bind. eapply does_get_ep; [exact Hy|]. intros z Hz. norm.
  apply does_bind. eapply does_get_pkt; [exact Hp|]. intros k Hk. norm.
  change (pNetBufContext (norm_pkt k)) with (pNetBufContext k) in Hs.
  assert (does (qop (q_enqueue (TxLookupQueue e) p);;
    op (upd_ep e (λ x, set_ul_outstanding_cnt (ul_outstanding_cnt x + 1) x))) M V Q) as Hrest.
  { apply does_bind. eapply does_enqueue; [exact Hlk|done|].
    eapply (does_upd_ep _ _ _ _ _ (norm_ep z)); [exact Hy|fields|]. by rewrite set_v_eps_id. }
  apply does_bind, does_when; intros _; [|done]. apply does_op.
  apply tdoes_bind. eapply tdoes_write; [exact Hs|lia|done|].
  apply tdoes_bind. eapply tdoes_write; [exact Hs|lia|done|].
  apply tdoes_when; intros _; [|done]. by eapply tdoes_map.
Qed.

(** The bus takes the packet or refuses it. *)
Lemma does_issue_send env e p M V y (Q : Z → queue_map → view → Prop) :
  v_eps V !! e = Some y → buffered V p → Q (hif_send_status env) M V → does (issue_send env e p) M V Q.
Proof.
  intros Hy (b & s & Hb & Hs) HQ. destruct (v_pkts V !! p) as [pkt|] eqn:Hp; [|done]. injection Hb as <-.
  unfold issue_send. apply does_bind. eapply does_get_ep; [exact Hy|]. intros z _.
  apply does_bind. eapply does_get_pkt; [exact Hp|]. intros k Hk. norm.
  change (pNetBufContext (norm_pkt k)) with (pNetBufContext k) in Hs.
  apply does_bind, does_op. unfold hif_send_head. apply tdoes_bind. eapply tdoes_get_nbuf; [exact Hs|].
  intros nb _. apply tdoes_bind. apply tdoes_when; intros _; [apply tdoes_emit_other; [done|]|]; apply tdoes_ret;
    (apply does_bind, does_unseen; [by intros t|]);
    (apply does_bind, does_when; intros _; [apply does_put|]; by apply does_ret).
Qed.

Lemma does_pm_puts n M V (Q : unit → queue_map → view → Prop) : Q tt M V → does (op (pm_put_loop n)) M V Q.
Proof.
  intros HQ. apply does_op. revert HQ. induction n as [|n IH]; intros HQ; [by apply tdoes_ret|].
  cbn. apply tdoes_bind. apply tdoes_modify with V; [by intros t <-|]. by apply IH.
Qed.
End programs.

(** Credits for an endpoint *)
Definition add_credits (e c : Z) (V : view) : view :=
  match v_eps V !! e with
  | Some y => set_v_eps (<[e := set_TxCredits (TxCredits y + c) y]> (v_eps V)) V
  | None => V
  end.

Section credits.
Implicit Types (M : queue_map) (V : view).

Lemma does_add_credits e c M V y (Q : unit → queue_map → view → Prop) :
  v_eps V !! e = Some y → Q tt M (add_credits e c V) →
  does (op (upd_ep e (λ z, set_TxCredits (TxCredits z + c) z))) M V Q.
Proof.
  intros Hy HQ. unfold add_credits in HQ. rewrite Hy in HQ. eapply does_upd_ep; [exact Hy| |exact HQ].
  intros z <-. by destruct z.
Qed.

Lemma add_credits_view e c V :
  (v_pkts (add_credits e c V) = v_pkts V ∧ v_nbs (add_credits e c V) = v_nbs V ∧
    v_done (add_credits e c V) = v_done V ∧ v_next (add_credits e c V) = v_next V) ∧
  (∀ e', ep_static <$> v_eps (add_credits e c V) !! e' = ep_static <$> v_eps V !! e') ∧
  (∀ e', TxProcessCount <$> v_eps (add_credits e c V) !! e' = TxProcessCount <$> v_eps V !! e') ∧
  (∀ e', e' ≠ e → v_eps (add_credits e c V) !! e' = v_eps V !! e') ∧
  (∀ y, v_eps V !! e = Some y → v_eps (add_credits e c V) !! e = Some (set_TxCredits (TxCredits y + c) y)).
Proof.
  unfold add_credits. destruct (v_eps V !! e) as [y|] eqn:E; [|by rewrite ?E]. cbn. split; [done|].
  assert (∀ A (f : HTC_ENDPOINT → A) e', f (set_TxCredits (TxCredits y + c) y) = f y →
    f <$> <[e := set_TxCredits (TxCredits y + c) y]> (v_eps V) !! e' = f <$> v_eps V !! e') as Hf.
  { intros A f e' Hf. destruct (decide (e = e')) as [<-|Hne]; [rewrite lookup_insert_eq, E; cbn; by rewrite Hf|by rewrite lookup_insert_ne]. }
  split; [intros; by apply Hf|]. split; [intros; by apply Hf|].
  split; [intros e' Hne; by rewrite lookup_insert_ne|]. intros y' [= ->]. by rewrite lookup_insert_eq.
Qed.
End credits.

Section hif.
Context {O : list task} {M : queue_map} {V : view} {x : surroundings} {granted : Z → Z}.
Implicit Types (sq : htc_queue) (k : cont).

Lemma drain_cons e t y : inv granted (t :: O) M V x → is_ep e = true → v_eps V !! e = Some y →
  drains e t = 1 → TxProcessCount y ≠ 0.
Proof.
  intros Hinv He Hy Hd. destruct (inv_drains _ _ _ _ _ Hinv e y He Hy) as [H1 _]. rewrite total_of_cons, Hd in H1.
  assert (0 ≤ total (drains e) O); [|lia]. apply total_of_nonneg. intros t1 _.
  destruct t1; cbn; unfold c_bool; try case_match; lia.
Qed.

(** The queues when the next packet has joined the lookup queue *)
Lemma issued_step e sq p l k :
  inv granted (TIssue e sq k :: O) M V x → contents M sq = p :: l →
  inv granted (THif e sq p k :: O)
    (<[TxLookupQueue e := contents M (TxLookupQueue e) ++ [p]]> (<[sq := l]> M)) V x.
Proof.
  intros Hinv Hc. pose proof Hinv as [H1 H2 H3 H4 H5 H6 H7].
  pose proof (po_tasks _ _ _ _ H2) as Ht. apply Forall_cons in Ht as [[Hk (He & Hhead & Hcr)] _]. cbn in Hk.
  set (t := TIssue e sq k) in *. assert (sq ∈ task_queues t) as Hsqo by by left.
  rewrite Hc in Hhead, Hcr. apply Forall_cons in Hhead as [Hhp Hhead]. apply Forall_cons in Hcr as [Hcp Hcr].
  assert (endpoint_queue (TxLookupQueue e)) as Heq by (exists e; eauto).
  pose proof (own_endpoint H2 sq _ Hsqo Heq) as Hsqe.
  destruct (own_is_local H2 _ Hsqo) as (n & -> & _).
  set (M' := <[TxLookupQueue e := _]> _).
  assert (∀ q, contents M' q = if decide (q = TxLookupQueue e) then contents M (TxLookupQueue e) ++ [p]
    else if decide (q = LocalQueue n) then l else contents M q) as Hcon.
  { intros q. unfold M'. rewrite !contents_insert. repeat case_decide; subst; done. }
  assert (moves t (THif e (LocalQueue n) p k) M M' V V [] []) as Hmv.
  { apply (two_queues_moves (TxLookupQueue e) (LocalQueue n) _ _ H2); try done.
    - by rewrite (lookup_queue H2).
    - by rewrite (own_queue H2).
    - by left.
    - by right.
    - exact (own_nodup H2).
    - intros q Hq. by left.
    - rewrite Hc. cbn. rewrite !app_nil_r. solve_Permutation.
    - by rewrite app_nil_r.
    - intros p' Hp. by apply elem_of_nil in Hp. }
  split.
  - done.
  - eapply packets_moves; [exact H2|exact Hmv|exact H5| |].
    + split; [done|]. cbn. rewrite Hcon, decide_False, decide_True by done. done.
    + intros q p' Hq Hp. rewrite Hcon in Hp. case_decide as Hq1; [subst q|].
      * apply elem_of_app in Hp as [Hp|Hp%list_elem_of_singleton]; [left; split; [done|by intros ?%elem_of_nil]|subst p'; by right].
      * case_decide as Hq2; [subst q; by destruct (own_endpoint H2 _ _ Hsqo Hq)|].
        left. split; [done|by intros ?%elem_of_nil].
  - done.
  - eapply drains_same; [exact Hmv|done|done|done].
  - eapply transfers_moves; [exact H2|exact Hmv|exact H5|done|]. intros e' He'. rewrite Hcon. cbn [search_part pending].
    destruct (Z.eqb_spec e e') as [<-|Hne].
    + rewrite decide_True by done. split; [|split; [done|split; [done|split]]].
      * cbn. intros lost H. exists lost. split; [|done]. rewrite !fmap_app in *. cbn. rewrite <- app_assoc. cbn [app].
        rewrite <- !Permutation_middle. cbn. by rewrite H.
      * intros p' [= <-]. right. set_solver.
      * intros t1 p' _ _ _ Hp'. set_solver.
    + rewrite decide_False by congruence. rewrite decide_False by done. split; [eauto|]. split; [done|]. split; [done|].
      split; [intros p' [= ? <-]; done|done].
  - eapply credits_moves; [exact H2|exact Hmv|exact H5|done| |done]. intros e' He'. cbn zeta. left. cbn [charged].
    rewrite Hcon, decide_False, decide_True by done. unfold t. cbn [charged].
    destruct (e =? e'); [|done]. rewrite Hc, total_of_cons. unfold reported. cbn. lia.
  - eapply wake_same; [exact Hmv|done| |done|done|done]. intros e'. by rewrite Hcon, !decide_False.
Qed.

Lemma keep_issue env e sq k :
  inv granted (TIssue e sq k :: O) M V x → keeps granted env (TIssue e sq k) O M V x.
Proof.
  intros Hinv. pose proof (inv_packets _ _ _ _ _ Hinv) as Hok.
  pose proof (po_tasks _ _ _ _ Hok) as Ht. apply Forall_cons in Ht as [[Hk (He & Hhead & Hcr)] _].
  set (t := TIssue e sq k) in *. assert (sq ∈ task_queues t) as Hsqo by by left.
  destruct (inv_eps _ _ _ _ _ Hinv e He) as (y & Hy & _). pose proof (own_queue Hok _ Hsqo) as Hsqm.
  unfold keeps, t. cbn [run_task]. unfold try_issue, issue_next. apply does_bind, does_bind.
  eapply does_dequeue; [exact Hsqm|]. destruct (contents M sq) as [|p l] eqn:Hc; cbn [head tail].
  - rewrite insert_id by done. apply does_ret, does_bind, (does_tx_resources (V := V) env e); [done|done|exact (inv_eps _ _ _ _ _ Hinv)|].
    intros r. apply does_ret. cbn [after_view]. eapply quiet_kind; [| | | | | | |exact Hinv]; try done.
    + intros e'. unfold t, reported. cbn. rewrite Hc. by destruct (e =? e').
    + exact (own_nodup Hok).
    + intros q Hq. by left.
  - apply Forall_cons in Hhead as [Hhp _]. assert (endpoint_queue (TxLookupQueue e)) as Heq by (exists e; eauto).
    apply does_bind. eapply does_issue_prepare; [exact Hy|rewrite lookup_insert_ne by (by eapply own_endpoint); by apply (lookup_queue Hok)
      |apply unlinked_head; [exact (all_nodup Hok)|done]|apply (queued_owned Hok sq); rewrite Hc; by left|done|].
    apply does_ret, does_ret. cbn [after_view]. by apply issued_step.
Qed.

(** The bus has accepted the packet. *)
Lemma accepted_step e sq p k pkt x' :
  inv granted (THif e sq p k :: O) M V x → v_pkts V !! p = Some pkt →
  x' = mk_sur (in_flight x ++ [(e, pNetBufContext pkt)]) (<[e := holds x e + CreditsUsed pkt]> (held x))
         (posted x) (refused x) (stalled x) (overlapped x) →
  inv granted (TIssue e sq k :: O) M V x'.
Proof.
  intros Hinv Hp ->. pose proof Hinv as [H1 H2 H3 H4 H5 H6 H7].
  pose proof (po_tasks _ _ _ _ H2) as Ht. apply Forall_cons in Ht as [[Hk (He & Hhead & Hcr & _)] _]. cbn in Hk.
  assert (moves (THif e sq p k) (TIssue e sq k) M M V V [] []) as Hmv.
  { apply moves_same; try done; [exact (own_nodup H2)| |intros q Hq; by left].
    intros q Hq. by rewrite (own_queue H2). }
  split; cbn.
  - done.
  - eapply packets_moves; [exact H2|exact Hmv|exact H5|by split|]. intros q p' Hq Hp'. left.
    split; [done|by intros ?%elem_of_nil].
  - apply Forall_app. split; [done|]. by apply Forall_singleton.
  - eapply drains_same; [exact Hmv|done|done|done].
  - eapply transfers_moves; [exact H2|exact Hmv|exact H5|done|]. intros e' He'. cbn [search_part pending].
    split; [|done]. intros lost H. exists lost. split; [|done]. rewrite H. unfold in_flight_of. cbn [in_flight]. rewrite filter_app, !fmap_app.
    unfold buffer_of. rewrite Hp. destruct (Z.eqb_spec e e') as [<-|Hne].
    + rewrite filter_cons_True by done. cbn. solve_Permutation.
    + rewrite filter_cons_False by done. cbn. by rewrite app_nil_r.
  - eapply credits_moves; [exact H2|exact Hmv|exact H5|exact H6| |done]. intros e' He'. cbn zeta. left.
    assert (used V p = CreditsUsed pkt) as Hup by (unfold used; by rewrite Hp).
    unfold reported, holds at 1. cbn. rewrite Hup. destruct (Z.eqb_spec e e') as [<-|Hne].
    + rewrite lookup_insert_eq. cbn. lia.
    + rewrite lookup_insert_ne by done. fold (holds x e'). lia.
  - eapply wake_same; [exact Hmv|done|done|done|done|exact H7].
Qed.

Lemma keep_hif env e sq p k :
  inv granted (THif e sq p k :: O) M V x → keeps granted env (THif e sq p k) O M V x.
Proof.
  intros Hinv. pose proof (inv_packets _ _ _ _ _ Hinv) as Hok.
  pose proof (po_tasks _ _ _ _ Hok) as Ht. apply Forall_cons in Ht as [[Hk (He & Hhead & Hcr & Hcp & Hhp)] _].
  destruct (inv_eps _ _ _ _ _ Hinv e He) as (y & Hy & _). pose proof Hhp as (pkt & s & Hp & Hs & _).
  unfold keeps. cbn [run_task]. unfold try_hif. apply does_bind.
  eapply does_issue_send; [exact Hy|by eapply packet_is_buffered|]. apply does_ret.
  destruct (_ =? A_OK); cbn [after_view].
  - rewrite Hp. by eapply accepted_step.
  - eapply quiet_kind; [| | | | | | |exact Hinv]; try done.
    + exact (own_nodup Hok).
    + intros q Hq. by left.
Qed.

(** ** A packet that was refused *)

Lemma no_search e ts : existsb (searches e) ts = false → (ts ≫= search_part e M) = [].
Proof.
  induction ts as [|t1 ts IH]; [done|]. cbn. intros [H1 H2]%orb_false_iff. rewrite (IH H2), app_nil_r.
  destruct t1; cbn in *; try done. apply bool_decide_eq_false in H1. by rewrite (proj2 (Z.eqb_neq _ _)).
Qed.

Lemma refused_lookup e sq p k :
  inv granted (TReclaim e sq p k :: O) M V x → is_ep e = true → existsb (searches e) O = false →
  ∃ l1 l2, contents M (TxLookupQueue e) = l1 ++ p :: l2 ∧ NoDup (l1 ++ p :: l2).
Proof.
  intros Hinv He Hs. pose proof (inv_packets _ _ _ _ _ Hinv) as Hok.
  destruct (inv_transfers _ _ _ _ _ Hinv e He) as (_ & _ & Hin).
  specialize (Hin (TReclaim e sq p k) p ltac:(by left) eq_refl). unfold lookups in Hin. cbn in Hin.
  rewrite (no_search _ _ Hs), app_nil_r in Hin. apply list_elem_of_split in Hin as (l1 & l2 & Hl).
  exists l1, l2. split; [done|]. pose proof (queue_nodup _ _ _ (all_nodup Hok) (lookup_queue Hok e He)) as Hnd.
  by rewrite <- Hl.
Qed.

(** Taking back a packet: its credits return to the endpoint, and the packet to the
    head of the local queue. *)
Section reclaim.
Context {e : Z} {n p : positive} {k : cont} {l1 l2 : list positive} {y : HTC_ENDPOINT}.
Abbreviation sq := (LocalQueue n).
Abbreviation t := (TReclaim e sq p k).
Abbreviation t' := (TFail e sq k).
Abbreviation M' := (<[sq := p :: contents M sq]> (<[TxLookupQueue e := l1 ++ l2]> M)).
Abbreviation V' := (add_credits e (used V p) V).
Abbreviation x' := (mk_sur (in_flight x) (held x) (posted x) (refused x ∪ {[e]}) (stalled x) (overlapped x)).
Hypothesis Hinv : inv granted (t :: O) M V x.
Hypothesis Hlk : contents M (TxLookupQueue e) = l1 ++ p :: l2.
Hypothesis Hy : v_eps V !! e = Some y.
Let H2 := inv_packets _ _ _ _ _ Hinv.
Let H5 := inv_transfers _ _ _ _ _ Hinv.

Lemma reclaim_ok : task_ok M V t.
Proof. pose proof (po_tasks _ _ _ _ H2) as Ht. by apply Forall_cons in Ht as [? _]. Qed.

Lemma reclaim_own : sq ∈ task_queues t.
Proof. by left. Qed.

Lemma reclaim_contents q : contents M' q =
  if decide (q = sq) then p :: contents M sq else if decide (q = TxLookupQueue e) then l1 ++ l2 else contents M q.
Proof. rewrite !contents_insert. repeat case_decide; subst; done. Qed.

Lemma reclaim_is P p' : packet_is P V p' → packet_is P V' p'.
Proof.
  destruct (add_credits_view e (used V p) V) as ((Hvp & Hvn & _) & _).
  intros (pkt & s & ? & ? & ?). exists pkt, s. by rewrite Hvp, Hvn.
Qed.

Lemma reclaim_used p' : used V' p' = used V p'.
Proof. destruct (add_credits_view e (used V p) V) as ((Hvp & _) & _). unfold used at 1. by rewrite Hvp. Qed.

Lemma reclaim_moves : moves t t' M M' V V' [] [].
Proof.
  pose proof reclaim_own as Hsqo. destruct (add_credits_view e (used V p) V) as ((Hvp & Hvn & Hvd & Hvx) & Hvs & _).
  apply (two_queues_moves sq (TxLookupQueue e) _ _ H2); try done.
  - by rewrite (own_queue H2).
  - rewrite (lookup_queue H2); [done|]. apply reclaim_ok.
  - by right.
  - left. exists e. split; [apply reclaim_ok|auto].
  - exact (own_nodup H2).
  - intros q Hq. by left.
  - rewrite Hlk. cbn. rewrite !app_nil_r. solve_Permutation.
  - by rewrite Hvd, app_nil_r.
  - by apply touches_same.
  - intros p' Hp. by apply elem_of_nil in Hp.
Qed.

Lemma reclaim_packets : packets_ok (t' :: O) M' V' (posted x).
Proof.
  pose proof reclaim_moves as Hmv. destruct reclaim_ok as [Hk (He & Hhead & Hcr & Hcp & Hhp)].
  eapply packets_moves; [exact H2|exact Hmv|exact H5| |].
  - split; [done|]. cbn. rewrite reclaim_contents, decide_True by done. split; [done|].
    split; constructor; [by apply reclaim_is| |unfold has_credits; by rewrite reclaim_used|].
    + eapply Forall_impl; [exact Hhead|]. intros p'. apply reclaim_is.
    + eapply Forall_impl; [exact Hcr|]. intros p'. unfold has_credits. by rewrite reclaim_used.
  - intros q p' Hq Hp. rewrite reclaim_contents in Hp.
    case_decide as Hq1; [subst q; by destruct (own_endpoint H2 _ _ reclaim_own Hq)|].
    left. split; [|by intros ?%elem_of_nil]. case_decide as Hq2; [subst q|done]. rewrite Hlk. set_solver.
Qed.

(** No other task hands packets of this endpoint to the bus. *)
Lemma reclaim_alone t1 p' : t1 ∈ O → hif_packet t1 ≠ Some (e, p').
Proof.
  intros Ho Hh. destruct reclaim_ok as [_ (He & _)].
  destruct (drainer_alone Hinv (λ _, eq_refl) He y Hy) as [_ Hz].
  assert (drains e t1 = 1) as Hd1 by (destruct t1; cbn in Hh; try done; injection Hh as -> _; cbn; by rewrite Z.eqb_refl).
  apply elem_of_Permutation in Ho as [O' HO]. rewrite HO, total_of_cons, Hd1 in Hz.
  assert (0 ≤ total (drains e) O'); [|lia]. apply total_of_nonneg. intros t2 _.
  destruct t2; cbn; unfold c_bool; try case_match; lia.
Qed.
Lemma reclaim_transfers : transfers_ok (t' :: O) M' V' x'.
Proof.
  eapply transfers_moves; [exact H2|exact reclaim_moves|exact H5|done|]. intros e' He'. cbn [search_part pending].
  rewrite reclaim_contents, decide_False by done. destruct (Z.eqb_spec e e') as [<-|Hne].
  - rewrite decide_True by done. split; [|split; [done|split; [done|split; [done|]]]].
    + rewrite Hlk. unfold in_flight_of. cbn [in_flight]. rewrite !fmap_app, fmap_cons. intros lost H.
      exists lost. split; [|done]. apply (Permutation_cons_inv (a := buffer_of V p)).
      transitivity (((Some <$> (filter (λ eb, eb.1 = e) (in_flight x)).*2) ++ [buffer_of V p] ++ (O ≫= pending e V)) ++ lost);
        [rewrite <- H|]; solve_Permutation.
    + intros t1 p' Ht1 Hh [Ho|Ho] _; [|done]. by destruct (reclaim_alone t1 p' Ho).
  - rewrite decide_False by congruence. split; [eauto|]. split; [done|]. split; [done|]. split; [done|].
    intros t1 p' Ht1 Hh _. done.
Qed.

Lemma reclaim_credits : credits_ok granted (t' :: O) M' V' x'.
Proof.
  destruct (add_credits_view e (used V p) V) as (_ & _ & _ & Hve & Hy'). specialize (Hy' y Hy).
  destruct reclaim_ok as [_ (_ & _ & Hcr & _)].
  eapply credits_moves; [exact H2|exact reclaim_moves|exact H5|apply Hinv| |cbn; set_solver]. intros e' He'. cbn zeta.
  unfold reported, holds, credits_of. cbn. destruct (decide (e' = e)) as [->|Hne].
  - right. rewrite Hy', Hy, Z.eqb_refl. cbn.
    assert (0 ≤ total (used V) (contents M sq)); [|split; [lia|set_solver]].
    apply total_of_nonneg. intros p' Hp. rewrite Forall_forall in Hcr. by apply Hcr.
  - left. rewrite Hve, (proj2 (Z.eqb_neq e e')) by done. lia.
Qed.

Lemma reclaim_inv : inv granted (t' :: O) M' V' x'.
Proof.
  pose proof reclaim_moves as Hmv. destruct reclaim_ok as [_ (He & _ & _ & Hcp & _)].
  destruct (add_credits_view e (used V p) V) as (_ & _ & Hvc & Hve & Hy'). specialize (Hy' y Hy).
  split.
  - eapply eps_moves; [exact Hmv|apply Hinv|]. intros e' z z' _ Hz Hz' Hle. destruct (decide (e' = e)) as [->|Hne].
    + rewrite Hy' in Hz'. simplify_eq. cbn. unfold has_credits in Hcp. lia.
    + rewrite Hve in Hz' by done. by simplify_eq.
  - exact reclaim_packets.
  - exact (inv_flight _ _ _ _ _ Hinv).
  - eapply drains_moves; [exact Hmv|apply Hinv|]. intros e' z z' He' Hz Hz' Hle _. cbn.
    specialize (Hvc e'). rewrite Hz, Hz' in Hvc. injection Hvc as ->. lia.
  - exact reclaim_transfers.
  - exact reclaim_credits.
  - eapply wake_moves; [exact Hmv|apply Hinv|]. intros e' z' He' Hz' H0. cbn [stalled]. destruct (decide (e' = e)) as [->|Hne].
    + rewrite Hy' in Hz'. injection Hz' as <-. cbn in H0. by destruct (drain_cons e t y Hinv He Hy); [cbn; by rewrite Z.eqb_refl|].
    + right; right; right; right. split; [by apply Hve|]. split; [|done].
      by rewrite reclaim_contents, decide_False, decide_False.
Qed.
End reclaim.

Lemma reclaim_step e sq p k l1 l2 y x' :
  inv granted (TReclaim e sq p k :: O) M V x →
  contents M (TxLookupQueue e) = l1 ++ p :: l2 → v_eps V !! e = Some y →
  x' = mk_sur (in_flight x) (held x) (posted x) (refused x ∪ {[e]}) (stalled x) (overlapped x) →
  inv granted (TFail e sq k :: O)
    (<[sq := p :: contents M sq]> (<[TxLookupQueue e := l1 ++ l2]> M)) (add_credits e (used V p) V) x'.
Proof.
  intros Hinv Hlk Hy ->.
  destruct (own_is_local (inv_packets _ _ _ _ _ Hinv) sq) as (n & -> & _); [by left|].
  by eapply reclaim_inv.
Qed.

Lemma keep_reclaim env e sq p k :
  inv granted (TReclaim e sq p k :: O) M V x → existsb (searches e) O = false →
  keeps granted env (TReclaim e sq p k) O M V x.
Proof.
  intros Hinv Hns. pose proof (inv_packets _ _ _ _ _ Hinv) as Hok.
  pose proof (po_tasks _ _ _ _ Hok) as Ht. apply Forall_cons in Ht as [[Hk (He & Hhead & Hcr & Hcp & Hhp)] _].
  destruct (inv_eps _ _ _ _ _ Hinv e He) as (y & Hy & _). pose proof Hhp as (pkt & s & Hp & Hs & _).
  destruct (refused_lookup _ _ _ _ Hinv He Hns) as (l1 & l2 & Hlk & Hlnd).
  pose proof (lookup_queue Hok e He) as Hlkm. rewrite Hlk in Hlkm.
  assert (sq ∈ task_queues (TReclaim e sq p k)) as Hsqo by by left.
  assert (endpoint_queue (TxLookupQueue e)) as Heq by (exists e; auto).
  pose proof (own_endpoint Hok sq _ Hsqo Heq) as Hsqe.
  unfold keeps. cbn [run_task]. unfold try_reclaim, issue_reclaim. apply does_bind.
  apply does_bind, does_unseen; [by intros t|].
  apply does_bind. eapply (does_upd_ep _ _ _ _ _ y); [exact Hy|intros z <-; by destruct z|]. rewrite set_v_eps_id by done.
  apply does_bind. eapply does_remove; [exact Hlkm|set_solver|]. rewrite filter_ne_split by done.
  apply does_bind. eapply does_get_pkt; [exact Hp|]. intros pk Hpk. norm.
  apply does_bind. eapply (does_add_credits e (CreditsUsed pk)); [exact Hy|].
  assert (used V p = CreditsUsed pk) as <- by (unfold used; by rewrite Hp).
  eapply does_enqueue_to_head; [rewrite lookup_insert_ne by done; by apply (own_queue Hok)|by apply unlinked_moved; [exact (all_nodup Hok)|]|].
  apply does_ret. by eapply reclaim_step.
Qed.

(** The packets that could not be sent go back to the endpoint's queue, in front. *)
Lemma fail_step e sq k :
  inv granted (TFail e sq k :: O) M V x →
  inv granted (TClear e k :: O)
    (<[sq := []]> (<[TxQueue e := contents M sq ++ contents M (TxQueue e)]> M)) V x.
Proof.
  intros Hinv. pose proof Hinv as [H1 H2 H3 H4 H5 H6 H7].
  pose proof (po_tasks _ _ _ _ H2) as Ht. apply Forall_cons in Ht as [[Hk (He & Hhead & Hcr)] _]. cbn in Hk.
  set (t := TFail e sq k) in *. assert (sq ∈ task_queues t) as Hsqo by by left.
  destruct (own_is_local H2 _ Hsqo) as (n & -> & _). pose proof (own_nodup H2) as Hnd.
  destruct (H1 e He) as (y & Hy & _). set (M' := <[LocalQueue n := _]> _).
  assert (∀ q, contents M' q = if decide (q = LocalQueue n) then []
    else if decide (q = TxQueue e) then contents M (LocalQueue n) ++ contents M (TxQueue e) else contents M q) as Hcon.
  { intros q. unfold M'. rewrite !contents_insert. repeat case_decide; subst; done. }
  assert (moves t (TClear e k) M M' V V [] []) as Hmv.
  { apply (two_queues_moves (LocalQueue n) (TxQueue e) _ _ H2); try done.
    - by rewrite (own_queue H2).
    - by rewrite (tx_queue H2).
    - by right.
    - left. exists e. auto.
    - cbn in Hnd. by apply NoDup_cons in Hnd as [].
    - intros q Hq. by right.
    - intros q [->|Hq]%elem_of_cons; [right; by rewrite contents_insert_eq|by left].
    - cbn. by rewrite !app_nil_r.
    - by rewrite app_nil_r.
    - intros p' Hp. by apply elem_of_nil in Hp. }
  split.
  - done.
  - eapply packets_moves; [exact H2|exact Hmv|exact H5|by split|].
    intros q p' Hq Hp. rewrite Hcon in Hp. case_decide as Hq1; [by apply elem_of_nil in Hp|].
    case_decide as Hq2; [subst q|left; split; [done|by intros ?%elem_of_nil]].
    apply elem_of_app in Hp as [Hp|Hp]; [right|left; split; [done|by intros ?%elem_of_nil]].
    rewrite Forall_forall in Hhead. by apply Hhead.
  - done.
  - eapply drains_same; [exact Hmv|done|done|done].
  - eapply transfers_same; [exact H2|exact Hmv|done| |done|done|done|done|exact H5].
    intros e'. by rewrite Hcon, !decide_False.
  - eapply credits_same; [exact H2|exact Hmv|done|done|done|done|done|exact H5|exact H6].
  - eapply wake_moves; [exact Hmv|exact H7|]. intros e' z' He' Hz' H0. destruct (decide (e' = e)) as [->|Hne].
    + by destruct (drain_cons e t z' Hinv He Hz'); [cbn; by rewrite Z.eqb_refl|].
    + right; right; right; right. split; [done|]. split; [|done].
      rewrite Hcon, decide_False by done. rewrite decide_False; [done|congruence].
Qed.

Lemma keep_fail env e sq k :
  inv granted (TFail e sq k :: O) M V x → keeps granted env (TFail e sq k) O M V x.
Proof.
  intros Hinv. pose proof (inv_packets _ _ _ _ _ Hinv) as Hok.
  pose proof (po_tasks _ _ _ _ Hok) as Ht. apply Forall_cons in Ht as [[_ (He & _)] _].
  assert (sq ∈ task_queues (TFail e sq k)) as Hsqo by by left.
  assert (endpoint_queue (TxQueue e)) as Heq by (exists e; auto).
  unfold keeps. cbn [run_task]. unfold try_fail.
  apply does_bind. eapply does_depth; [by apply (own_queue Hok)|]. apply does_bind, does_pm_puts.
  apply does_bind. eapply does_transfer_to_head;
    [apply not_eq_sym; by eapply own_endpoint|by apply (tx_queue Hok)|by apply (own_queue Hok)|].
  apply does_ret. by apply fail_step.
Qed.

Lemma keep_clear env e k :
  inv granted (TClear e k :: O) M V x → keeps granted env (TClear e k) O M V x.
Proof.
  intros Hinv. pose proof (inv_packets _ _ _ _ _ Hinv) as Hok.
  pose proof (po_tasks _ _ _ _ Hok) as Ht. apply Forall_cons in Ht as [[_ He] _].
  destruct (inv_eps _ _ _ _ _ Hinv e He) as (y & Hy & _). destruct (set_count_others e 0 V) as (Hvp & Hvn & Hvd & Hvx).
  unfold keeps. cbn [run_task]. unfold try_clear. eapply does_stop; [exact Hy|]. cbn [after_view].
  eapply (stop_step Hinv (λ _, eq_refl) eq_refl); try done.
  - apply moves_same; try done.
    + rewrite resume_queues. exact (own_nodup Hok).
    + by rewrite resume_queues.
    + intros q Hq. by rewrite (own_queue Hok).
    + intros q Hq. left. by rewrite resume_queues.
    + by destruct (resume_plain e M V k) as (_ & _ & _ & _ & _ & _ & _ & _ & ?).
    + intros e'. by rewrite set_count_static.
  - intros e' Hne Hin. cbn. set_solver.
  - right; left. cbn. set_solver.
Qed.
End hif.
