(* ===== verification/HtcComplete.v ===== *)
(** The steps that complete packets, or process credits, keep the channel's
    invariant. *)
From S2P Require Import Prelude Ring HtcQueue HtcTypes HtcSend HtcSystem HtcView HtcMoves HtcInv HtcSteps HtcDrain HtcHif.

Section complete.
Context {O : list task} {M : queue_map} {V : view} {x : surroundings} {granted : Z → Z}.
Implicit Types (q : htc_queue) (p : positive).

(** ** Packets that did not get in *)

Lemma keep_leftover env e q :
  inv granted (TLeftover e q :: O) M V x → keeps granted env (TLeftover e q) O M V x.
Proof.
  intros Hinv. pose proof (inv_packets _ _ _ _ _ Hinv) as Hok.
  pose proof (po_tasks _ _ _ _ Hok) as Ht. apply Forall_cons in Ht as [[_ He] _].
  destruct (inv_eps _ _ _ _ _ Hinv e He) as (y & Hy & _).
  assert (q ∈ task_queues (TLeftover e q)) as Hqo by by left. pose proof (own_queue Hok _ Hqo) as Hqm.
  unfold keeps. cbn [run_task]. eapply does_send_leftover; [exact Hy|exact Hqm|by apply (own_list_nodup Hok)
    |apply (queue_buffered Hok)|]. cbn [after_view]. set (l := contents M q) in *.
  destruct (restored_foldl V l) as (Hve & Hvd & Hvn).
  assert (moves (TLeftover e q) (TDone A_OK) M (<[q := []]> M) V (told (foldl restored V l) l) l l) as Hmv.
  { apply (moves_of [] [q] Hok); try done.
    - cbn. rewrite Hvn. lia.
    - intros q'. rewrite lookup_insert_is_Some'. split; [|set_solver]. intros [<-|?]; right; [by rewrite Hqm|done].
    - intros q' Hq'. by apply elem_of_nil in Hq'.
    - apply NoDup_nil_2.
    - intros q' Hq'. by apply elem_of_nil in Hq'.
    - intros q' Hq'. apply contents_insert_ne. intros <-. apply Hq'. by left.
    - intros q' ->%list_elem_of_singleton. right; left. by left.
    - intros q' ->%list_elem_of_singleton. right. by rewrite contents_insert_eq.
    - cbn. rewrite !app_nil_r, all_insert. by rewrite (all_lookup _ _ _ Hqm).
    - cbn. by rewrite Hvd.
    - destruct (touches_foldl restored V l restored_touches) as [H1 H2 H3 H4]. by split.
    - intros p Hp. right. exists q. split; [done|]. right. by left.
    - intros e'. cbn. by rewrite Hve. }
  eapply quiet_step; [exact Hinv|exact Hmv|done| |by split|done|done].
  intros q' Hq'. rewrite contents_insert_ne by (by eapply (own_endpoint Hok)). split; [done|].
  intros p Hp Hpl. by apply (own_not_queued Hok q q' p Hqo Hpl Hq').
Qed.

(** ** A packet whose transfer has completed *)

Lemma finish_moves e p t' :
  inv granted (TIndicate e (Some p) :: O) M V x → task_queues t' = [] → loose t' = [] →
  moves (TIndicate e (Some p)) t' M (<[LocalQueue (v_next V) := []]> M) V (finish V p) [p] [p].
Proof.
  intros Hinv Hq Hl. pose proof (inv_packets _ _ _ _ _ Hinv) as Hok. pose proof (local_fresh Hok) as HL.
  set (L := LocalQueue (v_next V)) in *.
  apply (moves_of [L] [] Hok); try done.
  - cbn. lia.
  - intros q. rewrite lookup_insert_is_Some'. set_solver.
  - intros q ->%list_elem_of_singleton. exists (v_next V). split; [done|]. cbn. lia.
  - rewrite Hq. apply NoDup_nil_2.
  - intros q. rewrite Hq. by intros ?%elem_of_nil.
  - intros q _. rewrite contents_insert. case_decide; [|done]. subst q. unfold contents. by rewrite HL.
  - intros q Hq'. by apply elem_of_nil in Hq'.
  - intros q Hq'. by apply elem_of_nil in Hq'.
  - rewrite Hl, all_new_empty by (by rewrite HL). cbn. rewrite app_nil_r. symmetry. apply Permutation_cons_append.
  - cbn. by rewrite restored_done.
  - apply finish_touches.
  - intros p' ->%list_elem_of_singleton. left. by left.
  - intros e'. cbn. by rewrite restored_eps.
Qed.

(** The completion did not find its packet: there is nothing to complete. *)
Lemma keep_indicate_none env e y :
  inv granted (TIndicate e None :: O) M V x → is_ep e = true → v_eps V !! e = Some y →
  keeps granted env (TIndicate e None) O M V x.
Proof.
  intros Hinv He Hy. unfold keeps. cbn [run_task]. unfold indicate. apply does_bind, does_ret, does_bind.
  eapply does_get_ep; [exact Hy|]. intros z _. apply does_ret. cbn [after_view].
  eapply quiet_kind; [| | | | | | |exact Hinv]; try (by destruct (TxCreditFlowEnabled z)).
  - destruct (TxCreditFlowEnabled z); apply NoDup_nil_2.
  - intros q Hq. by apply elem_of_nil in Hq.
Qed.

Lemma keep_indicate env e o :
  inv granted (TIndicate e o :: O) M V x → keeps granted env (TIndicate e o) O M V x.
Proof.
  intros Hinv. pose proof (inv_packets _ _ _ _ _ Hinv) as Hok.
  pose proof (po_tasks _ _ _ _ Hok) as Ht. apply Forall_cons in Ht as [[_ He] _]. cbn in He.
  destruct (inv_eps _ _ _ _ _ Hinv e He) as (y & Hy & _). destruct o as [p|]; [|by eapply keep_indicate_none].
  assert (p ∈ loose (TIndicate e (Some p))) as Hlo by by left.
  pose proof (loose_owned Hok _ Hlo) as Hown. pose proof Hown as (pkt & s & Hp & Hs & _ & Htag & _).
  assert (p ∉ all M) as Hall.
  { pose proof (po_nodup _ _ _ _ Hok) as Hnd. rewrite live_cons in Hnd. apply NoDup_app in Hnd as (Hnd & _).
    apply NoDup_app in Hnd as (_ & Hd & _). intros H. by apply (Hd p H). }
  unfold keeps. cbn [run_task]. unfold indicate. apply does_bind, does_bind.
  eapply does_get_pkt; [exact Hp|]. intros k Hk. norm. change (Tag (norm_pkt k)) with (Tag k) in Htag.
  rewrite (proj2 (Z.eqb_neq _ _) Htag).
  assert (does (op (upd_pkt p (set_Status 0));; send_packet_completion p) M V (λ a M' V',
    does (e0 ← op (get_ep e); mret (if TxCreditFlowEnabled e0 then TDone A_OK else TTrySend e KReturn)) M' V'
      (λ t' M'' V'', inv granted (t' :: O) M'' V'' (after_view env (TIndicate e (Some p)) t' V x)))) as Hrest.
  { apply does_bind. eapply (does_upd_pkt p _ _ _ (norm_pkt k) (norm_pkt k)); [exact Hp|fields|].
    rewrite set_v_pkts_id by done.
    apply does_send_packet_completion; [exact (local_fresh Hok)|done|done| |].
    { intros e' He'. destruct (inv_eps _ _ _ _ _ Hinv e' He') as (z & -> & _). done. }
    apply does_bind. eapply does_get_ep; [cbn; rewrite restored_eps; exact Hy|]. intros z _. apply does_ret.
    cbn [after_view]. set (t' := if TxCreditFlowEnabled z then TDone A_OK else TTrySend e KReturn).
    eapply quiet_step; [exact Hinv|apply finish_moves; [done|unfold t'; by destruct (TxCreditFlowEnabled z)..]| | | | |].
    - cbn. by rewrite restored_eps.
    - intros q Hq. split.
      + rewrite contents_insert. case_decide; [|done]. subst q. by destruct Hq as (? & _ & [?|?]).
      + intros p' Hp' ->%list_elem_of_singleton. by apply (loose_not_queued Hok q p Hlo).
    - unfold t'. by destruct (TxCreditFlowEnabled z).
    - intros e'. unfold t'. by destruct (TxCreditFlowEnabled z).
    - unfold t'. by destruct (TxCreditFlowEnabled z). }
  apply does_bind, does_when; intros _; [apply does_put|]; exact Hrest.
Qed.

(** ** Flushing *)

Lemma keep_flush env e :
  inv granted (TFlush e :: O) M V x → keeps granted env (TFlush e) O M V x.
Proof.
  intros Hinv. pose proof Hinv as [H1 H2 H3 H4 H5 H6 H7].
  pose proof (po_tasks _ _ _ _ H2) as Ht. apply Forall_cons in Ht as [[_ He] _].
  destruct (H1 e He) as (y & Hy & _). pose proof (tx_queue H2 e He) as Htx. set (l := contents M (TxQueue e)) in *.
  unfold keeps. cbn [run_task]. unfold htc_flush_endpoint. apply does_bind, does_bind.
  eapply does_get_ep; [exact Hy|]. intros z Hz. norm. destruct (_ =? 0).
  { apply does_ret, does_ret. cbn [after_view]. eapply quiet_kind; [| | | | | | |exact Hinv]; try done; [apply NoDup_nil_2|].
    intros q Hq. by apply elem_of_nil in Hq. }
  unfold htc_flush_endpoint_tx. apply does_bind. eapply does_depth; [exact Htx|]. rewrite Nat2Z.id.
  destruct (finish_fields V l) as (Hve & Hvd & Hvn). set (V' := foldl finish V l) in *.
  eapply does_flush_loop; [done|exact Htx|exact (all_nodup H2)|exact (qo_local _ _ _ (po_queues _ _ _ _ H2))| | |].
  { intros e' He'. destruct (H1 e' He') as (z' & -> & _). done. }
  { apply Forall_forall. intros p. apply (queued_owned H2). }
  intros M' Hext. fold V' in Hext |- *. apply does_ret. cbn [after_view].
  assert (∀ q, contents M' q = if decide (q = TxQueue e) then [] else contents M q) as Hcon.
  { intros q. rewrite (extends_contents _ _ _ _ _ Hext), contents_insert.
    destruct (decide (q = TxQueue e)) as [->|]; [by rewrite decide_True|by rewrite decide_False]. }
  assert (moves (TFlush e) (TDone A_OK) M M' V V' l l) as Hmv.
  { split; try done.
    - intros q Hq. rewrite (ext_old _ _ _ _ Hext); rewrite lookup_insert_is_Some'; by right.
    - intros q Hq Hq'. assert (TxQueue e ≠ q) as Hne by (intros <-; congruence).
      destruct (ext_new _ _ _ _ Hext q) as (_ & ?); [by rewrite lookup_insert_ne|done|done].
    - apply NoDup_nil_2.
    - intros q Hq. by apply elem_of_nil in Hq.
    - intros q. rewrite Hcon. case_decide; [subst; right; left; exists e; auto|by left].
    - intros q Hq. by apply elem_of_nil in Hq.
    - cbn. rewrite !app_nil_r, (extends_all _ _ _ _ Hext), all_insert. by rewrite (all_lookup _ _ _ Htx).
    - apply touches_foldl, finish_touches.
    - intros p Hp. right. exists (TxQueue e). split; [done|]. left. by exists e.
    - intros e'. by rewrite Hve. }
  split.
  - eapply eps_moves; [exact Hmv|done|]. intros e' z1 z2 _ Hz1 Hz2. rewrite Hve in Hz2. by simplify_eq.
  - eapply packets_moves; [exact H2|exact Hmv|exact H5|by split|]. intros q p Hq Hp. left.
    rewrite Hcon in Hp. case_decide; [by apply elem_of_nil in Hp|]. split; [done|]. intros Hp'.
    assert (q = TxQueue e); [|done]. eapply contents_disjoint; [exact (all_nodup H2)|exact Hp|exact Hp'].
  - done.
  - eapply drains_same; [exact Hmv|exact Hve|done|done].
  - eapply transfers_same; [exact H2|exact Hmv|done| |done|done|done|done|exact H5].
    intros e'. by rewrite Hcon, decide_False.
  - eapply credits_same; [exact H2|exact Hmv|done|done|exact Hve|done|done|exact H5|exact H6].
  - eapply wake_moves; [exact Hmv|exact H7|]. intros e' z' He' _ _. rewrite Hcon. case_decide; [by left|].
    right; right; right; right. by rewrite Hve.
Qed.
End complete.

(** The steps that look up the packet of a completed transfer, or process a credit
    report, keep the channel's invariant. *)

Section lookup.
Context {t : task} {O : list task} {M : queue_map} {V : view} {x : surroundings} {granted : Z → Z}.
Implicit Types (q : htc_queue) (p : positive) (e : Z).
Hypothesis Hinv : inv granted (t :: O) M V x.

Lemma lookups_live e p : p ∈ lookups e M (t :: O) → p ∈ all M.
Proof.
  unfold lookups. rewrite elem_of_app. intros [Hp|Hp]; [by eapply contents_all|].
  apply list_elem_of_bind in Hp as (t1 & Hp & _). destruct t1; cbn in Hp; try by apply elem_of_nil in Hp.
  case_match; [by eapply contents_all|by apply elem_of_nil in Hp].
Qed.

(** While one completion is under way no other task searches the lookup queue. *)
Lemma completer_alone e : is_ep e = true → e ∉ overlapped x → completes e t = true → (O ≫= search_part e M) = [].
Proof.
  intros He Ho Hc. destruct (inv_transfers _ _ _ _ _ Hinv e He) as (_ & H & _). apply H in Ho as [Ho _].
  rewrite total_of_cons, Hc in Ho. cbn in Ho.
  assert (∀ t1, t1 ∈ O → completes e t1 = false) as Hn.
  { intros t1 Ht1. apply elem_of_Permutation in Ht1 as [O' HO]. rewrite HO, total_of_cons in Ho.
    assert (0 ≤ total (λ t, c_bool (completes e t)) O') by (apply total_of_nonneg; intros t2 _; by destruct (completes e t2)).
    destruct (completes e t1); cbn in Ho; [lia|done]. }
  clear -Hn. induction O as [|t1 O1 IH]; [done|]. cbn. rewrite IH by (intros t2 Ht2; apply Hn; by right).
  specialize (Hn t1 ltac:(by left)). rewrite app_nil_r. destruct t1; cbn in *; try done.
  apply bool_decide_eq_false in Hn. by rewrite (proj2 (Z.eqb_neq _ _)).
Qed.

(** No two transfers have the same buffer. *)
Definition search_queue e t1 : list htc_queue :=
  match t1 with TSearch e' _ q => if e' =? e then [q] else [] | _ => [] end.

Lemma lookups_queues e ts : lookups e M ts = (TxLookupQueue e :: (ts ≫= search_queue e)) ≫= contents M.
Proof.
  unfold lookups. cbn. f_equal. induction ts as [|t1 ts IH]; [done|]. cbn. rewrite bind_app, IH. f_equal.
  destruct t1; cbn; try done. case_match; [|done]. cbn. by rewrite app_nil_r.
Qed.

Lemma lookups_nodup e : NoDup (lookups e M (t :: O)).
Proof.
  pose proof (inv_packets _ _ _ _ _ Hinv) as Hok. pose proof (all_nodup Hok) as Hnd.
  pose proof (po_queues _ _ _ _ Hok) as Hqs. rewrite lookups_queues. set (ts := t :: O) in *.
  assert (∀ ts1, sublist (ts1 ≫= search_queue e) (ts1 ≫= task_queues)) as Hsub.
  { induction ts1 as [|t1 ts1 IH]; [done|]. cbn. apply sublist_app; [|done].
    destruct t1; cbn; try apply sublist_nil_l. case_match; [done|apply sublist_nil_l]. }
  apply NoDup_bind.
  - intros q1 q2 p _ _. by apply contents_disjoint.
  - intros q _. unfold contents. destruct (M !! q) as [l|] eqn:E; [by eapply queue_nodup|apply NoDup_nil_2].
  - constructor; [|eapply sublist_NoDup; [exact (qo_nodup _ _ _ Hqs)|done]].
    intros Hq. destruct (qo_own _ _ _ Hqs (TxLookupQueue e)) as [[k [=]] _].
    eapply sublist_subseteq; [apply Hsub|done].
Qed.

Lemma transfers_nodup e : is_ep e = true → NoDup (transfers e V (t :: O) x).
Proof.
  intros He. destruct (inv_transfers _ _ _ _ _ Hinv e He) as ((lost & H & _) & _).
  assert (NoDup (transfers e V (t :: O) x ++ lost)) as Hnd; [|by apply NoDup_app in Hnd as (? & _)]. rewrite <- H.
  apply NoDup_fmap_2_strong; [|by apply lookups_nodup]. intros p1 p2 H1 H2.
  apply (po_distinct _ _ _ _ (inv_packets _ _ _ _ _ Hinv)); unfold live; apply elem_of_app; left; by eapply lookups_live.
Qed.

(** The packet that was found is not one that is being handed to the bus. *)
Lemma found_other e b p t1 p1 : is_ep e = true → pending e V t = [Some b] →
  buffer_of V p = Some b → t1 ∈ O → hif_packet t1 = Some (e, p1) → p1 ≠ p.
Proof.
  intros He Hp Hb Ht1 Hh ->. pose proof (transfers_nodup e He) as Hnd. unfold transfers in Hnd. cbn in Hnd.
  rewrite Hp in Hnd. apply NoDup_app in Hnd as (_ & _ & Hnd). apply NoDup_app in Hnd as (_ & Hd & _).
  apply (Hd (Some b)); [by left|]. apply list_elem_of_bind. exists t1. split; [|done].
  rewrite <- Hb. destruct t1; cbn in *; try done; injection Hh as -> ->; rewrite Z.eqb_refl; by left.
Qed.

(** The lookup has ended.  A packet that has been found leaves the lookup queue; one
    that has not, because another completion has the queue, stays there for good. *)
Lemma ended_step e b o M' V' :
  is_ep e = true → completes e t = true → (∀ e', pending e' V t = if e =? e' then [Some b] else []) →
  (∀ e', drains e' t = 0 ∧ charged e' M V t = 0 ∧ reported e' t = 0 ∧ wakes e' t = false ∧
    (e' ≠ e → search_part e' M t = [])) → hif_packet t = None →
  moves t (TIndicate e o) M M' V V' [] [] → v_eps V' = v_eps V →
  match o with Some p => buffer_of V p = Some b | None => e ∈ overlapped x end →
  contents M (TxLookupQueue e) ++ search_part e M t ≡ₚ option_list o ++ contents M' (TxLookupQueue e) →
  (∀ e', e' ≠ e → contents M' (TxLookupQueue e') = contents M (TxLookupQueue e')) →
  (∀ e', contents M' (TxQueue e') = contents M (TxQueue e')) →
  (∀ q p, endpoint_queue q → p ∈ contents M' q → packet_is headed V p) →
  (∀ P p, packet_is P V p → packet_is P V' p) →
  inv granted (TIndicate e o :: O) M' V' x.
Proof.
  intros He Hc Hp Hplain Hh Hmv Hve Ho Hlk Hlo Htx Hhead Hpk. pose proof Hinv as [H1 H2 H3 H4 H5 H6 H7].
  split.
  - eapply eps_moves; [exact Hmv|done|]. intros e' z1 z2 _ Hz1 Hz2. rewrite Hve in Hz2. by simplify_eq.
  - eapply packets_moves; [exact H2|exact Hmv|exact H5|by split|]. intros q p' Hq Hp'. right. apply Hpk. by eapply Hhead.
  - done.
  - eapply drains_same; [exact Hmv|done| |done]. intros e'. by destruct (Hplain e') as (-> & _).
  - eapply transfers_moves; [exact H2|exact Hmv|exact H5|done|]. intros e' He'. cbn [search_part pending].
    rewrite app_nil_l, !Hp. destruct (decide (e' = e)) as [->|Hne].
    + rewrite Z.eqb_refl. split; [|split; [done|split; [|split; [done|]]]].
      * intros lost. rewrite (app_assoc (contents M _)), Hlk, !fmap_app. intros H. destruct o as [p|]; cbn in H.
        -- exists lost. split; [|done]. rewrite Ho in H. apply (Permutation_cons_inv (a := Some b)).
           rewrite H. cbn. solve_Permutation.
        -- exists (Some b :: lost). split; [|done]. rewrite H. cbn. solve_Permutation.
      * intros Hn _. destruct o; [by eexists|done].
      * intros t1 p1 Ht1 Hh1 Hcase Hin. rewrite app_nil_r. rewrite Hlk in Hin.
        apply elem_of_cons in Ht1 as [->|Ht1]; [congruence|]. destruct o as [p|]; [|done].
        pose proof (found_other e b p t1 p1 He ltac:(by rewrite Hp, Z.eqb_refl) Ho Ht1 Hh1). set_solver.
    + rewrite (proj2 (Z.eqb_neq e e')) by congruence. rewrite Hlo by done.
      destruct (Hplain e') as (_ & _ & _ & _ & Hs). rewrite (Hs Hne). split; [eauto|].
      split; [done|]. split; [intros _ Hee; by destruct Hne|]. done.
  - eapply credits_same; [exact H2|exact Hmv|done|done|done| | |exact H5|exact H6].
    + intros e'. by destruct (Hplain e') as (_ & -> & _).
    + intros e'. by destruct (Hplain e') as (_ & _ & -> & _).
  - eapply wake_same; [exact Hmv|done|exact Htx|done| |exact H7]. intros e'. by destruct (Hplain e') as (_ & _ & _ & -> & _).
Qed.
End lookup.

Section complete.
Context {O : list task} {M : queue_map} {V : view} {x : surroundings} {granted : Z → Z}.
Implicit Types (q : htc_queue) (p : positive) (e : Z).

(** The buffer of a completed transfer belongs to a packet that waits for it. *)
Lemma completed_known t e b :
  inv granted (t :: O) M V x → is_ep e = true → pending e V t = [Some b] →
  ∃ p, p ∈ lookups e M (t :: O) ∧ buffer_of V p = Some b.
Proof.
  intros Hinv He Hp. destruct (inv_transfers _ _ _ _ _ Hinv e He) as ((lost & Htr & _) & _).
  assert (Some b ∈ transfers e V (t :: O) x ++ lost) as Hin.
  { apply elem_of_app. left. unfold transfers. cbn. rewrite Hp. apply elem_of_app. right. by left. }
  rewrite <- Htr in Hin. apply list_elem_of_fmap in Hin as (p & Hb & Hin). by exists p.
Qed.

Lemma complete_moves e b p l t' la :
  inv granted (TComplete e b :: O) M V x → is_ep e = true → contents M (TxLookupQueue e) = p :: l →
  let L := LocalQueue (v_next V) in
  (task_queues t' = [] ∧ loose t' = [p] ∧ la = l ∨
   task_queues t' = [L] ∧ loose t' = [] ∧ la = []) →
  moves (TComplete e b) t' M
    (<[TxLookupQueue e := la]> (<[L := if task_queues t' then [] else p :: l]> M)) V
    (set_v_next (Pos.succ (v_next V)) V) [] [].
Proof.
  intros Hinv He Hc L Hcase. pose proof (inv_packets _ _ _ _ _ Hinv) as Hok. pose proof (local_fresh Hok) as HL.
  fold L in HL. pose proof (lookup_queue Hok e He) as Hlk. rewrite Hc in Hlk.
  assert (contents M L = []) as HcL by (unfold contents; by rewrite HL).
  apply (moves_of [L] (TxLookupQueue e :: task_queues t') Hok); try done.
  - cbn. lia.
  - intros q. rewrite !lookup_insert_is_Some'. split; [|set_solver]. intros [<-|[<-|?]]; [right; by rewrite Hlk|left; by left|by right].
  - intros q ->%list_elem_of_singleton. exists (v_next V). split; [done|]. cbn. lia.
  - destruct Hcase as [(-> & _)|(-> & _)]; [apply NoDup_nil_2|apply NoDup_singleton].
  - intros q. destruct Hcase as [(-> & _)|(-> & _)]; [by intros ?%elem_of_nil|by left].
  - intros q Hq. rewrite !contents_insert. apply not_elem_of_cons in Hq as [Hq1 Hq2].
    rewrite decide_False by done. case_decide as HqL; [subst q|done].
    destruct Hcase as [(-> & _)|(Hq & _)]; [done|]. rewrite Hq in Hq2. by destruct Hq2; left.
  - intros q [->|Hq]%elem_of_cons; [left; exists e; auto|by right; right].
  - intros q Hq. by apply elem_of_nil in Hq.
  - rewrite all_insert, delete_insert_ne by done. rewrite all_insert.
    rewrite (all_lookup M _ _ Hlk).
    assert (delete L (delete (TxLookupQueue e) M) = delete (TxLookupQueue e) M) as -> by (by rewrite delete_id by (by rewrite lookup_delete_ne)).
    destruct Hcase as [(-> & -> & ->)|(-> & -> & ->)]; cbn; rewrite ?app_nil_r; [|done].
    solve_Permutation.
  - cbn. by rewrite app_nil_r.
  - intros p' Hp. by apply elem_of_nil in Hp.
Qed.

(** The other packets of the lookup queue will be searched. *)
Lemma search_step e b p l :
  inv granted (TComplete e b :: O) M V x → is_ep e = true → contents M (TxLookupQueue e) = p :: l →
  let L := LocalQueue (v_next V) in
  inv granted (TSearch e b L :: O) (<[TxLookupQueue e := []]> (<[L := p :: l]> M)) (set_v_next (Pos.succ (v_next V)) V) x.
Proof.
  intros Hinv He Hc L. pose proof Hinv as [H1 H2 H3 H4 H5 H6 H7]. pose proof (local_fresh H2) as HL. fold L in HL.
  pose proof (complete_moves e b p l (TSearch e b L) [] Hinv He Hc (or_intror (conj eq_refl (conj eq_refl eq_refl)))) as Hmv.
  cbn [task_queues send_queue app callers_queue task_cont] in Hmv. fold L in Hmv.
  set (M' := <[TxLookupQueue e := []]> _) in *.
  assert (∀ q, contents M' q = if decide (q = TxLookupQueue e) then [] else if decide (q = L) then p :: l else contents M q) as Hcon.
  { intros q. unfold M'. rewrite !contents_insert. repeat case_decide; subst; done. }
  assert (endpoint_queue (TxLookupQueue e)) as Heq by (exists e; auto).
  split.
  - done.
  - eapply packets_moves; [exact H2|exact Hmv|exact H5| |].
    + split; [done|]. cbn. split; [done|]. rewrite Hcon, decide_False, decide_True by done.
      rewrite <- Hc. apply Forall_forall. intros p' Hp. exact (po_headed _ _ _ _ H2 _ _ Heq Hp).
    + intros q p' Hq Hp'. left. split; [|by intros ?%elem_of_nil]. rewrite Hcon in Hp'.
      case_decide; [by apply elem_of_nil in Hp'|]. case_decide; [subst q; by destruct Hq as (? & _ & [?|?])|done].
  - done.
  - eapply drains_same; [exact Hmv|done|done|done].
  - eapply transfers_moves; [exact H2|exact Hmv|exact H5|done|]. intros e' He'. cbn [search_part pending completes hif_packet].
    rewrite Hcon. destruct (decide (e' = e)) as [->|Hne].
    + rewrite decide_True by done. rewrite Z.eqb_refl, Hcon, decide_False, decide_True by done.
      rewrite Hc. rewrite !app_nil_l. split; [eauto|]. split; [done|]. split; [|split; [done|]].
      * intros Hn _. destruct (completed_known (TComplete e b) e b Hinv He) as (p' & Hp' & Hb); [cbn; by rewrite Z.eqb_refl|].
        exists p'. rewrite Hcon, decide_False, decide_True by done. split; [|done]. unfold lookups in Hp'. cbn in Hp'.
        rewrite (completer_alone Hinv e He Hn), app_nil_r, Hc in Hp' by (cbn; by apply bool_decide_eq_true). done.
      * intros t1 p' _ _ _ Hp. by rewrite app_nil_r in Hp.
    + rewrite decide_False by congruence. rewrite decide_False by done. rewrite (proj2 (Z.eqb_neq e e')) by congruence.
      split; [eauto|]. split; [done|]. split; [intros _ Hee; by destruct Hne|]. done.
  - eapply credits_same; [exact H2|exact Hmv|done|done|done|done|done|exact H5|exact H6].
  - eapply wake_same; [exact Hmv|done| |done|done|exact H7]. intros e'. by rewrite Hcon, !decide_False.
Qed.

(** Taking a local queue that is not used *)
Lemma local_moves t t' {posted} :
  packets_ok (t :: O) M V posted → task_queues t = [] → task_queues t' = [] → loose t' = loose t →
  moves t t' M (<[LocalQueue (v_next V) := []]> M) V (set_v_next (Pos.succ (v_next V)) V) [] [].
Proof.
  intros Hok Hq Hq' Hl. pose proof (local_fresh Hok) as HL. set (L := LocalQueue (v_next V)) in *.
  apply (moves_of [L] [] Hok); rewrite ?Hq'; try done.
  - cbn. lia.
  - intros q. rewrite lookup_insert_is_Some'. set_solver.
  - intros q ->%list_elem_of_singleton. exists (v_next V). split; [done|]. cbn. lia.
  - apply NoDup_nil_2.
  - intros q Hin. by apply elem_of_nil in Hin.
  - intros q _. rewrite contents_insert. case_decide; [|done]. subst q. unfold contents. by rewrite HL.
  - intros q Hin. by apply elem_of_nil in Hin.
  - intros q. rewrite Hq. by intros ?%elem_of_nil.
  - by rewrite Hl, all_new_empty by (by rewrite HL).
  - cbn. by rewrite app_nil_r.
  - intros p Hp. by apply elem_of_nil in Hp.
Qed.

(** Which packets are on the lookup queue when the lookup ends at once: it was empty,
    or the first packet is the one. *)
Lemma first_step e b o l :
  inv granted (TComplete e b :: O) M V x → is_ep e = true → contents M (TxLookupQueue e) = option_list o ++ l →
  match o with Some p => buffer_of V p = Some b | None => l = [] ∧ e ∈ overlapped x end →
  inv granted (TIndicate e o :: O) (<[TxLookupQueue e := l]> (<[LocalQueue (v_next V) := []]> M))
    (set_v_next (Pos.succ (v_next V)) V) x.
Proof.
  intros Hinv He Hc Ho. pose proof (inv_packets _ _ _ _ _ Hinv) as Hok. set (L := LocalQueue (v_next V)).
  pose proof (local_fresh Hok) as HL. fold L in HL. set (M' := <[TxLookupQueue e := l]> _).
  assert (∀ q, contents M' q = if decide (q = TxLookupQueue e) then l else contents M q) as Hcon.
  { intros q. unfold M'. rewrite !contents_insert. repeat case_decide; subst; try done. unfold contents. by rewrite HL. }
  assert (moves (TComplete e b) (TIndicate e o) M M' V (set_v_next (Pos.succ (v_next V)) V) [] []) as Hmv.
  { destruct o as [p|].
    - exact (complete_moves e b p l (TIndicate e (Some p)) l Hinv He Hc (or_introl (conj eq_refl (conj eq_refl eq_refl)))).
    - destruct Ho as [-> _]. unfold M'. rewrite (insert_id (<[L := []]> M)) by (rewrite lookup_insert_ne by done; by rewrite (lookup_queue Hok e He), Hc).
      by apply (local_moves _ _ Hok). }
  eapply (ended_step Hinv e b o M' _ He); try done.
  - by apply bool_decide_eq_true.
  - destruct o; [exact Ho|by destruct Ho].
  - cbn. by rewrite app_nil_r, Hc, Hcon, decide_True.
  - intros e' Hne. by rewrite Hcon, decide_False by congruence.
  - intros q p' Hq Hp'. rewrite Hcon in Hp'. apply (po_headed _ _ _ _ Hok q p' Hq).
    case_decide; [subst q; rewrite Hc; apply elem_of_app; by right|done].
Qed.

Lemma keep_complete env e b :
  inv granted (TComplete e b :: O) M V x → keeps granted env (TComplete e b) O M V x.
Proof.
  intros Hinv. pose proof (inv_packets _ _ _ _ _ Hinv) as Hok.
  pose proof (po_tasks _ _ _ _ Hok) as Ht. apply Forall_cons in Ht as [[_ He] _]. cbn in He.
  destruct (inv_eps _ _ _ _ _ Hinv e He) as (y & Hy & _). set (L := LocalQueue (v_next V)).
  pose proof (local_fresh Hok) as HL. fold L in HL. pose proof (lookup_queue Hok e He) as Hlk.
  unfold keeps. cbn [run_task]. unfold tx_completion_handler, lookup_first.
  apply does_bind, does_unseen; [by intros t|]. apply does_bind, does_new_queue. fold L.
  apply does_bind. eapply (does_upd_ep _ _ _ _ _ y); [exact Hy|intros z <-; by destruct z|].
  rewrite set_v_eps_id by done. apply does_bind. eapply does_dequeue; [by rewrite lookup_insert_ne|].
  destruct (contents M (TxLookupQueue e)) as [|p l] eqn:Hc; cbn [head tail].
  { apply does_ret. cbn [after_view]. apply (first_step e b None []); [done|done|done|]. split; [done|].
    destruct (decide (e ∈ overlapped x)) as [|Hn]; [done|].
    destruct (completed_known (TComplete e b) e b Hinv He) as (pb & Hpb & _); [cbn; by rewrite Z.eqb_refl|].
    unfold lookups in Hpb. cbn in Hpb. rewrite (completer_alone Hinv e He Hn), app_nil_r, Hc in Hpb
      by (by apply bool_decide_eq_true). by apply elem_of_nil in Hpb. }
  pose proof (queued_owned Hok (TxLookupQueue e) p ltac:(rewrite Hc; by left)) as (pkt & s & Hp & Hs & _).
  apply does_bind. eapply does_get_pkt; [exact Hp|]. intros k Hk. norm. cbn [after_view].
  case_bool_decide as Hnb.
  - apply does_ret. apply (first_step e b (Some p) l); [done|done|done|].
    unfold buffer_of. rewrite Hp. cbn. by rewrite Hnb.
  - apply does_bind. eapply does_enqueue; [rewrite lookup_insert_ne by done; by rewrite lookup_insert_eq| |].
    { apply unlinked_all. rewrite all_insert, delete_insert_ne by done. rewrite all_insert_new by (rewrite lookup_delete_ne; done).
      pose proof (all_nodup Hok) as Hnd. rewrite (all_lookup _ _ _ Hlk) in Hnd. by apply NoDup_cons in Hnd as []. }
    cbn [app]. apply does_bind. eapply does_transfer_to_tail; [done|by rewrite lookup_insert_eq
      |rewrite lookup_insert_ne by done; by rewrite lookup_insert_eq|]. apply does_ret.
    replace (<[TxLookupQueue e := []]> _) with (<[TxLookupQueue e := []]> (<[L := p :: l]> M)) by qmap.
    by apply search_step.
Qed.

(** The search ends.  What is left of its queue [l] goes back in front of the lookup
    queue. *)
Lemma last_step e b n o l :
  inv granted (TSearch e b (LocalQueue n) :: O) M V x → contents M (LocalQueue n) ≡ₚ option_list o ++ l →
  match o with Some p => buffer_of V p = Some b | None => e ∈ overlapped x end →
  inv granted (TIndicate e o :: O)
    (<[LocalQueue n := []]> (<[TxLookupQueue e := l ++ contents M (TxLookupQueue e)]> M)) V x.
Proof.
  intros Hinv Hl Ho. pose proof (inv_packets _ _ _ _ _ Hinv) as Hok. set (t := TSearch e b _) in *.
  pose proof (po_tasks _ _ _ _ Hok) as Ht. apply Forall_cons in Ht as [[_ (He & Hhead)] _].
  assert (LocalQueue n ∈ task_queues t) as Hqo by by left.
  assert (endpoint_queue (TxLookupQueue e)) as Heq by (exists e; auto). set (M' := <[LocalQueue n := []]> _).
  assert (∀ q, contents M' q = if decide (q = LocalQueue n) then [] else
    if decide (q = TxLookupQueue e) then l ++ contents M (TxLookupQueue e) else contents M q) as Hcon.
  { intros q. unfold M'. rewrite !contents_insert. repeat case_decide; subst; done. }
  assert (moves t (TIndicate e o) M M' V V [] []) as Hmv.
  { apply (two_queues_moves (LocalQueue n) (TxLookupQueue e) _ _ Hok); try done.
    - by rewrite (own_queue Hok).
    - by rewrite (lookup_queue Hok).
    - by right.
    - by left.
    - apply NoDup_nil_2.
    - intros q Hq. by apply elem_of_nil in Hq.
    - intros q ->%list_elem_of_singleton. right. by rewrite contents_insert_eq.
    - rewrite Hl. cbn. rewrite app_nil_r. destruct o; cbn; [solve_Permutation|by rewrite app_nil_r].
    - by rewrite app_nil_r.
    - intros p' Hp. by apply elem_of_nil in Hp. }
  eapply (ended_step Hinv e b o M' V He); try done.
  - by apply bool_decide_eq_true.
  - intros e'. repeat (split; [done|]). intros Hne. cbn. by rewrite (proj2 (Z.eqb_neq e e')).
  - cbn. rewrite Z.eqb_refl, Hl, Hcon, decide_False, decide_True by done. solve_Permutation.
  - intros e' Hne. rewrite Hcon, decide_False by done. rewrite decide_False by congruence. done.
  - intros q p' Hq Hp'. rewrite Hcon in Hp'. case_decide; [by apply elem_of_nil in Hp'|].
    case_decide; [|by apply (po_headed _ _ _ _ Hok q p' Hq)].
    apply elem_of_app in Hp' as [Hp'|Hp']; [|exact (po_headed _ _ _ _ Hok _ p' Heq Hp')].
    rewrite Forall_forall in Hhead. apply Hhead. rewrite Hl. set_solver.
Qed.

Lemma keep_search env e b lq :
  inv granted (TSearch e b lq :: O) M V x → keeps granted env (TSearch e b lq) O M V x.
Proof.
  intros Hinv. pose proof (inv_packets _ _ _ _ _ Hinv) as Hok. set (t := TSearch e b lq) in *.
  pose proof (po_tasks _ _ _ _ Hok) as Ht. apply Forall_cons in Ht as [[_ (He & Hhead)] _].
  assert (lq ∈ task_queues t) as Hqo by by left. pose proof (own_queue Hok _ Hqo) as Hqm.
  pose proof (lookup_queue Hok e He) as Hlk. destruct (own_is_local Hok _ Hqo) as (n & -> & _).
  unfold keeps, t. cbn [run_task]. unfold lookup_search.
  apply does_bind. eapply does_depth; [exact Hqm|]. rewrite Nat2Z.id.
  apply does_bind. eapply does_first; [exact Hqm|].
  apply does_bind. eapply (does_lookup_loop b (LocalQueue n) []); [done|exact Hqm|by apply (own_list_nodup Hok)|apply (queue_buffered Hok)| |].
  - intros l1 p l2 Hl Hbp. cbn [app]. apply does_bind.
    eapply does_transfer_to_head; [done|by rewrite lookup_insert_ne|by rewrite lookup_insert_eq|]. apply does_ret. cbn [after_view].
    replace (<[LocalQueue n := []]> _)
      with (<[LocalQueue n := []]> (<[TxLookupQueue e := (l1 ++ l2) ++ contents M (TxLookupQueue e)]> M)) by qmap.
    apply (last_step e b n (Some p)); [done|rewrite Hl; solve_Permutation|done].
  - intros Hnone. apply does_bind. eapply does_transfer_to_head; [done|exact Hlk|exact Hqm|]. apply does_ret. cbn [after_view].
    apply (last_step e b n None); [done|done|]. destruct (decide (e ∈ overlapped x)) as [|Hn]; [done|].
    destruct (inv_transfers _ _ _ _ _ Hinv e He) as (_ & H & _). apply H in Hn as [_ Hf]. apply Forall_cons in Hf as [Hf _].
    destruct (Hf eq_refl) as (pb & Hpb & Hb). rewrite Forall_forall in Hnone. by destruct (Hnone pb Hpb).
Qed.
End complete.

(** The steps that process the target's reports, and those that only look for
    something to send, keep the channel's invariant. *)

(** * Trailers *)

Lemma process_trailer_shorter buf :
  match process_trailer buf with
  | TCredit _ rest | TTrailer rest => (length rest < length buf)%nat
  | _ => True
  end.
Proof.
  destruct buf as [|id [|len [|a [|b buf]]]]; try done. unfold process_trailer.
  destruct (_ <? len); [done|]. destruct (id =? _); cbn [length]; rewrite length_drop; lia.
Qed.

Lemma trailer_fuel buf e : ∀ f1 f2, (length buf ≤ f1)%nat → (length buf ≤ f2)%nat →
  trailer_credits f1 buf e = trailer_credits f2 buf e.
Proof.
  remember (length buf) as n eqn:Hn. revert buf Hn. induction n as [n IH] using lt_wf_ind. intros buf -> f1 f2 H1 H2.
  destruct buf as [|c buf]; [by destruct f1, f2|]. set (b := c :: buf) in *.
  destruct f1 as [|f1]; [cbn in H1; lia|]. destruct f2 as [|f2]; [cbn in H2; lia|]. cbn [trailer_credits].
  pose proof (process_trailer_shorter b) as Hs. destruct (process_trailer b); try done.
  - f_equal. apply (IH (length trailer)); [done|done|lia|lia].
  - apply (IH (length trailer)); [done|done|lia|lia].
Qed.

(** The credits of a trailer are those of its first record and of the rest. *)
Lemma trailer_report_step buf e : trailer_report buf e = reported e (process_trailer buf).
Proof.
  unfold trailer_report. destruct buf as [|c buf]; [done|]. set (b := c :: buf).
  assert (length b = S (length buf)) as Hlb by done. rewrite Hlb. cbn [trailer_credits].
  pose proof (process_trailer_shorter b) as Hs. rewrite Hlb in Hs.
  destruct (process_trailer b) eqn:E; try (exfalso; revert E; clear; intros E; unfold process_trailer, b in E; repeat case_match; congruence);
    unfold reported; cbn; rewrite ?Z.add_0_r; try done.
  - f_equal. apply trailer_fuel; [lia|done].
  - apply trailer_fuel; [lia|done].
Qed.

Lemma credit_entries_ok n buf : Forall is_byte buf → Forall entry_ok (credit_entries n buf).
Proof.
  revert buf. induction n as [|n IH]; intros buf Hb; [constructor|].
  destruct buf as [|ep [|cr [|a [|b buf]]]]; try constructor.
  - cbn. repeat (apply Forall_cons in Hb as [? Hb]). unfold is_byte in *. split; cbn; lia.
  - apply IH. by repeat (apply Forall_cons in Hb as [? Hb]).
Qed.

Lemma process_trailer_ok M V buf : Forall is_byte buf → task_ok M V (process_trailer buf).
Proof.
  intros Hb. destruct buf as [|id [|len [|a [|b buf]]]]; try done. cbn.
  assert (Forall is_byte buf) as Hb' by (by repeat (apply Forall_cons in Hb as [? Hb])).
  destruct (_ <? len); [done|]. destruct (id =? _).
  - split; [done|]. split; [apply credit_entries_ok; by apply Forall_take|by apply Forall_drop].
  - split; [done|]. cbn. by apply Forall_drop.
Qed.

Section credits.
Context {O : list task} {M : queue_map} {x : surroundings} {granted : Z → Z}.
Implicit Types (V : view) (e : Z) (rpt : list (Z * Z)).

Lemma keep_trailer env buf V :
  inv granted (TTrailer buf :: O) M V x → keeps granted env (TTrailer buf) O M V x.
Proof.
  intros Hinv. pose proof (inv_packets _ _ _ _ _ Hinv) as Hok.
  pose proof (po_tasks _ _ _ _ Hok) as Ht. apply Forall_cons in Ht as [[_ Hb] _]. cbn in Hb.
  unfold keeps. cbn [run_task]. apply does_ret. cbn [after_view].
  assert (∀ t', process_trailer buf = t' → (∃ s, t' = TDone s) ∨ (∃ r b, t' = TCredit r b) ∨ ∃ b, t' = TTrailer b) as Hkind.
  { intros t' <-. unfold process_trailer. repeat case_match; eauto. }
  pose proof (trailer_report_step buf) as Hrep. pose proof (process_trailer_ok M V buf Hb) as Hto.
  destruct (Hkind _ eq_refl) as [[s Hs]|[(r & b & Hs)|[b Hs]]]; rewrite Hs in *;
    (eapply quiet_kind; [| | | | | | |exact Hinv]; try done;
     [intros e; repeat (split; [done|]); split; [|done]; unfold reported at 2; cbn; rewrite (Hrep e); unfold reported; cbn; lia
     |apply NoDup_nil_2|intros q Hq; by apply elem_of_nil in Hq]).
Qed.

(** ** One entry of a credit report *)

Lemma add_credits_moves t t' e c V :
  inv granted (t :: O) M V x → task_queues t = [] → task_queues t' = [] → loose t' = loose t →
  moves t t' M M V (add_credits e c V) [] [].
Proof.
  intros Hinv Hq Hq' Hl. destruct (add_credits_view e c V) as ((Hvp & Hvn & Hvd & Hvx) & Hvs & _).
  apply moves_same; try done; rewrite ?Hq, ?Hq'; first [apply NoDup_nil_2|done|intros q Hin; by apply elem_of_nil in Hin].
Qed.

(** The task that processes a report, and what it may become after an entry *)
Lemma credit_step e c rpt trailer t' V y :
  inv granted (TCredit ((e, c) :: rpt) trailer :: O) M V x → is_ep e = true → v_eps V !! e = Some y →
  (t' = TCredit rpt trailer ∧ (contents M (TxQueue e) = [] ∨ TxCredits y + c = 0) ∨
   t' = TTrySend e (KCredit rpt trailer)) →
  inv granted (t' :: O) M (add_credits e c V) x.
Proof.
  intros Hinv He Hy Hcase. pose proof Hinv as [H1 H2 H3 H4 H5 H6 H7].
  pose proof (po_tasks _ _ _ _ H2) as Ht. apply Forall_cons in Ht as [[_ [Hr Hb]] _]. cbn in Hr, Hb.
  apply Forall_cons in Hr as [[_ Hc] Hr]. cbn in Hc.
  destruct (add_credits_view e c V) as ((Hvp & Hvn & Hvd & Hvx) & Hvs & Hvc & Hve & Hy'). specialize (Hy' y Hy).
  destruct (H1 e He) as (y1 & Hy1 & _ & Hpos & _). rewrite Hy in Hy1. injection Hy1 as <-.
  set (V' := add_credits e c V) in *.
  assert (∀ e', drains e' t' = 0 ∧ search_part e' M t' = [] ∧ pending e' V t' = [] ∧ completes e' t' = false ∧
    charged e' M V' t' = 0 ∧ hif_packet t' = None ∧
    reported e' t' = entries_credits rpt e' + trailer_report trailer e') as Hplain.
  { intros e'. unfold reported. destruct Hcase as [[-> _]| ->]; cbn; rewrite ?Z.add_0_r; done. }
  assert (moves (TCredit ((e, c) :: rpt) trailer) t' M M V V' [] []) as Hmv.
  { apply add_credits_moves; [done|done|..]; destruct Hcase as [[-> _]| ->]; done. }
  split.
  - eapply eps_moves; [exact Hmv|done|]. intros e' z z' _ Hz Hz' Hle. destruct (decide (e' = e)) as [->|Hne].
    + rewrite Hy' in Hz'. simplify_eq. cbn. lia.
    + rewrite Hve in Hz' by done. by simplify_eq.
  - eapply packets_moves; [exact H2|exact Hmv|exact H5| |].
    + destruct Hcase as [[-> _]| ->]; [by split|]. split; [done|]. by split.
    + intros q p Hq Hp. left. split; [done|by intros ?%elem_of_nil].
  - done.
  - eapply drains_moves; [exact Hmv|done|]. intros e' z z' He' Hz Hz' Hle _. destruct (Hplain e') as (-> & _).
    specialize (Hvc e'). rewrite Hz, Hz' in Hvc. injection Hvc as ->. cbn. lia.
  - eapply transfers_same; [exact H2|exact Hmv|done|done| | | | |exact H5].
    + intros e'. by destruct (Hplain e') as (_ & -> & _).
    + intros e'. by destruct (Hplain e') as (_ & _ & -> & _).
    + intros e'. by destruct (Hplain e') as (_ & _ & _ & -> & _).
    + by destruct Hcase as [[-> _]| ->].
  - eapply credits_moves; [exact H2|exact Hmv|exact H5|done| |done]. intros e' He'. cbn zeta. left.
    destruct (Hplain e') as (_ & _ & _ & _ & -> & _ & ->). unfold reported, credits_of. cbn.
    assert (ENDPOINT_MAX <=? e = false) as Hmax.
    { apply andb_true_iff in He as [_ He]. apply Z.ltb_lt in He. by apply Z.leb_gt. }
    change (9 <=? e) with (ENDPOINT_MAX <=? e). rewrite Hmax. destruct (decide (e' = e)) as [->|Hne].
    + rewrite Hy', Hy, Z.eqb_refl. cbn. lia.
    + rewrite Hve, (proj2 (Z.eqb_neq e e')) by done. lia.
  - eapply wake_moves; [exact Hmv|exact H7|]. intros e' z' He' Hz' H0. destruct (decide (e' = e)) as [->|Hne].
    + destruct Hcase as [[-> [Hq|Hz]]| ->]; [by left| |].
      * right; right; right; right. split; [|done]. rewrite Hy', Hy. f_equal.
        assert (c = 0) as -> by lia. rewrite Z.add_0_r. by destruct y.
      * right; right; left. cbn. by rewrite Z.eqb_refl.
    + right; right; right; right. split; [by apply Hve|done].
Qed.

Lemma keep_credit env rpt trailer V :
  inv granted (TCredit rpt trailer :: O) M V x → keeps granted env (TCredit rpt trailer) O M V x.
Proof.
  revert V. induction rpt as [|[e c] rpt IH]; intros V Hinv; unfold keeps in *; cbn [run_task process_credit_rpt after_view] in *;
    pose proof (inv_packets _ _ _ _ _ Hinv) as Hok;
    pose proof (po_tasks _ _ _ _ Hok) as Ht; apply Forall_cons in Ht as [[_ [Hr Hb]] _]; cbn in Hr, Hb.
  - apply does_ret. eapply quiet_kind; [| | | | | | |exact Hinv]; try done;
      [apply NoDup_nil_2|intros q Hq; by apply elem_of_nil in Hq].
  - destruct (Z.leb_spec ENDPOINT_MAX e) as [Hmax|Hmax].
    + apply does_ret. eapply quiet_kind; [| | | | | | |exact Hinv]; try done;
        [|apply NoDup_nil_2|intros q Hq; by apply elem_of_nil in Hq].
      intros e'. repeat (split; [done|]). split; [|done]. unfold reported. cbn.
      change (9 <=? e) with (ENDPOINT_MAX <=? e). by rewrite (proj2 (Z.leb_le _ _) Hmax).
    + apply Forall_cons in Hr as [[Hr0 _] _]. cbn in Hr0.
      assert (is_ep e = true) as He by (apply andb_true_iff; split; [by apply Z.leb_le|by apply Z.ltb_lt]).
      destruct (inv_eps _ _ _ _ _ Hinv e He) as (y & Hy & _).
      destruct (add_credits_view e c V) as (_ & _ & _ & _ & Hy'). specialize (Hy' y Hy).
      assert (∀ b, b = negb (TxCredits y + c =? 0) && negb (Z.of_nat (length (contents M (TxQueue e))) =? 0) →
        does (if b then mret (TTrySend e (KCredit rpt trailer)) else process_credit_rpt rpt trailer) M (add_credits e c V)
          (λ t' M' V', inv granted (t' :: O) M' V' x)) as Hrest.
      { intros b ->. destruct (negb _ && negb _) eqn:Hsend.
        - apply does_ret. eapply credit_step; [exact Hinv|done|exact Hy|]. by right.
        - apply IH. eapply credit_step; [exact Hinv|done|exact Hy|]. left. split; [done|].
          apply andb_false_iff in Hsend as [Hz|Hz]; apply negb_false_iff, Z.eqb_eq in Hz; [by right|left].
          by destruct (contents M (TxQueue e)). }
      apply does_bind. unfold credit_entry. apply does_bind. eapply (does_add_credits e c); [exact Hy|].
      apply does_bind. eapply does_get_ep; [exact Hy'|]. intros z Hz.
      assert (TxCredits z = TxCredits y + c) as Hzc by (change (TxCredits z) with (TxCredits (norm_ep z)); by rewrite Hz).
      apply does_bind. eapply does_depth; [by apply (tx_queue Hok)|].
      apply does_bind, does_when; intros _; [apply does_credit_record|]; apply does_ret; apply Hrest; by rewrite Hzc.
Qed.

(** ** Kicking the queues *)

Lemma keep_kick env i V :
  inv granted (TKick i :: O) M V x → keeps granted env (TKick i) O M V x.
Proof.
  intros Hinv. pose proof (inv_packets _ _ _ _ _ Hinv) as Hok.
  pose proof (po_tasks _ _ _ _ Hok) as Ht. apply Forall_cons in Ht as [[_ Hi] _]. cbn in Hi.
  assert (∀ t', (∀ e, drains e t' = 0 ∧ search_part e M t' = [] ∧ pending e V t' = [] ∧ completes e t' = false ∧
      charged e M V t' = 0 ∧ reported e t' = 0) → same_hif (TKick i) t' → task_queues t' = [] → loose t' = [] →
      task_ok M V t' → inv granted (t' :: O) M V x) as Hgoal.
  { intros t' Hf Hh Hq Hl Hto. eapply quiet_kind; [| | | | | | |exact Hinv]; try done.
    - intros e. destruct (Hf e) as (-> & -> & -> & -> & -> & ->). done.
    - rewrite Hq. apply NoDup_nil_2.
    - by rewrite Hq.
    - intros q Hin. by apply elem_of_nil in Hin. }
  unfold keeps. cbn [run_task]. unfold kick_queues. destruct (Z.leb_spec ENDPOINT_MAX i) as [Hmax|Hmax].
  { apply does_ret. cbn [after_view]. by apply Hgoal. }
  assert (is_ep i = true) as He by (apply andb_true_iff; split; [by apply Z.leb_le|by apply Z.ltb_lt]).
  destruct (inv_eps _ _ _ _ _ Hinv i He) as (y & Hy & _).
  apply does_bind. eapply does_get_ep; [exact Hy|]. intros z _. destruct (_ =? 0).
  - apply does_ret. cbn [after_view]. apply Hgoal; try done. split; [done|cbn; lia].
  - apply does_bind, does_when; intros _; [apply does_op, tdoes_emit_other; [done|]|]; apply does_ret; cbn [after_view];
      (apply Hgoal; try done; split; [cbn; lia|done]).
Qed.

Lemma keep_done env s V : inv granted (TDone s :: O) M V x → keeps granted env (TDone s) O M V x.
Proof. intros Hinv. by apply does_ret. Qed.
End credits.
