(* ===== verification/HtcTheorems.v ===== *)
(** The host-target channel as a whole: every rule of [HtcSystem.v] keeps the
    invariant of [HtcInv.v], for any queues that refine lists of packets, and
    what follows for the queues of the code. *)
From S2P Require Import Prelude Ring HtcQueue HtcQueueProofs HtcTypes HtcSend HtcSim HtcSystem HtcView HtcMoves HtcInv HtcSteps HtcDrain HtcHif HtcComplete.

(** * A step of any task *)

Lemma task_keeps granted env t O M V x :
  (∀ e q p k, t = TReclaim e q p k → existsb (searches e) O = false) →
  inv granted (t :: O) M V x → keeps granted env t O M V x.
Proof.
  intros Hs H. destruct t.
  - by apply keep_send_multiple.
  - by apply keep_prepare.
  - by apply keep_try_send.
  - by apply keep_admit.
  - by apply keep_enter.
  - by apply keep_drain.
  - by apply keep_issue.
  - by apply keep_hif.
  - apply keep_reclaim; [done|]. by eapply Hs.
  - by apply keep_fail.
  - by apply keep_clear.
  - by apply keep_leftover.
  - by apply keep_complete.
  - by apply keep_search.
  - by apply keep_indicate.
  - by apply keep_credit.
  - by apply keep_trailer.
  - by apply keep_flush.
  - by apply keep_kick.
  - by apply keep_done.
Qed.

(** * Packets and buffers that the channel does not have *)

Section frame.
Implicit Types (M : queue_map) (V : view) (p : positive).

(** The two views agree on a packet and its buffer. *)
Definition agree V V' p : Prop :=
  v_pkts V' !! p = v_pkts V !! p ∧
  ∀ b, buffer_of V p = Some b → v_nbs V' !! b = v_nbs V !! b.

Context {granted : Z → Z} {ts : list task} {M : queue_map} {V V' : view} {x : surroundings}.
Hypothesis Hinv : inv granted ts M V x.
Hypothesis Heps : v_eps V' = v_eps V.
Hypothesis Hdone : v_done V' = v_done V.
Hypothesis Hnext : v_next V' = v_next V.
Hypothesis Hag : ∀ p, p ∈ live M ts → agree V V' p.

Lemma agree_is P p : agree V V' p → packet_is P V p → packet_is P V' p.
Proof.
  intros [H1 H2] (pkt & s & Hp & Hs & HP). exists pkt, s. rewrite H1.
  split; [done|]. split; [|done]. rewrite H2; [done|]. unfold buffer_of. by rewrite Hp.
Qed.

Lemma contents_live q p : p ∈ contents M q → p ∈ live M ts.
Proof. intros H. apply elem_of_app. left. by eapply contents_all. Qed.

Lemma agree_Forall P q : Forall (packet_is P V) (contents M q) → Forall (packet_is P V') (contents M q).
Proof.
  rewrite !Forall_forall. intros H p Hp. apply agree_is; [by eapply Hag, contents_live|auto].
Qed.

Lemma hif_live t p e : is_ep e = true → t ∈ ts → hif_packet t = Some (e, p) → p ∈ live M ts.
Proof.
  intros He Ht Hp. destruct (inv_transfers _ _ _ _ _ Hinv e He) as (_ & _ & H).
  specialize (H t p Ht Hp). unfold lookups in H. apply elem_of_app in H as [H|H]; [by eapply contents_live|].
  apply list_elem_of_bind in H as (t1 & Hp1 & _). destruct t1; cbn in Hp1; try by apply elem_of_nil in Hp1.
  case_match; [by eapply contents_live|by apply elem_of_nil in Hp1].
Qed.

Lemma agree_used p : agree V V' p → used V' p = used V p.
Proof. intros [H _]. unfold used. by rewrite H. Qed.
Lemma agree_buffer p : agree V V' p → buffer_of V' p = buffer_of V p.
Proof. intros [H _]. unfold buffer_of. by rewrite H. Qed.

Lemma total_used q : total (used V') (contents M q) = total (used V) (contents M q).
Proof. apply total_ext. intros p Hp. by eapply agree_used, Hag, contents_live. Qed.

Lemma frame_task t : t ∈ ts → task_ok M V t → task_ok M V' t.
Proof.
  intros Ht [Hc H]. split; [done|].
  assert (∀ e p, hif_packet t = Some (e, p) → is_ep e = true → agree V V' p) as Hhif.
  { intros e p Hp He. by eapply Hag, hif_live. }
  assert (∀ k, callers_ok M V k → callers_ok M V' k) as Hcall.
  { intros k. unfold callers_ok. destruct (callers_queue k); [|done]. apply agree_Forall. }
  assert (∀ q, Forall (has_credits V) (contents M q) → Forall (has_credits V') (contents M q)) as Hcr.
  { intros q. rewrite !Forall_forall. intros Hq p Hp. unfold has_credits.
    rewrite agree_used by (by eapply Hag, contents_live). by apply Hq. }
  destruct t; cbn in H |- *; try done; try (destruct_and?; split_and?; eauto using agree_Forall; fail).
  - destruct H as (e & He & Hs & Hne & Hr & Hto). exists e. rewrite Heps. split_and!; eauto using agree_Forall.
    rewrite Forall_forall in Hto |- *. intros p Hp. unfold to_endpoint.
    destruct (Hag p) as [-> _]; [by eapply contents_live|by apply Hto].
  - destruct H as (He & l1 & l2 & Hl & Ho & H1 & H2). split; [done|]. exists l1, l2.
    assert (∀ p, p ∈ l1 ++ l2 → agree V V' p) as Ha.
    { intros p Hp. rewrite <- Hl in Hp. by eapply Hag, contents_live. }
    rewrite !Forall_forall in *. split_and!; [done..| |]; intros p Hp; (apply agree_is; [apply Ha; set_solver|auto]).
  - destruct H as (He & ? & ? & Hcp & Hhp). pose proof (Hhif _ _ eq_refl He) as Ha. split_and!; auto using agree_Forall.
    + unfold has_credits. by rewrite agree_used.
    + by apply agree_is.
  - destruct H as (He & ? & ? & Hcp & Hhp). pose proof (Hhif _ _ eq_refl He) as Ha. split_and!; auto using agree_Forall.
    + unfold has_credits. by rewrite agree_used.
    + by apply agree_is.
Qed.

Lemma frame_charged e t : is_ep e = true → t ∈ ts → charged e M V' t = charged e M V t.
Proof.
  intros He Ht. destruct t; cbn; try done; rewrite ?total_used; try done; case_match eqn:E; try done;
    apply Z.eqb_eq in E as ->; by rewrite agree_used by (by eapply Hag, (hif_live _ _ e He Ht)).
Qed.

Lemma frame_pending e t : is_ep e = true → t ∈ ts → pending e V' t = pending e V t.
Proof.
  intros He Ht. destruct t; cbn; try done; case_match eqn:E; try done;
    apply Z.eqb_eq in E as ->; by rewrite agree_buffer by (by eapply Hag, (hif_live _ _ e He Ht)).
Qed.

Lemma frame_packets : packets_ok ts M V' (posted x).
Proof.
  destruct (inv_packets _ _ _ _ _ Hinv) as [H1 H2 H3 H4 H5 H6 H7]. split.
  - by rewrite Hnext.
  - done.
  - by rewrite Hdone.
  - intros p p' Hp Hp'. rewrite !agree_buffer by (by apply Hag). by apply H4.
  - rewrite Forall_forall in H5 |- *. intros p Hp. apply agree_is; [by apply Hag|by apply H5].
  - intros q p Hq Hp. apply agree_is; [by eapply Hag, contents_live|by eapply H6].
  - rewrite Forall_forall in H7 |- *. intros t Ht. by apply frame_task, H7.
Qed.

Lemma frame_transfers : transfers_ok ts M V' x.
Proof.
  intros e He. destruct (inv_transfers _ _ _ _ _ Hinv e He) as ((lost & H1 & Hlo) & H2 & H3). split; [|split; [|done]].
  2: { intros Hn. destruct (H2 Hn) as [H2a H2b]. split; [done|]. rewrite Forall_forall in H2b |- *. intros t Ht.
    specialize (H2b t Ht). destruct t; cbn in *; try done. intros Hep. destruct (H2b Hep) as (p & Hp & Hb). exists p.
    split; [done|]. rewrite agree_buffer; [done|]. by eapply Hag, contents_live. }
  exists lost. split; [|done].
  assert (buffer_of V' <$> lookups e M ts = buffer_of V <$> lookups e M ts) as ->.
  { apply list_fmap_ext. intros i p Hp. apply list_elem_of_lookup_2 in Hp.
    apply agree_buffer, Hag. unfold lookups in Hp. apply elem_of_app in Hp as [Hp|Hp]; [by eapply contents_live|].
    apply list_elem_of_bind in Hp as (t1 & Hp & _). destruct t1; cbn in Hp; try by apply elem_of_nil in Hp.
    case_match; [by eapply contents_live|by apply elem_of_nil in Hp]. }
  rewrite H1. unfold transfers. do 2 f_equiv.
  assert (∀ l, l ⊆ ts → (l ≫= pending e V) = (l ≫= pending e V')) as Hl; [|by rewrite Hl].
  induction l as [|t l IH]; intros Hsub; [done|]. cbn. rewrite frame_pending by (first [done|apply Hsub; by left]).
  f_equal. apply IH. intros t' Ht'. apply Hsub. by right.
Qed.

Lemma frame_inv : inv granted ts M V' x.
Proof.
  destruct Hinv as [H1 H2 H3 H4 H5 H6 H7]. split.
  - unfold eps_ok. by rewrite Heps.
  - exact frame_packets.
  - done.
  - unfold drains_ok. by rewrite Heps.
  - exact frame_transfers.
  - intros e He. specialize (H6 e He). unfold accounted, credits_of in *. rewrite Heps.
    rewrite (total_ext (charged e M V') (charged e M V)); [done|]. intros t Ht. by apply frame_charged.
  - intros e y He. rewrite Heps. intros Hy Hz. destruct (H7 e y He Hy Hz) as [?|[?|[?|(p & l & Hl & Hst)]]]; auto.
    right; right; right. exists p, l. split; [done|]. destruct Hst as (y' & pkt & n & ? & Hp & ?).
    exists y', pkt, n. rewrite Heps. destruct (Hag p) as [-> _]; [|done].
    apply (contents_live (TxQueue e)). rewrite Hl. by left.
Qed.
End frame.

(** * Tasks that begin *)

Section begin.
Implicit Types (M : queue_map) (V : view) (ts : list task).

(** A task that has neither packets nor queues of its own. *)
Definition bare M V (t : task) : Prop :=
  task_queues t = [] ∧ loose t = [] ∧ hif_packet t = None ∧ looks t = false ∧ task_ok M V t ∧
  ∀ e, drains e t = 0 ∧ search_part e M t = [] ∧ charged e M V t = 0.

Lemma begin_inv granted ts M V x x' t :
  inv granted ts M V x → bare M V t →
  posted x' = posted x → refused x' = refused x → stalled x' = stalled x →
  in_flight x' ⊆ in_flight x → overlapped x ⊆ overlapped x' →
  (∀ e, is_ep e = true →
    Some <$> in_flight_of e x ≡ₚ (Some <$> in_flight_of e x') ++ pending e V t ∧
    (completes e t = true → existsb (completes e) ts = true → e ∈ overlapped x') ∧
    holds x e = holds x' e + reported e t) →
  inv granted (t :: ts) M V x'.
Proof.
  intros [H1 H2 H3 H4 H5 H6 H7] (Hq & Hl & Hh & Hlk0 & Ht & Hb) Hpo Hre Hst Hfl Hov H.
  assert (live M (t :: ts) = live M ts) as Hlive by (unfold live; cbn; by rewrite Hl).
  assert (∀ e, lookups e M (t :: ts) = lookups e M ts) as Hlk.
  { intros e. unfold lookups. cbn. by destruct (Hb e) as (_ & -> & _). }
  split.
  - done.
  - rewrite Hpo. destruct H2 as [Ha Hc Hd He Hf Hg Hi]. split; rewrite ?Hlive; [|done..|by constructor].
    destruct Ha as [Hj Hk Hm Hn Ho]. by split; cbn; rewrite ?Hq.
  - rewrite Forall_forall in H3 |- *. intros eb Heb. by apply H3, Hfl.
  - intros e y He Hy. rewrite total_of_cons. destruct (Hb e) as (-> & _). by apply H4.
  - intros e He. destruct (H5 e He) as ((lost & Ha & Hlo) & Hc & Hd). destruct (H e He) as (Hp & Hco & _).
    unfold waits_ok. rewrite Hlk. split; [|split].
    + exists lost. split; [|auto]. rewrite Ha. unfold transfers. cbn. rewrite Hp. by rewrite !app_assoc.
    + intros Hn. destruct (Hc ltac:(auto)) as [Hc1 Hc2]. split; [|constructor; [by apply finds_plain|done]].
      rewrite total_of_cons. destruct (completes e t) eqn:E; cbn; [|done]. specialize (Hco eq_refl).
      destruct (existsb (completes e) ts) eqn:Eb; [by destruct Hn; apply Hco|].
      assert (total (λ t, c_bool (completes e t)) ts = 0) as ->; [|done].
      clear -Eb. induction ts as [|t1 l IH]; [done|]. cbn in Eb. apply orb_false_iff in Eb as [Hc1 Hc2].
      rewrite total_of_cons, Hc1. cbn. by apply IH.
    + intros t1 p Ht1 Hp1. apply elem_of_cons in Ht1 as [->|Ht1]; [congruence|by eapply Hd].
  - intros e He. unfold accounted. rewrite !total_of_cons, Hre. destruct (Hb e) as (_ & _ & ->).
    destruct (H e He) as (_ & _ & Hho). destruct (H6 e He) as [Ha Hc]. unfold accounted in *. split; [lia|].
    intros Hn. rewrite <- Hc by done. lia.
  - intros e y He Hy Hz. rewrite Hst. destruct (H7 e y He Hy Hz) as [?|[?|[Hw|?]]]; auto.
    right; right; left. cbn. by rewrite Hw, orb_true_r.
Qed.
End begin.

(** * What the callers hand over *)

Section send.
Implicit Types (M : queue_map) (V : view) (ts : list task) (p : positive) (ps : list positive).

Lemma does_enqueue_all q ps l M V (Q : unit → queue_map → view → Prop) :
  M !! q = Some l → NoDup ps → (∀ p, p ∈ ps → p ∉ all M) →
  Q tt (<[q := l ++ ps]> M) V → does (enqueue_all q ps) M V Q.
Proof.
  revert l M. induction ps as [|p ps IH]; intros l M Hq Hnd Hn HQ; cbn.
  - apply does_ret. by rewrite app_nil_r, insert_id in HQ.
  - apply NoDup_cons in Hnd as [Hp Hnd]. apply does_bind.
    eapply does_enqueue; [exact Hq|apply unlinked_all, Hn; by left|].
    eapply IH; [apply lookup_insert_eq|done| |by rewrite <- app_assoc, insert_insert_eq].
    intros p' Hp'. rewrite all_insert, !elem_of_app, list_elem_of_singleton.
    assert (p' ∉ all M) as Hn' by (apply Hn; by right). rewrite (all_lookup M q l Hq), elem_of_app in Hn'.
    intros [[?| ->]|?]; tauto.
Qed.

Lemma does_callers_packets ps M V (Q : task → queue_map → view → Prop) :
  M !! LocalQueue (v_next V) = None → NoDup ps → (∀ p, p ∈ ps → p ∉ all M) →
  Q (TSendMultiple (LocalQueue (v_next V))) (<[LocalQueue (v_next V) := ps]> M)
    (set_v_next (Pos.succ (v_next V)) V) →
  does (callers_packets ps) M V Q.
Proof.
  intros Hn Hnd Hps HQ. unfold callers_packets. apply does_bind, does_new_queue, does_bind.
  eapply does_enqueue_all; [apply lookup_insert_eq|done| |].
  - intros p Hp. rewrite all_insert_new by done. by apply Hps.
  - apply does_ret. by rewrite insert_insert_eq.
Qed.

(** What a caller has to see to. *)
Record callers V M ts ep ps : Prop := {
  cp_ep : is_ep ep = true;
  cp_service : ∃ y, v_eps V !! ep = Some y ∧ service_id y ≠ 0;
  cp_some : ps ≠ [];
  cp_nodup : NoDup ps;
  cp_new p : p ∈ ps → p ∉ live M ts;
  cp_owned p : p ∈ ps → packet_is owned_packet V p;
  cp_roomy p : p ∈ ps → packet_is roomy V p;
  cp_to p : p ∈ ps → to_endpoint V ep p;
  cp_distinct p p' : p ∈ ps → p' ∈ ps → buffer_of V p = buffer_of V p' → p = p';
  cp_apart p p' : p ∈ ps → p' ∈ live M ts → buffer_of V p ≠ buffer_of V p';
}.

Context {granted : Z → Z} {ts : list task} {M : queue_map} {V : view} {x x' : surroundings}.
Context {ep : Z} {ps : list positive}.
Hypothesis Hinv : inv granted ts M V x.
Hypothesis Hcp : callers V M ts ep ps.
Hypothesis Hpost : posted x' = posted x ++ ps.
Hypothesis Hsame : same_flight x x' ∧ held x' = held x ∧ refused x' = refused x ∧ stalled x' = stalled x.
Abbreviation L := (LocalQueue (v_next V)).
Abbreviation M' := (<[L := ps]> M).
Abbreviation V' := (set_v_next (Pos.succ (v_next V)) V).
Abbreviation t := (TSendMultiple L).

Lemma send_fresh : M !! L = None.
Proof. apply (qo_local _ _ _ (po_queues _ _ _ _ (inv_packets _ _ _ _ _ Hinv))). lia. Qed.

Lemma send_contents q : q ≠ L → contents M' q = contents M q.
Proof. intros H. by apply contents_insert_ne. Qed.

Lemma send_own q : q ∈ ts ≫= task_queues → q ≠ L.
Proof.
  intros Hq ->. destruct (qo_own _ _ _ (po_queues _ _ _ _ (inv_packets _ _ _ _ _ Hinv)) L Hq) as [_ [l Hl]].
  by rewrite send_fresh in Hl.
Qed.

Lemma send_task_contents t1 q : t1 ∈ ts → q ∈ task_queues t1 → contents M' q = contents M q.
Proof. intros Ht1 Hq. apply send_contents, send_own, list_elem_of_bind. eauto. Qed.

Lemma send_live : live M' (t :: ts) ≡ₚ ps ++ live M ts.
Proof. unfold live. cbn. rewrite all_insert_new by exact send_fresh. by rewrite app_assoc. Qed.

Lemma send_lookups e : lookups e M' (t :: ts) = lookups e M ts.
Proof.
  unfold lookups. cbn. rewrite send_contents by done. f_equal.
  assert (∀ l, l ⊆ ts → (l ≫= search_part e M') = (l ≫= search_part e M)) as H; [|by apply H].
  induction l as [|t1 l IH]; intros Hs; [done|]. cbn. rewrite IH by (intros t2 Ht2; apply Hs; by right). f_equal.
  destruct t1; cbn; try done. case_match; [|done].
  eapply (send_task_contents _ lookupQueue); [apply Hs; by left|by left].
Qed.

Lemma send_charged e t1 : t1 ∈ ts → charged e M' V' t1 = charged e M V t1.
Proof.
  intros Ht1. pose proof (send_task_contents t1) as Hc.
  destruct t1; cbn; try done; case_match; try done; by rewrite Hc by (first [done|by left]).
Qed.

Lemma send_task t1 : t1 ∈ ts → task_ok M V t1 → task_ok M' V' t1.
Proof.
  intros Ht1 [Hc H]. split; [done|]. pose proof (send_task_contents t1) as Hs.
  assert (∀ k, callers_queue (task_cont t1) = callers_queue k → callers_ok M V k → callers_ok M' V' k) as Hcall.
  { intros k Hk. unfold callers_ok. destruct (callers_queue k) as [q|] eqn:E; [|done].
    rewrite Hs; [done|done|]. unfold task_queues. rewrite Hk. apply elem_of_app. right. by left. }
  destruct t1; cbn in H |- *; try exact H; try (rewrite Hs by (first [exact Ht1|by left]); exact H).
  - destruct H as [He H]. split; [exact He|]. by apply (Hcall k eq_refl).
  - destruct H as (He & Hq & Hk & H). rewrite Hs by (first [exact Ht1|by left]).
    split; [exact He|]. split; [exact Hq|]. split; [exact Hk|]. by apply (Hcall k eq_refl).
Qed.

Lemma send_queues : queues_ok (t :: ts) M' (v_next V').
Proof.
  pose proof (po_queues _ _ _ _ (inv_packets _ _ _ _ _ Hinv)) as [H1 H2 H3 H4 H5]. split; cbn.
  - intros e He. rewrite !lookup_insert_ne by done. by apply H1.
  - intros k Hk. rewrite lookup_insert_ne by (intros [=]; lia). apply H2. lia.
  - constructor; [|done]. intros Hq. by apply send_own in Hq.
  - intros q [->|Hq]%elem_of_cons; [split; [eauto|by rewrite lookup_insert_eq]|].
    rewrite lookup_insert_ne by (apply not_eq_sym; by apply send_own). by apply H4.
  - intros q. destruct (decide (q = L)) as [->|Hne]; [right; right; by left|].
    rewrite send_contents by done. destruct (H5 q) as [?|[?|?]]; auto. right; right. by right.
Qed.

Lemma send_packets : packets_ok (t :: ts) M' V' (posted x').
Proof.
  destruct (inv_packets _ _ _ _ _ Hinv) as [H1 H2 H3 H4 H5 H6 H7]. destruct Hcp. split.
  - exact send_queues.
  - rewrite send_live. apply NoDup_app. split; [done|]. split; [|done]. auto.
  - rewrite send_live, Hpost, H3. cbn [v_done set_v_next]. rewrite <- app_assoc.
    apply Permutation_app_head, Permutation_app_comm.
  - eapply (distinct_sub _ (ps ++ live M ts)); [|by rewrite send_live].
    intros p p' Hp Hp' Hb. apply elem_of_app in Hp as [Hp|Hp]; apply elem_of_app in Hp' as [Hp'|Hp'].
    + auto.
    + by destruct (cp_apart0 p p' Hp Hp').
    + by destruct (cp_apart0 p' p Hp' Hp).
    + by apply H4.
  - rewrite send_live. apply Forall_app. split; [|done]. apply Forall_forall. auto.
  - intros q p Hq. rewrite send_contents; [by apply H6|]. intros ->. destruct Hq as (e & _ & [?|?]); done.
  - constructor.
    + split; [done|]. exists ep. rewrite contents_insert_eq. split_and!; [done..|by apply Forall_forall|by apply Forall_forall].
    + rewrite Forall_forall in H7 |- *. intros t1 Ht1. by apply send_task, H7.
Qed.

Lemma send_inv : inv granted (t :: ts) M' V' x'.
Proof.
  destruct Hsame as ((Hfl & Hov) & Hhe & Hre & Hst). split.
  - exact (inv_eps _ _ _ _ _ Hinv).
  - exact send_packets.
  - rewrite Hfl. exact (inv_flight _ _ _ _ _ Hinv).
  - intros e y He Hy. rewrite total_of_cons. by apply (inv_drains _ _ _ _ _ Hinv).
  - intros e He. unfold waits_ok. rewrite send_lookups, Hov. destruct (inv_transfers _ _ _ _ _ Hinv e He) as (Ha & Hb & Hc).
    split; [|split].
    + unfold transfers, in_flight_of. rewrite Hfl. exact Ha.
    + intros Hn. destruct (Hb Hn) as [Hb1 Hb2]. rewrite total_of_cons. split; [done|]. constructor; [done|].
      rewrite Forall_forall in Hb2 |- *. intros t1 Ht1. specialize (Hb2 t1 Ht1). destruct t1; cbn in *; try done.
      rewrite (send_task_contents _ lookupQueue Ht1) by (by left). exact Hb2.
    + intros t1 p [->|Ht1]%elem_of_cons Hp; [done|by eapply Hc].
  - intros e He. pose proof (inv_credits _ _ _ _ _ Hinv e He) as H. unfold accounted, holds in *.
    rewrite !total_of_cons, Hhe, Hre. rewrite (total_ext (charged e M' V') (charged e M V)); [exact H|].
    intros t1 Ht1. by apply send_charged.
  - intros e y He Hy Hz. rewrite Hst, send_contents by done. exact (inv_wake _ _ _ _ _ Hinv e y He Hy Hz).
Qed.
End send.

(** * The invariant of the system *)

Lemma occ_app {A} `{EqDecision A} (a : A) l1 l2 : occ a (l1 ++ l2) = occ a l1 + occ a l2.
Proof. induction l1 as [|b l1 IH]; [done|]. cbn. rewrite IH. lia. Qed.

Lemma occ_perm {A} `{EqDecision A} (a : A) l1 l2 : l1 ≡ₚ l2 → occ a l1 = occ a l2.
Proof. induction 1 as [|b l1 l2 _ IH|b c l|l1 l2 l3 _ IH1 _ IH2]; cbn; lia. Qed.

Section good.
Context {Q : Type} `{!PacketQueue Q} {R : Q → queue_map → Prop} `{!QueueRefinement R}.
Implicit Types (w : world Q) (M : queue_map).

Definition good (granted : Z → Z) w : Prop :=
  ∃ M, R (st w).1 M ∧ hist_ok (st w).2 ∧ inv granted (tasks w) M (view_of (st w).2) (sur w).

(** What a program does to lists of packets it does to the queues that implement them. *)
Lemma carry {A} (m : HM Q A) (m' : HM queue_map A) q M t (P : A → queue_map → view → Prop) :
  refines (same_rest (R := R)) m m' → R q M → hist_ok t → does m' M (view_of t) P →
  ∃ a s M', m (q, t) = Some (a, s) ∧ R s.1 M' ∧ hist_ok s.2 ∧ P a M' (view_of s.2).
Proof.
  intros Hs HR Hh Hd. destruct (Hd t eq_refl Hh) as (a & [M' t'] & Hr & Hh' & HP).
  destruct (Hs (q, t) (M, t) a (M', t')) as ([q1 t1] & Hr1 & [HR1 Ht1]); [by split|done|].
  cbn in *. subst t1. exists a, (q1, t'), M'. auto.
Qed.

Lemma carry_result {A} (m : HM Q A) (m' : HM queue_map A) s0 M (P : A → queue_map → view → Prop) a s :
  m s0 = Some (a, s) → refines (same_rest (R := R)) m m' → R s0.1 M → hist_ok s0.2 →
  does m' M (view_of s0.2) P → ∃ M', R s.1 M' ∧ hist_ok s.2 ∧ P a M' (view_of s.2).
Proof.
  destruct s0 as [q t]. intros Hr Hs HR Hh Hd.
  destruct (carry m m' q M t P Hs HR Hh Hd) as (a1 & s1 & M' & Hr1 & H). simplify_eq. eauto.
Qed.

Lemma may_run_others w i t : tasks w !! i = Some t → may_run w t →
  ∃ O, tasks w ≡ₚ t :: O ∧ (∀ t', <[i := t']> (tasks w) ≡ₚ t' :: O) ∧
    ∀ e q p k, t = TReclaim e q p k → existsb (searches e) O = false.
Proof.
  intros Hi Hm. destruct (list_elem_of_split_length _ _ _ Hi) as (l1 & l2 & Heq & ->).
  exists (l1 ++ l2). rewrite Heq. split; [solve_Permutation|]. split.
  - intros t'. rewrite insert_app_r_alt, Nat.sub_diag by done. cbn. solve_Permutation.
  - intros e q p k ->. cbn in Hm. rewrite Heq, existsb_app in Hm. cbn in Hm.
    by rewrite existsb_app.
Qed.

(** A task that may run has a result. *)
Lemma good_runs granted w i t env :
  good granted w → tasks w !! i = Some t → may_run w t →
  ∃ t' s', run_task env t (st w) = Some (t', s') ∧
    good granted (mk_world s' (<[i := t']> (tasks w)) (after env t t' (st w).2 (sur w))).
Proof.
  intros (M & HR & Hh & Hinv) Hi Hm. destruct (may_run_others w i t Hi Hm) as (O & Hp & Hins & Hs).
  apply (inv_perm _ _ _ _ _ _ Hp) in Hinv. destruct (st w) as [q s] eqn:Es. cbn [fst snd] in *.
  destruct (carry (run_task env t) (run_task env t) q M s _ (run_task_sim R env t) HR Hh
    (task_keeps granted env t O M _ _ Hs Hinv)) as (t' & s' & M' & Hr & HR' & Hh' & H').
  exists t', s'. split; [done|]. exists M'. split; [done|]. split; [done|]. cbn [st tasks sur].
  rewrite after_view_of. eapply inv_perm; [symmetry; apply Hins|done].
Qed.

Lemma enqueue_all_sim q ps :
  refines (same_rest (R := R)) (enqueue_all q ps) (enqueue_all q ps).
Proof.
  induction ps as [|p ps IH]; [apply refines_ret|]. cbn [enqueue_all].
  apply refines_bind; [apply qop_sim, ref_enqueue|]. intros ?. exact IH.
Qed.

Lemma callers_packets_sim ps :
  refines (same_rest (R := R)) (callers_packets ps) (callers_packets ps).
Proof.
  unfold callers_packets. apply refines_bind; [by apply new_queue_sim|]. intros q.
  apply refines_bind; [apply enqueue_all_sim|]. intros _. apply refines_ret.
Qed.

(** ** Packets and buffers outside the channel *)

Lemma free_not_live granted ts M t x p :
  inv granted ts M (view_of t) x → free_packet x t p → p ∉ live M ts.
Proof.
  intros Hinv Hf. pose proof (po_posted _ _ _ _ (inv_packets _ _ _ _ _ Hinv)) as Hp.
  apply occ_zero. unfold free_packet in Hf. rewrite (occ_perm _ _ _ Hp), occ_app in Hf. cbn in Hf. lia.
Qed.

Lemma view_buffer t p : buffer_of (view_of t) p = pNetBufContext <$> packets t !! p.
Proof. unfold buffer_of. cbn. rewrite lookup_fmap. by destruct (packets t !! p). Qed.

Lemma buffer_not_live granted ts M t x b p :
  inv granted ts M (view_of t) x → buffer_free x t b → p ∈ live M ts → buffer_of (view_of t) p ≠ Some b.
Proof.
  intros Hinv Hf Hp. rewrite view_buffer. destruct (packets t !! p) as [pkt|] eqn:E; [|done].
  intros [= Hb]. by eapply free_not_live, Hp; [exact Hinv|eapply Hf].
Qed.
Lemma view_packet t p : v_pkts (view_of t) !! p = norm_pkt <$> packets t !! p.
Proof. cbn. by rewrite lookup_fmap. Qed.

Lemma omap_NoDup_inj {A B} (f : A → option B) l a a' b :
  NoDup (omap f l) → a ∈ l → a' ∈ l → f a = Some b → f a' = Some b → a = a'.
Proof.
  intros Hnd Ha Ha' Hb Hb'. induction l as [|c l IH]; [by apply elem_of_nil in Ha|].
  assert (∀ d, d ∈ l → f d = Some b → b ∈ omap f l) as Hin by (intros d Hd Hf; apply list_elem_of_omap; eauto).
  cbn in Hnd. apply elem_of_cons in Ha as [->|Ha], Ha' as [->|Ha']; [done| | |].
  - rewrite Hb in Hnd. apply NoDup_cons in Hnd as [Hn _]. by destruct Hn; eapply Hin.
  - rewrite Hb' in Hnd. apply NoDup_cons in Hnd as [Hn _]. by destruct Hn; eapply Hin.
  - apply IH; [|done..]. destruct (f c); [by apply NoDup_cons in Hnd as []|done].
Qed.

(** What the rule for sending asks of the caller is enough. *)
Lemma sendable_callers granted ts M t x ep e ps :
  inv granted ts M (view_of t) x → is_ep ep = true → endpoint t !! ep = Some e → service_id e ≠ 0 →
  ps ≠ [] → NoDup ps → NoDup (buffers_of t ps) → (∀ p, p ∈ ps → sendable x t ep p) →
  callers (view_of t) M ts ep ps.
Proof.
  intros Hinv He Hy Hs Hne Hnd Hnb Hps.
  assert (∀ p, p ∈ ps → ∃ pkt s, v_pkts (view_of t) !! p = Some pkt ∧ pkt_Endpoint pkt = ep ∧
    v_nbs (view_of t) !! pNetBufContext pkt = Some s ∧ owned_packet pkt s ∧ roomy pkt s ∧
    free_packet x t p ∧ buffer_free x t (pNetBufContext pkt)) as Hpk.
  { intros p Hp. destruct (Hps p Hp) as (Hf & pkt & b & Hpkt & Hto & Htag & Hb & [Hr1 Hr2] & Hbf).
    exists (norm_pkt pkt), (nb_size b). rewrite view_packet, Hpkt. cbn. rewrite lookup_fmap, Hb.
    do 3 (split; [done|]). split; [|done]. split; [by cbn; rewrite Hto|]. split; [done|].
    intros m. cbn. destruct (extra_frag b) as [l|]; [|done]. intros [= <-]. by apply Hr2. }
  split; try done.
  - exists (norm_ep e). cbn. by rewrite lookup_fmap, Hy.
  - intros p Hp. destruct (Hpk p Hp) as (_ & _ & _ & _ & _ & _ & _ & Hf & _). by eapply free_not_live.
  - intros p Hp. destruct (Hpk p Hp) as (pkt & s & ? & ? & ? & ? & ? & ?). by exists pkt, s.
  - intros p Hp. destruct (Hpk p Hp) as (pkt & s & ? & ? & ? & ? & ? & ?). by exists pkt, s.
  - intros p Hp. destruct (Hpk p Hp) as (pkt & s & Hpkt & <- & _). unfold to_endpoint. by rewrite Hpkt.
  - intros p p' Hp Hp'. rewrite !view_buffer. intros Hb.
    destruct (Hps p Hp) as (_ & pkt & _ & Hpkt & _). rewrite Hpkt in Hb.
    by eapply omap_NoDup_inj; [exact Hnb|done|done|cbn; rewrite Hpkt|cbn; rewrite <- Hb].
  - intros p p' Hp Hp'. destruct (Hpk p Hp) as (pkt & s & Hpkt & _ & _ & _ & _ & _ & Hbf).
    unfold buffer_of at 1. rewrite Hpkt. apply not_eq_sym. by eapply buffer_not_live.
Qed.

(** ** Space on a pipe *)

Lemma tdoes_find_pipe n i pipeID V (P : option Z → view → Prop) :
  eps_ok V → 0 ≤ i → i + Z.of_nat n ≤ ENDPOINT_MAX →
  (∀ o, (∀ e, o = Some e → is_ep e = true) → P o V) → tdoes (find_pipe n i pipeID) V P.
Proof.
  intros Hep. revert i. induction n as [|n IH]; intros i Hi Hn HP; cbn; [by apply tdoes_ret, HP|].
  assert (is_ep i = true) as He.
  { unfold is_ep. apply andb_true_iff. split; [by apply Z.leb_le|]. apply Z.ltb_lt. lia. }
  destruct (Hep i He) as (y & Hy & _). apply tdoes_bind. eapply tdoes_get_ep; [exact Hy|]. intros z _.
  destruct (_ && _); [apply tdoes_ret, HP; by intros ? [= <-]|]. apply IH; [lia|lia|done].
Qed.

Lemma does_avail pipeID M V (P : task → queue_map → view → Prop) :
  eps_ok V → P (TDone A_OK) M V → (∀ e, is_ep e = true → P (TTrySend e KReturn) M V) →
  does (htc_tx_resource_avail_handler pipeID) M V P.
Proof.
  intros Hep H1 H2. unfold htc_tx_resource_avail_handler. apply does_bind, does_op.
  apply tdoes_find_pipe; [done|done|done|]. intros o Ho. apply does_ret. destruct o; [by apply H2, Ho|done].
Qed.

Lemma avail_sim pipeID :
  refines (same_rest (R := R)) (htc_tx_resource_avail_handler pipeID) (htc_tx_resource_avail_handler pipeID).
Proof. apply refines_bind; [apply op_sim|]. intros o. apply refines_ret. Qed.

(** A task that only knows an endpoint, when it begins. *)
Lemma begin_quiet granted ts M V x t :
  inv granted ts M V x → bare M V t →
  (∀ e, pending e V t = [] ∧ completes e t = false ∧ reported e t = 0) → inv granted (t :: ts) M V x.
Proof.
  intros H Hb Hq. eapply begin_inv; [exact H|exact Hb|done..|]. intros e _.
  destruct (Hq e) as (-> & -> & ->). rewrite app_nil_r, Z.add_0_r. done.
Qed.

(** ** Every rule keeps the invariant *)

Lemma good_packet granted w p pkt :
  good granted w → free_packet (sur w) (st w).2 p →
  good granted (mk_world ((st w).1, set_packets (<[p := pkt]> (packets (st w).2)) (st w).2) (tasks w) (sur w)).
Proof.
  intros (M & HR & Hh & Hinv) Hf. exists M. split; [done|]. split; [done|]. cbn [st tasks sur snd].
  eapply frame_inv; [exact Hinv|done..|]. intros p' Hp'.
  split; [|done]. rewrite !view_packet. cbn. rewrite lookup_insert_ne; [done|]. intros <-. by eapply free_not_live.
Qed.

Lemma good_buffer granted w b nb :
  good granted w → buffer_free (sur w) (st w).2 b →
  good granted (mk_world ((st w).1, set_nbufs (<[b := nb]> (nbufs (st w).2)) (st w).2) (tasks w) (sur w)).
Proof.
  intros (M & HR & Hh & Hinv) Hf. exists M. split; [done|]. split; [done|]. cbn [st tasks sur snd].
  eapply frame_inv; [exact Hinv|done..|]. intros p' Hp'. split; [done|]. intros b' Hb'.
  cbn. rewrite !lookup_fmap, lookup_insert_ne; [done|]. intros ->. by eapply buffer_not_live in Hb'.
Qed.

Lemma good_send granted w ep e ps t s' :
  good granted w → is_ep ep = true → endpoint (st w).2 !! ep = Some e → service_id e ≠ 0 → ps ≠ [] → NoDup ps →
  NoDup (buffers_of (st w).2 ps) → (∀ p, p ∈ ps → sendable (sur w) (st w).2 ep p) →
  callers_packets ps (st w) = Some (t, s') →
  good granted (mk_world s' (tasks w ++ [t])
    (mk_sur (in_flight (sur w)) (held (sur w)) (posted (sur w) ++ ps) (refused (sur w)) (stalled (sur w)) (overlapped (sur w)))).
Proof.
  intros (M & HR & Hh & Hinv) He Hy Hs Hne Hnd Hnb Hps Hr.
  pose proof (sendable_callers _ _ _ _ _ _ _ _ Hinv He Hy Hs Hne Hnd Hnb Hps) as Hcp.
  pose proof (send_fresh Hinv) as Hfr.
  destruct (carry_result _ (callers_packets ps) (st w) M (λ t' M' V', t' = TSendMultiple (LocalQueue (v_next (view_of (st w).2))) ∧
    M' = <[LocalQueue (v_next (view_of (st w).2)) := ps]> M ∧
    V' = set_v_next (Pos.succ (v_next (view_of (st w).2))) (view_of (st w).2)) _ _ Hr (callers_packets_sim ps) HR Hh)
    as (M' & HR' & Hh' & -> & -> & HV).
  - apply does_callers_packets; [done|done| |done]. intros p Hp Hin.
    apply (cp_new _ _ _ _ _ Hcp p Hp). apply elem_of_app. by left.
  - eexists. split; [exact HR'|]. split; [done|]. cbn [st tasks sur]. rewrite HV.
    eapply inv_perm; [apply Permutation_cons_append|]. by eapply send_inv.
Qed.

Lemma good_complete granted w l1 ep b l2 :
  good granted w → in_flight (sur w) = l1 ++ (ep, b) :: l2 →
  good granted (mk_world (st w) (tasks w ++ [TComplete ep b])
    (mk_sur (l1 ++ l2) (held (sur w)) (posted (sur w)) (refused (sur w)) (stalled (sur w))
      (overlap (tasks w) ep (overlapped (sur w))))).
Proof.
  intros (M & HR & Hh & Hinv) Hf. exists M. split; [done|]. split; [done|]. cbn [st tasks sur].
  eapply inv_perm; [apply Permutation_cons_append|].
  pose proof (inv_flight _ _ _ _ _ Hinv) as Hep. rewrite Hf in Hep. apply Forall_app in Hep as [_ Hep].
  apply Forall_cons in Hep as [Hep _].
  eapply begin_inv; [exact Hinv| |done..| | |].
  - by repeat split.
  - cbn. rewrite Hf. intros eb. rewrite !elem_of_app, elem_of_cons. tauto.
  - cbn. unfold overlap. case_match; set_solver.
  - intros e _. unfold in_flight_of. cbn. rewrite Hf, !filter_app, filter_cons. cbn.
    split; [|split; [|unfold reported; cbn; unfold holds; cbn; lia]].
    + case_decide as Hd.
      * subst. rewrite Z.eqb_refl. cbn. rewrite !fmap_app. cbn. solve_Permutation.
      * rewrite (proj2 (Z.eqb_neq _ _) Hd), app_nil_r. done.
    + intros Heq Hb. apply bool_decide_eq_true in Heq as ->. unfold overlap. rewrite Hb. set_solver.
Qed.

Lemma good_report granted w buf h :
  good granted w → Forall (λ c, 0 ≤ c < 256) buf →
  (∀ e, default 0 (h !! e) = holds (sur w) e - trailer_report buf e) →
  good granted (mk_world (st w) (tasks w ++ [TTrailer buf])
    (mk_sur (in_flight (sur w)) h (posted (sur w)) (refused (sur w)) (stalled (sur w)) (overlapped (sur w)))).
Proof.
  intros (M & HR & Hh & Hinv) Hb He. exists M. split; [done|]. split; [done|]. cbn [st tasks sur].
  eapply inv_perm; [apply Permutation_cons_append|].
  eapply begin_inv; [exact Hinv| |done..|].
  - by repeat split.
  - intros e _. split; [by rewrite app_nil_r|]. split; [done|].
    unfold reported. cbn. unfold holds at 2. cbn. rewrite He. lia.
Qed.

Lemma good_quiet granted w t s' M :
  R s'.1 M → hist_ok s'.2 → inv granted (tasks w) M (view_of s'.2) (sur w) → bare M (view_of s'.2) t →
  (∀ e, pending e (view_of s'.2) t = [] ∧ completes e t = false ∧ reported e t = 0) →
  good granted (mk_world s' (tasks w ++ [t]) (sur w)).
Proof.
  intros HR Hh Hinv Hb Hq. exists M. split; [done|]. split; [done|]. cbn [st tasks sur].
  eapply inv_perm; [apply Permutation_cons_append|]. by apply begin_quiet.
Qed.

Lemma good_step granted w w' : good granted w → step w w' → good granted w'.
Proof.
  intros Hg Hs. destruct Hs as [i t env t' s' Hi Hm Hr|p pkt Hf|b nb Hf|ep e ps t s' He Hy Hsv Hne Hnd Hnb Hps Hr
    |l1 ep b l2 Hf|buf h Hb _ Hh|ep He| |pipeID t s' Hr].
  - destruct (good_runs granted w i t env Hg Hi Hm) as (t1 & s1 & Hr1 & Hg1). by simplify_eq.
  - by apply good_packet.
  - by apply good_buffer.
  - by eapply good_send.
  - by eapply good_complete.
  - by apply good_report.
  - destruct Hg as (M & HR & Hh & Hinv). eapply good_quiet; [done..| |done]. by repeat split.
  - destruct Hg as (M & HR & Hh & Hinv). eapply good_quiet; [done..| |done]. by repeat split.
  - destruct Hg as (M & HR & Hh & Hinv).
    destruct (carry_result _ _ (st w) M (λ t' M' V', M' = M ∧ V' = view_of (st w).2 ∧
      (t' = TDone A_OK ∨ ∃ e, is_ep e = true ∧ t' = TTrySend e KReturn)) _ _ Hr (avail_sim pipeID) HR Hh)
      as (M' & HR' & Hh' & -> & HV & Ht).
    { apply does_avail; [exact (inv_eps _ _ _ _ _ Hinv)|by auto|]. intros e He. split_and!; [done..|]. right. eauto. }
    rewrite <- HV in Hinv. eapply good_quiet; [exact HR'|exact Hh'|exact Hinv| |];
      destruct Ht as [->|(e & He & ->)]; try done; by repeat split.
Qed.

(** ** The start *)

Definition emptied (i : Z) M : queue_map :=
  <[RxBufferHoldQueue i := []]> (<[TxLookupQueue i := []]> (<[TxQueue i := []]> M)).

Lemma qop_init_rep q s M u s' :
  qop (q_init q) s = Some (u, s') → R s.1 M → R s'.1 (<[q := []]> M).
Proof.
  destruct s as [x t], s' as [x' t']. intros Hr HR.
  destruct (qop_sim _ _ (ref_init (R := R) q) (x, t) (M, t) tt (<[q := []]> M, t)) as ([x1 t1] & Hr1 & [HR1 _]);
    [by split|done|]. destruct u. by simplify_eq.
Qed.

Lemma op_rep {A} (m : TM A) s M (a : A) s' : op m s = Some (a, s') → R s.1 M → R (s'.1 : Q) M.
Proof. unfold op, zoom. intros Hr. destruct (m (snd s)) as [[]|]; by simplify_eq. Qed.

Lemma reset_endpoint_rep i s M s' :
  reset_endpoint i s = Some (tt, s') → R s.1 M → R s'.1 (emptied i M).
Proof.
  intros Hr HR. unfold reset_endpoint in Hr. minv. unfold emptied.
  eapply op_rep; [eassumption|]. do 3 (eapply qop_init_rep; [eassumption|]). by eapply op_rep.
Qed.

Lemma reset_loop_rep n i s M s' :
  reset_loop n i s = Some (tt, s') → R s.1 M → R s'.1 (foldl (λ M i, emptied i M) M (seqZ i (Z.of_nat n))).
Proof.
  revert i s M. induction n as [|n IH]; intros i s M Hr HR; cbn [reset_loop] in Hr.
  - minv. by simplify_eq.
  - apply run_bind_inv in Hr as ([] & s1 & Hr1 & Hr). rewrite seqZ_cons by lia. cbn.
    replace (Z.pred (Z.of_nat (S n))) with (Z.of_nat n) by lia. replace (Z.succ i) with (i + 1) by lia.
    eapply IH; [exact Hr|]. by eapply reset_endpoint_rep.
Qed.

(** The queues after the reset *)
Definition started : queue_map := foldl (λ M i, emptied i M) ∅ (seqZ ENDPOINT_0 ENDPOINT_MAX).

Lemma started_empty q : contents started q = [].
Proof.
  assert (∀ l M, (∀ q, contents M q = []) → contents (foldl (λ M i, emptied i M) M l) q = []) as H.
  { induction l as [|i l IH]; intros M HM; [apply HM|]. cbn. apply IH. intros q'. unfold emptied.
    rewrite !contents_insert. repeat case_decide; done. }
  by apply H.
Qed.

Lemma started_all : all started = [].
Proof.
  destruct (all started) as [|p l] eqn:E; [done|]. exfalso.
  assert (p ∈ all started) as Hp by (rewrite E; by left).
  apply elem_of_all in Hp as (q & l' & Hq & Hp). pose proof (started_empty q) as H. unfold contents in H.
  rewrite Hq in H. cbn in H. subst. by apply elem_of_nil in Hp.
Qed.

Lemma started_endpoint e : is_ep e = true → is_Some (started !! TxQueue e) ∧ is_Some (started !! TxLookupQueue e).
Proof.
  intros He. unfold is_ep, ENDPOINT_MAX in He. apply andb_true_iff in He as [H1%Z.leb_le H2%Z.ltb_lt].
  assert (e ∈ seqZ 0 9) as Hin by (apply elem_of_seqZ; lia). clear H1 H2.
  assert (Forall (λ e, bool_decide (is_Some (started !! TxQueue e) ∧ is_Some (started !! TxLookupQueue e)) = true)
    (seqZ 0 9)) as H by (vm_compute; repeat constructor).
  rewrite Forall_forall in H. by apply H, bool_decide_eq_true in Hin.
Qed.

Lemma started_local k : started !! LocalQueue k = None.
Proof.
  assert (∀ l M, M !! LocalQueue k = None → foldl (λ M i, emptied i M) M l !! LocalQueue k = None) as H.
  { induction l as [|i l IH]; intros M HM; [done|]. cbn. apply IH. unfold emptied.
    by rewrite !lookup_insert_ne. }
  by apply H.
Qed.

(** The credits with which the channel starts *)
Definition granted_at w (e : Z) : Z := credits_of (view_of (st w).2) e.

Lemma good_start w : (∀ q, R q ∅) → starts w → good (granted_at w) w.
Proof.
  intros HR (s & t & eps & Hr & [Hc1 Hc2] & Hst & Hts & Hsur & Hh1 & Hh2).
  exists started. split; [|split].
  - apply (reset_loop_rep _ _ _ _ _ Hr), HR.
  - by rewrite Hst.
  - rewrite Hts, Hsur. assert (live started [] = []) as Hlive by (unfold live; by rewrite started_all).
    assert (∀ e y, v_eps (view_of (st w).2) !! e = Some y → ∃ y0, eps !! e = Some y0 ∧ y = norm_ep y0) as Hv.
    { intros e y. rewrite Hst. cbn. rewrite lookup_fmap. destruct (eps !! e); [|done]. intros [= <-]. eauto. }
    split.
    + intros e He. destruct (Hc1 e He) as [y Hy]. exists (norm_ep y). rewrite Hst. cbn. rewrite lookup_fmap, Hy.
      destruct (Hc2 e y Hy) as (_ & H1 & _ & H2 & H3). auto.
    + split; rewrite ?Hlive; try done.
      * split; [exact started_endpoint|intros; apply started_local|apply NoDup_nil_2
          |intros q Hq; by apply elem_of_nil in Hq|intros q; left; apply started_empty].
      * apply NoDup_nil_2.
      * cbn. by rewrite Hst.
      * intros p p' Hp. by apply elem_of_nil in Hp.
      * intros q p _. rewrite started_empty. by intros ?%elem_of_nil.
    + done.
    + intros e y He Hy. destruct (Hv e y Hy) as (y0 & Hy0 & ->). destruct (Hc2 e y0 Hy0) as (_ & _ & H & _).
      cbn. rewrite H. lia.
    + intros e He. unfold waits_ok, lookups. cbn. rewrite started_empty. split; [by exists []|]. split; [done|].
      intros t0 p Ht. by apply elem_of_nil in Ht.
    + intros e He. unfold accounted, granted_at, holds. cbn. rewrite lookup_empty. cbn. split; intros; lia.
    + intros e y He Hy Hz. left. apply started_empty.
Qed.

Lemma reachable_good w0 w : (∀ q, R q ∅) → reachable w0 w → good (granted_at w0) w.
Proof.
  intros HR. induction 1 as [H|w w1 _ IH Hs]; [by apply good_start|]. by eapply good_step.
Qed.
End good.

(** * What follows from the invariant *)

Section facts.
Context {granted : Z → Z} {ts : list task} {M : queue_map} {V : view} {x : surroundings}.
Hypothesis Hinv : inv granted ts M V x.

Lemma inv_task t : t ∈ ts → task_ok M V t.
Proof.
  intros Ht. pose proof (po_tasks _ _ _ _ (inv_packets _ _ _ _ _ Hinv)) as H. rewrite Forall_forall in H. auto.
Qed.

Lemma charged_nonneg e t : t ∈ ts → 0 ≤ charged e M V t.
Proof.
  intros Ht. destruct (inv_task t Ht) as [_ H].
  assert (∀ q, Forall (has_credits V) (contents M q) → 0 ≤ total (used V) (contents M q)) as Hq.
  { intros q Hq. apply total_of_nonneg. by rewrite Forall_forall in Hq. }
  destruct t; cbn in H |- *; try done; case_match; try done.
  - by apply Hq, H.
  - destruct H as (_ & _ & H & Hp & _). specialize (Hq sendQueue H). unfold has_credits in Hp. lia.
  - destruct H as (_ & _ & H & Hp & _). specialize (Hq sendQueue H). unfold has_credits in Hp. lia.
Qed.

Lemma entries_nonneg rpt e : Forall entry_ok rpt → 0 ≤ entries_credits rpt e.
Proof.
  induction 1 as [|[ep n] rpt [H1 H2] _ IH]; cbn -[Z.leb]; [done|]. cbn in H2.
  destruct (_ <=? _); [done|]. destruct (_ =? _); lia.
Qed.

Lemma credits_nonneg fuel buf e : Forall is_byte buf → 0 ≤ trailer_credits fuel buf e.
Proof.
  revert buf. induction fuel as [|fuel IH]; intros buf Hb; cbn; [done|].
  destruct (process_trailer_ok M V buf Hb) as [_ H]. destruct (process_trailer buf); try done.
  - destruct H as [H1 H2]. pose proof (entries_nonneg rpt e H1). specialize (IH _ H2). lia.
  - by apply IH.
Qed.

Lemma reported_nonneg e t : t ∈ ts → 0 ≤ reported e t.
Proof.
  intros Ht. destruct (inv_task t Ht) as [Hk H].
  assert (∀ rpt tr, Forall entry_ok rpt → Forall is_byte tr → 0 ≤ entries_credits rpt e + trailer_report tr e) as Hn.
  { intros rpt tr Hr Hb. pose proof (entries_nonneg rpt e Hr). unfold trailer_report.
    pose proof (credits_nonneg (length tr) tr e Hb). lia. }
  assert (∀ k, cont_ok k → 0 ≤ cont_report e k) as Hc.
  { intros [| | |] Hk'; cbn; try done. by apply Hn; apply Hk'. }
  unfold reported. specialize (Hc _ Hk).
  destruct t; cbn in H, Hc |- *; try lia.
  - destruct H as [Hr Hb]. specialize (Hn rpt trailer Hr Hb). lia.
  - unfold trailer_report. pose proof (credits_nonneg (length trailer) trailer e H). lia.
Qed.

Lemma accounted_bound e : is_ep e = true → credits_of V e + holds x e ≤ granted e.
Proof.
  intros He. destruct (inv_credits _ _ _ _ _ Hinv e He) as [H _]. unfold accounted in H.
  assert (0 ≤ total (charged e M V) ts) by (apply total_of_nonneg; intros; by apply charged_nonneg).
  assert (0 ≤ total (reported e) ts) by (apply total_of_nonneg; intros; by apply reported_nonneg). lia.
Qed.
End facts.

(** Nothing is left to do. *)
Definition is_done (t : task) : bool := match t with TDone _ => true | _ => false end.
Definition quiet {Q} (w : world Q) : Prop := Forall (λ t, is_done t = true) (tasks w).

Lemma quiet_b {Q} (w : world Q) : forallb is_done (tasks w) = true → quiet w.
Proof. rewrite forallb_forall. intros H. apply Forall_forall. intros t Ht. by apply H, list_elem_of_In. Qed.

Section quiet.
Implicit Types (ts : list task).

Lemma quiet_total f ts : (∀ s, f (TDone s) = 0) → Forall (λ t, is_done t = true) ts → total f ts = 0.
Proof.
  intros Hf. induction 1 as [|t ts Ht _ IH]; [done|]. rewrite total_of_cons, IH.
  destruct t; try done. by rewrite Hf.
Qed.

Lemma quiet_bind {A} (f : task → list A) ts :
  (∀ s, f (TDone s) = []) → Forall (λ t, is_done t = true) ts → (ts ≫= f) = [].
Proof.
  intros Hf. induction 1 as [|t ts Ht _ IH]; [done|]. cbn. rewrite IH. destruct t; try done. by rewrite Hf.
Qed.

Lemma quiet_wakes e ts : Forall (λ t, is_done t = true) ts → existsb (wakes e) ts = false.
Proof. induction 1 as [|t ts Ht _ IH]; [done|]. cbn. rewrite IH. by destruct t. Qed.
End quiet.

(** Where a lookup ends *)
Section lookup.
Context {Q : Type} `{!PacketQueue Q}.

Lemma qop_rest {A} (m : CM Q A) s (a : A) s' : qop m s = Some (a, s') → s'.2 = s.2.
Proof. unfold qop, zoom. intros H. destruct (m s.1) as [[]|]; by simplify_eq. Qed.

Lemma get_pkt_run p s pkt s' : op (Q := Q) (get_pkt p) s = Some (pkt, s') → s' = s ∧ packets s.2 !! p = Some pkt.
Proof.
  destruct s as [x t]. unfold op, zoom, get_pkt. cbn. unfold mbind, CM_bind, gets, deref. cbn.
  destruct (packets t !! p) as [k|] eqn:E; [|done]. unfold mret, CM_ret. intros [= <- <-]. done.
Qed.

(** A packet that a search finds belongs to the buffer. *)
Lemma lookup_loop_match fuel b (q : htc_queue) o p (s s' : Q * HTC_TARGET) :
  tx_lookup_loop fuel b q o s = Some (Some p, s') →
  s'.2 = s.2 ∧ ∃ pkt, packets s.2 !! p = Some pkt ∧ pNetBufContext pkt = b.
Proof.
  revert o s. induction fuel as [|fuel IH]; intros [p'|] s Hr; cbn [tx_lookup_loop] in Hr; try by (unfold ub in Hr; simplify_eq).
  apply run_bind_inv in Hr as (nx & s1 & H1 & Hr). apply qop_rest in H1.
  apply run_bind_inv in Hr as (pkt & s2 & H2 & Hr). apply get_pkt_run in H2 as [-> H2].
  case_bool_decide as Hb.
  - apply run_bind_inv in Hr as ([] & s3 & H3 & Hr). apply qop_rest in H3. unfold mret, CM_ret in Hr. simplify_eq.
    rewrite H3, H1 in *. eauto.
  - destruct (IH _ _ Hr) as [H3 H4]. rewrite H1 in *. auto.
Qed.
End lookup.

(** * The channel over the queues of the code *)

Lemma rep_empty m : rep m ∅.
Proof. split; intros; by rewrite lookup_empty in *. Qed.

Lemma starts_rep (w : world dl_mem) : starts w → rep (st w).1 started.
Proof. intros (s & t & eps & Hr & _). apply (reset_loop_rep _ _ _ _ _ Hr), rep_empty. Qed.

Lemma channel_inv (w0 w : world dl_mem) : reachable w0 w → good (R := rep) (granted_at w0) w.
Proof. apply reachable_good, rep_empty. Qed.


(** C8. Invariant: credits are neither lost nor made.  The credits an endpoint has
    are never negative, and with those the target holds they are never more than
    what it started with; once nothing is left to do they are exactly that, unless
    the bus has refused a packet of the endpoint. *)
Theorem credits_conserved (w0 w : world dl_mem) ep x0 :
  reachable w0 w → is_ep ep = true → endpoint (st w0).2 !! ep = Some x0 →
  ∃ x, endpoint (st w).2 !! ep = Some x ∧ 0 ≤ TxCredits x ∧
    TxCredits x + holds (sur w) ep ≤ TxCredits x0 ∧
    (quiet w → ep ∉ refused (sur w) → TxCredits x + holds (sur w) ep = TxCredits x0).
Proof.
  intros Hr He H0. apply channel_inv in Hr as (M & _ & _ & Hinv).
  assert (granted_at w0 ep = TxCredits x0) as Hg.
  { unfold granted_at, credits_of. cbn. by rewrite lookup_fmap, H0. }
  destruct (inv_eps _ _ _ _ _ Hinv ep He) as (y & Hy & _ & Hc & _).
  pose proof (accounted_bound Hinv ep He) as Hb. pose proof (inv_credits _ _ _ _ _ Hinv ep He) as [_ Hex].
  unfold accounted, credits_of in Hb, Hex. rewrite Hy in Hb, Hex. cbn in Hb, Hex.
  destruct (view_eps_lookup _ _ _ _ eq_refl Hy) as (x & Hx & <-). exists x.
  rewrite Hg in *. split_and!; [done|exact Hc|exact Hb|]. intros Hq Hn. specialize (Hex Hn).
  rewrite (quiet_total _ _ (λ _, eq_refl) Hq), (quiet_total (reported ep) _ (λ _, eq_refl) Hq) in Hex.
  cbn in Hex. lia.
Qed.

(** C9. Invariant: a packet that is handed over is completed once.  At any time it
    has been completed as often as it was handed over, or once less, and in the
    latter case, when nothing is left to do, it is on the transmit queue or on the
    lookup queue of an endpoint. *)
Theorem packets_completed_once (w0 w : world dl_mem) p :
  reachable w0 w →
  let n := occ p (posted (sur w)) - occ p (completed (log (st w).2)) in
  0 ≤ n ≤ 1 ∧
  (quiet w → ∃ M, rep (st w).1 M ∧
    (n = 1 ↔ ∃ ep, is_ep ep = true ∧ (p ∈ contents M (TxQueue ep) ∨ p ∈ contents M (TxLookupQueue ep)))).
Proof.
  intros Hr n. apply channel_inv in Hr as (M & HR & _ & Hinv).
  pose proof (inv_packets _ _ _ _ _ Hinv) as Hok. pose proof (po_nodup _ _ _ _ Hok) as Hnd.
  assert (n = occ p (live M (tasks w))) as Hn.
  { unfold n. rewrite (occ_perm _ _ _ (po_posted _ _ _ _ Hok)), occ_app. cbn. lia. }
  assert (n = if decide (p ∈ live M (tasks w)) then 1 else 0) as Hn1.
  { rewrite Hn. clear -Hnd. induction (live M (tasks w)) as [|a l IH]; [done|].
    apply NoDup_cons in Hnd as [Ha Hnd]. cbn. rewrite IH by done. repeat case_decide; set_solver. }
  split; [rewrite Hn1; case_decide; lia|]. intros Hq. exists M. split; [done|].
  assert (p ∈ live M (tasks w) ↔ ∃ q, p ∈ contents M q) as Hl.
  { unfold live. rewrite (quiet_bind _ _ (λ _, eq_refl) Hq), app_nil_r, elem_of_all. split.
    - intros (q & l & Hql & Hp). exists q. unfold contents. by rewrite Hql.
    - intros (q & Hp). apply elem_of_all. by eapply contents_all. }
  transitivity (p ∈ live M (tasks w)); [rewrite Hn1; by case_decide|]. rewrite Hl. split.
  - intros (q & Hp). destruct (qo_dead _ _ _ (po_queues _ _ _ _ Hok) q) as [H|[(e & He & [->| ->])|H]].
    + rewrite H in Hp. by apply elem_of_nil in Hp.
    + eauto.
    + eauto.
    + rewrite (quiet_bind _ _ (λ _, eq_refl) Hq) in H. by apply elem_of_nil in H.
  - intros (e & _ & [Hp|Hp]); eauto.
Qed.

(** C10. Liveness: no packet is left behind.  When nothing is left to do, and the
    last round of an endpoint did not end because of the bus, its transmit queue
    is empty, or its first packet needs more credits than there are. *)
Theorem no_stranded_packet (w0 w : world dl_mem) ep :
  reachable w0 w → quiet w → is_ep ep = true → ep ∉ stalled (sur w) →
  ∃ o m, htc_get_pkt_at_head (TxQueue ep) (st w).1 = Some (o, m) ∧
    ∀ p, o = Some p → ∃ x pkt n, endpoint (st w).2 !! ep = Some x ∧ packets (st w).2 !! p = Some pkt ∧
      TxCreditFlowEnabled x = true ∧ creditsRequired x pkt = Some n ∧ TxCredits x < n.
Proof.
  intros Hr Hq He Hs. apply channel_inv in Hr as (M & HR & _ & Hinv).
  destruct (inv_eps _ _ _ _ _ Hinv ep He) as (y & Hy & _).
  destruct (inv_drains _ _ _ _ _ Hinv ep y He Hy) as [Hz _].
  rewrite (quiet_total _ _ (λ _, eq_refl) Hq) in Hz.
  destruct (qo_ep _ _ _ (po_queues _ _ _ _ (inv_packets _ _ _ _ _ Hinv)) ep He) as [[l Hl] _].
  destruct (ref_at_head (R := rep) (TxQueue ep) (st w).1 M (head l) M HR) as (m & Hm & _).
  { cbn. by rewrite (run_bind _ _ _ _ _ (list_of_run _ _ _ Hl)). }
  exists (head l), m. split; [exact Hm|]. intros p Hp.
  pose proof (inv_wake _ _ _ _ _ Hinv ep y He Hy Hz) as Hw. unfold contents in Hw. rewrite Hl in Hw. cbn in Hw.
  rewrite (quiet_wakes _ _ Hq) in Hw. destruct Hw as [->|[?|[?|(p' & l' & -> & Hst)]]]; try done.
  cbn in Hp. simplify_eq. destruct Hst as (x & pkt & n & Hx & Hpk & _ & Hf & Hc & Hlt).
  destruct (view_eps_lookup _ _ _ _ eq_refl Hx) as (x1 & Hx1 & <-).
  destruct (view_pkts_lookup _ _ _ _ eq_refl Hpk) as (pkt1 & Hpk1 & <-). by exists x1, pkt1, n.
Qed.

(** C16. Invariant: when nothing is left to do, the packets on the lookup queue of an
    endpoint are those of the transfers that the bus has accepted and not completed
    (their buffers are the buffers of the transfers, each as often), as long as no
    two completions of the endpoint have looked up their packets at once.  The code
    does not exclude that; where it has happened ([overlapped]) every transfer still
    has its packet on the queue, but there may be other packets too. *)
Theorem lookup_queue_is_in_flight (w0 w : world dl_mem) ep :
  reachable w0 w → quiet w → is_ep ep = true →
  ∃ M left, rep (st w).1 M ∧
    (λ p, pNetBufContext <$> packets (st w).2 !! p) <$> contents M (TxLookupQueue ep) ≡ₚ
    (Some <$> in_flight_of ep (sur w)) ++ left ∧
    (ep ∉ overlapped (sur w) → left = []).
Proof.
  intros Hr Hq He. apply channel_inv in Hr as (M & HR & _ & Hinv).
  destruct (inv_transfers _ _ _ _ _ Hinv ep He) as ((left & H & Hl) & _ & _). exists M, left. split; [done|].
  unfold lookups, transfers in H.
  rewrite !(quiet_bind _ _ (λ _, eq_refl) Hq), !app_nil_r in H. rewrite <- H. split; [|done].
  erewrite list_fmap_ext; [done|]. intros i p _. symmetry. apply view_buffer.
Qed.

(** C17. Safety: an endpoint is drained by one task at a time, and its
    [TxProcessCount] says whether it is. *)
Theorem one_drainer (w0 w : world dl_mem) ep x :
  reachable w0 w → is_ep ep = true → endpoint (st w).2 !! ep = Some x →
  TxProcessCount x = total (drains ep) (tasks w) ∧ 0 ≤ TxProcessCount x ≤ 1.
Proof.
  intros Hr He Hx. apply channel_inv in Hr as (M & _ & _ & Hinv).
  assert (v_eps (view_of (st w).2) !! ep = Some (norm_ep x)) as Hv by (cbn; by rewrite lookup_fmap, Hx).
  destruct (inv_drains _ _ _ _ _ Hinv ep _ He Hv) as [H1 H2]. cbn in H1, H2. rewrite H1 in *.
  split; [done|]. split; [|done]. apply total_of_nonneg. intros t _. destruct t; cbn; unfold c_bool; try case_match; lia.
Qed.

(** C20. Well-formedness: in every state that the rules of [step] reach from the start,
    the links of all queues are circular lists with the depths that are recorded, no
    packet is on two queues or twice on one, each endpoint has its queues, each
    packet on a queue exists and has a buffer, and the buffers of the packets on the
    queues of endpoints have room for the header in their data.  The rules exclude,
    as in C7, two things that the code does not: a packet that the bus refuses is not
    taken back while a completion of its endpoint searches (then the depth of the
    lookup queue would be -1, [refusal_during_search]), and a refused batch goes back
    to the transmit queue in one section. *)
Theorem queues_well_formed (w0 w : world dl_mem) :
  reachable w0 w →
  ∃ M, rep (st w).1 M ∧ NoDup (all M) ∧
    (∀ ep, is_ep ep = true → is_Some (M !! TxQueue ep) ∧ is_Some (M !! TxLookupQueue ep)) ∧
    ∀ q p, p ∈ contents M q → ∃ pkt b, packets (st w).2 !! p = Some pkt ∧
      nbufs (st w).2 !! pNetBufContext pkt = Some b ∧ (endpoint_queue q → (8 ≤ length (data b))%nat).
Proof.
  intros Hr. apply channel_inv in Hr as (M & HR & _ & Hinv). exists M.
  pose proof (inv_packets _ _ _ _ _ Hinv) as Hok. split; [done|]. split.
  { pose proof (po_nodup _ _ _ _ Hok) as Hnd. by apply NoDup_app in Hnd as (? & _). }
  split; [apply (qo_ep _ _ _ (po_queues _ _ _ _ Hok))|]. intros q p Hp.
  assert (packet_is owned_packet (view_of (st w).2) p) as (pkt & s & Hpk & Hs & _).
  { pose proof (po_owned _ _ _ _ Hok) as Ho. rewrite Forall_forall in Ho. apply Ho, elem_of_app. left.
    by eapply contents_all. }
  pose proof (po_headed _ _ _ _ Hok q p) as Hh.
  destruct (view_pkts_lookup _ _ _ _ eq_refl Hpk) as (pkt1 & Hpk1 & <-).
  destruct (view_nbs_lookup _ _ _ _ eq_refl Hs) as (b & Hb & <-).
  exists pkt1, b. split; [done|]. split; [done|]. intros Hq.
  destruct (Hh Hq Hp) as (pkt2 & s2 & Hp2 & Hs2 & H8). rewrite Hpk in Hp2. injection Hp2 as <-.
  rewrite Hs in Hs2. injection Hs2 as <-. exact H8.
Qed.

(** What a lookup that has ended has found *)
Lemma ended_lookup granted env (w : world dl_mem) i t ep o s' :
  good (R := rep) granted w → tasks w !! i = Some t → may_run w t → is_ep ep = true →
  run_task env t (st w) = Some (TIndicate ep o, s') →
  o ≠ None ∨ ep ∈ overlapped (after env t (TIndicate ep o) (st w).2 (sur w)).
Proof.
  intros Hg Hi Hm He Hrun. destruct (good_runs granted w i t env Hg Hi Hm) as (t' & s1 & Hr & M & _ & _ & Hinv).
  rewrite Hrun in Hr. injection Hr as <- <-. cbn [tasks sur st] in Hinv.
  destruct (decide (ep ∈ overlapped (after env t (TIndicate ep o) (st w).2 (sur w)))) as [|Hn]; [by right|left].
  destruct (inv_transfers _ _ _ _ _ Hinv ep He) as (_ & H & _). destruct (H Hn) as [_ Hf]. rewrite Forall_forall in Hf.
  assert (TIndicate ep o ∈ <[i := TIndicate ep o]> (tasks w)) as Hin.
  { apply list_elem_of_lookup. exists i. apply list_lookup_insert_eq. by eapply lookup_lt_Some. }
  destruct (Hf _ Hin eq_refl) as [p ->]. done.
Qed.

Lemma lookup_search_match {Q} `{!PacketQueue Q} ep b q (s s' : Q * HTC_TARGET) t' :
  lookup_search ep b q s = Some (t', s') → ∃ o, t' = TIndicate ep o ∧
    ∀ p, o = Some p → ∃ pkt, packets s'.2 !! p = Some pkt ∧ pNetBufContext pkt = b.
Proof.
  unfold lookup_search. intros Hr. apply run_bind_inv in Hr as (d & s1 & H1 & Hr).
  apply run_bind_inv in Hr as (f & s2 & H2 & Hr). apply run_bind_inv in Hr as (o & s3 & H3 & Hr).
  apply run_bind_inv in Hr as ([] & s4 & H4 & Hr). unfold mret, CM_ret in Hr. simplify_eq. apply qop_rest in H1, H2, H4.
  exists o. split; [done|]. intros p ->. destruct (lookup_loop_match _ _ _ _ _ _ _ H3) as [H5 (pkt & Hpk & Hb)].
  exists pkt. by rewrite H4, H5.
Qed.

Lemma lookup_first_match {Q} `{!PacketQueue Q} ep b (s s' : Q * HTC_TARGET) t' :
  tx_completion_handler ep b s = Some (t', s') → (∃ q, t' = TSearch ep b q) ∨ ∃ o, t' = TIndicate ep o ∧
    ∀ p, o = Some p → ∃ pkt, packets s'.2 !! p = Some pkt ∧ pNetBufContext pkt = b.
Proof.
  unfold tx_completion_handler, lookup_first. intros Hr. apply run_bind_inv in Hr as ([] & s1 & _ & Hr).
  apply run_bind_inv in Hr as (q & s2 & _ & Hr). apply run_bind_inv in Hr as ([] & s3 & _ & Hr).
  apply run_bind_inv in Hr as ([p|] & s4 & _ & Hr).
  - apply run_bind_inv in Hr as (pkt & s5 & Hp & Hr). apply get_pkt_run in Hp as [-> Hp]. case_bool_decide as Hb.
    + unfold mret, CM_ret in Hr. simplify_eq. right. exists (Some p). split; [done|]. intros p' [= <-]. by exists pkt.
    + apply run_bind_inv in Hr as ([] & s6 & _ & Hr). apply run_bind_inv in Hr as ([] & s7 & _ & Hr).
      unfold mret, CM_ret in Hr. simplify_eq. left. by eexists.
  - unfold mret, CM_ret in Hr. simplify_eq. right. by exists None.
Qed.

(** C19. Functional correctness: the completion of a transfer finds its packet.  Each
    of the two sections of the lookup, with the first packet of the queue and with
    the others, ends.  The first may leave the rest to the second; otherwise the
    lookup ends with a packet, and its buffer is that of the transfer.  It ends with
    no packet only if two completions of the endpoint have looked up their packets
    at once, which the code does not exclude ([overlapping_completions_lose] is a run
    in which it happens). *)
Theorem search_finds_packet env (w0 w : world dl_mem) i t ep b :
  reachable w0 w → tasks w !! i = Some t → t = TComplete ep b ∨ (∃ q, t = TSearch ep b q) →
  ∃ t' s', run_task env t (st w) = Some (t', s') ∧
    ((t = TComplete ep b ∧ ∃ q, t' = TSearch ep b q) ∨
     (∃ p pkt, t' = TIndicate ep (Some p) ∧ packets s'.2 !! p = Some pkt ∧ pNetBufContext pkt = b) ∨
     (t' = TIndicate ep None ∧ ep ∈ overlapped (sur w))).
Proof.
  intros Hr Hi Ht. apply channel_inv in Hr.
  assert (may_run w t) as Hm by by destruct Ht as [-> |[q ->]].
  destruct (good_runs _ w i _ env Hr Hi Hm) as (t' & s' & Hrun & _). exists t', s'. split; [exact Hrun|].
  assert (is_ep ep = true) as He.
  { destruct Hr as (M & _ & _ & Hinv). destruct (inv_task Hinv t) as [_ H]; [by eapply list_elem_of_lookup_2|].
    destruct Ht as [-> |[q ->]]; apply H. }
  assert ((t = TComplete ep b ∧ ∃ q, t' = TSearch ep b q) ∨ ∃ o, t' = TIndicate ep o ∧
    ∀ p, o = Some p → ∃ pkt, packets s'.2 !! p = Some pkt ∧ pNetBufContext pkt = b) as [Hs|(o & -> & Ho)]; [|by left|].
  { destruct Ht as [-> |[q ->]]; cbn [run_task] in Hrun; [apply lookup_first_match in Hrun as [?|?]; auto|].
    right. by eapply lookup_search_match. }
  right. pose proof (ended_lookup _ env w i t ep o s' Hr Hi Hm He Hrun) as Hend.
  destruct o as [p|]; [left; destruct (Ho p eq_refl) as (pkt & ? & ?); by exists p, pkt|right].
  split; [done|]. destruct Hend as [?|Hin]; [done|]. by destruct Ht as [-> |[q ->]].
Qed.

(** C18. Refinement: a task run to its end over the linked packets returns what it
    returns over lists of packets, with the same effects, and leaves the links of
    the lists it leaves. *)
Theorem channel_refines_lists fuel env t m M s r M' s' :
  rep m M → run_alone fuel env t (M, s) = Some (r, (M', s')) →
  ∃ m', run_alone fuel env t (m, s) = Some (r, (m', s')) ∧ rep m' M'.
Proof.
  intros HR Hr. assert (refines (same_rest (R := rep)) (run_alone fuel env t) (run_alone fuel env t)) as Hs.
  { clear. revert t. induction fuel as [|fuel IH]; intros t; [destruct t; try apply refines_ub; apply refines_ret|].
    destruct t; try apply refines_ret;
      (apply refines_bind; [apply (run_task_sim rep)|exact IH]). }
  destruct (Hs (m, s) (M, s) r (M', s')) as ([m' s1] & Hrun & [HR' He]); [by split|done|].
  cbn in HR', He. subst s1. eauto.
Qed.

(** * The frame header of a buffer *)

Section header.
Implicit Types (b : sk_buff) (t : HTC_TARGET).

Lemma write_at_drop l (p : nat) bs l' : write_at l p bs = Some l' →
  length l' = length l ∧ drop (p + length bs) l' = drop (p + length bs) l.
Proof.
  unfold write_at. destruct (Nat.leb_spec (p + length bs) (length l)) as [H|H]; [|done]. intros [= <-].
  split.
  - rewrite !length_app, length_take, length_drop. lia.
  - rewrite app_assoc, drop_app_length'; [done|]. rewrite length_app, length_take. lia.
Qed.

(** Writing a word of the header leaves everything else of the buffer. *)
Lemma frag0_write_rest (p : nat) v b : (p + 4 ≤ 8)%nat → frag0_ok (nb_size b) →
  ∃ b', frag0_write p v b = Some b' ∧ headroom b' = headroom b ∧ length (data b') = length (data b) ∧
    drop 8 (data b') = drop 8 (data b) ∧ nb_size b' = nb_size b.
Proof.
  intros Hp Hok. destruct (write_size b p v Hp Hok) as (b' & Hw & Hsz). exists b'. split; [done|].
  unfold frag0_write in Hw. destruct (extra_frag b) as [m|].
  - destruct (write_at m p (word_bytes v)) as [m'|]; [|done]. injection Hw as <-. auto.
  - destruct (write_at (data b) p (word_bytes v)) as [d'|] eqn:E; [|done]. injection Hw as <-. cbn.
    apply write_at_drop in E as [E1 E2]. change (length (word_bytes v)) with 4%nat in E2.
    split; [done|]. split; [done|]. split; [|done].
    replace 8%nat with ((p + 4) + (4 - p))%nat by lia. by rewrite <- !(drop_drop _ (4 - p) (p + 4)), E2.
Qed.

Lemma upd_nbuf_run t n f b b' : nbufs t !! n = Some b → f b = Some b' →
  upd_nbuf n f t = Some (tt, set_nbufs (<[n := b']> (nbufs t)) t).
Proof. intros Hb Hf. unfold upd_nbuf, get_nbuf, mbind, CM_bind, gets, deref. cbn. by rewrite Hb; cbn; rewrite Hf. Qed.
Lemma upd_pkt_run t p f x : packets t !! p = Some x →
  upd_pkt p f t = Some (tt, set_packets (<[p := f x]> (packets t)) t).
Proof. intros Hp. unfold upd_pkt, get_pkt, mbind, CM_bind, gets, deref. cbn. by rewrite Hp. Qed.
Lemma upd_ep_run t e f x : endpoint t !! e = Some x →
  upd_ep e f t = Some (tt, set_endpoint (<[e := f x]> (endpoint t)) t).
Proof. intros He. unfold upd_ep, get_ep, mbind, CM_bind, gets, deref. cbn. by rewrite He. Qed.
Lemma tm_get_pkt_run t p x : packets t !! p = Some x → get_pkt p t = Some (x, t).
Proof. intros Hp. unfold get_pkt, mbind, CM_bind, gets, deref. cbn. by rewrite Hp. Qed.
Lemma tm_get_ep_run t e x : endpoint t !! e = Some x → get_ep e t = Some (x, t).
Proof. intros He. unfold get_ep, mbind, CM_bind, gets, deref. cbn. by rewrite He. Qed.

(** What becomes of a buffer that is given a header, mapped, unmapped and restored. *)
Lemma header_bytes b v0 v1 : header_room b →
  ∃ b1 b2 b3 b5, skb_push 8 b = Some b1 ∧ frag0_write 0 v0 b1 = Some b2 ∧ frag0_write 4 v1 b2 = Some b3 ∧
    skb_pull 8 (set_mapped false (set_mapped true b3)) = Some b5 ∧ data b5 = data b ∧
    length (headroom b5) = length (headroom b) ∧ drop 8 (headroom b5) = drop 8 (headroom b) ∧ mapped b5 = false.
Proof.
  intros [Hr Hm].
  set (b1 := set_headroom (drop 8 (headroom b)) (set_data (rev (take 8 (headroom b)) ++ data b) b)).
  assert (length (rev (take 8 (headroom b))) = 8%nat) as Hl8 by (rewrite length_rev, length_take; lia).
  assert (frag0_ok (nb_size b1)) as Hok.
  { unfold frag0_ok, nb_size. cbn [snd fst]. unfold b1; cbn -[take drop].
    destruct (extra_frag b) as [m|] eqn:E; cbn -[take drop]; [by apply Hm|]. rewrite length_app. lia. }
  destruct (frag0_write_rest 0 v0 b1) as (b2 & H2 & Hh2 & Hl2 & Hd2 & Hs2); [lia|done|]. rewrite <- Hs2 in Hok.
  destruct (frag0_write_rest 4 v1 b2) as (b3 & H3 & Hh3 & Hl3 & Hd3 & _); [lia|done|].
  assert (8 ≤ length (data b3))%nat as Hlen.
  { rewrite Hl3, Hl2. unfold b1; cbn -[take drop]. rewrite length_app. lia. }
  assert (length (rev (take 8 (data b3))) = 8%nat) as Hl8' by (rewrite length_rev, length_take; lia).
  set (b5 := set_headroom (rev (take 8 (data b3)) ++ headroom b3) (set_data (drop 8 (data b3)) (set_mapped false b3))).
  exists b1, b2, b3, b5.
  split; [unfold skb_push; by rewrite (proj2 (Nat.leb_le _ _) Hr)|]. split; [done|]. split; [done|].
  split; [unfold skb_pull; cbn -[Nat.leb take drop]; by rewrite (proj2 (Nat.leb_le _ _) Hlen)|].
  assert (headroom b3 = drop 8 (headroom b)) as Hhead by (by rewrite Hh3, Hh2).
  unfold b5; cbn -[take drop]. split_and!; [|rewrite length_app, Hhead, length_drop; lia|by rewrite drop_app_length', Hhead|done].
  rewrite Hd3, Hd2. unfold b1; cbn -[take drop]. by rewrite drop_app_length'.
Qed.

(** Runs the next call of a program with a lemma about the state it is in. *)
Ltac at_state run := match goal with |- context [mbind _ _ ?s] => run s end.

(** C21. Round trip: completing a packet gives its buffer back as it was handed over.
    [restore_tx_packet] after the steps that prepare a packet for sending leaves
    the data of the buffer and, behind the room for the header, the headroom as
    they were, the buffer unmapped, and the flag that asks for it cleared. *)
Theorem restore_undoes_prepare ep p t x pkt b :
  endpoint t !! ep = Some x → packets t !! p = Some pkt → nbufs t !! pNetBufContext pkt = Some b →
  header_room b →
  ∃ t' b' pkt', (prepare_packet ep p;; restore_tx_packet p) t = Some (tt, t') ∧
    nbufs t' !! pNetBufContext pkt = Some b' ∧ data b' = data b ∧
    length (headroom b') = length (headroom b) ∧ drop 8 (headroom b') = drop 8 (headroom b) ∧ mapped b' = false ∧
    packets t' !! p = Some pkt' ∧ Z.land (Flags pkt') HTC_TX_PACKET_FLAG_FIXUP_NETBUF = 0.
Proof.
  intros Hx Hp Hb Hr. set (n := pNetBufContext pkt) in *.
  destruct (header_bytes b (frame_word0 (ActualLength pkt) 0 (pkt_Endpoint pkt)) (frame_word1 (SeqNo x)) Hr)
    as (b1 & b2 & b3 & b5 & H1 & H2 & H3 & H5 & Hd & Hl & Hh & Hm).
  set (pk1 := set_Flags (Z.lor (Flags pkt) HTC_TX_PACKET_FLAG_FIXUP_NETBUF) (set_pkt_SeqNo (SeqNo x) pkt)).
  assert (Z.land (Flags pk1) HTC_TX_PACKET_FLAG_FIXUP_NETBUF =? 0 = false) as Hfix.
  { apply Z.eqb_neq. unfold pk1; cbn. intros H. apply (f_equal (λ z, Z.testbit z 0)) in H.
    rewrite Z.land_spec, Z.lor_spec, orb_true_r in H. done. }
  unfold prepare_packet, cdf_nbuf_push_head, HTC_WRITE32, cdf_nbuf_map, restore_tx_packet, cdf_nbuf_unmap, cdf_nbuf_pull_head.
  mrun (tm_get_pkt_run _ _ _ Hp). fold n. mrun (upd_nbuf_run t n _ b b1 Hb H1).
  at_state ltac:(fun s => mrun (upd_nbuf_run s n _ b1 b2 (lookup_insert_eq _ _ _) H2)).
  at_state ltac:(fun s => mrun (tm_get_ep_run s ep x Hx)).
  at_state ltac:(fun s => mrun (upd_pkt_run s p (set_pkt_SeqNo (SeqNo x)) pkt Hp)).
  at_state ltac:(fun s => mrun (upd_ep_run s ep (λ x, set_SeqNo (u8 (SeqNo x + 1)) x) x Hx)).
  at_state ltac:(fun s => mrun (upd_nbuf_run s n _ b2 b3 (lookup_insert_eq _ _ _) H3)).
  at_state ltac:(fun s => mrun (upd_nbuf_run s n (λ x, Some (set_mapped true x)) b3 _ (lookup_insert_eq _ _ _) eq_refl)).
  at_state ltac:(fun s => mrun (upd_pkt_run s p (λ x, set_Flags (Z.lor (Flags x) HTC_TX_PACKET_FLAG_FIXUP_NETBUF) x)
    _ (lookup_insert_eq _ _ _))).
  at_state ltac:(fun s => mrun (tm_get_pkt_run s p pk1 (lookup_insert_eq _ _ _))).
  rewrite Hfix. cbn [negb when]. change (pNetBufContext pk1) with n.
  at_state ltac:(fun s => mrun (upd_nbuf_run s n (λ x, Some (set_mapped false x)) _ _ (lookup_insert_eq _ _ _) eq_refl)).
  at_state ltac:(fun s => mrun (upd_nbuf_run s n (skb_pull 8) _ b5 (lookup_insert_eq _ _ _) H5)).
  match goal with |- context [upd_pkt p ?f ?s] => rewrite (upd_pkt_run s p f pk1 (lookup_insert_eq _ _ _)) end.
  eexists _, b5, _. split; [reflexivity|]. cbn -[take drop Z.land Z.ldiff]. rewrite !lookup_insert_eq.
  split_and!; try done. cbn -[Z.land Z.ldiff Z.lor]. apply Z.bits_inj'. intros i Hi.
  rewrite Z.land_spec, Z.ldiff_spec, Z.bits_0. by destruct (Z.testbit HTC_TX_PACKET_FLAG_FIXUP_NETBUF i); rewrite ?andb_false_r.
Qed.
End header.

(** * Running the system *)

(** What may happen next, as far as the samples need it. *)
Inductive action : Type :=
| ARun (i : nat) (env : hif_env)
| ASend (ep : Z) (ps : list positive)
| AComplete (n : nat).

Section action.
Implicit Types (x : surroundings) (t : HTC_TARGET) (w : world dl_mem).

#[export] Instance free_packet_dec x t p : Decision (free_packet x t p).
Proof. unfold free_packet. apply _. Defined.

Definition buffer_free_b x t (b : positive) : bool :=
  bool_decide (map_Forall (λ p pkt, pNetBufContext pkt = b → free_packet x t p) (packets t)).

Definition sendable_b x t (ep : Z) (p : positive) : bool :=
  bool_decide (free_packet x t p) &&
  match packets t !! p with
  | Some pkt =>
      (pkt_Endpoint pkt =? ep) && negb (Tag pkt =? HTC_TX_PACKET_TAG_BUNDLED) &&
      buffer_free_b x t (pNetBufContext pkt) &&
      match nbufs t !! pNetBufContext pkt with
      | Some b => (8 <=? length (headroom b))%nat && match extra_frag b with Some m => (8 <=? length m)%nat | None => true end
      | None => false
      end
  | None => false
  end.

Lemma sendable_b_spec x t ep p : sendable_b x t ep p = true → sendable x t ep p.
Proof.
  unfold sendable_b. intros [Hf%bool_decide_eq_true H]%andb_true_iff. split; [done|].
  destruct (packets t !! p) as [pkt|]; [|done].
  apply andb_true_iff in H as [[[H1%Z.eqb_eq H2]%andb_true_iff H3%bool_decide_eq_true]%andb_true_iff H4].
  destruct (nbufs t !! pNetBufContext pkt) as [b|] eqn:Hb; [|done].
  apply andb_true_iff in H4 as [H4%Nat.leb_le H5]. exists pkt, b. split; [done|]. split; [done|].
  split; [by intros E; rewrite E in H2|]. split; [done|]. split; [|done].
  split; [done|]. intros m Hm. rewrite Hm in H5. by apply Nat.leb_le.
Qed.

Definition act w (a : action) : option (world dl_mem) :=
  match a with
  | ARun i env =>
      t ← tasks w !! i;
      if (if t is TReclaim ep _ _ _ then existsb (searches ep) (tasks w) else false) then None
      else
        r ← run_task env t (st w);
        Some (mk_world r.2 (<[i := r.1]> (tasks w)) (after env t r.1 (st w).2 (sur w)))
  | ASend ep ps =>
      e ← endpoint (st w).2 !! ep;
      if is_ep ep && negb (service_id e =? 0) && negb (bool_decide (ps = [])) && bool_decide (NoDup ps) &&
        bool_decide (NoDup (buffers_of (st w).2 ps)) && forallb (sendable_b (sur w) (st w).2 ep) ps
      then
        r ← callers_packets ps (st w);
        Some (mk_world r.2 (tasks w ++ [r.1])
          (mk_sur (in_flight (sur w)) (held (sur w)) (posted (sur w) ++ ps) (refused (sur w)) (stalled (sur w)) (overlapped (sur w))))
      else None
  | AComplete n =>
      eb ← in_flight (sur w) !! n;
      Some (mk_world (st w) (tasks w ++ [TComplete eb.1 eb.2])
        (mk_sur (take n (in_flight (sur w)) ++ drop (S n) (in_flight (sur w))) (held (sur w)) (posted (sur w))
          (refused (sur w)) (stalled (sur w)) (overlap (tasks w) eb.1 (overlapped (sur w)))))
  end.

Lemma act_step w a w' : act w a = Some w' → step w w'.
Proof.
  destruct a as [i env|ep ps|n]; cbn.
  - destruct (tasks w !! i) as [t|] eqn:Hi; [|done]. cbn. intros H.
    assert (may_run w t) as Hm by (destruct t; try done; cbn; by destruct (existsb _ _)).
    assert (∃ r, run_task env t (st w) = Some r ∧
      w' = mk_world r.2 (<[i := r.1]> (tasks w)) (after env t r.1 (st w).2 (sur w))) as ([t' s'] & Hr & ->).
    { destruct (if t is TReclaim _ _ _ _ then _ else _); [done|].
      destruct (run_task _ _ (st w)) as [r|]; [|done]. cbn in H. simplify_eq. eauto. }
    by eapply step_run.
  - destruct (endpoint (st w).2 !! ep) as [e|] eqn:He; [|done]. cbn. destruct (_ && _) eqn:H; [|done].
    rewrite !andb_true_iff, !negb_true_iff, Z.eqb_neq, bool_decide_eq_false, !bool_decide_eq_true, forallb_forall in H.
    destruct H as (((((H1 & H2) & H3) & H4) & H5) & H6).
    destruct (callers_packets ps (st w)) as [[t s']|] eqn:Hr; [|done]. cbn. intros [= <-].
    eapply step_send; try done. intros p Hp. apply sendable_b_spec, H6. by apply list_elem_of_In.
  - destruct (in_flight (sur w) !! n) as [[ep b]|] eqn:Hn; [|done]. cbn.
    intros [= <-]. apply step_complete. by rewrite (take_drop_middle _ _ _ Hn).
Qed.

Fixpoint acts w (l : list action) : option (world dl_mem) :=
  match l with
  | [] => Some w
  | a :: l => w ← act w a; acts w l
  end.

Lemma acts_reachable w0 w l w' : reachable w0 w → acts w l = Some w' → reachable w0 w'.
Proof.
  revert w. induction l as [|a l IH]; intros w Hw H; cbn in H; [by simplify_eq|].
  destruct (act w a) as [w1|] eqn:Ha; [|done]. eapply IH; [|exact H].
  eapply reach_step; [exact Hw|]. by eapply act_step.
Qed.

Lemma acts_run w0 w w1 l :
  reachable w0 w → bool_decide (is_Some (acts w l)) = true → reachable w0 (default w1 (acts w l)).
Proof.
  intros Hw [w' Hl]%bool_decide_eq_true. rewrite Hl. by eapply acts_reachable.
Qed.

(** The start from a given state of the memory *)
Definition start_of (s : dl_mem * HTC_TARGET) (eps : gmap Z HTC_ENDPOINT) : world dl_mem :=
  let r := default s (snd <$> reset_endpoint_states s) in
  mk_world (r.1, set_log [] (set_endpoint eps r.2)) [] idle.

Lemma start_of_starts s eps :
  bool_decide (is_Some (reset_endpoint_states s)) = true → connected eps →
  Z.of_nat (length (htc_credit_history_buffer (st (start_of s eps)).2)) = HTC_CREDIT_HISTORY_MAX →
  0 ≤ g_htc_credit_history_idx (st (start_of s eps)).2 ≤ HTC_CREDIT_HISTORY_MAX →
  starts (start_of s eps).
Proof.
  intros [[[] [m t]] Hr]%bool_decide_eq_true He. unfold start_of. rewrite Hr. cbn. intros Hl Hi.
  exists s, t, eps. rewrite Hr. auto 10.
Qed.
End action.

(** ** A sample: a control endpoint with two credits, data endpoints without, and one
    whose queue holds one packet *)

Definition sample_ep (i : Z) : HTC_ENDPOINT :=
  mk_endpoint i (if i =? 1 then WMI_CONTROL_SVC else 0x300 + i) (i =? 3) false false (if i =? 3 then 1 else 32)
    1600 (i `mod` 4) false 0 0 0 (if i =? 1 then 2 else 0) 100 1 (i =? 1).
Definition sample_eps : gmap Z HTC_ENDPOINT := list_to_map ((λ i, (i, sample_ep i)) <$> seqZ 0 9).
Definition sample_pkt (ep len : Z) (b : positive) : HTC_PACKET := mk_packet ep len 0 1 0 0 0 0 b.
Definition sample_buf (n : nat) : sk_buff := mk_skb (replicate 16 0) (replicate n 7) None false.
Definition sample_target : HTC_TARGET :=
  mk_target sample_eps 0 0 0 0 0 0 0 (replicate 1024 (HTC_REQUEST_CREDIT, 0, 0))
    (list_to_map [(1%positive, sample_pkt 1 50 1); (2%positive, sample_pkt 1 150 2);
      (3%positive, sample_pkt 2 20 3); (4%positive, sample_pkt 2 20 4);
      (5%positive, sample_pkt 2 20 5); (6%positive, sample_pkt 1 50 6);
      (7%positive, sample_pkt 3 20 7); (8%positive, sample_pkt 3 20 8)])
    (list_to_map [(1%positive, sample_buf 50); (2%positive, sample_buf 150);
      (3%positive, sample_buf 20); (4%positive, sample_buf 20);
      (5%positive, sample_buf 20); (6%positive, sample_buf 50);
      (7%positive, sample_buf 20); (8%positive, sample_buf 20)]) 1 0 [].

Definition sample_start : world dl_mem := start_of (mk_dl_mem ∅ ∅ ∅, sample_target) sample_eps.

Definition good_bus : hif_env := mk_hif true A_OK 8 (λ _, true).
Definition bad_bus : hif_env := mk_hif true A_ERROR 8 (λ _, true).

(** The two packets of the control endpoint, of which the credits suffice for one *)
Definition control_acts : list action := ASend 1 [1%positive; 2%positive] :: replicate 13 (ARun 0 good_bus).
Definition sample_w : world dl_mem := default sample_start (acts sample_start control_acts).

(** Then those of the data endpoint, whose transfers complete out of order *)
Definition search_acts : list action :=
  ASend 2 [3%positive; 4%positive] :: replicate 15 (ARun 1 good_bus) ++ [AComplete 2; ARun 2 good_bus].
Definition sample_s : world dl_mem := default sample_start (acts sample_w search_acts).

Lemma sample_starts : starts sample_start.
Proof.
  apply start_of_starts; [vm_compute; reflexivity|split|vm_compute; reflexivity|vm_compute; split; discriminate].
  - intros e [H1%Z.leb_le H2%Z.ltb_lt]%andb_true_iff. unfold ENDPOINT_MAX in H2.
    assert (e ∈ seqZ 0 9) as He by (apply elem_of_seqZ; lia).
    apply (proj1 (Forall_forall (λ e, is_Some (sample_eps !! e)) (seqZ 0 9))); [|done].
    repeat (constructor; [by eexists; vm_compute|]). constructor.
  - intros e x Hx. apply elem_of_list_to_map_2, list_elem_of_fmap in Hx as (i & [= -> ->] & Hi).
    apply elem_of_seqZ in Hi. split; [unfold is_ep, ENDPOINT_MAX; lia|]. split; [done|]. split; [done|].
    split; [|by intros _]. cbn. by case_match.
Qed.

Lemma sample_w_reachable : reachable sample_start sample_w.
Proof. apply acts_run; [apply reach_start, sample_starts|]. vm_compute. reflexivity. Qed.
Lemma sample_s_reachable : reachable sample_start sample_s.
Proof. apply acts_run; [exact sample_w_reachable|]. vm_compute. reflexivity. Qed.

Lemma sample_w_quiet : quiet sample_w.
Proof. apply quiet_b. vm_compute. reflexivity. Qed.

Lemma sample_search_task : tasks sample_s !! 2%nat = Some (TSearch 2 4 (LocalQueue 8)).
Proof. vm_compute. reflexivity. Qed.


Lemma credits_conserved_witness :
  ∃ x, endpoint (st sample_w).2 !! 1 = Some x ∧ 0 ≤ TxCredits x ∧
    TxCredits x + holds (sur sample_w) 1 ≤ TxCredits (sample_ep 1) ∧
    (quiet sample_w → 1 ∉ refused (sur sample_w) →
      TxCredits x + holds (sur sample_w) 1 = TxCredits (sample_ep 1)).
Proof.
  apply (credits_conserved sample_start); [exact sample_w_reachable|reflexivity|].
  change (sample_eps !! 1 = Some (sample_ep 1)). vm_compute. reflexivity.
Defined.

Lemma packets_completed_once_witness :
  let n := occ 2%positive (posted (sur sample_w)) - occ 2%positive (completed (log (st sample_w).2)) in
  0 ≤ n ≤ 1 ∧
  (quiet sample_w → ∃ M, rep (st sample_w).1 M ∧
    (n = 1 ↔ ∃ ep, is_ep ep = true ∧
      (2%positive ∈ contents M (TxQueue ep) ∨ 2%positive ∈ contents M (TxLookupQueue ep)))).
Proof. apply (packets_completed_once sample_start). exact sample_w_reachable. Defined.

Lemma sample_w_runs : 1 ∉ stalled (sur sample_w).
Proof.
  assert (bool_decide (1 ∈ stalled (sur sample_w)) = false) as H by (vm_compute; reflexivity).
  by apply bool_decide_eq_false in H.
Qed.

Lemma no_stranded_packet_witness :
  ∃ o m, htc_get_pkt_at_head (TxQueue 1) (st sample_w).1 = Some (o, m) ∧
    ∀ p, o = Some p → ∃ x pkt n, endpoint (st sample_w).2 !! 1 = Some x ∧ packets (st sample_w).2 !! p = Some pkt ∧
      TxCreditFlowEnabled x = true ∧ creditsRequired x pkt = Some n ∧ TxCredits x < n.
Proof.
  apply (no_stranded_packet sample_start);
    [exact sample_w_reachable|exact sample_w_quiet|reflexivity|exact sample_w_runs].
Defined.

Lemma lookup_queue_is_in_flight_witness :
  ∃ M left, rep (st sample_w).1 M ∧
    (λ p, pNetBufContext <$> packets (st sample_w).2 !! p) <$> contents M (TxLookupQueue 1) ≡ₚ
    (Some <$> in_flight_of 1 (sur sample_w)) ++ left ∧
    (1 ∉ overlapped (sur sample_w) → left = []).
Proof.
  apply (lookup_queue_is_in_flight sample_start);
    [exact sample_w_reachable|exact sample_w_quiet|reflexivity].
Defined.

Lemma one_drainer_witness : ∃ x, endpoint (st sample_w).2 !! 1 = Some x ∧
  TxProcessCount x = total (drains 1) (tasks sample_w) ∧ 0 ≤ TxProcessCount x ≤ 1.
Proof.
  assert (bool_decide (is_Some (endpoint (st sample_w).2 !! 1)) = true) as H by (vm_compute; reflexivity).
  apply bool_decide_eq_true in H as [x Hx]. exists x. split; [exact Hx|].
  apply (one_drainer sample_start); [exact sample_w_reachable|reflexivity|exact Hx].
Defined.

Lemma search_finds_packet_witness :
  ∃ t' s', run_task good_bus (TSearch 2 4 (LocalQueue 8)) (st sample_s) = Some (t', s') ∧
    ((TSearch 2 4 (LocalQueue 8) = TComplete 2 4 ∧ ∃ q, t' = TSearch 2 4 q) ∨
     (∃ p pkt, t' = TIndicate 2 (Some p) ∧ packets s'.2 !! p = Some pkt ∧ pNetBufContext pkt = 4%positive) ∨
     (t' = TIndicate 2 None ∧ 2 ∈ overlapped (sur sample_s))).
Proof.
  apply (search_finds_packet good_bus sample_start sample_s 2 (TSearch 2 4 (LocalQueue 8)) 2 4);
    [exact sample_s_reachable|exact sample_search_task|right; by eexists].
Defined.

(** The packets of a caller, linked and as lists *)
Lemma callers_rep ps (w : world dl_mem) t Ms :
  starts w → callers_packets ps (started, (st w).2) = Some (t, Ms) →
  ∃ m, callers_packets ps (st w) = Some (t, (m, Ms.2)) ∧ rep m Ms.1.
Proof.
  intros Hw Hr. destruct (callers_packets_sim (R := rep) ps (st w) (started, (st w).2) t Ms) as ([m s] & Hm & [H1 H2]);
    [split; [by apply starts_rep|done]|done|]. cbn in H1, H2. subst s. eauto.
Qed.

Lemma channel_refines_lists_witness :
  ∃ m M s r M' s', rep m M ∧
    run_alone 20 good_bus (TSendMultiple (LocalQueue 1)) (M, s) = Some (r, (M', s')) ∧
    ∃ m', run_alone 20 good_bus (TSendMultiple (LocalQueue 1)) (m, s) = Some (r, (m', s')) ∧ rep m' M'.
Proof.
  assert (bool_decide (is_Some (x ← callers_packets [1%positive; 2%positive] (started, (st sample_start).2);
    run_alone 20 good_bus (TSendMultiple (LocalQueue 1)) x.2)) = true) as H by (vm_compute; reflexivity).
  apply bool_decide_eq_true in H as [[r [M' s']] H].
  apply bind_Some in H as ([t [M s]] & Hc & Hrun).
  destruct (callers_rep _ _ _ _ sample_starts Hc) as (m & _ & Hrep).
  exists m, M, s, r, M', s'. split; [exact Hrep|]. split; [exact Hrun|].
  apply (channel_refines_lists 20 good_bus _ m M s r M' s'); [exact Hrep|exact Hrun].
Defined.

Lemma restore_undoes_prepare_witness :
  ∃ t' b' pkt', (prepare_packet 1 1;; restore_tx_packet 1) sample_target = Some (tt, t') ∧
    nbufs t' !! 1%positive = Some b' ∧ data b' = replicate 50 7 ∧
    length (headroom b') = 16%nat ∧ drop 8 (headroom b') = replicate 8 0 ∧ mapped b' = false ∧
    packets t' !! 1%positive = Some pkt' ∧ Z.land (Flags pkt') HTC_TX_PACKET_FLAG_FIXUP_NETBUF = 0.
Proof.
  apply (restore_undoes_prepare 1 1 sample_target (sample_ep 1) (sample_pkt 1 50 1) (sample_buf 50));
    [vm_compute; reflexivity..|]. split; [cbn; lia|done].
Defined.

Lemma queues_well_formed_witness :
  ∃ M, rep (st sample_s).1 M ∧ NoDup (all M) ∧
    (∀ ep, is_ep ep = true → is_Some (M !! TxQueue ep) ∧ is_Some (M !! TxLookupQueue ep)) ∧
    ∀ q p, p ∈ contents M q → ∃ pkt b, packets (st sample_s).2 !! p = Some pkt ∧
      nbufs (st sample_s).2 !! pNetBufContext pkt = Some b ∧ (endpoint_queue q → (8 ≤ length (data b))%nat).
Proof. apply (queues_well_formed sample_start). exact sample_s_reachable. Defined.

(** ** What refusals do *)

(** Of two packets that cost a credit each the first is refused by the bus: the
    credit of the second, which goes back to the transmit queue with it, is not
    given back. *)
Definition refused_acts : list action := ASend 1 [1%positive; 6%positive] :: replicate 20 (ARun 0 bad_bus).
Definition sample_r : world dl_mem := default sample_start (acts sample_start refused_acts).
Example refusal_loses_credits :
  (TxCredits <$> endpoint (st sample_start).2 !! 1, TxCredits <$> endpoint (st sample_r).2 !! 1,
   holds (sur sample_r) 1, tasks sample_r, fst <$> get_Depth (TxQueue 1) (st sample_r).1) =
  (Some 2, Some 1, 0, [TDone A_OK], Some 2).
Proof. vm_compute. reflexivity. Qed.

(** A packet that overflows the queue, and that the callback keeps, is restored and
    given a new header, but it is not mapped again, nor marked to be restored. *)
Definition keeping : hif_env := mk_hif true A_OK 8 (λ _, false).
Definition kept_acts : list action := ASend 3 [7%positive; 8%positive] :: replicate 20 (ARun 0 keeping).
Definition sample_k : world dl_mem := default sample_start (acts sample_start kept_acts).
Example kept_packet_is_not_mapped :
  (log (st sample_k).2, Flags <$> packets (st sample_k).2 !! 7%positive,
   Flags <$> packets (st sample_k).2 !! 8%positive) =
  ([EvSendFull 3 8; EvSendHead 3 28 7 true; EvSendHead 3 28 8 false], Some 1, Some 0).
Proof. vm_compute. reflexivity. Qed.

(** While a completion searches the lookup queue, which it has taken over, a packet
    that the bus refuses is counted out of a queue that is empty. *)
Definition race_acts : list action :=
  [ASend 2 [3%positive]] ++ replicate 15 (ARun 1 good_bus) ++ [ASend 2 [4%positive]] ++ replicate 15 (ARun 2 good_bus) ++
  [ASend 2 [5%positive]] ++ replicate 7 (ARun 3 good_bus) ++ [AComplete 2; ARun 4 good_bus; ARun 3 bad_bus].
Definition sample_race : world dl_mem := default sample_start (acts sample_w race_acts).
Example refusal_during_search :
  (tasks sample_race !! 3%nat, tasks sample_race !! 4%nat,
   r ← run_task bad_bus (TReclaim 2 (LocalQueue 12) 5 (KLeftover 2 (LocalQueue 11))) (st sample_race);
   fst <$> get_Depth (TxLookupQueue 2) r.2.1) =
  (Some (TReclaim 2 (LocalQueue 12) 5 (KLeftover 2 (LocalQueue 11))), Some (TSearch 2 4 (LocalQueue 14)), Some (-1)).
Proof. vm_compute. reflexivity. Qed.

(** Two transfers of an endpoint complete while the first completion searches: the
    second finds the lookup queue empty.  When everything is done its packet, 3, is
    still on the queue, and was not completed, although the bus has no transfer of
    the endpoint. *)
Definition lose_acts : list action :=
  [AComplete 1; ARun 3 good_bus] ++ replicate 12 (ARun 2 good_bus) ++ replicate 12 (ARun 3 good_bus).
Definition sample_l : world dl_mem := default sample_start (acts sample_s lose_acts).
Example overlapping_completions_lose :
  (w ← acts sample_s [AComplete 1; ARun 3 good_bus]; tasks w !! 3%nat) = Some (TIndicate 2 None) ∧
  (in_flight (sur sample_l), forallb is_done (tasks sample_l), fst <$> get_Depth (TxLookupQueue 2) (st sample_l).1,
   occ 3%positive (posted (sur sample_l)), occ 3%positive (completed (log (st sample_l).2)),
   bool_decide (2 ∈ overlapped (sur sample_l))) = ([(1, 1%positive)], true, Some 1, 1, 0, true).
Proof. vm_compute. auto. Qed.
