(* ===== verification/HtcSettle.v ===== *)
(** The tasks of the host-target channel come to an end.

    [work] counts what is left to do: for each packet that has not been handed to
    the bus, and for each task by the sections it can still go through.  Every
    section of every task makes it smaller, whatever the bus answers and in
    whatever order the tasks run ([task_step_works]).  What a section leaves alone,
    the local queues of the other tasks, is read off its program ([frame]). *)
From S2P Require Import Prelude HtcQueue HtcQueueProofs HtcTypes HtcSend HtcSystem HtcSim HtcView HtcMoves HtcInv HtcSteps HtcTheorems.

(** * What programs leave alone *)

(** The target's functions do not make local queues. *)
Definition still {A} (m : TM A) : Prop :=
  ∀ t a t', m t = Some (a, t') → next_local t' = next_local t.

Section still.
Context {A B : Type}.

Lemma still_ret (a : A) : still (mret a).
Proof. intros t b t' [= _ <-]. done. Qed.
Lemma still_ub : still (ub : TM A).
Proof. done. Qed.
Lemma still_gets (f : HTC_TARGET → A) : still (gets f).
Proof. intros t b t' [= _ <-]. done. Qed.
Lemma still_deref (o : option A) : still (deref o).
Proof. intros t b t'. destruct o; [|done]. intros [= _ <-]. done. Qed.
Lemma still_modify f : (∀ t, next_local (f t) = next_local t) → still (modify f).
Proof. intros H t b t' [= _ <-]. apply H. Qed.
Lemma still_bind (m : TM A) (k : A → TM B) : still m → (∀ a, still (k a)) → still (x ← m; k x).
Proof. intros Hm Hk t b t' (a & t1 & H1 & H2)%run_bind_inv. by rewrite (Hk _ _ _ _ H2), (Hm _ _ _ H1). Qed.
End still.

Lemma still_when (b : bool) m : still m → still (when b m).
Proof. intros H. destruct b; [done|apply still_ret]. Qed.

Create HintDb stilldb.
#[export] Hint Resolve still_ret still_ub still_gets still_deref : stilldb.
#[export] Hint Extern 1 (still (modify _)) => apply still_modify; done : stilldb.

Ltac still :=
  repeat first
    [ solve [eauto 2 with stilldb]
    | apply still_bind; [|intros ?]
    | apply still_when
    | match goal with |- still (match ?x with _ => _ end) => destruct x end ].

Lemma still_get_ep e : still (get_ep e).
Proof. unfold get_ep. still. Qed.
Lemma still_get_pkt p : still (get_pkt p).
Proof. unfold get_pkt. still. Qed.
Lemma still_get_nbuf b : still (get_nbuf b).
Proof. unfold get_nbuf. still. Qed.
#[export] Hint Resolve still_get_ep still_get_pkt still_get_nbuf : stilldb.
Lemma still_upd_ep e f : still (upd_ep e f).
Proof. unfold upd_ep. still. Qed.
Lemma still_upd_pkt p f : still (upd_pkt p f).
Proof. unfold upd_pkt. still. Qed.
Lemma still_upd_nbuf b f : still (upd_nbuf b f).
Proof. unfold upd_nbuf. still. Qed.
Lemma still_emit v : still (emit v).
Proof. unfold emit. still. Qed.
#[export] Hint Resolve still_upd_ep still_upd_pkt still_upd_nbuf still_emit : stilldb.

Lemma still_restore p : still (restore_tx_packet p).
Proof. unfold restore_tx_packet, cdf_nbuf_unmap, cdf_nbuf_pull_head. still. Qed.
Lemma still_tell e p : still (ep_tx_complete e p).
Proof. unfold ep_tx_complete. still. Qed.
Lemma still_record type c d : still (htc_credit_record type c d).
Proof. unfold htc_credit_record. still. Qed.
Lemma still_prepare e p : still (prepare_packet e p).
Proof. unfold prepare_packet, cdf_nbuf_push_head, HTC_WRITE32, cdf_nbuf_map. still. Qed.
Lemma still_pm_get env : still (hif_pm_runtime_get env).
Proof. unfold hif_pm_runtime_get. still. Qed.
Lemma still_pm_put : still hif_pm_runtime_put.
Proof. unfold hif_pm_runtime_put. still. Qed.
Lemma still_hif env e n b : still (hif_send_head env e n b).
Proof. unfold hif_send_head. still. Qed.
#[export] Hint Resolve still_restore still_tell still_record still_prepare still_pm_get still_pm_put still_hif : stilldb.
Lemma still_put_loop n : still (pm_put_loop n).
Proof. induction n; cbn; still. Qed.
Lemma still_status : still leftover_status.
Proof. unfold leftover_status. still. Qed.
#[export] Hint Resolve still_put_loop still_status : stilldb.

(** The local queues that are there and not among [S] keep their packets. *)
Definition frame (S : list htc_queue) {A} (m : HM queue_map A) : Prop :=
  ∀ M t a M' t', m (M, t) = Some (a, (M', t')) →
    (next_local t ≤ next_local t')%positive ∧
    ∀ k, (k < next_local t)%positive → LocalQueue k ∉ S → contents M' (LocalQueue k) = contents M (LocalQueue k).

(** A queue that a program may use *)
Definition mine (S : list htc_queue) (q : htc_queue) : Prop := (∃ k, q = LocalQueue k) → q ∈ S.

Section frame.
Context {A B : Type}.
Implicit Types (S : list htc_queue) (q : htc_queue).

Lemma frame_ret S (a : A) : frame S (mret a).
Proof. intros M t b M' t' [= _ <- <-]. done. Qed.
Lemma frame_ub S : frame S (ub : HM queue_map A).
Proof. done. Qed.
Lemma frame_deref S (o : option A) : frame S (deref o).
Proof. intros M t b M' t'. destruct o; [|done]. intros [= _ <- <-]. done. Qed.

Lemma frame_bind S (m : HM queue_map A) (k : A → HM queue_map B) :
  frame S m → (∀ a, frame S (k a)) → frame S (x ← m; k x).
Proof.
  intros Hm Hk M t b M' t' (a & [M1 t1] & H1 & H2)%run_bind_inv.
  destruct (Hm _ _ _ _ _ H1) as [Hn1 Hc1]. destruct (Hk _ _ _ _ _ _ H2) as [Hn2 Hc2].
  split; [lia|]. intros n Hn Hs. rewrite Hc2, Hc1 by (done || lia). done.
Qed.

Lemma frame_op S (m : TM A) : still m → frame S (op m).
Proof.
  intros Hm M t b M' t'. unfold op, zoom. cbn. destruct (m t) as [[c t1]|] eqn:E; [|done].
  intros [= <- <- <-]. rewrite (Hm _ _ _ E). done.
Qed.

Lemma frame_qop S (m : CM queue_map A) :
  (∀ M a M', m M = Some (a, M') → ∀ k, LocalQueue k ∉ S → contents M' (LocalQueue k) = contents M (LocalQueue k)) →
  frame S (qop m).
Proof.
  intros Hm M t b M' t'. unfold qop, zoom. cbn. destruct (m M) as [[c M1]|] eqn:E; [|done].
  intros [= <- <- <-]. split; [done|]. intros k _. by eapply Hm.
Qed.

Lemma frame_found S (a : A) (k : A → HM queue_map B) : frame S (k a) → frame S (x ← deref (Some a); k x).
Proof. done. Qed.

(** A queue that the program makes for itself *)
Lemma frame_new S (k : htc_queue → HM queue_map A) :
  (∀ n, frame (LocalQueue n :: S) (k (LocalQueue n))) → frame S (q ← new_queue; k q).
Proof.
  intros Hk M t b M' t' (q & [M1 t1] & H1 & H2)%run_bind_inv. cbn in H1.
  unfold mret, CM_ret, gets, modify in H1. cbn in H1. injection H1 as <- <- <-.
  destruct (Hk _ _ _ _ _ _ H2) as [Hn Hc]. cbn in Hn, Hc. split; [lia|]. intros n Hlt Hs.
  rewrite Hc; [|lia|rewrite not_elem_of_cons; split; [intros [=]; lia|done]].
  apply contents_insert_ne. intros [=]; lia.
Qed.
End frame.

Lemma frame_when S (b : bool) m : frame S m → frame S (when b m).
Proof. intros H. destruct b; [done|apply frame_ret]. Qed.

(** ** Queue operations *)

Section queue_frames.
Implicit Types (S : list htc_queue) (q : htc_queue) (M : queue_map).

Lemma mine_ne S q k : mine S q → LocalQueue k ∉ S → q ≠ LocalQueue k.
Proof. intros Hq Hk ->. apply Hk, Hq. eauto. Qed.

Lemma frame_writes {A} S q (m : CM queue_map A) :
  mine S q → (∀ M a M', m M = Some (a, M') → M' = M ∨ ∃ l, M' = <[q := l]> M) → frame S (qop m).
Proof.
  intros Hq Hm. apply frame_qop. intros M a M' Hr k Hk. destruct (Hm _ _ _ Hr) as [->|[l ->]]; [done|].
  apply contents_insert_ne. by eapply mine_ne.
Qed.

Lemma frame_reads {A} S (m : CM queue_map A) :
  (∀ M a M', m M = Some (a, M') → M' = M) → frame S (qop m).
Proof. intros Hm. apply frame_qop. intros M a M' Hr k _. by rewrite (Hm _ _ _ Hr). Qed.

Lemma list_of_reads q M l M' : list_of q M = Some (l, M') → M !! q = Some l ∧ M' = M.
Proof. unfold list_of. intros H. minv. by simplify_eq. Qed.
Lemma link_reads p M u M' : link p M = Some (u, M') → M' = M.
Proof. unfold link. intros H. minv. case_match; by minv. Qed.
End queue_frames.

Ltac qinv :=
  repeat (minv; match goal with
    | H : list_of _ _ = Some (_, _) |- _ => apply list_of_reads in H as [? ->]
    | H : link _ _ = Some (_, _) |- _ => apply link_reads in H as ->
    | H : (if ?b then _ else _) _ = Some _ |- _ => destruct b eqn:?
    | H : (match ?l with [] => _ | _ => _ end) _ = Some _ |- _ => destruct l eqn:?
    | H : (match ?o with Some _ => _ | None => _ end) _ = Some _ |- _ => destruct o eqn:?
    end); minv; simplify_eq.

Section queue_operations.
Implicit Types (S : list htc_queue) (q : htc_queue) (p : positive).

Ltac writes q := intros Hq; apply (frame_writes _ q); [done|]; intros M a M' Hr; cbn in Hr; qinv; eauto.

Lemma frame_init S q : mine S q → frame S (qop (q_init q)).
Proof. writes q. Qed.
Lemma frame_init_and_add S q p : mine S q → frame S (qop (q_init_and_add q p)).
Proof. writes q. Qed.
Lemma frame_enqueue S q p : mine S q → frame S (qop (q_enqueue q p)).
Proof. writes q. Qed.
Lemma frame_enqueue_to_head S q p : mine S q → frame S (qop (q_enqueue_to_head q p)).
Proof. writes q. Qed.
Lemma frame_remove S q p : mine S q → frame S (qop (q_remove q p)).
Proof. writes q. Qed.
Lemma frame_dequeue S q : mine S q → frame S (qop (q_dequeue q)).
Proof. writes q. Qed.

Lemma frame_depth S q : frame S (qop (q_depth q)).
Proof. apply frame_reads. intros M a M' Hr. cbn in Hr. by qinv. Qed.
Lemma frame_at_head S q : frame S (qop (q_at_head q)).
Proof. apply frame_reads. intros M a M' Hr. cbn in Hr. by qinv. Qed.
Lemma frame_first S q : frame S (qop (q_first q)).
Proof. apply frame_reads. intros M a M' Hr. cbn in Hr. by qinv. Qed.
Lemma frame_next S q p : frame S (qop (q_next q p)).
Proof. apply frame_reads. intros M a M' Hr. cbn in Hr. by qinv. Qed.

Lemma contents_insert2 M q1 q2 l1 l2 q : q1 ≠ q → q2 ≠ q → contents (<[q1 := l1]> (<[q2 := l2]> M)) q = contents M q.
Proof. intros. by rewrite !contents_insert_ne. Qed.

Lemma frame_transfer_to_tail S d s : mine S d → mine S s → frame S (qop (q_transfer_to_tail d s)).
Proof.
  intros Hd Hs. apply frame_qop. intros M a M' Hr k Hk. cbn in Hr. qinv. apply contents_insert2; by eapply mine_ne.
Qed.
Lemma frame_transfer_to_head S d s : mine S d → mine S s → frame S (qop (q_transfer_to_head d s)).
Proof.
  intros Hd Hs. apply frame_qop. intros M a M' Hr k Hk. cbn in Hr. qinv. apply contents_insert2; by eapply mine_ne.
Qed.

Lemma mine_in S q : q ∈ S → mine S q.
Proof. intros H _. done. Qed.
Lemma mine_tx S e : mine S (TxQueue e).
Proof. intros [k [=]]. Qed.
Lemma mine_lookup S e : mine S (TxLookupQueue e).
Proof. intros [k [=]]. Qed.
Lemma mine_cons S q q' : mine S q → mine (q' :: S) q.
Proof. intros H Hk. right. by apply H. Qed.
Lemma mine_first S q : mine (q :: S) q.
Proof. apply mine_in. by left. Qed.
End queue_operations.

Create HintDb framedb.
#[export] Hint Resolve frame_ret frame_ub frame_deref frame_depth frame_at_head frame_first frame_next
  frame_init frame_init_and_add frame_enqueue frame_enqueue_to_head frame_remove frame_dequeue
  frame_transfer_to_tail frame_transfer_to_head mine_tx mine_lookup mine_first mine_cons : framedb.
#[export] Hint Extern 1 (frame _ (op _)) => apply frame_op; still : framedb.

(** Walks a program.  *)
Ltac frame :=
  repeat first
    [ solve [eauto 4 with framedb]
    | apply frame_new; intros ?
    | apply frame_found
    | apply frame_bind; [|intros ?]
    | apply frame_when
    | match goal with
      | |- frame _ (match ?x with _ => _ end) => destruct x
      | |- frame _ (let '_ := ?x in _) => destruct x
      end ].

Section program_frames.
Implicit Types (S : list htc_queue) (q : htc_queue) (p : positive).

Lemma frame_empty S q : frame S (q_empty q).
Proof. unfold q_empty. frame. Qed.
Hint Resolve frame_empty : framedb.

Lemma frame_complete_multiple S fuel ep q o : frame S (complete_multiple fuel ep q o).
Proof. revert o. induction fuel; intros [p|]; cbn [complete_multiple]; frame. Qed.
Hint Resolve frame_complete_multiple : framedb.
Lemma frame_complete_each S fuel ep q : mine S q → frame S (complete_each fuel ep q).
Proof. intros Hq. induction fuel; cbn [complete_each]; frame. Qed.
Hint Resolve frame_complete_each : framedb.
Lemma frame_send_completion S ep q : mine S q → frame S (do_send_completion ep q).
Proof. intros Hq. unfold do_send_completion. frame. Qed.
Hint Resolve frame_send_completion : framedb.

(** The same with a name for a queue that is initialised only later *)
Lemma frame_local {A} S (k : positive → HM queue_map A) :
  (∀ n, frame (LocalQueue n :: S) (k n)) →
  frame S (n ← op (gets next_local); op (modify (set_next_local (Pos.succ n)));; k n).
Proof.
  intros Hk M t b M' t' (n & [M1 t1] & H1 & (u & [M2 t2] & H2 & H3)%run_bind_inv)%run_bind_inv.
  cbn in H1, H2. simplify_eq. destruct (Hk _ _ _ _ _ _ H3) as [Hn Hc]. cbn in Hn, Hc. split; [lia|].
  intros k1 Hlt Hs. apply Hc; [lia|]. rewrite not_elem_of_cons. split; [intros [=]; lia|done].
Qed.
Lemma frame_packet_completion S p : frame S (send_packet_completion p).
Proof.
  unfold send_packet_completion. do 2 (apply frame_bind; [frame|intros ?]). apply frame_local. intros n. frame.
Qed.
Hint Resolve frame_packet_completion : framedb.

Lemma frame_extract_loop S fuel ep q o : mine S q → frame S (extract_loop fuel ep q o).
Proof. intros Hq. revert o. induction fuel; intros [p|]; cbn [extract_loop]; frame. Qed.
Hint Resolve frame_extract_loop : framedb.
Lemma frame_extract S ep q : mine S q → frame S (extract_htc_pm_packets ep q).
Proof. intros Hq. unfold extract_htc_pm_packets. frame. Qed.
Hint Resolve frame_extract : framedb.
Lemma frame_requeue S ep q : mine S q → frame S (requeue_pm ep q).
Proof. intros Hq. unfold requeue_pm, queue_htc_pm_packets. frame. Qed.
Hint Resolve frame_requeue : framedb.

Lemma frame_credit_loop S fuel env ep pq tq b :
  mine S pq → mine S tq → frame S (credit_loop fuel env ep pq tq b).
Proof. intros Hp Ht. induction fuel; cbn [credit_loop]; unfold pm_get_fails, take_credits; frame. Qed.
Hint Resolve frame_credit_loop : framedb.
Lemma frame_resource_loop S fuel env ep pq tq b r :
  mine S pq → mine S tq → frame S (resource_loop fuel env ep pq tq b r).
Proof. intros Hp Ht. revert r. induction fuel; intros r; cbn [resource_loop]; unfold pm_get_fails; frame. Qed.
Hint Resolve frame_resource_loop : framedb.

(** The choice of the queue to send from *)
Lemma frame_pm_or_tx {A} S ep (k : htc_queue * htc_queue * bool → HM queue_map A) :
  (∀ n tx b, mine (LocalQueue n :: S) tx → frame (LocalQueue n :: S) (k (LocalQueue n, tx, b))) →
  frame S (x ← pm_or_tx_queue ep; k x).
Proof.
  intros Hk. assert (frame S (q ← new_queue; extract_htc_pm_packets ep q;; empty ← q_empty q;
    k (if empty : bool then (q, TxQueue ep, true) else (q, q, false)))) as H.
  { apply frame_new. intros n. apply frame_bind; [frame|intros _]. apply frame_bind; [frame|intros []]; apply Hk; auto with framedb. }
  intros M t b M' t' Hr. apply (H M t b M' t'). clear -Hr.
  apply run_bind_inv in Hr as (x & s1 & H1 & Hr). unfold pm_or_tx_queue in H1.
  apply run_bind_inv in H1 as (q & s2 & H2 & H1). apply run_bind_inv in H1 as ([] & s3 & H3 & H1).
  apply run_bind_inv in H1 as (e & s4 & H4 & H1). unfold mret, CM_ret in H1. simplify_eq.
  mrun H2. mrun H3. by mrun H4.
Qed.

Lemma frame_get_credit S env ep q : mine S q → frame S (get_htc_send_packets_credit_based env ep q).
Proof. intros Hq. unfold get_htc_send_packets_credit_based. apply frame_pm_or_tx. intros n tx b Htx. frame. Qed.
Lemma frame_get S env ep q r : mine S q → frame S (get_htc_send_packets env ep q r).
Proof. intros Hq. unfold get_htc_send_packets. apply frame_pm_or_tx. intros n tx b Htx. frame. Qed.
Hint Resolve frame_get_credit frame_get : framedb.

Lemma frame_admit_loop S n q q' : mine S q → mine S q' → frame S (admit_loop n q q').
Proof. intros H1 H2. induction n; cbn [admit_loop]; frame. Qed.
Hint Resolve frame_admit_loop : framedb.
Lemma frame_overflow_loop S fuel env ep q q' o :
  mine S q → mine S q' → frame S (overflow_loop fuel env ep q q' o).
Proof. intros H1 H2. revert o. induction fuel; intros [p|]; cbn [overflow_loop]; unfold cdf_nbuf_push_head; frame. Qed.
Hint Resolve frame_overflow_loop : framedb.
Lemma frame_leftover_loop S fuel q o : frame S (leftover_loop fuel q o).
Proof. revert o. induction fuel; intros [p|]; cbn [leftover_loop]; frame. Qed.
Hint Resolve frame_leftover_loop : framedb.
Lemma frame_lookup_loop S fuel b q o : mine S q → frame S (tx_lookup_loop fuel b q o).
Proof. intros Hq. revert o. induction fuel; intros [p|]; cbn [tx_lookup_loop]; frame. Qed.
Hint Resolve frame_lookup_loop : framedb.
Lemma frame_credit_rpt S rpt tr : frame S (process_credit_rpt rpt tr).
Proof. induction rpt as [|[ep c] rpt IH]; cbn [process_credit_rpt]; unfold credit_entry; frame. Qed.
Hint Resolve frame_credit_rpt : framedb.
Lemma frame_flush_loop S fuel ep : frame S (tx_flush_loop fuel ep).
Proof. induction fuel; cbn [tx_flush_loop]; frame. Qed.
Hint Resolve frame_flush_loop : framedb.

Lemma frame_drain S env ep q r k : mine S q → frame S (drain_round env ep q r k).
Proof. intros Hq. unfold drain_round. frame. Qed.
Hint Resolve frame_drain : framedb.

Lemma mine_send t q : q ∈ send_queue t → mine (task_queues t) q.
Proof. intros H. apply mine_in, elem_of_app. by left. Qed.
Lemma mine_callers t q : callers_queue (task_cont t) = Some q → mine (task_queues t) q.
Proof. intros H. apply mine_in, elem_of_app. right. rewrite H. by left. Qed.

(** One section of a task *)
Lemma frame_section env t : frame (task_queues t) (run_task env t).
Proof.
  pose proof (mine_send t) as Hs. pose proof (mine_callers t) as Hc.
  generalize dependent (task_queues t). intros S Hs Hc.
  destruct t; cbn [run_task send_queue task_cont] in Hs, Hc |- *;
    repeat match goal with H : ∀ q, q ∈ [?x] → mine S q |- _ => specialize (H x ltac:(by left)) end;
    unfold send_pkts_multiple, send_prepare, try_send, try_admit, try_enter, try_issue, try_hif,
      try_reclaim, try_fail, try_clear, send_leftover, tx_completion_handler, lookup_search,
      indicate, htc_flush_endpoint, kick_queues, admit_packets, issue_next, issue_prepare, issue_send,
      issue_reclaim, lookup_first, htc_flush_endpoint_tx, HtcSend.tx_resources, HTC_WRITE32, cdf_nbuf_map;
    try destruct (callers_queue k) as [c|] eqn:E; try specialize (Hc _ eq_refl); frame.
Qed.
End program_frames.

(** * What is left to do *)

Local Open Scope nat_scope.

(** The sections of a report with its trailer; of [htc_kick_queues] *)
Definition trailer_weight (trailer : list Z) : nat := 1 + 9 * length trailer.
Definition report_weight (rpt : list (Z * Z)) (trailer : list Z) : nat :=
  1 + 9 * length rpt + trailer_weight trailer.
Definition kick_weight (i : Z) : nat := 1 + 9 * Z.to_nat (ENDPOINT_MAX - i).

Definition cont_weight (k : cont) : nat :=
  match k with
  | KReturn => 0
  | KLeftover _ _ => 1
  | KCredit rpt trailer => report_weight rpt trailer
  | KKick i => kick_weight i
  end.

(** The packets from [o] to the end *)
Fixpoint from_packet (p : positive) (l : list positive) : nat :=
  match l with
  | [] => 0
  | x :: l => if decide (x = p) then S (length l) else from_packet p l
  end.
Definition to_prepare (o : option positive) (l : list positive) : nat :=
  match o with Some p => from_packet p l | None => 0 end.

(** How many sections a task has before it, unless the bus takes packets from it *)
Definition weight (M : queue_map) (t : task) : nat :=
  match t with
  | TSendMultiple q => 11 + length (contents M q)
  | TPrepare _ q o => 10 + to_prepare o (contents M q)
  | TTrySend _ k => 8 + cont_weight k
  | TAdmit _ _ _ k => 7 + cont_weight k
  | TEnter _ _ _ k => 6 + cont_weight k
  | TDrain _ _ _ k => 6 + cont_weight k
  | TIssue _ q k => (if decide (contents M q = []) then 7 else 5) + cont_weight k
  | THif _ _ _ k => 4 + cont_weight k
  | TReclaim _ _ _ k => 3 + cont_weight k
  | TFail _ _ k => 2 + cont_weight k
  | TClear _ k => 1 + cont_weight k
  | TLeftover _ _ => 1
  | TComplete _ _ => 11
  | TSearch _ _ _ => 10
  | TIndicate _ _ => 9
  | TCredit rpt trailer => report_weight rpt trailer
  | TTrailer trailer => trailer_weight trailer
  | TFlush _ => 1
  | TKick i => kick_weight i
  | TDone _ => 0
  end.

(** The bus has taken a packet. *)
Definition taken (t t' : task) : bool :=
  match t, t' with THif _ _ _ _, TIssue _ _ _ => true | _, _ => false end.

Section shrink.
Implicit Types (M : queue_map) (t : task) (s : HTC_TARGET) (q : htc_queue).

Lemma weight_resume M k : weight M (resume k) = cont_weight k.
Proof. by destruct k. Qed.

Lemma op_inv {A} (m : TM A) M s a M' s' :
  op m (M, s) = Some (a, (M', s')) → M' = M ∧ m s = Some (a, s').
Proof. unfold op, zoom. cbn. destruct (m s) as [[]|]; [|done]. by intros [= <- <- <-]. Qed.
Lemma qop_inv {A} (m : CM queue_map A) M s a M' s' :
  qop m (M, s) = Some (a, (M', s')) → s' = s ∧ m M = Some (a, M').
Proof. unfold qop, zoom. cbn. destruct (m M) as [[]|]; [|done]. by intros [= <- <- <-]. Qed.

Lemma depth_inv q M s n M' s' : qop (q_depth q) (M, s) = Some (n, (M', s')) →
  (M', s') = (M, s) ∧ n = Z.of_nat (length (contents M q)).
Proof. intros [-> H]%qop_inv. cbn in H. qinv. unfold contents. by rewrite H. Qed.
Lemma first_inv q M s o M' s' : qop (q_first q) (M, s) = Some (o, (M', s')) →
  (M', s') = (M, s) ∧ o = head (contents M q).
Proof. intros [-> H]%qop_inv. cbn in H. qinv. unfold contents. by rewrite H. Qed.
Lemma at_head_inv q M s o M' s' : qop (q_at_head q) (M, s) = Some (o, (M', s')) →
  (M', s') = (M, s) ∧ o = head (contents M q).
Proof. intros [-> H]%qop_inv. cbn in H. qinv. unfold contents. by rewrite H. Qed.
Lemma next_inv q p M s o M' s' : qop (q_next q p) (M, s) = Some (o, (M', s')) →
  (M', s') = (M, s) ∧ next_in p (contents M q) = Some o.
Proof. intros [-> H]%qop_inv. cbn in H. qinv. unfold contents. by rewrite H. Qed.
Lemma dequeue_inv q M s o M' s' : qop (q_dequeue q) (M, s) = Some (o, (M', s')) →
  o = head (contents M q).
Proof. intros [-> H]%qop_inv. cbn in H. qinv; unfold contents; by rewrite H. Qed.

(** The next packet is nearer to the end. *)
Lemma next_shorter p l o : NoDup l → next_in p l = Some o → to_prepare o l < from_packet p l.
Proof.
  induction l as [|x l IH]; intros Hnd H; [done|]. apply NoDup_cons in Hnd as [Hx Hnd]. cbn in H |- *.
  case_decide as Hp; [subst|].
  - injection H as <-. destruct l as [|y l]; cbn; [lia|]. rewrite decide_False by (intros ->; apply Hx; by left).
    rewrite decide_True by done. lia.
  - specialize (IH Hnd H). destruct o as [p'|]; [|done]. cbn. case_decide as Hx'; [|done]. subst.
    exfalso. apply Hx. clear -H. revert H. induction l as [|z l IH]; [done|]. cbn. case_decide.
    + intros Heq. destruct l; cbn in Heq; simplify_eq. right. by left.
    + intros H'. right. by apply IH.
Qed.

(** Takes apart a run, as far as its branches are known. *)
Ltac rinv :=
  repeat match goal with
    | H : mbind _ _ _ = Some (_, _) |- _ => apply run_bind_inv in H as (? & [? ?] & ? & ?)
    | H : op _ _ = Some _ |- _ => apply op_inv in H as [-> ?]
    | H : qop (q_depth _) _ = Some _ |- _ => apply depth_inv in H as [[= -> ->] ->]
    | H : qop (q_first _) _ = Some _ |- _ => apply first_inv in H as [[= -> ->] ->]
    | H : qop (q_at_head _) _ = Some _ |- _ => apply at_head_inv in H as [[= -> ->] ->]
    | H : mret _ _ = Some _ |- _ => unfold mret, CM_ret in H; simplify_eq
    end.

Lemma send_multiple_shrinks q M s t' M' s' :
  send_pkts_multiple q (M, s) = Some (t', (M', s')) → weight M' t' < weight M (TSendMultiple q).
Proof.
  unfold send_pkts_multiple. intros H. rinv. destruct (contents M q) as [|p l] eqn:E; cbn [head] in *; rinv; [cbn; lia|].
  case_match; rinv; [cbn; lia|]. cbn. rewrite E. cbn. rewrite decide_True by done. lia.
Qed.

Lemma prepare_shrinks e q o M s t' M' s' :
  NoDup (contents M q) →
  send_prepare e q o (M, s) = Some (t', (M', s')) → weight M' t' < weight M (TPrepare e q o).
Proof.
  intros Hnd. unfold send_prepare. destruct o as [p|]; intros H; rinv; [|cbn; lia].
  match goal with H : qop (q_next _ _) _ = Some _ |- _ => apply next_inv in H as [[= -> ->] Hn] end.
  pose proof (next_shorter _ _ _ Hnd Hn). cbn. lia.
Qed.

Lemma try_send_shrinks env e k M s t' M' s' :
  try_send env e k (M, s) = Some (t', (M', s')) → weight M' t' < weight M (TTrySend e k).
Proof.
  unfold try_send, HtcSend.tx_resources. intros H. rinv. destruct (callers_queue k); rinv; [|cbn; lia].
  case_match; rinv; [rewrite weight_resume|]; cbn; lia.
Qed.

Lemma admit_shrinks env e q full k M s t' M' s' :
  try_admit env e q full k (M, s) = Some (t', (M', s')) → weight M' t' < weight M (TAdmit e q full k).
Proof.
  unfold try_admit, HtcSend.tx_resources. intros H. rinv.
  case_match; rinv; [|rewrite weight_resume]; cbn; lia.
Qed.

(** A round of the drain loop ends the loop, or leaves packets to issue. *)
Lemma round_shrinks env e q r k M s t' M' s' :
  drain_round env e q r k (M, s) = Some (t', (M', s')) → weight M' t' < 6 + cont_weight k.
Proof.
  unfold drain_round. intros H. rinv. case_match; rinv; [rewrite weight_resume; lia|].
  case_match; rinv; [rewrite weight_resume; lia|]. cbn. rewrite decide_False; [lia|]. intros Hnil.
  match goal with H : (_ =? 0)%Z = false |- _ => rewrite Hnil in H end. done.
Qed.

Lemma enter_shrinks env e q r k M s t' M' s' :
  try_enter env e q r k (M, s) = Some (t', (M', s')) → weight M' t' < weight M (TEnter e q r k).
Proof.
  unfold try_enter. intros H. rinv. case_match; rinv; [rewrite weight_resume; cbn; lia|].
  by eapply round_shrinks.
Qed.

Lemma issue_shrinks env e q k M s t' M' s' :
  try_issue env e q k (M, s) = Some (t', (M', s')) → weight M' t' < weight M (TIssue e q k).
Proof.
  unfold try_issue, issue_next, HtcSend.tx_resources. intros H. rinv.
  match goal with H : qop (q_dequeue _) _ = Some _ |- _ => apply dequeue_inv in H as -> end.
  cbn [weight]. destruct (contents M q) as [|p l]; cbn [head] in *; rinv; cbn; [rewrite decide_True by done|rewrite decide_False by done]; lia.
Qed.

Lemma credit_rpt_shrinks rpt trailer M s t' M' s' :
  process_credit_rpt rpt trailer (M, s) = Some (t', (M', s')) → weight M' t' < report_weight rpt trailer.
Proof.
  revert M s. induction rpt as [|[ep c] rpt IH]; intros M s H; cbn [process_credit_rpt] in H; [rinv; cbn; unfold report_weight, trailer_weight; cbn [length]; lia|].
  case_match; [rinv; cbn; unfold report_weight, trailer_weight; cbn [length]; lia|]. rinv. case_match; rinv.
  - cbn. unfold report_weight, trailer_weight; cbn [length]. lia.
  - match goal with H : process_credit_rpt _ _ _ = _ |- _ => apply IH in H end. unfold report_weight in *. cbn [length]. lia.
Qed.

Lemma credit_entries_length n buf : length (credit_entries n buf) ≤ n.
Proof. revert buf. induction n as [|n IH]; intros [|? [|? [|? [|? buf]]]]; cbn; try lia. specialize (IH buf). lia. Qed.

Lemma trailer_shrinks buf M : weight M (process_trailer buf) < trailer_weight buf.
Proof.
  unfold process_trailer. destruct buf as [|id [|len [|? [|? buf]]]]; try (cbn; unfold trailer_weight; lia).
  destruct (Z.ltb_spec (Z.of_nat (length buf)) len) as [_|Hlen]; [cbn; unfold trailer_weight; lia|].
  destruct (_ =? _)%Z; cbn [weight]; unfold report_weight, trailer_weight; rewrite length_drop; cbn [length]; [|lia].
  pose proof (credit_entries_length (Z.to_nat len / CREDIT_REPORT_SIZE) (take (Z.to_nat len) buf)) as Hc.
  assert (Z.to_nat len / CREDIT_REPORT_SIZE ≤ Z.to_nat len) by (apply Nat.Div0.div_le_upper_bound; unfold CREDIT_REPORT_SIZE; lia).
  set (n := Z.to_nat len) in *. assert (n ≤ length buf) by lia. lia.
Qed.

Lemma kick_shrinks i M s t' M' s' :
  kick_queues i (M, s) = Some (t', (M', s')) → weight M' t' < kick_weight i.
Proof.
  unfold kick_queues. destruct (Z.leb_spec ENDPOINT_MAX i); intros H1; rinv; [cbn; unfold kick_weight; lia|].
  case_match; rinv; cbn; unfold kick_weight; lia.
Qed.

(** Every section of a task brings it nearer to its end. *)
Lemma task_shrinks env t M s t' M' s' :
  (∀ q, NoDup (contents M q)) → is_done t = false →
  run_task env t (M, s) = Some (t', (M', s')) →
  weight M' t' < weight M t + (if taken t t' then 4 else 0).
Proof.
  intros Hnd Hd H. destruct t; cbn [run_task] in H; try done; cbn [taken]; rewrite ?Nat.add_0_r.
  - by eapply send_multiple_shrinks.
  - by eapply prepare_shrinks.
  - by eapply try_send_shrinks.
  - by eapply admit_shrinks.
  - by eapply enter_shrinks.
  - by eapply round_shrinks.
  - by eapply issue_shrinks.
  - unfold try_hif in H. rinv. destruct (_ =? _)%Z; cbn [weight taken]; [case_decide|]; lia.
  - unfold try_reclaim in H. rinv. cbn. lia.
  - unfold try_fail in H. rinv. cbn. lia.
  - unfold try_clear in H. rinv. rewrite weight_resume. cbn. lia.
  - unfold send_leftover in H. rinv. cbn. lia.
  - unfold tx_completion_handler, lookup_first in H. rinv. case_match; rinv; [|cbn; lia]. case_match; rinv; cbn; lia.
  - unfold lookup_search in H. rinv. cbn. lia.
  - unfold indicate in H. rinv. destruct (TxCreditFlowEnabled _); cbn; lia.
  - by eapply credit_rpt_shrinks.
  - rinv. apply trailer_shrinks.
  - rinv. cbn. lia.
  - by eapply kick_shrinks.
Qed.
End shrink.

(** * The bus has no more transfers than there are packets *)

Section bound.
Implicit Types (M : queue_map) (q : htc_queue).

Lemma queues_bound qs M : NoDup qs → length (qs ≫= contents M) ≤ length (all M).
Proof.
  revert M. induction qs as [|q qs IH]; intros M Hnd; [cbn; lia|]. apply NoDup_cons in Hnd as [Hq Hnd].
  cbn. rewrite length_app. destruct (M !! q) as [l|] eqn:E.
  - rewrite (all_lookup M q l E), length_app. unfold contents at 1. rewrite E. cbn.
    specialize (IH (delete q M) Hnd). enough (length (qs ≫= contents M) = length (qs ≫= contents (delete q M))) by lia.
    clear -Hq. f_equal. induction qs as [|q' qs IH]; [done|]. apply not_elem_of_cons in Hq as [Hne Hq]. cbn.
    rewrite IH by done. f_equal. unfold contents. by rewrite lookup_delete_ne.
  - unfold contents at 1. rewrite E. cbn. by apply IH.
Qed.

(** The queues that searches are in *)
Definition searched (t : task) : list htc_queue := match t with TSearch _ _ q => [q] | _ => [] end.

Lemma search_parts_bound es M ts : NoDup es →
  length (es ≫= λ e, ts ≫= search_part e M) ≤ length ((ts ≫= searched) ≫= contents M).
Proof.
  intros Hnd. induction ts as [|t ts IH]; [cbn; clear; induction es; cbn; lia|]. cbn.
  rewrite bind_app, length_app.
  assert (length (es ≫= λ e, search_part e M t ++ (ts ≫= search_part e M)) =
    length (es ≫= λ e, search_part e M t) + length (es ≫= λ e, ts ≫= search_part e M)) as ->.
  { clear. induction es as [|e es IH]; [done|]. cbn. rewrite !length_app, IH. lia. }
  enough (length (es ≫= λ e, search_part e M t) ≤ length (searched t ≫= contents M)) by lia.
  clear -Hnd. destruct t; try (cbn; clear; induction es; cbn; lia). cbn. rewrite app_nil_r.
  induction es as [|e es IH]; [cbn; lia|]. apply NoDup_cons in Hnd as [He Hnd]. cbn. rewrite length_app.
  destruct (Z.eqb_spec ep e) as [->|Hne]; [|cbn; by apply IH].
  assert (length (es ≫= λ e', if (e =? e')%Z then contents M lookupQueue else []) = 0) as ->; [|lia].
  clear -He. induction es as [|e' es IH]; [done|]. apply not_elem_of_cons in He as [Hne He]. cbn.
  rewrite (proj2 (Z.eqb_neq _ _)) by done. by apply IH.
Qed.

Lemma filter_everything {A} (P : A → Prop) `{∀ a, Decision (P a)} l : Forall P l → filter P l = l.
Proof. induction 1 as [|a l Ha _ IH]; [done|]. by rewrite filter_cons_True, IH. Qed.

Lemma flight_split (es : list Z) (l : list (Z * positive)) : NoDup es →
  length (filter (λ eb, eb.1 ∈ es) l) = length (es ≫= λ e, (filter (λ eb, eb.1 = e) l).*2).
Proof.
  induction es as [|e es IH]; intros Hnd.
  - induction l as [|eb l IHl]; [done|]. rewrite filter_cons_False by (by intros ?%elem_of_nil). done.
  - apply NoDup_cons in Hnd as [He Hnd]. cbn. rewrite length_app, <- IH, length_fmap by done. clear IH.
    induction l as [|eb l IHl]; [done|]. rewrite !filter_cons. repeat case_decide; cbn; set_solver by lia.
Qed.

Context {granted : Z → Z} {ts : list task} {M : queue_map} {V : view} {x : surroundings}.
Hypothesis Hinv : inv granted ts M V x.

Lemma searched_nodup : NoDup (ts ≫= searched).
Proof.
  pose proof (qo_nodup _ _ _ (po_queues _ _ _ _ (inv_packets _ _ _ _ _ Hinv))) as Hnd.
  eapply sublist_NoDup; [exact Hnd|]. clear. induction ts as [|t l IH]; [done|]. cbn.
  apply sublist_app; [|done]. destruct t; cbn; try apply sublist_nil_l. done.
Qed.

Lemma lookups_bound es : Forall (λ e, is_ep e = true) es → NoDup es →
  length (es ≫= λ e, lookups e M ts) ≤ length (all M).
Proof.
  intros Hes Hnd.
  assert (length (es ≫= λ e, lookups e M ts) =
    length ((TxLookupQueue <$> es) ≫= contents M) + length (es ≫= λ e, ts ≫= search_part e M)) as ->.
  { clear. induction es as [|e es IH]; [done|]. cbn. unfold lookups at 1. rewrite !length_app, IH. lia. }
  pose proof (search_parts_bound es M ts Hnd) as H1.
  pose proof (queues_bound ((TxLookupQueue <$> es) ++ (ts ≫= searched)) M) as H2.
  rewrite bind_app, length_app in H2. enough (NoDup ((TxLookupQueue <$> es) ++ (ts ≫= searched))) by (specialize (H2 ltac:(done)); lia).
  apply NoDup_app. split; [|split; [|exact searched_nodup]].
  - apply NoDup_fmap_2; [|done]. by intros ? ? [=].
  - intros q (e & -> & _)%list_elem_of_fmap Hq.
    destruct (qo_own _ _ _ (po_queues _ _ _ _ (inv_packets _ _ _ _ _ Hinv)) (TxLookupQueue e)) as [[k [=]] _].
    apply list_elem_of_bind in Hq as (t & Hq & Ht). apply list_elem_of_bind. exists t. split; [|done].
    destruct t; cbn in Hq |- *; try by apply elem_of_nil in Hq. done.
Qed.

Lemma flight_bound : length (in_flight x) ≤ length (posted x).
Proof.
  set (es := seqZ 0 ENDPOINT_MAX).
  assert (∀ e, e ∈ es ↔ is_ep e = true) as Hes.
  { intros e. unfold es, is_ep. rewrite elem_of_seqZ, andb_true_iff, Z.leb_le, Z.ltb_lt. lia. }
  assert (NoDup es) as Hnd by apply NoDup_seqZ.
  assert (length (in_flight x) = length (es ≫= λ e, in_flight_of e x)) as ->.
  { unfold in_flight_of. rewrite <- flight_split by done. f_equal. symmetry. apply filter_everything.
    eapply Forall_impl; [exact (inv_flight _ _ _ _ _ Hinv)|]. intros eb Heb. by apply Hes. }
  assert (length (es ≫= λ e, in_flight_of e x) ≤ length (es ≫= λ e, lookups e M ts)) as H1.
  { assert (∀ l, (∀ e, e ∈ l → is_ep e = true) →
      length (l ≫= λ e, in_flight_of e x) ≤ length (l ≫= λ e, lookups e M ts)) as H; [|apply H; intros e; apply Hes].
    induction l as [|e l IH]; intros Hl; [done|]. cbn. rewrite !length_app.
    specialize (IH ltac:(intros e' He'; apply Hl; by right)).
    destruct (inv_transfers _ _ _ _ _ Hinv e (Hl e ltac:(by left))) as [(lost & H & _) _].
    apply Permutation_length in H. rewrite length_fmap in H. unfold transfers in H. rewrite !length_app, length_fmap in H. lia. }
  assert (length (es ≫= λ e, lookups e M ts) ≤ length (all M)) as H2.
  { apply lookups_bound; [|done]. apply Forall_forall. intros e. apply Hes. }
  pose proof (po_posted _ _ _ _ (inv_packets _ _ _ _ _ Hinv)) as H3. apply Permutation_length in H3.
  unfold live in H3. rewrite !length_app in H3. lia.
Qed.
End bound.

(** * The system *)

(** A section of a task that is not done. *)
Definition task_step {Q} `{PacketQueue Q} (w w' : world Q) : Prop :=
  ∃ i t env t' s', tasks w !! i = Some t ∧ is_done t = false ∧ may_run w t ∧
    run_task env t (st w) = Some (t', s') ∧
    w' = mk_world s' (<[i := t']> (tasks w)) (after env t t' (st w).2 (sur w)).

Definition work (M : queue_map) (ts : list task) (x : surroundings) : nat :=
  4 * (length (posted x) - length (in_flight x)) + sum_list_with (weight M) ts.

Lemma work_perm M ts ts' x : ts ≡ₚ ts' → work M ts x = work M ts' x.
Proof. intros H. unfold work. by rewrite H. Qed.

Section others.
Context {granted : Z → Z} {t : task} {O : list task} {M : queue_map} {s : HTC_TARGET} {x : surroundings}.
Hypothesis Hinv : inv granted (t :: O) M (view_of s) x.

Lemma contents_nodup q : NoDup (contents M q).
Proof.
  pose proof (po_nodup _ _ _ _ (inv_packets _ _ _ _ _ Hinv)) as Hnd. apply NoDup_app in Hnd as [Hnd _].
  unfold contents. destruct (M !! q) as [l|] eqn:E; [by eapply queue_nodup|apply NoDup_nil_2].
Qed.

Lemma weight_frame M' t2 : (∀ q, q ∈ task_queues t2 → contents M' q = contents M q) → weight M' t2 = weight M t2.
Proof. intros H. destruct t2; cbn; try done; rewrite H; done || (apply elem_of_app; left; by left). Qed.

(** What a section leaves of the weight of the other tasks *)
Lemma others_weight env t' M' s' : run_task env t (M, s) = Some (t', (M', s')) →
  sum_list_with (weight M') O = sum_list_with (weight M) O.
Proof.
  intros Hr. destruct (frame_section env t _ _ _ _ _ Hr) as [_ Hf].
  destruct (po_queues _ _ _ _ (inv_packets _ _ _ _ _ Hinv)) as [_ Hlocal Hnd Hown _]. cbn in Hnd, Hown.
  apply NoDup_app in Hnd as (_ & Hdis & _).
  assert (∀ l, l ⊆ O → sum_list_with (weight M') l = sum_list_with (weight M) l) as H; [|by apply H].
  induction l as [|t2 l IH]; intros Hl; [done|]. cbn. rewrite IH by (intros t3 H3; apply Hl; by right). f_equal.
  apply weight_frame. intros q Hq.
  assert (q ∈ O ≫= task_queues) as HqO by (apply list_elem_of_bind; exists t2; split; [done|apply Hl; by left]).
  destruct (Hown q) as [[k ->] [l' Hl']]; [apply elem_of_app; by right|]. apply Hf.
  - destruct (decide (next_local s ≤ k)%positive) as [Hk|]; [|lia]. cbn in Hlocal. by rewrite Hlocal in Hl'.
  - intros Hk. by destruct (Hdis _ Hk).
Qed.

(** What the surroundings count *)
Lemma after_counts env t' : posted (after env t t' s x) = posted x ∧
  length (in_flight (after env t t' s x)) = length (in_flight x) + (if taken t t' then 1 else 0).
Proof.
  pose proof (po_tasks _ _ _ _ (inv_packets _ _ _ _ _ Hinv)) as Ht. apply Forall_cons in Ht as [[_ Ht] _].
  destruct t as [| | | |ep q r k|ep q r k| |ep q p k| | | | | | | | | | | |]; try (cbn; rewrite Nat.add_0_r; done).
  - cbn. rewrite Nat.add_0_r. destruct t'; try done; destruct (endpoint s !! ep); try done; by destruct (_ =? _)%Z.
  - cbn. rewrite Nat.add_0_r. destruct t'; try done; by destruct (endpoint s !! ep).
  - destruct Ht as (_ & _ & _ & _ & pkt & sz & Hp & _). destruct (view_pkts_lookup _ _ _ _ eq_refl Hp) as (pkt1 & Hp1 & _).
    destruct t'; cbn; rewrite ?Nat.add_0_r; try done. rewrite Hp1. cbn. by rewrite length_app.
Qed.
End others.

Section settle.
Context {Q : Type} `{!PacketQueue Q} {R : Q → queue_map → Prop} `{!QueueRefinement R} (granted : Z → Z).
Implicit Types (w : world Q) (M : queue_map).

Definition good_at M w : Prop :=
  R (st w).1 M ∧ hist_ok (st w).2 ∧ inv granted (tasks w) M (view_of (st w).2) (sur w).

(** Every section leaves less to do. *)
Lemma task_step_works M w w' : good_at M w → task_step w w' →
  ∃ M', good_at M' w' ∧ work M' (tasks w') (sur w') < work M (tasks w) (sur w).
Proof.
  intros (HR & Hh & Hinv) (i & t & env & t' & s' & Hi & Hd & Hm & Hr & ->).
  destruct (may_run_others w i t Hi Hm) as (O & Hp & Hins & Hs).
  pose proof (inv_perm _ _ _ _ _ _ Hp Hinv) as Hinv'.
  destruct (st w) as [q s] eqn:Es. cbn [fst snd] in *.
  destruct (task_keeps granted env t O M _ _ Hs Hinv' s eq_refl Hh) as (t1 & [M' s1] & Hr1 & Hh' & Hkeep).
  cbn [fst snd] in *.
  destruct (run_task_sim R env t (q, s) (M, s) t1 (M', s1)) as ([q1 s2] & Hr2 & [HR' He]); [done|done|].
  cbn [fst snd] in *. subst s2. rewrite Hr in Hr2. simplify_eq. exists M'. split.
  - split; [done|]. split; [done|]. cbn [st tasks sur snd]. rewrite after_view_of.
    eapply inv_perm; [symmetry; apply Hins|done].
  - cbn [tasks sur]. rewrite (work_perm _ _ _ _ (Hins t1)), (work_perm _ _ _ _ Hp).
    pose proof (task_shrinks _ _ _ _ _ _ _ (contents_nodup Hinv') Hd Hr1) as Hw.
    destruct (after_counts Hinv' env t1) as [Hpo Hfl]. pose proof (flight_bound Hkeep) as Hb.
    rewrite <- after_view_of in Hb. unfold work. cbn. rewrite (others_weight Hinv' _ _ _ _ Hr1).
    rewrite Hpo, Hfl in *. destruct (taken t t1); lia.
Qed.

Lemma steps_bounded k M w w' : good_at M w → nsteps task_step k w w' → k ≤ work M (tasks w) (sur w).
Proof.
  revert M w. induction k as [|k IH]; intros M w HG Hk; [lia|].
  inversion Hk as [|? ? w1 ? Hs Hk1]; subst. destruct (task_step_works M w w1 HG Hs) as (M1 & HG1 & Hw).
  specialize (IH M1 w1 HG1 Hk1). lia.
Qed.

(** A task that has not ended, or a search it waits for, can go on. *)
Lemma not_stuck w : good (R := R) granted w → ¬ quiet w → ∃ w', task_step w w'.
Proof.
  intros HG Hq. assert (∃ i t, tasks w !! i = Some t ∧ is_done t = false ∧ may_run w t) as (i & t & Hi & Hd & Hm).
  { destruct (existsb (λ t, match t with TSearch _ _ _ => true | _ => false end) (tasks w)) eqn:E.
    - apply existsb_exists in E as (t & Ht & Hs). apply list_elem_of_In, list_elem_of_lookup in Ht as [i Hi].
      exists i, t. by destruct t.
    - destruct (decide (Exists (λ t, is_done t = false) (tasks w))) as [H|H]; cycle 1.
      { destruct Hq. apply Forall_forall. intros t Ht. destruct (is_done t) eqn:Ed; [done|].
        destruct H. apply Exists_exists. eauto. }
      apply Exists_exists in H as (t & Ht & Hd). apply list_elem_of_lookup in Ht as [i Hi]. exists i, t.
      split; [done|]. split; [done|]. destruct t; try done. cbn.
      apply not_true_iff_false. intros Hs. apply not_true_iff_false in E. apply E.
      apply existsb_exists in Hs as (t & Ht & Hs). apply existsb_exists. exists t. by destruct t. }
  set (env := mk_hif true A_OK 0 (λ _, false)).
  destruct (good_runs granted w i t env HG Hi Hm) as (t' & s' & Hr & _). eexists. exists i, t, env, t', s'. eauto.
Qed.
End settle.

Lemma task_step_step {Q} `{PacketQueue Q} (w w' : world Q) : task_step w w' → step w w'.
Proof. intros (i & t & env & t' & s' & Hi & _ & Hm & Hr & ->). by eapply step_run. Qed.

(** From any state, the tasks can be run to their ends. *)
Lemma runs_to_rest n (w0 w : world dl_mem) M :
  reachable w0 w → good_at (R := rep) (granted_at w0) M w → work M (tasks w) (sur w) ≤ n →
  ∃ w', rtc task_step w w' ∧ quiet w' ∧ reachable w0 w'.
Proof.
  revert w M. induction n as [n IH] using lt_wf_ind. intros w M Hr HG Hn.
  destruct (decide (Forall (λ t, is_done t = true) (tasks w))) as [Hq|Hq]; [by exists w; repeat split|].
  destruct (not_stuck (R := rep) (granted_at w0) w) as [w1 Hs]; [by exists M|done|].
  destruct (task_step_works (granted_at w0) M w w1 HG Hs) as (M1 & HG1 & Hw).
  assert (reachable w0 w1) as Hr1 by (eapply reach_step; [exact Hr|by apply task_step_step]).
  destruct (IH (work M1 (tasks w1) (sur w1)) ltac:(lia) w1 M1 Hr1 HG1 ltac:(lia)) as (w' & Hrun & Hq' & Hr').
  exists w'. split; [by eapply rtc_l|done].
Qed.

Lemma task_steps_reachable k (w0 w w' : world dl_mem) :
  reachable w0 w → nsteps task_step k w w' → reachable w0 w'.
Proof.
  intros Hr Hk. revert Hr. induction Hk as [|k w w1 w' Hs _ IH]; intros Hr; [done|].
  apply IH. eapply reach_step; [exact Hr|by apply task_step_step].
Qed.

(** C11. Termination: the channel comes to rest.  From any state, in whatever order
    the tasks run and whatever the bus answers them, the sections they go through
    before something new is asked of the channel are no more than [work] counts,
    and wherever they are on the way, they can all be brought to their ends. *)
Theorem channel_settles (w0 w : world dl_mem) :
  reachable w0 w →
  ∃ M, rep (st w).1 M ∧
    ∀ k w', nsteps task_step k w w' →
      k ≤ work M (tasks w) (sur w) ∧ ∃ w'', rtc task_step w' w'' ∧ quiet w'' ∧ reachable w0 w''.
Proof.
  intros Hr. destruct (channel_inv _ _ Hr) as (M & HG). exists M. split; [apply HG|]. intros k w' Hk.
  split; [by eapply steps_bounded|]. pose proof (task_steps_reachable _ _ _ _ Hr Hk) as Hr'.
  destruct (channel_inv _ _ Hr') as (M' & HG'). by eapply runs_to_rest.
Qed.

(** In the middle of a drain loop *)
Definition sample_m : world dl_mem :=
  default sample_start (acts sample_start (ASend 1 [1%positive; 2%positive] :: replicate 7 (ARun 0 good_bus))).

Lemma sample_m_reachable : reachable sample_start sample_m.
Proof. apply acts_run; [apply reach_start, sample_starts|]. vm_compute. reflexivity. Qed.

Lemma channel_settles_witness :
  tasks sample_m = [TIssue 1 (LocalQueue 2) (KLeftover 1 (LocalQueue 1))] ∧
  ∃ M, rep (st sample_m).1 M ∧
    ∀ k w', nsteps task_step k sample_m w' →
      k ≤ work M (tasks sample_m) (sur sample_m) ∧
      ∃ w'', rtc task_step w' w'' ∧ quiet w'' ∧ reachable sample_start w''.
Proof.
  split; [vm_compute; reflexivity|]. apply (channel_settles sample_start). exact sample_m_reachable.
Defined.
